(* ===== verification/_CoqProject ===== *)
-Q . S2P
Prelude.v
Text.v
Ip.v
Ordering.v
BTreeMap.v
Json.v
Lifecycle.v
RuntimeState.v
Capture.v
Resource.v
Scheduler.v
Source.v
AutoUpdate.v
Supervisor.v
NodeRegistry.v
Generation.v
Activation.v
Capability.v
Interfaces.v
Rules.v
Plan.v
PlanRules.v
Kernel.v
Executor.v
Probe.v
Forwarding.v
WifiScene.v
Apps.v
Health.v
WorkerActivation.v
Composer.v
WorkerRuntime.v
DataPlane.v
CandidatePool.v
Stats.v
EventLog.v
Events.v
Detect.v
Base64.v
ProxyNode.v
Fingerprint.v
Diagnostics.v
Uri.v
Semantic.v
Dedupe.v
Pipeline.v
AtomicFile.v
StateFile.v
Transaction.v
Config.v
ConfigRouting.v
ConfigApps.v
ConfigChange.v
Protocol.v
ProtocolFrame.v
ProtocolBench.v
Cli.v
ConfigEdit.v
ConfigRuntime.v
Selection.v
Overrides.v
Candidates.v
Ssrf.v
Fetch.v
SourceFetch.v
SourceUpdate.v
RuleSet.v
Surfboard.v
