(* ===== verification/Prelude.v ===== *)
(** * NetHop: a verified model of the daemon

    NetHop is a root-privileged transparent-proxy manager for Android.  A supervisor process
    keeps one worker alive.  The worker reads the user's configuration, downloads and parses
    subscriptions, turns them into numbered generations of a sing-box configuration, activates
    a generation by checking and starting a core, plans the network changes that send captured
    traffic to it, applies them with the system tools, watches the result and takes it back;
    a command-line client talks to it over a Unix socket.  This library models the parts that
    decide, order, validate and persist these steps, from the Rust sources under crates/, and
    proves what makes them correct.

    ** Files, in dependency order

    Foundations
    - Prelude: results, a state-and-error monad with its frame lemmas, machine integers,
      durations, bytes.  Text: decimal numbers, trimming, splitting.  Ip: addresses.
      Ordering: [Ord], sorting, deduplication, binary search.  BTreeMap: sorted maps.
      Json: JSON values.

    State machines, policies and schedules
    - Lifecycle (nethop-core/src/lifecycle.rs), RuntimeState (nethop-core/src/state.rs): the
      lifecycle axes with their reducer; the data-plane transition table.
    - Capture (nethop-core/src/capture.rs), Resource (nethop-core/src/resource.rs,
      nethopd/src/resource_policy.rs): capture policies; sampling and the idle policy.
    - Scheduler (nethopd/src/scheduler.rs), AutoUpdate (nethopd/src/auto_update.rs): the
      persistent schedules and the update services on them.
    - Supervisor (nethopd/src/supervisor.rs, run_supervisor_loop of application.rs).

    Network (nethop-android/src)
    - Capability, Probe (capability.rs, notification.rs): the report of the device and how it
      is read from the tools.  Interfaces, Rules, Plan (plan.rs): interface selection with its
      glob matcher; iptables payloads as data that print as the source prints them; the TPROXY
      and TUN planners.  PlanRules: what the planned chains do to a packet.
    - Kernel: the documented effect of a planned operation on tables, routes and policy rules.
      Executor (executor.rs): applying and rolling back a plan.  Forwarding (forwarding.rs),
      Health (health.rs): the stand-alone forwarding plan; reading an attachment back from the
      kernel.  WifiScene (wifi_scene.rs), Apps (apps.rs): Wi-Fi scenes; packages and UIDs.

    Generations and the worker
    - NodeRegistry, Generation (nethop-core/src/generation.rs): the node registry and the
      on-disk store, on a disk whose calls fail at will.  Composer (composer.rs): the
      configuration document of the core.
    - Activation (nethopd/src/activation.rs), WorkerActivation (worker_activation.rs,
      nethop-android/src/tun.rs), DataPlane (the health probes of worker_activation.rs),
      WorkerRuntime (worker_runtime.rs): audit and staging of a candidate; core, network and
      store as one activation; the probes; the watch loop with its repairs.
    - CandidatePool (candidate_pool.rs), Candidates (worker_services.rs), Selection
      (selection.rs): which nodes are tested; a conversion becomes a candidate; the selected
      and the active node.  Stats (stats.rs), EventLog, Events (events.rs): traffic deltas;
      log files; the event hub.

    Subscriptions (nethop-subscription/src)
    - Detect, Base64, ProxyNode, Fingerprint, Diagnostics, Uri, Semantic, Dedupe, Pipeline
      (detect.rs, limits.rs, normalize.rs, base64_container.rs, protocol.rs, capability.rs,
      diagnostics.rs, adapter.rs, uri.rs, semantic.rs, pipeline.rs): from bytes to deduplicated,
      validated nodes.  Surfboard (surfboard.rs): profiles in the Surfboard format.
    - Ssrf, Fetch (fetch.rs, fetch/ureq_adapter.rs, source_url.rs): the address policy with
      its resolver and connector; redirects, mirrors, conditional requests, bounded bodies.
    - SourceFetch, SourceUpdate (nethopd/src/source_update.rs): the cached bodies of the
      sources; preparing and committing the next generation.  Overrides
      (node_override.rs, manual_source.rs, core_adapter.rs): rewritten and imported nodes.
    - RuleSet (nethopd/src/ruleset.rs): the transaction over the pair of rule sets, on a
      directory whose every call can fail or be the last before the process stops.

    Configuration (nethopd/src)
    - Source (source_config.rs): stable identities of sources.  AtomicFile, StateFile
      (worker_config.rs): the atomic replacement of a file and the outcomes its callers see.
      Transaction (subscription_transaction.rs): the commit journal and its recovery.
    - Config, ConfigRouting, ConfigApps, ConfigChange (config_model.rs,
      refresh_application_policy of worker_application.rs): validation, routing lists,
      application policy, impact of a change.  ConfigEdit, ConfigRuntime
      (config_reconciler.rs, worker_config.rs): edits of the control protocol; the store and
      the change transactions over the configuration and the source registry.

    Control protocol
    - Protocol, ProtocolFrame, ProtocolBench (nethop-protocol/src/lib.rs, uds.rs): messages
      and their validation, frames and the server of a connection, benchmark reports.  Cli
      (nethopctl/src/lib.rs): the command-line client.

    A Rust struct is a [Record], an enum an [Inductive], a [&mut self] method a function
    returning the new state ([Mut S E A] when it also returns a [Result]; the state left by an
    early return is part of the result).  An unsigned w-bit integer is a [Z] below [2 ^ w],
    with wrapping, saturation and casts written out; a [Duration] is its nanoseconds; a
    [String] its bytes.  [HashMap] and [HashSet] are [gmap] and [gset], [BTreeMap] a sorted
    association list.  A panic the code can reach is [None], or [Panic] where errors are
    values too.

    ** Interfaces

    Code outside the sources is a class with laws, or a parameter; every class has an instance
    that the witnesses use.  Storage and processes: [ScheduleStore], [WorkerBackend],
    [CoreBackend], [ProcessTable], the failures of the file system (an explicit list of
    outcomes), entropy and the clock.  Network: [Netfilter], [NetworkCommandBackend],
    [ProbeBackend], [NetworkHealthVerifier], [TunRuntime].  Between components:
    [NetworkController], [DataPlane], [CoreObserver], [RuntimeHealthVerifier],
    [SourceBodyFetcher], [SourceAdapters], [ControlRequestHandler], [ControlTransport].
    Libraries: [Base64Engine], [HttpAgent], [Reader], [WireSerde], and as parameters SHA-256,
    TOML and serde codecs, the URL parser, gzip, UUIDs, [read_dir].  Idealised: asking whether a
    path exists does not fail, the tools the probes run print less than the limit of a stream,
    and usize has 64 bits.

    ** What the theorems show

    - Atomicity and crash safety: activation across store, core and network
      (C1); applying a plan, from a probed device too
      (C2, C3); the
      current generation is always complete (C4);
      committing and preparing an update (C5,
      C6); the rule sets under interruption
      (C7); configuration, registry and running state in step
      (C8), checkpoints that bring them back
      (C18); resumable recovery
      (C28); good bodies survive bad downloads
      (C16).
    - Traffic: the output chain marks what the policy captures
      (C13), the composed document routes as the options say
      and closes its references (C9,
      C40), capture that was switched off is off
      (C29), the worker gives its network back, a failed
      repair apart (C14), the application policy is the user's
      (C27).
    - Subscriptions: only public addresses are dialled (C10,
      C24), downloads end within their policy
      (C11, C30), identities are faithful up
      to a zero and merging exact (C32, C39), candidate
      and registry agree (C12), an import is what its preview showed
      (C20), overrides round trip
      (C26).
    - Configuration: edits follow identities (C15),
      secrets stay hidden (C25), routing lists are disjoint
      (C33), the impact of a change is not understated
      (C36).
    - Control: validation is the table (C19), a call over the
      socket is the call (C17) and only root is served
      (C23), the client agrees with the protocol
      (C21) and waits a bounded time
      (C22), no event is lost silently
      (C35).
    - Processes and schedules: one supervised worker (C37),
      restarts lose no schedule (C38).
    - Where the code does not do what it means to: a change that is too large sticks
      (C31), a torn journal blocks the rule sets
      (C34).
    The lemmas beside them carry the rest: exact parsers and printers, round trips of the file
    formats, bounds, idempotence, the reachable states of the state machines.

    ** Fuel and bounds

    Loops that are not structural carry fuel that is proved enough: [glob_loop] runs at most
    (|value| + 1) * (|pattern| + 2) turns; binary search halves its interval; decimal printing
    has 20 digits for 64-bit and hexadecimal 8 for 32-bit values; [allocate_loop] has the
    source's own 16 attempts; [PARSE_DEPTH] is the depth at which containers stop nesting;
    the round-robin takes at most one turn more than there are nodes; the text scanners have
    the length of their input; the diagnostics of a report are dropped at most once each; an
    address has 8 groups; the client polls at most 241 times; a name is shortened within 128
    bytes; a download has one request more than its redirects and one read more than its
    limit.  [WorkerRuntime_run], the TUN runner and [probe_wait_healthy] run on the finite
    list of what the environment does.  [run_supervisor_loop] ends only when it is told to or
    on an error; its fuel bounds the turns looked at, and its theorem holds for every fuel.

    ** Not modelled

    The orchestration of the worker (worker_application.rs but for the parts named above,
    worker_service.rs, runner.rs, operational_control.rs) connects the modelled parts with
    sockets, threads and processes.  Input and output without decisions of its own: process
    spawning (process.rs), SQLite (storage.rs), the Clash API client (clash_api.rs), binding
    and accepting on the control socket, the blocking TLS transport of ureq_adapter.rs,
    netlink events, private DNS, eBPF, config_watch.rs, runtime_metrics.rs, log_retention.rs,
    the event reader and the printing of nethopctl.  Downloads and measurements: rule-set
    updates (ruleset_provider.rs, ruleset_update.rs), version_check.rs, node_benchmark.rs.
    Formats: the Clash YAML and sing-box JSON adapters are operations of the class
    [SourceAdapters]; the documents of ipc.rs have no caller; the territory tables are
    generated data.  The companion app, the web UI and the scripts are not Rust. *)

From Stdlib Require Export ZArith Lia.
From stdpp Require Export base numbers list strings sorting gmap.

Local Open Scope Z_scope.

(** The lemmas that close routine side conditions across the development. *)
Create HintDb nethop.

(** [split_if H] cases on the guard of the outermost conditional of the goal;
    [split_if_in] does so in a hypothesis. *)
Ltac split_if H :=
  lazymatch goal with |- context [if ?b then _ else _] => destruct b eqn:H end.
Ltac split_if_in H' H :=
  lazymatch type of H' with context [if ?b then _ else _] => destruct b eqn:H end.

(** ** Results and the two effect monads

    [Result E A] is Rust's [Result<A, E>].  A [&mut self] method that returns a
    [Result] is a [Mut S E A]: it always yields the state it leaves behind, also
    when it returns early with an error through [?]. *)
Inductive Result (E A : Type) : Type :=
| Ok (a : A)
| Err (e : E).
Arguments Ok {E A} a.
Arguments Err {E A} e.

#[export] Instance Result_ret E : MRet (Result E) := fun A a => Ok a.
#[export] Instance Result_bind E : MBind (Result E) := fun A B f m =>
  match m with Ok a => f a | Err e => Err e end.
#[export] Instance Result_eq_dec E A `{EqDecision E, EqDecision A} :
  EqDecision (Result E A).
Proof. solve_decision. Defined.

Definition is_ok {E A} (r : Result E A) : bool :=
  match r with Ok _ => true | Err _ => false end.
Definition is_err {E A} (r : Result E A) : bool := negb (is_ok r).
Definition map_err {E F A} (f : E -> F) (r : Result E A) : Result F A :=
  match r with Ok a => Ok a | Err e => Err (f e) end.
Definition ok_or {E A} (o : option A) (e : E) : Result E A :=
  match o with Some a => Ok a | None => Err e end.

(** [Option::is_some], [Option::is_some_and] and [Option::is_none_or]. *)
Definition is_some {A} (o : option A) : bool := match o with Some _ => true | None => false end.
Definition is_some_and {A} (f : A -> bool) (o : option A) : bool :=
  match o with Some a => f a | None => false end.
Definition is_none_or {A} (f : A -> bool) (o : option A) : bool :=
  match o with Some a => f a | None => true end.

Lemma is_err_false {E A} (r : Result E A) : is_err r = false <-> exists a, r = Ok a.
Proof. destruct r; naive_solver. Qed.
Lemma is_err_true {E A} (r : Result E A) : is_err r = true <-> exists e, r = Err e.
Proof. destruct r; naive_solver. Qed.

Lemma map_err_Ok {E F A} (f : E -> F) (r : Result E A) a : map_err f r = Ok a -> r = Ok a.
Proof. destruct r; simpl; congruence. Qed.
Lemma result_bind_Ok {E A B} (m : Result E A) (f : A -> Result E B) b :
  m ≫= f = Ok b -> exists a, m = Ok a /\ f a = Ok b.
Proof. unfold mbind, Result_bind. destruct m; [eauto|done]. Qed.

(** [iter.map(f).collect::<Result<Vec<_>, _>>()] *)
Fixpoint map_result {E A B} (f : A -> Result E B) (l : list A) : Result E (list B) :=
  match l with
  | [] => Ok []
  | a :: rest => b ← f a; bs ← map_result f rest; Ok (b :: bs)
  end.
Lemma map_result_fmap {E A B} (f : A -> Result E B) l r :
  map_result f l = Ok r -> Forall2 (fun a b => f a = Ok b) l r.
Proof.
  revert r. induction l as [|a l IH]; intros r; cbn; [intros [= <-]; constructor|].
  intros (b & Hb & Hr)%result_bind_Ok. apply result_bind_Ok in Hr as (bs & Hbs & [= <-]). constructor; auto.
Qed.
Lemma map_result_all {E A B} (f : A -> Result E B) (g : A -> B) l :
  Forall (fun a => f a = Ok (g a)) l -> map_result f l = Ok (g <$> l).
Proof. induction 1 as [|a l Ha _ IH]; cbn; [done|]. by rewrite Ha, IH. Qed.

Definition Mut (S E A : Type) : Type := S -> Result E A * S.
#[export] Instance Mut_ret S E : MRet (Mut S E) := fun A a s => (Ok a, s).
#[export] Instance Mut_bind S E : MBind (Mut S E) := fun A B f m s =>
  match m s with
  | (Ok a, s') => f a s'
  | (Err e, s') => (Err e, s')
  end.
Definition mut_get {S E} : Mut S E S := fun s => (Ok s, s).
Definition mut_put {S E} (s' : S) : Mut S E unit := fun _ => (Ok tt, s').
Definition mut_fail {S E A} (e : E) : Mut S E A := fun s => (Err e, s).
Definition mut_lift {S E A} (r : Result E A) : Mut S E A := fun s => (r, s).

(** [keeps R m]: whatever [m] returns, the state it leaves is related by [R] to
    the one it started from. *)
Definition keeps {S E A} (R : S -> S -> Prop) (m : Mut S E A) : Prop := forall s, R s (m s).2.

Section keeps.
Context {S E : Type} (R : S -> S -> Prop) `{!PreOrder R}.

Lemma keeps_ret {A} (a : A) : keeps R (mret a : Mut S E A).
Proof. intros s. simpl. reflexivity. Qed.
Lemma keeps_fail {A} (e : E) : keeps R (mut_fail e : Mut S E A).
Proof. intros s. simpl. reflexivity. Qed.
Lemma keeps_lift {A} (r : Result E A) : keeps R (mut_lift r : Mut S E A).
Proof. intros s. simpl. reflexivity. Qed.
Lemma keeps_bind {A B} (m : Mut S E A) (f : A -> Mut S E B) :
  keeps R m -> (forall a, keeps R (f a)) -> keeps R (m ≫= f).
Proof.
  intros Hm Hf s. specialize (Hm s). unfold mbind, Mut_bind.
  destruct (m s) as [[a|e] s']; simpl in *; [|done]. etransitivity; [exact Hm|apply Hf].
Qed.
Lemma keeps_bind_val {A B} (m : Mut S E A) (f : A -> Mut S E B) :
  keeps R m -> (forall s a s', m s = (Ok a, s') -> R s' (f a s').2) -> keeps R (m ≫= f).
Proof.
  intros Hm Hf s. specialize (Hm s). unfold mbind, Mut_bind.
  destruct (m s) as [[a|e] s'] eqn:Em; simpl in *; [|done].
  etransitivity; [exact Hm|by eapply Hf].
Qed.
End keeps.
#[export] Hint Resolve keeps_ret keeps_fail keeps_lift keeps_bind : nethop.

Lemma keeps_weaken {S E A} (R R' : S -> S -> Prop) (m : Mut S E A) :
  (forall s s', R s s' -> R' s s') -> keeps R m -> keeps R' m.
Proof. intros H Hm s. apply H, Hm. Qed.

(** A sequence that succeeded, or the part of it that failed. *)
Lemma bind_Ok {S E A B} (m : Mut S E A) (f : A -> Mut S E B) s b s' :
  (m ≫= f) s = (Ok b, s') -> exists a s1, m s = (Ok a, s1) /\ f a s1 = (Ok b, s').
Proof. unfold mbind, Mut_bind. destruct (m s) as [[a|e] s1]; naive_solver. Qed.
Lemma bind_inv {S E A B} (m : Mut S E A) (f : A -> Mut S E B) s r s' :
  (m ≫= f) s = (r, s') ->
  (exists a s1, m s = (Ok a, s1) /\ f a s1 = (r, s'))
  \/ (exists e, m s = (Err e, s') /\ r = Err e).
Proof. unfold mbind, Mut_bind. destruct (m s) as [[a|e] s1]; naive_solver. Qed.

(** The outcome of a system call that can fail; a call that fails may have done part
    of its work. *)
Inductive Outcome : Type := Succeeds | Fails (partial : nat).

(** ** Machine integers

    A w-bit unsigned value is a [Z] in [0, 2^w); the operators below are the
    wrapping, truncating and saturating ones the sources call. *)
Definition umax (w : Z) : Z := 2 ^ w - 1.
Definition is_uint (w z : Z) : Prop := 0 <= z < 2 ^ w.
Definition cast_u (w z : Z) : Z := z mod 2 ^ w.
Definition sat_add_u (w a b : Z) : Z := Z.min (a + b) (umax w).
Definition sat_sub_u (a b : Z) : Z := Z.max 0 (a - b).
Definition wrapping_mul_u (w a b : Z) : Z := (a * b) mod 2 ^ w.

Definition i64_min : Z := - 2 ^ 63.
Definition i64_max : Z := 2 ^ 63 - 1.
Definition is_i64 (z : Z) : Prop := i64_min <= z <= i64_max.
Definition clamp_i64 (z : Z) : Z := Z.max i64_min (Z.min z i64_max).
Definition sat_add_i64 (a b : Z) : Z := clamp_i64 (a + b).
Definition sat_sub_i64 (a b : Z) : Z := clamp_i64 (a - b).
Definition sat_mul_i64 (a b : Z) : Z := clamp_i64 (a * b).

Lemma cast_u_small w z : is_uint w z -> cast_u w z = z.
Proof. intros [? ?]. by apply Z.mod_small. Qed.
Lemma cast_u_range w z : 0 <= w -> is_uint w (cast_u w z).
Proof. intros. apply Z.mod_pos_bound. by apply Z.pow_pos_nonneg. Qed.
Lemma sat_add_u_range w a b :
  is_uint w a -> is_uint w b -> is_uint w (sat_add_u w a b).
Proof. unfold is_uint, sat_add_u, umax. lia. Qed.
Lemma clamp_i64_id z : is_i64 z -> clamp_i64 z = z.
Proof. unfold is_i64, clamp_i64. lia. Qed.
Lemma clamp_i64_range z : is_i64 (clamp_i64 z).
Proof. unfold is_i64, clamp_i64, i64_min, i64_max. lia. Qed.

(** ** [std::time::Duration], as a count of nanoseconds *)
Definition NANOS_PER_SEC : Z := 1000000000.
Definition NANOS_PER_MILLI : Z := 1000000.
Definition Duration_MAX : Z := umax 64 * NANOS_PER_SEC + 999999999.
Definition is_duration (d : Z) : Prop := 0 <= d <= Duration_MAX.
Definition from_secs (s : Z) : Z := s * NANOS_PER_SEC.
Definition from_millis (ms : Z) : Z := ms * NANOS_PER_MILLI.
Definition as_millis (d : Z) : Z := d / NANOS_PER_MILLI.
Definition dur_saturating_add (a b : Z) : Z := Z.min (a + b) Duration_MAX.
Definition dur_saturating_sub (a b : Z) : Z := Z.max 0 (a - b).
Definition dur_is_zero (d : Z) : bool := d =? 0.

(** ** Lengths, bytes and character classes

    A Rust [String] is its UTF-8 bytes, a Rocq [string]; [str_len] is
    [str::len]. *)
Definition len {A} (l : list A) : Z := Z.of_nat (length l).
Definition str_len (s : string) : Z := Z.of_nat (String.length s).
Definition byte_of (c : Ascii.ascii) : Z := Z.of_N (Ascii.N_of_ascii c).
Fixpoint bytes (s : string) : list Z :=
  match s with
  | EmptyString => []
  | String c rest => byte_of c :: bytes rest
  end.

Definition in_range (lo hi b : Z) : bool := (lo <=? b) && (b <=? hi).
Definition is_ascii_digit (b : Z) : bool := in_range 48 57 b.
Definition is_ascii_lowercase (b : Z) : bool := in_range 97 122 b.
Definition is_ascii_uppercase (b : Z) : bool := in_range 65 90 b.
Definition is_ascii_alphanumeric (b : Z) : bool :=
  is_ascii_digit b || is_ascii_lowercase b || is_ascii_uppercase b.
Definition is_ascii_control (b : Z) : bool := (b <? 32) || (b =? 127).
Definition is_lower_hex (b : Z) : bool := is_ascii_digit b || in_range 97 102 b.

(** [s.chars().any(char::is_control)] on the UTF-8 bytes of [s]: the Unicode
    class Cc is U+0000..U+001F, U+007F and U+0080..U+009F, and the last range is
    encoded as 0xC2 followed by 0x80..0x9F. *)
Fixpoint has_control (bs : list Z) : bool :=
  match bs with
  | [] => false
  | b :: rest =>
      is_ascii_control b
      || ((b =? 194) && match rest with c :: _ => in_range 128 159 c | [] => false end)
      || has_control rest
  end.

Lemma bytes_length s : len (bytes s) = str_len s.
Proof. induction s as [|c s IH]; [done|]. unfold len, str_len in *. simpl. lia. Qed.
Lemma bytes_app a b : bytes (a +:+ b) = bytes a ++ bytes b.
Proof. induction a as [|c a IH]; [done|]. simpl. by rewrite IH. Qed.

(** The inverse of [bytes]. *)
Fixpoint of_bytes (bs : list Z) : string :=
  match bs with
  | [] => EmptyString
  | b :: rest => String (Ascii.ascii_of_N (Z.to_N b)) (of_bytes rest)
  end.
Lemma of_bytes_bytes s : of_bytes (bytes s) = s.
Proof.
  induction s as [|c s IH]; [done|]. simpl. rewrite IH. f_equal. unfold byte_of.
  rewrite N2Z.id. apply Ascii.ascii_N_embedding.
Qed.
Lemma bytes_inj s t : bytes s = bytes t -> s = t.
Proof. intros H. rewrite <- (of_bytes_bytes s), <- (of_bytes_bytes t). by rewrite H. Qed.

Lemma bytes_of_bytes bs : Forall (fun b => 0 <= b < 256) bs -> bytes (of_bytes bs) = bs.
Proof.
  induction 1 as [|b bs Hb _ IH]; [done|]. simpl. rewrite IH. f_equal. unfold byte_of.
  rewrite Ascii.N_ascii_embedding by lia. lia.
Qed.

(** ** Lists *)
Lemma filter_all {A} (P : A -> Prop) `{forall x, Decision (P x)} (l : list A) :
  (forall x, x ∈ l -> P x) -> filter P l = l.
Proof.
  induction l as [|x l IH]; intros Hall; [done|].
  rewrite filter_cons_True by (apply Hall; by left). f_equal. apply IH. intros. apply Hall. by right.
Qed.

Lemma filter_none {A} (P : A -> Prop) `{forall x, Decision (P x)} (l : list A) :
  (forall x, x ∈ l -> ~ P x) -> filter P l = [].
Proof.
  induction l as [|x l IH]; intros Hall; [done|].
  rewrite filter_cons_False by (apply Hall; by left). apply IH. intros. apply Hall. by right.
Qed.

Lemma StronglySorted_filter {A} (R : A -> A -> Prop) (P : A -> Prop) `{forall x, Decision (P x)} l :
  StronglySorted R l -> StronglySorted R (filter P l).
Proof.
  induction 1 as [|x l Hs IH Hx]; [constructor|]. rewrite filter_cons. case_decide; [|done].
  constructor; [done|]. rewrite Forall_forall in Hx |- *. intros y [_ Hy]%list_elem_of_filter. auto.
Qed.

Lemma existsb_elem {A} (f : A -> bool) l x : x ∈ l -> f x = true -> existsb f l = true.
Proof. intros Hx Hf. apply existsb_exists. exists x. split; [by apply list_elem_of_In|done]. Qed.
Lemma existsb_false_elem {A} (f : A -> bool) l : existsb f l = false -> forall x, x ∈ l -> f x = false.
Proof.
  intros H x Hx. destruct (f x) eqn:E; [|done].
  by rewrite <- H, (proj2 (existsb_exists f l)) by (exists x; by rewrite <- list_elem_of_In).
Qed.
Lemma existsb_none {A} (f : A -> bool) l : (forall x, x ∈ l -> f x = false) -> existsb f l = false.
Proof.
  intros H. destruct (existsb f l) eqn:E; [|done].
  apply existsb_exists in E as (x & Hx%list_elem_of_In & Hf). by rewrite H in Hf.
Qed.
Lemma len_nonneg {A} (l : list A) : 0 <= len l.
Proof. unfold len. lia. Qed.

(** [Iterator::sum] *)
Definition sumZ (l : list Z) : Z := foldr Z.add 0 l.
Lemma sumZ_app l1 l2 : sumZ (l1 ++ l2) = sumZ l1 + sumZ l2.
Proof. induction l1 as [|x l1 IH]; simpl; [done|]. unfold sumZ in *. simpl. lia. Qed.
