(* ===== verification/Text.v ===== *)
(** * Text: decimal numbers, trimming and splitting of byte strings

    The parts of the standard library's text handling several components call:
    [format!] and [str::parse] of unsigned integers, [str::trim], [strip_prefix],
    [split], [lines] and ASCII case, on the bytes of a string. *)

From S2P Require Import Prelude.

Local Open Scope Z_scope.

(** ** Decimal numbers, as [format!] prints and [str::parse] reads a [u64] *)
Fixpoint digits_of (fuel : nat) (n : Z) (acc : list Z) : list Z :=
  match fuel with
  | O => acc
  | S fuel' =>
      let acc' := (48 + n mod 10) :: acc in
      if n <? 10 then acc' else digits_of fuel' (n / 10) acc'
  end.
(** Twenty digits hold every 64-bit value. *)
Definition print_u64 (n : Z) : list Z := digits_of 20 n [].

Fixpoint parse_digits (bs : list Z) (acc : Z) : option Z :=
  match bs with
  | [] => Some acc
  | b :: rest =>
      if is_ascii_digit b then
        let acc' := acc * 10 + (b - 48) in
        if acc' <=? umax 64 then parse_digits rest acc' else None
      else None
  end.
Definition parse_u64 (bs : list Z) : option Z :=
  match bs with
  | [] => None
  | 43 :: (_ :: _) as plus => parse_digits (tail plus) 0
  | _ => parse_digits bs 0
  end.

(** [str::trim] on ASCII text. *)
Definition is_space (b : Z) : bool := (b =? 32) || in_range 9 13 b.
Fixpoint trim_start (bs : list Z) : list Z :=
  match bs with
  | b :: rest => if is_space b then trim_start rest else bs
  | [] => []
  end.
Definition trim (bs : list Z) : list Z := reverse (trim_start (reverse (trim_start bs))).

(** [str::parse::<u8>]: the reader of [u64] with the smaller bound (the running
    value only grows, so testing it once at the end is the same). *)
Definition parse_u8 (bs : list Z) : option Z :=
  match parse_u64 bs with
  | Some n => if n <=? umax 8 then Some n else None
  | None => None
  end.

(** ** Prefixes, separators and case *)

(** [s.starts_with(prefix)] and [s[prefix.len()..]], on bytes. *)
Fixpoint strip_prefix (prefix s : list Z) : option (list Z) :=
  match prefix, s with
  | [], _ => Some s
  | p :: prefix', b :: s' => if p =? b then strip_prefix prefix' s' else None
  | _ :: _, [] => None
  end.
Definition starts_with (prefix s : string) : bool :=
  match strip_prefix (bytes prefix) (bytes s) with Some _ => true | None => false end.

(** [slice.split(|b| *b == sep)]: one piece more than separators. *)
Fixpoint split_on (sep : Z) (bs : list Z) : list (list Z) :=
  match bs with
  | [] => [[]]
  | b :: rest =>
      if b =? sep then [] :: split_on sep rest
      else
        match split_on sep rest with
        | piece :: pieces => (b :: piece) :: pieces
        | [] => [[b]]
        end
  end.

(** [str::split_once] and [rsplit_once] on a byte, and [split_once] on a string. *)
Fixpoint split_once (sep : Z) (bs : list Z) : option (list Z * list Z) :=
  match bs with
  | [] => None
  | b :: rest =>
      if b =? sep then Some ([], rest)
      else match split_once sep rest with Some (l, r) => Some (b :: l, r) | None => None end
  end.
Definition rsplit_once (sep : Z) (bs : list Z) : option (list Z * list Z) :=
  match split_once sep (reverse bs) with
  | Some (r, l) => Some (reverse l, reverse r)
  | None => None
  end.
Fixpoint split_once_str (sep bs : list Z) : option (list Z * list Z) :=
  match strip_prefix sep bs with
  | Some rest => Some ([], rest)
  | None =>
      match bs with
      | [] => None
      | b :: rest => match split_once_str sep rest with Some (l, r) => Some (b :: l, r) | None => None end
      end
  end.

(** [str::parse::<u16>] and [::<u32>]: see [parse_u8]. *)
Definition parse_uint (w : Z) (bs : list Z) : option Z :=
  match parse_u64 bs with
  | Some n => if n <=? umax w then Some n else None
  | None => None
  end.

(** ** UTF-8 and white space *)
Definition is_continuation (b : Z) : bool := in_range 128 191 b.
(** [std::str::from_utf8]: no overlong forms, no surrogates, nothing above U+10FFFF. *)
Fixpoint valid_utf8 (bs : list Z) : bool :=
  match bs with
  | [] => true
  | a :: r1 =>
      if a <? 128 then valid_utf8 r1
      else
        match r1 with
        | [] => false
        | b :: r2 =>
            if in_range 194 223 a then is_continuation b && valid_utf8 r2
            else
              match r2 with
              | [] => false
              | c :: r3 =>
                  if in_range 224 239 a then
                    (if a =? 224 then in_range 160 191 b
                     else if a =? 237 then in_range 128 159 b
                     else is_continuation b)
                    && is_continuation c && valid_utf8 r3
                  else
                    match r3 with
                    | [] => false
                    | d :: r4 =>
                        in_range 240 244 a
                        && (if a =? 240 then in_range 144 191 b
                            else if a =? 244 then in_range 128 143 b
                            else is_continuation b)
                        && is_continuation c && is_continuation d && valid_utf8 r4
                    end
              end
        end
  end.

(** The characters of White_Space outside ASCII: U+0085 and U+00A0; U+1680,
    U+2000..U+200A, U+2028, U+2029, U+202F, U+205F and U+3000. *)
Definition white2 (a b : Z) : bool := (a =? 194) && ((b =? 133) || (b =? 160)).
Definition white3 (a b c : Z) : bool :=
  ((a =? 225) && (b =? 154) && (c =? 128))
  || ((a =? 226) && (b =? 128) && (in_range 128 138 c || (c =? 168) || (c =? 169) || (c =? 175)))
  || ((a =? 226) && (b =? 129) && (c =? 159))
  || ((a =? 227) && (b =? 128) && (c =? 128)).
Fixpoint trim_left (bs : list Z) : list Z :=
  match bs with
  | [] => []
  | a :: r1 =>
      if is_space a then trim_left r1
      else
        match r1 with
        | [] => bs
        | b :: r2 =>
            if white2 a b then trim_left r2
            else
              match r2 with
              | [] => bs
              | c :: r3 => if white3 a b c then trim_left r3 else bs
              end
        end
  end.
(** The same from the end, on the reversed bytes. *)
Fixpoint trim_reversed (bs : list Z) : list Z :=
  match bs with
  | [] => []
  | a :: r1 =>
      if is_space a then trim_reversed r1
      else
        match r1 with
        | [] => bs
        | b :: r2 =>
            if white2 b a then trim_reversed r2
            else
              match r2 with
              | [] => bs
              | c :: r3 => if white3 c b a then trim_reversed r3 else bs
              end
        end
  end.
Definition trim_text (bs : list Z) : list Z := reverse (trim_reversed (reverse (trim_left bs))).

(** ** Lines, words and numbers of a tool's output *)

(** [str::lines]: a line ends at a line feed, and a carriage return before it is not
    part of it. *)
Fixpoint lines (bs : list Z) : list (list Z) :=
  match bs with
  | [] => []
  | b :: rest =>
      if b =? 10 then [] :: lines rest
      else if (b =? 13) && match rest with c :: _ => c =? 10 | [] => false end then lines rest
      else
        match lines rest with
        | line :: others => (b :: line) :: others
        | [] => [[b]]
        end
  end.

Definition is_ascii_whitespace (b : Z) : bool :=
  (b =? 32) || (b =? 9) || (b =? 10) || (b =? 12) || (b =? 13).
Fixpoint words (bs : list Z) : list (list Z) :=
  match bs with
  | [] => [[]]
  | b :: rest =>
      if is_ascii_whitespace b then [] :: words rest
      else
        match words rest with
        | word :: others => (b :: word) :: others
        | [] => [[b]]
        end
  end.
(** [str::split_ascii_whitespace] *)
Definition split_ascii_whitespace (bs : list Z) : list (list Z) :=
  filter (fun word => word <> []) (words bs).

(** [str::contains] and [str::find] on a string, [str::strip_suffix]. *)
Definition find_str (needle bs : list Z) : option nat := length ∘ fst <$> split_once_str needle bs.
Definition contains_str (needle bs : list Z) : bool :=
  match find_str needle bs with Some _ => true | None => false end.
Definition strip_suffix (suffix bs : list Z) : option (list Z) :=
  reverse <$> strip_prefix (reverse suffix) (reverse bs).
Definition has_prefix (prefix bs : list Z) : bool :=
  match strip_prefix prefix bs with Some _ => true | None => false end.
Definition has_suffix (suffix bs : list Z) : bool :=
  match strip_suffix suffix bs with Some _ => true | None => false end.
(** [trim_start_matches] and [trim_matches] on a character. *)
Fixpoint trim_start_matches (c : Z) (bs : list Z) : list Z :=
  match bs with
  | b :: rest => if b =? c then trim_start_matches c rest else bs
  | [] => []
  end.
Definition trim_end_matches (c : Z) (bs : list Z) : list Z := reverse (trim_start_matches c (reverse bs)).
Definition trim_matches (c : Z) (bs : list Z) : list Z := trim_end_matches c (trim_start_matches c bs).

(** [haystack.windows(n)] *)
Fixpoint windows {A} (n : nat) (l : list A) : list (list A) :=
  match l with
  | [] => []
  | _ :: rest => if (length l <? n)%nat then [] else take n l :: windows n rest
  end.

(** [u32::from_str_radix(_, 16)] *)
Definition hex_digit_value (b : Z) : option Z :=
  if is_ascii_digit b then Some (b - 48)
  else if in_range 97 102 b then Some (b - 87)
  else if in_range 65 70 b then Some (b - 55)
  else None.
Fixpoint parse_hex_digits (bs : list Z) (acc : Z) : option Z :=
  match bs with
  | [] => Some acc
  | b :: rest =>
      match hex_digit_value b with
      | Some d => let n := acc * 16 + d in if n <=? umax 32 then parse_hex_digits rest n else None
      | None => None
      end
  end.
Definition parse_hex_u32 (bs : list Z) : option Z :=
  match bs with
  | [] => None
  | 43 :: (_ :: _) as plus => parse_hex_digits (tail plus) 0
  | _ => parse_hex_digits bs 0
  end.

Definition to_ascii_lowercase (b : Z) : Z := if is_ascii_uppercase b then b + 32 else b.
Definition lowercase (s : string) : string := of_bytes (to_ascii_lowercase <$> bytes s).

(** ** Decimal round trips *)
Definition digits_value (bs : list Z) (acc : Z) : Z :=
  fold_left (fun a b => a * 10 + (b - 48)) bs acc.
Definition all_digits (bs : list Z) : Prop := Forall (fun b => is_ascii_digit b = true) bs.

Lemma is_ascii_digit_range b : is_ascii_digit b = true <-> 48 <= b <= 57.
Proof. unfold is_ascii_digit, in_range. lia. Qed.

Lemma digits_value_ge bs a : all_digits bs -> 0 <= a -> a <= digits_value bs a.
Proof.
  intros Hd. revert a. induction Hd as [|b bs Hb _ IH]; intros a Ha; simpl; [lia|].
  apply is_ascii_digit_range in Hb. specialize (IH (a * 10 + (b - 48)) ltac:(lia)).
  unfold digits_value in *. lia.
Qed.

Lemma parse_digits_value bs a :
  all_digits bs -> 0 <= a -> digits_value bs a <= umax 64 ->
  parse_digits bs a = Some (digits_value bs a).
Proof.
  intros Hd. revert a. induction Hd as [|b bs Hb Hd IH]; intros a Ha Hv; [done|].
  cbn [parse_digits]. rewrite Hb. apply is_ascii_digit_range in Hb.
  pose proof (digits_value_ge bs (a * 10 + (b - 48)) Hd ltac:(lia)) as Hge.
  change (digits_value (b :: bs) a) with (digits_value bs (a * 10 + (b - 48))) in *.
  rewrite (proj2 (Z.leb_le _ _)) by lia. apply IH; [lia|done].
Qed.

Lemma digits_of_spec fuel n acc :
  0 <= n < 10 ^ Z.of_nat fuel -> all_digits acc ->
  (0 < fuel)%nat ->
  all_digits (digits_of fuel n acc) /\ digits_of fuel n acc <> []
  /\ digits_value (digits_of fuel n acc) 0 = digits_value acc n.
Proof.
  revert n acc. induction fuel as [|fuel IH]; intros n acc Hn Hacc Hf; [lia|]. cbn [digits_of].
  pose proof (Z.mod_pos_bound n 10 ltac:(lia)) as Hm.
  assert (all_digits ((48 + n mod 10) :: acc)) as Hacc'
    by (constructor; [apply is_ascii_digit_range; lia|done]).
  destruct (Z.ltb_spec n 10) as [Hlt|Hge].
  - split; [done|]. split; [done|]. rewrite (Z.mod_small n 10) by lia. unfold digits_value. simpl.
    f_equal. lia.
  - rewrite Nat2Z.inj_succ, Z.pow_succ_r in Hn by lia.
    assert (0 < fuel)%nat as Hf'.
    { destruct fuel; [simpl in Hn; lia|lia]. }
    destruct (IH (n / 10) ((48 + n mod 10) :: acc)) as (H1 & H2 & H3); [|done|done|].
    { split; [apply Z.div_pos; lia|apply Z.div_lt_upper_bound; lia]. }
    split; [done|]. split; [done|]. rewrite H3. unfold digits_value. simpl. f_equal.
    pose proof (Z.div_mod n 10 ltac:(lia)). lia.
Qed.

Lemma trim_digits bs : all_digits bs -> bs <> [] -> trim (bs ++ [10]) = bs.
Proof.
  intros Hd Hne. unfold trim.
  assert (forall l k, all_digits l -> l <> [] -> trim_start (l ++ k) = l ++ k) as Hstart.
  { intros [|b l] k Hl Hn; [done|]. apply Forall_cons in Hl as [Hb%is_ascii_digit_range _]. simpl.
    unfold is_space, in_range. rewrite (proj2 (Z.eqb_neq b 32)) by lia.
    rewrite (proj2 (Z.leb_gt b 13)) by lia. by rewrite andb_false_r. }
  rewrite Hstart by done. rewrite reverse_app. cbn [reverse rev_append app trim_start].
  change (reverse [10]) with [10]. cbn [app trim_start]. change (is_space 10) with true. cbn iota.
  rewrite <- (app_nil_r (reverse bs)), Hstart, app_nil_r.
  - apply reverse_involutive.
  - by apply Forall_reverse.
  - intros E. apply Hne. rewrite <- (reverse_involutive bs), E. done.
Qed.

Lemma print_u64_digits n : is_uint 64 n -> all_digits (print_u64 n) /\ print_u64 n <> [].
Proof.
  intros Hn. destruct (digits_of_spec 20 n []) as (Hd & Hne & _); [|constructor|lia|done].
  unfold is_uint in Hn. change (10 ^ Z.of_nat 20) with 100000000000000000000. lia.
Qed.

Lemma parse_print_u64 n : is_uint 64 n -> parse_u64 (print_u64 n) = Some n.
Proof.
  intros Hg. unfold print_u64.
  destruct (digits_of_spec 20 n []) as (Hd & Hne & Hv); [|constructor|lia|].
  { unfold is_uint in Hg. change (10 ^ Z.of_nat 20) with 100000000000000000000. lia. }
  set (bs := digits_of 20 n []) in *.
  assert (parse_digits bs 0 = Some n) as Hp.
  { rewrite parse_digits_value; [by rewrite Hv|done|lia|]. rewrite Hv. unfold digits_value, umax.
    simpl. unfold is_uint in Hg. lia. }
  clearbody bs. destruct bs as [|b bs]; [done|].
  apply Forall_cons in Hd as [Hb%is_ascii_digit_range _].
  unfold parse_u64. destruct (Z.eq_dec b 43) as [->|Hb43]; [lia|].
  destruct b as [|p|p]; [done| |done]. do 6 (destruct p as [p|p|]; try done).
Qed.

(** ** Splitting *)
Lemma parse_digits_range bs a n : 0 <= a <= umax 64 -> parse_digits bs a = Some n -> 0 <= n <= umax 64.
Proof.
  revert a. induction bs as [|b bs IH]; intros a Ha; simpl; [by intros [= <-]|].
  destruct (is_ascii_digit b) eqn:Ed; [|done]. apply is_ascii_digit_range in Ed.
  destruct (_ <=? umax 64) eqn:E; [|done]. apply IH. lia.
Qed.
Lemma parse_u64_range bs n : parse_u64 bs = Some n -> 0 <= n <= umax 64.
Proof.
  unfold parse_u64. assert (0 <= 0 <= umax 64) as H0 by (split; [lia|vm_compute; congruence]).
  destruct bs as [|b bs]; [done|].
  repeat match goal with
         | |- context [match ?x with _ => _ end] => destruct x
         end; by apply parse_digits_range.
Qed.
Lemma digits_of_length fuel n acc : (length (digits_of fuel n acc) <= fuel + length acc)%nat.
Proof.
  revert n acc. induction fuel as [|fuel IH]; intros n acc; simpl; [lia|].
  destruct (n <? 10); [simpl; lia|]. specialize (IH (n / 10) ((48 + n mod 10) :: acc)). simpl in IH. lia.
Qed.
Lemma split_once_Some sep bs l r :
  split_once sep bs = Some (l, r) <-> bs = l ++ sep :: r /\ sep ∉ l.
Proof.
  revert l r. induction bs as [|b bs IH]; intros l r; simpl.
  - split; [done|]. intros [E _]. by destruct l.
  - destruct (Z.eqb_spec b sep) as [->|Hne].
    + split; [intros [= <- <-]; split; [done|apply not_elem_of_nil]|]. intros [E Hn].
      destruct l as [|x l]; [by simplify_eq/=|]. simplify_eq/=. by destruct Hn; left.
    + destruct (split_once sep bs) as [[l' r']|] eqn:Es.
      * destruct (proj1 (IH l' r') eq_refl) as [-> Hl']. split.
        -- intros [= <- <-]. split; [done|]. rewrite not_elem_of_cons. done.
        -- intros [E Hn]. destruct l as [|x l]; [by simplify_eq/=|]. simplify_eq/=.
           rewrite not_elem_of_cons in Hn. destruct Hn as [_ Hn].
           assert (Some (l', r') = Some (l, r)) as [= -> ->] by (by apply IH). done.
      * split; [done|]. intros [E Hn]. destruct l as [|x l]; [by simplify_eq/=|]. simplify_eq/=.
        rewrite not_elem_of_cons in Hn. destruct Hn as [_ Hn].
        pose proof (proj2 (IH l r) (conj eq_refl Hn)). done.
Qed.
Lemma split_once_None sep bs : split_once sep bs = None <-> sep ∉ bs.
Proof.
  induction bs as [|b bs IH]; simpl; [split; [intros _; apply not_elem_of_nil|done]|].
  rewrite not_elem_of_cons, <- IH. destruct (Z.eqb_spec b sep); [naive_solver|].
  destruct (split_once sep bs) as [[l r]|]; naive_solver.
Qed.
Lemma rsplit_once_Some sep bs l r :
  rsplit_once sep bs = Some (l, r) <-> bs = l ++ sep :: r /\ sep ∉ r.
Proof.
  unfold rsplit_once. destruct (split_once sep (reverse bs)) as [[x y]|] eqn:E.
  - apply split_once_Some in E as [E Hn]. split.
    + intros [= <- <-]. split; [|by rewrite elem_of_reverse].
      rewrite <- (reverse_involutive bs), E, reverse_app, reverse_cons. by rewrite <- (assoc_L (++)).
    + intros [Eb Hr]. assert (split_once sep (reverse bs) = Some (reverse r, reverse l)) as H1.
      { apply split_once_Some. rewrite elem_of_reverse. split; [|done].
        rewrite Eb, reverse_app, reverse_cons. by rewrite <- (assoc_L (++)). }
      assert (split_once sep (reverse bs) = Some (x, y)) as H2 by (by apply split_once_Some).
      rewrite H1 in H2. simplify_eq. by rewrite !reverse_involutive.
  - apply split_once_None in E. rewrite elem_of_reverse in E. split; [done|]. intros [-> _].
    destruct E. rewrite elem_of_app. right. by left.
Qed.
Lemma rsplit_once_None sep bs : rsplit_once sep bs = None <-> sep ∉ bs.
Proof.
  rewrite <- (elem_of_reverse sep bs), <- split_once_None. unfold rsplit_once.
  destruct (split_once sep (reverse bs)) as [[x y]|]; naive_solver.
Qed.
Lemma strip_prefix_Some prefix s r : strip_prefix prefix s = Some r <-> s = prefix ++ r.
Proof.
  revert s. induction prefix as [|p prefix IH]; intros s; simpl; [naive_solver|].
  destruct s as [|b s]; [naive_solver|]. destruct (Z.eqb_spec p b) as [->|Hne]; [rewrite IH|]; naive_solver.
Qed.
Lemma split_once_str_sound sep bs l r : split_once_str sep bs = Some (l, r) -> bs = l ++ sep ++ r.
Proof.
  revert l. induction bs as [|b bs IH]; intros l; simpl.
  - destruct (strip_prefix sep []) eqn:E; [|done]. intros [= <- <-]. by apply strip_prefix_Some in E.
  - destruct (strip_prefix sep (b :: bs)) eqn:E; [intros [= <- <-]; by apply strip_prefix_Some in E|].
    destruct (split_once_str sep bs) as [[l' r']|]; [|done]. intros [= <- <-]. by rewrite (IH l' eq_refl).
Qed.
(** A separator whose first byte does not occur before it is found where it is. *)
Lemma split_once_str_complete s sep l r :
  s ∉ l -> split_once_str (s :: sep) (l ++ (s :: sep) ++ r) = Some (l, r).
Proof.
  induction l as [|x l IH]; intros Hn.
  - rewrite app_nil_l. unfold split_once_str. destruct ((s :: sep) ++ r) eqn:E; [done|]. rewrite <- E.
    by rewrite (proj2 (strip_prefix_Some _ _ r) eq_refl).
  - apply not_elem_of_cons in Hn as [Hx Hn]. cbn [app split_once_str strip_prefix].
    rewrite (proj2 (Z.eqb_neq s x)) by done. cbn [app] in IH. by rewrite (IH Hn).
Qed.

Lemma windows_elem_of {A} n (l w : list A) :
  (0 < n)%nat -> w ∈ windows n l <-> exists pre post, l = pre ++ w ++ post /\ length w = n.
Proof.
  intros Hn. induction l as [|x l IH]; simpl.
  - split; [intros H; by apply elem_of_nil in H|]. intros (pre & post & E & Hl).
    destruct pre, w; simplify_eq/=; lia.
  - destruct (Nat.ltb_spec (S (length l)) n) as [Hlt|Hge].
    + split; [intros H; by apply elem_of_nil in H|]. intros (pre & post & E & Hl).
      apply (f_equal length) in E. rewrite !length_app in E. simpl in E. lia.
    + rewrite elem_of_cons, IH. split.
      * intros [->|(pre & post & -> & Hl)]; [|by exists (x :: pre), post].
        exists [], (drop n (x :: l)). rewrite app_nil_l, take_drop. split; [done|].
        rewrite length_take. simpl. lia.
      * intros ([|y pre] & post & E & Hl); [left|right].
        -- rewrite app_nil_l in E. rewrite E, <- Hl, take_app_length. done.
        -- exists pre, post. by simplify_eq/=.
Qed.

(** Visible ASCII is not trimmed. *)
Definition visible (b : Z) : Prop := 33 <= b < 128.
Lemma trim_text_visible bs : Forall visible bs -> trim_text bs = bs.
Proof.
  assert (forall a b, visible a -> white2 a b = false /\ white2 b a = false) as H2.
  { unfold visible, white2. intros a b Ha. split; apply andb_false_iff; [left; lia|right].
    apply orb_false_iff. lia. }
  assert (forall a b c, visible a -> visible c -> white3 a b c = false) as H3.
  { unfold visible, white3, in_range. intros a b c Ha Hc. rewrite !orb_false_iff, !andb_false_iff. lia. }
  assert (forall bs, Forall visible bs -> trim_left bs = bs /\ trim_reversed bs = bs) as Hid.
  { intros l Hl. destruct Hl as [|a l Ha Hl]; [done|]. cbn [trim_left trim_reversed].
    assert (is_space a = false) as -> by (unfold visible, is_space, in_range in *; lia).
    destruct Hl as [|b l Hb Hl]; [done|]. destruct (H2 a b Ha) as [-> ->].
    destruct Hl as [|c l Hc Hl]; [done|]. by rewrite !H3. }
  intros Hv. unfold trim_text. rewrite (proj1 (Hid bs Hv)).
  rewrite (proj2 (Hid (reverse bs) ltac:(by apply Forall_reverse))). apply reverse_involutive.
Qed.
Lemma bytes_range s : Forall (fun b => 0 <= b < 256) (bytes s).
Proof.
  induction s as [|c s IH]; [constructor|]. constructor; [|done]. unfold byte_of.
  pose proof (Ascii.N_ascii_bounded c). lia.
Qed.
Lemma bytes_lowercase s : bytes (lowercase s) = to_ascii_lowercase <$> bytes s.
Proof.
  apply bytes_of_bytes. apply Forall_fmap. eapply Forall_impl; [apply bytes_range|].
  intros b Hb. cbv beta in Hb. unfold compose, to_ascii_lowercase, is_ascii_uppercase, in_range.
  destruct ((65 <=? b) && (b <=? 90)) eqn:E; lia.
Qed.

(** ** Strings with their length in front, for the concrete codecs of the witnesses *)
Definition put_text (s : string) : list Z := len (bytes s) :: bytes s.
Definition get_text (l : list Z) : option (string * list Z) :=
  match l with
  | [] => None
  | n :: rest => Some (of_bytes (take (Z.to_nat n) rest), drop (Z.to_nat n) rest)
  end.
Lemma get_put_text s rest : get_text (put_text s ++ rest) = Some (s, rest).
Proof.
  unfold put_text, get_text, len. simpl. rewrite Nat2Z.id, take_app_length, drop_app_length.
  by rewrite of_bytes_bytes.
Qed.
