(* ===== verification/Ip.v ===== *)
(** * Ip: the address texts of the standard library

    [std::net]: the readers of [IpAddr::from_str] and the [Display] of [Ipv4Addr] and
    [Ipv6Addr] (compressed, with the longest run of zero groups left out).  An address
    is its number; [ip_round_trip] is that the reader inverts the printer. *)

From S2P Require Import Prelude Text.

Local Open Scope Z_scope.

Inductive IpAddr : Type := V4 (bits : Z) | V6 (bits : Z).

(** ** Digits in a base *)
(** The [n] digits of [v], most significant first. *)
Fixpoint to_base (base : Z) (n : nat) (v : Z) : list Z :=
  match n with
  | O => []
  | S n => to_base base n (v / base) ++ [v mod base]
  end.
Definition of_base (base : Z) (digits : list Z) : Z := fold_left (fun acc d => acc * base + d) digits 0.

(** [char::to_digit] *)
Definition to_digit (radix b : Z) : option Z :=
  match hex_digit_value b with
  | Some d => if d <? radix then Some d else None
  | None => None
  end.

(** ** Readers: each consumes a prefix of the text or fails *)
Fixpoint read_digits (radix : Z) (bs : list Z) : list Z * list Z :=
  match bs with
  | b :: rest =>
      match to_digit radix b with
      | Some d => let '(ds, rest') := read_digits radix rest in (d :: ds, rest')
      | None => ([], bs)
      end
  | [] => ([], [])
  end.
(** [read_number(radix, Some(max_digits), allow_zero_prefix)] *)
Definition read_number (radix bound : Z) (max_digits : Z) (allow_zero_prefix : bool) (bs : list Z) :
    option (Z * list Z) :=
  let '(ds, rest) := read_digits radix bs in
  if max_digits <? len ds then None
  else if len ds =? 0 then None
  else if negb allow_zero_prefix && bool_decide (head bs = Some 48) && (1 <? len ds) then None
  else let n := of_base radix ds in if n <=? bound then Some (n, rest) else None.
Definition read_given_char (c : Z) (bs : list Z) : option (list Z) :=
  match bs with b :: rest => if b =? c then Some rest else None | [] => None end.
(** [read_separator(sep, index, inner)]: the separator comes before all but the first. *)
Definition read_separator {A} (sep : Z) (index : nat) (inner : list Z -> option (A * list Z))
    (bs : list Z) : option (A * list Z) :=
  match index with
  | O => inner bs
  | S _ => match read_given_char sep bs with Some rest => inner rest | None => None end
  end.

Fixpoint read_octets (n : nat) (index : nat) (bs : list Z) : option (list Z * list Z) :=
  match n with
  | O => Some ([], bs)
  | S n =>
      match read_separator 46 index (read_number 10 255 3 false) bs with
      | Some (octet, rest) =>
          match read_octets n (S index) rest with
          | Some (more, rest) => Some (octet :: more, rest)
          | None => None
          end
      | None => None
      end
  end.
Definition read_ipv4 (bs : list Z) : option (Z * list Z) :=
  match read_octets 4 0 bs with Some (octets, rest) => Some (of_base 256 octets, rest) | None => None end.

(** [read_groups]: up to [limit - index] more groups; a trailing IPv4 address takes two. *)
Fixpoint read_groups (fuel : nat) (index limit : nat) (bs : list Z) : list Z * bool * list Z :=
  match fuel with
  | O => ([], false, bs)
  | S fuel =>
      let embedded :=
        if (index <? limit - 1)%nat then read_separator 58 index read_ipv4 bs else None in
      match embedded with
      | Some (v4, rest) => ([v4 / 65536; v4 mod 65536], true, rest)
      | None =>
          match read_separator 58 index (read_number 16 65535 4 true) bs with
          | Some (group, rest) =>
              let '(more, v4, rest) := read_groups fuel (S index) limit rest in
              (group :: more, v4, rest)
          | None => ([], false, bs)
          end
      end
  end.
Definition read_ipv6 (bs : list Z) : option (Z * list Z) :=
  let '(front, front_v4, rest) := read_groups 8 0 8 bs in
  if (length front =? 8)%nat then Some (of_base 65536 front, rest)
  else if front_v4 then None
  else
    match read_given_char 58 rest with
    | Some rest =>
        match read_given_char 58 rest with
        | Some rest =>
            let limit := (8 - (length front + 1))%nat in
            let '(back, _, rest) := read_groups limit 0 limit rest in
            Some (of_base 65536 (front ++ replicate (8 - length front - length back) 0 ++ back), rest)
        | None => None
        end
    | None => None
    end.
(** [IpAddr::from_str]: one of the two, and nothing left over. *)
Definition ip_from_str (bs : list Z) : option IpAddr :=
  let read :=
    match read_ipv4 bs with
    | Some (v, rest) => Some (V4 v, rest)
    | None => match read_ipv6 bs with Some (v, rest) => Some (V6 v, rest) | None => None end
    end in
  match read with Some (a, []) => Some a | _ => None end.

(** ** Printers *)
Definition hex_char (d : Z) : Z := if d <? 10 then d + 48 else d + 87.
Fixpoint digits_text (base : Z) (fuel : nat) (v : Z) (acc : list Z) : list Z :=
  match fuel with
  | O => acc
  | S fuel =>
      let acc := hex_char (v mod base) :: acc in
      if v / base =? 0 then acc else digits_text base fuel (v / base) acc
  end.
Definition octet_text (v : Z) : list Z := digits_text 10 3 v [].
Definition group_text (v : Z) : list Z := digits_text 16 4 v [].
Fixpoint join (sep : Z) (parts : list (list Z)) : list Z :=
  match parts with
  | [] => []
  | [p] => p
  | p :: rest => p ++ sep :: join sep rest
  end.
Definition ipv4_text (v : Z) : list Z := join 46 (octet_text <$> to_base 256 4 v).

(** The longest run of zero groups, the first one of that length: [(start, length)]. *)
Fixpoint zero_runs (segments : list Z) (index : nat) (current longest : nat * nat) : nat * nat :=
  match segments with
  | [] => longest
  | s :: rest =>
      if s =? 0 then
        let start := if (current.2 =? 0)%nat then index else current.1 in
        let current := (start, S current.2) in
        zero_runs rest (S index) current (if (longest.2 <? current.2)%nat then current else longest)
      else zero_runs rest (S index) (0%nat, 0%nat) longest
  end.
Definition fmt_groups (segments : list Z) : list Z := join 58 (group_text <$> segments).
Definition ipv6_text (v : Z) : list Z :=
  let segments := to_base 65536 8 v in
  if bool_decide (take 6 segments = [0; 0; 0; 0; 0; 65535])
  then bytes "::ffff:" ++ ipv4_text (of_base 65536 (drop 6 segments))
  else
    let '(start, run) := zero_runs segments 0 (0%nat, 0%nat) (0%nat, 0%nat) in
    if (1 <? run)%nat
    then fmt_groups (take start segments) ++ [58; 58] ++ fmt_groups (drop (start + run) segments)
    else fmt_groups segments.
Definition ip_text (a : IpAddr) : list Z := match a with V4 v => ipv4_text v | V6 v => ipv6_text v end.
Definition ip_wf (a : IpAddr) : Prop := match a with V4 v => is_uint 32 v | V6 v => is_uint 128 v end.

Example ip_examples :
  (fun t => of_bytes ∘ ip_text <$> ip_from_str (bytes t)) <$>
    ["10.1.2.3"; "fe80::1"; "::"; "::ffff:1.2.3.4"; "1:0:0:2:0:0:0:3"; "1::"; "1.2.3"; "01.2.3.4"]
  = [Some "10.1.2.3"; Some "fe80::1"; Some "::"; Some "::ffff:1.2.3.4"; Some "1:0:0:2::3"; Some "1::";
     None; None].
Proof. vm_compute. reflexivity. Qed.

(** ** Digits *)
Lemma of_base_snoc base ds d : of_base base (ds ++ [d]) = of_base base ds * base + d.
Proof. unfold of_base. by rewrite fold_left_app. Qed.
Lemma to_base_length base n v : length (to_base base n v) = n.
Proof. revert v. induction n as [|n IH]; intros v; simpl; [done|]. rewrite length_app, IH. simpl. lia. Qed.
Lemma to_base_range base n v : 0 < base -> Forall (fun d => 0 <= d < base) (to_base base n v).
Proof.
  intros Hb. revert v. induction n as [|n IH]; intros v; simpl; [constructor|].
  apply Forall_app. split; [apply IH|]. apply Forall_singleton. by apply Z.mod_pos_bound.
Qed.
Lemma of_to_base base n v : 0 < base -> 0 <= v < base ^ Z.of_nat n -> of_base base (to_base base n v) = v.
Proof.
  intros Hb. revert v. induction n as [|n IH]; intros v Hv; simpl;
    [change (of_base base []) with 0; simpl in Hv; lia|].
  rewrite of_base_snoc, IH.
  - pose proof (Z.div_mod v base). lia.
  - rewrite Nat2Z.inj_succ, Z.pow_succ_r in Hv by lia. split; [by apply Z.div_pos; lia|].
    apply Z.div_lt_upper_bound; lia.
Qed.

Lemma digits_text_spec base fuel v acc :
  1 < base -> 0 <= v < base ^ Z.of_nat (S fuel) ->
  exists ds, digits_text base (S fuel) v acc = (hex_char <$> ds) ++ acc
    /\ ds <> [] /\ (length ds <= S fuel)%nat /\ Forall (fun d => 0 <= d < base) ds
    /\ of_base base ds = v /\ (head ds = Some 0 -> length ds = 1%nat).
Proof.
  intros Hb. revert v acc. induction fuel as [|fuel IH]; intros v acc Hv; cbn [digits_text].
  all: assert (0 <= v mod base < base) as Hm by (apply Z.mod_pos_bound; lia).
  all: pose proof (Z.div_mod v base ltac:(lia)) as Hd.
  all: destruct (v / base =? 0) eqn:E.
  1,3: exists [v mod base]; split; [done|]; split; [done|]; split; [simpl; lia|];
    split; [by apply Forall_singleton|]; split; [unfold of_base; simpl; lia|done].
  - exfalso. assert (v / base = 0); [|lia]. apply Z.div_small. simpl in Hv. lia.
  - destruct (IH (v / base) (hex_char (v mod base) :: acc)) as (ds & Ht & Hne & Hlen & Hr & Hv' & Hz).
    { rewrite (Nat2Z.inj_succ (S fuel)), Z.pow_succ_r in Hv by lia. split; [by apply Z.div_pos; lia|].
      apply Z.div_lt_upper_bound; lia. }
    exists (ds ++ [v mod base]). cbn [digits_text] in Ht. rewrite Ht, fmap_app, <- (assoc_L (++)).
    split; [done|]. split; [by destruct ds|]. rewrite length_app. split; [simpl; lia|].
    split; [by apply Forall_app; split; [|apply Forall_singleton]|]. rewrite of_base_snoc.
    split; [lia|]. destruct ds as [|d ds]; [done|]. simpl. intros [= ->]. specialize (Hz eq_refl).
    destruct ds; [|simpl in Hz; lia]. unfold of_base in Hv'. simpl in Hv'. lia.
Qed.

(** ** Reading numbers *)
Lemma to_digit_hex_char radix d : radix <= 16 -> 0 <= d < radix -> to_digit radix (hex_char d) = Some d.
Proof.
  intros Hr Hd. unfold to_digit, hex_digit_value, hex_char, is_ascii_digit, in_range.
  destruct (d <? 10) eqn:E.
  - rewrite (proj2 (Z.leb_le 48 (d + 48))), (proj2 (Z.leb_le (d + 48) 57)) by lia. simpl.
    rewrite (proj2 (Z.ltb_lt (d + 48 - 48) radix)) by lia. f_equal. lia.
  - rewrite (proj2 (Z.leb_gt (d + 87) 57)), andb_false_r by lia.
    rewrite (proj2 (Z.leb_le 97 (d + 87))), (proj2 (Z.leb_le (d + 87) 102)) by lia. simpl.
    rewrite (proj2 (Z.ltb_lt (d + 87 - 87) radix)) by lia. f_equal. lia.
Qed.
(** What cannot continue a number. *)
Definition stops (radix : Z) (rest : list Z) : Prop :=
  match rest with b :: _ => to_digit radix b = None | [] => True end.
Lemma read_digits_text radix ds rest :
  radix <= 16 -> Forall (fun d => 0 <= d < radix) ds -> stops radix rest ->
  read_digits radix ((hex_char <$> ds) ++ rest) = (ds, rest).
Proof.
  intros Hr Hds Hs. induction Hds as [|d ds Hd Hds IH].
  - destruct rest as [|b rest]; [done|]. simpl in *. by rewrite Hs.
  - rewrite fmap_cons. cbn [app read_digits]. by rewrite to_digit_hex_char, IH.
Qed.
Lemma read_number_text radix k bound allow v rest :
  1 < radix <= 16 -> 0 <= v <= bound -> bound < radix ^ Z.of_nat (S k) -> stops radix rest ->
  read_number radix bound (Z.of_nat (S k)) allow (digits_text radix (S k) v [] ++ rest) = Some (v, rest).
Proof.
  intros Hr Hv Hk Hs.
  destruct (digits_text_spec radix k v []) as (ds & Ht & Hne & Hlen & Hds & Hof & Hz); [lia..|].
  rewrite Ht, app_nil_r. unfold read_number. rewrite read_digits_text by (done || lia).
  assert (0 < len ds) as Hpos by (unfold len; destruct ds; [done|simpl; lia]).
  rewrite (proj2 (Z.ltb_ge (Z.of_nat (S k)) (len ds))) by (unfold len; lia).
  rewrite (proj2 (Z.eqb_neq (len ds) 0)) by lia. rewrite Hof, (proj2 (Z.leb_le v bound)) by lia.
  destruct (negb allow && bool_decide _ && (1 <? len ds)) eqn:E; [|done]. exfalso.
  rewrite !andb_true_iff in E. destruct E as [[_ E1%bool_decide_eq_true] E2].
  destruct ds as [|d ds]; [done|]. simpl in E1. injection E1 as E1.
  apply Forall_cons in Hds as [Hd _]. assert (d = 0) as ->.
  { unfold hex_char in E1. destruct (d <? 10) eqn:Ed; lia. }
  specialize (Hz eq_refl). unfold len in E2. lia.
Qed.

Lemma read_digits_suffix radix bs ds rest : read_digits radix bs = (ds, rest) -> rest `suffix_of` bs.
Proof.
  revert ds rest. induction bs as [|b bs IH]; intros ds rest; simpl; [by intros [= _ <-]|].
  destruct (to_digit radix b); [|by intros [= _ <-]].
  destruct (read_digits radix bs) as [ds' rest'] eqn:E. intros [= _ <-].
  by apply suffix_cons_r, (IH ds').
Qed.
Lemma read_number_suffix radix bound k allow bs n rest :
  read_number radix bound k allow bs = Some (n, rest) -> rest `suffix_of` bs.
Proof.
  unfold read_number. destruct (read_digits radix bs) as [ds r] eqn:E.
  repeat (destruct (_ : bool); [done|]). destruct (_ <=? bound); [|done]. intros [= _ <-].
  by eapply read_digits_suffix.
Qed.
Lemma read_ipv4_dot bs r : read_ipv4 bs = Some r -> 46 ∈ bs.
Proof.
  unfold read_ipv4. cbn [read_octets read_separator].
  destruct (read_number 10 255 3 false bs) as [[o rest]|] eqn:E; [|done]. apply read_number_suffix in E.
  destruct rest as [|b rest]; [done|]. cbn [read_given_char].
  destruct (b =? 46) eqn:Eb; [|done]. intros _. apply Z.eqb_eq in Eb as ->.
  destruct E as [pre ->]. apply elem_of_app. right. by left.
Qed.

(** ** Joined texts *)
Definition tail_text (sep : Z) (parts : list (list Z)) : list Z := parts ≫= cons sep.
Lemma join_cons sep p parts : join sep (p :: parts) = p ++ tail_text sep parts.
Proof.
  revert p. induction parts as [|q parts IH]; intros p; [by rewrite app_nil_r|].
  change (join sep (p :: q :: parts)) with (p ++ sep :: join sep (q :: parts)). by rewrite IH.
Qed.
Lemma stops_tail radix sep parts rest :
  to_digit radix sep = None -> stops radix rest -> stops radix (tail_text sep parts ++ rest).
Proof. by destruct parts. Qed.

(** *** IPv4 *)
Definition is_octet (o : Z) : Prop := 0 <= o < 256.
Lemma read_octet_text o rest :
  is_octet o -> stops 10 rest -> read_number 10 255 3 false (octet_text o ++ rest) = Some (o, rest).
Proof. intros Ho Hs. unfold is_octet in Ho. apply (read_number_text 10 2); [lia|lia|done|done]. Qed.
Lemma read_octets_tail os i rest :
  Forall is_octet os -> stops 10 rest ->
  read_octets (length os) (S i) (tail_text 46 (octet_text <$> os) ++ rest) = Some (os, rest).
Proof.
  intros Ho Hs. revert i. induction Ho as [|o os Ho Hos IH]; intros i; [done|].
  rewrite fmap_cons. cbn [length read_octets tail_text mbind list_bind app read_separator read_given_char].
  rewrite Z.eqb_refl, <- (assoc_L (++)). fold (tail_text 46 (octet_text <$> os)).
  rewrite read_octet_text; [|done|by apply stops_tail]. by rewrite IH.
Qed.
Lemma read_octets_step n i bs :
  read_octets (S n) i bs
  = match read_separator 46 i (read_number 10 255 3 false) bs with
    | Some (octet, rest) =>
        match read_octets n (S i) rest with
        | Some (more, rest) => Some (octet :: more, rest)
        | None => None
        end
    | None => None
    end.
Proof. reflexivity. Qed.
Lemma read_ipv4_text v rest :
  is_uint 32 v -> stops 10 rest -> read_ipv4 (ipv4_text v ++ rest) = Some (v, rest).
Proof.
  intros Hv Hs. unfold read_ipv4, ipv4_text.
  pose proof (to_base_length 256 4 v) as Hl. pose proof (to_base_range 256 4 v ltac:(lia)) as Hr.
  pose proof (of_to_base 256 4 v ltac:(lia) ltac:(done)) as Hof.
  destruct (to_base 256 4 v) as [|o os]; [done|]. injection Hl as Hl. apply Forall_cons in Hr as [Ho Hos].
  rewrite fmap_cons, join_cons, <- (assoc_L (++)), read_octets_step. cbn [read_separator].
  rewrite read_octet_text; [|done|by apply stops_tail]. rewrite <- Hl.
  by rewrite (read_octets_tail os 0), Hof.
Qed.

(** *** Groups *)
Definition is_group (g : Z) : Prop := 0 <= g < 65536.
Lemma read_group_text g rest :
  is_group g -> stops 16 rest -> read_number 16 65535 4 true (group_text g ++ rest) = Some (g, rest).
Proof. intros Hg Hs. unfold is_group in Hg. apply (read_number_text 16 3); [lia|lia|done|done]. Qed.
Lemma group_text_no_dot g : is_group g -> 46 ∉ group_text g.
Proof.
  intros Hg Hin. unfold is_group in Hg.
  destruct (digits_text_spec 16 3 g []) as (ds & Ht & _ & _ & Hds & _); [lia|lia|].
  unfold group_text in Hin. rewrite Ht, app_nil_r in Hin. apply list_elem_of_fmap in Hin as (d & Hd & Hin).
  rewrite Forall_forall in Hds. specialize (Hds d Hin). unfold hex_char in Hd. destruct (d <? 10) eqn:E; lia.
Qed.
Lemma groups_no_dot gs : Forall is_group gs -> 46 ∉ tail_text 58 (group_text <$> gs).
Proof.
  induction 1 as [|g gs Hg Hgs IH]; [apply not_elem_of_nil|]. rewrite fmap_cons.
  cbn [tail_text mbind list_bind]. rewrite elem_of_app, elem_of_cons.
  intros [[?|Hin]|Hin]; [lia|by eapply group_text_no_dot|by apply IH].
Qed.
Lemma read_ipv4_none bs : 46 ∉ bs -> read_ipv4 bs = None.
Proof. intros Hn. destruct (read_ipv4 bs) eqn:E; [|done]. by apply read_ipv4_dot in E. Qed.

(** The text after the groups ends them: it is empty or starts with [::]. *)
Definition ends_groups (rest : list Z) : Prop := rest = [] \/ exists r, rest = 58 :: 58 :: r.
Lemma ends_groups_stops rest : ends_groups rest -> stops 16 rest.
Proof. by intros [->|[r ->]]. Qed.
Lemma read_group_none rest i :
  ends_groups rest -> read_separator 58 i (read_number 16 65535 4 true) rest = None.
Proof. by intros [->|[r ->]]; destruct i. Qed.
Lemma read_groups_step fuel i limit bs :
  read_separator 58 i read_ipv4 bs = None ->
  read_groups (S fuel) i limit bs
  = match read_separator 58 i (read_number 16 65535 4 true) bs with
    | Some (group, rest) =>
        let '(more, v4, rest) := read_groups fuel (S i) limit rest in (group :: more, v4, rest)
    | None => ([], false, bs)
    end.
Proof. intros E. cbn [read_groups]. rewrite E. by destruct (i <? limit - 1)%nat. Qed.
Lemma read_groups_end fuel i limit rest :
  ends_groups rest -> read_groups fuel i limit rest = ([], false, rest).
Proof.
  intros Hrest. destruct fuel as [|fuel]; [done|]. rewrite read_groups_step, read_group_none by done || (by destruct Hrest as [->|[r ->]], i).
  done.
Qed.
Lemma read_groups_tail gs fuel i limit rest :
  Forall is_group gs -> ends_groups rest -> 46 ∉ rest -> (length gs <= fuel)%nat ->
  read_groups fuel (S i) limit (tail_text 58 (group_text <$> gs) ++ rest) = (gs, false, rest).
Proof.
  intros Hg Hrest Hdot. revert fuel i. induction Hg as [|g gs Hg Hgs IH]; intros fuel i Hf.
  - by apply read_groups_end.
  - destruct fuel as [|fuel]; [simpl in Hf; lia|]. rewrite fmap_cons.
    change (tail_text 58 (group_text g :: (group_text <$> gs)) ++ rest)
      with ((58 :: group_text g ++ tail_text 58 (group_text <$> gs)) ++ rest).
    rewrite <- app_comm_cons, <- (assoc_L (++)), read_groups_step.
    + cbn [read_separator read_given_char]. rewrite Z.eqb_refl, read_group_text; [|done|].
      * rewrite IH; [done|simpl in Hf; lia].
      * apply stops_tail; [done|by apply ends_groups_stops].
    + apply read_ipv4_none. rewrite !elem_of_app.
      intros [?|[?|?]]; [by eapply group_text_no_dot|by eapply groups_no_dot|done].
Qed.
Lemma read_groups_text gs fuel limit rest :
  Forall is_group gs -> ends_groups rest -> 46 ∉ rest -> (length gs <= fuel)%nat ->
  read_groups fuel 0 limit (fmt_groups gs ++ rest) = (gs, false, rest).
Proof.
  intros Hg Hrest Hdot Hf. unfold fmt_groups. destruct Hg as [|g gs Hg Hgs]; [by apply read_groups_end|].
  destruct fuel as [|fuel]; [simpl in Hf; lia|]. rewrite fmap_cons, join_cons, <- (assoc_L (++)), read_groups_step.
  - cbn [read_separator]. rewrite read_group_text; [|done|].
    + rewrite read_groups_tail; [done..|simpl in Hf; lia].
    + apply stops_tail; [done|by apply ends_groups_stops].
  - apply read_ipv4_none. rewrite !elem_of_app.
    intros [?|[?|?]]; [by eapply group_text_no_dot|by eapply groups_no_dot|done].
Qed.

(** *** The longest run of zero groups *)
Definition zero_range (l : list Z) (r : nat * nat) : Prop :=
  (r.1 + r.2 <= length l)%nat /\ forall i, (r.1 <= i < r.1 + r.2)%nat -> l !! i = Some 0.
Lemma zero_runs_spec pre rest current longest :
  zero_range pre longest -> zero_range pre current ->
  (current.2 <> 0%nat -> (current.1 + current.2 = length pre)%nat) ->
  zero_range (pre ++ rest) (zero_runs rest (length pre) current longest).
Proof.
  revert pre current longest. induction rest as [|s rest IH]; intros pre current longest Hl Hc He.
  - by rewrite app_nil_r.
  - assert (forall r, zero_range pre r -> zero_range (pre ++ [s]) r) as Hmono.
    { intros r [H1 H2]. split; [rewrite length_app; lia|]. intros i Hi. rewrite lookup_app_l by lia. auto. }
    replace (pre ++ s :: rest) with ((pre ++ [s]) ++ rest) by (by rewrite <- (assoc_L (++))).
    replace (zero_runs (s :: rest) (length pre) current longest)
      with (let start := if (current.2 =? 0)%nat then length pre else current.1 in
            let next := (start, S current.2) in
            if s =? 0 then zero_runs rest (length (pre ++ [s])) next
                             (if (longest.2 <? next.2)%nat then next else longest)
            else zero_runs rest (length (pre ++ [s])) (0%nat, 0%nat) longest)
      by (rewrite length_app, Nat.add_1_r; reflexivity).
    cbv zeta. destruct (s =? 0) eqn:Es.
    + apply Z.eqb_eq in Es as ->. set (next := (_, S current.2)).
      assert (zero_range (pre ++ [0]) next /\ (next.1 + next.2)%nat = length (pre ++ [0])) as [Hn He'].
      { unfold next. cbn [fst snd]. rewrite length_app. cbn [length].
        destruct (current.2 =? 0)%nat eqn:E0; [apply Nat.eqb_eq in E0|apply Nat.eqb_neq in E0; specialize (He E0)].
        - rewrite E0. split; [|lia]. split; [rewrite length_app; simpl; lia|]. simpl. intros i Hi.
          assert (i = length pre) as -> by lia. by rewrite lookup_app_r, Nat.sub_diag by lia.
        - split; [|lia]. split; [rewrite length_app; simpl; lia|]. simpl. intros i Hi.
          destruct (decide (i = length pre)) as [->|].
          + by rewrite lookup_app_r, Nat.sub_diag by lia.
          + rewrite lookup_app_l by lia. apply Hc. lia. }
      apply IH; [|done|done]. destruct (_ <? _)%nat; [done|by apply Hmono].
    + apply IH; [by apply Hmono| |done]. split; simpl; [lia|]. intros i Hi. lia.
Qed.
Lemma zero_range_split l r :
  zero_range l r -> l = take r.1 l ++ replicate r.2 0 ++ drop (r.1 + r.2) l.
Proof.
  intros [Hl Hz]. apply list_eq. intros i.
  destruct (decide (i < r.1)%nat); [rewrite lookup_app_l, lookup_take_lt; [done|lia|rewrite length_take; lia]|].
  rewrite lookup_app_r by (rewrite length_take; lia). rewrite length_take, Nat.min_l by lia.
  destruct (decide (i < r.1 + r.2)%nat).
  - rewrite lookup_app_l, lookup_replicate_2 by (rewrite ?length_replicate; lia). apply Hz. lia.
  - rewrite lookup_app_r, length_replicate, lookup_drop by (rewrite ?length_replicate; lia). f_equal. lia.
Qed.

(** ** Round trip *)
Lemma fmt_groups_no_dot gs : Forall is_group gs -> 46 ∉ fmt_groups gs.
Proof.
  destruct 1 as [|g gs Hg Hgs]; [apply not_elem_of_nil|]. unfold fmt_groups.
  rewrite fmap_cons, join_cons, elem_of_app. intros [?|?]; [by eapply group_text_no_dot|by eapply groups_no_dot].
Qed.
Lemma read_ipv6_full gs :
  Forall is_group gs -> length gs = 8%nat -> read_ipv6 (fmt_groups gs) = Some (of_base 65536 gs, []).
Proof.
  intros Hg Hl. unfold read_ipv6. rewrite <- (app_nil_r (fmt_groups gs)).
  rewrite read_groups_text; [|done|by left|apply not_elem_of_nil|lia]. by rewrite Hl.
Qed.
Lemma read_ipv6_compressed front back run :
  Forall is_group front -> Forall is_group back -> (0 < run)%nat ->
  (length front + run + length back = 8)%nat ->
  read_ipv6 (fmt_groups front ++ [58; 58] ++ fmt_groups back)
  = Some (of_base 65536 (front ++ replicate run 0 ++ back), []).
Proof.
  intros Hf Hb Hr Hl. unfold read_ipv6.
  rewrite read_groups_text; [|done|right; by eexists| |lia].
  - replace (length front =? 8)%nat with false by (symmetry; apply Nat.eqb_neq; lia).
    change (read_given_char 58 ([58; 58] ++ ?t)) with (Some (58 :: t)). cbv iota beta.
    change (read_given_char 58 (58 :: ?t)) with (Some t). cbv iota beta.
    rewrite <- (app_nil_r (fmt_groups back)).
    rewrite read_groups_text; [|done|by left|apply not_elem_of_nil|lia].
    by replace (8 - length front - length back)%nat with run by lia.
  - rewrite elem_of_app. intros [Hin|Hin]; [set_solver by lia|by eapply fmt_groups_no_dot].
Qed.
Lemma read_ipv6_mapped v :
  is_uint 32 v ->
  read_ipv6 (bytes "::ffff:" ++ ipv4_text v)
  = Some (of_base 65536 ([0; 0; 0; 0; 0; 65535] ++ [v / 65536; v mod 65536]), []).
Proof.
  intros Hv. unfold read_ipv6.
  assert (ends_groups (bytes "::ffff:" ++ ipv4_text v)) as He by (right; by eexists).
  rewrite read_groups_end by done. cbn [length Nat.eqb].
  change (read_given_char 58 (bytes "::ffff:" ++ ipv4_text v)) with (Some (bytes ":ffff:" ++ ipv4_text v)).
  cbv iota beta. change (read_given_char 58 (bytes ":ffff:" ++ ipv4_text v)) with (Some (bytes "ffff:" ++ ipv4_text v)).
  cbv iota beta. change (8 - (0 + 1))%nat with 7%nat.
  assert (read_groups 7 0 7 (bytes "ffff:" ++ ipv4_text v) = ([65535; v / 65536; v mod 65536], true, [])) as ->; [|done].
  rewrite read_groups_step by reflexivity.
  change (read_separator 58 0 (read_number 16 65535 4 true) (bytes "ffff:" ++ ipv4_text v))
    with (Some (65535, 58 :: ipv4_text v)). cbv iota beta.
  cbn [read_groups Nat.ltb Nat.leb Nat.sub read_separator read_given_char]. rewrite Z.eqb_refl.
  rewrite <- (app_nil_r (ipv4_text v)). by rewrite read_ipv4_text.
Qed.

Lemma ipv6_round_trip v : is_uint 128 v -> read_ipv6 (ipv6_text v) = Some (v, []) /\ read_ipv4 (ipv6_text v) = None.
Proof.
  intros Hv. unfold ipv6_text.
  pose proof (to_base_length 65536 8 v) as Hl. pose proof (to_base_range 65536 8 v ltac:(lia)) as Hr.
  pose proof (of_to_base 65536 8 v ltac:(lia) ltac:(done)) as Hof. revert Hl Hr Hof.
  set (segments := to_base 65536 8 v). clearbody segments. intros Hl Hr Hof.
  destruct (bool_decide _) eqn:Em.
  - apply bool_decide_eq_true in Em.
    assert (exists a b, drop 6 segments = [a; b]) as (a & b & Ed).
    { assert (length (drop 6 segments) = 2%nat) as Hd by (rewrite length_drop; lia).
      destruct (drop 6 segments) as [|a [|b [|]]]; try done. by exists a, b. }
    rewrite <- (take_drop 6 segments), Em, Ed in Hof, Hr. rewrite Ed.
    apply Forall_app in Hr as [_ Hab]. apply Forall_cons in Hab as [Ha Hb]. apply Forall_cons in Hb as [Hb _]. cbv beta in Ha, Hb.
    assert (of_base 65536 [a; b] = a * 65536 + b) as -> by (unfold of_base; cbn [fold_left]; lia).
    split; [|reflexivity].
    assert (is_uint 32 (a * 65536 + b)) as Hab by (unfold is_uint; change (2 ^ 32) with (65536 * 65536); lia).
    rewrite read_ipv6_mapped by done.
    replace ((a * 65536 + b) / 65536) with a by (apply (Z.div_unique _ _ _ b); lia).
    replace ((a * 65536 + b) mod 65536) with b by (apply (Z.mod_unique _ _ a); lia). by rewrite Hof.
  - clear Em. pose proof (zero_runs_spec [] segments (0%nat, 0%nat) (0%nat, 0%nat)) as Hz.
    assert (zero_range [] (0%nat, 0%nat)) as H0 by (split; simpl; [lia|intros; lia]).
    specialize (Hz H0 H0 ltac:(done)). change (length []) with 0%nat in Hz. cbn [app] in Hz.
    destruct (zero_runs segments 0 (0%nat, 0%nat) (0%nat, 0%nat)) as [start run].
    destruct (1 <? run)%nat eqn:Er.
    + pose proof (zero_range_split _ _ Hz) as Hs. destruct Hz as [Hz _]. simpl in Hz, Hs.
      apply Nat.ltb_lt in Er. split.
      * rewrite (read_ipv6_compressed _ _ run); [by rewrite <- Hs, Hof|by apply Forall_take|by apply Forall_drop|lia|].
        rewrite length_take, length_drop. lia.
      * apply read_ipv4_none. rewrite !elem_of_app. intros [H|[H|H]]; [..|].
        1,3: eapply fmt_groups_no_dot; [|exact H]; by (apply Forall_take || apply Forall_drop).
        set_solver by lia.
    + split; [by rewrite read_ipv6_full, Hof|]. apply read_ipv4_none. by apply fmt_groups_no_dot.
Qed.

(** Reading a printed address gives it back. *)
Lemma ip_round_trip a : ip_wf a -> ip_from_str (ip_text a) = Some a.
Proof.
  destruct a as [v|v]; simpl; intros Hv; unfold ip_from_str.
  - rewrite <- (app_nil_r (ipv4_text v)). by rewrite read_ipv4_text.
  - destruct (ipv6_round_trip v Hv) as [-> ->]. done.
Qed.

(** ** Ranges *)
Lemma of_base_range base ds :
  1 < base -> Forall (fun d => 0 <= d < base) ds -> 0 <= of_base base ds < base ^ Z.of_nat (length ds).
Proof.
  intros Hb. induction ds as [|d ds IH] using rev_ind; intros Hr; [unfold of_base; simpl; lia|].
  apply Forall_app in Hr as [Hr Hd]. apply Forall_cons in Hd as [Hd _]. specialize (IH Hr).
  rewrite of_base_snoc, length_app, Nat.add_1_r, Nat2Z.inj_succ, Z.pow_succ_r by lia. nia.
Qed.
Lemma to_digit_range radix b d : to_digit radix b = Some d -> 0 <= d < radix.
Proof.
  unfold to_digit, hex_digit_value, is_ascii_digit, in_range. intros H.
  repeat match type of H with context [if ?c then _ else _] => destruct c eqn:? end; simplify_eq; lia.
Qed.
Lemma read_digits_range radix bs ds rest :
  read_digits radix bs = (ds, rest) -> Forall (fun d => 0 <= d < radix) ds.
Proof.
  revert ds rest. induction bs as [|b bs IH]; intros ds rest; simpl; [by intros [= <- _]|].
  destruct (to_digit radix b) eqn:E; [|by intros [= <- _]].
  destruct (read_digits radix bs) as [ds' rest'] eqn:E'. intros [= <- _].
  constructor; [by eapply to_digit_range|by eapply IH].
Qed.
Lemma read_number_range radix bound k allow bs n rest :
  1 < radix -> read_number radix bound k allow bs = Some (n, rest) -> 0 <= n <= bound.
Proof.
  intros Hr. unfold read_number. destruct (read_digits radix bs) as [ds r] eqn:E.
  repeat (destruct (_ : bool); [done|]). destruct (_ <=? bound) eqn:Eb; [|done]. intros [= <- _].
  apply read_digits_range in E. pose proof (of_base_range radix ds Hr E). lia.
Qed.
Lemma read_separator_inv {A} sep i (inner : list Z -> option (A * list Z)) bs r :
  read_separator sep i inner bs = Some r -> exists bs', inner bs' = Some r.
Proof. destruct i; simpl; [eauto|]. destruct (read_given_char sep bs); [eauto|done]. Qed.
Lemma read_octets_range n i bs os rest :
  read_octets n i bs = Some (os, rest) -> length os = n /\ Forall is_octet os.
Proof.
  revert i bs os. induction n as [|n IH]; intros i bs os; simpl; [by intros [= <- <-]|].
  destruct (read_separator _ i _ bs) as [[o r]|] eqn:E; [|done].
  destruct (read_octets n (S i) r) as [[more r']|] eqn:E'; [|done]. intros [= <- ->].
  apply IH in E' as [<- Hf]. apply read_separator_inv in E as [bs' E].
  apply read_number_range in E; [|lia]. split; [done|]. constructor; [unfold is_octet; lia|done].
Qed.
Lemma read_ipv4_range bs v rest : read_ipv4 bs = Some (v, rest) -> is_uint 32 v.
Proof.
  unfold read_ipv4. destruct (read_octets 4 0 bs) as [[os r]|] eqn:E; [|done]. intros [= <- _].
  apply read_octets_range in E as [Hl Hf]. pose proof (of_base_range 256 os ltac:(lia) Hf) as Hr.
  by rewrite Hl in Hr.
Qed.
Lemma read_groups_range fuel i limit bs gs v4 rest :
  (fuel = limit - i)%nat -> read_groups fuel i limit bs = (gs, v4, rest) ->
  (length gs <= fuel)%nat /\ Forall is_group gs.
Proof.
  revert i bs gs v4 rest. induction fuel as [|fuel IH]; intros i bs gs v4 rest Hf; cbn [read_groups].
  - intros [= <- _ _]. split; [done|constructor].
  - destruct (if (i <? limit - 1)%nat then _ else _) as [[w r]|] eqn:E.
    + destruct (i <? limit - 1)%nat eqn:Ei; [|done]. apply Nat.ltb_lt in Ei. intros [= <- _ _].
      apply read_separator_inv in E as [bs' E]. apply read_ipv4_range in E.
      unfold is_uint in E. change (2 ^ 32) with (65536 * 65536) in E.
      split; [simpl; lia|]. repeat constructor; unfold is_group; try (by apply Z.mod_pos_bound).
      * apply Z.div_pos; lia.
      * apply Z.div_lt_upper_bound; lia.
    + clear E. destruct (read_separator 58 i _ bs) as [[g r]|] eqn:E.
      * destruct (read_groups fuel (S i) limit r) as [[more w] r'] eqn:E'. intros [= <- _ _].
        apply IH in E' as [Hl Hg]; [|lia]. apply read_separator_inv in E as [bs' E].
        apply read_number_range in E; [|lia]. split; [simpl; lia|]. constructor; [unfold is_group; lia|done].
      * intros [= <- _ _]. split; [simpl; lia|constructor].
Qed.
Lemma read_ipv6_range bs v rest : read_ipv6 bs = Some (v, rest) -> is_uint 128 v.
Proof.
  assert (forall gs, length gs = 8%nat -> Forall is_group gs -> is_uint 128 (of_base 65536 gs)) as Hof.
  { intros gs Hl Hf. pose proof (of_base_range 65536 gs ltac:(lia) Hf) as Hr. by rewrite Hl in Hr. }
  unfold read_ipv6. destruct (read_groups 8 0 8 bs) as [[front f4] r] eqn:E.
  apply read_groups_range in E as [Hl Hf]; [|done].
  destruct (length front =? 8)%nat eqn:E8; [intros [= <- _]; apply Hof; [by apply Nat.eqb_eq|done]|].
  apply Nat.eqb_neq in E8. destruct f4; [done|]. destruct (read_given_char 58 r) as [r1|]; [|done].
  destruct (read_given_char 58 r1) as [r2|]; [|done].
  destruct (read_groups _ 0 _ r2) as [[back b4] r3] eqn:E. apply read_groups_range in E as [Hl' Hb]; [|lia].
  intros [= <- _]. apply Hof; [rewrite !length_app, length_replicate; lia|].
  rewrite !Forall_app. repeat split; [done| |done]. apply Forall_replicate. unfold is_group. lia.
Qed.
Lemma ip_from_str_wf bs a : ip_from_str bs = Some a -> ip_wf a.
Proof.
  unfold ip_from_str. destruct (read_ipv4 bs) as [[v rest]|] eqn:E4.
  - destruct rest; [|done]. intros [= <-]. by eapply read_ipv4_range.
  - destruct (read_ipv6 bs) as [[v rest]|] eqn:E6; [|done]. destruct rest; [|done].
    intros [= <-]. by eapply read_ipv6_range.
Qed.

(** ** What a printed address looks like *)
Definition plain (b : Z) : Prop := 0 <= b < 256 /\ b <> 47.
Lemma digits_text_bytes base fuel v :
  1 < base <= 16 -> 0 <= v < base ^ Z.of_nat (S fuel) ->
  Forall plain (digits_text base (S fuel) v []) /\ (length (digits_text base (S fuel) v []) <= S fuel)%nat.
Proof.
  intros Hb Hv. destruct (digits_text_spec base fuel v []) as (ds & -> & _ & Hl & Hds & _); [lia|done|].
  rewrite app_nil_r, length_fmap. split; [|done]. apply Forall_fmap. eapply Forall_impl; [exact Hds|].
  intros d Hd. cbv beta in Hd. unfold plain, hex_char, compose. destruct (d <? 10) eqn:E; lia.
Qed.
Lemma join_bytes sep parts k :
  plain sep -> Forall (fun p => Forall plain p /\ (length p <= k)%nat) parts ->
  Forall plain (join sep parts) /\ (length (join sep parts) <= S k * length parts)%nat.
Proof.
  intros Hs. induction 1 as [|p parts [Hp Hk] Hps [IH1 IH2]]; [split; [constructor|simpl; lia]|].
  destruct parts as [|q parts]; [simpl; split; [done|lia]|].
  change (join sep (p :: q :: parts)) with (p ++ sep :: join sep (q :: parts)).
  rewrite Forall_app, Forall_cons, length_app. split; [done|]. cbn [length] in *. nia.
Qed.
Lemma ipv4_text_bytes v : Forall plain (ipv4_text v) /\ (length (ipv4_text v) <= 16)%nat.
Proof.
  unfold ipv4_text. pose proof (join_bytes 46 (octet_text <$> to_base 256 4 v) 3) as H.
  rewrite length_fmap, to_base_length in H. apply H; [unfold plain; lia|]. apply Forall_fmap.
  eapply Forall_impl; [apply (to_base_range 256 4 v); lia|]. intros o Ho. simpl in Ho |- *.
  apply digits_text_bytes; [lia|]. change (10 ^ Z.of_nat 3) with 1000. lia.
Qed.
Lemma fmt_groups_bytes gs :
  Forall is_group gs -> Forall plain (fmt_groups gs) /\ (length (fmt_groups gs) <= 5 * length gs)%nat.
Proof.
  intros Hg. unfold fmt_groups. pose proof (join_bytes 58 (group_text <$> gs) 4) as H.
  rewrite length_fmap in H. apply H; [unfold plain; lia|]. apply Forall_fmap. eapply Forall_impl; [exact Hg|].
  intros g Hgr. apply digits_text_bytes; [lia|]. change (16 ^ Z.of_nat 4) with 65536. exact Hgr.
Qed.
Lemma ip_text_bytes a : Forall plain (ip_text a) /\ (length (ip_text a) <= 42)%nat.
Proof.
  destruct a as [v|v]; simpl.
  - destruct (ipv4_text_bytes v). split; [done|lia].
  - unfold ipv6_text. pose proof (to_base_length 65536 8 v) as Hl.
    pose proof (to_base_range 65536 8 v ltac:(lia)) as Hr. set (segments := to_base 65536 8 v) in *.
    destruct (bool_decide _).
    + destruct (ipv4_text_bytes (of_base 65536 (drop 6 segments))) as [Hn Hk].
      split; [|rewrite length_app; change (length (bytes "::ffff:")) with 7%nat; lia].
      apply Forall_app. split; [|done]. repeat constructor; vm_compute; congruence.
    + destruct (zero_runs segments 0 (0%nat, 0%nat) (0%nat, 0%nat)) as [start run]. destruct (1 <? run)%nat.
      * destruct (fmt_groups_bytes (take start segments)) as [H1 H2]; [by apply Forall_take|].
        destruct (fmt_groups_bytes (drop (start + run) segments)) as [H3 H4]; [by apply Forall_drop|].
        split; [rewrite !Forall_app; repeat split; [done| |done]; repeat constructor; unfold plain; lia|].
        rewrite !length_app. rewrite length_take in H2. rewrite length_drop in H4. simpl. lia.
      * destruct (fmt_groups_bytes segments) as [H1 H2]; [done|]. split; [done|lia].
Qed.

(** ** Reading ignores the case of letters *)
Section lowercase.
Abbreviation low := (fmap to_ascii_lowercase : list Z -> list Z).
Lemma to_digit_lower radix b : to_digit radix (to_ascii_lowercase b) = to_digit radix b.
Proof.
  unfold to_ascii_lowercase, is_ascii_uppercase, in_range. destruct ((65 <=? b) && (b <=? 90)) eqn:E; [|done].
  unfold to_digit, hex_digit_value, is_ascii_digit, in_range.
  repeat match goal with |- context [if ?c then _ else _] => destruct c eqn:? end; try done; try lia; f_equal; lia.
Qed.
Lemma lower_eqb b c : is_ascii_uppercase c = false -> is_ascii_lowercase c = false ->
  (to_ascii_lowercase b =? c) = (b =? c).
Proof.
  unfold to_ascii_lowercase, is_ascii_uppercase, is_ascii_lowercase, in_range. intros Hu Hl.
  destruct ((65 <=? b) && (b <=? 90)) eqn:E; [|done]. apply eq_iff_eq_true. rewrite !Z.eqb_eq. lia.
Qed.
Definition lower_rest {A} (o : option (A * list Z)) : option (A * list Z) :=
  match o with Some (a, rest) => Some (a, low rest) | None => None end.
Lemma read_digits_lower radix bs :
  read_digits radix (low bs) = let '(ds, rest) := read_digits radix bs in (ds, low rest).
Proof.
  induction bs as [|b bs IH]; [done|]. rewrite fmap_cons. cbn [read_digits]. rewrite to_digit_lower.
  destruct (to_digit radix b); [|by rewrite fmap_cons]. rewrite IH. by destruct (read_digits radix bs).
Qed.
Lemma read_number_lower radix bound k allow bs :
  read_number radix bound k allow (low bs) = lower_rest (read_number radix bound k allow bs).
Proof.
  unfold read_number. rewrite read_digits_lower. destruct (read_digits radix bs) as [ds rest].
  assert (bool_decide (head (low bs) = Some 48) = bool_decide (head bs = Some 48)) as ->.
  { destruct bs as [|b bs]; [done|]. rewrite fmap_cons. simpl. apply bool_decide_ext.
    pose proof (lower_eqb b 48 eq_refl eq_refl) as He. rewrite !(inj_iff Some), <- !Z.eqb_eq. by rewrite He. }
  by repeat match goal with |- context [if ?c then _ else _] => destruct c end.
Qed.
Lemma read_given_char_lower c bs : c = 46 \/ c = 58 ->
  read_given_char c (low bs) = low <$> read_given_char c bs.
Proof.
  intros Hc. destruct bs as [|b bs]; [done|]. rewrite fmap_cons. cbn [read_given_char].
  rewrite lower_eqb by (destruct Hc as [-> | ->]; reflexivity). by destruct (b =? c).
Qed.
Lemma read_separator_lower {A} c i (inner : list Z -> option (A * list Z)) bs :
  c = 46 \/ c = 58 -> (forall bs, inner (low bs) = lower_rest (inner bs)) ->
  read_separator c i inner (low bs) = lower_rest (read_separator c i inner bs).
Proof.
  intros Hc Hi. destruct i as [|i]; [apply Hi|]. cbn [read_separator]. rewrite read_given_char_lower by done.
  destruct (read_given_char c bs); [apply Hi|done].
Qed.
Lemma read_ipv4_lower bs : read_ipv4 (low bs) = lower_rest (read_ipv4 bs).
Proof.
  assert (forall n i bs, read_octets n i (low bs) = lower_rest (read_octets n i bs)) as Hos.
  { intros n. induction n as [|n IH]; intros i bs'; [done|]. rewrite !read_octets_step.
    rewrite read_separator_lower by (by left || apply read_number_lower).
    destruct (read_separator 46 i _ bs') as [[o r]|]; [|done]. cbn [lower_rest]. rewrite IH.
    by destruct (read_octets n (S i) r) as [[? ?]|]. }
  unfold read_ipv4. rewrite Hos. by destruct (read_octets 4 0 bs) as [[? ?]|].
Qed.
Lemma read_groups_lower fuel i limit bs :
  read_groups fuel i limit (low bs)
  = let '(gs, v4, rest) := read_groups fuel i limit bs in (gs, v4, low rest).
Proof.
  revert i bs. induction fuel as [|fuel IH]; intros i bs; [done|]. cbn [read_groups].
  rewrite !read_separator_lower by (by right || apply read_number_lower || apply read_ipv4_lower).
  assert ((if (i <? limit - 1)%nat then lower_rest (read_separator 58 i read_ipv4 bs) else None)
          = lower_rest (if (i <? limit - 1)%nat then read_separator 58 i read_ipv4 bs else None)) as ->
    by (by destruct (_ <? _)%nat).
  destruct (if (i <? limit - 1)%nat then _ else _) as [[w r]|]; [done|]. cbn [lower_rest].
  destruct (read_separator 58 i _ bs) as [[g r]|]; [|done]. cbn [lower_rest]. rewrite IH.
  by destruct (read_groups fuel (S i) limit r) as [[? ?] ?].
Qed.
Lemma ip_from_str_lower bs : ip_from_str (low bs) = ip_from_str bs.
Proof.
  assert (read_ipv6 (low bs) = lower_rest (read_ipv6 bs)) as H6.
  { unfold read_ipv6. rewrite read_groups_lower. destruct (read_groups 8 0 8 bs) as [[front f4] r].
    destruct (length front =? 8)%nat; [done|]. destruct f4; [done|].
    rewrite read_given_char_lower by (by right). destruct (read_given_char 58 r) as [r1|]; [|done].
    cbn [fmap option_fmap option_map]. rewrite read_given_char_lower by (by right).
    destruct (read_given_char 58 r1) as [r2|]; [|done]. cbn [fmap option_fmap option_map].
    rewrite read_groups_lower. by destruct (read_groups _ 0 _ r2) as [[? ?] ?]. }
  unfold ip_from_str. rewrite read_ipv4_lower, H6.
  destruct (read_ipv4 bs) as [[v []]|]; [done..|]. by destruct (read_ipv6 bs) as [[v []]|].
Qed.
End lowercase.
