(* ===== verification/Ordering.v ===== *)
(** * Ordering: Rust's [Ord], slice sorting, deduplication and binary search

    The standard-library operations the components call on ordered data:
    [sort]/[sort_unstable], [dedup], [binary_search_by] and the strict order of a
    [BTreeMap]'s keys.  [Ord] is a class: clients are proved against its laws and
    the instances (integers, byte strings) discharge them. *)

From S2P Require Import Prelude.

Class Ord (K : Type) : Type := {
  cmp : K -> K -> comparison;
  cmp_eq : forall a b, cmp a b = Eq <-> a = b;
  cmp_antisym : forall a b, cmp b a = CompOpp (cmp a b);
  cmp_lt_trans : forall a b c, cmp a b = Lt -> cmp b c = Lt -> cmp a c = Lt;
}.
#[export] Hint Mode Ord ! : typeclass_instances.

Definition ord_lt {K} `{Ord K} (a b : K) : Prop := cmp a b = Lt.
Definition ord_le {K} `{Ord K} (a b : K) : Prop := cmp a b <> Gt.

Section ord_laws.
Context {K : Type} `{!Ord K}.
Implicit Types a b c : K.

Lemma cmp_refl a : cmp a a = Eq.
Proof. by apply cmp_eq. Qed.
Lemma cmp_gt_lt a b : cmp a b = Gt <-> cmp b a = Lt.
Proof. rewrite (cmp_antisym a b). destruct (cmp a b); naive_solver. Qed.
Lemma ord_lt_irrefl a : ~ ord_lt a a.
Proof. unfold ord_lt. by rewrite cmp_refl. Qed.
Lemma ord_le_cases a b : ord_le a b <-> ord_lt a b \/ a = b.
Proof.
  unfold ord_le, ord_lt. rewrite <- cmp_eq. destruct (cmp a b); naive_solver.
Qed.

#[export] Instance ord_lt_trans : Transitive (@ord_lt K _).
Proof. intros a b c. apply cmp_lt_trans. Qed.
#[export] Instance ord_le_dec : RelDecision (@ord_le K _).
Proof. intros a b. unfold ord_le. apply _. Defined.
#[export] Instance ord_le_total : Total (@ord_le K _).
Proof.
  intros a b. unfold ord_le. rewrite (cmp_antisym a b). destruct (cmp a b); naive_solver.
Qed.
#[export] Instance ord_le_trans : Transitive (@ord_le K _).
Proof.
  intros a b c. rewrite !ord_le_cases. intros [Hab| ->] [Hbc| ->]; auto.
  left. by transitivity b.
Qed.
#[export] Instance ord_le_antisymm : AntiSymm (=) (@ord_le K _).
Proof.
  intros a b. rewrite !ord_le_cases. intros [Hab|?] [Hba|?]; auto.
  destruct (ord_lt_irrefl a). by transitivity b.
Qed.
#[export] Instance ord_eq_dec : EqDecision K | 100.
Proof.
  intros a b. destruct (cmp a b) eqn:E.
  - left. by apply cmp_eq.
  - right. intros ->. by rewrite cmp_refl in E.
  - right. intros ->. by rewrite cmp_refl in E.
Defined.
End ord_laws.

#[export] Program Instance Z_Ord : Ord Z := {| cmp := Z.compare |}.
Next Obligation. intros. apply Z.compare_eq_iff. Qed.
Next Obligation. intros. apply Z.compare_antisym. Qed.
Next Obligation. intros a b c. rewrite !Z.compare_lt_iff. lia. Qed.

(** Byte-wise lexicographic order, Rust's order on [str]. *)
Lemma string_compare_lt_trans s t u :
  String.compare s t = Lt -> String.compare t u = Lt -> String.compare s u = Lt.
Proof.
  revert t u. induction s as [|x s IH]; intros [|y t] [|z u]; simpl; try done.
  unfold Ascii.compare.
  destruct (N.compare_spec (Ascii.N_of_ascii x) (Ascii.N_of_ascii y)) as [Exy|Lxy|Gxy];
    [..|done];
  destruct (N.compare_spec (Ascii.N_of_ascii y) (Ascii.N_of_ascii z)) as [Eyz|Lyz|Gyz];
    try done; intros H1 H2;
  destruct (N.compare_spec (Ascii.N_of_ascii x) (Ascii.N_of_ascii z)); eauto; lia.
Qed.

#[export] Program Instance string_Ord : Ord string := {| cmp := String.compare |}.
Next Obligation.
  intros a b. split; [apply String.compare_eq_iff|intros ->].
  induction b as [|x b IH]; simpl; [done|]. unfold Ascii.compare. by rewrite N.compare_refl.
Qed.
Next Obligation. intros. apply String.compare_antisym. Qed.
Next Obligation. intros. by eapply string_compare_lt_trans. Qed.

(** ** Sorting and deduplication *)
Definition sort {K} `{Ord K} (l : list K) : list K := merge_sort ord_le l.

(** [Vec::dedup]: drop every element equal to the one kept before it. *)
Fixpoint dedup_from {K} `{Ord K} (prev : K) (l : list K) : list K :=
  match l with
  | [] => []
  | x :: rest =>
      match cmp prev x with
      | Eq => dedup_from prev rest
      | _ => x :: dedup_from x rest
      end
  end.
Definition dedup {K} `{Ord K} (l : list K) : list K :=
  match l with [] => [] | x :: rest => x :: dedup_from x rest end.

Definition sort_dedup {K} `{Ord K} (l : list K) : list K := dedup (sort l).

Section sort_dedup_facts.
Context {K : Type} `{!Ord K}.
Implicit Types (l : list K) (x y : K).

Lemma sort_Permutation l : sort l ≡ₚ l.
Proof. apply merge_sort_Permutation. Qed.
Lemma sort_StronglySorted l : StronglySorted ord_le (sort l).
Proof. apply StronglySorted_merge_sort; apply _. Qed.
Lemma sort_unique l1 l2 : l1 ≡ₚ l2 -> sort l1 = sort l2.
Proof.
  intros Hp. apply (StronglySorted_unique ord_le); try apply sort_StronglySorted.
  by rewrite !sort_Permutation.
Qed.

Lemma dedup_from_elem_of prev l x : x ∈ prev :: dedup_from prev l <-> x ∈ prev :: l.
Proof.
  revert prev. induction l as [|y l IH]; intros prev; simpl; [done|].
  destruct (cmp prev y) eqn:E.
  - apply cmp_eq in E as <-. rewrite IH. set_solver.
  - specialize (IH y). set_solver.
  - specialize (IH y). set_solver.
Qed.
Lemma dedup_elem_of l x : x ∈ dedup l <-> x ∈ l.
Proof. destruct l; [done|]. apply dedup_from_elem_of. Qed.

Lemma dedup_from_StronglySorted prev l :
  StronglySorted ord_le (prev :: l) -> StronglySorted ord_lt (prev :: dedup_from prev l).
Proof.
  revert prev. induction l as [|y l IH]; intros prev Hs; simpl; [by repeat constructor|].
  apply StronglySorted_inv in Hs as [Hs Hall].
  assert (ord_le prev y) as Hle by (by inversion Hall).
  apply ord_le_cases in Hle. destruct (cmp prev y) eqn:E.
  - apply cmp_eq in E as <-. by apply IH.
  - specialize (IH y Hs). constructor; [done|]. apply Forall_forall. intros z Hz.
    apply (dedup_from_elem_of y l z) in Hz.
    assert (ord_le y z) as Hyz.
    { apply elem_of_cons in Hz as [->|Hz]; [by unfold ord_le; rewrite cmp_refl|].
      apply StronglySorted_inv in Hs as [_ Hs]. rewrite Forall_forall in Hs. by apply Hs. }
    apply ord_le_cases in Hyz as [?| ->]; [|done]. by transitivity y.
  - destruct Hle as [Hle| ->]; unfold ord_lt in *; [congruence|].
    by rewrite cmp_refl in E.
Qed.

Lemma sort_dedup_StronglySorted l : StronglySorted ord_lt (sort_dedup l).
Proof.
  unfold sort_dedup, dedup. pose proof (sort_StronglySorted l) as Hs.
  destruct (sort l); [constructor|]. by apply dedup_from_StronglySorted.
Qed.
Lemma sort_dedup_elem_of l x : x ∈ sort_dedup l <-> x ∈ l.
Proof. unfold sort_dedup. by rewrite dedup_elem_of, sort_Permutation. Qed.
Lemma StronglySorted_lt_NoDup l : StronglySorted ord_lt l -> NoDup l.
Proof.
  induction 1 as [|x l Hs IH Hall]; constructor; [|done].
  intros Hin. rewrite Forall_forall in Hall. by apply (ord_lt_irrefl x), Hall.
Qed.
Lemma StronglySorted_lt_ext l1 l2 :
  StronglySorted ord_lt l1 -> StronglySorted ord_lt l2 ->
  (forall x, x ∈ l1 <-> x ∈ l2) -> l1 = l2.
Proof.
  intros H1 H2 Hx.
  assert (forall l, StronglySorted ord_lt l -> StronglySorted ord_le l) as Hw.
  { induction 1 as [|x l ? ? Hall]; constructor; [done|].
    eapply Forall_impl; [exact Hall|]. intros. apply ord_le_cases. by left. }
  apply (StronglySorted_unique ord_le); auto.
  apply NoDup_Permutation; auto using StronglySorted_lt_NoDup.
Qed.
End sort_dedup_facts.

(** ** Binary search

    [slice::binary_search_by(f)]: the size-halving loop of the standard library.
    [f] compares an element with the target; [Some i] is [Ok(i)]. *)
Fixpoint binary_search_loop {A} (f : A -> comparison) (l : list A)
    (fuel base size : nat) : nat :=
  match fuel with
  | O => base
  | S fuel' =>
      if (size <=? 1)%nat then base
      else
        let half := (size / 2)%nat in
        let mid := (base + half)%nat in
        let base' :=
          match l !! mid with
          | Some x => match f x with Gt => base | _ => mid end
          | None => base
          end in
        binary_search_loop f l fuel' base' (size - half)
  end.

Definition binary_search_by {A} (f : A -> comparison) (l : list A) : option nat :=
  match l with
  | [] => None
  | _ =>
      let base := binary_search_loop f l (length l) 0 (length l) in
      match l !! base with
      | Some x => match f x with Eq => Some base | _ => None end
      | None => None
      end
  end.

Definition binary_search {K} `{Ord K} (l : list K) (target : K) : option nat :=
  binary_search_by (fun x => cmp x target) l.

(** [l] is ordered the way [f] sees it: once [Greater], greater ever after. *)
Definition partitioned {A} (f : A -> comparison) (l : list A) : Prop :=
  forall i j x y, (i <= j)%nat -> l !! i = Some x -> l !! j = Some y ->
    (f x = Gt -> f y = Gt) /\ (f y = Lt -> f x = Lt).

Lemma binary_search_loop_spec {A} (f : A -> comparison) (l : list A) fuel base size :
  partitioned f l ->
  (1 <= size <= fuel)%nat ->
  (base + size <= length l)%nat ->
  (base = 0%nat \/ exists x, l !! base = Some x /\ f x <> Gt) ->
  (forall j y, (base + size <= j)%nat -> l !! j = Some y -> f y = Gt) ->
  let b := binary_search_loop f l fuel base size in
  (b < length l)%nat /\
  (b = 0%nat \/ exists x, l !! b = Some x /\ f x <> Gt) /\
  (forall j y, (b < j)%nat -> l !! j = Some y -> f y = Gt).
Proof.
  intros Hp. revert base size. induction fuel as [|fuel IH]; intros base size Hf Hlen Hlo Hhi;
    cbn [binary_search_loop]; cbv zeta; [lia|].
  destruct (Nat.leb_spec size 1).
  - assert (size = 1%nat) as -> by lia. split; [lia|]. split; [done|].
    intros j y Hj. apply Hhi. lia.
  - pose proof (Nat.div_lt size 2 ltac:(lia) ltac:(lia)) as Hhalf.
    pose proof (Nat.Div0.mul_div_le size 2) as Hh2.
    assert (1 <= size / 2)%nat as Hh1 by (apply Nat.div_le_lower_bound; lia).
    destruct (lookup_lt_is_Some_2 l (base + size / 2) ltac:(lia)) as [x Hx].
    rewrite Hx. apply IH; try lia.
    + destruct (f x); lia.
    + destruct (f x) eqn:E; [right; exists x|right; exists x|done]; by rewrite E.
    + intros j y Hj Hy. destruct (f x) eqn:E.
      * apply (Hhi j y); [lia|done].
      * apply (Hhi j y); [lia|done].
      * apply (Hp (base + size / 2)%nat j x y); [lia|done|done|done].
Qed.

Lemma binary_search_by_Some {A} (f : A -> comparison) (l : list A) i :
  binary_search_by f l = Some i -> exists x, l !! i = Some x /\ f x = Eq.
Proof.
  unfold binary_search_by. destruct l; [done|].
  repeat case_match; naive_solver.
Qed.

Lemma binary_search_by_None {A} (f : A -> comparison) (l : list A) :
  partitioned f l -> binary_search_by f l = None -> forall x, x ∈ l -> f x <> Eq.
Proof.
  intros Hp Hn x Hx Heq. destruct l as [|a l']; [by apply elem_of_nil in Hx|].
  unfold binary_search_by in Hn. set (l := a :: l') in *.
  apply list_elem_of_lookup in Hx as [i Hi].
  destruct (binary_search_loop_spec f l (length l) 0 (length l) Hp) as (Hb & Hlo & Hhi).
  { subst l. simpl. lia. } { lia. } { by left. }
  { intros j y Hj Hy. apply lookup_lt_Some in Hy. lia. }
  set (b := binary_search_loop _ _ _ _ _) in *.
  destruct (lookup_lt_is_Some_2 l b Hb) as [z Hz]. rewrite Hz in Hn.
  destruct (Nat.lt_total i b) as [Hlt|[->|Hgt]].
  - destruct (Hp i b x z ltac:(lia) Hi Hz) as [_ Hback].
    destruct (f z) eqn:E; [done|by rewrite (Hback eq_refl) in Heq|].
    destruct Hlo as [?|(w & Hw & Hne)]; [lia|]. rewrite Hz in Hw. naive_solver.
  - rewrite Hz in Hi. injection Hi as ->. by rewrite Heq in Hn.
  - by rewrite (Hhi i x Hgt Hi) in Heq.
Qed.

Lemma sorted_partitioned {A K} `{Ord K} (key : A -> K) (l : list A) target :
  StronglySorted ord_le (key <$> l) -> partitioned (fun x => cmp (key x) target) l.
Proof.
  intros Hs i j x y Hij Hi Hj.
  assert (ord_le (key x) (key y)) as Hle.
  { destruct (decide (i = j)) as [->|Hne].
    { rewrite Hi in Hj. injection Hj as ->. unfold ord_le. by rewrite cmp_refl. }
    rewrite <- (take_drop_middle l i x Hi), fmap_app, fmap_cons in Hs.
    apply StronglySorted_app_1_r in Hs.
    apply StronglySorted_inv in Hs as [_ Hall]. rewrite Forall_forall in Hall. apply Hall.
    apply list_elem_of_fmap. exists y. split; [done|].
    apply list_elem_of_lookup. exists (j - S i)%nat. rewrite lookup_drop.
    rewrite <- Hj. f_equal. lia. }
  apply ord_le_cases in Hle as [Hlt| ->]; [|done].
  unfold ord_lt in Hlt. split.
  - rewrite !cmp_gt_lt. intros. by eapply cmp_lt_trans.
  - intros. by eapply cmp_lt_trans.
Qed.

(** On a sorted list the search decides membership. *)
Lemma binary_search_sorted {K} `{Ord K} (l : list K) target :
  StronglySorted ord_le l -> is_Some (binary_search l target) <-> target ∈ l.
Proof.
  intros Hs. unfold binary_search. split.
  - intros [i Hi]. apply binary_search_by_Some in Hi as (x & Hx & E).
    apply cmp_eq in E as ->. apply list_elem_of_lookup. eauto.
  - intros Hin. destruct (binary_search_by _ l) eqn:E; [done|].
    destruct (binary_search_by_None (fun x => cmp x target) l) with (x := target);
      auto using cmp_refl.
    apply (sorted_partitioned id). by rewrite list_fmap_id.
Qed.

Lemma StronglySorted_lt_le {K} `{Ord K} (l : list K) :
  StronglySorted ord_lt l -> StronglySorted ord_le l.
Proof.
  induction 1 as [|x l ? ? Hall]; constructor; [done|].
  eapply Forall_impl; [exact Hall|]. intros. apply ord_le_cases. by left.
Qed.

Lemma binary_search_strict {K} `{Ord K} (l : list K) target :
  StronglySorted ord_lt l -> is_Some (binary_search l target) <-> target ∈ l.
Proof. intros. by apply binary_search_sorted, StronglySorted_lt_le. Qed.

(** ** Sorting by a key

    [sort_unstable_by(|a, b| key(a).cmp(key(b)))]: where the keys are distinct, as
    the callers check, every sorting algorithm gives this list. *)
Section sort_by_key.
Context {A K : Type} `{!Ord K} (key : A -> K).

Definition key_le (a b : A) : Prop := ord_le (key a) (key b).
#[export] Instance key_le_dec : RelDecision key_le.
Proof. intros a b. unfold key_le. apply _. Defined.
#[export] Instance key_le_total : Total key_le.
Proof. intros a b. apply ord_le_total. Qed.
#[export] Instance key_le_trans : Transitive key_le.
Proof. intros a b c. apply ord_le_trans. Qed.

Definition sort_by_key (l : list A) : list A := merge_sort key_le l.

Lemma sort_by_key_Permutation l : sort_by_key l ≡ₚ l.
Proof. apply merge_sort_Permutation. Qed.
Lemma sort_by_key_sorted l : StronglySorted ord_le (key <$> sort_by_key l).
Proof.
  pose proof (StronglySorted_merge_sort key_le l) as Hs. fold (sort_by_key l) in Hs.
  induction Hs as [|x k Hs IH Hx]; [constructor|]. rewrite fmap_cons. constructor; [done|].
  apply Forall_fmap. exact Hx.
Qed.
Lemma sort_by_key_strict l :
  NoDup (key <$> l) -> StronglySorted ord_lt (key <$> sort_by_key l).
Proof.
  intros Hnd. assert (NoDup (key <$> sort_by_key l)) as Hnd'
    by (by rewrite sort_by_key_Permutation).
  pose proof (sort_by_key_sorted l) as Hs. revert Hs Hnd'. generalize (key <$> sort_by_key l).
  induction 1 as [|x k Hs IH Hx]; intros Hn; constructor.
  - apply IH. by apply NoDup_cons in Hn as [_ ?].
  - apply NoDup_cons in Hn as [Hx' _]. rewrite Forall_forall in Hx |- *. intros y Hy.
    specialize (Hx y Hy). apply ord_le_cases in Hx as [?| ->]; [done|by destruct Hx'].
Qed.

(** [binary_search_by_key] on records with strictly increasing keys. *)
Definition binary_search_by_key (l : list A) (target : K) : option nat :=
  binary_search_by (fun x => cmp (key x) target) l.

Lemma binary_search_by_key_spec l target :
  StronglySorted ord_lt (key <$> l) ->
  match binary_search_by_key l target with
  | Some i => exists x, l !! i = Some x /\ key x = target
  | None => forall x, x ∈ l -> key x <> target
  end.
Proof.
  intros Hs. unfold binary_search_by_key. destruct (binary_search_by _ l) as [i|] eqn:E.
  - apply binary_search_by_Some in E as (x & Hx & Hc). exists x. by apply cmp_eq in Hc.
  - intros x Hx Heq. eapply binary_search_by_None; [|exact E|exact Hx|by apply cmp_eq].
    apply sorted_partitioned. by apply StronglySorted_lt_le.
Qed.
End sort_by_key.

(** [iter().collect::<HashSet<_>>().len() == len()]: no element twice. *)
Definition all_distinct {A} `{Countable A} (l : list A) : bool :=
  (size (list_to_set l : gset A) =? length l)%nat.
Lemma size_list_to_set_le {A} `{Countable A} (l : list A) :
  (size (list_to_set l : gset A) <= length l)%nat.
Proof.
  induction l as [|x l IH]; simpl; [reflexivity|].
  pose proof (size_union_alt ({[x]} : gset A) (list_to_set l)) as Hu.
  rewrite size_singleton in Hu.
  pose proof (subseteq_size (list_to_set l ∖ {[x]}) (list_to_set l : gset A) ltac:(set_solver)). lia.
Qed.
Lemma all_distinct_NoDup {A} `{Countable A} (l : list A) : all_distinct l = true <-> NoDup l.
Proof.
  unfold all_distinct. rewrite Nat.eqb_eq. split; [|apply size_list_to_set].
  induction l as [|x l IH]; intros Hs; [constructor|]. simpl in Hs.
  pose proof (size_list_to_set_le l).
  destruct (decide (x ∈ l)) as [Hin|Hn].
  - assert (({[x]} ∪ list_to_set l : gset A) = list_to_set l) as E by set_solver.
    rewrite E in Hs. lia.
  - rewrite size_union, size_singleton in Hs by set_solver. constructor; [done|]. apply IH. lia.
Qed.

(** Lexicographic order on pairs. *)
Definition prod_cmp {A B} `{Ord A, Ord B} (x y : A * B) : comparison :=
  match cmp x.1 y.1 with Eq => cmp x.2 y.2 | c => c end.
#[export] Program Instance prod_Ord {A B} `{Ord A, Ord B} : Ord (A * B) := {| cmp := prod_cmp |}.
Next Obligation.
  intros A B ? ? [a b] [c d]. unfold prod_cmp. simpl.
  pose proof (cmp_eq a c). pose proof (cmp_eq b d). destruct (cmp a c), (cmp b d); naive_solver.
Qed.
Next Obligation.
  intros A B ? ? [a b] [c d]. unfold prod_cmp. simpl. rewrite (cmp_antisym a c).
  destruct (cmp a c); simpl; [apply cmp_antisym|done..].
Qed.
Next Obligation.
  intros A B ? ? [a b] [c d] [e f]. unfold prod_cmp. simpl.
  destruct (cmp a c) eqn:Eac; [apply cmp_eq in Eac; subst c| |done].
  - destruct (cmp a e) eqn:Eae; [apply cmp_lt_trans|done|done].
  - destruct (cmp c e) eqn:Ece; [apply cmp_eq in Ece; subst e| |done].
    + by rewrite Eac.
    + by rewrite (cmp_lt_trans a c e Eac Ece).
Qed.

(** [sort_by(|a, b| key(a).cmp(key(b)))], the stable sort: elements with equal keys
    keep their order. *)
Section stable_sort.
Context {A K : Type} `{!Ord K} (key : A -> K).
Fixpoint insert_by_key (x : A) (l : list A) : list A :=
  match l with
  | [] => [x]
  | y :: rest => match cmp (key x) (key y) with Gt => y :: insert_by_key x rest | _ => x :: l end
  end.
Definition stable_sort_by_key (l : list A) : list A := foldr insert_by_key [] l.

Lemma insert_by_key_Permutation x l : insert_by_key x l ≡ₚ x :: l.
Proof.
  induction l as [|y l IH]; simpl; [done|]. destruct (cmp (key x) (key y)); [done..|].
  rewrite IH. apply Permutation_swap.
Qed.
Lemma stable_sort_Permutation l : stable_sort_by_key l ≡ₚ l.
Proof. induction l as [|x l IH]; simpl; [done|]. by rewrite insert_by_key_Permutation, IH. Qed.
Lemma insert_by_key_sorted x l :
  StronglySorted ord_le (key <$> l) -> StronglySorted ord_le (key <$> insert_by_key x l).
Proof.
  induction l as [|y l IH]; rewrite ?fmap_cons; intros Hs; [simpl; repeat constructor|].
  apply StronglySorted_inv in Hs as [Hs Hy]. simpl. destruct (cmp (key x) (key y)) eqn:E.
  1,2: rewrite !fmap_cons; assert (ord_le (key x) (key y)) as Hxy by (unfold ord_le; congruence);
    repeat constructor; try done; rewrite Forall_forall in Hy |- *; intros z Hz;
    by etransitivity; [|apply Hy].
  rewrite fmap_cons. constructor; [by apply IH|]. rewrite Forall_forall in Hy |- *. intros z Hz.
  rewrite insert_by_key_Permutation, fmap_cons, elem_of_cons in Hz. destruct Hz as [->|]; [|by apply Hy].
  unfold ord_le. by rewrite (cmp_antisym (key x)), E.
Qed.
Lemma stable_sort_sorted l : StronglySorted ord_le (key <$> stable_sort_by_key l).
Proof. induction l as [|x l IH]; simpl; [constructor|]. by apply insert_by_key_sorted. Qed.
(** Sorting leaves a sorted list alone. *)
Lemma stable_sort_id l : StronglySorted ord_le (key <$> l) -> stable_sort_by_key l = l.
Proof.
  induction l as [|x l IH]; [done|]. rewrite fmap_cons. intros [Hs Hx]%StronglySorted_inv. simpl.
  rewrite IH by done. destruct l as [|y l]; [done|]. rewrite fmap_cons in Hx.
  apply Forall_cons in Hx as [Hxy _]. simpl. unfold ord_le in Hxy. by destruct (cmp (key x) (key y)).
Qed.
End stable_sort.
Lemma sort_id {K} `{Ord K} (l : list K) : StronglySorted ord_le l -> sort l = l.
Proof.
  intros Hs. eapply StronglySorted_unique; [apply ord_le_antisymm|apply sort_StronglySorted|exact Hs|].
  apply sort_Permutation.
Qed.
Lemma sort_idem {K} `{Ord K} (l : list K) : sort (sort l) = sort l.
Proof. apply sort_id, sort_StronglySorted. Qed.
