(* ===== verification/BTreeMap.v ===== *)
(** * BTreeMap: ordered maps as strictly sorted association lists

    [std::collections::BTreeMap] iterates in key order, which several components
    observe (the order of due schedules, the records processed before an early
    return), so the map is the sorted list itself.  [bt_wf] is the representation
    invariant every operation keeps. *)

From S2P Require Import Prelude Ordering.

Abbreviation BTreeMap K V := (list (K * V)%type) (only parsing).

Section btree.
Context {K V : Type} `{!Ord K}.
Implicit Types (m : BTreeMap K V) (k : K) (v : V).

Fixpoint bt_get k m : option V :=
  match m with
  | [] => None
  | (k', v) :: rest =>
      match cmp k k' with
      | Eq => Some v
      | _ => bt_get k rest
      end
  end.

Fixpoint bt_insert k v m : BTreeMap K V :=
  match m with
  | [] => [(k, v)]
  | (k', v') :: rest =>
      match cmp k k' with
      | Eq => (k', v) :: rest
      | Lt => (k, v) :: (k', v') :: rest
      | Gt => (k', v') :: bt_insert k v rest
      end
  end.

Fixpoint bt_remove k m : BTreeMap K V :=
  match m with
  | [] => []
  | (k', v') :: rest =>
      match cmp k k' with
      | Eq => rest
      | _ => (k', v') :: bt_remove k rest
      end
  end.

Definition bt_contains_key k m : bool :=
  match bt_get k m with Some _ => true | None => false end.
Definition bt_keys m : list K := m.*1.
Definition bt_values m : list V := m.*2.

(** [Iterator::collect] into a map: a later pair replaces an earlier one. *)
Definition bt_collect (l : list (K * V)) : BTreeMap K V :=
  fold_left (fun m kv => bt_insert kv.1 kv.2 m) l [].

Definition bt_wf m : Prop := StronglySorted ord_lt (bt_keys m).

Lemma bt_wf_nil : bt_wf [].
Proof. constructor. Qed.

Lemma bt_wf_cons k v m :
  bt_wf ((k, v) :: m) <-> Forall (ord_lt k) (bt_keys m) /\ bt_wf m.
Proof.
  unfold bt_wf. simpl. split.
  - intros H. apply StronglySorted_inv in H as [? ?]. done.
  - intros [? ?]. by constructor.
Qed.

Lemma bt_get_Forall_lt k m : Forall (ord_lt k) (bt_keys m) -> bt_get k m = None.
Proof.
  induction m as [|[k' v'] m IH]; simpl; [done|].
  intros Hf. apply Forall_cons in Hf as [Hlt Hf]. unfold ord_lt in Hlt. rewrite Hlt. auto.
Qed.

Lemma bt_insert_keys k v m x :
  x ∈ bt_keys (bt_insert k v m) <-> x = k \/ x ∈ bt_keys m.
Proof.
  induction m as [|[k' v'] m IH]; simpl; [set_solver|].
  destruct (cmp k k') eqn:E; simpl.
  - apply cmp_eq in E as ->. set_solver.
  - set_solver.
  - rewrite !elem_of_cons, IH. tauto.
Qed.

Lemma bt_insert_wf k v m : bt_wf m -> bt_wf (bt_insert k v m).
Proof.
  induction m as [|[k' v'] m IH]; intros Hwf; simpl; [by repeat constructor|].
  pose proof Hwf as Hwf0. apply bt_wf_cons in Hwf as [Hlt Hwf].
  destruct (cmp k k') eqn:E.
  - by apply bt_wf_cons.
  - apply bt_wf_cons. split; [|done]. constructor; [done|].
    eapply Forall_impl; [exact Hlt|]. intros x Hx. by transitivity k'.
  - apply bt_wf_cons. split; [|auto]. apply Forall_forall. intros x Hx.
    apply bt_insert_keys in Hx as [->|Hx]; [by apply cmp_gt_lt|].
    rewrite Forall_forall in Hlt. auto.
Qed.

Lemma bt_get_insert_eq k v m : bt_get k (bt_insert k v m) = Some v.
Proof.
  induction m as [|[k' v'] m IH]; simpl; [by rewrite cmp_refl|].
  destruct (cmp k k') eqn:E; simpl; [by rewrite E|by rewrite cmp_refl|by rewrite E].
Qed.

Lemma bt_get_insert_other k k0 v m : k0 <> k -> bt_get k0 (bt_insert k v m) = bt_get k0 m.
Proof.
  intros Hne. assert (cmp k0 k <> Eq) as Hc by (by rewrite cmp_eq).
  induction m as [|[k' v'] m IH]; simpl; [by destruct (cmp k0 k)|].
  destruct (cmp k k') eqn:E; simpl.
  - apply cmp_eq in E as ->. by destruct (cmp k0 k').
  - by destruct (cmp k0 k).
  - destruct (cmp k0 k'); auto.
Qed.
Lemma bt_get_insert_ne k k0 v m :
  bt_wf m -> k0 <> k -> bt_get k0 (bt_insert k v m) = bt_get k0 m.
Proof. intros _. apply bt_get_insert_other. Qed.

Lemma bt_get_insert k k0 v m :
  bt_wf m ->
  bt_get k0 (bt_insert k v m) = if decide (k0 = k) then Some v else bt_get k0 m.
Proof.
  intros. case_decide as E; [subst; apply bt_get_insert_eq|by apply bt_get_insert_ne].
Qed.

Lemma bt_remove_keys_subset k m x : x ∈ bt_keys (bt_remove k m) -> x ∈ bt_keys m.
Proof.
  induction m as [|[k' v'] m IH]; simpl; [done|].
  destruct (cmp k k'); simpl; rewrite ?elem_of_cons; naive_solver.
Qed.

Lemma bt_remove_wf k m : bt_wf m -> bt_wf (bt_remove k m).
Proof.
  induction m as [|[k' v'] m IH]; intros Hwf; simpl; [done|].
  apply bt_wf_cons in Hwf as [Hlt Hwf].
  destruct (cmp k k'); [done|..]; apply bt_wf_cons; (split; [|auto]);
    apply Forall_forall; intros x Hx; rewrite Forall_forall in Hlt;
    by apply Hlt, (bt_remove_keys_subset k).
Qed.

Lemma bt_get_remove_other k k0 m : k0 <> k -> bt_get k0 (bt_remove k m) = bt_get k0 m.
Proof.
  intros Hne. induction m as [|[k' v'] m IH]; simpl; [done|].
  destruct (cmp k k') eqn:E; simpl; [|by rewrite IH..].
  apply cmp_eq in E as <-. destruct (cmp k0 k) eqn:E0; [|done..]. by apply cmp_eq in E0.
Qed.
Lemma bt_get_remove_eq k m : bt_wf m -> bt_get k (bt_remove k m) = None.
Proof.
  induction m as [|[k' v'] m IH]; simpl; [done|]. intros [Hlt Hwf]%bt_wf_cons.
  destruct (cmp k k') eqn:E; simpl; [|by rewrite E, IH..].
  apply cmp_eq in E as <-. by apply bt_get_Forall_lt.
Qed.
Lemma bt_remove_absent k m : bt_get k m = None -> bt_remove k m = m.
Proof.
  induction m as [|[k' v'] m IH]; simpl; [done|]. destruct (cmp k k'); [done|intros H; by rewrite IH..].
Qed.

Lemma bt_insert_Forall (P : K * V -> Prop) k v m : P (k, v) -> Forall P m -> Forall P (bt_insert k v m).
Proof.
  intros Hk. induction 1 as [|[k' v'] m Hkv Hm IH]; simpl; [by repeat constructor|].
  destruct (cmp k k') eqn:E; repeat (constructor; auto). apply cmp_eq in E as <-. done.
Qed.
Lemma bt_remove_Forall (P : K * V -> Prop) k m : Forall P m -> Forall P (bt_remove k m).
Proof. induction 1 as [|[k' v'] m Hkv Hm IH]; simpl; [constructor|]. destruct (cmp k k'); auto. Qed.
Lemma bt_remove_sublist k m : bt_remove k m `sublist_of` m.
Proof.
  induction m as [|[k' v'] m IH]; simpl; [done|]. destruct (cmp k k'); [by constructor|by constructor..].
Qed.

Lemma bt_get_elem_of k v m : bt_get k m = Some v -> (k, v) ∈ m.
Proof.
  induction m as [|[k' v'] m IH]; simpl; [done|].
  destruct (cmp k k') eqn:E; [|by right; auto..].
  intros [= ->]. apply cmp_eq in E as ->. by left.
Qed.

Lemma bt_elem_of_get k v m : bt_wf m -> (k, v) ∈ m -> bt_get k m = Some v.
Proof.
  induction m as [|[k' v'] m IH]; intros Hwf Hin; [by apply elem_of_nil in Hin|].
  apply bt_wf_cons in Hwf as [Hlt Hwf]. apply elem_of_cons in Hin as [[= -> ->]|Hin].
  - simpl. by rewrite cmp_refl.
  - assert (ord_lt k' k) as Hk.
    { rewrite Forall_forall in Hlt. apply Hlt. apply list_elem_of_fmap. by exists (k, v). }
    simpl. apply cmp_gt_lt in Hk. rewrite Hk. auto.
Qed.

Lemma bt_get_keys k m : is_Some (bt_get k m) <-> k ∈ bt_keys m.
Proof.
  induction m as [|[k' v'] m IH]; simpl.
  - rewrite elem_of_nil. split; [by intros []|done].
  - rewrite elem_of_cons. destruct (cmp k k') eqn:E.
    + apply cmp_eq in E as ->. naive_solver.
    + rewrite IH. split; [auto|]. intros [->|?]; [by rewrite cmp_refl in E|done].
    + rewrite IH. split; [auto|]. intros [->|?]; [by rewrite cmp_refl in E|done].
Qed.

Lemma bt_ext m1 m2 : bt_wf m1 -> bt_wf m2 -> (forall k, bt_get k m1 = bt_get k m2) -> m1 = m2.
Proof.
  intros H1 H2 Heq.
  assert (bt_keys m1 = bt_keys m2) as Hk.
  { apply StronglySorted_lt_ext; [done..|]. intros x. by rewrite <- !bt_get_keys, Heq. }
  revert m2 H2 Heq Hk. induction m1 as [|[k v] m1 IH]; intros [|[k2 v2] m2] H2 Heq Hk;
    simpl in Hk; try done.
  injection Hk as -> Hk. apply bt_wf_cons in H1 as [L1 H1]. apply bt_wf_cons in H2 as [L2 H2].
  pose proof (Heq k2) as Hv. simpl in Hv. rewrite cmp_refl in Hv. injection Hv as ->.
  f_equal. apply IH; auto. intros k.
  destruct (decide (k = k2)) as [->|Hne].
  - by rewrite !bt_get_Forall_lt.
  - specialize (Heq k). simpl in Heq. destruct (cmp k k2) eqn:E; auto.
    by apply cmp_eq in E.
Qed.

Lemma bt_collect_wf l : bt_wf (bt_collect l).
Proof.
  unfold bt_collect. assert (bt_wf []) as H by constructor. revert H. generalize (@nil (K * V)).
  induction l as [|[k v] l IH]; simpl; auto using bt_insert_wf.
Qed.

Lemma bt_insert_length k v m :
  bt_wf m ->
  length (bt_insert k v m) = (length m + if bt_contains_key k m then 0 else 1)%nat.
Proof.
  unfold bt_contains_key. induction m as [|[k' v'] m IH]; intros Hwf; simpl; [done|].
  apply bt_wf_cons in Hwf as [Hlt Hwf]. destruct (cmp k k') eqn:E; simpl; [lia| |].
  - rewrite bt_get_Forall_lt; [lia|]. eapply Forall_impl; [exact Hlt|].
    intros x Hx. by transitivity k'.
  - rewrite IH by done. lia.
Qed.
Lemma bt_insert_snoc k v m : bt_wf (m ++ [(k, v)]) -> bt_insert k v m = m ++ [(k, v)].
Proof.
  induction m as [|[k' v'] m IH]; intros Hwf; [done|].
  cbn [app] in *. apply bt_wf_cons in Hwf as [Hlt Hwf]. cbn [bt_insert].
  assert (cmp k k' = Gt) as ->.
  { apply cmp_gt_lt. rewrite Forall_forall in Hlt. apply Hlt.
    apply list_elem_of_fmap. exists (k, v). set_solver. }
  by rewrite IH.
Qed.

Lemma bt_wf_app_l m1 m2 : bt_wf (m1 ++ m2) -> bt_wf m1.
Proof.
  unfold bt_wf, bt_keys. rewrite fmap_app. apply StronglySorted_app_1_l.
Qed.

Lemma bt_collect_wf_id m : bt_wf m -> bt_collect m = m.
Proof.
  intros Hwf. unfold bt_collect.
  enough (forall (rest acc : BTreeMap K V), bt_wf (acc ++ rest) ->
    fold_left (fun m kv => bt_insert kv.1 kv.2 m) rest acc = acc ++ rest) as Hgen.
  { by apply (Hgen m []). }
  induction rest as [|[k v] rest IH]; intros acc Hw; simpl.
  { by rewrite app_nil_r. }
  rewrite cons_middle, app_assoc in Hw |- *.
  rewrite bt_insert_snoc by (by apply bt_wf_app_l in Hw). by apply IH.
Qed.
End btree.

#[export] Hint Resolve bt_wf_nil bt_insert_wf bt_remove_wf bt_collect_wf : nethop.

(** What an insertion does to a sum over the values. *)
Lemma bt_insert_sum {K V} `{!Ord K} (f : V -> Z) (k : K) (v : V) (m : BTreeMap K V) :
  bt_wf m ->
  sumZ (f <$> bt_values (bt_insert k v m))
  = (sumZ (f <$> bt_values m) - from_option f 0 (bt_get k m) + f v)%Z.
Proof.
  unfold bt_values. induction m as [|[k' v'] m IH]; intros Hwf; [simpl; lia|].
  pose proof Hwf as [Hlt Hwf']%bt_wf_cons. cbn [bt_insert bt_get].
  assert (forall (kv : K * V) l, sumZ (f <$> (kv :: l).*2) = (f kv.2 + sumZ (f <$> l.*2))%Z) as Hcons by done.
  destruct (cmp k k') eqn:E; rewrite !Hcons; simpl; [lia| |].
  - rewrite (bt_get_Forall_lt k m); [simpl; lia|].
    eapply Forall_impl; [exact Hlt|]. intros x Hx. by transitivity k'.
  - rewrite (IH Hwf'). lia.
Qed.
