(* ===== verification/Json.v ===== *)
(** * Json: the value type of serde_json

    [serde_json::Value] without the [preserve_order] feature: an object is a map
    sorted by key.  A number is its literal. *)

From S2P Require Import Prelude Text Ordering BTreeMap.

Inductive Json : Type :=
| JNull | JBool (b : bool) | JNumber (literal : string) | JString (s : string)
| JArray (l : list Json) | JObject (fields : list (string * Json)).

Definition json_get (key : string) (fields : list (string * Json)) : option Json :=
  snd <$> List.find (fun kv => String.eqb (fst kv) key) fields.
(** [Value::as_str] and [Value::as_u64]. *)
Definition json_as_str (v : Json) : option string := match v with JString s => Some s | _ => None end.
Definition json_as_u64 (v : Json) : option Z :=
  match v with JNumber literal => parse_u64 (bytes literal) | _ => None end.
Definition is_object (v : Json) : bool := match v with JObject _ => true | _ => false end.

(** Induction with the hypothesis for every element and every field. *)
Section Json_induction.
Context (P : Json -> Prop).
Hypotheses (Pnull : P JNull) (Pbool : forall b, P (JBool b)) (Pnumber : forall n, P (JNumber n))
  (Pstring : forall s, P (JString s)) (Parray : forall l, Forall P l -> P (JArray l))
  (Pobject : forall fields, Forall (fun kv => P kv.2) fields -> P (JObject fields)).

Fixpoint Json_rect' (v : Json) : P v :=
  match v with
  | JNull => Pnull
  | JBool b => Pbool b
  | JNumber n => Pnumber n
  | JString s => Pstring s
  | JArray l =>
      Parray l ((fix go (l : list Json) : Forall P l :=
                   match l with
                   | [] => List.Forall_nil _
                   | x :: rest => List.Forall_cons _ _ _ (Json_rect' x) (go rest)
                   end) l)
  | JObject fields =>
      Pobject fields ((fix go (l : list (string * Json)) : Forall (fun kv => P kv.2) l :=
                         match l with
                         | [] => List.Forall_nil _
                         | (k, x) :: rest => List.Forall_cons _ (k, x) _ (Json_rect' x) (go rest)
                         end) fields)
  end.
End Json_induction.

(** [==] on values. *)
Fixpoint json_eqb (v w : Json) : bool :=
  match v, w with
  | JNull, JNull => true
  | JBool a, JBool b => Bool.eqb a b
  | JNumber a, JNumber b | JString a, JString b => String.eqb a b
  | JArray l, JArray k =>
      (fix go (l k : list Json) : bool :=
         match l, k with
         | [], [] => true
         | x :: l, y :: k => json_eqb x y && go l k
         | _, _ => false
         end) l k
  | JObject l, JObject k =>
      (fix go (l k : list (string * Json)) : bool :=
         match l, k with
         | [], [] => true
         | (s, x) :: l, (t, y) :: k => String.eqb s t && json_eqb x y && go l k
         | _, _ => false
         end) l k
  | _, _ => false
  end.
Lemma json_eqb_eq v w : json_eqb v w = true <-> v = w.
Proof.
  revert w. induction v as [|b|n|s|l IH|fields IH] using Json_rect'; intros [|b'|n'|s'|k|k]; cbn; try done.
  - rewrite eqb_true_iff. naive_solver.
  - rewrite String.eqb_eq. naive_solver.
  - rewrite String.eqb_eq. naive_solver.
  - transitivity (l = k); [|naive_solver]. revert k.
    induction IH as [|x l Hx _ IHl]; intros [|y k]; try done. rewrite andb_true_iff, Hx, IHl. naive_solver.
  - transitivity (fields = k); [|naive_solver]. revert k.
    induction IH as [|[t x] l Hx _ IHl]; intros [|[t' y] k]; try done.
    rewrite !andb_true_iff, String.eqb_eq, (Hx y), IHl. naive_solver.
Qed.
