(* ===== verification/Lifecycle.v ===== *)
(** * Lifecycle: the core/capture/resource reducer and the runtime state table

    Models crates/nethop-core/src/lifecycle.rs (the three state axes, the
    validity predicate and [LifecycleReducer::apply]) and
    crates/nethop-core/src/state.rs ([RuntimeState::transition]).
    [Enum::Variant] of the source is [Enum_Variant] here. *)

From S2P Require Import Prelude.

(** ** Data *)
Inductive CoreState : Type :=
| CoreState_Stopped
| CoreState_Starting
| CoreState_Ready
| CoreState_Stopping
| CoreState_Failed.

Inductive CaptureState : Type :=
| CaptureState_Disabled
| CaptureState_Preparing
| CaptureState_Enabled
| CaptureState_Disabling
| CaptureState_Failed.

Inductive ResourceState : Type :=
| ResourceState_Active
| ResourceState_Warm
| ResourceState_Idle
| ResourceState_Cold.

Inductive LifecycleEvent : Type :=
| CoreStartRequested
| CoreReady
| CoreStopRequested
| CoreStopped
| CoreFailed
| CaptureEnableRequested
| CaptureEnabled
| CaptureDisableRequested
| CaptureDisabled
| CaptureFailed
| IdleDeadlineReached
| ResourcePressure
| UserDemand.

Record LifecycleAxes : Type := mkAxes {
  core_state : CoreState;
  capture_state : CaptureState;
  resource_state : ResourceState;
}.

Inductive LifecycleError : Type :=
| InvalidAxes (core : CoreState) (capture : CaptureState) (resource : ResourceState)
| InvalidEvent (axes : LifecycleAxes) (event : LifecycleEvent).

#[export] Instance CoreState_eq_dec : EqDecision CoreState.
Proof. solve_decision. Defined.
#[export] Instance CaptureState_eq_dec : EqDecision CaptureState.
Proof. solve_decision. Defined.
#[export] Instance ResourceState_eq_dec : EqDecision ResourceState.
Proof. solve_decision. Defined.
#[export] Instance LifecycleEvent_eq_dec : EqDecision LifecycleEvent.
Proof. solve_decision. Defined.
#[export] Instance LifecycleAxes_eq_dec : EqDecision LifecycleAxes.
Proof. solve_decision. Defined.

(** ** Named points and validity of the axes *)
Definition LifecycleAxes_cold : LifecycleAxes :=
  mkAxes CoreState_Stopped CaptureState_Disabled ResourceState_Cold.
Definition LifecycleAxes_warm : LifecycleAxes :=
  mkAxes CoreState_Ready CaptureState_Disabled ResourceState_Warm.
Definition LifecycleAxes_active : LifecycleAxes :=
  mkAxes CoreState_Ready CaptureState_Enabled ResourceState_Active.

Definition is_valid (self : LifecycleAxes) : bool :=
  let core_capture_valid :=
    match core_state self with
    | CoreState_Stopped =>
        match capture_state self with
        | CaptureState_Disabled | CaptureState_Failed => true
        | _ => false
        end
    | CoreState_Starting | CoreState_Stopping =>
        match capture_state self with
        | CaptureState_Disabled | CaptureState_Disabling => true
        | _ => false
        end
    | CoreState_Ready => true
    | CoreState_Failed =>
        match capture_state self with
        | CaptureState_Disabled | CaptureState_Failed => true
        | _ => false
        end
    end in
  let resource_valid :=
    match resource_state self with
    | ResourceState_Active =>
        match core_state self with CoreState_Ready => true | _ => false end
        && match capture_state self with
           | CaptureState_Enabled | CaptureState_Disabling => true
           | _ => false
           end
    | ResourceState_Warm =>
        match core_state self with CoreState_Ready => true | _ => false end
        && match capture_state self with
           | CaptureState_Disabled | CaptureState_Preparing | CaptureState_Failed => true
           | _ => false
           end
    | ResourceState_Idle =>
        match core_state self with
        | CoreState_Ready | CoreState_Stopping => true
        | _ => false
        end
        && match capture_state self with CaptureState_Disabled => true | _ => false end
    | ResourceState_Cold =>
        match core_state self with
        | CoreState_Stopped | CoreState_Starting | CoreState_Stopping => true
        | _ => false
        end
        && match capture_state self with CaptureState_Disabled => true | _ => false end
    end in
  core_capture_valid && resource_valid.

Definition invalid_axes (a : LifecycleAxes) : LifecycleError :=
  InvalidAxes (core_state a) (capture_state a) (resource_state a).

Definition validate (self : LifecycleAxes) : Result LifecycleError LifecycleAxes :=
  if is_valid self then Ok self else Err (invalid_axes self).

(** ** The reducer

    The record [LifecycleReducer] has one private field, so the reducer is its
    axes.  [reducer_arm] is the [match (self.axes, event)] of [apply]: every
    event has one guarded arm, and [None] is the [_] arm. *)
Record LifecycleReducer : Type := mkReducer { axes : LifecycleAxes }.

Definition LifecycleReducer_new : LifecycleReducer := mkReducer LifecycleAxes_cold.

Definition LifecycleReducer_from_axes (a : LifecycleAxes) :
    Result LifecycleError LifecycleReducer :=
  if is_valid a then Ok (mkReducer a) else Err (invalid_axes a).

Definition reducer_arm (a : LifecycleAxes) (event : LifecycleEvent) :
    option LifecycleAxes :=
  match event with
  | CoreStartRequested =>
      if bool_decide (a = LifecycleAxes_cold)
      then Some (mkAxes CoreState_Starting CaptureState_Disabled ResourceState_Cold)
      else None
  | CoreReady =>
      if bool_decide (core_state a = CoreState_Starting)
         && bool_decide (capture_state a = CaptureState_Disabled)
      then Some LifecycleAxes_warm else None
  | CaptureEnableRequested =>
      if bool_decide (core_state a = CoreState_Ready)
         && bool_decide (capture_state a = CaptureState_Disabled)
      then Some (mkAxes CoreState_Ready CaptureState_Preparing ResourceState_Warm)
      else None
  | CaptureEnabled =>
      if bool_decide (core_state a = CoreState_Ready)
         && bool_decide (capture_state a = CaptureState_Preparing)
      then Some LifecycleAxes_active else None
  | CaptureDisableRequested =>
      if bool_decide (core_state a = CoreState_Ready)
         && bool_decide (capture_state a = CaptureState_Enabled)
      then Some (mkAxes CoreState_Ready CaptureState_Disabling ResourceState_Active)
      else None
  | CaptureDisabled =>
      if bool_decide (core_state a = CoreState_Ready)
         && (bool_decide (capture_state a = CaptureState_Disabling)
             || bool_decide (capture_state a = CaptureState_Enabled))
      then Some LifecycleAxes_warm else None
  | IdleDeadlineReached =>
      if bool_decide (a = LifecycleAxes_warm)
      then Some (mkAxes CoreState_Ready CaptureState_Disabled ResourceState_Idle)
      else None
  | CoreStopRequested =>
      if (bool_decide (resource_state a = ResourceState_Warm)
          || bool_decide (resource_state a = ResourceState_Idle))
         && bool_decide (core_state a = CoreState_Ready)
         && bool_decide (capture_state a = CaptureState_Disabled)
      then Some (mkAxes CoreState_Stopping CaptureState_Disabled (resource_state a))
      else None
  | CoreStopped =>
      if bool_decide (core_state a = CoreState_Stopping)
         && bool_decide (capture_state a = CaptureState_Disabled)
      then Some LifecycleAxes_cold else None
  | UserDemand =>
      if bool_decide (resource_state a = ResourceState_Idle)
      then Some LifecycleAxes_warm else None
  | CoreFailed =>
      if bool_decide (capture_state a = CaptureState_Disabled)
      then Some (mkAxes CoreState_Failed CaptureState_Disabled ResourceState_Cold)
      else None
  | CaptureFailed =>
      if bool_decide (core_state a = CoreState_Ready)
      then Some (mkAxes CoreState_Ready CaptureState_Failed ResourceState_Warm)
      else None
  | ResourcePressure => None
  end.

Definition LifecycleReducer_apply (event : LifecycleEvent) :
    Mut LifecycleReducer LifecycleError LifecycleAxes := fun self =>
  match reducer_arm (axes self) event with
  | None => (Err (InvalidEvent (axes self) event), self)
  | Some next =>
      match validate next with
      | Ok a => (Ok next, mkReducer a)
      | Err e => (Err e, self)
      end
  end.

(** Applying a sequence of events, keeping only the final state. *)
Fixpoint apply_all (events : list LifecycleEvent) (self : LifecycleReducer) :
    LifecycleReducer :=
  match events with
  | [] => self
  | event :: rest => apply_all rest (LifecycleReducer_apply event self).2
  end.

(** ** Reachability *)
Inductive reachable : LifecycleReducer -> Prop :=
| reachable_new : reachable LifecycleReducer_new
| reachable_from_axes a r : LifecycleReducer_from_axes a = Ok r -> reachable r
| reachable_apply r event : reachable r -> reachable (LifecycleReducer_apply event r).2.

(** The points the reducer can visit when it starts cold. *)
Definition cold_orbit : list LifecycleAxes :=
  [ LifecycleAxes_cold;
    mkAxes CoreState_Starting CaptureState_Disabled ResourceState_Cold;
    LifecycleAxes_warm;
    mkAxes CoreState_Ready CaptureState_Preparing ResourceState_Warm;
    LifecycleAxes_active;
    mkAxes CoreState_Ready CaptureState_Disabling ResourceState_Active;
    mkAxes CoreState_Ready CaptureState_Disabled ResourceState_Idle;
    mkAxes CoreState_Stopping CaptureState_Disabled ResourceState_Idle;
    mkAxes CoreState_Ready CaptureState_Failed ResourceState_Warm ].

Ltac split_axes a := destruct a as [[] [] []].

(** ** Lemmas *)
Lemma validate_ok a b : validate a = Ok b <-> b = a /\ is_valid a = true.
Proof. unfold validate. destruct (is_valid a); split; intros; naive_solver. Qed.

Lemma from_axes_ok a r :
  LifecycleReducer_from_axes a = Ok r <-> r = mkReducer a /\ is_valid a = true.
Proof. unfold LifecycleReducer_from_axes. destruct (is_valid a); split; intros; naive_solver. Qed.

Lemma apply_ok_inv event r a r' :
  LifecycleReducer_apply event r = (Ok a, r') ->
  reducer_arm (axes r) event = Some a /\ is_valid a = true /\ r' = mkReducer a.
Proof.
  unfold LifecycleReducer_apply, validate.
  destruct (reducer_arm _ _) as [next|]; [|done].
  destruct (is_valid next) eqn:?; naive_solver.
Qed.

Lemma apply_err_inv event r e r' :
  LifecycleReducer_apply event r = (Err e, r') -> r' = r.
Proof. unfold LifecycleReducer_apply, validate. repeat case_match; naive_solver. Qed.

Lemma apply_preserves_valid event r :
  is_valid (axes r) = true ->
  is_valid (axes (LifecycleReducer_apply event r).2) = true.
Proof.
  intros Hr. destruct (LifecycleReducer_apply event r) as [[a|e] r'] eqn:E; simpl.
  - apply apply_ok_inv in E as (_ & ? & ->). done.
  - by apply apply_err_inv in E as ->.
Qed.

Lemma reachable_is_valid r : reachable r -> is_valid (axes r) = true.
Proof.
  induction 1 as [|a r H|r ev _ IH]; [done| |by apply apply_preserves_valid].
  by apply from_axes_ok in H as [-> ?].
Qed.

Lemma apply_all_app xs ys r : apply_all (xs ++ ys) r = apply_all ys (apply_all xs r).
Proof. revert r. induction xs; simpl; auto. Qed.

Lemma reachable_apply_all evs r : reachable r -> reachable (apply_all evs r).
Proof. revert r. induction evs; simpl; auto using reachable_apply. Qed.

Lemma cold_orbit_step event a :
  a ∈ cold_orbit -> axes (LifecycleReducer_apply event (mkReducer a)).2 ∈ cold_orbit.
Proof.
  rewrite !list_elem_of_In. unfold cold_orbit. simpl.
  intros H. repeat destruct H as [<-|H]; [..|done]; destruct event; vm_compute; tauto.
Qed.

(** ** Properties of the reducer *)

(** [apply] is atomic and keeps the axes valid.  From every reachable reducer
    a successful [apply] leaves exactly the returned axes, which satisfy
    [is_valid], and a failing one leaves the reducer untouched. *)
Theorem lifecycle_apply_atomic r event :
  reachable r ->
  is_valid (axes r) = true /\
  match LifecycleReducer_apply event r with
  | (Ok a, r') => axes r' = a /\ is_valid a = true
  | (Err _, r') => r' = r
  end.
Proof.
  intros Hr. split; [by apply reachable_is_valid|].
  destruct (LifecycleReducer_apply event r) as [[a|e] r'] eqn:E.
  - by apply apply_ok_inv in E as (_ & ? & ->).
  - by apply apply_err_inv in E.
Qed.

Lemma lifecycle_apply_atomic_witness :
  LifecycleReducer_apply CoreStartRequested LifecycleReducer_new =
    (Ok (mkAxes CoreState_Starting CaptureState_Disabled ResourceState_Cold),
     mkReducer (mkAxes CoreState_Starting CaptureState_Disabled ResourceState_Cold)) /\
  is_valid (mkAxes CoreState_Starting CaptureState_Disabled ResourceState_Cold) = true.
Proof.
  split; [reflexivity|].
  pose proof (lifecycle_apply_atomic LifecycleReducer_new CoreStartRequested reachable_new)
    as [_ H].
  vm_compute in H. exact (proj2 H).
Defined.

(** The exact orbit of a cold start.  The axes reachable from [new] by events
    are the nine points of [cold_orbit] and no others: capture is prepared,
    enabled or being disabled only while the core is [Ready], and neither
    [CoreState::Failed] nor a failed capture with a stopped core is ever
    reached. *)
Theorem lifecycle_cold_orbit a :
  (exists events, axes (apply_all events LifecycleReducer_new) = a) <-> a ∈ cold_orbit.
Proof.
  split.
  - intros [events <-].
    assert (forall evs b, b ∈ cold_orbit ->
      axes (apply_all evs (mkReducer b)) ∈ cold_orbit) as Hind.
    { induction evs as [|ev evs IH]; simpl; intros b Hb; [done|].
      pose proof (cold_orbit_step ev b Hb) as Hs.
      destruct (LifecycleReducer_apply ev (mkReducer b)).2 as [b']. by apply IH. }
    apply Hind. vm_compute. constructor.
  - rewrite list_elem_of_In. unfold cold_orbit; simpl.
    intros H.
    destruct H as [<-|H]; [by exists []|].
    destruct H as [<-|H]; [by exists [CoreStartRequested]|].
    destruct H as [<-|H]; [by exists [CoreStartRequested; CoreReady]|].
    destruct H as [<-|H]; [by exists [CoreStartRequested; CoreReady; CaptureEnableRequested]|].
    destruct H as [<-|H]; [by exists [CoreStartRequested; CoreReady; CaptureEnableRequested;
      CaptureEnabled]|].
    destruct H as [<-|H]; [by exists [CoreStartRequested; CoreReady; CaptureEnableRequested;
      CaptureEnabled; CaptureDisableRequested]|].
    destruct H as [<-|H]; [by exists [CoreStartRequested; CoreReady; IdleDeadlineReached]|].
    destruct H as [<-|H]; [by exists [CoreStartRequested; CoreReady; IdleDeadlineReached;
      CoreStopRequested]|].
    destruct H as [<-|[]]. by exists [CoreStartRequested; CoreReady; CaptureFailed].
Qed.

(** The events that bring a cold-started reducer back to cold from each point
    other than the failed-capture one. *)
Definition shutdown_plan (a : LifecycleAxes) : list LifecycleEvent :=
  match core_state a, capture_state a, resource_state a with
  | CoreState_Stopped, _, _ => []
  | CoreState_Starting, _, _ => [CoreReady; IdleDeadlineReached; CoreStopRequested; CoreStopped]
  | CoreState_Stopping, _, _ => [CoreStopped]
  | _, CaptureState_Preparing, _ =>
      [CaptureEnabled; CaptureDisabled; IdleDeadlineReached; CoreStopRequested; CoreStopped]
  | _, CaptureState_Enabled, _ | _, CaptureState_Disabling, _ =>
      [CaptureDisabled; IdleDeadlineReached; CoreStopRequested; CoreStopped]
  | _, _, ResourceState_Idle => [CoreStopRequested; CoreStopped]
  | _, _, _ => [IdleDeadlineReached; CoreStopRequested; CoreStopped]
  end.

(** The failure arms of the reducer.  [CoreFailed] is rejected in every valid
    state, although its arm accepts a disabled capture; a stop request is
    rejected from [Warm], although its guard admits it; and a failed capture is
    absorbing: no sequence of events leaves it.  From every other reachable
    point a cold start can be shut down to [cold] again. *)
Theorem lifecycle_failure_arms :
  (forall r, reachable r -> is_ok (LifecycleReducer_apply CoreFailed r).1 = false) /\
  is_ok (LifecycleReducer_apply CoreStopRequested (mkReducer LifecycleAxes_warm)).1 = false /\
  (forall events,
     let failed := mkReducer (mkAxes CoreState_Ready CaptureState_Failed ResourceState_Warm) in
     apply_all events failed = failed) /\
  (forall a, a ∈ cold_orbit -> capture_state a <> CaptureState_Failed ->
     axes (apply_all (shutdown_plan a) (mkReducer a)) = LifecycleAxes_cold).
Proof.
  split; [|split; [|split]].
  - intros [a] _. split_axes a; reflexivity.
  - reflexivity.
  - intros events failed. induction events as [|ev events IH]; [done|].
    simpl. replace (LifecycleReducer_apply ev failed).2 with failed; [done|].
    by destruct ev.
  - intros a Ha Hne. rewrite list_elem_of_In in Ha. unfold cold_orbit in Ha; simpl in Ha.
    repeat destruct Ha as [<-|Ha]; try done; vm_compute in Hne; congruence.
Qed.
