(* ===== verification/RuntimeState.v ===== *)
(** * RuntimeState: the data-plane state table

    Models crates/nethop-core/src/state.rs: the eleven runtime states and
    [RuntimeState::transition], the table every state change of the worker goes
    through. *)

From S2P Require Import Prelude.

Inductive RuntimeState : Type :=
| Init
| Probing
| StartingCore
| RunningTproxy
| StartingTun
| RunningTun
| Degraded
| Backoff
| CircuitOpen
| FailOpenDirect
| Stopping.

#[export] Instance RuntimeState_eq_dec : EqDecision RuntimeState.
Proof. solve_decision. Defined.

Inductive StateTransitionError : Type :=
| StateTransitionError_Invalid (from to : RuntimeState).

Definition transition (self next : RuntimeState) :
    Result StateTransitionError RuntimeState :=
  let valid :=
    match self, next with
    | Init, Probing
    | Probing, StartingCore
    | Probing, StartingTun
    | Probing, FailOpenDirect
    | StartingCore, RunningTproxy
    | StartingCore, StartingTun
    | StartingCore, FailOpenDirect
    | StartingTun, RunningTun
    | StartingTun, Backoff
    | StartingTun, FailOpenDirect
    | RunningTproxy, Degraded
    | RunningTproxy, Stopping
    | RunningTun, Degraded
    | RunningTun, Stopping
    | Degraded, Backoff
    | Degraded, FailOpenDirect
    | Degraded, Stopping
    | Backoff, Probing
    | Backoff, FailOpenDirect
    | FailOpenDirect, Backoff
    | FailOpenDirect, CircuitOpen
    | FailOpenDirect, Probing
    | FailOpenDirect, Stopping
    | CircuitOpen, Stopping => true
    | _, _ => false
    end in
  if valid then Ok next else Err (StateTransitionError_Invalid self next).

(** A sequence of requested states, stopped by the first rejected one. *)
Fixpoint run (self : RuntimeState) (requests : list RuntimeState) :
    Result StateTransitionError RuntimeState :=
  match requests with
  | [] => Ok self
  | next :: rest => s ← transition self next; run s rest
  end.

Definition is_running (s : RuntimeState) : bool :=
  match s with RunningTproxy | RunningTun => true | _ => false end.

(** States from which a running state is reached without a new probe. *)
Definition probed (s : RuntimeState) : bool :=
  match s with
  | Probing | StartingCore | StartingTun | RunningTproxy | RunningTun => true
  | _ => false
  end.

(** The requests that stop the data plane from each state. *)
Definition stop_route (s : RuntimeState) : list RuntimeState :=
  match s with
  | Init => [Probing; FailOpenDirect; Stopping]
  | Probing | StartingCore | StartingTun | Backoff => [FailOpenDirect; Stopping]
  | RunningTproxy | RunningTun | Degraded | CircuitOpen | FailOpenDirect => [Stopping]
  | Stopping => []
  end.

Lemma transition_ok s t u : transition s t = Ok u -> u = t.
Proof. intros H. destruct s, t; by inversion H. Qed.

Lemma run_cons_ok s t rest u :
  run s (t :: rest) = Ok u -> transition s t = Ok t /\ run t rest = Ok u.
Proof.
  simpl. destruct (transition s t) as [x|] eqn:E; [|done].
  apply transition_ok in E as ->. done.
Qed.

Lemma transition_into_probed s t :
  transition s t = Ok t -> probed s = false -> probed t = true -> t = Probing.
Proof. by destruct s, t. Qed.

(** Capture is never brought up again without a fresh capability probe.  Every
    accepted sequence of transitions from a state that is not past a probe
    ([Init], [Degraded], [Backoff], [FailOpenDirect], [CircuitOpen],
    [Stopping]) into a running state passes through [Probing]; [Stopping] has no
    outgoing transition and [CircuitOpen] can only stop. *)
Theorem runtime_running_requires_probe s requests t :
  probed s = false ->
  run s requests = Ok t ->
  is_running t = true ->
  Probing ∈ requests /\ s <> Stopping /\ s <> CircuitOpen.
Proof.
  revert s. induction requests as [|next rest IH]; intros s Hs Hrun Ht.
  - simpl in Hrun. injection Hrun as ->. by destruct t.
  - apply run_cons_ok in Hrun as [Hstep Hrun].
    destruct (probed next) eqn:Hp.
    + pose proof (transition_into_probed _ _ Hstep Hs Hp) as ->.
      split; [constructor|]. by destruct s.
    + destruct (IH next Hp Hrun Ht) as (Hin & Hns & Hnc).
      split; [by constructor|]. by destruct s, next.
Qed.

Lemma runtime_running_requires_probe_witness :
  run Degraded [Backoff; Probing; StartingTun; RunningTun] = Ok RunningTun /\
  Probing ∈ [Backoff; Probing; StartingTun; RunningTun].
Proof.
  split; [reflexivity|].
  apply (runtime_running_requires_probe Degraded _ RunningTun); reflexivity.
Defined.

(** The data plane can always be stopped: from every state the listed requests
    (at most three) are all accepted and end in [Stopping], where every further
    request is rejected with the pair of states it asked for. *)
Theorem runtime_can_always_stop s :
  run s (stop_route s) = Ok Stopping /\
  (length (stop_route s) <= 3)%nat /\
  (forall next, transition Stopping next = Err (StateTransitionError_Invalid Stopping next)).
Proof. destruct s; (split; [reflexivity|split; [simpl; lia|by intros []]]). Qed.
