(* ===== verification/Capture.v ===== *)
(** * Capture: what traffic the transparent proxy takes over

    Models crates/nethop-core/src/capture.rs: the capture mode, the interface and
    forwarding scopes, and [CapturePolicy] with its validating constructors and
    the per-UID decision [captures_uid]. *)

From S2P Require Import Prelude Ordering.

Local Open Scope Z_scope.

Definition MAX_UIDS : Z := 2048.
Definition MAX_INTERFACE_PATTERNS : Z := 64.
Definition MAX_INTERFACE_PATTERN_BYTES : Z := 64.

Inductive CaptureMode : Type := Tproxy | Tun | Direct.
#[export] Instance CaptureMode_eq_dec : EqDecision CaptureMode.
Proof. solve_decision. Defined.

Inductive CapturePolicyError : Type :=
| MissingTproxyMark
| MissingTproxyPort
| TooManyUids
| OverlappingUidPolicy
| MissingTransport
| InvalidInterfacePolicy.
#[export] Instance CapturePolicyError_eq_dec : EqDecision CapturePolicyError.
Proof. solve_decision. Defined.

Record InterfacePolicy : Type := mkInterfacePolicy {
  mobile : bool;
  wifi : bool;
  include : list string;
  exclude : list string;
}.

Record ForwardingPolicy : Type := mkForwardingPolicy { hotspot : bool; usb : bool }.

Definition ForwardingPolicy_enabled (self : ForwardingPolicy) : bool :=
  hotspot self || usb self.
Definition ForwardingPolicy_default : ForwardingPolicy := mkForwardingPolicy false false.

(** The byte set of an interface pattern: alphanumerics and [_ - . + * ?]. *)
Definition pattern_byte (b : Z) : bool :=
  is_ascii_alphanumeric b || (b =? 95) || (b =? 45) || (b =? 46) || (b =? 43)
  || (b =? 42) || (b =? 63).

Definition valid_patterns (patterns : list string) : bool :=
  forallb (fun pattern =>
    negb (str_len pattern =? 0)
    && (str_len pattern <=? MAX_INTERFACE_PATTERN_BYTES)
    && forallb pattern_byte (bytes pattern)) patterns.

Definition InterfacePolicy_new (mobile wifi : bool) (include exclude : list string) :
    Result CapturePolicyError InterfacePolicy :=
  if (negb mobile && negb wifi && (len include =? 0))
     || (MAX_INTERFACE_PATTERNS <? len include)
     || (MAX_INTERFACE_PATTERNS <? len exclude)
     || negb (valid_patterns include)
     || negb (valid_patterns exclude)
     || existsb (fun value => bool_decide (value ∈ exclude)) include
  then Err InvalidInterfacePolicy
  else Ok (mkInterfacePolicy mobile wifi include exclude).

Definition InterfacePolicy_is_unrestricted (self : InterfacePolicy) : bool :=
  mobile self && wifi self && (len (include self) =? 0) && (len (exclude self) =? 0).
Definition InterfacePolicy_default : InterfacePolicy := mkInterfacePolicy true true [] [].

Record CapturePolicy : Type := mkCapturePolicy {
  mode : CaptureMode;
  proxy_tcp : bool;
  proxy_udp : bool;
  ipv6_guard : bool;
  inbound_port : option Z;
  bypass_mark : option Z;
  include_uids : list Z;
  exclude_uids : list Z;
  interface_policy : InterfacePolicy;
  forwarding_policy : ForwardingPolicy;
}.

Definition unwrap_or {A} (o : option A) (d : A) : A :=
  match o with Some a => a | None => d end.

Definition CapturePolicy_new_with_protocols
    (mode : CaptureMode) (proxy_tcp proxy_udp ipv6_guard : bool)
    (inbound_port bypass_mark : option Z) (include_uids exclude_uids : list Z) :
    Result CapturePolicyError CapturePolicy :=
  if negb (bool_decide (mode = Direct)) && negb proxy_tcp && negb proxy_udp
  then Err MissingTransport
  else if bool_decide (mode = Tproxy) && (unwrap_or bypass_mark 0 =? 0)
  then Err MissingTproxyMark
  else if bool_decide (mode = Tproxy) && (unwrap_or inbound_port 0 =? 0)
  then Err MissingTproxyPort
  else if (MAX_UIDS <? len include_uids) || (MAX_UIDS <? len exclude_uids)
  then Err TooManyUids
  else
    let include_uids := sort_dedup include_uids in
    let exclude_uids := sort_dedup exclude_uids in
    if existsb (fun uid => bool_decide (is_Some (binary_search exclude_uids uid)))
         include_uids
    then Err OverlappingUidPolicy
    else Ok (mkCapturePolicy mode proxy_tcp proxy_udp ipv6_guard inbound_port
               bypass_mark include_uids exclude_uids
               InterfacePolicy_default ForwardingPolicy_default).

Definition CapturePolicy_new (mode : CaptureMode) (ipv6_guard : bool)
    (inbound_port bypass_mark : option Z) (include_uids exclude_uids : list Z) :
    Result CapturePolicyError CapturePolicy :=
  CapturePolicy_new_with_protocols mode true true ipv6_guard inbound_port bypass_mark
    include_uids exclude_uids.

Definition with_interface_policy (self : CapturePolicy) (p : InterfacePolicy) :
    Result CapturePolicyError CapturePolicy :=
  if bool_decide (mode self = Direct) && negb (InterfacePolicy_is_unrestricted p)
  then Err InvalidInterfacePolicy
  else Ok (mkCapturePolicy (mode self) (proxy_tcp self) (proxy_udp self)
             (ipv6_guard self) (inbound_port self) (bypass_mark self)
             (include_uids self) (exclude_uids self) p (forwarding_policy self)).

Definition with_forwarding_policy (self : CapturePolicy) (p : ForwardingPolicy) :
    Result CapturePolicyError CapturePolicy :=
  if bool_decide (mode self = Direct) && ForwardingPolicy_enabled p
  then Err InvalidInterfacePolicy
  else Ok (mkCapturePolicy (mode self) (proxy_tcp self) (proxy_udp self)
             (ipv6_guard self) (inbound_port self) (bypass_mark self)
             (include_uids self) (exclude_uids self) (interface_policy self) p).

Definition captures_uid (self : CapturePolicy) (uid : Z) : bool :=
  let included :=
    (len (include_uids self) =? 0)
    || bool_decide (is_Some (binary_search (include_uids self) uid)) in
  included && negb (bool_decide (is_Some (binary_search (exclude_uids self) uid))).

(** ** The invariant of a constructed policy *)
Record policy_wf (p : CapturePolicy) : Prop := {
  wf_transport : mode p <> Direct -> proxy_tcp p = true \/ proxy_udp p = true;
  wf_mark : mode p = Tproxy -> exists m, bypass_mark p = Some m /\ m <> 0;
  wf_port : mode p = Tproxy -> exists q, inbound_port p = Some q /\ q <> 0;
  wf_include : StronglySorted ord_lt (include_uids p);
  wf_exclude : StronglySorted ord_lt (exclude_uids p);
  wf_disjoint : forall uid, uid ∈ include_uids p -> uid ∉ exclude_uids p;
  wf_bounded : len (include_uids p) <= MAX_UIDS /\ len (exclude_uids p) <= MAX_UIDS;
  wf_direct : mode p = Direct ->
    InterfacePolicy_is_unrestricted (interface_policy p) = true /\
    ForwardingPolicy_enabled (forwarding_policy p) = false;
}.

(** Policies as the constructors and the two builders produce them. *)
Inductive built : CapturePolicy -> Prop :=
| built_new m t u g ip bm inc exc p :
    CapturePolicy_new_with_protocols m t u g ip bm inc exc = Ok p -> built p
| built_interface p i p' : built p -> with_interface_policy p i = Ok p' -> built p'
| built_forwarding p f p' : built p -> with_forwarding_policy p f = Ok p' -> built p'.

Lemma dedup_from_length {K} `{Ord K} (prev : K) l : (length (dedup_from prev l) <= length l)%nat.
Proof.
  revert prev. induction l as [|x l IH]; intros prev; simpl; [lia|].
  destruct (cmp prev x); simpl; [specialize (IH prev)|specialize (IH x)|specialize (IH x)]; lia.
Qed.
Lemma sort_dedup_length {K} `{Ord K} (l : list K) : len (sort_dedup l) <= len l.
Proof.
  unfold sort_dedup, len. rewrite <- (Permutation_length (sort_Permutation l)).
  destruct (sort l) as [|x s]; simpl; [lia|]. pose proof (dedup_from_length x s). lia.
Qed.

Lemma unwrap_or_nonzero (o : option Z) :
  (unwrap_or o 0 =? 0) = false -> exists m, o = Some m /\ m <> 0.
Proof. destruct o as [m|]; simpl; [|done]. intros H%Z.eqb_neq. eauto. Qed.

Lemma new_with_protocols_ok m t u g ip bm inc exc p :
  CapturePolicy_new_with_protocols m t u g ip bm inc exc = Ok p ->
  policy_wf p /\ mode p = m /\
  include_uids p = sort_dedup inc /\ exclude_uids p = sort_dedup exc.
Proof.
  unfold CapturePolicy_new_with_protocols.
  split_if Ht; [done|]. split_if Hm; [done|]. split_if Hq; [done|].
  split_if Hn; [done|]. cbv zeta. split_if Hx; [done|].
  intros [= <-]. simpl. split; [|done]. apply orb_false_elim in Hn as [Hn1 Hn2].
  apply Z.ltb_ge in Hn1, Hn2. split; simpl; auto using sort_dedup_StronglySorted.
  - intros Hd. rewrite bool_decide_eq_false_2 in Ht by done. destruct t, u; auto.
  - intros ->. by apply unwrap_or_nonzero.
  - intros ->. by apply unwrap_or_nonzero.
  - intros uid Hin Hex. apply not_true_iff_false in Hx. apply Hx, existsb_exists.
    exists uid. split; [by apply list_elem_of_In|]. apply bool_decide_eq_true_2.
    apply binary_search_strict; auto using sort_dedup_StronglySorted.
  - pose proof (sort_dedup_length inc). pose proof (sort_dedup_length exc). lia.
Qed.

Lemma built_wf p : built p -> policy_wf p.
Proof.
  induction 1 as [???????? p H|p i p' _ IH H|p f p' _ IH H].
  - by apply new_with_protocols_ok in H as [? _].
  - unfold with_interface_policy in H.
    destruct (bool_decide (mode p = Direct)) eqn:Hm, (InterfacePolicy_is_unrestricted i) eqn:Hi;
      simpl in H; try done; injection H as <-;
      destruct IH as [? ? ? ? ? ? ? Hd]; split; simpl; auto;
      (intros E; split; [done || by rewrite E in Hm|by apply Hd]).
  - unfold with_forwarding_policy in H.
    destruct (bool_decide (mode p = Direct)) eqn:Hm, (ForwardingPolicy_enabled f) eqn:Hi;
      simpl in H; try done; injection H as <-;
      destruct IH as [? ? ? ? ? ? ? Hd]; split; simpl; auto;
      (intros E; split; [by apply Hd|done || by rewrite E in Hm]).
Qed.

(** ** Properties *)

(** Every capture policy the constructors and builders can produce is well
    formed: a proxying mode has a transport, TPROXY has a non-zero mark and port,
    both UID lists are strictly increasing, disjoint and bounded, and direct mode
    carries no interface or forwarding restriction. *)
Theorem capture_policy_built_wf p : built p -> policy_wf p.
Proof. apply built_wf. Qed.

Definition sample_policy : CapturePolicy :=
  mkCapturePolicy Tproxy true true true (Some 7893) (Some 512) [1000; 1001] [0]
    InterfacePolicy_default ForwardingPolicy_default.

Lemma capture_policy_built_wf_witness :
  CapturePolicy_new Tproxy true (Some 7893) (Some 512) [1001; 1000; 1001] [0] =
    Ok sample_policy /\ policy_wf sample_policy.
Proof.
  split; [reflexivity|]. apply capture_policy_built_wf.
  apply (built_new Tproxy true true true (Some 7893) (Some 512) [1001; 1000; 1001] [0]).
  reflexivity.
Defined.

(** [captures_uid] decides the UID policy.  On a built policy the two binary
    searches are exact: a UID is captured iff the include list is empty or names
    it, and the exclude list does not name it.  In particular no excluded UID is
    ever captured. *)
Theorem captures_uid_spec p uid :
  built p ->
  captures_uid p uid = true <->
  (include_uids p = [] \/ uid ∈ include_uids p) /\ uid ∉ exclude_uids p.
Proof.
  intros Hb. apply built_wf in Hb. unfold captures_uid.
  rewrite andb_true_iff, orb_true_iff, negb_true_iff, bool_decide_eq_true,
    bool_decide_eq_false, !binary_search_strict by apply Hb.
  unfold len. rewrite Z.eqb_eq. destruct (include_uids p); simpl; [naive_solver|].
  split; intros [[?|?] ?]; (split; [|done]); auto; lia || done.
Qed.

Lemma captures_uid_spec_witness :
  captures_uid sample_policy 1001 = true /\ 1001 ∉ exclude_uids sample_policy.
Proof.
  split; [reflexivity|].
  refine (proj2 (proj1 (captures_uid_spec sample_policy 1001 _) eq_refl)).
  apply (built_new Tproxy true true true (Some 7893) (Some 512) [1001; 1000; 1001] [0]).
  reflexivity.
Defined.

(** The policy does not depend on how the UID lists are written: permuting
    them, or repeating entries within the size limit, gives the same policy (or
    the same error). *)
Theorem capture_policy_canonical m t u g ip bm inc exc inc' exc' :
  (forall uid, uid ∈ inc <-> uid ∈ inc') ->
  (forall uid, uid ∈ exc <-> uid ∈ exc') ->
  len inc <= MAX_UIDS -> len inc' <= MAX_UIDS ->
  len exc <= MAX_UIDS -> len exc' <= MAX_UIDS ->
  CapturePolicy_new_with_protocols m t u g ip bm inc exc =
  CapturePolicy_new_with_protocols m t u g ip bm inc' exc'.
Proof.
  intros Hi He L1 L2 L3 L4.
  assert (sort_dedup inc = sort_dedup inc') as Ei.
  { apply StronglySorted_lt_ext; auto using sort_dedup_StronglySorted.
    intros x. rewrite !sort_dedup_elem_of. apply Hi. }
  assert (sort_dedup exc = sort_dedup exc') as Ee.
  { apply StronglySorted_lt_ext; auto using sort_dedup_StronglySorted.
    intros x. rewrite !sort_dedup_elem_of. apply He. }
  unfold CapturePolicy_new_with_protocols. rewrite Ei, Ee.
  rewrite !(proj2 (Z.ltb_ge _ _)) by done. done.
Qed.

Lemma capture_policy_canonical_witness :
  CapturePolicy_new_with_protocols Tun true false true None None [3; 1; 3] [7; 5] =
  CapturePolicy_new_with_protocols Tun true false true None None [1; 3] [5; 7].
Proof.
  apply (capture_policy_canonical Tun true false true None None [3; 1; 3] [7; 5] [1; 3] [5; 7]);
    try (vm_compute; discriminate); intros uid; set_solver.
Defined.
