(* ===== verification/Resource.v ===== *)
(** * Resource: sampling aggregates and the idle policy

    Models crates/nethop-core/src/resource.rs (sample aggregation with
    nearest-rank percentiles, the idle decision) and
    crates/nethopd/src/resource_policy.rs ([IdlePolicyController], the daemon's
    stateful wrapper).  Times are milliseconds or [Duration]s as in the source,
    and [as u64]/[as u32] casts truncate. *)

From S2P Require Import Prelude Ordering Lifecycle.

Local Open Scope Z_scope.

Definition DEFAULT_TEST_WARM_TIMEOUT : Z := from_secs (5 * 60).
Definition DEFAULT_TEST_COLD_TIMEOUT : Z := from_secs (30 * 60).

Record ResourceSample : Type := mkSample {
  observed_at_ms : Z;
  rss_bytes : Z;
  sample_cpu_user_ms : Z;
  sample_cpu_system_ms : Z;
  threads : Z;
  open_fds : Z;
  active_connections : Z;
  dns_cache_entries : Z;
  rule_set_bytes : Z;
  sample_wakeup_count : Z;
  network_bytes : Z;
}.

Record ResourceAggregate : Type := mkAggregate {
  sample_count : Z;
  rss_baseline_bytes : Z;
  rss_median_bytes : Z;
  rss_p95_bytes : Z;
  rss_max_bytes : Z;
  rss_upper_bound_bytes : Z;
  cpu_user_ms : Z;
  cpu_system_ms : Z;
  threads_max : Z;
  open_fds_max : Z;
  active_connections_max : Z;
  wakeup_count : Z;
}.

(** [iter().max().unwrap_or(0)] on unsigned values. *)
Definition max_or_zero (l : list Z) : Z := foldr Z.max 0 l.

(** The closure [percentile(numerator, denominator)] over the sorted values. *)
Definition percentile (rss : list Z) (numerator denominator : Z) : Z :=
  let index := (sat_sub_u (len rss) 1 * numerator + denominator - 1) / denominator in
  nth (Z.to_nat (Z.min index (len rss - 1))) rss 0.

Definition ResourceAggregate_from_samples (samples : list ResourceSample) :
    option ResourceAggregate :=
  match samples with
  | [] => None
  | first :: rest =>
      let rss := sort (rss_bytes <$> samples) in
      let last_sample := default first (last samples) in
      let rss_last := default 0 (last rss) in
      Some (mkAggregate
        (cast_u 32 (len samples))
        (rss_bytes first)
        (percentile rss 1 2)
        (percentile rss 95 100)
        rss_last
        (Z.max (rss_bytes last_sample) rss_last)
        (sat_sub_u (sample_cpu_user_ms last_sample) (sample_cpu_user_ms first))
        (sat_sub_u (sample_cpu_system_ms last_sample) (sample_cpu_system_ms first))
        (max_or_zero (threads <$> samples))
        (max_or_zero (open_fds <$> samples))
        (max_or_zero (active_connections <$> samples))
        (sat_sub_u (sample_wakeup_count last_sample) (sample_wakeup_count first)))
  end.

Inductive Pressure : Type :=
| Pressure_None
| WarmBudgetExceeded
| IdleBudgetExceeded
| ActiveBudgetExceeded.

Record IdleInputs : Type := mkIdleInputs {
  now_ms : Z;
  last_capture_disabled_ms : Z;
  last_demand_ms : Z;
  pending_operations : Z;
  idle_active_connections : Z;
  network_recovery : bool;
  resource_pressure : Pressure;
}.

Inductive IdleDecision : Type := KeepActive | KeepWarm | EnterIdle | EnterCold.
#[export] Instance IdleDecision_eq_dec : EqDecision IdleDecision.
Proof. solve_decision. Defined.

Record IdlePolicy : Type := mkIdlePolicy { warm_timeout_ms : Z; cold_timeout_ms : Z }.

Definition IdlePolicy_test_defaults : IdlePolicy :=
  mkIdlePolicy (cast_u 64 (as_millis DEFAULT_TEST_WARM_TIMEOUT))
               (cast_u 64 (as_millis DEFAULT_TEST_COLD_TIMEOUT)).

Definition IdlePolicy_new (warm_timeout cold_timeout : Z) : option IdlePolicy :=
  if dur_is_zero warm_timeout || (cold_timeout <? warm_timeout) then None
  else Some (mkIdlePolicy (cast_u 64 (as_millis warm_timeout))
                          (cast_u 64 (as_millis cold_timeout))).

Definition IdlePolicy_decide (self : IdlePolicy) (input : IdleInputs) : IdleDecision :=
  if (0 <? pending_operations input) || (0 <? idle_active_connections input)
     || network_recovery input
  then KeepWarm
  else
    match resource_pressure input with
    | ActiveBudgetExceeded => KeepActive
    | IdleBudgetExceeded => EnterCold
    | WarmBudgetExceeded => EnterIdle
    | Pressure_None =>
        let idle_for := sat_sub_u (now_ms input) (last_capture_disabled_ms input) in
        let demand_for := sat_sub_u (now_ms input) (last_demand_ms input) in
        if (cold_timeout_ms self <=? idle_for) && (cold_timeout_ms self <=? demand_for)
        then EnterCold
        else if (warm_timeout_ms self <=? idle_for) && (warm_timeout_ms self <=? demand_for)
        then EnterIdle
        else KeepWarm
    end.

(** ** The daemon's controller *)
Record IdlePolicyController : Type := mkController {
  policy : IdlePolicy;
  ctl_resource_state : ResourceState;
  last_capture_disabled : Z;
  last_demand : Z;
}.

Definition IdlePolicyController_new (policy : IdlePolicy) (now : Z) : IdlePolicyController :=
  mkController policy ResourceState_Cold now now.

Definition record_capture_enabled (self : IdlePolicyController) (now : Z) :=
  mkController (policy self) ResourceState_Active (last_capture_disabled self) now.
Definition record_capture_disabled (self : IdlePolicyController) (now : Z) :=
  mkController (policy self) ResourceState_Warm now (last_demand self).
Definition record_demand (self : IdlePolicyController) (now : Z) : IdlePolicyController :=
  mkController (policy self)
    (if bool_decide (ctl_resource_state self = ResourceState_Idle)
     then ResourceState_Warm else ctl_resource_state self)
    (last_capture_disabled self) now.

Definition IdlePolicyController_decide (self : IdlePolicyController)
    (now pending active : Z) (recovery : bool) (pressure : Pressure) :
    IdleDecision * IdlePolicyController :=
  let input := mkIdleInputs (cast_u 64 (as_millis now))
    (cast_u 64 (as_millis (last_capture_disabled self)))
    (cast_u 64 (as_millis (last_demand self))) pending active recovery pressure in
  let decision := IdlePolicy_decide (policy self) input in
  (decision,
   mkController (policy self)
     match decision with
     | EnterIdle => ResourceState_Idle
     | EnterCold => ResourceState_Cold
     | KeepActive => ResourceState_Active
     | KeepWarm => ResourceState_Warm
     end
     (last_capture_disabled self) (last_demand self)).

(** ** Percentiles *)
Definition count_le (x : Z) (l : list Z) : Z := len (filter (fun y => y <= x) l).

Lemma count_le_perm x l1 l2 : l1 ≡ₚ l2 -> count_le x l1 = count_le x l2.
Proof. intros H. unfold count_le, len. by rewrite H. Qed.

Lemma ord_le_Z (a b : Z) : ord_le a b <-> a <= b.
Proof. unfold ord_le. simpl. by rewrite Z.compare_gt_iff, Z.nlt_ge. Qed.

Lemma sorted_lookup_le (l : list Z) i j x y :
  StronglySorted ord_le l -> (i <= j)%nat -> l !! i = Some x -> l !! j = Some y -> x <= y.
Proof.
  intros Hs Hij Hi Hj. destruct (decide (i = j)) as [->|Hne]; [naive_solver lia|].
  rewrite <- (take_drop_middle l i x Hi) in Hs. apply StronglySorted_app_1_r in Hs.
  apply StronglySorted_inv in Hs as [_ Hall]. rewrite Forall_forall in Hall.
  apply ord_le_Z, Hall, list_elem_of_lookup. exists (j - S i)%nat.
  rewrite lookup_drop, <- Hj. f_equal. lia.
Qed.

(** In a sorted list at least [i + 1] values are at most the one at index [i]. *)
Lemma sorted_count_le (l : list Z) i x :
  StronglySorted ord_le l -> l !! i = Some x -> Z.of_nat i + 1 <= count_le x l.
Proof.
  intros Hs Hi. rewrite <- (take_drop (S i) l) at 1. unfold count_le, len.
  rewrite filter_app, length_app.
  assert (filter (fun y => y <= x) (take (S i) l) = take (S i) l) as ->.
  { apply filter_all. intros y Hy.
    apply list_elem_of_lookup in Hy as [j Hj]. apply lookup_take_Some in Hj as [Hj Hlt].
    eapply (sorted_lookup_le l j i); eauto. lia. }
  rewrite length_take. apply lookup_lt_Some in Hi. lia.
Qed.

(** The element [percentile] picks is in range; [pct_index] is its index. *)
Definition pct_index (n num den : Z) : Z := (sat_sub_u n 1 * num + den - 1) / den.

Lemma pct_index_bounds n num den :
  1 <= n -> 0 <= num <= den -> 0 < den ->
  0 <= pct_index n num den <= n - 1 /\
  (n - 1) * num <= pct_index n num den * den <= (n - 1) * num + den - 1.
Proof.
  intros Hn Hnum Hden. unfold pct_index, sat_sub_u. rewrite Z.max_r by lia.
  pose proof (Z.div_mod ((n - 1) * num + den - 1) den ltac:(lia)) as Hdm.
  pose proof (Z.mod_pos_bound ((n - 1) * num + den - 1) den Hden) as Hmb.
  set (q := ((n - 1) * num + den - 1) / den) in *. nia.
Qed.

Lemma percentile_lookup rss num den :
  rss <> [] -> 0 <= num <= den -> 0 < den ->
  rss !! Z.to_nat (pct_index (len rss) num den) = Some (percentile rss num den).
Proof.
  intros Hne Hnum Hden.
  assert (1 <= len rss) as Hlen by (unfold len; destruct rss; simpl; [done|lia]).
  destruct (pct_index_bounds (len rss) num den Hlen Hnum Hden) as [Hb _].
  unfold percentile. fold (pct_index (len rss) num den). rewrite Z.min_l by lia.
  destruct (lookup_lt_is_Some_2 rss (Z.to_nat (pct_index (len rss) num den))) as [x Hx].
  { pose proof (eq_refl : len rss = Z.of_nat (length rss)). lia. }
  rewrite Hx. f_equal. symmetry. by apply nth_lookup_Some.
Qed.

Lemma last_sorted_max (l : list Z) x :
  StronglySorted ord_le l -> x ∈ l -> x <= default 0 (last l).
Proof.
  intros Hs Hx. apply list_elem_of_lookup in Hx as [i Hi].
  destruct (last l) as [y|] eqn:E; [|apply last_None in E as ->; done].
  rewrite last_lookup in E. simpl.
  apply (sorted_lookup_le l i (pred (length l)) x y); try done.
  apply lookup_lt_Some in Hi. lia.
Qed.

Lemma percentile_elem_of rss num den :
  rss <> [] -> 0 <= num <= den -> 0 < den -> percentile rss num den ∈ rss.
Proof. intros. eapply list_elem_of_lookup_2, percentile_lookup; eauto. Qed.

(** The aggregate's percentiles are real order statistics of the samples.
    Every reported resident-set value is one of the sampled ones; median, p95,
    maximum and upper bound are ordered and bound every sample; at least half of
    the samples are at most the median and at least 95% at most the p95 value. *)
Theorem aggregate_percentiles samples a :
  ResourceAggregate_from_samples samples = Some a ->
  let rss := rss_bytes <$> samples in
  rss_median_bytes a ∈ rss /\ rss_p95_bytes a ∈ rss /\
  rss_median_bytes a <= rss_p95_bytes a <= rss_max_bytes a /\
  rss_max_bytes a = rss_upper_bound_bytes a /\
  (forall x, x ∈ rss -> x <= rss_max_bytes a) /\
  len rss <= 2 * count_le (rss_median_bytes a) rss /\
  95 * len rss <= 100 * count_le (rss_p95_bytes a) rss.
Proof.
  unfold ResourceAggregate_from_samples. destruct samples as [|s0 rest]; [done|].
  intros [= <-]; cbv zeta. cbn [rss_median_bytes rss_p95_bytes rss_max_bytes rss_upper_bound_bytes].
  set (all := s0 :: rest). set (rss := rss_bytes <$> all). set (sorted := sort rss).
  pose proof (sort_StronglySorted rss) as Hs. fold sorted in Hs.
  pose proof (sort_Permutation rss) as Hp. fold sorted in Hp.
  assert (sorted <> []) as Hne.
  { intros E. rewrite E in Hp. by apply Permutation_nil_l in Hp. }
  assert (len sorted = len rss) as Hlen by (unfold len; by rewrite Hp).
  assert (1 <= len sorted) as H1 by (unfold len; destruct sorted; simpl; [done|lia]).
  destruct (pct_index_bounds (len sorted) 1 2 H1 ltac:(lia) ltac:(lia)) as [B1 C1].
  destruct (pct_index_bounds (len sorted) 95 100 H1 ltac:(lia) ltac:(lia)) as [B2 C2].
  pose proof (percentile_lookup sorted 1 2 Hne ltac:(lia) ltac:(lia)) as L1.
  pose proof (percentile_lookup sorted 95 100 Hne ltac:(lia) ltac:(lia)) as L2.
  pose proof (sorted_count_le _ _ _ Hs L1) as N1. pose proof (sorted_count_le _ _ _ Hs L2) as N2.
  rewrite (count_le_perm _ _ _ Hp) in N1. rewrite (count_le_perm _ _ _ Hp) in N2.
  assert (forall x, x ∈ rss -> x <= default 0 (last sorted)) as Hmax.
  { intros x Hx. apply last_sorted_max; [done|]. by rewrite Hp. }
  split; [rewrite <- Hp; by apply percentile_elem_of|].
  split; [rewrite <- Hp; by apply percentile_elem_of|].
  split; [|split; [|split; [done|]]].
  - split.
    + eapply (sorted_lookup_le sorted); [done| |exact L1|exact L2]. lia.
    + apply Hmax. rewrite <- Hp. by apply percentile_elem_of.
  - rewrite Z.max_r; [done|]. apply Hmax. unfold rss. apply list_elem_of_fmap.
    eexists. split; [done|]. subst all.
    destruct (last (s0 :: rest)) as [z|] eqn:E; simpl; [|by left].
    apply last_Some in E as [l' ->]. set_solver.
  - assert (len rss <= 2 * count_le (percentile sorted 1 2) rss /\
      95 * len rss <= 100 * count_le (percentile sorted 95 100) rss) as Hc by lia.
    exact Hc.
Qed.

Definition sample_rss (rss : Z) : ResourceSample := mkSample 0 rss 0 0 1 1 0 0 0 0 0.

Lemma aggregate_percentiles_witness :
  exists a, ResourceAggregate_from_samples (sample_rss <$> [10; 30; 20]) = Some a /\
    rss_median_bytes a <= rss_p95_bytes a <= rss_max_bytes a /\ rss_median_bytes a = 20.
Proof.
  eexists. split; [reflexivity|]. split; [|reflexivity].
  apply (aggregate_percentiles (sample_rss <$> [10; 30; 20])). reflexivity.
Defined.

(** ** The idle decision *)

(** How long the daemon has been quiet: since the last disabled capture and the
    last demand, whichever is more recent. *)
Definition quiet_ms (input : IdleInputs) : Z :=
  Z.min (sat_sub_u (now_ms input) (last_capture_disabled_ms input))
        (sat_sub_u (now_ms input) (last_demand_ms input)).

Definition blocked (input : IdleInputs) : bool :=
  (0 <? pending_operations input) || (0 <? idle_active_connections input)
  || network_recovery input.

Lemma IdlePolicy_new_ordered warm cold p :
  IdlePolicy_new warm cold = Some p ->
  is_uint 64 (as_millis warm) -> is_uint 64 (as_millis cold) ->
  warm_timeout_ms p = as_millis warm /\ cold_timeout_ms p = as_millis cold /\
  warm_timeout_ms p <= cold_timeout_ms p.
Proof.
  unfold IdlePolicy_new. intros H Hw Hc. split_if_in H Hg; [done|].
  injection H as <-. simpl. rewrite !cast_u_small by done.
  apply orb_false_elim in Hg as [_ Hg%Z.ltb_ge].
  split; [done|]. split; [done|]. apply Z.div_le_mono; [done|lia].
Qed.

Lemma idle_decide_cases warm cold p input :
  IdlePolicy_new warm cold = Some p ->
  is_uint 64 (as_millis warm) -> is_uint 64 (as_millis cold) ->
  IdlePolicy_decide p input =
    if blocked input then KeepWarm
    else match resource_pressure input with
         | ActiveBudgetExceeded => KeepActive
         | IdleBudgetExceeded => EnterCold
         | WarmBudgetExceeded => EnterIdle
         | Pressure_None =>
             if as_millis cold <=? quiet_ms input then EnterCold
             else if as_millis warm <=? quiet_ms input then EnterIdle else KeepWarm
         end.
Proof.
  intros Hp Hw Hc. destruct (IdlePolicy_new_ordered _ _ _ Hp Hw Hc) as (Ew & Ec & Hle).
  unfold IdlePolicy_decide. fold (blocked input). destruct (blocked input); [done|].
  destruct (resource_pressure input); try done. rewrite Ew, Ec in *. unfold quiet_ms.
  set (x := sat_sub_u _ (last_capture_disabled_ms _)). set (y := sat_sub_u _ _).
  repeat match goal with |- context [?a <=? ?b] => destruct (Z.leb_spec a b) end;
    simpl; lia || done.
Qed.

(** What the idle policy decides.  Work in flight always keeps the core warm,
    whatever the pressure.  Otherwise, without pressure and for a policy whose
    timeouts fit in 64-bit milliseconds, the decision is a threshold on the
    quiet time: warm below the warm timeout, idle up to the cold timeout, cold
    from there. *)
Theorem idle_policy_thresholds warm cold p input :
  IdlePolicy_new warm cold = Some p ->
  is_uint 64 (as_millis warm) -> is_uint 64 (as_millis cold) ->
  (blocked input = true -> IdlePolicy_decide p input = KeepWarm) /\
  (blocked input = false -> resource_pressure input = Pressure_None ->
   (quiet_ms input < as_millis warm -> IdlePolicy_decide p input = KeepWarm) /\
   (as_millis warm <= quiet_ms input < as_millis cold ->
      IdlePolicy_decide p input = EnterIdle) /\
   (as_millis cold <= quiet_ms input -> IdlePolicy_decide p input = EnterCold)).
Proof.
  intros Hp Hw Hc. rewrite (idle_decide_cases _ _ _ _ Hp Hw Hc).
  split; [by intros ->|]. intros -> ->.
  assert (as_millis warm <= as_millis cold) as Hle.
  { destruct (IdlePolicy_new_ordered _ _ _ Hp Hw Hc) as (<- & <- & ?). done. }
  split; [|split]; intros Hq;
    destruct (Z.leb_spec (as_millis cold) (quiet_ms input)); try lia; try done;
    destruct (Z.leb_spec (as_millis warm) (quiet_ms input)); lia || done.
Qed.

Lemma idle_policy_thresholds_witness :
  exists p, IdlePolicy_new (from_secs 5) (from_secs 30) = Some p /\
    IdlePolicy_decide p (mkIdleInputs 31000 0 0 0 0 false Pressure_None) = EnterCold.
Proof.
  exists (mkIdlePolicy 5000 30000). split; [reflexivity|].
  refine (proj2 (proj2 (proj2 (idle_policy_thresholds (from_secs 5) (from_secs 30)
    (mkIdlePolicy 5000 30000) (mkIdleInputs 31000 0 0 0 0 false Pressure_None)
    eq_refl _ _) eq_refl eq_refl)) _);
    [split; vm_compute; congruence..|vm_compute; congruence].
Defined.

(** The controller's wake-up contract.  A demand ends idleness at once, and for
    the whole warm timeout after it (with no pressure) every decision keeps the
    core warm. *)
Theorem controller_demand_keeps_warm warm cold p c t now pending active recovery :
  IdlePolicy_new warm cold = Some p ->
  policy c = p ->
  is_uint 64 (as_millis warm) -> is_uint 64 (as_millis cold) ->
  is_uint 64 (as_millis t) -> is_uint 64 (as_millis now) ->
  as_millis now - as_millis t < as_millis warm ->
  0 < as_millis warm ->
  ctl_resource_state (record_demand c t) <> ResourceState_Idle /\
  let (decision, c') :=
    IdlePolicyController_decide (record_demand c t) now pending active recovery Pressure_None in
  decision = KeepWarm /\ ctl_resource_state c' = ResourceState_Warm /\ policy c' = p.
Proof.
  intros Hp Hc Hw Hcold Ht Hn Hlt Hpos. split.
  { unfold record_demand. simpl. by case_bool_decide. }
  unfold IdlePolicyController_decide. simpl. rewrite Hc.
  set (input := mkIdleInputs _ _ _ _ _ _ _).
  assert (IdlePolicy_decide p input = KeepWarm) as ->; [|done].
  rewrite (idle_decide_cases _ _ _ _ Hp Hw Hcold). destruct (blocked input); [done|].
  assert (quiet_ms input < as_millis warm) as Hq.
  { unfold quiet_ms, sat_sub_u. simpl. rewrite (cast_u_small 64 (as_millis now)) by done.
    rewrite (cast_u_small 64 (as_millis t)) by done. lia. }
  destruct (IdlePolicy_new_ordered _ _ _ Hp Hw Hcold) as (Ew & Ec & Hle).
  simpl. rewrite !(proj2 (Z.leb_gt _ _)) by lia. done.
Qed.

Lemma controller_demand_keeps_warm_witness :
  let c := record_demand
    (IdlePolicyController_new (mkIdlePolicy 5000 30000) 0) (from_secs 6) in
  (IdlePolicyController_decide c (from_secs 10) 0 0 false Pressure_None).1 = KeepWarm.
Proof.
  pose proof (controller_demand_keeps_warm (from_secs 5) (from_secs 30) (mkIdlePolicy 5000 30000)
    (IdlePolicyController_new (mkIdlePolicy 5000 30000) 0) (from_secs 6) (from_secs 10)
    0 0 false eq_refl eq_refl) as H.
  refine (proj1 (proj2 (H _ _ _ _ _ _))); (split || idtac); vm_compute; congruence.
Defined.
