(* ===== verification/Scheduler.v ===== *)
(** * Scheduler: persisted update schedules with failure backoff

    Models crates/nethopd/src/scheduler.rs: schedule keys and policies, the
    persisted record, the [ScheduleStore] trait and its in-memory instance, and
    [SchedulerEngine].  The store is an interface (a class): the engine's
    theorems are proved for every lawful store, and the in-memory store of the
    source is shown to be one.  Wall-clock times are [i64] seconds. *)

From S2P Require Import Prelude Ordering BTreeMap.

Local Open Scope Z_scope.

Definition MAX_KEY_BYTES : Z := 128.
Definition MAX_FAILURES : Z := 16.
Definition DEFAULT_INTERVAL_SECONDS : Z := 24 * 60 * 60.
Definition DEFAULT_FAILURE_BACKOFF_SECONDS : Z := 60 * 60.
Definition DEFAULT_MAX_BACKOFF_SECONDS : Z := 24 * 60 * 60.
Definition DEFAULT_JITTER_SECONDS : Z := 15 * 60.

Inductive SchedulerError : Type :=
| InvalidKey
| InvalidPolicy
| InvalidWallTime
| ClockRegressed
| MissingRecord
| PersistenceFailed.
#[export] Instance SchedulerError_eq_dec : EqDecision SchedulerError.
Proof. solve_decision. Defined.

(** ** Keys, ordered as the strings they wrap *)
Record ScheduleKey : Type := mkKey { as_str : string }.

#[export] Program Instance ScheduleKey_Ord : Ord ScheduleKey :=
  {| cmp a b := cmp (as_str a) (as_str b) |}.
Next Obligation. intros [a] [b]. rewrite cmp_eq. simpl. naive_solver. Qed.
Next Obligation. intros. apply cmp_antisym. Qed.
Next Obligation. intros a b c. apply cmp_lt_trans. Qed.

Definition ScheduleKey_new (value : string) : Result SchedulerError ScheduleKey :=
  if (str_len value =? 0) || (MAX_KEY_BYTES <? str_len value)
     || existsb is_ascii_control (bytes value)
  then Err InvalidKey else Ok (mkKey value).

(** ** Policy *)
Record SchedulePolicy : Type := mkPolicy {
  interval_seconds : Z;
  failure_backoff_seconds : Z;
  max_backoff_seconds : Z;
  jitter_seconds : Z;
}.

Definition SchedulePolicy_new (interval backoff max_backoff jitter : Z) :
    Result SchedulerError SchedulePolicy :=
  if (interval <=? 0) || (backoff <=? 0) || (max_backoff <? backoff)
     || (jitter <? 0) || (Z.quot interval 2 <? jitter)
  then Err InvalidPolicy
  else Ok (mkPolicy interval backoff max_backoff jitter).

Definition SchedulePolicy_default : SchedulePolicy :=
  mkPolicy DEFAULT_INTERVAL_SECONDS DEFAULT_FAILURE_BACKOFF_SECONDS
    DEFAULT_MAX_BACKOFF_SECONDS DEFAULT_JITTER_SECONDS.

(** ** Records and stores *)
Record ScheduleRecord : Type := mkRecord {
  rec_key : ScheduleKey;
  next_run_wall_seconds : Z;
  failure_count : Z;
  last_observed_wall_seconds : Z;
}.

Definition ScheduleRecord_from_persisted (key : ScheduleKey)
    (next_run failures last_observed : Z) : Result SchedulerError ScheduleRecord :=
  if (next_run <? 0) || (last_observed <? 0) || (MAX_FAILURES <? failures)
  then Err PersistenceFailed
  else Ok (mkRecord key next_run failures last_observed).

Class ScheduleStore (S : Type) : Type := {
  store_load : Mut S SchedulerError (list ScheduleRecord);
  store_save : ScheduleRecord -> Mut S SchedulerError unit;
}.

(** What the engine relies on: a store in a good state holds a map of records by
    their own key, [load] reads it, a successful [save] replaces one entry, a
    failed one changes nothing and says so with [PersistenceFailed]. *)
Definition keyed (m : BTreeMap ScheduleKey ScheduleRecord) : Prop :=
  Forall (fun kr => rec_key kr.2 = kr.1) m.

Class ScheduleStoreLaws (S : Type) `{!ScheduleStore S} : Type := {
  store_inv : S -> Prop;
  store_view : S -> BTreeMap ScheduleKey ScheduleRecord;
  store_view_wf s : store_inv s -> bt_wf (store_view s);
  store_view_keyed s : store_inv s -> keyed (store_view s);
  store_load_view s rs s' :
    store_inv s -> store_load s = (Ok rs, s') ->
    rs = bt_values (store_view s) /\ store_view s' = store_view s /\ store_inv s';
  store_save_ok r s s' :
    store_inv s -> store_save r s = (Ok tt, s') ->
    store_view s' = bt_insert (rec_key r) r (store_view s) /\ store_inv s';
  store_save_err r s err s' :
    store_inv s -> store_save r s = (Err err, s') ->
    err = PersistenceFailed /\ store_view s' = store_view s /\ store_inv s';
}.

Record InMemoryScheduleStore : Type := mkInMemory {
  memory_records : BTreeMap ScheduleKey ScheduleRecord;
}.
Definition InMemoryScheduleStore_load :
    Mut InMemoryScheduleStore SchedulerError (list ScheduleRecord) :=
  fun self => (Ok (bt_values (memory_records self)), self).
Definition InMemoryScheduleStore_save (record : ScheduleRecord) :
    Mut InMemoryScheduleStore SchedulerError unit :=
  fun self => (Ok tt, mkInMemory (bt_insert (rec_key record) record (memory_records self))).
#[export] Instance InMemoryScheduleStore_is_store : ScheduleStore InMemoryScheduleStore :=
  {| store_load := InMemoryScheduleStore_load; store_save := InMemoryScheduleStore_save |}.

(** ** The engine *)
Record SchedulerEngine (S : Type) : Type := mkEngine {
  store : S;
  policy : SchedulePolicy;
  records : BTreeMap ScheduleKey ScheduleRecord;
}.
Arguments mkEngine {S} _ _ _.
Arguments store {S} _.
Arguments policy {S} _.
Arguments records {S} _.

Definition validate_wall_time (value : Z) : Result SchedulerError unit :=
  if 0 <=? value then Ok tt else Err InvalidWallTime.

(** FNV-1a over the key's bytes, folded into [-max, max]. *)
Definition fnv_step (hash byte : Z) : Z := wrapping_mul_u 32 (Z.lxor hash byte) 16777619.
Definition fnv_hash (bs : list Z) : Z := fold_left fnv_step bs 2166136261.
Definition stable_jitter (key : string) (max : Z) : Z :=
  if max =? 0 then 0
  else
    let hash := fnv_hash (bytes key) in
    let span := cast_u 32 (max * 2 + 1) in
    Z.rem hash span - max.

(** The record [update] writes, from the one it finds. *)
Definition backoff_base (p : SchedulePolicy) (failures : Z) : Z :=
  let exponent := Z.min (sat_sub_u failures 1) 6 in
  Z.min (sat_mul_i64 (failure_backoff_seconds p) (Z.shiftl 1 exponent)) (max_backoff_seconds p).

Definition updated_record (p : SchedulePolicy) (key : ScheduleKey) (r : ScheduleRecord)
    (now : Z) (failure : bool) : ScheduleRecord :=
  let failures :=
    if failure then Z.min (sat_add_u 32 (failure_count r) 1) MAX_FAILURES else 0 in
  let base := if failure then backoff_base p failures else interval_seconds p in
  let jitter := stable_jitter (as_str key) (jitter_seconds p) in
  mkRecord (rec_key r) (sat_add_i64 (sat_add_i64 now base) jitter) failures now.

(** [due] walks the records in key order, stamping each with [now]; a record
    observed later than [now] stops it, with the earlier ones already stamped. *)
Fixpoint due_loop (now : Z) (m : BTreeMap ScheduleKey ScheduleRecord) :
    Result SchedulerError (list ScheduleKey) * BTreeMap ScheduleKey ScheduleRecord :=
  match m with
  | [] => (Ok [], [])
  | (k, r) :: rest =>
      if now <? last_observed_wall_seconds r then (Err ClockRegressed, (k, r) :: rest)
      else
        let r' := mkRecord (rec_key r) (next_run_wall_seconds r) (failure_count r) now in
        let due_now := if next_run_wall_seconds r' <=? now then [rec_key r'] else [] in
        let (res, rest') := due_loop now rest in
        (ks ← res; Ok (due_now ++ ks), (k, r') :: rest')
  end.

Section engine.
Context {S : Type} `{!ScheduleStore S}.
Implicit Types (e : SchedulerEngine S) (s : S) (key : ScheduleKey) (now : Z).

Definition set_store e s : SchedulerEngine S := mkEngine s (policy e) (records e).
Definition set_records e m : SchedulerEngine S := mkEngine (store e) (policy e) m.

Definition SchedulerEngine_load (s : S) (p : SchedulePolicy) :
    Result SchedulerError (SchedulerEngine S) :=
  match store_load s with
  | (Ok rs, s') => Ok (mkEngine s' p (bt_collect ((fun r => (rec_key r, r)) <$> rs)))
  | (Err err, _) => Err err
  end.

Definition SchedulerEngine_ensure (key : ScheduleKey) (now : Z) :
    Mut (SchedulerEngine S) SchedulerError ScheduleRecord := fun e =>
  match validate_wall_time now with
  | Err err => (Err err, e)
  | Ok _ =>
      if bt_contains_key key (records e)
      then (ok_or (bt_get key (records e)) MissingRecord, e)
      else
        let record := mkRecord key now 0 now in
        match store_save record (store e) with
        | (Err err, s') => (Err err, set_store e s')
        | (Ok _, s') =>
            let e' := set_records (set_store e s') (bt_insert key record (records e)) in
            (ok_or (bt_get key (records e')) MissingRecord, e')
        end
  end.

Definition SchedulerEngine_due (now : Z) :
    Mut (SchedulerEngine S) SchedulerError (list ScheduleKey) := fun e =>
  match validate_wall_time now with
  | Err err => (Err err, e)
  | Ok _ => let (res, m) := due_loop now (records e) in (res, set_records e m)
  end.

Definition SchedulerEngine_update (key : ScheduleKey) (now : Z) (failure : bool) :
    Mut (SchedulerEngine S) SchedulerError unit := fun e =>
  match validate_wall_time now with
  | Err err => (Err err, e)
  | Ok _ =>
      match bt_get key (records e) with
      | None => (Err MissingRecord, e)
      | Some record =>
          if now <? last_observed_wall_seconds record then (Err ClockRegressed, e)
          else
            let record' := updated_record (policy e) key record now failure in
            let e' := set_records e (bt_insert key record' (records e)) in
            let (res, s') := store_save record' (store e') in
            (res, set_store e' s')
      end
  end.

Definition mark_success key now := SchedulerEngine_update key now false.
Definition mark_failure key now := SchedulerEngine_update key now true.
Definition SchedulerEngine_record e key : option ScheduleRecord := bt_get key (records e).
Definition set_policy e (p : SchedulePolicy) : SchedulerEngine S :=
  mkEngine (store e) p (records e).
End engine.

(** ** Keyed maps *)
Lemma keyed_get m k r : keyed m -> bt_get k m = Some r -> rec_key r = k.
Proof.
  unfold keyed. rewrite Forall_forall. intros Hk Hg%bt_get_elem_of. by apply (Hk (k, r)).
Qed.

Lemma keyed_insert m r : keyed m -> keyed (bt_insert (rec_key r) r m).
Proof.
  intros Hk. induction m as [|[k' r'] m IH]; cbn [bt_insert]; [by repeat constructor|].
  apply Forall_cons in Hk as [H1 Hk]. destruct (cmp (rec_key r) k') eqn:E.
  - apply cmp_eq in E. by constructor.
  - by repeat constructor.
  - constructor; [done|by apply IH].
Qed.

Lemma rekey_values m : keyed m -> (fun r => (rec_key r, r)) <$> bt_values m = m.
Proof.
  unfold keyed, bt_values. induction 1 as [|[k r] m Hk _ IH]; [done|].
  simpl in Hk. rewrite !fmap_cons. cbn [snd]. by rewrite Hk, IH.
Qed.

#[export] Program Instance InMemoryScheduleStore_laws :
    ScheduleStoreLaws InMemoryScheduleStore := {|
  store_inv s := bt_wf (memory_records s) /\ keyed (memory_records s);
  store_view := memory_records;
|}.
Next Obligation. by intros ? [? ?]. Qed.
Next Obligation. by intros ? [? ?]. Qed.
Next Obligation. intros s rs s' ? [= <- <-]. done. Qed.
Next Obligation.
  intros r s s' [? ?] [= <-]. simpl. auto using bt_insert_wf, keyed_insert.
Qed.
Next Obligation. done. Qed.

(** ** Jitter *)
Record policy_ok (p : SchedulePolicy) : Prop := {
  ok_interval : 0 < interval_seconds p <= i64_max;
  ok_backoff : 0 < failure_backoff_seconds p <= max_backoff_seconds p;
  ok_max_backoff : max_backoff_seconds p <= i64_max;
  ok_jitter : 0 <= jitter_seconds p <= interval_seconds p / 2;
}.

Lemma SchedulePolicy_new_ok i b m j p :
  is_i64 i -> is_i64 b -> is_i64 m -> is_i64 j ->
  SchedulePolicy_new i b m j = Ok p -> policy_ok p /\ p = mkPolicy i b m j.
Proof.
  unfold is_i64. intros Hi Hb Hm Hj H. unfold SchedulePolicy_new in H.
  split_if_in H Hg; [done|]. injection H as <-. split; [|done].
  rewrite !orb_false_iff in Hg. destruct Hg as ((((H1 & H2) & H3) & H4) & H5).
  apply Z.leb_gt in H1, H2. apply Z.ltb_ge in H3, H4, H5.
  rewrite Z.quot_div_nonneg in H5 by lia. split; simpl; lia.
Qed.

Lemma fnv_hash_range bs : is_uint 32 (fnv_hash bs).
Proof.
  unfold fnv_hash. assert (is_uint 32 2166136261) as H by (unfold is_uint; lia). revert H.
  generalize 2166136261. induction bs as [|b bs IH]; simpl; [done|]. intros h _. apply IH.
  apply cast_u_range. lia.
Qed.

Lemma jitter_span_pos max : 1 <= cast_u 32 (max * 2 + 1).
Proof.
  unfold cast_u. pose proof (Z.mod_pos_bound (max * 2 + 1) (2 ^ 32) ltac:(lia)) as Hb.
  pose proof (Z.div_mod (max * 2 + 1) (2 ^ 32) ltac:(lia)) as Hd.
  change (2 ^ 32) with (2 * 2 ^ 31) in Hd at 1. lia.
Qed.

Lemma stable_jitter_range key max : 0 <= max -> - max <= stable_jitter key max <= max.
Proof.
  intros Hm. unfold stable_jitter. destruct (Z.eqb_spec max 0) as [->|Hne]; [lia|].
  pose proof (jitter_span_pos max) as Hs. pose proof (fnv_hash_range (bytes key)) as [Hh _].
  set (span := cast_u 32 (max * 2 + 1)) in *.
  assert (span <= max * 2 + 1) as Hle by (apply Z.mod_le; lia).
  pose proof (Z.rem_bound_pos (fnv_hash (bytes key)) span Hh ltac:(lia)). lia.
Qed.

(** For every policy [SchedulePolicy::new] accepts, [stable_jitter] stays
    within the configured bound, the intermediate [max * 2 + 1] fits in an [i64]
    and the [u32] modulus it is truncated to is never zero: no overflow and no
    division by zero in the jitter computation. *)
Theorem stable_jitter_bounded i b m j p key :
  is_i64 i -> is_i64 b -> is_i64 m -> is_i64 j ->
  SchedulePolicy_new i b m j = Ok p ->
  - jitter_seconds p <= stable_jitter key (jitter_seconds p) <= jitter_seconds p
  /\ is_i64 (jitter_seconds p * 2 + 1)
  /\ 0 < cast_u 32 (jitter_seconds p * 2 + 1).
Proof.
  intros Hi Hb Hm Hj Hp. destruct (SchedulePolicy_new_ok _ _ _ _ _ Hi Hb Hm Hj Hp) as [Hok ->].
  pose proof (ok_jitter _ Hok) as Hjit. pose proof (ok_interval _ Hok) as Hint. simpl in *.
  pose proof (Z.mul_div_le i 2 ltac:(lia)).
  pose proof (jitter_span_pos j). split; [apply stable_jitter_range; lia|].
  unfold is_i64, i64_min, i64_max in *. lia.
Qed.

Lemma stable_jitter_bounded_witness :
  - 900 <= stable_jitter "node.update" 900 <= 900
  /\ is_i64 (900 * 2 + 1) /\ 0 < cast_u 32 (900 * 2 + 1).
Proof.
  apply (stable_jitter_bounded 86400 3600 86400 900 SchedulePolicy_default "node.update");
    [unfold is_i64, i64_min, i64_max; lia..|reflexivity].
Defined.

(** ** What [update] writes *)
Lemma backoff_base_bounds p n : policy_ok p -> 0 < backoff_base p n <= max_backoff_seconds p.
Proof.
  intros Hok. pose proof (ok_backoff _ Hok). pose proof (ok_max_backoff _ Hok).
  unfold backoff_base, sat_mul_i64, clamp_i64, sat_sub_u.
  assert (1 <= Z.shiftl 1 (Z.min (Z.max 0 (n - 1)) 6)).
  { rewrite Z.shiftl_1_l. pose proof (Z.pow_pos_nonneg 2 (Z.min (Z.max 0 (n - 1)) 6)). lia. }
  unfold i64_max, i64_min in *. nia.
Qed.

Lemma backoff_base_ge p n : policy_ok p -> failure_backoff_seconds p <= backoff_base p n.
Proof.
  intros Hok. pose proof (ok_backoff _ Hok). pose proof (ok_max_backoff _ Hok).
  unfold backoff_base, sat_mul_i64, clamp_i64, sat_sub_u. rewrite Z.shiftl_1_l.
  pose proof (Z.pow_pos_nonneg 2 (Z.min (Z.max 0 (n - 1)) 6) ltac:(lia) ltac:(lia)).
  unfold i64_max, i64_min in *. nia.
Qed.

(** The delay before the next attempt, jitter apart: exponential in the number of
    failures in a row, flat after seven of them and capped by the policy. *)
Definition backoff_delay (p : SchedulePolicy) (n : Z) : Z :=
  Z.min (failure_backoff_seconds p * 2 ^ Z.min (n - 1) 6) (max_backoff_seconds p).

Lemma backoff_base_delay p n : policy_ok p -> 1 <= n -> backoff_base p n = backoff_delay p n.
Proof.
  intros Hok Hn. pose proof (ok_backoff _ Hok). pose proof (ok_max_backoff _ Hok).
  unfold backoff_base, backoff_delay, sat_sub_u, sat_mul_i64, clamp_i64.
  rewrite (Z.max_r 0 (n - 1)) by lia. rewrite Z.shiftl_1_l.
  pose proof (Z.pow_pos_nonneg 2 (Z.min (n - 1) 6) ltac:(lia) ltac:(lia)).
  unfold i64_min, i64_max in *. nia.
Qed.

(** [n] failures in a row at the times [nows], from the record [r]. *)
Definition failed_record (p : SchedulePolicy) key (r : ScheduleRecord) (nows : list Z) :=
  fold_left (fun r now => updated_record p key r now true) nows r.

Lemma failed_record_count p key r nows :
  0 <= failure_count r <= MAX_FAILURES ->
  failure_count (failed_record p key r nows)
  = Z.min (failure_count r + len nows) MAX_FAILURES.
Proof.
  unfold MAX_FAILURES, failed_record. revert r.
  induction nows as [|now nows IH]; intros r Hr; cbn [fold_left].
  { unfold len; simpl. lia. }
  rewrite IH; simpl; unfold sat_add_u, umax, len, MAX_FAILURES; simpl; lia.
Qed.

Lemma failed_record_key p key r nows : rec_key (failed_record p key r nows) = rec_key r.
Proof.
  unfold failed_record. revert r. induction nows as [|now nows IH]; intros r; [done|].
  cbn [fold_left]. by rewrite IH.
Qed.

(** [mark_failure] once per time, stopping at the first error. *)
Fixpoint mark_failures {S} `{ScheduleStore S} key (nows : list Z) :
    Mut (SchedulerEngine S) SchedulerError unit :=
  match nows with
  | [] => mret tt
  | now :: rest => mark_failure key now ;; mark_failures key rest
  end.

Lemma mark_failure_ok {S} `{ScheduleStore S} key now (e e' : SchedulerEngine S) u :
  mark_failure key now e = (Ok u, e') ->
  policy e' = policy e
  /\ 0 <= now
  /\ exists r, bt_get key (records e) = Some r
     /\ last_observed_wall_seconds r <= now
     /\ bt_get key (records e') = Some (updated_record (policy e) key r now true).
Proof.
  unfold mark_failure, SchedulerEngine_update, validate_wall_time.
  destruct (Z.leb_spec 0 now); [|done]. destruct (bt_get key (records e)) as [r|]; [|done].
  destruct (Z.ltb_spec now (last_observed_wall_seconds r)); [done|].
  destruct (store_save _ _) as [res s'] eqn:E. intros [= _ <-]. simpl.
  repeat split; eauto using bt_get_insert_eq.
Qed.

Lemma mark_failures_ok {S} `{ScheduleStore S} key nows (e e' : SchedulerEngine S) r :
  bt_get key (records e) = Some r ->
  mark_failures key nows e = (Ok tt, e') ->
  bt_get key (records e') = Some (failed_record (policy e) key r nows)
  /\ policy e' = policy e /\ Forall (Z.le 0) nows.
Proof.
  revert e r. induction nows as [|now nows IH]; intros e r Hr; cbn [mark_failures].
  { intros [= <-]. done. }
  unfold mbind, Mut_bind. destruct (mark_failure key now e) as [[u|?] e1] eqn:E; [|done].
  apply mark_failure_ok in E as (Hp & Hn & r0 & Hr0 & _ & H1). rewrite Hr in Hr0.
  injection Hr0 as <-. intros Hrest. apply IH with (1 := H1) in Hrest as (H2 & H3 & H4).
  rewrite Hp in *. repeat split; [done|done|]. by constructor.
Qed.

(** After [n >= 1] consecutive [mark_failure] calls on a healthy record, the
    last at [now], the record counts [min n 16] failures and the next run is at
    [now] plus the exponential backoff [backoff * 2^(n-1)] (flat after seven
    failures, capped by the policy's maximum) plus the key's stable jitter,
    saturating at [i64::MAX]; the retry is strictly in the future whenever the
    jitter is below the backoff. *)
Theorem consecutive_failures_backoff {S} `{ScheduleStore S} (e e' : SchedulerEngine S)
    key r nows now :
  policy_ok (policy e) ->
  bt_get key (records e) = Some r ->
  failure_count r = 0 ->
  mark_failures key (nows ++ [now]) e = (Ok tt, e') ->
  now <= i64_max ->
  let p := policy e in
  let n := len nows + 1 in
  exists r', SchedulerEngine_record e' key = Some r'
  /\ failure_count r' = Z.min n 16
  /\ next_run_wall_seconds r'
     = Z.min (Z.min (now + backoff_delay p n) i64_max
              + stable_jitter (as_str key) (jitter_seconds p)) i64_max
  /\ (jitter_seconds p < failure_backoff_seconds p -> now + backoff_delay p n <= i64_max ->
      now < next_run_wall_seconds r').
Proof.
  intros Hok Hr Hc Hrun Hmax p n.
  destruct (mark_failures_ok _ _ _ _ _ Hr Hrun) as (Hg & _ & Hnn).
  apply Forall_app in Hnn as [_ Hnow]. apply Forall_cons in Hnow as [Hnow _].
  eexists. split; [exact Hg|]. change (policy_ok p) in Hok. fold p.
  pose proof (failed_record_count p key r (nows ++ [now])) as Hcount.
  pose proof (failed_record_count p key r nows) as Hcount0.
  unfold failed_record in *. rewrite fold_left_app in *. cbn [fold_left] in *.
  set (r0 := fold_left _ nows r) in *. rewrite Hc in *. unfold MAX_FAILURES in *.
  pose proof (len_nonneg nows).
  assert (len (nows ++ [now]) = n) as Hn by (unfold n, len; rewrite length_app; simpl; lia).
  rewrite Hn in Hcount. split; [lia|].
  assert (backoff_base p (Z.min n 16) = backoff_delay p n) as Hbase.
  { rewrite backoff_base_delay by (done || lia). unfold backoff_delay.
    by replace (Z.min (Z.min n 16 - 1) 6) with (Z.min (n - 1) 6) by lia. }
  assert (next_run_wall_seconds (updated_record p key r0 now true)
    = sat_add_i64 (sat_add_i64 now (backoff_delay p n))
        (stable_jitter (as_str key) (jitter_seconds p))) as Hnext.
  { rewrite <- Hbase. replace (Z.min n 16) with (Z.min (0 + n) 16) by lia.
    rewrite <- Hcount by lia. done. }
  pose proof (backoff_base_bounds p n Hok) as Hbb.
  rewrite backoff_base_delay in Hbb by (done || lia).
  pose proof (ok_jitter _ Hok) as Hj. pose proof (ok_interval _ Hok) as Hi.
  pose proof (stable_jitter_range (as_str key) (jitter_seconds p) ltac:(lia)) as Hjr.
  pose proof (Z.mul_div_le (interval_seconds p) 2 ltac:(lia)).
  pose proof (backoff_base_ge p n Hok) as Hge. rewrite backoff_base_delay in Hge by (done || lia).
  rewrite Hnext. unfold sat_add_i64, clamp_i64, i64_min, i64_max in *.
  clear Hg Hnext Hcount Hcount0 Hbase. clearbody p n. split; [lia|]. intros. lia.
Qed.

Definition demo_key : ScheduleKey := mkKey "node.update".
Definition demo_engine : SchedulerEngine InMemoryScheduleStore :=
  mkEngine (mkInMemory [(demo_key, mkRecord demo_key 1000 0 1000)]) SchedulePolicy_default
    [(demo_key, mkRecord demo_key 1000 0 1000)].

Lemma SchedulePolicy_default_ok : policy_ok SchedulePolicy_default.
Proof. by split. Qed.

Definition demo_failed : SchedulerEngine InMemoryScheduleStore :=
  Eval vm_compute in (mark_failures demo_key [1000; 2000; 3000; 4000] demo_engine).2.

Lemma demo_failed_run :
  mark_failures demo_key ([1000; 2000; 3000] ++ [4000]) demo_engine = (Ok tt, demo_failed).
Proof. vm_compute. reflexivity. Qed.

Lemma consecutive_failures_backoff_witness :
  exists r', SchedulerEngine_record demo_failed demo_key = Some r'
  /\ failure_count r' = 4
  /\ next_run_wall_seconds r' = 4000 + 3600 * 8 + stable_jitter "node.update" 900.
Proof.
  destruct (consecutive_failures_backoff demo_engine demo_failed demo_key
    (mkRecord demo_key 1000 0 1000) [1000; 2000; 3000] 4000 SchedulePolicy_default_ok
    eq_refl eq_refl demo_failed_run) as (r' & H1 & H2 & H3 & _); [vm_compute; discriminate|].
  exists r'. split; [exact H1|]. split; [exact H2|]. rewrite H3. vm_compute. reflexivity.
Defined.

(** ** Due schedules *)

(** Same schedule, observed no earlier: what differs between a record and its
    stored copy after [due] stamped the one in memory. *)
Definition lags (stored r : ScheduleRecord) : Prop :=
  rec_key stored = rec_key r
  /\ next_run_wall_seconds stored = next_run_wall_seconds r
  /\ failure_count stored = failure_count r
  /\ last_observed_wall_seconds stored <= last_observed_wall_seconds r.
Definition lags_entry (a b : ScheduleKey * ScheduleRecord) : Prop :=
  a.1 = b.1 /\ lags a.2 b.2.
Definition coherent (stored m : BTreeMap ScheduleKey ScheduleRecord) : Prop :=
  Forall2 lags_entry stored m.

#[export] Instance lags_preorder : PreOrder lags.
Proof.
  split; [by repeat split|]. intros a b c (H1 & H2 & H3 & H4) (G1 & G2 & G3 & G4).
  repeat split; [congruence..|lia].
Qed.
#[export] Instance coherent_preorder : PreOrder coherent.
Proof.
  split.
  - intros m. induction m; by repeat constructor.
  - intros a b c Hab. revert c. induction Hab as [|x y a b [Hx Hl] _ IH]; intros c Hbc.
    + done.
    + apply Forall2_cons_inv_l in Hbc as (z & c' & [Hy Hl'] & Hbc & ->).
      constructor; [split; [congruence|by transitivity y.2]|by apply IH].
Qed.

Lemma coherent_keys s m : coherent s m -> bt_keys s = bt_keys m.
Proof.
  unfold bt_keys. induction 1 as [|[k r] [k' r'] s m [Hk _] _ IH]; [done|].
  simpl in Hk. rewrite !fmap_cons. cbn [fst]. by rewrite Hk, IH.
Qed.

Lemma coherent_insert s m k r r' :
  coherent s m -> lags r r' -> coherent (bt_insert k r s) (bt_insert k r' m).
Proof.
  intros Hc Hl. induction Hc as [|[k1 r1] [k2 r2] s m [Hk Hr] Hrest IH].
  { constructor; [by split|constructor]. }
  simpl in Hk. subst k2. cbn [bt_insert].
  destruct (cmp k k1); (constructor; [by split|]); [done| |done].
  constructor; [by split|done].
Qed.

Lemma due_loop_coherent now m res m' : due_loop now m = (res, m') -> coherent m m'.
Proof.
  revert res m'. induction m as [|[k r] m IH]; intros res m'; cbn [due_loop].
  { intros [= _ <-]. constructor. }
  destruct (Z.ltb_spec now (last_observed_wall_seconds r)); [intros [= _ <-]; reflexivity|].
  destruct (due_loop now m) as [res0 rest'] eqn:E. intros [= _ <-].
  constructor; [|by eapply IH]. repeat split; simpl; lia.
Qed.

Definition is_due (now : Z) (kr : ScheduleKey * ScheduleRecord) : Prop :=
  next_run_wall_seconds kr.2 <= now.
#[export] Instance is_due_dec now kr : Decision (is_due now kr).
Proof. unfold is_due. apply _. Defined.
Definition observed_by (now : Z) (kr : ScheduleKey * ScheduleRecord) : Prop :=
  last_observed_wall_seconds kr.2 <= now.

Lemma due_loop_spec now m :
  keyed m ->
  match (due_loop now m).1 with
  | Ok ks => Forall (observed_by now) m
             /\ ks = bt_keys (filter (is_due now) m)
             /\ Forall (fun kr => last_observed_wall_seconds kr.2 = now) (due_loop now m).2
  | Err err => err = ClockRegressed /\ ~ Forall (observed_by now) m
  end.
Proof.
  induction m as [|[k r] m IH]; intros Hk; cbn [due_loop]; [by repeat constructor|].
  apply Forall_cons in Hk as [Hkr Hk]. simpl in Hkr. specialize (IH Hk).
  destruct (Z.ltb_spec now (last_observed_wall_seconds r)) as [Hlt|Hge]; simpl.
  { split; [done|]. intros H. apply Forall_cons in H as [H _]. unfold observed_by in H.
    simpl in H. lia. }
  destruct (due_loop now m) as [[ks|err] rest'] eqn:E; simpl in IH |- *.
  - destruct IH as (H1 & -> & H3). split; [by constructor|]. split; [|by constructor].
    destruct (Z.leb_spec (next_run_wall_seconds r) now) as [Hd|Hd].
    + rewrite filter_cons_True by (unfold is_due; simpl; lia). unfold bt_keys.
      rewrite fmap_cons. by rewrite Hkr.
    + rewrite filter_cons_False by (unfold is_due; simpl; lia). done.
  - destruct IH as [-> H1]. split; [done|]. intros H. apply Forall_cons in H as [_ H]. done.
Qed.

(** ** Persistence *)
Inductive sched_op : Type :=
| OpEnsure (key : ScheduleKey) (now : Z)
| OpDue (now : Z)
| OpMark (key : ScheduleKey) (now : Z) (failure : bool)
| OpSetPolicy (p : SchedulePolicy).

Section persistence.
Context {S : Type} `{HS : !ScheduleStore S} `{HL : !ScheduleStoreLaws S}.
Implicit Types (e : SchedulerEngine S) (s : S).

Definition run_op (op : sched_op) : Mut (SchedulerEngine S) SchedulerError unit := fun e =>
  match op with
  | OpEnsure key now => (SchedulerEngine_ensure key now ≫= fun _ => mret tt) e
  | OpDue now => (SchedulerEngine_due now ≫= fun _ => mret tt) e
  | OpMark key now failure => SchedulerEngine_update key now failure e
  | OpSetPolicy p => (Ok tt, set_policy e p)
  end.

(** A call whose outcome is anything but a failure to persist. *)
Definition sched_step e e' : Prop :=
  exists op res, run_op op e = (res, e') /\ res <> Err PersistenceFailed.

Record engine_inv e : Prop := {
  inv_wf : bt_wf (records e);
  inv_keyed : keyed (records e);
  inv_store : store_inv (store e);
  inv_coherent : coherent (store_view (store e)) (records e);
}.

Lemma engine_load_inv s p e :
  store_inv s -> SchedulerEngine_load s p = Ok e ->
  engine_inv e /\ policy e = p /\ records e = store_view s /\ store_view (store e) = store_view s.
Proof.
  unfold SchedulerEngine_load. intros Hinv. destruct (store_load s) as [[rs|err] s'] eqn:E; [|done].
  destruct (store_load_view _ _ _ Hinv E) as (-> & Hv & Hinv').
  pose proof (store_view_wf _ Hinv) as Hwf. pose proof (store_view_keyed _ Hinv) as Hk.
  rewrite rekey_values, bt_collect_wf_id by done. intros [= <-].
  split; [|done]. split; simpl; [done..|by rewrite Hv].
Qed.

Lemma ensure_inv key now e res e' :
  engine_inv e -> SchedulerEngine_ensure key now e = (res, e') -> engine_inv e'.
Proof.
  intros [Hwf Hk Hs Hc]. unfold SchedulerEngine_ensure. case_match; [|by intros [= _ <-]].
  destruct (bt_contains_key key (records e)); [by intros [= _ <-]|].
  set (r := mkRecord key now 0 now). destruct (store_save r (store e)) as [[[]|err] s'] eqn:E;
    intros [= _ <-].
  - destruct (store_save_ok _ _ _ Hs E) as [Hv Hs'].
    split; simpl; [by apply bt_insert_wf|by apply (keyed_insert _ r)|done|].
    rewrite Hv. by apply coherent_insert.
  - destruct (store_save_err _ _ _ _ Hs E) as (_ & Hv & Hs'). split; simpl; by rewrite ?Hv.
Qed.

Lemma due_inv now e res e' :
  engine_inv e -> SchedulerEngine_due now e = (res, e') -> engine_inv e'.
Proof.
  intros [Hwf Hk Hs Hc]. unfold SchedulerEngine_due. case_match; [|by intros [= _ <-]].
  destruct (due_loop now (records e)) as [res0 m'] eqn:E. intros [= _ <-].
  apply due_loop_coherent in E. split; simpl; [| |done|by transitivity (records e)].
  - unfold bt_wf. by rewrite <- (coherent_keys _ _ E).
  - clear Hwf Hc. unfold keyed in *. induction E as [|[k r] [k' r'] m m' [H1 [H2 _]] _ IH]; [done|].
    apply Forall_cons in Hk as [? Hk]. simpl in *. constructor; [simpl; congruence|auto].
Qed.

Lemma update_inv key now failure e res e' :
  engine_inv e -> SchedulerEngine_update key now failure e = (res, e') ->
  res <> Err PersistenceFailed -> engine_inv e'.
Proof.
  intros [Hwf Hk Hs Hc]. unfold SchedulerEngine_update. case_match; [|by intros [= _ <-]].
  destruct (bt_get key (records e)) as [r|] eqn:Hg; [|by intros [= _ <-]].
  case_match; [by intros [= _ <-]|]. pose proof (keyed_get _ _ _ Hk Hg) as Hrk.
  set (r' := updated_record (policy e) key r now failure).
  assert (rec_key r' = key) as Hk' by done. cbv zeta.
  destruct (store_save r' _) as [[[]|err] s'] eqn:E; intros [= <- <-] Hres.
  - destruct (store_save_ok _ _ _ Hs E) as [Hv Hs']. rewrite Hk' in Hv.
    split; simpl; [by apply bt_insert_wf|rewrite <- Hk'; by apply keyed_insert|done|].
    rewrite Hv. by apply coherent_insert.
  - by destruct (store_save_err _ _ _ _ Hs E) as [-> _].
Qed.

Lemma sched_step_inv e e' : engine_inv e -> sched_step e e' -> engine_inv e'.
Proof.
  intros Hinv (op & res & Hrun & Hres). destruct op as [key now|now|key now failure|p]; simpl in Hrun.
  - unfold mbind, Mut_bind in Hrun. destruct (SchedulerEngine_ensure key now e) as [r1 e1] eqn:E.
    apply ensure_inv in E; [|done]. destruct r1; by injection Hrun as _ <-.
  - unfold mbind, Mut_bind in Hrun. destruct (SchedulerEngine_due now e) as [r1 e1] eqn:E.
    apply due_inv in E; [|done]. destruct r1; by injection Hrun as _ <-.
  - by eapply update_inv.
  - simplify_eq/=. by destruct Hinv.
Qed.

Lemma sched_steps_inv e e' : engine_inv e -> rtc sched_step e e' -> engine_inv e'.
Proof. intros He Hr. induction Hr; eauto using sched_step_inv. Qed.

Lemma coherent_due now stored m :
  keyed stored -> keyed m -> coherent stored m ->
  forall ks, (due_loop now m).1 = Ok ks -> (due_loop now stored).1 = Ok ks.
Proof.
  intros Hks Hkm Hc ks Hd. pose proof (due_loop_spec now m Hkm) as Hm. rewrite Hd in Hm.
  destruct Hm as (Hobs & -> & _). pose proof (due_loop_spec now stored Hks) as Hs.
  assert (Forall (observed_by now) stored
    /\ bt_keys (filter (is_due now) stored) = bt_keys (filter (is_due now) m)) as [Hobs' Heq].
  { clear Hs Hd Hks Hkm.
    induction Hc as [|[k r] [k' r'] stored m [H1 (H2 & H3 & H4 & H5)] _ IH]; [done|].
    apply Forall_cons in Hobs as [Ho Hobs]. destruct (IH Hobs) as [IH1 IH2].
    unfold observed_by in Ho. simpl in *. split; [constructor; [unfold observed_by; simpl; lia|done]|].
    subst k'. assert (is_due now (k, r) <-> is_due now (k, r')) as Hd
      by (unfold is_due; simpl; by rewrite H3).
    rewrite !filter_cons, (decide_ext _ _ _ _ Hd).
    case_decide; [|done]. unfold bt_keys in *. rewrite !fmap_cons. by rewrite IH2. }
  destruct ((due_loop now stored).1); [|by destruct Hs as [_ []]].
  destruct Hs as (_ & -> & _). by rewrite Heq.
Qed.

(** C38: restarting loses no schedule.  From an engine loaded from any lawful
    store, after any sequence of [ensure], [due], [mark_success], [mark_failure]
    and [set_policy] calls none of which reported a persistence failure, loading
    the store again yields the same keys with the same next run and failure
    count, with a last observation no later than the one in memory, and at every
    wall time at which the running engine can tell what is due the restarted one
    gives the same answer. *)
Theorem scheduler_restart_faithful s p e0 e p' e' now ks :
  store_inv s ->
  SchedulerEngine_load s p = Ok e0 ->
  rtc sched_step e0 e ->
  SchedulerEngine_load (store e) p' = Ok e' ->
  coherent (records e') (records e)
  /\ ((SchedulerEngine_due now e).1 = Ok ks -> (SchedulerEngine_due now e').1 = Ok ks).
Proof.
  intros Hs Hl Hsteps Hl'. destruct (engine_load_inv _ _ _ Hs Hl) as [Hinv0 _].
  pose proof (sched_steps_inv _ _ Hinv0 Hsteps) as [Hwf Hk Hst Hc].
  destruct (engine_load_inv _ _ _ Hst Hl') as ([_ Hk' _ _] & _ & Hrec & _).
  rewrite <- Hrec in Hc. split; [done|].
  unfold SchedulerEngine_due. case_match; [|done].
  destruct (due_loop now (records e)) as [res m] eqn:E1.
  destruct (due_loop now (records e')) as [res' m'] eqn:E2. simpl. intros ->.
  pose proof (coherent_due now _ _ Hk' Hk Hc ks) as Hd. rewrite E1, E2 in Hd. by apply Hd.
Qed.
End persistence.

(** [due] answers exactly the keys whose next run has been reached, in key
    order, stamps every record with the time of the call and leaves next runs,
    failure counts and the store alone; it refuses ([ClockRegressed]) exactly
    when some record was observed later than [now]. *)
Theorem scheduler_due_spec {S} `{ScheduleStore S} (e : SchedulerEngine S) now :
  keyed (records e) ->
  0 <= now ->
  let '(res, e') := SchedulerEngine_due now e in
  store e' = store e /\ policy e' = policy e /\ coherent (records e) (records e')
  /\ match res with
     | Ok ks =>
         ks = bt_keys (filter (is_due now) (records e))
         /\ Forall (observed_by now) (records e)
         /\ Forall (fun kr => last_observed_wall_seconds kr.2 = now) (records e')
     | Err err => err = ClockRegressed /\ ~ Forall (observed_by now) (records e)
     end.
Proof.
  intros Hk Hn. unfold SchedulerEngine_due, validate_wall_time.
  apply Z.leb_le in Hn as ->. pose proof (due_loop_spec now _ Hk) as Hspec.
  destruct (due_loop now (records e)) as [res m'] eqn:E. simpl in *.
  repeat split; [by eapply due_loop_coherent|]. destruct res; naive_solver.
Qed.

Lemma scheduler_due_spec_witness :
  keyed (records demo_failed)
  /\ let '(res, e') := SchedulerEngine_due 40000 demo_failed in
     res = Ok (bt_keys (filter (is_due 40000) (records demo_failed))) /\ res = Ok [demo_key].
Proof.
  assert (keyed (records demo_failed)) as Hk by (repeat constructor).
  split; [exact Hk|].
  pose proof (scheduler_due_spec demo_failed 40000 Hk ltac:(lia)) as H.
  destruct (SchedulerEngine_due 40000 demo_failed) as [res e'] eqn:E.
  destruct H as (_ & _ & _ & H). destruct res as [ks|err].
  - destruct H as (-> & _). split; [reflexivity|]. vm_compute. reflexivity.
  - vm_compute in E. discriminate E.
Defined.

Lemma scheduler_restart_faithful_witness :
  exists e e' : SchedulerEngine InMemoryScheduleStore,
    (SchedulerEngine_due 40000 e).1 = Ok [demo_key]
    /\ coherent (records e') (records e)
    /\ (SchedulerEngine_due 40000 e').1 = Ok [demo_key].
Proof.
  set (s := mkInMemory [(demo_key, mkRecord demo_key 1000 0 1000)]).
  set (e := (run_op (OpMark demo_key 2000 true) demo_engine).2).
  exists e, e.
  destruct (scheduler_restart_faithful s SchedulePolicy_default demo_engine e
    SchedulePolicy_default e 40000 [demo_key]) as [H1 H2].
  - split; [repeat constructor|]. repeat constructor.
  - reflexivity.
  - apply rtc_once. exists (OpMark demo_key 2000 true), (Ok tt). split; [|discriminate].
    vm_compute. reflexivity.
  - vm_compute. reflexivity.
  - split; [vm_compute; reflexivity|]. split; [exact H1|]. apply H2. vm_compute. reflexivity.
Defined.
