(* ===== verification/Source.v ===== *)
(** * Source: stable identities of subscription sources

    Models crates/nethopd/src/source_config.rs: the registry that binds the
    sources of a configuration to persistent identifiers ([SourceRegistry],
    two-phase [prepare]/[activate]), the resolved [SourceConfig], the canonical
    bytes behind its digest, and [NodeAttribution]; with [SourceId::new] of
    crates/nethop-subscription/src/payload.rs.

    Code outside the repository is a parameter: SHA-256 ([sha256_hex]) and the
    JSON encoder and decoder of serde.  The file is a [DiskNode]; the outcome of
    [atomic_write], which depends on the file system, is the parameter
    [atomic_write]; entropy is a generator that may fail. *)

From S2P Require Import Prelude.

Local Open Scope Z_scope.

Definition MAX_REGISTRY_BYTES : Z := 16 * 1024.
Definition REGISTRY_SCHEMA : string := "nethop-source-registry-v1".
Definition SOURCE_ID_BYTES : nat := 16.
Definition MAX_ID_ATTEMPTS : nat := 16.
Definition MAX_SOURCES : Z := 16.
Definition MANUAL_SOURCE_ID : string := "src_00000000000000000000000000000000".

(** ** Source identifiers *)
Definition SourceId : Type := string.
Inductive SourceIdError : Type := SidEmpty | SidTooLong | SidInvalidCharacter.

Definition source_id_byte (b : Z) : bool :=
  is_ascii_alphanumeric b || existsb (Z.eqb b) (bytes "._:-").

Definition SourceId_new (value : string) : Result SourceIdError SourceId :=
  if str_len value =? 0 then Err SidEmpty
  else if 128 <? str_len value then Err SidTooLong
  else if negb (forallb source_id_byte (bytes value)) then Err SidInvalidCharacter
  else Ok value.

(** ** Configuration data *)
Inductive SubscriptionMode : Type := Single | Merge.
Inductive FormatHint : Type :=
| FAuto | FUriList | FBase64List | FClashYaml | FSingboxJson | FIniProfile | FSurfboardIni.
Inductive SourceFormatHint : Type :=
| SAuto | SUriList | SBase64List | SClashYaml | SSingboxJson | SSurfboardIni.
Inductive RequestProfile : Type :=
| NetHopGeneric | Mihomo | ClashStandard | Surfboard | SingBox | SingBoxAndroid.
Inductive ProxyProtocol : Type :=
| Vless | Vmess | Shadowsocks | Trojan | Hysteria2 | Tuic | AnyTls | Http | Socks.

Definition parser_hint (f : SourceFormatHint) : FormatHint :=
  match f with
  | SAuto => FAuto
  | SUriList => FUriList
  | SBase64List => FBase64List
  | SClashYaml => FClashYaml
  | SSingboxJson => FSingboxJson
  | SSurfboardIni => FSurfboardIni
  end.

Record NodeFilter : Type := mkFilter {
  include_names : list string;
  exclude_names : list string;
  excluded_node_ids : list string;
  protocols : list ProxyProtocol;
}.

Record UserSource : Type := mkUserSource {
  us_name : string;
  us_enabled : bool;
  us_url : string;
  us_request_profile : RequestProfile;
  us_format_hint : SourceFormatHint;
  us_mirrors : list string;
  us_filter : NodeFilter;
}.

(** What [reconcile] reads of a [ConfigSnapshot]. *)
Record ConfigSnapshot : Type := mkSnapshot {
  snap_digest : string;
  snap_mode : SubscriptionMode;
  snap_sources : list UserSource;
}.

Record SourceDefinition : Type := mkSource {
  src_id : SourceId;
  src_name : string;
  src_enabled : bool;
  src_url : string;
  src_mirrors : list string;
  src_expected_format : FormatHint;
  src_request_profile : RequestProfile;
  src_filter : NodeFilter;
}.

Record SourceConfig : Type := mkSourceConfig {
  source_config_digest_of : string;
  config_digest : string;
  sc_mode : SubscriptionMode;
  sc_sources : list SourceDefinition;
}.

Inductive SourceRegistryError : Type :=
| InvalidPath
| InvalidRegistry
| CorruptRegistry
| EntropyUnavailable
| IdentityCollision
| UnknownSource
| InvalidAttribution
| TooManyAttributions
| WriteFailed.

(** ** Views of a configuration *)
Definition is_empty_str (s : string) : bool := String.eqb s "".
Definition source_active (s : SourceDefinition) : bool :=
  src_enabled s && negb (is_empty_str (src_url s)).

Definition configured_sources (c : SourceConfig) : list SourceDefinition :=
  List.filter (fun s => negb (is_empty_str (src_url s))) (sc_sources c).
Definition active_sources (c : SourceConfig) : list SourceDefinition :=
  List.filter source_active (sc_sources c).

Inductive SourceUpdateParticipation : Type := ActiveGeneration | InactiveCacheOnly.
Definition update_participation (c : SourceConfig) (source_id : SourceId) :
    Result SourceRegistryError SourceUpdateParticipation :=
  match List.find (fun s => String.eqb (src_id s) source_id) (sc_sources c) with
  | None => Err UnknownSource
  | Some s => Ok (if source_active s then ActiveGeneration else InactiveCacheOnly)
  end.

(** [NodeAttribution::new]: first occurrences in order, refusing a seventeenth
    distinct source at the element that brings it. *)
Fixpoint attribution_loop (source_ids : list SourceId) (unique : gset string)
    (ordered : list SourceId) : Result SourceRegistryError (list SourceId) :=
  match source_ids with
  | [] => Ok ordered
  | id :: rest =>
      let fresh := negb (bool_decide (id ∈ unique)) in
      let ordered' := if fresh then ordered ++ [id] else ordered in
      if MAX_SOURCES <? len ordered' then Err TooManyAttributions
      else attribution_loop rest ({[ id ]} ∪ unique) ordered'
  end.
Definition NodeAttribution_new (source_ids : list SourceId) :
    Result SourceRegistryError (list SourceId) :=
  ordered ← attribution_loop source_ids ∅ [];
  if len ordered =? 0 then Err InvalidAttribution else Ok ordered.

(** ** Registry state *)
Record RegistryEntry : Type := mkEntry {
  ent_source_id : SourceId;
  ent_name_digest : string;
  ent_url_digest : string;
}.
Record RegistryBinding : Type := mkBinding {
  bind_config_digest : string;
  bind_entries : list RegistryEntry;
}.
Record RegistryState : Type := mkRegistry {
  reg_schema : string;
  reg_active : option RegistryBinding;
  reg_pending : option RegistryBinding;
}.
#[export] Instance RegistryEntry_eq_dec : EqDecision RegistryEntry.
Proof. solve_decision. Defined.
#[export] Instance RegistryBinding_eq_dec : EqDecision RegistryBinding.
Proof. solve_decision. Defined.

Definition RegistryState_empty : RegistryState := mkRegistry REGISTRY_SCHEMA None None.

Fixpoint validate_entries (entries : list RegistryEntry) (ids : gset string) : bool :=
  match entries with
  | [] => true
  | e :: rest =>
      is_ok (SourceId_new (ent_source_id e))
      && negb (bool_decide (ent_source_id e ∈ ids)
               || negb (str_len (ent_name_digest e) =? 64)
               || negb (str_len (ent_url_digest e) =? 64))
      && validate_entries rest ({[ ent_source_id e ]} ∪ ids)
  end.
Definition validate_binding (b : RegistryBinding) : bool :=
  negb (negb (str_len (bind_config_digest b) =? 64) || (16 <? len (bind_entries b)))
  && validate_entries (bind_entries b) ∅.
Definition validate_slot (b : option RegistryBinding) : bool :=
  match b with Some b => validate_binding b | None => true end.
Definition RegistryState_validate (s : RegistryState) : Result SourceRegistryError unit :=
  if negb (String.eqb (reg_schema s) REGISTRY_SCHEMA) then Err CorruptRegistry
  else if validate_slot (reg_active s) && validate_slot (reg_pending s) then Ok tt
  else Err CorruptRegistry.

(** What [symlink_metadata] and [read] find at the registry's path. *)
Inductive DiskNode : Type :=
| NotFound
| MetadataError
| Node (is_file is_symlink is_private : bool) (contents : option (list Z)) (size : Z).

Fixpoint hex_digits (bs : list Z) : string :=
  let digit (d : Z) : Ascii.ascii :=
    Ascii.ascii_of_N (Z.to_N (if d <? 10 then 48 + d else 87 + d)) in
  match bs with
  | [] => EmptyString
  | b :: rest => String (digit (b / 16)) (String (digit (b mod 16)) (hex_digits rest))
  end.

(** ** Canonical bytes of a source configuration *)
Definition to_be_bytes32 (n : Z) : list Z :=
  [ (n / 2 ^ 24) mod 256; (n / 2 ^ 16) mod 256; (n / 2 ^ 8) mod 256; n mod 256 ].
Definition be_len {A} (l : list A) : list Z := to_be_bytes32 (cast_u 32 (len l)).
Definition push_field (value : list Z) : list Z := be_len value ++ value.

Definition mode_code (m : SubscriptionMode) : Z := match m with Single => 1 | Merge => 2 end.
Definition protocol_code (p : ProxyProtocol) : Z :=
  match p with
  | Vless => 0 | Vmess => 1 | Shadowsocks => 2 | Trojan => 3 | Hysteria2 => 4
  | Tuic => 5 | AnyTls => 6 | Http => 7 | Socks => 8
  end.
Definition format_code (f : FormatHint) : Z :=
  match f with
  | FAuto => 0 | FUriList => 1 | FBase64List => 2 | FClashYaml => 3
  | FSingboxJson => 4 | FIniProfile => 5 | FSurfboardIni => 6
  end.
Definition profile_code (p : RequestProfile) : Z :=
  match p with
  | NetHopGeneric => 0 | Mihomo => 1 | ClashStandard => 2
  | Surfboard => 3 | SingBox => 4 | SingBoxAndroid => 5
  end.
Definition push_list {A} (f : A -> list Z) (l : list A) : list Z :=
  be_len l ++ concat (f <$> l).

Section registry.
Context (sha256_hex : list Z -> string).

Definition digest (value : string) : string := sha256_hex (bytes value).

Definition canonical_source (s : SourceDefinition) : list Z :=
  push_field (bytes (src_id s))
  ++ [if src_enabled s then 1 else 0]
  ++ push_field (bytes (digest (src_url s)))
  ++ [format_code (src_expected_format s)]
  ++ [profile_code (src_request_profile s)]
  ++ push_list (fun m => push_field (bytes (digest m))) (src_mirrors s)
  ++ push_list (fun p => push_field (bytes p)) (include_names (src_filter s))
  ++ push_list (fun p => push_field (bytes p)) (exclude_names (src_filter s))
  ++ push_list (fun p => push_field (bytes p)) (excluded_node_ids (src_filter s))
  ++ push_list (fun p => [protocol_code p]) (protocols (src_filter s)).
Definition canonical_config (mode : SubscriptionMode) (sources : list SourceDefinition) : list Z :=
  bytes "nethop-source-config-v3" ++ [0] ++ [mode_code mode]
  ++ concat (canonical_source <$> sources).
Definition source_config_digest (mode : SubscriptionMode) (sources : list SourceDefinition) :
    string := sha256_hex (canonical_config mode sources).

(** ** Binding a snapshot to identifiers *)
Definition entry_matches (e : RegistryEntry) (s : UserSource) : bool :=
  String.eqb (ent_name_digest e) (digest (us_name s))
  && String.eqb (ent_url_digest e) (digest (us_url s)).
Definition binding_matches (b : RegistryBinding) (snap : ConfigSnapshot) : bool :=
  String.eqb (bind_config_digest b) (snap_digest snap)
  && (len (bind_entries b) =? len (snap_sources snap))
  && forallb (fun es => entry_matches es.1 es.2) (zip (bind_entries b) (snap_sources snap)).

Definition source_definition (id : SourceId) (s : UserSource) : SourceDefinition :=
  mkSource id (us_name s) (us_enabled s) (us_url s) (us_mirrors s)
    (parser_hint (us_format_hint s)) (us_request_profile s) (us_filter s).

Definition make_source_config (snap : ConfigSnapshot) (sources : list SourceDefinition) :
    SourceConfig :=
  mkSourceConfig (source_config_digest (snap_mode snap) sources) (snap_digest snap)
    (snap_mode snap) sources.
Definition source_config_from_binding (snap : ConfigSnapshot) (b : RegistryBinding) :
    SourceConfig :=
  make_source_config snap
    ((fun es => source_definition (ent_source_id es.1) es.2)
       <$> zip (bind_entries b) (snap_sources snap)).

(** First unclaimed index satisfying the predicate. *)
Fixpoint find_entry_from (i : nat) (entries : list RegistryEntry) (claimed : gset nat)
    (predicate : RegistryEntry -> bool) : option nat :=
  match entries with
  | [] => None
  | e :: rest =>
      if negb (bool_decide (i ∈ claimed)) && predicate e then Some i
      else find_entry_from (Datatypes.S i) rest claimed predicate
  end.
Definition find_entry := find_entry_from 0.

Section allocation.
Context {G : Type} (fill : G -> Result SourceRegistryError (list Z) * G).

Fixpoint allocate_loop (attempts : nat) (assigned : gset string)
    (previous : list RegistryEntry) (g : G) : Result SourceRegistryError SourceId * G :=
  match attempts with
  | O => (Err IdentityCollision, g)
  | Datatypes.S attempts' =>
      match fill g with
      | (Err err, g') => (Err err, g')
      | (Ok bs, g') =>
          match SourceId_new (String.append "src_" (hex_digits bs)) with
          | Err _ => (Err InvalidRegistry, g')
          | Ok id =>
              if negb (String.eqb id MANUAL_SOURCE_ID)
                 && negb (bool_decide (id ∈ assigned))
                 && forallb (fun e => negb (String.eqb (ent_source_id e) id)) previous
              then (Ok id, g')
              else allocate_loop attempts' assigned previous g'
          end
      end
  end.
Definition allocate_id := allocate_loop MAX_ID_ATTEMPTS.

(** The preferred index of a source: an error when the named entry is gone. *)
Definition preferred_index (preferred : option SourceId) (previous : list RegistryEntry)
    (claimed : gset nat) : Result SourceRegistryError (option nat) :=
  match preferred with
  | None => Ok None
  | Some id =>
      match find_entry previous claimed (fun e => String.eqb (ent_source_id e) id) with
      | Some i => Ok (Some i)
      | None => Err InvalidRegistry
      end
  end.

Definition matched_index (preferred : option nat) (s : UserSource)
    (previous : list RegistryEntry) (claimed : gset nat) : option nat :=
  match preferred with
  | Some i => Some i
  | None =>
      match
        (if negb (is_empty_str (us_url s))
         then find_entry previous claimed
                (fun e => String.eqb (ent_url_digest e) (digest (us_url s)))
         else None)
      with
      | Some i => Some i
      | None =>
          find_entry previous claimed
            (fun e => String.eqb (ent_name_digest e) (digest (us_name s)))
      end
  end.

(** The loop of [prepare_with_preferred_ids]; [preferred] is aligned with the
    sources that remain ([get] past the end is [None]).  The lookup of a matched
    index, which panics out of range in the source, is never out of range
    ([matched_index_Some]). *)
Fixpoint assign_loop (srcs : list UserSource) (preferred : list (option SourceId))
    (previous : list RegistryEntry) (claimed : gset nat) (assigned : gset string) (g : G) :
    Result SourceRegistryError (list (RegistryEntry * SourceDefinition)) * G :=
  match srcs with
  | [] => (Ok [], g)
  | s :: rest =>
      match preferred_index (default None (head preferred)) previous claimed with
      | Err err => (Err err, g)
      | Ok pref =>
          let finish (id : SourceId) (claimed' : gset nat) (g' : G) :=
            match assign_loop rest (tail preferred) previous claimed' ({[ id ]} ∪ assigned) g' with
            | (Err err, g'') => (Err err, g'')
            | (Ok tl, g'') =>
                (Ok ((mkEntry id (digest (us_name s)) (digest (us_url s)), source_definition id s)
                     :: tl), g'')
            end in
          match matched_index pref s previous claimed with
          | Some i =>
              match previous !! i with
              | Some e => finish (ent_source_id e) ({[ i ]} ∪ claimed) g
              | None => (Err InvalidRegistry, g)
              end
          | None =>
              match allocate_id assigned previous g with
              | (Err err, g') => (Err err, g')
              | (Ok id, g') => finish id claimed g'
              end
          end
      end
  end.
End allocation.

(** ** The registry file *)
Section files.
Context (encode : RegistryState -> list Z) (decode : list Z -> option RegistryState).
Context (atomic_write : list Z -> DiskNode -> bool * DiskNode).
Context {G : Type} (fill : G -> Result SourceRegistryError (list Z) * G).

Definition SourceRegistry_persist (s : RegistryState) (d : DiskNode) :
    Result SourceRegistryError unit * DiskNode :=
  let (ok, d') := atomic_write (encode s) d in (if ok then Ok tt else Err WriteFailed, d').

Definition SourceRegistry_load (d : DiskNode) : Result SourceRegistryError RegistryState :=
  match d with
  | NotFound => Ok RegistryState_empty
  | MetadataError => Err InvalidRegistry
  | Node is_file is_symlink is_private contents size =>
      if negb is_file || is_symlink || (size =? 0) || (MAX_REGISTRY_BYTES <? size)
         || negb is_private
      then Err InvalidRegistry
      else
        match contents with
        | None => Err InvalidRegistry
        | Some bs =>
            match decode bs with
            | None => Err CorruptRegistry
            | Some state => _ ← RegistryState_validate state; Ok state
            end
        end
  end.

Record PreparedSourceConfig : Type := mkPrepared {
  prep_source_config : SourceConfig;
  prep_binding : RegistryBinding;
  prep_activate : bool;
}.

Definition matching (b : option RegistryBinding) (snap : ConfigSnapshot) :
    option RegistryBinding :=
  match b with
  | Some b => if binding_matches b snap then Some b else None
  | None => None
  end.

Definition prepare_with_preferred_ids (snap : ConfigSnapshot)
    (preferred : list (option SourceId)) :
    Mut (DiskNode * G) SourceRegistryError PreparedSourceConfig := fun '(d, g) =>
  if negb (len preferred =? 0) && negb (len preferred =? len (snap_sources snap))
  then (Err InvalidRegistry, (d, g))
  else
    match
      match SourceRegistry_load d with
      | Err CorruptRegistry => Ok RegistryState_empty
      | r => r
      end
    with
    | Err err => (Err err, (d, g))
    | Ok state =>
        match matching (reg_active state) snap with
        | Some b =>
            let prepared := mkPrepared (source_config_from_binding snap b) b false in
            match reg_pending state with
            | Some _ =>
                match
                  SourceRegistry_persist (mkRegistry (reg_schema state) (reg_active state) None) d
                with
                | (Err err, d') => (Err err, (d', g))
                | (Ok _, d') => (Ok prepared, (d', g))
                end
            | None => (Ok prepared, (d, g))
            end
        | None =>
            match matching (reg_pending state) snap with
            | Some b =>
                (Ok (mkPrepared (source_config_from_binding snap b) b true), (d, g))
            | None =>
                let previous :=
                  match reg_active state with Some b => bind_entries b | None => [] end in
                match assign_loop fill (snap_sources snap) preferred previous ∅ ∅ g with
                | (Err err, g') => (Err err, (d, g'))
                | (Ok pairs, g') =>
                    let b := mkBinding (snap_digest snap) pairs.*1 in
                    match
                      SourceRegistry_persist
                        (mkRegistry (reg_schema state) (reg_active state) (Some b)) d
                    with
                    | (Err err, d') => (Err err, (d', g'))
                    | (Ok _, d') =>
                        (Ok (mkPrepared (make_source_config snap pairs.*2) b true), (d', g'))
                    end
                end
            end
        end
    end.
Definition prepare (snap : ConfigSnapshot) := prepare_with_preferred_ids snap [].

Definition activate (prepared : PreparedSourceConfig) (d : DiskNode) :
    Result SourceRegistryError SourceConfig * DiskNode :=
  if negb (prep_activate prepared) then (Ok (prep_source_config prepared), d)
  else
    match SourceRegistry_load d with
    | Err err => (Err err, d)
    | Ok state =>
        if negb (bool_decide (reg_pending state = Some (prep_binding prepared)))
        then (Err InvalidRegistry, d)
        else
          match
            SourceRegistry_persist
              (mkRegistry (reg_schema state) (Some (prep_binding prepared)) None) d
          with
          | (Err err, d') => (Err err, d')
          | (Ok _, d') => (Ok (prep_source_config prepared), d')
          end
    end.

Definition reconcile (snap : ConfigSnapshot) :
    Mut (DiskNode * G) SourceRegistryError SourceConfig := fun '(d, g) =>
  match prepare snap (d, g) with
  | (Err err, dg) => (Err err, dg)
  | (Ok prepared, (d', g')) =>
      let (res, d'') := activate prepared d' in (res, (d'', g'))
  end.

Definition checkpoint (d : DiskNode) : Result SourceRegistryError RegistryState :=
  SourceRegistry_load d.
Definition restore_checkpoint (expected_config_digest : string) (saved : RegistryState)
    (d : DiskNode) : Result SourceRegistryError unit * DiskNode :=
  match SourceRegistry_load d with
  | Err err => (Err err, d)
  | Ok current =>
      if bool_decide (bind_config_digest <$> reg_active current = Some expected_config_digest)
      then SourceRegistry_persist saved d
      else (Err InvalidRegistry, d)
  end.
Definition restore_checkpoint_exact (saved : RegistryState) (d : DiskNode) :
    Result SourceRegistryError unit * DiskNode := SourceRegistry_persist saved d.
End files.
End registry.

(** ** Validated registries *)
Definition entry_ok (e : RegistryEntry) : Prop :=
  is_ok (SourceId_new (ent_source_id e)) = true
  /\ str_len (ent_name_digest e) = 64 /\ str_len (ent_url_digest e) = 64.
Definition entry_ids (es : list RegistryEntry) : list SourceId := ent_source_id <$> es.

Lemma validate_entries_spec es ids :
  validate_entries es ids = true <->
  Forall entry_ok es /\ NoDup (entry_ids es) /\ (forall id, id ∈ entry_ids es -> id ∉ ids).
Proof.
  revert ids. induction es as [|e es IH]; intros ids; cbn [validate_entries].
  { split; [|done]. intros _. repeat constructor. intros id Hid. by apply elem_of_nil in Hid. }
  rewrite !andb_true_iff, negb_true_iff, !orb_false_iff, !negb_false_iff, !Z.eqb_eq, IH,
    bool_decide_eq_false. unfold entry_ids. rewrite fmap_cons, Forall_cons, NoDup_cons.
  fold (entry_ids es). unfold entry_ok at 2. split.
  - intros ((H1 & (H2 & H3) & H4) & H5 & H6 & H7). repeat split; auto.
    + intros Hin. apply (H7 _ Hin). set_solver.
    + intros id Hid. apply elem_of_cons in Hid as [->|Hid]; [done|].
      specialize (H7 _ Hid). set_solver.
  - intros ((( H1 & H2 & H3) & H4) & (H5 & H6) & H7). repeat split; auto.
    + apply H7. by left.
    + intros id Hid Hin. apply elem_of_union in Hin as [Hin|Hin].
      * apply elem_of_singleton in Hin as ->. done.
      * apply (H7 id); [by right|done].
Qed.

Definition binding_ok (b : RegistryBinding) : Prop :=
  str_len (bind_config_digest b) = 64 /\ len (bind_entries b) <= 16
  /\ Forall entry_ok (bind_entries b) /\ NoDup (entry_ids (bind_entries b)).

Lemma validate_binding_spec b : validate_binding b = true <-> binding_ok b.
Proof.
  unfold validate_binding, binding_ok.
  rewrite andb_true_iff, negb_true_iff, orb_false_iff, negb_false_iff, Z.eqb_eq, Z.ltb_ge,
    validate_entries_spec. set_solver.
Qed.

Definition slot_ok (b : option RegistryBinding) : Prop := from_option binding_ok True b.
Definition registry_ok (s : RegistryState) : Prop :=
  reg_schema s = REGISTRY_SCHEMA /\ slot_ok (reg_active s) /\ slot_ok (reg_pending s).

Lemma validate_slot_spec b : validate_slot b = true <-> slot_ok b.
Proof. destruct b as [b|]; [apply validate_binding_spec|done]. Qed.

Lemma RegistryState_validate_spec s : RegistryState_validate s = Ok tt <-> registry_ok s.
Proof.
  unfold RegistryState_validate, registry_ok.
  rewrite <- (validate_slot_spec (reg_active s)), <- (validate_slot_spec (reg_pending s)).
  destruct (String.eqb_spec (reg_schema s) REGISTRY_SCHEMA) as [E|E]; simpl; [|naive_solver].
  destruct (validate_slot (reg_active s)), (validate_slot (reg_pending s)); naive_solver.
Qed.

Lemma registry_ok_empty : registry_ok RegistryState_empty.
Proof. done. Qed.
Lemma registry_ok_active b :
  binding_ok b -> registry_ok (mkRegistry REGISTRY_SCHEMA (Some b) None).
Proof. intros Hb. split; [done|]. by split. Qed.

(** ** Entry search and allocation *)
Lemma SourceId_new_value v id : SourceId_new v = Ok id -> id = v.
Proof. unfold SourceId_new. repeat case_match; naive_solver. Qed.

Lemma find_entry_from_Some i es claimed p j :
  find_entry_from i es claimed p = Some j ->
  exists k e, j = (i + k)%nat /\ es !! k = Some e /\ j ∉ claimed /\ p e = true.
Proof.
  revert i. induction es as [|e es IH]; intros i; cbn [find_entry_from]; [done|].
  destruct (negb (bool_decide (i ∈ claimed)) && p e) eqn:E.
  - intros [= <-]. apply andb_true_iff in E as [E1 E2].
    apply negb_true_iff, bool_decide_eq_false in E1. exists 0%nat, e. rewrite Nat.add_0_r. done.
  - intros (k & e' & -> & Hk & Hc & Hp)%IH. exists (S k), e'. by rewrite Nat.add_succ_r.
Qed.

Lemma find_entry_Some es claimed p j :
  find_entry es claimed p = Some j ->
  exists e, es !! j = Some e /\ j ∉ claimed /\ p e = true.
Proof. intros (k & e & -> & H)%find_entry_from_Some. eauto. Qed.

Lemma find_entry_from_None i es claimed p k e :
  find_entry_from i es claimed p = None -> es !! k = Some e -> (i + k)%nat ∉ claimed ->
  p e = false.
Proof.
  revert i k. induction es as [|e0 es IH]; intros i k; cbn [find_entry_from]; [done|].
  destruct (negb (bool_decide (i ∈ claimed)) && p e0) eqn:E; [done|]. intros Hn Hk Hc.
  destruct k as [|k].
  - injection Hk as ->. rewrite Nat.add_0_r in Hc. rewrite bool_decide_eq_false_2 in E by done.
    by simpl in E.
  - apply (IH (S i) k); [done..|]. by rewrite Nat.add_succ_l, <- Nat.add_succ_r.
Qed.

(** On entries whose keys are distinct, an unclaimed entry with the wanted key is
    the one found. *)
Lemma find_entry_unique (key : RegistryEntry -> string) es claimed k e :
  NoDup (key <$> es) -> es !! k = Some e -> k ∉ claimed ->
  find_entry es claimed (fun e' => String.eqb (key e') (key e)) = Some k.
Proof.
  intros Hnd Hk Hc. destruct (find_entry _ _ _) as [j|] eqn:E.
  - apply find_entry_Some in E as (e' & Hj & _ & Heq). apply String.eqb_eq in Heq.
    f_equal. eapply (NoDup_lookup _ _ _ (key e)); [exact Hnd|..]; rewrite list_lookup_fmap.
    + rewrite Hj. simpl. by rewrite Heq.
    + by rewrite Hk.
  - pose proof (find_entry_from_None 0 _ _ _ _ _ E Hk Hc) as Hf. simpl in Hf.
    by rewrite String.eqb_refl in Hf.
Qed.

Section registry_facts.
Context (sha256_hex : list Z -> string).
Context {G : Type} (fill : G -> Result SourceRegistryError (list Z) * G).
Implicit Types (previous : list RegistryEntry) (claimed : gset nat) (assigned : gset string).

Lemma allocate_loop_ok n assigned previous g id g' :
  allocate_loop fill n assigned previous g = (Ok id, g') ->
  is_ok (SourceId_new id) = true /\ id <> MANUAL_SOURCE_ID /\ id ∉ assigned
  /\ id ∉ entry_ids previous.
Proof.
  revert g. induction n as [|n IH]; intros g; cbn [allocate_loop]; [done|].
  destruct (fill g) as [[bs|?] g1]; [|done].
  destruct (SourceId_new ("src_" +:+ hex_digits bs)) as [x|] eqn:Ex; [|done].
  split_if Hc; [|apply IH]. intros [= <- <-].
  rewrite !andb_true_iff, !negb_true_iff in Hc. destruct Hc as [[H1 H2] H3].
  apply String.eqb_neq in H1. apply bool_decide_eq_false in H2.
  rewrite forallb_forall in H3. split; [|split; [done|split; [done|]]].
  - pose proof (SourceId_new_value _ _ Ex) as Hx. rewrite <- Hx in Ex. by rewrite Ex.
  - intros Hin. apply list_elem_of_fmap in Hin as (e & -> & He).
    apply list_elem_of_In, H3 in He. by rewrite String.eqb_refl in He.
Qed.

Lemma matched_index_Some pref s previous claimed i :
  (forall j, pref = Some j -> exists e, previous !! j = Some e /\ j ∉ claimed) ->
  matched_index sha256_hex pref s previous claimed = Some i ->
  exists e, previous !! i = Some e /\ i ∉ claimed.
Proof.
  intros Hpref. unfold matched_index. destruct pref as [j|]; [intros [= <-]; auto|].
  destruct (if negb (is_empty_str (us_url s)) then _ else None) as [j|] eqn:E.
  - intros [= <-]. destruct (is_empty_str (us_url s)); [done|].
    apply find_entry_Some in E. naive_solver.
  - intros (e & H1 & H2 & _)%find_entry_Some. eauto.
Qed.

Lemma preferred_index_Some p previous claimed j :
  preferred_index p previous claimed = Ok (Some j) ->
  exists e, previous !! j = Some e /\ j ∉ claimed.
Proof.
  unfold preferred_index. destruct p; [|done]. case_match eqn:E; [|done]. intros [= <-].
  apply find_entry_Some in E. naive_solver.
Qed.

(** What the loop produces: one entry and one definition per source, in order,
    under the identifiers [ids]. *)
Definition entry_of (id : SourceId) (s : UserSource) : RegistryEntry :=
  mkEntry id (digest sha256_hex (us_name s)) (digest sha256_hex (us_url s)).
Definition assignment (ids : list SourceId) (srcs : list UserSource) :=
  zip_with (fun id s => (entry_of id s, source_definition id s)) ids srcs.

(** An index is claimed exactly when its identifier is taken. *)
Definition claims_agree previous claimed assigned : Prop :=
  forall i e, previous !! i = Some e -> i ∈ claimed <-> ent_source_id e ∈ assigned.

Lemma claims_agree_matched previous claimed assigned i e :
  NoDup (entry_ids previous) -> previous !! i = Some e ->
  claims_agree previous claimed assigned ->
  claims_agree previous ({[ i ]} ∪ claimed) ({[ ent_source_id e ]} ∪ assigned).
Proof.
  intros Hnd Hi Hag j e' Hj. specialize (Hag _ _ Hj). rewrite !elem_of_union, !elem_of_singleton.
  enough (j = i <-> ent_source_id e' = ent_source_id e) by tauto. split.
  - intros ->. rewrite Hi in Hj. by injection Hj as ->.
  - intros Heq. eapply (NoDup_lookup _ _ _ (ent_source_id e)); [exact Hnd|..];
      unfold entry_ids; rewrite list_lookup_fmap; [by rewrite Hj; simpl; rewrite Heq|by rewrite Hi].
Qed.

Lemma claims_agree_fresh previous claimed assigned id :
  id ∉ entry_ids previous -> claims_agree previous claimed assigned ->
  claims_agree previous claimed ({[ id ]} ∪ assigned).
Proof.
  intros Hid Hag j e Hj. rewrite (Hag _ _ Hj), elem_of_union, elem_of_singleton.
  split; [by right|]. intros [Heq|?]; [|done]. destruct Hid. rewrite <- Heq.
  apply list_elem_of_fmap. exists e. eauto using list_elem_of_lookup_2.
Qed.

Definition assigned_ok previous assigned (ids : list SourceId) : Prop :=
  NoDup ids /\ (forall id, id ∈ ids -> id ∉ assigned)
  /\ Forall (fun id => (is_ok (SourceId_new id) = true /\ id <> MANUAL_SOURCE_ID)
                       \/ id ∈ entry_ids previous) ids.

Lemma assigned_ok_cons previous assigned id ids :
  id ∉ assigned ->
  (is_ok (SourceId_new id) = true /\ id <> MANUAL_SOURCE_ID) \/ id ∈ entry_ids previous ->
  assigned_ok previous ({[ id ]} ∪ assigned) ids ->
  assigned_ok previous assigned (id :: ids).
Proof.
  intros Hid Hok (H1 & H2 & H3). split; [|split; [|by constructor]].
  - constructor; [|done]. intros Hin. apply (H2 _ Hin). set_solver.
  - intros x Hx. apply elem_of_cons in Hx as [->|Hx]; [done|]. specialize (H2 _ Hx). set_solver.
Qed.

Lemma assign_loop_ok srcs preferred previous claimed assigned g pairs g' :
  NoDup (entry_ids previous) -> claims_agree previous claimed assigned ->
  assign_loop sha256_hex fill srcs preferred previous claimed assigned g = (Ok pairs, g') ->
  exists ids, length ids = length srcs /\ pairs = assignment ids srcs
              /\ assigned_ok previous assigned ids.
Proof.
  intros Hnd. revert preferred claimed assigned g pairs g'.
  induction srcs as [|s srcs IH]; intros preferred claimed assigned g pairs g' Hag Hrun;
    cbn [assign_loop] in Hrun.
  { injection Hrun as <- _. exists []. repeat constructor. set_solver. }
  destruct (preferred_index _ previous claimed) as [pref|] eqn:Ep; [|done].
  destruct (matched_index _ pref s previous claimed) as [i|] eqn:Em.
  - destruct (matched_index_Some _ _ _ _ _
      (fun j Hj => preferred_index_Some _ _ _ j (eq_trans Ep (f_equal Ok Hj))) Em)
      as (e & Hi & Hc).
    rewrite Hi in Hrun. cbv zeta in Hrun.
    destruct (assign_loop _ _ srcs _ _ _ _ _) as [[tl|] g1] eqn:Erec; [|done].
    injection Hrun as <- _.
    apply IH in Erec as (ids & Hlen & -> & Hok); [|by apply claims_agree_matched].
    exists (ent_source_id e :: ids). split; [simpl; lia|]. split; [done|].
    apply assigned_ok_cons; [|right|done].
    + by rewrite <- (Hag _ _ Hi).
    + apply list_elem_of_fmap. exists e. eauto using list_elem_of_lookup_2.
  - destruct (allocate_id fill assigned previous g) as [[id|] g1] eqn:Ea; [|done].
    destruct (allocate_loop_ok _ _ _ _ _ _ Ea) as (H1 & H2 & H3 & H4). cbv zeta in Hrun.
    destruct (assign_loop _ _ srcs _ _ _ _ _) as [[tl|] g2] eqn:Erec; [|done].
    injection Hrun as <- _.
    apply IH in Erec as (ids & Hlen & -> & Hok); [|by apply claims_agree_fresh].
    exists (id :: ids). split; [simpl; lia|]. split; [done|].
    apply assigned_ok_cons; auto.
Qed.

Section files_facts.
Context (encode : RegistryState -> list Z) (decode : list Z -> option RegistryState).
Context (atomic_write : list Z -> DiskNode -> bool * DiskNode).

Abbreviation Load := (SourceRegistry_load decode).
Abbreviation Prepare :=
  (prepare_with_preferred_ids sha256_hex encode decode atomic_write fill).
Abbreviation Activate := (activate encode decode atomic_write).
Abbreviation Reconcile := (reconcile sha256_hex encode decode atomic_write fill).

Lemma load_ok d st : Load d = Ok st -> registry_ok st.
Proof.
  unfold SourceRegistry_load. destruct d as [| |f l p c n]; [by intros [= <-]|done|].
  split_if Hg; [done|]. destruct c as [bs|]; [|done]. destruct (decode bs) as [s|]; [|done].
  destruct (RegistryState_validate s) as [[]|] eqn:E; [|done]. intros [= <-].
  by apply RegistryState_validate_spec.
Qed.

Definition loaded_or_empty (d : DiskNode) : Result SourceRegistryError RegistryState :=
  match Load d with Err CorruptRegistry => Ok RegistryState_empty | r => r end.

Lemma loaded_or_empty_ok d st : loaded_or_empty d = Ok st -> registry_ok st.
Proof.
  unfold loaded_or_empty. destruct (Load d) as [s|err] eqn:E.
  - intros [= <-]. by eapply load_ok.
  - destruct err; try done. by intros [= <-].
Qed.

Lemma binding_matches_spec b snap :
  binding_matches sha256_hex b snap = true <->
  exists ids, length ids = length (snap_sources snap)
    /\ b = mkBinding (snap_digest snap) (zip_with entry_of ids (snap_sources snap)).
Proof.
  destruct b as [cd es], snap as [sd mode srcs]. unfold binding_matches. simpl.
  rewrite !andb_true_iff, String.eqb_eq, Z.eqb_eq. unfold len. split.
  - intros [[-> Hlen] Hall]. apply Nat2Z.inj in Hlen.
    enough (exists ids, length ids = length srcs /\ es = zip_with entry_of ids srcs)
      as (ids & H1 & ->) by eauto.
    revert srcs Hlen Hall. induction es as [|[i n u] es IH]; intros [|s srcs] Hlen Hall; try done.
    { by exists []. }
    simpl in Hall. apply andb_true_iff in Hall as [Hm Hall].
    apply andb_true_iff in Hm as [Hn Hu]. apply String.eqb_eq in Hn, Hu. simpl in Hn, Hu. subst.
    destruct (IH srcs ltac:(simpl in Hlen; lia) Hall) as (ids & H1 & ->).
    exists (i :: ids). split; [simpl; lia|done].
  - intros (ids & Hlen & [= -> ->]). split; [split; [done|]|].
    + rewrite length_zip_with_l_eq by done. lia.
    + revert srcs Hlen. induction ids as [|i ids IH]; intros [|s srcs] Hlen; try done.
      simpl. unfold entry_matches. simpl. rewrite !String.eqb_refl. apply IH. simpl in Hlen. lia.
Qed.

Lemma matching_Some slot snap b :
  slot_ok slot -> matching sha256_hex slot snap = Some b ->
  slot = Some b /\ binding_ok b /\ binding_matches sha256_hex b snap = true.
Proof.
  unfold matching. destruct slot as [b0|]; [|done]. simpl. intros Hok. case_match; [|done].
  by intros [= ->].
Qed.

Lemma zip_fst_snd {A B C D} (f : A -> B -> C) (g : A -> B -> D) l k :
  (zip_with (fun a b => (f a b, g a b)) l k).*1 = zip_with f l k
  /\ (zip_with (fun a b => (f a b, g a b)) l k).*2 = zip_with g l k.
Proof.
  revert k. induction l as [|a l IH]; intros [|b k]; try done.
  split; simpl; f_equal; apply IH.
Qed.

Lemma entry_ids_zip ids srcs :
  length ids = length srcs -> entry_ids (zip_with entry_of ids srcs) = ids.
Proof.
  unfold entry_ids. revert srcs. induction ids as [|i ids IH]; intros [|s srcs] H; try done.
  simpl in *. rewrite IH by lia. done.
Qed.

Lemma from_binding_zip snap ids :
  length ids = length (snap_sources snap) ->
  source_config_from_binding sha256_hex snap
    (mkBinding (snap_digest snap) (zip_with entry_of ids (snap_sources snap)))
  = make_source_config sha256_hex snap (zip_with source_definition ids (snap_sources snap)).
Proof.
  destruct snap as [sd mode srcs]. unfold source_config_from_binding. simpl. intros Hlen. f_equal.
  revert srcs Hlen. induction ids as [|i ids IH]; intros [|s srcs] H; try done.
  simpl in *. f_equal. apply IH. lia.
Qed.

(** What a successful [prepare] hands out, on each of its three paths. *)
Definition valid_id (id : SourceId) : Prop := is_ok (SourceId_new id) = true.
Lemma entries_valid es : Forall entry_ok es -> Forall valid_id (entry_ids es).
Proof. intros H. apply Forall_fmap. eapply Forall_impl; [exact H|]. by intros e []. Qed.
Lemma assigned_valid previous assigned ids :
  Forall entry_ok previous -> assigned_ok previous assigned ids -> Forall valid_id ids.
Proof.
  intros Hp (_ & _ & Hids). apply entries_valid in Hp. rewrite Forall_forall in Hp.
  eapply Forall_impl; [exact Hids|]. intros id [[? _]|Hin]; [done|by apply Hp].
Qed.
Lemma prepare_valid snap preferred d g prepared d' g' :
  Prepare snap preferred (d, g) = (Ok prepared, (d', g')) ->
  exists ids, length ids = length (snap_sources snap) /\ NoDup ids /\ Forall valid_id ids
    /\ prep_binding prepared
       = mkBinding (snap_digest snap) (zip_with entry_of ids (snap_sources snap))
    /\ prep_source_config prepared
       = make_source_config sha256_hex snap (zip_with source_definition ids (snap_sources snap)).
Proof.
  unfold prepare_with_preferred_ids. split_if Hg; [done|]. fold (loaded_or_empty d).
  destruct (loaded_or_empty d) as [st|] eqn:El; [|done].
  destruct (loaded_or_empty_ok _ _ El) as (_ & Ha & Hp).
  assert (forall slot b, slot_ok slot -> matching sha256_hex slot snap = Some b ->
    exists ids, length ids = length (snap_sources snap) /\ NoDup ids /\ Forall valid_id ids
    /\ b = mkBinding (snap_digest snap) (zip_with entry_of ids (snap_sources snap))
    /\ source_config_from_binding sha256_hex snap b
       = make_source_config sha256_hex snap (zip_with source_definition ids (snap_sources snap)))
    as Hmatch.
  { intros slot b Hok Hm. destruct (matching_Some _ _ _ Hok Hm) as (_ & (_ & _ & Hent%entries_valid & Hnd) & Hb).
    apply binding_matches_spec in Hb as (ids & Hlen & ->). simpl in Hnd, Hent.
    rewrite entry_ids_zip in Hnd, Hent by done. exists ids. split_and!; [done..|by apply from_binding_zip]. }
  destruct (matching _ (reg_active st) snap) as [b|] eqn:Ea.
  { intros Hrun. destruct (Hmatch _ _ Ha Ea) as (ids & H1 & H2 & H3 & H4).
    exists ids. destruct (reg_pending st); repeat case_match; simplify_eq/=; naive_solver. }
  destruct (matching _ (reg_pending st) snap) as [b|] eqn:Ep.
  { intros [= <- <- <-]. by apply (Hmatch _ _ Hp Ep). }
  destruct (assign_loop _ _ _ _ _ _ _ _) as [[pairs|] g1] eqn:Er; [|done].
  apply assign_loop_ok in Er as (ids & Hlen & -> & Hok);
    [|by destruct (reg_active st) as [b|]; [apply Ha|constructor]|intros ???; set_solver].
  assert (Forall valid_id ids) as Hids.
  { eapply assigned_valid; [|exact Hok]. destruct (reg_active st) as [b|]; [apply Ha|constructor]. }
  destruct Hok as [Hok _].
  unfold assignment. destruct (zip_fst_snd entry_of source_definition ids (snap_sources snap))
    as [-> ->].
  destruct (SourceRegistry_persist _ _ _ _) as [[]]; intros [= <- <- <-]. by exists ids.
Qed.
Lemma prepare_ok snap preferred d g prepared d' g' :
  Prepare snap preferred (d, g) = (Ok prepared, (d', g')) ->
  exists ids, length ids = length (snap_sources snap) /\ NoDup ids
    /\ prep_binding prepared
       = mkBinding (snap_digest snap) (zip_with entry_of ids (snap_sources snap))
    /\ prep_source_config prepared
       = make_source_config sha256_hex snap (zip_with source_definition ids (snap_sources snap)).
Proof. intros (ids & ? & ? & _ & ? & ?)%prepare_valid. eauto. Qed.

(** Whatever the registry file holds and whatever the entropy source
    returns, a successful [prepare] gives the sources of the snapshot pairwise
    distinct identifiers, the binding it records carries the same identifiers in
    the same order, and each definition is its source's data under its
    identifier. *)
Theorem source_ids_unique snap preferred d g prepared d' g' :
  Prepare snap preferred (d, g) = (Ok prepared, (d', g')) ->
  let c := prep_source_config prepared in
  NoDup (src_id <$> sc_sources c)
  /\ entry_ids (bind_entries (prep_binding prepared)) = (src_id <$> sc_sources c)
  /\ Forall2 (fun sd s => sd = source_definition (src_id sd) s)
       (sc_sources c) (snap_sources snap).
Proof.
  intros (ids & Hlen & Hnd & Hb & Hc)%prepare_ok. cbv zeta. rewrite Hb, Hc. simpl.
  assert (src_id <$> zip_with source_definition ids (snap_sources snap) = ids) as Hids.
  { clear -Hlen. revert Hlen. generalize (snap_sources snap). induction ids as [|i ids IH];
      intros [|s srcs] H; try done. simpl in *. by rewrite IH by lia. }
  rewrite Hids. split; [done|]. split; [by apply entry_ids_zip|].
  clear -Hlen. revert Hlen. generalize (snap_sources snap). induction ids as [|i ids IH];
    intros [|s srcs] H; try done; constructor; [done|]. apply IH. simpl in H. lia.
Qed.

(** *** Idempotence *)
Section laws.
Hypothesis serde_roundtrip : forall s, decode (encode s) = Some s.
Hypothesis write_visible : forall bs d d',
  atomic_write bs d = (true, d') -> d' = Node true false true (Some bs) (len bs).

Definition fits (s : RegistryState) : Prop := 0 < len (encode s) <= MAX_REGISTRY_BYTES.

Lemma persist_load s d d' :
  registry_ok s -> fits s ->
  SourceRegistry_persist encode atomic_write s d = (Ok tt, d') -> Load d' = Ok s.
Proof.
  intros Hok [Hf1 Hf2]. unfold SourceRegistry_persist.
  destruct (atomic_write (encode s) d) as [[|] d1] eqn:E; [|done]. intros [= <-].
  apply write_visible in E as ->. simpl.
  rewrite (proj2 (Z.eqb_neq _ _)) by lia. rewrite (proj2 (Z.ltb_ge _ _)) by lia. simpl.
  rewrite serde_roundtrip. by rewrite (proj2 (RegistryState_validate_spec s) Hok).
Qed.

(** A file holding [snap]'s binding as the active one, and nothing pending. *)
Definition settled (snap : ConfigSnapshot) (b : RegistryBinding) (d : DiskNode) : Prop :=
  Load d = Ok (mkRegistry REGISTRY_SCHEMA (Some b) None)
  /\ binding_matches sha256_hex b snap = true.

Lemma settled_reconcile snap b d g :
  settled snap b d ->
  Reconcile snap (d, g) = (Ok (source_config_from_binding sha256_hex snap b), (d, g)).
Proof.
  intros [Hl Hm]. unfold reconcile, prepare, prepare_with_preferred_ids. simpl. rewrite Hl. simpl.
  by rewrite Hm.
Qed.

Lemma activate_settled snap prepared d c d' :
  (forall b, binding_ok b -> binding_matches sha256_hex b snap = true ->
     fits (mkRegistry REGISTRY_SCHEMA (Some b) None)) ->
  binding_matches sha256_hex (prep_binding prepared) snap = true ->
  prep_activate prepared = true ->
  Activate prepared d = (Ok c, d') ->
  settled snap (prep_binding prepared) d' /\ c = prep_source_config prepared.
Proof.
  intros Hfit Hm Ha. unfold activate. rewrite Ha. simpl.
  destruct (Load d) as [st|] eqn:El; [|done]. destruct (load_ok _ _ El) as (Hs & _ & Hp).
  case_bool_decide as Hb; [|done]. simpl. rewrite Hb in Hp. simpl in Hp. rewrite Hs.
  destruct (SourceRegistry_persist _ _ _ _) as [[[]|] d1] eqn:E; [|done]. intros [= <- <-].
  split; [|done]. split; [|done]. eapply persist_load; [by apply registry_ok_active|by apply Hfit|exact E].
Qed.

(** Reconciling is idempotent.  Once [reconcile] has succeeded on a
    snapshot, reconciling the same snapshot again, with any entropy source
    state, yields the same configuration (the same identifiers included) and
    neither writes the file nor draws entropy, as long as the encoded registry
    of one binding fits the 16 KiB the loader accepts. *)
Theorem reconcile_idempotent snap d g c d1 g1 g2 :
  (forall b, binding_ok b -> binding_matches sha256_hex b snap = true ->
     fits (mkRegistry REGISTRY_SCHEMA (Some b) None)) ->
  Reconcile snap (d, g) = (Ok c, (d1, g1)) ->
  Reconcile snap (d1, g2) = (Ok c, (d1, g2)).
Proof.
  intros Hfit. unfold reconcile at 1.
  destruct (prepare _ _ _ _ _ snap (d, g)) as [[prepared|] [d' g']] eqn:Ep; [|done].
  pose proof (prepare_ok _ _ _ _ _ _ _ Ep) as (ids & Hlen & _ & Hb & Hc).
  assert (binding_matches sha256_hex (prep_binding prepared) snap = true) as Hm
    by (apply binding_matches_spec; eauto).
  assert (prep_source_config prepared
    = source_config_from_binding sha256_hex snap (prep_binding prepared)) as Hcfg
    by (rewrite Hc, Hb, from_binding_zip; done).
  destruct (Activate prepared d') as [res d''] eqn:Eact. intros [= -> <- <-].
  destruct (prep_activate prepared) eqn:Hact.
  { destruct (activate_settled _ _ _ _ _ Hfit Hm Hact Eact) as [Hset ->].
    rewrite (settled_reconcile _ _ _ g2 Hset). by rewrite Hcfg. }
  unfold activate in Eact. rewrite Hact in Eact. simpl in Eact. injection Eact as <- <-.
  rewrite Hcfg. apply settled_reconcile. split; [|done]. clear Hc Hcfg Hb Hlen ids.
  unfold prepare, prepare_with_preferred_ids in Ep. simpl in Ep. fold (loaded_or_empty d) in Ep.
  destruct (loaded_or_empty d) as [st|] eqn:El; [|done].
  destruct (loaded_or_empty_ok _ _ El) as (Hs & Ha & _).
  destruct (matching _ (reg_active st) snap) as [b|] eqn:Ea.
  2: { repeat case_match; simplify_eq/=. }
  destruct (matching_Some _ _ _ Ha Ea) as (Hact' & Hbok & Hbm).
  rewrite Hs, Hact' in Ep. destruct st as [sch act [pend|]]; simpl in *.
  - destruct (SourceRegistry_persist _ _ _ _) as [[[]|] d2] eqn:E; [|done]. simplify_eq/=.
    eapply persist_load; [by apply registry_ok_active|by apply Hfit|exact E].
  - simplify_eq/=. unfold loaded_or_empty in El. destruct (Load d') as [st'|[]]; simplify_eq/=; done.
Qed.
End laws.

(** *** Identifiers follow URLs *)
Definition has_unclaimed_url previous claimed (s : UserSource) : Prop :=
  is_empty_str (us_url s) = false
  /\ exists k e, previous !! k = Some e /\ k ∉ claimed
                 /\ ent_url_digest e = digest sha256_hex (us_url s).
Definition same_url previous (id : SourceId) (s : UserSource) : Prop :=
  exists e, e ∈ previous /\ ent_source_id e = id
            /\ ent_url_digest e = digest sha256_hex (us_url s).

Lemma assign_loop_urls srcs previous claimed assigned g :
  NoDup (ent_url_digest <$> previous) ->
  NoDup ((fun s => digest sha256_hex (us_url s)) <$> srcs) ->
  Forall (has_unclaimed_url previous claimed) srcs ->
  exists ids, assign_loop sha256_hex fill srcs [] previous claimed assigned g
              = (Ok (assignment ids srcs), g)
              /\ Forall2 (same_url previous) ids srcs.
Proof.
  intros Hnd. revert claimed assigned.
  induction srcs as [|s srcs IH]; intros claimed assigned Hnd' Hall.
  { exists []. by split; [|constructor]. }
  apply Forall_cons in Hall as [(Hne & k & e & Hk & Hc & Hu) Hall].
  rewrite fmap_cons in Hnd'. apply NoDup_cons in Hnd' as [Hfresh Hnd'].
  cbn [assign_loop]. simpl (default None (head [])). cbn [preferred_index tail].
  unfold matched_index at 1. rewrite Hne. cbn [negb]. rewrite <- Hu.
  rewrite (find_entry_unique ent_url_digest _ _ k e) by done. rewrite Hk. cbv zeta.
  destruct (IH ({[ k ]} ∪ claimed) ({[ ent_source_id e ]} ∪ assigned) Hnd')
    as (ids & -> & Hids).
  { apply Forall_forall. intros s' Hs'. rewrite Forall_forall in Hall.
    destruct (Hall _ Hs') as (Hne' & k' & e' & Hk' & Hc' & Hu').
    split; [done|]. exists k', e'. repeat split; [done| |done].
    intros [Hin|Hin]%elem_of_union; [|done]. apply elem_of_singleton in Hin as ->.
    rewrite Hk in Hk'. injection Hk' as <-. apply Hfresh. rewrite <- Hu, Hu'.
    apply list_elem_of_fmap. eauto. }
  exists (ent_source_id e :: ids). split; [unfold assignment; simpl; by rewrite Hu|].
  constructor; [|done]. exists e. eauto using list_elem_of_lookup_2.
Qed.

(** Identifiers follow URLs.  When every source of the new snapshot has a
    non-empty URL already known to the active binding (sources reordered,
    renamed, toggled, removed), URLs being pairwise distinct on both sides, then
    [prepare] draws no entropy and gives each source the identifier its URL had;
    the only way it can fail is a failed write. *)
Theorem source_id_follows_url snap d g st b0 :
  Load d = Ok st ->
  reg_active st = Some b0 ->
  matching sha256_hex (reg_active st) snap = None ->
  matching sha256_hex (reg_pending st) snap = None ->
  NoDup (ent_url_digest <$> bind_entries b0) ->
  NoDup ((fun s => digest sha256_hex (us_url s)) <$> snap_sources snap) ->
  Forall (has_unclaimed_url (bind_entries b0) ∅) (snap_sources snap) ->
  let '(res, (_, g')) := Prepare snap [] (d, g) in
  g' = g /\
  match res with
  | Ok prepared =>
      prep_activate prepared = true
      /\ Forall2 (same_url (bind_entries b0))
           (src_id <$> sc_sources (prep_source_config prepared)) (snap_sources snap)
  | Err err => err = WriteFailed
  end.
Proof.
  intros Hl Hact Ha Hp Hnd Hnd' Hall. unfold prepare_with_preferred_ids. simpl. rewrite Hl, Ha, Hp.
  rewrite Hact. destruct (assign_loop_urls _ _ ∅ ∅ g Hnd Hnd' Hall) as (ids & -> & Hids).
  unfold SourceRegistry_persist. destruct (atomic_write _ _) as [[|] d']; [|done].
  split; [done|]. split; [done|]. simpl. unfold assignment.
  destruct (zip_fst_snd entry_of source_definition ids (snap_sources snap)) as [_ ->].
  clear -Hids. induction Hids as [|i s ids srcs Hs _ IH]; [constructor|]. by constructor.
Qed.
End files_facts.
End registry_facts.

(** ** A concrete registry, for the witnesses *)
Module Demo.
Definition toy_sha (bs : list Z) : string :=
  String.append (hex_digits (to_be_bytes32 (fold_left (fun h b => cast_u 32 (h * 31 + b)) bs 7)))
    "00000000000000000000000000000000000000000000000000000000".
(** A flat file format: every list and string behind its length. *)
Definition put_str (s : string) : list Z := str_len s :: bytes s.
Definition get_str (l : list Z) : option (string * list Z) :=
  match l with
  | n :: rest => Some (of_bytes (take (Z.to_nat n) rest), drop (Z.to_nat n) rest)
  | [] => None
  end.
Definition put_entry (e : RegistryEntry) : list Z :=
  put_str (ent_source_id e) ++ put_str (ent_name_digest e) ++ put_str (ent_url_digest e).
Fixpoint get_entries (n : nat) (l : list Z) : option (list RegistryEntry * list Z) :=
  match n with
  | O => Some ([], l)
  | S n' =>
      '(a, l) ← get_str l; '(b, l) ← get_str l; '(c, l) ← get_str l;
      '(es, l) ← get_entries n' l; Some (mkEntry a b c :: es, l)
  end.
Definition put_slot (b : option RegistryBinding) : list Z :=
  match b with
  | None => [-1]
  | Some b => len (bind_entries b) :: put_str (bind_config_digest b)
              ++ concat (put_entry <$> bind_entries b)
  end.
Definition get_slot (l : list Z) : option (option RegistryBinding * list Z) :=
  match l with
  | n :: l =>
      if n <? 0 then Some (None, l)
      else '(d, l) ← get_str l; '(es, l) ← get_entries (Z.to_nat n) l; Some (Some (mkBinding d es), l)
  | [] => None
  end.
Definition toy_encode (s : RegistryState) : list Z :=
  put_str (reg_schema s) ++ put_slot (reg_active s) ++ put_slot (reg_pending s).
Definition toy_decode (l : list Z) : option RegistryState :=
  '(s, l) ← get_str l; '(a, l) ← get_slot l; '(p, l) ← get_slot l; Some (mkRegistry s a p).

Lemma get_put_str s l : get_str (put_str s ++ l) = Some (s, l).
Proof.
  unfold get_str, put_str. simpl. unfold str_len. rewrite Nat2Z.id.
  assert (String.length s = length (bytes s)) as ->
    by (pose proof (bytes_length s); unfold len, str_len in *; lia).
  by rewrite take_app_length, drop_app_length, of_bytes_bytes.
Qed.
Lemma get_put_entries es l :
  get_entries (length es) (concat (put_entry <$> es) ++ l) = Some (es, l).
Proof.
  induction es as [|[a b c] es IH]; [done|]. cbn [length get_entries]. rewrite fmap_cons.
  cbn [concat]. unfold put_entry at 1. cbn [ent_source_id ent_name_digest ent_url_digest].
  rewrite <- !app_assoc.
  do 3 (rewrite get_put_str; cbn [mbind option_bind]). by rewrite IH.
Qed.
Lemma get_put_slot b l : get_slot (put_slot b ++ l) = Some (b, l).
Proof.
  destruct b as [[d es]|]; [|done]. unfold put_slot, get_slot. cbn [app bind_entries bind_config_digest].
  pose proof (len_nonneg es). rewrite (proj2 (Z.ltb_ge _ _)) by lia.
  rewrite <- app_assoc, get_put_str. cbn [mbind option_bind]. unfold len. rewrite Nat2Z.id, get_put_entries. done.
Qed.
Lemma toy_roundtrip s : toy_decode (toy_encode s) = Some s.
Proof.
  destruct s as [sch a p]. unfold toy_decode, toy_encode.
  cbn [reg_schema reg_active reg_pending]. rewrite <- (app_nil_r (put_slot p)), get_put_str. cbn [mbind option_bind].
  rewrite get_put_slot. cbn [mbind option_bind]. by rewrite get_put_slot.
Qed.
Definition toy_write (bs : list Z) (_ : DiskNode) : bool * DiskNode :=
  (true, Node true false true (Some bs) (len bs)).
Definition demo_filter : NodeFilter := mkFilter [] [] [] [].
Definition demo_source (name url : string) : UserSource :=
  mkUserSource name true url NetHopGeneric SAuto [] demo_filter.
Definition demo_digest : string :=
  "0123456789abcdef0123456789abcdef0123456789abcdef0123456789abcdef".
Definition demo_snapshot : ConfigSnapshot :=
  mkSnapshot demo_digest Merge [demo_source "a" "https://a/"; demo_source "b" "https://b/"].
Definition swapped_snapshot : ConfigSnapshot :=
  mkSnapshot demo_digest Merge [demo_source "b" "https://b/"; demo_source "a" "https://a/"].
(** Counter entropy: sixteen bytes holding the number of draws so far. *)
Definition counter_fill (n : Z) : Result SourceRegistryError (list Z) * Z :=
  (Ok (replicate 15 0 ++ [n mod 256]), n + 1).

Definition demo_reconcile := reconcile toy_sha toy_encode toy_decode toy_write counter_fill.
Definition demo_run := Eval vm_compute in demo_reconcile demo_snapshot (NotFound, 1).
Definition demo_file : DiskNode := demo_run.2.1.
Definition demo_config : Result SourceRegistryError SourceConfig := demo_run.1.
Definition demo_binding : RegistryBinding :=
  mkBinding demo_digest
    (zip_with (entry_of toy_sha)
       ["src_00000000000000000000000000000001"; "src_00000000000000000000000000000002"]
       (snap_sources demo_snapshot)).

Lemma demo_run_ok : exists c, demo_reconcile demo_snapshot (NotFound, 1) = (Ok c, (demo_file, 3)).
Proof. eexists. vm_compute. reflexivity. Qed.
Lemma toy_write_visible bs d d' :
  toy_write bs d = (true, d') -> d' = Node true false true (Some bs) (len bs).
Proof. by intros [= <-]. Qed.
Lemma len_put_str s l : len (put_str s ++ l) = 1 + str_len s + len l.
Proof.
  rewrite <- (bytes_length s). unfold put_str, len. simpl. rewrite length_app. lia.
Qed.
Lemma len_put_entry e l :
  len (put_entry e ++ l)
  = 3 + str_len (ent_source_id e) + str_len (ent_name_digest e) + str_len (ent_url_digest e) + len l.
Proof. unfold put_entry. rewrite <- !app_assoc, !len_put_str. lia. Qed.
Lemma source_id_short id : is_ok (SourceId_new id) = true -> str_len id <= 128.
Proof. unfold SourceId_new. repeat case_match; try done. intros _. lia. Qed.
Lemma entries_short es l :
  Forall entry_ok es -> len (concat (put_entry <$> es) ++ l) <= 259 * len es + len l.
Proof.
  induction 1 as [|e es (H1 & H2 & H3) _ IH]; [done|]. rewrite fmap_cons. cbn [concat].
  rewrite <- app_assoc, len_put_entry, H2, H3. apply source_id_short in H1.
  unfold len in *. cbn [length]. lia.
Qed.
Lemma slot_short b l : slot_ok b -> len (put_slot b ++ l) <= 4210 + len l.
Proof.
  destruct b as [[cd es]|]; intros Hok; [|unfold len; cbn; lia]. destruct Hok as (Hd & Hn & Hok & _).
  unfold put_slot. cbn [bind_entries bind_config_digest app] in *. rewrite <- app_assoc.
  pose proof (entries_short es l Hok) as He. pose proof (len_put_str cd (concat (put_entry <$> es) ++ l)) as Hp.
  unfold len at 1. cbn [length]. unfold len in Hp at 1. lia.
Qed.
Lemma toy_fits s : registry_ok s -> fits toy_encode s.
Proof.
  intros (Hs & Ha & Hp). unfold fits, toy_encode, MAX_REGISTRY_BYTES. rewrite Hs, len_put_str.
  apply slot_short with (l := put_slot (reg_pending s)) in Ha. apply slot_short with (l := []) in Hp.
  rewrite app_nil_r in Hp. change (str_len REGISTRY_SCHEMA) with 25. change (len []) with 0 in Hp.
  pose proof (len_nonneg (put_slot (reg_active s) ++ put_slot (reg_pending s))). lia.
Qed.
End Demo.

Lemma source_ids_unique_witness :
  exists c, (Demo.demo_reconcile Demo.demo_snapshot (NotFound, 1)).1 = Ok c
            /\ NoDup (src_id <$> sc_sources c) /\ length (sc_sources c) = 2%nat.
Proof.
  set (r := prepare_with_preferred_ids Demo.toy_sha Demo.toy_encode Demo.toy_decode
    Demo.toy_write Demo.counter_fill Demo.demo_snapshot [] (NotFound, 1)).
  destruct r as [[prepared|err] [d' g']] eqn:E; [|vm_compute in E; discriminate E].
  pose proof (source_ids_unique Demo.toy_sha Demo.counter_fill Demo.toy_encode Demo.toy_decode
    Demo.toy_write Demo.demo_snapshot [] NotFound 1 prepared d' g' E) as (Hnd & _ & _).
  vm_compute in E. injection E as <- <- <-.
  eexists. split; [vm_compute; reflexivity|]. split; [exact Hnd|reflexivity].
Defined.

Lemma reconcile_idempotent_witness :
  exists c, Demo.demo_reconcile Demo.demo_snapshot (Demo.demo_file, 77)
            = (Ok c, (Demo.demo_file, 77)).
Proof.
  destruct Demo.demo_run_ok as [c Hc]. exists c.
  refine (reconcile_idempotent Demo.toy_sha Demo.counter_fill Demo.toy_encode Demo.toy_decode
    Demo.toy_write Demo.toy_roundtrip Demo.toy_write_visible Demo.demo_snapshot NotFound 1 c
    Demo.demo_file 3 77 _ Hc).
  intros b Hb _. apply Demo.toy_fits. by split_and!.
Defined.

Lemma source_id_follows_url_witness :
  exists prepared,
    (prepare_with_preferred_ids Demo.toy_sha Demo.toy_encode Demo.toy_decode Demo.toy_write
       Demo.counter_fill Demo.swapped_snapshot [] (Demo.demo_file, 77)).1 = Ok prepared
    /\ Forall2 (same_url Demo.toy_sha (bind_entries Demo.demo_binding))
         (src_id <$> sc_sources (prep_source_config prepared))
         (snap_sources Demo.swapped_snapshot).
Proof.
  assert (NoDup (ent_url_digest <$> bind_entries Demo.demo_binding)) as H1
    by (apply (bool_decide_unpack _); vm_compute; exact I).
  assert (NoDup ((fun s => digest Demo.toy_sha (us_url s))
    <$> snap_sources Demo.swapped_snapshot)) as H2
    by (apply (bool_decide_unpack _); vm_compute; exact I).
  assert (Forall (has_unclaimed_url Demo.toy_sha (bind_entries Demo.demo_binding) ∅)
    (snap_sources Demo.swapped_snapshot)) as H3.
  { apply Forall_cons; split; [split; [reflexivity|]|apply Forall_cons; split;
      [split; [reflexivity|]|apply Forall_nil; exact I]];
      [exists 1%nat|exists 0%nat]; eexists; split; [reflexivity| |reflexivity|];
      (split; [apply not_elem_of_empty|vm_compute; reflexivity]). }
  assert (SourceRegistry_load Demo.toy_decode Demo.demo_file
    = Ok (mkRegistry REGISTRY_SCHEMA (Some Demo.demo_binding) None)) as H4
    by (vm_compute; reflexivity).
  pose proof (source_id_follows_url Demo.toy_sha Demo.counter_fill Demo.toy_encode Demo.toy_decode
    Demo.toy_write Demo.swapped_snapshot Demo.demo_file 77 _ _ H4 eq_refl
    ltac:(vm_compute; reflexivity) ltac:(vm_compute; reflexivity) H1 H2 H3) as H.
  destruct (prepare_with_preferred_ids _ _ _ _ _ _ _ _) as [[prepared|err] [d' g']] eqn:E;
    [|vm_compute in E; discriminate E].
  exists prepared. split; [reflexivity|]. apply H.
Defined.

(** ** The canonical bytes identify a configuration

    [uniquely_decodable f P v]: on values satisfying [P], reading an encoding off
    the front of a byte string determines the view [v] of the value and what is
    left. *)
Definition uniquely_decodable {A B} (f : A -> list Z) (P : A -> Prop) (v : A -> B) : Prop :=
  forall a b l k, P a -> P b -> f a ++ l = f b ++ k -> v a = v b /\ l = k.

Lemma to_be_bytes32_inj m n :
  is_uint 32 m -> is_uint 32 n -> to_be_bytes32 m = to_be_bytes32 n -> m = n.
Proof.
  unfold is_uint, to_be_bytes32. intros Hm Hn [= H1 H2 H3 H4].
  assert (forall x, 0 <= x < 2 ^ 32 ->
    x = 2 ^ 24 * ((x / 2 ^ 24) mod 256) + 2 ^ 16 * ((x / 2 ^ 16) mod 256)
        + 2 ^ 8 * ((x / 2 ^ 8) mod 256) + x mod 256) as Hx.
  { intros x Hx. change (2 ^ 24) with (2 ^ 8 * 2 ^ 8 * 2 ^ 8). change (2 ^ 16) with (2 ^ 8 * 2 ^ 8).
    rewrite <- !Z.div_div by lia. change (2 ^ 8) with 256. change (2 ^ 32) with 4294967296 in Hx.
    pose proof (Z.div_mod x 256 ltac:(lia)). pose proof (Z.div_mod (x / 256) 256 ltac:(lia)).
    pose proof (Z.div_mod (x / 256 / 256) 256 ltac:(lia)).
    assert (x / 256 / 256 / 256 < 256) by (repeat (apply Z.div_lt_upper_bound; [lia|]); lia).
    assert (0 <= x / 256 / 256 / 256) by (repeat (apply Z.div_pos; [|lia]); lia).
    rewrite (Z.mod_small (x / 256 / 256 / 256) 256) by lia. lia. }
  rewrite (Hx m Hm), (Hx n Hn), H1, H2, H3, H4. done.
Qed.

Definition short {A} (l : list A) : Prop := len l < 2 ^ 32.

Lemma be_len_app {A B} (a : list A) (b : list B) l k :
  short a -> short b -> be_len a ++ l = be_len b ++ k -> length a = length b /\ l = k.
Proof.
  unfold short, be_len. intros Ha Hb H. apply app_inj_1 in H as [H ->]; [|done].
  pose proof (len_nonneg a). pose proof (len_nonneg b).
  rewrite !cast_u_small in H by (split; lia). apply to_be_bytes32_inj in H; [|split; lia..].
  unfold len in H. split; [lia|done].
Qed.

Lemma push_field_decodable : uniquely_decodable push_field short id.
Proof.
  intros a b l k Ha Hb. unfold push_field. rewrite <- !app_assoc. intros H.
  apply be_len_app in H as [Hlen H]; [|done..]. by apply app_inj_1 in H.
Qed.

Lemma push_string_decodable {A} (g : A -> string) :
  uniquely_decodable (fun a => push_field (bytes (g a))) (fun a => short (bytes (g a))) g.
Proof.
  intros a b l k Ha Hb H. apply push_field_decodable in H as [H ->]; [|done..].
  by apply bytes_inj in H.
Qed.

Lemma push_byte_decodable {A} (code : A -> Z) (Hinj : forall a b, code a = code b -> a = b) :
  uniquely_decodable (fun a => [code a]) (fun _ => True) id.
Proof. intros a b l k _ _ [= H ->]. split; [by apply Hinj|done]. Qed.

Lemma concat_decodable {A B} (f : A -> list Z) (P : A -> Prop) (v : A -> B) (n : nat) l k x y :
  uniquely_decodable f P v -> length x = n -> length y = n -> Forall P x -> Forall P y ->
  concat (f <$> x) ++ l = concat (f <$> y) ++ k -> v <$> x = v <$> y /\ l = k.
Proof.
  intros Hf. revert x y. induction n as [|n IH]; intros [|a x] [|b y]; try done.
  intros Hx Hy Px Py H. apply Forall_cons in Px as [Pa Px]. apply Forall_cons in Py as [Pb Py].
  rewrite !fmap_cons in H. cbn [concat] in H. rewrite <- !app_assoc in H.
  apply Hf in H as [Hv H]; [|done..]. simpl in Hx, Hy.
  destruct (IH x y) as [Hr ->]; [lia|lia|done..|]. by rewrite !fmap_cons, Hv, Hr.
Qed.

Lemma push_list_decodable {A B} (f : A -> list Z) (P : A -> Prop) (v : A -> B) :
  uniquely_decodable f P v ->
  uniquely_decodable (push_list f) (fun x => short x /\ Forall P x) (fmap v).
Proof.
  intros Hf x y l k [Hx Px] [Hy Py]. unfold push_list. rewrite <- !app_assoc. intros H.
  apply be_len_app in H as [Hlen H]; [|done..]. by eapply concat_decodable.
Qed.

Section canonical.
Context (sha256_hex : list Z -> string).

(** The fields the digest covers: names and the URL and mirrors beyond their
    SHA-256 are not among them. *)
Definition source_identity (s : SourceDefinition) :=
  (src_id s, src_enabled s, digest sha256_hex (src_url s), src_expected_format s,
   src_request_profile s, digest sha256_hex <$> src_mirrors s, include_names (src_filter s),
   exclude_names (src_filter s), excluded_node_ids (src_filter s), protocols (src_filter s)).

Definition short_strings (l : list string) : Prop :=
  short l /\ Forall (fun x => short (bytes x)) l.
Record short_source (s : SourceDefinition) : Prop := {
  short_id : short (bytes (src_id s));
  short_url : short (bytes (digest sha256_hex (src_url s)));
  short_mirrors : short (src_mirrors s)
    /\ Forall (fun m => short (bytes (digest sha256_hex m))) (src_mirrors s);
  short_include : short_strings (include_names (src_filter s));
  short_exclude : short_strings (exclude_names (src_filter s));
  short_excluded : short_strings (excluded_node_ids (src_filter s));
  short_protocols : short (protocols (src_filter s));
}.

Lemma canonical_source_decodable :
  uniquely_decodable (canonical_source sha256_hex) short_source source_identity.
Proof.
  intros s t l k Hs Ht. unfold canonical_source. rewrite <- !app_assoc. intros H.
  apply (push_string_decodable src_id) in H as [E1 H]; [|apply short_id..]; try done.
  apply (app_inj_1 [_] [_]) in H as [E2 H]; [|done].
  apply (push_string_decodable (fun s => digest sha256_hex (src_url s))) in H as [E3 H];
    [|apply short_url..]; try done.
  apply (app_inj_1 [_] [_]) in H as [E4 H]; [|done].
  apply (app_inj_1 [_] [_]) in H as [E5 H]; [|done].
  apply (push_list_decodable _ _ _ (push_string_decodable (digest sha256_hex))) in H as [E6 H];
    [|apply short_mirrors..]; try done.
  apply (push_list_decodable _ _ _ (push_string_decodable id)) in H as [E7 H];
    [|apply short_include..]; try done.
  apply (push_list_decodable _ _ _ (push_string_decodable id)) in H as [E8 H];
    [|apply short_exclude..]; try done.
  apply (push_list_decodable _ _ _ (push_string_decodable id)) in H as [E9 H];
    [|apply short_excluded..]; try done.
  apply (push_list_decodable _ _ _ (push_byte_decodable protocol_code
    ltac:(by intros [] []))) in H as [E10 ->];
    [|split; [by apply short_protocols|by apply Forall_true]..].
  rewrite !list_fmap_id in E7. rewrite !list_fmap_id in E8. rewrite !list_fmap_id in E9.
  rewrite !list_fmap_id in E10. split; [|done]. unfold source_identity.
  assert (src_enabled s = src_enabled t) as -> by (by destruct (src_enabled s), (src_enabled t)).
  assert (src_expected_format s = src_expected_format t) as ->
    by (by destruct (src_expected_format s), (src_expected_format t)).
  assert (src_request_profile s = src_request_profile t) as ->
    by (by destruct (src_request_profile s), (src_request_profile t)).
  by rewrite E1, E3, E6, E7, E8, E9, E10.
Qed.

Lemma canonical_source_identity s t :
  source_identity s = source_identity t -> canonical_source sha256_hex s = canonical_source sha256_hex t.
Proof.
  unfold source_identity, canonical_source. intros [= E1 E2 E3 E4 E5 E6 E7 E8 E9 E10].
  assert (push_list (fun m => push_field (bytes (digest sha256_hex m))) (src_mirrors s)
    = push_list (fun m => push_field (bytes (digest sha256_hex m))) (src_mirrors t)) as Hm.
  { assert (forall x, push_list (fun m => push_field (bytes (digest sha256_hex m))) x
      = push_list (fun d => push_field (bytes d)) (digest sha256_hex <$> x)) as Hx.
    { intros x. unfold push_list, be_len, len. rewrite length_fmap. f_equal. f_equal.
      by rewrite <- list_fmap_compose. }
    by rewrite !Hx, E6. }
  by rewrite E1, E2, E3, E4, E5, Hm, E7, E8, E9, E10.
Qed.

Lemma canonical_sources_inj srcs srcs' :
  Forall short_source srcs -> Forall short_source srcs' ->
  concat (canonical_source sha256_hex <$> srcs) = concat (canonical_source sha256_hex <$> srcs') ->
  source_identity <$> srcs = source_identity <$> srcs'.
Proof.
  revert srcs'. induction srcs as [|s srcs IH]; intros [|t srcs'] Hs Ht H; try done.
  apply Forall_cons in Hs as [Ps Hs]. apply Forall_cons in Ht as [Pt Ht].
  rewrite !fmap_cons in H. cbn [concat] in H.
  apply canonical_source_decodable in H as [Hv H]; [|done..].
  by rewrite !fmap_cons, Hv, (IH srcs').
Qed.

(** The canonical byte string behind [source_config_digest] is a faithful
    encoding: two configurations (field lengths below 2^32) have the same bytes
    exactly when they have the same mode and the same sources in the same order,
    compared on identifier, enabled flag, URL and mirror digests, format,
    request profile and filter.  No two different configurations run into each
    other by concatenation, so the digest changes whenever one of these does, up
    to SHA-256 collisions. *)
Theorem canonical_config_faithful mode mode' srcs srcs' :
  Forall short_source srcs -> Forall short_source srcs' ->
  canonical_config sha256_hex mode srcs = canonical_config sha256_hex mode' srcs' <->
  mode = mode' /\ source_identity <$> srcs = source_identity <$> srcs'.
Proof.
  intros Hs Ht. unfold canonical_config. split.
  - intros H. apply app_inv_head in H. apply (app_inv_head [0]) in H.
    apply (app_inj_1 [_] [_]) in H as [Hm H]; [|done]. split.
    + by destruct mode, mode'.
    + by apply canonical_sources_inj.
  - intros [-> H]. do 3 f_equal. clear Hs Ht. revert srcs' H.
    induction srcs as [|s srcs IH]; intros [|t srcs'] H; try done.
    rewrite !fmap_cons in *. apply (app_inj_1 [_] [_]) in H as [Hi H]; [|done].
    apply (f_equal head) in Hi. apply (inj Some) in Hi. cbn [concat].
    by rewrite (canonical_source_identity s t), (IH srcs').
Qed.
End canonical.

Lemma demo_source_short i n u :
  short (bytes i) -> short_source Demo.toy_sha (source_definition i (Demo.demo_source n u)).
Proof.
  assert (forall A (P : A -> Prop), short (@nil A) /\ Forall P []) as Hnil
    by (intros; split; [reflexivity|constructor]).
  intros Hi. constructor; [exact Hi| |apply Hnil..|reflexivity].
  unfold short. rewrite bytes_length. reflexivity.
Qed.

Lemma canonical_config_faithful_witness :
  let a := source_definition "x" (Demo.demo_source "a" "u") in
  let b := source_definition "y" (Demo.demo_source "b" "v") in
  canonical_config Demo.toy_sha Merge [a; b] <> canonical_config Demo.toy_sha Merge [b; a].
Proof.
  intros a b H.
  assert (forall l, (forall s, s ∈ l -> s = a \/ s = b) -> Forall (short_source Demo.toy_sha) l) as Hs.
  { intros l Hl. apply Forall_forall. intros s [-> | ->]%Hl; apply demo_source_short; reflexivity. }
  apply canonical_config_faithful in H as [_ H]; [discriminate H|apply Hs; set_solver..].
Defined.
