(* ===== verification/AutoUpdate.v ===== *)
(** * AutoUpdate: background update schedules

    Models crates/nethopd/src/auto_update.rs: the schedules of the resource
    updates (core version, rule sets) and of the subscription sources, on top of
    the scheduler engine.  [wall_seconds] reads the system clock: each operation
    takes what the clock shows, as the time since the epoch ([None] before it). *)

From S2P Require Import Prelude Ordering BTreeMap Scheduler Source.

Local Open Scope Z_scope.

Definition CORE_VERSION_SCHEDULE_KEY : string := "resource:sing-box-version".
Definition RULE_SET_SCHEDULE_KEY : string := "resource:rulesets".

Definition wall_seconds (since_epoch : option Z) : Result SchedulerError Z :=
  match since_epoch with
  | Some secs => if secs <=? i64_max then Ok secs else Err InvalidWallTime
  | None => Err InvalidWallTime
  end.

(** [i64::saturating_sub] turned into a [Duration], zero when negative. *)
Definition wait_until (next_run now : Z) : Z :=
  let d := sat_sub_i64 next_run now in from_secs (if d <? 0 then 0 else d).

Section schedules.
Context {S : Type} `{!ScheduleStore S}.

(** ** One resource *)
Record PersistentResourceSchedule : Type := mkResourceSchedule {
  rs_engine : SchedulerEngine S;
  rs_key : ScheduleKey;
}.

Definition ResourceSchedule_load (s : S) (key : string) (clock : option Z) :
    Result SchedulerError PersistentResourceSchedule :=
  e ← SchedulerEngine_load s SchedulePolicy_default;
  k ← ScheduleKey_new key;
  now ← wall_seconds clock;
  match SchedulerEngine_ensure k now e with
  | (Ok _, e') => Ok (mkResourceSchedule e' k)
  | (Err err, _) => Err err
  end.

Definition ResourceSchedule_next_wakeup_in (r : PersistentResourceSchedule)
    (clock : option Z) : option Z :=
  match wall_seconds clock with
  | Err _ => None
  | Ok now =>
      (fun rec => wait_until (next_run_wall_seconds rec) now)
        <$> SchedulerEngine_record (rs_engine r) (rs_key r)
  end.

Definition key_eqb (a b : ScheduleKey) : bool := String.eqb (as_str a) (as_str b).

Definition ResourceSchedule_take_due (clock : option Z) :
    Mut PersistentResourceSchedule SchedulerError bool := fun r =>
  match wall_seconds clock with
  | Err err => (Err err, r)
  | Ok now =>
      let (res, e') := SchedulerEngine_due now (rs_engine r) in
      (ks ← res; Ok (existsb (fun k => key_eqb k (rs_key r)) ks), mkResourceSchedule e' (rs_key r))
  end.

Definition ResourceSchedule_record_result (succeeded : bool) (clock : option Z) :
    Mut PersistentResourceSchedule SchedulerError unit := fun r =>
  match wall_seconds clock with
  | Err err => (Err err, r)
  | Ok now =>
      let (res, e') :=
        if succeeded then mark_success (rs_key r) now (rs_engine r)
        else mark_failure (rs_key r) now (rs_engine r) in
      (res, mkResourceSchedule e' (rs_key r))
  end.

Definition CoreVersionSchedule_load (s : S) := ResourceSchedule_load s CORE_VERSION_SCHEDULE_KEY.
Definition RuleSetSchedule_load (s : S) := ResourceSchedule_load s RULE_SET_SCHEDULE_KEY.

(** ** The subscription sources *)
Record PersistentUpdateSchedule : Type := mkUpdateSchedule {
  up_engine : SchedulerEngine S;
  up_enabled : bool;
  up_keys : list ScheduleKey;
  up_pending : list ScheduleKey;
}.

Definition UpdateSchedule_load (s : S) : Result SchedulerError PersistentUpdateSchedule :=
  e ← SchedulerEngine_load s SchedulePolicy_default;
  Ok (mkUpdateSchedule e false [] []).

Definition configured_policy (interval_hours : Z) : Result SchedulerError SchedulePolicy :=
  let interval := interval_hours * 60 * 60 in
  SchedulePolicy_new interval (60 * 60) (Z.min interval (24 * 60 * 60))
    (Z.min (15 * 60) (Z.quot interval 2)).

Fixpoint collect_keys (ids : list string) : Result SchedulerError (list ScheduleKey) :=
  match ids with
  | [] => Ok []
  | id :: rest => k ← ScheduleKey_new id; ks ← collect_keys rest; Ok (k :: ks)
  end.

Fixpoint ensure_all (keys : list ScheduleKey) (now : Z) :
    Mut (SchedulerEngine S) SchedulerError unit :=
  match keys with
  | [] => mret tt
  | k :: rest => SchedulerEngine_ensure k now ≫= fun _ => ensure_all rest now
  end.

Definition UpdateSchedule_configure (enabled : bool) (interval_hours : Z)
    (sources : SourceConfig) (clock : option Z) :
    Mut PersistentUpdateSchedule SchedulerError unit := fun u =>
  match configured_policy interval_hours with
  | Err err => (Err err, u)
  | Ok p =>
      let engine := set_policy (up_engine u) p in
      match collect_keys (src_id <$> active_sources sources) with
      | Err err => (Err err, mkUpdateSchedule engine enabled (up_keys u) [])
      | Ok keys =>
          match wall_seconds clock with
          | Err err => (Err err, mkUpdateSchedule engine enabled keys [])
          | Ok now =>
              let (res, engine') := ensure_all keys now engine in
              (res, mkUpdateSchedule engine' enabled keys [])
          end
      end
  end.

Definition dormant (u : PersistentUpdateSchedule) : bool :=
  negb (up_enabled u) || (len (up_keys u) =? 0) || negb (len (up_pending u) =? 0).

Definition min_list (l : list Z) : option Z :=
  match l with [] => None | x :: rest => Some (fold_left Z.min rest x) end.

Definition UpdateSchedule_next_wakeup_in (u : PersistentUpdateSchedule) (clock : option Z) :
    option Z :=
  if dormant u then None
  else
    match wall_seconds clock with
    | Err _ => None
    | Ok now =>
        min_list ((fun rec => wait_until (next_run_wall_seconds rec) now)
                    <$> omap (SchedulerEngine_record (up_engine u)) (up_keys u))
    end.

Definition contains_key (keys : list ScheduleKey) (k : ScheduleKey) : bool :=
  existsb (key_eqb k) keys.

Definition UpdateSchedule_take_due (clock : option Z) :
    Mut PersistentUpdateSchedule SchedulerError bool := fun u =>
  if dormant u then (Ok false, u)
  else
    match wall_seconds clock with
    | Err err => (Err err, u)
    | Ok now =>
        let (res, e') := SchedulerEngine_due now (up_engine u) in
        match res with
        | Err err => (Err err, mkUpdateSchedule e' (up_enabled u) (up_keys u) (up_pending u))
        | Ok due =>
            let pending := List.filter (contains_key (up_keys u)) due in
            (Ok (negb (len pending =? 0)),
             mkUpdateSchedule e' (up_enabled u) (up_keys u) pending)
        end
    end.

(** [for key in pending.drain(..)]: an error leaves the loop, and dropping the
    drain empties the vector all the same. *)
Fixpoint mark_all (keys : list ScheduleKey) (succeeded : bool) (now : Z) :
    Mut (SchedulerEngine S) SchedulerError unit :=
  match keys with
  | [] => mret tt
  | k :: rest =>
      (if succeeded then mark_success k now else mark_failure k now)
        ≫= fun _ => mark_all rest succeeded now
  end.

Definition UpdateSchedule_record_result (succeeded : bool) (clock : option Z) :
    Mut PersistentUpdateSchedule SchedulerError unit := fun u =>
  match wall_seconds clock with
  | Err err => (Err err, u)
  | Ok now =>
      let (res, e') := mark_all (up_pending u) succeeded now (up_engine u) in
      (res, mkUpdateSchedule e' (up_enabled u) (up_keys u) [])
  end.
End schedules.
Arguments PersistentResourceSchedule : clear implicits.
Arguments PersistentUpdateSchedule : clear implicits.

(** ** Policies *)

(** What [configure] promises the scheduler: a valid policy whose jitter cannot
    cancel the delay it is added to. *)
Record steady_policy (p : SchedulePolicy) : Prop := {
  steady_ok : policy_ok p;
  steady_backoff : jitter_seconds p < failure_backoff_seconds p;
  steady_interval : jitter_seconds p < interval_seconds p;
}.

Lemma configured_policy_spec h :
  0 <= h < 2 ^ 16 ->
  match configured_policy h with
  | Ok p => 1 <= h /\ steady_policy p /\ interval_seconds p = h * 3600
            /\ max_backoff_seconds p <= 86400
  | Err err => h = 0 /\ err = InvalidPolicy
  end.
Proof.
  intros Hh. destruct (Z.eq_dec h 0) as [->|Hne]; [done|].
  assert (configured_policy h = Ok (mkPolicy (h * 60 * 60) 3600 (Z.min (h * 60 * 60) 86400)
    (Z.min 900 (Z.quot (h * 60 * 60) 2)))) as ->.
  { unfold configured_policy, SchedulePolicy_new.
    assert (2 <= Z.quot (h * 60 * 60) 2) as Hq
      by (rewrite Z.quot_div_nonneg by lia; apply Z.div_le_lower_bound; lia).
    rewrite (proj2 (Z.leb_gt _ _)) by lia. rewrite (proj2 (Z.leb_gt _ _)) by lia.
    rewrite !(proj2 (Z.ltb_ge _ _)) by lia. done. }
  rewrite Z.quot_div_nonneg by lia. split; [lia|]. simpl. unfold i64_max.
  pose proof (Z.mul_div_le (h * 60 * 60) 2 ltac:(lia)).
  pose proof (Z.div_pos (h * 60 * 60) 2 ltac:(lia) ltac:(lia)).
  split; [|split; lia]. split; simpl; [split; simpl; unfold i64_max|..]; lia.
Qed.

Lemma updated_record_future p key r now failure :
  steady_policy p -> 0 <= now ->
  now + Z.max (interval_seconds p) (max_backoff_seconds p) <= i64_max ->
  now < next_run_wall_seconds (updated_record p key r now failure).
Proof.
  intros [Hok Hb Hi] Hn Hmax. pose proof (ok_jitter _ Hok) as Hj.
  pose proof (stable_jitter_range (as_str key) (jitter_seconds p) ltac:(lia)) as Hjr.
  pose proof (ok_backoff _ Hok). pose proof (ok_max_backoff _ Hok). pose proof (ok_interval _ Hok).
  unfold updated_record. cbn [next_run_wall_seconds].
  set (base := if failure then _ else _).
  assert (jitter_seconds p < base <= Z.max (interval_seconds p) (max_backoff_seconds p)) as Hbase.
  { subst base. destruct failure; [|lia].
    set (n := Z.min (sat_add_u 32 (failure_count r) 1) MAX_FAILURES).
    pose proof (backoff_base_bounds p n Hok). pose proof (backoff_base_ge p n Hok). lia. }
  unfold sat_add_i64, clamp_i64, i64_min, i64_max in *. lia.
Qed.

(** ** Due sources *)
Section due.
Context {S : Type} `{HS : !ScheduleStore S}.
Implicit Types (u : PersistentUpdateSchedule S) (e : SchedulerEngine S).

Lemma key_eqb_eq a b : key_eqb a b = true <-> a = b.
Proof.
  unfold key_eqb. rewrite String.eqb_eq. destruct a, b. simpl. naive_solver.
Qed.
Lemma contains_key_spec ks k : contains_key ks k = true <-> k ∈ ks.
Proof.
  unfold contains_key. rewrite existsb_exists, list_elem_of_In. split.
  - intros (x & Hx & ->%key_eqb_eq). done.
  - intros Hk. exists k. split; [done|]. by apply key_eqb_eq.
Qed.

Lemma fold_min_spec l x :
  let m := fold_left Z.min l x in m ∈ x :: l /\ forall y, y ∈ x :: l -> m <= y.
Proof.
  revert x. induction l as [|z l IH]; intros x; simpl.
  { split; [by left|]. intros y Hy. apply list_elem_of_singleton in Hy. lia. }
  destruct (IH (Z.min x z)) as [H1 H2]. split.
  - apply elem_of_cons in H1 as [H1|H1]; [|by right; right].
    destruct (Z.min_spec x z) as [[_ E]|[_ E]]; rewrite E in *; rewrite H1; set_solver.
  - intros y Hy. pose proof (H2 (Z.min x z) ltac:(by left)).
    apply elem_of_cons in Hy as [->|Hy]; [lia|].
    apply elem_of_cons in Hy as [->|Hy]; [lia|]. apply H2. by right.
Qed.
Lemma min_list_spec l m : min_list l = Some m -> m ∈ l /\ forall y, y ∈ l -> m <= y.
Proof. destruct l as [|x l]; [done|]. intros [= <-]. apply fold_min_spec. Qed.

Lemma due_pending e now ks :
  bt_wf (records e) -> keyed (records e) ->
  (SchedulerEngine_due now e).1 = Ok ks ->
  forall k, k ∈ ks <-> exists r, SchedulerEngine_record e k = Some r /\ next_run_wall_seconds r <= now.
Proof.
  intros Hwf Hk. unfold SchedulerEngine_due. case_match; [|done].
  pose proof (due_loop_spec now _ Hk) as Hspec. destruct (due_loop now (records e)) as [res m'].
  simpl in *. intros -> k. destruct Hspec as (_ & -> & _). unfold bt_keys, SchedulerEngine_record.
  rewrite list_elem_of_fmap. split.
  - intros ([k' r] & -> & Hin). apply list_elem_of_filter in Hin as [Hd Hin]. exists r.
    split; [by apply bt_elem_of_get|done].
  - intros (r & Hr & Hd). apply bt_get_elem_of in Hr. exists (k, r). split; [done|].
    by apply list_elem_of_filter.
Qed.

Lemma wait_until_reached next now now' :
  0 <= next <= i64_max -> 0 <= now <= now' ->
  wait_until next now <= from_secs (now' - now) <-> next <= now'.
Proof.
  intros Hn Hnow. unfold wait_until, sat_sub_i64, from_secs, NANOS_PER_SEC. cbv zeta.
  unfold clamp_i64, i64_min, i64_max in *.
  destruct (Z.ltb_spec (Z.max (- 2 ^ 63) (Z.min (next - now) (2 ^ 63 - 1))) 0); lia.
Qed.

(** The announced wake-up is exact.  If at wall time [now] the schedule
    announces a wake-up in [d], then asking at any later time [now'], with no
    call in between, finds work exactly when [now' - now >= d]: the daemon
    neither wakes too early nor sleeps past a due source. *)
Theorem update_wakeup_exact u now now' d :
  bt_wf (records (up_engine u)) -> keyed (records (up_engine u)) ->
  Forall (fun kr => 0 <= next_run_wall_seconds kr.2 <= i64_max
                    /\ last_observed_wall_seconds kr.2 <= now) (records (up_engine u)) ->
  0 <= now <= now' -> now' <= i64_max ->
  UpdateSchedule_next_wakeup_in u (Some now) = Some d ->
  (UpdateSchedule_take_due (Some now') u).1 = Ok (bool_decide (d <= from_secs (now' - now))).
Proof.
  intros Hwf Hk Hall Hnow Hmax. unfold UpdateSchedule_next_wakeup_in, UpdateSchedule_take_due.
  destruct (dormant u); [done|]. unfold wall_seconds.
  rewrite !(proj2 (Z.leb_le _ _)) by lia. intros (Hin & Hmin)%min_list_spec.
  pose proof (due_loop_spec now' _ Hk) as Hspec.
  destruct (SchedulerEngine_due now' (up_engine u)) as [res e'] eqn:E.
  assert (exists ks, res = Ok ks) as [ks ->].
  { unfold SchedulerEngine_due, validate_wall_time in E.
    rewrite (proj2 (Z.leb_le 0 now')) in E by lia.
    destruct (due_loop now' (records (up_engine u))) as [res0 m]. injection E as -> _. simpl in Hspec.
    destruct res as [ks|]; [by eexists|]. destruct Hspec as [_ []].
    eapply Forall_impl; [exact Hall|]. intros [k r] [_ ?]. unfold observed_by. simpl in *. lia. }
  pose proof (due_pending _ now' ks Hwf Hk) as Hdue. rewrite E in Hdue. specialize (Hdue eq_refl).
  simpl. f_equal. apply eq_true_iff_eq. rewrite negb_true_iff, Z.eqb_neq, bool_decide_eq_true.
  assert (forall k r, SchedulerEngine_record (up_engine u) k = Some r ->
    wait_until (next_run_wall_seconds r) now <= from_secs (now' - now)
    <-> next_run_wall_seconds r <= now') as Hreach.
  { intros k r Hr. apply wait_until_reached; [|lia]. apply bt_get_elem_of in Hr.
    rewrite Forall_forall in Hall. by apply (Hall (k, r)). }
  split.
  - intros Hne. destruct (List.filter _ ks) as [|k rest] eqn:Ef; [done|].
    assert (k ∈ List.filter (contains_key (up_keys u)) ks) as Hin' by (rewrite Ef; by left).
    apply list_elem_of_In, filter_In in Hin' as [H1%list_elem_of_In H2%contains_key_spec].
    apply Hdue in H1 as (r & Hr & Hle). etransitivity; [|by apply (Hreach k r)].
    apply Hmin, list_elem_of_fmap. exists r. split; [done|]. apply list_elem_of_omap. eauto.
  - intros Hle. apply list_elem_of_fmap in Hin as (r & -> & (k & Hkin & Hr)%list_elem_of_omap).
    apply (Hreach k r Hr) in Hle.
    assert (k ∈ List.filter (contains_key (up_keys u)) ks) as Hin'.
    { apply list_elem_of_In, filter_In. split; [apply list_elem_of_In, Hdue; eauto|].
      by apply contains_key_spec. }
    destruct (List.filter _ ks); [by apply elem_of_nil in Hin'|]. unfold len. simpl. lia.
Qed.

(** *** Recording results *)
Lemma update_ok key now failure e e' res :
  SchedulerEngine_update key now failure e = (Ok res, e') ->
  0 <= now /\ policy e' = policy e
  /\ exists r, bt_get key (records e) = Some r
     /\ records e' = bt_insert key (updated_record (policy e) key r now failure) (records e).
Proof.
  unfold SchedulerEngine_update, validate_wall_time. destruct (Z.leb_spec 0 now); [|done].
  destruct (bt_get key (records e)) as [r|]; [|done]. case_match; [done|]. cbv zeta.
  destruct (store_save _ _) as [[]]; intros [= <- <-]; simpl; eauto 6.
Qed.

Definition postponed (now : Z) (m : BTreeMap ScheduleKey ScheduleRecord) (k : ScheduleKey) : Prop :=
  exists r, bt_get k m = Some r /\ now < next_run_wall_seconds r.

Lemma mark_all_postpones keys succeeded now e e' :
  bt_wf (records e) -> keyed (records e) -> steady_policy (policy e) ->
  now + Z.max (interval_seconds (policy e)) (max_backoff_seconds (policy e)) <= i64_max ->
  mark_all keys succeeded now e = (Ok tt, e') ->
  bt_wf (records e') /\ keyed (records e')
  /\ (forall k, k ∈ keys -> postponed now (records e') k)
  /\ (forall k, postponed now (records e) k -> postponed now (records e') k).
Proof.
  revert e. induction keys as [|k keys IH]; intros e Hwf Hk Hp Hmax; cbn [mark_all].
  { intros [= <-]. repeat split; auto. intros k Hin. by apply elem_of_nil in Hin. }
  unfold mbind, Mut_bind.
  replace ((if succeeded then mark_success k now else mark_failure k now) e)
    with (SchedulerEngine_update k now (negb succeeded) e) by (by destruct succeeded).
  destruct (SchedulerEngine_update k now (negb succeeded) e) as [[[]|] e1] eqn:E; [|done].
  apply update_ok in E as (Hn & Hpol & r & Hr & Hrec). intros Hrest.
  set (r' := updated_record (policy e) k r now (negb succeeded)) in *.
  assert (rec_key r' = k) as Hrk by exact (keyed_get _ _ _ Hk Hr).
  assert (now < next_run_wall_seconds r') as Hfut by (by apply updated_record_future).
  destruct (IH e1) as (H1 & H2 & H3 & H4); try rewrite Hpol; try rewrite Hrec; auto using bt_insert_wf.
  { rewrite <- Hrk. by apply keyed_insert. }
  assert (forall k0, k0 = k \/ postponed now (records e) k0 -> postponed now (records e1) k0) as Hstep.
  { intros k0 Hk0. rewrite Hrec. unfold postponed. rewrite bt_get_insert by done.
    destruct (decide (k0 = k)); [eauto|]. destruct Hk0; [done|by unfold postponed in *]. }
  repeat split; auto. intros k0 Hin. apply elem_of_cons in Hin as [->|Hin]; auto.
Qed.

(** A recorded result settles its batch.  When [record_result] succeeds at
    [now] under a configured policy (success or failure alike), nothing stays
    pending, every source of the batch has its next run strictly in the future,
    and asking for due work again at the same time brings none of them back. *)
Theorem update_no_immediate_rerun u u' succeeded now :
  bt_wf (records (up_engine u)) -> keyed (records (up_engine u)) ->
  steady_policy (policy (up_engine u)) ->
  now + Z.max (interval_seconds (policy (up_engine u)))
          (max_backoff_seconds (policy (up_engine u))) <= i64_max ->
  UpdateSchedule_record_result succeeded (Some now) u = (Ok tt, u') ->
  up_pending u' = []
  /\ (forall k, k ∈ up_pending u -> postponed now (records (up_engine u')) k)
  /\ (forall k, k ∈ up_pending u -> k ∉ up_pending (UpdateSchedule_take_due (Some now) u').2).
Proof.
  intros Hwf Hk Hp Hmax. unfold UpdateSchedule_record_result.
  destruct (wall_seconds (Some now)) as [t|] eqn:Ew; [|done].
  assert (t = now) as ->.
  { unfold wall_seconds in Ew. case_match; [|done]. by injection Ew as <-. }
  destruct (mark_all _ _ _ _) as [res e'] eqn:E. intros [= -> <-]. simpl.
  apply mark_all_postpones in E as (H1 & H2 & H3 & _); [|done..].
  split; [done|]. split; [done|]. intros k Hin. unfold UpdateSchedule_take_due.
  case_match; [set_solver|]. rewrite Ew. simpl.
  destruct (SchedulerEngine_due now e') as [[due|] e''] eqn:Ed; simpl; [|set_solver].
  intros Hf. apply list_elem_of_In, filter_In in Hf as [Hf%list_elem_of_In _].
  pose proof (due_pending e' now due H1 H2) as Hdue. rewrite Ed in Hdue.
  apply (Hdue eq_refl) in Hf as (r & Hr & Hle). destruct (H3 _ Hin) as (r' & Hr' & Hlt).
  unfold SchedulerEngine_record in Hr. rewrite Hr in Hr'. injection Hr' as ->. lia.
Qed.

(** *** One batch at a time *)
Inductive up_step : PersistentUpdateSchedule S -> PersistentUpdateSchedule S -> Prop :=
| step_configure u enabled hours sources clock :
    up_step u (UpdateSchedule_configure enabled hours sources clock u).2
| step_take_due u clock : up_step u (UpdateSchedule_take_due clock u).2
| step_record_result u succeeded clock :
    up_step u (UpdateSchedule_record_result succeeded clock u).2.

Definition up_inv u : Prop :=
  up_pending u ⊆ up_keys u /\ (up_pending u <> [] -> up_enabled u = true).

Lemma up_step_inv u u' : up_inv u -> up_step u u' -> up_inv u'.
Proof.
  intros [H1 H2]. destruct 1 as [u en h src clock|u clock|u ok clock].
  - unfold UpdateSchedule_configure. repeat case_match; simpl; done || by split; [apply list_subseteq_nil|].
  - unfold UpdateSchedule_take_due. destruct (dormant u) eqn:Ed; [done|].
    unfold dormant in Ed. apply orb_false_iff in Ed as [[Een _]%orb_false_iff _].
    apply negb_false_iff in Een. repeat case_match; simplify_eq/=; try done.
    split; [|done]. intros k Hk. apply list_elem_of_In, filter_In in Hk as [_ Hk].
    by apply contains_key_spec.
  - unfold UpdateSchedule_record_result. repeat case_match; simpl; done || by split; [apply list_subseteq_nil|].
Qed.

Lemma up_steps_inv u u' : up_inv u -> rtc up_step u u' -> up_inv u'.
Proof. intros Hi Hr. induction Hr; eauto using up_step_inv. Qed.

(** One batch at a time.  However the schedule has been driven since it was
    loaded, errors included, the batch in flight is made of configured sources
    of an enabled schedule; while one is in flight no wake-up is announced and
    [take_due] starts nothing and changes nothing; and the batch ends with the
    next [record_result] whose clock is readable, whether or not recording
    succeeds. *)
Theorem update_single_flight s u0 u :
  UpdateSchedule_load s = Ok u0 ->
  rtc up_step u0 u ->
  up_pending u ⊆ up_keys u
  /\ (up_pending u <> [] ->
       up_enabled u = true
       /\ forall clock, UpdateSchedule_take_due clock u = (Ok false, u)
                        /\ UpdateSchedule_next_wakeup_in u clock = None)
  /\ (forall succeeded clock, is_ok (wall_seconds clock) = true ->
       up_pending (UpdateSchedule_record_result succeeded clock u).2 = []).
Proof.
  intros Hl Hr. assert (up_inv u0) as Hi0.
  { unfold UpdateSchedule_load in Hl. destruct (SchedulerEngine_load _ _); [|done].
    injection Hl as <-. by split; [apply list_subseteq_nil|]. }
  destruct (up_steps_inv _ _ Hi0 Hr) as [H1 H2]. split; [done|]. split.
  - intros Hp. split; [auto|]. intros clock.
    assert (dormant u = true) as Hd.
    { unfold dormant. destruct (up_pending u); [done|]. unfold len at 2. simpl. apply orb_true_r. }
    unfold UpdateSchedule_take_due, UpdateSchedule_next_wakeup_in. by rewrite Hd.
  - intros ok clock Hc. unfold UpdateSchedule_record_result.
    destruct (wall_seconds clock); [|done]. by destruct (mark_all _ _ _ _).
Qed.
End due.

(** [configure] accepts every interval of at least one hour a [u16] can
    express and turns it into a policy whose retries and refreshes are always
    strictly later than the attempt (the jitter stays below both delays); an
    interval of zero hours is refused and leaves the schedule as it was. *)
Theorem update_configure_policy {S} `{ScheduleStore S} (u : PersistentUpdateSchedule S)
    enabled hours sources clock :
  0 <= hours < 2 ^ 16 ->
  let '(res, u') := UpdateSchedule_configure enabled hours sources clock u in
  if hours =? 0 then res = Err InvalidPolicy /\ u' = u
  else steady_policy (policy (up_engine u'))
       /\ interval_seconds (policy (up_engine u')) = hours * 3600
       /\ max_backoff_seconds (policy (up_engine u')) <= 86400
       /\ up_pending u' = [] /\ up_enabled u' = enabled.
Proof.
  intros Hh. pose proof (configured_policy_spec hours Hh) as Hp.
  unfold UpdateSchedule_configure. destruct (configured_policy hours) as [p|err].
  - destruct Hp as (H1 & H2 & H3 & H4). rewrite (proj2 (Z.eqb_neq _ _)) by lia.
    assert (forall keys now e, policy (ensure_all keys now e).2 = policy e) as Hens.
    { intros keys now. induction keys as [|k keys IH]; intros e; [done|]. cbn [ensure_all].
      unfold mbind, Mut_bind. destruct (SchedulerEngine_ensure k now e) as [res e'] eqn:E.
      assert (policy e' = policy e) as <-.
      { unfold SchedulerEngine_ensure in E. repeat case_match; by simplify_eq/=. }
      destruct res; [apply IH|done]. }
    destruct (collect_keys _) as [keys|]; [|done]. destruct (wall_seconds clock) as [now|]; [|done].
    specialize (Hens keys now (set_policy (up_engine u) p)).
    destruct (ensure_all keys now _) as [res e']. simpl in *. by rewrite Hens.
  - destruct Hp as [-> ->]. done.
Qed.

(** ** Witnesses *)
Module Demo.
Definition one_source : SourceConfig :=
  mkSourceConfig "" "" Single
    [mkSource "node.update" "n" true "https://a/" [] FAuto NetHopGeneric (mkFilter [] [] [] [])].
Definition idle : PersistentUpdateSchedule InMemoryScheduleStore :=
  mkUpdateSchedule (mkEngine (mkInMemory []) SchedulePolicy_default []) false [] [].
Definition configured : PersistentUpdateSchedule InMemoryScheduleStore :=
  Eval vm_compute in (UpdateSchedule_configure true 6 one_source (Some 1000) idle).2.
Definition in_flight : PersistentUpdateSchedule InMemoryScheduleStore :=
  Eval vm_compute in (UpdateSchedule_take_due (Some 1000) configured).2.
Definition settled : PersistentUpdateSchedule InMemoryScheduleStore :=
  Eval vm_compute in (UpdateSchedule_record_result true (Some 1200) in_flight).2.

Lemma idle_loaded : UpdateSchedule_load (mkInMemory []) = Ok idle.
Proof. vm_compute. reflexivity. Qed.
Lemma in_flight_reached : rtc up_step idle in_flight.
Proof.
  apply (rtc_l _ _ (UpdateSchedule_configure true 6 one_source (Some 1000) idle).2);
    [constructor|].
  apply (rtc_l _ _ (UpdateSchedule_take_due (Some 1000) configured).2); [|vm_compute; constructor].
  replace (UpdateSchedule_configure true 6 one_source (Some 1000) idle).2 with configured
    by (vm_compute; reflexivity).
  constructor.
Qed.
End Demo.

Lemma update_configure_policy_witness :
  steady_policy (policy (up_engine Demo.configured)) /\ up_pending Demo.configured = [].
Proof.
  pose proof (update_configure_policy Demo.idle true 6 Demo.one_source (Some 1000) ltac:(lia)) as H.
  destruct (UpdateSchedule_configure true 6 Demo.one_source (Some 1000) Demo.idle) as [res u'] eqn:E.
  change (6 =? 0) with false in H. cbv iota in H. destruct H as (H1 & _ & _ & H2 & _).
  assert (u' = Demo.configured) as <- by (vm_compute in E; by injection E as _ <-).
  split; [exact H1|exact H2].
Defined.

Lemma update_single_flight_witness :
  up_pending Demo.in_flight = [mkKey "node.update"]
  /\ UpdateSchedule_take_due (Some 5000) Demo.in_flight = (Ok false, Demo.in_flight).
Proof.
  destruct (update_single_flight (mkInMemory []) Demo.idle Demo.in_flight Demo.idle_loaded
    Demo.in_flight_reached) as (_ & H & _).
  split; [reflexivity|]. apply H. discriminate.
Defined.

Lemma update_no_immediate_rerun_witness :
  postponed 1200 (records (up_engine Demo.settled)) (mkKey "node.update").
Proof.
  destruct (update_no_immediate_rerun Demo.in_flight Demo.settled true 1200) as (_ & H & _).
  - repeat constructor.
  - repeat constructor.
  - destruct (configured_policy_spec 6 ltac:(lia)) as (_ & H & _). exact H.
  - vm_compute. discriminate.
  - vm_compute. reflexivity.
  - apply H. left.
Defined.

Lemma update_wakeup_exact_witness :
  exists d, UpdateSchedule_next_wakeup_in Demo.settled (Some 1200) = Some d
  /\ (UpdateSchedule_take_due (Some 2000) Demo.settled).1
     = Ok (bool_decide (d <= from_secs 800)).
Proof.
  destruct (UpdateSchedule_next_wakeup_in Demo.settled (Some 1200)) as [d|] eqn:E;
    [|vm_compute in E; discriminate E].
  exists d. split; [reflexivity|].
  apply (update_wakeup_exact Demo.settled 1200 2000 d); [repeat constructor..| | | |exact E].
  - repeat constructor; vm_compute; discriminate.
  - lia.
  - vm_compute. discriminate.
Defined.
