(* ===== verification/Supervisor.v ===== *)
(** * Supervisor: restarting the worker process

    Models crates/nethopd/src/supervisor.rs ([RestartPolicy], the [WorkerProcess]
    and [WorkerProcessBackend] traits, [WorkerSupervisor]) and the loop that
    drives it, [run_supervisor_loop] of crates/nethopd/src/application.rs.

    Processes live in the operating system: the two traits are one class over a
    world [B] with process handles [P], and [WorkerBackendLaws] states what the
    calls do to the set of processes that run.  Times are monotonic [Duration]s. *)

From S2P Require Import Prelude.

Local Open Scope Z_scope.

Definition MAX_FAILURE_WINDOW : Z := from_secs (5 * 60).
Definition MAX_RECOVERY_DELAY : Z := from_secs 60.
Definition MAX_STOP_TIMEOUT : Z := from_secs 30.
Definition RESTART_DELAYS : list Z := [from_secs 1; from_secs 2; from_secs 4].
Definition SUPERVISOR_POLL_INTERVAL : Z := from_millis 250.

Record RestartPolicy : Type := mkRestartPolicy {
  failure_window : Z;
  recovery_delay : Z;
  stop_timeout : Z;
}.

Inductive WorkerSignal : Type := Terminate | Interrupt.
Record WorkerExit : Type := mkExit { exit_code : option Z }.
Record ProcessIdentity : Type := mkIdentity { pid : Z; start_time_ticks : option Z }.
#[export] Instance ProcessIdentity_eq_dec : EqDecision ProcessIdentity.
Proof. solve_decision. Defined.
#[export] Instance ProcessIdentity_countable : Countable ProcessIdentity.
Proof.
  refine (inj_countable' (fun i => (pid i, start_time_ticks i))
    (fun '(p, t) => mkIdentity p t) _). by intros [].
Defined.

Inductive SupervisorState : Type := Idle | Running | BackingOff | CircuitOpen | Stopped.
#[export] Instance SupervisorState_eq_dec : EqDecision SupervisorState.
Proof. solve_decision. Defined.

Inductive SupervisorEvent : Type :=
| EvStarted (identity : ProcessIdentity)
| EvRunning
| EvWorkerExited (exit : WorkerExit)
| EvStartFailed
| EvRestartScheduled (after : Z)
| EvCircuitOpened
| EvRecoveryProbeScheduled (after : Z)
| EvSignalForwarded (signal : WorkerSignal)
| EvStopped.

Inductive SupervisorError : Type :=
| InvalidPolicy
| InvalidWorkerBinary
| StartFailed
| ObserveFailed
| SignalFailed
| StopFailed
| IdentityMismatch
| NoWorker.

Definition RestartPolicy_new (window delay timeout : Z) : Result SupervisorError RestartPolicy :=
  if dur_is_zero window || (MAX_FAILURE_WINDOW <? window)
     || dur_is_zero delay || (MAX_RECOVERY_DELAY <? delay)
     || dur_is_zero timeout || (MAX_STOP_TIMEOUT <? timeout)
  then Err InvalidPolicy
  else Ok (mkRestartPolicy window delay timeout).
Definition RestartPolicy_default : RestartPolicy :=
  mkRestartPolicy MAX_FAILURE_WINDOW MAX_RECOVERY_DELAY (from_secs 3).

Class WorkerBackend (B P : Type) : Type := {
  backend_start : Mut B SupervisorError P;
  identity : P -> ProcessIdentity;
  try_exit : P -> Mut B SupervisorError (option WorkerExit);
  signal : WorkerSignal -> P -> Mut B SupervisorError unit;
  stop_process : Z -> P -> Mut B SupervisorError unit;
}.

(** What a system backend does to the processes that run: a start that succeeds
    adds one, an observed exit and a successful stop remove it, and nothing else
    (an error included) changes the set. *)
Class WorkerBackendLaws (B P : Type) `{!WorkerBackend B P} : Type := {
  running : B -> gset ProcessIdentity;
  start_runs b res b' : backend_start b = (res, b') ->
    running b' = match res with Ok p => {[ identity p ]} ∪ running b | Err _ => running b end;
  try_exit_runs p b res b' : try_exit p b = (res, b') ->
    running b' = match res with Ok (Some _) => running b ∖ {[ identity p ]} | _ => running b end;
  signal_runs s p b res b' : signal s p b = (res, b') -> running b' = running b;
  stop_runs t p b res b' : stop_process t p b = (res, b') ->
    running b' = match res with Ok _ => running b ∖ {[ identity p ]} | Err _ => running b end;
}.

Section supervisor.
Context {B P : Type} `{!WorkerBackend B P}.

Record WorkerSupervisor : Type := mkSupervisor {
  backend : B;
  sup_policy : RestartPolicy;
  sup_state : SupervisorState;
  active : option P;
  failures : list Z;
  next_action : option Z;
}.
Implicit Types (s : WorkerSupervisor) (now : Z).

Definition WorkerSupervisor_new (b : B) (p : RestartPolicy) : WorkerSupervisor :=
  mkSupervisor b p Idle None [] (Some 0).
Definition active_identity s : option ProcessIdentity := identity <$> active s.

Definition retained (p : RestartPolicy) (now : Z) (fs : list Z) : list Z :=
  List.filter (fun f => dur_saturating_sub now f <=? failure_window p) fs.

Definition record_failure now (exit : option WorkerExit) s : SupervisorEvent * WorkerSupervisor :=
  let fs := retained (sup_policy s) now (failures s) ++ [now] in
  match RESTART_DELAYS !! (length fs - 1)%nat with
  | None =>
      (match exit with Some e => EvWorkerExited e | None => EvCircuitOpened end,
       mkSupervisor (backend s) (sup_policy s) CircuitOpen (active s) fs
         (Some (dur_saturating_add now (recovery_delay (sup_policy s)))))
  | Some delay =>
      (match exit with Some e => EvWorkerExited e | None => EvStartFailed end,
       mkSupervisor (backend s) (sup_policy s) BackingOff (active s) fs
         (Some (dur_saturating_add now delay)))
  end.

Definition is_stopped s : bool := match sup_state s with Stopped => true | _ => false end.
Definition waiting s now : bool :=
  match next_action s with Some t => now <? t | None => false end.

Definition tick now : Mut WorkerSupervisor SupervisorError SupervisorEvent := fun s =>
  if is_stopped s then (Ok EvStopped, s)
  else
    match active s with
    | Some process =>
        match try_exit process (backend s) with
        | (Err err, b') =>
            (Err err, mkSupervisor b' (sup_policy s) (sup_state s) (active s) (failures s)
                        (next_action s))
        | (Ok (Some exit), b') =>
            let (ev, s') :=
              record_failure now (Some exit)
                (mkSupervisor b' (sup_policy s) (sup_state s) None (failures s) (next_action s)) in
            (Ok ev, s')
        | (Ok None, b') =>
            (Ok EvRunning,
             mkSupervisor b' (sup_policy s) Running (active s) (failures s) (next_action s))
        end
    | None =>
        if waiting s now then
          let after := dur_saturating_sub (default now (next_action s)) now in
          (Ok match sup_state s with
              | CircuitOpen => EvRecoveryProbeScheduled after
              | _ => EvRestartScheduled after
              end, s)
        else
          match backend_start (backend s) with
          | (Ok process, b') =>
              (Ok (EvStarted (identity process)),
               mkSupervisor b' (sup_policy s) Running (Some process) (failures s) None)
          | (Err StartFailed, b') =>
              let (ev, s') :=
                record_failure now None
                  (mkSupervisor b' (sup_policy s) (sup_state s) (active s) (failures s)
                     (next_action s)) in
              (Ok ev, s')
          | (Err err, b') =>
              (Err err, mkSupervisor b' (sup_policy s) (sup_state s) (active s) (failures s)
                          (next_action s))
          end
    end.

Definition forward_signal (sig : WorkerSignal) :
    Mut WorkerSupervisor SupervisorError SupervisorEvent := fun s =>
  match active s with
  | None => (Err NoWorker, s)
  | Some process =>
      let (res, b') := signal sig process (backend s) in
      (_ ← res; Ok (EvSignalForwarded sig),
       mkSupervisor b' (sup_policy s) (sup_state s) (active s) (failures s) (next_action s))
  end.

(** [self.active.take()] comes first: an error from the process leaves the
    supervisor without it, and in the state it was in. *)
Definition WorkerSupervisor_stop : Mut WorkerSupervisor SupervisorError SupervisorEvent := fun s =>
  match active s with
  | Some process =>
      match stop_process (stop_timeout (sup_policy s)) process (backend s) with
      | (Err err, b') =>
          (Err err, mkSupervisor b' (sup_policy s) (sup_state s) None (failures s) (next_action s))
      | (Ok _, b') =>
          (Ok EvStopped, mkSupervisor b' (sup_policy s) Stopped None (failures s) None)
      end
  | None =>
      (Ok EvStopped, mkSupervisor (backend s) (sup_policy s) Stopped None (failures s) None)
  end.

(** ** The driving loop *)
Inductive SupervisorLoopSignal : Type := Wake | Stop.

Section driver.
Context {D : Type} (driver_now : D -> Z) (driver_wait : Z -> D -> SupervisorLoopSignal * D).

(** [None]: still looping when the fuel is out. *)
Fixpoint run_supervisor_loop (fuel : nat) s (d : D) :
    option (Result SupervisorError unit * WorkerSupervisor) :=
  match fuel with
  | O => None
  | S fuel' =>
      let now := driver_now d in
      match tick now s with
      | (Err err, s') => let (_, s'') := WorkerSupervisor_stop s' in Some (Err err, s'')
      | (Ok _, s') =>
          let timeout :=
            match next_action s' with
            | None => SUPERVISOR_POLL_INTERVAL
            | Some deadline => Z.min (dur_saturating_sub deadline now) SUPERVISOR_POLL_INTERVAL
            end in
          match driver_wait timeout d with
          | (Stop, _) =>
              let (res, s'') := WorkerSupervisor_stop s' in Some (_ ← res; Ok tt, s'')
          | (Wake, d') => run_supervisor_loop fuel' s' d'
          end
      end
  end.
End driver.
End supervisor.
Arguments WorkerSupervisor : clear implicits.

(** ** Ownership of the worker *)
Section ownership.
Context {B P : Type} `{HB : !WorkerBackend B P} `{HL : !WorkerBackendLaws B P}.
Implicit Types (s : WorkerSupervisor B P) (now : Z).

(** The processes that run are the active one and no other. *)
Definition owns_all s : Prop :=
  running (backend s) = match active_identity s with Some i => {[ i ]} | None => ∅ end.

Inductive sup_step : WorkerSupervisor B P -> WorkerSupervisor B P -> Prop :=
| step_tick s now res s' : tick now s = (res, s') -> sup_step s s'
| step_signal s sig res s' : forward_signal sig s = (res, s') -> sup_step s s'
| step_stop s ev s' : WorkerSupervisor_stop s = (Ok ev, s') -> sup_step s s'.

Lemma record_failure_fields now exit s ev s' :
  record_failure now exit s = (ev, s') ->
  backend s' = backend s /\ active s' = active s /\ sup_policy s' = sup_policy s
  /\ is_stopped s' = false
  /\ failures s' = retained (sup_policy s) now (failures s) ++ [now].
Proof. unfold record_failure. case_match; by intros [= <- <-]. Qed.

Lemma tick_owns now s res s' : owns_all s -> tick now s = (res, s') -> owns_all s'.
Proof.
  unfold owns_all, active_identity, tick. intros Ho. destruct (is_stopped s); [by intros [= _ <-]|].
  destruct (active s) as [p|] eqn:Ea; simpl in Ho.
  - destruct (try_exit p (backend s)) as [[[e|]|err] b'] eqn:E; apply try_exit_runs in E.
    + destruct (record_failure _ _ _) as [ev s1] eqn:Er. intros [= _ <-].
      apply record_failure_fields in Er as (-> & -> & _). simpl. rewrite E, Ho. set_solver.
    + intros [= _ <-]. simpl. by rewrite E.
    + intros [= _ <-]. simpl. by rewrite E.
  - destruct (waiting s now); [intros [= _ <-]; by rewrite Ea|].
    destruct (backend_start (backend s)) as [[p|err] b'] eqn:E; apply start_runs in E.
    + intros [= _ <-]. simpl. rewrite E, Ho. set_solver.
    + destruct err; try (intros [= _ <-]; simpl; by rewrite E).
      destruct (record_failure _ _ _) as [ev s1] eqn:Er. intros [= _ <-].
      apply record_failure_fields in Er as (-> & -> & _). simpl. by rewrite E.
Qed.

Lemma stop_owns s ev s' :
  owns_all s -> WorkerSupervisor_stop s = (Ok ev, s') ->
  owns_all s' /\ active s' = None /\ is_stopped s' = true.
Proof.
  unfold owns_all, active_identity, WorkerSupervisor_stop. intros Ho.
  destruct (active s) as [p|] eqn:Ea; simpl in Ho.
  - destruct (stop_process _ p (backend s)) as [[[]|err] b'] eqn:E; [|done].
    apply stop_runs in E. intros [= _ <-]. simpl. rewrite E, Ho. set_solver.
  - intros [= _ <-]. done.
Qed.

Lemma sup_step_owns s s' : owns_all s -> sup_step s s' -> owns_all s'.
Proof.
  intros Ho. destruct 1 as [s now res s' H|s sig res s' H|s ev s' H].
  - by eapply tick_owns.
  - unfold forward_signal in H. unfold owns_all, active_identity in *.
    destruct (active s) as [p|] eqn:Ea; [|by injection H as _ <-; rewrite Ea].
    destruct (signal sig p (backend s)) as [r b'] eqn:E. apply signal_runs in E.
    injection H as _ <-. simpl in *. by rewrite E.
  - by apply stop_owns in H as [? _].
Qed.

(** C37: one worker, and it is the supervised one.  With any lawful process
    backend on which nothing runs at first, after any sequence of ticks, signals
    (errors included) and successful stops, the processes that run are exactly
    the active one: never two workers, never one the supervisor lost. *)
Theorem supervisor_owns_worker b p s :
  running b = ∅ ->
  rtc sup_step (WorkerSupervisor_new b p) s ->
  running (backend s) = match active_identity s with Some i => {[ i ]} | None => ∅ end.
Proof.
  intros Hb Hr. fold (owns_all s). assert (owns_all (WorkerSupervisor_new b p)) as Ho by done.
  induction Hr; eauto using sup_step_owns.
Qed.

(** Leaving the loop leaves nothing behind.  When [run_supervisor_loop]
    returns [Ok], whatever the clock and the waits did, no worker runs and the
    supervisor is stopped for good: every later tick reports [Stopped] and
    changes nothing.  When it returns an error, at most the worker it could not
    stop still runs. *)
Theorem supervisor_loop_clean {D} (driver_now : D -> Z) driver_wait fuel s d res s' :
  owns_all s ->
  run_supervisor_loop driver_now driver_wait fuel s d = Some (res, s') ->
  match res with
  | Ok _ => running (backend s') = ∅ /\ forall now, tick now s' = (Ok EvStopped, s')
  | Err _ => active s' = None /\ (size (running (backend s')) <= 1)%nat
  end.
Proof.
  assert (forall s0 r0 s1, owns_all s0 -> WorkerSupervisor_stop s0 = (r0, s1) ->
    active s1 = None /\ (size (running (backend s1)) <= 1)%nat) as Hstop.
  { intros s0 r0 s1 Ho. unfold WorkerSupervisor_stop, owns_all, active_identity in *.
    destruct (active s0) as [p|]; simpl in Ho.
    - destruct (stop_process _ p (backend s0)) as [[[]|err] b'] eqn:E; apply stop_runs in E;
        intros [= _ <-]; simpl; (split; [done|]); rewrite E, Ho.
      + rewrite difference_diag_L, size_empty. lia.
      + by rewrite size_singleton.
    - intros [= _ <-]. simpl. split; [done|]. rewrite Ho, size_empty. lia. }
  revert s d. induction fuel as [|fuel IH]; intros s d Ho; cbn [run_supervisor_loop]; [done|].
  destruct (tick (driver_now d) s) as [[ev|err] s1] eqn:Et; pose proof (tick_owns _ _ _ _ Ho Et) as Ho1.
  2: { destruct (WorkerSupervisor_stop s1) as [r s2] eqn:Es. intros [= <- <-]. by eapply Hstop. }
  destruct (driver_wait _ d) as [[|] d']; [by apply IH|].
  destruct (WorkerSupervisor_stop s1) as [[ev'|err] s2] eqn:Es; intros [= <- <-]; [|by eapply Hstop].
  destruct (stop_owns _ _ _ Ho1 Es) as (Ho2 & Ha & Hst).
  unfold owns_all, active_identity in Ho2. rewrite Ha in Ho2. split; [done|].
  intros now. unfold tick. by rewrite Hst.
Qed.

(** A stop that fails is not retried.  When the process refuses to stop, the
    supervisor has already let go of it: the process still runs, no longer
    active, the state is not [Stopped], and the very next tick starts a second
    worker if the backend can. *)
Theorem supervisor_stop_error s p err s' now q b' :
  owns_all s -> active s = Some p -> is_stopped s = false -> next_action s = None ->
  WorkerSupervisor_stop s = (Err err, s') ->
  backend_start (backend s') = (Ok q, b') ->
  active s' = None /\ is_stopped s' = false
  /\ exists s'', tick now s' = (Ok (EvStarted (identity q)), s'')
     /\ running (backend s'') = {[ identity p; identity q ]}.
Proof.
  intros Ho Ha Hst Hn. unfold WorkerSupervisor_stop. rewrite Ha.
  destruct (stop_process _ p (backend s)) as [[[]|e] b1] eqn:E; [done|]. intros [= -> <-].
  apply stop_runs in E. intros Hq. simpl in *. split; [done|]. split; [done|].
  unfold tick. unfold is_stopped in *. simpl. rewrite Hst. unfold waiting. simpl. rewrite Hn, Hq.
  eexists. split; [done|]. simpl. apply start_runs in Hq. rewrite Hq, E.
  unfold owns_all, active_identity in Ho. rewrite Ha in Ho. simpl in Ho. rewrite Ho. set_solver.
Qed.
End ownership.

(** ** Restart rate *)
Definition spaced (delta : Z) (l : list Z) : Prop := StronglySorted (fun a b => a + delta <= b) l.

Lemma spaced_count delta l lo hi :
  0 <= delta -> spaced delta l -> Forall (fun x => lo <= x <= hi) l -> l <> [] ->
  (len l - 1) * delta <= hi - lo.
Proof.
  intros Hd Hs. revert lo. induction Hs as [|x l Hs IH Hx]; intros lo Hb Hne; [done|].
  apply Forall_cons in Hb as [Hxb Hb]. destruct l as [|y l]; [unfold len; simpl; lia|].
  assert ((len (y :: l) - 1) * delta <= hi - (x + delta)) as H.
  { apply IH; [|done]. rewrite Forall_forall in Hx, Hb |- *. intros z Hz.
    specialize (Hx z Hz). specialize (Hb z Hz). simpl in *. lia. }
  unfold len in *. cbn [length] in *. lia.
Qed.

Lemma spaced_snoc delta l x :
  spaced delta l -> Forall (fun a => a + delta <= x) l -> spaced delta (l ++ [x]).
Proof.
  intros Hs Ha. induction Hs as [|y l Hs IH Hy]; [by repeat constructor|].
  apply Forall_cons in Ha as [Hyx Ha]. simpl. constructor; [by apply IH|].
  apply Forall_app. split; [done|]. by constructor.
Qed.

Section rate.
Context {B P : Type} `{HB : !WorkerBackend B P}.
Implicit Types (s : WorkerSupervisor B P) (now c : Z).

(** The delay every restart keeps: a second, or the recovery delay if shorter. *)
Definition min_delay (p : RestartPolicy) : Z := Z.min (from_secs 1) (recovery_delay p).

(** [tick now] calls [backend.start]. *)
Definition attempts s now : bool :=
  negb (is_stopped s) && match active s with Some _ => false | None => negb (waiting s now) end.

(** Ticks at the given times, until the first error; the times of the starts. *)
Fixpoint tick_run (ts : list Z) s : list Z * WorkerSupervisor B P :=
  match ts with
  | [] => ([], s)
  | t :: rest =>
      let here := if attempts s t then [t] else [] in
      match tick t s with
      | (Err _, s') => (here, s')
      | (Ok _, s') => let (l, s'') := tick_run rest s' in (here ++ l, s'')
      end
  end.

(** [l] holds past times, each at least [delta] before the next possible start. *)
Definition quiet delta (l : list Z) s c : Prop :=
  Forall (fun a => a <= c) l
  /\ (active s = None -> is_stopped s = false ->
      forall t, (forall n, next_action s = Some n -> n <= t) -> c <= t ->
      Forall (fun a => a + delta <= t) l).

Lemma record_failure_next now exit s ev s' :
  record_failure now exit s = (ev, s') ->
  exists d, min_delay (sup_policy s) <= d <= Z.max (from_secs 4) (recovery_delay (sup_policy s))
            /\ next_action s' = Some (dur_saturating_add now d).
Proof.
  unfold record_failure, min_delay. set (n := (length _ - 1)%nat).
  destruct (RESTART_DELAYS !! n) as [d|] eqn:E; intros [= <- <-]; eexists; simpl; (split; [|done]).
  - unfold RESTART_DELAYS in E. destruct n as [|[|[|n]]]; simpl in E; simplify_eq;
      unfold from_secs, NANOS_PER_SEC; lia.
  - lia.
Qed.

Lemma quiet_after_failure p now exit s ev s' l :
  sup_policy s = p -> now + Z.max (from_secs 4) (recovery_delay p) <= Duration_MAX ->
  0 <= min_delay p -> Forall (fun a => a <= now) l ->
  record_failure now exit s = (ev, s') -> quiet (min_delay p) l s' now.
Proof.
  intros Hp Hmax Hd Hl (d & Hdd & Hn)%record_failure_next. rewrite Hp in Hdd. split; [done|].
  intros _ _ t Ht _. specialize (Ht _ Hn). unfold dur_saturating_add in Ht.
  eapply Forall_impl; [exact Hl|]. simpl. lia.
Qed.

Lemma tick_quiet p now c s res s' l :
  sup_policy s = p -> 0 <= min_delay p ->
  now + Z.max (from_secs 4) (recovery_delay p) <= Duration_MAX ->
  c <= now -> quiet (min_delay p) l s c -> tick now s = (Ok res, s') ->
  sup_policy s' = p
  /\ (if attempts s now
      then Forall (fun a => a + min_delay p <= now) l /\ quiet (min_delay p) (l ++ [now]) s' now
      else quiet (min_delay p) l s' now).
Proof.
  intros Hp Hd Hmax Hc [Hl Hq]. unfold tick, attempts.
  assert (Forall (fun a => a <= now) l) as Hl' by (eapply Forall_impl; [exact Hl|simpl; lia]).
  destruct (is_stopped s) eqn:Est; simpl.
  { intros [= _ <-]. split; [done|]. split; [done|]. by rewrite Est. }
  destruct (active s) as [q|] eqn:Ea.
  - destruct (try_exit q (backend s)) as [[[e|]|err] b'] eqn:E; [..|done].
    + destruct (record_failure _ _ _) as [ev s1] eqn:Er. intros [= _ <-].
      split; [by apply record_failure_fields in Er as (_ & _ & -> & _)|].
      eapply quiet_after_failure; [..|exact Er]; done.
    + intros [= _ <-]. split; [done|]. by split.
  - destruct (waiting s now) eqn:Ew; simpl.
    { intros [= _ <-]. split; [done|]. split; [done|]. intros _ _ t Ht Hct.
      apply Hq; [done..|lia]. }
    assert (Forall (fun a => a + min_delay p <= now) l) as Hgap.
    { apply Hq; [done|done| |done]. intros n Hn. unfold waiting in Ew. rewrite Hn in Ew.
      by apply Z.ltb_ge in Ew. }
    assert (Forall (fun a => a <= now) (l ++ [now])) as Hl2
      by (apply Forall_app; split; [done|by constructor]).
    destruct (backend_start (backend s)) as [[q|err] b'].
    + intros [= _ <-]. split; [done|]. split; [done|]. by split.
    + destruct err; try done. destruct (record_failure _ _ _) as [ev s1] eqn:Er. intros [= _ <-].
      split; [by apply record_failure_fields in Er as (_ & _ & -> & _)|]. split; [done|].
      eapply quiet_after_failure; [..|exact Er]; done.
Qed.

Lemma tick_run_spaced p ts hi s c l :
  sup_policy s = p -> 0 <= min_delay p ->
  hi + Z.max (from_secs 4) (recovery_delay p) <= Duration_MAX ->
  StronglySorted Z.le (c :: ts) -> Forall (fun t => t <= hi) ts ->
  spaced (min_delay p) l -> quiet (min_delay p) l s c ->
  spaced (min_delay p) (l ++ (tick_run ts s).1).
Proof.
  intros Hp Hd Hmax. revert s c l Hp.
  induction ts as [|t ts IH]; intros s c l Hp Hts Hhi Hs Hq; simpl; [by rewrite app_nil_r|].
  apply Forall_cons in Hhi as [Ht Hhi].
  apply StronglySorted_inv in Hts as [Hts Hc]. apply Forall_cons in Hc as [Hct _].
  destruct (tick t s) as [[ev|err] s1] eqn:Et.
  - destruct (tick_quiet p t c s ev s1 l Hp Hd ltac:(lia) Hct Hq Et) as [Hp1 Hstep].
    destruct (tick_run ts s1) as [l1 s2] eqn:Er. simpl. specialize (IH s1 t).
    rewrite Er in IH. simpl in IH.
    destruct (attempts s t).
    + destruct Hstep as [Hgap Hq1]. rewrite app_assoc. apply IH; auto using spaced_snoc.
    + simpl. by apply IH.
  - simpl. destruct (attempts s t) eqn:Ea; [|by rewrite app_nil_r].
    apply spaced_snoc; [done|]. destruct Hq as [_ Hq]. unfold attempts in Ea.
    apply andb_true_iff in Ea as [Est%negb_true_iff Ea]. destruct (active s); [done|].
    apply negb_true_iff in Ea. apply Hq; [done|done| |done].
    intros n Hn. unfold waiting in Ea. rewrite Hn in Ea. by apply Z.ltb_ge in Ea.
Qed.

(** No restart storm.  Under any accepted policy and whatever the backend
    answers, ticks at non-decreasing times call [backend.start] at most once per
    [min_delay] (a second, or the recovery delay when that is shorter): the
    starts are pairwise that far apart, hence at most one more of them than the
    elapsed time holds delays. *)
Theorem supervisor_restart_rate window delay timeout p b ts lo hi :
  0 <= window -> 0 <= delay -> 0 <= timeout ->
  RestartPolicy_new window delay timeout = Ok p ->
  StronglySorted Z.le ts -> Forall (fun t => 0 <= lo <= t /\ t <= hi) ts ->
  hi + from_secs 60 <= Duration_MAX ->
  let starts := (tick_run ts (WorkerSupervisor_new b p)).1 in
  0 < min_delay p
  /\ spaced (min_delay p) starts
  /\ (starts <> [] -> (len starts - 1) * min_delay p <= hi - lo).
Proof.
  intros Hw Hdl Hto Hp Hts Hb Hmax.
  assert (0 < recovery_delay p <= from_secs 60) as Hrd.
  { unfold RestartPolicy_new in Hp. split_if_in Hp Hg; [done|]. injection Hp as <-. simpl.
    rewrite !orb_false_iff in Hg. destruct Hg as (((((_ & _) & H1) & H2) & _) & _).
    unfold dur_is_zero, MAX_RECOVERY_DELAY in *. lia. }
  assert (0 < min_delay p) as Hpos by (unfold min_delay, from_secs, NANOS_PER_SEC; lia).
  split; [done|].
  assert (forall l s', StronglySorted Z.le l -> Forall (fun t => t ∈ l) (tick_run l s').1) as Hsub.
  { induction l as [|t l IH]; intros s' Hl; simpl; [done|].
    apply StronglySorted_inv in Hl as [Hl _].
    destruct (tick t s') as [[ev|err] s1]; [destruct (tick_run l s1) as [l1 s2] eqn:Er|]; simpl.
    - apply Forall_app. split; [destruct (attempts s' t); [constructor; [by left|constructor]|constructor]|].
      specialize (IH s1 Hl). rewrite Er in IH. eapply Forall_impl; [exact IH|]. intros; by right.
    - destruct (attempts s' t); [constructor; [by left|constructor]|constructor]. }
  assert (spaced (min_delay p) (tick_run ts (WorkerSupervisor_new b p)).1) as Hsp.
  { apply (tick_run_spaced p ts hi (WorkerSupervisor_new b p) lo []); try done.
    - lia.
    - unfold from_secs in *. lia.
    - constructor; [done|]. eapply Forall_impl; [exact Hb|]. simpl. lia.
    - eapply Forall_impl; [exact Hb|]. simpl. lia.
    - constructor. }
  split; [done|]. intros Hne. apply spaced_count; [lia|done| |done].
  eapply Forall_impl; [by apply Hsub|]. intros t Ht. rewrite Forall_forall in Hb.
  specialize (Hb t Ht). lia.
Qed.
End rate.

(** ** The backoff schedule *)
Lemma retained_all p now fs :
  Forall (fun f => now - f <= failure_window p) fs -> 0 <= failure_window p ->
  retained p now fs = fs.
Proof.
  intros Hf Hw. unfold retained. induction Hf as [|f fs Hf _ IH]; [done|]. cbn [List.filter].
  rewrite (proj2 (Z.leb_le _ _)) by (unfold dur_saturating_sub; lia). by rewrite IH.
Qed.

Section schedule.
Context {B P : Type} `{HB : !WorkerBackend B P}.
Hypothesis start_fails : forall b : B, exists b', backend_start b = (Err StartFailed, b').

(** A failing start [n] failures into the window. *)
Lemma failing_tick s now :
  is_stopped s = false -> active s = None -> waiting s now = false ->
  Forall (fun f => now - f <= failure_window (sup_policy s)) (failures s) ->
  0 <= failure_window (sup_policy s) ->
  let fs := failures s ++ [now] in
  exists s', tick now s
    = (Ok (if (length fs <=? 3)%nat then EvStartFailed else EvCircuitOpened), s')
  /\ active s' = None /\ sup_policy s' = sup_policy s /\ failures s' = fs
  /\ sup_state s' = (if (length fs <=? 3)%nat then BackingOff else CircuitOpen)
  /\ next_action s' = Some (dur_saturating_add now
       (nth (length fs - 1) RESTART_DELAYS (recovery_delay (sup_policy s)))).
Proof.
  intros Hst Ha Hw Hf Hwin fs. unfold tick. rewrite Hst, Ha, Hw.
  destruct (start_fails (backend s)) as [b' ->]. unfold record_failure. simpl.
  rewrite retained_all by done. fold fs.
  destruct (length fs) as [|[|[|[|[|n]]]]] eqn:En; subst fs; rewrite length_app in En; simpl in En;
    try lia; eexists; (split; [reflexivity|]); simpl; rewrite ?Ha; auto 6.
Qed.

(** The documented backoff.  With a worker that never starts and a failure
    window of at least seven seconds, starts happen at [t], [t + 1s], [t + 3s] and
    [t + 7s]; the first three failures back off for 1, 2 and 4 seconds, the
    fourth opens the circuit and the next probe waits the recovery delay. *)
Theorem supervisor_backoff_schedule b p t :
  0 <= t -> t + from_secs 67 <= Duration_MAX ->
  from_secs 7 <= failure_window p -> 0 <= recovery_delay p <= from_secs 60 ->
  exists s1 s2 s3 s4,
    tick t (WorkerSupervisor_new b p) = (Ok EvStartFailed, s1)
    /\ tick (t + from_secs 1) s1 = (Ok EvStartFailed, s2)
    /\ tick (t + from_secs 3) s2 = (Ok EvStartFailed, s3)
    /\ tick (t + from_secs 7) s3 = (Ok EvCircuitOpened, s4)
    /\ next_action s1 = Some (t + from_secs 1)
    /\ next_action s2 = Some (t + from_secs 3)
    /\ next_action s3 = Some (t + from_secs 7)
    /\ next_action s4 = Some (t + from_secs 7 + recovery_delay p)
    /\ sup_state s4 = CircuitOpen.
Proof.
  intros Ht Hmax Hwin Hrd.
  assert (forall x, t <= x <= t + from_secs 7 -> Forall (fun f => x - f <= failure_window p)
    [t; t + from_secs 1; t + from_secs 3]) as Hrec.
  { intros x Hx. unfold from_secs, NANOS_PER_SEC in *. repeat constructor; lia. }
  assert (forall x d, x <= t + from_secs 7 -> d <= from_secs 60 -> dur_saturating_add x d = x + d)
    as Hadd.
  { intros x d Hx Hd. unfold dur_saturating_add, from_secs, NANOS_PER_SEC in *. lia. }
  assert (forall x n, t <= x <= t + from_secs 7 ->
    Forall (fun f => x - f <= failure_window p) (take n [t; t + from_secs 1; t + from_secs 3]))
    as Htake by (intros; by apply Forall_take, Hrec).
  unfold from_secs, NANOS_PER_SEC in *.
  destruct (failing_tick (WorkerSupervisor_new b p) t) as (s1 & E1 & A1 & P1 & F1 & S1 & N1);
    [done|done|unfold waiting; simpl; lia|done|simpl; lia|].
  simpl in E1, P1, F1, S1, N1. unfold from_secs, NANOS_PER_SEC in N1. rewrite Hadd in N1 by lia.
  destruct (failing_tick s1 (t + 1 * 1000000000)) as (s2 & E2 & A2 & P2 & F2 & S2 & N2);
    [unfold is_stopped; by rewrite S1|done|unfold waiting; rewrite N1; lia| |rewrite P1; lia|].
  { rewrite F1, P1. apply (Htake _ 1%nat); lia. }
  rewrite F1, ?P1 in *. simpl in E2, P2, F2, S2, N2. unfold from_secs, NANOS_PER_SEC in N2.
  rewrite Hadd in N2 by lia.
  destruct (failing_tick s2 (t + 3 * 1000000000)) as (s3 & E3 & A3 & P3 & F3 & S3 & N3);
    [unfold is_stopped; by rewrite S2|done|unfold waiting; rewrite N2; lia| |rewrite P2; lia|].
  { rewrite F2, P2. apply (Htake _ 2%nat); lia. }
  rewrite F2, ?P2 in *. simpl in E3, P3, F3, S3, N3. unfold from_secs, NANOS_PER_SEC in N3.
  rewrite Hadd in N3 by lia.
  destruct (failing_tick s3 (t + 7 * 1000000000)) as (s4 & E4 & A4 & P4 & F4 & S4 & N4);
    [unfold is_stopped; by rewrite S3|done|unfold waiting; rewrite N3; lia| |rewrite P3; lia|].
  { rewrite F3, P3. apply (Htake _ 3%nat); lia. }
  rewrite F3, ?P3 in *. simpl in E4, P4, F4, S4, N4. rewrite Hadd in N4 by lia.
  exists s1, s2, s3, s4. rewrite N1, N2, N3, N4. repeat split; auto; f_equal; lia.
Qed.
End schedule.

(** ** A backend, for the witnesses *)
Module Demo.
Record World : Type := mkWorld {
  alive : gset ProcessIdentity;
  next_pid : Z;
  can_start : bool;
  can_stop : bool;
}.
#[global] Instance demo_backend : WorkerBackend World ProcessIdentity := {|
  backend_start w :=
    if can_start w
    then let i := mkIdentity (next_pid w) None in
         (Ok i, mkWorld ({[ i ]} ∪ alive w) (next_pid w + 1) (can_start w) (can_stop w))
    else (Err StartFailed, w);
  identity i := i;
  try_exit i w :=
    if decide (i ∈ alive w) then (Ok None, w)
    else (Ok (Some (mkExit (Some 0))), mkWorld (alive w ∖ {[ i ]}) (next_pid w) (can_start w) (can_stop w));
  signal _ _ w := (Ok tt, w);
  stop_process _ i w :=
    if can_stop w
    then (Ok tt, mkWorld (alive w ∖ {[ i ]}) (next_pid w) (can_start w) (can_stop w))
    else (Err StopFailed, w);
|}.
#[global] Program Instance demo_laws : WorkerBackendLaws World ProcessIdentity :=
  {| running := alive |}.
Next Obligation. intros b res b' H. simpl in *. case_match; by simplify_eq/=. Qed.
Next Obligation. intros p b res b' H. simpl in *. case_match; by simplify_eq/=. Qed.
Next Obligation. intros s p b res b' H. by simplify_eq/=. Qed.
Next Obligation. intros t p b res b' H. simpl in *. case_match; by simplify_eq/=. Qed.

(** A worker binary that never starts. *)
#[global] Instance dead_backend : WorkerBackend unit ProcessIdentity := {|
  backend_start w := (Err StartFailed, w);
  identity i := i;
  try_exit i w := (Err ObserveFailed, w);
  signal _ _ w := (Err SignalFailed, w);
  stop_process _ i w := (Err StopFailed, w);
|}.

Definition world0 (start stop : bool) : World := mkWorld ∅ 7 start stop.
Definition started (stop : bool) : WorkerSupervisor World ProcessIdentity :=
  (tick 0 (WorkerSupervisor_new (world0 true stop) RestartPolicy_default)).2.
Definition wait_then_stop (_ : Z) (d : Z) : SupervisorLoopSignal * Z :=
  (if d <? 3 then Wake else Stop, d + 1).
End Demo.

Lemma supervisor_owns_worker_witness :
  Demo.alive (backend (Demo.started true)) = {[ mkIdentity 7 None ]}.
Proof.
  assert (rtc sup_step (WorkerSupervisor_new (Demo.world0 true true) RestartPolicy_default)
    (Demo.started true)) as Hr by (apply rtc_once; eapply (step_tick _ 0); reflexivity).
  exact (supervisor_owns_worker (Demo.world0 true true) RestartPolicy_default (Demo.started true)
    eq_refl Hr).
Defined.

Lemma supervisor_loop_clean_witness :
  exists s', run_supervisor_loop id Demo.wait_then_stop 10
      (WorkerSupervisor_new (Demo.world0 true true) RestartPolicy_default) 0 = Some (Ok tt, s')
    /\ Demo.alive (backend s') = ∅.
Proof.
  destruct (run_supervisor_loop id Demo.wait_then_stop 10
    (WorkerSupervisor_new (Demo.world0 true true) RestartPolicy_default) 0) as [[[[]|err] s']|] eqn:E;
    [|vm_compute in E; discriminate E..].
  exists s'. split; [reflexivity|].
  refine (proj1 (supervisor_loop_clean id Demo.wait_then_stop 10 _ 0 (Ok tt) s' _ E)). reflexivity.
Defined.

Lemma supervisor_stop_error_witness :
  exists s', WorkerSupervisor_stop (Demo.started false) = (Err StopFailed, s')
  /\ exists s'', tick 5 s' = (Ok (EvStarted (mkIdentity 8 None)), s'')
     /\ Demo.alive (backend s'') = {[ mkIdentity 7 None; mkIdentity 8 None ]}.
Proof.
  destruct (WorkerSupervisor_stop (Demo.started false)) as [res s'] eqn:E.
  assert (res = Err StopFailed) as -> by (vm_compute in E; by injection E as <- _).
  exists s'. split; [reflexivity|].
  destruct (backend_start (backend s')) as [rq b'] eqn:Eq.
  assert (rq = Ok (mkIdentity 8 None)) as ->
    by (vm_compute in E; injection E as <-; vm_compute in Eq; by injection Eq as <- _).
  refine (proj2 (proj2 (supervisor_stop_error (Demo.started false) (mkIdentity 7 None) StopFailed s' 5
    (mkIdentity 8 None) b' _ _ _ _ E Eq))); reflexivity.
Defined.

Lemma supervisor_restart_rate_witness :
  spaced (min_delay RestartPolicy_default)
    (tick_run [0; from_secs 1; from_secs 2; from_secs 3]
       (WorkerSupervisor_new (Demo.world0 false true) RestartPolicy_default)).1.
Proof.
  set (ts := [0; from_secs 1; from_secs 2; from_secs 3]).
  assert (RestartPolicy_new MAX_FAILURE_WINDOW MAX_RECOVERY_DELAY (from_secs 3)
    = Ok RestartPolicy_default) as H1 by (vm_compute; reflexivity).
  assert (StronglySorted Z.le ts) as H2 by (repeat constructor; vm_compute; discriminate).
  assert (Forall (fun t => 0 <= 0 <= t /\ t <= from_secs 3) ts) as H3
    by (repeat constructor; vm_compute; discriminate).
  assert (0 <= MAX_FAILURE_WINDOW /\ 0 <= MAX_RECOVERY_DELAY /\ 0 <= from_secs 3
    /\ from_secs 3 + from_secs 60 <= Duration_MAX) as (H4 & H5 & H6 & H7)
    by (repeat split; vm_compute; discriminate).
  pose proof (supervisor_restart_rate _ _ _ _ (Demo.world0 false true) ts 0 (from_secs 3)
    H4 H5 H6 H1 H2 H3 H7) as H.
  exact (proj1 (proj2 H)).
Defined.

Lemma supervisor_backoff_schedule_witness :
  exists s4 : WorkerSupervisor unit ProcessIdentity,
    next_action s4 = Some (from_secs 5 + from_secs 7 + from_secs 60) /\ sup_state s4 = CircuitOpen.
Proof.
  assert (forall b : unit, exists b', backend_start b = (Err StartFailed, b')) as Hdead
    by (intros b; exists b; reflexivity).
  destruct (supervisor_backoff_schedule Hdead tt RestartPolicy_default (from_secs 5))
    as (s1 & s2 & s3 & s4 & _ & _ & _ & _ & _ & _ & _ & H1 & H2);
    try (vm_compute; discriminate); [split; vm_compute; discriminate|].
  exists s4. split; [exact H1|exact H2].
Defined.
