(* ===== verification/NodeRegistry.v ===== *)
(** * NodeRegistry: the nodes of a generation

    Models [GenerationNodeRecord] and [GenerationNodeRegistry] of
    crates/nethop-core/src/generation.rs: validation of records, the sorted
    registry with its automatic pool, and the two lookups. *)

From S2P Require Import Prelude Text Ordering.

Local Open Scope Z_scope.

Definition NODE_REGISTRY_SCHEMA : string := "nethop-generation-nodes-v3".
Definition MAX_GENERATION_NODES : Z := 2000.
Definition MAX_NODE_NAME_BYTES : Z := 128.
Definition MAX_TAG_BYTES : Z := 128.
Definition MAX_PROTOCOL_BYTES : Z := 32.
Definition MAX_SOURCE_IDS : Z := 16.
Definition MAX_AUTO_POOL : Z := 64.

(** [CoreError]: the operation that failed, without the human-readable message. *)
Inductive CoreError : Type :=
| InvalidGenerationId
| ValidationFailed
| InvalidCurrentPointer
| SerializationFailure
| GenerationPublishFailed (operation : string).

Definition prefixed_hex (prefix : string) (total : Z) (value : string) : bool :=
  (str_len value =? total)
  && match strip_prefix (bytes prefix) (bytes value) with
     | Some rest => forallb is_lower_hex rest
     | None => false
     end.
Definition valid_source_id (value : string) : bool := prefixed_hex "src_" 36 value.

Record GenerationNodeRecord : Type := mkNode {
  stable_node_id : string;
  internal_tag : string;
  display_name : string;
  protocol : string;
  source_ids : list string;
  auto_candidate : bool;
  display_territory_code : option string;
}.

Definition GenerationNodeRecord_new (node_id tag name proto : string) (sources : list string)
    (auto : bool) : Result CoreError GenerationNodeRecord :=
  let valid_node_id := prefixed_hex "nh1s-" 21 node_id in
  let valid_tag :=
    negb (str_len tag =? 0) && (str_len tag <=? MAX_TAG_BYTES) && negb (has_control (bytes tag)) in
  let valid_name :=
    negb (str_len name =? 0) && (str_len name <=? MAX_NODE_NAME_BYTES)
    && negb (has_control (bytes name)) in
  let valid_protocol :=
    negb (str_len proto =? 0) && (str_len proto <=? MAX_PROTOCOL_BYTES)
    && forallb (fun b => is_ascii_lowercase b || is_ascii_digit b) (bytes proto) in
  let valid_sources :=
    negb (len sources =? 0) && (len sources <=? MAX_SOURCE_IDS) && all_distinct sources
    && forallb valid_source_id sources in
  if negb valid_node_id || negb valid_tag || negb valid_name || negb valid_protocol
     || negb valid_sources
  then Err (GenerationPublishFailed "node_registry")
  else Ok (mkNode node_id tag name proto sources auto None).

Definition with_display_territory_code (r : GenerationNodeRecord) (code : option string) :
    GenerationNodeRecord :=
  mkNode (stable_node_id r) (internal_tag r) (display_name r) (protocol r) (source_ids r)
    (auto_candidate r) code.

Record GenerationNodeRegistry : Type := mkNodes {
  nodes_schema : string;
  auto_pool : list string;
  node_records : list GenerationNodeRecord;
}.

Definition find_by_id (records : list GenerationNodeRecord) (id : string) :
    option GenerationNodeRecord :=
  binary_search_by_key stable_node_id records id ≫= fun i => records !! i.

Definition GenerationNodeRegistry_with_auto_pool (records : list GenerationNodeRecord)
    (pool : list string) : Result CoreError GenerationNodeRegistry :=
  if (len records =? 0) || (MAX_GENERATION_NODES <? len records)
  then Err (GenerationPublishFailed "node_registry")
  else
    let records := sort_by_key stable_node_id records in
    if negb (all_distinct (stable_node_id <$> records))
       || negb (all_distinct (internal_tag <$> records))
    then Err (GenerationPublishFailed "node_registry")
    else if (len pool =? 0) || (MAX_AUTO_POOL <? len pool) || negb (all_distinct pool)
            || existsb (fun id => match find_by_id records id with
                                  | Some r => negb (auto_candidate r)
                                  | None => true
                                  end) pool
            || existsb (fun r => negb (eqb (auto_candidate r)
                                         (existsb (String.eqb (stable_node_id r)) pool))) records
    then Err (GenerationPublishFailed "node_registry")
    else Ok (mkNodes NODE_REGISTRY_SCHEMA pool records).

Definition GenerationNodeRegistry_new (records : list GenerationNodeRecord) :
    Result CoreError GenerationNodeRegistry :=
  GenerationNodeRegistry_with_auto_pool records
    (stable_node_id <$> List.filter auto_candidate records).

Definition by_stable_id (r : GenerationNodeRegistry) (id : string) : option GenerationNodeRecord :=
  find_by_id (node_records r) id.
Definition by_internal_tag (r : GenerationNodeRegistry) (tag : string) :
    option GenerationNodeRecord :=
  List.find (fun n => String.eqb (internal_tag n) tag) (node_records r).

(** ** The registry invariant *)
Record registry_wf (r : GenerationNodeRegistry) : Prop := {
  wf_size : 0 < len (node_records r) <= MAX_GENERATION_NODES;
  wf_sorted : StronglySorted ord_lt (stable_node_id <$> node_records r);
  wf_tags : NoDup (internal_tag <$> node_records r);
  wf_pool_size : 0 < len (auto_pool r) <= MAX_AUTO_POOL;
  wf_pool_distinct : NoDup (auto_pool r);
  wf_pool : forall id, id ∈ auto_pool r <->
    exists n, n ∈ node_records r /\ stable_node_id n = id /\ auto_candidate n = true;
}.

Lemma find_by_id_spec records id n :
  StronglySorted ord_lt (stable_node_id <$> records) ->
  find_by_id records id = Some n <-> n ∈ records /\ stable_node_id n = id.
Proof.
  intros Hs. pose proof (binary_search_by_key_spec stable_node_id records id Hs) as H.
  unfold find_by_id. destruct (binary_search_by_key _ records id) as [i|]; simpl.
  - destruct H as (x & Hx & Hid). rewrite Hx. split.
    + intros [= <-]. eauto using list_elem_of_lookup_2.
    + intros [Hn Hid']. f_equal. apply list_elem_of_lookup in Hn as [j Hj].
      assert (i = j) as ->; [|congruence].
      apply (NoDup_lookup (stable_node_id <$> records) i j id);
        [by apply StronglySorted_lt_NoDup|rewrite list_lookup_fmap..]; [rewrite Hx|rewrite Hj];
        simpl; congruence.
  - split; [done|]. intros [Hn Hid]. by destruct (H n).
Qed.

Lemma with_auto_pool_wf records pool r :
  GenerationNodeRegistry_with_auto_pool records pool = Ok r ->
  registry_wf r /\ node_records r ≡ₚ records /\ auto_pool r = pool.
Proof.
  unfold GenerationNodeRegistry_with_auto_pool. split_if Hsz; [done|].
  set (l := sort_by_key stable_node_id records).
  assert (l ≡ₚ records) as Hperm by apply sort_by_key_Permutation.
  split_if Hdup; [done|]. split_if Hpool; [done|]. intros [= <-].
  apply orb_false_iff in Hsz as [Hs1 Hs2]. apply Z.eqb_neq in Hs1. apply Z.ltb_ge in Hs2.
  apply orb_false_iff in Hdup as [Hd1%negb_false_iff Hd2%negb_false_iff].
  apply all_distinct_NoDup in Hd1, Hd2.
  rewrite !orb_false_iff in Hpool. destruct Hpool as [[[[Hp1 Hp2] Hp3] Hp4] Hp5].
  apply Z.eqb_neq in Hp1. apply Z.ltb_ge in Hp2. apply negb_false_iff, all_distinct_NoDup in Hp3.
  assert (StronglySorted ord_lt (stable_node_id <$> l)) as Hsort
    by (apply sort_by_key_strict; by rewrite <- Hperm).
  assert (len l = len records) as Hlen by (unfold len; by rewrite Hperm).
  pose proof (len_nonneg records). pose proof (len_nonneg pool).
  split; [|done]. split; simpl; [lia|done|done|lia|done|]. intros id. split.
  - intros Hin. destruct (find_by_id l id) as [n|] eqn:E.
    + exists n. pose proof E as E'. apply find_by_id_spec in E' as [H1 H2]; [|done].
      split; [done|]. split; [done|].
      destruct (auto_candidate n) eqn:Ea; [done|]. exfalso.
      assert (existsb (fun id => match find_by_id l id with
        | Some r => negb (auto_candidate r) | None => true end) pool = true); [|congruence].
      apply existsb_exists. exists id. split; [by apply list_elem_of_In|].
      by rewrite E, Ea.
    + exfalso. assert (existsb (fun id => match find_by_id l id with
        | Some r => negb (auto_candidate r) | None => true end) pool = true); [|congruence].
      apply existsb_exists. exists id. split; [by apply list_elem_of_In|]. by rewrite E.
  - intros (n & Hn & Hid & Ha). destruct (existsb (String.eqb (stable_node_id n)) pool) eqn:E.
    + apply existsb_exists in E as (x & Hx & Heq%String.eqb_eq).
      rewrite <- Hid, Heq. by apply list_elem_of_In.
    + exfalso. assert (existsb (fun r => negb (eqb (auto_candidate r)
        (existsb (String.eqb (stable_node_id r)) pool))) l = true); [|congruence].
      apply existsb_exists. exists n. split; [by apply list_elem_of_In|]. by rewrite E, Ha.
Qed.

(** Every registry that can be built is well formed: between one and two
    thousand nodes, strictly sorted by stable identifier, with distinct tags,
    and its automatic pool (one to 64 distinct identifiers) is exactly the set
    of nodes marked as candidates; the nodes are those given, reordered. *)
Theorem registry_construction records pool r :
  GenerationNodeRegistry_with_auto_pool records pool = Ok r ->
  registry_wf r /\ node_records r ≡ₚ records /\ auto_pool r = pool.
Proof. apply with_auto_pool_wf. Qed.

Lemma find_by_tag_spec records tag n :
  NoDup (internal_tag <$> records) ->
  List.find (fun n => String.eqb (internal_tag n) tag) records = Some n <->
  n ∈ records /\ internal_tag n = tag.
Proof.
  intros Hnd. split.
  - intros H. apply find_some in H as [H1 H2]. apply String.eqb_eq in H2.
    by rewrite list_elem_of_In.
  - intros [Hn <-]. induction records as [|m records IH]; [by apply elem_of_nil in Hn|].
    rewrite fmap_cons in Hnd. apply NoDup_cons in Hnd as [Hm Hnd]. simpl.
    apply elem_of_cons in Hn as [->|Hn]; [by rewrite String.eqb_refl|].
    destruct (String.eqb_spec (internal_tag m) (internal_tag n)) as [E|E]; [|auto].
    destruct Hm. rewrite E. apply list_elem_of_fmap. eauto.
Qed.

(** On a registry that was built, both lookups are exact: [by_stable_id]
    (a binary search) and [by_internal_tag] (a scan) return a node if and only
    if it is one of the nodes given and carries that identifier or tag. *)
Theorem registry_lookups_exact records pool r :
  GenerationNodeRegistry_with_auto_pool records pool = Ok r ->
  forall key n,
    (by_stable_id r key = Some n <-> n ∈ records /\ stable_node_id n = key)
    /\ (by_internal_tag r key = Some n <-> n ∈ records /\ internal_tag n = key).
Proof.
  intros (Hwf & Hperm & _)%with_auto_pool_wf key n. unfold by_stable_id, by_internal_tag.
  rewrite find_by_id_spec, find_by_tag_spec by apply Hwf. by rewrite Hperm.
Qed.

(** ** Witnesses *)
Definition demo_node (id tag : string) (auto : bool) : GenerationNodeRecord :=
  mkNode id tag "name" "vless" ["src_00000000000000000000000000000001"] auto None.
Definition demo_nodes : list GenerationNodeRecord :=
  [demo_node "nh1s-00000000000000bb" "b" false; demo_node "nh1s-00000000000000aa" "a" true].

Lemma registry_construction_witness :
  exists r, GenerationNodeRegistry_new demo_nodes = Ok r /\ registry_wf r.
Proof.
  destruct (GenerationNodeRegistry_new demo_nodes) as [r|] eqn:E; [|vm_compute in E; discriminate E].
  exists r. split; [reflexivity|]. apply (registry_construction demo_nodes _ r E).
Defined.

Lemma registry_lookups_exact_witness :
  exists r, GenerationNodeRegistry_new demo_nodes = Ok r
  /\ by_stable_id r "nh1s-00000000000000bb" = Some (demo_node "nh1s-00000000000000bb" "b" false).
Proof.
  destruct (GenerationNodeRegistry_new demo_nodes) as [r|] eqn:E; [|vm_compute in E; discriminate E].
  exists r. split; [reflexivity|]. apply (registry_lookups_exact demo_nodes _ r E).
  split; [left|reflexivity].
Defined.
