(* ===== verification/Generation.v ===== *)
(** * Generation: the on-disk store of configuration generations

    Models [GenerationStore] of crates/nethop-core/src/generation.rs with its
    candidates and manifests.  The store's directory is a [Disk]: the sealed
    generation directories, the candidate directories (by generation, of this
    process) and the [current] file.

    Every call to the file system may fail.  The disk carries the outcomes of the
    calls to come ([faults], success when exhausted); a failed write leaves a
    prefix, a failed removal leaves some of the files.  Theorems hold for every
    fault schedule.  SHA-256 and the JSON encoders and decoders are parameters. *)

From S2P Require Import Prelude Text Ordering NodeRegistry.

Local Open Scope Z_scope.

Definition MANIFEST_SCHEMA : string := "nethop-generation-v1".

Definition GenerationId_new (value : Z) : Result CoreError Z :=
  if value =? 0 then Err InvalidGenerationId else Ok value.

(** ** Candidates *)
Record ManagedConfig : Type := mkManaged {
  cfg_bytes : list Z;
  digest_sha256 : string;
  node_count : Z;
}.

Record GenerationManifest : Type := mkManifest {
  mf_schema : string;
  mf_generation : Z;
  mf_config_sha256 : string;
  mf_node_count : Z;
  mf_node_registry_sha256 : option string;
  mf_source_config_digest : option string;
  mf_source_ids : list string;
}.

Record Candidate : Type := mkCandidate {
  cand_generation : Z;
  cand_config : ManagedConfig;
  cand_manifest : GenerationManifest;
  cand_registry : option GenerationNodeRegistry;
}.

Definition Candidate_new (generation : Z) (config : ManagedConfig) : Candidate :=
  mkCandidate generation config
    (mkManifest MANIFEST_SCHEMA generation (digest_sha256 config) (node_count config) None None [])
    None.

Definition lower_hex_64 (value : string) : bool :=
  (str_len value =? 64) && forallb is_lower_hex (bytes value).

Definition bind_sources (c : Candidate) (digest : string) (ids : list string) :
    Result CoreError Candidate :=
  let valid_ids :=
    negb (len ids =? 0) && (len ids <=? 16) && forallb valid_source_id ids in
  if negb (lower_hex_64 digest) || negb valid_ids
  then Err (GenerationPublishFailed "bind_sources")
  else
    let m := cand_manifest c in
    Ok (mkCandidate (cand_generation c) (cand_config c)
          (mkManifest (mf_schema m) (mf_generation m) (mf_config_sha256 m) (mf_node_count m)
             (mf_node_registry_sha256 m) (Some digest) ids)
          (cand_registry c)).

(** ** The disk *)
Inductive FileNode : Type :=
| PrivateFile (contents : list Z)
| InsecureFile (contents : list Z).
Definition file_bytes (f : FileNode) : list Z :=
  match f with PrivateFile b | InsecureFile b => b end.

Record Dir : Type := mkDir {
  dir_real : bool;
  config_json : option FileNode;
  manifest_json : option FileNode;
  nodes_json : option FileNode;
}.
Definition empty_dir : Dir := mkDir true None None None.

Record Disk : Type := mkDisk {
  sealed_dirs : gmap Z Dir;
  candidate_dirs : gmap Z Dir;
  current_file : option (list Z);
  faults : list Outcome;
}.

Definition set_sealed (m : gmap Z Dir) (d : Disk) : Disk :=
  mkDisk m (candidate_dirs d) (current_file d) (faults d).
Definition set_candidates (m : gmap Z Dir) (d : Disk) : Disk :=
  mkDisk (sealed_dirs d) m (current_file d) (faults d).
Definition set_current (c : option (list Z)) (d : Disk) : Disk :=
  mkDisk (sealed_dirs d) (candidate_dirs d) c (faults d).
Definition set_faults (f : list Outcome) (d : Disk) : Disk :=
  mkDisk (sealed_dirs d) (candidate_dirs d) (current_file d) f.

Abbreviation Store := (Mut Disk CoreError).

Definition next_outcome (d : Disk) : Outcome * Disk :=
  match faults d with
  | [] => (Succeeds, d)
  | o :: rest => (o, set_faults rest d)
  end.

(** One system call: its effect when it succeeds, and what it leaves when not. *)
Definition io (operation : string) (effect : Disk -> Disk) (broken : nat -> Disk -> Disk) :
    Store unit := fun d =>
  match next_outcome d with
  | (Succeeds, d') => (Ok tt, effect d')
  | (Fails n, d') => (Err (GenerationPublishFailed operation), broken n d')
  end.
Definition untouched (n : nat) (d : Disk) : Disk := d.

(** [fs::read] of a file that may not be there. *)
Definition io_read (operation : string) (file : option FileNode) : Store (list Z) :=
  io operation id untouched ;;
  match file with
  | Some f => mret (file_bytes f)
  | None => mut_fail (GenerationPublishFailed operation)
  end.

(** [remove_dir_all]: a failure leaves the directory with any of its files. *)
Definition partly_removed (n : nat) (dir : Dir) : Dir :=
  mkDir (dir_real dir)
    (if Nat.testbit n 0 then None else config_json dir)
    (if Nat.testbit n 1 then None else manifest_json dir)
    (if Nat.testbit n 2 then None else nodes_json dir).

(** [write_sync] into a file of a candidate directory. *)
Definition write_sync (operation : string) (generation : Z) (content : list Z)
    (put : FileNode -> Dir -> Dir) : Store unit :=
  let write bs d :=
    set_candidates (alter (put (PrivateFile bs)) generation (candidate_dirs d)) d in
  io operation (write content) (fun n => write (take n content)).
Definition put_config f dir := mkDir (dir_real dir) (Some f) (manifest_json dir) (nodes_json dir).
Definition put_manifest f dir := mkDir (dir_real dir) (config_json dir) (Some f) (nodes_json dir).
Definition put_nodes f dir := mkDir (dir_real dir) (config_json dir) (manifest_json dir) (Some f).

Definition sync_directory (operation : string) : Store unit := io operation id untouched.

Record PreparedCandidate : Type := mkPreparedCandidate {
  prepared_root : string;
  prepared_generation : Z;
}.
Record SealedGeneration : Type := mkSealed {
  sealed_root : string;
  sealed_generation_id : Z;
}.

Section store.
Context (sha256_hex : list Z -> string).
Context (encode_manifest : GenerationManifest -> list Z)
        (decode_manifest : list Z -> option GenerationManifest)
        (encode_nodes : GenerationNodeRegistry -> list Z)
        (decode_nodes : list Z -> option GenerationNodeRegistry).
(** The canonical root of the store at hand. *)
Context (root : string).

Definition with_node_registry (c : Candidate) (registry : GenerationNodeRegistry) :
    Result CoreError Candidate :=
  if negb (len (node_records registry) =? node_count (cand_config c))
  then Err (GenerationPublishFailed "node_registry")
  else
    let m := cand_manifest c in
    Ok (mkCandidate (cand_generation c) (cand_config c)
          (mkManifest (mf_schema m) (mf_generation m) (mf_config_sha256 m) (mf_node_count m)
             (Some (sha256_hex (encode_nodes registry))) (mf_source_config_digest m)
             (mf_source_ids m))
          (Some registry)).

Definition current_generation : Store (option Z) := fun d =>
  match current_file d with
  | None => (Ok None, d)
  | Some text =>
      (io "read_current" id untouched ;;
       match parse_u64 (trim text) with
       | None => mut_fail InvalidCurrentPointer
       | Some value => mut_lift (g ← GenerationId_new value; Ok (Some g))
       end) d
  end.

Definition is_private_regular_file (f : option FileNode) : bool :=
  match f with Some (PrivateFile _) => true | _ => false end.

Definition ensure_sealed_exists (generation : Z) : Store unit := fun d =>
  match sealed_dirs d !! generation with
  | None => (Err (GenerationPublishFailed "verify_generation"), d)
  | Some dir =>
      (if negb (dir_real dir) || negb (is_private_regular_file (config_json dir))
          || negb (is_private_regular_file (manifest_json dir))
       then mut_fail (GenerationPublishFailed "verify_generation")
       else
         manifest_bytes ← io_read "read_manifest" (manifest_json dir);
         match decode_manifest manifest_bytes with
         | None => mut_fail (GenerationPublishFailed "verify_manifest")
         | Some manifest =>
             config ← io_read "read_config" (config_json dir);
             if negb (String.eqb (mf_schema manifest) MANIFEST_SCHEMA)
                || negb (mf_generation manifest =? generation)
                || negb (String.eqb (mf_config_sha256 manifest) (sha256_hex config))
             then mut_fail (GenerationPublishFailed "verify_manifest")
             else
               match mf_node_registry_sha256 manifest with
               | Some expected =>
                   if negb (is_private_regular_file (nodes_json dir))
                   then mut_fail (GenerationPublishFailed "verify_node_registry")
                   else
                     nodes ← io_read "read_node_registry" (nodes_json dir);
                     match decode_nodes nodes with
                     | None => mut_fail (GenerationPublishFailed "verify_node_registry")
                     | Some registry =>
                         if negb (String.eqb expected (sha256_hex nodes))
                            || negb (String.eqb (nodes_schema registry) NODE_REGISTRY_SCHEMA)
                            || negb (len (node_records registry) =? mf_node_count manifest)
                         then mut_fail (GenerationPublishFailed "verify_node_registry")
                         else mret tt
                     end
               | None =>
                   match nodes_json dir with
                   | Some _ => mut_fail (GenerationPublishFailed "verify_node_registry")
                   | None => mret tt
                   end
               end
         end) d
  end.
Definition verify_generation := ensure_sealed_exists.

Definition sealed_generation (generation : Z) : Store SealedGeneration :=
  ensure_sealed_exists generation ;; mret (mkSealed root generation).

Definition current_sealed_generation : Store (option SealedGeneration) :=
  current ← current_generation;
  match current with
  | None => mret None
  | Some generation => s ← sealed_generation generation; mret (Some s)
  end.

Definition sealed_file (generation : Z) (get : Dir -> option FileNode) (d : Disk) :
    option FileNode := sealed_dirs d !! generation ≫= get.

Definition current_manifest : Store (option GenerationManifest) :=
  current ← current_generation;
  match current with
  | None => mret None
  | Some generation =>
      verify_generation generation ;;
      d ← mut_get;
      bs ← io_read "read_manifest" (sealed_file generation manifest_json d);
      match decode_manifest bs with
      | Some m => mret (Some m)
      | None => mut_fail (GenerationPublishFailed "read_manifest")
      end
  end.

Definition read_node_registry (generation : Z) : Store GenerationNodeRegistry :=
  verify_generation generation ;;
  d ← mut_get;
  bs ← io_read "read_node_registry" (sealed_file generation nodes_json d);
  match decode_nodes bs with
  | Some r => mret r
  | None => mut_fail (GenerationPublishFailed "read_node_registry")
  end.

(** [let _ = m;]: run for its effect. *)
Definition ignore {A} (m : Store A) : Store unit := fun d => (Ok tt, (m d).2).
(** [match m { Ok(x) => .., Err(error) => { cleanup; return Err(error) } }] *)
Definition on_error {A} (m : Store A) (cleanup : Store unit) : Store A := fun d =>
  match m d with
  | (Ok a, d') => (Ok a, d')
  | (Err err, d') => (Err err, (cleanup d').2)
  end.

Definition remove_candidate (operation : string) (generation : Z) : Store unit :=
  io operation (fun d => set_candidates (delete generation (candidate_dirs d)) d)
    (fun n d => set_candidates (alter (partly_removed n) generation (candidate_dirs d)) d).
Definition remove_candidate_if_present (operation : string) (generation : Z) : Store unit :=
  fun d =>
  match candidate_dirs d !! generation with
  | Some _ => remove_candidate operation generation d
  | None => (Ok tt, d)
  end.

Definition write_candidate (c : Candidate) : Store unit :=
  let g := cand_generation c in
  write_sync "write_config" g (cfg_bytes (cand_config c)) put_config ;;
  (match cand_registry c with
   | Some registry => write_sync "write_node_registry" g (encode_nodes registry) put_nodes
   | None => mret tt
   end) ;;
  write_sync "write_manifest" g (encode_manifest (cand_manifest c)) put_manifest ;;
  sync_directory "sync_candidate".

Definition prepare_candidate (c : Candidate) : Store PreparedCandidate := fun d =>
  let g := cand_generation c in
  match sealed_dirs d !! g with
  | Some _ => (Err (GenerationPublishFailed "reserve_generation"), d)
  | None =>
      (remove_candidate_if_present "remove_stale_candidate" g ;;
       io "create_candidate" (fun d => set_candidates (<[ g := empty_dir ]> (candidate_dirs d)) d)
         untouched ;;
       on_error (write_candidate c) (remove_candidate "discard_candidate" g) ;;
       mret (mkPreparedCandidate root g)) d
  end.

Definition ensure_owned (token_root : string) : Store unit :=
  if String.eqb token_root root then mret tt
  else mut_fail (GenerationPublishFailed "verify_store_owner").

Definition rename_candidate (g : Z) : Store SealedGeneration := fun d =>
  match sealed_dirs d !! g, candidate_dirs d !! g with
  | Some _, _ => (Err (GenerationPublishFailed "seal_generation"), d)
  | None, None =>
      (io "seal_generation" id untouched ;; mut_fail (GenerationPublishFailed "seal_generation")) d
  | None, Some dir =>
      (io "seal_generation"
         (fun d => set_candidates (delete g (candidate_dirs d))
                     (set_sealed (<[ g := dir ]> (sealed_dirs d)) d)) untouched ;;
       sync_directory "sync_generations" ;;
       mret (mkSealed root g)) d
  end.
Definition seal_candidate (p : PreparedCandidate) : Store SealedGeneration :=
  ensure_owned (prepared_root p) ;; rename_candidate (prepared_generation p).

(** The temporary [.current-N] file is written, then renamed over [current]. *)
Definition current_text (generation : Z) : list Z := print_u64 generation ++ [10].
Definition write_current (generation : Z) : Store unit :=
  io "write_current" id untouched ;;
  io "publish_current" (set_current (Some (current_text generation))) untouched ;;
  sync_directory "sync_generations".

Definition commit_generation (s : SealedGeneration) : Store unit :=
  ensure_owned (sealed_root s) ;;
  ensure_sealed_exists (sealed_generation_id s) ;;
  write_current (sealed_generation_id s).

Definition rollback_to (generation : Z) : Store unit :=
  ensure_sealed_exists generation ;; write_current generation.

Definition discard_prepared (p : PreparedCandidate) : Store unit :=
  ensure_owned (prepared_root p) ;;
  remove_candidate_if_present "discard_candidate" (prepared_generation p).

Definition remove_sealed_if_present (g : Z) : Store unit := fun d =>
  match sealed_dirs d !! g with
  | Some _ =>
      io "discard_generation" (fun d => set_sealed (delete g (sealed_dirs d)) d)
        (fun n d => set_sealed (alter (partly_removed n) g (sealed_dirs d)) d) d
  | None => (Ok tt, d)
  end.
Definition discard_sealed (s : SealedGeneration) : Store unit :=
  ensure_owned (sealed_root s) ;;
  current ← current_generation;
  if bool_decide (current = Some (sealed_generation_id s))
  then mut_fail (GenerationPublishFailed "discard_generation")
  else remove_sealed_if_present (sealed_generation_id s) ;; sync_directory "sync_generations".

Definition publish_with_path (c : Candidate) (validate : list Z -> Result CoreError unit) :
    Store unit :=
  prepared ← prepare_candidate c;
  on_error (mut_lift (validate (cfg_bytes (cand_config c)))) (ignore (discard_prepared prepared)) ;;
  sealed ← on_error (seal_candidate prepared) (ignore (discard_prepared prepared));
  on_error (commit_generation sealed) (ignore (discard_sealed sealed)).
End store.

(** ** The text of the [current] file *)
Lemma current_text_parses g : is_uint 64 g -> parse_u64 (trim (current_text g)) = Some g.
Proof.
  intros Hg. destruct (print_u64_digits g Hg) as [Hd Hne]. unfold current_text.
  rewrite trim_digits by done. by apply parse_print_u64.
Qed.

(** ** What the operations leave alone *)
Lemma next_outcome_inv d o d' :
  next_outcome d = (o, d') ->
  sealed_dirs d' = sealed_dirs d /\ candidate_dirs d' = candidate_dirs d
  /\ current_file d' = current_file d.
Proof. unfold next_outcome. case_match; by intros [= <- <-]. Qed.

Lemma keeps_io (R : Disk -> Disk -> Prop) `{!PreOrder R} op effect broken :
  (forall d f, R d (set_faults f d)) ->
  (forall d, R d (effect d)) -> (forall n d, R d (broken n d)) -> keeps R (io op effect broken).
Proof.
  intros Hf He Hb d. unfold io, next_outcome.
  destruct (faults d) as [|[|n] rest]; simpl; [apply He|..];
    (etransitivity; [apply Hf|]); [apply He|apply Hb].
Qed.
Lemma keeps_on_error (R : Disk -> Disk -> Prop) `{!PreOrder R} {A} (m : Store A) cleanup :
  keeps R m -> keeps R cleanup -> keeps R (on_error m cleanup).
Proof.
  intros Hm Hc d. unfold on_error. specialize (Hm d). destruct (m d) as [[a|e] d']; [done|].
  simpl in *. etransitivity; [exact Hm|apply Hc].
Qed.
Lemma keeps_ignore (R : Disk -> Disk -> Prop) {A} (m : Store A) : keeps R m -> keeps R (ignore m).
Proof. intros Hm d. apply Hm. Qed.

(** Nothing changed but the outcomes consumed. *)
Definition same_tree (d d' : Disk) : Prop :=
  sealed_dirs d' = sealed_dirs d /\ candidate_dirs d' = candidate_dirs d
  /\ current_file d' = current_file d.
(** Generation [g]'s directories apart, nothing changed. *)
Definition touches (g : Z) (d d' : Disk) : Prop :=
  delete g (sealed_dirs d') = delete g (sealed_dirs d) /\ current_file d' = current_file d.
(** Only candidates changed. *)
Definition candidates_only (d d' : Disk) : Prop :=
  sealed_dirs d' = sealed_dirs d /\ current_file d' = current_file d.

#[export] Instance same_tree_preorder : PreOrder same_tree.
Proof. split; [by repeat split|]. unfold same_tree. intros ??? (?&?&?) (?&?&?). repeat split; congruence. Qed.
#[export] Instance touches_preorder g : PreOrder (touches g).
Proof. split; [by split|]. unfold touches. intros ??? (?&?) (?&?). split; congruence. Qed.
#[export] Instance candidates_only_preorder : PreOrder candidates_only.
Proof. split; [by split|]. unfold candidates_only. intros ??? (?&?) (?&?). split; congruence. Qed.

Lemma same_tree_candidates d d' : same_tree d d' -> candidates_only d d'.
Proof. by intros (? & _ & ?). Qed.
Lemma candidates_touches g d d' : candidates_only d d' -> touches g d d'.
Proof. intros [H1 H2]. split; [by rewrite H1|done]. Qed.

Ltac solve_keeps :=
  repeat first
    [ assumption
    | lazymatch goal with
      | |- keeps _ (mret _) => apply (keeps_ret _)
      | |- keeps _ (mut_fail _) => apply (keeps_fail _)
      | |- keeps _ (mut_lift _) => apply (keeps_lift _)
      | |- keeps _ (on_error _ _) => apply (keeps_on_error _)
      | |- keeps _ (ignore _) => apply keeps_ignore
      | |- keeps _ (io _ _ _) => apply (keeps_io _); intros; by repeat split
      | |- keeps _ (_ ≫= _) => apply (keeps_bind _); [|intros ?]
      | |- keeps _ (io_read _ _) => unfold io_read
      | |- keeps _ (sync_directory _) => unfold sync_directory
      | |- keeps _ (write_sync _ _ _ _) => unfold write_sync
      end
    | progress case_match ].

Section facts.
Context (sha256_hex : list Z -> string).
Context (encode_manifest : GenerationManifest -> list Z)
        (decode_manifest : list Z -> option GenerationManifest)
        (encode_nodes : GenerationNodeRegistry -> list Z)
        (decode_nodes : list Z -> option GenerationNodeRegistry).
Context (root : string).

Abbreviation Ensure := (ensure_sealed_exists sha256_hex decode_manifest decode_nodes).
Abbreviation Prepare := (prepare_candidate encode_manifest encode_nodes root).
Abbreviation Seal := (seal_candidate root).
Abbreviation Commit := (commit_generation sha256_hex decode_manifest decode_nodes root).
Abbreviation Rollback := (rollback_to sha256_hex decode_manifest decode_nodes).
Abbreviation DiscardPrepared := (discard_prepared root).
Abbreviation DiscardSealed := (discard_sealed root).
Abbreviation Publish := (publish_with_path sha256_hex encode_manifest decode_manifest
  encode_nodes decode_nodes root).

Lemma io_read_same op f : keeps same_tree (io_read op f).
Proof. solve_keeps. Qed.
Lemma current_generation_same : keeps same_tree current_generation.
Proof.
  intros d. unfold current_generation. destruct (current_file d) as [t|]; [|simpl; reflexivity].
  revert d. change (keeps same_tree (io "read_current" id untouched ;;
    match parse_u64 (trim t) with
    | None => mut_fail InvalidCurrentPointer
    | Some value => mut_lift (g ← GenerationId_new value; Ok (Some g))
    end)). solve_keeps.
Qed.
Lemma ensure_same g : keeps same_tree (Ensure g).
Proof.
  intros d. unfold ensure_sealed_exists. destruct (sealed_dirs d !! g) as [dir|]; [|simpl; reflexivity].
  match goal with |- same_tree _ (?m d).2 => enough (keeps same_tree m) by auto end.
  solve_keeps.
Qed.
Lemma ensure_owned_same r : keeps same_tree (ensure_owned root r).
Proof. unfold ensure_owned. solve_keeps. Qed.

Lemma remove_candidate_keeps op g : keeps candidates_only (remove_candidate op g).
Proof. unfold remove_candidate. solve_keeps. Qed.
Lemma remove_candidate_if_present_keeps op g :
  keeps candidates_only (remove_candidate_if_present op g).
Proof.
  intros d. unfold remove_candidate_if_present. case_match; [|simpl; reflexivity].
  apply remove_candidate_keeps.
Qed.
Lemma write_candidate_keeps c : keeps candidates_only (write_candidate encode_manifest encode_nodes c).
Proof. unfold write_candidate. solve_keeps. Qed.
Lemma prepare_keeps c : keeps candidates_only (Prepare c).
Proof.
  intros d. unfold prepare_candidate. case_match; [simpl; reflexivity|].
  match goal with |- candidates_only _ (?m d).2 => enough (keeps candidates_only m) by auto end.
  pose proof (remove_candidate_if_present_keeps "remove_stale_candidate" (cand_generation c)).
  pose proof (remove_candidate_keeps "discard_candidate" (cand_generation c)).
  pose proof (write_candidate_keeps c). solve_keeps.
Qed.
Lemma discard_prepared_keeps p : keeps candidates_only (DiscardPrepared p).
Proof.
  unfold discard_prepared.
  pose proof (keeps_weaken _ _ _ same_tree_candidates (ensure_owned_same (prepared_root p))).
  pose proof (remove_candidate_if_present_keeps "discard_candidate" (prepared_generation p)).
  solve_keeps.
Qed.

(** *** Verified generations *)
Record dir_valid (g : Z) (dir : Dir) : Prop := {
  valid_real : dir_real dir = true;
  valid_files : exists cfg bs m,
    config_json dir = Some (PrivateFile cfg) /\ manifest_json dir = Some (PrivateFile bs)
    /\ decode_manifest bs = Some m /\ mf_schema m = MANIFEST_SCHEMA /\ mf_generation m = g
    /\ mf_config_sha256 m = sha256_hex cfg
    /\ match mf_node_registry_sha256 m with
       | Some expected => exists nodes r,
           nodes_json dir = Some (PrivateFile nodes) /\ decode_nodes nodes = Some r
           /\ expected = sha256_hex nodes /\ nodes_schema r = NODE_REGISTRY_SCHEMA
           /\ len (node_records r) = mf_node_count m
       | None => nodes_json dir = None
       end;
}.
Definition gen_valid (g : Z) (m : gmap Z Dir) : Prop := exists dir, m !! g = Some dir /\ dir_valid g dir.

Lemma io_read_Ok op f d bs d' :
  io_read op f d = (Ok bs, d') -> exists n, f = Some n /\ bs = file_bytes n.
Proof.
  unfold io_read. intros (a & d1 & _ & H)%bind_Ok. destruct f as [n|]; [|done].
  injection H as <- _. eauto.
Qed.

Lemma ensure_valid g d d' : Ensure g d = (Ok tt, d') -> gen_valid g (sealed_dirs d).
Proof.
  unfold ensure_sealed_exists. destruct (sealed_dirs d !! g) as [dir|] eqn:Ed; [|done].
  split_if Hg; [done|]. rewrite !orb_false_iff, !negb_false_iff in Hg.
  destruct Hg as [[Hreal Hcfg] Hman].
  destruct (config_json dir) as [[cfg|]|] eqn:Ec; try done.
  destruct (manifest_json dir) as [[bs|]|] eqn:Em; try done.
  intros (x & d1 & (n & [= <-] & ->)%io_read_Ok & H)%bind_Ok. simpl in H.
  destruct (decode_manifest bs) as [m|] eqn:Edm; [|done].
  apply bind_Ok in H as (y & d2 & (n & [= <-] & ->)%io_read_Ok & H). simpl in H.
  split_if_in H Hck; [done|]. rewrite !orb_false_iff, !negb_false_iff in Hck.
  destruct Hck as [[H1%String.eqb_eq H2%Z.eqb_eq] H3%String.eqb_eq].
  exists dir. split; [done|]. split; [done|]. exists cfg, bs, m. repeat (split; [done|]).
  destruct (mf_node_registry_sha256 m) as [expected|].
  - split_if_in H Hn; [done|]. apply negb_false_iff in Hn.
    destruct (nodes_json dir) as [[nodes|]|] eqn:En; try done.
    apply bind_Ok in H as (z & d3 & (n & [= <-] & ->)%io_read_Ok & H). simpl in H.
    destruct (decode_nodes nodes) as [r|] eqn:Er; [|done].
    split_if_in H Hck; [done|]. rewrite !orb_false_iff, !negb_false_iff in Hck.
    destruct Hck as [[G1%String.eqb_eq G2%String.eqb_eq] G3%Z.eqb_eq].
    exists nodes, r. auto.
  - by destruct (nodes_json dir).
Qed.

(** The [current] file, when it names a generation, names a verified one. *)
Definition names (text : list Z) (g : Z) : Prop := parse_u64 (trim text) = Some g /\ g <> 0.
Definition current_ok (d : Disk) : Prop :=
  forall text g, current_file d = Some text -> names text g -> gen_valid g (sealed_dirs d).
Definition keeps_ok (d d' : Disk) : Prop := current_ok d -> current_ok d'.
#[local] Instance keeps_ok_preorder : PreOrder keeps_ok.
Proof. split; [by intros d Hd|]. intros x y z H1 H2 H. by apply H2, H1. Qed.

Lemma candidates_keeps_ok d d' : candidates_only d d' -> keeps_ok d d'.
Proof. intros [H1 H2] Hok text g. rewrite H1, H2. apply Hok. Qed.

Lemma write_current_steps g d res d' :
  write_current g d = (res, d') ->
  sealed_dirs d' = sealed_dirs d /\ candidate_dirs d' = candidate_dirs d
  /\ (res = Ok tt -> current_file d' = Some (current_text g))
  /\ (current_file d' = current_file d \/ current_file d' = Some (current_text g)).
Proof.
  unfold write_current, sync_directory, mbind, Mut_bind, io.
  destruct (next_outcome d) as [[|n] d1] eqn:E1; apply next_outcome_inv in E1 as (A1 & A3 & A2);
    [|intros [= <- <-]; by repeat split; [..|left]].
  simpl. destruct (next_outcome d1) as [[|n] d2] eqn:E2;
    apply next_outcome_inv in E2 as (B1 & B3 & B2); cbv [untouched id] in *.
  2: { intros [= <- <-]. repeat split; [congruence|congruence|done|left; congruence]. }
  destruct (next_outcome (set_current _ d2)) as [[|n] d3] eqn:E3;
    apply next_outcome_inv in E3 as (C1 & C3 & C2); intros [= <- <-]; simpl in C1, C2, C3;
    (repeat split; [congruence|congruence|done|by right]).
Qed.

Lemma verified_write_ok g : is_uint 64 g -> keeps keeps_ok (Ensure g ;; write_current g).
Proof.
  intros Hg d Hok. destruct ((Ensure g ;; write_current g) d) as [res d'] eqn:E. simpl.
  apply bind_inv in E as [(a & d1 & He & Hw)|(e & He & _)].
  - pose proof (ensure_same g d) as (S1 & _ & S2). rewrite He in S1, S2. simpl in S1, S2.
    destruct a. apply ensure_valid in He.
    apply write_current_steps in Hw as (W1 & _ & _ & [W2|W2]).
    + apply (candidates_keeps_ok d d'); [split; congruence|done].
    + intros text g' Ht [Hp _]. rewrite W2 in Ht. injection Ht as <-.
      rewrite current_text_parses in Hp by done. injection Hp as <-. by rewrite W1, S1.
  - pose proof (ensure_same g d) as (S1 & _ & S2). rewrite He in S1, S2. simpl in S1, S2.
    apply (candidates_keeps_ok d d'); [by split|done].
Qed.

Lemma commit_ok s : is_uint 64 (sealed_generation_id s) -> keeps keeps_ok (Commit s).
Proof.
  intros Hg. unfold commit_generation. apply (keeps_bind _); [|intros _; by apply verified_write_ok].
  eapply keeps_weaken; [|apply ensure_owned_same].
  intros. by apply candidates_keeps_ok, same_tree_candidates.
Qed.

Lemma seal_ok p : keeps keeps_ok (Seal p).
Proof.
  unfold seal_candidate. apply (keeps_bind _).
  { eapply keeps_weaken; [|apply ensure_owned_same].
    intros. by apply candidates_keeps_ok, same_tree_candidates. }
  intros _ d. unfold rename_candidate. set (g := prepared_generation p).
  destruct (sealed_dirs d !! g) eqn:Es; [simpl; reflexivity|].
  destruct (candidate_dirs d !! g) as [dir|].
  2: { match goal with |- keeps_ok _ (?m d).2 => enough (keeps same_tree m) as Hk end.
       - by apply candidates_keeps_ok, same_tree_candidates.
       - solve_keeps. }
  intros Hok. unfold sync_directory, mbind, Mut_bind, io.
  destruct (next_outcome d) as [[|n] d1] eqn:E1; apply next_outcome_inv in E1 as (A1 & _ & A2).
  2: { simpl. apply (candidates_keeps_ok d d1); [by split|done]. }
  assert (current_ok (set_candidates (delete g (candidate_dirs d1))
    (set_sealed (<[g:=dir]> (sealed_dirs d1)) d1))) as Hok1.
  { intros text h Ht Hn. simpl in *. rewrite A1, A2 in *.
    destruct (Hok text h Ht Hn) as (dir' & Hd & Hv). exists dir'. split; [|done].
    rewrite lookup_insert_ne; [done|]. intros ->. by rewrite Es in Hd. }
  destruct (next_outcome _) as [o d2] eqn:E2. apply next_outcome_inv in E2 as (B1 & _ & B2).
  assert (current_ok d2) as Hok2 by (intros text h; rewrite B1, B2; apply Hok1).
  by destruct o.
Qed.

Lemma current_generation_Ok d r d' :
  current_generation d = (Ok r, d') ->
  match current_file d with
  | None => r = None
  | Some text => exists g, r = Some g /\ names text g
  end.
Proof.
  unfold current_generation. destruct (current_file d) as [text|]; [|by intros [= <- _]].
  intros (a & d1 & _ & H)%bind_Ok. destruct (parse_u64 (trim text)) as [v|] eqn:Ep; [|done].
  unfold mut_lift, GenerationId_new in H. destruct (Z.eqb_spec v 0); [done|].
  injection H as <- _. exists v. done.
Qed.

Lemma discard_sealed_ok s : keeps keeps_ok (DiscardSealed s).
Proof.
  unfold discard_sealed. apply (keeps_bind _).
  { eapply keeps_weaken; [|apply ensure_owned_same].
    intros. by apply candidates_keeps_ok, same_tree_candidates. }
  intros _ d Hok. set (g := sealed_generation_id s).
  match goal with |- current_ok (?m d).2 => destruct (m d) as [res d'] eqn:E end. simpl.
  pose proof (current_generation_same d) as (S1 & S3 & S2).
  apply bind_inv in E as [(c & d1 & Hc & H)|(e & He & _)].
  2: { rewrite He in S1, S2. simpl in S1, S2. by apply (candidates_keeps_ok d d'). }
  rewrite Hc in S1, S2. simpl in S1, S2. apply current_generation_Ok in Hc.
  assert (current_ok d1) as Hok1 by (by apply (candidates_keeps_ok d d1)).
  case_bool_decide as Hcur; [by injection H as _ <-|].
  assert (forall f d2, current_file d2 = current_file d ->
    sealed_dirs d2 = f (sealed_dirs d1) ->
    (forall m h, h <> g -> f m !! h = m !! h) -> current_ok d2) as Hother.
  { intros f d2 Hf1 Hf2 Hf text h Ht Hn. rewrite Hf1 in Ht. rewrite Ht in Hc.
    destruct Hc as (h' & -> & [Hn' _]). destruct Hn as [Hp Hz]. rewrite Hn' in Hp.
    injection Hp as ->. destruct (Hok text h) as (dir & Hd & Hv); [done|done|].
    exists dir. split; [|done]. rewrite Hf2, Hf, S1; [done|]. intros ->. done. }
  assert (keeps keeps_ok (sync_directory "sync_generations")) as Hsync.
  { apply (keeps_weaken same_tree); [|solve_keeps].
    intros. by apply candidates_keeps_ok, same_tree_candidates. }
  apply bind_inv in H as [(u & d2 & Hr & H)|(e & Hr & _)].
  - specialize (Hsync d2). rewrite H in Hsync. apply Hsync. simpl.
    unfold remove_sealed_if_present, io in Hr. destruct (sealed_dirs d1 !! g); [|by injection Hr as _ <-].
    destruct (next_outcome d1) as [[|n] d3] eqn:E3; [|done]. injection Hr as _ <-.
    apply next_outcome_inv in E3 as (B1 & _ & B2).
    apply (Hother (delete g)); [simpl; congruence|simpl; by rewrite B1|].
    intros m h Hh. by rewrite lookup_delete_ne.
  - unfold remove_sealed_if_present, io in Hr. destruct (sealed_dirs d1 !! g); [|done].
    destruct (next_outcome d1) as [[|n] d3] eqn:E3; [done|]. injection Hr as _ <-.
    apply next_outcome_inv in E3 as (B1 & _ & B2).
    apply (Hother (alter (partly_removed n) g)); [simpl; congruence|simpl; by rewrite B1|].
    intros m h Hh. by rewrite lookup_alter_ne.
Qed.

(** *** Publishing *)
Definition dir_of (c : Candidate) : Dir :=
  mkDir true (Some (PrivateFile (cfg_bytes (cand_config c))))
    (Some (PrivateFile (encode_manifest (cand_manifest c))))
    ((fun r => PrivateFile (encode_nodes r)) <$> cand_registry c).

Lemma io_Ok op effect broken d u d' :
  io op effect broken d = (Ok u, d') -> exists d1, same_tree d d1 /\ d' = effect d1.
Proof.
  unfold io. destruct (next_outcome d) as [[|n] d1] eqn:E; [|done]. intros [= _ <-].
  exists d1. split; [|done]. by apply next_outcome_inv in E.
Qed.
Lemma sync_Ok op d u d' : sync_directory op d = (Ok u, d') -> same_tree d d'.
Proof. intros (d1 & H & ->)%io_Ok. exact H. Qed.

Lemma write_sync_Ok op g content put d u d' dir :
  candidate_dirs d !! g = Some dir -> write_sync op g content put d = (Ok u, d') ->
  candidates_only d d' /\ candidate_dirs d' !! g = Some (put (PrivateFile content) dir).
Proof.
  unfold write_sync. intros Hd H. apply io_Ok in H as (d1 & (S1 & S2 & S3) & ->). simpl. split; [by split|].
  rewrite lookup_alter_eq, S2, Hd. done.
Qed.

Lemma write_candidate_Ok c d u d' :
  candidate_dirs d !! cand_generation c = Some empty_dir ->
  write_candidate encode_manifest encode_nodes c d = (Ok u, d') ->
  candidate_dirs d' !! cand_generation c = Some (dir_of c).
Proof.
  intros Hd. unfold write_candidate.
  intros (u1 & d1 & H1 & H)%bind_Ok. apply (write_sync_Ok _ _ _ _ _ _ _ _ Hd) in H1 as [_ H1].
  apply bind_Ok in H as (u2 & d2 & H2 & H).
  apply bind_Ok in H as (u3 & d3 & H3 & H4). apply sync_Ok in H4 as (_ & H4 & _). rewrite H4.
  unfold dir_of. destruct (cand_registry c) as [r|].
  - apply (write_sync_Ok _ _ _ _ _ _ _ _ H1) in H2 as [_ H2].
    by apply (write_sync_Ok _ _ _ _ _ _ _ _ H2) in H3 as [_ H3].
  - injection H2 as _ <-. by apply (write_sync_Ok _ _ _ _ _ _ _ _ H1) in H3 as [_ H3].
Qed.

Lemma on_error_Ok {A} (m : Store A) cleanup d a d' :
  on_error m cleanup d = (Ok a, d') -> m d = (Ok a, d').
Proof. unfold on_error. destruct (m d) as [[]]; naive_solver. Qed.

Lemma prepare_Ok c d p d' :
  Prepare c d = (Ok p, d') ->
  p = mkPreparedCandidate root (cand_generation c) /\ candidates_only d d'
  /\ sealed_dirs d !! cand_generation c = None
  /\ candidate_dirs d' !! cand_generation c = Some (dir_of c).
Proof.
  intros H. pose proof (prepare_keeps c d) as Hk. rewrite H in Hk. simpl in Hk.
  unfold prepare_candidate in H. destruct (sealed_dirs d !! _) eqn:Es; [done|].
  apply bind_Ok in H as (u1 & d1 & H1 & H). apply bind_Ok in H as (u2 & d2 & H2 & H).
  apply bind_Ok in H as (u3 & d3 & H3%on_error_Ok & H). injection H as <- <-.
  split; [done|]. split; [done|]. split; [done|].
  eapply write_candidate_Ok; [|exact H3]. apply io_Ok in H2 as (d4 & _ & ->). simpl.
  apply lookup_insert_eq.
Qed.

Lemma seal_Ok p d s d' :
  Seal p d = (Ok s, d') ->
  let g := prepared_generation p in
  s = mkSealed root g
  /\ exists dir, candidate_dirs d !! g = Some dir /\ sealed_dirs d' = <[ g := dir ]> (sealed_dirs d)
     /\ candidate_dirs d' = delete g (candidate_dirs d) /\ current_file d' = current_file d.
Proof.
  unfold seal_candidate. intros (u & d1 & H1 & H)%bind_Ok.
  pose proof (ensure_owned_same (prepared_root p) d) as (S1 & S2 & S3). rewrite H1 in S1, S2, S3.
  simpl in S1, S2, S3. unfold rename_candidate in H. cbv zeta.
  destruct (sealed_dirs d1 !! _); [done|].
  destruct (candidate_dirs d1 !! _) as [dir|] eqn:Ed.
  2: { by apply bind_Ok in H as (? & ? & _ & ?). }
  apply bind_Ok in H as (u2 & d2 & (d3 & (T1 & T2 & T3) & ->)%io_Ok & H).
  apply bind_Ok in H as (u4 & d4 & (U1 & U2 & U3)%sync_Ok & [= <- <-]). simpl in *.
  split; [done|]. exists dir. rewrite U1, U2, U3, T1, T2, T3, <- S1, <- S2, <- S3. done.
Qed.

Lemma seal_touches p : keeps (touches (prepared_generation p)) (Seal p).
Proof.
  unfold seal_candidate. apply (keeps_bind _).
  { eapply keeps_weaken; [|apply ensure_owned_same].
    intros. by apply candidates_touches, same_tree_candidates. }
  intros _ d. unfold rename_candidate. set (g := prepared_generation p).
  destruct (sealed_dirs d !! g) eqn:Es; [simpl; reflexivity|].
  destruct (candidate_dirs d !! g) as [dir|];
    match goal with |- touches _ _ (?m d).2 => enough (keeps (touches g) m) by auto end;
    [|solve_keeps].
  apply (keeps_bind _); [|intros; solve_keeps]. apply (keeps_io _); intros; [by split| |by split].
  split; simpl; [|done]. by rewrite delete_insert_eq.
Qed.

Lemma discard_sealed_touches s : keeps (touches (sealed_generation_id s)) (DiscardSealed s).
Proof.
  unfold discard_sealed. apply (keeps_bind _).
  { eapply keeps_weaken; [|apply ensure_owned_same].
    intros. by apply candidates_touches, same_tree_candidates. }
  intros _. apply (keeps_bind _).
  { eapply keeps_weaken; [|apply current_generation_same].
    intros. by apply candidates_touches, same_tree_candidates. }
  intros c. case_match; [solve_keeps|]. apply (keeps_bind _); [|intros; solve_keeps].
  intros d. unfold remove_sealed_if_present. case_match; [|simpl; reflexivity].
  match goal with |- touches ?g _ (?m d).2 => enough (keeps (touches g) m) by auto end.
  apply (keeps_io _); intros; [by split|..]; split; simpl; try done.
  - by rewrite delete_delete_eq.
  - apply map_eq. intros i. destruct (decide (i = sealed_generation_id s)) as [->|Hne].
    + by rewrite !lookup_delete_eq.
    + by rewrite !lookup_delete_ne, lookup_alter_ne.
Qed.

Lemma commit_cases s res d d' :
  Commit s d = (res, d') ->
  let g := sealed_generation_id s in
  sealed_dirs d' = sealed_dirs d /\ candidate_dirs d' = candidate_dirs d
  /\ (res = Ok tt -> current_file d' = Some (current_text g))
  /\ (current_file d' = current_file d
      \/ (current_file d' = Some (current_text g) /\ gen_valid g (sealed_dirs d))).
Proof.
  cbv zeta. unfold commit_generation. intros H.
  pose proof (ensure_owned_same (sealed_root s) d) as (S1 & S2 & S3).
  apply bind_inv in H as [([] & d1 & H1 & H)|(e & H1 & ->)]; rewrite H1 in S1, S2, S3;
    simpl in S1, S2, S3; [|by repeat split; [..|left]].
  pose proof (ensure_same (sealed_generation_id s) d1) as (T1 & T2 & T3).
  apply bind_inv in H as [([] & d2 & H2 & H)|(e & H2 & ->)]; rewrite H2 in T1, T2, T3;
    simpl in T1, T2, T3; [|repeat split; [congruence|congruence|done|left; congruence]].
  apply ensure_valid in H2. apply write_current_steps in H as (W1 & W2 & W3 & W4).
  repeat split; [congruence|congruence|done|].
  destruct W4 as [W4|W4]; [left; congruence|right]. split; [done|by rewrite <- S1].
Qed.

(** After a commit that moved the pointer and then failed, the cleanup refuses
    to remove what the pointer names. *)
Lemma discard_current g d :
  is_uint 64 g -> g <> 0 -> current_file d = Some (current_text g) ->
  same_tree d (DiscardSealed (mkSealed root g) d).2.
Proof.
  intros Hg Hz Hc. unfold discard_sealed. simpl.
  match goal with |- same_tree d (?m d).2 => destruct (m d) as [res d'] eqn:E end. simpl.
  unfold ensure_owned in E. rewrite String.eqb_refl in E.
  apply bind_inv in E as [([] & d1 & [= <-] & H)|(e & H & _)]; [|done].
  pose proof (current_generation_same d) as Hs.
  apply bind_inv in H as [(c & d2 & Hcur & H)|(e & Hcur & _)]; rewrite Hcur in Hs; [|exact Hs].
  apply current_generation_Ok in Hcur. rewrite Hc in Hcur. destruct Hcur as (h & -> & [Hp _]).
  rewrite current_text_parses in Hp by done. injection Hp as <-.
  rewrite bool_decide_eq_true_2 in H by done. by injection H as _ <-.
Qed.

Lemma publish_cases c validate d res d' :
  is_uint 64 (cand_generation c) -> cand_generation c <> 0 ->
  Publish c validate d = (res, d') ->
  let g := cand_generation c in
  delete g (sealed_dirs d') = delete g (sealed_dirs d)
  /\ match res with
     | Ok _ => sealed_dirs d !! g = None /\ sealed_dirs d' = <[ g := dir_of c ]> (sealed_dirs d)
               /\ candidate_dirs d' !! g = None /\ current_file d' = Some (current_text g)
     | Err _ => current_file d' = current_file d
                \/ (current_file d' = Some (current_text g) /\ gen_valid g (sealed_dirs d'))
     end.
Proof.
  intros Hg Hz. cbv zeta. set (g := cand_generation c) in *. unfold publish_with_path. intros H.
  apply bind_inv in H as [(p & d1 & H1 & H)|(e & H1 & ->)].
  2: { pose proof (prepare_keeps c d) as [K1 K2]. rewrite H1 in K1, K2. simpl in *.
       split; [by rewrite K1|by left]. }
  apply prepare_Ok in H1. fold g in H1. destruct H1 as (-> & [K1 K2] & Hnone & Hdir).
  pose proof (discard_prepared_keeps (mkPreparedCandidate root g)) as Hdp.
  unfold on_error, ignore, mut_lift in H. apply bind_inv in H as [([] & d2 & H2 & H)|(e & H2 & ->)].
  2: { destruct (validate _); [done|]. injection H2 as _ <-. destruct (Hdp d1) as [P1 P2]. cbn [snd].
       split; [by rewrite P1, K1|left; congruence]. }
  destruct (validate _); [|done]. injection H2 as _ <-.
  apply bind_inv in H as [(s & d3 & H3 & H)|(e & H3 & ->)].
  2: { destruct (Seal _ d1) as [[]] eqn:Es; [done|]. injection H3 as _ <-. cbn [snd].
       pose proof (seal_touches (mkPreparedCandidate root g) d1) as [T1 T2]. rewrite Es in T1, T2.
       destruct (Hdp d0) as [P1 P2]. cbn [snd prepared_generation] in *.
       split; [by rewrite P1, T1, K1|left; congruence]. }
  destruct (Seal _ d1) as [[s'|e'] d0] eqn:Es; [|discriminate H3].
  assert (s' = s /\ d0 = d3) as [<- <-] by (by injection H3). clear H3.
  apply seal_Ok in Es as (-> & dir & D1 & D2 & D3 & D4). cbn [prepared_generation] in *.
  rewrite Hdir in D1. injection D1 as <-.
  destruct (Commit (mkSealed root g) d0) as [[[]|e] d4] eqn:Ec; injection H as <- <-;
    apply commit_cases in Ec as (C1 & C2 & C3 & C4); simpl in C1, C2, C3, C4.
  - split; [by rewrite C1, D2, delete_insert_eq, K1|]. split; [done|].
    split; [by rewrite C1, D2, K1|]. split; [by rewrite C2, D3, lookup_delete_eq|by apply C3].
  - cbn [snd]. destruct (discard_sealed_touches (mkSealed root g) d4) as [T1 T2].
    cbn [sealed_generation_id] in T1, T2.
    split; [by rewrite T1, C1, D2, delete_insert_eq, K1|].
    destruct C4 as [C4|[C4 Hv]]; [left; congruence|right].
    destruct (discard_current g d4 Hg Hz C4) as (S1 & _ & S3).
    split; [congruence|]. by rewrite S1, C1.
Qed.

Lemma publish_ok c validate :
  is_uint 64 (cand_generation c) -> keeps keeps_ok (Publish c validate).
Proof.
  intros Hg. assert (forall p, keeps keeps_ok (DiscardPrepared p)) as Hdp.
  { intros p. eapply keeps_weaken; [apply candidates_keeps_ok|apply discard_prepared_keeps]. }
  unfold publish_with_path. apply (keeps_bind_val _).
  { eapply keeps_weaken; [apply candidates_keeps_ok|apply prepare_keeps]. }
  intros d p d' (-> & _)%prepare_Ok.
  match goal with |- keeps_ok _ (?m d').2 => enough (keeps keeps_ok m) by auto end.
  apply (keeps_bind _).
  { apply (keeps_on_error _); [apply (keeps_lift _)|apply keeps_ignore, Hdp]. }
  intros _. apply (keeps_bind_val _).
  { apply (keeps_on_error _); [apply seal_ok|apply keeps_ignore, Hdp]. }
  intros d1 s d2 (-> & _)%on_error_Ok%seal_Ok.
  match goal with |- keeps_ok _ (?m d2).2 => enough (keeps keeps_ok m) by auto end.
  apply (keeps_on_error _); [by apply commit_ok|apply keeps_ignore, discard_sealed_ok].
Qed.

(** A store operation, by this or another holder of the store, under any
    schedule of input/output failures. *)
Inductive store_step : Disk -> Disk -> Prop :=
| step_faults d f : store_step d (set_faults f d)
| step_prepare d c : store_step d (Prepare c d).2
| step_seal d p : store_step d (Seal p d).2
| step_commit d s : is_uint 64 (sealed_generation_id s) -> store_step d (Commit s d).2
| step_rollback d g : is_uint 64 g -> store_step d (Rollback g d).2
| step_discard_prepared d p : store_step d (DiscardPrepared p d).2
| step_discard_sealed d s : store_step d (DiscardSealed s d).2
| step_publish d c validate :
    is_uint 64 (cand_generation c) -> store_step d (Publish c validate d).2.

Lemma store_step_ok d d' : current_ok d -> store_step d d' -> current_ok d'.
Proof.
  intros Hok Hs. destruct Hs as [d f|d c|d p|d s Hg|d g Hg|d p|d s|d c v Hg]; [exact Hok|..].
  - eapply candidates_keeps_ok; [apply prepare_keeps|done].
  - by apply seal_ok.
  - by apply commit_ok.
  - by apply verified_write_ok.
  - eapply candidates_keeps_ok; [apply discard_prepared_keeps|done].
  - by apply discard_sealed_ok.
  - by apply publish_ok.
Qed.

Lemma store_steps_ok d d' : current_ok d -> rtc store_step d d' -> current_ok d'.
Proof. intros Hok Hr. induction Hr as [|x y z Hs _ IH]; [done|]. by eapply IH, store_step_ok. Qed.

(** C4: the active generation is always a complete one.  Starting from a store without a
    [current] file, after any sequence of store operations with any input/output
    failures (partial writes and partial removals included; asking whether a path exists
    is taken not to fail), whenever [current] names a generation, its directory is real,
    its config and manifest are there and private, the manifest decodes, names that
    generation and matches the config's SHA-256, and the node registry is there,
    private, decodable and matching exactly when the manifest binds one. *)
Theorem generation_current_always_valid d0 d text g :
  current_file d0 = None ->
  rtc store_step d0 d ->
  current_file d = Some text -> names text g ->
  gen_valid g (sealed_dirs d).
Proof.
  intros H0 Hr. assert (current_ok d0) as Hok by (intros text' h Ht; congruence).
  by apply (store_steps_ok d0 d Hok Hr).
Qed.

Lemma discard_sealed_Ok s d u d' :
  DiscardSealed s d = (Ok u, d') ->
  sealed_dirs d' = delete (sealed_generation_id s) (sealed_dirs d)
  /\ candidate_dirs d' = candidate_dirs d /\ current_file d' = current_file d
  /\ forall text, current_file d = Some text -> ~ names text (sealed_generation_id s).
Proof.
  unfold discard_sealed. intros (u1 & d1 & H1 & H)%bind_Ok.
  pose proof (ensure_owned_same (sealed_root s) d) as (S1 & S2 & S3). rewrite H1 in S1, S2, S3.
  simpl in S1, S2, S3. apply bind_Ok in H as (c & d2 & H2 & H).
  pose proof (current_generation_same d1) as (T1 & T2 & T3). rewrite H2 in T1, T2, T3.
  simpl in T1, T2, T3. apply current_generation_Ok in H2. rewrite S3 in H2.
  case_bool_decide as Hc; [done|]. apply bind_Ok in H as (u3 & d3 & H3 & H4).
  apply sync_Ok in H4 as (U1 & U2 & U3).
  assert (forall text, current_file d = Some text -> ~ names text (sealed_generation_id s)) as Hn.
  { intros text Ht [Hp _]. rewrite Ht in H2. destruct H2 as (h & -> & [Hp' _]). congruence. }
  unfold remove_sealed_if_present in H3.
  destruct (sealed_dirs d2 !! sealed_generation_id s) eqn:Ed.
  - apply io_Ok in H3 as (d4 & (V1 & V2 & V3) & ->). simpl in *.
    rewrite U1, U2, U3, V1, V2, V3, T1, T2, T3, S1, S2, S3. done.
  - injection H3 as _ <-. rewrite U1, U2, U3, T2, T3, S2, S3. split; [|done].
    rewrite delete_id by congruence. congruence.
Qed.

(** *** Without failures *)
Lemma io_clean op effect broken d :
  faults d = [] -> io op effect broken d = (Ok tt, effect d).
Proof. intros Hf. unfold io, next_outcome. by rewrite Hf. Qed.
Lemma io_read_clean op f d :
  faults d = [] -> io_read op (Some f) d = (Ok (file_bytes f), d).
Proof. intros Hf. unfold io_read, mbind, Mut_bind. by rewrite io_clean. Qed.
Lemma bind_step {A B} (m : Store A) (f : A -> Store B) d a d' :
  m d = (Ok a, d') -> (m ≫= f) d = f a d'.
Proof. unfold mbind, Mut_bind. by intros ->. Qed.

Lemma ensure_clean g d :
  faults d = [] -> gen_valid g (sealed_dirs d) -> Ensure g d = (Ok tt, d).
Proof.
  intros Hf (dir & Hd & Hreal & cfg & bs & m & H1 & H2 & H3 & H4 & H5 & H6 & H7).
  unfold ensure_sealed_exists. rewrite Hd, Hreal, H1, H2. simpl.
  rewrite (bind_step _ _ _ _ _ (io_read_clean _ _ _ Hf)). cbn [file_bytes]. rewrite H3.
  rewrite (bind_step _ _ _ _ _ (io_read_clean _ _ _ Hf)). cbn [file_bytes].
  rewrite H4, H5, H6, String.eqb_refl, Z.eqb_refl, String.eqb_refl. simpl.
  destruct (mf_node_registry_sha256 m) as [expected|].
  - destruct H7 as (nodes & r & G1 & G2 & G3 & G4 & G5). rewrite G1. simpl.
    rewrite (bind_step _ _ _ _ _ (io_read_clean _ _ _ Hf)). cbn [file_bytes]. rewrite G2, G3, G4, G5.
    by rewrite !String.eqb_refl, Z.eqb_refl.
  - by rewrite H7.
Qed.

Lemma write_sync_clean op g content put d :
  faults d = [] -> exists d', write_sync op g content put d = (Ok tt, d') /\ faults d' = [].
Proof. intros Hf. unfold write_sync. rewrite io_clean by done. eauto. Qed.

Lemma write_candidate_clean c d :
  faults d = [] ->
  exists d', write_candidate encode_manifest encode_nodes c d = (Ok tt, d') /\ faults d' = [].
Proof.
  intros Hf. unfold write_candidate.
  destruct (write_sync_clean "write_config" (cand_generation c) (cfg_bytes (cand_config c))
    put_config d Hf) as (d1 & E1 & F1). rewrite (bind_step _ _ _ _ _ E1).
  assert (exists d2, (match cand_registry c with
    | Some registry => write_sync "write_node_registry" (cand_generation c) (encode_nodes registry) put_nodes
    | None => mret tt end) d1 = (Ok tt, d2) /\ faults d2 = []) as (d2 & E2 & F2).
  { destruct (cand_registry c); [by apply write_sync_clean|by exists d1]. }
  rewrite (bind_step _ _ _ _ _ E2).
  destruct (write_sync_clean "write_manifest" (cand_generation c)
    (encode_manifest (cand_manifest c)) put_manifest d2 F2) as (d3 & E3 & F3).
  rewrite (bind_step _ _ _ _ _ E3). unfold sync_directory. rewrite io_clean by done. eauto.
Qed.

Lemma prepare_clean c d :
  faults d = [] -> sealed_dirs d !! cand_generation c = None ->
  exists d', Prepare c d = (Ok (mkPreparedCandidate root (cand_generation c)), d') /\ faults d' = [].
Proof.
  intros Hf Hs. unfold prepare_candidate. rewrite Hs.
  assert (exists d1, remove_candidate_if_present "remove_stale_candidate" (cand_generation c) d
    = (Ok tt, d1) /\ faults d1 = []) as (d1 & E1 & F1).
  { unfold remove_candidate_if_present. case_match; [|eauto].
    unfold remove_candidate. rewrite io_clean by done. eauto. }
  rewrite (bind_step _ _ _ _ _ E1).
  erewrite bind_step; [|by apply io_clean].
  match goal with |- exists d', (_ ≫= _) ?d2 = _ /\ _ => set (dd := d2) end.
  destruct (write_candidate_clean c dd F1) as (d3 & E3 & F3).
  erewrite bind_step; [|unfold on_error; by rewrite E3]. by exists d3.
Qed.

Lemma seal_clean g d dir :
  faults d = [] -> sealed_dirs d !! g = None -> candidate_dirs d !! g = Some dir ->
  exists d', Seal (mkPreparedCandidate root g) d = (Ok (mkSealed root g), d') /\ faults d' = [].
Proof.
  intros Hf Hs Hc. unfold seal_candidate, ensure_owned. simpl. rewrite String.eqb_refl.
  erewrite bind_step by done. unfold rename_candidate. rewrite Hs, Hc.
  erewrite bind_step; [|by apply io_clean].
  erewrite bind_step; [|unfold sync_directory; by apply io_clean]. eexists. split; [done|]. done.
Qed.

Lemma commit_clean g d :
  faults d = [] -> gen_valid g (sealed_dirs d) ->
  exists d', Commit (mkSealed root g) d = (Ok tt, d').
Proof.
  intros Hf Hv. unfold commit_generation, ensure_owned. simpl. rewrite String.eqb_refl.
  erewrite bind_step by done. erewrite bind_step by (by apply ensure_clean).
  unfold write_current, sync_directory. erewrite bind_step; [|by apply io_clean].
  erewrite bind_step; [|by apply io_clean]. rewrite io_clean by done. eauto.
Qed.

(** A candidate whose manifest describes it, as the constructors build it. *)
Record candidate_ok (c : Candidate) : Prop := {
  cok_schema : mf_schema (cand_manifest c) = MANIFEST_SCHEMA;
  cok_generation : mf_generation (cand_manifest c) = cand_generation c;
  cok_config : mf_config_sha256 (cand_manifest c) = sha256_hex (cfg_bytes (cand_config c));
  cok_nodes :
    match cand_registry c with
    | Some r => mf_node_registry_sha256 (cand_manifest c) = Some (sha256_hex (encode_nodes r))
                /\ nodes_schema r = NODE_REGISTRY_SCHEMA
                /\ len (node_records r) = mf_node_count (cand_manifest c)
    | None => mf_node_registry_sha256 (cand_manifest c) = None
    end;
}.

Lemma dir_of_valid c :
  candidate_ok c ->
  decode_manifest (encode_manifest (cand_manifest c)) = Some (cand_manifest c) ->
  (forall r, cand_registry c = Some r -> decode_nodes (encode_nodes r) = Some r) ->
  dir_valid (cand_generation c) (dir_of c).
Proof.
  intros [H1 H2 H3 H4] Hm Hn. split; [done|]. do 3 eexists. split; [done|]. split; [done|].
  split; [exact Hm|]. repeat (split; [done|]). unfold dir_of. simpl.
  destruct (cand_registry c) as [r|].
  - destruct H4 as (-> & G1 & G2). exists (encode_nodes r), r. auto.
  - by rewrite H4.
Qed.

(** Publishing works.  For a candidate whose manifest describes it, whose
    encodings decode back, that the validator accepts and whose generation is
    new, [publish] with a working file system succeeds. *)
Theorem publish_succeeds c validate d :
  candidate_ok c ->
  decode_manifest (encode_manifest (cand_manifest c)) = Some (cand_manifest c) ->
  (forall r, cand_registry c = Some r -> decode_nodes (encode_nodes r) = Some r) ->
  validate (cfg_bytes (cand_config c)) = Ok tt ->
  sealed_dirs d !! cand_generation c = None ->
  faults d = [] ->
  exists d', Publish c validate d = (Ok tt, d').
Proof.
  intros Hc Hm Hn Hv Hs Hf. unfold publish_with_path.
  destruct (prepare_clean c d Hf Hs) as (d1 & E1 & F1). rewrite (bind_step _ _ _ _ _ E1).
  apply prepare_Ok in E1 as (_ & [K1 K2] & _ & Hdir).
  erewrite bind_step; [|unfold on_error, mut_lift; by rewrite Hv].
  destruct (seal_clean (cand_generation c) d1 (dir_of c) F1) as (d2 & E2 & F2);
    [by rewrite K1|done|].
  erewrite bind_step; [|unfold on_error; by rewrite E2].
  apply seal_Ok in E2 as (_ & dir & D1 & D2 & _). cbn [prepared_generation] in *.
  rewrite Hdir in D1. injection D1 as <-.
  destruct (commit_clean (cand_generation c) d2 F2) as [d3 E3].
  { exists (dir_of c). rewrite D2. split; [apply lookup_insert_eq|by apply dir_of_valid]. }
  exists d3. unfold on_error. by rewrite E3.
Qed.

(** A failed directory sync after sealing leaks the generation.  When the
    only failing call is the sync that follows the rename, [publish] reports an
    error and its cleanup finds no candidate to remove: the generation's
    directory stays, [current] is unchanged, and publishing the same generation
    again is refused. *)
Theorem seal_sync_failure_leaks c validate d d1 p n :
  Prepare c d = (Ok p, d1) ->
  validate (cfg_bytes (cand_config c)) = Ok tt ->
  faults d1 = [Succeeds; Fails n] ->
  exists d', Publish c validate d = (Err (GenerationPublishFailed "sync_generations"), d')
  /\ sealed_dirs d' !! cand_generation c = Some (dir_of c)
  /\ current_file d' = current_file d
  /\ forall v, Publish c v d' = (Err (GenerationPublishFailed "reserve_generation"), d').
Proof.
  intros E1 Hv Hf. pose proof E1 as E. apply prepare_Ok in E as (-> & [K1 K2] & Hnone & Hdir).
  set (g := cand_generation c) in *.
  set (d2 := mkDisk (<[ g := dir_of c ]> (sealed_dirs d1)) (delete g (candidate_dirs d1))
    (current_file d1) []).
  assert (Seal (mkPreparedCandidate root g) d1
    = (Err (GenerationPublishFailed "sync_generations"), d2)) as Es.
  { unfold seal_candidate, ensure_owned. simpl. rewrite String.eqb_refl.
    erewrite bind_step by done. unfold rename_candidate. rewrite K1, Hnone, Hdir.
    erewrite bind_step; [|unfold io, next_outcome; by rewrite Hf].
    unfold sync_directory, mbind, Mut_bind, io, next_outcome. done. }
  assert (DiscardPrepared (mkPreparedCandidate root g) d2 = (Ok tt, d2)) as Ed.
  { unfold discard_prepared, ensure_owned. simpl. rewrite String.eqb_refl.
    erewrite bind_step by done. unfold remove_candidate_if_present. simpl.
    by rewrite lookup_delete_eq. }
  exists d2. split; [|split; [apply lookup_insert_eq|split; [exact K2|]]].
  - unfold publish_with_path. rewrite (bind_step _ _ _ _ _ E1).
    erewrite bind_step; [|unfold on_error, mut_lift; by rewrite Hv].
    unfold mbind, Mut_bind, on_error at 1. rewrite Es. unfold ignore. by rewrite Ed.
  - intros v. unfold publish_with_path, mbind, Mut_bind, prepare_candidate. fold g. simpl.
    by rewrite lookup_insert_eq.
Qed.

(** Publishing is all or nothing for everyone else.  Whatever fails during
    [publish], other generations are untouched.  On success the generation's
    directory holds exactly the candidate's files, the candidate directory is
    gone and [current] names the generation.  On error [current] is what it was,
    unless the failure came after the pointer moved, in which case the
    generation it names is complete and was not removed by the cleanup. *)
Theorem publish_all_or_nothing c validate d res d' :
  is_uint 64 (cand_generation c) -> cand_generation c <> 0 ->
  Publish c validate d = (res, d') ->
  let g := cand_generation c in
  delete g (sealed_dirs d') = delete g (sealed_dirs d)
  /\ match res with
     | Ok _ => sealed_dirs d !! g = None /\ sealed_dirs d' = <[ g := dir_of c ]> (sealed_dirs d)
               /\ candidate_dirs d' !! g = None /\ current_file d' = Some (current_text g)
     | Err _ => current_file d' = current_file d
                \/ (current_file d' = Some (current_text g) /\ gen_valid g (sealed_dirs d'))
     end.
Proof. apply publish_cases. Qed.
End facts.

(** The [current] file round-trips: for every 64-bit generation, reading
    back the text [write_current] writes (decimal digits and a newline, trimmed
    and parsed) gives the generation. *)
Theorem current_text_roundtrip g d :
  is_uint 64 g -> g <> 0 -> faults d = [] ->
  (current_generation (write_current g d).2).1 = Ok (Some g).
Proof.
  intros Hg Hz Hf. unfold write_current, mbind, Mut_bind, sync_directory, io, next_outcome. rewrite Hf.
  simpl. rewrite Hf. simpl. rewrite Hf. simpl. unfold current_generation. simpl.
  unfold mbind, Mut_bind, io, next_outcome. simpl. rewrite Hf. rewrite current_text_parses by done.
  unfold mut_lift, GenerationId_new. simpl. by rewrite (proj2 (Z.eqb_neq g 0)).
Qed.

(** ** Witnesses *)
Module Demo.
Definition sha (bs : list Z) : string := of_bytes (65 :: bs).
Definition config : ManagedConfig := mkManaged [123; 125] (sha [123; 125]) 1.
Definition candidate : Candidate := Candidate_new 7 config.
(** A codec that knows the one manifest. *)
Definition enc (m : GenerationManifest) : list Z := [mf_generation m].
Definition dec (bs : list Z) : option GenerationManifest :=
  match bs with [7] => Some (cand_manifest candidate) | _ => None end.
Definition enc_nodes (_ : GenerationNodeRegistry) : list Z := [].
Definition dec_nodes (_ : list Z) : option GenerationNodeRegistry := None.
Definition accept (_ : list Z) : Result CoreError unit := Ok tt.
Definition fresh (f : list Outcome) : Disk := mkDisk ∅ ∅ None f.
Definition publish := publish_with_path sha enc dec enc_nodes dec_nodes "/data".
Definition published : Disk := (publish candidate accept (fresh [])).2.

Lemma candidate_valid : candidate_ok sha enc_nodes candidate.
Proof. by split. Qed.
End Demo.

Lemma publish_succeeds_witness :
  exists d', Demo.publish Demo.candidate Demo.accept (Demo.fresh []) = (Ok tt, d').
Proof.
  apply (publish_succeeds Demo.sha Demo.enc Demo.dec Demo.enc_nodes Demo.dec_nodes "/data");
    [exact Demo.candidate_valid|reflexivity|discriminate|reflexivity|reflexivity|reflexivity].
Defined.

Lemma publish_all_or_nothing_witness :
  current_file Demo.published = Some (current_text 7)
  /\ sealed_dirs Demo.published !! 7 = Some (dir_of Demo.enc Demo.enc_nodes Demo.candidate).
Proof.
  destruct (Demo.publish Demo.candidate Demo.accept (Demo.fresh [])) as [res d'] eqn:E.
  pose proof (publish_all_or_nothing Demo.sha Demo.enc Demo.dec Demo.enc_nodes Demo.dec_nodes
    "/data" Demo.candidate Demo.accept (Demo.fresh []) res d' ltac:(split; vm_compute; congruence)
    ltac:(discriminate) E) as [_ H].
  assert (d' = Demo.published) as -> by (unfold Demo.published; by rewrite E).
  assert (res = Ok tt) as -> by (vm_compute in E; congruence).
  destruct H as (_ & H1 & _ & H2). split; [exact H2|]. rewrite H1. apply lookup_insert_eq.
Defined.

Lemma generation_current_always_valid_witness :
  gen_valid Demo.sha Demo.dec Demo.dec_nodes 7 (sealed_dirs Demo.published).
Proof.
  apply (generation_current_always_valid Demo.sha Demo.enc Demo.dec Demo.enc_nodes Demo.dec_nodes
    "/data" (Demo.fresh []) Demo.published (current_text 7) 7).
  - reflexivity.
  - apply rtc_once. apply (step_publish Demo.sha Demo.enc Demo.dec Demo.enc_nodes Demo.dec_nodes
      "/data" (Demo.fresh []) Demo.candidate Demo.accept). split; vm_compute; congruence.
  - vm_compute. reflexivity.
  - split; [vm_compute; reflexivity|discriminate].
Defined.

Lemma seal_sync_failure_leaks_witness :
  exists d', Demo.publish Demo.candidate Demo.accept
      (Demo.fresh (repeat Succeeds 5 ++ [Fails 0]))
    = (Err (GenerationPublishFailed "sync_generations"), d')
  /\ forall v, Demo.publish Demo.candidate v d'
               = (Err (GenerationPublishFailed "reserve_generation"), d').
Proof.
  destruct (prepare_candidate Demo.enc Demo.enc_nodes "/data" Demo.candidate
    (Demo.fresh (repeat Succeeds 5 ++ [Fails 0]))) as [[p|e] d1] eqn:E;
    [|vm_compute in E; discriminate E].
  destruct (seal_sync_failure_leaks Demo.sha Demo.enc Demo.dec Demo.enc_nodes Demo.dec_nodes "/data"
    Demo.candidate Demo.accept _ d1 p 0 E eq_refl) as (d' & H1 & _ & _ & H2).
  { vm_compute in E. injection E as _ <-. reflexivity. }
  exists d'. split; [exact H1|exact H2].
Defined.

Lemma current_text_roundtrip_witness :
  (current_generation (write_current 18446744073709551615 (Demo.fresh [])).2).1
  = Ok (Some 18446744073709551615).
Proof.
  apply (current_text_roundtrip 18446744073709551615 (Demo.fresh []));
    [split; vm_compute; congruence|discriminate|reflexivity].
Defined.
