(* ===== verification/Activation.v ===== *)
(** * Activation: staging, starting and committing a candidate generation

    Models crates/nethopd/src/activation.rs: the safety audit of a prepared
    config, the startup liveness probe, and [CandidateActivator] ([stage],
    [commit_staged], [abort_staged], [activate]) over the generation store.

    The core binary is outside the store: [CoreBackend] is the interface of the
    checker, the launcher, the health probe and the process traits, over a world
    of processes.  JSON parsing is a parameter. *)

From S2P Require Import Prelude Text Ordering Json NodeRegistry Generation.

Local Open Scope Z_scope.

(** ** The safety audit *)
Inductive SafetyAuditError : Type :=
| ConfigMismatch | InvalidJson | ForbiddenTopLevel | EmptyOutbounds | InvalidOutbound.

Definition is_nonempty_string (v : option Json) : bool :=
  match v with Some (JString s) => negb (String.eqb s "") | _ => false end.
Definition valid_outbound (v : Json) : bool :=
  match v with
  | JObject item => is_nonempty_string (json_get "tag" item) && is_nonempty_string (json_get "type" item)
  | _ => false
  end.

(** The audit of the bytes read back ([None]: the read failed).  An object with
    one field that contains ["outbounds"] has no other. *)
Definition ManagedSafetyAuditor_audit (parse_json : list Z -> option Json) (c : Candidate)
    (read_back : option (list Z)) : Result SafetyAuditError unit :=
  match read_back with
  | None => Err ConfigMismatch
  | Some bs =>
      if negb (bool_decide (bs = cfg_bytes (cand_config c))) then Err ConfigMismatch
      else
        match parse_json bs with
        | None => Err InvalidJson
        | Some (JObject fields) =>
            match json_get "outbounds" fields with
            | None => Err ForbiddenTopLevel
            | Some outbounds =>
                if negb (len fields =? 1) then Err ForbiddenTopLevel
                else
                  match outbounds with
                  | JArray l =>
                      if len l =? 0 then Err EmptyOutbounds
                      else if existsb (fun o => negb (valid_outbound o)) l then Err InvalidOutbound
                      else Ok tt
                  | _ => Err InvalidJson
                  end
            end
        | Some _ => Err InvalidJson
        end
  end.

(** ** The liveness probe *)
Definition MAX_STARTUP_TIMEOUT : Z := from_secs 30.
Definition MIN_POLL_INTERVAL : Z := from_millis 5.

Inductive HealthProbeError : Type := EarlyExit | TimedOut | ObserveFailed.
Record StartupLivenessProbe : Type := mkProbe {
  probe_timeout : Z;
  stable_window : Z;
  poll_interval : Z;
}.

Definition StartupLivenessProbe_new (timeout window poll : Z) :
    Result HealthProbeError StartupLivenessProbe :=
  if dur_is_zero timeout || (MAX_STARTUP_TIMEOUT <? timeout) || dur_is_zero window
     || (timeout <? window) || (poll <? MIN_POLL_INTERVAL) || (window <? poll)
  then Err TimedOut
  else Ok (mkProbe timeout window poll).
Definition StartupLivenessProbe_default : StartupLivenessProbe :=
  mkProbe (from_secs 3) (from_millis 200) (from_millis 20).
Definition replace_timeout (p : StartupLivenessProbe) (timeout : Z) :
    Result HealthProbeError StartupLivenessProbe :=
  if dur_is_zero timeout || (MAX_STARTUP_TIMEOUT <? timeout) || (timeout <? stable_window p)
  then Err TimedOut
  else Ok (mkProbe timeout (stable_window p) (poll_interval p)).

(** What one turn of the loop sees: the two readings of the elapsed time and the
    state of the process ([None]: it could not be observed). *)
Record Observation : Type := mkObs {
  elapsed_loop : Z;
  elapsed_timeout : Z;
  obs_running : option bool;
}.
(** [None]: more observations are needed. *)
Fixpoint probe_wait_healthy (p : StartupLivenessProbe) (observations : list Observation) :
    option (Result HealthProbeError unit) :=
  match observations with
  | [] => None
  | o :: rest =>
      if elapsed_loop o <? stable_window p then
        if probe_timeout p <=? elapsed_timeout o then Some (Err TimedOut)
        else
          match obs_running o with
          | Some false => Some (Err EarlyExit)
          | Some true => probe_wait_healthy p rest
          | None => Some (Err ObserveFailed)
          end
      else Some (Ok tt)
  end.

(** ** The activator *)
Inductive ActivationDiagnosticCode : Type :=
| PrepareFailed | SafetyRejected | CheckFailed | SealFailed
| ActStartFailed | HealthFailed | CommitFailed.
Record ActivationError : Type := mkActivationError {
  err_code : ActivationDiagnosticCode;
  cleanup_failed : bool;
}.

Class CoreBackend (W P : Type) : Type := {
  core_check : Z -> W -> bool * W;
  core_start : Z -> W -> option P * W;
  core_healthy : P -> W -> bool * W;
  core_stop : P -> W -> bool * W;
}.
Class CoreBackendLaws (W P : Type) `{!CoreBackend W P} `{Countable P} : Type := {
  cores : W -> gset P;
  check_cores g w : cores (core_check g w).2 = cores w;
  start_cores g w :
    match core_start g w with
    | (Some p, w') => p ∉ cores w /\ cores w' = {[ p ]} ∪ cores w
    | (None, w') => cores w' = cores w
    end;
  healthy_cores p w : cores (core_healthy p w).2 = cores w;
  stop_cores p w :
    match core_stop p w with
    | (true, w') => cores w' = cores w ∖ {[ p ]}
    | (false, w') => cores w' = cores w
    end;
}.

Section activator.
Context {W P : Type} `{HB : !CoreBackend W P}.
Context (sha256_hex : list Z -> string).
Context (encode_manifest : GenerationManifest -> list Z)
        (decode_manifest : list Z -> option GenerationManifest)
        (encode_nodes : GenerationNodeRegistry -> list Z)
        (decode_nodes : list Z -> option GenerationNodeRegistry).
Context (root : string).
(** The safety auditor, given the config bytes it reads back. *)
Context (audit : Candidate -> option (list Z) -> Result SafetyAuditError unit).

Record StagedGeneration : Type := mkStaged {
  staged_generation : SealedGeneration;
  staged_previous : option Z;
  staged_process : P;
}.
Record ActiveGeneration : Type := mkActive {
  active_generation : SealedGeneration;
  active_previous : option Z;
  active_process : P;
}.

Definition replace_generation (a : ActiveGeneration) (generation : SealedGeneration) :
    ActiveGeneration :=
  mkActive generation (Some (sealed_generation_id (active_generation a))) (active_process a).

Abbreviation Act A := (Disk * W -> Result ActivationError A * (Disk * W)).

Definition fail_with {A} (code : ActivationDiagnosticCode) (failed : bool) (s : Disk * W) :
    Result ActivationError A * (Disk * W) := (Err (mkActivationError code failed), s).

(** The audit reads the prepared config back. *)
Definition audit_candidate (c : Candidate) (d : Disk) : bool * Disk :=
  let (res, d') :=
    io_read "audit" (candidate_dirs d !! cand_generation c ≫= config_json) d in
  let read_back := match res with Ok bs => Some bs | Err _ => None end in
  (is_ok (audit c read_back), d').

Definition start_sealed (sealed : SealedGeneration) (previous : option Z) :
    Act StagedGeneration := fun '(d, w) =>
  match core_start (sealed_generation_id sealed) w with
  | (None, w') =>
      let (r, d') := discard_sealed root sealed d in
      fail_with ActStartFailed (is_err r) (d', w')
  | (Some process, w') =>
      match core_healthy process w' with
      | (false, w'') =>
          let (stopped, w3) := core_stop process w'' in
          let (r, d') := discard_sealed root sealed d in
          fail_with HealthFailed (negb stopped || is_err r) (d', w3)
      | (true, w'') => (Ok (mkStaged sealed previous process), (d, w''))
      end
  end.

Definition seal_and_start (prepared : PreparedCandidate) (previous : option Z) :
    Act StagedGeneration := fun '(d, w) =>
  match seal_candidate root prepared d with
  | (Err _, d') =>
      let (r, d'') := discard_prepared root prepared d' in
      fail_with SealFailed (is_err r) (d'', w)
  | (Ok sealed, d') => start_sealed sealed previous (d', w)
  end.

Definition stage (c : Candidate) : Act StagedGeneration := fun '(d, w) =>
  match current_generation d with
  | (Err _, d1) => fail_with PrepareFailed false (d1, w)
  | (Ok previous, d1) =>
      match prepare_candidate encode_manifest encode_nodes root c d1 with
      | (Err _, d2) => fail_with PrepareFailed false (d2, w)
      | (Ok prepared, d2) =>
          match audit_candidate c d2 with
          | (false, d3) =>
              let (r, d4) := discard_prepared root prepared d3 in
              fail_with SafetyRejected (is_err r) (d4, w)
          | (true, d3) =>
              match core_check (cand_generation c) w with
              | (false, w') =>
                  let (r, d4) := discard_prepared root prepared d3 in
                  fail_with CheckFailed (is_err r) (d4, w')
              | (true, w') => seal_and_start prepared previous (d3, w')
              end
          end
      end
  end.

Definition commit_staged (s : StagedGeneration) (d : Disk) :
    (ActiveGeneration + StagedGeneration) * Disk :=
  match commit_generation sha256_hex decode_manifest decode_nodes root (staged_generation s) d with
  | (Err _, d') => (inr s, d')
  | (Ok _, d') => (inl (mkActive (staged_generation s) (staged_previous s) (staged_process s)), d')
  end.

Definition abort_staged (s : StagedGeneration) : Disk * W -> bool * (Disk * W) := fun '(d, w) =>
  let (stopped, w') := core_stop (staged_process s) w in
  let (r, d') := discard_sealed root (staged_generation s) d in
  (negb stopped || is_err r, (d', w')).

Definition activate (c : Candidate) : Act ActiveGeneration := fun s =>
  match stage c s with
  | (Err err, s') => (Err err, s')
  | (Ok staged, (d, w)) =>
      match commit_staged staged d with
      | (inl active, d') => (Ok active, (d', w))
      | (inr staged', d') =>
          let (failed, s') := abort_staged staged' (d', w) in
          fail_with CommitFailed failed s'
      end
  end.
End activator.

(** ** Properties *)
Section facts.
Context {W P : Type} `{Countable P} `{HB : !CoreBackend W P} `{HL : !CoreBackendLaws W P}.
Context (sha256_hex : list Z -> string).
Context (encode_manifest : GenerationManifest -> list Z)
        (decode_manifest : list Z -> option GenerationManifest)
        (encode_nodes : GenerationNodeRegistry -> list Z)
        (decode_nodes : list Z -> option GenerationNodeRegistry).
Context (root : string).
Context (audit : Candidate -> option (list Z) -> Result SafetyAuditError unit).

Abbreviation Stage := (stage encode_manifest encode_nodes root audit).
Abbreviation Activate := (activate sha256_hex encode_manifest decode_manifest encode_nodes
  decode_nodes root audit).

(** The activation of generation [g] from [(d, w)] left nothing behind. *)
Definition undone (g : Z) (d : Disk) (w : W) (err : ActivationError) (d' : Disk) (w' : W) : Prop :=
  delete g (sealed_dirs d') = delete g (sealed_dirs d)
  /\ (cleanup_failed err = false ->
      cores w' = cores w /\ current_file d' = current_file d
      /\ (err_code err <> SealFailed -> sealed_dirs d' = sealed_dirs d)).

Lemma audit_same c d : same_tree d (audit_candidate audit c d).2.
Proof.
  unfold audit_candidate. pose proof (io_read_same "audit"
    (candidate_dirs d !! cand_generation c ≫= config_json) d) as Hs.
  by destruct (io_read _ _ d) as [res d'].
Qed.

Lemma start_sealed_cases g d0 w0 d w previous res d' w' dir :
  sealed_dirs d0 !! g = None -> sealed_dirs d = <[ g := dir ]> (sealed_dirs d0) ->
  current_file d = current_file d0 -> cores w = cores w0 ->
  start_sealed root (mkSealed root g) previous (d, w) = (res, (d', w')) ->
  match res with
  | Ok s => s = mkStaged (mkSealed root g) previous (staged_process s) /\ d' = d
            /\ staged_process s ∉ cores w0 /\ cores w' = {[ staged_process s ]} ∪ cores w0
  | Err err => undone g d0 w0 err d' w' /\ current_file d' = current_file d0
  end.
Proof.
  intros Hnone Hd Hcur Hw. unfold start_sealed. cbn [sealed_generation_id].
  assert (forall r d1, discard_sealed root (mkSealed root g) d = (r, d1) ->
    delete g (sealed_dirs d1) = delete g (sealed_dirs d0) /\ current_file d1 = current_file d0
    /\ (is_err r = false -> sealed_dirs d1 = sealed_dirs d0)) as Hdisc.
  { intros r d1 Hr. pose proof (discard_sealed_touches root (mkSealed root g) d) as [T1 T2].
    rewrite Hr in T1, T2. cbn [sealed_generation_id snd] in T1, T2. rewrite Hd in T1.
    rewrite delete_insert_eq in T1. split; [done|]. split; [congruence|].
    intros [u ->]%is_err_false. apply discard_sealed_Ok in Hr as (R1 & _).
    rewrite R1, Hd. cbn [sealed_generation_id]. by rewrite delete_insert_eq, delete_id. }
  pose proof (start_cores g w) as Hst. destruct (core_start g w) as [[p|] w1].
  - pose proof (healthy_cores p w1) as Hh. destruct (core_healthy p w1) as [[|] w2]; simpl in Hh.
    + intros [= <- <- <-]. simpl. destruct Hst as [H1 H2]. rewrite Hh, H2, Hw in *. done.
    + pose proof (stop_cores p w2) as Hsp. destruct (core_stop p w2) as [stopped w3].
      destruct (discard_sealed _ _ d) as [r d1] eqn:Er. intros [= <- <- <-].
      destruct (Hdisc _ _ eq_refl) as (R1 & R2 & R3). split; [|done]. split; [done|]. simpl.
      intros [Hs1%negb_false_iff Hs2]%orb_false_iff. subst stopped. split; [|auto].
      rewrite Hsp, Hh. destruct Hst as [H1 ->]. rewrite <- Hw. set_solver.
  - destruct (discard_sealed _ _ d) as [r d1] eqn:Er. intros [= <- <- <-].
    destruct (Hdisc _ _ eq_refl) as (R1 & R2 & R3). split; [|done]. split; [done|]. simpl.
    intros Hs. split; [congruence|auto].
Qed.

Lemma seal_and_start_cases g d w d3 w1 previous res d' w' dir :
  sealed_dirs d !! g = None -> candidates_only d d3 -> candidate_dirs d3 !! g = Some dir ->
  cores w1 = cores w ->
  seal_and_start root (mkPreparedCandidate root g) previous (d3, w1) = (res, (d', w')) ->
  current_file d' = current_file d
  /\ match res with
     | Ok s => s = mkStaged (mkSealed root g) previous (staged_process s)
               /\ sealed_dirs d' = <[ g := dir ]> (sealed_dirs d)
               /\ staged_process s ∉ cores w /\ cores w' = {[ staged_process s ]} ∪ cores w
     | Err err => undone g d w err d' w'
     end.
Proof.
  intros Hnone [B1 B2] Hdir Hw. unfold seal_and_start.
  destruct (seal_candidate root _ d3) as [[sealed|e] d4] eqn:Es.
  - apply seal_Ok in Es as (-> & dir' & D1 & D2 & D3 & D4). cbn [prepared_generation] in *.
    rewrite Hdir in D1. injection D1 as <-. intros Hst.
    apply (start_sealed_cases g d w d4 w1 previous res d' w' dir) in Hst; [|congruence..].
    destruct res as [s|err]; [|destruct Hst; done].
    destruct Hst as (Hs & -> & H1 & H2). split; [congruence|]. split; [done|]. split; [congruence|done].
  - pose proof (seal_touches root (mkPreparedCandidate root g) d3) as [T1 T2]. rewrite Es in T1, T2.
    cbn [snd prepared_generation] in T1, T2.
    destruct (discard_prepared root _ d4) as [r d5] eqn:Er. intros [= <- <- <-].
    pose proof (discard_prepared_keeps root (mkPreparedCandidate root g) d4) as [U1 U2].
    rewrite Er in U1, U2. cbn [snd] in U1, U2.
    split; [congruence|]. split; [congruence|]. simpl. intros _. split; [done|]. split; [congruence|done].
Qed.

Lemma stage_cases c d w res d' w' :
  Stage c (d, w) = (res, (d', w')) ->
  let g := cand_generation c in
  current_file d' = current_file d
  /\ match res with
     | Ok s =>
         staged_generation s = mkSealed root g /\ sealed_dirs d !! g = None
         /\ sealed_dirs d' = <[ g := dir_of encode_manifest encode_nodes c ]> (sealed_dirs d)
         /\ match current_file d with
            | None => staged_previous s = None
            | Some text => exists h, staged_previous s = Some h /\ names text h
            end
         /\ staged_process s ∉ cores w /\ cores w' = {[ staged_process s ]} ∪ cores w
     | Err err => undone g d w err d' w'
     end.
Proof.
  cbv zeta. set (g := cand_generation c). unfold stage.
  assert (forall code failed d1 w1, candidates_only d d1 -> cores w1 = cores w ->
    current_file d1 = current_file d
    /\ undone g d w (mkActivationError code failed) d1 w1) as Hclean.
  { intros code failed d1 w1 [K1 K2] Hw. split; [done|]. unfold undone. rewrite K1. auto. }
  destruct (current_generation d) as [[previous|e] d1] eqn:E1;
    pose proof (current_generation_same d) as Hs1; rewrite E1 in Hs1; cbn [snd] in Hs1;
    apply same_tree_candidates in Hs1.
  2: { intros [= <- <- <-]. by apply Hclean. }
  apply current_generation_Ok in E1.
  destruct (prepare_candidate _ _ _ c d1) as [[prepared|e] d2] eqn:E2;
    pose proof (prepare_keeps encode_manifest encode_nodes root c d1) as Hs2;
    rewrite E2 in Hs2; cbn [snd] in Hs2.
  2: { intros [= <- <- <-]. apply Hclean; [by transitivity d1|done]. }
  apply prepare_Ok in E2 as (-> & _ & Hnone & Hdir). fold g in Hnone, Hdir.
  pose proof (audit_same c d2) as Ha. destruct (audit_candidate audit c d2) as [ok d3].
  cbn [snd] in Ha. assert (candidates_only d d3) as Hs3
    by (transitivity d1; [done|transitivity d2; [done|by apply same_tree_candidates]]).
  assert (forall r d4 d5, candidates_only d d5 ->
    discard_prepared root (mkPreparedCandidate root g) d5 = (r, d4) -> candidates_only d d4) as Hdp.
  { intros r d4 d5 H5 Hr.
    pose proof (discard_prepared_keeps root (mkPreparedCandidate root g) d5) as Hk.
    rewrite Hr in Hk. by transitivity d5. }
  destruct ok; [|destruct (discard_prepared _ _ d3) as [r d4] eqn:Er; intros [= <- <- <-];
    apply Hclean; [by eapply Hdp|done]].
  pose proof (check_cores g w) as Hck. fold g.
  destruct (core_check g w) as [[|] w1]; cbn [snd] in Hck;
    [|destruct (discard_prepared _ _ d3) as [r d4] eqn:Er; intros [= <- <- <-];
      apply Hclean; [by eapply Hdp|done]].
  intros Hrun. destruct Ha as (_ & A2 & _).
  apply (seal_and_start_cases g d w d3 w1 previous res d' w' (dir_of encode_manifest encode_nodes c))
    in Hrun as [Hcur Hres]; [|by destruct Hs1 as [<- _]|done|congruence|done].
  split; [done|]. destruct res as [s|err]; [|done].
  destruct Hres as (-> & H1 & H2 & H3). simpl. split; [done|].
  split; [by destruct Hs1 as [<- _]|]. split; [done|]. split; [|done]. by destruct (current_file d).
Qed.

(** Aborting a staged generation whose directory is the one that was added. *)
Lemma abort_staged_cases s g d0 w0 dir d w failed d' w' :
  staged_generation s = mkSealed root g -> sealed_dirs d0 !! g = None ->
  sealed_dirs d = <[ g := dir ]> (sealed_dirs d0) ->
  staged_process s ∉ cores w0 -> cores w = {[ staged_process s ]} ∪ cores w0 ->
  abort_staged root s (d, w) = (failed, (d', w')) ->
  delete g (sealed_dirs d') = delete g (sealed_dirs d0)
  /\ (failed = false -> cores w' = cores w0 /\ sealed_dirs d' = sealed_dirs d0
       /\ current_file d' = current_file d
       /\ forall text, current_file d = Some text -> ~ names text g).
Proof.
  intros Hsg Hnone Hd Hp Hw. unfold abort_staged. rewrite Hsg.
  pose proof (stop_cores (staged_process s) w) as Hst.
  destruct (core_stop (staged_process s) w) as [stopped w2].
  pose proof (discard_sealed_touches root (mkSealed root g) d) as [T1 T2].
  destruct (discard_sealed root _ d) as [r d3] eqn:Ed. cbn [snd sealed_generation_id] in T1, T2.
  intros [= <- <- <-]. split.
  { rewrite T1, Hd. apply delete_insert_eq. }
  intros [Hs1%negb_false_iff [u ->]%is_err_false]%orb_false_iff. subst stopped.
  apply discard_sealed_Ok in Ed as (R1 & _ & R3 & R4). cbn [sealed_generation_id] in *.
  split; [rewrite Hst, Hw; set_solver|]. split; [|done].
  by rewrite R1, Hd, delete_insert_eq, delete_id.
Qed.

(** Activation is all or nothing.  For any lawful core backend and any
    schedule of file-system failures: other generations are untouched; when
    [activate] succeeds, [current] names the new generation, its directory holds
    exactly the candidate's files, one more core runs and the result remembers
    which generation was current; when it fails and reports a clean-up without
    failure, the same cores run as before, [current] is what it was, and no
    generation directory was added or lost (a failed seal may leave the new
    directory behind). *)
Theorem activation_all_or_nothing c d w res d' w' :
  is_uint 64 (cand_generation c) -> cand_generation c <> 0 ->
  Activate c (d, w) = (res, (d', w')) ->
  let g := cand_generation c in
  match res with
  | Ok a =>
      sealed_dirs d' = <[ g := dir_of encode_manifest encode_nodes c ]> (sealed_dirs d)
      /\ current_file d' = Some (current_text g)
      /\ cores w' = {[ active_process a ]} ∪ cores w /\ active_process a ∉ cores w
      /\ match current_file d with
         | None => active_previous a = None
         | Some text => exists h, active_previous a = Some h /\ names text h
         end
  | Err err => undone g d w err d' w'
  end.
Proof.
  intros Hg Hz. cbv zeta. unfold activate.
  destruct (Stage c (d, w)) as [[s|err] [d1 w1]] eqn:Es; apply stage_cases in Es as [Hcur Hs].
  2: { intros [= <- <- <-]. exact Hs. }
  destruct Hs as (Hsg & Hnone & Hd1 & Hprev & Hp & Hw1). unfold commit_staged. rewrite Hsg.
  destruct (commit_generation _ _ _ _ _ d1) as [[[]|e] d2] eqn:Ec;
    apply commit_cases in Ec as (C1 & C2 & C3 & C4); cbn [sealed_generation_id] in *.
  { intros [= <- <- <-]. simpl. split; [congruence|]. split; [by apply C3|]. done. }
  destruct (abort_staged root s (d2, w1)) as [failed [d3 w3]] eqn:Ea.
  eapply abort_staged_cases in Ea as [A1 A2]; [|done..|rewrite C1; exact Hd1|done|done].
  intros [= <- <- <-]. split; [done|]. simpl. intros Hf. destruct (A2 Hf) as (B1 & B2 & B3 & B4).
  split_and!; [done| |done]. destruct C4 as [C4|[C4 _]]; [congruence|]. exfalso. apply (B4 _ C4).
  split; [|done]. by apply current_text_parses.
Qed.
End facts.

(** The managed audit accepts exactly what it should: the bytes read back
    are the candidate's own, and they parse to an object whose only field is a
    non-empty array ["outbounds"] of objects with non-empty string tags and
    types. *)
Theorem managed_audit_exact parse_json c read_back :
  ManagedSafetyAuditor_audit parse_json c read_back = Ok tt <->
  read_back = Some (cfg_bytes (cand_config c))
  /\ exists outbounds,
       parse_json (cfg_bytes (cand_config c)) = Some (JObject [("outbounds"%string, JArray outbounds)])
       /\ outbounds <> [] /\ Forall (fun o => valid_outbound o = true) outbounds.
Proof.
  unfold ManagedSafetyAuditor_audit. split.
  - destruct read_back as [bs|]; [|done]. case_bool_decide as Hbs; [|done]. subst bs. simpl.
    destruct (parse_json _) as [[| | | | |fields]|] eqn:Ep; try done.
    destruct (json_get "outbounds" fields) as [o|] eqn:Eg; [|done].
    destruct (Z.eqb_spec (len fields) 1) as [Hl|]; [|done]. simpl.
    destruct o as [| | | |l|]; try done. destruct (Z.eqb_spec (len l) 0) as [|Hne]; [done|].
    destruct (existsb _ l) eqn:Ev; [done|]. intros _. split; [done|]. exists l.
    destruct fields as [|[k v] [|]]; unfold len in Hl; simpl in Hl; try lia.
    unfold json_get in Eg. simpl in Eg. destruct (String.eqb_spec k "outbounds") as [->|]; [|done].
    injection Eg as ->. split; [done|]. split; [by destruct l|].
    apply Forall_forall. intros o Ho. destruct (valid_outbound o) eqn:Eo; [done|].
    assert (existsb (fun o => negb (valid_outbound o)) l = true); [|congruence].
    apply existsb_exists. exists o. split; [by apply list_elem_of_In|by rewrite Eo].
  - intros (-> & l & Hp & Hne & Hv). rewrite bool_decide_eq_true_2 by done. simpl. rewrite Hp.
    unfold json_get. simpl. destruct (Z.eqb_spec (len l) 0) as [Hl|_].
    { destruct l; [done|]. unfold len in Hl. simpl in Hl. lia. }
    destruct (existsb _ l) eqn:Ev; [|done]. apply existsb_exists in Ev as (o & Ho & Hn).
    rewrite Forall_forall in Hv. by rewrite (Hv o) in Hn by (by apply list_elem_of_In).
Qed.

(** The liveness probe.  For a probe that [new]
    accepts, a verdict is reached after polls that all found the process running
    within the stable window, and the last turn justifies it: the window has
    elapsed (healthy), the process was gone (early exit), could not be observed,
    or, for a timeout, the clock had passed the window between two readings of
    the same turn: a timeout alone never fires before the stable window. *)
Theorem liveness_probe_sound timeout window poll p observations verdict :
  StartupLivenessProbe_new timeout window poll = Ok p ->
  probe_wait_healthy p observations = Some verdict ->
  exists seen last rest,
    observations = seen ++ last :: rest
    /\ Forall (fun o => elapsed_loop o < stable_window p /\ obs_running o = Some true) seen
    /\ match verdict with
       | Ok _ => stable_window p <= elapsed_loop last
       | Err TimedOut => stable_window p <= elapsed_timeout last
       | Err EarlyExit => obs_running last = Some false
       | Err ObserveFailed => obs_running last = None
       end.
Proof.
  unfold StartupLivenessProbe_new. split_if Hg; [done|]. intros [= <-].
  rewrite !orb_false_iff in Hg. destruct Hg as (((_ & Hw) & _) & _). apply Z.ltb_ge in Hw. simpl in *.
  induction observations as [|o rest IH]; simpl; [done|].
  destruct (Z.ltb_spec (elapsed_loop o) window) as [Hlt|Hge].
  - destruct (Z.leb_spec timeout (elapsed_timeout o)).
    { intros [= <-]. exists [], o, rest. split; [done|]. split; [constructor|lia]. }
    destruct (obs_running o) as [[|]|] eqn:Eo.
    + intros (seen & last & tl & -> & Hs & Hv)%IH. exists (o :: seen), last, tl.
      split; [done|]. split; [by constructor|done].
    + intros [= <-]. exists [], o, rest. by repeat constructor.
    + intros [= <-]. exists [], o, rest. by repeat constructor.
  - intros [= <-]. exists [], o, rest. by repeat constructor.
Qed.

(** ** Witnesses *)
Module CoreDemo.
Record World : Type := mkWorld { w_cores : gset Z; w_starts : bool; w_healthy : bool }.
#[global] Instance backend : CoreBackend World Z := {|
  core_check _ w := (true, w);
  core_start _ w :=
    if w_starts w
    then (Some (fresh (w_cores w)),
          mkWorld ({[ fresh (w_cores w) ]} ∪ w_cores w) (w_starts w) (w_healthy w))
    else (None, w);
  core_healthy _ w := (w_healthy w, w);
  core_stop p w := (true, mkWorld (w_cores w ∖ {[ p ]}) (w_starts w) (w_healthy w));
|}.
#[global] Program Instance laws : CoreBackendLaws World Z := {| cores := w_cores |}.
Next Obligation. done. Qed.
Next Obligation.
  intros g w. simpl. destruct (w_starts w); [|done]. split; [apply is_fresh|done].
Qed.
Next Obligation. done. Qed.
Next Obligation. done. Qed.

Definition accept (_ : Candidate) (_ : option (list Z)) : Result SafetyAuditError unit := Ok tt.
Definition run (w : World) := activate Generation.Demo.sha Generation.Demo.enc Generation.Demo.dec
  Generation.Demo.enc_nodes Generation.Demo.dec_nodes "/data" accept Generation.Demo.candidate
  (Generation.Demo.fresh [], w).
End CoreDemo.

Lemma activation_all_or_nothing_witness :
  exists a d w, CoreDemo.run (CoreDemo.mkWorld ∅ true true) = (Ok a, (d, w))
  /\ current_file d = Some (current_text 7)
  /\ exists err d' w', CoreDemo.run (CoreDemo.mkWorld ∅ true false) = (Err err, (d', w'))
     /\ CoreDemo.w_cores w' = ∅ /\ current_file d' = None.
Proof.
  assert (is_uint 64 7) as Hg by (split; vm_compute; congruence).
  destruct (CoreDemo.run (CoreDemo.mkWorld ∅ true true)) as [[a|e] [d w]] eqn:E1;
    [|vm_compute in E1; discriminate E1].
  destruct (CoreDemo.run (CoreDemo.mkWorld ∅ true false)) as [[a'|err] [d' w']] eqn:E2;
    [vm_compute in E2; discriminate E2|].
  pose proof (activation_all_or_nothing Generation.Demo.sha Generation.Demo.enc Generation.Demo.dec
    Generation.Demo.enc_nodes Generation.Demo.dec_nodes "/data" CoreDemo.accept
    Generation.Demo.candidate _ _ _ _ _ Hg ltac:(discriminate) E1) as H1.
  pose proof (activation_all_or_nothing Generation.Demo.sha Generation.Demo.enc Generation.Demo.dec
    Generation.Demo.enc_nodes Generation.Demo.dec_nodes "/data" CoreDemo.accept
    Generation.Demo.candidate _ _ _ _ _ Hg ltac:(discriminate) E2) as H2.
  cbn beta iota zeta in H1, H2. destruct H1 as (_ & H1 & _).
  assert (cleanup_failed err = false) as Hc by (vm_compute in E2; injection E2 as <-; reflexivity).
  destruct H2 as [_ H2]. destruct (H2 Hc) as (H3 & H4 & _).
  exists a, d, w. split; [reflexivity|]. split; [exact H1|].
  exists err, d', w'. split; [reflexivity|]. split; [exact H3|exact H4].
Defined.

Lemma liveness_probe_sound_witness :
  exists seen last rest,
    [mkObs 0 0 (Some true); mkObs (from_millis 200) 0 (Some true)] = seen ++ last :: rest
    /\ from_millis 200 <= elapsed_loop last.
Proof.
  destruct (liveness_probe_sound (from_secs 3) (from_millis 200) (from_millis 20)
    StartupLivenessProbe_default
    [mkObs 0 0 (Some true); mkObs (from_millis 200) 0 (Some true)] (Ok tt))
    as (seen & last & rest & H1 & _ & H2); [vm_compute; reflexivity|vm_compute; reflexivity|].
  exists seen, last, rest. split; [exact H1|exact H2].
Defined.
