(* ===== verification/Capability.v ===== *)
(** * Capability: what the device can do, as the planner reads it

    Models the data of crates/nethop-android/src/capability.rs: the status of a
    probed feature, the mark/table/priority candidates, the per-family record
    with its two aggregate tests, and [CapabilityReport] with its validating
    constructors. *)

From S2P Require Import Prelude Ordering.

Local Open Scope Z_scope.

Definition CAPABILITY_SCHEMA_VERSION : Z := 3.
Definition MAX_NETWORK_INTERFACES : Z := 64.
Definition MAX_INTERFACE_NAME_BYTES : Z := 64.

Inductive IpFamily : Type := Ipv4 | Ipv6.
#[export] Instance IpFamily_eq_dec : EqDecision IpFamily.
Proof. solve_decision. Defined.

Inductive CapabilityStatus : Type := Supported | NotPresent | Unsupported | Denied | Conflict.
#[export] Instance CapabilityStatus_eq_dec : EqDecision CapabilityStatus.
Proof. solve_decision. Defined.

Definition is_supported (self : CapabilityStatus) : bool :=
  match self with Supported => true | _ => false end.

Inductive NetfilterBackend : Type := Legacy | NftWrapper | UnknownBackend.

(** ** Marks, route tables and rule priorities *)
Record ResourceCandidate : Type := mkCandidate {
  mark : Z;
  mask : Z;
  route_table : Z;
  rule_priority : Z;
}.

(** [!mask] on a [u32]. *)
Definition not_u32 (z : Z) : Z := Z.lxor z (umax 32).

Definition ResourceCandidate_new (mark mask route_table rule_priority : Z) :
    option ResourceCandidate :=
  if (mark =? 0) || (mask =? 0) || negb (Z.land mark (not_u32 mask) =? 0)
     || (route_table =? 0) || (rule_priority =? 0)
  then None
  else Some (mkCandidate mark mask route_table rule_priority).

Record AllocationCapability : Type := mkAllocation {
  candidate : ResourceCandidate;
  status : CapabilityStatus;
}.

(** ** Per-family capabilities *)
Record FamilyCapability : Type := mkFamily {
  family : IpFamily;
  address : CapabilityStatus;
  netfilter : CapabilityStatus;
  restore : CapabilityStatus;
  tproxy : CapabilityStatus;
  fam_mark : CapabilityStatus;
  conntrack : CapabilityStatus;
  owner : CapabilityStatus;
  socket : CapabilityStatus;
  policy_routing : CapabilityStatus;
  chain_namespace : CapabilityStatus;
}.

Definition supports_tproxy (self : FamilyCapability) : bool :=
  is_supported (address self) && is_supported (netfilter self)
  && is_supported (restore self) && is_supported (tproxy self)
  && is_supported (fam_mark self) && is_supported (conntrack self)
  && is_supported (owner self) && is_supported (socket self)
  && is_supported (policy_routing self) && is_supported (chain_namespace self).

Definition supports_guard (self : FamilyCapability) : bool :=
  is_supported (address self) && is_supported (netfilter self)
  && is_supported (restore self) && is_supported (owner self)
  && is_supported (chain_namespace self).

(** ** The report *)
Inductive CapabilityError : Type :=
| InvalidPolicy
| InvalidTool
| CommandSpawnFailed
| CommandTimedOut
| CommandOutputFailed.

Record CapabilityReport : Type := mkReport {
  schema_version : Z;
  android : CapabilityStatus;
  abi : string;
  root : CapabilityStatus;
  selinux_enforcing : bool;
  backend : NetfilterBackend;
  ipv4 : FamilyCapability;
  ipv6 : FamilyCapability;
  tun : CapabilityStatus;
  active_tunnel : CapabilityStatus;
  cap_inbound_port : Z;
  inbound_port_status : CapabilityStatus;
  allocations : list AllocationCapability;
  interfaces : list string;
}.

Definition CapabilityReport_new (android : CapabilityStatus) (abi : string)
    (root : CapabilityStatus) (selinux_enforcing : bool) (backend : NetfilterBackend)
    (ipv4 ipv6 : FamilyCapability) (tun active_tunnel : CapabilityStatus)
    (inbound_port : Z) (inbound_port_status : CapabilityStatus)
    (allocations : list AllocationCapability) : Result CapabilityError CapabilityReport :=
  if (inbound_port =? 0) || negb (bool_decide (family ipv4 = Ipv4))
     || negb (bool_decide (family ipv6 = Ipv6)) || (len allocations =? 0)
  then Err InvalidPolicy
  else Ok (mkReport CAPABILITY_SCHEMA_VERSION android abi root selinux_enforcing backend
             ipv4 ipv6 tun active_tunnel inbound_port inbound_port_status allocations []).

(** The byte set of an interface name: alphanumerics and [_ - . +]. *)
Definition interface_name_byte (b : Z) : bool :=
  is_ascii_alphanumeric b || (b =? 95) || (b =? 45) || (b =? 46) || (b =? 43).

Definition valid_interface_name (name : string) : bool :=
  negb (str_len name =? 0) && (str_len name <=? MAX_INTERFACE_NAME_BYTES)
  && forallb interface_name_byte (bytes name).

(** [interfaces.windows(2).any(|pair| pair[0] >= pair[1])]. *)
Fixpoint some_pair_not_increasing (l : list string) : bool :=
  match l with
  | a :: ((b :: _) as rest) =>
      negb (bool_decide (cmp a b = Lt)) || some_pair_not_increasing rest
  | _ => false
  end.

Definition with_interfaces (self : CapabilityReport) (interfaces : list string) :
    Result CapabilityError CapabilityReport :=
  if (MAX_NETWORK_INTERFACES <? len interfaces)
     || existsb (fun name => negb (valid_interface_name name)) interfaces
     || some_pair_not_increasing interfaces
  then Err InvalidPolicy
  else Ok (mkReport (schema_version self) (android self) (abi self) (root self)
             (selinux_enforcing self) (backend self) (ipv4 self) (ipv6 self) (tun self)
             (active_tunnel self) (cap_inbound_port self) (inbound_port_status self)
             (allocations self) interfaces).

(** ** Facts the planner uses *)
Lemma is_supported_true s : is_supported s = true <-> s = Supported.
Proof. by destruct s. Qed.

Lemma supports_guard_address c : supports_guard c = true -> address c = Supported.
Proof. unfold supports_guard. destruct (address c); done. Qed.

Lemma tproxy_supports_guard c : supports_tproxy c = true -> supports_guard c = true.
Proof.
  unfold supports_tproxy, supports_guard.
  destruct (address c), (netfilter c), (restore c), (owner c), (chain_namespace c);
    simpl; try done; rewrite ?andb_false_r; done.
Qed.

Lemma supports_guard_namespace c : supports_guard c = true -> chain_namespace c = Supported.
Proof.
  unfold supports_guard. intros [_ H]%andb_true_iff. by apply is_supported_true.
Qed.

(** A 32-bit candidate's mark lies inside its mask. *)
Lemma land_not_u32 a m : is_uint 32 a -> is_uint 32 m ->
  Z.land a (not_u32 m) = 0 -> Z.land a m = a.
Proof.
  intros Ha Hm H. unfold not_u32, umax in H. change (2 ^ 32 - 1) with (Z.ones 32) in H.
  apply Z.bits_inj'. intros n Hn. rewrite Z.land_spec.
  apply (f_equal (fun z => Z.testbit z n)) in H.
  rewrite Z.land_spec, Z.lxor_spec, Z.bits_0 in H.
  destruct (decide (n < 32)).
  - rewrite Z.ones_spec_low in H by lia.
    destruct (Z.testbit a n), (Z.testbit m n); simpl in *; done.
  - destruct Ha as [Ha0 Ha]. replace (Z.testbit a n) with false; [done|].
    symmetry. rewrite <- (Z.mod_small a (2 ^ 32)) by lia. apply Z.mod_pow2_bits_high. lia.
Qed.

Definition candidate_wf (c : ResourceCandidate) : Prop :=
  is_uint 32 (mark c) /\ is_uint 32 (mask c) /\ mark c <> 0 /\
  Z.land (mark c) (mask c) = mark c.

Lemma candidate_new_wf m k t r c :
  is_uint 32 m -> is_uint 32 k -> ResourceCandidate_new m k t r = Some c -> candidate_wf c.
Proof.
  unfold ResourceCandidate_new. intros Hm Hk.
  destruct (m =? 0) eqn:E1, (k =? 0) eqn:E2, (Z.land m (not_u32 k) =? 0) eqn:E3,
    (t =? 0) eqn:E4, (r =? 0) eqn:E5; try done. intros [= <-].
  apply Z.eqb_neq in E1. apply Z.eqb_eq in E3. repeat split; simpl; try apply Hm; try apply Hk; auto.
  by apply land_not_u32.
Qed.

(** Interface names a report carries hold no glob character. *)
Lemma valid_interface_name_no_star name :
  valid_interface_name name = true -> 42 ∉ bytes name.
Proof.
  unfold valid_interface_name. intros [_ H]%andb_true_iff Hin.
  rewrite forallb_forall in H. specialize (H 42). apply list_elem_of_In in Hin. by apply H in Hin.
Qed.

Lemma with_interfaces_valid r l r' :
  with_interfaces r l = Ok r' -> forall n, n ∈ interfaces r' -> valid_interface_name n = true.
Proof.
  unfold with_interfaces. split_if H; [done|]. intros [= <-] n Hn. simpl in Hn.
  apply orb_false_iff in H as [[_ H]%orb_false_iff _].
  destruct (valid_interface_name n) eqn:E; [done|]. apply not_true_iff_false in H. exfalso. apply H.
  apply existsb_exists. exists n. rewrite E. split; [by apply list_elem_of_In|done].
Qed.
