(* ===== verification/Interfaces.v ===== *)
(** * Interfaces: which network interfaces a policy selects

    Models the interface half of crates/nethop-android/src/plan.rs: the glob
    matcher with its backtracking loop, the interface classes by name prefix, and
    the two resolvers that turn a policy and the probed interface list into the
    interfaces a plan writes rules for. *)

From S2P Require Import Prelude Text Ordering Capture NodeRegistry Generation Capability.

Local Open Scope Z_scope.

(** ** [glob_matches]

    One iteration of the [while] per unit of fuel, on the byte arrays and the four
    cursors of the source; [None] is an exhausted fuel. *)
Definition at_eq (p : list Z) (i : nat) (b : Z) : bool :=
  match p !! i with Some c => c =? b | None => false end.

Fixpoint skip_stars (rest : list Z) (pattern_index : nat) : nat :=
  match rest with
  | c :: rest' => if c =? 42 then skip_stars rest' (S pattern_index) else pattern_index
  | [] => pattern_index
  end.

Fixpoint glob_loop (fuel : nat) (pattern value : list Z)
    (pattern_index value_index : nat) (star : option nat) (retry_value : nat) : option bool :=
  match value !! value_index with
  | None =>
      Some (Nat.eqb (skip_stars (drop pattern_index pattern) pattern_index) (length pattern))
  | Some b =>
      match fuel with
      | O => None
      | S fuel' =>
          if at_eq pattern pattern_index 63 || at_eq pattern pattern_index b
          then glob_loop fuel' pattern value (S pattern_index) (S value_index) star retry_value
          else if at_eq pattern pattern_index 42
          then glob_loop fuel' pattern value (S pattern_index) value_index
                 (Some pattern_index) value_index
          else match star with
               | Some star_index =>
                   glob_loop fuel' pattern value (S star_index) (S retry_value) star
                     (S retry_value)
               | None => Some false
               end
      end
  end.

Definition glob_fuel (pattern value : list Z) : nat :=
  (length value + 1) * (length pattern + 2).

Definition glob_matches (pattern value : string) : bool :=
  default false
    (glob_loop (glob_fuel (bytes pattern) (bytes value)) (bytes pattern) (bytes value)
       0 0 None 0).

(** ** Interface classes *)
Definition starts_with_any (prefixes : list string) (name : string) : bool :=
  existsb (fun prefix =>
    match strip_prefix (bytes prefix) (bytes name) with Some _ => true | None => false end)
    prefixes.

Definition is_wifi_interface (name : string) : bool :=
  starts_with_any ["wlan"; "wifi"; "swlan"] name.

Definition is_mobile_interface (name : string) : bool :=
  starts_with_any ["rmnet"; "ccmni"; "pdp"; "wwan"; "v4-rmnet"; "r_rmnet"; "clat"] name.

Definition is_hotspot_interface (name : string) : bool :=
  if starts_with_any ["ap"; "softap"; "swlan"] name then true
  else match strip_prefix (bytes "wlan") (bytes name) ≫= parse_u8 with
       | Some index => 0 <? index
       | None => false
       end.

Definition is_usb_tether_interface (name : string) : bool :=
  starts_with_any ["rndis"; "usb"] name.

(** ** The resolvers *)
Inductive NetworkPlanError : Type :=
| InvalidGeneration
| UnsupportedCaptureMode
| PlatformUnavailable
| InboundPortMismatch
| InboundPortConflict
| ExistingTunnelConflict
| Ipv4TproxyUnavailable
| Ipv6LeakRisk
| ResourceConflict
| TunUnavailable
| BypassMarkConflict
| InterfaceSelectionEmpty
| ForwardingInterfaceSelectionEmpty.
#[export] Instance NetworkPlanError_eq_dec : EqDecision NetworkPlanError.
Proof. solve_decision. Defined.

Definition interface_selected (policy : InterfacePolicy) (name : string) : bool :=
  negb (bool_decide (name = "lo"))
  && (if len (include policy) =? 0
      then (mobile policy && is_mobile_interface name)
           || (wifi policy && is_wifi_interface name)
      else existsb (fun pattern => glob_matches pattern name) (include policy))
  && negb (existsb (fun pattern => glob_matches pattern name) (exclude policy)).

Definition resolve_interfaces (policy : InterfacePolicy) (available : list string) :
    Result NetworkPlanError (option (list string)) :=
  if InterfacePolicy_is_unrestricted policy then Ok None
  else
    let selected :=
      sort_dedup (List.filter (fun name => interface_selected policy name) available) in
    if len selected =? 0 then Err InterfaceSelectionEmpty else Ok (Some selected).

Definition forwarding_selected (policy : ForwardingPolicy) (name : string) : bool :=
  (hotspot policy && is_hotspot_interface name)
  || (usb policy && is_usb_tether_interface name).

Definition resolve_forwarding_interfaces (policy : ForwardingPolicy)
    (available : list string) : Result NetworkPlanError (list string) :=
  if negb (ForwardingPolicy_enabled policy) then Ok []
  else
    let selected :=
      sort_dedup (List.filter (fun name => forwarding_selected policy name) available) in
    if (len selected =? 0) || (8 <? len selected)
    then Err ForwardingInterfaceSelectionEmpty
    else Ok selected.

(** ** What a glob means

    [?] stands for one byte, [*] for any number of them, any other byte for
    itself. *)
Inductive globs : list Z -> list Z -> Prop :=
| globs_nil : globs [] []
| globs_any p b v : globs p v -> globs (63 :: p) (b :: v)
| globs_lit c p v : c <> 42 -> globs p v -> globs (c :: p) (c :: v)
| globs_star p u v : globs p v -> globs (42 :: p) (u ++ v).

Lemma globs_star_drop p v :
  globs (42 :: p) v <-> exists k, (k <= length v)%nat /\ globs p (drop k v).
Proof.
  split.
  - inversion 1; subst; [done|]. exists (length u). rewrite drop_app_length, length_app.
    split; [lia|done].
  - intros (k & Hk & H). rewrite <- (take_drop k v). by constructor.
Qed.

Lemma globs_nil_r p : globs p [] <-> forallb (fun c => c =? 42) p = true.
Proof.
  split.
  - remember [] as v. induction 1; simplify_eq; simpl; auto.
    apply app_eq_nil in Heqv as [-> ->]. auto.
  - induction p as [|c p IH]; simpl; [constructor|]. intros [->%Z.eqb_eq H]%andb_true_iff.
    change (@nil Z) with ([] ++ [] : list Z). constructor. auto.
Qed.

Lemma globs_cons_inv c p b v : c <> 42 ->
  globs (c :: p) (b :: v) <-> (c = 63 \/ c = b) /\ globs p v.
Proof.
  intros Hc. split.
  - inversion 1; subst; auto; done.
  - intros [[->| ->] H]; [by constructor|by constructor].
Qed.

(** A star-free prefix of the pattern takes exactly its length. *)
Lemma globs_seg seg p w : 42 ∉ seg -> globs (seg ++ p) w ->
  (length seg <= length w)%nat /\ globs p (drop (length seg) w).
Proof.
  revert w. induction seg as [|c seg IH]; intros w Hs H; simpl in *; [split; [lia|done]|].
  apply not_elem_of_cons in Hs as [Hc Hs].
  inversion H; subst; [| |done]; simpl; destruct (IH _ Hs ltac:(eassumption)); split; auto; lia.
Qed.

Lemma skip_stars_spec p i :
  skip_stars p i = (i + length p)%nat <-> forallb (fun c => c =? 42) p = true.
Proof.
  revert i. induction p as [|c p IH]; intros i; simpl; [split; [done|lia]|].
  destruct (c =? 42); simpl; [rewrite <- (IH (S i)); by replace (i + S (length p))%nat
    with (S i + length p)%nat by lia|split; [lia|done]].
Qed.

(** ** The backtracking loop decides [globs] *)
Section glob.
Context (p v : list Z) (Hv : 42 ∉ v).

(** The text between the last star and the pattern cursor holds no star and has
    been matched, byte for byte, from [retry_value] on. *)
Definition glob_inv (pi vi : nat) (star : option nat) (retry : nat) : Prop :=
  (pi <= length p)%nat /\ (vi <= length v)%nat /\ (retry <= vi)%nat /\
  match star with
  | None => True
  | Some s => (s < pi)%nat /\ vi = (retry + (pi - S s))%nat /\
              42 ∉ take (pi - S s) (drop (S s) p)
  end.

(** The matches still to be explored: from the cursors, or by a later retry. *)
Definition glob_later (star : option nat) (retry : nat) : Prop :=
  exists s, star = Some s /\
  exists j, (retry < j <= length v)%nat /\ globs (drop (S s) p) (drop j v).
Definition glob_open (pi vi : nat) (star : option nat) (retry : nat) : Prop :=
  globs (drop pi p) (drop vi v) \/ glob_later star retry.

Definition glob_measure (pi retry : nat) : nat :=
  ((length v - retry) * (length p + 2) + (length p - pi))%nat.

Lemma at_eq_true i b : at_eq p i b = true <-> p !! i = Some b.
Proof.
  unfold at_eq. destruct (p !! i) as [c|]; [|done]. rewrite Z.eqb_eq.
  split; [by intros ->|by intros [= ->]].
Qed.

Lemma seg_snoc s pi c : (s < pi)%nat -> p !! pi = Some c -> c <> 42 ->
  42 ∉ take (pi - S s) (drop (S s) p) -> 42 ∉ take (S pi - S s) (drop (S s) p).
Proof.
  intros Hs Hc Hn Hseg. replace (S pi - S s)%nat with (S (pi - S s)) by lia.
  rewrite (take_S_r _ _ c); [|rewrite lookup_drop; by replace (S s + (pi - S s))%nat with pi by lia].
  rewrite not_elem_of_app, list_elem_of_singleton. done.
Qed.

(** A retry after the last star has to get past the segment first. *)
Lemma later_skips_seg s pi vi retry j : glob_inv pi vi (Some s) retry ->
  (retry < j <= length v)%nat -> globs (drop (S s) p) (drop j v) ->
  exists k, (vi < k <= length v)%nat /\ globs (drop pi p) (drop k v).
Proof.
  intros (Hp & _ & _ & Hs & Hvi & Hseg) Hj H.
  assert (drop (S s) p = take (pi - S s) (drop (S s) p) ++ drop pi p) as E.
  { rewrite <- (take_drop (pi - S s) (drop (S s) p)) at 1. rewrite drop_drop.
    by replace (S s + (pi - S s))%nat with pi by lia. }
  rewrite E in H. apply globs_seg in H as [Hl H]; [|done].
  rewrite length_take, (length_drop p), Nat.min_l in Hl, H by lia. rewrite length_drop in Hl.
  rewrite drop_drop in H. exists (j + (pi - S s))%nat. split; [lia|done].
Qed.

Lemma glob_step_char pi vi star retry b : glob_inv pi vi star retry ->
  v !! vi = Some b -> at_eq p pi 63 || at_eq p pi b = true ->
  glob_inv (S pi) (S vi) star retry /\
  (glob_open pi vi star retry <-> glob_open (S pi) (S vi) star retry).
Proof.
  intros (Hp & Hvi & Hr & Hs) Hb Hm.
  assert (exists c, p !! pi = Some c /\ (c = 63 \/ c = b) /\ c <> 42) as (c & Hc & Hcb & Hn).
  { assert (b <> 42) by (intros ->; by apply Hv, (list_elem_of_lookup_2 _ vi)).
    apply orb_true_iff in Hm as [Ha|Ha]; apply at_eq_true in Ha; [exists 63|exists b]; auto. }
  pose proof (lookup_lt_Some _ _ _ Hc) as Hlc. pose proof (lookup_lt_Some _ _ _ Hb) as Hlb. split.
  - repeat split; try lia. destruct star as [s|]; [|done]. destruct Hs as (Hs & E & Hseg).
    repeat split; [lia|lia|]. by eapply seg_snoc.
  - unfold glob_open. rewrite (drop_S _ _ _ Hc), (drop_S _ _ _ Hb), globs_cons_inv by done. tauto.
Qed.

Lemma glob_step_star pi vi star retry b : glob_inv pi vi star retry ->
  v !! vi = Some b -> at_eq p pi 42 = true ->
  glob_inv (S pi) vi (Some pi) vi /\
  (glob_open pi vi star retry <-> glob_open (S pi) vi (Some pi) vi).
Proof.
  intros Hinv Hb Hm%at_eq_true. pose proof (lookup_lt_Some _ _ _ Hm) as Hlt.
  pose proof (lookup_lt_Some _ _ _ Hb) as Hlb. pose proof Hinv as (Hp & Hvi & Hr & _). split.
  - repeat split; try lia. replace (S pi - S pi)%nat with O by lia. apply not_elem_of_nil.
  - unfold glob_open, glob_later. split.
    + intros [H|(s & -> & j & Hj & H)].
      * rewrite (drop_S _ _ _ Hm), globs_star_drop in H. destruct H as (k & Hk & H).
        rewrite length_drop in Hk. rewrite drop_drop in H. destruct k as [|k].
        -- left. by rewrite Nat.add_0_r in H.
        -- right. exists pi. split; [done|]. exists (vi + S k)%nat. split; [lia|done].
      * right. exists pi. split; [done|].
        destruct (later_skips_seg _ _ _ _ _ Hinv Hj H) as (k & Hk & Hg).
        rewrite (drop_S _ _ _ Hm), globs_star_drop in Hg. destruct Hg as (i & Hi & Hg).
        rewrite length_drop in Hi. rewrite drop_drop in Hg. exists (k + i)%nat. split; [lia|done].
    + intros H. left. rewrite (drop_S _ _ _ Hm), globs_star_drop.
      destruct H as [H|(s & [= <-] & j & Hj & H)].
      * exists O. split; [lia|by rewrite drop_drop, Nat.add_0_r].
      * exists (j - vi)%nat. rewrite length_drop, drop_drop.
        replace (vi + (j - vi))%nat with j by lia. split; [lia|done].
Qed.

(** Neither arm applies: the cursors match nothing. *)
Lemma glob_stuck pi vi b : v !! vi = Some b ->
  at_eq p pi 63 || at_eq p pi b = false -> at_eq p pi 42 = false ->
  ~ globs (drop pi p) (drop vi v).
Proof.
  intros Hb Hm Hs H. apply orb_false_iff in Hm as [H1 H2]. rewrite (drop_S _ _ _ Hb) in H.
  destruct (p !! pi) as [c|] eqn:Hc.
  - unfold at_eq in *. rewrite Hc in *. rewrite (drop_S _ _ _ Hc) in H.
    apply Z.eqb_neq in H1, H2, Hs. apply globs_cons_inv in H as [[?|?] _]; done.
  - apply lookup_ge_None in Hc. rewrite drop_ge in H by lia. inversion H.
Qed.

Lemma glob_step_retry pi vi s retry b : glob_inv pi vi (Some s) retry ->
  v !! vi = Some b -> ~ globs (drop pi p) (drop vi v) ->
  glob_inv (S s) (S retry) (Some s) (S retry) /\
  (glob_open pi vi (Some s) retry <-> glob_open (S s) (S retry) (Some s) (S retry)).
Proof.
  intros (Hp & Hvi & Hr & Hs & E & Hseg) Hb Hno. pose proof (lookup_lt_Some _ _ _ Hb) as Hlb. split.
  - repeat split; try lia. replace (S s - S s)%nat with O by lia. apply not_elem_of_nil.
  - unfold glob_open, glob_later. split.
    + intros [H'|(s' & [= <-] & j & Hj & H')]; [done|].
      destruct (decide (j = S retry)) as [->|]; [by left|].
      right. exists s. split; [done|]. exists j. split; [lia|done].
    + intros [H'|(s' & [= <-] & j & Hj & H')]; right; exists s; (split; [done|]).
      * exists (S retry). split; [lia|done].
      * exists j. split; [lia|done].
Qed.

Lemma glob_end pi vi star retry : glob_inv pi vi star retry -> v !! vi = None ->
  (skip_stars (drop pi p) pi =? length p)%nat = true <-> glob_open pi vi star retry.
Proof.
  intros Hinv Hb%lookup_ge_None. pose proof Hinv as (Hp & Hvi & _).
  rewrite Nat.eqb_eq. replace (length p) with (pi + length (drop pi p))%nat
    by (rewrite length_drop; lia).
  rewrite skip_stars_spec, <- globs_nil_r. unfold glob_open. rewrite (drop_ge v vi) by lia.
  split; [by left|]. intros [H|(s & -> & j & Hj & H)]; [done|].
  destruct (later_skips_seg _ _ _ _ _ Hinv Hj H) as (k & Hk & _). lia.
Qed.

Lemma decided_iff (e : option bool) (P Q : Prop) : (P <-> Q) ->
  (exists r, e = Some r /\ (r = true <-> Q)) -> exists r, e = Some r /\ (r = true <-> P).
Proof. naive_solver. Qed.

Lemma glob_loop_correct fuel pi vi star retry : glob_inv pi vi star retry ->
  (glob_measure pi retry <= fuel)%nat ->
  exists r, glob_loop fuel p v pi vi star retry = Some r /\
            (r = true <-> glob_open pi vi star retry).
Proof.
  revert pi vi star retry. induction fuel as [|fuel IH]; intros pi vi star retry Hinv Hf.
  all: pose proof Hinv as (Hp & Hvi & Hr & Hs); cbn [glob_loop];
    destruct (v !! vi) as [b|] eqn:Hb; [|eexists; split; [done|by apply glob_end]].
  all: pose proof (lookup_lt_Some _ _ _ Hb) as Hlb; unfold glob_measure in *.
  { nia. }
  destruct (at_eq p pi 63 || at_eq p pi b) eqn:Hm.
  { destruct (glob_step_char _ _ _ _ _ Hinv Hb Hm) as [Hi Ho].
    eapply decided_iff; [exact Ho|]. apply IH; [done|]. destruct Hi as (? & _). nia. }
  destruct (at_eq p pi 42) eqn:Hstar.
  { destruct (glob_step_star _ _ _ _ _ Hinv Hb Hstar) as [Hi Ho].
    eapply decided_iff; [exact Ho|]. apply IH; [done|]. destruct Hi as (? & _). nia. }
  pose proof (glob_stuck _ _ _ Hb Hm Hstar) as Hno. destruct star as [s|].
  - destruct (glob_step_retry _ _ _ _ _ Hinv Hb Hno) as [Hi Ho].
    eapply decided_iff; [exact Ho|]. apply IH; [done|]. destruct Hi as (? & _). nia.
  - exists false. split; [done|]. split; [done|]. intros [?|(s & ? & _)]; done.
Qed.
End glob.

Lemma glob_matches_globs pattern value : 42 ∉ bytes value ->
  glob_matches pattern value = true <-> globs (bytes pattern) (bytes value).
Proof.
  intros Hv. unfold glob_matches.
  destruct (glob_loop_correct (bytes pattern) (bytes value) Hv
              (glob_fuel (bytes pattern) (bytes value)) 0 0 None 0) as (r & -> & Hr).
  - repeat split; lia.
  - unfold glob_measure, glob_fuel. nia.
  - simpl. rewrite Hr. unfold glob_open, glob_later. rewrite !drop_0.
    split; [intros [?|(? & ? & _)]; done|by left].
Qed.

(** ** The selections *)
Lemma len_zero {A} (l : list A) : (len l =? 0) = true <-> l = [].
Proof. rewrite Z.eqb_eq. unfold len. destruct l; simpl; [done|]. split; [lia|done]. Qed.

Lemma resolve_interfaces_ok policy available l :
  resolve_interfaces policy available = Ok (Some l) ->
  InterfacePolicy_is_unrestricted policy = false /\ l <> [] /\
  StronglySorted ord_lt l /\
  (forall n, n ∈ l <-> n ∈ available /\ interface_selected policy n = true).
Proof.
  unfold resolve_interfaces. split_if Hu; [done|]. cbv zeta. split_if Hl; [done|].
  intros [= <-]. repeat split.
  - intros E. by rewrite (proj2 (len_zero _) E) in Hl.
  - apply sort_dedup_StronglySorted.
  - by apply sort_dedup_elem_of, list_elem_of_In, List.filter_In in H as [?%list_elem_of_In _].
  - by apply sort_dedup_elem_of, list_elem_of_In, List.filter_In in H as [_ ?].
  - intros [H1 H2]. apply sort_dedup_elem_of, list_elem_of_In, List.filter_In.
    split; [by apply list_elem_of_In|done].
Qed.

Lemma resolve_forwarding_ok policy available l :
  resolve_forwarding_interfaces policy available = Ok l ->
  len l <= 8 /\ (ForwardingPolicy_enabled policy = true <-> l <> []) /\
  StronglySorted ord_lt l /\
  (forall n, n ∈ l <-> n ∈ available /\ forwarding_selected policy n = true).
Proof.
  unfold resolve_forwarding_interfaces. split_if He.
  - apply negb_true_iff in He. intros [= <-]. repeat split; try done.
    + by rewrite He.
    + constructor.
    + by apply not_elem_of_nil in H.
    + by apply not_elem_of_nil in H.
    + unfold forwarding_selected, ForwardingPolicy_enabled in *.
      apply orb_false_iff in He as [-> ->]. by intros [_ ?].
  - apply negb_false_iff in He. cbv zeta. split_if Hl; [done|]. intros [= <-].
    apply orb_false_iff in Hl as [Hl H8]. apply Z.ltb_ge in H8. repeat split.
    + done.
    + intros _ E. by rewrite (proj2 (len_zero _) E) in Hl.
    + done.
    + apply sort_dedup_StronglySorted.
    + by apply sort_dedup_elem_of, list_elem_of_In, List.filter_In in H as [?%list_elem_of_In _].
    + by apply sort_dedup_elem_of, list_elem_of_In, List.filter_In in H as [_ ?].
    + intros [H1 H2]. apply sort_dedup_elem_of, list_elem_of_In, List.filter_In.
      split; [by apply list_elem_of_In|done].
Qed.

(** ** Properties *)

(** On every interface name a report can carry, the backtracking matcher
    terminates within its bound and decides the glob relation: [?] is one byte,
    [*] any number of bytes, anything else itself. *)
Theorem glob_matches_correct pattern value :
  valid_interface_name value = true ->
  exists r, glob_loop (glob_fuel (bytes pattern) (bytes value)) (bytes pattern) (bytes value)
              0 0 None 0 = Some r /\
    glob_matches pattern value = r /\ (r = true <-> globs (bytes pattern) (bytes value)).
Proof.
  intros Hv%valid_interface_name_no_star. pose proof (glob_matches_globs pattern value Hv) as Hg.
  unfold glob_matches in *.
  destruct (glob_loop_correct (bytes pattern) (bytes value) Hv
              (glob_fuel (bytes pattern) (bytes value)) 0 0 None 0) as (r & E & _).
  - repeat split; lia.
  - unfold glob_measure, glob_fuel. nia.
  - rewrite E in *. by exists r.
Qed.

(** A name with a star in it is outside that domain: the matcher takes the star of
    the pattern for the byte itself. *)
Example glob_star_in_name : glob_matches "*" "*a" = false /\ globs (bytes "*") (bytes "*a").
Proof. split; [reflexivity|]. apply (globs_star [] (bytes "*a") []). constructor. Qed.

Lemma existsb_glob patterns name : valid_interface_name name = true ->
  existsb (fun pattern => glob_matches pattern name) patterns = true <->
  exists pattern, pattern ∈ patterns /\ globs (bytes pattern) (bytes name).
Proof.
  intros Hn. rewrite existsb_exists. split; intros (x & Hx & Hg); exists x.
  - split; [by apply list_elem_of_In|].
    by apply glob_matches_globs; [apply valid_interface_name_no_star|].
  - split; [by apply list_elem_of_In|].
    by apply glob_matches_globs; [apply valid_interface_name_no_star|].
Qed.

(** A restricted interface policy resolves to exactly the available interfaces,
    loopback aside, that its include patterns name (or its mobile and Wi-Fi
    classes, without include patterns) and no exclude pattern names, sorted and
    without duplicates, and never to an empty selection. *)
Theorem interface_selection_exact policy available l :
  (forall n, n ∈ available -> valid_interface_name n = true) ->
  resolve_interfaces policy available = Ok (Some l) ->
  l <> [] /\ StronglySorted ord_lt l /\
  forall n, n ∈ l <->
    n ∈ available /\ n <> "lo" /\
    (if len (include policy) =? 0
     then mobile policy && is_mobile_interface n || wifi policy && is_wifi_interface n = true
     else exists pattern, pattern ∈ include policy /\ globs (bytes pattern) (bytes n)) /\
    ~ exists pattern, pattern ∈ exclude policy /\ globs (bytes pattern) (bytes n).
Proof.
  intros Hv (_ & Hne & Hs & Hin)%resolve_interfaces_ok. split_and!; [done|done|]. intros n.
  rewrite Hin. unfold interface_selected. rewrite !andb_true_iff, !negb_true_iff.
  rewrite bool_decide_eq_false. split; intros (Ha & H).
  - destruct H as [[Hlo Hsel] Hex]. pose proof (existsb_glob (exclude policy) n (Hv n Ha)) as Hx.
    rewrite <- Hx. split_and!; [done|done| |by rewrite Hex].
    destruct (_ =? 0); [done|]. by apply existsb_glob; [apply Hv|].
  - destruct H as (Hlo & Hsel & Hex). split_and!; [done|done| |].
    + destruct (_ =? 0); [done|]. by apply existsb_glob; [apply Hv|].
    + apply not_true_iff_false. rewrite existsb_glob; [done|by apply Hv].
Qed.

Lemma glob_matches_correct_witness : glob_matches "rmnet_*1?" "rmnet_data10" = true.
Proof.
  destruct (glob_matches_correct "rmnet_*1?" "rmnet_data10" ltac:(reflexivity))
    as (r & E & -> & _). vm_compute in E. injection E as <-. reflexivity.
Defined.

Lemma interface_selection_exact_witness :
  ~ exists pattern, pattern ∈ ["wlan?"; "dummy*"] /\ globs (bytes pattern) (bytes "wlan0x").
Proof.
  destruct (interface_selection_exact (mkInterfacePolicy true true [] ["wlan?"; "dummy*"])
    ["dummy0"; "lo"; "rmnet0"; "wlan0"; "wlan0x"] ["rmnet0"; "wlan0x"]) as (_ & _ & H).
  - intros n Hn. repeat (apply elem_of_cons in Hn as [->|Hn]; [reflexivity|]).
    by apply not_elem_of_nil in Hn.
  - vm_compute. reflexivity.
  - apply (H "wlan0x"). right. left.
Defined.
