(* ===== verification/Rules.v ===== *)
(** * Rules: the iptables-restore text a plan hands to the kernel tools

    The planner (crates/nethop-android/src/plan.rs) writes its payloads line by
    line with [format!].  Here a line is a value of [Line], and [render] and
    [payload_text] print it as the source does, so that theorems speak of rules
    and the text is still available to evaluate. *)

From S2P Require Import Prelude Text Generation Capability.

Local Open Scope Z_scope.

(** ** Numbers as [format!] prints them: [{}] and [0x{:x}] on a [u32]/[u16] *)
Definition dec (n : Z) : string := of_bytes (print_u64 n).

Definition hex_digit (d : Z) : Z := if d <? 10 then 48 + d else 87 + d.
Fixpoint hex_digits (fuel : nat) (n : Z) (acc : list Z) : list Z :=
  match fuel with
  | O => acc
  | S fuel' =>
      let acc' := hex_digit (n mod 16) :: acc in
      if n <? 16 then acc' else hex_digits fuel' (n / 16) acc'
  end.
(** Eight digits hold every 32-bit value. *)
Definition hex (n : Z) : string := "0x" +:+ of_bytes (hex_digits 8 n []).
Definition mark_mask (value mask : Z) : string := hex value +:+ "/" +:+ hex mask.

(** ** Rules *)
Inductive Protocol : Type := Tcp | Udp.
Inductive Match : Type :=
| MComment (owner : string)
| MMark (value mask : Z)
| MNotMark (value mask : Z)
| MOut (interface : string)
| MIn (interface : string)
| MReply
| MProto (protocol : Protocol)
| MDport (port : Z)
| MUid (uid : Z)
| MDest (destination : string)
| MSocketTransparent.
Inductive Target : Type :=
| TReturn
| TAccept
| TDrop
| TJump (chain : string)
| TMark (value mask : Z)
| TTproxy (port value mask : Z).
Record Rule : Type := mkRule { matches : list Match; target : Target }.

Inductive Line : Type :=
| LTable (table : string)
| LNew (chain : string)
| LAppend (chain : string) (rule : Rule)
| LDelete (chain : string) (rule : Rule)
| LFlush (chain : string)
| LRemove (chain : string)
| LCommit.

#[export] Instance Protocol_eq_dec : EqDecision Protocol.
Proof. solve_decision. Defined.
#[export] Instance Match_eq_dec : EqDecision Match.
Proof. solve_decision. Defined.
#[export] Instance Target_eq_dec : EqDecision Target.
Proof. solve_decision. Defined.
#[export] Instance Rule_eq_dec : EqDecision Rule.
Proof. solve_decision. Defined.
#[export] Instance Line_eq_dec : EqDecision Line.
Proof. solve_decision. Defined.

(** ** Printing *)
Definition protocol_name (p : Protocol) : string :=
  match p with Tcp => "tcp" | Udp => "udp" end.

Definition render_match (m : Match) : string :=
  match m with
  | MComment owner => "-m comment --comment " +:+ owner
  | MMark value mask => "-m mark --mark " +:+ mark_mask value mask
  | MNotMark value mask => "-m mark ! --mark " +:+ mark_mask value mask
  | MOut interface => "-o " +:+ interface
  | MIn interface => "-i " +:+ interface
  | MReply => "-m conntrack --ctdir REPLY"
  | MProto protocol => "-p " +:+ protocol_name protocol
  | MDport port => "--dport " +:+ dec port
  | MUid uid => "-m owner --uid-owner " +:+ dec uid
  | MDest destination => "-d " +:+ destination
  | MSocketTransparent => "-m socket --transparent"
  end.

Definition render_target (t : Target) : string :=
  match t with
  | TReturn => "RETURN"
  | TAccept => "ACCEPT"
  | TDrop => "DROP"
  | TJump chain => chain
  | TMark value mask => "MARK --set-xmark " +:+ mark_mask value mask
  | TTproxy port value mask =>
      "TPROXY --on-port " +:+ dec port +:+ " --tproxy-mark " +:+ mark_mask value mask
  end.

Definition render_rule (chain : string) (r : Rule) : string :=
  chain +:+ foldr (fun m acc => " " +:+ render_match m +:+ acc)
              (" -j " +:+ render_target (target r)) (matches r).

Definition render (l : Line) : string :=
  match l with
  | LTable table => "*" +:+ table
  | LNew chain => "-N " +:+ chain
  | LAppend chain rule => "-A " +:+ render_rule chain rule
  | LDelete chain rule => "-D " +:+ render_rule chain rule
  | LFlush chain => "-F " +:+ chain
  | LRemove chain => "-X " +:+ chain
  | LCommit => "COMMIT"
  end.

Definition newline : string := String (Ascii.ascii_of_N 10) EmptyString.

(** [lines.join("\n") + "\n"]. *)
Definition payload_text (lines : list Line) : string :=
  String.concat newline (render <$> lines) +:+ newline.

(** ** Walking a chain

    What the planner's rules rely on in the kernel: a packet meets the rules of a
    chain in order, a rule applies when all its matches hold, [MARK] rewrites the
    mark and goes on, [RETURN] and the end of a chain go back to the caller,
    [ACCEPT] and [DROP] are final, a jump enters the named chain and comes back
    when that chain returns. *)
Inductive Verdict : Type := Back | Accepted | Dropped.

Class Netfilter (Packet : Type) : Type := {
  holds : Match -> Packet -> bool;
  fwmark : Packet -> Z;
  set_xmark : Z -> Z -> Packet -> Packet;
  walk : (string -> list Rule) -> list Rule -> Packet -> Packet * Verdict;
}.

Definition applies {Packet} `{Netfilter Packet} (r : Rule) (p : Packet) : bool :=
  forallb (fun m => holds m p) (matches r).

(** [MARK --set-xmark value/mask] clears the bits of the mask and xors the value
    in; only the mark changes. *)
Definition mark_match (m : Match) : bool :=
  match m with MMark _ _ | MNotMark _ _ => true | _ => false end.

(** Chains do not loop: the law of a jump asks for no more than the planner
    needs, one level of jumps. *)
Definition flat (r : Rule) : bool :=
  match target r with TJump _ => false | _ => true end.

Class NetfilterLaws (Packet : Type) `{Netfilter Packet} : Prop := {
  holds_mark v k p : holds (MMark v k) p = (Z.land (fwmark p) k =? v);
  holds_not_mark v k p : holds (MNotMark v k) p = negb (holds (MMark v k) p);
  fwmark_set v k p : fwmark (set_xmark v k p) = Z.lxor (Z.ldiff (fwmark p) k) v;
  holds_set m v k p : mark_match m = false -> holds m (set_xmark v k p) = holds m p;
  walk_nil env p : walk env [] p = (p, Back);
  walk_skip env r rs p : applies r p = false -> walk env (r :: rs) p = walk env rs p;
  walk_return env r rs p :
    applies r p = true -> target r = TReturn -> walk env (r :: rs) p = (p, Back);
  walk_accept env r rs p :
    applies r p = true -> target r = TAccept -> walk env (r :: rs) p = (p, Accepted);
  walk_drop env r rs p :
    applies r p = true -> target r = TDrop -> walk env (r :: rs) p = (p, Dropped);
  walk_mark env r rs p v k :
    applies r p = true -> target r = TMark v k ->
    walk env (r :: rs) p = walk env rs (set_xmark v k p);
  walk_jump env r rs p c :
    applies r p = true -> target r = TJump c -> forallb flat (env c) = true ->
    walk env (r :: rs) p =
      match walk env (env c) p with
      | (p', Back) => walk env rs p'
      | final => final
      end;
}.

(** The rules a payload appends to a chain. *)
Fixpoint chain_rules (lines : list Line) (chain : string) : list Rule :=
  match lines with
  | LAppend c r :: rest =>
      if decide (c = chain) then r :: chain_rules rest chain else chain_rules rest chain
  | _ :: rest => chain_rules rest chain
  | [] => []
  end.

Lemma chain_rules_app l1 l2 c :
  chain_rules (l1 ++ l2) c = chain_rules l1 c ++ chain_rules l2 c.
Proof.
  induction l1 as [|l l1 IH]; [done|]. destruct l; simpl; auto.
  destruct (decide (chain = c)); simpl; by rewrite IH.
Qed.
