(* ===== verification/Plan.v ===== *)
(** * Plan: the network changes of one generation

    Models [NetworkPlanner] of crates/nethop-android/src/plan.rs: the payload
    writers for the TPROXY, TUN, DNS-guard, IPv6-guard and forwarding chains, and
    the two planners that check the probed capabilities and assemble the steps,
    each with the operation that undoes it. *)

From S2P Require Import Prelude Text Ordering Capture Generation Capability Interfaces Rules.

Local Open Scope Z_scope.

Definition DEFAULT_TUN_BYPASS_MARK : Z := 0x40000000.

Inductive PlanSlot : Type := SlotA | SlotB.
#[export] Instance PlanSlot_eq_dec : EqDecision PlanSlot.
Proof. solve_decision. Defined.
Definition suffix (self : PlanSlot) : string :=
  match self with SlotA => "A" | SlotB => "B" end.

Inductive NetworkOperationKind : Type :=
| Ipv6GuardRestore
| DnsGuardRestore
| ForwardingRestore
| PolicyRouteAdd
| PolicyRuleAdd
| NetfilterRestore.
#[export] Instance NetworkOperationKind_eq_dec : EqDecision NetworkOperationKind.
Proof. solve_decision. Defined.

Inductive MutationAction : Type := Add | Delete.
Inductive NetworkOperation : Type :=
| Restore (family : IpFamily) (payload : list Line)
| PolicyRoute (action : MutationAction) (family : IpFamily) (table : Z)
    (device : string) (local : bool)
| PolicyRule (action : MutationAction) (family : IpFamily)
    (mark mask table priority : Z).

Record PlanStep : Type := mkStep {
  kind : NetworkOperationKind;
  apply : NetworkOperation;
  rollback : NetworkOperation;
}.

Record NetworkPlan : Type := mkPlan {
  generation : Z;
  slot : PlanSlot;
  plan_mode : CaptureMode;
  capture_interface : option string;
  allocation : ResourceCandidate;
  plan_bypass_mark : Z;
  ipv6_captured : bool;
  ipv6_guarded : bool;
  dns_guarded : bool;
  forwarding_interfaces : list string;
  steps : list PlanStep;
}.

(** ** Chains and markers of a plan *)
Definition owner_marker (self : NetworkPlan) : string :=
  if bool_decide (plan_mode self = Tun)
  then "nethop:tun:g=" +:+ dec (generation self)
  else "nethop:g=" +:+ dec (generation self).

Definition forwarding_owner_marker (self : NetworkPlan) : string :=
  "nethop:fwd:g=" +:+ dec (generation self).

Definition entry_chain (self : NetworkPlan) (family : IpFamily) : string :=
  if bool_decide (family = Ipv6) && ipv6_guarded self
  then "NH_V6G_" +:+ suffix (slot self)
  else "NH_OUT_" +:+ suffix (slot self).

Definition capture_chain (self : NetworkPlan) (family : IpFamily) : string :=
  if bool_decide (plan_mode self = Tun)
  then "NH_TUN_" +:+ suffix (slot self)
  else entry_chain self family.

(** ** Payloads *)
Definition append (chain : string) (ms : list Match) (t : Target) : Line :=
  LAppend chain (mkRule ms t).
Definition delete (chain : string) (ms : list Match) (t : Target) : Line :=
  LDelete chain (mkRule ms t).

Definition reserved_destinations (family : IpFamily) : list string :=
  match family with
  | Ipv4 => ["0.0.0.0/8"; "10.0.0.0/8"; "100.64.0.0/10"; "127.0.0.0/8"; "169.254.0.0/16";
             "172.16.0.0/12"; "192.168.0.0/16"; "224.0.0.0/4"; "240.0.0.0/4"]
  | Ipv6 => ["::/128"; "::1/128"; "fe80::/10"; "fc00::/7"; "ff00::/8"]
  end.

Definition policy_bypass (policy : CapturePolicy) : Z :=
  unwrap_or (bypass_mark policy) DEFAULT_TUN_BYPASS_MARK.

Definition dns_drop (chain : string) (interfaces : option (list string))
    (protocol : Protocol) (port : Z) : list Line :=
  match interfaces with
  | Some interfaces =>
      map (fun interface =>
        append chain [MOut interface; MProto protocol; MDport port] TDrop) interfaces
  | None => [append chain [MProto protocol; MDport port] TDrop]
  end.

Definition dns_guard_payloads (slot : PlanSlot) (policy : CapturePolicy)
    (allocation : ResourceCandidate) (owner : string) (interfaces : option (list string)) :
    list Line * list Line :=
  let chain := "NH_DNS_" +:+ suffix slot in
  ([LTable "filter";
    LNew chain;
    append "OUTPUT" [MComment owner] (TJump chain);
    append chain [MOut "lo"] TReturn;
    append chain [MMark (mark allocation) (mask allocation)] TReturn;
    append chain [MMark (policy_bypass policy) (umax 32)] TReturn]
   ++ dns_drop chain interfaces Udp 53
   ++ dns_drop chain interfaces Tcp 53
   ++ dns_drop chain interfaces Tcp 853
   ++ [append chain [] TReturn; LCommit],
   [LTable "filter";
    delete "OUTPUT" [MComment owner] (TJump chain);
    LFlush chain;
    LRemove chain;
    LCommit]).

Definition append_output_uid_bypasses (chain : string) (policy : CapturePolicy) : list Line :=
  map (fun uid => append chain [MUid uid] TReturn) (exclude_uids policy).

Definition append_output_capture_rules (chain : string) (policy : CapturePolicy)
    (allocation : ResourceCandidate) (interfaces : option (list string)) : list Line :=
  let set_mark := TMark (mark allocation) (mask allocation) in
  match interfaces with
  | Some interfaces =>
      flat_map (fun interface =>
        if len (include_uids policy) =? 0
        then [append chain [MOut interface] set_mark]
        else map (fun uid => append chain [MOut interface; MUid uid] set_mark)
               (include_uids policy)) interfaces
  | None =>
      if len (include_uids policy) =? 0
      then [append chain [] set_mark]
      else map (fun uid => append chain [MUid uid] set_mark) (include_uids policy)
  end.

Definition tun_payloads (slot : PlanSlot) (policy : CapturePolicy)
    (allocation : ResourceCandidate) (owner : string) (interfaces : option (list string)) :
    list Line * list Line :=
  let chain := "NH_TUN_" +:+ suffix slot in
  ([LTable "mangle";
    LNew chain;
    append "OUTPUT" [MComment owner] (TJump chain);
    append chain [MMark (policy_bypass policy) (mask allocation)] TReturn;
    append chain [MOut "lo"] TReturn;
    append chain [MReply] TAccept]
   ++ append_output_uid_bypasses chain policy
   ++ append_output_capture_rules chain policy allocation interfaces
   ++ [append chain [] TReturn; LCommit],
   [LTable "mangle";
    delete "OUTPUT" [MComment owner] (TJump chain);
    LFlush chain;
    LRemove chain;
    LCommit]).

(** Lines pushed only when a condition of the policy holds. *)
Definition push_if (b : bool) (l : Line) : list Line := if b then [l] else [].

Definition tproxy_payloads (family : IpFamily) (slot : PlanSlot) (policy : CapturePolicy)
    (allocation : ResourceCandidate) (inbound_port : Z) (owner : string)
    (interfaces : option (list string)) : list Line * list Line :=
  let suffix := suffix slot in
  let output_chain := "NH_OUT_" +:+ suffix in
  let prerouting_chain := "NH_PRE_" +:+ suffix in
  let divert_chain := "NH_DIV_" +:+ suffix in
  let mark := mark allocation in
  let mask := mask allocation in
  let to_proxy := TTproxy inbound_port mark mask in
  ([LTable "mangle";
    LNew output_chain;
    LNew prerouting_chain;
    LNew divert_chain;
    append "OUTPUT" [MComment owner] (TJump output_chain);
    append "PREROUTING" [MComment owner] (TJump prerouting_chain);
    append output_chain [MMark (policy_bypass policy) mask] TReturn;
    append output_chain [MReply] TAccept;
    append prerouting_chain [MReply] TAccept]
   ++ [append output_chain [MProto Tcp; MDport 53] (TMark mark mask);
       append output_chain [MProto Udp; MDport 53] (TMark mark mask)]
   ++ append_output_uid_bypasses output_chain policy
   ++ map (fun destination => append output_chain [MDest destination] TReturn)
        (reserved_destinations family)
   ++ append_output_capture_rules output_chain policy allocation interfaces
   ++ [append divert_chain [] (TMark mark mask);
       append divert_chain [] TAccept]
   ++ push_if (proxy_tcp policy)
        (append prerouting_chain [MProto Tcp; MSocketTransparent] (TJump divert_chain))
   ++ [append prerouting_chain [MIn "lo"; MNotMark mark mask] TReturn;
       append prerouting_chain [MProto Tcp; MDport 53; MMark mark mask] to_proxy;
       append prerouting_chain [MProto Udp; MDport 53; MMark mark mask] to_proxy]
   ++ push_if (proxy_tcp policy)
        (append prerouting_chain [MProto Tcp; MMark mark mask] to_proxy)
   ++ push_if (proxy_udp policy)
        (append prerouting_chain [MProto Udp; MMark mark mask] to_proxy)
   ++ [LCommit],
   [LTable "mangle";
    delete "OUTPUT" [MComment owner] (TJump output_chain);
    delete "PREROUTING" [MComment owner] (TJump prerouting_chain);
    LFlush output_chain;
    LFlush prerouting_chain;
    LFlush divert_chain;
    LRemove output_chain;
    LRemove prerouting_chain;
    LRemove divert_chain;
    LCommit]).

(** [None] is the panic of [expect] on a policy without an inbound port. *)
Definition forwarding_payloads (slot : PlanSlot) (policy : CapturePolicy)
    (allocation : ResourceCandidate) (interfaces : list string) (owner : string) :
    option (list Line * list Line) :=
  let chain := "NH_FWD_" +:+ suffix slot in
  inbound_port ← inbound_port policy;
  let to_proxy := TTproxy inbound_port (mark allocation) (mask allocation) in
  Some
  ([LTable "mangle"; LNew chain]
   ++ map (fun interface =>
        append "PREROUTING" [MIn interface; MComment owner] (TJump chain)) interfaces
   ++ [append chain [MReply] TAccept;
       append chain [MMark (mark allocation) (mask allocation)] TReturn]
   ++ map (fun destination => append chain [MDest destination] TReturn)
        ["0.0.0.0/8"; "10.0.0.0/8"; "100.64.0.0/10"; "127.0.0.0/8"; "169.254.0.0/16";
         "172.16.0.0/12"; "192.168.0.0/16"; "224.0.0.0/4"; "240.0.0.0/4"]
   ++ push_if (proxy_tcp policy) (append chain [MProto Tcp] to_proxy)
   ++ push_if (proxy_udp policy) (append chain [MProto Udp] to_proxy)
   ++ [LCommit],
   [LTable "mangle"]
   ++ map (fun interface =>
        delete "PREROUTING" [MIn interface; MComment owner] (TJump chain)) interfaces
   ++ [LFlush chain; LRemove chain; LCommit]).

Definition forwarding_ipv6_guard_payloads (slot : PlanSlot) (interfaces : list string)
    (owner : string) : list Line * list Line :=
  let chain := "NH_FWD6_" +:+ suffix slot in
  ([LTable "filter"; LNew chain]
   ++ map (fun interface =>
        append "FORWARD" [MIn interface; MComment owner] (TJump chain)) interfaces
   ++ [append chain [] TDrop; LCommit],
   [LTable "filter"]
   ++ map (fun interface =>
        delete "FORWARD" [MIn interface; MComment owner] (TJump chain)) interfaces
   ++ [LFlush chain; LRemove chain; LCommit]).

Definition ipv6_guard_payloads (slot : PlanSlot) (policy : CapturePolicy) (owner : string) :
    list Line * list Line :=
  let suffix := suffix slot in
  let guard_chain := "NH_V6G_" +:+ suffix in
  let block_chain := "NH_V6B_" +:+ suffix in
  ([LTable "filter";
    LNew guard_chain;
    LNew block_chain;
    append "OUTPUT" [MComment owner] (TJump guard_chain)]
   ++ map (fun uid => append guard_chain [MUid uid] TReturn) (exclude_uids policy)
   ++ (if len (include_uids policy) =? 0
       then [append guard_chain [] (TJump block_chain)]
       else map (fun uid => append guard_chain [MUid uid] (TJump block_chain))
              (include_uids policy)
            ++ [append guard_chain [] TReturn])
   ++ map (fun destination => append block_chain [MDest destination] TReturn)
        ["::1/128"; "fe80::/10"; "fc00::/7"; "ff00::/8"]
   ++ [append block_chain [] TDrop; LCommit],
   [LTable "filter";
    delete "OUTPUT" [MComment owner] (TJump guard_chain);
    LFlush guard_chain;
    LFlush block_chain;
    LRemove guard_chain;
    LRemove block_chain;
    LCommit]).

(** ** Steps *)
Definition push_policy_steps (family : IpFamily) (allocation : ResourceCandidate)
    (device : string) (local : bool) : list PlanStep :=
  [mkStep PolicyRouteAdd
     (PolicyRoute Add family (route_table allocation) device local)
     (PolicyRoute Delete family (route_table allocation) device local);
   mkStep PolicyRuleAdd
     (PolicyRule Add family (mark allocation) (mask allocation) (route_table allocation)
        (rule_priority allocation))
     (PolicyRule Delete family (mark allocation) (mask allocation) (route_table allocation)
        (rule_priority allocation))].

Definition restore_step (kind : NetworkOperationKind) (family : IpFamily)
    (payloads : list Line * list Line) : PlanStep :=
  mkStep kind (Restore family payloads.1) (Restore family payloads.2).

Definition steps_if (b : bool) (l : list PlanStep) : list PlanStep := if b then l else [].

(** [capabilities.allocations().iter().find(is_supported).map(candidate)]. *)
Fixpoint first_supported (l : list AllocationCapability) : option ResourceCandidate :=
  match l with
  | a :: rest => if is_supported (status a) then Some (candidate a) else first_supported rest
  | [] => None
  end.

(** Whether the family is present, or an error when the probe cannot tell. *)
Definition ipv6_presence (capabilities : CapabilityReport) : Result NetworkPlanError bool :=
  match address (ipv6 capabilities) with
  | Supported => Ok true
  | NotPresent => Ok false
  | _ => Err Ipv6LeakRisk
  end.

(** ** The TPROXY planner

    The outer [option] is [None] when the code panics. *)
Definition tproxy_forwarding_steps (generation : Z) (slot : PlanSlot)
    (policy : CapturePolicy) (allocation : ResourceCandidate)
    (forwarding_interfaces : list string) : option (list PlanStep) :=
  if negb (len forwarding_interfaces =? 0) then
    let owner := "nethop:fwd:g=" +:+ dec generation in
    payloads ← forwarding_payloads slot policy allocation forwarding_interfaces owner;
    Some
      [restore_step ForwardingRestore Ipv4 payloads;
       restore_step ForwardingRestore Ipv6
         (forwarding_ipv6_guard_payloads slot forwarding_interfaces owner)]
  else Some [].

Definition tproxy_steps (generation : Z) (slot : PlanSlot) (policy : CapturePolicy)
    (allocation : ResourceCandidate) (inbound_port : Z) (interfaces : option (list string))
    (forwarding_interfaces : list string) (ipv6_tproxy ipv6_guarded : bool) :
    option (list PlanStep) :=
  let owner := "nethop:g=" +:+ dec generation in
  forwarding ← tproxy_forwarding_steps generation slot policy allocation forwarding_interfaces;
  Some
    (steps_if ipv6_guarded
       [restore_step Ipv6GuardRestore Ipv6 (ipv6_guard_payloads slot policy owner)]
     ++ push_policy_steps Ipv4 allocation "lo" true
     ++ steps_if ipv6_tproxy (push_policy_steps Ipv6 allocation "lo" true)
     ++ [restore_step NetfilterRestore Ipv4
           (tproxy_payloads Ipv4 slot policy allocation inbound_port owner interfaces);
         restore_step DnsGuardRestore Ipv4
           (dns_guard_payloads slot policy allocation owner interfaces)]
     ++ forwarding
     ++ steps_if ipv6_tproxy
          [restore_step NetfilterRestore Ipv6
             (tproxy_payloads Ipv6 slot policy allocation inbound_port owner interfaces);
           restore_step DnsGuardRestore Ipv6
             (dns_guard_payloads slot policy allocation owner interfaces)]).

(** The checks of [build_tproxy], in its order, and the values they bind. *)
Record TproxyInputs : Type := mkInputs {
  in_port : Z;
  in_allocation : ResourceCandidate;
  in_bypass_mark : Z;
  in_interfaces : option (list string);
  in_forwarding : list string;
  in_ipv6_tproxy : bool;
  in_ipv6_guarded : bool;
}.

Definition tproxy_inputs (generation : Z) (policy : CapturePolicy)
    (capabilities : CapabilityReport) : Result NetworkPlanError TproxyInputs :=
  if generation =? 0 then Err InvalidGeneration
  else if negb (bool_decide (mode policy = Tproxy)) then Err UnsupportedCaptureMode
  else if negb (is_supported (android capabilities)) || negb (is_supported (root capabilities))
  then Err PlatformUnavailable
  else if negb (bool_decide (active_tunnel capabilities = Supported))
  then Err ExistingTunnelConflict
  else
  inbound_port ← ok_or (inbound_port policy) InboundPortMismatch;
  if negb (inbound_port =? cap_inbound_port capabilities) then Err InboundPortMismatch
  else if negb (bool_decide (inbound_port_status capabilities = Supported))
  then Err InboundPortConflict
  else if negb (supports_tproxy (ipv4 capabilities)) then Err Ipv4TproxyUnavailable
  else
  allocation ← ok_or (first_supported (allocations capabilities)) ResourceConflict;
  bypass_mark ← ok_or (bypass_mark policy) BypassMarkConflict;
  if Z.land bypass_mark (mask allocation) =? mark allocation then Err BypassMarkConflict
  else
  interfaces_ ← resolve_interfaces (interface_policy policy) (interfaces capabilities);
  forwarding_interfaces ←
    resolve_forwarding_interfaces (forwarding_policy policy) (interfaces capabilities);
  let ipv6_tproxy := supports_tproxy (ipv6 capabilities) in
  ipv6_present ← ipv6_presence capabilities;
  let ipv6_guarded := ipv6_present && negb ipv6_tproxy in
  if ipv6_guarded && (negb (ipv6_guard policy) || negb (supports_guard (ipv6 capabilities)))
  then Err Ipv6LeakRisk
  else Ok (mkInputs inbound_port allocation bypass_mark interfaces_ forwarding_interfaces
             ipv6_tproxy ipv6_guarded).

Definition build_tproxy (generation : Z) (slot : PlanSlot) (policy : CapturePolicy)
    (capabilities : CapabilityReport) : option (Result NetworkPlanError NetworkPlan) :=
  match tproxy_inputs generation policy capabilities with
  | Err e => Some (Err e)
  | Ok i =>
      steps ← tproxy_steps generation slot policy (in_allocation i) (in_port i)
                (in_interfaces i) (in_forwarding i) (in_ipv6_tproxy i) (in_ipv6_guarded i);
      Some (Ok (mkPlan generation slot Tproxy None (in_allocation i) (in_bypass_mark i)
                  (in_ipv6_tproxy i) (in_ipv6_guarded i) true (in_forwarding i) steps))
  end.

(** ** The TUN planner *)
Definition tun_steps (generation : Z) (slot : PlanSlot) (policy : CapturePolicy)
    (allocation : ResourceCandidate) (interfaces : option (list string))
    (ipv6_present ipv6_guarded : bool) : list PlanStep :=
  let owner := "nethop:tun:g=" +:+ dec generation in
  steps_if ipv6_guarded
    [restore_step Ipv6GuardRestore Ipv6 (ipv6_guard_payloads slot policy owner)]
  ++ push_policy_steps Ipv4 allocation "nethop0" false
  ++ steps_if ipv6_present (push_policy_steps Ipv6 allocation "nethop0" false)
  ++ [restore_step NetfilterRestore Ipv4 (tun_payloads slot policy allocation owner interfaces);
      restore_step DnsGuardRestore Ipv4
        (dns_guard_payloads slot policy allocation owner interfaces)]
  ++ steps_if ipv6_present
       [restore_step NetfilterRestore Ipv6
          (tun_payloads slot policy allocation owner interfaces);
        restore_step DnsGuardRestore Ipv6
          (dns_guard_payloads slot policy allocation owner interfaces)].

Definition build_tun (generation : Z) (slot : PlanSlot) (policy : CapturePolicy)
    (capabilities : CapabilityReport) : Result NetworkPlanError NetworkPlan :=
  if generation =? 0 then Err InvalidGeneration
  else if negb (bool_decide (mode policy = Tun)) then Err UnsupportedCaptureMode
  else if negb (is_supported (android capabilities)) || negb (is_supported (root capabilities))
  then Err PlatformUnavailable
  else if negb (bool_decide (tun capabilities = Supported)) then Err TunUnavailable
  else if negb (bool_decide (active_tunnel capabilities = Supported))
  then Err ExistingTunnelConflict
  else
  allocation ← ok_or (first_supported (allocations capabilities)) ResourceConflict;
  let bypass_mark := unwrap_or (bypass_mark policy) DEFAULT_TUN_BYPASS_MARK in
  if Z.land bypass_mark (mask allocation) =? mark allocation then Err BypassMarkConflict
  else
  interfaces_ ← resolve_interfaces (interface_policy policy) (interfaces capabilities);
  forwarding_interfaces ←
    resolve_forwarding_interfaces (forwarding_policy policy) (interfaces capabilities);
  ipv6_present ← ipv6_presence capabilities;
  let ipv6_guarded := negb ipv6_present in
  if ipv6_guarded && (negb (ipv6_guard policy) || negb (supports_guard (ipv6 capabilities)))
  then Err Ipv6LeakRisk
  else
    Ok (mkPlan generation slot Tun (Some "nethop0") allocation bypass_mark ipv6_present
          ipv6_guarded true forwarding_interfaces
          (tun_steps generation slot policy allocation interfaces_ ipv6_present ipv6_guarded)).

(** ** What an accepted plan guarantees *)
Lemma tproxy_inputs_ok g policy caps i :
  tproxy_inputs g policy caps = Ok i ->
  g <> 0 /\ mode policy = Tproxy /\
  inbound_port policy = Some (in_port i) /\ in_port i = cap_inbound_port caps /\
  first_supported (allocations caps) = Some (in_allocation i) /\
  bypass_mark policy = Some (in_bypass_mark i) /\
  Z.land (in_bypass_mark i) (mask (in_allocation i)) <> mark (in_allocation i) /\
  resolve_interfaces (interface_policy policy) (interfaces caps) = Ok (in_interfaces i) /\
  resolve_forwarding_interfaces (forwarding_policy policy) (interfaces caps) =
    Ok (in_forwarding i) /\
  in_ipv6_tproxy i = supports_tproxy (ipv6 caps) /\
  ((address (ipv6 caps) = NotPresent /\ in_ipv6_guarded i = false) \/
   (address (ipv6 caps) = Supported /\ in_ipv6_guarded i = negb (in_ipv6_tproxy i))) /\
  (in_ipv6_guarded i = true -> ipv6_guard policy = true /\ supports_guard (ipv6 caps) = true).
Proof.
  unfold tproxy_inputs. split_if Hg; [done|]. apply Z.eqb_neq in Hg.
  split_if Hm; [done|]. apply negb_false_iff, bool_decide_eq_true in Hm.
  split_if Hr; [done|]. split_if Ht; [done|]. unfold mbind, Result_bind, ok_or.
  destruct (inbound_port policy) as [port|]; [|done].
  split_if Hport; [done|]. apply negb_false_iff, Z.eqb_eq in Hport.
  split_if Hc; [done|]. split_if H4; [done|].
  destruct (first_supported _) as [a|]; [|done]. destruct (bypass_mark policy) as [m|]; [|done].
  split_if Hb; [done|]. apply Z.eqb_neq in Hb.
  destruct (resolve_interfaces _ _) as [ifs|]; [|done].
  destruct (resolve_forwarding_interfaces _ _) as [fwd|]; [|done].
  unfold ipv6_presence. destruct (address (ipv6 caps)) eqn:Ha; try done; simpl;
    [|intros [= <-]; simpl; repeat split; auto; done].
  split_if H6; [done|]. intros [= <-]. simpl. repeat split; auto.
  - destruct (supports_tproxy (ipv6 caps)), (ipv6_guard policy); done.
  - by destruct (supports_tproxy (ipv6 caps)), (ipv6_guard policy), (supports_guard (ipv6 caps)).
Qed.

Lemma tproxy_steps_total g slot policy a port ifs fwd t6 g6 :
  inbound_port policy = Some port ->
  exists steps, tproxy_steps g slot policy a port ifs fwd t6 g6 = Some steps /\
    kind <$> steps =
      (if g6 then [Ipv6GuardRestore] else [])
      ++ [PolicyRouteAdd; PolicyRuleAdd]
      ++ (if t6 then [PolicyRouteAdd; PolicyRuleAdd] else [])
      ++ [NetfilterRestore; DnsGuardRestore]
      ++ (if len fwd =? 0 then [] else [ForwardingRestore; ForwardingRestore])
      ++ (if t6 then [NetfilterRestore; DnsGuardRestore] else []) /\
    (g6 = true -> head steps = Some (restore_step Ipv6GuardRestore Ipv6
       (ipv6_guard_payloads slot policy ("nethop:g=" +:+ dec g)))).
Proof.
  intros Hp. unfold tproxy_steps, tproxy_forwarding_steps, forwarding_payloads. rewrite Hp.
  destruct (len fwd =? 0), t6, g6; simpl; eexists; (split; [reflexivity|]); done.
Qed.

Lemma build_tproxy_total g slot policy caps : is_Some (build_tproxy g slot policy caps).
Proof.
  unfold build_tproxy. destruct (tproxy_inputs g policy caps) as [i|e] eqn:E; [|by eexists].
  apply tproxy_inputs_ok in E as (_ & _ & Hp & _).
  destruct (tproxy_steps_total g slot policy (in_allocation i) (in_port i) (in_interfaces i)
    (in_forwarding i) (in_ipv6_tproxy i) (in_ipv6_guarded i) Hp) as (steps & -> & _). by eexists.
Qed.

(** The TPROXY planner never panics, and a plan it returns leaks nothing: the
    core's bypass mark can never be taken for the capture mark, IPv6 is absent,
    captured, or guarded with the guard installed by the very first step, and the
    steps come in the order guard, policy routes, netfilter, DNS guard,
    forwarding, and the IPv6 chains last. *)
Theorem build_tproxy_safe g slot policy caps :
  exists r, build_tproxy g slot policy caps = Some r /\
  forall plan, r = Ok plan ->
    generation plan = g /\ g <> 0 /\ plan_mode plan = Tproxy /\
    first_supported (allocations caps) = Some (allocation plan) /\
    bypass_mark policy = Some (plan_bypass_mark plan) /\
    Z.land (plan_bypass_mark plan) (mask (allocation plan)) <> mark (allocation plan) /\
    (address (ipv6 caps) = NotPresent \/ ipv6_captured plan = true \/
     (ipv6_guarded plan = true /\ ipv6_guard policy = true /\
      head (steps plan) = Some (restore_step Ipv6GuardRestore Ipv6
        (ipv6_guard_payloads slot policy (owner_marker plan))))) /\
    kind <$> steps plan =
      (if ipv6_guarded plan then [Ipv6GuardRestore] else [])
      ++ [PolicyRouteAdd; PolicyRuleAdd]
      ++ (if ipv6_captured plan then [PolicyRouteAdd; PolicyRuleAdd] else [])
      ++ [NetfilterRestore; DnsGuardRestore]
      ++ (if len (forwarding_interfaces plan) =? 0 then []
          else [ForwardingRestore; ForwardingRestore])
      ++ (if ipv6_captured plan then [NetfilterRestore; DnsGuardRestore] else []).
Proof.
  unfold build_tproxy. destruct (tproxy_inputs g policy caps) as [i|e] eqn:E.
  2:{ eexists. by split. }
  apply tproxy_inputs_ok in E as (Hg & Hm & Hp & _ & Ha & Hb & Hx & _ & _ & Ht & H6 & Hgd).
  destruct (tproxy_steps_total g slot policy (in_allocation i) (in_port i) (in_interfaces i)
    (in_forwarding i) (in_ipv6_tproxy i) (in_ipv6_guarded i) Hp) as (steps & Es & Hk & Hh).
  rewrite Es. simpl. eexists. split; [reflexivity|]. intros plan [= <-]. simpl.
  repeat split; auto. destruct H6 as [[? _]|[_ Hgi]]; [by left|right].
  destruct (in_ipv6_tproxy i); [by left|right]. simpl in Hgi. specialize (Hh Hgi).
  by destruct (Hgd Hgi).
Qed.

(** A TUN plan, taken apart. *)
Lemma build_tun_inv g slot policy caps plan :
  build_tun g slot policy caps = Ok plan ->
  exists a ifs fwd, first_supported (allocations caps) = Some a
  /\ Z.land (unwrap_or (bypass_mark policy) DEFAULT_TUN_BYPASS_MARK) (mask a) <> mark a
  /\ resolve_interfaces (interface_policy policy) (interfaces caps) = Ok ifs
  /\ resolve_forwarding_interfaces (forwarding_policy policy) (interfaces caps) = Ok fwd
  /\ address (ipv6 caps) = Supported
  /\ plan = mkPlan g slot Tun (Some "nethop0") a (unwrap_or (bypass_mark policy) DEFAULT_TUN_BYPASS_MARK)
              true false true fwd (tun_steps g slot policy a ifs true false).
Proof.
  unfold build_tun. split_if H1; [done|]. split_if H2; [done|]. split_if H3; [done|].
  split_if H4; [done|]. split_if H5; [done|]. unfold mbind, Result_bind, ok_or.
  destruct (first_supported _) as [a|]; [|done]. split_if Hb; [done|]. apply Z.eqb_neq in Hb.
  destruct (resolve_interfaces _ _) as [ifs|]; [|done].
  destruct (resolve_forwarding_interfaces _ _) as [fwd|] eqn:Hf; [|done].
  unfold ipv6_presence. destruct (address (ipv6 caps)) eqn:Ha; try done; simpl.
  - intros [= <-]. by exists a, ifs, fwd.
  - assert (supports_guard (ipv6 caps) = false) as ->.
    { apply not_true_iff_false. intros H%supports_guard_address. congruence. }
    by rewrite orb_true_r.
Qed.
Lemma tproxy_inputs_v4 g policy caps i :
  tproxy_inputs g policy caps = Ok i -> supports_tproxy (ipv4 caps) = true.
Proof.
  unfold tproxy_inputs. do 4 (split_if Hx; [done|clear Hx]). unfold mbind, Result_bind, ok_or.
  destruct (inbound_port policy); [|done]. do 2 (split_if Hx; [done|clear Hx]). split_if Hx; [done|].
  by apply negb_false_iff in Hx.
Qed.

(** The TUN planner never installs an IPv6 guard and never forwards: it guards
    only when the device has no IPv6 address, but the guard's own capability test
    asks for one, so a device without IPv6 is always refused; and a plan records
    its forwarding interfaces without any step for them. *)
Theorem build_tun_shape g slot policy caps plan :
  build_tun g slot policy caps = Ok plan ->
  address (ipv6 caps) = Supported /\ ipv6_guarded plan = false /\ ipv6_captured plan = true /\
  Z.land (plan_bypass_mark plan) (mask (allocation plan)) <> mark (allocation plan) /\
  resolve_forwarding_interfaces (forwarding_policy policy) (interfaces caps) =
    Ok (forwarding_interfaces plan) /\
  kind <$> steps plan =
    [PolicyRouteAdd; PolicyRuleAdd; PolicyRouteAdd; PolicyRuleAdd;
     NetfilterRestore; DnsGuardRestore; NetfilterRestore; DnsGuardRestore].
Proof.
  intros (a & ifs & fwd & _ & Hb & _ & Hf & H6 & ->)%build_tun_inv. by split_and!.
Qed.

(** The device of the repository's contract tests. *)
Module DemoPlan.
Definition all_supported (f : IpFamily) : FamilyCapability :=
  mkFamily f Supported Supported Supported Supported Supported Supported Supported Supported
    Supported Supported.
Definition report : CapabilityReport :=
  mkReport CAPABILITY_SCHEMA_VERSION Supported "arm64-v8a" Supported true NftWrapper
    (all_supported Ipv4) (all_supported Ipv6) Supported Supported 7893 Supported
    [mkAllocation (mkCandidate 0x100 0xff00 100 10000) Supported] [].
Definition tun_policy : CapturePolicy :=
  mkCapturePolicy Tun true true true None (Some 0x200) [10001] [] InterfacePolicy_default
    ForwardingPolicy_default.
Definition tun_plan : NetworkPlan :=
  mkPlan 7 SlotA Tun (Some "nethop0") (mkCandidate 0x100 0xff00 100 10000) 0x200 true false true []
    (tun_steps 7 SlotA tun_policy (mkCandidate 0x100 0xff00 100 10000) None true false).
Lemma tun_plan_built : build_tun 7 SlotA tun_policy report = Ok tun_plan.
Proof. reflexivity. Qed.
End DemoPlan.

Lemma build_tun_shape_witness :
  ipv6_captured DemoPlan.tun_plan = true /\ ipv6_guarded DemoPlan.tun_plan = false.
Proof.
  destruct (build_tun_shape 7 SlotA DemoPlan.tun_policy DemoPlan.report DemoPlan.tun_plan
    DemoPlan.tun_plan_built) as (_ & Hg & Hc & _). split; [exact Hc|exact Hg].
Defined.
