(* ===== verification/PlanRules.v ===== *)
(** * PlanRules: what the planned chains do to a packet

    The chains written by the payload functions of Plan, walked by any netfilter
    that satisfies the laws of Rules: which packets the output chains mark for
    the proxy, which the IPv6 guard and the DNS guard drop. *)

From S2P Require Import Prelude Text Ordering Capture Generation Capability Interfaces Rules Plan.

Local Open Scope Z_scope.

(** ** Rules of a payload, by chain *)
Lemma chain_rules_map_same {A} (f : A -> Rule) c l :
  chain_rules (map (fun x => LAppend c (f x)) l) c = map f l.
Proof. induction l as [|x l IH]; simpl; [done|]. rewrite decide_True by done. by rewrite IH. Qed.
Lemma chain_rules_map_other {A} (f : A -> Rule) c c' l : c <> c' ->
  chain_rules (map (fun x => LAppend c (f x)) l) c' = [].
Proof. intros. induction l as [|x l IH]; simpl; [done|]. by rewrite decide_False. Qed.
Lemma chain_rules_push_if b c c' r :
  chain_rules (push_if b (LAppend c r)) c' = if decide (c = c') then (if b then [r] else []) else [].
Proof. destruct b; simpl; by case_decide. Qed.

(** Chains of different roles have different names. *)
Ltac other_chain :=
  repeat match goal with s : PlanSlot |- _ => destruct s end; vm_compute; congruence.

(** The matches that select what a policy captures. *)
Definition capture_matches (policy : CapturePolicy) (interfaces : option (list string)) :
    list (list Match) :=
  let uids := if len (include_uids policy) =? 0 then [[]]
              else map (fun uid => [MUid uid]) (include_uids policy) in
  match interfaces with
  | Some interfaces => flat_map (fun i => map (cons (MOut i)) uids) interfaces
  | None => uids
  end.

Lemma capture_rules_lines c policy a interfaces :
  append_output_capture_rules c policy a interfaces =
  map (fun ms => LAppend c (mkRule ms (TMark (mark a) (mask a))))
    (capture_matches policy interfaces).
Proof.
  unfold append_output_capture_rules, capture_matches, append.
  destruct interfaces as [l|]; [|destruct (_ =? 0); [done|by rewrite map_map]].
  induction l as [|i l IH]; simpl; [done|]. rewrite map_app, <- IH.
  destruct (_ =? 0); simpl; [done|]. by rewrite !map_map.
Qed.

(** ** Walking *)
Section walk.
Context {Packet : Type} `{Netfilter Packet, !NetfilterLaws Packet}.
Implicit Types p : Packet.

Lemma applies_cons m ms t p :
  applies (mkRule (m :: ms) t) p = holds m p && applies (mkRule ms t) p.
Proof. done. Qed.

(** A run of [RETURN] rules. *)
Lemma walk_returns {A} env (f : A -> list Match) l rs p :
  walk env (map (fun x => mkRule (f x) TReturn) l ++ rs) p =
  if existsb (fun x => applies (mkRule (f x) TReturn) p) l then (p, Back) else walk env rs p.
Proof.
  induction l as [|x l IH]; simpl; [done|]. destruct (applies (mkRule (f x) TReturn) p) eqn:E.
  - simpl. by rewrite walk_return.
  - simpl. by rewrite walk_skip.
Qed.

(** One rule with a final target, or skipped. *)
Lemma walk_return_1 env ms rs p :
  walk env (mkRule ms TReturn :: rs) p =
  if applies (mkRule ms TReturn) p then (p, Back) else walk env rs p.
Proof. destruct (applies _ p) eqn:E; [by rewrite walk_return|by rewrite walk_skip]. Qed.
Lemma walk_accept_1 env ms rs p :
  walk env (mkRule ms TAccept :: rs) p =
  if applies (mkRule ms TAccept) p then (p, Accepted) else walk env rs p.
Proof. destruct (applies _ p) eqn:E; [by rewrite walk_accept|by rewrite walk_skip]. Qed.
Lemma walk_drops {A} env (f : A -> list Match) l rs p :
  walk env (map (fun x => mkRule (f x) TDrop) l ++ rs) p =
  if existsb (fun x => applies (mkRule (f x) TDrop) p) l then (p, Dropped) else walk env rs p.
Proof.
  induction l as [|x l IH]; simpl; [done|]. destruct (applies (mkRule (f x) TDrop) p) eqn:E.
  - simpl. by rewrite walk_drop.
  - simpl. by rewrite walk_skip.
Qed.

(** ** Marking *)
Definition carries (a : ResourceCandidate) (p : Packet) : bool :=
  Z.land (fwmark p) (mask a) =? mark a.

Lemma carries_set a p : candidate_wf a -> carries a (set_xmark (mark a) (mask a) p) = true.
Proof.
  intros (_ & _ & _ & Hsub). unfold carries. rewrite fwmark_set. apply Z.eqb_eq.
  apply Z.bits_inj'. intros n Hn. apply (f_equal (fun z => Z.testbit z n)) in Hsub.
  rewrite Z.land_spec in Hsub. rewrite Z.land_spec, Z.lxor_spec, Z.ldiff_spec.
  destruct (Z.testbit (fwmark p) n), (Z.testbit (mask a) n), (Z.testbit (mark a) n); done.
Qed.

(** [same p p']: the packets differ at most in their mark. *)
Definition same (p p' : Packet) : Prop :=
  forall m, mark_match m = false -> holds m p' = holds m p.

Definition markless (ms : list Match) : bool := forallb (fun m => negb (mark_match m)) ms.

Lemma applies_same ms t p p' : markless ms = true -> same p p' ->
  applies (mkRule ms t) p' = applies (mkRule ms t) p.
Proof.
  intros Hm Hs. induction ms as [|m ms IH]; [done|]. simpl in Hm.
  apply andb_true_iff in Hm as [Hm Hms]. rewrite !applies_cons, IH by done.
  rewrite Hs; [done|]. by apply negb_true_iff.
Qed.

(** A run of [MARK] rules never stops; it leaves the packet carrying the mark iff
    it did before or one of the rules applied. *)
Lemma walk_marks env a l p : candidate_wf a -> forallb markless l = true ->
  exists p', same p p' /\
    carries a p' =
      carries a p || existsb (fun ms => applies (mkRule ms (TMark (mark a) (mask a))) p) l /\
    forall rs, walk env (map (fun ms => mkRule ms (TMark (mark a) (mask a))) l ++ rs) p
               = walk env rs p'.
Proof.
  intros Ha. revert p. induction l as [|ms l IH]; intros p Hl; simpl in *.
  { exists p. rewrite orb_false_r. repeat split; done. }
  apply andb_true_iff in Hl as [Hms Hl]. set (t := TMark (mark a) (mask a)) in *.
  destruct (applies (mkRule ms t) p) eqn:E; simpl.
  - destruct (IH (set_xmark (mark a) (mask a) p) Hl) as (p' & Hs & Hc & Hw).
    exists p'. rewrite carries_set in Hc by done. rewrite Hc, orb_true_r. split.
    + intros m Hm. by rewrite (Hs m Hm), holds_set.
    + split; [done|]. intros rs. by rewrite (walk_mark env _ _ _ (mark a) (mask a)), Hw.
  - destruct (IH p Hl) as (p' & Hs & Hc & Hw). exists p'. repeat split; [done|done|].
    intros rs. by rewrite walk_skip, Hw.
Qed.

(** ** The selection of a policy *)
Context (uid_of : Packet -> Z) (Huid : forall u p, holds (MUid u) p = (u =? uid_of p)).

Definition on_interface (interfaces : option (list string)) (p : Packet) : bool :=
  match interfaces with
  | Some l => existsb (fun i => holds (MOut i) p) l
  | None => true
  end.

Lemma existsb_uid l p :
  existsb (fun u => applies (mkRule [MUid u] TReturn) p) l = bool_decide (uid_of p ∈ l).
Proof.
  induction l as [|u l IH]; cbn [existsb];
    [symmetry; by apply bool_decide_eq_false_2, not_elem_of_nil|].
  rewrite IH, applies_cons, Huid. unfold applies. simpl. rewrite andb_true_r.
  apply eq_true_iff_eq. rewrite orb_true_iff, Z.eqb_eq, !bool_decide_eq_true, elem_of_cons. naive_solver.
Qed.

Definition included (policy : CapturePolicy) (p : Packet) : bool :=
  (len (include_uids policy) =? 0) || bool_decide (uid_of p ∈ include_uids policy).

Lemma capture_matches_markless policy interfaces :
  forallb markless (capture_matches policy interfaces) = true.
Proof.
  apply forallb_forall. intros ms. unfold capture_matches.
  assert (forall u, u ∈ (if len (include_uids policy) =? 0 then [[]]
              else map (fun uid => [MUid uid]) (include_uids policy)) -> markless u = true) as Hu.
  { intros u. destruct (_ =? 0); rewrite list_elem_of_In.
    - by intros [<-|[]].
    - by intros (x & <- & _)%in_map_iff. }
  destruct interfaces as [l|].
  - intros (i & _ & (u & <- & Hin)%in_map_iff)%in_flat_map. simpl. by apply Hu, list_elem_of_In.
  - intros Hin. by apply Hu, list_elem_of_In.
Qed.

Lemma existsb_capture policy interfaces t p :
  existsb (fun ms => applies (mkRule ms t) p) (capture_matches policy interfaces) =
  on_interface interfaces p && included policy p.
Proof.
  assert (existsb (fun ms => applies (mkRule ms t) p)
    (if len (include_uids policy) =? 0 then [[]]
     else map (fun uid => [MUid uid]) (include_uids policy)) = included policy p) as Hu.
  { unfold included. destruct (_ =? 0); [done|]. simpl.
    rewrite <- existsb_uid. generalize (include_uids policy) as l.
    induction l as [|u l IH]; simpl; [done|]. by rewrite IH. }
  unfold capture_matches. destruct interfaces as [l|]; simpl; [|done].
  induction l as [|i l IH]; simpl; [done|]. rewrite existsb_app, IH, andb_orb_distrib_l. f_equal.
  rewrite <- Hu. generalize (if len (include_uids policy) =? 0 then [[]]
     else map (fun uid => [MUid uid]) (include_uids policy)) as ls.
  induction ls as [|u ls IH']; simpl; [by rewrite andb_false_r|].
  by rewrite applies_cons, IH', andb_orb_distrib_r.
Qed.

Lemma captures_uid_included policy p : policy_wf policy ->
  captures_uid policy (uid_of p) =
  included policy p && negb (bool_decide (uid_of p ∈ exclude_uids policy)).
Proof.
  intros [? ? ? Hi He ? ? ?]. unfold captures_uid, included.
  assert (forall l, StronglySorted ord_lt l ->
    bool_decide (is_Some (binary_search l (uid_of p))) = bool_decide (uid_of p ∈ l)) as Hb.
  { intros l Hl. apply bool_decide_ext. by rewrite binary_search_strict. }
  by rewrite !Hb.
Qed.

(** ** The chains, flattened *)
Lemma tproxy_output_rules family slot policy a port owner interfaces :
  chain_rules (tproxy_payloads family slot policy a port owner interfaces).1
    ("NH_OUT_" +:+ suffix slot) =
  mkRule [MMark (policy_bypass policy) (mask a)] TReturn
  :: mkRule [MReply] TAccept
  :: map (fun ms => mkRule ms (TMark (mark a) (mask a)))
       [[MProto Tcp; MDport 53]; [MProto Udp; MDport 53]]
  ++ map (fun u => mkRule [MUid u] TReturn) (exclude_uids policy)
  ++ map (fun d => mkRule [MDest d] TReturn) (reserved_destinations family)
  ++ map (fun ms => mkRule ms (TMark (mark a) (mask a))) (capture_matches policy interfaces)
  ++ [].
Proof.
  unfold tproxy_payloads, append_output_uid_bypasses, append. cbn [fst].
  rewrite !chain_rules_app, !chain_rules_push_if, capture_rules_lines, !chain_rules_map_same.
  by destruct slot.
Qed.

Lemma tun_output_rules slot policy a owner interfaces :
  chain_rules (tun_payloads slot policy a owner interfaces).1 ("NH_TUN_" +:+ suffix slot) =
  mkRule [MMark (policy_bypass policy) (mask a)] TReturn
  :: mkRule [MOut "lo"] TReturn
  :: mkRule [MReply] TAccept
  :: map (fun u => mkRule [MUid u] TReturn) (exclude_uids policy)
  ++ map (fun ms => mkRule ms (TMark (mark a) (mask a))) (capture_matches policy interfaces)
  ++ [mkRule [] TReturn].
Proof.
  unfold tun_payloads, append_output_uid_bypasses, append. cbn [fst].
  rewrite !chain_rules_app, capture_rules_lines, !chain_rules_map_same. by destruct slot.
Qed.

(** The end of both output chains: the excluded users leave, the selected traffic
    of the included ones is marked. *)
Lemma walk_selection env policy a interfaces (exempt : list (list Match)) tl p :
  policy_wf policy -> candidate_wf a ->
  (forall q, walk env tl q = (q, Back)) ->
  exists p', same p p' /\
    carries a p' = carries a p ||
      (captures_uid policy (uid_of p) &&
       negb (existsb (fun ms => applies (mkRule ms TReturn) p) exempt) &&
       on_interface interfaces p) /\
    walk env (map (fun u => mkRule [MUid u] TReturn) (exclude_uids policy)
      ++ map (fun ms => mkRule ms TReturn) exempt
      ++ map (fun ms => mkRule ms (TMark (mark a) (mask a))) (capture_matches policy interfaces)
      ++ tl) p = (p', Back).
Proof.
  intros Hp Ha Htl. rewrite captures_uid_included by done.
  rewrite (walk_returns env (fun u => [MUid u])), existsb_uid.
  destruct (bool_decide (uid_of p ∈ exclude_uids policy)).
  { exists p. split; [done|]. split; [|done]. by rewrite andb_false_r, orb_false_r. }
  rewrite (walk_returns env id). unfold id. destruct (existsb _ exempt) eqn:Ee.
  { exists p. split; [done|]. split; [|done]. by rewrite andb_false_r, orb_false_r. }
  destruct (walk_marks env a (capture_matches policy interfaces) p Ha
              (capture_matches_markless _ _)) as (p' & Hs & Hc & Hw).
  exists p'. split; [done|]. split; [|by rewrite Hw].
  rewrite Hc, existsb_capture. simpl. by rewrite !andb_true_r, (andb_comm (included _ _)).
Qed.

Lemma guard_rules slot policy owner :
  chain_rules (ipv6_guard_payloads slot policy owner).1 ("NH_V6G_" +:+ suffix slot) =
  map (fun u => mkRule [MUid u] TReturn) (exclude_uids policy)
  ++ map (fun ms => mkRule ms (TJump ("NH_V6B_" +:+ suffix slot))) (capture_matches policy None)
  ++ (if len (include_uids policy) =? 0 then [] else [mkRule [] TReturn]).
Proof.
  unfold ipv6_guard_payloads, append, capture_matches. cbn [fst].
  rewrite !chain_rules_app, !chain_rules_map_same.
  rewrite (chain_rules_map_other (fun d => mkRule [MDest d] TReturn)) by other_chain.
  destruct (_ =? 0); rewrite ?chain_rules_app, ?chain_rules_map_same, ?map_map, <- ?app_assoc; by destruct slot.
Qed.

Lemma block_rules slot policy owner :
  chain_rules (ipv6_guard_payloads slot policy owner).1 ("NH_V6B_" +:+ suffix slot) =
  map (fun d => mkRule [MDest d] TReturn) ["::1/128"; "fe80::/10"; "fc00::/7"; "ff00::/8"]
  ++ map (fun ms => mkRule ms TDrop) [[]] ++ [].
Proof.
  unfold ipv6_guard_payloads, append. cbn [fst].
  rewrite !chain_rules_app, chain_rules_map_same, chain_rules_map_other by other_chain.
  destruct (_ =? 0); rewrite ?chain_rules_app, ?chain_rules_map_other by other_chain;
    by destruct slot.
Qed.

(** A run of jumps into a chain that drops or comes back without a change. *)
Lemma walk_jumps env c l rs p (b : bool) : forallb flat (env c) = true ->
  walk env (env c) p = (p, if b then Dropped else Back) ->
  walk env (map (fun ms => mkRule ms (TJump c)) l ++ rs) p =
  if existsb (fun ms => applies (mkRule ms (TJump c)) p) l && b then (p, Dropped)
  else walk env rs p.
Proof.
  intros Hf Hc. induction l as [|ms l IH]; simpl; [done|].
  destruct (applies (mkRule ms (TJump c)) p) eqn:E; simpl.
  - rewrite (walk_jump env _ _ _ c), Hc by done. destruct b; [done|].
    by rewrite IH, andb_false_r.
  - by rewrite walk_skip.
Qed.

Lemma dns_rules slot policy a owner interfaces :
  chain_rules (dns_guard_payloads slot policy a owner interfaces).1 ("NH_DNS_" +:+ suffix slot) =
  map (fun ms => mkRule ms TReturn)
    [[MOut "lo"]; [MMark (mark a) (mask a)]; [MMark (policy_bypass policy) (umax 32)]]
  ++ map (fun ms => mkRule ms TDrop)
       (flat_map (fun '(protocol, port) =>
          match interfaces with
          | Some l => map (fun i => [MOut i; MProto protocol; MDport port]) l
          | None => [[MProto protocol; MDport port]]
          end) [(Udp, 53); (Tcp, 53); (Tcp, 853)])
  ++ [mkRule [] TReturn].
Proof.
  unfold dns_guard_payloads, dns_drop, append. cbn [fst].
  rewrite !chain_rules_app. cbn [flat_map]. rewrite app_nil_r, !map_app, <- !app_assoc.
  destruct interfaces as [l|]; rewrite ?chain_rules_map_same, ?map_map; by destruct slot.
Qed.

Lemma existsb_dns interfaces t p (protocol : Protocol) (port : Z) :
  existsb (fun ms => applies (mkRule ms t) p)
    match interfaces with
    | Some l => map (fun i => [MOut i; MProto protocol; MDport port]) l
    | None => [[MProto protocol; MDport port]]
    end = on_interface interfaces p && (holds (MProto protocol) p && holds (MDport port) p).
Proof.
  destruct interfaces as [l|]; simpl; [|unfold applies; simpl; by rewrite andb_true_r, orb_false_r].
  induction l as [|i l IH]; simpl; [done|]. rewrite IH, andb_orb_distrib_l. f_equal.
  unfold applies. simpl. by rewrite andb_true_r.
Qed.

(** ** Properties *)

(** The bypass mark is recognised under the mask of the allocation: never, when it has
    bits outside that mask. *)
Definition bypassed (policy : CapturePolicy) (a : ResourceCandidate) (p : Packet) : bool :=
  Z.land (fwmark p) (mask a) =? policy_bypass policy.
Definition bypass_in_mask (policy : CapturePolicy) (a : ResourceCandidate) : bool :=
  Z.land (policy_bypass policy) (mask a) =? policy_bypass policy.
Lemma bypassed_own policy a p :
  fwmark p = policy_bypass policy -> bypassed policy a p = bypass_in_mask policy a.
Proof. intros E. unfold bypassed, bypass_in_mask. by rewrite E. Qed.
Lemma bypassed_never policy a p : bypass_in_mask policy a = false -> bypassed policy a p = false.
Proof.
  unfold bypassed, bypass_in_mask. rewrite !Z.eqb_neq. intros Hn E. apply Hn.
  rewrite <- E, <- Z.land_assoc, Z.land_diag. done.
Qed.


(** The output chain of a TUN plan marks exactly the captured users' traffic
    on the selected interfaces; loopback and bypass-marked packets come back
    unchanged and the reply direction is accepted. *)
Theorem tun_output_captures slot policy a owner interfaces env p :
  policy_wf policy -> candidate_wf a ->
  let rules := chain_rules (tun_payloads slot policy a owner interfaces).1
                 ("NH_TUN_" +:+ suffix slot) in
  (holds (MMark (policy_bypass policy) (mask a)) p || holds (MOut "lo") p = true ->
     walk env rules p = (p, Back)) /\
  (holds (MMark (policy_bypass policy) (mask a)) p || holds (MOut "lo") p = false ->
     (holds MReply p = true -> walk env rules p = (p, Accepted)) /\
     (holds MReply p = false ->
        exists p', walk env rules p = (p', Back) /\ same p p' /\
          carries a p' = carries a p ||
            (captures_uid policy (uid_of p) && on_interface interfaces p))).
Proof.
  intros Hp Ha rules. subst rules. rewrite tun_output_rules.
  rewrite !walk_return_1, walk_accept_1, !applies_cons. unfold applies at 1 2 3. simpl forallb.
  rewrite !andb_true_r. destruct (holds (MMark _ _) p), (holds (MOut "lo") p); simpl; try done.
  split; [done|]. intros _. split; [by intros ->|]. intros ->.
  destruct (walk_selection env policy a interfaces [] [mkRule [] TReturn] p Hp Ha)
    as (p' & Hs & Hc & Hw); [intros q; by rewrite walk_return|].
  exists p'. split; [exact Hw|]. split; [done|]. rewrite Hc. simpl. by rewrite andb_true_r.
Qed.

(** The IPv6 guard drops exactly the IPv6 traffic of captured users that is not
    loopback, link-local, unique-local or multicast, and leaves everything else
    as it was: what the plan does not capture over IPv6 cannot leave beside the
    proxy, and users the policy leaves alone keep their IPv6. *)
Theorem ipv6_guard_drops_exactly slot policy owner p :
  policy_wf policy ->
  let env := chain_rules (ipv6_guard_payloads slot policy owner).1 in
  let exempt := existsb (fun d => holds (MDest d) p)
                  ["::1/128"; "fe80::/10"; "fc00::/7"; "ff00::/8"] in
  walk env (env ("NH_V6G_" +:+ suffix slot)) p =
  (p, if captures_uid policy (uid_of p) && negb exempt then Dropped else Back).
Proof.
  intros Hp env exempt.
  assert (walk env (env ("NH_V6B_" +:+ suffix slot)) p =
          (p, if negb exempt then Dropped else Back)) as Hb.
  { unfold env at 2. rewrite block_rules, (walk_returns env (fun d => [MDest d])).
    replace (existsb _ _) with exempt;
      [|subst exempt; simpl; unfold applies; simpl; by rewrite !andb_true_r].
    destruct exempt; [done|]. by rewrite (walk_drops env id). }
  unfold env at 2. rewrite guard_rules, (walk_returns env (fun u => [MUid u])), existsb_uid,
    captures_uid_included by done.
  destruct (bool_decide (uid_of p ∈ exclude_uids policy)); [by rewrite andb_false_r|].
  rewrite (walk_jumps env _ _ _ p (negb exempt)); [|unfold env; by rewrite block_rules|done].
  rewrite existsb_capture. simpl. rewrite andb_true_r.
  destruct (included policy p && negb exempt); [done|].
  destruct (_ =? 0); [apply walk_nil|by rewrite walk_return].
Qed.

(** The DNS guard drops exactly plain and TLS DNS on the selected interfaces
    that neither loops back, nor carries the capture mark, nor carries the whole
    bypass mark: no plain or TLS DNS query leaves by those interfaces beside the
    proxy. *)
Theorem dns_guard_drops_exactly slot policy a owner interfaces env p :
  let rules := chain_rules (dns_guard_payloads slot policy a owner interfaces).1
                 ("NH_DNS_" +:+ suffix slot) in
  let passes := holds (MOut "lo") p || carries a p ||
                holds (MMark (policy_bypass policy) (umax 32)) p in
  let dns := (holds (MProto Udp) p && holds (MDport 53) p) ||
             (holds (MProto Tcp) p && holds (MDport 53) p) ||
             (holds (MProto Tcp) p && holds (MDport 853) p) in
  walk env rules p =
  (p, if negb passes && on_interface interfaces p && dns then Dropped else Back).
Proof.
  intros rules passes dns. subst rules. rewrite dns_rules, (walk_returns env id).
  replace (existsb _ _) with passes;
    [|subst passes; unfold applies, id, carries; simpl; rewrite <- holds_mark, !andb_true_r,
      orb_false_r; by rewrite orb_assoc].
  destruct passes; [done|]. simpl. rewrite (walk_drops env id). unfold id.
  cbn [flat_map]. rewrite app_nil_r, !existsb_app, !existsb_dns, <- !(andb_orb_distrib_r (on_interface _ _)), orb_assoc.
  subst dns. destruct (_ && _); [done|]. by rewrite walk_return.
Qed.
End walk.

(** ** A netfilter that satisfies the laws *)
Module DemoNet.
Record DemoPacket : Type := mkPacket {
  pk_uid : Z;
  pk_mark : Z;
  pk_proto : Protocol;
  pk_dport : Z;
  pk_nets : list string;
  pk_out : string;
  pk_in : string;
  pk_reply : bool;
}.
Definition demo_holds (m : Match) (p : DemoPacket) : bool :=
  match m with
  | MComment _ => true
  | MMark v k => Z.land (pk_mark p) k =? v
  | MNotMark v k => negb (Z.land (pk_mark p) k =? v)
  | MOut i => bool_decide (pk_out p = i)
  | MIn i => bool_decide (pk_in p = i)
  | MReply => pk_reply p
  | MProto x => bool_decide (pk_proto p = x)
  | MDport n => pk_dport p =? n
  | MUid u => u =? pk_uid p
  | MDest d => bool_decide (d ∈ pk_nets p)
  | MSocketTransparent => false
  end.
Definition demo_set (v k : Z) (p : DemoPacket) : DemoPacket :=
  mkPacket (pk_uid p) (Z.lxor (Z.ldiff (pk_mark p) k) v) (pk_proto p) (pk_dport p)
    (pk_nets p) (pk_out p) (pk_in p) (pk_reply p).

Fixpoint demo_rules (jump : string -> DemoPacket -> DemoPacket * Verdict)
    (rs : list Rule) (p : DemoPacket) : DemoPacket * Verdict :=
  match rs with
  | [] => (p, Back)
  | r :: rs =>
      if forallb (fun m => demo_holds m p) (matches r) then
        match target r with
        | TReturn => (p, Back)
        | TAccept => (p, Accepted)
        | TDrop => (p, Dropped)
        | TMark v k => demo_rules jump rs (demo_set v k p)
        | TTproxy _ v k => (demo_set v k p, Accepted)
        | TJump c =>
            match jump c p with
            | (p', Back) => demo_rules jump rs p'
            | final => final
            end
        end
      else demo_rules jump rs p
  end.
Definition demo_walk (env : string -> list Rule) : list Rule -> DemoPacket -> DemoPacket * Verdict :=
  demo_rules (fun c => demo_rules (fun _ p => (p, Back)) (env c)).

#[global] Instance demo_netfilter : Netfilter DemoPacket :=
  {| holds := demo_holds; fwmark := pk_mark; set_xmark := demo_set; walk := demo_walk |}.

Lemma demo_rules_flat j1 j2 rs p : forallb flat rs = true ->
  demo_rules j1 rs p = demo_rules j2 rs p.
Proof.
  revert p. induction rs as [|r rs IH]; intros p; simpl; [done|].
  intros [Hr Hrs]%andb_true_iff. unfold flat in Hr. split_if E; [|by apply IH].
  destruct (target r); try done; by apply IH.
Qed.

#[global] Instance demo_laws : NetfilterLaws DemoPacket.
Proof.
  split; intros; simpl in *; unfold applies, demo_walk in *; simpl in *; try done.
  - by destruct m.
  - by rewrite H.
  - by rewrite H, H0.
  - by rewrite H, H0.
  - by rewrite H, H0.
  - by rewrite H, H0.
  - rewrite H, H0. by erewrite (demo_rules_flat _ _ (env c)).
Qed.

Lemma uid_ok (u : Z) (p : DemoPacket) : holds (MUid u) p = (u =? pk_uid p).
Proof. done. Qed.

(** The policy and the allocation of the repository's contract tests. *)
Definition policy : CapturePolicy :=
  mkCapturePolicy Tproxy true true true (Some 7893) (Some 0x200) [10001; 10002] [10003]
    InterfacePolicy_default ForwardingPolicy_default.
Definition allocation : ResourceCandidate := mkCandidate 0x100 0xff00 100 10000.
Definition web (uid : Z) : DemoPacket := mkPacket uid 0 Tcp 443 [] "wlan0" "" false.

Lemma policy_ok : policy_wf policy.
Proof.
  apply built_wf, (built_new Tproxy true true true (Some 7893) (Some 0x200) [10001; 10002] [10003]).
  vm_compute. reflexivity.
Qed.
Lemma allocation_ok : candidate_wf allocation.
Proof. apply (candidate_new_wf 0x100 0xff00 100 10000); [done|done|reflexivity]. Qed.

(** The text of a payload, as the source prints it. *)
Example dns_guard_text :
  payload_text (dns_guard_payloads SlotA policy allocation "nethop:g=7" None).2 =
  "*filter" +:+ newline +:+
  "-D OUTPUT -m comment --comment nethop:g=7 -j NH_DNS_A" +:+ newline +:+
  "-F NH_DNS_A" +:+ newline +:+ "-X NH_DNS_A" +:+ newline +:+ "COMMIT" +:+ newline.
Proof. vm_compute. reflexivity. Qed.
Example capture_rule_text :
  render <$> append_output_capture_rules "NH_OUT_A" policy allocation (Some ["wlan0"]) =
  ["-A NH_OUT_A -o wlan0 -m owner --uid-owner 10001 -j MARK --set-xmark 0x100/0xff00";
   "-A NH_OUT_A -o wlan0 -m owner --uid-owner 10002 -j MARK --set-xmark 0x100/0xff00"].
Proof. vm_compute. reflexivity. Qed.
End DemoNet.

(** The bypass mark of the default configuration (131072) under the mask 0xff00: a packet
    of the core, which carries it, is captured like any other. *)
Lemma default_bypass_ignored :
  let policy := mkCapturePolicy Tproxy true true true (Some 7893) (Some 131072) [] [] InterfacePolicy_default
                  ForwardingPolicy_default in
  bypass_in_mask policy DemoNet.allocation = false
  /\ carries DemoNet.allocation (walk (fun _ => []) (chain_rules (tproxy_payloads Ipv4 SlotA policy
       DemoNet.allocation 7893 "nethop:g=7" None).1 "NH_OUT_A")
       (DemoNet.mkPacket 0 131072 Tcp 443 [] "wlan0" "" false)).1 = true.
Proof. split; vm_compute; reflexivity. Qed.


Lemma tun_output_captures_witness :
  exists p', walk (fun _ => []) (chain_rules (tun_payloads SlotB DemoNet.policy
                DemoNet.allocation "nethop:tun:g=7" (Some ["wlan0"])).1 "NH_TUN_B")
               (DemoNet.web 10003) = (p', Back) /\ carries DemoNet.allocation p' = false.
Proof.
  destruct (tun_output_captures DemoNet.pk_uid DemoNet.uid_ok SlotB DemoNet.policy
    DemoNet.allocation "nethop:tun:g=7" (Some ["wlan0"]) (fun _ => []) (DemoNet.web 10003)
    DemoNet.policy_ok DemoNet.allocation_ok) as [_ H].
  destruct H as [_ H]; [vm_compute; reflexivity|].
  destruct (H ltac:(vm_compute; reflexivity)) as (p' & Hw & _ & Hc).
  exists p'. split; [exact Hw|]. rewrite Hc. vm_compute. reflexivity.
Defined.

Lemma ipv6_guard_drops_exactly_witness :
  (walk (chain_rules (ipv6_guard_payloads SlotA DemoNet.policy "nethop:g=7").1)
     (chain_rules (ipv6_guard_payloads SlotA DemoNet.policy "nethop:g=7").1 "NH_V6G_A")
     (DemoNet.web 10002)).2 = Dropped.
Proof.
  pose proof (ipv6_guard_drops_exactly DemoNet.pk_uid DemoNet.uid_ok SlotA DemoNet.policy
    "nethop:g=7" (DemoNet.web 10002) DemoNet.policy_ok) as H.
  change (chain_rules (ipv6_guard_payloads SlotA DemoNet.policy "nethop:g=7").1 "NH_V6G_A")
    with (chain_rules (ipv6_guard_payloads SlotA DemoNet.policy "nethop:g=7").1
            ("NH_V6G_" +:+ suffix SlotA)). rewrite H. vm_compute. reflexivity.
Defined.

Lemma dns_guard_drops_exactly_witness :
  (walk (fun _ => []) (chain_rules (dns_guard_payloads SlotA DemoNet.policy DemoNet.allocation
      "nethop:g=7" None).1 "NH_DNS_A")
     (DemoNet.mkPacket 0 0 Udp 53 [] "wlan0" "" false)).2 = Dropped.
Proof.
  pose proof (dns_guard_drops_exactly SlotA DemoNet.policy DemoNet.allocation "nethop:g=7" None
    (fun _ => []) (DemoNet.mkPacket 0 0 Udp 53 [] "wlan0" "" false)) as H.
  change "NH_DNS_A" with ("NH_DNS_" +:+ suffix SlotA). rewrite H. vm_compute. reflexivity.
Defined.
