(* ===== verification/Kernel.v ===== *)
(** * Kernel: what the network tools do with a planned operation

    The executor hands its operations to [iptables-restore], [ip6tables-restore]
    and [ip], which are not part of the repository.  This file states what the
    planner relies on: a view of the kernel's tables, routes and policy rules, and
    the documented effect of an operation on it ([None] when the tool refuses,
    which leaves the kernel as it was).  Executor uses it as a law of its backend.

    The main result: the rollback payload of every step undoes its apply payload
    exactly, whatever else the tables hold. *)

From S2P Require Import Prelude Text Ordering Capture Generation Capability Interfaces Rules Plan.

Local Open Scope Z_scope.

#[export] Program Instance IpFamily_countable : Countable IpFamily := {|
  encode := fun f => encode (match f with Ipv4 => true | Ipv6 => false end);
  decode := fun n => (fun b : bool => if b then Ipv4 else Ipv6) <$> decode n |}.
Next Obligation. by intros []. Qed.

(** ** One table: its chains *)
Abbreviation Table := (gmap string (list Rule)).

Definition jumps_to (c : string) (r : Rule) : Prop := target r = TJump c.
#[export] Instance jumps_to_dec c r : Decision (jumps_to c r).
Proof. unfold jumps_to. apply _. Defined.

(** The first occurrence of a rule, as [-D] removes it. *)
Fixpoint remove_first (r : Rule) (rs : list Rule) : option (list Rule) :=
  match rs with
  | [] => None
  | x :: rest => if decide (x = r) then Some rest else cons x <$> remove_first r rest
  end.

(** No chain of the table jumps to [c]. *)
Definition unreferenced (T : Table) (c : string) : Prop :=
  map_Forall (fun _ rs => Forall (fun r => ~ jumps_to c r) rs) T.

Definition target_exists (T : Table) (r : Rule) : Prop :=
  match target r with TJump c => is_Some (T !! c) | _ => True end.
#[export] Instance target_exists_dec T r : Decision (target_exists T r).
Proof. unfold target_exists. destruct (target r); apply _. Defined.

Definition table_line (l : Line) (T : Table) : option Table :=
  match l with
  | LTable _ => None
  | LNew c => match T !! c with None => Some (<[c := []]> T) | Some _ => None end
  | LAppend c r =>
      rs ← T !! c;
      if decide (target_exists T r) then Some (<[c := rs ++ [r]]> T) else None
  | LDelete c r =>
      rs ← T !! c;
      rs' ← remove_first r rs;
      Some (<[c := rs']> T)
  | LFlush c => _ ← T !! c; Some (<[c := []]> T)
  | LRemove c =>
      match T !! c with
      | Some [] => if decide (unreferenced T c) then Some (base.delete c T) else None
      | _ => None
      end
  | LCommit => Some T
  end.

Fixpoint table_lines (ls : list Line) (T : Table) : option Table :=
  match ls with
  | [] => Some T
  | l :: rest => table_line l T ≫= table_lines rest
  end.

(** ** The whole view *)
Record View : Type := mkView {
  tables : gmap (IpFamily * string) Table;
  routes : gset (IpFamily * Z * string * bool);
  rules : gset (IpFamily * Z * Z * Z * Z);
}.

Definition mutate {A} `{Countable A} (action : MutationAction) (x : A) (s : gset A) :
    option (gset A) :=
  match action with
  | Add => if decide (x ∈ s) then None else Some ({[x]} ∪ s)
  | Delete => if decide (x ∈ s) then Some (s ∖ {[x]}) else None
  end.

Definition effect (op : NetworkOperation) (v : View) : option View :=
  match op with
  | Restore family (LTable t :: ls) =>
      T ← tables v !! (family, t);
      T' ← table_lines ls T;
      Some (mkView (<[(family, t) := T']> (tables v)) (routes v) (rules v))
  | Restore _ _ => None
  | PolicyRoute action family table device local =>
      s ← mutate action (family, table, device, local) (routes v);
      Some (mkView (tables v) s (rules v))
  | PolicyRule action family mark mask table priority =>
      s ← mutate action (family, mark, mask, table, priority) (rules v);
      Some (mkView (tables v) (routes v) s)
  end.

(** Every jump of a table has its chain: what the kernel maintains. *)
Definition table_closed (T : Table) : Prop :=
  forall c rs r, T !! c = Some rs -> r ∈ rs -> target_exists T r.
Definition closed (v : View) : Prop := map_Forall (fun _ T => table_closed T) (tables v).

Lemma mutate_undo {A} `{Countable A} (x : A) s s' :
  mutate Add x s = Some s' -> mutate Delete x s' = Some s.
Proof.
  simpl. case_decide; [done|]. intros [= <-]. rewrite decide_True by set_solver.
  f_equal. apply leibniz_equiv. set_solver.
Qed.

(** ** Lines keep a table closed *)
Lemma target_exists_mono T T' r :
  (forall c, is_Some (T !! c) -> is_Some (T' !! c)) -> target_exists T r -> target_exists T' r.
Proof. unfold target_exists. destruct (target r); auto. Qed.

(** Rewriting one present chain with rules whose targets exist. *)
Lemma closed_insert T c rs : table_closed T ->
  (forall r, r ∈ rs -> target_exists (<[c := rs]> T) r) -> table_closed (<[c := rs]> T).
Proof.
  intros HT Hrs c' rs' r Hl Hr. destruct (decide (c = c')) as [->|].
  - rewrite lookup_insert_eq in Hl. injection Hl as <-. by apply Hrs.
  - rewrite lookup_insert_ne in Hl by done. apply (target_exists_mono T); [|by eapply HT].
    intros d [y Hd]. destruct (decide (c = d)) as [->|];
      [by rewrite lookup_insert_eq|rewrite lookup_insert_ne; eauto].
Qed.
Lemma insert_keeps_target T c rs r : target_exists T r -> target_exists (<[c := rs]> T) r.
Proof.
  apply target_exists_mono. intros d [y Hd]. destruct (decide (c = d)) as [->|];
    [by rewrite lookup_insert_eq|rewrite lookup_insert_ne; eauto].
Qed.
Lemma remove_first_elem r rs rs' x : remove_first r rs = Some rs' -> x ∈ rs' -> x ∈ rs.
Proof.
  revert rs'. induction rs as [|y rs IH]; intros rs'; simpl; [done|].
  case_decide; [intros [= <-]; by right|].
  destruct (remove_first r rs) as [l|]; simpl; [|done]. intros [= <-].
  rewrite !elem_of_cons. intros [->|Hx]; [by left|right; by eapply IH].
Qed.

Lemma table_line_closed l T T' : table_closed T -> table_line l T = Some T' -> table_closed T'.
Proof.
  intros HT. destruct l as [t|c|c r|c r|c|c|]; simpl; try done.
  - destruct (T !! c) eqn:E; [done|]. intros [= <-]. apply closed_insert; [done|].
    by intros r ?%not_elem_of_nil.
  - destruct (T !! c) as [rs|] eqn:E; simpl; [|done]. case_decide as Hr; [|done]. intros [= <-].
    apply closed_insert; [done|]. intros x [Hx| ->%list_elem_of_singleton]%elem_of_app;
      apply insert_keeps_target; [by eapply HT|done].
  - destruct (T !! c) as [rs|] eqn:E; simpl; [|done].
    destruct (remove_first r rs) as [rs'|] eqn:Er; simpl; [|done]. intros [= <-].
    apply closed_insert; [done|]. intros x Hx. apply insert_keeps_target.
    eapply HT; [done|]. by eapply remove_first_elem.
  - destruct (T !! c) as [rs|] eqn:E; simpl; [|done]. intros [= <-].
    apply closed_insert; [done|]. by intros r ?%not_elem_of_nil.
  - destruct (T !! c) as [[|]|] eqn:E; try done. case_decide as Hu; [|done]. intros [= <-].
    intros d rs r [Hd Hl]%lookup_delete_Some Hr. pose proof (HT _ _ _ Hl Hr) as Ht.
    unfold target_exists in *. destruct (target r) eqn:Et; try done.
    assert (chain <> c) as Hne.
    { intros ->. unfold unreferenced in Hu. specialize (Hu _ _ Hl). simpl in Hu.
      rewrite Forall_forall in Hu. by apply (Hu r). }
    by rewrite lookup_delete_ne.
  - by intros [= <-].
Qed.

Lemma table_lines_closed ls T T' : table_closed T -> table_lines ls T = Some T' -> table_closed T'.
Proof.
  revert T. induction ls as [|l ls IH]; intros T HT; simpl; [by intros [= <-]|].
  destruct (table_line l T) as [T1|] eqn:E; simpl; [|done]. apply IH. by eapply table_line_closed.
Qed.

Lemma effect_closed op v v' : closed v -> effect op v = Some v' -> closed v'.
Proof.
  intros Hv. destruct op as [f [|[] ls]|a f t d l|a f m k t p]; simpl; try done.
  - destruct (tables v !! (f, table)) as [T|] eqn:E; simpl; [|done].
    destruct (table_lines ls T) as [T'|] eqn:E'; simpl; [|done]. intros [= <-].
    apply map_Forall_insert_2; [|done]. eapply table_lines_closed; [|done]. by eapply Hv.
  - destruct (mutate _ _ _); simpl; [|done]. by intros [= <-].
  - destruct (mutate _ _ _); simpl; [|done]. by intros [= <-].
Qed.

(** ** A rollback payload undoes its apply payload

    Every payload of the planner has this shape: new chains, appended rules, of
    which those in chains that were there before jump to a new chain; the rollback
    deletes these jumps, then flushes and removes the new chains. *)
Abbreviation Appends := (list (string * Rule)).

Definition rules_of (apps : Appends) (c : string) : list Rule :=
  (filter (fun x => x.1 = c) apps).*2.
Definition base_appends (cs : list string) (apps : Appends) : Appends :=
  filter (fun x => x.1 ∉ cs) apps.

Definition apply_shape (t : string) (cs : list string) (apps : Appends) : list Line :=
  LTable t :: map LNew cs ++ map (fun x => LAppend x.1 x.2) apps ++ [LCommit].
Definition rollback_shape (t : string) (cs : list string) (apps : Appends) : list Line :=
  LTable t :: map (fun x => LDelete x.1 x.2) (base_appends cs apps)
  ++ map LFlush cs ++ map LRemove cs ++ [LCommit].
Definition jumps_inside (cs : list string) (apps : Appends) : Prop :=
  forall c r, (c, r) ∈ apps -> c ∉ cs -> exists d, d ∈ cs /\ jumps_to d r.

Lemma new_phase cs rest T T' : table_lines (map LNew cs ++ rest) T = Some T' ->
  exists T1, table_lines rest T1 = Some T' /\ NoDup cs /\ (forall c, c ∈ cs -> T !! c = None) /\
    (forall c, T1 !! c = if decide (c ∈ cs) then Some [] else T !! c).
Proof.
  revert T. induction cs as [|c cs IH]; intros T; cbn [map app fst snd table_lines table_line].
  { intros H. exists T. split_and!; [done|apply NoDup_nil_2|by intros ? ?%not_elem_of_nil|].
    intros c. by rewrite decide_False by apply not_elem_of_nil. }
  destruct (T !! c) eqn:E; simpl; [done|]. intros H.
  apply IH in H as (T1 & H & Hnd & Hnone & Hl).
  assert (c ∉ cs) as Hc by (intros Hin; specialize (Hnone c Hin); by rewrite lookup_insert_eq in Hnone).
  exists T1. split_and!; [done|by constructor| |].
  - intros d [->|Hd]%elem_of_cons; [done|]. specialize (Hnone d Hd).
    by apply lookup_insert_None in Hnone as [? _].
  - intros d. rewrite Hl. destruct (decide (d = c)) as [->|Hne].
    + rewrite decide_False by done. by rewrite lookup_insert_eq, decide_True by left.
    + rewrite lookup_insert_ne by done. destruct (decide (d ∈ cs)).
      * by rewrite decide_True by by right.
      * by rewrite decide_False by (rewrite not_elem_of_cons; done).
Qed.

Lemma append_phase apps rest T T' :
  table_lines (map (fun x => LAppend x.1 x.2) apps ++ rest) T = Some T' ->
  exists T1, table_lines rest T1 = Some T' /\
    (forall c r, (c, r) ∈ apps -> is_Some (T !! c)) /\
    (forall c, T1 !! c = (fun rs => rs ++ rules_of apps c) <$> T !! c).
Proof.
  revert T. induction apps as [|[c r] apps IH]; intros T; cbn [map app fst snd table_lines table_line].
  { intros H. exists T. split_and!; [done|by intros ? ? ?%not_elem_of_nil|].
    intros c. unfold rules_of. simpl. destruct (T !! c); simpl; by rewrite ?app_nil_r. }
  destruct (T !! c) as [rs|] eqn:E; simpl; [|done]. case_decide; simpl; [|done]. intros H0.
  apply IH in H0 as (T1 & H0 & Hin & Hl). exists T1. split_and!; [done| |].
  - intros d r' [[= -> ->]|Hd]%elem_of_cons; [by rewrite E|].
    destruct (Hin _ _ Hd) as [y Hy]. apply lookup_insert_Some in Hy as [[<- _]|[_ Hy]]; eauto.
  - intros d. rewrite Hl. unfold rules_of. rewrite filter_cons. simpl.
    destruct (decide (c = d)) as [->|Hne].
    + rewrite lookup_insert_eq, E. simpl. by rewrite <- app_assoc.
    + by rewrite lookup_insert_ne.
Qed.

Lemma remove_first_app r old rest : r ∉ old -> remove_first r (old ++ r :: rest) = Some (old ++ rest).
Proof.
  induction old as [|x old IH]; simpl; intros Hr; [by rewrite decide_True|].
  apply not_elem_of_cons in Hr as [Hx Hr]. rewrite decide_False by congruence. by rewrite IH.
Qed.

Lemma delete_phase (cs : list string) (dels : Appends) rest (T T1 : Table) :
  (forall c r, (c, r) ∈ dels -> c ∉ cs /\ exists rs, T !! c = Some rs /\ r ∉ rs) ->
  (forall c, c ∉ cs -> T1 !! c = (fun rs => rs ++ rules_of dels c) <$> T !! c) ->
  exists T2, table_lines (map (fun x => LDelete x.1 x.2) dels ++ rest) T1 = table_lines rest T2 /\
    (forall c, T2 !! c = if decide (c ∈ cs) then T1 !! c else T !! c).
Proof.
  revert T1. induction dels as [|[c r] dels IH]; intros T1 Hd Hl; cbn [map app fst snd table_lines table_line].
  { exists T1. split; [done|]. intros c. case_decide as Hc; [done|]. rewrite Hl by done.
    unfold rules_of. simpl. destruct (T !! c); simpl; by rewrite ?app_nil_r. }
  destruct (Hd c r) as (Hc & rs & Hrs & Hr); [by left|].
  pose proof (Hl c Hc) as Hlc. rewrite Hrs in Hlc. unfold rules_of in Hlc.
  rewrite filter_cons, decide_True in Hlc by done. simpl in Hlc. rewrite Hlc. simpl.
  rewrite remove_first_app by done. simpl.
  destruct (IH (<[c := rs ++ (filter (fun x => x.1 = c) dels).*2]> T1)) as (T2 & H2 & Hl2).
  - intros d r' Hin. apply Hd. by right.
  - intros d Hdc. destruct (decide (c = d)) as [->|Hne].
    + by rewrite lookup_insert_eq, Hrs.
    + rewrite lookup_insert_ne, Hl by done. unfold rules_of. rewrite filter_cons.
      by rewrite decide_False by done.
  - exists T2. split; [done|]. intros d. rewrite Hl2. case_decide; [|done].
    rewrite lookup_insert_ne; [done|]. by intros ->.
Qed.

Lemma flush_phase cs rest (T : Table) : (forall c, c ∈ cs -> is_Some (T !! c)) ->
  exists T2, table_lines (map LFlush cs ++ rest) T = table_lines rest T2 /\
    (forall c, T2 !! c = if decide (c ∈ cs) then Some [] else T !! c).
Proof.
  revert T. induction cs as [|c cs IH]; intros T Hs; cbn [map app fst snd table_lines table_line].
  { exists T. split; [done|]. intros c. by rewrite decide_False by apply not_elem_of_nil. }
  destruct (Hs c) as [rs Hrs]; [by left|]. rewrite Hrs. simpl.
  destruct (IH (<[c := []]> T)) as (T2 & H2 & Hl).
  { intros d Hd. destruct (decide (c = d)) as [->|]; [by rewrite lookup_insert_eq|].
    rewrite lookup_insert_ne by done. apply Hs. by right. }
  exists T2. split; [done|]. intros d. rewrite Hl. destruct (decide (d ∈ cs)).
  - by rewrite decide_True by by right.
  - destruct (decide (d = c)) as [->|Hne].
    + by rewrite lookup_insert_eq, decide_True by left.
    + rewrite lookup_insert_ne by done.
      by rewrite decide_False by (rewrite not_elem_of_cons; done).
Qed.

Lemma remove_phase cs rest (T : Table) : NoDup cs -> (forall c, c ∈ cs -> T !! c = Some []) ->
  (forall c, c ∈ cs -> unreferenced T c) ->
  exists T2, table_lines (map LRemove cs ++ rest) T = table_lines rest T2 /\
    (forall c, T2 !! c = if decide (c ∈ cs) then None else T !! c).
Proof.
  revert T. induction cs as [|c cs IH]; intros T Hnd Hs Hu; cbn [map app fst snd table_lines table_line].
  { exists T. split; [done|]. intros c. by rewrite decide_False by apply not_elem_of_nil. }
  apply NoDup_cons in Hnd as [Hc Hnd]. rewrite Hs by left. rewrite decide_True by (apply Hu; by left).
  simpl. destruct (IH (base.delete c T)) as (T2 & H2 & Hl); [done| | |].
  - intros d Hd. rewrite lookup_delete_ne by (by intros ->). apply Hs. by right.
  - intros d Hd. apply map_Forall_delete, Hu. by right.
  - exists T2. split; [done|]. intros d. rewrite Hl. destruct (decide (d ∈ cs)).
    + by rewrite decide_True by by right.
    + destruct (decide (d = c)) as [->|Hne].
      * by rewrite lookup_delete_eq, decide_True by left.
      * rewrite lookup_delete_ne by done.
        by rewrite decide_False by (rewrite not_elem_of_cons; done).
Qed.

Lemma rules_of_base cs apps c : c ∉ cs -> rules_of (base_appends cs apps) c = rules_of apps c.
Proof.
  intros Hc. unfold rules_of, base_appends. f_equal.
  induction apps as [|[d r] apps IH]; [done|]. rewrite !filter_cons. simpl.
  destruct (decide (d ∉ cs)) as [Hd|Hd].
  - rewrite filter_cons. simpl. by rewrite IH.
  - rewrite IH. rewrite decide_False; [done|]. intros ->. done.
Qed.

(** A chain that is not there is not a jump's target. *)
Lemma absent_unreferenced T d c rs r : table_closed T -> T !! d = None ->
  T !! c = Some rs -> jumps_to d r -> r ∉ rs.
Proof.
  intros HT Hd Hc Hj Hr. specialize (HT _ _ _ Hc Hr). unfold target_exists in HT.
  rewrite Hj, Hd in HT. by destruct HT.
Qed.

Lemma payload_undo t cs apps T T' : table_closed T -> jumps_inside cs apps ->
  table_lines (tail (apply_shape t cs apps)) T = Some T' ->
  table_lines (tail (rollback_shape t cs apps)) T' = Some T.
Proof.
  intros HT Hj H. cbn [apply_shape rollback_shape tail] in *.
  apply new_phase in H as (T1 & H & Hnd & Hnone & Hl1).
  apply append_phase in H as (T2 & H & Hin & Hl2). injection H as <-.
  destruct (delete_phase cs (base_appends cs apps)
    (map LFlush cs ++ map LRemove cs ++ [LCommit]) T T2) as (T3 & -> & Hl3).
  { intros c r [Hc Hin']%list_elem_of_filter. split; [done|].
    destruct (Hin _ _ Hin') as [rs Hrs]. rewrite Hl1, decide_False in Hrs by done.
    exists rs. split; [done|]. destruct (Hj _ _ Hin' Hc) as (d & Hd & Hjr).
    by apply (absent_unreferenced T d c rs r HT (Hnone d Hd)). }
  { intros c Hc. by rewrite Hl2, Hl1, decide_False, rules_of_base by done. }
  destruct (flush_phase cs (map LRemove cs ++ [LCommit]) T3) as (T4 & -> & Hl4).
  { intros c Hc. rewrite Hl3, decide_True, Hl2, Hl1, decide_True by done. by eexists. }
  destruct (remove_phase cs [LCommit] T4 Hnd) as (T5 & -> & Hl5).
  { intros c Hc. by rewrite Hl4, decide_True. }
  { intros d Hd c rs Hc. apply Forall_forall. intros r Hr Hjr. rewrite Hl4 in Hc.
    case_decide as Hcc; [injection Hc as <-; by apply not_elem_of_nil in Hr|].
    rewrite Hl3, decide_False in Hc by done.
    by apply (absent_unreferenced T d c rs r HT (Hnone d Hd)). }
  cbn. f_equal. apply map_eq. intros c. rewrite Hl5. case_decide as Hc.
  - by rewrite Hnone.
  - by rewrite Hl4, decide_False, Hl3, decide_False.
Qed.

Definition shaped (t : string) (cs : list string) (p : list Line * list Line) : Prop :=
  exists apps, jumps_inside cs apps /\
    p.1 = apply_shape t cs apps /\ p.2 = rollback_shape t cs apps.

(** The step's rollback takes the kernel back to where its apply started. *)
Definition undoes (s : PlanStep) : Prop :=
  forall v v', closed v -> effect (apply s) v = Some v' -> effect (rollback s) v' = Some v.

Lemma shaped_undoes k f t cs p : shaped t cs p -> undoes (restore_step k f p).
Proof.
  intros (apps & Hj & H1 & H2) v v' Hv. simpl. rewrite H1, H2. simpl.
  destruct (tables v !! (f, t)) as [T|] eqn:E; simpl; [|done].
  destruct (table_lines _ T) as [T'|] eqn:E'; simpl; [|done]. intros [= <-]. simpl.
  rewrite lookup_insert_eq. simpl.
  change (map LNew cs ++ map (fun x => LAppend x.1 x.2) apps ++ [LCommit])
    with (tail (apply_shape t cs apps)) in E'.
  apply payload_undo in E'; [|by eapply Hv|done]. simpl in E'. rewrite E'. simpl.
  rewrite insert_insert_eq, insert_id by done. by destruct v.
Qed.

Arguments mutate : simpl never.

Lemma policy_undoes f a d l : Forall undoes (push_policy_steps f a d l).
Proof.
  repeat constructor; intros v v' _; cbn [effect apply rollback].
  - destruct (mutate Add (f, route_table a, d, l) (routes v)) as [s|] eqn:E; cbn; [|done].
    intros [= <-]. cbn [routes]. rewrite (mutate_undo _ _ _ E). by destruct v.
  - destruct (mutate Add (f, mark a, mask a, route_table a, rule_priority a) (rules v))
      as [s|] eqn:E; cbn; [|done].
    intros [= <-]. cbn [rules]. rewrite (mutate_undo _ _ _ E). by destruct v.
Qed.

(** ** The payloads of the planner have the shape *)
Definition own_line (cs : list string) (l : Line) : Prop :=
  exists c r, l = LAppend c r /\ c ∈ cs.

(** Rules in the new chains, then the commit. *)
Inductive own_then_commit (cs : list string) : list Line -> Prop :=
| own_commit : own_then_commit cs [LCommit]
| own_cons l ls : own_line cs l -> own_then_commit cs ls -> own_then_commit cs (l :: ls).

Lemma own_app cs l ls : Forall (own_line cs) l -> own_then_commit cs ls ->
  own_then_commit cs (l ++ ls).
Proof. induction 1; simpl; auto using own_cons. Qed.

Lemma own_lines_appends cs own : own_then_commit cs own ->
  exists apps : Appends, own = map (fun x => LAppend x.1 x.2) apps ++ [LCommit] /\
    Forall (fun x => x.1 ∈ cs) apps.
Proof.
  induction 1 as [|l own (c & r & -> & Hc) _ (apps & -> & IH)]; [by exists []|].
  exists ((c, r) :: apps). split; [done|]. by constructor.
Qed.

Lemma shaped_intro t cs (base : Appends) own p :
  Forall (fun x => x.1 ∉ cs /\ exists d, d ∈ cs /\ jumps_to d x.2) base ->
  p.1 = LTable t :: map LNew cs ++ map (fun x => LAppend x.1 x.2) base ++ own ->
  own_then_commit cs own ->
  p.2 = LTable t :: map (fun x => LDelete x.1 x.2) base ++ map LFlush cs ++ map LRemove cs
        ++ [LCommit] ->
  shaped t cs p.
Proof.
  intros Hb H1 Ho H2. apply own_lines_appends in Ho as (apps & -> & Ha).
  exists (base ++ apps). split_and!.
  - intros c r [Hin|Hin]%elem_of_app Hc.
    + rewrite Forall_forall in Hb. by destruct (Hb _ Hin).
    + rewrite Forall_forall in Ha. by specialize (Ha _ Hin).
  - unfold apply_shape. by rewrite map_app, <- app_assoc.
  - unfold rollback_shape, base_appends. rewrite filter_app.
    rewrite (filter_all _ base); [|intros x Hx; rewrite Forall_forall in Hb; by apply Hb].
    assert (filter (fun x => x.1 ∉ cs) apps = []) as ->; [|by rewrite app_nil_r].
    clear H1. induction Ha as [|x apps Hx _ IH]; [done|].
    rewrite filter_cons_False; [done|]. intros Hn. by apply Hn.
Qed.

Lemma Forall_map_intro {A B} (P : B -> Prop) (f : A -> B) l :
  (forall x, P (f x)) -> Forall P (map f l).
Proof. intros H. induction l; simpl; by constructor. Qed.
Lemma own_append cs c ms t : c ∈ cs -> own_line cs (append c ms t).
Proof. unfold own_line, append. eauto. Qed.
Lemma own_push_if cs b l : own_line cs l -> Forall (own_line cs) (push_if b l).
Proof. destruct b; simpl; auto using Forall_nil_2, Forall_singleton. Qed.
Lemma own_capture cs c policy a ifs : c ∈ cs ->
  Forall (own_line cs) (append_output_capture_rules c policy a ifs).
Proof.
  intros Hc. unfold append_output_capture_rules. destruct ifs as [l|].
  - induction l as [|i l IH]; simpl; [constructor|]. apply Forall_app. split; [|done].
    destruct (_ =? 0); [by repeat constructor; apply own_append|].
    apply Forall_map_intro. intros. by apply own_append.
  - destruct (_ =? 0); [by repeat constructor; apply own_append|].
    apply Forall_map_intro. intros. by apply own_append.
Qed.
Lemma own_dns cs c ifs pr n : c ∈ cs -> Forall (own_line cs) (dns_drop c ifs pr n).
Proof.
  intros Hc. unfold dns_drop. destruct ifs; [apply Forall_map_intro; intros; by apply own_append|].
  repeat constructor. by apply own_append.
Qed.

Ltac own_lines :=
  repeat first
    [ apply own_commit
    | apply own_app
    | apply own_cons
    | apply Forall_nil_2
    | apply Forall_app_2
    | apply own_push_if
    | apply own_capture
    | apply own_dns
    | apply Forall_map_intro; intros ?
    | apply own_append
    | apply List.Forall_cons
    | apply list_elem_of_here
    | apply list_elem_of_further ].

(** The rules that enter a new chain sit in chains the plan does not own. *)
Ltac base_lines :=
  repeat first
    [ apply Forall_nil_2
    | apply Forall_map_intro; intros ?
    | apply List.Forall_cons ];
  (split; [cbn [fst]; refine (bool_decide_unpack _ _);
           match goal with s : PlanSlot |- _ => destruct s end; vm_compute; exact I
          |eexists; split; [|reflexivity]; own_lines]).

Section shapes.
Context (slot : PlanSlot) (policy : CapturePolicy) (a : ResourceCandidate) (owner : string).

Lemma dns_guard_shaped ifs :
  shaped "filter" ["NH_DNS_" +:+ suffix slot] (dns_guard_payloads slot policy a owner ifs).
Proof.
  eapply (shaped_intro _ _
    [("OUTPUT", mkRule [MComment owner] (TJump ("NH_DNS_" +:+ suffix slot)))]);
    [base_lines|reflexivity|own_lines|reflexivity].
Qed.
Lemma tun_shaped ifs : shaped "mangle" ["NH_TUN_" +:+ suffix slot] (tun_payloads slot policy a owner ifs).
Proof.
  eapply (shaped_intro _ _
    [("OUTPUT", mkRule [MComment owner] (TJump ("NH_TUN_" +:+ suffix slot)))]);
    [base_lines|reflexivity|own_lines|reflexivity].
Qed.
Lemma tproxy_shaped f port ifs :
  shaped "mangle" ["NH_OUT_" +:+ suffix slot; "NH_PRE_" +:+ suffix slot; "NH_DIV_" +:+ suffix slot]
    (tproxy_payloads f slot policy a port owner ifs).
Proof.
  eapply (shaped_intro _ _
    [("OUTPUT", mkRule [MComment owner] (TJump ("NH_OUT_" +:+ suffix slot)));
     ("PREROUTING", mkRule [MComment owner] (TJump ("NH_PRE_" +:+ suffix slot)))]);
    [base_lines|reflexivity|own_lines|reflexivity].
Qed.
Lemma ipv6_guard_shaped :
  shaped "filter" ["NH_V6G_" +:+ suffix slot; "NH_V6B_" +:+ suffix slot] (ipv6_guard_payloads slot policy owner).
Proof.
  eapply (shaped_intro _ _
    [("OUTPUT", mkRule [MComment owner] (TJump ("NH_V6G_" +:+ suffix slot)))]);
    [base_lines|reflexivity|own_lines|reflexivity]. destruct (_ =? 0); own_lines.
Qed.
Lemma forwarding_shaped ifs p :
  forwarding_payloads slot policy a ifs owner = Some p -> shaped "mangle" ["NH_FWD_" +:+ suffix slot] p.
Proof.
  unfold forwarding_payloads. destruct (inbound_port policy) as [port|]; simpl; [|done].
  intros [= <-]. eapply (shaped_intro _ _
    (map (fun i => ("PREROUTING", mkRule [MIn i; MComment owner]
                      (TJump ("NH_FWD_" +:+ suffix slot)))) ifs));
    [base_lines|rewrite map_map; reflexivity|own_lines|rewrite map_map; reflexivity].
Qed.
Lemma forwarding_ipv6_shaped ifs :
  shaped "filter" ["NH_FWD6_" +:+ suffix slot] (forwarding_ipv6_guard_payloads slot ifs owner).
Proof.
  eapply (shaped_intro _ _
    (map (fun i => ("FORWARD", mkRule [MIn i; MComment owner]
                      (TJump ("NH_FWD6_" +:+ suffix slot)))) ifs));
    [base_lines|rewrite map_map; reflexivity|own_lines|rewrite map_map; reflexivity].
Qed.
End shapes.

(** ** Every step of a plan can be undone *)
Lemma steps_if_undoes b l : Forall undoes l -> Forall undoes (steps_if b l).
Proof. by destruct b. Qed.

Lemma tproxy_steps_undo g slot policy a port ifs fwd t6 g6 steps :
  tproxy_steps g slot policy a port ifs fwd t6 g6 = Some steps -> Forall undoes steps.
Proof.
  unfold tproxy_steps, tproxy_forwarding_steps.
  destruct (if negb (len fwd =? 0) then _ else _) as [fs|] eqn:Ef; simpl; [|done].
  assert (Forall undoes fs) as Hfs.
  { destruct (len fwd =? 0); simpl in Ef; [injection Ef as <-; constructor|].
    destruct (forwarding_payloads _ _ _ _ _) as [p|] eqn:Ep; simpl in Ef; [|done].
    injection Ef as <-. repeat constructor; eapply shaped_undoes;
      [by eapply forwarding_shaped|apply forwarding_ipv6_shaped]. }
  intros [= <-]. change (cons ?x (cons ?y ?l)) with ([x; y] ++ l).
  repeat (apply Forall_app_2 || apply steps_if_undoes || apply policy_undoes || exact Hfs ||
          apply List.Forall_cons || apply Forall_nil_2 || eapply shaped_undoes ||
          apply ipv6_guard_shaped || apply tproxy_shaped || apply dns_guard_shaped).
Qed.

Lemma tun_steps_undo g slot policy a ifs p6 g6 :
  Forall undoes (tun_steps g slot policy a ifs p6 g6).
Proof.
  unfold tun_steps.
  repeat (apply Forall_app_2 || apply steps_if_undoes || apply policy_undoes ||
          apply List.Forall_cons || apply Forall_nil_2 || eapply shaped_undoes ||
          apply ipv6_guard_shaped || apply tun_shaped || apply dns_guard_shaped).
Qed.

(** A plan as one of the two planners returns it. *)
Definition planned (plan : NetworkPlan) : Prop :=
  exists g slot policy caps,
    build_tproxy g slot policy caps = Some (Ok plan) \/ build_tun g slot policy caps = Ok plan.

Lemma planned_undoes plan : planned plan -> Forall undoes (steps plan).
Proof.
  intros (g & slot & policy & caps & [H|H]).
  - unfold build_tproxy in H. destruct (tproxy_inputs _ _ _) as [i|]; [|done].
    destruct (tproxy_steps _ _ _ _ _ _ _ _ _) as [l|] eqn:E; simpl in H; [|done].
    injection H as <-. by eapply tproxy_steps_undo.
  - apply build_tun_inv in H as (a & ifs & fwd & _ & _ & _ & _ & _ & ->). apply tun_steps_undo.
Qed.
