(* ===== verification/Executor.v ===== *)
(** * Executor: applying a plan, and taking it back

    Models [NetworkExecutor] of crates/nethop-android/src/executor.rs: the command
    line of an operation, applying the steps in order with the rollback of what
    was done when one fails, and the resumable rollback of an applied plan.  The
    command backend is a class; its laws relate a command's outcome to the effect
    of Kernel, with failures and timeouts at any point. *)

From S2P Require Import Prelude Text Ordering Capture Generation Capability Interfaces Rules Plan Kernel.

Local Open Scope Z_scope.

Definition DEFAULT_COMMAND_TIMEOUT : Z := from_secs 5.
Definition DEFAULT_OUTPUT_LIMIT : Z := 64 * 1024.
Definition MAX_COMMAND_TIMEOUT : Z := from_secs 30.
Definition MAX_OUTPUT_LIMIT : Z := 1024 * 1024.

(** ** Commands *)
Inductive NetworkProgram : Type := IptablesRestore | Ip6tablesRestore | Ip.
Record CommandInvocation : Type := mkInvocation {
  program : NetworkProgram;
  arguments : list string;
  stdin : option string;
}.

Definition family_flag (family : IpFamily) : string :=
  match family with Ipv4 => "-4" | Ipv6 => "-6" end.
Definition action_name (action : MutationAction) : string :=
  match action with Add => "add" | Delete => "del" end.

Definition from_operation (operation : NetworkOperation) : CommandInvocation :=
  match operation with
  | Restore family payload =>
      mkInvocation (match family with Ipv4 => IptablesRestore | Ipv6 => Ip6tablesRestore end)
        ["--noflush"] (Some (payload_text payload))
  | PolicyRoute action family table device local =>
      let destination := match family with Ipv4 => "0.0.0.0/0" | Ipv6 => "::/0" end in
      mkInvocation Ip
        ([family_flag family; "route"; action_name action]
         ++ (if local then ["local"] else [])
         ++ [destination; "dev"; device; "table"; dec table]) None
  | PolicyRule action family mark mask table priority =>
      mkInvocation Ip
        [family_flag family; "rule"; action_name action; "priority"; dec priority; "fwmark";
         mark_mask mark mask; "lookup"; dec table] None
  end.

Record CommandOutput : Type := mkOutput { is_success : bool }.
Inductive CommandFailure : Type := Spawn | Timeout | Output | Absent.
#[export] Instance CommandFailure_eq_dec : EqDecision CommandFailure.
Proof. solve_decision. Defined.

(** [NetworkCommandBackend]. *)
Class NetworkCommandBackend (B : Type) : Type :=
  execute : CommandInvocation -> B -> Result CommandFailure CommandOutput * B.

Inductive ExecutionError : Type :=
| InvalidBackend
| ApplyFailed (step : nat)
| ApplyRollbackFailed (apply_step rollback_step : nat)
| RollbackFailed (step : nat)
| ReceiptMismatch.

Record SystemCommandLimits : Type := mkLimits {
  command_timeout : Z;
  output_bytes_per_stream : Z;
}.
Definition SystemCommandLimits_new (command_timeout output_bytes_per_stream : Z) :
    Result ExecutionError SystemCommandLimits :=
  if dur_is_zero command_timeout || (MAX_COMMAND_TIMEOUT <? command_timeout)
     || (output_bytes_per_stream =? 0) || (MAX_OUTPUT_LIMIT <? output_bytes_per_stream)
  then Err InvalidBackend
  else Ok (mkLimits command_timeout output_bytes_per_stream).
Definition SystemCommandLimits_default : SystemCommandLimits :=
  mkLimits DEFAULT_COMMAND_TIMEOUT DEFAULT_OUTPUT_LIMIT.

Record ApplyReceipt : Type := mkReceipt {
  rc_generation : Z;
  rc_slot : PlanSlot;
  completed_steps : nat;
}.

(** ** The executor

    [None] is the panic of indexing past the end of the steps. *)
Section executor.
Context {B : Type} `{NetworkCommandBackend B}.

Definition execute_rollback (steps : list PlanStep) (index : nat) (b : B) : option (bool * B) :=
  step ← steps !! index;
  match execute (from_operation (rollback step)) b with
  | (Ok output, b') => Some (is_success output, b')
  | (Err Absent, b') => Some (true, b')
  | (Err _, b') => Some (false, b')
  end.

(** [for index in (0..end_exclusive).rev()], remembering the first failure. *)
Fixpoint rollback_loop (steps : list PlanStep) (end_exclusive : nat)
    (first_failure : option nat) (b : B) : option (option nat * B) :=
  match end_exclusive with
  | O => Some (first_failure, b)
  | S index =>
      match execute_rollback steps index b with
      | None => None
      | Some (done, b') =>
          let first_failure :=
            match first_failure with
            | None => if done then None else Some index
            | some => some
            end in
          rollback_loop steps index first_failure b'
      end
  end.
Definition rollback_range (steps : list PlanStep) (end_exclusive : nat) (b : B) :
    option (Result nat unit * B) :=
  '(first_failure, b') ← rollback_loop steps end_exclusive None b;
  Some (match first_failure with None => Ok tt | Some index => Err index end, b').

Definition succeeded (r : Result CommandFailure CommandOutput) : bool :=
  match r with Ok output => is_success output | Err _ => false end.

(** The [for] over the steps that remain, from [index] on; [index] steps are
    completed. *)
Fixpoint apply_loop (steps remaining : list PlanStep) (index : nat) (b : B) :
    option (Result ExecutionError nat * B) :=
  match remaining with
  | [] => Some (Ok index, b)
  | step :: rest =>
      let '(result, b1) := execute (from_operation (apply step)) b in
      if negb (succeeded result) then
        '(rolled_back, b2) ← rollback_range steps (S index) b1;
        Some (Err (match rolled_back with
                   | Err rollback_step => ApplyRollbackFailed index rollback_step
                   | Ok _ => ApplyFailed index
                   end), b2)
      else apply_loop steps rest (S index) b1
  end.

Definition apply_steps (generation : Z) (slot : PlanSlot) (steps : list PlanStep) (b : B) :
    option (Result ExecutionError ApplyReceipt * B) :=
  '(r, b') ← apply_loop steps steps 0 b;
  Some (completed ← r; Ok (mkReceipt generation slot completed), b').

Definition NetworkExecutor_apply (plan : NetworkPlan) (b : B) :
    option (Result ExecutionError ApplyReceipt * B) :=
  apply_steps (generation plan) (slot plan) (steps plan) b.

(** [while receipt.completed_steps > 0], on the counter of the receipt. *)
Fixpoint rollback_while (steps : list PlanStep) (completed : nat) (b : B) :
    option (Result ExecutionError unit * nat * B) :=
  match completed with
  | O => Some (Ok tt, O, b)
  | S index =>
      match execute_rollback steps index b with
      | None => None
      | Some (done, b') =>
          if negb done then Some (Err (RollbackFailed index), completed, b')
          else rollback_while steps index b'
      end
  end.

Definition rollback_steps (generation : Z) (slot : PlanSlot) (steps : list PlanStep)
    (receipt : ApplyReceipt) (b : B) :
    option (Result ExecutionError unit * ApplyReceipt * B) :=
  if negb (rc_generation receipt =? generation)
     || negb (bool_decide (rc_slot receipt = slot))
  then Some (Err ReceiptMismatch, receipt, b)
  else
    '(r, completed, b') ← rollback_while steps (completed_steps receipt) b;
    Some (r, mkReceipt (rc_generation receipt) (rc_slot receipt) completed, b').

Definition NetworkExecutor_rollback (plan : NetworkPlan) (receipt : ApplyReceipt) (b : B) :
    option (Result ExecutionError unit * ApplyReceipt * B) :=
  rollback_steps (generation plan) (slot plan) (steps plan) receipt b.
End executor.

(** ** What a backend promises

    A command that reports success had its effect; one that reports its target
    absent had none, and could have none; any other failure (a rejection, a spawn
    error, a timeout that kills the tool) may have come before or after the
    effect. *)
Class BackendLaws (B : Type) `{NetworkCommandBackend B} (view : B -> View)
    (ops : list NetworkOperation) : Prop := {
  execute_success op b o b' : op ∈ ops ->
    execute (from_operation op) b = (Ok o, b') -> is_success o = true ->
    effect op (view b) = Some (view b');
  execute_absent op b b' : op ∈ ops ->
    execute (from_operation op) b = (Err Absent, b') ->
    effect op (view b) = None /\ view b' = view b;
  execute_failed op b r b' : op ∈ ops ->
    execute (from_operation op) b = (r, b') ->
    view b' = view b \/ effect op (view b) = Some (view b');
}.

(** The operations a list of steps may hand to the backend. *)
Definition step_ops (steps : list PlanStep) : list NetworkOperation :=
  (apply <$> steps) ++ (rollback <$> steps).

Lemma apply_in_ops steps k s : steps !! k = Some s -> apply s ∈ step_ops steps.
Proof.
  intros H. apply elem_of_app. left. apply list_elem_of_fmap_2. by eapply list_elem_of_lookup_2.
Qed.
Lemma rollback_in_ops steps k s : steps !! k = Some s -> rollback s ∈ step_ops steps.
Proof.
  intros H. apply elem_of_app. right. apply list_elem_of_fmap_2. by eapply list_elem_of_lookup_2.
Qed.

(** ** The states a plan goes through *)
Fixpoint effects (ops : list NetworkOperation) (v : View) : option View :=
  match ops with
  | [] => Some v
  | op :: rest => effect op v ≫= effects rest
  end.

(** The kernel holds nothing of the steps yet: each step's rollback would find its
    target absent at the point where the step is applied. *)
Fixpoint ready (steps : list PlanStep) (v : View) : Prop :=
  match steps with
  | [] => True
  | s :: rest =>
      effect (rollback s) v = None /\
      match effect (apply s) v with Some v' => ready rest v' | None => True end
  end.

(** After [k] steps. *)
Definition at_step (steps : list PlanStep) (v0 : View) (k : nat) : option View :=
  effects (apply <$> take k steps) v0.

Lemma effects_app l1 l2 v : effects (l1 ++ l2) v = effects l1 v ≫= effects l2.
Proof.
  revert v. induction l1 as [|op l1 IH]; intros v; simpl; [done|].
  destruct (effect op v); simpl; [apply IH|done].
Qed.

Section transaction.
Context {B : Type} `{NetworkCommandBackend B} (view : B -> View).
Context (steps : list PlanStep) (v0 : View) `{!BackendLaws B view (step_ops steps)}.
Context (Hu : Forall undoes steps) (Hc : closed v0) (Hr : ready steps v0).

Lemma at_step_S k s : steps !! k = Some s ->
  at_step steps v0 (S k) = at_step steps v0 k ≫= effect (apply s).
Proof.
  intros Hs. unfold at_step. rewrite (take_S_r _ _ s Hs), fmap_app, effects_app. simpl.
  destruct (effects _ v0) as [v|]; simpl; [|done]. by destruct (effect (apply s) v).
Qed.

Lemma effects_closed ops v v' : closed v -> effects ops v = Some v' -> closed v'.
Proof.
  revert v. induction ops as [|op ops IH]; intros v Hv; simpl; [by intros [= <-]|].
  destruct (effect op v) as [v1|] eqn:E; simpl; [|done]. apply IH. by eapply effect_closed.
Qed.

Lemma ready_effects l1 s l2 v v' : ready (l1 ++ s :: l2) v ->
  effects (apply <$> l1) v = Some v' -> effect (rollback s) v' = None.
Proof.
  revert v. induction l1 as [|x l1 IH]; intros v; simpl; [by intros [? _] [= <-]|].
  intros [_ Hrd]. destruct (effect (apply x) v) as [v1|]; simpl; [|done]. by apply IH.
Qed.

Lemma not_yet k s v : steps !! k = Some s -> at_step steps v0 k = Some v ->
  effect (rollback s) v = None.
Proof.
  intros Hs. unfold at_step. apply (ready_effects _ _ (drop (S k) steps)).
  by rewrite (take_drop_middle _ _ _ Hs).
Qed.

Lemma undo_at k s v v' : steps !! k = Some s -> at_step steps v0 k = Some v ->
  at_step steps v0 (S k) = Some v' -> effect (rollback s) v' = Some v.
Proof.
  intros Hs Hk Hk'. rewrite (at_step_S _ _ Hs), Hk in Hk'. simpl in Hk'.
  rewrite Forall_forall in Hu. eapply Hu; [by eapply list_elem_of_lookup_2| |done].
  by eapply effects_closed.
Qed.

(** What is known of the kernel while a receipt counts [k] steps: they are all in
    place, or the last one is not there (any more). *)
Definition held (k : nat) (b : B) : Prop :=
  at_step steps v0 k = Some (view b) \/
  exists j, k = S j /\ at_step steps v0 j = Some (view b).

Lemma held_last k b s : steps !! k = Some s -> held (S k) b ->
  (exists u, at_step steps v0 k = Some u /\ at_step steps v0 (S k) = Some (view b) /\
     effect (rollback s) (view b) = Some u) \/
  (at_step steps v0 k = Some (view b) /\ effect (rollback s) (view b) = None).
Proof.
  intros Hs [Hh|(j & [= <-] & Hh)].
  - left. pose proof Hh as Hh'. rewrite (at_step_S _ _ Hs) in Hh'.
    destruct (at_step steps v0 k) as [u|] eqn:Hk; [|done]. exists u. split_and!; [done|done|].
    by eapply undo_at.
  - right. split; [done|]. by eapply not_yet.
Qed.

Lemma rollback_one k b : (k < length steps)%nat -> held (S k) b ->
  exists done b', execute_rollback steps k b = Some (done, b') /\
    if done then at_step steps v0 k = Some (view b') else held (S k) b'.
Proof.
  intros Hk Hh. destruct (lookup_lt_is_Some_2 _ _ Hk) as [s Hs].
  unfold execute_rollback. rewrite Hs. simpl. pose proof (held_last _ _ _ Hs Hh) as Hb.
  pose proof (rollback_in_ops _ _ _ Hs) as Hop.
  assert (forall r b', execute (from_operation (rollback s)) b = (r, b') -> held (S k) b') as Hf.
  { intros r b' He. unfold held. apply (execute_failed _ _ _ _ Hop) in He as [He|He].
    - by rewrite He.
    - right. exists k. split; [done|]. destruct Hb as [(u & ? & _ & Eb)|[_ Eb]]; congruence. }
  destruct (execute (from_operation (rollback s)) b) as [[o|e] b'] eqn:He.
  - exists (is_success o), b'. split; [done|]. destruct (is_success o) eqn:Eo; [|by eapply Hf].
    pose proof (execute_success _ _ _ _ Hop He Eo). destruct Hb as [(u & ? & _ & Eb)|[_ Eb]]; congruence.
  - destruct (decide (e = Absent)) as [->|Hne].
    + exists true, b'. split; [done|]. destruct (execute_absent _ _ _ Hop He) as [Hx Hv].
      destruct Hb as [(u & ? & _ & Eb)|[Hk' _]]; congruence.
    + exists false, b'. split; [by destruct e|]. by eapply Hf.
Qed.

Lemma rollback_while_total k b : (k <= length steps)%nat -> held k b ->
  exists r k' b', rollback_while steps k b = Some (r, k', b') /\ (k' <= k)%nat /\ held k' b' /\
    match r with
    | Ok _ => k' = O /\ view b' = v0
    | Err e => exists j, k' = S j /\ e = RollbackFailed j
    end.
Proof.
  revert b. induction k as [|k IH]; intros b Hk Hh; simpl.
  - exists (Ok tt), O, b. repeat split; [lia|done|]. destruct Hh as [Hh|(j & ? & _)]; [|done].
    by injection Hh as ->.
  - destruct (rollback_one k b) as (d & b' & -> & Hd); [lia|done|]. destruct d; simpl.
    + destruct (IH b') as (r & k' & b2 & -> & Hle & Hh' & Hres); [lia|by left|].
      exists r, k', b2. repeat split; [lia|done|done].
    + exists (Err (RollbackFailed k)), (S k), b'. repeat split; [lia|done|]. eauto.
Qed.

Lemma rollback_loop_total k ff b : (k <= length steps)%nat ->
  (ff = None -> held k b) ->
  exists ff' b', rollback_loop steps k ff b = Some (ff', b') /\ (ff' = None -> view b' = v0).
Proof.
  revert ff b. induction k as [|k IH]; intros ff b Hk Hh; simpl.
  - exists ff, b. split; [done|]. intros E. destruct (Hh E) as [Hx|(j & ? & _)]; [|done].
    by injection Hx as ->.
  - destruct ff as [i|].
    + assert (exists d b', execute_rollback steps k b = Some (d, b')) as (d & b' & ->).
      { destruct (lookup_lt_is_Some_2 steps k ltac:(lia)) as [s Hs]. unfold execute_rollback.
        rewrite Hs. simpl. destruct (execute _ b) as [[o|[]] b']; eauto. }
      by apply IH; [lia|].
    + destruct (rollback_one k b) as (d & b' & -> & Hd); [lia|by apply Hh|].
      apply IH; [lia|]. destruct d; [|done]. intros _. by left.
Qed.

Lemma apply_loop_total pre rem b : steps = pre ++ rem ->
  at_step steps v0 (length pre) = Some (view b) ->
  exists r b', apply_loop steps rem (length pre) b = Some (r, b') /\
    match r with
    | Ok n => n = length steps /\ at_step steps v0 n = Some (view b')
    | Err (ApplyFailed _) => view b' = v0
    | Err (ApplyRollbackFailed _ _) => True
    | Err _ => False
    end.
Proof.
  revert pre b. induction rem as [|s rem IH]; intros pre b E Hb; cbn [apply_loop].
  { exists (Ok (length pre)), b. rewrite E, app_nil_r in *. done. }
  assert (steps !! length pre = Some s) as Hs by (rewrite E; by apply list_lookup_middle).
  destruct (execute (from_operation (apply s)) b) as [r b1] eqn:He.
  pose proof (apply_in_ops _ _ _ Hs) as Hop.
  assert (at_step steps v0 (S (length pre)) = effect (apply s) (view b)) as Hstep
    by (by rewrite (at_step_S _ _ Hs), Hb).
  destruct (succeeded r) eqn:Er; cbn [negb].
  - destruct r as [o|]; [|done]. pose proof (execute_success _ _ _ _ Hop He Er) as Hx.
    rewrite <- (last_length pre s). apply IH; [by rewrite <- app_assoc|].
    by rewrite last_length, Hstep.
  - destruct (rollback_loop_total (S (length pre)) None b1) as (ff & b2 & Hl & Hv).
    + rewrite E, length_app. simpl. lia.
    + intros _. apply (execute_failed _ _ _ _ Hop) in He as [Heq|Hx]; [right|left; by rewrite Hstep].
      exists (length pre). by rewrite Heq.
    + unfold rollback_range. rewrite Hl. simpl. do 2 eexists. split; [reflexivity|].
      destruct ff; [done|]. by apply Hv.
Qed.
End transaction.

(** ** Properties *)
Section properties.
Context {B : Type} `{NetworkCommandBackend B} (view : B -> View).
Context (plan : NetworkPlan) `{!BackendLaws B view (step_ops (steps plan))}.

(** What a receipt says of the kernel: it belongs to the plan, and the steps it
    counts are in place on top of [v0], except perhaps the last. *)
Definition receipt_held (v0 : View) (receipt : ApplyReceipt) (b : B) : Prop :=
  rc_generation receipt = generation plan /\ rc_slot receipt = slot plan /\
  (completed_steps receipt <= length (steps plan))%nat /\
  held view (steps plan) v0 (completed_steps receipt) b.

Lemma apply_transaction b :
  planned plan -> closed (view b) -> ready (steps plan) (view b) ->
  exists r b', NetworkExecutor_apply plan b = Some (r, b') /\
    match r with
    | Ok receipt =>
        completed_steps receipt = length (steps plan) /\
        effects (apply <$> steps plan) (view b) = Some (view b') /\
        receipt_held (view b) receipt b'
    | Err (ApplyFailed _) => view b' = view b
    | Err (ApplyRollbackFailed _ _) => True
    | Err _ => False
    end.
Proof.
  intros Hp Hc Hr. apply planned_undoes in Hp.
  destruct (apply_loop_total view (steps plan) (view b) Hp Hc Hr [] (steps plan) b eq_refl eq_refl)
    as (r & b' & E & Hres).
  unfold NetworkExecutor_apply, apply_steps. simpl in E. rewrite E. simpl.
  do 2 eexists. split; [reflexivity|]. destruct r as [n|e]; [|done]. simpl.
  destruct Hres as [-> Hn]. unfold at_step in Hn. rewrite firstn_all in Hn.
  split_and!; [done|done|]. repeat split; simpl; [lia|]. left. unfold at_step.
  by rewrite firstn_all.
Qed.

Lemma rollback_resumes v0 receipt b :
  planned plan -> closed v0 -> ready (steps plan) v0 -> receipt_held v0 receipt b ->
  exists r receipt' b', NetworkExecutor_rollback plan receipt b = Some (r, receipt', b') /\
    receipt_held v0 receipt' b' /\
    (completed_steps receipt' <= completed_steps receipt)%nat /\
    match r with
    | Ok _ => completed_steps receipt' = 0%nat /\ view b' = v0
    | Err e => exists j, completed_steps receipt' = S j /\ e = RollbackFailed j
    end.
Proof.
  intros Hp Hc Hr (Hg & Hs & Hle & Hh). apply planned_undoes in Hp.
  destruct (rollback_while_total view (steps plan) v0 Hp Hc Hr _ b Hle Hh)
    as (r & k' & b' & E & Hk & Hh' & Hres).
  unfold NetworkExecutor_rollback, rollback_steps. rewrite Hg, Hs, Z.eqb_refl.
  rewrite bool_decide_eq_true_2 by done. simpl. rewrite E. simpl.
  do 3 eexists. split; [reflexivity|]. split_and!; [|done|done].
  repeat split; simpl; [lia|done].
Qed.
(** C2: applying a plan is a transaction.  On a kernel that holds nothing of the
    plan, whatever commands fail or time out, the executor never panics; when it
    returns a receipt, the receipt is the plan's and every step's effect is in
    place in order; when it reports [ApplyFailed], every rollback was
    acknowledged and the kernel is exactly as before; only
    [ApplyRollbackFailed] leaves something behind. *)
Theorem executor_apply_transactional b :
  planned plan -> closed (view b) -> ready (steps plan) (view b) ->
  exists r b', NetworkExecutor_apply plan b = Some (r, b') /\
    match r with
    | Ok receipt =>
        completed_steps receipt = length (steps plan) /\
        effects (apply <$> steps plan) (view b) = Some (view b') /\
        receipt_held (view b) receipt b'
    | Err (ApplyFailed _) => view b' = view b
    | Err (ApplyRollbackFailed _ _) => True
    | Err _ => False
    end.
Proof. apply apply_transaction. Qed.

(** Rollback is resumable and exact.  From a receipt that holds, each attempt
    returns without panic and leaves a receipt that holds again, whatever
    commands fail; a failed attempt names the step it stopped at, and the first
    attempt that succeeds leaves the receipt empty and the kernel exactly as it
    was before the plan was applied. *)
Theorem executor_rollback_resumable v0 receipt b :
  planned plan -> closed v0 -> ready (steps plan) v0 -> receipt_held v0 receipt b ->
  exists r receipt' b', NetworkExecutor_rollback plan receipt b = Some (r, receipt', b') /\
    receipt_held v0 receipt' b' /\
    (completed_steps receipt' <= completed_steps receipt)%nat /\
    match r with
    | Ok _ => completed_steps receipt' = 0%nat /\ view b' = v0
    | Err e => exists j, completed_steps receipt' = S j /\ e = RollbackFailed j
    end.
Proof. apply rollback_resumes. Qed.
End properties.

(** ** A backend that satisfies the laws

    It knows the operations of one plan by their command lines, fails the commands
    its schedule says, and otherwise has their effect. *)
Module DemoBackend.
#[global] Instance NetworkProgram_eq_dec : EqDecision NetworkProgram.
Proof. solve_decision. Defined.
#[global] Instance CommandInvocation_eq_dec : EqDecision CommandInvocation.
Proof. solve_decision. Defined.

Record Kernel : Type := mkKernel { k_view : View; k_faults : list bool }.
Definition plan : NetworkPlan := DemoPlan.tun_plan.
Definition ops : list NetworkOperation := step_ops (steps plan).

Fixpoint known (l : list NetworkOperation) (i : CommandInvocation) : option NetworkOperation :=
  match l with
  | [] => None
  | op :: rest => if decide (from_operation op = i) then Some op else known rest i
  end.

Definition run (i : CommandInvocation) (b : Kernel) : Result CommandFailure CommandOutput * Kernel :=
  let b' v := mkKernel v (tail (k_faults b)) in
  match known ops i with
  | None => (Ok (mkOutput false), b' (k_view b))
  | Some op =>
      match k_faults b, effect op (k_view b) with
      | true :: _, _ => (Err Timeout, b' (k_view b))
      | _, Some v => (Ok (mkOutput true), b' v)
      | _, None => (Err Absent, b' (k_view b))
      end
  end.
#[global] Instance backend : NetworkCommandBackend Kernel := run.

Lemma known_op l op : NoDup (from_operation <$> l) -> op ∈ l ->
  known l (from_operation op) = Some op.
Proof.
  induction l as [|x l IH]; [by intros _ ?%not_elem_of_nil|]. rewrite fmap_cons, NoDup_cons.
  intros [Hx Hnd] [->|Hin]%elem_of_cons; simpl; [by rewrite decide_True|].
  rewrite decide_False; [by apply IH|]. intros E. apply Hx. rewrite E. by apply list_elem_of_fmap_2.
Qed.
Lemma ops_distinct : NoDup (from_operation <$> ops).
Proof. refine (bool_decide_unpack _ _). vm_compute. exact I. Qed.

#[global] Instance laws : BackendLaws Kernel k_view ops.
Proof.
  split; intros op b; intros; unfold execute, backend, run in *;
    rewrite known_op in * by (done || apply ops_distinct);
    destruct (k_faults b) as [|[] f]; destruct (effect op (k_view b)); naive_solver.
Qed.

Definition empty_table : gmap string (list Rule) :=
  <["OUTPUT" := []]> (<["PREROUTING" := []]> (<["FORWARD" := []]> ∅)).
Definition device : View :=
  mkView (<[(Ipv4, "mangle") := empty_table]> (<[(Ipv4, "filter") := empty_table]>
         (<[(Ipv6, "mangle") := empty_table]> (<[(Ipv6, "filter") := empty_table]> ∅)))) ∅ ∅.

Lemma device_closed : closed device.
Proof.
  assert (table_closed empty_table) as He.
  { intros c rs r H Hr. unfold empty_table in H.
    repeat (apply lookup_insert_Some in H as [[_ <-]|[_ H]]; [by apply not_elem_of_nil in Hr|]).
    by rewrite lookup_empty in H. }
  unfold closed, device. simpl. repeat apply map_Forall_insert_2; try exact He. apply map_Forall_empty.
Qed.
Lemma device_ready : ready (steps plan) device.
Proof. vm_compute. repeat split. Qed.
Lemma plan_planned : planned plan.
Proof. exists 7, SlotA, DemoPlan.tun_policy, DemoPlan.report. right. reflexivity. Qed.

Definition after_apply (faults : list bool) : option (Result ExecutionError ApplyReceipt * Kernel) :=
  NetworkExecutor_apply plan (mkKernel device faults).

(** The plan applied, and the next command about to time out. *)
Definition applied : Kernel :=
  match after_apply (repeat false 8 ++ [true]) with
  | Some (_, b) => b
  | None => mkKernel device []
  end.
Definition receipt : ApplyReceipt := mkReceipt 7 SlotA 8.
Lemma applied_ok : after_apply (repeat false 8 ++ [true]) = Some (Ok receipt, applied).
Proof. vm_compute. reflexivity. Qed.
Lemma applied_held : at_step (steps plan) device 8 = Some (k_view applied).
Proof. vm_compute. reflexivity. Qed.
Lemma applied_rollback :
  fst <$> NetworkExecutor_rollback plan receipt applied = Some (Err (RollbackFailed 7), receipt).
Proof. vm_compute. reflexivity. Qed.
End DemoBackend.

(** The third command times out: what was done is taken back. *)
Lemma executor_apply_transactional_witness :
  exists b', NetworkExecutor_apply DemoBackend.plan
      (DemoBackend.mkKernel DemoBackend.device [false; false; true]) = Some (Err (ApplyFailed 2), b')
    /\ DemoBackend.k_view b' = DemoBackend.device.
Proof.
  destruct (executor_apply_transactional DemoBackend.k_view DemoBackend.plan
    (DemoBackend.mkKernel DemoBackend.device [false; false; true])
    DemoBackend.plan_planned DemoBackend.device_closed DemoBackend.device_ready)
    as (r & b' & E & Hr).
  assert (r = Err (ApplyFailed 2)) as ->.
  { assert (fst <$> Some (r, b') = Some (Err (ApplyFailed 2))) as H by (rewrite <- E; vm_compute; reflexivity).
    injection H as H. exact H. }
  exists b'. split; [exact E|exact Hr].
Defined.

(** The first attempt to take the applied plan back stops at its last step. *)
Lemma executor_rollback_resumable_witness :
  exists receipt' b', NetworkExecutor_rollback DemoBackend.plan DemoBackend.receipt
    DemoBackend.applied = Some (Err (RollbackFailed 7), receipt', b') /\
    completed_steps receipt' = 8%nat.
Proof.
  destruct (executor_rollback_resumable DemoBackend.k_view DemoBackend.plan DemoBackend.device
    DemoBackend.receipt DemoBackend.applied DemoBackend.plan_planned DemoBackend.device_closed
    DemoBackend.device_ready) as (r & receipt' & b' & E & _ & _ & Hr).
  { repeat split; [apply Nat.leb_le; reflexivity|]. left. exact DemoBackend.applied_held. }
  pose proof DemoBackend.applied_rollback as Er. rewrite E in Er. injection Er as -> _.
  destruct Hr as (j & Hj & [= <-]). exists receipt', b'. split; [exact E|exact Hj].
Defined.
