(* ===== verification/Probe.v ===== *)
(** * Probe: what the device can do, read from its tools

    Models [CapabilityProbe] of crates/nethop-android/src/capability.rs: the commands
    it runs, the readers of their output, and the report it builds; and
    [CommandUpdateNotifier] of notification.rs, which shares its backend.  The tools
    are reached through the interface [ProbeBackend].

    The main result is about the whole chain of probe, planner and executor: with
    tools that print what their manuals say, a plan that was built from a probed
    report finds the kernel free of what it installs, so that applying it succeeds or
    leaves the kernel as the probe found it. *)

From S2P Require Import Prelude Text Ordering Capture Capability Interfaces Rules Plan Kernel Executor.

Local Open Scope Z_scope.

Inductive NetfilterTable : Type := FilterTable | MangleTable.
Definition table_str (t : NetfilterTable) : string :=
  match t with FilterTable => "filter" | MangleTable => "mangle" end.

Inductive PackageListKind : Type := AllPackages | SystemPackages | UserPackages.
Inductive ProbeCommand : Type :=
| AndroidRelease
| AndroidAbi
| EffectiveUid
| SelinuxMode
| NetfilterVersion (family : IpFamily)
| NetfilterSnapshot (family : IpFamily) (table : NetfilterTable)
| NetfilterRestoreHelp (family : IpFamily)
| TproxyHelp (family : IpFamily)
| MarkHelp (family : IpFamily)
| ConntrackHelp (family : IpFamily)
| OwnerHelp (family : IpFamily)
| SocketHelp (family : IpFamily)
| PolicyRules (family : IpFamily)
| RouteTable (family : IpFamily) (table : Z)
| Addresses (family : IpFamily)
| Links
| ListeningSockets
| PrivateDnsMode
| WifiStatus
| CoreUpdateNotification
| TunDevice
| UserList
| PackageList (kind : PackageListKind) (android_user_id : Z).

Record ProbeOutput : Type := mkProbeOutput {
  success : bool;
  stdout : list Z;
  stderr : list Z;
}.
(** [ProbeBackend::run] *)
Class ProbeBackend (B : Type) : Type :=
  probe_run : ProbeCommand -> Mut B CapabilityError ProbeOutput.

Definition DEFAULT_PROBE_TIMEOUT : Z := from_secs 2.
Definition DEFAULT_PROBE_OUTPUT : Z := 64 * 1024.
Definition MAX_PROBE_TIMEOUT : Z := from_secs 10.
Definition MAX_PROBE_OUTPUT : Z := 1024 * 1024.
Record ProbeLimits : Type := mkProbeLimits {
  probe_timeout : Z;
  probe_output_bytes : Z;
}.
Definition ProbeLimits_new (command_timeout output_bytes : Z) : Result CapabilityError ProbeLimits :=
  if dur_is_zero command_timeout || (MAX_PROBE_TIMEOUT <? command_timeout)
     || (output_bytes =? 0) || (MAX_PROBE_OUTPUT <? output_bytes)
  then Err InvalidPolicy
  else Ok (mkProbeLimits command_timeout output_bytes).
Definition ProbeLimits_default : ProbeLimits := mkProbeLimits DEFAULT_PROBE_TIMEOUT DEFAULT_PROBE_OUTPUT.

(** ** The command lines *)
Record AndroidToolPaths : Type := mkToolPaths {
  getprop : string;
  id_tool : string;
  getenforce : string;
  iptables : string;
  ip6tables : string;
  iptables_save : string;
  ip6tables_save : string;
  iptables_restore : string;
  ip6tables_restore : string;
  ip : string;
  ss : string;
  tun_path : string;
  cmd : string;
  settings : string;
}.

Definition CORE_UPDATE_NOTIFICATION_TAG : string := "nethop-core-update".
Definition core_update_notification_arguments : list string :=
  ["notification"; "post"; "-S"; "bigtext"; "-t"; "NetHop update available";
   CORE_UPDATE_NOTIFICATION_TAG;
   "A newer stable sing-box core is available. Update NetHop to use it."].

Definition probe_family_flag (family : IpFamily) : string :=
  match family with Ipv4 => "-4" | Ipv6 => "-6" end.
Definition netfilter_tool (tools : AndroidToolPaths) (family : IpFamily) : string :=
  match family with Ipv4 => iptables tools | Ipv6 => ip6tables tools end.
Definition netfilter_save (tools : AndroidToolPaths) (family : IpFamily) : string :=
  match family with Ipv4 => iptables_save tools | Ipv6 => ip6tables_save tools end.
Definition netfilter_restore (tools : AndroidToolPaths) (family : IpFamily) : string :=
  match family with Ipv4 => iptables_restore tools | Ipv6 => ip6tables_restore tools end.

Definition package_arguments (kind : PackageListKind) (android_user_id : Z) : list string :=
  ["package"; "list"; "packages"; "-U"]
  ++ match kind with AllPackages => [] | SystemPackages => ["-s"] | UserPackages => ["-3"] end
  ++ ["--user"; dec android_user_id].

(** [None]: the [unreachable!] for the one command that runs no tool. *)
Definition command_spec (tools : AndroidToolPaths) (command : ProbeCommand) : option (string * list string) :=
  match command with
  | AndroidRelease => Some (getprop tools, ["ro.build.version.release"])
  | AndroidAbi => Some (getprop tools, ["ro.product.cpu.abi"])
  | EffectiveUid => Some (id_tool tools, ["-u"])
  | SelinuxMode => Some (getenforce tools, [])
  | NetfilterVersion family => Some (netfilter_tool tools family, ["--version"])
  | NetfilterSnapshot family table => Some (netfilter_save tools family, ["-t"; table_str table])
  | NetfilterRestoreHelp family => Some (netfilter_restore tools family, ["--help"])
  | TproxyHelp family => Some (netfilter_tool tools family, ["-j"; "TPROXY"; "-h"])
  | MarkHelp family => Some (netfilter_tool tools family, ["-j"; "MARK"; "-h"])
  | ConntrackHelp family => Some (netfilter_tool tools family, ["-m"; "conntrack"; "-h"])
  | OwnerHelp family => Some (netfilter_tool tools family, ["-m"; "owner"; "-h"])
  | SocketHelp family => Some (netfilter_tool tools family, ["-m"; "socket"; "-h"])
  | PolicyRules family => Some (ip tools, [probe_family_flag family; "rule"; "show"])
  | RouteTable family table =>
      Some (ip tools, [probe_family_flag family; "route"; "show"; "table"; dec table])
  | Addresses family => Some (ip tools, [probe_family_flag family; "address"; "show"])
  | Links => Some (ip tools, ["link"; "show"])
  | ListeningSockets => Some (ss tools, ["-H"; "-lntu"])
  | PrivateDnsMode => Some (settings tools, ["get"; "global"; "private_dns_mode"])
  | WifiStatus => Some (cmd tools, ["wifi"; "status"])
  | CoreUpdateNotification => Some (cmd tools, core_update_notification_arguments)
  | UserList => Some (cmd tools, ["user"; "list"])
  | PackageList kind android_user_id => Some (cmd tools, package_arguments kind android_user_id)
  | TunDevice => None
  end.

(** ** Reading the output *)
Definition is_denied (value : list Z) : bool :=
  let value := to_ascii_lowercase <$> value in
  contains_str (bytes "permission denied") value
  || contains_str (bytes "operation not permitted") value
  || contains_str (bytes "avc: denied") value.
Definition classify_failure (output : ProbeOutput) : CapabilityStatus :=
  if is_denied (stderr output) then Denied else Unsupported.
Definition success_status (output : ProbeOutput) : CapabilityStatus :=
  if success output then Supported else classify_failure output.

Definition address_status (output : ProbeOutput) (family : IpFamily) : CapabilityStatus :=
  if negb (success output) then classify_failure output
  else
    let marker := bytes (match family with Ipv4 => "inet " | Ipv6 => "inet6 " end) in
    if existsb (contains_str marker) (lines (stdout output)) then Supported else NotPresent.

(** [value.trim().chars().filter(..).take(64)]: the characters kept are ASCII. *)
Definition bounded_label (value : list Z) : string :=
  of_bytes (take 64 (filter (fun b => is_ascii_alphanumeric b || (b =? 45) || (b =? 95) = true)
                       (trim_text value))).

Definition is_owned_token (token : list Z) : bool := has_prefix (bytes "NH_") (trim_start_matches 58 token).
Definition contains_owned_chain (snapshot : list Z) : bool :=
  existsb (fun line => existsb is_owned_token (split_ascii_whitespace line)) (lines snapshot).

Definition socket_output_contains_port (output : list Z) (port : Z) : bool :=
  let needle := bytes (":" +:+ dec port) in
  existsb (fun token => has_suffix needle token || contains_str (needle ++ [32]) token)
    (split_ascii_whitespace output).

Definition parse_u32 (value : list Z) : option Z :=
  match strip_prefix (bytes "0x") value with
  | Some hex => parse_hex_u32 hex
  | None => parse_uint 32 value
  end.
Definition parse_mark_mask (value : list Z) : option (Z * Z) :=
  let (mark, mask) := default (value, bytes "0xffffffff") (split_once 47 value) in
  mark ← parse_u32 mark;
  mask ← parse_u32 mask;
  Some (mark, mask).

(** The number before the colon of the first word of a policy rule. *)
Definition rule_priority_of (tokens : list (list Z)) : option Z :=
  token ← head tokens;
  value ← strip_suffix [58] token;
  parse_uint 32 value.
(** [tokens.windows(2).find(|pair| pair\[0\] == word)] and the second word of it. *)
Definition word_after (word : list Z) (tokens : list (list Z)) : option (list Z) :=
  pair ← find (fun pair => bool_decide (head pair = Some word)) (windows 2 tokens);
  pair !! 1%nat.
Definition names_table (table : Z) (tokens : list (list Z)) : bool :=
  existsb (fun pair =>
    match pair with
    | [word; value] =>
        (bool_decide (word = bytes "lookup") || bool_decide (word = bytes "table"))
        && bool_decide (parse_uint 32 value = Some table)
    | _ => false
    end) (windows 2 tokens).

Definition rule_conflicts (line : list Z) (c : ResourceCandidate) : bool :=
  let tokens := split_ascii_whitespace line in
  let priority_conflict := bool_decide (rule_priority_of tokens = Some (rule_priority c)) in
  let mark_conflict :=
    match word_after (bytes "fwmark") tokens ≫= parse_mark_mask with
    | Some (mark, mask) =>
        let common := Z.land mask (Capability.mask c) in
        Z.land mark common =? Z.land (Capability.mark c) common
    | None => false
    end in
  priority_conflict || names_table (route_table c) tokens || mark_conflict.
Definition rules_conflict (rules : list Z) (c : ResourceCandidate) : bool :=
  existsb (fun line => rule_conflicts line c) (lines rules).

(** [line.splitn(3, ':')]: the name and the state of a link, empty when absent. *)
Definition link_fields (line : list Z) : list Z * list Z :=
  match split_once 58 line with
  | None => ([], [])
  | Some (_, rest) =>
      match split_once 58 rest with
      | None => (trim_text rest, [])
      | Some (name, state) => (trim_text name, state)
      end
  end.
Definition has_flag (flag : list Z) (state : list Z) : bool :=
  match split_once 60 state ≫= (fun p => split_once 62 p.2) with
  | Some (flags, _) => existsb (fun f => bool_decide (f = flag)) (split_on 44 flags)
  | None => false
  end.
Definition links_output_has_active_tunnel (output : list Z) : bool :=
  existsb (fun line =>
    let (name, state) := link_fields line in
    (has_prefix (bytes "tun") name || has_prefix (bytes "wg") name || has_prefix (bytes "ppp") name)
    && has_flag (bytes "UP") state) (lines output).

(** The interfaces of [ip link show], as a set; the [continue]s skip a line. *)
Definition link_name (line : list Z) : option (list Z) :=
  '(index, remainder) ← split_once 58 line;
  _ ← parse_uint 32 (trim_text index);
  '(label, _) ← split_once 58 remainder;
  let label := trim_text label in
  Some (match split_once 64 label with Some (name, _) => name | None => label end).
Fixpoint link_loop (ls : list (list Z)) (names : list string) : Result CapabilityError (list string) :=
  match ls with
  | [] => Ok (sort names)
  | line :: rest =>
      match link_name line with
      | None => link_loop rest names
      | Some name =>
          let name := of_bytes name in
          if negb (valid_interface_name name) then Err InvalidPolicy
          else
            let names := if decide (name ∈ names) then names else name :: names in
            if MAX_NETWORK_INTERFACES <? len names then Err InvalidPolicy
            else link_loop rest names
      end
  end.
Definition parse_link_interfaces (output : list Z) : Result CapabilityError (list string) :=
  link_loop (lines output) [].

(** ** [CapabilityProbe] *)
Record CapabilityProbe (B : Type) : Type := mkCapabilityProbe {
  probe_backend : B;
  candidates : list ResourceCandidate;
  probe_port : Z;
}.
Arguments mkCapabilityProbe {B}.
Arguments probe_backend {B}.
Arguments candidates {B}.
Arguments probe_port {B}.

#[export] Instance ResourceCandidate_eq_dec : EqDecision ResourceCandidate.
Proof. solve_decision. Defined.
#[export] Program Instance ResourceCandidate_countable : Countable ResourceCandidate := {|
  encode c := encode (mark c, mask c, route_table c, rule_priority c);
  decode n := (fun p : Z * Z * Z * Z => mkCandidate p.1.1.1 p.1.1.2 p.1.2 p.2) <$> decode n |}.
Next Obligation. intros []. by rewrite decode_encode. Qed.

Definition policy_refused (candidates : list ResourceCandidate) (inbound_port : Z) : bool :=
  (len candidates =? 0) || (16 <? len candidates) || (inbound_port =? 0)
  || negb (all_distinct candidates).
Definition CapabilityProbe_new {B} (backend : B) (candidates : list ResourceCandidate) (inbound_port : Z) :
    Result CapabilityError (CapabilityProbe B) :=
  if policy_refused candidates inbound_port then Err InvalidPolicy
  else Ok (mkCapabilityProbe backend candidates inbound_port).
Definition replace_policy {B} (candidates : list ResourceCandidate) (inbound_port : Z) :
    Mut (CapabilityProbe B) CapabilityError unit :=
  fun self =>
    if policy_refused candidates inbound_port then (Err InvalidPolicy, self)
    else (Ok tt, mkCapabilityProbe (probe_backend self) candidates inbound_port).

Section probe.
Context {B : Type} `{!ProbeBackend B}.

Definition namespace_status (mangle filter : ProbeOutput) : CapabilityStatus :=
  if existsb (fun s => success s && contains_owned_chain (stdout s)) [mangle; filter] then Conflict
  else if success mangle && success filter then Supported
  else if negb (success mangle) then classify_failure mangle
  else classify_failure filter.

Definition probe_family (family : IpFamily) (version : ProbeOutput) :
    Mut B CapabilityError FamilyCapability :=
  address ← probe_run (Addresses family);
  mangle_snapshot ← probe_run (NetfilterSnapshot family MangleTable);
  filter_snapshot ← probe_run (NetfilterSnapshot family FilterTable);
  restore ← probe_run (NetfilterRestoreHelp family);
  tproxy ← probe_run (TproxyHelp family);
  mark ← probe_run (MarkHelp family);
  conntrack ← probe_run (ConntrackHelp family);
  owner ← probe_run (OwnerHelp family);
  socket ← probe_run (SocketHelp family);
  rules ← probe_run (PolicyRules family);
  mret (mkFamily family (address_status address family) (success_status version)
          (success_status restore) (success_status tproxy) (success_status mark)
          (success_status conntrack) (success_status owner) (success_status socket)
          (success_status rules) (namespace_status mangle_snapshot filter_snapshot)).

Definition allocation_status (c : ResourceCandidate) (rules4 rules6 route4 route6 : ProbeOutput) :
    CapabilityStatus :=
  let conflict := rules_conflict (stdout rules4) c || rules_conflict (stdout rules6) c
    || negb (len (trim_text (stdout route4)) =? 0) || negb (len (trim_text (stdout route6)) =? 0) in
  let denied := existsb is_denied [stderr rules4; stderr rules6; stderr route4; stderr route6] in
  if denied then Denied
  else if conflict then Conflict
  else if success rules4 && success rules6 && success route4 && success route6 then Supported
  else Unsupported.
Definition probe_allocation (rules4 rules6 : ProbeOutput) (c : ResourceCandidate) :
    Mut B CapabilityError AllocationCapability :=
  route4 ← probe_run (RouteTable Ipv4 (route_table c));
  route6 ← probe_run (RouteTable Ipv6 (route_table c));
  mret (mkAllocation c (allocation_status c rules4 rules6 route4 route6)).
Fixpoint allocation_loop (rules4 rules6 : ProbeOutput) (cs : list ResourceCandidate) :
    Mut B CapabilityError (list AllocationCapability) :=
  match cs with
  | [] => mret []
  | c :: rest =>
      a ← probe_allocation rules4 rules6 c;
      others ← allocation_loop rules4 rules6 rest;
      mret (a :: others)
  end.
Definition probe_allocations (candidates : list ResourceCandidate) :
    Mut B CapabilityError (list AllocationCapability) :=
  rules4 ← probe_run (PolicyRules Ipv4);
  rules6 ← probe_run (PolicyRules Ipv6);
  allocation_loop rules4 rules6 candidates.

Definition backend_kind (version4 version6 : list Z) : NetfilterBackend :=
  let versions := to_ascii_lowercase <$> (version4 ++ [32] ++ version6) in
  if contains_str (bytes "nf_tables") versions || contains_str (bytes "nft") versions then NftWrapper
  else if contains_str (bytes "legacy") versions then Legacy
  else UnknownBackend.

Definition probe_report (candidates : list ResourceCandidate) (inbound_port : Z) :
    Mut B CapabilityError CapabilityReport :=
  release ← probe_run AndroidRelease;
  abi ← probe_run AndroidAbi;
  uid ← probe_run EffectiveUid;
  selinux ← probe_run SelinuxMode;
  version4 ← probe_run (NetfilterVersion Ipv4);
  version6 ← probe_run (NetfilterVersion Ipv6);
  ipv4 ← probe_family Ipv4 version4;
  ipv6 ← probe_family Ipv6 version6;
  sockets ← probe_run ListeningSockets;
  links ← probe_run Links;
  tun ← probe_run TunDevice;
  allocations ← probe_allocations candidates;
  let root :=
    if success uid && bool_decide (trim_text (stdout uid) = bytes "0") then Supported
    else classify_failure uid in
  let enforcing := bool_decide (to_ascii_lowercase <$> trim_text (stdout selinux) = bytes "enforcing") in
  let active_tunnel :=
    if success links && links_output_has_active_tunnel (stdout links) then Conflict
    else success_status links in
  let port_status :=
    if socket_output_contains_port (stdout sockets) inbound_port then Conflict
    else success_status sockets in
  report ← mut_lift (CapabilityReport_new (success_status release) (bounded_label (stdout abi)) root
             enforcing (backend_kind (stdout version4) (stdout version6)) ipv4 ipv6
             (success_status tun) active_tunnel inbound_port port_status allocations);
  interfaces ← mut_lift (parse_link_interfaces (stdout links));
  mut_lift (with_interfaces report interfaces).

Definition CapabilityProbe_probe (self : CapabilityProbe B) :
    Result CapabilityError CapabilityReport * CapabilityProbe B :=
  let (r, b) := probe_report (candidates self) (probe_port self) (probe_backend self) in
  (r, mkCapabilityProbe b (candidates self) (probe_port self)).

(** ** [CommandUpdateNotifier] *)
Inductive UpdateNotificationOutcome : Type := Posted | Unavailable.
Definition notify_core_update (b : B) : UpdateNotificationOutcome * B :=
  match probe_run CoreUpdateNotification b with
  | (Ok output, b') => (if success output then Posted else Unavailable, b')
  | (Err _, b') => (Unavailable, b')
  end.
End probe.

(** ** What a step installs

    A chain, a route or a policy rule.  A step whose resources are absent finds
    nothing to take back, and a step leaves the resources of the others alone. *)
Inductive Owned : Type :=
| OwnedChain (family : IpFamily) (table chain : string)
| OwnedRoute (family : IpFamily) (table : Z) (device : string) (local : bool)
| OwnedRule (family : IpFamily) (mark mask table priority : Z).
#[export] Instance Owned_eq_dec : EqDecision Owned.
Proof. solve_decision. Defined.

Definition absent (o : Owned) (v : View) : Prop :=
  match o with
  | OwnedChain f t c => forall T, tables v !! (f, t) = Some T -> T !! c = None
  | OwnedRoute f n d l => (f, n, d, l) ∉ routes v
  | OwnedRule f m k n p => (f, m, k, n, p) ∉ rules v
  end.

Definition new_chain (l : Line) : option string := match l with LNew c => Some c | _ => None end.
Definition installs (op : NetworkOperation) : list Owned :=
  match op with
  | Restore f (LTable t :: ls) => OwnedChain f t <$> omap new_chain ls
  | Restore _ _ => []
  | PolicyRoute _ f n d l => [OwnedRoute f n d l]
  | PolicyRule _ f m k n p => [OwnedRule f m k n p]
  end.

Lemma table_lines_absent c ls T T' :
  c ∉ omap new_chain ls -> T !! c = None -> table_lines ls T = Some T' -> T' !! c = None.
Proof.
  revert T. induction ls as [|l ls IH]; intros T Hc HT; cbn [table_lines]; [by intros [= <-]|].
  destruct (table_line l T) as [T1|] eqn:El; [|done]. apply IH.
  { intros Hin. apply Hc. cbn [omap list_omap]. destruct (new_chain l); [by right|done]. }
  destruct l; cbn [table_line new_chain omap list_omap] in *; [done| | | | | |by simplify_eq].
  - destruct (T !! chain) eqn:E; simplify_eq. rewrite lookup_insert_ne; [done|].
    intros ->. apply Hc. by left.
  - destruct (T !! chain) eqn:E; simpl in El; [|done]. case_decide; simplify_eq.
    rewrite lookup_insert_ne; [done|congruence].
  - destruct (T !! chain) eqn:E; simpl in El; [|done]. destruct (remove_first _ _); simplify_eq/=.
    rewrite lookup_insert_ne; [done|congruence].
  - destruct (T !! chain) eqn:E; simplify_eq/=. rewrite lookup_insert_ne; [done|congruence].
  - destruct (T !! chain) as [[|]|]; [|done..]. case_decide; simplify_eq. by apply lookup_delete_None; right.
Qed.

Lemma flush_absent c ls T : LFlush c ∈ ls -> omap new_chain ls = [] -> T !! c = None ->
  table_lines ls T = None.
Proof.
  revert T. induction ls as [|l ls IH]; intros T Hin Hn HT; [by apply not_elem_of_nil in Hin|].
  cbn [table_lines]. destruct (table_line l T) as [T1|] eqn:El; [|done]. simpl.
  assert (omap new_chain [l] = []) as Hl by (cbn [omap list_omap] in *; by destruct (new_chain l)).
  apply elem_of_cons in Hin as [<-|Hin]; [cbn [table_line] in El; by rewrite HT in El|].
  apply IH; [done| |].
  - cbn [omap list_omap] in Hn. by destruct (new_chain l).
  - apply (table_lines_absent c [l] T); [rewrite Hl; apply not_elem_of_nil|done|].
    cbn [table_lines]. by rewrite El.
Qed.

Lemma effect_absent op v v' o :
  effect op v = Some v' -> absent o v -> o ∉ installs op -> absent o v'.
Proof.
  destruct op as [f ls|act f n d l|act f m k n p]; cbn [effect installs].
  - destruct ls as [|[t| | | | | |] ls]; try done.
    destruct (tables v !! (f, t)) as [T|] eqn:ET; [|done]. cbn [mbind option_bind].
    destruct (table_lines ls T) as [T'|] eqn:El; [|done]. intros [= <-] Ha Ho.
    destruct o as [f' t' c|f' n d l|f' m k n p]; simpl in *; [|done..]. intros T2.
    destruct (decide ((f, t) = (f', t'))) as [[= <- <-]|Hne].
    + rewrite lookup_insert_eq. intros [= <-]. eapply table_lines_absent; [|by apply Ha|done].
      intros Hin. apply Ho. by apply list_elem_of_fmap_2.
    + rewrite lookup_insert_ne by done. apply Ha.
  - unfold mutate. intros E Ha Ho. destruct act; case_decide; simplify_eq/=;
      destruct o; simpl in *; try done; set_solver.
  - unfold mutate. intros E Ha Ho. destruct act; case_decide; simplify_eq/=;
      destruct o; simpl in *; try done; set_solver.
Qed.

(** A step that cannot be taken back while one of its resources is absent. *)
Definition guarded (s : PlanStep) : Prop :=
  exists o, o ∈ installs (apply s) /\ forall v, absent o v -> effect (rollback s) v = None.

Lemma ready_when_absent steps v :
  Forall guarded steps -> NoDup (steps ≫= installs ∘ apply) ->
  (forall o, o ∈ steps ≫= installs ∘ apply -> absent o v) -> ready steps v.
Proof.
  revert v. induction steps as [|s steps IH]; intros v Hg Hnd Ha; [done|].
  apply Forall_cons in Hg as [(o & Ho & Hr) Hg]. cbn [mbind list_bind] in *.
  apply NoDup_app in Hnd as (_ & Hdis & Hnd). split.
  - apply Hr, Ha. apply elem_of_app. by left.
  - destruct (effect (apply s) v) as [v'|] eqn:E; [|done]. apply IH; [done|done|].
    intros o' Ho'. apply (effect_absent _ _ _ _ E); [|intros Hin; by apply (Hdis o')].
    apply Ha. apply elem_of_app. by right.
Qed.

Lemma omap_new_appends (apps : Appends) : omap new_chain (map (fun x => LAppend x.1 x.2) apps ++ [LCommit]) = [].
Proof. induction apps; [done|]. done. Qed.
Lemma shaped_installs k f t cs p :
  shaped t cs p -> installs (apply (restore_step k f p)) = OwnedChain f t <$> cs.
Proof.
  intros (apps & _ & Hp & _). cbn [restore_step apply]. rewrite Hp.
  cbn [apply_shape installs]. f_equal. rewrite omap_app, omap_new_appends, app_nil_r.
  clear Hp. induction cs as [|c cs IH]; [done|]. change (c :: omap new_chain (map LNew cs) = c :: cs). by rewrite IH.
Qed.
Lemma shaped_guarded k f t c cs p : shaped t (c :: cs) p -> guarded (restore_step k f p).
Proof.
  intros Hs. exists (OwnedChain f t c). split; [rewrite (shaped_installs _ _ _ _ _ Hs); by left|].
  destruct Hs as (apps & _ & _ & Hp). intros v Ha. simpl. rewrite Hp. simpl. destruct (tables v !! (f, t)) as [T|] eqn:E; [|done].
  simpl. rewrite (flush_absent c); [done| | |by apply Ha].
  - apply elem_of_app. right. by left.
  - rewrite omap_app. assert (forall l : Appends, omap new_chain (map (fun x => LDelete x.1 x.2) l) = []) as ->.
    { induction l; done. }
    simpl. rewrite omap_app. assert (forall l, omap new_chain (map LFlush l) = []) as -> by (by induction l).
    simpl. assert (forall l, omap new_chain (map LRemove l ++ [LCommit]) = []) as -> by (by induction l). done.
Qed.
Lemma policy_guarded f a d l : Forall guarded (push_policy_steps f a d l).
Proof.
  repeat constructor; (eexists; split; [by left|]); intros v Ha; simpl in *; unfold mutate;
    by rewrite decide_False.
Qed.

(** ** The resources of a plan *)
Definition policy_resources (f : IpFamily) (a : ResourceCandidate) (d : string) (l : bool) : list Owned :=
  [OwnedRoute f (route_table a) d l;
   OwnedRule f (mark a) (mask a) (route_table a) (rule_priority a)].
Definition when {A} (b : bool) (l : list A) : list A := if b then l else [].
Definition chains (f : IpFamily) (table : string) (slot : PlanSlot) (prefixes : list string) : list Owned :=
  (fun p => OwnedChain f table (p +:+ suffix slot)) <$> prefixes.

Definition tproxy_resources (slot : PlanSlot) (a : ResourceCandidate) (forwarding t6 g6 : bool) : list Owned :=
  when g6 (chains Ipv6 "filter" slot ["NH_V6G_"; "NH_V6B_"])
  ++ policy_resources Ipv4 a "lo" true
  ++ when t6 (policy_resources Ipv6 a "lo" true)
  ++ chains Ipv4 "mangle" slot ["NH_OUT_"; "NH_PRE_"; "NH_DIV_"]
  ++ chains Ipv4 "filter" slot ["NH_DNS_"]
  ++ when forwarding (chains Ipv4 "mangle" slot ["NH_FWD_"] ++ chains Ipv6 "filter" slot ["NH_FWD6_"])
  ++ when t6 (chains Ipv6 "mangle" slot ["NH_OUT_"; "NH_PRE_"; "NH_DIV_"]
              ++ chains Ipv6 "filter" slot ["NH_DNS_"]).
Definition tun_resources (slot : PlanSlot) (a : ResourceCandidate) (p6 g6 : bool) : list Owned :=
  when g6 (chains Ipv6 "filter" slot ["NH_V6G_"; "NH_V6B_"])
  ++ policy_resources Ipv4 a "nethop0" false
  ++ when p6 (policy_resources Ipv6 a "nethop0" false)
  ++ chains Ipv4 "mangle" slot ["NH_TUN_"] ++ chains Ipv4 "filter" slot ["NH_DNS_"]
  ++ when p6 (chains Ipv6 "mangle" slot ["NH_TUN_"] ++ chains Ipv6 "filter" slot ["NH_DNS_"]).

(** The steps of [l] install exactly [os], and none can be taken back before. *)
Definition owns (l : list PlanStep) (os : list Owned) : Prop :=
  Forall guarded l /\ l ≫= installs ∘ apply = os.
Lemma owns_nil : owns [] [].
Proof. by split. Qed.
Lemma owns_app l1 o1 l2 o2 : owns l1 o1 -> owns l2 o2 -> owns (l1 ++ l2) (o1 ++ o2).
Proof. intros [G1 <-] [G2 <-]. split; [by apply Forall_app|apply bind_app]. Qed.
Lemma owns_if b l os : owns l os -> owns (steps_if b l) (when b os).
Proof. destruct b; [done|intros _; apply owns_nil]. Qed.
Lemma owns_policy f a d l : owns (push_policy_steps f a d l) (policy_resources f a d l).
Proof. split; [apply policy_guarded|done]. Qed.
Lemma owns_restore k f t c cs p l os o1 :
  shaped t (c :: cs) p -> o1 = OwnedChain f t <$> c :: cs -> owns l os ->
  owns (restore_step k f p :: l) (o1 ++ os).
Proof.
  intros Hs -> [Hg <-]. split; [constructor; [by eapply shaped_guarded|done]|].
  cbn [mbind list_bind]. unfold compose at 1. by rewrite (shaped_installs _ _ _ _ _ Hs).
Qed.
Lemma owns_one k f t c cs p os :
  shaped t (c :: cs) p -> os = OwnedChain f t <$> c :: cs -> owns [restore_step k f p] os.
Proof.
  intros Hs E. rewrite <- (app_nil_r os). by eapply owns_restore; [| |apply owns_nil].
Qed.

Lemma tproxy_steps_own g slot policy a port ifs fwd t6 g6 steps :
  tproxy_steps g slot policy a port ifs fwd t6 g6 = Some steps ->
  owns steps (tproxy_resources slot a (negb (len fwd =? 0)) t6 g6).
Proof.
  unfold tproxy_steps. destruct (tproxy_forwarding_steps _ _ _ _ _) as [fs|] eqn:Ef; [|done].
  cbn [mbind option_bind]. intros <-%(inj Some). unfold tproxy_resources.
  apply owns_app; [eapply owns_if, owns_one; [apply ipv6_guard_shaped|done]|].
  apply owns_app; [apply owns_policy|].
  apply owns_app; [apply owns_if, owns_policy|].
  eapply owns_restore; [apply tproxy_shaped|done|].
  eapply owns_restore; [apply dns_guard_shaped|done|].
  apply owns_app.
  - unfold tproxy_forwarding_steps in Ef. destruct (negb (len fwd =? 0)); [|injection Ef as <-; apply owns_nil].
    destruct (forwarding_payloads _ _ _ _ _) as [p|] eqn:Ep; [|done]. apply (inj Some) in Ef as <-.
    eapply owns_restore; [by eapply forwarding_shaped|done|].
    by eapply owns_one; [apply forwarding_ipv6_shaped|].
  - eapply owns_if, owns_restore; [apply tproxy_shaped|done|]. by eapply owns_one; [apply dns_guard_shaped|].
Qed.
Lemma tun_steps_own g slot policy a ifs p6 g6 :
  owns (tun_steps g slot policy a ifs p6 g6) (tun_resources slot a p6 g6).
Proof.
  unfold tun_steps, tun_resources.
  apply owns_app; [eapply owns_if, owns_one; [apply ipv6_guard_shaped|done]|].
  apply owns_app; [apply owns_policy|].
  apply owns_app; [apply owns_if, owns_policy|].
  eapply owns_restore; [apply tun_shaped|done|].
  eapply owns_restore; [apply dns_guard_shaped|done|].
  eapply owns_if, owns_restore; [apply tun_shaped|done|]. by eapply owns_one; [apply dns_guard_shaped|].
Qed.

(** They are distinct, whatever the allocation. *)
Ltac distinct :=
  repeat (apply NoDup_cons_2;
    [intros Hin; repeat (apply elem_of_cons in Hin as [Hin|Hin]; [discriminate Hin|]);
     by apply not_elem_of_nil in Hin|]);
  apply NoDup_nil_2.
Lemma tproxy_resources_distinct slot a fw t6 g6 : NoDup (tproxy_resources slot a fw t6 g6).
Proof. destruct slot, fw, t6, g6; cbv -[mark mask route_table rule_priority]; distinct. Qed.
Lemma tun_resources_distinct slot a p6 g6 : NoDup (tun_resources slot a p6 g6).
Proof. destruct slot, p6, g6; cbv -[mark mask route_table rule_priority]; distinct. Qed.

(** Text that no tool needs to quote. *)
Definition plain_text (s : string) : bool :=
  forallb (fun b => is_ascii_alphanumeric b || (b =? 58) || (b =? 61)) (bytes s).

(** ** What the tools print

    They only read.  [iptables-save] names every chain of the table in a line that
    starts with a colon and the name, and the line of a rule holds its comment when it is plain;
    [ip rule show] starts the line of a rule with its priority, and if it matches a
    mark says which and where it leads, the table by its number unless
    rt_tables names it; [ip route show table] prints a line for a route, with its
    device. *)
Class ProbeLaws (B : Type) `{!ProbeBackend B} (view : B -> View) (named : gset Z) : Prop := {
  run_reads c b r b' : probe_run c b = (r, b') -> view b' = view b;
  snapshot_names f t b out b' T c :
    probe_run (NetfilterSnapshot f t) b = (Ok out, b') -> success out = true ->
    tables (view b) !! (f, table_str t) = Some T -> is_Some (T !! c) ->
    exists line, line ∈ lines (stdout out) /\ bytes (":" +:+ c) ∈ split_ascii_whitespace line
      /\ has_prefix (bytes (":" +:+ c +:+ " ")) line = true;
  snapshot_comments f t b out b' T c rs r o :
    probe_run (NetfilterSnapshot f t) b = (Ok out, b') -> success out = true ->
    tables (view b) !! (f, table_str t) = Some T -> T !! c = Some rs -> r ∈ rs ->
    MComment o ∈ matches r -> plain_text o = true ->
    exists line, line ∈ lines (stdout out) /\ contains_str (bytes o) line = true;
  rules_shown f b out b' m k n p :
    probe_run (PolicyRules f) b = (Ok out, b') -> success out = true ->
    (f, m, k, n, p) ∈ rules (view b) ->
    exists line, line ∈ lines (stdout out)
      /\ head (split_ascii_whitespace line) = Some (bytes (dec p +:+ ":"))
      /\ (m <> 0 ->
          word_after (bytes "fwmark") (split_ascii_whitespace line) ≫= parse_mark_mask = Some (m, k))
      /\ (n ∉ named -> [bytes "lookup"; bytes (dec n)] ∈ windows 2 (split_ascii_whitespace line));
  routes_shown f n b out b' d l :
    probe_run (RouteTable f n) b = (Ok out, b') -> success out = true ->
    (f, n, d, l) ∈ routes (view b) ->
    trim_text (stdout out) <> []
    /\ exists line, line ∈ lines (stdout out) /\ contains_str (bytes ("dev " +:+ d)) line = true;
}.

(** Nothing of NetHop's in the tables of a family; nothing that uses an allocation. *)
Definition free_chains (f : IpFamily) (v : View) : Prop :=
  forall t c, (t = "filter" \/ t = "mangle") -> has_prefix (bytes "NH_") (bytes c) = true ->
    absent (OwnedChain f t c) v.
Definition free_allocation (a : ResourceCandidate) (v : View) : Prop :=
  forall f, (forall d l, absent (OwnedRoute f (route_table a) d l) v)
    /\ (forall m k n, absent (OwnedRule f m k n (rule_priority a)) v).

Lemma strip_prefix_app a b : strip_prefix a (a ++ b) = Some b.
Proof. induction a as [|x a IH]; [done|]. simpl. by rewrite Z.eqb_refl. Qed.
Lemma strip_suffix_app a b : strip_suffix b (a ++ b) = Some a.
Proof. unfold strip_suffix. by rewrite reverse_app, strip_prefix_app; simpl; rewrite reverse_involutive. Qed.

Lemma owned_token c : has_prefix (bytes "NH_") (bytes c) = true -> is_owned_token (bytes (":" +:+ c)) = true.
Proof.
  intros Hc. unfold is_owned_token. rewrite bytes_app. simpl. destruct (bytes c) as [|x r] eqn:E; [done|].
  assert (x = 78) as ->; [|done]. unfold has_prefix in Hc. change (bytes "NH_") with [78; 72; 95] in Hc.
  cbn [strip_prefix] in Hc. by destruct (Z.eqb_spec 78 x) as [<-|].
Qed.

Lemma dec_bytes n : is_uint 64 n -> bytes (dec n) = print_u64 n.
Proof.
  intros Hn. unfold dec. apply bytes_of_bytes. destruct (print_u64_digits n Hn) as [Hd _].
  eapply Forall_impl; [exact Hd|]. intros x Hx. unfold is_ascii_digit, in_range in Hx. lia.
Qed.
Lemma parse_dec n : is_uint 32 n -> parse_uint 32 (bytes (dec n)) = Some n.
Proof.
  intros Hn. assert (is_uint 64 n) as Hn' by (unfold is_uint in *; lia). rewrite dec_bytes by done.
  unfold parse_uint. rewrite parse_print_u64 by done. unfold is_uint, umax in *.
  by rewrite (proj2 (Z.leb_le _ _)) by lia.
Qed.
Lemma shown_priority n tokens :
  is_uint 32 n -> head tokens = Some (bytes (dec n +:+ ":")) -> rule_priority_of tokens = Some n.
Proof.
  intros Hn Hh. unfold rule_priority_of. rewrite Hh. cbn [mbind option_bind].
  rewrite bytes_app, strip_suffix_app. by apply parse_dec.
Qed.

Section laws.
Context {B : Type} `{!ProbeBackend B} (view : B -> View) (named : gset Z) `{!ProbeLaws B view named}.

Lemma snapshot_free f t b out b' :
  probe_run (NetfilterSnapshot f t) b = (Ok out, b') -> success out = true ->
  contains_owned_chain (stdout out) = false ->
  forall c, has_prefix (bytes "NH_") (bytes c) = true -> absent (OwnedChain f (table_str t) c) (view b).
Proof.
  intros Hr Hs Ho c Hc T HT. destruct (T !! c) as [rs|] eqn:E; [|done]. exfalso.
  destruct (snapshot_names f t b out b' T c Hr Hs HT) as (line & Hl & Hw & _); [by rewrite E|].
  unfold contains_owned_chain in Ho. rewrite (existsb_elem _ _ line) in Ho; [done|done|].
  eapply existsb_elem; [done|by apply owned_token].
Qed.

Lemma namespace_free f b1 m b1' b2 fl b2' :
  probe_run (NetfilterSnapshot f MangleTable) b1 = (Ok m, b1') ->
  probe_run (NetfilterSnapshot f FilterTable) b2 = (Ok fl, b2') -> view b2 = view b1 ->
  namespace_status m fl = Supported -> free_chains f (view b1).
Proof.
  intros Hm Hf Hv. unfold namespace_status, classify_failure. simpl. rewrite orb_false_r.
  split_if Hc; [done|]. split_if Hs; [|by destruct (negb _), (is_denied (stderr m)), (is_denied (stderr fl))]. intros _.
  apply andb_true_iff in Hs as [Hs1 Hs2]. rewrite Hs1, Hs2 in Hc. apply orb_false_iff in Hc as [Hc1 Hc2].
  intros t c [-> | ->] Hn; [|by eapply (snapshot_free f MangleTable)].
  rewrite <- Hv. by eapply (snapshot_free f FilterTable).
Qed.

Lemma rules_free f b out b' c :
  is_uint 32 (rule_priority c) ->
  probe_run (PolicyRules f) b = (Ok out, b') -> success out = true ->
  rules_conflict (stdout out) c = false ->
  forall m k n, absent (OwnedRule f m k n (rule_priority c)) (view b).
Proof.
  intros Hp Hr Hs Hc m k n Hin. destruct (rules_shown f b out b' m k n _ Hr Hs Hin) as (line & Hl & Hh & _).
  unfold rules_conflict in Hc. rewrite (existsb_elem _ _ line) in Hc; [done|done|].
  unfold rule_conflicts. by rewrite bool_decide_eq_true_2 by (by apply shown_priority).
Qed.

Lemma routes_free f n b out b' :
  probe_run (RouteTable f n) b = (Ok out, b') -> success out = true ->
  negb (len (trim_text (stdout out)) =? 0) = false ->
  forall d l, absent (OwnedRoute f n d l) (view b).
Proof.
  intros Hr Hs Hc d l Hin. destruct (routes_shown f n b out b' d l Hr Hs Hin) as [Hne _]. apply Hne.
  apply negb_false_iff, Z.eqb_eq in Hc. destruct (trim_text (stdout out)); [done|discriminate Hc].
Qed.

(** The probe only reads, and what it calls free is free. *)
Ltac run_step H :=
  let out := fresh "out" in let b := fresh "b" in let E := fresh "E" in
  apply bind_Ok in H as (out & b & E & H); pose proof (run_reads _ _ _ _ E).

Lemma probe_family_free f version b fam b' :
  probe_family f version b = (Ok fam, b') ->
  view b' = view b /\ family fam = f /\ (chain_namespace fam = Supported -> free_chains f (view b)).
Proof.
  unfold probe_family. intros H. do 10 run_step H. injection H as <- <-.
  split; [congruence|]. split; [done|]. simpl. intros Hn.
  replace (view b) with (view b0) by congruence. by eapply namespace_free; [done|done|congruence|].
Qed.

Lemma allocation_free rules4 rules6 b4 b4' b6 b6' c b a b' :
  is_uint 32 (rule_priority c) ->
  probe_run (PolicyRules Ipv4) b4 = (Ok rules4, b4') -> view b4 = view b ->
  probe_run (PolicyRules Ipv6) b6 = (Ok rules6, b6') -> view b6 = view b ->
  probe_allocation rules4 rules6 c b = (Ok a, b') ->
  view b' = view b /\ candidate a = c /\ (status a = Supported -> free_allocation c (view b)).
Proof.
  intros Hp H4 V4 H6 V6 H. unfold probe_allocation in H. do 2 run_step H. injection H as <- <-.
  split; [congruence|]. split; [done|]. simpl. unfold allocation_status.
  split_if Hd; [done|]. split_if Hc; [done|]. split_if Hs; [|done]. intros _.
  repeat (apply andb_true_iff in Hs as [Hs ?]). repeat (apply orb_false_iff in Hc as [Hc ?]).
  intros []; (split; [intros d l|intros m k n]).
  - by eapply (routes_free Ipv4).
  - rewrite <- V4. by eapply (rules_free Ipv4).
  - replace (view b) with (view b0) by congruence. by eapply (routes_free Ipv6).
  - rewrite <- V6. by eapply (rules_free Ipv6).
Qed.

Lemma allocation_loop_free rules4 rules6 b4 b4' b6 b6' cs b l b' :
  Forall (fun c => is_uint 32 (rule_priority c)) cs ->
  probe_run (PolicyRules Ipv4) b4 = (Ok rules4, b4') -> view b4 = view b ->
  probe_run (PolicyRules Ipv6) b6 = (Ok rules6, b6') -> view b6 = view b ->
  allocation_loop rules4 rules6 cs b = (Ok l, b') ->
  view b' = view b
  /\ Forall (fun a => status a = Supported -> free_allocation (candidate a) (view b)) l.
Proof.
  intros Hcs H4 V4 H6 V6. revert b l V4 V6. induction Hcs as [|c cs Hc _ IH]; intros b l V4 V6 H.
  - cbn in H. injection H as <- <-. by split.
  - cbn [allocation_loop] in H. apply bind_Ok in H as (a & b1 & Ea & H).
    apply bind_Ok in H as (rest & b2 & El & H). injection H as <- <-.
    destruct (allocation_free _ _ _ _ _ _ c b a b1 Hc H4 V4 H6 V6 Ea) as (E1 & E2 & Ha).
    destruct (IH b1 rest) as [E3 Hl]; [congruence|congruence|done|]. rewrite E1 in *.
    split; [done|]. constructor; [by rewrite E2|done].
Qed.

Lemma probe_report_free cs port b report b' :
  Forall (fun c => is_uint 32 (rule_priority c)) cs ->
  probe_report cs port b = (Ok report, b') ->
  view b' = view b
  /\ (chain_namespace (ipv4 report) = Supported -> free_chains Ipv4 (view b))
  /\ (chain_namespace (ipv6 report) = Supported -> free_chains Ipv6 (view b))
  /\ Forall (fun a => status a = Supported -> free_allocation (candidate a) (view b)) (allocations report).
Proof.
  intros Hcs H. unfold probe_report in H. do 6 run_step H.
  apply bind_Ok in H as (f4 & x4 & P4 & H). apply probe_family_free in P4 as (V4 & _ & F4).
  apply bind_Ok in H as (f6 & x6 & P6 & H). apply probe_family_free in P6 as (V6 & _ & F6).
  do 3 run_step H. apply bind_Ok in H as (al & xa & Eal & H). unfold probe_allocations in Eal.
  do 2 run_step Eal. eapply allocation_loop_free in Eal as (Va & Fa); [|done|done|congruence|done|congruence].
  apply bind_Ok in H as (rep & xr & Er & H). apply bind_Ok in H as (ifs & xi & Ei & H).
  unfold mut_lift in *. injection Er as Er <-. injection Ei as Ei <-. injection H as H <-.
  unfold with_interfaces in H. split_if_in H Hw; [done|]. injection H as <-. simpl.
  unfold CapabilityReport_new in Er. split_if_in Er Hn; [done|]. injection Er as <-. simpl.
  repeat match goal with Ev : view _ = view _ |- _ => rewrite Ev in *; clear Ev end. by split_and!.
Qed.

Lemma first_supported_free l c v :
  first_supported l = Some c ->
  Forall (fun a => status a = Supported -> free_allocation (candidate a) v) l -> free_allocation c v.
Proof.
  induction l as [|a l IH]; simpl; [done|]. intros H [Ha Hl]%Forall_cons.
  destruct (is_supported (status a)) eqn:E; [|by apply IH]. injection H as <-. apply Ha. by apply is_supported_true.
Qed.
End laws.

(** ** From the probe to the applied plan *)
Lemma chains_absent f t slot prefixes v :
  free_chains f v -> (t = "filter" \/ t = "mangle") ->
  Forall (fun p => forall s, has_prefix (bytes "NH_") (bytes (p +:+ s)) = true) prefixes ->
  Forall (fun o => absent o v) (chains f t slot prefixes).
Proof. intros Hf Ht Hp. apply Forall_fmap. eapply Forall_impl; [exact Hp|]. intros p H. by apply Hf. Qed.
Lemma policy_absent f a d l v : free_allocation a v -> Forall (fun o => absent o v) (policy_resources f a d l).
Proof. intros Ha. destruct (Ha f) as [Hr Hp]. repeat constructor; [apply Hr|apply Hp]. Qed.
Lemma when_absent b l v :
  (b = true -> Forall (fun o => absent o v) l) -> Forall (fun o => absent o v) (when b l).
Proof. destruct b; [by intros H; apply H|constructor]. Qed.

Ltac absent_resources :=
  repeat first
    [ apply Forall_app_2
    | apply policy_absent; assumption
    | apply when_absent; intros ?
    | apply chains_absent;
        [solve [auto]|first [left; reflexivity|right; reflexivity]|repeat constructor; reflexivity] ].

Lemma tproxy_resources_absent slot a fw t6 g6 v :
  free_allocation a v -> free_chains Ipv4 v ->
  (fw = true -> free_chains Ipv6 v) -> (t6 = true -> free_chains Ipv6 v) -> (g6 = true -> free_chains Ipv6 v) ->
  Forall (fun o => absent o v) (tproxy_resources slot a fw t6 g6).
Proof. intros. unfold tproxy_resources. absent_resources. Qed.
Lemma tun_resources_absent slot a g6 v :
  free_allocation a v -> free_chains Ipv4 v -> free_chains Ipv6 v ->
  Forall (fun o => absent o v) (tun_resources slot a true g6).
Proof. intros. unfold tun_resources. absent_resources. Qed.

Lemma owns_ready l os v : owns l os -> NoDup os -> Forall (fun o => absent o v) os -> ready l v.
Proof. intros [Hg <-] Hnd Ha. apply ready_when_absent; [done|done|]. by apply Forall_forall. Qed.

(** A plan from a report that found its chains free.  The TPROXY planner asks for
    that itself, except for the IPv6 guard of forwarding; the TUN planner does not
    look. *)
Definition planned_free (report : CapabilityReport) (plan : NetworkPlan) : Prop :=
  exists g slot policy,
    (build_tproxy g slot policy report = Some (Ok plan)
     /\ (forwarding_interfaces plan = [] \/ chain_namespace (ipv6 report) = Supported))
    \/ (build_tun g slot policy report = Ok plan
        /\ chain_namespace (ipv4 report) = Supported /\ chain_namespace (ipv6 report) = Supported).
Lemma planned_free_planned report plan : planned_free report plan -> planned plan.
Proof. intros (g & slot & policy & [[H _]|[H _]]); exists g, slot, policy, report; [by left|by right]. Qed.

Lemma planned_free_ready report plan v :
  (chain_namespace (ipv4 report) = Supported -> free_chains Ipv4 v) ->
  (chain_namespace (ipv6 report) = Supported -> free_chains Ipv6 v) ->
  Forall (fun a => status a = Supported -> free_allocation (candidate a) v) (allocations report) ->
  planned_free report plan -> ready (steps plan) v.
Proof.
  intros F4 F6 Fa (g & slot & policy & [[H Hf]|(H & N4 & N6)]).
  - unfold build_tproxy in H. destruct (tproxy_inputs g policy report) as [i|] eqn:Ei; [|done].
    destruct (tproxy_steps _ _ _ _ _ _ _ _ _) as [l|] eqn:El; [|done]. cbn [mbind option_bind] in H.
    injection H as <-. simpl in *. pose proof (tproxy_inputs_v4 _ _ _ _ Ei) as H4.
    apply tproxy_inputs_ok in Ei as (_ & _ & _ & _ & Ha & _ & _ & _ & _ & Ht & _ & Hg).
    apply tproxy_steps_own in El. eapply owns_ready; [done|apply tproxy_resources_distinct|].
    apply tproxy_resources_absent.
    + by eapply first_supported_free.
    + by apply F4, supports_guard_namespace, tproxy_supports_guard.
    + intros Hfw. destruct Hf as [Hf|N6]; [by rewrite Hf in Hfw|by apply F6].
    + rewrite Ht. intros H6. by apply F6, supports_guard_namespace, tproxy_supports_guard.
    + intros H6. by apply F6, supports_guard_namespace, Hg.
  - apply build_tun_inv in H as (a & ifs & fwd & Ha & _ & _ & _ & _ & ->). cbn [steps].
    eapply owns_ready; [apply tun_steps_own|apply tun_resources_distinct|].
    apply tun_resources_absent; [by eapply first_supported_free|by apply F4|by apply F6].
Qed.

Section probed.
Context {B K : Type} `{!ProbeBackend B} `{!NetworkCommandBackend K} (view : B -> View) (kernel : K -> View).
Context (named : gset Z) `{!ProbeLaws B view named}.

(** C3: probing, planning and applying is all or nothing for the plans that look at what
    the probe found.  Whatever the kernel holds, leftovers of an earlier run included,
    let the probe report and a plan come out of the report.  A TPROXY plan that forwards
    no interface needs nothing more.  One that forwards also needs the report to have
    found the IPv6 chains free, and a TUN plan needs it of the chains of both families:
    the planners do not check these (lemmas tun_ignores_namespace and
    tun_removes_leftover show a TUN plan that is built over leftover chains, fails and
    removes them).  The candidates' priorities are u32, the kernel has not changed since
    the probe and its jumps lead to chains that exist, and the tools print what they
    list in full (they fit the limit of the streams; what read_bounded cuts off the
    probe does not see).  Then applying the plan installs every step, or reports failure
    and leaves the kernel exactly as the probe found it; only a command that cannot be
    taken back either is reported as such. *)
Theorem probed_apply_transactional (probe probe' : CapabilityProbe B) report generation slot policy plan k
    `{!BackendLaws K kernel (step_ops (steps plan))} :
  Forall (fun c => is_uint 32 (rule_priority c)) (candidates probe) ->
  CapabilityProbe_probe probe = (Ok report, probe') ->
  build_tproxy generation slot policy report = Some (Ok plan)
    /\ (forwarding_interfaces plan = [] \/ chain_namespace (ipv6 report) = Supported)
  \/ build_tun generation slot policy report = Ok plan
    /\ chain_namespace (ipv4 report) = Supported /\ chain_namespace (ipv6 report) = Supported ->
  kernel k = view (probe_backend probe') -> closed (kernel k) ->
  exists r k', NetworkExecutor_apply plan k = Some (r, k') /\
    match r with
    | Ok _ => effects (apply <$> steps plan) (kernel k) = Some (kernel k')
    | Err (ApplyFailed _) => kernel k' = view (probe_backend probe)
    | Err (ApplyRollbackFailed _ _) => True
    | Err _ => False
    end.
Proof.
  unfold CapabilityProbe_probe. intros Hc. destruct (probe_report _ _ _) as [r b] eqn:E.
  intros [= -> <-] Hpl Hk Hcl. simpl in Hk.
  assert (planned_free report plan) as Hp by (by exists generation, slot, policy).
  destruct (probe_report_free view named _ _ _ _ _ Hc E) as (Hv & F4 & F6 & Fa).
  assert (ready (steps plan) (kernel k)) as Hr.
  { rewrite Hk, Hv. by eapply planned_free_ready. }
  destruct (apply_transaction kernel plan k (planned_free_planned _ _ Hp) Hcl Hr) as (r & k' & Er & Hres).
  exists r, k'. split; [exact Er|]. destruct r as [receipt|[]]; try done; [by destruct Hres as (_ & ? & _)|].
  by rewrite Hres, Hk.
Qed.
End probed.

(** ** The device of DemoBackend, probed *)
Module ProbeDemo.
Definition nl : list Z := [10].
Definition succeed (text : list Z) : Result CapabilityError ProbeOutput := Ok (mkProbeOutput true text []).
Definition saved : list Z :=
  bytes "*table" ++ nl ++ bytes ":PREROUTING ACCEPT [0:0]" ++ nl ++ bytes ":FORWARD ACCEPT [0:0]" ++ nl
  ++ bytes ":OUTPUT ACCEPT [0:0]" ++ nl ++ bytes "COMMIT" ++ nl.
Definition answer (c : ProbeCommand) : Result CapabilityError ProbeOutput :=
  succeed (match c with
    | EffectiveUid => bytes "0" ++ nl
    | AndroidAbi => bytes "arm64-v8a" ++ nl
    | SelinuxMode => bytes "Enforcing" ++ nl
    | NetfilterVersion _ => bytes "iptables v1.8.7 (nf_tables)" ++ nl
    | NetfilterSnapshot _ _ => saved
    | PolicyRules _ => bytes "0:	from all lookup local" ++ nl
    | Addresses Ipv4 => bytes "    inet 192.0.2.7/24 scope global wlan0" ++ nl
    | Addresses Ipv6 => bytes "    inet6 2001:db8::7/64 scope global" ++ nl
    | _ => []
    end).
(** A device nothing changes: it has one state. *)
#[global] Instance backend : ProbeBackend unit := fun c b => (answer c, b).
Definition view (b : unit) : View := DemoBackend.device.

Lemma device_tables f t T : tables DemoBackend.device !! (f, table_str t) = Some T -> T = DemoBackend.empty_table.
Proof.
  unfold DemoBackend.device. cbn [tables]. intros H.
  repeat (apply lookup_insert_Some in H as [[_ <-]|[_ H]]; [done|]). by rewrite lookup_empty in H.
Qed.
Lemma device_chains c : is_Some (DemoBackend.empty_table !! c) -> c = "OUTPUT" \/ c = "PREROUTING" \/ c = "FORWARD".
Proof.
  unfold DemoBackend.empty_table. intros [rs H].
  apply lookup_insert_Some in H as [[<- _]|[_ H]]; [by left|].
  apply lookup_insert_Some in H as [[<- _]|[_ H]]; [by right; left|].
  apply lookup_insert_Some in H as [[<- _]|[_ H]]; [by right; right|]. by rewrite lookup_empty in H.
Qed.
Ltac shown line :=
  exists (bytes line); split; [|split]; [apply (bool_decide_unpack _); vm_compute; exact I..|reflexivity].
#[global] Instance probe_laws : ProbeLaws unit view ∅.
Proof.
  split.
  - by intros c [] r [] _.
  - intros f t [] out b' T c [= <- _] _ HT%device_tables Hc. subst T.
    destruct (device_chains c Hc) as [->|[->| ->]]; cbn [stdout].
    + shown ":OUTPUT ACCEPT [0:0]".
    + shown ":PREROUTING ACCEPT [0:0]".
    + shown ":FORWARD ACCEPT [0:0]".
  - intros f t [] out b' T c rs r o _ _ HT%device_tables Hc Hr _ _. subst T. exfalso.
    unfold DemoBackend.empty_table in Hc.
    repeat (apply lookup_insert_Some in Hc as [[_ <-]|[_ Hc]]; [by apply not_elem_of_nil in Hr|]).
    by rewrite lookup_empty in Hc.
  - intros f [] out b' m k n p _ _ Hin. by apply not_elem_of_empty in Hin.
  - intros f n [] out b' d l _ _ Hin. by apply not_elem_of_empty in Hin.
Qed.

Definition probe : CapabilityProbe unit := mkCapabilityProbe tt [mkCandidate 0x100 0xff00 100 10000] 7893.
Lemma probed : CapabilityProbe_probe probe = (Ok DemoPlan.report, probe).
Proof. vm_compute. reflexivity. Qed.
End ProbeDemo.

(** The device is probed, planned for and, with the third command timing out, left as
    it was. *)
Lemma probed_apply_transactional_witness :
  exists k', NetworkExecutor_apply DemoPlan.tun_plan
      (DemoBackend.mkKernel DemoBackend.device [false; false; true]) = Some (Err (ApplyFailed 2), k')
    /\ DemoBackend.k_view k' = DemoBackend.device.
Proof.
  destruct (probed_apply_transactional ProbeDemo.view DemoBackend.k_view ∅ ProbeDemo.probe ProbeDemo.probe
    DemoPlan.report 7 SlotA DemoPlan.tun_policy DemoPlan.tun_plan (DemoBackend.mkKernel DemoBackend.device [false; false; true]))
    as (r & k' & E & Hr).
  - repeat constructor; vm_compute; congruence.
  - exact ProbeDemo.probed.
  - right. split; [exact DemoPlan.tun_plan_built|]. split; reflexivity.
  - reflexivity.
  - exact DemoBackend.device_closed.
  - assert (r = Err (ApplyFailed 2)) as ->.
    { assert (fst <$> Some (r, k') = Some (Err (ApplyFailed 2))) as Hx by (rewrite <- E; vm_compute; reflexivity).
      injection Hx as Hx. exact Hx. }
    exists k'. split; [exact E|exact Hr].
Defined.

(** The TUN planner accepts a report whose IPv4 chains are taken. *)
Definition with_namespace (s : CapabilityStatus) (f : FamilyCapability) : FamilyCapability :=
  mkFamily (family f) (address f) (netfilter f) (restore f) (tproxy f) (fam_mark f) (conntrack f)
    (owner f) (socket f) (policy_routing f) s.
Definition with_ipv4_namespace (s : CapabilityStatus) (r : CapabilityReport) : CapabilityReport :=
  mkReport (schema_version r) (android r) (abi r) (root r) (selinux_enforcing r) (backend r)
    (with_namespace s (ipv4 r)) (ipv6 r) (tun r) (active_tunnel r) (cap_inbound_port r)
    (inbound_port_status r) (allocations r) (interfaces r).
Lemma tun_ignores_namespace g slot policy caps s :
  build_tun g slot policy (with_ipv4_namespace s caps) = build_tun g slot policy caps.
Proof. reflexivity. Qed.

(** The chains of an earlier run of the same plan, hooked in, whose routes and rules are
    gone: the plan built over them fails at its first chain, and taking that back
    removes them. *)
Lemma tun_removes_leftover :
  let leftover := mkView (tables (DemoBackend.k_view DemoBackend.applied)) ∅ ∅ in
  let chain (v : View) := t ← tables v !! (Ipv4, "mangle"); t !! "NH_TUN_A" in
  is_Some (chain leftover)
  /\ exists k', NetworkExecutor_apply DemoPlan.tun_plan (DemoBackend.mkKernel leftover []) = Some (Err (ApplyFailed 4), k')
     /\ chain (DemoBackend.k_view k') = None.
Proof.
  cbv zeta. split; [apply (bool_decide_unpack _); vm_compute; exact I|].
  eexists. split; [vm_compute; reflexivity|]. vm_compute. reflexivity.
Qed.
