(* ===== verification/Forwarding.v ===== *)
(** * Forwarding: the stand-alone plan for hotspot and USB traffic

    Models [ForwardingPlanner] of crates/nethop-android/src/forwarding.rs and the
    two executor entry points that take its plans
    (crates/nethop-android/src/executor.rs).  The planner writes its payload by
    itself; it is shown to be the one the network planner writes. *)

From S2P Require Import Prelude Text Ordering Capture Generation Capability Interfaces Rules Plan Kernel Executor.

Local Open Scope Z_scope.

Definition MAX_FORWARD_INTERFACES : Z := 8.
Definition FORWARD_INTERFACE_NAME_BYTES : Z := 16.

Record ForwardingPlan : Type := mkForwardingPlan {
  fw_generation : Z;
  fw_slot : PlanSlot;
  fw_allocation : ResourceCandidate;
  fw_interfaces : list string;
  fw_steps : list PlanStep;
}.
Definition fw_owner_marker (self : ForwardingPlan) : string := "nethop:fwd:g=" +:+ dec (fw_generation self).

Inductive ForwardingPlanError : Type :=
| GenerationMismatch
| InvalidInterfaceSet
| InboundPortMissing.

Definition forward_name_refused (name : string) : bool :=
  (str_len name =? 0) || (FORWARD_INTERFACE_NAME_BYTES <? str_len name)
  || String.eqb name "lo" || negb (forallb interface_name_byte (bytes name)).

Definition ForwardingPlanner_build (generation_ : Z) (slot_ : PlanSlot) (base : NetworkPlan)
    (policy : CapturePolicy) (interfaces : list string) :
    Result ForwardingPlanError ForwardingPlan :=
  if negb (generation_ =? generation base) || negb (bool_decide (slot_ = slot base))
     || (generation_ =? 0)
  then Err GenerationMismatch
  else if (len interfaces =? 0) || (MAX_FORWARD_INTERFACES <? len interfaces)
  then Err InvalidInterfaceSet
  else
  let original_interface_count := len interfaces in
  let interfaces := sort_dedup interfaces in
  if negb (len interfaces =? original_interface_count) || (len interfaces =? 0)
     || existsb forward_name_refused interfaces
  then Err InvalidInterfaceSet
  else
  let chain := "NH_FWD_" +:+ suffix slot_ in
  let owner := "nethop:fwd:g=" +:+ dec generation_ in
  let mark := mark (allocation base) in
  let mask := mask (allocation base) in
  inbound_port ← ok_or (inbound_port policy) InboundPortMissing;
  let apply :=
    [LTable "mangle"; LNew chain]
    ++ map (fun interface =>
         append "PREROUTING" [MIn interface; MComment owner] (TJump chain)) interfaces
    ++ [append chain [MReply] TAccept; append chain [MMark mark mask] TReturn]
    ++ map (fun destination => append chain [MDest destination] TReturn)
         ["0.0.0.0/8"; "10.0.0.0/8"; "100.64.0.0/10"; "127.0.0.0/8"; "169.254.0.0/16";
          "172.16.0.0/12"; "192.168.0.0/16"; "224.0.0.0/4"; "240.0.0.0/4"]
    ++ push_if (proxy_tcp policy) (append chain [MProto Tcp] (TTproxy inbound_port mark mask))
    ++ push_if (proxy_udp policy) (append chain [MProto Udp] (TTproxy inbound_port mark mask))
    ++ [LCommit] in
  let rollback :=
    [LTable "mangle"]
    ++ map (fun interface =>
         delete "PREROUTING" [MIn interface; MComment owner] (TJump chain)) interfaces
    ++ [LFlush chain; LRemove chain; LCommit] in
  Ok (mkForwardingPlan generation_ slot_ (allocation base) interfaces
        [restore_step ForwardingRestore Ipv4 (apply, rollback)]).

(** ** Executing it *)
Section executor.
Context {B : Type} `{NetworkCommandBackend B}.

Definition apply_forwarding (plan : ForwardingPlan) (b : B) :
    option (Result ExecutionError ApplyReceipt * B) :=
  apply_steps (fw_generation plan) (fw_slot plan) (fw_steps plan) b.
Definition rollback_forwarding (plan : ForwardingPlan) (receipt : ApplyReceipt) (b : B) :
    option (Result ExecutionError unit * ApplyReceipt * B) :=
  rollback_steps (fw_generation plan) (fw_slot plan) (fw_steps plan) receipt b.
End executor.

(** ** What a built plan is *)
Lemma sort_dedup_same_length (l : list string) :
  len (sort_dedup l) = len l -> NoDup l /\ sort_dedup l ≡ₚ l.
Proof.
  intros Hl. assert (NoDup (sort_dedup l)) as Hnd
    by apply StronglySorted_lt_NoDup, sort_dedup_StronglySorted.
  assert (sort_dedup l ≡ₚ l) as Hp.
  { apply (submseteq_length_Permutation (sort_dedup l) l).
    - apply NoDup_submseteq; [done|]. intros x. by rewrite sort_dedup_elem_of.
    - unfold len in Hl. lia. }
  split; [by rewrite <- Hp|done].
Qed.

Lemma forwarding_build_ok g s base policy ifs plan :
  ForwardingPlanner_build g s base policy ifs = Ok plan ->
  g = generation base /\ s = slot base /\ g <> 0 /\
  NoDup ifs /\ fw_interfaces plan ≡ₚ ifs /\ StronglySorted ord_lt (fw_interfaces plan) /\
  (forall n, n ∈ ifs -> forward_name_refused n = false) /\ len ifs <= MAX_FORWARD_INTERFACES /\
  exists p, forwarding_payloads s policy (allocation base) (fw_interfaces plan)
              ("nethop:fwd:g=" +:+ dec g) = Some p /\
            fw_steps plan = [restore_step ForwardingRestore Ipv4 p].
Proof.
  unfold ForwardingPlanner_build. split_if H1; [done|]. split_if H2; [done|]. cbv zeta.
  split_if H3; [done|]. unfold forwarding_payloads, ok_or, mbind, Result_bind, option_bind.
  destruct (inbound_port policy) as [port|]; [|done]. intros E. injection E as E. subst plan.
  cbn [fw_interfaces fw_steps].
  apply orb_false_iff in H1 as [[Hg Hs]%orb_false_iff H0].
  apply negb_false_iff, Z.eqb_eq in Hg. apply negb_false_iff, bool_decide_eq_true in Hs.
  apply Z.eqb_neq in H0. apply orb_false_iff in H2 as [_ H8]. apply Z.ltb_ge in H8.
  apply orb_false_iff in H3 as [[Hl _]%orb_false_iff Hn]. apply negb_false_iff, Z.eqb_eq in Hl.
  destruct (sort_dedup_same_length _ Hl) as [Hnd Hp]. split_and!; try done.
  - apply sort_dedup_StronglySorted.
  - intros n Hin. apply not_true_iff_false. intros Ht. apply not_true_iff_false in Hn. apply Hn.
    apply existsb_exists. exists n. split; [|done]. apply list_elem_of_In. by rewrite Hp.
  - eexists. split; reflexivity.
Qed.

(** The stand-alone forwarding plan agrees with the network planner.  A plan it
    returns belongs to the base plan's generation and slot; its interfaces are
    exactly those given, sorted, pairwise distinct, acceptable as names and at
    most eight; and its only step is the forwarding step [build_tproxy] would
    install for those interfaces, so its rollback undoes it. *)
Theorem forwarding_plan_agrees g s base policy ifs plan :
  ForwardingPlanner_build g s base policy ifs = Ok plan ->
  fw_generation plan = generation base /\ fw_slot plan = slot base /\ g <> 0 /\
  fw_interfaces plan ≡ₚ ifs /\ StronglySorted ord_lt (fw_interfaces plan) /\
  len ifs <= 8 /\ (forall n, n ∈ ifs -> forward_name_refused n = false) /\
  (exists more, tproxy_forwarding_steps g s policy (allocation base) (fw_interfaces plan)
                = Some (fw_steps plan ++ more)) /\
  Forall undoes (fw_steps plan).
Proof.
  intros H. pose proof (forwarding_build_ok _ _ _ _ _ _ H)
    as (Hg & Hs & H0 & Hnd & Hp & Hsort & Hn & H8 & p & Epay & Est).
  assert (fw_generation plan = g /\ fw_slot plan = s) as [-> ->].
  { unfold ForwardingPlanner_build in H. split_if_in H H1; [done|]. split_if_in H H2; [done|].
    cbv zeta in H. split_if_in H H3; [done|]. destruct (inbound_port policy); [|done].
    by injection H as <-. }
  split_and!; try done.
  - unfold tproxy_forwarding_steps. destruct (len (fw_interfaces plan) =? 0) eqn:El.
    + apply len_zero in El. rewrite El in Hp. apply Permutation_nil_l in Hp. subst ifs.
      unfold ForwardingPlanner_build in H. split_if_in H H1; done.
    + cbn [negb]. rewrite Epay, Est. eexists. reflexivity.
  - rewrite Est. repeat constructor. eapply shaped_undoes. by eapply forwarding_shaped.
Qed.

Lemma forwarding_plan_agrees_witness :
  exists plan, ForwardingPlanner_build 7 SlotA DemoPlan.tun_plan
    (mkCapturePolicy Tproxy true true true (Some 7893) (Some 0x200) [] []
       InterfacePolicy_default ForwardingPolicy_default) ["usb0"; "ap0"] = Ok plan /\
    StronglySorted ord_lt (fw_interfaces plan) /\ Forall undoes (fw_steps plan).
Proof.
  destruct (ForwardingPlanner_build 7 SlotA DemoPlan.tun_plan
    (mkCapturePolicy Tproxy true true true (Some 7893) (Some 0x200) [] []
       InterfacePolicy_default ForwardingPolicy_default) ["usb0"; "ap0"]) as [plan|e] eqn:E.
  - exists plan. split; [reflexivity|].
    destruct (forwarding_plan_agrees _ _ _ _ _ _ E) as (_ & _ & _ & _ & Hs & _ & _ & _ & Hu).
    split; [exact Hs|exact Hu].
  - exfalso. vm_compute in E. discriminate E.
Defined.
