(* ===== verification/WifiScene.v ===== *)
(** * WifiScene: Wi-Fi scenes

    [nethop-android/src/wifi_scene.rs]: the facts of the current network as Android
    prints them, the rules of the user, and the scene that applies.  A network is known
    by its SSID, its BSSID or both; the most specific matching rule decides. *)

From S2P Require Import Prelude Text Capability Probe.

Local Open Scope Z_scope.

Definition MAX_SCENES : Z := 64.
Definition MAX_SCENE_ID_BYTES : Z := 64.
Definition MAX_SSID_BYTES : Z := 32.

Inductive WifiSceneError : Type :=
| NetworkUnavailable | WifiInvalidRule | TooManyRules | WifiDuplicateRule | WifiProbeFailed
| InvalidStatus.

Definition validate_ssid (value : string) : Result WifiSceneError string :=
  if String.eqb value "" || (MAX_SSID_BYTES <? str_len value) || has_control (bytes value)
  then Err WifiInvalidRule else Ok value.

(** [u8::from_str_radix(part, 16)] on each part, the first failure ends it. *)
Fixpoint parse_octets (parts : list (list Z)) : Result WifiSceneError (list Z) :=
  match parts with
  | [] => Ok []
  | part :: rest =>
      match parse_hex_u32 part with
      | Some n =>
          if umax 8 <? n then Err WifiInvalidRule
          else octets ← parse_octets rest; Ok (n :: octets)
      | None => Err WifiInvalidRule
      end
  end.
Definition parse_bssid (value : string) : Result WifiSceneError (list Z) :=
  let parts := split_on 58 (bytes value) in
  if negb (len parts =? 6) || existsb (fun part => negb (len part =? 2)) parts
  then Err WifiInvalidRule else parse_octets parts.

(** [Option::map(f).transpose()?] *)
Definition transpose_map {E A B} (f : A -> Result E B) (o : option A) : Result E (option B) :=
  match o with Some a => b ← f a; Ok (Some b) | None => Ok None end.

(** ** Facts *)
Record WifiNetworkFacts : Type := mkFacts {
  fact_ssid : option string;
  fact_bssid : option (list Z);
}.

Definition WifiNetworkFacts_new (ssid bssid : option string) : Result WifiSceneError WifiNetworkFacts :=
  let ssid :=
    match ssid with
    | Some value => if String.eqb value "<unknown ssid>" then None else Some value
    | None => None
    end in
  ssid ← transpose_map validate_ssid ssid;
  bssid ← transpose_map parse_bssid bssid;
  match ssid, bssid with
  | None, None => Err NetworkUnavailable
  | _, _ => Ok (mkFacts ssid bssid)
  end.

Definition status_fields (output : list Z) : list (list Z) :=
  trim_text <$> (lines output ≫= split_on 44).
(** One field of the status: it may set the BSSID or the SSID seen so far. *)
Definition status_field (found : option string * option string) (field : list Z) :
    option string * option string :=
  let '(ssid, bssid) := found in
  match strip_prefix (bytes "BSSID:") field with
  | Some value =>
      let value := trim_text value in
      if len value =? 0 then found else (ssid, Some (of_bytes value))
  | None =>
      match split_once_str (bytes "SSID:") field with
      | Some (prefix, value) =>
          if has_suffix [66] prefix then found
          else
            let value := trim_matches 34 (trim_text value) in
            if len value =? 0 then found else (Some (of_bytes value), bssid)
      | None => found
      end
  end.
Definition from_android_status (output : list Z) : Result WifiSceneError WifiNetworkFacts :=
  if 64 * 1024 <? len output then Err InvalidStatus
  else
    let '(ssid, bssid) := fold_left status_field (status_fields output) (None, None) in
    WifiNetworkFacts_new ssid bssid.

(** [CommandWifiFactsSource::current] *)
Definition wifi_current {B} `{!ProbeBackend B} : Mut B WifiSceneError WifiNetworkFacts := fun backend =>
  match probe_run WifiStatus backend with
  | (Err _, b) => (Err WifiProbeFailed, b)
  | (Ok output, b) =>
      if negb (success output) then (Err WifiProbeFailed, b)
      else (from_android_status (stdout output), b)
  end.

(** ** Rules *)
Inductive WifiSceneAction : Type := EnableProxy | DisableProxy.
Definition scene_service_enabled (a : WifiSceneAction) : bool :=
  match a with EnableProxy => true | DisableProxy => false end.

Record WifiSceneRule : Type := mkSceneRule {
  scene_id : string;
  scene_ssid : option string;
  scene_bssid : option (list Z);
  scene_action : WifiSceneAction;
}.
Definition WifiSceneRule_new (id : string) (ssid bssid : option string) (action : WifiSceneAction) :
    Result WifiSceneError WifiSceneRule :=
  if String.eqb id "" || (MAX_SCENE_ID_BYTES <? str_len id)
     || negb (forallb (fun b => is_ascii_alphanumeric b || (b =? 45) || (b =? 95)) (bytes id))
  then Err WifiInvalidRule
  else
    ssid ← transpose_map validate_ssid ssid;
    bssid ← transpose_map parse_bssid bssid;
    match ssid, bssid with
    | None, None => Err WifiInvalidRule
    | _, _ => Ok (mkSceneRule id ssid bssid action)
    end.

Definition scene_matches (r : WifiSceneRule) (facts : WifiNetworkFacts) : bool :=
  match scene_ssid r with Some s => bool_decide (fact_ssid facts = Some s) | None => true end
  && match scene_bssid r with Some b => bool_decide (fact_bssid facts = Some b) | None => true end.
Definition specificity (r : WifiSceneRule) : Z :=
  match scene_ssid r with Some _ => 1 | None => 0 end
  + 2 * match scene_bssid r with Some _ => 1 | None => 0 end.

Record WifiSceneDecision : Type := mkSceneDecision {
  decision_scene : string;
  decision_action : WifiSceneAction;
}.
Record WifiSceneMatcher : Type := mkMatcher { scene_rules : list WifiSceneRule }.

Definition scene_clash (previous rule : WifiSceneRule) : bool :=
  String.eqb (scene_id previous) (scene_id rule)
  || (bool_decide (scene_ssid previous = scene_ssid rule)
      && bool_decide (scene_bssid previous = scene_bssid rule)).
(** [for (index, rule)]: each rule against the ones before it. *)
Fixpoint check_scenes (before rules : list WifiSceneRule) : Result WifiSceneError unit :=
  match rules with
  | [] => Ok tt
  | rule :: rest =>
      if existsb (fun previous => scene_clash previous rule) before then Err WifiDuplicateRule
      else check_scenes (before ++ [rule]) rest
  end.
Definition WifiSceneMatcher_new (rules : list WifiSceneRule) : Result WifiSceneError WifiSceneMatcher :=
  if MAX_SCENES <? len rules then Err TooManyRules
  else _ ← check_scenes [] rules; Ok (mkMatcher rules).

Definition select_scene (selected : option WifiSceneRule) (rule : WifiSceneRule) :
    option WifiSceneRule :=
  match selected with
  | None => Some rule
  | Some current => if specificity current <? specificity rule then Some rule else selected
  end.
Definition evaluate (m : WifiSceneMatcher) (facts : WifiNetworkFacts) : option WifiSceneDecision :=
  (fun r => mkSceneDecision (scene_id r) (scene_action r))
  <$> fold_left select_scene (List.filter (fun r => scene_matches r facts) (scene_rules m)) None.

(** ** Lemmas *)
Definition clashes (a b : WifiSceneRule) : Prop := scene_clash a b = true.
#[export] Instance clashes_sym : Symmetric clashes.
Proof.
  intros a b. unfold clashes, scene_clash. rewrite String.eqb_sym.
  rewrite (bool_decide_ext (scene_ssid a = scene_ssid b) (scene_ssid b = scene_ssid a)) by done.
  by rewrite (bool_decide_ext (scene_bssid a = scene_bssid b) (scene_bssid b = scene_bssid a)).
Qed.

Lemma check_scenes_ok before rules :
  check_scenes before rules = Ok tt <->
  (forall a b, a ∈ before -> b ∈ rules -> ~ clashes a b)
  /\ ForallOrdPairs (fun a b => ~ clashes a b) rules.
Proof.
  revert before. induction rules as [|r rules IH]; intros before; simpl.
  - split; [intros _; split; [intros ? ? ? []%elem_of_nil|constructor]|done].
  - destruct (existsb _ before) eqn:E.
    + split; [done|]. intros [Hb _]. apply existsb_exists in E as (a & Ha & Hc).
      exfalso. eapply (Hb a r); [by apply list_elem_of_In|by left|done].
    + rewrite IH. setoid_rewrite elem_of_app. setoid_rewrite list_elem_of_singleton.
      setoid_rewrite elem_of_cons. split.
      * intros [Hb Hr]. split.
        -- intros a b Ha [->|Hb']; [|by apply Hb; [left|]].
           intros Hc. pose proof (existsb_false_elem _ _ E a Ha) as Hf. unfold clashes in Hc.
           simpl in Hf. congruence.
        -- constructor; [|done]. apply Forall_forall. intros b Hin. apply Hb; [by right|done].
      * intros [Hb Hr]. inversion Hr as [|? ? Hall Hrest]; subst. split; [|done].
        intros a b [Ha| ->] Hin; [by apply Hb; [|right]|]. rewrite Forall_forall in Hall. by apply Hall.
Qed.

(** Of two matching rules of a matcher, one is more specific. *)
Lemma scene_specificity_inj rules facts a b :
  check_scenes [] rules = Ok tt -> a ∈ rules -> b ∈ rules ->
  scene_matches a facts = true -> scene_matches b facts = true -> specificity a = specificity b ->
  a = b.
Proof.
  intros [_ Hp]%check_scenes_ok Ha Hb Hma Hmb Hs.
  apply list_elem_of_In in Ha, Hb. destruct (ForallOrdPairs_In Hp a b Ha Hb) as [->|[Hn|Hn]]; [done|..].
  all: exfalso; apply Hn; try symmetry; unfold clashes, scene_clash, scene_matches, specificity in *.
  all: apply orb_true_iff; right; destruct a as [ia sa ba aa], b as [ib sb bb ab]; simpl in *.
  all: destruct sa, sb, ba, bb; try lia; rewrite ?andb_true_iff, ?bool_decide_eq_true in *; naive_solver congruence.
Qed.

Lemma select_scene_spec rules selected :
  match fold_left select_scene rules selected with
  | Some r => (r ∈ rules \/ selected = Some r)
              /\ (forall x, x ∈ rules \/ selected = Some x -> specificity x <= specificity r)
  | None => rules = [] /\ selected = None
  end.
Proof.
  revert selected. induction rules as [|r rules IH]; intros selected; simpl.
  - destruct selected; [|done]. split; [by right|]. intros x [[]%elem_of_nil|[= ->]]. lia.
  - specialize (IH (select_scene selected r)).
    destruct (fold_left select_scene rules (select_scene selected r)) as [w|].
    + destruct IH as [Hin Hmax]. setoid_rewrite elem_of_cons.
      assert (forall x, x = r \/ selected = Some x ->
                exists y, select_scene selected r = Some y /\ specificity x <= specificity y) as Hsel.
      { intros x Hx. unfold select_scene. destruct selected as [c|]; [|naive_solver lia].
        destruct (specificity c <? specificity r) eqn:E; eexists; (split; [done|]);
          destruct Hx as [->|[= ->]]; lia. }
      split.
      * destruct Hin as [?|Hw]; [naive_solver|]. unfold select_scene in Hw.
        destruct selected; [destruct (_ <? _)|]; naive_solver.
      * intros x Hx. assert (x ∈ rules \/ (x = r \/ selected = Some x)) as [Hin'|Hx'] by naive_solver;
          [apply Hmax; by left|].
        destruct (Hsel x Hx') as (y & Hy & Hle). specialize (Hmax y (or_intror Hy)). lia.
    + destruct IH as [_ Hn]. unfold select_scene in Hn. destruct selected; [destruct (_ <? _)|]; done.
Qed.

(** ** Theorems *)

(** The scene of a network is decided by the rules as a set, not by their order: a
    decision is that of the one matching rule that is more specific than every other
    matching rule (a BSSID outweighs an SSID, both outweigh either), and there is none
    exactly when no rule matches. *)
Theorem wifi_scene_exact rules m facts d :
  WifiSceneMatcher_new rules = Ok m ->
  (evaluate m facts = Some d <->
   exists r, r ∈ rules /\ scene_matches r facts = true /\ d = mkSceneDecision (scene_id r) (scene_action r)
     /\ forall x, x ∈ rules -> scene_matches x facts = true -> x <> r -> specificity x < specificity r)
  /\ (evaluate m facts = None <-> forall r, r ∈ rules -> scene_matches r facts = false).
Proof.
  unfold WifiSceneMatcher_new. destruct (MAX_SCENES <? len rules); [done|].
  destruct (check_scenes [] rules) as [[]|] eqn:Hc; [|done]. intros [= <-].
  unfold evaluate. cbn [scene_rules].
  set (hits := List.filter (fun r => scene_matches r facts) rules).
  assert (forall x, x ∈ hits <-> x ∈ rules /\ scene_matches x facts = true) as Hhits.
  { intros x. unfold hits. by rewrite !list_elem_of_In, filter_In. }
  pose proof (select_scene_spec hits None) as Hs.
  destruct (fold_left select_scene hits None) as [r|] eqn:E.
  - destruct Hs as [[Hr|?] Hmax]; [|done]. apply Hhits in Hr as [Hr Hm].
    assert (forall x, x ∈ rules -> scene_matches x facts = true -> x <> r -> specificity x < specificity r)
      as Hbest.
    { intros x Hx Hmx Hne. assert (specificity x <> specificity r) as Hn.
      { intros Heq. by apply Hne, (scene_specificity_inj rules facts). }
      specialize (Hmax x (or_introl (proj2 (Hhits x) (conj Hx Hmx)))). lia. }
    split; [split|split; [done|]].
    + intros [= <-]. by exists r.
    + intros (r' & Hr' & Hm' & -> & Hbest'). simpl.
      destruct (decide (specificity r' = specificity r)) as [Heq|Hne].
      * by rewrite (scene_specificity_inj rules facts r' r).
      * assert (r <> r') as Hrr by congruence. specialize (Hbest r' Hr' Hm' (not_eq_sym Hrr)).
        specialize (Hbest' r Hr Hm Hrr). lia.
    + intros Hnone. by rewrite Hnone in Hm.
  - destruct Hs as [Hs _]. split; [split; [done|]|split; [|done]].
    + intros (r & Hr & Hm & _). assert (r ∈ hits) as Hin by (by apply Hhits).
      rewrite Hs in Hin. by apply elem_of_nil in Hin.
    + intros _ r Hr. destruct (scene_matches r facts) eqn:Hm; [|done].
      assert (r ∈ hits) as Hin by (by apply Hhits). rewrite Hs in Hin. by apply elem_of_nil in Hin.
Qed.

Lemma wifi_scene_exact_witness :
  let home := mkSceneRule "home" (Some "Home") None DisableProxy in
  let desk := mkSceneRule "desk" None (Some [1; 2; 3; 4; 5; 6]) EnableProxy in
  let facts := mkFacts (Some "Home") (Some [1; 2; 3; 4; 5; 6]) in
  evaluate (mkMatcher [home; desk]) facts = Some (mkSceneDecision "desk" EnableProxy).
Proof.
  intros home desk facts.
  apply (wifi_scene_exact [home; desk] (mkMatcher [home; desk]) facts); [reflexivity|].
  exists desk. split; [right; left|]. split; [reflexivity|]. split; [reflexivity|].
  intros x Hx _ Hne. apply elem_of_cons in Hx as [->|Hx]; [reflexivity|].
  by apply list_elem_of_singleton in Hx.
Defined.

(** The status of Android's [cmd wifi status]. *)
Example wifi_status_example :
  from_android_status (bytes "WifiInfo: SSID: Home, BSSID: 00:11:22:aa:bb:cc, MAC: x") = Ok (mkFacts (Some "Home") (Some [0; 17; 34; 170; 187; 204])).
Proof. vm_compute. reflexivity. Qed.
