(* ===== verification/Apps.v ===== *)
(** * Apps: Android applications

    [nethop-android/src/apps.rs]: the package listings of the started users, the
    catalogue built from them, and the two ways a selection of packages becomes UIDs,
    [compile_selection] against a catalogue and [resolve_selection] against fresh
    listings.  A [BTreeSet] is a [BTreeMap] to [unit]. *)

From S2P Require Import Prelude Text Ordering BTreeMap Capability Probe.

Local Open Scope Z_scope.

Definition MAX_APPS : Z := 20000.
Definition MAX_PACKAGES_PER_UID : Z := 128.
Definition MAX_PACKAGE_BYTES : Z := 255.
Definition MAX_STARTED_USERS : Z := 32.
Definition PER_USER_RANGE : Z := 100000.

Inductive AppCatalogError : Type :=
| QueryFailed | InvalidUserList | InvalidLine | InvalidPackage | UserUidMismatch
| DuplicatePackage | DuplicateUser | UnclassifiedPackage | AmbiguousClassification
| ClassificationOutsideFullSet | TooManyApps | SharedUidTooLarge | UnknownPackage.

Inductive AppClass : Type := SystemApp | UserApp.
#[export] Instance AppClass_eq_dec : EqDecision AppClass.
Proof. solve_decision. Defined.
Record AppIdentity : Type := mkApp {
  app_user : Z;
  app_uid : Z;
  app_package : string;
  app_class : AppClass;
}.
Record UidGroup : Type := mkGroup {
  group_user : Z;
  group_uid : Z;
  group_packages : list string;
  group_class : AppClass;
}.
Record PackageSnapshot : Type := mkSnapshot {
  snap_user : Z;
  snap_all : list Z;
  snap_system : list Z;
  snap_user_apps : list Z;
}.
Record AppCatalog : Type := mkCatalog { apps : list AppIdentity; app_groups : list UidGroup }.

(** ** Parsing the listings *)
Definition valid_package_name (package : list Z) : bool :=
  negb (len package =? 0) && (len package <=? MAX_PACKAGE_BYTES)
  && forallb (fun b => is_ascii_alphanumeric b || (b =? 46) || (b =? 95) || (b =? 45)) package
  && negb (has_prefix [46] package) && negb (has_suffix [46] package)
  && negb (contains_str [46; 46] package).

Definition validate_uid_user (uid user : Z) : Result AppCatalogError unit :=
  if uid / PER_USER_RANGE =? user then Ok tt else Err UserUidMismatch.

Definition parse_package_line (line : list Z) : Result AppCatalogError (list Z * Z) :=
  let fields := split_ascii_whitespace line in
  match (match fields with first :: _ => strip_prefix (bytes "package:") first | [] => None end) with
  | None => Err InvalidLine
  | Some package =>
      match (match fields with
             | _ :: second :: _ =>
                 match strip_prefix (bytes "uid:") second with
                 | Some value => parse_uint 32 value
                 | None => None
                 end
             | _ => None
             end) with
      | None => Err InvalidLine
      | Some uid =>
          if (2 <? len fields) || negb (valid_package_name package) then Err InvalidPackage
          else Ok (package, uid)
      end
  end.
Fixpoint package_lines (ls : list (list Z)) (packages : BTreeMap string Z) :
    Result AppCatalogError (BTreeMap string Z) :=
  match ls with
  | [] => Ok packages
  | line :: rest =>
      '(package, uid) ← parse_package_line line;
      if bt_contains_key (of_bytes package) packages then Err DuplicatePackage
      else package_lines rest (bt_insert (of_bytes package) uid packages)
  end.
Definition parse_packages (input : list Z) : Result AppCatalogError (BTreeMap string Z) :=
  package_lines (List.filter (fun line => negb (len (trim_text line) =? 0)) (lines input)) [].

Fixpoint started_users (ls : list (list Z)) (users : BTreeMap Z unit) :
    Result AppCatalogError (BTreeMap Z unit) :=
  match ls with
  | [] => Ok users
  | line :: rest =>
      match strip_prefix (bytes "UserInfo{") (trim_text line) with
      | None => started_users rest users
      | Some info =>
          match split_once 125 info with
          | None => Err InvalidUserList
          | Some (body, state) =>
              if negb (bool_decide (bytes "running" ∈ split_ascii_whitespace state))
              then started_users rest users
              else
                let id := match split_once 58 body with
                          | Some (value, _) => parse_uint 32 value
                          | None => None
                          end in
                match id with
                | Some id =>
                    if id <=? umax 32 / PER_USER_RANGE then
                      let users := bt_insert id tt users in
                      if MAX_STARTED_USERS <? len users then Err InvalidUserList
                      else started_users rest users
                    else Err InvalidUserList
                | None => Err InvalidUserList
                end
          end
      end
  end.
Definition parse_started_users (input : list Z) : Result AppCatalogError (list Z) :=
  users ← started_users (lines input) [];
  if len users =? 0 then Err InvalidUserList else Ok (bt_keys users).

(** ** The catalogue *)
Definition classify (system user : BTreeMap string Z) (package : string) (uid : Z) :
    Result AppCatalogError AppClass :=
  let is_system := bool_decide (bt_get package system = Some uid) in
  let is_user := bool_decide (bt_get package user = Some uid) in
  match is_system, is_user with
  | true, false => Ok SystemApp
  | false, true => Ok UserApp
  | false, false => Err UnclassifiedPackage
  | true, true => Err AmbiguousClassification
  end.
Fixpoint snapshot_apps (user : Z) (system users all : BTreeMap string Z) :
    Result AppCatalogError (list AppIdentity) :=
  match all with
  | [] => Ok []
  | (package, uid) :: rest =>
      _ ← validate_uid_user uid user;
      class ← classify system users package uid;
      found ← snapshot_apps user system users rest;
      Ok (mkApp user uid package class :: found)
  end.
Fixpoint collect_snapshots (snapshots : list PackageSnapshot) (users : list Z) (found : list AppIdentity) :
    Result AppCatalogError (list AppIdentity) :=
  match snapshots with
  | [] => Ok found
  | s :: rest =>
      if bool_decide (snap_user s ∈ users) then Err DuplicateUser
      else
        all ← parse_packages (snap_all s);
        system ← parse_packages (snap_system s);
        user ← parse_packages (snap_user_apps s);
        new ← snapshot_apps (snap_user s) system user all;
        let found := found ++ new in
        if existsb (fun package => negb (bt_contains_key package all)) (bt_keys system ++ bt_keys user)
        then Err ClassificationOutsideFullSet
        else if MAX_APPS <? len found then Err TooManyApps
        else collect_snapshots rest (snap_user s :: users) found
  end.

Definition app_key (a : AppIdentity) : Z * (Z * string) := (app_user a, (app_uid a, app_package a)).
(** [entry((user, uid)).or_default().push(app)] *)
Definition group_push (grouped : BTreeMap (Z * Z) (list AppIdentity)) (a : AppIdentity) :
    BTreeMap (Z * Z) (list AppIdentity) :=
  let key := (app_user a, app_uid a) in
  bt_insert key (default [] (bt_get key grouped) ++ [a]) grouped.
Fixpoint finish_groups (grouped : BTreeMap (Z * Z) (list AppIdentity)) :
    Result AppCatalogError (list UidGroup) :=
  match grouped with
  | [] => Ok []
  | ((user, uid), members) :: rest =>
      if MAX_PACKAGES_PER_UID <? len members then Err SharedUidTooLarge
      else
        let class := if existsb (fun a => bool_decide (app_class a = SystemApp)) members
                     then SystemApp else UserApp in
        groups ← finish_groups rest;
        Ok (mkGroup user uid (app_package <$> members) class :: groups)
  end.
Definition build_groups (l : list AppIdentity) : Result AppCatalogError (list UidGroup) :=
  finish_groups (fold_left group_push l []).

Definition from_snapshots (snapshots : list PackageSnapshot) : Result AppCatalogError AppCatalog :=
  found ← collect_snapshots snapshots [] [];
  let found := stable_sort_by_key app_key found in
  groups ← build_groups found;
  Ok (mkCatalog found groups).

Definition catalog_app (c : AppCatalog) (user : Z) (package : string) : option AppIdentity :=
  List.find (fun a => (app_user a =? user) && String.eqb (app_package a) package) (apps c).
Definition catalog_group (c : AppCatalog) (user uid : Z) : option UidGroup :=
  List.find (fun g => (group_user g =? user) && (group_uid g =? uid)) (app_groups c).

(** ** Loading *)
Section backend.
Context {B : Type} `{!ProbeBackend B}.

Definition run_packages (command : ProbeCommand) : Mut B AppCatalogError (list Z) := fun backend =>
  match probe_run command backend with
  | (Ok output, b) => (if success output then Ok (stdout output) else Err QueryFailed, b)
  | (Err _, b) => (Err QueryFailed, b)
  end.
Definition query_packages (kind : PackageListKind) (user : Z) : Mut B AppCatalogError (list Z) :=
  run_packages (PackageList kind user).
Fixpoint load_users (users : list Z) : Mut B AppCatalogError (list PackageSnapshot) :=
  match users with
  | [] => mret []
  | user :: rest =>
      all ← query_packages AllPackages user;
      system ← query_packages SystemPackages user;
      own ← query_packages UserPackages user;
      more ← load_users rest;
      mret (mkSnapshot user all system own :: more)
  end.
Definition load_started_users : Mut B AppCatalogError AppCatalog :=
  output ← run_packages UserList;
  users ← mut_lift (parse_started_users output);
  snapshots ← load_users users;
  mut_lift (from_snapshots snapshots).
End backend.

(** ** Selections *)
Inductive AppSelectionMode : Type := Blacklist | Whitelist.
Record SharedUidExpansion : Type := mkExpansion {
  exp_user : Z;
  exp_uid : Z;
  affected_packages : list string;
}.
Record CompiledAppSelection : Type := mkCompiled {
  sel_include : list Z;
  sel_exclude : list Z;
  sel_expansions : list SharedUidExpansion;
}.
Record ResolvedAppSelection : Type := mkResolved {
  res_include : list Z;
  res_exclude : list Z;
  unresolved_packages : list (Z * string);
  res_expansions : list SharedUidExpansion;
}.
Definition is_pending (s : ResolvedAppSelection) : bool := negb (len (unresolved_packages s) =? 0).

Fixpoint find_apps (c : AppCatalog) (selected : list (Z * string)) : Result AppCatalogError (list AppIdentity) :=
  match selected with
  | [] => Ok []
  | (user, package) :: rest =>
      a ← ok_or (catalog_app c user package) UnknownPackage;
      more ← find_apps c rest;
      Ok (a :: more)
  end.
Fixpoint find_expansions (c : AppCatalog) (packages : list (Z * string)) (uids : list (Z * Z)) :
    Result AppCatalogError (list SharedUidExpansion) :=
  match uids with
  | [] => Ok []
  | (user, uid) :: rest =>
      g ← ok_or (catalog_group c user uid) UnknownPackage;
      let chosen := List.filter (fun p => bool_decide ((user, p) ∈ packages)) (group_packages g) in
      more ← find_expansions c packages rest;
      Ok (if (1 <? len (group_packages g)) && (len chosen <? len (group_packages g))
          then mkExpansion user uid (group_packages g) :: more else more)
  end.
Definition by_mode (mode : AppSelectionMode) (uids : list Z) : list Z * list Z :=
  match mode with Whitelist => (uids, []) | Blacklist => ([], uids) end.
Definition compile_selection (c : AppCatalog) (mode : AppSelectionMode) (selected : list (Z * string)) :
    Result AppCatalogError CompiledAppSelection :=
  chosen ← find_apps c selected;
  let uids := sort_dedup ((fun a => (app_user a, app_uid a)) <$> chosen) in
  expansions ← find_expansions c ((fun a => (app_user a, app_package a)) <$> chosen) uids;
  let '(include, exclude) := by_mode mode (snd <$> uids) in
  Ok (mkCompiled include exclude expansions).

Fixpoint insert_listing (user : Z) (listing : list (string * Z)) (packages : BTreeMap (Z * string) Z) :
    Result AppCatalogError (BTreeMap (Z * string) Z) :=
  match listing with
  | [] => Ok packages
  | (package, uid) :: rest =>
      _ ← validate_uid_user uid user;
      insert_listing user rest (bt_insert (user, package) uid packages)
  end.
Fixpoint list_users {B} `{!ProbeBackend B} (users : list Z) (packages : BTreeMap (Z * string) Z) :
    Mut B AppCatalogError (BTreeMap (Z * string) Z) :=
  match users with
  | [] => mret packages
  | user :: rest =>
      output ← run_packages (PackageList AllPackages user);
      listing ← mut_lift (parse_packages output);
      packages ← mut_lift (insert_listing user listing packages);
      list_users rest packages
  end.
Definition resolve_listed (packages : BTreeMap (Z * string) Z) (mode : AppSelectionMode)
    (selected : list (Z * string)) : ResolvedAppSelection :=
  let uids := sort_dedup (omap (fun key => pair key.1 <$> bt_get key packages) selected) in
  let unresolved := List.filter (fun key => negb (bt_contains_key key packages)) selected in
  let expansions :=
    omap (fun '(user, uid) =>
      let affected := omap (fun '((u, package), id) =>
                              if (u =? user) && (id =? uid) then Some package else None) packages in
      if 1 <? len affected then Some (mkExpansion user uid affected) else None) uids in
  let '(include, exclude) := by_mode mode (snd <$> uids) in
  mkResolved include exclude unresolved expansions.
Definition resolve_selection {B} `{!ProbeBackend B} (mode : AppSelectionMode)
    (selected : list (Z * string)) : Mut B AppCatalogError ResolvedAppSelection :=
  packages ← list_users (sort_dedup (fst <$> selected)) [];
  mret (resolve_listed packages mode selected).

(** ** Lemmas *)
Definition selects (mode : AppSelectionMode) (uids include exclude : list Z) : Prop :=
  (include, exclude) = by_mode mode uids.

(** A fresh resolution that left nothing pending found every selected package, and its
    UIDs are those of the selected packages and no others. *)
Lemma resolve_listed_uids packages mode selected :
  is_pending (resolve_listed packages mode selected) = false ->
  let s := resolve_listed packages mode selected in
  (forall key, key ∈ selected -> is_Some (bt_get key packages))
  /\ exists uids, selects mode uids (res_include s) (res_exclude s)
     /\ forall uid, uid ∈ uids <-> exists key, key ∈ selected /\ bt_get key packages = Some uid.
Proof.
  unfold resolve_listed, is_pending, selects.
  set (found := sort_dedup _). destruct (by_mode mode (snd <$> found)) as [inc exc] eqn:Em.
  cbn [unresolved_packages res_include res_exclude]. intros Hp. apply negb_false_iff, Z.eqb_eq in Hp.
  split.
  - intros key Hkey. destruct (bt_get key packages) eqn:E; [done|]. exfalso.
    assert (key ∈ List.filter (fun key => negb (bt_contains_key key packages)) selected) as Hin.
    { rewrite list_elem_of_In, filter_In, <- list_elem_of_In. unfold bt_contains_key. by rewrite E. }
    destruct (List.filter _ selected); [by apply elem_of_nil in Hin|]. unfold len in Hp. simpl in Hp. lia.
  - exists (snd <$> found). split; [done|]. intros uid. unfold found.
    rewrite list_elem_of_fmap. setoid_rewrite sort_dedup_elem_of. setoid_rewrite list_elem_of_omap. split.
    + intros ([u uid'] & -> & key & Hkey & Hg). exists key. split; [done|].
      by destruct (bt_get key packages); simplify_eq/=.
    + intros (key & Hkey & Hg). exists (key.1, uid). split; [done|]. exists key. split; [done|].
      by rewrite Hg.
Qed.

Lemma insert_listing_users user listing packages packages' :
  (forall k uid, bt_get k packages = Some uid -> uid / PER_USER_RANGE = k.1) ->
  insert_listing user listing packages = Ok packages' ->
  forall k uid, bt_get k packages' = Some uid -> uid / PER_USER_RANGE = k.1.
Proof.
  revert packages. induction listing as [|[p id] listing IH]; simpl; intros packages Hinv; [by intros [= <-]|].
  unfold validate_uid_user. destruct (id / PER_USER_RANGE =? user) eqn:E; [|done]. simpl. intros H.
  eapply IH, H. intros k uid. destruct (decide (k = (user, p))) as [->|Hne].
  - rewrite bt_get_insert_eq. intros [= <-]. simpl. lia.
  - rewrite bt_get_insert_other by done. apply Hinv.
Qed.
Lemma list_users_users {B} `{!ProbeBackend B} users packages packages' (b b' : B) :
  (forall k uid, bt_get k packages = Some uid -> uid / PER_USER_RANGE = k.1) ->
  list_users users packages b = (Ok packages', b') ->
  forall k uid, bt_get k packages' = Some uid -> uid / PER_USER_RANGE = k.1.
Proof.
  revert packages b. induction users as [|u users IH]; intros packages b Hinv; simpl.
  - by intros [= <- _].
  - intros (output & b1 & _ & H)%bind_Ok. apply bind_Ok in H as (listing & b2 & _ & H).
    apply bind_Ok in H as (packages1 & b3 & Hi & H). injection Hi as Hi _.
    eapply IH, H. by eapply insert_listing_users.
Qed.

(** *** Groups *)
Lemma group_push_keys l grouped k :
  k ∈ bt_keys (fold_left group_push l grouped)
  <-> k ∈ bt_keys grouped \/ exists a, a ∈ l /\ k = (app_user a, app_uid a).
Proof.
  revert grouped. induction l as [|a l IH]; intros grouped; simpl.
  - split; [by left|]. intros [?|(? & []%elem_of_nil & _)]. done.
  - rewrite IH. unfold group_push. rewrite bt_insert_keys. setoid_rewrite elem_of_cons. naive_solver.
Qed.
Lemma finish_groups_find grouped groups user uid :
  finish_groups grouped = Ok groups -> (user, uid) ∈ bt_keys grouped ->
  is_Some (List.find (fun g => (group_user g =? user) && (group_uid g =? uid)) groups).
Proof.
  revert groups. induction grouped as [|[[u i] members] grouped IH]; intros groups; [intros _ []%elem_of_nil|].
  simpl. destruct (MAX_PACKAGES_PER_UID <? len members); [done|].
  destruct (finish_groups grouped) as [gs|] eqn:E; [|done]. simpl. intros [= <-] Hin. simpl.
  destruct ((u =? user) && (i =? uid)) eqn:Eq; [done|]. apply IH; [done|].
  apply elem_of_cons in Hin as [Heq|Hin]; [|done]. simplify_eq. by rewrite !Z.eqb_refl in Eq.
Qed.
Lemma catalog_group_some snapshots c a :
  from_snapshots snapshots = Ok c -> a ∈ apps c -> is_Some (catalog_group c (app_user a) (app_uid a)).
Proof.
  unfold from_snapshots. destruct (collect_snapshots snapshots [] []) as [l|]; [|done]. simpl.
  destruct (build_groups _) as [gs|] eqn:E; [|done]. simpl. intros [= <-] Ha.
  eapply finish_groups_find; [exact E|]. apply group_push_keys. right. by exists a.
Qed.

Lemma find_apps_ok c selected chosen :
  find_apps c selected = Ok chosen ->
  Forall2 (fun key a => catalog_app c key.1 key.2 = Some a) selected chosen.
Proof.
  revert chosen. induction selected as [|[u p] rest IH]; intros chosen; simpl; [intros [= <-]; constructor|].
  destruct (catalog_app c u p) as [a|] eqn:Ea; [|done]. simpl. destruct (find_apps c rest); [|done].
  intros [= <-]. constructor; [done|]. by apply IH.
Qed.
Lemma catalog_app_spec c u p a :
  catalog_app c u p = Some a -> a ∈ apps c /\ app_user a = u /\ app_package a = p.
Proof.
  intros [Ha Hb]%List.find_some. apply andb_true_iff in Hb as [H1 H2].
  split; [by apply list_elem_of_In|]. split; [lia|by apply String.eqb_eq].
Qed.
Lemma find_expansions_ok c packages uids :
  (forall u i, (u, i) ∈ uids -> is_Some (catalog_group c u i)) ->
  exists e, find_expansions c packages uids = Ok e.
Proof.
  induction uids as [|[u i] uids IH]; intros Hg; simpl; [eauto|].
  destruct (Hg u i) as [g ->]; [by left|]. simpl.
  destruct IH as [e ->]; [|simpl; eauto]. intros ? ? ?. apply Hg. by right.
Qed.

(** A selection compiles against a catalogue exactly when every package is in it, and its
    UIDs are those of the selected packages. *)
Lemma compile_selection_exact snapshots c mode selected :
  from_snapshots snapshots = Ok c ->
  match compile_selection c mode selected with
  | Ok s => exists uids, selects mode uids (sel_include s) (sel_exclude s)
      /\ forall uid, uid ∈ uids <->
           exists u p a, (u, p) ∈ selected /\ catalog_app c u p = Some a /\ app_uid a = uid
  | Err e => e = UnknownPackage /\ exists u p, (u, p) ∈ selected /\ catalog_app c u p = None
  end.
Proof.
  intros Hc. unfold compile_selection. destruct (find_apps c selected) as [chosen|e] eqn:Ef; simpl.
  - apply find_apps_ok in Ef. set (uids := sort_dedup _).
    assert (forall a, a ∈ chosen <-> exists u p, (u, p) ∈ selected /\ catalog_app c u p = Some a) as Hch.
    { intros a. split.
      - intros [i Hi]%list_elem_of_lookup_1. destruct (Forall2_lookup_r _ _ _ _ _ Ef Hi) as ([u p] & Hk & Ha).
        exists u, p. split; [by eapply list_elem_of_lookup_2|done].
      - intros (u & p & [i Hi]%list_elem_of_lookup_1 & Ha).
        destruct (Forall2_lookup_l _ _ _ _ _ Ef Hi) as (a' & Hk & Ha'). simpl in Ha'.
        assert (a' = a) as -> by congruence. by eapply list_elem_of_lookup_2. }
    destruct (find_expansions_ok c ((fun a => (app_user a, app_package a)) <$> chosen) uids) as [e ->].
    { intros u i Hin. unfold uids in Hin. rewrite sort_dedup_elem_of in Hin.
      apply list_elem_of_fmap in Hin as (a & [= -> ->] & Ha). eapply catalog_group_some; [exact Hc|].
      apply Hch in Ha as (u & p & _ & Ha). by apply catalog_app_spec in Ha as [? _]. }
    simpl. destruct (by_mode mode (snd <$> uids)) as [inc exc] eqn:Em. simpl.
    exists (snd <$> uids). split; [done|]. intros uid. unfold uids. rewrite list_elem_of_fmap.
    setoid_rewrite sort_dedup_elem_of. setoid_rewrite list_elem_of_fmap. setoid_rewrite Hch. split.
    + intros (? & -> & a & -> & u & p & ? & ?). by exists u, p, a.
    + intros (u & p & a & Hin & Ha & <-). eexists (_, _). split; [reflexivity|]. exists a. eauto.
  - revert e Ef. induction selected as [|[u p] rest IH]; simpl; [done|]. intros e.
    destruct (catalog_app c u p) as [a|] eqn:Ea; simpl.
    + destruct (find_apps c rest) as [|e'] eqn:Er; [done|]. intros [= <-].
      destruct (IH e' eq_refl) as [-> (u' & p' & Hin & Hn)]. split; [done|]. exists u', p'. split; [by right|done].
    + intros [= <-]. split; [done|]. exists u, p. split; [by left|done].
Qed.

(** The dump of [cmd package list packages -U]. *)
Example parse_packages_example :
  parse_packages (bytes "package:com.example.a uid:10123" ++ [10]
                  ++ bytes "package:android uid:1000" ++ [10])
  = Ok [("android", 1000); ("com.example.a", 10123)].
Proof. vm_compute. reflexivity. Qed.
