(* ===== verification/Health.v ===== *)
(** * Health: is the plan in place, is it gone

    Models the verifiers that read the tools' output back: [NetworkPlanVerifier] of
    crates/nethop-android/src/health.rs, [TunHealthVerifier] of tun.rs,
    [ForwardingPlanVerifier] of forwarding.rs, over the [ProbeBackend] of Probe; and
    [TunRunner] of crates/nethopd/src/tun_runner.rs, which polls one of them. *)

From S2P Require Import Prelude Text Ordering Capture Capability Interfaces Rules Plan Kernel Executor Forwarding Probe.

Local Open Scope Z_scope.

Inductive NetworkHealthError : Type :=
| HealthInvalidPolicy | HealthProbeFailed | InboundPortMissing | OwnerMarkerMissing
| ReplyBypassMissing | LoopbackBypassMissing | DnsCaptureMissing | DnsGuardMissing
| PolicyRuleMissing | RouteMissing | ForwardingChainMissing | ForwardingInterfaceJumpMissing
| ForwardingIpv6GuardMissing | CaptureStillAttached | TunInterfaceMissing.
Definition health_code (e : NetworkHealthError) : string :=
  match e with
  | HealthInvalidPolicy => "network_health_invalid_policy"
  | HealthProbeFailed => "network_health_probe_failed"
  | InboundPortMissing => "network_health_inbound_port_missing"
  | OwnerMarkerMissing => "network_health_owner_marker_missing"
  | ReplyBypassMissing => "network_health_reply_bypass_missing"
  | LoopbackBypassMissing => "network_health_loopback_bypass_missing"
  | DnsCaptureMissing => "network_health_dns_capture_missing"
  | DnsGuardMissing => "network_health_dns_guard_missing"
  | PolicyRuleMissing => "network_health_policy_rule_missing"
  | RouteMissing => "network_health_route_missing"
  | ForwardingChainMissing => "network_health_forwarding_chain_missing"
  | ForwardingInterfaceJumpMissing => "network_health_forwarding_interface_jump_missing"
  | ForwardingIpv6GuardMissing => "network_health_forwarding_ipv6_guard_missing"
  | CaptureStillAttached => "network_health_capture_still_attached"
  | TunInterfaceMissing => "network_health_tun_interface_missing"
  end.

Definition prerouting_chain (self : NetworkPlan) : string := "NH_PRE_" +:+ suffix (slot self).
Definition dns_guard_chain (self : NetworkPlan) : string := "NH_DNS_" +:+ suffix (slot self).

(** ** Lines of a snapshot *)

(** [lines().position(p)] *)
Fixpoint position {A} (p : A -> bool) (l : list A) : option nat :=
  match l with
  | [] => None
  | x :: rest => if p x then Some O else S <$> position p rest
  end.
(** [line.starts_with(format!("-A {chain} "))] *)
Definition in_chain (chain : string) (line : list Z) : bool := has_prefix (bytes ("-A " +:+ chain +:+ " ")) line.
Definition says (text : string) (line : list Z) : bool := contains_str (bytes text) line.
Definition before (i j : option nat) : bool :=
  match i, j with Some i, Some j => (i <? j)%nat | _, _ => false end.

Definition words_of (line : list Z) : list (list Z) := split_ascii_whitespace line.
(** [tokens.get(0..2) == Some(&["-A", source])] *)
Definition appends_to (chain : string) (tokens : list (list Z)) : bool :=
  bool_decide (take 2 tokens = [bytes "-A"; bytes chain]).
Definition has_pair (a b : string) (tokens : list (list Z)) : bool :=
  existsb (fun pair => bool_decide (pair = [bytes a; bytes b])) (windows 2 tokens).

Definition capture_attachment_present (snapshot : list Z) (plan : NetworkPlan) : bool :=
  says (owner_marker plan) snapshot
  || existsb (fun chain =>
       says (":" +:+ chain +:+ " ") snapshot
       || existsb (fun line => has_prefix (bytes ("-N " +:+ chain)) line || in_chain chain line) (lines snapshot))
     [capture_chain plan Ipv4; entry_chain plan Ipv4; prerouting_chain plan].

Definition route_targets_capture (routes : list Z) (plan : NetworkPlan) : bool :=
  match capture_interface plan with
  | Some interface => existsb (says ("dev " +:+ interface)) (lines routes)
  | None => false
  end
  || existsb (fun line => says "dev lo" line && bool_decide (plan_mode plan = Tproxy)) (lines routes).

Definition link_output_contains_interface (output : list Z) (interface : string) : bool :=
  existsb (fun line =>
    match split_once 58 line with
    | Some (_, rest) => has_prefix (bytes (interface +:+ ":")) (trim_left rest)
    | None => false
    end) (lines output).

Definition dns_capture_present (snapshot : list Z) (plan : NetworkPlan) : bool :=
  let output_chain := entry_chain plan Ipv4 in
  let pre_chain := prerouting_chain plan in
  forallb (fun protocol =>
    existsb (fun line => in_chain output_chain line && says ("-p " +:+ protocol +:+ " ") line
                         && says "--dport 53 " line && says " -j MARK " line) (lines snapshot)
    && existsb (fun line => in_chain pre_chain line && says ("-p " +:+ protocol +:+ " ") line
                            && says "--dport 53 " line && says " -j TPROXY " line) (lines snapshot))
    ["tcp"; "udp"].

Definition comment_jump_matches (line : list Z) (source marker target : string) : bool :=
  let tokens := words_of line in
  appends_to source tokens
  && has_pair "-m" "comment" tokens
  && existsb (fun pair =>
       match pair with
       | [word; value] => bool_decide (word = bytes "--comment") && bool_decide (trim_matches 34 value = bytes marker)
       | _ => false
       end) (windows 2 tokens)
  && has_pair "-j" target tokens.
Definition mark_argument_matches (line : list Z) (mark mask : Z) : bool :=
  bool_decide (word_after (bytes "--mark") (words_of line) ≫= parse_mark_mask = Some (mark, mask)).

Definition return_before_drop (chain : string) (predicate : list Z -> bool) (ls : list (list Z)) : bool :=
  before
    (position (fun line => in_chain chain line && has_suffix (bytes " -j RETURN") line && predicate line) ls)
    (position (fun line => in_chain chain line && has_suffix (bytes " -j DROP") line) ls).
Definition dns_guard_present (snapshot : list Z) (plan : NetworkPlan) : bool :=
  let chain := dns_guard_chain plan in
  let ls := lines snapshot in
  existsb (fun line => comment_jump_matches line "OUTPUT" (owner_marker plan) chain) ls
  && return_before_drop chain (says "-o lo ") ls
  && return_before_drop chain (fun line =>
       mark_argument_matches line (mark (allocation plan)) (mask (allocation plan))) ls
  && return_before_drop chain (fun line => mark_argument_matches line (plan_bypass_mark plan) (umax 32)) ls
  && forallb (fun p : string * Z =>
       existsb (fun line => in_chain chain line && says ("-p " +:+ p.1 +:+ " ") line
                            && says ("--dport " +:+ dec p.2 +:+ " ") line && says " -j DROP" line) ls)
       [("udp", 53); ("tcp", 53); ("tcp", 853)].

(** [snapshot\[..index\].lines().count()] *)
Definition lines_before (index : nat) (snapshot : list Z) : nat := length (lines (take index snapshot)).
Definition reply_bypass_precedes_capture (snapshot : list Z) (plan : NetworkPlan) : bool :=
  let output_chain := entry_chain plan Ipv4 in
  let pre_chain := prerouting_chain plan in
  match find_str (bytes ("-A " +:+ output_chain +:+ " -m conntrack --ctdir REPLY -j ACCEPT")) snapshot,
        find_str (bytes ("-A " +:+ pre_chain +:+ " -m conntrack --ctdir REPLY -j ACCEPT")) snapshot with
  | Some output_reply, Some pre_reply =>
      before (Some (lines_before output_reply snapshot))
        (position (fun line => in_chain output_chain line && says " -j MARK " line) (lines snapshot))
      && before (Some (lines_before pre_reply snapshot))
           (position (fun line => in_chain pre_chain line && (says " -m socket " line || says " -j TPROXY " line))
              (lines snapshot))
  | _, _ => false
  end.

(** The word after a negated [--mark]. *)
Definition negated_mark (tokens : list (list Z)) : option (list Z) :=
  window ← find (fun w => bool_decide (take 2 w = [bytes "!"; bytes "--mark"])) (windows 3 tokens);
  window !! 2%nat.
Definition loopback_bypass_matches (line : list Z) (chain : string) (a : ResourceCandidate) : bool :=
  let tokens := words_of line in
  appends_to chain tokens && has_pair "-i" "lo" tokens && has_pair "-j" "RETURN" tokens
  && has_pair "-m" "mark" tokens
  && bool_decide (negated_mark tokens ≫= parse_mark_mask = Some (mark a, mask a)).
Definition loopback_bypass_precedes_capture (snapshot : list Z) (plan : NetworkPlan) : bool :=
  let chain := prerouting_chain plan in
  let ls := lines snapshot in
  let bypass := position (fun line => loopback_bypass_matches line chain (allocation plan)) ls in
  before (position (fun line => in_chain chain line && says " -m socket " line) ls) bypass
  && before bypass (position (fun line => in_chain chain line && says " -j TPROXY " line) ls).

Definition policy_rule_matches (line : list Z) (c : ResourceCandidate) : bool :=
  let tokens := words_of line in
  bool_decide (rule_priority_of tokens = Some (rule_priority c))
  && bool_decide (word_after (bytes "fwmark") tokens ≫= parse_mark_mask = Some (mark c, mask c))
  && names_table (route_table c) tokens.

(** ** [NetworkPlanVerifier] *)
Section verifier.
Context {B : Type} `{!ProbeBackend B}.
Abbreviation V := (Mut B NetworkHealthError).

Definition health_run (command : ProbeCommand) : V (list Z) := fun b =>
  match probe_run command b with
  | (Err _, b') => (Err HealthProbeFailed, b')
  | (Ok output, b') => if success output then (Ok (stdout output), b') else (Err HealthProbeFailed, b')
  end.
Definition check (b : bool) (e : NetworkHealthError) : V unit := if b then mret tt else mut_fail e.

Definition verify_owner (plan : NetworkPlan) (family : IpFamily) : V unit :=
  let table := if bool_decide (family = Ipv6) && negb (ipv6_captured plan) then FilterTable else MangleTable in
  snapshot ← health_run (NetfilterSnapshot family table);
  check (says (owner_marker plan) snapshot && says (entry_chain plan family) snapshot) OwnerMarkerMissing ;;
  let captured := bool_decide (family = Ipv4) || ipv6_captured plan in
  check (negb captured || reply_bypass_precedes_capture snapshot plan) ReplyBypassMissing ;;
  check (negb captured || loopback_bypass_precedes_capture snapshot plan) LoopbackBypassMissing ;;
  check (negb captured || dns_capture_present snapshot plan) DnsCaptureMissing.

Definition verify_dns_guard (plan : NetworkPlan) (family : IpFamily) : V unit :=
  if negb (dns_guarded plan) then mret tt
  else
    snapshot ← health_run (NetfilterSnapshot family FilterTable);
    check (dns_guard_present snapshot plan) DnsGuardMissing.

Definition verify_routing (plan : NetworkPlan) (family : IpFamily) : V unit :=
  rules ← health_run (PolicyRules family);
  check (existsb (fun line => policy_rule_matches line (allocation plan)) (lines rules)) PolicyRuleMissing ;;
  routes ← health_run (RouteTable family (route_table (allocation plan)));
  check (existsb (fun line => says "local" line && says "dev lo" line) (lines routes)) RouteMissing.

Definition verify_tun_owner (plan : NetworkPlan) (family : IpFamily) : V unit :=
  snapshot ← health_run (NetfilterSnapshot family MangleTable);
  let chain := capture_chain plan family in
  check (says (owner_marker plan) snapshot && says chain snapshot) OwnerMarkerMissing ;;
  check (existsb (fun line => in_chain chain line && says " -j MARK " line) (lines snapshot)) DnsCaptureMissing.

Definition verify_tun_routing (plan : NetworkPlan) (family : IpFamily) : V unit :=
  rules ← health_run (PolicyRules family);
  check (existsb (fun line => policy_rule_matches line (allocation plan)) (lines rules)) PolicyRuleMissing ;;
  routes ← health_run (RouteTable family (route_table (allocation plan)));
  match capture_interface plan with
  | None => mut_fail RouteMissing
  | Some interface =>
      check (existsb (fun line => says "default" line && says ("dev " +:+ interface) line) (lines routes)) RouteMissing
  end.

(** [line == text] *)
Definition has_line (text : string) (snapshot : list Z) : bool :=
  existsb (fun line => bool_decide (line = bytes text)) (lines snapshot).
Definition jump_line (source interface owner chain : string) : string :=
  "-A " +:+ source +:+ " -i " +:+ interface +:+ " -m comment --comment " +:+ owner +:+ " -j " +:+ chain.

Definition verify_forwarding (plan : NetworkPlan) : V unit :=
  snapshot ← health_run (NetfilterSnapshot Ipv4 FilterTable);
  let chain := "NH_FWD_" +:+ suffix (slot plan) in
  check (has_line ("-N " +:+ chain) snapshot) ForwardingChainMissing ;;
  check (forallb (fun i => has_line (jump_line "PREROUTING" i (forwarding_owner_marker plan) chain) snapshot)
           (forwarding_interfaces plan)) ForwardingInterfaceJumpMissing.
Definition verify_forwarding_ipv6_guard (plan : NetworkPlan) : V unit :=
  snapshot ← health_run (NetfilterSnapshot Ipv6 FilterTable);
  let chain := "NH_FWD6_" +:+ suffix (slot plan) in
  check (has_line ("-N " +:+ chain) snapshot) ForwardingIpv6GuardMissing ;;
  check (forallb (fun i => has_line (jump_line "FORWARD" i (forwarding_owner_marker plan) chain) snapshot)
           (forwarding_interfaces plan)) ForwardingIpv6GuardMissing ;;
  check (has_line ("-A " +:+ chain +:+ " -j DROP") snapshot) ForwardingIpv6GuardMissing.

Definition verify_tun (plan : NetworkPlan) : V unit :=
  verify_tun_owner plan Ipv4 ;;
  verify_tun_routing plan Ipv4 ;;
  verify_dns_guard plan Ipv4 ;;
  if ipv6_captured plan then
    verify_tun_owner plan Ipv6 ;; verify_tun_routing plan Ipv6 ;; verify_dns_guard plan Ipv6
  else if ipv6_guarded plan then verify_owner plan Ipv6
  else mret tt.
Definition verify_tproxy (plan : NetworkPlan) : V unit :=
  verify_owner plan Ipv4 ;;
  verify_dns_guard plan Ipv4 ;;
  verify_routing plan Ipv4 ;;
  (if negb (len (forwarding_interfaces plan) =? 0)
   then verify_forwarding plan ;; verify_forwarding_ipv6_guard plan else mret tt) ;;
  if ipv6_captured plan then
    verify_owner plan Ipv6 ;; verify_dns_guard plan Ipv6 ;; verify_routing plan Ipv6
  else if ipv6_guarded plan then verify_owner plan Ipv6
  else mret tt.

Definition NetworkPlanVerifier_verify (inbound_port : Z) (plan : NetworkPlan) : V unit :=
  sockets ← health_run ListeningSockets;
  check (socket_output_contains_port sockets inbound_port) InboundPortMissing ;;
  if bool_decide (plan_mode plan = Tun) then verify_tun plan else verify_tproxy plan.

(** The checks of one family of [verify_disabled]; [tun] is the look at the links
    that comes between, for IPv4. *)
Definition family_disabled (plan : NetworkPlan) (family : IpFamily) (tun : V unit) : V unit :=
  mangle ← health_run (NetfilterSnapshot family MangleTable);
  check (negb (capture_attachment_present mangle plan)) CaptureStillAttached ;;
  tun ;;
  rules ← health_run (PolicyRules family);
  check (negb (existsb (fun line => policy_rule_matches line (allocation plan)) (lines rules)))
    CaptureStillAttached ;;
  routes ← health_run (RouteTable family (route_table (allocation plan)));
  check (negb (route_targets_capture routes plan)) CaptureStillAttached ;;
  filter ← health_run (NetfilterSnapshot family FilterTable);
  check (negb (says (owner_marker plan) filter || says (dns_guard_chain plan) filter)) CaptureStillAttached.
Definition tun_present (plan : NetworkPlan) : V unit :=
  if bool_decide (plan_mode plan = Tun) then
    match capture_interface plan with
    | None => mut_fail TunInterfaceMissing
    | Some interface =>
        links ← health_run Links;
        check (link_output_contains_interface links interface) TunInterfaceMissing
    end
  else mret tt.
Definition NetworkPlanVerifier_verify_disabled (plan : NetworkPlan) : V unit :=
  family_disabled plan Ipv4 (tun_present plan) ;;
  if ipv6_captured plan || ipv6_guarded plan then family_disabled plan Ipv6 (mret tt) else mret tt.
End verifier.

Record NetworkPlanVerifier (B : Type) : Type := mkVerifier { nv_backend : B; nv_port : Z }.
Arguments mkVerifier {B}.
Arguments nv_backend {B}.
Arguments nv_port {B}.
Definition NetworkPlanVerifier_new {B} (backend : B) (inbound_port : Z) :
    Result NetworkHealthError (NetworkPlanVerifier B) :=
  if inbound_port =? 0 then Err HealthInvalidPolicy else Ok (mkVerifier backend inbound_port).
Definition replace_inbound_port {B} (inbound_port : Z) : Mut (NetworkPlanVerifier B) NetworkHealthError unit :=
  fun self =>
    if inbound_port =? 0 then (Err HealthInvalidPolicy, self)
    else (Ok tt, mkVerifier (nv_backend self) inbound_port).

(** ** [TunHealthVerifier] *)
Definition MAX_TUN_INTERFACE_BYTES : Z := 15.
Inductive TunHealthError : Type :=
| InvalidInterface | TunProbeFailed | InterfaceMissing | Ipv4AddressMissing | Ipv6AddressMissing
| InterfaceStillPresent.
Definition tun_health_code (e : TunHealthError) : string :=
  match e with
  | InvalidInterface => "tun_health_invalid_interface"
  | TunProbeFailed => "tun_health_probe_failed"
  | InterfaceMissing => "tun_health_interface_missing"
  | Ipv4AddressMissing => "tun_health_ipv4_address_missing"
  | Ipv6AddressMissing => "tun_health_ipv6_address_missing"
  | InterfaceStillPresent => "tun_health_interface_still_present"
  end.

Record TunHealthVerifier (B : Type) : Type := mkTunVerifier { tv_backend : B; tv_interface : string }.
Arguments mkTunVerifier {B}.
Arguments tv_backend {B}.
Arguments tv_interface {B}.
Definition TunHealthVerifier_new {B} (backend : B) (interface : string) :
    Result TunHealthError (TunHealthVerifier B) :=
  if (str_len interface =? 0) || (MAX_TUN_INTERFACE_BYTES <? str_len interface)
     || negb (forallb (fun b => is_ascii_alphanumeric b || (b =? 95) || (b =? 45)) (bytes interface))
  then Err InvalidInterface
  else Ok (mkTunVerifier backend interface).

Definition interface_name (value : list Z) : list Z :=
  let name := trim_end_matches 58 (trim_text value) in
  match split_once 64 name with Some (name, _) => name | None => name end.
Definition interface_header_name (line : list Z) : option (list Z) :=
  '(_, remainder) ← split_once 58 line;
  '(name, _) ← split_once 58 remainder;
  Some (interface_name name).
Definition interface_exists (line : list Z) (interface : string) : bool :=
  bool_decide (interface_header_name line = Some (bytes interface)).
Definition interface_is_up (line : list Z) (interface : string) : bool :=
  match split_once 58 line ≫= (fun p => split_once 58 p.2) with
  | None => false
  | Some (_, flags) => interface_exists line interface && has_flag (bytes "UP") flags
  end.
Fixpoint address_loop (ls : list (list Z)) (interface family_token : string) (owned_block : bool) : bool :=
  match ls with
  | [] => false
  | line :: rest =>
      let trimmed := trim_left line in
      let owned_block :=
        if (length line =? length trimmed)%nat
        then bool_decide (interface_header_name trimmed = Some (bytes interface)) else owned_block in
      let tokens := split_ascii_whitespace trimmed in
      let inline_interface :=
        match tokens !! 1%nat with
        | Some name => bool_decide (interface_name name = bytes interface)
        | None => false
        end in
      if (owned_block || inline_interface) && bool_decide (bytes family_token ∈ tokens) then true
      else address_loop rest interface family_token owned_block
  end.
Definition address_belongs_to (output : list Z) (interface family_token : string) : bool :=
  address_loop (lines output) interface family_token false.

Section tun_verifier.
Context {B : Type} `{!ProbeBackend B}.
Abbreviation TV := (Mut B TunHealthError).
Definition tun_run (command : ProbeCommand) : TV (list Z) := fun b =>
  match probe_run command b with
  | (Err _, b') => (Err TunProbeFailed, b')
  | (Ok output, b') => if success output then (Ok (stdout output), b') else (Err TunProbeFailed, b')
  end.
Definition TunHealthVerifier_verify (interface : string) : TV unit :=
  links ← tun_run Links;
  if negb (existsb (fun line => interface_is_up line interface) (lines links)) then mut_fail InterfaceMissing
  else
    ipv4 ← tun_run (Addresses Ipv4);
    if negb (address_belongs_to ipv4 interface "inet") then mut_fail Ipv4AddressMissing
    else
      ipv6 ← tun_run (Addresses Ipv6);
      if negb (address_belongs_to ipv6 interface "inet6") then mut_fail Ipv6AddressMissing
      else mret tt.
Definition TunHealthVerifier_verify_absent (interface : string) : TV unit :=
  links ← tun_run Links;
  if existsb (fun line => interface_exists line interface) (lines links) then mut_fail InterfaceStillPresent
  else mret tt.

(** ** [ForwardingPlanVerifier] *)
Inductive ForwardingHealthError : Type :=
| FwdInvalidPolicy | FwdProbeFailed | FwdInboundPortMissing | FwdChainMissing | FwdInterfaceJumpMissing.
Definition ForwardingPlanVerifier_new (inbound_port : Z) : Result ForwardingHealthError unit :=
  if inbound_port =? 0 then Err FwdInvalidPolicy else Ok tt.
Definition fwd_run (command : ProbeCommand) : Mut B ForwardingHealthError ProbeOutput := fun b =>
  match probe_run command b with
  | (Err _, b') => (Err FwdProbeFailed, b')
  | (Ok output, b') => (Ok output, b')
  end.
Definition ForwardingPlanVerifier_verify (inbound_port : Z) (plan : ForwardingPlan) :
    Mut B ForwardingHealthError unit :=
  socket ← fwd_run ListeningSockets;
  if negb (success socket)
     || negb (existsb (has_suffix (bytes (":" +:+ dec inbound_port))) (split_ascii_whitespace (stdout socket)))
  then mut_fail FwdInboundPortMissing
  else
    snapshot ← fwd_run (NetfilterSnapshot Ipv4 FilterTable);
    if negb (success snapshot) then mut_fail FwdProbeFailed
    else
      let chain := "NH_FWD_" +:+ suffix (fw_slot plan) in
      if negb (says ("-N " +:+ chain) (stdout snapshot)) then mut_fail FwdChainMissing
      else if negb (forallb (fun i => has_line (jump_line "PREROUTING" i (fw_owner_marker plan) chain) (stdout snapshot))
                      (fw_interfaces plan))
      then mut_fail FwdInterfaceJumpMissing
      else mret tt.
End tun_verifier.

(** ** [TunRunner] *)
Definition MAX_TUN_TIMEOUT : Z := from_secs 30.
Inductive TunRunnerError : Type :=
| TunInvalidLimits | TunCoreExited | TunCoreObserveFailed | StartupTimedOut | TunRunUnhealthy | CleanupTimedOut.
Definition tun_runner_code (e : TunRunnerError) : string :=
  match e with
  | TunInvalidLimits => "tun_runner_invalid_limits"
  | TunCoreExited => "tun_runner_core_exited"
  | TunCoreObserveFailed => "tun_runner_core_observe_failed"
  | StartupTimedOut => "tun_runner_startup_timed_out"
  | TunRunUnhealthy => "tun_runner_unhealthy"
  | CleanupTimedOut => "tun_runner_cleanup_timed_out"
  end.
Record TunRunnerLimits : Type := mkTunLimits {
  startup_timeout : Z;
  shutdown_timeout : Z;
  tun_poll_interval : Z;
}.
Definition TunRunnerLimits_new (startup shutdown poll : Z) : Result TunRunnerError TunRunnerLimits :=
  if dur_is_zero startup || dur_is_zero shutdown || dur_is_zero poll || (MAX_TUN_TIMEOUT <? startup)
     || (MAX_TUN_TIMEOUT <? shutdown) || (Z.min startup shutdown <? poll)
  then Err TunInvalidLimits
  else Ok (mkTunLimits startup shutdown poll).
Definition TunRunnerLimits_default : TunRunnerLimits :=
  mkTunLimits (from_secs 3) (from_secs 3) (from_millis 50).
Definition tun_replace_timeout (timeout : Z) (limits : TunRunnerLimits) : Result TunRunnerError TunRunnerLimits :=
  TunRunnerLimits_new timeout timeout (tun_poll_interval limits).

(** [TunHealthProbe] *)
Class TunHealthProbe (V : Type) : Type := {
  tun_verify : V -> Result TunHealthError unit * V;
  tun_verify_absent : V -> Result TunHealthError unit * V;
}.
#[export] Instance tun_verifier_probe {B} `{!ProbeBackend B} : TunHealthProbe (TunHealthVerifier B) := {|
  tun_verify v :=
    let (r, b) := TunHealthVerifier_verify (tv_interface v) (tv_backend v) in
    (r, mkTunVerifier b (tv_interface v));
  tun_verify_absent v :=
    let (r, b) := TunHealthVerifier_verify_absent (tv_interface v) (tv_backend v) in
    (r, mkTunVerifier b (tv_interface v));
|}.

Section runner.
Context {V : Type} `{!TunHealthProbe V}.
(** What a turn of a loop sees of its surroundings: the state of the process ([None]:
    it cannot be observed), and the time that has elapsed.  [None] as a result: more
    turns are needed. *)
Record Poll : Type := mkPoll { poll_running : option bool; poll_elapsed : Z }.
Fixpoint tun_wait_healthy (limits : TunRunnerLimits) (polls : list Poll) (v : V) :
    option (Result TunRunnerError unit * V) :=
  match polls with
  | [] => None
  | p :: rest =>
      match poll_running p with
      | Some false => Some (Err TunCoreExited, v)
      | None => Some (Err TunCoreObserveFailed, v)
      | Some true =>
          let (r, v) := tun_verify v in
          if is_ok r then Some (Ok tt, v)
          else if startup_timeout limits <=? poll_elapsed p then Some (Err StartupTimedOut, v)
          else tun_wait_healthy limits rest v
      end
  end.
Definition tun_verify_active (v : V) : Result TunRunnerError unit * V :=
  let (r, v) := tun_verify v in (match r with Ok _ => Ok tt | Err _ => Err TunRunUnhealthy end, v).
Fixpoint tun_wait_stopped (limits : TunRunnerLimits) (polls : list Poll) (v : V) :
    option (Result TunRunnerError unit * V) :=
  match polls with
  | [] => None
  | p :: rest =>
      let (r, v) := tun_verify_absent v in
      if is_ok r then Some (Ok tt, v)
      else if shutdown_timeout limits <=? poll_elapsed p then Some (Err CleanupTimedOut, v)
      else tun_wait_stopped limits rest v
  end.

(** Each turn sleeps for the poll interval. *)
Fixpoint paced (interval start : Z) (polls : list Poll) : Prop :=
  match polls with
  | [] => True
  | p :: rest => start <= poll_elapsed p /\ paced interval (poll_elapsed p + interval) rest
  end.

Lemma tun_wait_total limits polls v start :
  0 < tun_poll_interval limits -> paced (tun_poll_interval limits) start polls ->
  startup_timeout limits <= start + tun_poll_interval limits * (len polls - 1) -> polls <> [] ->
  is_Some (tun_wait_healthy limits polls v).
Proof.
  intros Hi. revert v start. induction polls as [|p polls IH]; intros v start Hp Hl Hne; [done|].
  cbn [tun_wait_healthy]. destruct (poll_running p) as [[]|]; [|by eexists..].
  destruct (tun_verify v) as [r v']. destruct (is_ok r); [by eexists|]. split_if Ht; [by eexists|].
  destruct Hp as [Hs Hp]. apply Z.leb_gt in Ht. unfold len in *. rewrite length_cons in Hl.
  apply (IH v' _ Hp); [|intros ->; simpl in Hl; lia]. nia.
Qed.
End runner.

(** ** Text that is there is found *)
Lemma split_once_str_app sep l r : is_Some (split_once_str sep (l ++ sep ++ r)).
Proof.
  induction l as [|x l IH].
  - rewrite app_nil_l. unfold split_once_str. destruct (sep ++ r) as [|y t] eqn:E.
    + apply app_nil in E as [-> ->]. by eexists.
    + rewrite <- E, strip_prefix_app. by eexists.
  - cbn [app split_once_str]. destruct (strip_prefix sep _); [by eexists|].
    destruct IH as [[a b] ->]. by eexists.
Qed.
Lemma contains_str_iff n bs : contains_str n bs = true <-> exists l r, bs = l ++ n ++ r.
Proof.
  unfold contains_str, find_str. split.
  - destruct (split_once_str n bs) as [[l r]|] eqn:E; [|done]. intros _. exists l, r.
    by apply split_once_str_sound.
  - intros (l & r & ->). by destruct (split_once_str_app n l r) as [p ->].
Qed.
Lemma lines_inside line bs : line ∈ lines bs -> exists l r, bs = l ++ line ++ r.
Proof.
  revert line. induction bs as [|b bs IH]; intros line; cbn [lines]; [by intros ?%not_elem_of_nil|].
  assert (forall x, x ∈ lines bs -> exists l r, b :: bs = l ++ x ++ r) as Hlater.
  { intros x Hx. destruct (IH x Hx) as (l & r & ->). by exists (b :: l), r. }
  destruct (b =? 10); [intros [->|Hin]%elem_of_cons; [by exists [], (b :: bs)|by apply Hlater]|].
  destruct ((b =? 13) && _); [apply Hlater|].
  destruct (lines bs) as [|first others] eqn:El.
  { intros ->%list_elem_of_singleton. by exists [], bs. }
  intros [->|Hin]%elem_of_cons; [|apply Hlater; by right].
  (* the first line of the rest starts the rest *)
  assert (exists r, bs = first ++ r) as [r ->]; [|by exists [], r].
  clear -El. revert first others El. induction bs as [|c bs IH]; intros first others; cbn [lines]; [done|].
  destruct (c =? 10); [intros [= <- _]; by exists (c :: bs)|].
  destruct ((c =? 13) && match bs with c0 :: _ => c0 =? 10 | [] => false end) eqn:E.
  { intros E'. apply andb_true_iff in E as [_ E]. destruct bs as [|d bs]; [done|]. apply Z.eqb_eq in E as ->.
    cbn [lines] in E'. injection E' as <- _. by exists (c :: 10 :: bs). }
  destruct (lines bs) as [|f o]; [intros [= <- _]; by exists bs|]. intros [= <- _].
  destruct (IH f o eq_refl) as [r ->]. by exists r.
Qed.
Lemma contains_in_line n line bs : line ∈ lines bs -> contains_str n line = true -> contains_str n bs = true.
Proof.
  intros (l & r & ->)%lines_inside. rewrite !contains_str_iff. intros (l' & r' & ->).
  exists (l ++ l'), (r' ++ r). by rewrite <- !app_assoc.
Qed.
Lemma prefix_contained n line : has_prefix n line = true -> contains_str n line = true.
Proof.
  unfold has_prefix. destruct (strip_prefix n line) as [r|] eqn:E; [|done]. intros _.
  apply strip_prefix_Some in E. apply contains_str_iff. by exists [], r.
Qed.

(** ** Verifications that succeed *)
Section sound.
Context {B : Type} `{!ProbeBackend B} (view : B -> View) (named : gset Z) `{!ProbeLaws B view named}.

Lemma health_run_Ok c b text b' :
  health_run c b = (Ok text, b') ->
  exists out, probe_run c b = (Ok out, b') /\ success out = true /\ text = stdout out /\ view b' = view b.
Proof.
  unfold health_run. destruct (probe_run c b) as [[out|e] b1] eqn:E; [|done]. split_if Hs; [|done].
  intros [= <- <-]. exists out. split_and!; [done|done|done|by eapply run_reads].
Qed.
Lemma check_Ok c e (b b' : B) u : check c e b = (Ok u, b') -> c = true /\ b' = b.
Proof. unfold check. destruct c; [by intros [= _ <-]|done]. Qed.

Lemma plain_marker plan : is_uint 64 (generation plan) -> plain_text (owner_marker plan) = true.
Proof.
  intros Hg. assert (forall p, plain_text p = true -> plain_text (p +:+ dec (generation plan)) = true) as H.
  { intros p Hp. unfold plain_text in *. rewrite bytes_app, forallb_app, Hp, dec_bytes by done. simpl.
    apply forallb_forall. intros x Hx%list_elem_of_In. destruct (print_u64_digits _ Hg) as [Hd _].
    unfold all_digits in Hd. rewrite Forall_forall in Hd. specialize (Hd x Hx). unfold is_ascii_alphanumeric. by rewrite Hd. }
  unfold owner_marker. by destruct (bool_decide _); apply H.
Qed.

(** The plan's rules in a family are out of effect: no rule of the tables bears its
    comment, its capture chains and DNS guard are not there, nor its policy rule, nor
    its route. *)
Record detached (plan : NetworkPlan) (f : IpFamily) (v : View) : Prop := {
  no_comment t T c rs r : (t = "mangle" \/ t = "filter") -> tables v !! (f, t) = Some T ->
    T !! c = Some rs -> r ∈ rs -> MComment (owner_marker plan) ∉ matches r;
  no_capture : absent (OwnedChain f "mangle" (capture_chain plan Ipv4)) v;
  no_prerouting : absent (OwnedChain f "mangle" (prerouting_chain plan)) v;
  no_dns_guard : absent (OwnedChain f "filter" (dns_guard_chain plan)) v;
  no_rule : absent (OwnedRule f (mark (allocation plan)) (mask (allocation plan))
                      (route_table (allocation plan)) (rule_priority (allocation plan))) v;
  no_route d l : (capture_interface plan = Some d \/ plan_mode plan = Tproxy /\ d = "lo") ->
    absent (OwnedRoute f (route_table (allocation plan)) d l) v;
}.

Lemma chain_seen f t b out b' c :
  probe_run (NetfilterSnapshot f t) b = (Ok out, b') -> success out = true ->
  says (":" +:+ c +:+ " ") (stdout out) = false -> absent (OwnedChain f (table_str t) c) (view b).
Proof.
  intros Hr Hs Hn T HT. destruct (T !! c) as [rs|] eqn:E; [|done]. exfalso.
  destruct (snapshot_names f t b out b' T c Hr Hs HT) as (line & Hl & _ & Hp); [by rewrite E|].
  unfold says in Hn. by rewrite (contains_in_line _ line) in Hn by (done || by apply prefix_contained).
Qed.
Lemma comment_seen f t b out b' o T c rs r :
  probe_run (NetfilterSnapshot f t) b = (Ok out, b') -> success out = true -> plain_text o = true ->
  says o (stdout out) = false -> tables (view b) !! (f, table_str t) = Some T -> T !! c = Some rs -> r ∈ rs ->
  MComment o ∉ matches r.
Proof.
  intros Hr Hs Hp Hn HT Hc Hin Hm.
  destruct (snapshot_comments f t b out b' T c rs r o Hr Hs HT Hc Hin Hm Hp) as (line & Hl & Ho).
  unfold says in Hn. by rewrite (contains_in_line _ line) in Hn.
Qed.
Lemma says_shorter a b line : says b line = false -> (exists l r, bytes a = l ++ bytes b ++ r) -> says a line = false.
Proof.
  intros Hb (l & r & E). unfold says in *. apply not_true_iff_false. intros (x & y & ->)%contains_str_iff.
  apply not_true_iff_false in Hb. apply Hb. apply contains_str_iff. exists (x ++ l), (r ++ y).
  by rewrite E, <- !app_assoc.
Qed.

Lemma shown_rule_matches (c : ResourceCandidate) line :
  is_uint 32 (rule_priority c) -> is_uint 32 (route_table c) ->
  head (split_ascii_whitespace line) = Some (bytes (dec (rule_priority c) +:+ ":")) ->
  word_after (bytes "fwmark") (split_ascii_whitespace line) ≫= parse_mark_mask = Some (mark c, mask c) ->
  [bytes "lookup"; bytes (dec (route_table c))] ∈ windows 2 (split_ascii_whitespace line) ->
  policy_rule_matches line c = true.
Proof.
  intros Hp Ht H1 H2 H3. unfold policy_rule_matches, words_of. rewrite (bool_decide_eq_true_2 _ H2).
  rewrite bool_decide_eq_true_2 by (by apply shown_priority). simpl. unfold names_table.
  eapply existsb_elem; [exact H3|]. cbv beta iota. rewrite parse_dec by done.
  rewrite (bool_decide_eq_true_2 (Some _ = _)) by done. rewrite andb_true_r. reflexivity.
Qed.

(** What the plan's allocation must satisfy: 32-bit numbers, a mark, and a table that
    has no name. *)
Definition allocation_shown (c : ResourceCandidate) : Prop :=
  is_uint 32 (rule_priority c) /\ is_uint 32 (route_table c) /\ mark c <> 0 /\ route_table c ∉ named.

Lemma rule_seen f b out b' c :
  allocation_shown c -> probe_run (PolicyRules f) b = (Ok out, b') -> success out = true ->
  existsb (fun line => policy_rule_matches line c) (lines (stdout out)) = false ->
  absent (OwnedRule f (mark c) (mask c) (route_table c) (rule_priority c)) (view b).
Proof.
  intros (Hp & Ht & Hm & Hn) Hr Hs Hf Hin.
  destruct (rules_shown f b out b' _ _ _ _ Hr Hs Hin) as (line & Hl & H1 & H2 & H3).
  rewrite (existsb_elem _ _ line) in Hf; [done|done|]. by apply shown_rule_matches; auto.
Qed.
Lemma route_seen f b out b' plan d l :
  probe_run (RouteTable f (route_table (allocation plan))) b = (Ok out, b') -> success out = true ->
  route_targets_capture (stdout out) plan = false ->
  (capture_interface plan = Some d \/ plan_mode plan = Tproxy /\ d = "lo") ->
  absent (OwnedRoute f (route_table (allocation plan)) d l) (view b).
Proof.
  intros Hr Hs Hf Hd Hin. destruct (routes_shown f _ b out b' d l Hr Hs Hin) as (_ & line & Hl & Hc).
  unfold route_targets_capture in Hf. apply orb_false_iff in Hf as [H1 H2]. destruct Hd as [Hd|[Hm ->]].
  - rewrite Hd in H1. by rewrite (existsb_elem _ _ line) in H1.
  - rewrite (existsb_elem _ _ line) in H2; [done|done|]. rewrite bool_decide_eq_true_2 by done.
    unfold says. change (bytes "dev lo") with (bytes ("dev " +:+ "lo")). by rewrite Hc.
Qed.

Lemma family_disabled_sound plan f tun b b' :
  is_uint 64 (generation plan) -> allocation_shown (allocation plan) ->
  (forall b1 b2, tun b1 = (Ok tt, b2) -> view b2 = view b1) ->
  family_disabled plan f tun b = (Ok tt, b') -> view b' = view b /\ detached plan f (view b).
Proof.
  intros Hg Ha Htun H. unfold family_disabled in H.
  apply bind_Ok in H as (mangle & b1 & E1 & H). apply health_run_Ok in E1 as (o1 & R1 & S1 & -> & V1).
  apply bind_Ok in H as (? & b2 & E2 & H). apply check_Ok in E2 as [C1%negb_true_iff ->].
  apply bind_Ok in H as ([] & b2 & E2 & H). apply Htun in E2 as V2.
  apply bind_Ok in H as (rules & b3 & E3 & H). apply health_run_Ok in E3 as (o3 & R3 & S3 & -> & V3).
  apply bind_Ok in H as (? & b4 & E4 & H). apply check_Ok in E4 as [C2%negb_true_iff ->].
  apply bind_Ok in H as (routes & b5 & E5 & H). apply health_run_Ok in E5 as (o5 & R5 & S5 & -> & V5).
  apply bind_Ok in H as (? & b6 & E6 & H). apply check_Ok in E6 as [C3%negb_true_iff ->].
  apply bind_Ok in H as (filter & b7 & E7 & H). apply health_run_Ok in E7 as (o7 & R7 & S7 & -> & V7).
  apply check_Ok in H as [C4%negb_true_iff ->]. split; [congruence|].
  apply orb_false_iff in C4 as [C4 C5]. unfold capture_attachment_present in C1.
  apply orb_false_iff in C1 as [C0 C1]. cbn [existsb] in C1. rewrite orb_false_r in C1.
  apply orb_false_iff in C1 as [[Ca _]%orb_false_iff [_ [Cp _]%orb_false_iff]%orb_false_iff].
  pose proof (plain_marker plan Hg) as Hplain.
  assert (view b2 = view b /\ view b3 = view b /\ view b5 = view b) as (W2 & W3 & W5) by (split_and!; congruence).
  split.
  - intros t T c rs r [-> | ->] HT Hc Hr.
    + by eapply (comment_seen f MangleTable b).
    + rewrite <- W5 in HT. by eapply (comment_seen f FilterTable b5).
  - by eapply (chain_seen f MangleTable b).
  - by eapply (chain_seen f MangleTable b).
  - rewrite <- W5. eapply (chain_seen f FilterTable b5); [done|done|]. eapply says_shorter; [exact C5|].
    rewrite !bytes_app. by exists [58], [32].
  - rewrite <- W2. by eapply rule_seen.
  - intros d l Hd. rewrite <- W3. by eapply route_seen.
Qed.

Lemma tun_present_reads plan b b' : tun_present plan b = (Ok tt, b') -> view b' = view b.
Proof.
  unfold tun_present. split_if Hm; [|by intros [= <-]]. destruct (capture_interface plan); [|done].
  intros H. apply bind_Ok in H as (links & b1 & E1 & H). apply health_run_Ok in E1 as (_ & _ & _ & _ & V).
  by apply check_Ok in H as [_ ->].
Qed.

(** Capture that is verified as switched off is off: when [verify_disabled]
    accepts, in every family the plan captured or guarded no rule of the mangle and
    filter tables bears the plan's comment, so nothing enters its chains; its capture
    chains and its DNS guard are gone, and so are its policy rule and its route. *)
Lemma disabled_sound plan b b' :
  is_uint 64 (generation plan) -> allocation_shown (allocation plan) ->
  NetworkPlanVerifier_verify_disabled plan b = (Ok tt, b') ->
  view b' = view b /\ detached plan Ipv4 (view b)
  /\ (ipv6_captured plan = true \/ ipv6_guarded plan = true -> detached plan Ipv6 (view b)).
Proof.
  intros Hg Ha H. unfold NetworkPlanVerifier_verify_disabled in H.
  apply bind_Ok in H as ([] & b1 & E1 & H).
  apply family_disabled_sound in E1 as [V1 D1]; [|done|done|intros; by eapply tun_present_reads].
  destruct (ipv6_captured plan || ipv6_guarded plan) eqn:E6.
  - apply family_disabled_sound in H as [V2 D2]; [|done|done|by intros ? ? [= <-]].
    rewrite V1 in *. by split_and!.
  - injection H as <-. split_and!; [done|done|]. apply orb_false_iff in E6 as [-> ->]. by intros [|].
Qed.
End sound.

(** ** What can never be verified *)
Section never.
Context {B : Type} `{!ProbeBackend B} (view : B -> View) (named : gset Z) `{!ProbeLaws B view named}.

(** [iptables-save] declares a chain with a colon, never with [-N]. *)
Definition declares_with_colon : Prop := forall f t b out b',
  probe_run (NetfilterSnapshot f t) b = (Ok out, b') ->
  Forall (fun line => has_prefix (bytes "-N ") line = false) (lines (stdout out)).

Lemma no_declaration c snapshot :
  Forall (fun line => has_prefix (bytes "-N ") line = false) (lines snapshot) ->
  has_line ("-N " +:+ c) snapshot = false.
Proof.
  intros Hf. apply not_true_iff_false. intros (line & Hl & ->%bool_decide_eq_true)%existsb_exists.
  rewrite Forall_forall in Hf. apply list_elem_of_In, Hf in Hl. rewrite bytes_app in Hl. unfold has_prefix in Hl.
  by rewrite strip_prefix_app in Hl.
Qed.
Lemma verify_forwarding_fails plan b b' : declares_with_colon -> verify_forwarding plan b <> (Ok tt, b').
Proof.
  intros Hd H. unfold verify_forwarding in H. apply bind_Ok in H as (snapshot & b1 & E1 & H).
  apply (health_run_Ok view named) in E1 as (out & R & _ & -> & _).
  apply bind_Ok in H as (? & b2 & E2 & _). apply check_Ok in E2 as [C _].
  by rewrite no_declaration in C by (by eapply Hd).
Qed.

(** A TPROXY plan that forwards is never found healthy: its forwarding chain is looked
    for in the filter table (it is in the mangle table) and in a form that the tool does
    not print. *)
Lemma forwarding_never_verified port plan b b' :
  declares_with_colon -> plan_mode plan = Tproxy -> forwarding_interfaces plan <> [] ->
  NetworkPlanVerifier_verify port plan b <> (Ok tt, b').
Proof.
  intros Hd Hm Hf H. unfold NetworkPlanVerifier_verify in H. apply bind_Ok in H as (? & b1 & _ & H).
  apply bind_Ok in H as (? & b2 & _ & H). rewrite bool_decide_eq_false_2 in H by congruence.
  unfold verify_tproxy in H. apply bind_Ok in H as (? & b3 & _ & H). apply bind_Ok in H as (? & b4 & _ & H).
  apply bind_Ok in H as (? & b5 & _ & H). apply bind_Ok in H as ([] & b6 & E & _).
  rewrite (proj2 (Z.eqb_neq _ _)) in E by (by destruct (forwarding_interfaces plan)). cbn [negb] in E.
  apply bind_Ok in E as ([] & b7 & E & _). by eapply verify_forwarding_fails.
Qed.

(** The line of a rule names the socket module only for the socket match. *)
Definition socket_lines_are_rules : Prop := forall f t b out b' T c line,
  probe_run (NetfilterSnapshot f t) b = (Ok out, b') -> tables (view b) !! (f, table_str t) = Some T ->
  line ∈ lines (stdout out) -> in_chain c line = true -> says " -m socket " line = true ->
  exists rs r, T !! c = Some rs /\ r ∈ rs /\ MSocketTransparent ∈ matches r.

Lemma position_Some {A} (p : A -> bool) l i : position p l = Some i -> exists x, x ∈ l /\ p x = true.
Proof.
  revert i. induction l as [|x l IH]; intros i; simpl; [done|]. destruct (p x) eqn:E.
  - intros _. exists x. split; [by left|done].
  - destruct (position p l) as [j|]; [|done]. intros _. destruct (IH j eq_refl) as (y & Hy & Hp).
    exists y. split; [by right|done].
Qed.
(** A line that is not the socket match. *)
Definition socketless (l : Line) : Prop :=
  match l with LAppend _ r => MSocketTransparent ∉ matches r | _ => True end.
Lemma socketless_append c ms t : MSocketTransparent ∉ ms -> socketless (append c ms t).
Proof. done. Qed.
Ltac no_socket :=
  apply socketless_append; intros Hx;
  repeat (apply elem_of_cons in Hx as [Hx|Hx]; [discriminate Hx|]); by apply not_elem_of_nil in Hx.
Lemma socketless_capture c policy a ifs : Forall socketless (append_output_capture_rules c policy a ifs).
Proof.
  unfold append_output_capture_rules. destruct ifs as [l|].
  - induction l as [|i l IH]; [constructor|]. cbn [flat_map]. apply Forall_app_2; [|done].
    split_if Hn; [apply Forall_singleton; no_socket|apply Forall_map_intro; intros uid; no_socket].
  - split_if Hn; [apply Forall_singleton; no_socket|apply Forall_map_intro; intros uid; no_socket].
Qed.
Lemma udp_only_no_socket f slot policy a port owner ifs c :
  proxy_tcp policy = false ->
  Forall (fun r => MSocketTransparent ∉ matches r) (chain_rules (tproxy_payloads f slot policy a port owner ifs).1 c).
Proof.
  intros Ht. assert (Forall socketless (tproxy_payloads f slot policy a port owner ifs).1) as H.
  { unfold tproxy_payloads. rewrite Ht. cbn [fst push_if]. destruct (proxy_udp policy); cbn [push_if];
    repeat first
      [ apply Forall_app_2 | apply socketless_capture | apply Forall_map_intro; intros ?
      | apply List.Forall_cons | apply Forall_nil_2 | exact I | no_socket ]. }
  induction H as [|l ls Hl _ IH]; [constructor|]. destruct l; cbn [chain_rules]; try done.
  case_decide; [by constructor|done].
Qed.

(** A TPROXY plan for UDP alone is never found healthy: the check asks for the socket
    rule, which the planner writes for TCP only. *)
Lemma udp_only_never_verified port plan policy a p owner ifs T b b' :
  socket_lines_are_rules -> plan_mode plan = Tproxy -> proxy_tcp policy = false ->
  tables (view b) !! (Ipv4, "mangle") = Some T ->
  T !! prerouting_chain plan
    = Some (chain_rules (tproxy_payloads Ipv4 (slot plan) policy a p owner ifs).1 (prerouting_chain plan)) ->
  NetworkPlanVerifier_verify port plan b <> (Ok tt, b').
Proof.
  intros Hs Hm Ht HT Hc H. unfold NetworkPlanVerifier_verify in H.
  apply bind_Ok in H as (? & b1 & E1 & H). apply (health_run_Ok view named) in E1 as (_ & _ & _ & _ & V1).
  apply bind_Ok in H as (? & b2 & E2 & H). apply check_Ok in E2 as [_ ->].
  rewrite bool_decide_eq_false_2 in H by congruence.
  unfold verify_tproxy in H. apply bind_Ok in H as ([] & b3 & H & _). unfold verify_owner in H.
  change (bool_decide (Ipv4 = Ipv6)) with false in H. cbn [andb] in H.
  apply bind_Ok in H as (snapshot & b4 & E4 & H). apply (health_run_Ok view named) in E4 as (out & R & _ & -> & V4).
  apply bind_Ok in H as (? & b5 & _ & H). apply bind_Ok in H as (? & b6 & _ & H).
  apply bind_Ok in H as (? & b7 & E7 & _). apply check_Ok in E7 as [C _].
  change (bool_decide (Ipv4 = Ipv4)) with true in C. cbn [orb negb] in C.
  unfold loopback_bypass_precedes_capture in C. apply andb_true_iff in C as [C _]. unfold before in C.
  destruct (position _ _) as [i|] eqn:Ep in C; [|done].
  apply position_Some in Ep as (line & Hl & [Hi Hsay]%andb_true_iff).
  destruct (Hs Ipv4 MangleTable b1 out b4 T (prerouting_chain plan) line R) as (rs & r & Hrs & Hr & Hsock); [by rewrite V1|done..|].
  rewrite Hc in Hrs. injection Hrs as <-.
  pose proof (udp_only_no_socket Ipv4 (slot plan) policy a p owner ifs (prerouting_chain plan) Ht) as Hno.
  rewrite Forall_forall in Hno. by apply (Hno r).
Qed.
End never.

(** ** The probed device, with a TPROXY plan that is not installed *)
Module HealthDemo.
Definition policy : CapturePolicy :=
  mkCapturePolicy Tproxy true true true (Some 7893) (Some 0x200) [] [] InterfacePolicy_default
    ForwardingPolicy_default.
Definition plan : NetworkPlan :=
  match build_tproxy 7 SlotA policy DemoPlan.report with
  | Some (Ok plan) => plan
  | _ => DemoPlan.tun_plan
  end.
Lemma built : build_tproxy 7 SlotA policy DemoPlan.report = Some (Ok plan).
Proof. reflexivity. Qed.
Lemma disabled : NetworkPlanVerifier_verify_disabled plan tt = (Ok tt, tt).
Proof. vm_compute. reflexivity. Qed.
End HealthDemo.
