(* ===== verification/WorkerActivation.v ===== *)
(** * WorkerActivation: core, network and current generation as one activation

    Models crates/nethopd/src/worker_activation.rs: [WorkerActivator::activate], which
    probes the device, plans, stages a core, applies the plan, verifies the data plane
    and commits the generation; [CurrentGenerationActivator], which brings the
    committed generation back after a restart; and the [ActiveRuntime] they return,
    with capture switched on and off, rebuilt and stopped.  With it come
    [TunFallbackPlanner] of crates/nethop-android/src/tun.rs and the diagnostic codes
    an activation reports.

    The store and the core are those of Activation, the plans those of Plan.  The
    network is reached through the interface [NetworkController], which Executor
    implements; the device probe and the data-plane health probe are the interface
    [DataPlane]. *)

From S2P Require Import Prelude Text Ordering RuntimeState Capture NodeRegistry Generation Activation Capability Interfaces Plan Kernel Executor Health.

Local Abbreviation delete := base.delete.

Local Open Scope Z_scope.

(** ** Diagnostic codes *)
Definition plan_code (e : NetworkPlanError) : string :=
  match e with
  | InvalidGeneration => "network_plan_invalid_generation"
  | UnsupportedCaptureMode => "network_plan_unsupported_capture_mode"
  | PlatformUnavailable => "network_plan_platform_unavailable"
  | InboundPortMismatch => "network_plan_inbound_port_mismatch"
  | InboundPortConflict => "network_plan_inbound_port_conflict"
  | ExistingTunnelConflict => "network_plan_existing_tunnel_conflict"
  | Ipv4TproxyUnavailable => "network_plan_ipv4_tproxy_unavailable"
  | Ipv6LeakRisk => "network_plan_ipv6_leak_risk"
  | ResourceConflict => "network_plan_resource_conflict"
  | TunUnavailable => "network_plan_tun_unavailable"
  | BypassMarkConflict => "network_plan_bypass_mark_conflict"
  | InterfaceSelectionEmpty => "network_plan_interface_selection_empty"
  | ForwardingInterfaceSelectionEmpty => "network_plan_forwarding_interface_selection_empty"
  end.
Definition execution_code (e : ExecutionError) : string :=
  match e with
  | InvalidBackend => "network_executor_invalid_backend"
  | ApplyFailed _ => "network_executor_apply_failed"
  | ApplyRollbackFailed _ _ => "network_executor_apply_rollback_failed"
  | RollbackFailed _ => "network_executor_rollback_failed"
  | ReceiptMismatch => "network_executor_receipt_mismatch"
  end.
Definition capability_code (e : CapabilityError) : string :=
  match e with
  | InvalidPolicy => "android_capability_invalid_policy"
  | InvalidTool => "android_capability_invalid_tool"
  | CommandSpawnFailed => "android_capability_command_spawn_failed"
  | CommandTimedOut => "android_capability_command_timed_out"
  | CommandOutputFailed => "android_capability_command_output_failed"
  end.
Definition activation_code (c : ActivationDiagnosticCode) : string :=
  match c with
  | PrepareFailed => "candidate_prepare_failed"
  | SafetyRejected => "candidate_safety_rejected"
  | CheckFailed => "candidate_check_failed"
  | SealFailed => "candidate_seal_failed"
  | ActStartFailed => "candidate_start_failed"
  | HealthFailed => "candidate_health_failed"
  | Activation.CommitFailed => "candidate_commit_failed"
  end.

(** ** The TUN fallback planner *)
Inductive TunStack : Type := System | Gvisor.
Record TunCandidate : Type := mkTunCandidate { tun_stack : TunStack; tun_mtu : Z }.
Inductive TunFallbackError : Type :=
| TunPlatformUnavailable | TunDeviceUnavailable | TunExistingTunnelConflict.
Definition tun_fallback_code (e : TunFallbackError) : string :=
  match e with
  | TunPlatformUnavailable => "tun_fallback_platform_unavailable"
  | TunDeviceUnavailable => "tun_fallback_device_unavailable"
  | TunExistingTunnelConflict => "tun_fallback_existing_tunnel_conflict"
  end.
Definition TunFallbackPlanner_build (capabilities : CapabilityReport) :
    Result TunFallbackError (list TunCandidate) :=
  if negb (is_supported (android capabilities)) || negb (is_supported (Capability.root capabilities))
  then Err TunPlatformUnavailable
  else if negb (bool_decide (tun capabilities = Supported)) then Err TunDeviceUnavailable
  else if negb (bool_decide (active_tunnel capabilities = Supported)) then Err TunExistingTunnelConflict
  else Ok [mkTunCandidate System 9000; mkTunCandidate System 1500;
           mkTunCandidate Gvisor 9000; mkTunCandidate Gvisor 1500].
Definition default_tun_interface : string := "nethop0".

(** ** Attachments *)
Inductive RuntimeAttachmentView : Type :=
| ViewTproxy (plan : NetworkPlan)
| ViewTun (interface : string) (plan : NetworkPlan).

Inductive DataPlaneHealthError : Type :=
| CoreExited | CoreObserveFailed | NetworkUnhealthy (cause : NetworkHealthError)
| TunUnhealthy | TunCleanupFailed.
Definition data_plane_code (e : DataPlaneHealthError) : string :=
  match e with
  | CoreExited => "data_plane_core_exited"
  | CoreObserveFailed => "data_plane_core_observe_failed"
  | NetworkUnhealthy _ => "data_plane_network_unhealthy"
  | TunUnhealthy => "data_plane_tun_unhealthy"
  | TunCleanupFailed => "data_plane_tun_cleanup_failed"
  end.

Inductive RuntimeAttachment (R : Type) : Type :=
| AttachedTproxy (plan : NetworkPlan) (receipt : option R)
| AttachedTun (plan : NetworkPlan) (receipt : option R).
Arguments AttachedTproxy {R} plan receipt.
Arguments AttachedTun {R} plan receipt.

Definition attachment_view {R} (a : RuntimeAttachment R) : RuntimeAttachmentView :=
  match a with
  | AttachedTproxy plan _ => ViewTproxy plan
  | AttachedTun plan _ => ViewTun default_tun_interface plan
  end.
Definition attachment_state {R} (a : RuntimeAttachment R) : RuntimeState :=
  match a with AttachedTproxy _ _ => RunningTproxy | AttachedTun _ _ => RunningTun end.
Definition att_plan {R} (a : RuntimeAttachment R) : NetworkPlan :=
  match a with AttachedTproxy plan _ | AttachedTun plan _ => plan end.
Definition att_receipt {R} (a : RuntimeAttachment R) : option R :=
  match a with AttachedTproxy _ r | AttachedTun _ r => r end.
Definition set_receipt {R} (r : option R) (a : RuntimeAttachment R) : RuntimeAttachment R :=
  match a with
  | AttachedTproxy plan _ => AttachedTproxy plan r
  | AttachedTun plan _ => AttachedTun plan r
  end.

Inductive PreparedAttachment : Type :=
| PreparedTproxy (plan : NetworkPlan)
| PreparedTun (plan : NetworkPlan).
Definition prepared_plan (p : PreparedAttachment) : NetworkPlan :=
  match p with PreparedTproxy plan | PreparedTun plan => plan end.
(** The attachment of a plan that was applied. *)
Definition attached {R} (p : PreparedAttachment) (receipt : R) : RuntimeAttachment R :=
  match p with
  | PreparedTproxy plan => AttachedTproxy plan (Some receipt)
  | PreparedTun plan => AttachedTun plan (Some receipt)
  end.

(** [None]: the planner panics. *)
Definition prepare_attachment (generation : Z) (policy : CapturePolicy) (slot : PlanSlot)
    (capabilities : CapabilityReport) : option (Result string PreparedAttachment) :=
  match mode policy with
  | Tproxy =>
      r ← build_tproxy generation slot policy capabilities;
      Some (match r with Ok plan => Ok (PreparedTproxy plan) | Err e => Err (plan_code e) end)
  | Tun =>
      Some (match TunFallbackPlanner_build capabilities with
            | Err e => Err (tun_fallback_code e)
            | Ok _ =>
                match build_tun generation slot policy capabilities with
                | Ok plan => Ok (PreparedTun plan)
                | Err e => Err (plan_code e)
                end
            end)
  | Direct => Some (Err (plan_code UnsupportedCaptureMode))
  end.

(** ** The interfaces *)
(** [NetworkController] *)
Class NetworkController (N R : Type) : Type := {
  net_apply : NetworkPlan -> N -> option (Result ExecutionError R * N);
  net_rollback : NetworkPlan -> R -> N -> option (Result ExecutionError unit * R * N);
}.
(** [CapabilitySource] and [DataPlaneHealthProbe] *)
Class DataPlane (X P : Type) : Type := {
  cap_probe : X -> Result CapabilityError CapabilityReport * X;
  dp_wait_healthy : P -> RuntimeAttachmentView -> CapabilityReport -> X ->
    Result DataPlaneHealthError unit * X;
  dp_wait_stopped : RuntimeAttachmentView -> X -> Result DataPlaneHealthError unit * X;
}.

(** [RuntimeHealthVerifier] *)
Class RuntimeHealthVerifier (X : Type) : Type := {
  rv_verify : RuntimeAttachmentView -> X -> Result DataPlaneHealthError unit * X;
  rv_verify_capture_disabled : RuntimeAttachmentView -> X -> Result DataPlaneHealthError unit * X;
  rv_wait_stopped : RuntimeAttachmentView -> X -> Result DataPlaneHealthError unit * X;
}.

Inductive WorkerActivationDiagnosticCode : Type :=
| InvalidState | CapabilityProbeFailed | NetworkPlanRejected | CoreActivationFailed
| NetworkApplyFailed | DataPlaneHealthFailed | CommitFailed.
Record WorkerActivationError : Type := mkWorkerError {
  diagnostic_code : WorkerActivationDiagnosticCode;
  cause_code : option string;
  worker_cleanup_failed : bool;
}.
Definition worker_code (c : WorkerActivationDiagnosticCode) : string :=
  match c with
  | InvalidState => "worker_activation_invalid_state"
  | CapabilityProbeFailed => "worker_capability_probe_failed"
  | NetworkPlanRejected => "worker_network_plan_rejected"
  | CoreActivationFailed => "worker_core_activation_failed"
  | NetworkApplyFailed => "worker_network_apply_failed"
  | DataPlaneHealthFailed => "worker_data_plane_health_failed"
  | CommitFailed => "worker_generation_commit_failed"
  end.

Definition is_apply_rollback_failed (e : ExecutionError) : bool :=
  match e with ApplyRollbackFailed _ _ => true | _ => false end.

(** ** The environment of an activation *)
Record Env (W N X : Type) : Type := mkEnv {
  e_disk : Disk;
  e_cores : W;
  e_net : N;
  e_probe : X;
  e_state : RuntimeState;
}.
Arguments mkEnv {W N X}.
Arguments e_disk {W N X}.
Arguments e_cores {W N X}.
Arguments e_net {W N X}.
Arguments e_probe {W N X}.
Arguments e_state {W N X}.

Record ActiveRuntime (P R : Type) : Type := mkRuntime {
  rt_active : ActiveGeneration (P := P);
  rt_attachment : RuntimeAttachment R;
  rt_capabilities : CapabilityReport;
  rt_policy : CapturePolicy;
}.
Arguments mkRuntime {P R}.
Arguments rt_active {P R}.
Arguments rt_attachment {P R}.
Arguments rt_capabilities {P R}.
Arguments rt_policy {P R}.

(** What a running runtime acts on. *)
Record Plant (W N X : Type) : Type := mkPlant {
  pl_cores : W;
  pl_net : N;
  pl_verifier : X;
}.
Arguments mkPlant {W N X}.
Arguments pl_cores {W N X}.
Arguments pl_net {W N X}.
Arguments pl_verifier {W N X}.

Section env.
Context {W N X : Type}.
Definition set_store (s : Disk * W) (e : Env W N X) : Env W N X :=
  mkEnv s.1 s.2 (e_net e) (e_probe e) (e_state e).
Definition set_cores (w : W) (e : Env W N X) : Env W N X :=
  mkEnv (e_disk e) w (e_net e) (e_probe e) (e_state e).
Definition set_disk (d : Disk) (e : Env W N X) : Env W N X :=
  mkEnv d (e_cores e) (e_net e) (e_probe e) (e_state e).
Definition set_net (n : N) (e : Env W N X) : Env W N X :=
  mkEnv (e_disk e) (e_cores e) n (e_probe e) (e_state e).
Definition set_probe (x : X) (e : Env W N X) : Env W N X :=
  mkEnv (e_disk e) (e_cores e) (e_net e) x (e_state e).
Definition set_state (s : RuntimeState) (e : Env W N X) : Env W N X :=
  mkEnv (e_disk e) (e_cores e) (e_net e) (e_probe e) s.
End env.

(** ** [WorkerActivator] *)
Section worker.
Context {W P N R X : Type} `{!CoreBackend W P} `{!NetworkController N R} `{!DataPlane X P}.
Context (sha256_hex : list Z -> string).
Context (encode_manifest : GenerationManifest -> list Z)
        (decode_manifest : list Z -> option GenerationManifest)
        (encode_nodes : GenerationNodeRegistry -> list Z)
        (decode_nodes : list Z -> option GenerationNodeRegistry).
Context (root : string).
Context (audit : Candidate -> option (list Z) -> Result SafetyAuditError unit).

Abbreviation E := (Env W N X).
Abbreviation Outcome_of A := (option (Result WorkerActivationError A * E)).

Definition fail_open {A} (code : WorkerActivationDiagnosticCode) (cause : option string) (failed : bool)
    (e : E) : Result WorkerActivationError A * E :=
  (Err (mkWorkerError code cause failed),
   set_state (match transition (e_state e) FailOpenDirect with Ok s => s | Err _ => FailOpenDirect end) e).

Definition transition_to (next : RuntimeState) (e : E) : Result WorkerActivationError E :=
  match transition (e_state e) next with
  | Ok s => Ok (set_state s e)
  | Err _ => Err (mkWorkerError InvalidState None false)
  end.

Definition abort_core (staged : StagedGeneration (P := P)) (e : E) : bool * E :=
  let (failed, s) := abort_staged root staged (e_disk e, e_cores e) in (failed, set_store s e).

(** [receipt.as_mut().is_some_and(|receipt| network.rollback(plan, receipt).is_err())] *)
Definition withdraw (a : RuntimeAttachment R) (n : N) : option (bool * RuntimeAttachment R * N) :=
  match att_receipt a with
  | None => Some (false, a, n)
  | Some receipt =>
      '(result, receipt', n') ← net_rollback (att_plan a) receipt n;
      Some (is_err result, set_receipt (Some receipt') a, n')
  end.

(** What an activation takes back once its plan was applied. *)
Definition take_back (a : RuntimeAttachment R) (staged : StagedGeneration (P := P)) (e : E) :
    option (bool * E) :=
  '(network_failed, a', n') ← withdraw a (e_net e);
  let (core_failed, e1) := abort_core staged (set_net n' e) in
  let (stopped, x') := dp_wait_stopped (P := P) (attachment_view a') (e_probe e1) in
  Some (network_failed || core_failed || is_err stopped, set_probe x' e1).

(** From a staged core and its plan. *)
Definition attach (prepared : PreparedAttachment) (staged : StagedGeneration (P := P))
    (capabilities : CapabilityReport) (policy : CapturePolicy) (e : E) : Outcome_of (ActiveRuntime P R) :=
  '(applied, n1) ← net_apply (prepared_plan prepared) (e_net e);
  let e := set_net n1 e in
  match applied with
  | Err error =>
      let (core_failed, e) := abort_core staged e in
      Some (fail_open NetworkApplyFailed (Some (execution_code error))
              (core_failed || is_apply_rollback_failed error) e)
  | Ok receipt =>
      let attachment := attached prepared receipt in
      let (health, x1) := dp_wait_healthy (staged_process staged) (attachment_view attachment)
                            capabilities (e_probe e) in
      let e := set_probe x1 e in
      match health with
      | Err error =>
          '(failed, e) ← take_back attachment staged e;
          Some (fail_open DataPlaneHealthFailed (Some (data_plane_code error)) failed e)
      | Ok _ =>
          match commit_staged sha256_hex decode_manifest decode_nodes root staged (e_disk e) with
          | (inr staged, d) =>
              '(failed, e) ← take_back attachment staged (set_disk d e);
              Some (fail_open CommitFailed (Some (activation_code Activation.CommitFailed)) failed e)
          | (inl active, d) =>
              Some (Ok (mkRuntime active attachment capabilities policy),
                    set_state (attachment_state attachment) (set_disk d e))
          end
      end
  end.

Definition WorkerActivator_activate (c : Candidate) (policy : CapturePolicy) (slot : PlanSlot) (e : E) :
    Outcome_of (ActiveRuntime P R) :=
  match transition_to Probing e with
  | Err error => Some (Err error, e)
  | Ok e =>
      let (probed, x) := cap_probe (P := P) (e_probe e) in
      let e := set_probe x e in
      match probed with
      | Err error =>
          Some (fail_open CapabilityProbeFailed (Some (capability_code error)) false e)
      | Ok capabilities =>
          prepared ← prepare_attachment (cand_generation c) policy slot capabilities;
          match prepared with
          | Err cause => Some (fail_open NetworkPlanRejected (Some cause) false e)
          | Ok prepared =>
              match transition_to (match mode policy with Tun => StartingTun | _ => StartingCore end) e with
              | Err error => Some (Err error, e)
              | Ok e =>
                  match stage encode_manifest encode_nodes root audit c (e_disk e, e_cores e) with
                  | (Err error, s) =>
                      Some (fail_open CoreActivationFailed (Some (activation_code (err_code error)))
                              (cleanup_failed error) (set_store s e))
                  | (Ok staged, s) => attach prepared staged capabilities policy (set_store s e)
                  end
              end
          end
      end
  end.

(** ** [ActiveRuntime] *)
Definition capture_enabled (rt : ActiveRuntime P R) : bool :=
  match att_receipt (rt_attachment rt) with Some _ => true | None => false end.
Definition set_attachment (a : RuntimeAttachment R) (rt : ActiveRuntime P R) : ActiveRuntime P R :=
  mkRuntime (rt_active rt) a (rt_capabilities rt) (rt_policy rt).

Definition disable_capture (rt : ActiveRuntime P R) (n : N) :
    option (Result ExecutionError unit * ActiveRuntime P R * N) :=
  let a := rt_attachment rt in
  match att_receipt a with
  | None => Some (Ok tt, rt, n)
  | Some current =>
      '(result, current', n') ← net_rollback (att_plan a) current n;
      match result with
      | Err error => Some (Err error, set_attachment (set_receipt (Some current') a) rt, n')
      | Ok _ => Some (Ok tt, set_attachment (set_receipt None a) rt, n')
      end
  end.

Definition enable_capture (rt : ActiveRuntime P R) (n : N) :
    option (Result ExecutionError unit * ActiveRuntime P R * N) :=
  let a := rt_attachment rt in
  match att_receipt a with
  | Some _ => Some (Ok tt, rt, n)
  | None =>
      '(result, n') ← net_apply (att_plan a) n;
      match result with
      | Err error => Some (Err error, rt, n')
      | Ok receipt => Some (Ok tt, set_attachment (set_receipt (Some receipt) a) rt, n')
      end
  end.

Inductive RuntimeReconcileError : Type := WithdrawFailed | ReapplyFailed.
Definition rebuild_network (rt : ActiveRuntime P R) (n : N) :
    option (Result RuntimeReconcileError unit * ActiveRuntime P R * N) :=
  let a := rt_attachment rt in
  match att_receipt a with
  | None => Some (Ok tt, rt, n)
  | Some receipt =>
      '(result, receipt', n1) ← net_rollback (att_plan a) receipt n;
      let rt1 := set_attachment (set_receipt (Some receipt') a) rt in
      match result with
      | Err _ => Some (Err WithdrawFailed, rt1, n1)
      | Ok _ =>
          '(applied, n2) ← net_apply (att_plan a) n1;
          match applied with
          | Err _ => Some (Err ReapplyFailed, rt1, n2)
          | Ok receipt2 => Some (Ok tt, set_attachment (set_receipt (Some receipt2) a) rt, n2)
          end
      end
  end.

Record RuntimeStopError : Type := mkStopError {
  network_failed : bool;
  core_failed : bool;
  data_plane_failed : bool;
}.
Definition ActiveRuntime_stop `{!RuntimeHealthVerifier X} (rt : ActiveRuntime P R) (s : Plant W N X) :
    option (Result RuntimeStopError unit * Plant W N X) :=
  '(network_failed, a, n') ← withdraw (rt_attachment rt) (pl_net s);
  let (stopped, w') := core_stop (active_process (rt_active rt)) (pl_cores s) in
  let (waited, x') := rv_wait_stopped (attachment_view a) (pl_verifier s) in
  let s' := mkPlant w' n' x' in
  if network_failed || negb stopped || is_err waited
  then Some (Err (mkStopError network_failed (negb stopped) (is_err waited)), s')
  else Some (Ok tt, s').

(** ** [CurrentGenerationActivator] *)
Inductive WorkerRecoveryError : Type :=
| InvalidCurrentGeneration
| RecoveryCapabilityProbeFailed
| RecoveryCoreCheckFailed
| RecoveryNetworkPlanRejected
| RecoveryCoreStartFailed
| RecoveryCoreHealthFailed (failed : bool)
| RecoveryNetworkApplyFailed (error : ExecutionError) (failed : bool)
| RecoveryDataPlaneHealthFailed (error : DataPlaneHealthError) (failed : bool).

Definition recovery_cleanup_failed (e : WorkerRecoveryError) : bool :=
  match e with
  | RecoveryCoreHealthFailed failed
  | RecoveryNetworkApplyFailed _ failed
  | RecoveryDataPlaneHealthFailed _ failed => failed
  | _ => false
  end.

(** [process.stop().is_err()] *)
Definition stop_process (p : P) (e : E) : bool * E :=
  let (stopped, w') := core_stop p (e_cores e) in (negb stopped, set_cores w' e).

Definition recover_attach (generation : SealedGeneration) (process : P) (prepared : PreparedAttachment)
    (capabilities : CapabilityReport) (policy : CapturePolicy) (e : E) :
    option (Result WorkerRecoveryError (ActiveRuntime P R) * E) :=
  '(applied, n1) ← net_apply (prepared_plan prepared) (e_net e);
  let e := set_net n1 e in
  match applied with
  | Err error =>
      let (failed, e) := stop_process process e in
      Some (Err (RecoveryNetworkApplyFailed error (failed || is_apply_rollback_failed error)), e)
  | Ok receipt =>
      let attachment := attached prepared receipt in
      let (health, x1) := dp_wait_healthy process (attachment_view attachment) capabilities (e_probe e) in
      let e := set_probe x1 e in
      match health with
      | Err error =>
          '(network_failed, a', n2) ← withdraw attachment (e_net e);
          let (core_failed, e) := stop_process process (set_net n2 e) in
          let (stopped, x2) := dp_wait_stopped (P := P) (attachment_view a') (e_probe e) in
          Some (Err (RecoveryDataPlaneHealthFailed error (network_failed || core_failed || is_err stopped)),
                set_probe x2 e)
      | Ok _ =>
          Some (Ok (mkRuntime (mkActive generation None process) attachment capabilities policy), e)
      end
  end.

Definition recover_sealed (generation : SealedGeneration) (policy : CapturePolicy) (slot : PlanSlot)
    (e : E) : option (Result WorkerRecoveryError (ActiveRuntime P R) * E) :=
  let g := sealed_generation_id generation in
  let (checked, w1) := core_check g (e_cores e) in
  let e := set_cores w1 e in
  if negb checked then Some (Err RecoveryCoreCheckFailed, e)
  else
    let (probed, x) := cap_probe (P := P) (e_probe e) in
    let e := set_probe x e in
    match probed with
    | Err _ => Some (Err RecoveryCapabilityProbeFailed, e)
    | Ok capabilities =>
        prepared ← prepare_attachment g policy slot capabilities;
        match prepared with
        | Err _ => Some (Err RecoveryNetworkPlanRejected, e)
        | Ok prepared =>
            match core_start g (e_cores e) with
            | (None, w2) => Some (Err RecoveryCoreStartFailed, set_cores w2 e)
            | (Some process, w2) =>
                let (healthy, w3) := core_healthy process w2 in
                let e := set_cores w3 e in
                if negb healthy then
                  let (failed, e) := stop_process process e in
                  Some (Err (RecoveryCoreHealthFailed failed), e)
                else recover_attach generation process prepared capabilities policy e
            end
        end
    end.

Definition CurrentGenerationActivator_recover (policy : CapturePolicy) (slot : PlanSlot) (e : E) :
    option (Result WorkerRecoveryError (option (ActiveRuntime P R)) * E) :=
  match current_sealed_generation sha256_hex decode_manifest decode_nodes root (e_disk e) with
  | (Err _, d) => Some (Err InvalidCurrentGeneration, set_disk d e)
  | (Ok None, d) => Some (Ok None, set_disk d e)
  | (Ok (Some generation), d) =>
      '(r, e) ← recover_sealed generation policy slot (set_disk d e);
      Some (match r with Ok rt => Ok (Some rt) | Err error => Err error end, e)
  end.

Definition recover_generation (generation : Z) (policy : CapturePolicy) (slot : PlanSlot) (e : E) :
    option (Result WorkerRecoveryError (option (ActiveRuntime P R)) * E) :=
  match sealed_generation sha256_hex decode_manifest decode_nodes root generation (e_disk e) with
  | (Err _, d) => Some (Err InvalidCurrentGeneration, set_disk d e)
  | (Ok sealed, d) =>
      '(r, e) ← recover_sealed sealed policy slot (set_disk d e);
      Some (match r with Ok rt => Ok (Some rt) | Err error => Err error end, e)
  end.
End worker.

(** ** What the worker relies on

    The contract of a network controller for one plan: from a network that is [idle]
    for it, applying either puts the plan in place and returns a receipt that is
    [held], or reports an error, and then the network is as before unless the
    controller says that it could not take back what it did; a receipt that is held
    can be rolled back, again if that fails, and a rollback that succeeds restores
    the network. *)
Class NetworkControllerLaws {N R : Type} `{!NetworkController N R} (view : N -> View)
    (idle : NetworkPlan -> View -> Prop) (held : NetworkPlan -> View -> R -> N -> Prop)
    (plan : NetworkPlan) : Prop := {
  net_apply_law n : idle plan (view n) ->
    exists r n', net_apply plan n = Some (r, n')
    /\ match r with
       | Ok receipt => held plan (view n) receipt n'
                       /\ effects (apply <$> steps plan) (view n) = Some (view n')
       | Err e => is_apply_rollback_failed e = false -> view n' = view n
       end;
  net_rollback_law v0 receipt n : idle plan v0 -> held plan v0 receipt n ->
    exists r receipt' n', net_rollback plan receipt n = Some (r, receipt', n')
    /\ held plan v0 receipt' n' /\ (r = Ok tt -> view n' = v0);
  net_held_view v0 receipt n n' : held plan v0 receipt n -> view n' = view n -> held plan v0 receipt n';
}.

(** [NetworkExecutor] keeps it. *)
#[export] Instance executor_controller {B} `{!NetworkCommandBackend B} :
  NetworkController B ApplyReceipt := {|
  net_apply := NetworkExecutor_apply;
  net_rollback := NetworkExecutor_rollback;
|}.
Definition executor_idle (plan : NetworkPlan) (v : View) : Prop := closed v /\ ready (steps plan) v.
Lemma executor_laws {B} `{!NetworkCommandBackend B} (view : B -> View) (plan : NetworkPlan)
    `{!BackendLaws B view (step_ops (steps plan))} :
  planned plan ->
  NetworkControllerLaws view executor_idle (fun plan => receipt_held view plan) plan.
Proof.
  intros Hp. split.
  - intros n [Hc Hr]. destruct (apply_transaction view plan n Hp Hc Hr) as (r & n' & E & Hres).
    exists r, n'. split; [exact E|]. destruct r as [receipt|e]; [naive_solver|]. by destruct e.
  - intros v0 receipt n [Hc Hr] Hh.
    destruct (rollback_resumes view plan v0 receipt n Hp Hc Hr Hh) as (r & receipt' & n' & E & Hh' & _ & Hres).
    exists r, receipt', n'. split_and!; [exact E|done|]. intros ->. by destruct Hres.
  - intros v0 receipt n n' (H1 & H2 & H3 & Hh) Hv. split_and!; [done..|]. unfold held in *. by rewrite Hv.
Qed.

Lemma prepare_attachment_total g policy slot caps : is_Some (prepare_attachment g policy slot caps).
Proof.
  unfold prepare_attachment. destruct (mode policy); [|by eexists..].
  destruct (build_tproxy_total g slot policy caps) as [r ->]. by eexists.
Qed.
Lemma prepare_attachment_planned g policy slot caps prepared :
  prepare_attachment g policy slot caps = Some (Ok prepared) -> planned (prepared_plan prepared).
Proof.
  unfold prepare_attachment. destruct (mode policy).
  - destruct (build_tproxy g slot policy caps) as [[plan|e]|] eqn:E; cbn [mbind option_bind]; try done.
    intros [= <-]. exists g, slot, policy, caps. by left.
  - destruct (TunFallbackPlanner_build caps); [|done].
    destruct (build_tun g slot policy caps) as [plan|e] eqn:E; [|done].
    intros [= <-]. exists g, slot, policy, caps. by right.
  - done.
Qed.

Section facts.
Context {W P N R X : Type} `{Countable P} `{!CoreBackend W P} `{!CoreBackendLaws W P}.
Context `{!NetworkController N R} `{!DataPlane X P}.
Context (view : N -> View) (idle : NetworkPlan -> View -> Prop)
  (held : NetworkPlan -> View -> R -> N -> Prop).
Context (sha256_hex : list Z -> string).
Context (encode_manifest : GenerationManifest -> list Z)
        (decode_manifest : list Z -> option GenerationManifest)
        (encode_nodes : GenerationNodeRegistry -> list Z)
        (decode_nodes : list Z -> option GenerationNodeRegistry).
Context (root : string).
Context (audit : Candidate -> option (list Z) -> Result SafetyAuditError unit).
Local Abbreviation E := (Env W N X).
Local Abbreviation activate := (WorkerActivator_activate sha256_hex encode_manifest decode_manifest
  encode_nodes decode_nodes root audit).

Lemma withdraw_total (a : RuntimeAttachment R) v0 n :
  NetworkControllerLaws view idle held (att_plan a) -> idle (att_plan a) v0 ->
  match att_receipt a with Some rc => held (att_plan a) v0 rc n | None => view n = v0 end ->
  exists failed a' n', withdraw a n = Some (failed, a', n')
    /\ att_plan a' = att_plan a /\ attachment_view a' = attachment_view a
    /\ (failed = false -> view n' = v0).
Proof.
  intros Hl Hi Hr. unfold withdraw. destruct (att_receipt a) as [rc|] eqn:Ea.
  - destruct (net_rollback_law v0 rc n Hi Hr) as (r & rc' & n' & Er & _ & Hok). rewrite Er. simpl.
    do 3 eexists. split; [reflexivity|]. split; [by destruct a|]. split; [by destruct a|].
    intros [[] ->]%is_err_false. by apply Hok.
  - by exists false, a, n.
Qed.

(** The staged generation of an activation that started from [e0]. *)
Record staged_from (g : Z) (dir : Dir) (e0 : E) (s : StagedGeneration (P := P)) (e : E) : Prop := {
  sf_generation : staged_generation s = mkSealed root g;
  sf_free : sealed_dirs (e_disk e0) !! g = None;
  sf_sealed : sealed_dirs (e_disk e) = <[ g := dir ]> (sealed_dirs (e_disk e0));
  sf_fresh : staged_process s ∉ cores (e_cores e0);
  sf_cores : cores (e_cores e) = {[ staged_process s ]} ∪ cores (e_cores e0);
}.

(** Nothing of the activation is left, except what a failed clean-up may have left;
    other generations are never touched. *)
Definition undone_all (g : Z) (e0 e : E) (failed : bool) : Prop :=
  delete g (sealed_dirs (e_disk e)) = delete g (sealed_dirs (e_disk e0))
  /\ (failed = false ->
      view (e_net e) = view (e_net e0) /\ cores (e_cores e) = cores (e_cores e0)
      /\ current_file (e_disk e) = current_file (e_disk e0)
      /\ sealed_dirs (e_disk e) = sealed_dirs (e_disk e0)).

Lemma abort_core_undone g dir e0 s e failed e' :
  staged_from g dir e0 s e -> abort_core root s e = (failed, e') ->
  e_net e' = e_net e /\ e_probe e' = e_probe e
  /\ delete g (sealed_dirs (e_disk e')) = delete g (sealed_dirs (e_disk e0))
  /\ (failed = false -> cores (e_cores e') = cores (e_cores e0)
      /\ sealed_dirs (e_disk e') = sealed_dirs (e_disk e0)
      /\ current_file (e_disk e') = current_file (e_disk e)
      /\ forall text, current_file (e_disk e) = Some text -> ~ names text g).
Proof.
  intros [H1 H2 H3 H4 H5]. unfold abort_core.
  destruct (abort_staged root s (e_disk e, e_cores e)) as [failed1 [d w]] eqn:Ea. intros [= <- <-].
  split; [done|]. split; [done|]. by eapply abort_staged_cases.
Qed.

Lemma take_back_undone g dir e0 s e a :
  staged_from g dir e0 s e -> is_uint 64 g -> g <> 0 ->
  NetworkControllerLaws view idle held (att_plan a) -> idle (att_plan a) (view (e_net e0)) ->
  match att_receipt a with
  | Some rc => held (att_plan a) (view (e_net e0)) rc (e_net e)
  | None => view (e_net e) = view (e_net e0) end ->
  current_file (e_disk e) = current_file (e_disk e0) \/ current_file (e_disk e) = Some (current_text g) ->
  exists failed e', take_back root a s e = Some (failed, e') /\ undone_all g e0 e' failed.
Proof.
  intros Hs Hg Hz Hl Hi Hr Hcur. unfold take_back.
  destruct (withdraw_total a (view (e_net e0)) (e_net e) Hl Hi Hr) as (nf & a' & n' & -> & Ha & Hv & Hn).
  cbn [mbind option_bind].
  destruct (abort_core root s (set_net n' e)) as [cf e1] eqn:Ea.
  assert (staged_from g dir e0 s (set_net n' e)) as Hs' by by destruct Hs.
  apply (abort_core_undone g dir e0 s _ _ _ Hs') in Ea as (A1 & A2 & A3 & A4). cbn [e_net set_net e_disk] in *.
  destruct (dp_wait_stopped _ _) as [stopped x'] eqn:Ex. do 2 eexists. split; [reflexivity|].
  split; [done|]. intros [[Hnf Hcf]%orb_false_iff _]%orb_false_iff. destruct (A4 Hcf) as (B1 & B2 & B3 & B4).
  cbn [e_net e_cores e_disk set_probe]. split_and!; [by rewrite A1, Hn|done| |done].
  rewrite B3. destruct Hcur as [Hcur|Hcur]; [done|]. exfalso. apply (B4 _ Hcur).
  split; [|done]. by apply current_text_parses.
Qed.

(** What a successful activation of [c] established. *)
Record activated (c : Candidate) (e0 e : E) (rt : ActiveRuntime P R) : Prop := {
  act_sealed : sealed_dirs (e_disk e)
    = <[ cand_generation c := dir_of encode_manifest encode_nodes c ]> (sealed_dirs (e_disk e0));
  act_current : current_file (e_disk e) = Some (current_text (cand_generation c));
  act_fresh : active_process (rt_active rt) ∉ cores (e_cores e0);
  act_cores : cores (e_cores e) = {[ active_process (rt_active rt) ]} ∪ cores (e_cores e0);
  act_network : effects (apply <$> steps (att_plan (rt_attachment rt))) (view (e_net e0))
    = Some (view (e_net e));
  act_receipt : exists receipt, att_receipt (rt_attachment rt) = Some receipt
    /\ held (att_plan (rt_attachment rt)) (view (e_net e0)) receipt (e_net e);
  act_state : e_state e = attachment_state (rt_attachment rt);
}.

(** An error whose clean-up did not fail left nothing behind; a failed seal may leave
    the new directory. *)
Definition taken_back (g : Z) (e0 e : E) (err : WorkerActivationError) : Prop :=
  delete g (sealed_dirs (e_disk e)) = delete g (sealed_dirs (e_disk e0))
  /\ (worker_cleanup_failed err = false ->
      view (e_net e) = view (e_net e0) /\ cores (e_cores e) = cores (e_cores e0)
      /\ current_file (e_disk e) = current_file (e_disk e0)
      /\ (cause_code err <> Some (activation_code SealFailed) ->
          sealed_dirs (e_disk e) = sealed_dirs (e_disk e0))).
Lemma undone_taken_back g e0 e code cause failed :
  undone_all g e0 e failed -> taken_back g e0 e (mkWorkerError code cause failed).
Proof. intros [H1 H2]. split; [done|]. simpl. naive_solver. Qed.

Lemma fail_open_state {A} code cause failed (e : E) :
  e_state (fail_open (A := A) code cause failed e).2 = FailOpenDirect.
Proof. unfold fail_open. simpl. by destruct (e_state e). Qed.

(** The outcome of an activation of [c] from [e0]. *)
Definition outcome_ok (c : Candidate) (e0 : E) (o : option (Result WorkerActivationError (ActiveRuntime P R) * E)) :
    Prop :=
  exists r e', o = Some (r, e')
  /\ match r with
     | Ok rt => activated c e0 e' rt
     | Err err => taken_back (cand_generation c) e0 e' err /\ e_state e' = FailOpenDirect
     end.
Lemma fail_open_ok c e0 e code cause failed :
  undone_all (cand_generation c) e0 e failed ->
  outcome_ok c e0 (Some (fail_open code cause failed e)).
Proof.
  intros Hu. exists (Err (mkWorkerError code cause failed)),
    (fail_open (A := ActiveRuntime P R) code cause failed e).2.
  split; [done|]. split; [|apply fail_open_state]. by apply (undone_taken_back _ e0 e code cause failed).
Qed.

Lemma attach_spec c e0 s e prepared caps policy :
  let g := cand_generation c in
  is_uint 64 g -> g <> 0 ->
  staged_from g (dir_of encode_manifest encode_nodes c) e0 s e ->
  current_file (e_disk e) = current_file (e_disk e0) -> e_net e = e_net e0 ->
  NetworkControllerLaws view idle held (prepared_plan prepared) ->
  idle (prepared_plan prepared) (view (e_net e0)) ->
  outcome_ok c e0 (attach sha256_hex decode_manifest decode_nodes root prepared s caps policy e).
Proof.
  cbv zeta. intros Hg Hz Hs Hcur Hnet Hl Hi. unfold attach.
  destruct (net_apply_law (e_net e0) Hi) as (r & n1 & Ea & Hr). rewrite Hnet, Ea. cbn [mbind option_bind].
  assert (staged_from (cand_generation c) (dir_of encode_manifest encode_nodes c) e0 s (set_net n1 e)) as Hs1
    by by destruct Hs.
  destruct r as [receipt|error].
  - destruct Hr as [Hheld Heff]. set (a := attached prepared receipt).
    assert (att_plan a = prepared_plan prepared /\ att_receipt a = Some receipt) as [Hap Har]
      by by destruct prepared.
    destruct (dp_wait_healthy _ _ _ _) as [[[]|error] x1] eqn:Eh.
    + unfold commit_staged. rewrite (sf_generation _ _ _ _ _ Hs).
      destruct (commit_generation _ _ _ _ _ _) as [[[]|ce] d] eqn:Ec;
        apply commit_cases in Ec as (C1 & C2 & C3 & C4); cbn [sealed_generation_id e_disk set_probe set_net] in *.
      * do 2 eexists. split; [reflexivity|]. destruct Hs1 as [_ S2 S3 S4 S5]. cbn in S3, S5.
        split; cbn; fold a; [congruence|by apply C3|done|done|by rewrite Hap|exists receipt; by rewrite Hap|done].
      * assert (staged_from (cand_generation c) (dir_of encode_manifest encode_nodes c) e0 s
                  (set_disk d (set_probe x1 (set_net n1 e)))) as Hs2.
        { destruct Hs1 as [S1 S2 S3 S4 S5]. split; cbn in *; congruence. }
        destruct (take_back_undone _ _ e0 s _ a Hs2 Hg Hz) as (failed & e' & -> & Hu).
        { by rewrite Hap. } { by rewrite Hap. } { by rewrite Hap, Har. }
        { cbn. destruct C4 as [C4|[C4 _]]; [left; congruence|by right]. }
        by apply fail_open_ok.
    + assert (staged_from (cand_generation c) (dir_of encode_manifest encode_nodes c) e0 s
                (set_probe x1 (set_net n1 e))) as Hs2 by by destruct Hs1.
      destruct (take_back_undone _ _ e0 s _ a Hs2 Hg Hz) as (failed & e' & -> & Hu).
      { by rewrite Hap. } { by rewrite Hap. } { by rewrite Hap, Har. } { by left. }
      by apply fail_open_ok.
  - destruct (abort_core root s (set_net n1 e)) as [cf e1] eqn:Eb.
    apply (abort_core_undone _ _ e0 s _ _ _ Hs1) in Eb as (A1 & A2 & A3 & A4).
    apply fail_open_ok. split; [done|]. intros [Hcf Hrf]%orb_false_iff.
    destruct (A4 Hcf) as (B1 & B2 & B3 & _). cbn in A1, B3. split_and!; [|done|congruence|done].
    rewrite A1. by apply Hr.
Qed.

(** C1: activating a generation is atomic across the store, the core and the network.
    The network that is there is one on which the plan this activation builds is idle
    (none of the plan's chains, rules and routes is in it), and the network controller
    keeps its contract for that plan, as the executor does; the core backend is any
    lawful one.  Then, whatever fails: the activation never panics; when it succeeds,
    [current] names the new generation and its directory holds the candidate, exactly
    one more core runs, every step of the plan is in place on the network that was
    there, the receipt can take it back, and the state is the running one; when it fails
    after it began, the state is the direct one, and if no clean-up is reported as
    failed then the network, the cores and [current] are what they were, and so are the
    generations (a failed seal may leave the new one). *)
Theorem worker_activation_atomic c policy slot e0 :
  let g := cand_generation c in
  is_uint 64 g -> g <> 0 -> transition (e_state e0) Probing = Ok Probing ->
  (forall caps x prepared, cap_probe (P := P) (e_probe e0) = (Ok caps, x) ->
     prepare_attachment g policy slot caps = Some (Ok prepared) ->
     NetworkControllerLaws view idle held (prepared_plan prepared)
     /\ idle (prepared_plan prepared) (view (e_net e0))) ->
  exists r e', activate c policy slot e0 = Some (r, e')
  /\ match r with
     | Ok rt => activated c e0 e' rt
     | Err err => taken_back g e0 e' err /\ e_state e' = FailOpenDirect
     end.
Proof.
  cbv zeta. intros Hg Hz Ht Hplan.
  enough (outcome_ok c e0 (activate c policy slot e0)) by done.
  unfold WorkerActivator_activate, transition_to. rewrite Ht. cbn [e_probe set_state].
  assert (forall x s, undone_all (cand_generation c) e0 (set_probe x (set_state s e0)) false) as Hsame
    by by intros.
  destruct (cap_probe (e_probe e0)) as [[caps|error] x] eqn:Ep; [|by apply fail_open_ok].
  destruct (prepare_attachment_total (cand_generation c) policy slot caps) as [pr Epr]. rewrite Epr.
  cbn [mbind option_bind]. destruct pr as [prepared|cause]; [|by apply fail_open_ok].
  destruct (Hplan _ _ _ eq_refl Epr) as [Hl Hi].
  assert (exists s, transition (e_state (set_probe x (set_state Probing e0)))
            (match mode policy with Tun => StartingTun | _ => StartingCore end) = Ok s) as [s0 ->]
    by (cbn; destruct (mode policy); by eexists).
  cbn [e_disk e_cores set_state set_probe].
  destruct (stage _ _ _ _ _ _) as [[s|error] [d w]] eqn:Es; apply stage_cases in Es as [Hcur Hst].
  - destruct Hst as (S1 & S2 & S3 & _ & S4 & S5). by apply attach_spec.
  - destruct Hst as [U1 U2]. set (e1 := set_store (d, w) _).
    set (cause := Some (activation_code (err_code error))).
    exists (Err (mkWorkerError CoreActivationFailed cause (cleanup_failed error))),
      (fail_open (A := ActiveRuntime P R) CoreActivationFailed cause (cleanup_failed error) e1).2.
    split; [reflexivity|]. split; [|apply fail_open_state]. split; [done|]. cbn. intros Hf. destruct (U2 Hf) as (V1 & V2 & V3). split_and!; [done|done|done|].
    intros Hc. apply V3. intros E'. apply Hc. unfold cause. by rewrite E'.
Qed.

(** ** Recovery of the committed generation *)
Lemma stop_process_cases p (e e' : E) failed :
  stop_process p e = (failed, e') ->
  e_disk e' = e_disk e /\ e_net e' = e_net e /\ e_probe e' = e_probe e
  /\ (failed = false -> cores (e_cores e') = cores (e_cores e) ∖ {[ p ]}).
Proof.
  unfold stop_process. pose proof (stop_cores p (e_cores e)) as Hs.
  destruct (core_stop p (e_cores e)) as [stopped w']. intros [= <- <-]. split_and!; try done.
  intros ->%negb_false_iff. done.
Qed.

(** A recovery that failed without a failed clean-up left the network and the cores as
    they were. *)
Definition recovery_undone (e0 e : E) (failed : bool) : Prop :=
  same_tree (e_disk e0) (e_disk e)
  /\ (failed = false -> view (e_net e) = view (e_net e0) /\ cores (e_cores e) = cores (e_cores e0)).

Record recovered (g : Z) (e0 e : E) (rt : ActiveRuntime P R) : Prop := {
  rec_generation : sealed_generation_id (active_generation (rt_active rt)) = g;
  rec_disk : same_tree (e_disk e0) (e_disk e);
  rec_fresh : active_process (rt_active rt) ∉ cores (e_cores e0);
  rec_cores : cores (e_cores e) = {[ active_process (rt_active rt) ]} ∪ cores (e_cores e0);
  rec_network : effects (apply <$> steps (att_plan (rt_attachment rt))) (view (e_net e0))
    = Some (view (e_net e));
  rec_receipt : exists receipt, att_receipt (rt_attachment rt) = Some receipt
    /\ held (att_plan (rt_attachment rt)) (view (e_net e0)) receipt (e_net e);
}.

Definition recovery_ok (g : Z) (e0 : E) (o : option (Result WorkerRecoveryError (ActiveRuntime P R) * E)) :
    Prop :=
  exists r e', o = Some (r, e')
  /\ match r with
     | Ok rt => recovered g e0 e' rt
     | Err err => recovery_undone e0 e' (recovery_cleanup_failed err)
     end.

Lemma recover_attach_spec sealed p prepared caps policy e0 e :
  same_tree (e_disk e0) (e_disk e) -> e_net e = e_net e0 ->
  p ∉ cores (e_cores e0) -> cores (e_cores e) = {[ p ]} ∪ cores (e_cores e0) ->
  NetworkControllerLaws view idle held (prepared_plan prepared) ->
  idle (prepared_plan prepared) (view (e_net e0)) ->
  recovery_ok (sealed_generation_id sealed) e0 (recover_attach sealed p prepared caps policy e).
Proof.
  intros Hd Hnet Hp Hcores Hl Hi. unfold recover_attach.
  destruct (net_apply_law (e_net e0) Hi) as (r & n1 & Ea & Hr). rewrite Hnet, Ea. cbn [mbind option_bind].
  assert (forall (w : W), cores w = cores (e_cores e) ∖ {[ p ]} -> cores w = cores (e_cores e0)) as Hback.
  { intros w ->. rewrite Hcores. set_solver. }
  destruct r as [receipt|error].
  - destruct Hr as [Hheld Heff]. set (a := attached prepared receipt).
    assert (att_plan a = prepared_plan prepared /\ att_receipt a = Some receipt) as [Hap Har]
      by by destruct prepared.
    destruct (dp_wait_healthy _ _ _ _) as [[[]|error] x1] eqn:Eh.
    + do 2 eexists. split; [reflexivity|].
      split; cbn; fold a; [done|done|done|done|by rewrite Hap|exists receipt; by rewrite Hap].
    + cbn [e_net set_probe set_net].
      destruct (withdraw_total a (view (e_net e0)) n1) as (nf & a' & n' & -> & _ & Hv & Hn).
      { by rewrite Hap. } { by rewrite Hap. } { by rewrite Har, Hap. }
      cbn [mbind option_bind]. destruct (stop_process p _) as [cf e1] eqn:Es.
      apply stop_process_cases in Es as (S1 & S2 & S3 & S4).
      destruct (dp_wait_stopped _ _) as [st x2] eqn:Ex. do 2 eexists. split; [reflexivity|].
      split; [cbn; by rewrite S1|]. cbn. intros [[Hnf Hcf]%orb_false_iff _]%orb_false_iff.
      rewrite S2. split; [by apply Hn|]. apply Hback. by apply S4.
  - destruct (stop_process p _) as [cf e1] eqn:Es. apply stop_process_cases in Es as (S1 & S2 & S3 & S4).
    do 2 eexists. split; [reflexivity|]. split; [by rewrite S1|]. cbn.
    intros [Hcf Hrf]%orb_false_iff. rewrite S2. split; [by apply Hr|]. apply Hback. by apply S4.
Qed.

Lemma recover_sealed_spec sealed policy slot e0 :
  let g := sealed_generation_id sealed in
  (forall caps x prepared, cap_probe (P := P) (e_probe e0) = (Ok caps, x) ->
     prepare_attachment g policy slot caps = Some (Ok prepared) ->
     NetworkControllerLaws view idle held (prepared_plan prepared)
     /\ idle (prepared_plan prepared) (view (e_net e0))) ->
  recovery_ok g e0 (recover_sealed sealed policy slot e0).
Proof.
  cbv zeta. intros Hplan. unfold recover_sealed. set (g := sealed_generation_id sealed) in *.
  assert (forall w x (err : WorkerRecoveryError), cores w = cores (e_cores e0) ->
    recovery_ok g e0 (Some (Err err, set_probe x (set_cores w e0)))) as Hfail.
  { intros w x err Hw. do 2 eexists. split; [reflexivity|]. by split. }
  pose proof (check_cores g (e_cores e0)) as Hck. destruct (core_check g (e_cores e0)) as [[|] w1]; cbn [snd negb] in *.
  2: { apply (Hfail w1 (e_probe e0)). done. }
  cbn [e_probe set_cores]. destruct (cap_probe (e_probe e0)) as [[caps|error] x] eqn:Ep; [|by apply Hfail].
  destruct (prepare_attachment_total g policy slot caps) as [pr Epr]. rewrite Epr.
  cbn [mbind option_bind]. destruct pr as [prepared|cause]; [|by apply Hfail].
  destruct (Hplan _ _ _ eq_refl Epr) as [Hl Hi]. cbn [e_cores set_probe set_cores].
  pose proof (start_cores g w1) as Hst. destruct (core_start g w1) as [[p|] w2].
  2: { apply (Hfail w2 x). congruence. }
  destruct Hst as [Hf Hw2]. pose proof (healthy_cores p w2) as Hh.
  destruct (core_healthy p w2) as [[|] w3]; cbn [snd negb] in *.
  - apply recover_attach_spec; cbn; try done; congruence.
  - destruct (stop_process p _) as [cf e1] eqn:Es. apply stop_process_cases in Es as (S1 & S2 & _ & S4).
    do 2 eexists. split; [reflexivity|]. split; [by rewrite S1|]. cbn. intros Hcf. rewrite S2.
    split; [done|]. rewrite S4 by done. cbn. rewrite Hh, Hw2, Hck. set_solver.
Qed.

Lemma current_sealed_cases d r d' :
  current_sealed_generation sha256_hex decode_manifest decode_nodes root d = (r, d') ->
  same_tree d d'
  /\ match r with
     | Ok None => current_file d = None
     | Ok (Some sealed) => exists text, current_file d = Some text
         /\ names text (sealed_generation_id sealed)
         /\ gen_valid sha256_hex decode_manifest decode_nodes (sealed_generation_id sealed) (sealed_dirs d)
     | Err _ => True
     end.
Proof.
  unfold current_sealed_generation. pose proof (current_generation_same d) as Hs.
  intros [(cur & d1 & E1 & E2)|(e & E1 & ->)]%bind_inv; rewrite E1 in Hs; cbn [snd] in Hs; [|done].
  apply current_generation_Ok in E1. destruct cur as [g|].
  2: { injection E2 as <- <-. split; [done|]. destruct (current_file d); naive_solver. }
  unfold sealed_generation in E2. pose proof (ensure_same sha256_hex decode_manifest decode_nodes g d1) as Ht.
  assert (forall d2, same_tree d1 d2 -> same_tree d d2) as Htr by (intros; by transitivity d1).
  apply bind_inv in E2 as [(sealed & d2 & E2 & [= <- <-])|(e & E2 & ->)];
    apply bind_inv in E2 as [(u & d3 & E3 & E4)|(e' & E3 & E4)];
    rewrite E3 in Ht; cbn [snd] in Ht; try done.
  - injection E4 as <- <-. destruct u. apply ensure_valid in E3. split; [by apply Htr|].
    destruct (current_file d) as [text|]; [|naive_solver]. destruct E1 as (h & [= <-] & Hn). exists text.
    split_and!; [done|done|]. by destruct Hs as [<- _].
  - split; [by apply Htr|done].
Qed.

(** Bringing the committed generation back is all or nothing too.  When the worker
    restarts, it never panics and never writes to the store; with no current
    generation it does nothing; otherwise it runs the generation that [current]
    names, and only if that is complete: when it succeeds, exactly one more core runs
    and the plan is in place with a receipt that can take it back; when it fails
    without a failed clean-up, the network and the cores are as they were. *)
Theorem worker_recovery_atomic policy slot e0 :
  (forall text g caps x prepared, current_file (e_disk e0) = Some text -> names text g ->
     cap_probe (P := P) (e_probe e0) = (Ok caps, x) ->
     prepare_attachment g policy slot caps = Some (Ok prepared) ->
     NetworkControllerLaws view idle held (prepared_plan prepared)
     /\ idle (prepared_plan prepared) (view (e_net e0))) ->
  exists r e',
    CurrentGenerationActivator_recover sha256_hex decode_manifest decode_nodes root policy slot e0
    = Some (r, e')
  /\ same_tree (e_disk e0) (e_disk e')
  /\ match r with
     | Ok None => current_file (e_disk e0) = None /\ e_net e' = e_net e0 /\ e_cores e' = e_cores e0
     | Ok (Some rt) => exists text g, current_file (e_disk e0) = Some text /\ names text g
         /\ gen_valid sha256_hex decode_manifest decode_nodes g (sealed_dirs (e_disk e0))
         /\ recovered g e0 e' rt
     | Err err => recovery_cleanup_failed err = false ->
         view (e_net e') = view (e_net e0) /\ cores (e_cores e') = cores (e_cores e0)
     end.
Proof.
  intros Hplan. unfold CurrentGenerationActivator_recover.
  destruct (current_sealed_generation _ _ _ _ _) as [[[sealed|]|err] d] eqn:Ec;
    apply current_sealed_cases in Ec as [Hsame Hc].
  - destruct Hc as (text & Ht & Hn & Hv).
    destruct (recover_sealed_spec sealed policy slot (set_disk d e0)) as (r & e' & -> & Hr).
    { intros caps x prepared Hp Hpr. by apply (Hplan text (sealed_generation_id sealed) caps x). }
    cbn [mbind option_bind]. do 2 eexists. split; [reflexivity|].
    assert (same_tree (e_disk (set_disk d e0)) (e_disk e')) as Hs' by (destruct r; by destruct Hr).
    split; [by transitivity d|]. destruct r as [rt|err]; [|by apply Hr].
    exists text, (sealed_generation_id sealed). split_and!; [done|done|done|].
    destruct Hr as [R1 R2 R3 R4 R5 R6]. split; try done. by transitivity d.
  - do 2 eexists. split; [reflexivity|]. by split_and!.
  - do 2 eexists. split; [reflexivity|]. split; [done|]. by intros _.
Qed.

(** ** The running runtime *)
(** The network is [v0] with the plan on top, as far as the receipt says. *)
Definition runtime_ok (v0 : View) (rt : ActiveRuntime P R) (n : N) : Prop :=
  match att_receipt (rt_attachment rt) with
  | Some receipt => held (att_plan (rt_attachment rt)) v0 receipt n
  | None => view n = v0
  end.

(** Capture is switched off and on, and may fail, but for an apply that could not be
    taken back. *)
Inductive toggles : ActiveRuntime P R -> N -> ActiveRuntime P R -> N -> Prop :=
| toggles_none rt n : toggles rt n rt n
| toggles_disable rt n rt1 n1 r rt2 n2 :
    toggles rt n rt1 n1 -> disable_capture rt1 n1 = Some (r, rt2, n2) -> toggles rt n rt2 n2
| toggles_enable rt n rt1 n1 r rt2 n2 :
    toggles rt n rt1 n1 -> enable_capture rt1 n1 = Some (r, rt2, n2) ->
    (forall e, r = Err e -> is_apply_rollback_failed e = false) -> toggles rt n rt2 n2.

Section runtime.
Context (v0 : View) (plan : NetworkPlan).
Hypotheses (Hlaws : NetworkControllerLaws view idle held plan) (Hidle : idle plan v0).
Definition same_core (rt rt' : ActiveRuntime P R) : Prop :=
  rt_active rt' = rt_active rt /\ att_plan (rt_attachment rt') = att_plan (rt_attachment rt).

Lemma set_receipt_core rc rt : same_core rt (set_attachment (set_receipt rc (rt_attachment rt)) rt).
Proof. split; [done|]. simpl. by destruct (rt_attachment rt). Qed.
Lemma att_plan_set (rc : option R) a : att_plan (set_receipt rc a) = att_plan a.
Proof. by destruct a. Qed.
Lemma att_receipt_set (rc : option R) a : att_receipt (set_receipt rc a) = rc.
Proof. by destruct a. Qed.

Lemma disable_capture_ok rt n r rt' n' :
  att_plan (rt_attachment rt) = plan -> runtime_ok v0 rt n -> disable_capture rt n = Some (r, rt', n') ->
  same_core rt rt' /\ runtime_ok v0 rt' n'
  /\ (r = Ok tt -> capture_enabled rt' = false /\ view n' = v0).
Proof.
  intros Hp. unfold runtime_ok, disable_capture, capture_enabled. rewrite Hp.
  destruct (att_receipt _) as [rc|] eqn:Er.
  - intros Hh. destruct (net_rollback_law v0 rc n Hidle Hh) as (res & rc' & n1 & -> & Hh' & Hok).
    cbn [mbind option_bind]. destruct res as [[]|e]; intros [= <- <- <-];
      cbn [rt_attachment set_attachment]; rewrite att_receipt_set, ?att_plan_set, ?Hp;
      (split; [apply set_receipt_core|by auto]).
  - intros Hv [= <- <- <-]. rewrite Er. by split_and!.
Qed.

Lemma enable_capture_ok rt n r rt' n' :
  att_plan (rt_attachment rt) = plan -> runtime_ok v0 rt n -> enable_capture rt n = Some (r, rt', n') ->
  (forall e, r = Err e -> is_apply_rollback_failed e = false) ->
  same_core rt rt' /\ runtime_ok v0 rt' n' /\ (r = Ok tt -> capture_enabled rt' = true).
Proof.
  intros Hp. unfold runtime_ok, enable_capture, capture_enabled. rewrite Hp.
  destruct (att_receipt _) as [rc|] eqn:Er.
  - intros Hh [= <- <- <-] _. rewrite Er, Hp. by split_and!.
  - intros Hv. destruct (net_apply_law n) as (res & n1 & -> & Hres); [by rewrite Hv|].
    rewrite Hv in Hres. cbn [mbind option_bind]. destruct res as [rc|e]; intros [= <- <- <-] He.
    + cbn [rt_attachment set_attachment]. rewrite att_receipt_set, att_plan_set, Hp.
      split; [apply set_receipt_core|naive_solver].
    + rewrite Er. split_and!; [done|by rewrite Hres; auto|done].
Qed.

Lemma toggles_ok rt n rt' n' :
  toggles rt n rt' n' -> att_plan (rt_attachment rt) = plan -> runtime_ok v0 rt n ->
  same_core rt rt' /\ runtime_ok v0 rt' n'.
Proof.
  induction 1 as [rt n|rt n rt1 n1 r rt2 n2 _ IH Hd|rt n rt1 n1 r rt2 n2 _ IH He Hok]; intros Hp Hr.
  - by split.
  - destruct (IH Hp Hr) as [[S1 S2] Hr1].
    apply disable_capture_ok in Hd as ([T1 T2] & Hr2 & _); [|congruence|done].
    split; [|done]. split; congruence.
  - destruct (IH Hp Hr) as [[S1 S2] Hr1].
    apply enable_capture_ok in He as ([T1 T2] & Hr2 & _); [|congruence|done|done].
    split; [|done]. split; congruence.
Qed.
End runtime.

Lemma stop_restores `{!RuntimeHealthVerifier X} v0 rt (s : Plant W N X) :
  let plan := att_plan (rt_attachment rt) in
  NetworkControllerLaws view idle held plan -> idle plan v0 -> runtime_ok v0 rt (pl_net s) ->
  exists r s', ActiveRuntime_stop rt s = Some (r, s')
  /\ let gone := cores (pl_cores s') = cores (pl_cores s) ∖ {[ active_process (rt_active rt) ]} in
     match r with
     | Ok _ => view (pl_net s') = v0 /\ gone
     | Err err => (network_failed err = false -> view (pl_net s') = v0) /\ (core_failed err = false -> gone)
     end.
Proof.
  cbv zeta. intros Hl Hi Hr. unfold ActiveRuntime_stop.
  destruct (withdraw_total (rt_attachment rt) v0 (pl_net s)) as (nf & a' & n2 & -> & _ & _ & Hn); [done..|].
  cbn [mbind option_bind]. pose proof (stop_cores (active_process (rt_active rt)) (pl_cores s)) as Hs.
  destruct (core_stop _ _) as [stopped w']. destruct (rv_wait_stopped _ _) as [waited x'] eqn:Ew.
  split_if Hf; do 2 eexists; (split; [reflexivity|]); cbn.
  - split; [done|]. intros ->%negb_false_iff. done.
  - apply orb_false_iff in Hf as [[Hnf ->%negb_false_iff]%orb_false_iff _]. by split; [apply Hn|].
Qed.

(** Stopping restores the network.  From a runtime whose plan is on top of the
    network [v0], after capture was switched off and on any number of times, stopping
    never panics; if it reports success the network is exactly [v0] and the core is
    gone, and an error says which of the parts may remain. *)
Theorem runtime_stop_restores `{!RuntimeHealthVerifier X} v0 rt rt' w n n' x :
  let plan := att_plan (rt_attachment rt) in
  NetworkControllerLaws view idle held plan -> idle plan v0 ->
  runtime_ok v0 rt n -> toggles rt n rt' n' ->
  exists r s', ActiveRuntime_stop rt' (mkPlant w n' x) = Some (r, s')
  /\ let gone := cores (pl_cores s') = cores w ∖ {[ active_process (rt_active rt) ]} in
     match r with
     | Ok _ => view (pl_net s') = v0 /\ gone
     | Err err => (network_failed err = false -> view (pl_net s') = v0) /\ (core_failed err = false -> gone)
     end.
Proof.
  cbv zeta. intros Hl Hi Hr Ht. eapply toggles_ok in Ht as [[Sa Sp] Hr']; [|done..].
  rewrite <- Sa. apply (stop_restores v0 rt' (mkPlant w n' x)); by rewrite ?Sp.
Qed.
End facts.

(** ** Witnesses: a TUN activation of generation 7 *)
Module WorkerDemo.
Record Probe : Type := mkProbe { p_healthy : bool }.
#[global] Instance data_plane : DataPlane Probe Z := {|
  cap_probe x := (Ok DemoPlan.report, x);
  dp_wait_healthy _ _ _ x := (if p_healthy x then Ok tt else Err TunUnhealthy, x);
  dp_wait_stopped _ x := (Ok tt, x);
|}.
#[global] Instance verifier : RuntimeHealthVerifier Probe := {|
  rv_verify _ x := (if p_healthy x then Ok tt else Err TunUnhealthy, x);
  rv_verify_capture_disabled _ x := (Ok tt, x);
  rv_wait_stopped _ x := (Ok tt, x);
|}.
Abbreviation E := (Env CoreDemo.World DemoBackend.Kernel Probe).
Definition held (plan : NetworkPlan) := receipt_held DemoBackend.k_view plan.
Definition start (d : Disk) (healthy : bool) : E :=
  mkEnv d (CoreDemo.mkWorld ∅ true true) (DemoBackend.mkKernel DemoBackend.device []) (mkProbe healthy) Init.

Definition activate (e : E) :=
  WorkerActivator_activate Generation.Demo.sha Generation.Demo.enc Generation.Demo.dec
    Generation.Demo.enc_nodes Generation.Demo.dec_nodes "/data" CoreDemo.accept Generation.Demo.candidate
    DemoPlan.tun_policy SlotA e.
Definition recover (e : E) :=
  CurrentGenerationActivator_recover Generation.Demo.sha Generation.Demo.dec
    Generation.Demo.dec_nodes "/data" DemoPlan.tun_policy SlotA e.

Lemma prepared_tun :
  prepare_attachment 7 DemoPlan.tun_policy SlotA DemoPlan.report = Some (Ok (PreparedTun DemoPlan.tun_plan)).
Proof. reflexivity. Qed.
Lemma laws : NetworkControllerLaws DemoBackend.k_view executor_idle held DemoPlan.tun_plan.
Proof. exact (@executor_laws _ _ DemoBackend.k_view DemoBackend.plan DemoBackend.laws DemoBackend.plan_planned). Qed.
Lemma idle : executor_idle DemoPlan.tun_plan DemoBackend.device.
Proof. split; [exact DemoBackend.device_closed|exact DemoBackend.device_ready]. Qed.
Lemma plan_ready e : e_net e = DemoBackend.mkKernel DemoBackend.device [] ->
  forall caps x prepared, cap_probe (P := Z) (e_probe (W := CoreDemo.World) e) = (Ok caps, x) ->
    prepare_attachment 7 DemoPlan.tun_policy SlotA caps = Some (Ok prepared) ->
    NetworkControllerLaws DemoBackend.k_view executor_idle held (prepared_plan prepared)
    /\ executor_idle (prepared_plan prepared) (DemoBackend.k_view (e_net e)).
Proof.
  intros -> caps x prepared [= <- _]. rewrite prepared_tun. intros [= <-]. split; [exact laws|exact idle].
Qed.
End WorkerDemo.

(** It succeeds; and when the data plane is not healthy, everything is taken back. *)
Lemma worker_activation_atomic_witness :
  (exists rt e', WorkerDemo.activate (WorkerDemo.start (Generation.Demo.fresh []) true) = Some (Ok rt, e')
     /\ current_file (e_disk e') = Some (current_text 7) /\ e_state e' = RunningTun
     /\ effects (apply <$> steps (att_plan (rt_attachment rt))) DemoBackend.device
        = Some (DemoBackend.k_view (e_net e')))
  /\ exists err e', WorkerDemo.activate (WorkerDemo.start (Generation.Demo.fresh []) false) = Some (Err err, e')
     /\ DemoBackend.k_view (e_net e') = DemoBackend.device /\ CoreDemo.w_cores (e_cores e') = ∅
     /\ e_state e' = FailOpenDirect.
Proof.
  assert (is_uint 64 7) as Hg by (split; vm_compute; congruence).
  split.
  - destruct (worker_activation_atomic DemoBackend.k_view executor_idle WorkerDemo.held Generation.Demo.sha
      Generation.Demo.enc Generation.Demo.dec Generation.Demo.enc_nodes Generation.Demo.dec_nodes "/data"
      CoreDemo.accept Generation.Demo.candidate DemoPlan.tun_policy SlotA
      (WorkerDemo.start (Generation.Demo.fresh []) true) Hg ltac:(discriminate) eq_refl
      (WorkerDemo.plan_ready (WorkerDemo.start (Generation.Demo.fresh []) true) eq_refl)) as (r & e' & Er & Hr).
    assert (is_ok r = true) as Hok.
    { assert (is_ok <$> (fst <$> Some (r, e')) = Some true) as Hx by (rewrite <- Er; vm_compute; reflexivity).
      injection Hx as Hx. exact Hx. }
    destruct r as [rt|err]; [|discriminate Hok]. exists rt, e'. split; [exact Er|].
    destruct Hr as [_ H2 _ _ H5 _ H7]. split; [exact H2|]. split; [|exact H5].
    assert (e_state <$> (snd <$> Some (Ok (E := WorkerActivationError) rt, e')) = Some RunningTun) as Hx
      by (rewrite <- Er; vm_compute; reflexivity). injection Hx as Hx. exact Hx.
  - destruct (worker_activation_atomic DemoBackend.k_view executor_idle WorkerDemo.held Generation.Demo.sha
      Generation.Demo.enc Generation.Demo.dec Generation.Demo.enc_nodes Generation.Demo.dec_nodes "/data"
      CoreDemo.accept Generation.Demo.candidate DemoPlan.tun_policy SlotA
      (WorkerDemo.start (Generation.Demo.fresh []) false) Hg ltac:(discriminate) eq_refl
      (WorkerDemo.plan_ready (WorkerDemo.start (Generation.Demo.fresh []) false) eq_refl)) as (r & e' & Er & Hr).
    assert ((fun r => match r with Ok _ => None | Err err => Some (worker_cleanup_failed err) end)
            <$> (fst <$> Some (r, e')) = Some (Some false)) as Hx by (rewrite <- Er; vm_compute; reflexivity).
    destruct r as [rt|err]; [discriminate Hx|]. injection Hx as Hx. destruct Hr as [[_ Hr] Hs].
    destruct (Hr Hx) as (V1 & V2 & _). exists err, e'.
    split; [exact Er|]. split; [exact V1|]. split; [exact V2|exact Hs].
Defined.

(** Generation 7 was committed; it is brought back. *)
Lemma worker_recovery_atomic_witness :
  exists rt e', WorkerDemo.recover (WorkerDemo.start Generation.Demo.published true) = Some (Ok (Some rt), e')
    /\ sealed_generation_id (active_generation (rt_active rt)) = 7
    /\ effects (apply <$> steps (att_plan (rt_attachment rt))) DemoBackend.device
       = Some (DemoBackend.k_view (e_net e')).
Proof.
  destruct (worker_recovery_atomic DemoBackend.k_view executor_idle WorkerDemo.held Generation.Demo.sha
    Generation.Demo.dec Generation.Demo.dec_nodes "/data" DemoPlan.tun_policy SlotA
    (WorkerDemo.start Generation.Demo.published true)) as (r & e' & Er & _ & Hr).
  { intros text g caps x prepared Ht Hn Hp Hpr.
    apply (WorkerDemo.plan_ready (WorkerDemo.start Generation.Demo.published true) eq_refl caps x prepared Hp).
    assert (current_file Generation.Demo.published = Some (current_text 7)) as Hc by (vm_compute; reflexivity).
    cbn [e_disk WorkerDemo.start] in Ht. rewrite Hc in Ht. injection Ht as <-. destruct Hn as [Hn _].
    assert (parse_u64 (trim (current_text 7)) = Some 7) as Hq by (vm_compute; reflexivity).
    rewrite Hq in Hn. injection Hn as <-. exact Hpr. }
  assert ((fun r => match r with Ok (Some _) => true | _ => false end) <$> (fst <$> Some (r, e')) = Some true)
    as Hx by (rewrite <- Er; vm_compute; reflexivity).
  destruct r as [[rt|]|err]; [|discriminate Hx..]. destruct Hr as (text & g & _ & _ & _ & [H1 _ _ _ H5 _]).
  exists rt, e'. split; [exact Er|]. split; [|exact H5].
  assert ((fun r => match r with Ok (Some rt) => sealed_generation_id (active_generation (rt_active rt))
           | _ => 0 end) <$> (fst <$> Some (Ok (E := WorkerRecoveryError) (Some rt), e')) = Some 7) as Hy
    by (rewrite <- Er; vm_compute; reflexivity). injection Hy as Hy. exact Hy.
Defined.

(** The applied plan of DemoBackend, whose next rollback command times out: the stop
    says so. *)
Definition demo_runtime : ActiveRuntime Z ApplyReceipt :=
  mkRuntime (mkActive (mkSealed "/data" 7) None 1) (AttachedTun DemoPlan.tun_plan (Some DemoBackend.receipt))
    DemoPlan.report DemoPlan.tun_policy.
Definition demo_running : Plant CoreDemo.World DemoBackend.Kernel WorkerDemo.Probe :=
  mkPlant (CoreDemo.mkWorld {[ 1 ]} true true) DemoBackend.applied (WorkerDemo.mkProbe true).
Lemma demo_runtime_ok :
  runtime_ok DemoBackend.k_view WorkerDemo.held DemoBackend.device demo_runtime (pl_net demo_running).
Proof.
  repeat split; [apply Nat.leb_le; reflexivity|]. left. exact DemoBackend.applied_held.
Qed.
Lemma runtime_stop_restores_witness :
  exists r s', ActiveRuntime_stop demo_runtime demo_running = Some (r, s')
    /\ match r with
       | Ok _ => DemoBackend.k_view (pl_net s') = DemoBackend.device
       | Err err => network_failed err = true /\ CoreDemo.w_cores (pl_cores s') = {[ 1 ]} ∖ {[ 1 ]}
       end.
Proof.
  destruct (runtime_stop_restores DemoBackend.k_view executor_idle WorkerDemo.held DemoBackend.device
    demo_runtime demo_runtime (pl_cores demo_running) DemoBackend.applied DemoBackend.applied
    (pl_verifier demo_running) WorkerDemo.laws WorkerDemo.idle demo_runtime_ok
    (toggles_none _ _)) as (r & s' & Er & Hr).
  exists r, s'. split; [exact Er|].
  assert ((fun r => match r with Ok _ => true | Err err => network_failed err && negb (core_failed err) end)
          <$> (fst <$> Some (r, s')) = Some true) as Hx by (rewrite <- Er; vm_compute; reflexivity).
  destruct r as [u|err].
  - destruct Hr as [Hr _]. exact Hr.
  - destruct Hr as [_ Hr]. injection Hx as Hx. apply andb_true_iff in Hx as [Hx Hy%negb_true_iff].
    split; [exact Hx|exact (Hr Hy)].
Defined.
