(* ===== verification/Composer.v ===== *)
(** * Composer: the sing-box configuration of a generation

    [nethop-core/src/composer.rs]: terminal outbounds, the managed options, the Clash
    API endpoint, the profile, and the whole JSON document [ManagedConfig::from_profile]
    writes from them.  The document is the value [compose_value]; its serialisation
    ([serde_json::to_vec]) and its SHA-256 are parameters.

    [ComposerSpec] reads a document back the way its consumer does: the route rules are
    tried in order, a rule matches when all its conditions do, [sniff] and [resolve] act
    on the connection and go on, the others decide.  What a condition means is left to
    the reader's parameters; the theorems hold for every choice of them. *)

From S2P Require Import Prelude Text Ordering BTreeMap Json Capture Generation WorkerActivation.

Local Open Scope Z_scope.

Definition MAX_TAG_BYTES : Z := 128.
Definition MAX_PROTOCOL_BYTES : Z := 32.
Definition MAX_FIELD_COUNT : Z := 128.
Definition MAX_FIELD_NAME_BYTES : Z := 64.
Definition MAX_CONFIG_BYTES : Z := 5 * 1024 * 1024.
Definition MAX_MANAGED_NODES : Z := 2000.
Definition MAX_AUTO_NODES : Z := 64.
Definition MAX_ROUTING_CIDRS : Z := 512.
Definition MAX_CIDR_BYTES : Z := 64.
Definition MAX_ROUTING_DOMAINS : Z := 512.
Definition MAX_DOMAIN_BYTES : Z := 253.
Definition MIN_API_SECRET_BYTES : Z := 32.
Definition MAX_API_SECRET_BYTES : Z := 128.

Definition DIRECT_TAG : string := "direct".
Definition BLOCK_TAG : string := "block".
Definition SELECT_TAG : string := "nethop-select".
Definition INBOUND_TAG : string := "nethop-in".
Definition FETCH_INBOUND_TAG : string := "nethop-fetch".
Definition MANAGED_FETCH_PROXY_ENDPOINT : string := "127.0.0.1:7894".
Definition MANAGED_FETCH_PROXY_USERNAME : string := "nethop".
Definition CN_DOMAIN_RULE_SET_TAG : string := "nethop-cn-domain".
Definition CN_IP_RULE_SET_TAG : string := "nethop-cn-ip".
Definition CN_DOMAIN_RULE_SET_PATH : string := "/data/adb/nethop/rulesets/cn-domain.srs".
Definition CN_IP_RULE_SET_PATH : string := "/data/adb/nethop/rulesets/cn-ip.srs".
Definition RESERVED_TAGS : list string :=
  [DIRECT_TAG; BLOCK_TAG; SELECT_TAG; INBOUND_TAG; FETCH_INBOUND_TAG].
Definition RESERVED_FIELDS : list string :=
  ["inbounds"; "outbounds"; "route"; "dns"; "experimental"; "services"; "log"; "endpoints"].

Inductive ComposerError : Type :=
| InvalidTag | InvalidProtocol | ReservedField (field : string) | TooManyFields
| FieldNameTooLong | DuplicateTag | EmptyOutbounds | ConfigTooLarge
| Serialization (error : string) | TooManyOutbounds | ReservedTag | InvalidApiEndpoint
| InvalidApiSecret | InvalidManagedOptions.

(** ** Terminal outbounds *)
Record TerminalOutbound : Type := mkTerminal {
  tag : string;
  protocol : string;
  fields : BTreeMap string Json;
}.

Fixpoint check_fields (keys : list string) : Result ComposerError unit :=
  match keys with
  | [] => Ok tt
  | key :: rest =>
      if String.eqb key "" || (MAX_FIELD_NAME_BYTES <? str_len key) then Err FieldNameTooLong
      else if bool_decide (key ∈ RESERVED_FIELDS) then Err (ReservedField key)
      else check_fields rest
  end.

Definition TerminalOutbound_new (tag protocol : string) (fields : BTreeMap string Json) :
    Result ComposerError TerminalOutbound :=
  if String.eqb tag "" || (MAX_TAG_BYTES <? str_len tag) then Err InvalidTag
  else if String.eqb protocol "" || (MAX_PROTOCOL_BYTES <? str_len protocol)
  then Err InvalidProtocol
  else if MAX_FIELD_COUNT <? len fields then Err TooManyFields
  else check_fields (bt_keys fields) ≫= fun _ => Ok (mkTerminal tag protocol fields).

Definition to_json (self : TerminalOutbound) : BTreeMap string Json :=
  bt_insert "type" (JString (protocol self)) (bt_insert "tag" (JString (tag self)) (fields self)).

(** ** Options *)
Definition tun_stack_str (s : TunStack) : string :=
  match s with System => "system" | Gvisor => "gvisor" end.

Inductive ManagedOutboundMode : Type := ModeRule | ModeGlobal | ModeDirect.
#[export] Instance ManagedOutboundMode_eq_dec : EqDecision ManagedOutboundMode.
Proof. solve_decision. Defined.
Inductive ManagedLogLevel : Type := LogError | LogWarn | LogInfo | LogDebug | LogTrace.
Definition log_level_str (l : ManagedLogLevel) : string :=
  match l with
  | LogError => "error" | LogWarn => "warn" | LogInfo => "info" | LogDebug => "debug"
  | LogTrace => "trace"
  end.

Record ManagedOptions : Type := mkOptions {
  outbound_mode : ManagedOutboundMode;
  urltest_interval_minutes : Z;
  urltest_tolerance_ms : Z;
  urltest_max_candidates : Z;
  log_level : ManagedLogLevel;
  bypass_private : bool;
  bypass_cn : bool;
  force_proxy_cidrs : list string;
  bypass_cidrs : list string;
  force_proxy_domains : list string;
  bypass_domains : list string;
  block_domains : list string;
}.

Definition ManagedOptions_default : ManagedOptions :=
  mkOptions ModeRule 10 50 MAX_AUTO_NODES LogWarn true true [] [] [] [] [].

Definition ManagedOptions_new (mode : ManagedOutboundMode) (interval tolerance candidates : Z)
    (level : ManagedLogLevel) (private cn : bool) (proxy_cidrs bypass_cidrs : list string) :
    Result ComposerError ManagedOptions :=
  if negb (in_range 5 1440 interval) || (1000 <? tolerance) || negb (in_range 1 256 candidates)
     || (MAX_ROUTING_CIDRS <? len proxy_cidrs) || (MAX_ROUTING_CIDRS <? len bypass_cidrs)
     || existsb (fun cidr => String.eqb cidr "" || (MAX_CIDR_BYTES <? str_len cidr)
                             || negb (bool_decide (47 ∈ bytes cidr)))
          (proxy_cidrs ++ bypass_cidrs)
  then Err InvalidManagedOptions
  else Ok (mkOptions mode interval tolerance candidates level private cn proxy_cidrs bypass_cidrs
             [] [] []).

Definition domain_edge (b : Z) : bool := is_ascii_lowercase b || is_ascii_digit b.
Definition valid_domain_suffix (value : string) : bool :=
  let bs := bytes value in
  negb (String.eqb value "") && (str_len value <=? MAX_DOMAIN_BYTES)
  && forallb (fun b => is_ascii_lowercase b || is_ascii_digit b || (b =? 46) || (b =? 45)) bs
  && forallb (fun label =>
       negb (len label =? 0) && (len label <=? 63)
       && match head label with Some b => domain_edge b | None => false end
       && match last label with Some b => domain_edge b | None => false end) (split_on 46 bs).

Definition with_domain_rules (self : ManagedOptions) (proxy bypass block : list string) :
    Result ComposerError ManagedOptions :=
  if (MAX_ROUTING_DOMAINS <? len proxy) || (MAX_ROUTING_DOMAINS <? len bypass)
     || (MAX_ROUTING_DOMAINS <? len block)
     || existsb (fun domain => negb (valid_domain_suffix domain)) (proxy ++ bypass ++ block)
  then Err InvalidManagedOptions
  else Ok (mkOptions (outbound_mode self) (urltest_interval_minutes self)
             (urltest_tolerance_ms self) (urltest_max_candidates self) (log_level self)
             (bypass_private self) (bypass_cn self) (force_proxy_cidrs self) (bypass_cidrs self)
             proxy bypass block).

(** ** The Clash API endpoint *)
Record ClashApi : Type := mkClashApi { endpoint : string; secret : string }.

Definition ClashApi_new (endpoint secret : string) : Result ComposerError ClashApi :=
  let port :=
    match strip_prefix (bytes "127.0.0.1:") (bytes endpoint) with
    | Some value => parse_uint 16 value
    | None => None
    end in
  match port with
  | Some port =>
      if port =? 0 then Err InvalidApiEndpoint
      else if negb (in_range MIN_API_SECRET_BYTES MAX_API_SECRET_BYTES (str_len secret))
              || has_control (bytes secret)
      then Err InvalidApiSecret
      else Ok (mkClashApi endpoint secret)
  | None => Err InvalidApiEndpoint
  end.

(** ** Profiles *)
Record ManagedProfile : Type := mkProfile {
  capture : CapturePolicy;
  outbounds : list TerminalOutbound;
  auto_pool : list string;
  clash_api : ClashApi;
  profile_stack : TunStack;
  options : ManagedOptions;
}.

Definition with_auto_pool (self : ManagedProfile) (pool : list string) :
    Result ComposerError ManagedProfile :=
  if (MAX_AUTO_NODES <? len pool) || ((len pool =? 0) && negb (len (outbounds self) =? 0))
     || existsb (fun t => String.eqb t "" || (MAX_TAG_BYTES <? str_len t) || has_control (bytes t)
                          || negb (existsb (fun o => String.eqb (tag o) t) (outbounds self))) pool
     || negb (all_distinct pool)
  then Err InvalidManagedOptions
  else Ok (mkProfile (capture self) (outbounds self) pool (clash_api self) (profile_stack self)
             (options self)).

Definition ManagedProfile_new (capture : CapturePolicy) (outbounds : list TerminalOutbound)
    (pool : list string) (api : ClashApi) : Result ComposerError ManagedProfile :=
  if MAX_MANAGED_NODES <? len outbounds then Err TooManyOutbounds
  else if existsb (fun o => bool_decide (tag o ∈ RESERVED_TAGS)) outbounds then Err ReservedTag
  else with_auto_pool (mkProfile capture outbounds [] api Gvisor ManagedOptions_default) pool.

Definition with_tun_stack (self : ManagedProfile) (stack : TunStack) : ManagedProfile :=
  mkProfile (capture self) (outbounds self) (auto_pool self) (clash_api self) stack (options self).
Definition with_options (self : ManagedProfile) (o : ManagedOptions) : ManagedProfile :=
  mkProfile (capture self) (outbounds self) (auto_pool self) (clash_api self) (profile_stack self) o.

(** The constructors are the only way to a profile: its fields are private. *)
Inductive profile_built : ManagedProfile -> Prop :=
| built_new c os pool api p : ManagedProfile_new c os pool api = Ok p -> profile_built p
| built_stack p s : profile_built p -> profile_built (with_tun_stack p s)
| built_pool p pool p' : profile_built p -> with_auto_pool p pool = Ok p' -> profile_built p'
| built_options p o : profile_built p -> profile_built (with_options p o).

(** ** The document *)
(** [serde_json::json!({ … })]: an object is a map sorted by key. *)
Definition obj (l : list (string * Json)) : Json := JObject (bt_collect l).
Definition strs (l : list string) : Json := JArray (JString <$> l).
Definition jnum (n : Z) : Json := JNumber (of_bytes (print_u64 n)).

Definition normalize_outbounds (os : list TerminalOutbound) :
    Result ComposerError (list TerminalOutbound) :=
  if len os =? 0 then Err EmptyOutbounds
  else
    let os := stable_sort_by_key tag os in
    if existsb (fun w => match w with
                         | [a; b] => String.eqb (tag a) (tag b)
                         | _ => false
                         end) (windows 2 os)
    then Err DuplicateTag
    else Ok os.

Definition selector_outbound (node_tags : list string) (default_tag : string) : Json :=
  obj [("type", JString "selector"); ("tag", JString SELECT_TAG); ("outbounds", strs node_tags);
       ("default", JString default_tag); ("interrupt_exist_connections", JBool false)].
Definition managed_outbounds (os : list TerminalOutbound) (default_tag : string) : list Json :=
  [obj [("type", JString "direct"); ("tag", JString DIRECT_TAG)];
   obj [("type", JString "block"); ("tag", JString BLOCK_TAG)];
   selector_outbound (tag <$> os) default_tag]
  ++ (JObject ∘ to_json <$> os).

Definition rule_mode_with_cn (o : ManagedOptions) : bool :=
  bool_decide (outbound_mode o = ModeRule) && bypass_cn o.

(** [if !list.is_empty() { rules.push(json!({ key: list, … })) }]. *)
Definition push_list (key : string) (l : list string) (rest : list (string * Json)) : list Json :=
  if len l =? 0 then [] else [obj ((key, strs l) :: rest)].

Definition base_rules : list Json :=
  [obj [("inbound", strs [INBOUND_TAG]); ("action", JString "sniff")];
   obj [("type", JString "logical"); ("mode", JString "or");
        ("rules", JArray [obj [("protocol", JString "dns")]; obj [("port", jnum 53)]]);
        ("action", JString "hijack-dns")];
   obj [("inbound", strs [FETCH_INBOUND_TAG]); ("action", JString "resolve");
        ("server", JString "dns-proxy"); ("strategy", JString "prefer_ipv4")];
   obj [("inbound", strs [FETCH_INBOUND_TAG]); ("ip_is_private", JBool true);
        ("outbound", JString BLOCK_TAG)];
   obj [("inbound", strs [FETCH_INBOUND_TAG]); ("outbound", JString SELECT_TAG)]].

Definition user_rules (o : ManagedOptions) : list Json :=
  push_list "domain_suffix" (block_domains o) [("outbound", JString BLOCK_TAG)]
  ++ push_list "domain_suffix" (force_proxy_domains o) [("outbound", JString SELECT_TAG)]
  ++ push_list "domain_suffix" (bypass_domains o) [("outbound", JString DIRECT_TAG)]
  ++ push_list "ip_cidr" (force_proxy_cidrs o) [("outbound", JString SELECT_TAG)]
  ++ push_list "ip_cidr" (bypass_cidrs o) [("outbound", JString DIRECT_TAG)]
  ++ (if bypass_private o
      then [obj [("ip_is_private", JBool true); ("outbound", JString DIRECT_TAG)]] else [])
  ++ (if rule_mode_with_cn o
      then [obj [("rule_set", strs [CN_DOMAIN_RULE_SET_TAG]); ("outbound", JString DIRECT_TAG)];
            obj [("action", JString "resolve"); ("strategy", JString "prefer_ipv4");
                 ("server", JString "dns-proxy")];
            obj [("rule_set", strs [CN_IP_RULE_SET_TAG]); ("outbound", JString DIRECT_TAG)]]
      else []).
Definition route_rules (o : ManagedOptions) : list Json := base_rules ++ user_rules o.

Definition route_final (o : ManagedOptions) : string :=
  match outbound_mode o with ModeRule | ModeGlobal => SELECT_TAG | ModeDirect => DIRECT_TAG end.
Definition dns_final (o : ManagedOptions) : string :=
  match outbound_mode o with ModeDirect => "dns-direct" | ModeRule | ModeGlobal => "dns-proxy" end.

Definition dns_rules (o : ManagedOptions) : list Json :=
  push_list "domain_suffix" (force_proxy_domains o)
    [("action", JString "route"); ("server", JString "dns-proxy")]
  ++ push_list "domain_suffix" (bypass_domains o)
    [("action", JString "route"); ("server", JString "dns-direct")]
  ++ (if rule_mode_with_cn o
      then [obj [("rule_set", strs [CN_DOMAIN_RULE_SET_TAG]); ("action", JString "route");
                 ("server", JString "dns-direct")]]
      else []).

Definition local_rule_set (tag path : string) : Json :=
  obj [("type", JString "local"); ("tag", JString tag); ("format", JString "binary");
       ("path", JString path)].
Definition route_rule_sets (o : ManagedOptions) : list Json :=
  if rule_mode_with_cn o
  then [local_rule_set CN_DOMAIN_RULE_SET_TAG CN_DOMAIN_RULE_SET_PATH;
        local_rule_set CN_IP_RULE_SET_TAG CN_IP_RULE_SET_PATH]
  else [].

(** [.expect] on the constant endpoint: [fetch_port_static] evaluates it. *)
Definition fetch_port : option Z :=
  match rsplit_once 58 (bytes MANAGED_FETCH_PROXY_ENDPOINT) with
  | Some (_, port) => parse_uint 16 port
  | None => None
  end.

Definition tun_inbound (profile : ManagedProfile) : Json :=
  let uids (l : list Z) := JArray (jnum <$> l) in
  let inbound :=
    bt_collect [("type", JString "tun"); ("tag", JString INBOUND_TAG);
                ("interface_name", JString "nethop0");
                ("address", strs ["172.19.0.1/30"; "fdfe:dcba:9876::1/126"]);
                ("stack", JString (tun_stack_str (profile_stack profile)));
                ("auto_route", JBool false); ("strict_route", JBool false)] in
  let inbound :=
    if len (include_uids (capture profile)) =? 0 then inbound
    else bt_insert "include_uid" (uids (include_uids (capture profile))) inbound in
  JObject (if len (exclude_uids (capture profile)) =? 0 then inbound
           else bt_insert "exclude_uid" (uids (exclude_uids (capture profile))) inbound).

Definition fetch_inbound (profile : ManagedProfile) : Json :=
  obj [("type", JString "http"); ("tag", JString FETCH_INBOUND_TAG);
       ("listen", JString "127.0.0.1"); ("listen_port", jnum (default 0 fetch_port));
       ("users", JArray [obj [("username", JString MANAGED_FETCH_PROXY_USERNAME);
                              ("password", JString (secret (clash_api profile)))]])].

Definition compose_inbounds (profile : ManagedProfile) : list Json :=
  match mode (capture profile) with
  | Tproxy =>
      [obj [("type", JString "tproxy"); ("tag", JString INBOUND_TAG); ("listen", JString "::");
            ("listen_port", match inbound_port (capture profile) with
                            | Some port => jnum port | None => JNull end)];
       fetch_inbound profile]
  | Tun => [tun_inbound profile; fetch_inbound profile]
  | Direct => []
  end.

Definition dns_server (tag server host : string) (detour : list (string * Json)) : Json :=
  obj ([("type", JString "https"); ("tag", JString tag); ("server", JString server);
        ("server_port", jnum 443); ("path", JString "/dns-query");
        ("headers", obj [("Host", JString host)]); ("tls", obj [("server_name", JString host)])]
       ++ detour).
Definition dns_servers : list Json :=
  [dns_server "dns-direct" "223.5.5.5" "dns.alidns.com" [];
   dns_server "dns-proxy" "1.1.1.1" "cloudflare-dns.com" [("detour", JString SELECT_TAG)]].

Definition document (profile : ManagedProfile) (os : list TerminalOutbound) (default_tag : string) :
    Json :=
  let o := options profile in
  obj [("log", obj [("level", JString (log_level_str (log_level o))); ("timestamp", JBool true)]);
       ("dns", obj [("servers", JArray dns_servers); ("rules", JArray (dns_rules o));
                    ("final", JString (dns_final o)); ("strategy", JString "prefer_ipv4");
                    ("disable_cache", JBool false); ("cache_capacity", jnum 4096)]);
       ("inbounds", JArray (compose_inbounds profile));
       ("outbounds", JArray (managed_outbounds os default_tag));
       ("route", obj [("auto_detect_interface", JBool true);
                      ("default_domain_resolver", JString "dns-direct");
                      ("rule_set", JArray (route_rule_sets o)); ("rules", JArray (route_rules o));
                      ("final", JString (route_final o))]);
       ("experimental",
        obj [("clash_api", obj [("external_controller", JString (endpoint (clash_api profile)));
                                ("secret", JString (secret (clash_api profile)))])])].

(** The value of [from_profile] and the number of its nodes. *)
Definition compose_value (profile : ManagedProfile) : Result ComposerError (Json * Z) :=
  os ← normalize_outbounds (outbounds profile);
  if existsb (fun t => negb (existsb (fun n => String.eqb n t) (tag <$> os))) (auto_pool profile)
  then Err InvalidManagedOptions
  else
    default_tag ← ok_or (head (auto_pool profile)) InvalidManagedOptions;
    Ok (document profile os default_tag, len os).

Section config.
Context (to_vec : Json -> Result string (list Z)) (sha256_hex : list Z -> string).

Definition from_value (value : Json) (count : Z) : Result ComposerError ManagedConfig :=
  bs ← map_err Serialization (to_vec value);
  if MAX_CONFIG_BYTES <? len bs then Err ConfigTooLarge
  else Ok (mkManaged bs (sha256_hex bs) count).

Definition from_outbounds (os : list TerminalOutbound) : Result ComposerError ManagedConfig :=
  os ← normalize_outbounds os;
  from_value (obj [("outbounds", JArray (JObject ∘ to_json <$> os))]) (len os).

Definition from_profile (profile : ManagedProfile) : Result ComposerError ManagedConfig :=
  vc ← compose_value profile;
  from_value vc.1 vc.2.
End config.

(** ** Reading a document back *)
Module ComposerSpec.
Definition json_field (key : string) (v : Json) : option Json :=
  match v with JObject fields => json_get key fields | _ => None end.
Definition items (key : string) (v : Json) : list Json :=
  match json_field key v with Some (JArray l) => l | _ => [] end.
Definition text (key : string) (v : Json) : option string :=
  match json_field key v with Some (JString s) => Some s | _ => None end.
(** The names a field mentions: one, or a list of them. *)
Definition names (key : string) (v : Json) : list string :=
  match json_field key v with
  | Some (JString s) => [s]
  | Some (JArray l) => omap (fun x => match x with JString s => Some s | _ => None end) l
  | _ => []
  end.
Definition section (key : string) (v : Json) : Json := default JNull (json_field key v).

Inductive Verdict : Type := HijackDns | Via (outbound : string).

(** The fields of a rule that say what to do with a connection; the others are its
    conditions. *)
Definition directive (key : string) : bool :=
  bool_decide (key ∈ ["action"; "outbound"; "server"; "strategy"; "type"; "mode"; "rules"]).

Section reading.
Context {Conn : Type} (cond : string -> Json -> Conn -> bool) (sniff : Conn -> Conn)
  (resolve : string -> string -> Conn -> Conn).

Definition conditions_hold (c : Conn) (v : Json) : bool :=
  match v with
  | JObject fields => forallb (fun kv => directive kv.1 || cond kv.1 kv.2 c) fields
  | _ => false
  end.
Definition rule_matches (v : Json) (c : Conn) : bool :=
  match text "type" v, text "mode" v with
  | Some "logical", Some "or" => existsb (conditions_hold c) (items "rules" v)
  | Some "logical", _ => forallb (conditions_hold c) (items "rules" v)
  | _, _ => conditions_hold c v
  end.

Fixpoint try_rules (rules : list Json) (final : string) (c : Conn) : Verdict :=
  match rules with
  | [] => Via final
  | r :: rest =>
      if rule_matches r c then
        match text "action" r with
        | Some "sniff" => try_rules rest final (sniff c)
        | Some "resolve" =>
            try_rules rest final (resolve (default "" (text "server" r)) (default "" (text "strategy" r)) c)
        | Some "hijack-dns" => HijackDns
        | _ => match text "outbound" r with Some t => Via t | None => try_rules rest final c end
        end
      else try_rules rest final c
  end.
Definition route (v : Json) (c : Conn) : Verdict :=
  let r := section "route" v in try_rules (items "rules" r) (default "" (text "final" r)) c.

(** What the options ask for. *)
Definition from (inbound : string) (c : Conn) : bool := cond "inbound" (strs [inbound]) c.
Definition listed (key : string) (l : list string) (c : Conn) : bool :=
  negb (len l =? 0) && cond key (strs l) c.
Definition private (c : Conn) : bool := cond "ip_is_private" (JBool true) c.
Definition in_set (tag : string) (c : Conn) : bool := cond "rule_set" (strs [tag]) c.
Definition resolved (c : Conn) : Conn := resolve "dns-proxy" "prefer_ipv4" c.

Definition user_policy (o : ManagedOptions) (c : Conn) : Verdict :=
  if listed "domain_suffix" (block_domains o) c then Via BLOCK_TAG
  else if listed "domain_suffix" (force_proxy_domains o) c then Via SELECT_TAG
  else if listed "domain_suffix" (bypass_domains o) c then Via DIRECT_TAG
  else if listed "ip_cidr" (force_proxy_cidrs o) c then Via SELECT_TAG
  else if listed "ip_cidr" (bypass_cidrs o) c then Via DIRECT_TAG
  else if bypass_private o && private c then Via DIRECT_TAG
  else if rule_mode_with_cn o
          && (in_set CN_DOMAIN_RULE_SET_TAG c || in_set CN_IP_RULE_SET_TAG (resolved c))
  then Via DIRECT_TAG
  else Via (route_final o).

Definition policy (o : ManagedOptions) (c : Conn) : Verdict :=
  let c := if from INBOUND_TAG c then sniff c else c in
  if cond "protocol" (JString "dns") c || cond "port" (jnum 53) c then HijackDns
  else if from FETCH_INBOUND_TAG c
  then Via (if private (resolved c) then BLOCK_TAG else SELECT_TAG)
  else user_policy o c.
End reading.

(** The names a document declares and the ones it refers to. *)
Definition tags (key : string) (v : Json) : list string := items key v ≫= names "tag".
Definition outbound_names (v : Json) : list string := tags "outbounds" v.
Definition server_names (v : Json) : list string := tags "servers" (section "dns" v).
Definition rule_set_names (v : Json) : list string := tags "rule_set" (section "route" v).
Definition selector (v : Json) : list Json :=
  filter (fun o => text "tag" o = Some SELECT_TAG) (items "outbounds" v).
Definition outbound_refs (v : Json) : list string :=
  let r := section "route" v in
  (items "rules" r ≫= names "outbound") ++ names "final" r
  ++ (items "servers" (section "dns" v) ≫= names "detour").
Definition server_refs (v : Json) : list string :=
  let r := section "route" v in let d := section "dns" v in
  (items "rules" r ≫= names "server") ++ names "default_domain_resolver" r
  ++ (items "rules" d ≫= names "server") ++ names "final" d.
Definition rule_set_refs (v : Json) : list string :=
  (items "rules" (section "route" v) ++ items "rules" (section "dns" v)) ≫= names "rule_set".
End ComposerSpec.
Import ComposerSpec.

(** ** Lemmas *)
Lemma fetch_port_static : fetch_port = Some 7894.
Proof. reflexivity. Qed.

Section routing.
Context {Conn : Type} (cond : string -> Json -> Conn -> bool) (sniff : Conn -> Conn)
  (resolve : string -> string -> Conn -> Conn).
Abbreviation Try := (try_rules cond sniff resolve).

(** A rule with an outbound decides the connections its conditions hold of. *)
Lemma try_decides r t rest final c b :
  rule_matches cond r c = b -> text "action" r = None -> text "outbound" r = Some t ->
  Try (r :: rest) final c = if b then Via t else Try rest final c.
Proof. intros <- Ha Ho. simpl. rewrite Ha, Ho. done. Qed.

(** A rule that resolves goes on with the resolved connection. *)
Lemma try_resolves r rest final c b :
  rule_matches cond r c = b -> text "action" r = Some "resolve" ->
  text "server" r = Some "dns-proxy" -> text "strategy" r = Some "prefer_ipv4" ->
  Try (r :: rest) final c = Try rest final (if b then resolved resolve c else c).
Proof. intros <- Ha Hs Ht. simpl. rewrite Ha, Hs, Ht. by destruct (rule_matches cond r c). Qed.

(** A rule with one condition and an outbound. *)
Lemma try_one key v t rest final c :
  key ∈ ["domain_suffix"; "ip_cidr"; "ip_is_private"; "rule_set"; "inbound"] ->
  Try (obj [(key, v); ("outbound", JString t)] :: rest) final c
  = if cond key v c then Via t else Try rest final c.
Proof.
  intros Hin. rewrite <- (andb_true_r (cond key v c)).
  repeat (apply elem_of_cons in Hin as [->|Hin]; [by apply try_decides|]).
  by apply elem_of_nil in Hin.
Qed.
Lemma try_push_list key l t rest final c :
  key ∈ ["domain_suffix"; "ip_cidr"] ->
  Try (push_list key l [("outbound", JString t)] ++ rest) final c
  = if listed cond key l c then Via t else Try rest final c.
Proof.
  intros Hkey. unfold push_list, listed. destruct (len l =? 0); [done|].
  apply try_one. set_solver.
Qed.
(** Rules that act on the connection and go on. *)
Lemma try_sniff rest final c :
  Try (obj [("inbound", strs [INBOUND_TAG]); ("action", JString "sniff")] :: rest) final c
  = Try rest final (if from cond INBOUND_TAG c then sniff c else c).
Proof.
  transitivity (if from cond INBOUND_TAG c && true then Try rest final (sniff c) else Try rest final c);
    [reflexivity|]. rewrite andb_true_r. by destruct (from cond INBOUND_TAG c).
Qed.
Lemma try_hijack rest final c :
  Try (obj [("type", JString "logical"); ("mode", JString "or");
            ("rules", JArray [obj [("protocol", JString "dns")]; obj [("port", jnum 53)]]);
            ("action", JString "hijack-dns")] :: rest) final c
  = if cond "protocol" (JString "dns") c || cond "port" (jnum 53) c then HijackDns
    else Try rest final c.
Proof.
  transitivity (if (cond "protocol" (JString "dns") c && true)
                   || ((cond "port" (jnum 53) c && true) || false) then HijackDns
                else Try rest final c); [reflexivity|]. by rewrite orb_false_r, !andb_true_r.
Qed.

Lemma try_user o c :
  Try (user_rules o) (route_final o) c = user_policy cond resolve o c.
Proof.
  unfold user_rules, user_policy.
  do 5 (rewrite try_push_list by set_solver;
        match goal with |- (if ?b then _ else _) = _ => destruct b; [done|] end).
  assert (forall rest, Try ((if bypass_private o then _ else []) ++ rest) (route_final o) c
            = if bypass_private o && private cond c then Via DIRECT_TAG
              else Try rest (route_final o) c) as ->.
  { intros rest. destruct (bypass_private o); [|done]. apply try_one. set_solver. }
  destruct (bypass_private o && private cond c); [done|]. destruct (rule_mode_with_cn o); [|done].
  cbn [andb]. rewrite try_one by set_solver. fold (in_set cond CN_DOMAIN_RULE_SET_TAG c).
  destruct (in_set cond CN_DOMAIN_RULE_SET_TAG c); [done|].
  rewrite (try_resolves _ _ _ _ true) by reflexivity. apply (try_one "rule_set" _ _ []). set_solver.
Qed.

Hypothesis resolve_inbound : forall server strategy v c,
  cond "inbound" v (resolve server strategy c) = cond "inbound" v c.

(** The three rules of the fetch inbound. *)
Lemma try_fetch rest final c :
  Try (drop 2 base_rules ++ rest) final c
  = if from cond FETCH_INBOUND_TAG c
    then Via (if private cond (resolved resolve c) then BLOCK_TAG else SELECT_TAG)
    else Try rest final c.
Proof.
  cbn [drop app base_rules].
  set (r2 := obj [_; ("ip_is_private", _); _]). set (r3 := obj [_; ("outbound", JString SELECT_TAG)]).
  assert (forall more c, Try (r2 :: more) final c
            = if from cond FETCH_INBOUND_TAG c && private cond c then Via BLOCK_TAG
              else Try more final c) as E2.
  { intros more c'. apply try_decides; [|done..].
    rewrite <- (andb_true_r (private cond c')). reflexivity. }
  rewrite (try_resolves _ _ _ _ (from cond FETCH_INBOUND_TAG c && true)) by reflexivity.
  rewrite andb_true_r, E2. unfold r3. rewrite try_one by set_solver.
  fold (from cond FETCH_INBOUND_TAG (if from cond FETCH_INBOUND_TAG c then resolved resolve c else c)).
  assert (from cond FETCH_INBOUND_TAG (resolved resolve c) = from cond FETCH_INBOUND_TAG c) as E
    by apply resolve_inbound.
  destruct (from cond FETCH_INBOUND_TAG c) eqn:Ef; rewrite ?E, ?Ef; [|done].
  by destruct (private _ _).
Qed.

Lemma try_route o c : Try (route_rules o) (route_final o) c = policy cond sniff resolve o c.
Proof.
  transitivity (Try (take 2 base_rules ++ drop 2 base_rules ++ user_rules o)
                  (route_final o) c); [reflexivity|].
  cbn [take base_rules app]. rewrite try_sniff, try_hijack. unfold policy.
  set (c' := if from cond INBOUND_TAG c then _ else _).
  change (obj _ :: obj _ :: obj _ :: ?l) with (drop 2 base_rules ++ l).
  destruct (_ || _); [done|]. rewrite try_fetch. destruct (from cond FETCH_INBOUND_TAG c'); [done|].
  apply try_user.
Qed.
End routing.

(** *** Objects as maps *)
Lemma json_get_bt_get k (m : BTreeMap string Json) : json_get k m = bt_get k m.
Proof.
  unfold json_get. induction m as [|[k' v] m IH]; [done|]. cbn [List.find bt_get fst].
  destruct (String.eqb_spec k' k) as [->|Hne]; [by rewrite cmp_refl|].
  destruct (cmp k k') eqn:E; [apply cmp_eq in E; congruence|exact IH..].
Qed.
Lemma names_to_json_tag o : names "tag" (JObject (to_json o)) = [tag o].
Proof.
  unfold names, json_field, to_json. rewrite json_get_bt_get, bt_get_insert_other by (intros [=]).
  by rewrite bt_get_insert_eq.
Qed.
Lemma text_to_json_tag o : text "tag" (JObject (to_json o)) = Some (tag o).
Proof.
  unfold text, json_field, to_json. rewrite json_get_bt_get, bt_get_insert_other by (intros [=]).
  by rewrite bt_get_insert_eq.
Qed.
Lemma strings_of_strs (l : list string) :
  omap (fun x => match x with JString s => Some s | _ => None end) (JString <$> l) = l.
Proof. induction l as [|x l IH]; [done|]. rewrite fmap_cons. cbn [omap list_omap]. by f_equal. Qed.

(** *** Normalisation *)
Definition adjacent_equal (w : list TerminalOutbound) : bool :=
  match w with [a; b] => String.eqb (tag a) (tag b) | _ => false end.
Lemma no_adjacent os :
  StronglySorted ord_le (tag <$> os) ->
  existsb adjacent_equal (windows 2 os) = negb (bool_decide (NoDup (tag <$> os))).
Proof.
  induction os as [|a os IH]; [intros _; by rewrite bool_decide_eq_true_2 by constructor|].
  destruct os as [|b os]; [intros _; rewrite bool_decide_eq_true_2; [done|by apply NoDup_singleton]|].
  intros Hs. cbn [fmap list_fmap] in Hs. apply StronglySorted_inv in Hs as [Hs Ha].
  transitivity (String.eqb (tag a) (tag b) || existsb adjacent_equal (windows 2 (b :: os))); [done|].
  rewrite (IH Hs). destruct (String.eqb_spec (tag a) (tag b)) as [Heq|Hne]; cbn [orb].
  - rewrite bool_decide_eq_false_2; [done|]. cbn [fmap list_fmap]. rewrite Heq.
    intros [Hn _]%NoDup_cons. apply Hn. by left.
  - f_equal. apply bool_decide_ext. cbn [fmap list_fmap]. rewrite (NoDup_cons (tag a)).
    split; [intros Hn; split; [|done]|naive_solver]. intros Hin.
    cbn [fmap list_fmap] in Ha. apply Forall_cons in Ha as [Hab _].
    apply elem_of_cons in Hin as [Hin|Hin]; [done|].
    apply StronglySorted_inv in Hs as [_ Hb]. rewrite Forall_forall in Hb. specialize (Hb _ Hin).
    apply Hne, ord_le_antisymm; done.
Qed.

Lemma normalize_spec os :
  normalize_outbounds os
  = if len os =? 0 then Err EmptyOutbounds
    else if bool_decide (NoDup (tag <$> os)) then Ok (stable_sort_by_key tag os)
    else Err DuplicateTag.
Proof.
  unfold normalize_outbounds. destruct (len os =? 0); [done|].
  fold adjacent_equal. rewrite no_adjacent by apply stable_sort_sorted.
  assert (bool_decide (NoDup (tag <$> stable_sort_by_key tag os)) = bool_decide (NoDup (tag <$> os)))
    as -> by (apply bool_decide_ext; by rewrite stable_sort_Permutation).
  by destruct (bool_decide _).
Qed.
Lemma sorted_by_tag os : StronglySorted ord_le (tag <$> os) -> StronglySorted (key_le tag) os.
Proof.
  induction os as [|a os IH]; [constructor|]. rewrite fmap_cons.
  intros [Hs Ha]%StronglySorted_inv. constructor; [by apply IH|].
  by rewrite Forall_fmap in Ha.
Qed.
Lemma sorted_tags_unique os1 os2 :
  NoDup (tag <$> os1) -> os1 ≡ₚ os2 -> stable_sort_by_key tag os1 = stable_sort_by_key tag os2.
Proof.
  intros Hnd Hp. apply (StronglySorted_unique_strong (key_le tag)).
  - intros x y Hx Hy H1 H2. assert (tag x = tag y) as Heq by (by apply ord_le_antisymm).
    rewrite stable_sort_Permutation in Hx, Hy. rewrite <- Hp in Hy.
    apply list_elem_of_lookup_1 in Hx as [i Hi], Hy as [j Hj].
    assert (i = j) as ->; [|congruence].
    eapply NoDup_lookup; [exact Hnd|..]; rewrite list_lookup_fmap; [by rewrite Hi|by rewrite Hj; simpl; rewrite Heq].
  - eapply sorted_by_tag, stable_sort_sorted.
  - eapply sorted_by_tag, stable_sort_sorted.
  - by rewrite !stable_sort_Permutation.
Qed.

(** *** Profiles *)
Record profile_wf (p : ManagedProfile) : Prop := {
  pw_reserved : forall o, o ∈ outbounds p -> tag o ∉ RESERVED_TAGS;
  pw_pool : forall t, t ∈ auto_pool p -> t ∈ tag <$> outbounds p;
  pw_nonempty : outbounds p <> [] -> auto_pool p <> [];
  pw_bound : len (auto_pool p) <= MAX_AUTO_NODES;
}.

Lemma profile_pool_wf p pool p' :
  (forall o, o ∈ outbounds p -> tag o ∉ RESERVED_TAGS) -> with_auto_pool p pool = Ok p' ->
  profile_wf p'.
Proof.
  intros Hres. unfold with_auto_pool. split_if E; [done|]. intros [= <-].
  rewrite !orb_false_iff in E. destruct E as [[[E1 E2] E3] _].
  constructor; cbn [outbounds auto_pool]; [done| | |lia].
  - intros t Ht. apply (existsb_false_elem _ _ E3) in Ht. rewrite !orb_false_iff in Ht.
    destruct Ht as [_ Ht]. apply negb_false_iff, existsb_exists in Ht as (o & Ho & Heq).
    apply String.eqb_eq in Heq as <-. apply list_elem_of_fmap_2. by apply list_elem_of_In.
  - intros Hne ->. apply andb_false_iff in E2 as [E2|E2]; [done|].
    apply negb_false_iff, Z.eqb_eq in E2. by destruct (outbounds p).
Qed.
Lemma profile_built_wf p : profile_built p -> profile_wf p.
Proof.
  induction 1 as [c os pool api p Hn|p s _ IH|p pool p' _ IH Hp|p o _ IH].
  - unfold ManagedProfile_new in Hn. split_if_in Hn E0; [done|]. split_if_in Hn E; [done|].
    eapply profile_pool_wf, Hn. intros o Ho. apply (existsb_false_elem _ _ E) in Ho.
    by apply bool_decide_eq_false in Ho.
  - by destruct IH.
  - eapply profile_pool_wf, Hp. apply IH.
  - by destruct IH.
Qed.

(** A built profile composes unless it has no node or a tag twice. *)
Lemma compose_spec p :
  profile_built p ->
  compose_value p
  = if len (outbounds p) =? 0 then Err EmptyOutbounds
    else if bool_decide (NoDup (tag <$> outbounds p))
    then Ok (document p (stable_sort_by_key tag (outbounds p)) (default "" (head (auto_pool p))),
             len (outbounds p))
    else Err DuplicateTag.
Proof.
  intros Hb%profile_built_wf. unfold compose_value. rewrite normalize_spec.
  destruct (len (outbounds p) =? 0) eqn:El; [done|]. destruct (bool_decide _); [|done].
  cbn [mbind Result_bind]. rewrite (existsb_none _ (auto_pool p)).
  - destruct (auto_pool p) as [|t pool] eqn:Ep; cbn [head ok_or mbind Result_bind default].
    + destruct (pw_nonempty p Hb); [|done]. intros E. by rewrite E in El.
    + do 2 f_equal. unfold len. f_equal. apply Permutation_length, stable_sort_Permutation.
  - intros t Ht. apply negb_false_iff, (existsb_elem _ _ t); [|by apply String.eqb_refl].
    rewrite stable_sort_Permutation. by apply (pw_pool p Hb).
Qed.

(** *** The sections of a document *)
Section sections.
Context (p : ManagedProfile) (os : list TerminalOutbound) (t : string).
Abbreviation D := (document p os t).
Lemma document_rules : items "rules" (section "route" D) = route_rules (options p).
Proof. reflexivity. Qed.
Lemma document_outbounds : items "outbounds" D = managed_outbounds os t.
Proof. reflexivity. Qed.

Lemma document_outbound_names : outbound_names D = DIRECT_TAG :: BLOCK_TAG :: SELECT_TAG :: (tag <$> os).
Proof.
  unfold outbound_names, tags. rewrite document_outbounds. unfold managed_outbounds.
  rewrite bind_app. transitivity ([DIRECT_TAG; BLOCK_TAG; SELECT_TAG]
    ++ ((JObject ∘ to_json <$> os) ≫= names "tag")); [reflexivity|]. simpl. do 3 f_equal.
  induction os as [|o l IH]; [done|]. rewrite !fmap_cons, bind_cons, IH. cbn [compose].
  by rewrite names_to_json_tag.
Qed.
Lemma document_selector : Forall (fun o => tag o <> SELECT_TAG) os ->
  selector D = [selector_outbound (tag <$> os) t].
Proof.
  intros Hos. unfold selector. rewrite document_outbounds. unfold managed_outbounds. rewrite filter_app.
  etransitivity; [|apply app_nil_r]. f_equal.
  apply filter_none. intros x (o & -> & Ho)%list_elem_of_fmap. cbn [compose].
  rewrite text_to_json_tag. rewrite Forall_forall in Hos. specialize (Hos o Ho). congruence.
Qed.
Lemma selector_members l : names "outbounds" (selector_outbound l t) = l.
Proof. apply strings_of_strs. Qed.
End sections.

(** What a rule may mention. *)
Definition closed_rule (o : ManagedOptions) (r : Json) : Prop :=
  names "outbound" r ⊆ [DIRECT_TAG; BLOCK_TAG; SELECT_TAG]
  /\ names "server" r ⊆ ["dns-direct"; "dns-proxy"]
  /\ names "rule_set" r
     ⊆ if rule_mode_with_cn o then [CN_DOMAIN_RULE_SET_TAG; CN_IP_RULE_SET_TAG] else [].
Lemma closed_push_list o key l rest :
  closed_rule o (obj ((key, strs l) :: rest)) -> Forall (closed_rule o) (push_list key l rest).
Proof. intros. unfold push_list. destruct (len l =? 0); [constructor|by apply Forall_singleton]. Qed.

Ltac closed_rule_tac :=
  split; [|split]; cbv -[subseteq list_subseteq DIRECT_TAG BLOCK_TAG SELECT_TAG rule_mode_with_cn strs
                         CN_DOMAIN_RULE_SET_TAG CN_IP_RULE_SET_TAG]; set_solver.
Ltac closed_rules_tac := repeat (apply Forall_cons; split; [closed_rule_tac|]); by apply Forall_nil.
Lemma route_rules_closed o : Forall (closed_rule o) (route_rules o).
Proof.
  unfold route_rules, user_rules. rewrite !Forall_app.
  split; [closed_rules_tac|].
  repeat (split; [apply closed_push_list; closed_rule_tac|]). split.
  - destruct (bypass_private o); closed_rules_tac.
  - destruct (rule_mode_with_cn o) eqn:E; [|by apply Forall_nil].
    unfold closed_rule. rewrite E. closed_rules_tac.
Qed.
Lemma dns_rules_closed o : Forall (closed_rule o) (dns_rules o).
Proof.
  unfold dns_rules. rewrite !Forall_app.
  repeat (split; [apply closed_push_list; closed_rule_tac|]).
  destruct (rule_mode_with_cn o) eqn:E; [|by apply Forall_nil].
  unfold closed_rule. rewrite E. closed_rules_tac.
Qed.

Lemma bind_subseteq {A B} (f : A -> list B) (l : list A) (s : list B) :
  Forall (fun x => f x ⊆ s) l -> (l ≫= f) ⊆ s.
Proof. rewrite Forall_forall. intros H x (y & Hx & Hy)%list_elem_of_bind. by apply (H y). Qed.

Section closed.
Context (p : ManagedProfile) (os : list TerminalOutbound) (t : string).
Abbreviation D := (document p os t).
Lemma document_outbound_refs : outbound_refs D ⊆ [DIRECT_TAG; BLOCK_TAG; SELECT_TAG].
Proof.
  unfold outbound_refs. rewrite document_rules. intros x [Hx|Hx]%elem_of_app.
  - eapply bind_subseteq, Hx. eapply Forall_impl; [apply route_rules_closed|]. by intros r [? _].
  - change (x ∈ [route_final (options p); SELECT_TAG]) in Hx. unfold route_final in Hx.
    destruct (outbound_mode (options p)); set_solver.
Qed.
Lemma document_server_refs : server_refs D ⊆ server_names D.
Proof.
  unfold server_refs. rewrite document_rules.
  change (server_names _) with ["dns-direct"; "dns-proxy"].
  change (items "rules" (section "dns" _)) with (dns_rules (options p)).
  change (names "default_domain_resolver" _) with ["dns-direct"].
  change (names "final" _) with [dns_final (options p)].
  intros x Hx. rewrite !elem_of_app in Hx. destruct Hx as [Hx|[Hx|[Hx|Hx]]]; [|set_solver| |].
  - eapply bind_subseteq, Hx. eapply Forall_impl; [apply route_rules_closed|]. by intros r (_ & ? & _).
  - eapply bind_subseteq, Hx. eapply Forall_impl; [apply dns_rules_closed|]. by intros r (_ & ? & _).
  - unfold dns_final in Hx. destruct (outbound_mode (options p)); set_solver.
Qed.
Lemma document_rule_set_refs : rule_set_refs D ⊆ rule_set_names D.
Proof.
  unfold rule_set_refs. rewrite document_rules.
  change (items "rules" (section "dns" _)) with (dns_rules (options p)).
  assert (rule_set_names D
          = if rule_mode_with_cn (options p) then [CN_DOMAIN_RULE_SET_TAG; CN_IP_RULE_SET_TAG] else [])
    as -> by (change (rule_set_names _) with (route_rule_sets (options p) ≫= names "tag");
              unfold route_rule_sets; by destruct (rule_mode_with_cn (options p))).
  apply bind_subseteq, Forall_app.
  split; (eapply Forall_impl; [apply route_rules_closed || apply dns_rules_closed|]); by intros r (_ & _ & ?).
Qed.
Lemma document_names_distinct :
  NoDup (tag <$> os) -> (forall o, o ∈ os -> tag o ∉ RESERVED_TAGS) -> NoDup (outbound_names D).
Proof.
  intros Hnd Hres. rewrite document_outbound_names.
  assert (forall x, x ∈ RESERVED_TAGS -> x ∉ tag <$> os) as Hout.
  { intros x Hx (o & -> & Ho)%list_elem_of_fmap. by apply (Hres o). }
  repeat (apply NoDup_cons; split); [..|done];
    rewrite ?not_elem_of_cons; repeat split; try done; apply Hout; set_solver.
Qed.
End closed.

(** A configuration depends on the set of nodes, not on the order they came in. *)
Lemma composed_order_independent to_vec sha256_hex p os :
  os ≡ₚ outbounds p ->
  from_profile to_vec sha256_hex
    (mkProfile (capture p) os (auto_pool p) (clash_api p) (profile_stack p) (options p))
  = from_profile to_vec sha256_hex p.
Proof.
  intros Hp. unfold from_profile, compose_value. cbn [outbounds auto_pool]. rewrite !normalize_spec.
  replace (len os) with (len (outbounds p)) by (unfold len; by rewrite (Permutation_length Hp)).
  destruct (len (outbounds p) =? 0); [reflexivity|].
  assert (bool_decide (NoDup (tag <$> os)) = bool_decide (NoDup (tag <$> outbounds p))) as Ed
    by (apply bool_decide_ext; by rewrite Hp). rewrite Ed.
  destruct (bool_decide (NoDup (tag <$> outbounds p))) eqn:E; [|reflexivity]. apply bool_decide_eq_true in E.
  rewrite <- (sorted_tags_unique (outbounds p) os) by done. reflexivity.
Qed.

(** ** Theorems *)

(** C9: a configuration composed from a profile routes every connection as the options
    say, whatever the conditions and sniffing mean and whatever resolving adds, as long
    as resolving leaves the inbound of the connection as it is.  DNS is hijacked first;
    a connection of the fetch proxy is resolved through the proxied server and then
    never leaves directly: it is blocked when its address is private and otherwise goes
    through the selected node; for the rest a blocked domain wins over a proxied one,
    that over a bypassed one, then the address lists, private addresses and the CN sets,
    and the mode decides what is left. *)
Theorem composed_routing_exact {Conn : Type} (cond : string -> Json -> Conn -> bool)
    (sniff : Conn -> Conn) (resolve : string -> string -> Conn -> Conn) p v n :
  (forall server strategy inbounds c,
     cond "inbound" inbounds (resolve server strategy c) = cond "inbound" inbounds c) ->
  compose_value p = Ok (v, n) ->
  forall c, route cond sniff resolve v c = policy cond sniff resolve (options p) c.
Proof.
  intros Hres Hv c. unfold compose_value in Hv.
  destruct (normalize_outbounds (outbounds p)) as [os|]; [|done]. cbn [mbind Result_bind] in Hv.
  split_if_in Hv E; [done|]. destruct (head (auto_pool p)) as [t|]; [|done].
  injection Hv as <- _. unfold route. rewrite document_rules. by apply try_route.
Qed.

(** C40: the references inside a configuration composed from a built profile are closed:
    the outbounds have distinct tags, the rules, the final outbound and the DNS detours
    name one of them, the selector offers exactly the nodes and its default is one of
    them, rules and resolvers name a declared DNS server, and rule-set conditions a
    declared set.  The inbounds a rule names are not among them (in the direct mode the
    rules name inbounds that are not declared). *)
Theorem composed_references_closed p v n :
  profile_built p -> compose_value p = Ok (v, n) ->
  NoDup (outbound_names v) /\ outbound_refs v ⊆ outbound_names v
  /\ (exists g, selector v = [g] /\ names "outbounds" g ≡ₚ tag <$> outbounds p
                /\ names "default" g ⊆ names "outbounds" g /\ names "default" g <> [])
  /\ server_refs v ⊆ server_names v /\ rule_set_refs v ⊆ rule_set_names v.
Proof.
  intros Hb Hv. pose proof (profile_built_wf p Hb) as Hwf. rewrite compose_spec in Hv by done.
  destruct (len (outbounds p) =? 0) eqn:El; [done|]. destruct (bool_decide _) eqn:Ed; [|done].
  injection Hv as <- _. apply bool_decide_eq_true in Ed. set (t := default "" _).
  set (os := stable_sort_by_key tag (outbounds p)).
  assert (os ≡ₚ outbounds p) as Hp by apply stable_sort_Permutation.
  assert (forall o, o ∈ os -> tag o ∉ RESERVED_TAGS) as Hres
    by (intros o Ho; rewrite Hp in Ho; by apply (pw_reserved p Hwf)).
  split; [apply document_names_distinct; [by rewrite Hp|done]|].
  split; [|split; [|split; [apply document_server_refs|apply document_rule_set_refs]]].
  { rewrite document_outbound_names. etransitivity; [apply document_outbound_refs|set_solver]. }
  exists (selector_outbound (tag <$> os) t). rewrite document_selector, selector_members.
  - split; [done|]. split; [by rewrite Hp|]. split; [|done].
    change (names "default" _) with [t]. intros x ->%list_elem_of_singleton.
    rewrite Hp. apply (pw_pool p Hwf). unfold t. pose proof (pw_nonempty p Hwf) as Hne.
    destruct (auto_pool p); [|by left]. destruct Hne; [|done]. intros E. by rewrite E in El.
  - rewrite Forall_forall. intros o Ho E. apply (Hres o Ho). rewrite E. set_solver.
Qed.

(** *** Witnesses *)
Module ComposerSample.
Definition node (t : string) : TerminalOutbound :=
  mkTerminal t "trojan" [("server", JString "a.example"); ("server_port", jnum 443)].
Definition api : ClashApi := mkClashApi "127.0.0.1:9090" "0123456789abcdef0123456789abcdef".
Definition cap : CapturePolicy :=
  mkCapturePolicy Tproxy true true true (Some 7893) (Some 255) [] []
    InterfacePolicy_default ForwardingPolicy_default.
Definition opts : ManagedOptions :=
  mkOptions ModeRule 10 50 64 LogWarn true true [] ["10.0.0.0/8"] ["a.com"] ["b.com"] ["ads.com"].
Definition profile : ManagedProfile :=
  mkProfile cap [node "b"; node "a"] ["b"] api Gvisor opts.
Lemma profile_is_built : profile_built profile.
Proof.
  apply (built_options (mkProfile cap [node "b"; node "a"] ["b"] api Gvisor ManagedOptions_default)).
  by apply (built_new cap [node "b"; node "a"] ["b"] api).
Qed.
Definition value : Json := document profile [node "a"; node "b"] "b".

(** A connection: its inbound, its domain, and whether its address is private once known. *)
Record Conn : Type := mkConn { cn_inbound : string; cn_domain : string; cn_private : option bool }.
Definition cond (key : string) (v : Json) (c : Conn) : bool :=
  match v with
  | JArray l =>
      if String.eqb key "inbound" then bool_decide (cn_inbound c ∈ names "x" (obj [("x", v)]))
      else if String.eqb key "domain_suffix" then bool_decide (cn_domain c ∈ names "x" (obj [("x", v)]))
      else false
  | JBool true => if String.eqb key "ip_is_private" then default false (cn_private c) else false
  | _ => false
  end.
Definition resolve (server strategy : string) (c : Conn) : Conn :=
  mkConn (cn_inbound c) (cn_domain c) (Some (String.eqb (cn_domain c) "router.lan")).
End ComposerSample.
Import ComposerSample.

Lemma composed_routing_exact_witness :
  route cond id resolve value (mkConn FETCH_INBOUND_TAG "router.lan" None) = Via BLOCK_TAG
  /\ route cond id resolve value (mkConn INBOUND_TAG "ads.com" None) = Via BLOCK_TAG
  /\ route cond id resolve value (mkConn INBOUND_TAG "b.com" None) = Via DIRECT_TAG
  /\ route cond id resolve value (mkConn INBOUND_TAG "c.com" None) = Via SELECT_TAG.
Proof.
  pose proof (composed_routing_exact cond id resolve profile value 2
                ltac:(reflexivity) ltac:(vm_compute; reflexivity)) as H.
  rewrite !H. vm_compute. done.
Defined.

Lemma composed_references_closed_witness :
  outbound_names value = ["direct"; "block"; "nethop-select"; "a"; "b"] /\ NoDup (outbound_names value).
Proof.
  split; [vm_compute; reflexivity|].
  apply (composed_references_closed profile value 2); [exact profile_is_built|vm_compute; reflexivity].
Defined.
