(* ===== verification/WorkerRuntime.v ===== *)
(** * WorkerRuntime: watching the active runtime

    Models [WorkerRuntime] of crates/nethopd/src/worker_runtime.rs: the timed polls of
    the core, the verification of the attachment with its repair, the switching of
    capture, the stop, the fall back to direct traffic with its restart budget, and
    the loop [run].  The runtime it watches is that of WorkerActivation; the process
    is observed through [CoreObserver]. *)

From S2P Require Import Prelude Text Ordering RuntimeState Capture NodeRegistry Generation Activation Capability Interfaces Plan Kernel Executor WorkerActivation.

Local Open Scope Z_scope.

Definition MAX_INTERVAL : Z := from_secs (60 * 60).
Definition MAX_FAILURE_WINDOW : Z := from_secs (24 * 60 * 60).
Definition RESTART_DELAYS : list Z := [from_secs 1; from_secs 2; from_secs 4].

Inductive WorkerRuntimeError : Type := InvalidLimits | NonMonotonicTime | NotRunning | CaptureOperationFailed.

Record WorkerRuntimeLimits : Type := mkRuntimeLimits {
  core_poll_interval : Z;
  reconcile_interval : Z;
  failure_window : Z;
}.
Definition WorkerRuntimeLimits_new (poll reconcile window : Z) : Result WorkerRuntimeError WorkerRuntimeLimits :=
  if dur_is_zero poll || (MAX_INTERVAL <? poll) || (reconcile <? poll) || (MAX_INTERVAL <? reconcile)
     || dur_is_zero window || (MAX_FAILURE_WINDOW <? window)
  then Err InvalidLimits
  else Ok (mkRuntimeLimits poll reconcile window).
Definition WorkerRuntimeLimits_default : WorkerRuntimeLimits :=
  mkRuntimeLimits (from_millis 250) (from_secs 60) (from_secs (5 * 60)).

(** ** The restart budget *)
Inductive RestartDecision : Type := RetryAfter (delay : Z) | BudgetSpent.
Record RestartBudget : Type := mkBudget {
  budget_window : Z;
  budget_failures : list Z;
}.
Definition RestartBudget_new (window : Z) : Result WorkerRuntimeError RestartBudget :=
  if dur_is_zero window || (MAX_FAILURE_WINDOW <? window) then Err InvalidLimits
  else Ok (mkBudget window []).
Definition RestartBudget_default : RestartBudget := mkBudget (failure_window WorkerRuntimeLimits_default) [].

(** The [while] that forgets failures from the front. *)
Fixpoint forget (window now : Z) (failures : list Z) : list Z :=
  match failures with
  | failure :: rest =>
      if window <=? dur_saturating_sub now failure then forget window now rest else failures
  | [] => []
  end.
(** [None]: indexing past the delays. *)
Definition register_failure (now : Z) (b : RestartBudget) : option (RestartDecision * RestartBudget) :=
  let failures := forget (budget_window b) now (budget_failures b) in
  if Nat.eqb (length failures) (length RESTART_DELAYS)
  then Some (BudgetSpent, mkBudget (budget_window b) failures)
  else
    delay ← RESTART_DELAYS !! length failures;
    Some (RetryAfter delay, mkBudget (budget_window b) (failures ++ [now])).
Definition budget_clear (b : RestartBudget) : RestartBudget := mkBudget (budget_window b) [].

Inductive RuntimeFailureCode : Type :=
| FailureCoreExited | FailureCoreObserveFailed | DriftRepairFailed | DriftPersisted | FailureTunUnhealthy.
Definition failure_str (c : RuntimeFailureCode) : string :=
  match c with
  | FailureCoreExited => "worker_runtime_core_exited"
  | FailureCoreObserveFailed => "worker_runtime_core_observe_failed"
  | DriftRepairFailed => "worker_runtime_drift_repair_failed"
  | DriftPersisted => "worker_runtime_drift_persisted"
  | FailureTunUnhealthy => "worker_runtime_tun_unhealthy"
  end.

Inductive RuntimeTick : Type :=
| TickIdle | TickHealthy | TickReconciled | TickRepaired
| TickRestartScheduled (after : Z) (failure : RuntimeFailureCode) (failed : bool)
| TickCircuitOpen (failure : RuntimeFailureCode) (failed : bool).

(** [CandidateProcess::is_running]; an error is [None]. *)
Class CoreObserver (W P : Type) : Type := core_running : P -> W -> option bool * W.

Record WorkerRuntime (P R : Type) : Type := mkWorkerRuntime {
  wr_active : option (ActiveRuntime P R);
  wr_state : RuntimeState;
  wr_limits : WorkerRuntimeLimits;
  last_tick : Z;
  next_core_poll : Z;
  next_reconcile : Z;
}.
Arguments mkWorkerRuntime {P R}.
Arguments wr_active {P R}.
Arguments wr_state {P R}.
Arguments wr_limits {P R}.
Arguments last_tick {P R}.
Arguments next_core_poll {P R}.
Arguments next_reconcile {P R}.

Section runtime.
Context {W P N R X : Type} `{!CoreBackend W P} `{!CoreObserver W P} `{!NetworkController N R}
  `{!RuntimeHealthVerifier X}.
Abbreviation WR := (WorkerRuntime P R).
Abbreviation S := (Plant W N X).

Definition WorkerRuntime_new (active : ActiveRuntime P R) (started_at : Z) (limits : WorkerRuntimeLimits) : WR :=
  mkWorkerRuntime (Some active) (attachment_state (rt_attachment active)) limits started_at started_at
    (dur_saturating_add started_at (reconcile_interval limits)).

Definition set_active (a : option (ActiveRuntime P R)) (r : WR) : WR :=
  mkWorkerRuntime a (wr_state r) (wr_limits r) (last_tick r) (next_core_poll r) (next_reconcile r).
Definition set_wr_state (s : RuntimeState) (r : WR) : WR :=
  mkWorkerRuntime (wr_active r) s (wr_limits r) (last_tick r) (next_core_poll r) (next_reconcile r).
Definition set_times (last poll reconcile : Z) (r : WR) : WR :=
  mkWorkerRuntime (wr_active r) (wr_state r) (wr_limits r) last poll reconcile.

Definition next_wakeup_in (now : Z) (r : WR) : Z :=
  dur_saturating_sub (Z.min (next_core_poll r) (next_reconcile r)) now.

Definition request_reconcile (now : Z) (r : WR) : Result WorkerRuntimeError unit * WR :=
  if now <? last_tick r then (Err NonMonotonicTime, r)
  else
    match wr_active r with
    | None => (Err NotRunning, r)
    | Some _ => (Ok tt, set_times (last_tick r) (next_core_poll r) (Z.min (next_reconcile r) now) r)
    end.

Definition replace_limits (limits : WorkerRuntimeLimits) (r : WR) : WR :=
  mkWorkerRuntime (wr_active r) (wr_state r) limits (last_tick r)
    (dur_saturating_add (last_tick r) (core_poll_interval limits))
    (dur_saturating_add (last_tick r) (reconcile_interval limits)).

Definition wr_enable_capture (r : WR) (n : N) : option (Result WorkerRuntimeError unit * WR * N) :=
  match wr_active r with
  | None => Some (Err NotRunning, r, n)
  | Some active =>
      '(result, active', n') ← enable_capture active n;
      Some (match result with Ok _ => Ok tt | Err _ => Err CaptureOperationFailed end,
            set_active (Some active') r, n')
  end.
Definition wr_disable_capture (r : WR) (s : S) : option (Result WorkerRuntimeError unit * WR * S) :=
  match wr_active r with
  | None => Some (Err NotRunning, r, s)
  | Some active =>
      '(result, active', n') ← disable_capture active (pl_net s);
      let r' := set_active (Some active') r in
      match result with
      | Err _ => Some (Err CaptureOperationFailed, r', mkPlant (pl_cores s) n' (pl_verifier s))
      | Ok _ =>
          let (verified, x') :=
            rv_verify_capture_disabled (attachment_view (rt_attachment active')) (pl_verifier s) in
          Some (match verified with Ok _ => Ok tt | Err _ => Err CaptureOperationFailed end, r',
                mkPlant (pl_cores s) n' x')
      end
  end.

Definition WorkerRuntime_stop (r : WR) (s : S) : option (Result RuntimeStopError unit * WR * S) :=
  let r := set_wr_state Stopping r in
  match wr_active r with
  | None => Some (Ok tt, r, s)
  | Some active =>
      '(result, s') ← ActiveRuntime_stop active s;
      Some (result, set_active None r, s')
  end.

Definition fail_runtime (now : Z) (failure : RuntimeFailureCode) (r : WR) (s : S) (b : RestartBudget) :
    option (RuntimeTick * WR * S * RestartBudget) :=
  '(failed, s') ← match wr_active r with
                  | None => Some (false, s)
                  | Some active => '(result, s') ← ActiveRuntime_stop active s; Some (is_err result, s')
                  end;
  let r := set_active None r in
  '(decision, b') ← register_failure now b;
  match decision with
  | RetryAfter after =>
      Some (TickRestartScheduled after failure failed, set_wr_state Backoff r, s', b')
  | BudgetSpent => Some (TickCircuitOpen failure failed, set_wr_state CircuitOpen r, s', b')
  end.

(** The end of a tick whose verification failed. *)
Definition repair (now : Z) (active : ActiveRuntime P R) (r : WR) (s : S) (b : RestartBudget) :
    option (RuntimeTick * WR * S * RestartBudget) :=
  match rt_attachment active with
  | AttachedTun _ _ => fail_runtime now FailureTunUnhealthy r s b
  | AttachedTproxy _ _ =>
      '(repaired, active', n') ← rebuild_network active (pl_net s);
      let r := set_active (Some active') r in
      let s := mkPlant (pl_cores s) n' (pl_verifier s) in
      if is_err repaired then fail_runtime now DriftRepairFailed r s b
      else
        let (verified, x') := rv_verify (attachment_view (rt_attachment active')) (pl_verifier s) in
        let s := mkPlant (pl_cores s) (pl_net s) x' in
        if is_err verified then fail_runtime now DriftPersisted r s b
        else Some (TickRepaired, r, s, b)
  end.

(** The second half of a tick: the reconciliation. *)
Definition reconcile (now : Z) (active : ActiveRuntime P R) (r : WR) (s : S) (b : RestartBudget) :
    option (RuntimeTick * WR * S * RestartBudget) :=
  if now <? next_reconcile r then Some (TickHealthy, r, s, b)
  else
    let r := set_times (last_tick r) (next_core_poll r)
               (dur_saturating_add now (reconcile_interval (wr_limits r))) r in
    let view := attachment_view (rt_attachment active) in
    let (verified, x') :=
      if capture_enabled active then rv_verify view (pl_verifier s)
      else rv_verify_capture_disabled view (pl_verifier s) in
    let s := mkPlant (pl_cores s) (pl_net s) x' in
    if is_ok verified then Some (TickReconciled, r, s, b) else repair now active r s b.

Definition WorkerRuntime_tick (now : Z) (r : WR) (s : S) (b : RestartBudget) :
    option (Result WorkerRuntimeError RuntimeTick * WR * S * RestartBudget) :=
  if now <? last_tick r then Some (Err NonMonotonicTime, r, s, b)
  else
    match wr_active r with
    | None => Some (Err NotRunning, r, s, b)
    | Some active =>
        let r := set_times now (next_core_poll r) (next_reconcile r) r in
        if (now <? next_core_poll r) && (now <? next_reconcile r) then Some (Ok TickIdle, r, s, b)
        else
          '(t, r, s, b) ←
            (if next_core_poll r <=? now then
               let (running, w') := core_running (active_process (rt_active active)) (pl_cores s) in
               let s := mkPlant w' (pl_net s) (pl_verifier s) in
               let r := set_times (last_tick r) (dur_saturating_add now (core_poll_interval (wr_limits r)))
                          (next_reconcile r) r in
               match running with
               | Some true => reconcile now active r s b
               | Some false => fail_runtime now FailureCoreExited r s b
               | None => fail_runtime now FailureCoreObserveFailed r s b
               end
             else reconcile now active r s b);
          Some (Ok t, r, s, b)
    end.

(** ** The loop

    A turn of the driver: the time of the tick, and what the wait (for
    [next_wakeup_in]) returned.  The exit is [None] when the turns are used up. *)
Inductive WorkerLoopSignal : Type := Wake | Stop.
Record Turn : Type := mkTurn { turn_now : Z; turn_signal : WorkerLoopSignal }.
Inductive WorkerRunExit : Type :=
| RunStopped (failed : bool)
| RunRestartScheduled (after : Z) (failure : RuntimeFailureCode) (failed : bool)
| RunCircuitOpen (failure : RuntimeFailureCode) (failed : bool)
| RunFatal (error : WorkerRuntimeError) (failed : bool).

Definition stop_with (exit : bool -> WorkerRunExit) (r : WR) (s : S) (b : RestartBudget) :
    option (option WorkerRunExit * WR * S * RestartBudget) :=
  '(result, r', s') ← WorkerRuntime_stop r s;
  Some (Some (exit (is_err result)), r', s', b).

Fixpoint WorkerRuntime_run (turns : list Turn) (r : WR) (s : S) (b : RestartBudget) :
    option (option WorkerRunExit * WR * S * RestartBudget) :=
  match turns with
  | [] => Some (None, r, s, b)
  | turn :: rest =>
      '(t, r, s, b) ← WorkerRuntime_tick (turn_now turn) r s b;
      match t with
      | Ok (TickRestartScheduled after failure failed) =>
          Some (Some (RunRestartScheduled after failure failed), r, s, b)
      | Ok (TickCircuitOpen failure failed) => Some (Some (RunCircuitOpen failure failed), r, s, b)
      | Ok _ =>
          match turn_signal turn with
          | Stop => stop_with RunStopped r s b
          | Wake => WorkerRuntime_run rest r s b
          end
      | Err error => stop_with (RunFatal error) r s b
      end
  end.
End runtime.

(** ** The budget *)
Definition budget_ok (b : RestartBudget) : Prop := (length (budget_failures b) <= length RESTART_DELAYS)%nat.
Lemma forget_length window now l : (length (forget window now l) <= length l)%nat.
Proof. induction l as [|f l IH]; simpl; [lia|]. split_if Hf; simpl; lia. Qed.
Lemma register_failure_total now b :
  budget_ok b -> exists d b', register_failure now b = Some (d, b') /\ budget_ok b'.
Proof.
  unfold budget_ok, register_failure. change (length RESTART_DELAYS) with 3%nat. intros Hb.
  pose proof (forget_length (budget_window b) now (budget_failures b)).
  set (fs := forget _ _ _) in *. destruct (Nat.eqb_spec (length fs) 3) as [E|E].
  { do 2 eexists. split; [reflexivity|]. simpl. lia. }
  destruct (lookup_lt_is_Some_2 RESTART_DELAYS (length fs)) as [d Hd]; [simpl; lia|]. rewrite Hd. simpl.
  do 2 eexists. split; [reflexivity|]. simpl. rewrite length_app. simpl. lia.
Qed.

(** ** Properties *)
Section facts.
Context {W P N R X : Type} `{Countable P} `{!CoreBackend W P} `{!CoreBackendLaws W P} `{!CoreObserver W P}.
Context `{!NetworkController N R} `{!RuntimeHealthVerifier X}.
Context (view : N -> View) (idle : NetworkPlan -> View -> Prop)
  (held : NetworkPlan -> View -> R -> N -> Prop).
Hypothesis running_cores : forall p w, cores (core_running p w).2 = cores w.
Context (v0 : View) (plan : NetworkPlan) (process : P).
Hypotheses (Hlaws : NetworkControllerLaws view idle held plan) (Hidle : idle plan v0).
(** A receipt whose rollback succeeded holds nothing more to take back. *)
Hypothesis emptied : forall rc n rc' n', net_rollback plan rc n = Some (Ok tt, rc', n') ->
  forall m, net_rollback plan rc' m = Some (Ok tt, rc', m).
Context (others : gset P).
Hypothesis fresh_process : process ∉ others.

(** The runtime is watched: its plan is on top of [v0], its core is the one more that
    runs, and the state says so. *)
Definition watched_rt (rt : ActiveRuntime P R) (s : Plant W N X) : Prop :=
  att_plan (rt_attachment rt) = plan /\ active_process (rt_active rt) = process
  /\ runtime_ok view held v0 rt (pl_net s) /\ cores (pl_cores s) = {[ process ]} ∪ others.
Definition watched (r : WorkerRuntime P R) (s : Plant W N X) : Prop :=
  exists rt, wr_active r = Some rt /\ watched_rt rt s /\ wr_state r = attachment_state (rt_attachment rt).

(** The one way the plan is left behind: while the repair applied it again, neither the
    plan nor its rollback went through. *)
Definition left_behind (n : N) : Prop :=
  exists n1 e, view n1 = v0 /\ net_apply plan n1 = Some (Err e, n) /\ is_apply_rollback_failed e = true.
(** What a stop without an error leaves, given why the runtime failed (if it did). *)
Definition given_back (failure : option RuntimeFailureCode) (s : Plant W N X) : Prop :=
  cores (pl_cores s) = others
  /\ (view (pl_net s) = v0 \/ failure = Some DriftRepairFailed /\ left_behind (pl_net s)).
(** The runtime has ended; unless the clean-up is reported as failed, everything was
    given back. *)
Definition ended (failure : option RuntimeFailureCode) (failed : bool) (r : WorkerRuntime P R)
    (s : Plant W N X) : Prop :=
  wr_active r = None /\ is_running (wr_state r) = false /\ (failed = false -> given_back failure s).

(** A runtime whose stop gives everything back. *)
Definition stoppable (failure : option RuntimeFailureCode) (rt : ActiveRuntime P R) (s : Plant W N X) : Prop :=
  exists res s', ActiveRuntime_stop rt s = Some (res, s') /\ (is_err res = false -> given_back failure s').

Lemma stop_watched failure rt s : watched_rt rt s -> stoppable failure rt s.
Proof.
  intros (Hp & Hpr & Hr & Hc).
  destruct (stop_restores view idle held v0 rt s) as (res & s' & E & Hres); [by rewrite Hp..|done|].
  exists res, s'. split; [exact E|]. intros [u ->]%is_err_false. destruct Hres as [Hv Hg].
  split; [|by left]. rewrite Hg, Hc, Hpr. set_solver.
Qed.

(** The runtime after a repair that left the plan behind: its receipt is emptied. *)
Definition spoiled_rt (rt : ActiveRuntime P R) (s : Plant W N X) : Prop :=
  active_process (rt_active rt) = process /\ cores (pl_cores s) = {[ process ]} ∪ others
  /\ (exists a, withdraw (rt_attachment rt) (pl_net s) = Some (false, a, pl_net s)) /\ left_behind (pl_net s).
Lemma stop_spoiled rt s : spoiled_rt rt s -> stoppable (Some DriftRepairFailed) rt s.
Proof.
  intros (Hpr & Hc & [a Hw] & Hl). unfold stoppable, ActiveRuntime_stop. rewrite Hw. cbn [mbind option_bind].
  pose proof (stop_cores (active_process (rt_active rt)) (pl_cores s)) as Hs.
  destruct (core_stop _ _) as [stopped w']. destruct (rv_wait_stopped _ _) as [waited x'] eqn:Ew.
  split_if Hf; do 2 eexists; (split; [reflexivity|]); [done|]. intros _.
  apply orb_false_iff in Hf as [->%negb_false_iff _]. split; [|by right]. simpl. rewrite Hs, Hc, Hpr. set_solver.
Qed.

Definition tick_failed (t : RuntimeTick) : option (RuntimeFailureCode * bool) :=
  match t with TickRestartScheduled _ c f | TickCircuitOpen c f => Some (c, f) | _ => None end.
(** A tick that goes on, and one that ends the runtime. *)
Definition tick_ok (o : option (RuntimeTick * WorkerRuntime P R * Plant W N X * RestartBudget)) : Prop :=
  exists t r s b, o = Some (t, r, s, b) /\ budget_ok b
  /\ match tick_failed t with Some (c, f) => ended (Some c) f r s | None => watched r s end.

Lemma fail_runtime_ok now failure r rt s b :
  budget_ok b -> wr_active r = Some rt -> stoppable (Some failure) rt s -> tick_ok (fail_runtime now failure r s b).
Proof.
  intros Hb Ha (res & s' & E & Hs). unfold fail_runtime. rewrite Ha, E. cbn [mbind option_bind].
  destruct (register_failure_total now b Hb) as (d & b' & -> & Hb'). cbn [mbind option_bind].
  destruct d; do 4 eexists; (split; [reflexivity|]); by split_and!.
Qed.

Lemma watched_verifier rt s x :
  watched_rt rt s -> watched_rt rt (mkPlant (pl_cores s) (pl_net s) x).
Proof. done. Qed.

Lemma rebuild_watched rt s :
  watched_rt rt s ->
  exists res rt' n', rebuild_network rt (pl_net s) = Some (res, rt', n')
    /\ attachment_state (rt_attachment rt') = attachment_state (rt_attachment rt)
    /\ let s' := mkPlant (pl_cores s) n' (pl_verifier s) in
       watched_rt rt' s' \/ is_err res = true /\ spoiled_rt rt' s'.
Proof.
  intros (Hp & Hpr & Hr & Hc). unfold rebuild_network, runtime_ok in *. rewrite Hp in *.
  destruct (att_receipt _) as [rc|] eqn:Er.
  2: { do 3 eexists. split; [reflexivity|]. split; [done|]. left. split_and!; try done. unfold runtime_ok. by rewrite Er. }
  destruct (net_rollback_law v0 rc (pl_net s) Hidle Hr) as (res & rc' & n1 & Erb & Hh & Hok). rewrite Erb.
  cbn [mbind option_bind].
  assert (forall rc1 n, held plan v0 rc1 n ->
    attachment_state (rt_attachment (set_attachment (set_receipt (Some rc1) (rt_attachment rt)) rt))
      = attachment_state (rt_attachment rt)
    /\ watched_rt (set_attachment (set_receipt (Some rc1) (rt_attachment rt)) rt)
         (mkPlant (pl_cores s) n (pl_verifier s))) as Hset.
  { intros rc1 n Hn. split; [simpl; by destruct (rt_attachment rt)|].
    split_and!; [simpl; by rewrite att_plan_set|done| |done].
    unfold runtime_ok. simpl. by rewrite att_receipt_set, att_plan_set, Hp. }
  destruct res as [[]|e]; [|do 3 eexists; split; [reflexivity|]; split; [|left]; by eapply Hset].
  specialize (Hok eq_refl).
  destruct (net_apply_law n1) as (r2 & n2 & E2 & H2); [by rewrite Hok|]. rewrite E2. cbn [mbind option_bind].
  rewrite Hok in H2. destruct r2 as [rc2|e]; do 3 eexists; (split; [reflexivity|]).
  { split; [|left]; eapply Hset; by apply H2. }
  split; [by eapply Hset|]. destruct (is_apply_rollback_failed e) eqn:Ef; [right|left; apply Hset].
  - split; [done|]. split_and!; [done|done| |by exists n1, e].
    eexists. unfold withdraw. simpl. rewrite att_receipt_set, att_plan_set, Hp, (emptied _ _ _ _ Erb). reflexivity.
  - eapply net_held_view; [done|]. by rewrite H2, Hok.
Qed.

Lemma repair_ok now rt r s b :
  budget_ok b -> wr_active r = Some rt -> watched_rt rt s ->
  wr_state r = attachment_state (rt_attachment rt) -> tick_ok (repair now rt r s b).
Proof.
  intros Hb Ha Hw Hst. unfold repair. destruct (rt_attachment rt) as [pl rc|pl rc] eqn:Eat;
    [|by eapply fail_runtime_ok, stop_watched].
  destruct (rebuild_watched rt s Hw) as (res & rt' & n' & -> & Hs' & Hw'). cbn [mbind option_bind].
  destruct (is_err res) eqn:Eres.
  { eapply fail_runtime_ok; [done|reflexivity|]. destruct Hw' as [Hw'|[_ Hw']]; [by apply stop_watched|by apply stop_spoiled]. }
  destruct Hw' as [Hw'|[? _]]; [|done].
  destruct (rv_verify _ _) as [verified x'] eqn:Ev.
  destruct (is_err verified); [by eapply fail_runtime_ok, stop_watched|].
  do 4 eexists. split; [reflexivity|]. split; [done|]. exists rt'. split_and!; [done|done|].
  simpl. rewrite Hst, Hs'. by rewrite Eat.
Qed.

Lemma reconcile_ok now rt r s b :
  budget_ok b -> wr_active r = Some rt -> watched_rt rt s ->
  wr_state r = attachment_state (rt_attachment rt) -> tick_ok (reconcile now rt r s b).
Proof.
  intros Hb Ha Hw Hst. unfold reconcile.
  assert (forall r', wr_active r' = Some rt -> wr_state r' = wr_state r -> watched r' s) as Hstay.
  { intros r' E1 E2. exists rt. split_and!; [done|done|congruence]. }
  split_if Hn. { do 4 eexists. split; [reflexivity|]. split; [done|]. by apply Hstay. }
  destruct (if capture_enabled rt then _ else _) as [verified x'] eqn:Ev.
  destruct (is_ok verified); [|by apply repair_ok].
  do 4 eexists. split; [reflexivity|]. split; [done|]. exists rt. by split_and!.
Qed.

Lemma tick_spec now r s b :
  budget_ok b -> watched r s ->
  exists t r' s' b', WorkerRuntime_tick now r s b = Some (t, r', s', b') /\ budget_ok b'
  /\ match t with
     | Ok t => match tick_failed t with Some (c, f) => ended (Some c) f r' s' | None => watched r' s' end
     | Err e => e = NonMonotonicTime /\ watched r' s'
     end.
Proof.
  intros Hb (rt & Ha & Hw & Hst). unfold WorkerRuntime_tick.
  assert (forall r', wr_active r' = Some rt -> wr_state r' = wr_state r -> watched r' s) as Hstay.
  { intros r' E1 E2. exists rt. split_and!; [done|done|congruence]. }
  split_if Hm. { do 4 eexists. split; [reflexivity|]. split; [done|]. split; [done|by apply Hstay]. }
  rewrite Ha. split_if Hidl. { do 4 eexists. split; [reflexivity|]. split; [done|]. by apply Hstay. }
  match goal with |- context [?m ≫= _] => assert (tick_ok m) as (t & r' & s' & b' & -> & Hb' & Ht) end.
  - split_if Hpoll; [|by apply reconcile_ok].
    pose proof (running_cores (active_process (rt_active rt)) (pl_cores s)) as Hc.
    destruct (core_running _ _) as [running w'] eqn:Er. cbn [snd] in Hc.
    assert (watched_rt rt (mkPlant w' (pl_net s) (pl_verifier s))) as Hw'.
    { destruct Hw as (H1 & H2 & H3 & H4). split_and!; [done|done|done|]. simpl. by rewrite Hc. }
    destruct running as [[|]|]; [by apply reconcile_ok|by eapply fail_runtime_ok, stop_watched..].
  - cbn [mbind option_bind]. do 4 eexists. split; [reflexivity|]. by split.
Qed.

Definition exit_failed (e : WorkerRunExit) : bool :=
  match e with
  | RunStopped f | RunRestartScheduled _ _ f | RunCircuitOpen _ f | RunFatal _ f => f
  end.
Definition exit_failure (e : WorkerRunExit) : option RuntimeFailureCode :=
  match e with
  | RunRestartScheduled _ c _ | RunCircuitOpen c _ => Some c
  | RunStopped _ | RunFatal _ _ => None
  end.

Lemma stop_with_ok exit r s b :
  watched r s -> (forall f, exit_failed (exit f) = f) ->
  exists e r' s', stop_with exit r s b = Some (Some e, r', s', b) /\ ended (exit_failure e) (exit_failed e) r' s'.
Proof.
  intros (rt & Ha & Hw & _) He. unfold stop_with, WorkerRuntime_stop. simpl. rewrite Ha.
  destruct (stop_watched (exit_failure (exit false)) rt s Hw) as (res & s' & -> & Hs). simpl.
  do 3 eexists. split; [reflexivity|]. rewrite He. split_and!; [done|done|]. intros E. rewrite E in *. by apply Hs.
Qed.

(** C14: the worker gives its network back, with one exception.  Take a runtime that is
    watched: its plan lies on top of a network [v0] on which that plan is idle, and its
    core is the one more that runs.  The network controller keeps the executor's contract
    (executor_laws, executor_emptied) and asking whether a core runs changes no core.
    Then, whatever the core, the health checks and the clock do, the loop never panics;
    as long as it goes on, the runtime is watched; and however it ends (stopped, failed
    with a restart to come, circuit open, clock running backwards), the runtime is gone
    and the state is not a running one.  Unless the clean-up is reported as failed, the
    core is gone and the network is [v0] again, except when the exit is a failed drift
    repair whose second application of the plan failed and could not be taken back:
    rebuild_network forgets that error, so the exit reports a clean network while what
    that application left is still there (lemmas repair_hides_leftover and
    leftover_reported_clean). *)
Theorem worker_run_cleans_up turns r s b :
  budget_ok b -> watched r s ->
  exists exit r' s' b', WorkerRuntime_run turns r s b = Some (exit, r', s', b')
  /\ match exit with
     | None => watched r' s'
     | Some e => ended (exit_failure e) (exit_failed e) r' s'
     end.
Proof.
  revert r s b. induction turns as [|turn turns IH]; intros r s b Hb Hw; cbn [WorkerRuntime_run].
  { do 4 eexists. split; [reflexivity|done]. }
  destruct (tick_spec (turn_now turn) r s b Hb Hw) as (t & r' & s' & b' & -> & Hb' & Ht).
  cbn [mbind option_bind].
  assert (watched r' s' -> exists exit r2 s2 b2,
    match turn_signal turn with
    | Wake => WorkerRuntime_run turns r' s' b'
    | Stop => stop_with RunStopped r' s' b' end = Some (exit, r2, s2, b2)
    /\ match exit with None => watched r2 s2 | Some e => ended (exit_failure e) (exit_failed e) r2 s2 end) as Hgo.
  { intros Hw'. destruct (turn_signal turn); [by apply IH|].
    destruct (stop_with_ok RunStopped r' s' b' Hw') as (e & r2 & s2 & -> & He); [done|].
    by exists (Some e), r2, s2, b'. }
  destruct t as [t|err]; [destruct t; simpl in Ht; try (by apply Hgo)|].
  - do 4 eexists. split; [reflexivity|done].
  - do 4 eexists. split; [reflexivity|done].
  - destruct Ht as [-> Ht]. destruct (stop_with_ok (RunFatal NonMonotonicTime) r' s' b' Ht) as (e & r2 & s2 & -> & He);
      [done|]. by exists (Some e), r2, s2, b'.
Qed.
End facts.

(** ** Where the repair goes wrong *)
Section repair_facts.
Context {W P N R X : Type} `{!CoreBackend W P} `{!NetworkController N R} `{!RuntimeHealthVerifier X}.

(** With capture switched off there is nothing to rebuild, and the check that follows
    is the one for capture that is on: rules that were left installed count as
    repaired. *)
Lemma disabled_drift_reported_repaired now (rt : ActiveRuntime P R) plan r (s : Plant W N X) b x :
  rt_attachment rt = AttachedTproxy plan None ->
  rv_verify (ViewTproxy plan) (pl_verifier s) = (Ok tt, x) ->
  exists r', repair now rt r s b = Some (TickRepaired, r', mkPlant (pl_cores s) (pl_net s) x, b).
Proof.
  intros Ha Hv. unfold repair, rebuild_network. rewrite Ha. cbn [att_receipt mbind option_bind is_err is_ok negb].
  rewrite Ha. cbn [attachment_view pl_verifier pl_cores pl_net]. rewrite Hv. by eexists.
Qed.
End repair_facts.

(** [NetworkExecutor] empties the receipt it rolls back. *)
Lemma rollback_while_emptied {B} `{!NetworkCommandBackend B} ss k n c n' :
  rollback_while ss k n = Some (Ok tt, c, n') -> c = O.
Proof.
  revert n. induction k as [|k IH]; intros n; simpl; [by intros [= <- <-]|].
  destruct (execute_rollback _ _ _) as [[[] n1]|]; simpl; [apply IH|done..].
Qed.
Lemma executor_emptied {B} `{!NetworkCommandBackend B} plan rc (n : B) rc' n' :
  net_rollback plan rc n = Some (Ok tt, rc', n') -> forall m : B, net_rollback plan rc' m = Some (Ok tt, rc', m).
Proof.
  cbn [net_rollback executor_controller]. unfold NetworkExecutor_rollback, rollback_steps.
  split_if Hm; [done|]. intros E m. apply bind_Some in E as ([[r c] n1] & E & [= -> <- _]).
  apply rollback_while_emptied in E as ->. cbn [rc_generation rc_slot completed_steps]. by rewrite Hm.
Qed.

(** The executor may report that a plan could not be taken back while it is applied
    again; the repair forgets that, and the stop that follows finds an empty receipt
    and reports the network as restored. *)
Lemma repair_hides_leftover {B P} `{!NetworkCommandBackend B} (rt : ActiveRuntime P ApplyReceipt)
    plan receipt receipt' n n1 n2 i j :
  rt_attachment rt = AttachedTproxy plan (Some receipt) ->
  NetworkExecutor_rollback plan receipt n = Some (Ok tt, receipt', n1) ->
  rc_generation receipt' = generation plan -> rc_slot receipt' = slot plan -> completed_steps receipt' = O ->
  NetworkExecutor_apply plan n1 = Some (Err (ApplyRollbackFailed i j), n2) ->
  exists rt', rebuild_network rt n = Some (Err ReapplyFailed, rt', n2)
    /\ withdraw (rt_attachment rt') n2 = Some (false, rt_attachment rt', n2).
Proof.
  intros Ha Hr Hg Hs Hc He. unfold rebuild_network. rewrite Ha. cbn [att_receipt att_plan net_rollback executor_controller].
  rewrite Hr. cbn [mbind option_bind net_apply executor_controller]. rewrite He. cbn [mbind option_bind].
  eexists. split; [reflexivity|]. unfold withdraw. cbn [set_attachment rt_attachment set_receipt att_receipt att_plan].
  cbn [net_rollback executor_controller]. unfold NetworkExecutor_rollback, rollback_steps.
  rewrite Hg, Hs, Z.eqb_refl, bool_decide_eq_true_2, Hc by done. cbn. by destruct receipt'; simpl in *; subst.
Qed.

(** ** A device whose commands never fail, watched *)
Module RunDemo.
Definition run (i : CommandInvocation) (v : View) : Result CommandFailure CommandOutput * View :=
  match DemoBackend.known DemoBackend.ops i with
  | None => (Ok (mkOutput false), v)
  | Some op =>
      match effect op v with
      | Some v' => (Ok (mkOutput true), v')
      | None => (Err Absent, v)
      end
  end.
#[global] Instance backend : NetworkCommandBackend View := run.
#[global] Instance backend_laws : BackendLaws View id (step_ops (steps DemoPlan.tun_plan)).
Proof.
  split; intros op v; intros; unfold execute, backend, run, id in *;
    rewrite DemoBackend.known_op in * by (done || apply DemoBackend.ops_distinct);
    destruct (effect op v); naive_solver.
Qed.
#[global] Instance observer : CoreObserver CoreDemo.World Z := fun p w => (Some (bool_decide (p ∈ CoreDemo.w_cores w)), w).

Lemma observer_cores (p : Z) (w : CoreDemo.World) : cores (core_running p w).2 = cores w.
Proof. reflexivity. Qed.

Definition held (plan : NetworkPlan) := receipt_held (B := View) id plan.
Lemma quiet_laws : NetworkControllerLaws id executor_idle held DemoPlan.tun_plan.
Proof. exact (executor_laws id DemoPlan.tun_plan DemoBackend.plan_planned). Qed.

Definition installed : View := DemoBackend.k_view DemoBackend.applied.
Definition plant : Plant CoreDemo.World View WorkerDemo.Probe :=
  mkPlant (CoreDemo.mkWorld {[ 1 ]} true true) installed (WorkerDemo.mkProbe false).
Definition started : WorkerRuntime Z ApplyReceipt := WorkerRuntime_new demo_runtime 0 WorkerRuntimeLimits_default.
Lemma started_watched :
  watched id held DemoBackend.device DemoPlan.tun_plan 1 ∅ started plant.
Proof.
  exists demo_runtime. split; [reflexivity|]. split; [|reflexivity]. split; [reflexivity|]. split; [reflexivity|].
  split; [|set_solver]. repeat split; [apply Nat.leb_le; reflexivity|]. left. exact DemoBackend.applied_held.
Qed.
Definition turns : list Turn := [mkTurn 0 Wake; mkTurn (from_secs 60) Wake].
End RunDemo.

(** The core runs, but after a minute the data plane is found unhealthy: the network is
    given back and a restart is due in a second. *)
Lemma worker_run_cleans_up_witness :
  exists r' s' b', WorkerRuntime_run RunDemo.turns RunDemo.started RunDemo.plant RestartBudget_default
      = Some (Some (RunRestartScheduled (from_secs 1) FailureTunUnhealthy false), r', s', b')
    /\ pl_net s' = DemoBackend.device /\ CoreDemo.w_cores (pl_cores s') = ∅.
Proof.
  destruct (worker_run_cleans_up id executor_idle RunDemo.held RunDemo.observer_cores DemoBackend.device
    DemoPlan.tun_plan 1 RunDemo.quiet_laws WorkerDemo.idle (executor_emptied _) ∅ (not_elem_of_empty _) RunDemo.turns
    RunDemo.started RunDemo.plant RestartBudget_default) as (exit & r' & s' & b' & E & He).
  { apply Nat.leb_le. reflexivity. }
  { exact RunDemo.started_watched. }
  assert ((fun '(e, _, _, _) => e) <$> Some (exit, r', s', b')
          = Some (Some (RunRestartScheduled (from_secs 1) FailureTunUnhealthy false))) as Hx
    by (rewrite <- E; vm_compute; reflexivity).
  injection Hx as ->. exists r', s', b'. split; [exact E|]. destruct He as (_ & _ & He).
  destruct (He eq_refl) as [Hc [Hn|[Hn _]]]; [by split|discriminate Hn].
Defined.

(** A device whose commands start to fail while a drifted TPROXY plan is applied again. *)
Module LeftoverDemo.
Definition policy : CapturePolicy :=
  mkCapturePolicy Tproxy true true true (Some 7893) (Some 0x200) [10001] [] InterfacePolicy_default ForwardingPolicy_default.
Definition plan : option NetworkPlan :=
  match build_tproxy 7 SlotA policy DemoPlan.report with Some (Ok p) => Some p | _ => None end.
Definition ops : list NetworkOperation := from_option (fun p => step_ops (steps p)) [] plan.
#[global] Instance kernel : NetworkCommandBackend (View * nat) := fun i '(v, k) =>
  match DemoBackend.known ops i, k with
  | None, _ => (Ok (mkOutput false), (v, k))
  | Some _, O => (Err Timeout, (v, O))
  | Some op, S k =>
      match effect op v with
      | Some v' => (Ok (mkOutput true), (v', k))
      | None => (Err Absent, (v, k))
      end
  end.
(** The exit of a worker that finds the drift after a minute, and whether the network
    is what it was before the plan; [extra] commands work after the plan was taken
    back. *)
Definition outcome (extra : nat) : option (option WorkerRunExit * bool) :=
  p ← plan;
  let count := length (steps p) in
  '(applied, (v, _)) ← NetworkExecutor_apply p (DemoBackend.device, count);
  receipt ← match applied with Ok rc => Some rc | Err _ => None end;
  let rt := mkRuntime (mkActive (mkSealed "/data" 7) None 1) (AttachedTproxy p (Some receipt)) DemoPlan.report policy in
  '(exit, _, s, _) ← WorkerRuntime_run RunDemo.turns (WorkerRuntime_new rt 0 WorkerRuntimeLimits_default)
    (mkPlant (CoreDemo.mkWorld {[ 1 ]} true true) (v, count + extra)%nat (WorkerDemo.mkProbe false))
    RestartBudget_default;
  Some (exit, bool_decide (dom <$> tables (fst (pl_net s)) = dom <$> tables DemoBackend.device)).
End LeftoverDemo.
(** The fifth command after the rollback loads the first chains, the sixth and all later
    ones time out: the worker exits without a clean-up failure, the chains stay. *)
Lemma leftover_reported_clean :
  LeftoverDemo.outcome 5 = Some (Some (RunRestartScheduled (from_secs 1) DriftRepairFailed false), false).
Proof. vm_compute. reflexivity. Qed.
