(* ===== verification/DataPlane.v ===== *)
(** * DataPlane: the health probes of the data plane

    Models the implementations of the health traits in
    crates/nethopd/src/worker_activation.rs: [AndroidDataPlaneHealthProbe], which
    joins a network verifier and a TUN runtime, [TproxyDataPlaneHealthProbe], and the
    network verifier alone as a [RuntimeHealthVerifier].  With them the interfaces of
    WorkerActivation and WorkerRuntime meet the verifiers of Health: switching capture
    off through the runtime leaves nothing of the plan attached. *)

From S2P Require Import Prelude Text Ordering RuntimeState Capture NodeRegistry Generation Activation Capability Interfaces Rules Plan Kernel Executor Probe Health WorkerActivation WorkerRuntime.

Local Open Scope Z_scope.

(** [NetworkHealthVerifier] *)
Class NetworkHealthVerifier (N : Type) : Type := {
  nh_verify : NetworkPlan -> Mut N NetworkHealthError unit;
  nh_verify_disabled : NetworkPlan -> Mut N NetworkHealthError unit;
  nh_replace_inbound_port : Z -> Mut N NetworkHealthError unit;
}.
(** Running a check of the verifier on its backend. *)
Definition on_backend {B A} (m : Mut B NetworkHealthError A) : Mut (NetworkPlanVerifier B) NetworkHealthError A :=
  fun v => let (r, b) := m (nv_backend v) in (r, mkVerifier b (nv_port v)).
#[export] Instance plan_verifier {B} `{!ProbeBackend B} : NetworkHealthVerifier (NetworkPlanVerifier B) := {|
  nh_verify plan v := on_backend (NetworkPlanVerifier_verify (nv_port v) plan) v;
  nh_verify_disabled plan v := on_backend (NetworkPlanVerifier_verify_disabled plan) v;
  nh_replace_inbound_port := replace_inbound_port;
|}.

(** [CandidateProcess::is_running] of a process table, and [TunRuntime]. *)
Class ProcessTable (K P : Type) : Type := table_running : P -> K -> option bool * K.
Class TunRuntime (T K P : Type) : Type := {
  tr_wait_healthy : P -> T -> K -> Result TunRunnerError unit * T * K;
  tr_verify_active : T -> Result TunRunnerError unit * T;
  tr_wait_stopped : T -> Result TunRunnerError unit * T;
  tr_replace_timeout : Z -> Mut T TunRunnerError unit;
}.

Record AndroidDataPlaneHealthProbe (N T K : Type) : Type := mkAndroidProbe {
  ap_network : N;
  ap_tun : T;
  ap_processes : K;
}.
Arguments mkAndroidProbe {N T K}.
Arguments ap_network {N T K}.
Arguments ap_tun {N T K}.
Arguments ap_processes {N T K}.

Definition network_unhealthy (r : Result NetworkHealthError unit) : Result DataPlaneHealthError unit :=
  match r with Ok _ => Ok tt | Err cause => Err (NetworkUnhealthy cause) end.
Definition or_else {E} (e : DataPlaneHealthError) (r : Result E unit) : Result DataPlaneHealthError unit :=
  match r with Ok _ => Ok tt | Err _ => Err e end.

Section android.
Context {N T K P : Type} `{!NetworkHealthVerifier N} `{!TunRuntime T K P} `{!ProcessTable K P}.
Abbreviation A := (AndroidDataPlaneHealthProbe N T K).

Definition set_network (n : N) (a : A) : A := mkAndroidProbe n (ap_tun a) (ap_processes a).
Definition set_tun (t : T) (a : A) : A := mkAndroidProbe (ap_network a) t (ap_processes a).
Definition view_plan (attachment : RuntimeAttachmentView) : NetworkPlan :=
  match attachment with ViewTproxy plan | ViewTun _ plan => plan end.
Definition view_mode (attachment : RuntimeAttachmentView) : CaptureMode :=
  match attachment with ViewTproxy _ => Tproxy | ViewTun _ _ => Tun end.

Definition android_wait_healthy (process : P) (attachment : RuntimeAttachmentView) (a : A) :
    Result DataPlaneHealthError unit * A :=
  match attachment with
  | ViewTproxy plan =>
      let (running, k) := table_running process (ap_processes a) in
      let a := mkAndroidProbe (ap_network a) (ap_tun a) k in
      match running with
      | Some true =>
          let (r, n) := nh_verify plan (ap_network a) in (network_unhealthy r, set_network n a)
      | Some false => (Err CoreExited, a)
      | None => (Err CoreObserveFailed, a)
      end
  | ViewTun _ _ =>
      let '(r, t, k) := tr_wait_healthy process (ap_tun a) (ap_processes a) in
      (or_else TunUnhealthy r, mkAndroidProbe (ap_network a) t k)
  end.
Definition android_wait_stopped (attachment : RuntimeAttachmentView) (a : A) :
    Result DataPlaneHealthError unit * A :=
  match attachment with
  | ViewTproxy _ => (Ok tt, a)
  | ViewTun _ _ => let (r, t) := tr_wait_stopped (K := K) (P := P) (ap_tun a) in (or_else TunCleanupFailed r, set_tun t a)
  end.
Definition android_verify (attachment : RuntimeAttachmentView) (a : A) : Result DataPlaneHealthError unit * A :=
  match attachment with
  | ViewTproxy plan => let (r, n) := nh_verify plan (ap_network a) in (network_unhealthy r, set_network n a)
  | ViewTun _ plan =>
      let (r, n) := nh_verify plan (ap_network a) in
      let a := set_network n a in
      match r with
      | Err _ => (Err TunUnhealthy, a)
      | Ok _ => let (r, t) := tr_verify_active (K := K) (P := P) (ap_tun a) in (or_else TunUnhealthy r, set_tun t a)
      end
  end.
Definition android_verify_capture_disabled (attachment : RuntimeAttachmentView) (a : A) :
    Result DataPlaneHealthError unit * A :=
  let (r, n) := nh_verify_disabled (view_plan attachment) (ap_network a) in
  let a := set_network n a in
  match r with
  | Err cause => (Err (NetworkUnhealthy cause), a)
  | Ok _ =>
      if bool_decide (view_mode attachment = Tun) then
        let (r, t) := tr_verify_active (K := K) (P := P) (ap_tun a) in (or_else TunUnhealthy r, set_tun t a)
      else (Ok tt, a)
  end.
Definition android_replace_inbound_port (port : Z) (a : A) : Result DataPlaneHealthError unit * A :=
  let (r, n) := nh_replace_inbound_port port (ap_network a) in (network_unhealthy r, set_network n a).
Definition android_replace_health_timeout (timeout : Z) (a : A) : Result DataPlaneHealthError unit * A :=
  let (r, t) := tr_replace_timeout (K := K) (P := P) timeout (ap_tun a) in (or_else TunUnhealthy r, set_tun t a).

#[global] Instance android_verifier : RuntimeHealthVerifier A := {|
  rv_verify := android_verify;
  rv_verify_capture_disabled := android_verify_capture_disabled;
  rv_wait_stopped := android_wait_stopped;
|}.

(** ** [TproxyDataPlaneHealthProbe] and the verifier alone *)
Definition tproxy_wait_healthy (process : P) (attachment : RuntimeAttachmentView) (n : N) (k : K) :
    Result DataPlaneHealthError unit * N * K :=
  let (running, k) := table_running process k in
  match running with
  | Some false => (Err CoreExited, n, k)
  | None => (Err CoreObserveFailed, n, k)
  | Some true =>
      match attachment with
      | ViewTun _ _ => (Err TunUnhealthy, n, k)
      | ViewTproxy plan => let (r, n) := nh_verify plan n in (network_unhealthy r, n, k)
      end
  end.
Definition network_verifier : RuntimeHealthVerifier N := {|
  rv_verify attachment n := let (r, n) := nh_verify (view_plan attachment) n in (network_unhealthy r, n);
  rv_verify_capture_disabled attachment n :=
    let (r, n) := nh_verify_disabled (view_plan attachment) n in (network_unhealthy r, n);
  rv_wait_stopped attachment n := (Ok tt, n);
|}.
End android.

(** ** Switching capture off *)
Section disable.
Context {B T K W P Net R : Type} `{!ProbeBackend B} `{!TunRuntime T K P} `{!CoreBackend W P}.
Context `{!NetworkController Net R} (view : B -> View) (named : gset Z) `{!ProbeLaws B view named}.
Abbreviation A := (AndroidDataPlaneHealthProbe (NetworkPlanVerifier B) T K).
(** The kernel as the verifier sees it. *)
Definition seen (a : A) : View := view (nv_backend (ap_network a)).

Lemma android_disabled_Ok attachment (a a' : A) :
  android_verify_capture_disabled (P := P) attachment a = (Ok tt, a') ->
  exists b', NetworkPlanVerifier_verify_disabled (view_plan attachment) (nv_backend (ap_network a)) = (Ok tt, b')
    /\ seen a' = view b'.
Proof.
  unfold android_verify_capture_disabled, nh_verify_disabled, plan_verifier, on_backend.
  destruct (NetworkPlanVerifier_verify_disabled _ _) as [[[]|e] b'] eqn:E; [|done]. intros H.
  exists b'. split; [done|]. split_if_in H Hm.
  - destruct (tr_verify_active _) as [r t]. by injection H as _ <-.
  - by injection H as <-.
Qed.

(** C29: capture that was switched off is off.  When the runtime's [disable_capture]
    succeeds, the runtime holds no receipt any more, and in every family the plan
    captured or guarded the kernel that the verifier sees holds no rule with the plan's
    comment, none of its capture chains, no DNS guard, policy rule or route of it.  This
    takes the tools to print what they list in full (their output fits the limit of the
    streams) and the route table of the plan to have no name in rt_tables: the check
    would miss a rule that is shown with the name of its table. *)
Theorem disable_capture_detaches (r r' : WorkerRuntime P R) (s s' : Plant W Net A) rt plan :
  wr_active r = Some rt -> att_plan (rt_attachment rt) = plan ->
  is_uint 64 (generation plan) -> allocation_shown named (allocation plan) ->
  wr_disable_capture r s = Some (Ok tt, r', s') ->
  (exists rt', wr_active r' = Some rt' /\ capture_enabled rt' = false)
  /\ detached plan Ipv4 (seen (pl_verifier s'))
  /\ (ipv6_captured plan = true \/ ipv6_guarded plan = true -> detached plan Ipv6 (seen (pl_verifier s'))).
Proof.
  intros Ha Hp Hg Hal. unfold wr_disable_capture. rewrite Ha.
  destruct (disable_capture rt (pl_net s)) as [[[res rt'] n']|] eqn:Ed; cbn [mbind option_bind]; [|done].
  destruct res as [u|e]; [|done].
  assert (att_plan (rt_attachment rt') = plan /\ capture_enabled rt' = false) as [Hp' Hc'].
  { unfold disable_capture in Ed. destruct (att_receipt (rt_attachment rt)) as [rc|] eqn:Er.
    - destruct (net_rollback _ _ _) as [[[[[]|e] rc'] n1]|]; cbn [mbind option_bind] in Ed; [|done..].
      injection Ed as _ <- _. unfold capture_enabled. simpl. by rewrite att_plan_set, att_receipt_set.
    - injection Ed as _ <- _. unfold capture_enabled. by rewrite Er. }
  destruct (rv_verify_capture_disabled _ _) as [[[]|e] x'] eqn:Ev; [|done]. intros [= <- <-].
  split; [by exists rt'|]. apply android_disabled_Ok in Ev as (b' & Eb & Hs).
  assert (view_plan (attachment_view (rt_attachment rt')) = plan) as Hvp
    by (rewrite <- Hp'; by destruct (rt_attachment rt')). rewrite Hvp in Eb.
  destruct (disabled_sound view named plan _ b' Hg Hal Eb) as (Hv & D4 & D6).
  cbn [pl_verifier]. rewrite Hs, Hv. by split.
Qed.
End disable.

(** ** The probed device, whose plan a controller takes back *)
Module DisableDemo.
#[global] Instance controller : NetworkController bool unit := {|
  net_apply _ _ := Some (Ok tt, true);
  net_rollback _ _ _ := Some (Ok tt, tt, false);
|}.
#[global] Instance no_tun : TunRuntime unit unit Z := {|
  tr_wait_healthy _ t k := (Err TunCoreExited, t, k);
  tr_verify_active t := (Err TunRunUnhealthy, t);
  tr_wait_stopped t := (Ok tt, t);
  tr_replace_timeout _ t := (Ok tt, t);
|}.
Definition runtime : ActiveRuntime Z unit :=
  mkRuntime (mkActive (mkSealed "/data" 7) None 1) (AttachedTproxy HealthDemo.plan (Some tt)) DemoPlan.report
    HealthDemo.policy.
Definition started : WorkerRuntime Z unit := WorkerRuntime_new runtime 0 WorkerRuntimeLimits_default.
Definition plant : Plant CoreDemo.World bool (AndroidDataPlaneHealthProbe (NetworkPlanVerifier unit) unit unit) :=
  mkPlant (CoreDemo.mkWorld {[ 1 ]} true true) true (mkAndroidProbe (mkVerifier tt 7893) tt tt).
End DisableDemo.

Lemma disable_capture_detaches_witness :
  exists r' s', wr_disable_capture DisableDemo.started DisableDemo.plant = Some (Ok tt, r', s')
    /\ pl_net s' = false /\ absent (OwnedChain Ipv6 "mangle" "NH_PRE_A") DemoBackend.device.
Proof.
  assert (exists r' s', wr_disable_capture DisableDemo.started DisableDemo.plant = Some (Ok tt, r', s')
          /\ pl_net s' = false) as (r' & s' & E & Hn).
  { eexists _, _. split; [vm_compute; reflexivity|reflexivity]. }
  exists r', s'. split; [exact E|]. split; [exact Hn|].
  destruct (disable_capture_detaches ProbeDemo.view ∅ DisableDemo.started r' DisableDemo.plant s'
    DisableDemo.runtime HealthDemo.plan) as (_ & _ & H6).
  - reflexivity.
  - reflexivity.
  - split; vm_compute; congruence.
  - split; [split; vm_compute; congruence|]. split; [split; vm_compute; congruence|].
    split; [vm_compute; congruence|apply not_elem_of_empty].
  - exact E.
  - destruct H6 as [_ _ Hp _ _ _]; [left; reflexivity|]. exact Hp.
Defined.
