(* ===== verification/CandidatePool.v ===== *)
(** * CandidatePool: which nodes the automatic selector tests

    Models crates/nethopd/src/candidate_pool.rs: the validation of the inputs, the
    manual pool (every eligible node, by identifier) and the automatic pool, which
    takes nodes from the active sources in turn until the limit or until nothing is
    left.

    [None] is a panic (an index out of range) or a loop that has not ended within
    its fuel; [candidate_pools_total] shows that neither happens. *)

From S2P Require Import Prelude Ordering Source.

Local Open Scope Z_scope.

Definition MAX_AUTO_CANDIDATES : Z := 64.

Inductive CandidatePoolError : Type :=
| InvalidActiveSources | InvalidLimit | DuplicateNode | EmptyCandidates.

Definition StableNodeId : Type := string.

Record CandidatePoolNode : Type := mkPoolNode {
  node_id : StableNodeId;
  node_attribution : list SourceId;
}.
Record SourceContribution : Type := mkContribution {
  contribution_source : SourceId;
  contribution_candidates : Z;
}.
Record CandidatePools : Type := mkPools {
  pool_auto : list StableNodeId;
  pool_manual : list StableNodeId;
  pool_contributions : list SourceContribution;
}.

(** [NodeAttribution::contains]. *)
Definition attribution_contains (attribution : list SourceId) (id : SourceId) : bool :=
  bool_decide (id ∈ attribution).

Definition is_single (mode : SubscriptionMode) : bool :=
  match mode with Single => true | Merge => false end.

Definition validate_inputs (mode : SubscriptionMode) (active : list SourceId)
    (nodes : list CandidatePoolNode) (max_candidates : Z) : Result CandidatePoolError unit :=
  if (len active =? 0) || (MAX_SOURCES <? len active) || negb (all_distinct (A:=string) active)
     || (is_single mode && negb (len active =? 1))
  then Err InvalidActiveSources
  else if negb (in_range 1 MAX_AUTO_CANDIDATES max_candidates) then Err InvalidLimit
  else if negb (all_distinct (A:=string) (node_id <$> nodes)) then Err DuplicateNode
  else Ok tt.

(** ** The round robin *)

(** The queue of each source: the positions of its nodes, in order. *)
Definition push_node (active : list SourceId) (index : nat) (node : CandidatePoolNode)
    (queues : list (list nat)) : list (list nat) :=
  zip_with (fun id q => if attribution_contains (node_attribution node) id then q ++ [index] else q)
    active queues.
Fixpoint fill_queues (active : list SourceId) (index : nat) (nodes : list CandidatePoolNode)
    (queues : list (list nat)) : list (list nat) :=
  match nodes with
  | [] => queues
  | node :: rest => fill_queues active (S index) rest (push_node active index node queues)
  end.

(** The loop variables: [rr_cursors], [rr_visited], [rr_selected], the counts of
    [contributions] and [progressed]. *)
Record RoundRobin : Type := mkRR {
  rr_cursors : list nat;
  rr_visited : list bool;
  rr_selected : list StableNodeId;
  rr_counts : list Z;
  rr_progressed : bool;
}.

(** The inner [while let]: it skips visited nodes and stops at the first other one.
    The queue is given from its cursor on. *)
Fixpoint scan_queue (rest : list nat) (visited : list bool) (cursor : nat) :
    option (option nat * nat) :=
  match rest with
  | [] => Some (None, cursor)
  | index :: rest' =>
      match visited !! index with
      | None => None
      | Some true => scan_queue rest' visited (S cursor)
      | Some false => Some (Some index, S cursor)
      end
  end.

Section round_robin.
Variables (nodes : list CandidatePoolNode) (queues : list (list nat)) (max_candidates : Z).

(** The body of the [for] loop. *)
Definition visit_source (source : nat) (st : RoundRobin) : option RoundRobin :=
  queue ← queues !! source;
  cursor ← rr_cursors st !! source;
  '(found, cursor') ← scan_queue (drop cursor queue) (rr_visited st) cursor;
  let cursors := <[source := cursor']> (rr_cursors st) in
  match found with
  | None =>
      Some (mkRR cursors (rr_visited st) (rr_selected st) (rr_counts st) (rr_progressed st))
  | Some index =>
      node ← nodes !! index;
      count ← rr_counts st !! source;
      Some (mkRR cursors (<[index := true]> (rr_visited st))
              (rr_selected st ++ [node_id node])
              (<[source := count + 1]> (rr_counts st)) true)
  end.

Fixpoint turn (sources : list nat) (st : RoundRobin) : option RoundRobin :=
  match sources with
  | [] => Some st
  | source :: rest =>
      st' ← visit_source source st;
      if len (rr_selected st') =? max_candidates then Some st' else turn rest st'
  end.

Fixpoint round_robin_loop (fuel : nat) (st : RoundRobin) : option RoundRobin :=
  match fuel with
  | O => None
  | S fuel' =>
      if len (rr_selected st) <? max_candidates then
        st' ← turn (seq 0 (length queues))
                (mkRR (rr_cursors st) (rr_visited st) (rr_selected st) (rr_counts st) false);
        if rr_progressed st' then round_robin_loop fuel' st' else Some st'
      else Some st
  end.
End round_robin.

Definition round_robin (active : list SourceId) (nodes : list CandidatePoolNode)
    (max_candidates : Z) (contributions : list SourceContribution) :
    option (list StableNodeId * list SourceContribution) :=
  let queues := fill_queues active 0 nodes (replicate (length active) []) in
  st ← round_robin_loop nodes queues max_candidates (S (length nodes))
         (mkRR (replicate (length queues) O) (replicate (length nodes) false) []
            (contribution_candidates <$> contributions) false);
  Some (rr_selected st,
        zip_with (fun c n => mkContribution (contribution_source c) n)
          contributions (rr_counts st)).

Definition is_eligible (active : list SourceId) (node : CandidatePoolNode) : bool :=
  existsb (attribution_contains (node_attribution node)) active.

(** [contributions[0].candidates = count]. *)
Definition set_first (count : Z) (cs : list SourceContribution) :
    option (list SourceContribution) :=
  match cs with
  | [] => None
  | c :: rest => Some (mkContribution (contribution_source c) count :: rest)
  end.

Definition build_candidate_pools (mode : SubscriptionMode) (active : list SourceId)
    (nodes : list CandidatePoolNode) (max_candidates : Z) :
    option (Result CandidatePoolError CandidatePools) :=
  match validate_inputs mode active nodes max_candidates with
  | Err e => Some (Err e)
  | Ok _ =>
      let eligible := sort_by_key node_id (filter (fun n => is_eligible active n) nodes) in
      if len eligible =? 0 then Some (Err EmptyCandidates)
      else
        let manual := node_id <$> eligible in
        let contributions := (fun id => mkContribution id 0) <$> active in
        '(auto, contributions') ←
          match mode with
          | Single =>
              let selected := take (Z.to_nat max_candidates) (node_id <$> eligible) in
              cs ← set_first (len selected) contributions;
              Some (selected, cs)
          | Merge => round_robin active eligible max_candidates contributions
          end;
        Some (Ok (mkPools auto manual contributions'))
  end.

(** ** The queues *)

Lemma fill_queues_length active nodes index queues :
  length queues = length active -> length (fill_queues active index nodes queues) = length active.
Proof.
  revert index queues. induction nodes as [|n nodes IH]; intros index queues Hl; [done|].
  simpl. apply IH. unfold push_node. rewrite length_zip_with. lia.
Qed.

Lemma fill_queues_lookup active nodes index queues s q id i :
  length queues = length active ->
  queues !! s = Some q -> active !! s = Some id ->
  exists q', fill_queues active index nodes queues !! s = Some q'
    /\ (i ∈ q' <-> i ∈ q \/ exists k n, nodes !! k = Some n /\ i = (index + k)%nat
                                     /\ id ∈ node_attribution n).
Proof.
  revert index queues q. induction nodes as [|n nodes IH]; intros index queues q Hl Hq Hid; simpl.
  { exists q. split; [done|]. split; [by left|]. intros [?|(k & n & Hk & _)]; [done|].
    by rewrite lookup_nil in Hk. }
  set (q1 := if attribution_contains (node_attribution n) id then q ++ [index] else q).
  destruct (IH (S index) (push_node active index n queues) q1) as (q' & Hq' & Hi).
  - unfold push_node. rewrite length_zip_with. lia.
  - unfold push_node. rewrite lookup_zip_with, Hid. simpl. by rewrite Hq.
  - done.
  - exists q'. split; [done|]. rewrite Hi. clear Hi.
    assert (i ∈ q1 <-> i ∈ q \/ (i = index /\ id ∈ node_attribution n)) as ->.
    { unfold q1, attribution_contains. case_bool_decide; set_solver. }
    split.
    + intros [[?|[-> ?]]|(k & m & Hk & -> & ?)]; [by left| |]; right.
      * exists O, n. split; [done|]. split; [lia|done].
      * exists (S k), m. split; [done|]. split; [lia|done].
    + intros [?|([|k] & m & Hk & -> & ?)]; [by left; left| |].
      * left. right. simpl in Hk. simplify_eq. split; [lia|done].
      * right. exists k, m. split; [done|]. split; [lia|done].
Qed.

Lemma scan_queue_spec rest visited cursor :
  (forall i, i ∈ rest -> (i < length visited)%nat) ->
  exists found cursor', scan_queue rest visited cursor = Some (found, cursor')
    /\ exists k, cursor' = (cursor + k)%nat
    /\ match found with
       | None => k = length rest /\ forall i, i ∈ rest -> visited !! i = Some true
       | Some i => exists before after, rest = before ++ i :: after /\ k = S (length before)
           /\ visited !! i = Some false /\ forall j, j ∈ before -> visited !! j = Some true
       end.
Proof.
  revert cursor. induction rest as [|i rest IH]; intros cursor Hin; simpl.
  { exists None, cursor. split; [done|]. exists O. split; [lia|]. split; [done|]. set_solver. }
  destruct (lookup_lt_is_Some_2 visited i) as [v Hv]; [apply Hin; set_solver|]. rewrite Hv.
  destruct v.
  - destruct (IH (S cursor)) as (found & c' & -> & k & -> & Hf); [set_solver|].
    exists found, (S cursor + k)%nat. split; [done|]. exists (S k). split; [lia|].
    destruct found as [j|].
    + destruct Hf as (before & after & -> & -> & ? & ?). exists (i :: before), after. set_solver.
    + destruct Hf as [-> ?]. split; [done|]. set_solver.
  - exists (Some i), (S cursor). split; [done|]. exists 1%nat. split; [lia|].
    exists [], rest. set_solver.
Qed.

(** ** The invariant of the loop *)
Definition total (counts : list Z) : Z := foldr Z.add 0 counts.

Lemma total_insert counts s c c' :
  counts !! s = Some c -> total (<[s := c']> counts) = total counts - c + c'.
Proof.
  revert s. induction counts as [|x counts IH]; intros [|s] Hs; simplify_eq/=; [lia|].
  rewrite (IH _ Hs). lia.
Qed.

Lemma total_zeros n : total (replicate n 0) = 0.
Proof. induction n as [|n IH]; [done|]. exact IH. Qed.

Section invariant.
Context (nodes : list CandidatePoolNode) (queues : list (list nat)) (max_candidates : Z).
Hypothesis queues_bounded : forall s q i, queues !! s = Some q -> i ∈ q -> (i < length nodes)%nat.

(** Every node of source [s] has been selected. *)
Definition exhausted (s : nat) (visited : list bool) : Prop :=
  forall q i, queues !! s = Some q -> i ∈ q -> visited !! i = Some true.

(** How often source [s] has been served after [k] full turns, when the sources
    before [p] have been served once more. *)
Definition served (k : Z) (p s : nat) : Z := if (s <? p)%nat then k + 1 else k.

Record rr_inv (k : Z) (p : nat) (st : RoundRobin) : Prop := {
  inv_cursors : length (rr_cursors st) = length queues;
  inv_visited : length (rr_visited st) = length nodes;
  inv_counts : length (rr_counts st) = length queues;
  inv_order : exists order, NoDup order
    /\ Forall2 (fun i id => exists n, nodes !! i = Some n /\ id = node_id n) order (rr_selected st)
    /\ forall i, rr_visited st !! i = Some true <-> i ∈ order;
  inv_seen : forall s q c i, queues !! s = Some q -> rr_cursors st !! s = Some c ->
    i ∈ take c q -> rr_visited st !! i = Some true;
  inv_total : total (rr_counts st) = len (rr_selected st);
  inv_fair : forall s c, rr_counts st !! s = Some c ->
    c <= served k p s /\ (c = served k p s \/ exhausted s (rr_visited st));
  inv_limit : len (rr_selected st) <= max_candidates;
}.

Lemma visited_mono i (visited : list bool) j :
  visited !! j = Some true -> <[i := true]> visited !! j = Some true.
Proof.
  intros Hj. rewrite list_lookup_insert. case_decide; [done|exact Hj].
Qed.

Lemma exhausted_mono s i visited :
  exhausted s visited -> exhausted s (<[i := true]> visited).
Proof. intros H q j Hq Hj. by eapply visited_mono, H. Qed.

(** A source that has nothing left. *)
Lemma inv_none k s st c c' q :
  rr_inv k s st -> queues !! s = Some q -> rr_cursors st !! s = Some c ->
  (forall i, i ∈ drop c q -> rr_visited st !! i = Some true) ->
  exhausted s (rr_visited st)
  /\ rr_inv k (S s) (mkRR (<[s := c']> (rr_cursors st)) (rr_visited st) (rr_selected st)
                       (rr_counts st) (rr_progressed st)).
Proof.
  intros [? ? ? Hord Hseen Htot Hfair Hlim] Hq Hc Hrest.
  assert (exhausted s (rr_visited st)) as Hex.
  { intros q' i ? Hi. simplify_eq. rewrite <- (take_drop c q), elem_of_app in Hi.
    destruct Hi as [Hi|Hi]; [by eapply Hseen|by apply Hrest]. }
  split; [done|]. constructor; simpl; try done.
  - by rewrite length_insert.
  - intros s' q' c0 i Hq' Hc0 Hi. destruct (decide (s' = s)) as [->|Hne].
    + eapply Hex; [exact Hq|]. simplify_eq. by apply elem_of_take in Hi as (? & ?%list_elem_of_lookup_2 & _).
    + rewrite list_lookup_insert_ne in Hc0 by done. by eapply Hseen.
  - intros s' c0 Hc0. destruct (Hfair _ _ Hc0) as [Hle Hor]. unfold served in *.
    destruct (decide (s' = s)) as [->|Hne].
    + rewrite (proj2 (Nat.ltb_lt s (S s))) by lia. rewrite Nat.ltb_irrefl in *. split; [lia|by right].
    + destruct (Nat.ltb_spec s' s), (Nat.ltb_spec s' (S s)); try lia; done.
Qed.

(** A source that contributes the node at position [i] of [nodes]. *)
Lemma inv_some k s st c q before i after n count :
  rr_inv k s st -> queues !! s = Some q -> rr_cursors st !! s = Some c ->
  len (rr_selected st) < max_candidates ->
  drop c q = before ++ i :: after -> rr_visited st !! i = Some false ->
  (forall j, j ∈ before -> rr_visited st !! j = Some true) ->
  nodes !! i = Some n -> rr_counts st !! s = Some count ->
  rr_inv k (S s) (mkRR (<[s := (c + S (length before))%nat]> (rr_cursors st))
                    (<[i := true]> (rr_visited st)) (rr_selected st ++ [node_id n])
                    (<[s := count + 1]> (rr_counts st)) true).
Proof.
  intros [? Hv ? (order & Hnd & Hsel & Hvis) Hseen Htot Hfair Hlim] Hq Hc Hlt Hd Hi Hbefore Hn Hcount.
  assert (i < length (rr_visited st))%nat as Hil by (by eapply lookup_lt_Some).
  assert (i ∉ order) as Hnew by (rewrite <- Hvis; congruence).
  constructor; simpl; rewrite ?length_insert; try done.
  - exists (order ++ [i]). split; [|split].
    + apply NoDup_app. split; [done|]. split; [set_solver|]. apply NoDup_singleton.
    + apply Forall2_app; [done|]. constructor; [by exists n|constructor].
    + intros j. rewrite list_lookup_insert, elem_of_app, list_elem_of_singleton, <- Hvis.
      case_decide as Hd0; naive_solver.
  - intros s' q' c0 j Hq' Hc0 Hj. destruct (decide (s' = s)) as [->|Hne].
    + rewrite list_lookup_insert_eq in Hc0 by (by eapply lookup_lt_Some). simplify_eq.
      rewrite <- take_take_drop, Hd in Hj.
      replace (take (S (length before)) (before ++ i :: after)) with (before ++ [i]) in Hj.
      2:{ rewrite (cons_middle i before after), (assoc_L (++)), take_app_length'; [done|].
          rewrite length_app. simpl. lia. }
      rewrite !elem_of_app, list_elem_of_singleton in Hj. destruct Hj as [Hj|[Hj| ->]].
      * by eapply visited_mono, Hseen.
      * by apply visited_mono, Hbefore.
      * by apply list_lookup_insert_eq.
    + rewrite list_lookup_insert_ne in Hc0 by done. eapply visited_mono, Hseen; done.
  - rewrite (total_insert _ _ _ _ Hcount), Htot. unfold len. rewrite length_app. simpl. lia.
  - intros s' c0 Hc0. unfold served in *. destruct (decide (s' = s)) as [->|Hne].
    + rewrite list_lookup_insert_eq in Hc0 by (by eapply lookup_lt_Some). simplify_eq.
      destruct (Hfair _ _ Hcount) as [Hle Hor]. rewrite Nat.ltb_irrefl in *.
      rewrite (proj2 (Nat.ltb_lt s (S s))) by lia. split; [lia|]. left.
      destruct Hor as [->|Hex]; [done|]. exfalso.
      specialize (Hex q i Hq). rewrite Hi in Hex.
      enough (i ∈ q) by naive_solver. rewrite <- (take_drop c q), Hd. set_solver.
    + rewrite list_lookup_insert_ne in Hc0 by done. destruct (Hfair _ _ Hc0) as [Hle Hor].
      destruct (Nat.ltb_spec s' s), (Nat.ltb_spec s' (S s)); try lia; naive_solver eauto using exhausted_mono.
  - unfold len in *. rewrite length_app. simpl. lia.
Qed.

Lemma visit_source_inv k s st :
  rr_inv k s st -> (s < length queues)%nat -> len (rr_selected st) < max_candidates ->
  exists st', visit_source nodes queues s st = Some st' /\ rr_inv k (S s) st'
    /\ ((rr_selected st' = rr_selected st /\ rr_visited st' = rr_visited st
          /\ rr_progressed st' = rr_progressed st /\ exhausted s (rr_visited st'))
        \/ (len (rr_selected st') = len (rr_selected st) + 1 /\ rr_progressed st' = true)).
Proof.
  intros Hinv Hs Hlt. unfold visit_source.
  destruct (lookup_lt_is_Some_2 queues s Hs) as [q Hq].
  destruct (lookup_lt_is_Some_2 (rr_cursors st) s) as [c Hc]; [by rewrite (inv_cursors _ _ _ Hinv)|].
  destruct (lookup_lt_is_Some_2 (rr_counts st) s) as [count Hcount]; [by rewrite (inv_counts _ _ _ Hinv)|].
  assert (forall i, i ∈ drop c q -> (i < length nodes)%nat) as Hb.
  { intros i Hi. apply (queues_bounded s q); [done|]. rewrite <- (take_drop c q). set_solver. }
  rewrite Hq, Hc. simpl.
  destruct (scan_queue_spec (drop c q) (rr_visited st) c) as (found & c' & -> & m & -> & Hf).
  { rewrite (inv_visited _ _ _ Hinv). exact Hb. }
  simpl. destruct found as [i|].
  - destruct Hf as (before & after & Hd & -> & Hi & Hbefore).
    destruct (lookup_lt_is_Some_2 nodes i) as [n Hn]; [apply Hb; rewrite Hd; set_solver|].
    rewrite Hn, Hcount. simpl. eexists. split; [done|]. split; [by eapply inv_some|].
    right. simpl. unfold len. rewrite length_app. simpl. split; [lia|done].
  - destruct Hf as [-> Hall]. eexists. split; [done|].
    edestruct inv_none as [Hex Hi']; [exact Hinv|exact Hq|exact Hc|exact Hall|].
    split; [exact Hi'|]. by left.
Qed.

(** A turn through the sources from [s] on. *)
Lemma turn_inv m k s st :
  rr_inv k s st -> (s + m = length queues)%nat -> len (rr_selected st) < max_candidates ->
  exists st' p, turn nodes queues max_candidates (seq s m) st = Some st' /\ rr_inv k p st'
    /\ (len (rr_selected st') = max_candidates \/ p = length queues)
    /\ len (rr_selected st) <= len (rr_selected st')
    /\ ((rr_progressed st' = true /\ (rr_progressed st = false -> len (rr_selected st) < len (rr_selected st')))
        \/ (rr_progressed st' = false /\ rr_progressed st = false /\ p = length queues /\ rr_visited st' = rr_visited st
            /\ forall s', (s <= s' < length queues)%nat -> exhausted s' (rr_visited st'))).
Proof.
  revert s st. induction m as [|m IH]; intros s st Hinv Hs Hlt; simpl.
  { exists st, s. replace (length queues) with s by lia.
    split_and!; [done|done|by right|lia|]. destruct (rr_progressed st) eqn:Hp; [by left|right].
    split_and!; try done. lia. }
  destruct (visit_source_inv k s st Hinv ltac:(lia) Hlt) as (st1 & -> & Hinv1 & Hcase). simpl.
  destruct (Z.eqb_spec (len (rr_selected st1)) max_candidates) as [Heq|Hne].
  { exists st1, (S s). destruct Hcase as [(Hsel & _)|[Hsel Hp]]; [rewrite Hsel in Heq; lia|].
    split_and!; [done|done|by left|lia|]. left. split; [done|lia]. }
  destruct (IH (S s) st1 Hinv1 ltac:(lia)) as (st2 & p & Ht & Hinv2 & Hend & Hle & Hprog).
  { pose proof (inv_limit _ _ _ Hinv1). lia. }
  exists st2, p. split_and!; [done..| |].
  { destruct Hcase as [(Hsel & _)|[Hsel _]]; [by rewrite <- Hsel|lia]. }
  destruct Hprog as [[Hp Hgt]|(Hp & Hp1 & Hp' & Hv & Hex)].
  - left. split; [done|]. destruct Hcase as [(Hsel & _ & Hpr & _)|[Hsel _]]; [|lia].
    rewrite Hpr, Hsel in *. exact Hgt.
  - right. destruct Hcase as [(_ & Hv1 & Hp0 & Hex1)|[_ Hp0]]; [|congruence].
    split_and!; [done|congruence|done|congruence|]. intros s' Hs'.
    destruct (decide (s' = s)) as [->|]; [by rewrite Hv|apply Hex; lia].
Qed.

(** A complete turn starts the next one. *)
Lemma inv_next_turn k st : rr_inv k (length queues) st -> rr_inv (k + 1) 0 st.
Proof.
  intros [? ? Hcounts ? ? ? Hfair ?]. constructor; try done. intros s c Hc.
  destruct (Hfair s c Hc) as [Hle Hor]. unfold served in *.
  apply lookup_lt_Some in Hc. rewrite Hcounts in Hc. apply Nat.ltb_lt in Hc. by rewrite Hc in Hle, Hor.
Qed.

Lemma inv_selected_le k p st : rr_inv k p st -> (length (rr_selected st) <= length nodes)%nat.
Proof.
  intros Hinv. destruct (inv_order _ _ _ Hinv) as (order & Hnd & Hsel & _).
  rewrite <- (Forall2_length _ _ _ Hsel), <- (length_seq (length nodes) 0).
  apply submseteq_length, NoDup_submseteq; [done|]. intros i Hi.
  apply list_elem_of_lookup_1 in Hi as [j Hj].
  destruct (Forall2_lookup_l _ _ _ _ _ Hsel Hj) as (id & _ & n & Hn & _).
  apply elem_of_seq. apply lookup_lt_Some in Hn. lia.
Qed.

Lemma loop_inv fuel k st :
  rr_inv k 0 st -> (length nodes < fuel + length (rr_selected st))%nat ->
  exists st' k' p', round_robin_loop nodes queues max_candidates fuel st = Some st'
    /\ rr_inv k' p' st'
    /\ (len (rr_selected st') = max_candidates
        \/ forall s, (s < length queues)%nat -> exhausted s (rr_visited st')).
Proof.
  revert k st. induction fuel as [|fuel IH]; intros k st Hinv Hfuel; simpl.
  { apply inv_selected_le in Hinv. lia. }
  pose proof (inv_limit _ _ _ Hinv) as Hlim.
  destruct (Z.ltb_spec (len (rr_selected st)) max_candidates) as [Hlt|Hge].
  2:{ exists st, k, O. split_and!; [done|done|]. left. lia. }
  edestruct (turn_inv (length queues) k 0) as (st1 & p & -> & Hinv1 & Hend & Hle & Hprog);
    [|done| |]; simpl.
  { destruct Hinv. constructor; simpl; done. }
  { exact Hlt. }
  destruct Hprog as [[-> Hgt]|(-> & _ & -> & _ & Hex)].
  - destruct Hend as [Hend| ->].
    + exists st1, k, p. destruct fuel as [|fuel]; simpl.
      { pose proof (inv_selected_le _ _ _ Hinv1). unfold len in *. simpl in Hgt. lia. }
      rewrite Hend, Z.ltb_irrefl. split_and!; [done|done|by left].
    + apply (IH (k + 1)); [by apply inv_next_turn|]. unfold len in *. simpl in Hgt. lia.
  - exists st1, k, (length queues). split_and!; [done|done|]. right. intros s Hs. apply Hex. lia.
Qed.
End invariant.

(** ** What the pools promise *)

(** Source [s] has at most as many candidates as source [t] only because all its
    nodes are in [auto]. *)
Definition fair_shares (nodes : list CandidatePoolNode) (auto : list StableNodeId)
    (cs : list SourceContribution) : Prop :=
  forall s t a b, cs !! s = Some a -> cs !! t = Some b ->
    contribution_candidates a + 1 < contribution_candidates b
    \/ (s < t)%nat /\ contribution_candidates a < contribution_candidates b ->
    forall n, n ∈ nodes -> contribution_source a ∈ node_attribution n -> node_id n ∈ auto.

Record pool_ok (active : list SourceId) (nodes : list CandidatePoolNode) (max_candidates : Z)
    (auto : list StableNodeId) (cs : list SourceContribution) : Prop := {
  auto_NoDup : NoDup auto;
  auto_subset : auto ⊆ (node_id <$> nodes);
  auto_length : len auto = Z.min max_candidates (len nodes);
  cs_sources : contribution_source <$> cs = active;
  cs_total : total (contribution_candidates <$> cs) = len auto;
  cs_fair : fair_shares nodes auto cs;
}.

Lemma zip_counts_fields (active : list SourceId) (counts : list Z) :
  length counts = length active ->
  let cs := zip_with (fun c n => mkContribution (contribution_source c) n)
              ((fun id => mkContribution id 0) <$> active) counts in
  contribution_source <$> cs = active /\ contribution_candidates <$> cs = counts.
Proof.
  revert counts. induction active as [|x l IH]; intros [|c counts] Hl; try done.
  destruct (IH counts) as [H1 H2]; [by simpl in Hl; lia|]. csimpl. split; by f_equal.
Qed.

Section end_of_loop.
Context (active : list SourceId) (nodes : list CandidatePoolNode) (max_candidates : Z).
Hypothesis ids_distinct : NoDup (node_id <$> nodes).
Hypothesis all_eligible : forall n, n ∈ nodes -> is_eligible active n = true.
Let queues := fill_queues active 0 nodes (replicate (length active) []).

Lemma queue_elem s id i :
  active !! s = Some id ->
  exists q, queues !! s = Some q
    /\ (i ∈ q <-> exists n, nodes !! i = Some n /\ id ∈ node_attribution n).
Proof.
  intros Hid. destruct (fill_queues_lookup active nodes 0 (replicate (length active) []) s [] id i)
    as (q & Hq & Hi); [by rewrite length_replicate| |done|].
  { apply lookup_replicate. split; [done|by eapply lookup_lt_Some]. }
  exists q. split; [done|]. rewrite Hi. split.
  - intros [?|(k & n & ? & -> & ?)]; [set_solver|]. by exists n.
  - intros (n & ? & ?). right. by exists i, n.
Qed.

Lemma queues_length : length queues = length active.
Proof. apply fill_queues_length. by rewrite length_replicate. Qed.

Lemma queues_in_bounds s q i : queues !! s = Some q -> i ∈ q -> (i < length nodes)%nat.
Proof.
  intros Hq Hi. destruct (lookup_lt_is_Some_2 active s) as [id Hid].
  { rewrite <- queues_length. by eapply lookup_lt_Some. }
  destruct (queue_elem s id i Hid) as (q' & Hq' & Hiff).
  assert (q' = q) as -> by congruence. destruct (proj1 Hiff Hi) as (n & Hn & _). by eapply lookup_lt_Some.
Qed.

(** The nodes of a source that has nothing left are in the selection. *)
Lemma exhausted_selected k p st s id n :
  rr_inv nodes queues max_candidates k p st -> exhausted queues s (rr_visited st) ->
  active !! s = Some id -> n ∈ nodes -> id ∈ node_attribution n -> node_id n ∈ rr_selected st.
Proof.
  intros Hinv Hex Hid Hn Hattr. apply list_elem_of_lookup_1 in Hn as [i Hi].
  destruct (inv_order _ _ _ _ _ _ Hinv) as (order & _ & Hsel & Hvis).
  destruct (queue_elem s id i Hid) as (q & Hq & Hiff).
  assert (i ∈ order) as Ho by (apply Hvis; eapply Hex; [exact Hq|]; apply Hiff; eauto).
  apply list_elem_of_lookup_1 in Ho as [j Hj].
  destruct (Forall2_lookup_l _ _ _ _ _ Hsel Hj) as (x & Hx & n' & Hn' & ->). simplify_eq.
  by eapply list_elem_of_lookup_2.
Qed.

Lemma selected_facts k p st :
  rr_inv nodes queues max_candidates k p st ->
  NoDup (rr_selected st) /\ rr_selected st ⊆ (node_id <$> nodes).
Proof.
  intros Hinv. destruct (inv_order _ _ _ _ _ _ Hinv) as (order & Hnd & Hsel & _).
  assert (forall i id, order !! i = Some id -> exists n, nodes !! id = Some n
            /\ rr_selected st !! i = Some (node_id n)) as Hlook.
  { intros i id Hi. destruct (Forall2_lookup_l _ _ _ _ _ Hsel Hi) as (x & Hx & n & Hn & ->). eauto. }
  assert (forall i x, rr_selected st !! i = Some x -> exists a n, order !! i = Some a
            /\ nodes !! a = Some n /\ x = node_id n) as Hlook'.
  { intros i x Hi. destruct (Forall2_lookup_r _ _ _ _ _ Hsel Hi) as (a & Ha & n & Hn & ->). eauto. }
  split.
  - apply NoDup_alt. intros i j x Hi Hj.
    destruct (Hlook' _ _ Hi) as (a & n & Ha & Hn & ->), (Hlook' _ _ Hj) as (b & m & Hb & Hm & Heq).
    assert (a = b) as ->.
    { eapply (NoDup_alt (node_id <$> nodes)); [exact ids_distinct|by rewrite list_lookup_fmap, Hn|].
      by rewrite list_lookup_fmap, Hm, Heq. }
    by eapply (NoDup_alt order).
  - intros x Hx. apply list_elem_of_lookup_1 in Hx as [i Hi].
    destruct (Hlook' _ _ Hi) as (a & n & _ & Hn & ->). apply list_elem_of_fmap_2.
    by eapply list_elem_of_lookup_2.
Qed.

Lemma start_inv :
  0 <= max_candidates ->
  rr_inv nodes queues max_candidates 0 0
    (mkRR (replicate (length queues) O) (replicate (length nodes) false) []
       (replicate (length queues) 0) false).
Proof.
  intros Hmax. constructor; simpl; rewrite ?length_replicate; try done.
  - exists []. split_and!; [constructor|constructor|]. intros i. rewrite lookup_replicate. set_solver.
  - intros s q c i _ Hc. apply lookup_replicate in Hc as [-> _]. set_solver.
  - apply total_zeros.
  - intros s c Hc. apply lookup_replicate in Hc as [-> _]. unfold served. simpl. split; [lia|by left].
Qed.

(** Both ways the loop ends give the full pool. *)
Lemma final_length k p st :
  rr_inv nodes queues max_candidates k p st ->
  (len (rr_selected st) = max_candidates
   \/ forall s, (s < length queues)%nat -> exhausted queues s (rr_visited st)) ->
  len (rr_selected st) = Z.min max_candidates (len nodes).
Proof.
  intros Hinv Hend. pose proof (inv_selected_le _ _ _ _ _ _ Hinv) as Hle.
  pose proof (inv_limit _ _ _ _ _ _ Hinv) as Hlim. unfold len in *. destruct Hend as [Hend|Hend]; [lia|].
  enough (length nodes <= length (rr_selected st))%nat by lia.
  rewrite <- (length_fmap node_id nodes). apply submseteq_length, NoDup_submseteq; [done|].
  intros x Hx. apply list_elem_of_fmap in Hx as (n & -> & Hn).
  pose proof (all_eligible n Hn) as He. unfold is_eligible in He.
  apply existsb_exists in He as (id & Hid%list_elem_of_In & Hc).
  apply bool_decide_eq_true in Hc. apply list_elem_of_lookup_1 in Hid as [s Hs].
  eapply exhausted_selected; [exact Hinv| |exact Hs|done|done].
  apply Hend. rewrite queues_length. by eapply lookup_lt_Some.
Qed.

Lemma zip_counts_lookup (counts : list Z) s a :
  zip_with (fun c n => mkContribution (contribution_source c) n)
    ((fun id => mkContribution id 0) <$> active) counts !! s = Some a ->
  active !! s = Some (contribution_source a) /\ counts !! s = Some (contribution_candidates a).
Proof.
  rewrite lookup_zip_with, list_lookup_fmap.
  destruct (active !! s) as [id|], (counts !! s) as [c|]; simpl; naive_solver.
Qed.

Lemma round_robin_ok :
  0 <= max_candidates ->
  exists auto cs, round_robin active nodes max_candidates ((fun id => mkContribution id 0) <$> active)
      = Some (auto, cs)
    /\ pool_ok active nodes max_candidates auto cs.
Proof.
  intros Hmax. unfold round_robin. fold queues.
  assert (contribution_candidates <$> ((fun id => mkContribution id 0) <$> active)
          = replicate (length queues) 0) as ->.
  { rewrite queues_length. clear. induction active as [|x l IH]; [done|]. csimpl. by rewrite IH. }
  destruct (loop_inv nodes queues max_candidates queues_in_bounds (S (length nodes)) 0 _ (start_inv Hmax))
    as (st & k & p & -> & Hinv & Hend); [simpl; lia|].
  pose proof (inv_counts _ _ _ _ _ _ Hinv) as Hcounts. rewrite queues_length in Hcounts.
  destruct (selected_facts _ _ _ Hinv) as [Hnd Hsub].
  simpl. eexists _, _. split; [done|]. constructor; [done|done|by eapply final_length|..].
  - by apply zip_counts_fields.
  - etransitivity; [|apply (inv_total _ _ _ _ _ _ Hinv)]. f_equal. by apply zip_counts_fields.
  - intros s t a b Ha Hb Hlt n Hn Hattr.
    apply zip_counts_lookup in Ha as [Ha Hca], Hb as [Hb Hcb].
    eapply exhausted_selected; [exact Hinv| |exact Ha|done|done].
    destruct (inv_fair _ _ _ _ _ _ Hinv _ _ Hca) as [Hle Hor].
    destruct (inv_fair _ _ _ _ _ _ Hinv _ _ Hcb) as [Hle' _].
    destruct Hor as [Heq|Hex]; [|done]. exfalso. unfold served in *.
    destruct (Nat.ltb_spec s p), (Nat.ltb_spec t p); lia.
Qed.
End end_of_loop.

(** ** Theorems *)

Lemma validate_inputs_ok mode active nodes max_candidates :
  validate_inputs mode active nodes max_candidates = Ok tt ->
  active <> [] /\ NoDup active /\ 1 <= max_candidates /\ NoDup (node_id <$> nodes)
  /\ (mode = Single -> exists id, active = [id]).
Proof.
  unfold validate_inputs. split_if H1; [done|]. split_if H2; [done|]. split_if H3; [done|].
  intros _. rewrite !orb_false_iff, Z.eqb_neq, negb_false_iff in H1.
  destruct H1 as [[[Hne _] Hd] Hs]. apply negb_false_iff in H2, H3.
  unfold in_range in H2. apply andb_true_iff in H2 as [H2 _]. split_and!.
  - by intros ->.
  - by apply all_distinct_NoDup.
  - lia.
  - by apply all_distinct_NoDup.
  - intros ->. simpl in Hs. apply negb_false_iff, Z.eqb_eq in Hs. unfold len in Hs.
    destruct active as [|id [|]]; simpl in Hs; try lia. by exists id.
Qed.

Lemma eligible_sorted active nodes :
  NoDup (node_id <$> nodes) ->
  let eligible := sort_by_key node_id (filter (fun n => is_eligible active n) nodes) in
  NoDup (node_id <$> eligible) /\ StronglySorted ord_lt (node_id <$> eligible)
  /\ forall n, n ∈ eligible <-> is_eligible active n = true /\ n ∈ nodes.
Proof.
  intros Hnd eligible.
  assert (NoDup (node_id <$> filter (fun n => is_eligible active n) nodes)) as Hnd'.
  { eapply sublist_NoDup; [exact Hnd|]. apply fmap_sublist, sublist_filter. }
  split; [|split].
  - unfold eligible. by rewrite sort_by_key_Permutation.
  - by apply sort_by_key_strict.
  - intros n. unfold eligible. rewrite sort_by_key_Permutation, list_elem_of_filter.
    by rewrite Is_true_true.
Qed.

Lemma is_eligible_spec active n :
  is_eligible active n = true <-> exists id, id ∈ active /\ id ∈ node_attribution n.
Proof.
  unfold is_eligible, attribution_contains. rewrite existsb_exists.
  setoid_rewrite bool_decide_eq_true. by setoid_rewrite list_elem_of_In.
Qed.

(** A single source takes the first eligible nodes. *)
Lemma single_ok id nodes max_candidates :
  1 <= max_candidates -> NoDup (node_id <$> nodes) ->
  let auto := take (Z.to_nat max_candidates) (node_id <$> nodes) in
  pool_ok [id] nodes max_candidates auto [mkContribution id (len auto)].
Proof.
  intros Hmax Hnd auto. constructor; try done.
  - eapply sublist_NoDup; [exact Hnd|apply sublist_take].
  - apply sublist_subseteq, sublist_take.
  - unfold auto, len. rewrite length_take, length_fmap. lia.
  - csimpl. unfold total. simpl. lia.
  - intros [|s] [|t] a b Ha Hb; simplify_eq/=; lia.
Qed.

Lemma build_candidate_pools_cases mode active nodes max_candidates :
  (exists e, build_candidate_pools mode active nodes max_candidates = Some (Err e)
     /\ (validate_inputs mode active nodes max_candidates = Ok tt ->
         forall n, n ∈ nodes -> is_eligible active n = false))
  \/ exists pools, build_candidate_pools mode active nodes max_candidates = Some (Ok pools)
     /\ let eligible := sort_by_key node_id (filter (fun n => is_eligible active n) nodes) in
        (forall n, n ∈ eligible <-> is_eligible active n = true /\ n ∈ nodes)
        /\ pool_manual pools = node_id <$> eligible
        /\ StronglySorted ord_lt (pool_manual pools)
        /\ pool_ok active eligible max_candidates (pool_auto pools) (pool_contributions pools).
Proof.
  unfold build_candidate_pools. destruct (validate_inputs _ _ _ _) as [[]|e] eqn:Hv; [|left; exists e; by split].
  pose proof Hv as Hv'. apply validate_inputs_ok in Hv as (Hne & Hnd & Hmax & Hids & Hsingle).
  destruct (eligible_sorted active nodes Hids) as (Hnd' & Hsorted & Helem).
  set (eligible := sort_by_key _ _) in *. split_if Hz.
  { left. eexists. split; [done|]. intros _ n Hn. apply not_true_iff_false. intros He.
    assert (n ∈ eligible) as Hin by (by apply Helem).
    apply Z.eqb_eq in Hz. unfold len in Hz. destruct eligible; [set_solver|simpl in Hz; lia]. }
  right.
  destruct mode.
  - destruct (Hsingle eq_refl) as [id ->]. simpl. eexists. split; [done|].
    split_and!; [done..|]. apply single_ok; done.
  - destruct (round_robin_ok active eligible max_candidates Hnd') as (auto & cs & -> & Hok); [|lia|].
    { intros n Hn. by apply Helem in Hn as [? _]. }
    simpl. eexists. by split.
Qed.

(** Building the pools always returns: no index is out of range and the round
    robin ends within one turn per eligible node, because every turn that does not
    select a node is the last. *)
Theorem candidate_pools_total mode active nodes max_candidates :
  exists r, build_candidate_pools mode active nodes max_candidates = Some r.
Proof.
  destruct (build_candidate_pools_cases mode active nodes max_candidates) as [(e & He & _)|(p & Hp & _)]; eauto.
Qed.

(** For distinct sources and nodes and a limit within range, the build succeeds
    when some node belongs to an active source.  The manual pool is then the
    eligible nodes by identifier; the automatic pool has no duplicates, is part of
    it and has as many nodes as the limit allows; the contributions name the active
    sources and add up to it; and the shares are fair: a source has two candidates
    less than another one, or one less than a later one, only when every node of it
    is in the pool already. *)
Theorem candidate_pools_fair mode active nodes max_candidates :
  validate_inputs mode active nodes max_candidates = Ok tt ->
  (exists n id, n ∈ nodes /\ id ∈ active /\ id ∈ node_attribution n) ->
  exists pools, build_candidate_pools mode active nodes max_candidates = Some (Ok pools)
    /\ StronglySorted ord_lt (pool_manual pools)
    /\ (forall x, x ∈ pool_manual pools <->
          exists n id, n ∈ nodes /\ id ∈ active /\ id ∈ node_attribution n /\ x = node_id n)
    /\ NoDup (pool_auto pools)
    /\ pool_auto pools ⊆ pool_manual pools
    /\ len (pool_auto pools) = Z.min max_candidates (len (pool_manual pools))
    /\ contribution_source <$> pool_contributions pools = active
    /\ total (contribution_candidates <$> pool_contributions pools) = len (pool_auto pools)
    /\ fair_shares nodes (pool_auto pools) (pool_contributions pools).
Proof.
  intros Hv (n0 & id0 & Hn0 & Hid0 & Hattr0).
  destruct (build_candidate_pools_cases mode active nodes max_candidates)
    as [(e & _ & Hnone)|(pools & Hp & Helem & Hman & Hsorted & [? ? Hlen Hsrc ? Hfair])].
  { specialize (Hnone Hv n0 Hn0). apply not_true_iff_false in Hnone. rewrite is_eligible_spec in Hnone.
    destruct Hnone. eauto. }
  setoid_rewrite is_eligible_spec in Helem.
  exists pools. split_and!; try done.
  - intros x. rewrite Hman, list_elem_of_fmap. setoid_rewrite Helem. naive_solver.
  - by rewrite Hman.
  - rewrite Hman. unfold len in *. by rewrite length_fmap.
  - intros s t a b Ha Hb Hlt n Hn Hattr. eapply Hfair; [exact Ha|exact Hb|done| |done].
    apply Helem. split; [|done]. exists (contribution_source a). split; [|done].
    rewrite <- Hsrc. apply list_elem_of_fmap_2. by eapply list_elem_of_lookup_2.
Qed.

(** Two sources that share a node, and a limit below the number of nodes. *)
Definition sample_pool_nodes : list CandidatePoolNode :=
  [mkPoolNode "d" ["a"]; mkPoolNode "b" ["a"; "b"]; mkPoolNode "c" ["a"]; mkPoolNode "e" ["b"];
   mkPoolNode "f" ["x"]].

Example sample_pools :
  build_candidate_pools Merge ["a"; "b"] sample_pool_nodes 3
  = Some (Ok (mkPools ["b"; "e"; "c"] ["b"; "c"; "d"; "e"]
                [mkContribution "a" 2; mkContribution "b" 1])).
Proof. vm_compute. reflexivity. Qed.

Lemma candidate_pools_fair_witness :
  exists pools, build_candidate_pools Merge ["a"; "b"] sample_pool_nodes 3 = Some (Ok pools)
    /\ fair_shares sample_pool_nodes (pool_auto pools) (pool_contributions pools).
Proof.
  destruct (candidate_pools_fair Merge ["a"; "b"] sample_pool_nodes 3) as (pools & Hp & H).
  - vm_compute. reflexivity.
  - exists (mkPoolNode "d" ["a"]), "a". split_and!; set_solver.
  - exists pools. split; [exact Hp|apply H].
Defined.
