(* ===== verification/Stats.v ===== *)
(** * Stats: traffic deltas from cumulative counters

    Models crates/nethopd/src/stats.rs.  The core reports cumulative counters; the
    tracker turns consecutive batches of one core instance into deltas, takes a
    fresh baseline when the instance changes and refuses a batch whose counters went
    backwards or disappeared. *)

From S2P Require Import Prelude Ordering BTreeMap.

Local Open Scope Z_scope.

Definition MAX_COUNTERS : Z := 4096.
Definition MAX_CORE_INSTANCE_ID_BYTES : Z := 64.
Definition MAX_TERMINAL_TAG_BYTES : Z := 128.

Inductive StatsError : Type :=
| InvalidCoreInstance | InvalidCounter | TooManyCounters | DuplicateCounter
| CounterRegressed | CounterMissing | TransportUnavailable.

Inductive CounterName : Type :=
| InboundTproxy | InboundTun | RouteDirect | RouteBlock
| Terminal (tag : string).

(** The derived order: the variants as they are declared, then the tag. *)
Definition variant_index (n : CounterName) : Z :=
  match n with
  | InboundTproxy => 0 | InboundTun => 1 | RouteDirect => 2 | RouteBlock => 3 | Terminal _ => 4
  end.
Definition CounterName_cmp (a b : CounterName) : comparison :=
  match a, b with
  | Terminal s, Terminal t => String.compare s t
  | _, _ => Z.compare (variant_index a) (variant_index b)
  end.
#[export] Program Instance CounterName_Ord : Ord CounterName := {| cmp := CounterName_cmp |}.
Next Obligation.
  intros a b. split; [|intros ->; destruct b as [| | | |t]; try done; exact (cmp_refl t)].
  destruct a as [| | | |s], b as [| | | |t]; try done. simpl. intros H.
  f_equal. by apply (cmp_eq s t).
Qed.
Next Obligation.
  intros [| | | |s] [| | | |t]; try done. exact (cmp_antisym s t).
Qed.
Next Obligation.
  intros [| | | |s] [| | | |t] [| | | |u]; try done. exact (cmp_lt_trans s t u).
Qed.

Definition terminal (tag : string) : Result StatsError CounterName :=
  if (str_len tag =? 0) || (MAX_TERMINAL_TAG_BYTES <? str_len tag) || has_control (bytes tag)
  then Err InvalidCounter
  else Ok (Terminal tag).

Definition as_wire_name (n : CounterName) : string :=
  match n with
  | InboundTproxy => "inbound:tproxy"
  | InboundTun => "inbound:tun"
  | RouteDirect => "route:direct"
  | RouteBlock => "route:block"
  | Terminal tag => "terminal:" +:+ tag
  end.

Record CounterReading : Type := mkReading {
  reading_name : CounterName;
  reading_upload : Z;
  reading_download : Z;
}.
Record CounterBatch : Type := mkBatch {
  batch_instance : string;
  batch_degraded : Z;
  batch_counters : list CounterReading;
}.

Definition instance_byte (b : Z) : bool :=
  is_ascii_alphanumeric b || existsb (Z.eqb b) (bytes "-_.").

(** [counters.windows(2).any(|pair| pair[0].name == pair[1].name)]. *)
Fixpoint some_neighbours_equal (names : list CounterName) : bool :=
  match names with
  | a :: (b :: _) as rest => match cmp a b with Eq => true | _ => some_neighbours_equal rest end
  | _ => false
  end.

Definition CounterBatch_new (core_instance_id : string) (degraded : Z)
    (counters : list CounterReading) : Result StatsError CounterBatch :=
  if (str_len core_instance_id =? 0) || (MAX_CORE_INSTANCE_ID_BYTES <? str_len core_instance_id)
     || negb (forallb instance_byte (bytes core_instance_id))
  then Err InvalidCoreInstance
  else if MAX_COUNTERS <? len counters then Err TooManyCounters
  else
    let sorted := sort_by_key reading_name counters in
    if some_neighbours_equal (reading_name <$> sorted) then Err DuplicateCounter
    else Ok (mkBatch core_instance_id degraded sorted).

Record CounterDelta : Type := mkDelta {
  delta_name : CounterName;
  delta_upload : Z;
  delta_download : Z;
}.
Record CounterDeltaBatch : Type := mkDeltaBatch {
  deltas_instance : string;
  deltas_degraded : Z;
  deltas_counters : list CounterDelta;
  baseline_only : bool;
}.
Record CounterDeltaTracker : Type := mkTracker {
  active_core_instance : option string;
  degraded_total : Z;
  last : BTreeMap CounterName (Z * Z);
}.
Definition CounterDeltaTracker_default : CounterDeltaTracker := mkTracker None 0 [].

(** The loop over the readings: the deltas, the next map and the names seen. *)
Fixpoint delta_loop (last : BTreeMap CounterName (Z * Z)) (readings : list CounterReading)
    (deltas : list CounterDelta) (next : BTreeMap CounterName (Z * Z))
    (observed : BTreeMap CounterName unit) :
    Result StatsError (list CounterDelta * BTreeMap CounterName (Z * Z) * BTreeMap CounterName unit) :=
  match readings with
  | [] => Ok (deltas, next, observed)
  | r :: rest =>
      let observed' := bt_insert (reading_name r) tt observed in
      let previous := default (0, 0) (bt_get (reading_name r) last) in
      if (reading_upload r <? previous.1) || (reading_download r <? previous.2)
      then Err CounterRegressed
      else
        delta_loop last rest
          (deltas ++ [mkDelta (reading_name r) (reading_upload r - previous.1)
                        (reading_download r - previous.2)])
          (bt_insert (reading_name r) (reading_upload r, reading_download r) next)
          observed'
  end.

Definition tracker_apply (batch : CounterBatch) :
    Mut CounterDeltaTracker StatsError CounterDeltaBatch := fun tracker =>
  if negb (bool_decide (active_core_instance tracker = Some (batch_instance batch))) then
    (Ok (mkDeltaBatch (batch_instance batch) 0 [] true),
     mkTracker (Some (batch_instance batch)) (batch_degraded batch)
       (bt_collect ((fun r => (reading_name r, (reading_upload r, reading_download r)))
                      <$> batch_counters batch)))
  else if batch_degraded batch <? degraded_total tracker then (Err CounterRegressed, tracker)
  else
    match delta_loop (last tracker) (batch_counters batch) [] [] [] with
    | Err e => (Err e, tracker)
    | Ok (deltas, next, observed) =>
        if existsb (fun name => negb (bt_contains_key name observed)) (bt_keys (last tracker))
        then (Err CounterMissing, tracker)
        else
          (Ok (mkDeltaBatch (batch_instance batch) (batch_degraded batch - degraded_total tracker)
                 deltas false),
           mkTracker (active_core_instance tracker) (batch_degraded batch) next)
    end.

(** ** Batches and the loop *)

(** A batch the constructor accepted. *)
Definition built (b : CounterBatch) : Prop :=
  exists id degraded counters, CounterBatch_new id degraded counters = Ok b.
Definition batch_wf (b : CounterBatch) : Prop :=
  StronglySorted ord_lt (reading_name <$> batch_counters b).

Lemma no_equal_neighbours (names : list CounterName) :
  StronglySorted ord_le names -> some_neighbours_equal names = false -> StronglySorted ord_lt names.
Proof.
  induction 1 as [|a names Hs IH Ha]; intros Hn; [constructor|].
  destruct names as [|b names]; [repeat constructor|]. simpl in Hn.
  assert (ord_lt a b) as Hab.
  { apply Forall_cons in Ha as [Ha _]. apply ord_le_cases in Ha as [?| ->]; [done|].
    change (CounterName_cmp b b) with (cmp b b) in Hn. by rewrite cmp_refl in Hn. }
  assert (some_neighbours_equal (b :: names) = false) as Hn'
    by (change (CounterName_cmp a b) with (cmp a b) in Hn; by rewrite Hab in Hn).
  specialize (IH Hn'). constructor; [done|]. constructor; [done|].
  apply StronglySorted_inv in IH as [_ IH]. eapply Forall_impl; [exact IH|]. intros x Hx.
  by etransitivity.
Qed.

Lemma batch_built_wf b : built b -> batch_wf b.
Proof.
  intros (id & d & cs & H). unfold CounterBatch_new in H.
  split_if_in H H1; [done|]. split_if_in H H2; [done|]. split_if_in H H3; [done|].
  injection H as <-. apply no_equal_neighbours; [|done]. apply sort_by_key_sorted.
Qed.

Definition pair_of (r : CounterReading) : CounterName * (Z * Z) :=
  (reading_name r, (reading_upload r, reading_download r)).
Definition previous (m : BTreeMap CounterName (Z * Z)) (name : CounterName) : Z * Z :=
  default (0, 0) (bt_get name m).
Definition regressed (m : BTreeMap CounterName (Z * Z)) (r : CounterReading) : bool :=
  (reading_upload r <? (previous m (reading_name r)).1)
  || (reading_download r <? (previous m (reading_name r)).2).
Definition delta_of (m : BTreeMap CounterName (Z * Z)) (r : CounterReading) : CounterDelta :=
  mkDelta (reading_name r) (reading_upload r - (previous m (reading_name r)).1)
    (reading_download r - (previous m (reading_name r)).2).

(** The loop, without its accumulators. *)
Lemma delta_loop_eq m rs deltas next observed :
  delta_loop m rs deltas next observed
  = if existsb (regressed m) rs then Err CounterRegressed
    else Ok (deltas ++ (delta_of m <$> rs),
             fold_left (fun acc kv => bt_insert kv.1 kv.2 acc) (pair_of <$> rs) next,
             fold_left (fun acc kv => bt_insert kv.1 kv.2 acc)
               ((fun r => (reading_name r, tt)) <$> rs) observed).
Proof.
  revert deltas next observed. induction rs as [|r rs IH]; intros deltas next observed; simpl.
  { by rewrite app_nil_r. }
  fold (previous m (reading_name r)). fold (regressed m r).
  destruct (regressed m r); simpl; [done|]. rewrite IH. by rewrite <- (assoc_L (++)).
Qed.

Lemma collect_readings rs :
  StronglySorted ord_lt (reading_name <$> rs) ->
  bt_collect (pair_of <$> rs) = pair_of <$> rs
  /\ bt_collect ((fun r => (reading_name r, tt)) <$> rs) = (fun r => (reading_name r, tt)) <$> rs.
Proof.
  intros Hs. split; apply bt_collect_wf_id; unfold bt_wf, bt_keys; by rewrite <- list_fmap_compose.
Qed.

(** A step with a batch of the tracked instance: what it answers and leaves. *)
Definition covers (m : BTreeMap CounterName (Z * Z)) (rs : list CounterReading) : Prop :=
  forall name, name ∈ bt_keys m -> name ∈ reading_name <$> rs.

Lemma same_instance_step b t :
  batch_wf b -> active_core_instance t = Some (batch_instance b) ->
  (exists e, tracker_apply b t = (Err e, t)
     /\ ((e = CounterRegressed
          /\ (batch_degraded b < degraded_total t
              \/ exists r, r ∈ batch_counters b /\ regressed (last t) r = true))
         \/ (e = CounterMissing /\ ~ covers (last t) (batch_counters b))))
  \/ (tracker_apply b t
      = (Ok (mkDeltaBatch (batch_instance b) (batch_degraded b - degraded_total t)
               (delta_of (last t) <$> batch_counters b) false),
         mkTracker (active_core_instance t) (batch_degraded b) (pair_of <$> batch_counters b))
      /\ degraded_total t <= batch_degraded b
      /\ (forall r, r ∈ batch_counters b -> regressed (last t) r = false)
      /\ covers (last t) (batch_counters b)).
Proof.
  intros Hwf Hact. unfold tracker_apply. rewrite bool_decide_true by done. simpl.
  destruct (Z.ltb_spec (batch_degraded b) (degraded_total t)) as [Hlt|Hge].
  { left. eexists. split; [done|]. left. split; [done|by left]. }
  rewrite delta_loop_eq. split_if Hreg.
  { left. eexists. split; [done|]. left. split; [done|]. right.
    apply existsb_exists in Hreg as (r & Hr%list_elem_of_In & ?). by exists r. }
  destruct (collect_readings _ Hwf) as [Hc1 Hc2]. unfold bt_collect in Hc1, Hc2. rewrite Hc1, Hc2. simpl.
  assert (forall name, bt_contains_key name ((fun r => (reading_name r, tt)) <$> batch_counters b) = true
            <-> name ∈ reading_name <$> batch_counters b) as Hkey.
  { intros name. unfold bt_contains_key.
    pose proof (bt_get_keys name ((fun r => (reading_name r, tt)) <$> batch_counters b)) as Hg.
    unfold bt_keys in Hg. rewrite <- list_fmap_compose in Hg. simpl in Hg. rewrite <- Hg.
    destruct (bt_get _ _); [naive_solver|]. rewrite is_Some_alt. naive_solver. }
  split_if Hmiss.
  - left. eexists. split; [done|]. right. split; [done|]. intros Hcov.
    apply existsb_exists in Hmiss as (name & Hn%list_elem_of_In & Hno).
    apply Hcov, Hkey in Hn. by rewrite Hn in Hno.
  - right. split_and!; [done|done| |].
    + intros r Hr. apply not_true_iff_false. intros Hx. apply not_true_iff_false in Hreg.
      apply Hreg, existsb_exists. exists r. by rewrite <- list_elem_of_In.
    + intros name Hn. apply Hkey. apply not_true_iff_false in Hmiss.
      destruct (bt_contains_key _ _) eqn:Hc; [done|]. destruct Hmiss. apply existsb_exists.
      exists name. rewrite Hc. by rewrite <- list_elem_of_In.
Qed.

(** ** Telescoping *)
Definition sum_for (f : CounterDelta -> Z) (name : CounterName) (ds : list CounterDelta) : Z :=
  foldr (fun d acc => (if bool_decide (delta_name d = name) then f d else 0) + acc) 0 ds.
Definition upload_for (name : CounterName) (out : CounterDeltaBatch) : Z :=
  sum_for delta_upload name (deltas_counters out).
Definition download_for (name : CounterName) (out : CounterDeltaBatch) : Z :=
  sum_for delta_download name (deltas_counters out).

Lemma sum_for_absent f name m rs :
  name ∉ reading_name <$> rs -> sum_for f name (delta_of m <$> rs) = 0.
Proof.
  induction rs as [|r rs IH]; intros Hn; [done|]. csimpl. rewrite bool_decide_false by set_solver.
  rewrite IH by set_solver. done.
Qed.

Lemma sum_for_delta m name rs :
  StronglySorted ord_lt (reading_name <$> rs) ->
  (sum_for delta_upload name (delta_of m <$> rs), sum_for delta_download name (delta_of m <$> rs))
  = match bt_get name (pair_of <$> rs) with
    | Some v => (v.1 - (previous m name).1, v.2 - (previous m name).2)
    | None => (0, 0)
    end.
Proof.
  induction rs as [|r rs IH]; intros Hs; [done|]. csimpl.
  pose proof (StronglySorted_lt_NoDup _ Hs) as Hnd. apply NoDup_cons in Hnd as [Hr _].
  apply StronglySorted_inv in Hs as [Hs _]. specialize (IH Hs).
  change (CounterName_cmp name (reading_name r)) with (cmp name (reading_name r)).
  case_bool_decide as Hd.
  - subst name. rewrite cmp_refl, !sum_for_absent by done. simpl. f_equal; lia.
  - destruct (cmp name (reading_name r)) eqn:Hc; [by apply cmp_eq in Hc; subst|by rewrite <- IH..].
Qed.

(** The applications of a sequence of batches: the deltas of those accepted. *)
Fixpoint apply_all (batches : list CounterBatch) (t : CounterDeltaTracker) :
    list CounterDeltaBatch * CounterDeltaTracker :=
  match batches with
  | [] => ([], t)
  | b :: rest =>
      match tracker_apply b t with
      | (Ok out, t') => let '(outs, t'') := apply_all rest t' in (out :: outs, t'')
      | (Err _, t') => apply_all rest t'
      end
  end.
Definition summed (f : CounterDeltaBatch -> Z) (outs : list CounterDeltaBatch) : Z :=
  foldr (fun o acc => f o + acc) 0 outs.

Lemma covers_absent m rs name :
  covers m rs -> bt_get name (pair_of <$> rs) = None -> bt_get name m = None.
Proof.
  intros Hcov Hg. destruct (bt_get name m) eqn:Hl; [|done]. exfalso.
  assert (name ∈ reading_name <$> rs) as Hk by (apply Hcov, bt_get_keys; by rewrite Hl).
  assert (is_Some (bt_get name (pair_of <$> rs))) as [x Hx]; [|by rewrite Hg in Hx].
  apply bt_get_keys. unfold bt_keys. by rewrite <- list_fmap_compose.
Qed.

(** No delta is negative: the subtractions of the source do not underflow. *)
Lemma deltas_nonneg m rs :
  (forall r, r ∈ rs -> regressed m r = false) ->
  Forall (fun d => 0 <= delta_upload d /\ 0 <= delta_download d) (delta_of m <$> rs).
Proof.
  intros Hreg. apply Forall_fmap, Forall_forall. intros r Hr. specialize (Hreg r Hr).
  unfold regressed in Hreg. apply orb_false_iff in Hreg as [?%Z.ltb_ge ?%Z.ltb_ge]. simpl. lia.
Qed.

Lemma step_telescopes b t out t' name :
  batch_wf b -> active_core_instance t = Some (batch_instance b) ->
  tracker_apply b t = (Ok out, t') ->
  active_core_instance t' = active_core_instance t
  /\ upload_for name out = (previous (last t') name).1 - (previous (last t) name).1
  /\ download_for name out = (previous (last t') name).2 - (previous (last t) name).2
  /\ deltas_degraded out = degraded_total t' - degraded_total t
  /\ 0 <= deltas_degraded out
  /\ Forall (fun d => 0 <= delta_upload d /\ 0 <= delta_download d) (deltas_counters out).
Proof.
  intros Hwf Hact Happ.
  destruct (same_instance_step b t Hwf Hact) as [(e & He & _)|(Hok & Hdeg & Hreg & Hcov)]; [congruence|].
  rewrite Hok in Happ. injection Happ as <- <-. simpl.
  pose proof (sum_for_delta (last t) name _ Hwf) as Hsum.
  assert (sum_for delta_upload name (delta_of (last t) <$> batch_counters b)
          = (previous (pair_of <$> batch_counters b) name).1 - (previous (last t) name).1
          /\ sum_for delta_download name (delta_of (last t) <$> batch_counters b)
             = (previous (pair_of <$> batch_counters b) name).2 - (previous (last t) name).2) as [Hu Hd].
  { unfold previous in *.
    destruct (bt_get name (pair_of <$> batch_counters b)) eqn:Hg; injection Hsum as Hu Hd; [done|].
    rewrite Hu, Hd, (covers_absent _ _ _ Hcov Hg). done. }
  split_and!; [done|exact Hu|exact Hd|lia|lia|by apply deltas_nonneg].
Qed.

(** The relation between the tracker before and after a run on one instance and
    what the run answered. *)
Lemma run_telescopes batches t outs t' name id :
  Forall built batches -> Forall (fun b => batch_instance b = id) batches ->
  active_core_instance t = Some id -> apply_all batches t = (outs, t') ->
  active_core_instance t' = Some id
  /\ summed (upload_for name) outs = (previous (last t') name).1 - (previous (last t) name).1
  /\ summed (download_for name) outs = (previous (last t') name).2 - (previous (last t) name).2
  /\ summed deltas_degraded outs = degraded_total t' - degraded_total t
  /\ Forall (fun out => Forall (fun d => 0 <= delta_upload d /\ 0 <= delta_download d)
                (deltas_counters out)) outs.
Proof.
  revert t outs. induction batches as [|b batches IH]; intros t outs Hb Hid Hact Hall; simpl in Hall.
  { injection Hall as <- <-. simpl. split_and!; try lia; done. }
  apply Forall_cons in Hb as [Hb Hbs], Hid as [Hid Hids]. apply batch_built_wf in Hb.
  destruct (tracker_apply b t) as [[out|e] t1] eqn:Happ.
  - destruct (apply_all batches t1) as [outs' t2] eqn:Hrest. injection Hall as <- <-.
    subst id. destruct (step_telescopes _ _ _ _ name Hb Hact Happ) as (Ha & Hu & Hd & Hg & _ & Hn).
    destruct (IH t1 outs' Hbs Hids) as (Ha' & Hu' & Hd' & Hg' & Hn'); [congruence|done|].
    simpl. split_and!; [done|lia|lia|lia|by constructor].
  - assert (t1 = t) as ->; [|by eapply IH]. rewrite <- Hid in Hact.
    destruct (same_instance_step b t Hb Hact) as [(e' & He & _)|(Hok & _)]; congruence.
Qed.

(** Traffic is accounted exactly once.  From the batch that starts a core
    instance on, and however many batches of that instance are refused in between,
    the deltas handed out for a counter add up to its latest accepted reading minus
    the reading of the first batch (nothing of the baseline, no byte twice), the
    same holds of the degradation count, and no delta is negative. *)
Theorem stats_telescoping b0 t0 batches outs t name :
  built b0 -> Forall built batches ->
  active_core_instance t0 <> Some (batch_instance b0) ->
  Forall (fun b => batch_instance b = batch_instance b0) batches ->
  apply_all (b0 :: batches) t0 = (outs, t) ->
  summed (upload_for name) outs
    = (previous (last t) name).1 - (previous (pair_of <$> batch_counters b0) name).1
  /\ summed (download_for name) outs
    = (previous (last t) name).2 - (previous (pair_of <$> batch_counters b0) name).2
  /\ summed deltas_degraded outs = degraded_total t - batch_degraded b0
  /\ Forall (fun out => Forall (fun d => 0 <= delta_upload d /\ 0 <= delta_download d)
                (deltas_counters out)) outs.
Proof.
  intros Hb0 Hbs Hnew Hids Hall. simpl in Hall.
  unfold tracker_apply in Hall at 1. rewrite bool_decide_false in Hall by done. simpl in Hall.
  pose proof (proj1 (collect_readings _ (batch_built_wf _ Hb0))) as Hc. unfold pair_of in Hc at 1.
  rewrite Hc in Hall.
  destruct (apply_all batches _) as [outs' t'] eqn:Hrest in Hall. injection Hall as <- <-.
  eapply (run_telescopes _ _ _ _ name) in Hrest as (_ & Hu & Hd & Hg & Hn); [|done..].
  split_and!; [exact Hu|exact Hd|exact Hg|by constructor].
Qed.

(** Three batches of one instance: a new counter appears, and one batch with a
    counter that went backwards is refused. *)
Definition sample_batch (degraded : Z) (cs : list CounterReading) : CounterBatch :=
  mkBatch "core-1" degraded cs.
Definition sample_batches : list CounterBatch :=
  [sample_batch 3 [mkReading InboundTun 150 70; mkReading (Terminal "hk") 20 10];
   sample_batch 3 [mkReading InboundTun 120 90; mkReading (Terminal "hk") 30 30];
   sample_batch 4 [mkReading InboundTun 180 90; mkReading (Terminal "hk") 50 40]].

Lemma sample_built degraded cs :
  CounterBatch_new "core-1" degraded cs = Ok (sample_batch degraded cs) -> built (sample_batch degraded cs).
Proof. intros H. by exists "core-1", degraded, cs. Qed.

Lemma stats_telescoping_witness :
  let outs := (apply_all (sample_batch 1 [mkReading InboundTun 100 50] :: sample_batches)
                 CounterDeltaTracker_default).1 in
  length outs = 3%nat /\ summed (upload_for InboundTun) outs = 80
  /\ summed (upload_for (Terminal "hk")) outs = 50.
Proof.
  split; [vm_compute; reflexivity|].
  destruct (apply_all (sample_batch 1 [mkReading InboundTun 100 50] :: sample_batches)
              CounterDeltaTracker_default) as [outs t] eqn:E.
  assert (forall name, summed (upload_for name) outs
            = (previous (last t) name).1 - (previous (pair_of <$> [mkReading InboundTun 100 50]) name).1) as H.
  { intros name. refine (proj1 (stats_telescoping _ _ _ _ _ name _ _ _ _ E)).
    - apply sample_built. vm_compute. reflexivity.
    - repeat apply List.Forall_cons; try apply List.Forall_nil; apply sample_built; vm_compute; reflexivity.
    - done.
    - repeat constructor. }
  simpl. rewrite !H. vm_compute in E. injection E as _ <-. vm_compute. done.
Defined.
