(* ===== verification/EventLog.v ===== *)
(** * EventLog: the structured log behind the event hub

    Models [FileEventLog], [controlled_log_paths], [log_channel_for_event] and
    [redact_sensitive] of crates/nethopd/src/events.rs, with the event kinds and log
    channels of crates/nethop-protocol/src/lib.rs.

    The log directory is a [Directory], its entries in the order the system lists
    them.  The clock, the outcome of opening and of writing a file are arguments
    ([LogIo]); the JSON encoders and decoders are parameters.  [File::flush] does
    nothing for an unbuffered file. *)

From S2P Require Import Prelude Text Ordering BTreeMap Json.

Local Open Scope Z_scope.

Definition MAX_LOG_LINE_BYTES : Z := 16 * 1024.
Definition MAX_LOG_FILE_BYTES : Z := 4 * 1024 * 1024.
Definition MAX_LOG_HISTORY_ITEMS : Z := 128.
Definition MAX_LOG_HISTORY_FILES : nat := 32.
Definition MAX_LOG_HISTORY_BYTES : Z := 256 * 1024.
Definition SECONDS_PER_DAY : Z := 24 * 60 * 60.
Definition MAX_LISTED_ENTRIES : nat := Z.to_nat 1024.

Inductive EventError : Type := InvalidPolicy | InvalidLogDirectory | Busy | Unavailable.

Inductive EventKind : Type :=
| Config | Runtime | Subscription | Generation | Network | Traffic | SubscriptionMode
| SubscriptionActiveSet | NodeSelection | NodeActive | NodeTest.
#[export] Instance EventKind_eq_dec : EqDecision EventKind.
Proof. solve_decision. Defined.
Inductive LogChannel : Type := ChService | ChSubscription | ChCore.
#[export] Instance LogChannel_eq_dec : EqDecision LogChannel.
Proof. solve_decision. Defined.

(** The names serde gives them ([rename_all = "snake_case"]). *)
Definition all_kinds : list EventKind :=
  [Config; Runtime; Subscription; Generation; Network; Traffic; SubscriptionMode;
   SubscriptionActiveSet; NodeSelection; NodeActive; NodeTest].
Definition kind_name (k : EventKind) : string :=
  match k with
  | Config => "config"
  | Runtime => "runtime"
  | Subscription => "subscription"
  | Generation => "generation"
  | Network => "network"
  | Traffic => "traffic"
  | SubscriptionMode => "subscription_mode"
  | SubscriptionActiveSet => "subscription_active_set"
  | NodeSelection => "node_selection"
  | NodeActive => "node_active"
  | NodeTest => "node_test"
  end.
Definition channel_name (c : LogChannel) : string :=
  match c with ChService => "service" | ChSubscription => "subscription" | ChCore => "core" end.
Definition kind_of_name (s : string) : option EventKind :=
  List.find (fun k => String.eqb (kind_name k) s) all_kinds.

Definition log_channel_for_event (k : EventKind) : option LogChannel :=
  match k with
  | Subscription | SubscriptionMode | SubscriptionActiveSet => Some ChSubscription
  | Runtime | Generation | NodeSelection | NodeActive | NodeTest => Some ChCore
  | Config | Network => Some ChService
  | Traffic => None
  end.

(** ** Redaction *)
Definition sensitive_keys : list string :=
  ["url"; "password"; "secret"; "token"; "uuid"; "authorization"].
Definition is_sensitive (key : string) : bool :=
  existsb (String.eqb (lowercase key)) sensitive_keys.

Fixpoint redact_sensitive (v : Json) : Json :=
  match v with
  | JObject fields =>
      JObject (map (fun kv => (kv.1, if is_sensitive kv.1 then JString "[REDACTED]"
                                     else redact_sensitive kv.2)) fields)
  | JArray l => JArray (map redact_sensitive l)
  | _ => v
  end.

(** ** The directory *)
Inductive LogEntry : Type :=
| RegularFile (contents : list Z) (readable : bool)
| Symlink
| Subdirectory
| NoMetadata.
Abbreviation Directory := (list (string * LogEntry)%type) (only parsing).

(** [Path::extension] of a file name: what follows the last dot, unless the name
    has none or starts with its only one. *)
Definition extension_is_log (name : string) : bool :=
  match reverse (split_on 46 (bytes name)) with
  | last :: ((_ :: _) as before) =>
      bool_decide (last = bytes "log") && negb (bool_decide (before = [[]]))
  | _ => false
  end.

Fixpoint controlled_paths_loop (entries : list (string * LogEntry)) (paths : list string) :
    Result EventError (list string) :=
  match entries with
  | [] => Ok paths
  | (name, entry) :: rest =>
      if negb (extension_is_log name) then controlled_paths_loop rest paths
      else
        match entry with
        | NoMetadata => Err Unavailable
        | RegularFile _ _ => controlled_paths_loop rest (paths ++ [name])
        | _ => controlled_paths_loop rest paths
        end
  end.

(** [listing] is [None] when the directory cannot be read. *)
Definition controlled_log_paths (listing : option Directory) : Result EventError (list string) :=
  match listing with
  | None => Err Unavailable
  | Some entries => controlled_paths_loop (take MAX_LISTED_ENTRIES entries) []
  end.

Definition lookup_entry (name : string) (d : Directory) : option LogEntry :=
  snd <$> List.find (fun e => String.eqb (fst e) name) d.

Definition open_private_read (name : string) (d : Directory) : Result EventError (list Z) :=
  match lookup_entry name d with
  | Some (RegularFile contents true) => Ok contents
  | _ => Err Unavailable
  end.

(** ** Writing *)
Record FileEventLog : Type := mkLog {
  log_day : option Z;
  log_file : option string;
  log_bytes : Z;
}.
(** [is_directory] is [None] when the path has no metadata. *)
Definition FileEventLog_new (is_absolute : bool) (is_directory : option bool) :
    Result EventError FileEventLog :=
  if negb is_absolute then Err InvalidLogDirectory
  else
    match is_directory with
    | Some true => Ok (mkLog None None 0)
    | _ => Err InvalidLogDirectory
    end.

(** The seconds since the epoch ([None]: the clock is before it), whether opening
    succeeds, and after how many bytes a write fails ([None]: it does not). *)
Record LogIo : Type := mkIo {
  io_now : option Z;
  io_open : bool;
  io_write_fails : option nat;
}.

(** [format!("events-{day:010}.log")]. *)
Definition zero_padded (width : nat) (digits : list Z) : list Z :=
  replicate (width - length digits) 48 ++ digits.
Definition log_name (day : Z) : string :=
  "events-" +:+ of_bytes (zero_padded 10 (print_u64 day)) +:+ ".log".

Fixpoint update_entry (name : string) (entry : LogEntry) (d : Directory) : Directory :=
  match d with
  | [] => [(name, entry)]
  | (n, e) :: rest =>
      if String.eqb n name then (n, entry) :: rest else (n, e) :: update_entry name entry rest
  end.

Definition open_private_append (io : LogIo) (name : string) (d : Directory) :
    Result EventError Z * Directory :=
  match lookup_entry name d with
  | Some NoMetadata => (Err Unavailable, d)
  | Some Symlink | Some Subdirectory => (Err InvalidLogDirectory, d)
  | Some (RegularFile contents _) =>
      if io_open io then (Ok (len contents), d) else (Err Unavailable, d)
  | None =>
      if io_open io then (Ok 0, update_entry name (RegularFile [] true) d) else (Err Unavailable, d)
  end.

(** [write_all] on the open file: all bytes, or some of them and an error. *)
Definition append_file (io : LogIo) (name : string) (line : list Z) (d : Directory) :
    Result EventError unit * Directory :=
  match lookup_entry name d with
  | Some (RegularFile contents readable) =>
      match io_write_fails io with
      | None => (Ok tt, update_entry name (RegularFile (contents ++ line) readable) d)
      | Some k => (Err Unavailable, update_entry name (RegularFile (contents ++ take k line) readable) d)
      end
  | _ => (Err Unavailable, d)
  end.

Section log.
Context (to_vec : Json -> option (list Z)) (to_string : Json -> option string)
  (from_slice : list Z -> option Json).

Definition log_line (sequence : Z) (kind : EventKind) (payload : Json) : Json :=
  JObject [("kind", JString (kind_name kind)); ("payload", payload);
           ("seq", JNumber (of_bytes (print_u64 sequence)))].

(** The part of [write] after the day's file is open. *)
Definition write_line (io : LogIo) (sequence : Z) (kind : EventKind) (payload : Json) :
    Mut (FileEventLog * Directory) EventError unit := fun '(log, d) =>
  if MAX_LOG_FILE_BYTES <=? log_bytes log then (Ok tt, (log, d))
  else
    match to_vec (log_line sequence kind payload) with
    | None => (Err Unavailable, (log, d))
    | Some text =>
        let line := text ++ [10] in
        if (MAX_LOG_LINE_BYTES <? len line)
           || (MAX_LOG_FILE_BYTES <? sat_add_u 64 (log_bytes log) (len line))
        then (Ok tt, (log, d))
        else
          match log_file log with
          | None => (Err Unavailable, (log, d))
          | Some name =>
              match append_file io name line d with
              | (Err e, d') => (Err e, (log, d'))
              | (Ok _, d') => (Ok tt, (mkLog (log_day log) (log_file log) (log_bytes log + len line), d'))
              end
          end
    end.

Definition log_write (io : LogIo) (sequence : Z) (kind : EventKind) (payload : Json) :
    Mut (FileEventLog * Directory) EventError unit := fun '(log, d) =>
  match io_now io with
  | None => (Err Unavailable, (log, d))
  | Some seconds =>
      let day := seconds / SECONDS_PER_DAY in
      if bool_decide (log_day log = Some day) then write_line io sequence kind payload (log, d)
      else
        match open_private_append io (log_name day) d with
        | (Err e, d') => (Err e, (log, d'))
        | (Ok size, d') =>
            write_line io sequence kind payload (mkLog (Some day) (Some (log_name day)) size, d')
        end
  end.

(** ** Reading *)

(** [value.get("kind")] as an event kind, and its channel. *)
Definition entry_channel (v : Json) : option LogChannel :=
  match v with
  | JObject fields =>
      match json_get "kind" fields with
      | Some (JString s) => kind_of_name s ≫= log_channel_for_event
      | _ => None
      end
  | _ => None
  end.

(** What [history] makes of a line it keeps. *)
Definition presented (v : Json) (c : LogChannel) : Json :=
  let redacted := redact_sensitive v in
  let raw := default "" (to_string redacted) in
  match redacted with
  | JObject fields =>
      JObject (bt_insert "raw" (JString raw) (bt_insert "channel" (JString (channel_name c)) fields))
  | other => other
  end.

(** The loop over the lines of a file, newest first; the flag says that the whole
    call returns. *)
Fixpoint scan_lines (channel : option LogChannel) (limit : Z) (lines : list (list Z))
    (history : list Json) (retained : Z) : bool * list Json * Z :=
  match lines with
  | [] => (false, history, retained)
  | line :: rest =>
      if (len line =? 0) || (MAX_LOG_LINE_BYTES <? len line)
      then scan_lines channel limit rest history retained
      else if MAX_LOG_HISTORY_BYTES <? sat_add_u 64 retained (len line)
      then (true, history, retained)
      else
        match from_slice line with
        | None => scan_lines channel limit rest history retained
        | Some v =>
            if negb (is_object v) then scan_lines channel limit rest history retained
            else
              match entry_channel v with
              | None => scan_lines channel limit rest history retained
              | Some c =>
                  if match channel with Some r => negb (bool_decide (r = c)) | None => false end
                  then scan_lines channel limit rest history retained
                  else
                    let history' := history ++ [presented v c] in
                    let retained' := retained + len line in
                    if len history' =? limit then (true, history', retained')
                    else scan_lines channel limit rest history' retained'
              end
        end
  end.

Fixpoint scan_files (channel : option LogChannel) (limit : Z) (d : Directory)
    (paths : list string) (history : list Json) (retained : Z) : Result EventError (list Json) :=
  match paths with
  | [] => Ok history
  | path :: rest =>
      match open_private_read path d with
      | Err e => Err e
      | Ok contents =>
          if MAX_LOG_FILE_BYTES <? len contents then scan_files channel limit d rest history retained
          else
            match scan_lines channel limit (reverse (split_on 10 contents)) history retained with
            | (true, history', _) => Ok history'
            | (false, history', retained') => scan_files channel limit d rest history' retained'
            end
      end
  end.

Definition log_history (channel : option LogChannel) (limit : Z) (listing : option Directory) :
    Result EventError (list Json) :=
  paths ← controlled_log_paths listing;
  scan_files channel limit (default [] listing)
    (take MAX_LOG_HISTORY_FILES (reverse (sort paths))) [] 0.

(** [EventHub::structured_log_history] on the installed log. *)
Definition structured_log_history (installed : option FileEventLog) (channel : option LogChannel)
    (limit : Z) (listing : option Directory) : Result EventError (list Json) :=
  if (limit =? 0) || (MAX_LOG_HISTORY_ITEMS <? limit) then Err InvalidPolicy
  else
    match installed with
    | None => Err Unavailable
    | Some _ => log_history channel limit listing
    end.
End log.

(** ** Clearing: [removable name] tells whether [remove_file] succeeds. *)
Definition remove_entry (name : string) (d : Directory) : Directory :=
  filter (fun e => negb (String.eqb e.1 name)) d.

Fixpoint clear_loop (removable : string -> bool) (paths : list string) (removed : Z)
    (d : Directory) : Result EventError Z * Directory :=
  match paths with
  | [] => (Ok removed, d)
  | path :: rest =>
      if removable path then clear_loop removable rest (removed + 1) (remove_entry path d)
      else (Err Unavailable, d)
  end.

Definition log_clear (removable : string -> bool) (read_dir_ok : bool) :
    Mut (FileEventLog * Directory) EventError Z := fun '(_, d) =>
  let log := mkLog None None 0 in
  match controlled_log_paths (if read_dir_ok then Some d else None) with
  | Err e => (Err e, (log, d))
  | Ok paths => let '(r, d') := clear_loop removable paths 0 d in (r, (log, d'))
  end.

(** ** Redaction is exact *)

(** No value under a sensitive key but the placeholder, at any depth. *)
Definition is_placeholder (v : Json) : bool :=
  match v with JString s => String.eqb s "[REDACTED]" | _ => false end.
Fixpoint clean (v : Json) : bool :=
  match v with
  | JObject fields =>
      forallb (fun kv => if is_sensitive kv.1 then is_placeholder kv.2 else clean kv.2) fields
  | JArray l => forallb clean l
  | _ => true
  end.

Lemma redact_clean v : clean (redact_sensitive v) = true.
Proof.
  induction v as [| | | |l IH|fields IH] using Json_rect'; try done; simpl.
  - rewrite forallb_forall. intros x Hx. apply in_map_iff in Hx as (y & <- & Hy).
    rewrite List.Forall_forall in IH. by apply IH.
  - rewrite forallb_forall. intros x Hx. apply in_map_iff in Hx as ([k y] & <- & Hy). simpl.
    destruct (is_sensitive k); [done|]. rewrite List.Forall_forall in IH. exact (IH _ Hy).
Qed.

Lemma clean_redact v : clean v = true -> redact_sensitive v = v.
Proof.
  induction v as [| | | |l IH|fields IH] using Json_rect'; try done; simpl; intros Hc; f_equal.
  - rewrite List.Forall_forall in IH. rewrite forallb_forall in Hc.
    rewrite <- (map_id l) at 2. apply map_ext_in. auto.
  - rewrite List.Forall_forall in IH. rewrite forallb_forall in Hc.
    rewrite <- (map_id fields) at 2. apply map_ext_in. intros [k v] Hin.
    specialize (Hc _ Hin). specialize (IH _ Hin). simpl in *. f_equal.
    destruct (is_sensitive k); [|auto]. destruct v as [| | |t| |]; try done. simpl in Hc.
    apply String.eqb_eq in Hc. by subst.
Qed.

(** The value at a path of keys and indices. *)
Inductive Step : Type := Key (k : string) | Index (i : nat).
Definition get_step (s : Step) (v : Json) : option Json :=
  match s, v with
  | Key k, JObject fields => json_get k fields
  | Index i, JArray l => l !! i
  | _, _ => None
  end.
Fixpoint get_path (path : list Step) (v : Json) : option Json :=
  match path with
  | [] => Some v
  | s :: rest => get_step s v ≫= get_path rest
  end.
Definition step_sensitive (s : Step) : bool :=
  match s with Key k => is_sensitive k | Index _ => false end.

Lemma json_get_map (f : string * Json -> Json) k fields :
  json_get k (map (fun kv => (kv.1, f kv)) fields)
  = (fun v => f (k, v)) <$> json_get k fields.
Proof.
  unfold json_get. induction fields as [|[k' v] rest IH]; [done|]. simpl.
  destruct (String.eqb_spec k' k) as [->|]; [done|exact IH].
Qed.

Lemma get_step_redact s v :
  get_step s (redact_sensitive v)
  = (if step_sensitive s then fun _ => JString "[REDACTED]" else redact_sensitive) <$> get_step s v.
Proof.
  destruct s as [k|i], v as [| | | |l|fields]; try done; simpl.
  - rewrite (json_get_map (fun kv => if is_sensitive kv.1 then _ else redact_sensitive kv.2)).
    simpl. by destruct (is_sensitive k), (json_get k fields).
  - change (map redact_sensitive l) with (redact_sensitive <$> l). apply list_lookup_fmap.
Qed.

(** ** The history *)
Section history.
Context (to_string : Json -> option string) (from_slice : list Z -> option Json).

(** What a line contributes when there is room. *)
Definition shown (channel : option LogChannel) (line : list Z) : option Json :=
  if (len line =? 0) || (MAX_LOG_LINE_BYTES <? len line) then None
  else
    v ← from_slice line;
    c ← entry_channel v;
    if match channel with Some r => negb (bool_decide (r = c)) | None => false end then None
    else Some (presented to_string v c).

(** The lines of the files looked at, newest first. *)
Definition file_lines (d : Directory) (path : string) : list (list Z) :=
  match open_private_read path d with
  | Ok contents =>
      if MAX_LOG_FILE_BYTES <? len contents then [] else reverse (split_on 10 contents)
  | Err _ => []
  end.

Lemma entry_channel_object v c : entry_channel v = Some c -> is_object v = true.
Proof. by destruct v. Qed.

Lemma scan_lines_cons channel limit line rest history retained :
  scan_lines to_string from_slice channel limit (line :: rest) history retained
  = if (len line =? 0) || (MAX_LOG_LINE_BYTES <? len line)
    then scan_lines to_string from_slice channel limit rest history retained
    else if MAX_LOG_HISTORY_BYTES <? sat_add_u 64 retained (len line) then (true, history, retained)
    else
      match shown channel line with
      | None => scan_lines to_string from_slice channel limit rest history retained
      | Some x =>
          if len (history ++ [x]) =? limit then (true, history ++ [x], retained + len line)
          else scan_lines to_string from_slice channel limit rest (history ++ [x]) (retained + len line)
      end.
Proof.
  cbn [scan_lines]. unfold shown. destruct (_ || _) eqn:Hskip; [done|].
  destruct (MAX_LOG_HISTORY_BYTES <? _); [done|].
  destruct (from_slice line) as [v|]; [|done]. simpl.
  destruct (entry_channel v) as [c|] eqn:Hc; simpl; [|by destruct (is_object v)].
  rewrite (entry_channel_object v c Hc). simpl.
  destruct channel as [r|]; [destruct (negb _)|]; done.
Qed.

(** The lines that are shown, with what they show, and the bytes they use. *)
Definition weighed (channel : option LogChannel) (line : list Z) : option (Z * Json) :=
  (fun x => (len line, x)) <$> shown channel line.
Definition used (kept : list (Z * Json)) : Z := foldr (fun kv acc => kv.1 + acc) 0 kept.

Lemma used_app a b : used (a ++ b) = used a + used b.
Proof. induction a as [|x a IH]; [done|]. simpl. unfold used in *. simpl. lia. Qed.

(** The reasons to stop before the last line. *)
Definition full (limit retained : Z) (kept : list (Z * Json)) (start : Z) (lines : list (list Z)) : Prop :=
  start + len kept = limit
  \/ exists line, line ∈ lines /\ MAX_LOG_HISTORY_BYTES < sat_add_u 64 (retained + used kept) (len line).

Lemma full_weaken limit retained kept start lines lines' :
  lines ⊆ lines' -> full limit retained kept start lines -> full limit retained kept start lines'.
Proof. intros Hsub [?|(l & ? & ?)]; [by left|right; exists l; auto]. Qed.

Lemma full_cons limit retained n x kept start lines :
  full limit (retained + n) kept (start + 1) lines -> full limit retained ((n, x) :: kept) start lines.
Proof.
  intros [H|(l & Hl & H)]; [left|right; exists l].
  - unfold len in *. simpl. lia.
  - split; [done|]. simpl. unfold used in *. simpl. by rewrite Z.add_assoc.
Qed.

Lemma scan_lines_prefix channel limit lines history retained stop history' retained' :
  len history < limit ->
  scan_lines to_string from_slice channel limit lines history retained = (stop, history', retained') ->
  exists kept, history' = history ++ kept.*2 /\ retained' = retained + used kept
    /\ kept `prefix_of` omap (weighed channel) lines
    /\ len history' <= limit
    /\ (if stop then full limit retained kept (len history) lines
        else kept = omap (weighed channel) lines /\ len history' < limit).
Proof.
  revert history retained. induction lines as [|line lines IH]; intros history retained Hlim.
  { intros [= <- <- <-]. exists []. rewrite app_nil_r. split_and!; [done|unfold used; simpl; lia|done|lia|done|done]. }
  rewrite scan_lines_cons. cbn [omap list_omap].
  assert (forall h, scan_lines to_string from_slice channel limit lines history retained = h ->
    h = (stop, history', retained') -> exists kept, history' = history ++ kept.*2
    /\ retained' = retained + used kept /\ kept `prefix_of` omap (weighed channel) lines
    /\ len history' <= limit
    /\ (if stop then full limit retained kept (len history) (line :: lines)
        else kept = omap (weighed channel) lines /\ len history' < limit)) as Hnext.
  { intros h <- H. destruct (IH _ _ Hlim H) as (kept & ? & ? & ? & ? & Hend). exists kept.
    split_and!; try done. destruct stop; [|done]. eapply full_weaken; [|done]. set_solver. }
  destruct ((len line =? 0) || (MAX_LOG_LINE_BYTES <? len line)) eqn:Hskip.
  { replace (weighed channel line) with (@None (Z * Json)) by (unfold weighed, shown; by rewrite Hskip).
    by apply Hnext. }
  destruct (Z.ltb_spec MAX_LOG_HISTORY_BYTES (sat_add_u 64 retained (len line))) as [Hb|Hb].
  { intros [= <- <- <-]. exists []. rewrite app_nil_r.
    split_and!; [done|unfold used; simpl; lia|apply prefix_nil|lia|]. right. exists line.
    split; [set_solver|]. unfold used. simpl. by rewrite Z.add_0_r. }
  destruct (weighed channel line) as [[n x]|] eqn:Hw; unfold weighed in Hw;
    destruct (shown channel line) as [y|]; simplify_eq/=; [|by apply Hnext].
  assert (len (history ++ [x]) = len history + 1) as Hl by (unfold len; rewrite length_app; simpl; lia).
  destruct (Z.eqb_spec (len (history ++ [x])) limit) as [He|Hne].
  { intros [= <- <- <-]. exists [(len line, x)].
    split_and!; [done|unfold used; simpl; lia|by exists (omap (weighed channel) lines)|lia|].
    left. unfold len in *. simpl. lia. }
  intros H. apply IH in H as (kept & -> & -> & Hpre & Hle & Hend); [|lia].
  exists ((len line, x) :: kept). rewrite <- (assoc_L (++)) in Hle, Hend |- *.
  split_and!; [done|unfold used; simpl; lia|by apply prefix_cons|done|].
  destruct stop; [|by destruct Hend as [-> ?]]. rewrite Hl in Hend.
  apply full_cons. eapply full_weaken; [|exact Hend]. set_solver.
Qed.

Lemma scan_files_prefix channel limit d paths history retained h :
  len history < limit ->
  scan_files to_string from_slice channel limit d paths history retained = Ok h ->
  exists kept, h = history ++ kept.*2
    /\ kept `prefix_of` omap (weighed channel) (mjoin (file_lines d <$> paths))
    /\ len h <= limit
    /\ (kept = omap (weighed channel) (mjoin (file_lines d <$> paths))
        \/ full limit retained kept (len history) (mjoin (file_lines d <$> paths))).
Proof.
  revert history retained. induction paths as [|path paths IH]; intros history retained Hlim; simpl.
  { intros [= <-]. exists []. rewrite app_nil_r. split_and!; [done|done|lia|by left]. }
  assert (file_lines d path = match open_private_read path d with
    | Ok contents => if MAX_LOG_FILE_BYTES <? len contents then [] else reverse (split_on 10 contents)
    | Err _ => [] end) as -> by done.
  destruct (open_private_read path d) as [contents|e]; [|done].
  destruct (MAX_LOG_FILE_BYTES <? len contents); [by apply IH|].
  destruct (scan_lines _ _ _ _ _ _ _) as [[stop h1] r1] eqn:Hscan.
  apply scan_lines_prefix in Hscan as (kept & -> & -> & Hpre & Hle & Hend); [|done].
  rewrite omap_app. destruct stop.
  - intros [= <-]. exists kept. split_and!; [done|by apply prefix_app_r|done|]. right.
    eapply full_weaken; [|exact Hend]. set_solver.
  - destruct Hend as [-> Hlt]. intros H. apply IH in H as (kept & -> & Hpre' & Hle' & Hend); [|done].
    eexists (_ ++ kept). rewrite fmap_app, (assoc_L (++)).
    split_and!; [done|by apply prefix_app|done|]. destruct Hend as [->|Hfull]; [by left|right].
    destruct Hfull as [Hn|(l & Hl & Hu)]; [left|right; exists l].
    + unfold len in *. rewrite !length_app, !length_fmap in *. lia.
    + split; [set_solver|]. by rewrite used_app, Z.add_assoc.
Qed.
End history.

Lemma bt_insert_forallb (f : string * Json -> bool) k v (m : BTreeMap string Json) :
  forallb f m = true -> f (k, v) = true ->
  forallb f (bt_insert k v m) = true.
Proof.
  intros Hm Hk. induction m as [|[k' v'] m IH]; cbn [bt_insert forallb] in *; [by rewrite Hk|].
  apply andb_true_iff in Hm as [Hf Hm]. specialize (IH Hm).
  destruct (cmp k k') eqn:Hc; cbn [forallb].
  - apply cmp_eq in Hc as <-. by rewrite Hk, Hm.
  - by rewrite Hk, Hf, Hm.
  - by rewrite Hf, IH.
Qed.

Lemma json_get_bt_insert k k' v (m : BTreeMap string Json) :
  json_get k (bt_insert k' v m) = if String.eqb k' k then Some v else json_get k m.
Proof.
  unfold json_get. induction m as [|[k1 v1] m IH]; cbn [bt_insert].
  { simpl. by destruct (String.eqb k' k). }
  destruct (cmp k' k1) eqn:Hc; simpl.
  - apply cmp_eq in Hc as <-. by destruct (String.eqb k' k).
  - by destruct (String.eqb k' k).
  - destruct (String.eqb_spec k1 k) as [->|]; [|exact IH].
    destruct (String.eqb_spec k' k) as [->|]; [|done]. by rewrite cmp_refl in Hc.
Qed.

Lemma presented_facts to_string v c :
  is_object v = true ->
  clean (presented to_string v c) = true
  /\ get_path [Key "channel"] (presented to_string v c) = Some (JString (channel_name c)).
Proof.
  destruct v as [| | | | |fields]; try done. intros _.
  pose proof (redact_clean (JObject fields)) as Hc. unfold presented.
  destruct (redact_sensitive (JObject fields)) as [| | | | |fields'] eqn:Hr; try done.
  split.
  - cbn [clean] in *. apply bt_insert_forallb; [apply bt_insert_forallb; [exact Hc|]|]; reflexivity.
  - cbn [get_path get_step]. rewrite !json_get_bt_insert. reflexivity.
Qed.

Lemma shown_facts to_string from_slice channel line n v :
  weighed to_string from_slice channel line = Some (n, v) ->
  clean v = true
  /\ exists c, get_path [Key "channel"] v = Some (JString (channel_name c))
     /\ (channel = None \/ channel = Some c).
Proof.
  unfold weighed, shown. split_if H1; [done|]. destruct (from_slice line) as [w|]; [|done]. simpl.
  destruct (entry_channel w) as [c|] eqn:Hc; [|done]. simpl.
  destruct (presented_facts to_string w c (entry_channel_object w c Hc)) as [Hclean Hch].
  destruct channel as [r|]; [case_bool_decide as Hr|]; simpl; intros [= _ <-];
    (split; [exact Hclean|]); exists c; (split; [exact Hch|]); [right; by f_equal|by left].
Qed.

(** Redaction is exact.  Whatever the value, no secret is left under a sensitive
    key at any depth; a value on a path without sensitive keys is where it was, with
    its own contents redacted; a value under a sensitive key is the placeholder; and
    redacting twice changes nothing more. *)
Theorem redaction_exact v :
  clean (redact_sensitive v) = true
  /\ redact_sensitive (redact_sensitive v) = redact_sensitive v
  /\ forall path, existsb step_sensitive path = false ->
     get_path path (redact_sensitive v) = redact_sensitive <$> get_path path v
     /\ forall s, step_sensitive s = true ->
        get_path (path ++ [s]) (redact_sensitive v)
        = (fun _ => JString "[REDACTED]") <$> get_path (path ++ [s]) v.
Proof.
  split; [apply redact_clean|]. split; [apply clean_redact, redact_clean|].
  intros path. revert v. induction path as [|s path IH]; intros v Hp.
  - split; [done|]. intros s Hs. cbn [app get_path]. rewrite get_step_redact, Hs.
    by destruct (get_step s v).
  - cbn [existsb] in Hp. apply orb_false_iff in Hp as [Hs Hp]. cbn [app get_path].
    rewrite get_step_redact, Hs. destruct (get_step s v) as [w|]; [exact (IH w Hp)|done].
Qed.

Lemma redaction_exact_witness :
  let v := JObject [("a", JObject [("Token", JString "t"); ("n", JString "x")])] in
  get_path [Key "a"; Key "n"] (redact_sensitive v) = Some (JString "x")
  /\ get_path [Key "a"; Key "Token"] (redact_sensitive v) = Some (JString "[REDACTED]").
Proof.
  intros v. split.
  - rewrite (proj1 (proj2 (proj2 (redaction_exact v)) [Key "a"; Key "n"] eq_refl)). reflexivity.
  - exact (proj2 (proj2 (proj2 (redaction_exact v)) [Key "a"] eq_refl) (Key "Token") eq_refl).
Defined.

(** The log history is what it promises.  It reads the newest files first and
    each from its last line backwards, and returns the first entries of the
    requested channel in that order, at most [limit]; it stops early only at the
    limit or when the next line would exceed 256 KiB; every entry is redacted at
    every depth and labelled with its channel. *)
Theorem log_history_exact to_string from_slice log channel limit d h :
  is_uint 8 limit ->
  structured_log_history to_string from_slice (Some log) channel limit (Some d) = Ok h ->
  exists paths kept, controlled_log_paths (Some d) = Ok paths
    /\ let lines := mjoin (file_lines d <$> take MAX_LOG_HISTORY_FILES (reverse (sort paths))) in
       h = kept.*2
       /\ kept `prefix_of` omap (weighed to_string from_slice channel) lines
       /\ len h <= limit <= MAX_LOG_HISTORY_ITEMS
       /\ (kept = omap (weighed to_string from_slice channel) lines \/ full limit 0 kept 0 lines)
       /\ forall v, v ∈ h -> clean v = true
          /\ exists c, get_path [Key "channel"] v = Some (JString (channel_name c))
             /\ (channel = None \/ channel = Some c).
Proof.
  unfold structured_log_history. intros [Hlo _]. split_if Hlim; [done|]. unfold log_history.
  destruct (controlled_log_paths (Some d)) as [paths|e] eqn:Hp; [|done]. simpl. intros H.
  apply orb_false_iff in Hlim as [Hz%Z.eqb_neq Hm%Z.ltb_ge].
  apply scan_files_prefix in H as (kept & -> & Hpre & Hle & Hend); [|unfold len; simpl; lia].
  exists paths, kept. split; [done|]. simpl in *. split_and!; [done|done|lia|lia|done|].
  intros v Hv. apply list_elem_of_fmap in Hv as ([n w] & -> & Hw).
  assert ((n, w) ∈ omap (weighed to_string from_slice channel)
            (mjoin (file_lines d <$> take MAX_LOG_HISTORY_FILES (reverse (sort paths))))) as Hin.
  { destruct Hpre as [k ->]. set_solver. }
  apply list_elem_of_omap in Hin as (line & _ & Hshown). by eapply shown_facts.
Qed.

(** One readable log file with a secret in its first line, and an entry of another
    channel in its second. *)
Definition sample_line (s : string) : list Z := bytes s ++ [10].
Definition sample_from_slice (bs : list Z) : option Json :=
  if bool_decide (bs = bytes "runtime") then
    Some (JObject [("kind", JString "runtime"); ("token", JString "abc")])
  else if bool_decide (bs = bytes "network") then Some (JObject [("kind", JString "network")])
  else None.
Definition sample_directory : Directory :=
  [("events-0000000001.log",
    RegularFile (sample_line "runtime" ++ sample_line "network" ++ sample_line "noise") true);
   ("linked.log", Symlink); (".log", RegularFile (sample_line "network") true)].

Lemma log_history_exact_witness :
  exists h v, structured_log_history (fun _ => Some "raw") sample_from_slice (Some (mkLog None None 0))
              (Some ChCore) 8 (Some sample_directory) = Ok h
    /\ h = [v] /\ clean v = true /\ get_path [Key "token"] v = Some (JString "[REDACTED]").
Proof.
  destruct (structured_log_history (fun _ => Some "raw") sample_from_slice (Some (mkLog None None 0))
              (Some ChCore) 8 (Some sample_directory)) as [h|e] eqn:E; vm_compute in E; [|discriminate].
  injection E as <-. eexists _, _. split; [reflexivity|]. split; [reflexivity|]. split; [|reflexivity].
  destruct (log_history_exact (fun _ => Some "raw") sample_from_slice (mkLog None None 0)
              (Some ChCore) 8 sample_directory _ ltac:(by split) eq_refl)
    as (paths & kept & _ & _ & _ & _ & _ & Hall).
  apply Hall. set_solver.
Defined.

(** ** The log stays bounded *)
Inductive LogOp : Type :=
| Write (io : LogIo) (sequence : Z) (kind : EventKind) (payload : Json)
| Clear (removable : string -> bool) (read_dir_ok : bool).

Definition log_step (to_vec : Json -> option (list Z)) (st : FileEventLog * Directory) (op : LogOp) :
    FileEventLog * Directory :=
  match op with
  | Write io sequence kind payload => (log_write to_vec io sequence kind payload st).2
  | Clear removable ok => (log_clear removable ok st).2
  end.
Definition write_complete (op : LogOp) : Prop :=
  match op with Write io _ _ _ => io_write_fails io = None | Clear _ _ => True end.

Lemma lookup_update name name' entry d :
  lookup_entry name (update_entry name' entry d)
  = if String.eqb name' name then Some entry else lookup_entry name d.
Proof.
  unfold lookup_entry. induction d as [|[n e] d IH]; simpl.
  { by destruct (String.eqb name' name). }
  destruct (String.eqb_spec n name') as [->|Hne]; simpl.
  { by destruct (String.eqb name' name). }
  destruct (String.eqb_spec n name) as [->|]; [|exact IH].
  destruct (String.eqb_spec name' name) as [->|]; done.
Qed.

Lemma lookup_remove name name' d :
  lookup_entry name (remove_entry name' d) = if String.eqb name' name then None else lookup_entry name d.
Proof.
  unfold lookup_entry, remove_entry. induction d as [|[n e] d IH].
  { by destruct (String.eqb name' name). }
  rewrite filter_cons. case_decide as Hd; simpl in Hd.
  - rewrite negb_True, Is_true_true, String.eqb_eq in Hd. simpl.
    destruct (String.eqb_spec n name) as [->|]; [|exact IH].
    destruct (String.eqb_spec name' name) as [->|]; done.
  - rewrite negb_True, Is_true_true, String.eqb_eq in Hd. apply dec_stable in Hd as ->. rewrite IH. simpl.
    by destruct (String.eqb_spec name' name) as [->|].
Qed.

(** The open file is as long as the log thinks, and no file is both changed since
    [d0] and longer than the limit. *)
Record log_inv (d0 : Directory) (st : FileEventLog * Directory) : Prop := {
  inv_open : forall name, log_file st.1 = Some name ->
    exists c r, lookup_entry name st.2 = Some (RegularFile c r) /\ len c = log_bytes st.1;
  inv_size : forall name c r, lookup_entry name st.2 = Some (RegularFile c r) ->
    len c <= MAX_LOG_FILE_BYTES \/ lookup_entry name d0 = Some (RegularFile c r);
}.

Lemma write_line_inv to_vec io sequence kind payload d0 st :
  io_write_fails io = None -> log_inv d0 st ->
  log_inv d0 (write_line to_vec io sequence kind payload st).2.
Proof.
  intros Hio. destruct st as [log d]. intros [Hopen Hsize]. unfold write_line.
  split_if H1; [by split|]. destruct (to_vec _) as [text|]; [|by split].
  split_if H2; [by split|]. destruct (log_file log) as [name|] eqn:Hf; [|by split].
  simpl in Hopen. destruct (Hopen name Hf) as (c & r & Hc & Hl). unfold append_file. rewrite Hc, Hio. simpl.
  apply orb_false_iff in H2 as [_ H2%Z.ltb_ge]. unfold sat_add_u in H2.
  assert (len (c ++ text ++ [10]) = log_bytes log + len (text ++ [10])) as Hlen
    by (rewrite <- Hl; unfold len; rewrite length_app; lia).
  split; simpl.
  - intros name' Hn. simplify_eq. rewrite lookup_update, String.eqb_refl.
    by eexists _, _.
  - intros name' c' r' Hc'. rewrite lookup_update in Hc'. destruct (String.eqb name name'); [|eauto].
    injection Hc' as <- _. left. rewrite Hlen. unfold umax, MAX_LOG_FILE_BYTES in *. lia.
Qed.

#[local] Arguments write_line : simpl never.
Lemma log_step_inv to_vec d0 st op :
  write_complete op -> log_inv d0 st -> log_inv d0 (log_step to_vec st op).
Proof.
  destruct op as [io sequence kind payload|removable ok], st as [log d]; simpl.
  - intros Hio Hinv. unfold log_write. destruct (io_now io) as [seconds|]; [|done].
    case_bool_decide; [by apply write_line_inv|]. unfold open_private_append.
    destruct Hinv as [Hopen Hsize]; simpl in *.
    destruct (lookup_entry (log_name _) d) as [[c r| | |]|] eqn:Hl; simpl; try (by split).
    + destruct (io_open io); simpl; [|by split]. apply write_line_inv; [done|]. split; [|done]. simpl.
      intros name [= <-]. by eexists _, _.
    + destruct (io_open io); simpl; [|by split]. apply write_line_inv; [done|]. split; simpl.
      * intros name [= <-]. rewrite lookup_update, String.eqb_refl. by exists [], true.
      * intros name c r Hc. rewrite lookup_update in Hc. destruct (String.eqb _ _); [|eauto].
        injection Hc as <- _. left. done.
  - intros _ [_ Hsize]. unfold log_clear. destruct (controlled_log_paths _) as [paths|e]; simpl; [|by split].
    assert (forall paths n d', (forall name c r, lookup_entry name d' = Some (RegularFile c r) ->
              len c <= MAX_LOG_FILE_BYTES \/ lookup_entry name d0 = Some (RegularFile c r)) ->
            log_inv d0 (mkLog None None 0, (clear_loop removable paths n d').2)) as Hloop.
    { clear. intros paths. induction paths as [|p paths IH]; intros n d' Hd; simpl; [by split|].
      destruct (removable p); [|by split]. apply IH. intros name c r. rewrite lookup_remove.
      destruct (String.eqb p name); [done|]. apply Hd. }
    specialize (Hloop paths 0 d Hsize). by destruct (clear_loop removable paths 0 d).
Qed.

(** A log file never grows past 4 MiB: after any sequence of writes, day changes
    and clears, with opening failing at will, every file in the directory is within
    the limit or as it was before the log touched it. *)
Theorem log_files_bounded to_vec d0 ops log d :
  Forall write_complete ops ->
  fold_left (log_step to_vec) ops (mkLog None None 0, d0) = (log, d) ->
  forall name c r, lookup_entry name d = Some (RegularFile c r) ->
    len c <= MAX_LOG_FILE_BYTES \/ lookup_entry name d0 = Some (RegularFile c r).
Proof.
  intros Hops Hrun.
  assert (log_inv d0 (fold_left (log_step to_vec) ops (mkLog None None 0, d0))) as Hinv.
  { clear Hrun. assert (log_inv d0 (mkLog None None 0, d0)) as H0 by (split; [done|by right]).
    revert H0. generalize (mkLog None None 0, d0). induction Hops as [|op ops Hop _ IH]; intros st Hst; [done|].
    simpl. by apply IH, log_step_inv. }
  rewrite Hrun in Hinv. apply Hinv.
Qed.

Definition sample_io (day : Z) : LogIo := mkIo (Some (day * SECONDS_PER_DAY)) true None.
Definition sample_ops : list LogOp :=
  [Write (sample_io 1) 1 Config JNull; Write (sample_io 2) 2 Runtime JNull;
   Clear (fun _ => true) true; Write (sample_io 2) 3 Network JNull].

Lemma log_files_bounded_witness :
  let d := (fold_left (log_step (fun _ => Some (bytes "line"))) sample_ops
              (mkLog None None 0, sample_directory)).2 in
  lookup_entry "events-0000000002.log" d = Some (RegularFile (bytes "line" ++ [10]) true)
  /\ (len (bytes "line" ++ [10]) <= MAX_LOG_FILE_BYTES
      \/ lookup_entry "events-0000000002.log" sample_directory
         = Some (RegularFile (bytes "line" ++ [10]) true)).
Proof.
  assert (lookup_entry "events-0000000002.log"
            (fold_left (log_step (fun _ => Some (bytes "line"))) sample_ops
              (mkLog None None 0, sample_directory)).2
          = Some (RegularFile (bytes "line" ++ [10]) true)) as H by (vm_compute; reflexivity).
  split; [exact H|].
  eapply (log_files_bounded (fun _ => Some (bytes "line")) sample_directory sample_ops);
    [repeat constructor|apply surjective_pairing|exact H].
Defined.
