(* ===== verification/Events.v ===== *)
(** * Events: the hub that streams daemon events to its clients

    Models [EventHub] and [EventSubscription] of crates/nethopd/src/events.rs with
    [StreamFrame::item] of crates/nethop-protocol/src/lib.rs.  Publishing assigns
    sequence numbers and keeps the last [capacity] events in a ring; traffic and
    active-node updates only keep the latest value.  A subscription reads from its
    cursor on and is told to resynchronise when the ring has moved past it.

    The state is behind a mutex, so the operations interleave as whole steps;
    nothing panics while holding it, so it is never poisoned.  [next_frame] that has
    nothing to return waits on the condition variable and starts over: a poll that
    answers [None]. *)

From S2P Require Import Prelude Text Ordering BTreeMap Json EventLog.

Local Open Scope Z_scope.

Definition DEFAULT_CAPACITY : Z := 128.
Definition MAX_CAPACITY : Z := 1024.
Definition MAX_SUBSCRIBERS : Z := 4.

Record EventRecord : Type := mkEvent {
  sequence : Z;
  event_kind : EventKind;
  payload : Json;
}.
Record HubState : Type := mkHubState {
  next_sequence : Z;
  subscribers : Z;
  traffic_subscribers : Z;
  snapshot : Json;
  events : list EventRecord;
  latest_traffic : option EventRecord;
  latest_node_active : option EventRecord;
}.
(** [Shared], with the directory of its log. *)
Record EventHub : Type := mkHub {
  hub_state : HubState;
  capacity : Z;
  hub_log : option FileEventLog;
  hub_directory : Directory;
}.

Definition EventHub_new (initial : Json) (cap : Z) (d : Directory) : Result EventError EventHub :=
  if (cap =? 0) || (MAX_CAPACITY <? cap) || negb (is_object initial) then Err InvalidPolicy
  else Ok (mkHub (mkHubState 1 0 0 initial [] None None) cap None d).

Definition install_file_log (is_absolute : bool) (is_directory : option bool) (h : EventHub) :
    Result EventError unit * EventHub :=
  match FileEventLog_new is_absolute is_directory with
  | Err e => (Err e, h)
  | Ok log => (Ok tt, mkHub (hub_state h) (capacity h) (Some log) (hub_directory h))
  end.

(** [saturating_add(1).max(1)]. *)
Definition next_number (n : Z) : Z := Z.max (sat_add_u 64 n 1) 1.

(** The state change of [publish], without the log. *)
Definition publish_state (cap : Z) (kind : EventKind) (value : Json) (st : HubState) : HubState :=
  let record := mkEvent (next_sequence st) kind value in
  let next := next_number (next_sequence st) in
  match kind with
  | Traffic =>
      mkHubState next (subscribers st) (traffic_subscribers st) (snapshot st) (events st)
        (Some record) (latest_node_active st)
  | NodeActive =>
      mkHubState next (subscribers st) (traffic_subscribers st) (snapshot st) (events st)
        (latest_traffic st) (Some record)
  | _ =>
      let kept := if len (events st) =? cap then tail (events st) else events st in
      mkHubState next (subscribers st) (traffic_subscribers st) (snapshot st)
        (kept ++ [record]) (latest_traffic st) (latest_node_active st)
  end.
Definition is_normal (k : EventKind) : bool :=
  match k with Traffic | NodeActive => false | _ => true end.

Definition publish (to_vec : Json -> option (list Z)) (io : LogIo) (kind : EventKind) (value : Json)
    (h : EventHub) : EventHub :=
  if negb (is_object value) then h
  else
    let st := publish_state (capacity h) kind value (hub_state h) in
    match is_normal kind, hub_log h with
    | true, Some log =>
        let '(_, (log', d')) :=
          log_write to_vec io (next_sequence (hub_state h)) kind value (log, hub_directory h) in
        mkHub st (capacity h) (Some log') d'
    | _, _ => mkHub st (capacity h) (hub_log h) (hub_directory h)
    end.

Definition set_state (st : HubState) (h : EventHub) : EventHub :=
  mkHub st (capacity h) (hub_log h) (hub_directory h).

Definition replace_snapshot (value : Json) (h : EventHub) : EventHub :=
  if negb (is_object value) then h
  else
    let st := hub_state h in
    set_state (mkHubState (next_sequence st) (subscribers st) (traffic_subscribers st) value
                 (events st) (latest_traffic st) (latest_node_active st)) h.

(** ** Subscriptions *)
Record EventSubscription : Type := mkSub {
  request_id : string;
  kinds : list EventKind;
  cursor : Z;
  traffic_cursor : Z;
  traffic_enabled : bool;
  node_active_cursor : Z;
  node_active_enabled : bool;
  output_sequence : Z;
  initial_snapshot : option Json;
}.

Definition wants (ks : list EventKind) (k : EventKind) : bool :=
  bool_decide (ks = []) || bool_decide (k ∈ ks).

Definition subscribe (id : string) (ks : list EventKind) (h : EventHub) :
    Result EventError EventSubscription * EventHub :=
  let st := hub_state h in
  if MAX_SUBSCRIBERS <=? subscribers st then (Err Busy, h)
  else
    let traffic := wants ks Traffic in
    (Ok (mkSub id ks (next_sequence st) 0 traffic 0 (wants ks NodeActive) 1 (Some (snapshot st))),
     set_state (mkHubState (next_sequence st) (subscribers st + 1)
                  (traffic_subscribers st + (if traffic then 1 else 0)) (snapshot st)
                  (events st) (latest_traffic st) (latest_node_active st)) h).

(** [Drop for EventSubscription]; [traffic] is its [traffic_enabled]. *)
Definition drop_subscription (traffic : bool) (h : EventHub) : EventHub :=
  let st := hub_state h in
  set_state (mkHubState (next_sequence st) (sat_sub_u (subscribers st) 1)
               (if traffic then sat_sub_u (traffic_subscribers st) 1 else traffic_subscribers st)
               (snapshot st) (events st) (latest_traffic st) (latest_node_active st)) h.

Definition accepts (s : EventSubscription) (k : EventKind) : bool := wants (kinds s) k.

(** [StreamFrame::item]. *)
Record StreamItem : Type := mkItem {
  item_request : string;
  item_sequence : Z;
  item_payload : Json;
}.

(** What one pass of the loop of [next_frame] decides. *)
Inductive Poll : Type :=
| PollSnapshot (v : Json)
| PollResync
| PollNormal (e : EventRecord)
| PollTraffic (e : EventRecord)
| PollNodeActive (e : EventRecord)
| PollWait.

Definition newer (enabled : bool) (seen : Z) (latest : option EventRecord) : option EventRecord :=
  if enabled then
    match latest with
    | Some e => if seen <? sequence e then Some e else None
    | None => None
    end
  else None.
Definition ephemeral (traffic node_active : option EventRecord) : option (EventRecord * bool) :=
  match traffic, node_active with
  | Some t, Some n => if sequence t <=? sequence n then Some (t, true) else Some (n, false)
  | Some t, None => Some (t, true)
  | None, Some n => Some (n, false)
  | None, None => None
  end.

Definition poll (st : HubState) (s : EventSubscription) : Poll :=
  match initial_snapshot s with
  | Some v => PollSnapshot v
  | None =>
      if match events st with oldest :: _ => cursor s <? sequence oldest | [] => false end
      then PollResync
      else
        let normal :=
          List.find (fun e => (cursor s <=? sequence e) && accepts s (event_kind e)) (events st) in
        let other :=
          ephemeral (newer (traffic_enabled s) (traffic_cursor s) (latest_traffic st))
            (newer (node_active_enabled s) (node_active_cursor s) (latest_node_active st)) in
        match normal, other with
        | Some e, None => PollNormal e
        | Some e, Some (x, is_traffic) =>
            if sequence e <? sequence x then PollNormal e
            else if is_traffic then PollTraffic x else PollNodeActive x
        | None, Some (x, is_traffic) => if is_traffic then PollTraffic x else PollNodeActive x
        | None, None => PollWait
        end
  end.

Definition update_sub (cur tcur ncur : Z) (out : Z) (snap : option Json) (s : EventSubscription) :
    EventSubscription :=
  mkSub (request_id s) (kinds s) cur tcur (traffic_enabled s) ncur (node_active_enabled s) out snap.

(** The frame of a poll ([None]: it waits) and the subscription it leaves. *)
Definition next_frame (st : HubState) (s : EventSubscription) :
    option StreamItem * EventSubscription :=
  let frame v := Some (mkItem (request_id s) (output_sequence s) v) in
  let out := next_number (output_sequence s) in
  match poll st s with
  | PollSnapshot v =>
      (frame v, update_sub (cursor s) (traffic_cursor s) (node_active_cursor s) out None s)
  | PollResync =>
      (frame (JObject [("kind", JString "resync_required")]),
       update_sub (next_sequence st) (traffic_cursor s) (node_active_cursor s) out
         (Some (snapshot st)) s)
  | PollNormal e =>
      (frame (payload e),
       update_sub (sat_add_u 64 (sequence e) 1) (traffic_cursor s) (node_active_cursor s) out None s)
  | PollTraffic e =>
      (frame (payload e), update_sub (cursor s) (sequence e) (node_active_cursor s) out None s)
  | PollNodeActive e =>
      (frame (payload e), update_sub (cursor s) (traffic_cursor s) (sequence e) out None s)
  | PollWait =>
      (None, update_sub (Z.max (cursor s) (next_sequence st)) (traffic_cursor s)
               (node_active_cursor s) (output_sequence s) None s)
  end.

(** ** Runs

    A world is the hub, one subscription that is followed, the other ones (their
    [traffic_enabled]) and three ghosts: everything published, the sequence number
    the followed stream runs from (its subscription or last resynchronisation), the
    events handed out since then, and the frames. *)
Record World : Type := mkWorld {
  w_hub : EventHub;
  w_sub : option EventSubscription;
  w_others : list bool;
  w_history : list EventRecord;
  w_start : Z;
  w_delivered : list EventRecord;
  w_frames : list StreamItem;
}.

(** The followed stream after a poll. *)
Definition after_poll (w : World) (s : EventSubscription) : World :=
  let st := hub_state (w_hub w) in
  let '(frame, s') := next_frame st s in
  let frames := w_frames w ++ match frame with Some f => [f] | None => [] end in
  match poll st s with
  | PollResync => mkWorld (w_hub w) (Some s') (w_others w) (w_history w) (cursor s') [] frames
  | PollNormal e =>
      mkWorld (w_hub w) (Some s') (w_others w) (w_history w) (w_start w) (w_delivered w ++ [e]) frames
  | _ => mkWorld (w_hub w) (Some s') (w_others w) (w_history w) (w_start w) (w_delivered w) frames
  end.

Inductive step : World -> World -> Prop :=
| step_publish to_vec io kind value w :
    step w (mkWorld (publish to_vec io kind value (w_hub w)) (w_sub w) (w_others w)
              (w_history w ++
                 if is_object value then [mkEvent (next_sequence (hub_state (w_hub w))) kind value]
                 else [])
              (w_start w) (w_delivered w) (w_frames w))
| step_snapshot value w :
    step w (mkWorld (replace_snapshot value (w_hub w)) (w_sub w) (w_others w) (w_history w)
              (w_start w) (w_delivered w) (w_frames w))
| step_attach id ks s h w :
    w_sub w = None -> subscribe id ks (w_hub w) = (Ok s, h) ->
    step w (mkWorld h (Some s) (w_others w) (w_history w) (cursor s) [] [])
| step_detach s w :
    w_sub w = Some s ->
    step w (mkWorld (drop_subscription (traffic_enabled s) (w_hub w)) None (w_others w) (w_history w)
              (w_start w) (w_delivered w) (w_frames w))
| step_other_attach id ks s h w :
    subscribe id ks (w_hub w) = (Ok s, h) ->
    step w (mkWorld h (w_sub w) (traffic_enabled s :: w_others w) (w_history w)
              (w_start w) (w_delivered w) (w_frames w))
| step_other_detach before traffic after w :
    w_others w = before ++ traffic :: after ->
    step w (mkWorld (drop_subscription traffic (w_hub w)) (w_sub w) (before ++ after) (w_history w)
              (w_start w) (w_delivered w) (w_frames w))
| step_poll s w : w_sub w = Some s -> step w (after_poll w s).

Inductive reachable : World -> Prop :=
| reachable_new initial cap d h :
    EventHub_new initial cap d = Ok h -> 0 <= cap -> reachable (mkWorld h None [] [] 1 [] [])
| reachable_step w w' : reachable w -> step w w' -> reachable w'.

(** The events of the followed stream: normal, of a kind it accepts, from [lo] on
    and before [hi]. *)
Definition in_stream (ks : list EventKind) (lo hi : Z) (e : EventRecord) : Prop :=
  is_normal (event_kind e) = true /\ wants ks (event_kind e) = true
  /\ lo <= sequence e /\ sequence e < hi.
#[export] Instance in_stream_dec ks lo hi e : Decision (in_stream ks lo hi e).
Proof. unfold in_stream. apply _. Defined.

Definition normals (hist : list EventRecord) : list EventRecord :=
  filter (fun e => is_normal (event_kind e) = true) hist.
Definition of_kind (k : EventKind) (hist : list EventRecord) : list EventRecord :=
  filter (fun e => event_kind e = k) hist.

(** The hub against the history of what was published. *)
Record hub_inv (h : EventHub) (hist : list EventRecord) : Prop := {
  inv_capacity : 1 <= capacity h;
  inv_next : next_sequence (hub_state h) = 1 + len hist;
  inv_numbers : forall i e, hist !! i = Some e -> sequence e = 1 + Z.of_nat i;
  inv_ring : events (hub_state h)
    = drop (length (normals hist) - Z.to_nat (capacity h)) (normals hist);
  inv_traffic : latest_traffic (hub_state h) = list.last (of_kind Traffic hist);
  inv_node_active : latest_node_active (hub_state h) = list.last (of_kind NodeActive hist);
}.

#[local] Arguments log_write : simpl never.
Lemma publish_hub_state to_vec io kind value h :
  hub_state (publish to_vec io kind value h)
  = (if is_object value then publish_state (capacity h) kind value (hub_state h) else hub_state h)
  /\ capacity (publish to_vec io kind value h) = capacity h.
Proof.
  unfold publish. destruct (is_object value); simpl; [|done].
  destruct (is_normal kind), (hub_log h) as [log|]; try done.
  by destruct (log_write to_vec io (next_sequence (hub_state h)) kind value (log, hub_directory h)) as [? [? ?]].
Qed.

Lemma next_number_small n : 0 <= n < umax 64 -> next_number n = n + 1.
Proof. unfold next_number, sat_add_u. lia. Qed.

Lemma ring_push {A} (l : list A) x n :
  (1 <= n)%nat ->
  drop (length (l ++ [x]) - n) (l ++ [x])
  = (if (length (drop (length l - n) l) =? n)%nat then tail (drop (length l - n) l)
     else drop (length l - n) l) ++ [x].
Proof.
  intros Hn. rewrite length_app, length_drop. simpl.
  destruct (Nat.eqb_spec (length l - (length l - n)) n) as [He|Hne].
  - replace (length l + 1 - n)%nat with (S (length l - n)) by lia.
    rewrite drop_app_le by lia. f_equal. clear. generalize (length l - n)%nat as k. intros k.
    revert k. induction l as [|y l IH]; intros [|k]; try done. apply IH.
  - replace (length l + 1 - n)%nat with 0%nat by lia. replace (length l - n)%nat with 0%nat by lia.
    by rewrite !drop_0.
Qed.

Lemma publish_inv to_vec io kind value h hist :
  hub_inv h hist -> is_object value = true -> 1 + len hist < umax 64 ->
  hub_inv (publish to_vec io kind value h)
    (hist ++ [mkEvent (next_sequence (hub_state h)) kind value]).
Proof.
  intros [Hcap Hnext Hnum Hring Htr Hna] Hobj Hlen.
  destruct (publish_hub_state to_vec io kind value h) as [Hst Hc]. rewrite Hobj in Hst.
  set (e := mkEvent (next_sequence (hub_state h)) kind value).
  assert (next_number (next_sequence (hub_state h)) = 1 + len (hist ++ [e])) as Hn.
  { pose proof (len_nonneg hist). rewrite next_number_small by lia. unfold len in *.
    rewrite length_app. simpl. lia. }
  assert (normals (hist ++ [e]) = normals hist ++ (if is_normal kind then [e] else [])) as Hnor.
  { unfold normals. rewrite filter_app, filter_cons. simpl. by destruct (is_normal kind). }
  assert (forall k, of_kind k (hist ++ [e]) = of_kind k hist ++ (if bool_decide (kind = k) then [e] else [])) as Hof.
  { intros k. unfold of_kind. rewrite filter_app, filter_cons. simpl.
    case_decide; case_bool_decide; done. }
  constructor; rewrite ?Hst, ?Hc; try done.
  - by destruct kind.
  - intros i x Hi. apply lookup_app_Some in Hi as [Hi|[Hge Hi]]; [by apply Hnum|].
    apply list_lookup_singleton_Some in Hi as [Hz <-]. simpl. unfold len in *. lia.
  - rewrite Hnor. destruct (is_normal kind) eqn:Hk.
    + rewrite ring_push by lia. rewrite <- Hring. fold e.
      assert ((len (events (hub_state h)) =? capacity h)
              = (length (events (hub_state h)) =? Z.to_nat (capacity h))%nat) as Heq.
      { unfold len. destruct (Z.eqb_spec (Z.of_nat (length (events (hub_state h)))) (capacity h)),
          (Nat.eqb_spec (length (events (hub_state h))) (Z.to_nat (capacity h))); lia || done. }
      destruct kind; try done; unfold publish_state; simpl; rewrite Heq; by case_match.
    + rewrite app_nil_r. by destruct kind.
  - rewrite Hof. destruct kind; simpl; rewrite ?app_nil_r, ?last_snoc; done.
  - rewrite Hof. destruct kind; simpl; rewrite ?app_nil_r, ?last_snoc; done.
Qed.

(** ** Sequence numbers order the history *)
Lemma hist_bounds h hist e : hub_inv h hist -> e ∈ hist -> 1 <= sequence e < next_sequence (hub_state h).
Proof.
  intros Hinv He. apply list_elem_of_lookup_1 in He as [i Hi].
  rewrite (inv_next _ _ Hinv), (inv_numbers _ _ Hinv _ _ Hi). apply lookup_lt_Some in Hi. unfold len. lia.
Qed.

Definition before (a b : EventRecord) : Prop := sequence a < sequence b.

Lemma hist_sorted h hist : hub_inv h hist -> StronglySorted before hist.
Proof.
  intros Hinv. pose proof (inv_numbers _ _ Hinv) as Hnum. clear Hinv. revert Hnum.
  generalize 1 as n. induction hist as [|e hist IH]; intros n Hnum; constructor.
  - apply (IH (n + 1)). intros i x Hi. rewrite (Hnum (S i) x Hi). lia.
  - apply Forall_forall. intros x Hx. apply list_elem_of_lookup_1 in Hx as [i Hi].
    unfold before. rewrite (Hnum O e eq_refl), (Hnum (S i) x Hi). lia.
Qed.

Section sorted_filters.
Context (ks : list EventKind).

(** A stream up to [b] is the one up to [a] followed by the one from [a] on. *)
Lemma filter_split hist lo a b :
  StronglySorted before hist -> lo <= a <= b ->
  filter (in_stream ks lo b) hist = filter (in_stream ks lo a) hist ++ filter (in_stream ks a b) hist.
Proof.
  intros Hs Hab. induction Hs as [|e hist Hs IH He]; [done|]. rewrite !filter_cons.
  destruct (decide (sequence e < a)) as [Hlt|Hge].
  - rewrite (decide_False (P:=in_stream ks a b e)) by (unfold in_stream; lia).
    destruct (decide (in_stream ks lo b e)) as [H1|H1], (decide (in_stream ks lo a e)) as [H2|H2].
    + simpl. by rewrite IH.
    + exfalso. apply H2. unfold in_stream in *. intuition lia.
    + exfalso. apply H1. unfold in_stream in *. intuition lia.
    + exact IH.
  - assert (filter (in_stream ks lo a) hist = []) as Hnil.
    { apply filter_none. intros x Hx [? [? ?]]. rewrite Forall_forall in He.
      specialize (He x Hx). unfold before in He. lia. }
    rewrite (decide_False (P:=in_stream ks lo a e)) by (unfold in_stream; lia).
    rewrite Hnil in IH |- *. simpl in *.
    destruct (decide (in_stream ks lo b e)) as [H1|H1], (decide (in_stream ks a b e)) as [H2|H2];
      rewrite IH; try done; exfalso; [apply H2|apply H1]; unfold in_stream in *; intuition lia.
Qed.

(** A stream that holds one event. *)
Lemma filter_single hist e lo hi :
  StronglySorted before hist -> e ∈ hist -> in_stream ks lo hi e ->
  (forall x, x ∈ hist -> in_stream ks lo hi x -> sequence x = sequence e) ->
  filter (in_stream ks lo hi) hist = [e].
Proof.
  intros Hs. induction Hs as [|x hist Hs IH Hx]; intros He Hin Honly; [set_solver|].
  rewrite Forall_forall in Hx. rewrite filter_cons. apply elem_of_cons in He as [<-|He].
  - rewrite decide_True by done. f_equal. apply filter_none. intros y Hy Hiny.
    specialize (Hx y Hy). specialize (Honly y ltac:(by right) Hiny). unfold before in Hx. lia.
  - rewrite decide_False; [apply IH; [done|done|]; intros y Hy; apply Honly; by right|].
    intros Hinx. specialize (Honly x ltac:(by left) Hinx). specialize (Hx e He). unfold before in Hx. lia.
Qed.
End sorted_filters.

(** ** Polls *)
Lemma find_sorted (f : EventRecord -> bool) l e :
  StronglySorted before l -> List.find f l = Some e ->
  f e = true /\ e ∈ l /\ forall x, x ∈ l -> f x = true -> sequence e <= sequence x.
Proof.
  intros Hs. induction Hs as [|y l Hs IH Hy]; simpl; [done|]. rewrite Forall_forall in Hy.
  destruct (f y) eqn:Hf.
  - intros [= ->]. split_and!; [done|by left|]. intros x [->|Hx]%elem_of_cons _; [lia|].
    specialize (Hy x Hx). unfold before in Hy. lia.
  - intros H. destruct (IH H) as (? & ? & Hmin). split_and!; [done|by right|].
    intros x [->|Hx]%elem_of_cons Hfx; [congruence|by apply Hmin].
Qed.

Lemma find_nothing {A} (f : A -> bool) l x : List.find f l = None -> x ∈ l -> f x = false.
Proof. intros H Hx. apply (List.find_none _ _ H). by apply list_elem_of_In. Qed.

(** Unless the ring has moved past it, every normal event from the cursor on is in
    the ring. *)
Lemma ring_complete h hist c e :
  hub_inv h hist ->
  match events (hub_state h) with oldest :: _ => c <? sequence oldest | [] => false end = false ->
  e ∈ hist -> is_normal (event_kind e) = true -> c <= sequence e -> e ∈ events (hub_state h).
Proof.
  intros Hinv Hfront He Hn Hc.
  assert (e ∈ normals hist) as Hen by (by apply list_elem_of_filter).
  assert (StronglySorted before (normals hist)) as Hs.
  { apply StronglySorted_filter. by eapply hist_sorted. }
  rewrite (inv_ring _ _ Hinv) in *. pose proof (inv_capacity _ _ Hinv) as Hcap.
  set (n := (length (normals hist) - Z.to_nat (capacity h))%nat) in *.
  rewrite <- (take_drop n (normals hist)) in Hen, Hs. apply elem_of_app in Hen as [Hen|Hen]; [|done].
  exfalso. destruct (drop n (normals hist)) as [|f rest] eqn:Hd.
  - apply (f_equal length) in Hd. rewrite length_drop in Hd. simpl in Hd.
    assert (length (normals hist) = 0)%nat as Hz by lia. apply nil_length_inv in Hz.
    rewrite Hz, take_nil in Hen. set_solver.
  - apply Z.ltb_ge in Hfront.
    pose proof (StronglySorted_app_1_elem_of _ _ _ e f Hs Hen ltac:(by left)) as Hb.
    unfold before in Hb. lia.
Qed.

(** What a poll that is past the snapshot and the resynchronisation hands out is the
    first event of the stream from the cursor on; a poll that waits left nothing. *)
Lemma poll_normal h hist s e :
  hub_inv h hist -> poll (hub_state h) s = PollNormal e ->
  e ∈ hist /\ in_stream (kinds s) (cursor s) (sequence e + 1) e
  /\ forall x, x ∈ hist -> in_stream (kinds s) (cursor s) (sequence e + 1) x -> sequence x = sequence e.
Proof.
  intros Hinv. unfold poll. destruct (initial_snapshot s); [done|]. split_if Hfront; [done|].
  destruct (List.find _ _) as [e'|] eqn:Hfind; [|by destruct (ephemeral _ _) as [[? []]|]].
  intros Hpoll. assert (e' = e) as ->.
  { destruct (ephemeral _ _) as [[x []]|]; [destruct (_ <? _)..|]; congruence. }
  assert (StronglySorted before (events (hub_state h))) as Hs.
  { rewrite (inv_ring _ _ Hinv). eapply (StronglySorted_app_1_r _ (take _ (normals hist))).
    rewrite take_drop. apply StronglySorted_filter. by eapply hist_sorted. }
  destruct (find_sorted _ _ _ Hs Hfind) as (Hf & Hin & Hmin).
  apply andb_true_iff in Hf as [Hc%Z.leb_le Ha].
  assert (e ∈ normals hist) as Hen.
  { rewrite (inv_ring _ _ Hinv) in Hin. rewrite <- (take_drop (length (normals hist) - Z.to_nat (capacity h))).
    set_solver. }
  apply list_elem_of_filter in Hen as [Hn He]. split_and!; [done|by repeat split; try lia|].
  intros x Hx (Hxn & Hxa & Hlo & Hhi).
  enough (sequence e <= sequence x) by lia. apply Hmin; [by eapply ring_complete|].
  apply andb_true_iff. split; [by apply Z.leb_le|done].
Qed.

Lemma poll_wait h hist s x :
  hub_inv h hist -> poll (hub_state h) s = PollWait ->
  x ∈ hist -> cursor s <= sequence x -> is_normal (event_kind x) = true ->
  wants (kinds s) (event_kind x) = false.
Proof.
  intros Hinv. unfold poll. destruct (initial_snapshot s); [done|]. split_if Hfront; [done|].
  destruct (List.find _ _) as [e'|] eqn:Hfind.
  { destruct (ephemeral _ _) as [[? []]|]; [destruct (_ <? _)..|]; done. }
  intros _ Hx Hc Hn. assert (x ∈ events (hub_state h)) as Hin by (by eapply ring_complete).
  pose proof (find_nothing _ _ _ Hfind Hin) as Hf. simpl in Hf.
  rewrite (proj2 (Z.leb_le _ _) Hc) in Hf. exact Hf.
Qed.

(** ** The invariant of a run *)
(** The update of kind [k] last handed out, if any. *)
Definition shown_update (w : World) (k : EventKind) (seen : Z) : Prop :=
  seen = 0 \/ exists e, e ∈ w_history w /\ event_kind e = k /\ sequence e = seen
                      /\ payload e ∈ item_payload <$> w_frames w.
Record stream_inv (w : World) (s : EventSubscription) : Prop := {
  si_cursor : w_start w <= cursor s <= next_sequence (hub_state (w_hub w));
  si_delivered : w_delivered w = filter (in_stream (kinds s) (w_start w) (cursor s)) (w_history w);
  si_frames : len (w_frames w) < umax 64 ->
    output_sequence s = 1 + len (w_frames w)
    /\ forall i f, w_frames w !! i = Some f -> item_sequence f = 1 + Z.of_nat i;
  si_traffic : shown_update w Traffic (traffic_cursor s);
  si_node_active : shown_update w NodeActive (node_active_cursor s);
}.
Record world_inv (w : World) : Prop := {
  wi_hub : hub_inv (w_hub w) (w_history w);
  wi_stream : forall s, w_sub w = Some s -> stream_inv w s;
}.

Lemma hub_inv_state h h' hist :
  hub_inv h hist -> capacity h' = capacity h ->
  next_sequence (hub_state h') = next_sequence (hub_state h) ->
  events (hub_state h') = events (hub_state h) ->
  latest_traffic (hub_state h') = latest_traffic (hub_state h) ->
  latest_node_active (hub_state h') = latest_node_active (hub_state h) -> hub_inv h' hist.
Proof. intros [] Hc Hn He Ht Ha. constructor; rewrite ?Hc, ?Hn, ?He, ?Ht, ?Ha; done. Qed.

Lemma frames_push w s f :
  stream_inv w s -> len (w_frames w ++ [f]) < umax 64 -> item_sequence f = output_sequence s ->
  next_number (output_sequence s) = 1 + len (w_frames w ++ [f])
  /\ forall i g, (w_frames w ++ [f]) !! i = Some g -> item_sequence g = 1 + Z.of_nat i.
Proof.
  intros Hs Hlen Hf. unfold len in *. rewrite length_app in *. simpl in *.
  destruct (si_frames _ _ Hs) as [Hout Hall]; [unfold len; lia|]. unfold len in *.
  split; [rewrite next_number_small; lia|].
  intros i g Hi. apply lookup_app_Some in Hi as [Hi|[Hge Hi]]; [by apply Hall|].
  apply list_lookup_singleton_Some in Hi as [Hz <-]. lia.
Qed.

Lemma shown_update_mono w w' k seen :
  shown_update w k seen -> w_history w ⊆ w_history w' -> w_frames w ⊆ w_frames w' ->
  shown_update w' k seen.
Proof.
  intros [?|(e & ? & ? & ? & Hp)] Hh Hf; [by left|right]. exists e. split_and!; try by auto.
  apply list_elem_of_fmap in Hp as (f & -> & ?). apply list_elem_of_fmap_2. auto.
Qed.

(** The stream after a normal event, and at a wait. *)
Lemma stream_normal w s e :
  hub_inv (w_hub w) (w_history w) -> stream_inv w s -> poll (hub_state (w_hub w)) s = PollNormal e ->
  cursor s <= sequence e < next_sequence (hub_state (w_hub w))
  /\ filter (in_stream (kinds s) (w_start w) (sequence e + 1)) (w_history w) = w_delivered w ++ [e].
Proof.
  intros Hhub Hs Hpoll. destruct (poll_normal _ _ _ _ Hhub Hpoll) as (He & Hin & Honly).
  pose proof (hist_bounds _ _ _ Hhub He) as Hb. pose proof (si_cursor _ _ Hs) as Hc.
  destruct Hin as (Hn & Ha & Hlo & Hhi). split; [lia|].
  rewrite (si_delivered _ _ Hs), (filter_split _ _ (w_start w) (cursor s) (sequence e + 1))
    by (lia || by eapply hist_sorted).
  f_equal. eapply filter_single; [by eapply hist_sorted|done|by split_and!|done].
Qed.

Lemma stream_wait w s :
  hub_inv (w_hub w) (w_history w) -> stream_inv w s -> poll (hub_state (w_hub w)) s = PollWait ->
  w_delivered w
  = filter (in_stream (kinds s) (w_start w) (next_sequence (hub_state (w_hub w)))) (w_history w).
Proof.
  intros Hhub Hs Hpoll. pose proof (si_cursor _ _ Hs) as Hc.
  rewrite (si_delivered _ _ Hs), (filter_split _ _ (w_start w) (cursor s) (next_sequence _))
    by (lia || by eapply hist_sorted).
  rewrite (filter_none (in_stream _ (cursor s) _)); [by rewrite app_nil_r|].
  intros x Hx (Hn & Ha & Hlo & _). pose proof (poll_wait _ _ _ _ Hhub Hpoll Hx Hlo Hn). congruence.
Qed.

Lemma last_elem_of {A} (l : list A) x : list.last l = Some x -> x ∈ l.
Proof. intros H. apply last_Some in H as [l' ->]. set_solver. Qed.

Lemma newer_some enabled seen latest e :
  newer enabled seen latest = Some e -> latest = Some e.
Proof. unfold newer. destruct enabled, latest; try done. by case_match. Qed.

(** The ephemeral branch hands out the latest update. *)
Lemma poll_update h hist s :
  hub_inv h hist ->
  match poll (hub_state h) s with
  | PollTraffic e => list.last (of_kind Traffic hist) = Some e
  | PollNodeActive e => list.last (of_kind NodeActive hist) = Some e
  | _ => True
  end.
Proof.
  intros Hinv. unfold poll. destruct (initial_snapshot s); [done|]. split_if Hfront; [done|].
  rewrite <- (inv_traffic _ _ Hinv), <- (inv_node_active _ _ Hinv).
  destruct (newer (traffic_enabled s) _ _) as [t|] eqn:Ht, (newer (node_active_enabled s) _ _) as [n|] eqn:Hn;
    try apply newer_some in Ht; try apply newer_some in Hn; rewrite ?Ht, ?Hn; simpl;
    destruct (List.find _ _) as [e'|]; repeat case_match; simplify_eq; done.
Qed.

Lemma after_poll_inv w s :
  world_inv w -> w_sub w = Some s -> 1 + len (w_history w) < umax 64 -> world_inv (after_poll w s).
Proof.
  intros [Hhub Hstream] Hsub Hlen. pose proof (Hstream s Hsub) as Hs.
  pose proof (si_cursor _ _ Hs) as [Hlo Hhi]. pose proof (inv_next _ _ Hhub) as Hnext.
  pose proof (poll_update _ _ s Hhub) as Hupd.
  unfold after_poll, next_frame.
  destruct (poll (hub_state (w_hub w)) s) as [v| |e|e|e|] eqn:Hpoll; cbn beta iota zeta.
  all: split; [exact Hhub|]; intros s' [= <-]; constructor; simpl; try done.
  all: try (intros Hf; by apply frames_push).
  all: try (eapply shown_update_mono; [apply Hs|done|set_solver]).
  all: try apply (si_delivered _ _ Hs).
  - symmetry. apply filter_none. intros x _ (_ & _ & ? & ?). lia.
  - destruct (stream_normal _ _ _ Hhub Hs Hpoll) as [? _]. unfold sat_add_u. lia.
  - destruct (stream_normal _ _ _ Hhub Hs Hpoll) as [? <-]. unfold sat_add_u. f_equal.
    rewrite Z.min_l by lia. done.
  - right. exists e. apply last_elem_of, list_elem_of_filter in Hupd as [? ?]. simpl.
    split_and!; [done..|]. rewrite fmap_app. set_solver.
  - right. exists e. apply last_elem_of, list_elem_of_filter in Hupd as [? ?]. simpl.
    split_and!; [done..|]. rewrite fmap_app. set_solver.
  - lia.
  - rewrite Z.max_r by lia. by apply stream_wait.
  - rewrite app_nil_r. apply (si_frames _ _ Hs).
Qed.

Lemma subscribe_ok id ks h s h' :
  subscribe id ks h = (Ok s, h') ->
  cursor s = next_sequence (hub_state h) /\ traffic_cursor s = 0 /\ node_active_cursor s = 0
  /\ output_sequence s = 1 /\ traffic_enabled s = wants ks Traffic
  /\ subscribers (hub_state h) < MAX_SUBSCRIBERS
  /\ subscribers (hub_state h') = subscribers (hub_state h) + 1
  /\ traffic_subscribers (hub_state h')
     = traffic_subscribers (hub_state h) + (if wants ks Traffic then 1 else 0)
  /\ forall hist, hub_inv h hist -> hub_inv h' hist.
Proof.
  unfold subscribe. split_if Hb; [done|]. apply Z.leb_gt in Hb. intros [= <- <-].
  split_and!; try done. intros hist Hinv. by eapply hub_inv_state.
Qed.

(** A step that leaves the sequence numbers alone leaves the stream alone. *)
Lemma stream_inv_hub w w' s :
  stream_inv w s -> next_sequence (hub_state (w_hub w')) = next_sequence (hub_state (w_hub w)) ->
  w_history w' = w_history w -> w_start w' = w_start w -> w_delivered w' = w_delivered w ->
  w_frames w' = w_frames w -> stream_inv w' s.
Proof.
  intros [] Hn Hh Hs Hd Hf. constructor; rewrite ?Hn, ?Hh, ?Hs, ?Hd, ?Hf; try done.
  - eapply shown_update_mono; [done|by rewrite Hh|by rewrite Hf].
  - eapply shown_update_mono; [done|by rewrite Hh|by rewrite Hf].
Qed.

Lemma publish_world_inv to_vec io kind value w :
  world_inv w -> is_object value = true -> 1 + len (w_history w) < umax 64 ->
  let e := mkEvent (next_sequence (hub_state (w_hub w))) kind value in
  world_inv (mkWorld (publish to_vec io kind value (w_hub w)) (w_sub w) (w_others w)
               (w_history w ++ [e]) (w_start w) (w_delivered w) (w_frames w)).
Proof.
  intros [Hhub Hstream] Hobj Hlen e. pose proof (publish_inv to_vec io kind value _ _ Hhub Hobj Hlen) as Hhub'.
  split; [exact Hhub'|]. simpl. intros s Hsub. destruct (Hstream s Hsub) as [Hc Hdel Hfr Ht Hn].
  constructor; simpl; try done.
  - rewrite (inv_next _ _ Hhub'). rewrite (inv_next _ _ Hhub) in Hc. unfold len in *.
    rewrite length_app. simpl. lia.
  - rewrite filter_app, Hdel, (filter_none _ [e]); [by rewrite app_nil_r|].
    intros x ->%list_elem_of_singleton (_ & _ & _ & Hlt). simpl in Hlt. lia.
  - eapply shown_update_mono; [exact Ht|simpl; set_solver|done].
  - eapply shown_update_mono; [exact Hn|simpl; set_solver|done].
Qed.

Lemma step_inv w w' :
  world_inv w -> step w w' -> 1 + len (w_history w) < umax 64 -> world_inv w'.
Proof.
  intros Hinv Hstep Hlen. pose proof Hinv as [Hhub Hstream].
  destruct Hstep as [to_vec io kind value w|value w|id ks s h w Hno Hsub|s w Hsub|id ks s h w Hsub
                    |before traffic after w Hot|s w Hsub].
  - destruct (is_object value) eqn:Hobj; [by apply publish_world_inv|].
    rewrite app_nil_r. unfold publish. rewrite Hobj. simpl. by destruct w.
  - unfold replace_snapshot. destruct (is_object value); simpl; [|by destruct w].
    split; [by eapply hub_inv_state|]. intros s Hs. by eapply stream_inv_hub; [apply Hstream|..].
  - destruct (subscribe_ok _ _ _ _ _ Hsub) as (Hc & Htc & Hnc & Hout & _ & _ & _ & _ & Hh).
    split; [by apply Hh|]. intros s' [= <-]. pose proof (Hh _ Hhub) as Hhub'.
    assert (next_sequence (hub_state h) = next_sequence (hub_state (w_hub w))) as Hn
      by (rewrite (inv_next _ _ Hhub'), (inv_next _ _ Hhub); done).
    constructor; simpl; [lia| | |by left|by left].
    + symmetry. apply filter_none. intros x _ (_ & _ & ? & ?). lia.
    + intros _. split; [done|]. intros i f Hi. by rewrite lookup_nil in Hi.
  - split; [by eapply hub_inv_state|done].
  - destruct (subscribe_ok _ _ _ _ _ Hsub) as (_ & _ & _ & _ & _ & _ & _ & _ & Hh).
    split; [by apply Hh|]. intros s' Hs'. eapply stream_inv_hub; [by apply Hstream|..]; try done. simpl.
    rewrite (inv_next _ _ (Hh _ Hhub)), (inv_next _ _ Hhub). done.
  - split; [by eapply hub_inv_state|]. intros s Hs. by eapply stream_inv_hub; [apply Hstream|..].
  - by apply after_poll_inv.
Qed.

Lemma step_history_grows w w' : step w w' -> len (w_history w) <= len (w_history w').
Proof.
  destruct 1; simpl; try lia.
  - unfold len. rewrite length_app. lia.
  - unfold after_poll. destruct (next_frame _ _), (poll _ _); simpl; lia.
Qed.

Lemma reachable_inv w : reachable w -> 1 + len (w_history w) < umax 64 -> world_inv w.
Proof.
  induction 1 as [initial cap d h Hnew Hcap|w w' Hr IH Hstep]; intros Hlen.
  - unfold EventHub_new in Hnew. split_if_in Hnew Hb; [done|]. injection Hnew as <-.
    apply orb_false_iff in Hb as [[Hz%Z.eqb_neq _]%orb_false_iff _]. split; [|done].
    constructor; simpl; try done. lia.
  - pose proof (step_history_grows _ _ Hstep). eapply step_inv; [apply IH; lia|done|lia].
Qed.

Lemma last_max (l : list EventRecord) e x :
  StronglySorted before l -> list.last l = Some e -> x ∈ l -> sequence x <= sequence e.
Proof.
  intros Hs [l' ->]%last_Some [Hx|Hx]%elem_of_app; [|apply list_elem_of_singleton in Hx as ->; lia].
  pose proof (StronglySorted_app_1_elem_of _ _ _ x e Hs Hx ltac:(by left)) as Hb. unfold before in Hb. lia.
Qed.

Lemma sorted_unique (l : list EventRecord) a b :
  StronglySorted before l -> a ∈ l -> b ∈ l -> sequence a = sequence b -> a = b.
Proof.
  intros Hs. induction Hs as [|x l Hs IH Hx]; [set_solver|]. rewrite Forall_forall in Hx. unfold before in Hx.
  intros [->|Ha]%elem_of_cons [->|Hb]%elem_of_cons Heq; auto.
  - specialize (Hx b Hb). lia.
  - specialize (Hx a Ha). lia.
Qed.

(** A poll that waits has shown the latest update. *)
Lemma wait_shown w k (enabled : bool) seen latest e :
  world_inv w -> shown_update w k seen -> latest = list.last (of_kind k (w_history w)) ->
  enabled = true -> newer enabled seen latest = None ->
  list.last (of_kind k (w_history w)) = Some e ->
  payload e ∈ item_payload <$> w_frames w.
Proof.
  intros [Hhub _] Hsh -> -> Hnew He. rewrite He in Hnew. simpl in Hnew. split_if_in Hnew Hlt; [done|].
  apply Z.ltb_ge in Hlt. pose proof (hist_sorted _ _ Hhub) as Hsorted.
  pose proof (last_elem_of _ _ He) as Hin. pose proof Hin as [Hk Hinh]%list_elem_of_filter.
  pose proof (hist_bounds _ _ _ Hhub Hinh) as Hb.
  destruct Hsh as [->|(x & Hx & Hxk & Hxs & Hxp)]; [lia|].
  assert (sequence x <= sequence e) as Hle.
  { eapply (last_max (of_kind k (w_history w))); [|exact He|by apply list_elem_of_filter].
    unfold of_kind. by apply StronglySorted_filter. }
  assert (x = e) as ->; [|done]. eapply sorted_unique; [exact Hsorted|done|done|lia].
Qed.

Lemma poll_wait_newer st s :
  poll st s = PollWait ->
  newer (traffic_enabled s) (traffic_cursor s) (latest_traffic st) = None
  /\ newer (node_active_enabled s) (node_active_cursor s) (latest_node_active st) = None.
Proof.
  unfold poll. destruct (initial_snapshot s); [done|]. split_if Hf; [done|].
  destruct (newer (traffic_enabled s) _ _) as [t|], (newer (node_active_enabled s) _ _) as [n|];
    simpl; destruct (List.find _ _); repeat case_match; done.
Qed.

(** C35: no event is lost silently.  In any interleaving of publications, snapshot
    updates, other subscribers coming and going and polls, what a subscription has
    been handed since it attached or was last told to resynchronise is exactly the
    events of the kinds it asked for in that span, each once and in order.  When a
    poll has nothing to return, every such event published so far has been handed
    out, and so have the latest traffic and active-node updates.  Its frames are
    numbered from one without gaps. *)
Theorem event_stream_lossless w s :
  reachable w -> w_sub w = Some s -> 1 + len (w_history w) < umax 64 ->
  w_start w <= cursor s
  /\ w_delivered w = filter (in_stream (kinds s) (w_start w) (cursor s)) (w_history w)
  /\ (poll (hub_state (w_hub w)) s = PollWait ->
      w_delivered w
      = filter (in_stream (kinds s) (w_start w) (next_sequence (hub_state (w_hub w)))) (w_history w)
      /\ (forall e, traffic_enabled s = true ->
            list.last (of_kind Traffic (w_history w)) = Some e -> payload e ∈ item_payload <$> w_frames w)
      /\ (forall e, node_active_enabled s = true ->
            list.last (of_kind NodeActive (w_history w)) = Some e ->
            payload e ∈ item_payload <$> w_frames w))
  /\ (len (w_frames w) < umax 64 ->
      forall i f, w_frames w !! i = Some f -> item_sequence f = 1 + Z.of_nat i).
Proof.
  intros Hr Hsub Hlen. pose proof (reachable_inv w Hr Hlen) as Hinv. pose proof Hinv as [Hhub Hstream].
  pose proof (Hstream s Hsub) as Hs. split_and!.
  - apply (si_cursor _ _ Hs).
  - apply (si_delivered _ _ Hs).
  - intros Hpoll. destruct (poll_wait_newer _ _ Hpoll) as [Ht Hn]. split_and!.
    + by apply stream_wait.
    + intros e Hen He. eapply wait_shown; [done|apply (si_traffic _ _ Hs)|apply (inv_traffic _ _ Hhub)|done|done|done].
    + intros e Hen He.
      eapply wait_shown; [done|apply (si_node_active _ _ Hs)|apply (inv_node_active _ _ Hhub)|done|done|done].
  - intros Hf. by apply (si_frames _ _ Hs).
Qed.

(** A hub with room for two events; a subscriber takes its snapshot, misses nothing
    of two publications and waits. *)
Definition note (k : string) : Json := JObject [("kind", JString k)].
Definition sample_hub : EventHub :=
  mkHub (mkHubState 1 0 0 (note "snapshot") [] None None) 2 None [].
Definition sample_io0 : LogIo := mkIo None false None.
Definition poll_world (w : World) : World :=
  match w_sub w with Some s => after_poll w s | None => w end.
Definition publish_world (k : EventKind) (v : Json) (w : World) : World :=
  mkWorld (publish (fun _ => None) sample_io0 k v (w_hub w)) (w_sub w) (w_others w)
    (w_history w ++
       if is_object v then [mkEvent (next_sequence (hub_state (w_hub w))) k v] else [])
    (w_start w) (w_delivered w) (w_frames w).

Lemma reachable_poll w : reachable w -> reachable (poll_world w).
Proof.
  intros Hw. unfold poll_world. destruct (w_sub w) as [s|] eqn:Hs; [|done].
  eapply reachable_step; [done|by constructor].
Qed.
Lemma reachable_publish k v w : reachable w -> reachable (publish_world k v w).
Proof. intros Hw. eapply reachable_step; [exact Hw|]. apply step_publish. Qed.

Definition sample_subscription : EventSubscription :=
  mkSub "r" [] 1 0 true 0 true 1 (Some (note "snapshot")).
Definition sample_attached : World :=
  mkWorld (subscribe "r" [] sample_hub).2 (Some sample_subscription) [] [] 1 [] [].
Lemma sample_attached_reachable : reachable sample_attached.
Proof.
  eapply reachable_step; [eapply (reachable_new (note "snapshot") 2 []); [reflexivity|lia]|].
  eapply (step_attach "r" [] sample_subscription); reflexivity.
Qed.
#[local] Hint Resolve sample_attached_reachable reachable_poll reachable_publish : core.

Lemma event_stream_lossless_witness :
  let w := poll_world (publish_world Traffic (note "rate")
             (poll_world (publish_world Config (note "config") (poll_world sample_attached)))) in
  exists s, w_sub w = Some s /\ poll (hub_state (w_hub w)) s = PollWait
    /\ w_delivered w = [mkEvent 1 Config (note "config")]
    /\ w_delivered w
       = filter (in_stream (kinds s) (w_start w) (next_sequence (hub_state (w_hub w)))) (w_history w)
    /\ note "rate" ∈ item_payload <$> w_frames w.
Proof.
  intros w. destruct (w_sub w) as [s|] eqn:Hs; [|vm_compute in Hs; discriminate].
  destruct (event_stream_lossless w s) as (_ & _ & Hwait & _);
    [unfold w; auto 10|exact Hs|vm_compute; reflexivity|].
  assert (poll (hub_state (w_hub w)) s = PollWait) as Hp by (vm_compute in Hs; injection Hs as <-; reflexivity).
  destruct (Hwait Hp) as (Hall & Ht & _).
  exists s. split_and!; [reflexivity|exact Hp|vm_compute; reflexivity|exact Hall|].
  refine (Ht (mkEvent 2 Traffic (note "rate")) _ _); [|reflexivity].
  vm_compute in Hs. injection Hs as <-. reflexivity.
Defined.

(** A resynchronisation is not always a loss: a subscriber that waits, sees a
    traffic update and then the first event the ring ever holds is told to
    resynchronise although that event is still there. *)
Lemma resync_without_loss :
  let w := publish_world Config (note "config") (poll_world (publish_world Traffic (note "rate")
             (poll_world (poll_world sample_attached)))) in
  reachable w
  /\ exists s, w_sub w = Some s /\ poll (hub_state (w_hub w)) s = PollResync
     /\ forall e, e ∈ w_history w -> in_stream (kinds s) (cursor s) (next_sequence (hub_state (w_hub w))) e ->
        e ∈ events (hub_state (w_hub w)).
Proof.
  intros w. split; [unfold w; auto 10|].
  destruct (w_sub w) as [s|] eqn:Hs; [|vm_compute in Hs; discriminate]. exists s. split; [done|].
  vm_compute in Hs. injection Hs as <-. split; [vm_compute; reflexivity|].
  intros e He Hin. vm_compute in He. apply elem_of_cons in He as [->|He].
  - destruct Hin as [Hn _]. vm_compute in Hn. discriminate.
  - apply list_elem_of_singleton in He as ->. vm_compute. by left.
Qed.
