(* ===== verification/Detect.v ===== *)
(** * Detect: parser limits, normalisation and format detection of a payload

    Models crates/nethop-subscription/src/limits.rs, normalize.rs and detect.rs.
    Text is the bytes of a Rust [str]; [from_utf8], [trim] and [trim_start] are the
    standard library's, on the UTF-8 encoding (the Unicode class White_Space).
    serde_json's validation ([validate_json]) is a parameter.

    The two scanners over JSON text advance by more than one byte and carry fuel,
    the length of the text, which is always enough ([object_scan_total],
    [array_scan_total]). *)

From S2P Require Import Prelude Text Source.

Local Open Scope Z_scope.

(** ** Limits *)
Definition MAX_BODY_BYTES : Z := 5 * 1024 * 1024.
Definition MAX_NODE_COUNT : Z := 10000.
Definition MAX_LINE_BYTES : Z := 16 * 1024.
Definition MAX_DEPTH : Z := 64.
Definition MAX_STRING_BYTES : Z := 64 * 1024.
Definition MAX_QUERY_PARAMS : Z := 64.
Definition MAX_FRAGMENT_BYTES : Z := 256.
Definition MAX_VMESS_JSON_BYTES : Z := 64 * 1024.
Definition MAX_SOURCE_REFS : Z := 64.
Definition MAX_DETAILED_DIAGNOSTICS : Z := 1000.
Definition MAX_WARNINGS_PER_NODE : Z := 16.
Definition MAX_REPORT_BYTES : Z := 8 * 1024 * 1024.

Record ParserLimits : Type := mkLimits {
  max_body_bytes : Z;
  max_nodes : Z;
  max_line_bytes : Z;
  max_depth : Z;
  max_string_bytes : Z;
  max_query_params : Z;
  max_fragment_bytes : Z;
  max_vmess_json_bytes : Z;
  max_source_refs : Z;
  max_detailed_diagnostics : Z;
  max_warnings_per_node : Z;
  max_report_bytes : Z;
}.
Inductive LimitError : Type := LimitZero (field : string) | ExceedsCeiling (field : string).

Fixpoint check_limits (values : list (string * Z * Z)) : Result LimitError unit :=
  match values with
  | [] => Ok tt
  | (field, value, ceiling) :: rest =>
      if value =? 0 then Err (LimitZero field)
      else if ceiling <? value then Err (ExceedsCeiling field)
      else check_limits rest
  end.
Definition limits_validate (l : ParserLimits) : Result LimitError unit :=
  check_limits
    [("max_body_bytes", max_body_bytes l, MAX_BODY_BYTES);
     ("max_nodes", max_nodes l, MAX_NODE_COUNT);
     ("max_line_bytes", max_line_bytes l, MAX_LINE_BYTES);
     ("max_depth", max_depth l, MAX_DEPTH);
     ("max_string_bytes", max_string_bytes l, MAX_STRING_BYTES);
     ("max_query_params", max_query_params l, MAX_QUERY_PARAMS);
     ("max_fragment_bytes", max_fragment_bytes l, MAX_FRAGMENT_BYTES);
     ("max_vmess_json_bytes", max_vmess_json_bytes l, MAX_VMESS_JSON_BYTES);
     ("max_source_refs", max_source_refs l, MAX_SOURCE_REFS);
     ("max_detailed_diagnostics", max_detailed_diagnostics l, MAX_DETAILED_DIAGNOSTICS);
     ("max_warnings_per_node", max_warnings_per_node l, MAX_WARNINGS_PER_NODE);
     ("max_report_bytes", max_report_bytes l, MAX_REPORT_BYTES)].
Definition ParserLimits_new (body nodes line depth str : Z) : Result LimitError ParserLimits :=
  let l := mkLimits body nodes line depth str MAX_QUERY_PARAMS MAX_FRAGMENT_BYTES
             MAX_VMESS_JSON_BYTES MAX_SOURCE_REFS MAX_DETAILED_DIAGNOSTICS MAX_WARNINGS_PER_NODE
             MAX_REPORT_BYTES in
  match limits_validate l with Err e => Err e | Ok _ => Ok l end.
(** The [expect] of the default cannot panic ([ParserLimits_default_ok]). *)
Definition ParserLimits_default : option ParserLimits :=
  match ParserLimits_new MAX_BODY_BYTES MAX_NODE_COUNT MAX_LINE_BYTES MAX_DEPTH MAX_STRING_BYTES with
  | Ok l => Some l
  | Err _ => None
  end.

Lemma ParserLimits_default_ok : is_Some ParserLimits_default.
Proof. vm_compute. by eexists. Qed.

(** ** Normalisation *)
Definition UTF8_BOM : list Z := [239; 187; 191].
Inductive NormalizationError : Type :=
| NormTooLarge (actual limit : Z) | NormInvalidUtf8 | NulByte.

Record NormalizedPayload : Type := mkNormalized {
  norm_text : list Z;
  first_line_number : Z;
}.

Fixpoint count_line_breaks (bs : list Z) : Z :=
  match bs with
  | [] => 0
  | b :: rest =>
      if b =? 13 then
        match rest with
        | c :: rest' => if c =? 10 then 1 + count_line_breaks rest' else 1 + count_line_breaks rest
        | [] => 1
        end
      else if b =? 10 then 1 + count_line_breaks rest
      else count_line_breaks rest
  end.

Definition normalize_bytes (bs : list Z) (limits : ParserLimits) :
    Result NormalizationError NormalizedPayload :=
  if max_body_bytes limits <? len bs then Err (NormTooLarge (len bs) (max_body_bytes limits))
  else
    let bs := default bs (strip_prefix UTF8_BOM bs) in
    if existsb (Z.eqb 0) bs then Err NulByte
    else if negb (valid_utf8 bs) then Err NormInvalidUtf8
    else
      let trimmed := trim_text bs in
      (* an all-white text is trimmed to the empty slice at its start *)
      let leading := if len trimmed =? 0 then [] else take (length bs - length (trim_left bs)) bs in
      let number := sat_add_u 64 (count_line_breaks leading) 1 in
      Ok (mkNormalized trimmed (if umax 32 <? number then umax 32 else number)).

(** [NormalizedPayload::lines]: the lines, without the breaks. *)
Fixpoint split_lines (bs : list Z) (current : list Z) : list (list Z) :=
  match bs with
  | [] => if len current =? 0 then [] else [current]
  | b :: rest =>
      if b =? 13 then
        match rest with
        | c :: rest' => if c =? 10 then current :: split_lines rest' [] else current :: split_lines rest []
        | [] => [current]
        end
      else if b =? 10 then current :: split_lines rest []
      else split_lines rest (current ++ [b])
  end.
Definition lines_of (p : NormalizedPayload) : list (list Z) := split_lines (norm_text p) [].
Fixpoint numbered (number : Z) (lines : list (list Z)) : list (Z * list Z) :=
  match lines with
  | [] => []
  | l :: rest => (number, l) :: numbered (sat_add_u 32 number 1) rest
  end.
Definition numbered_lines (p : NormalizedPayload) : list (Z * list Z) :=
  numbered (first_line_number p) (lines_of p).

(** ** Evidence *)
Inductive EvidenceStrength : Type := Strong | Weak.
Inductive Base64Alphabet : Type := AlphaStandard | AlphaUrlSafe.
Inductive Base64Padding : Type := PadPresent | PadMissing | PadNotRequired.
Record Base64Details : Type := mkDetails {
  alphabet : Base64Alphabet;
  padding : Base64Padding;
  compact_len : Z;
}.
Record FormatEvidence : Type := mkEvidence {
  ev_format : FormatHint;
  ev_strength : EvidenceStrength;
  ev_base64 : option Base64Details;
}.
Record DetectionResult : Type := mkDetection {
  det_format : FormatHint;
  det_strength : EvidenceStrength;
  det_evidence : list FormatEvidence;
}.
Inductive DetectionError : Type :=
| Normalize (e : NormalizationError)
| EmptyInput
| UnknownFormat
| AmbiguousFormat (candidates : list FormatHint)
| FormatHintMismatch (expected : FormatHint) (candidates : list FormatHint)
| InvalidJsonText
| InvalidYaml.
#[export] Instance FormatHint_eq_dec : EqDecision FormatHint.
Proof. solve_decision. Defined.
#[export] Instance EvidenceStrength_eq_dec : EqDecision EvidenceStrength.
Proof. solve_decision. Defined.

Definition URI_SCHEMES : list string :=
  ["vless://"; "vmess://"; "ss://"; "trojan://"; "hysteria2://"; "hy2://"; "tuic://"; "anytls://"].

Definition strong (f : FormatHint) : FormatEvidence := mkEvidence f Strong None.

Definition formats_match (expected actual : FormatHint) : bool :=
  bool_decide (expected = actual)
  || match expected, actual with FSurfboardIni, FIniProfile => true | _, _ => false end.

Definition choose_evidence (evidence : list FormatEvidence) (expected : FormatHint) :
    Result DetectionError DetectionResult :=
  let strong_formats := ev_format <$> filter (fun c => ev_strength c = Strong) evidence in
  if negb (bool_decide (expected = FAuto)) then
    match List.find (fun c => formats_match expected (ev_format c)) evidence with
    | Some c => Ok (mkDetection expected (ev_strength c) evidence)
    | None => Err (FormatHintMismatch expected (ev_format <$> evidence))
    end
  else
    match strong_formats with
    | [f] => Ok (mkDetection f Strong evidence)
    | _ :: _ :: _ => Err (AmbiguousFormat strong_formats)
    | [] =>
        match evidence with
        | [c] => Ok (mkDetection (ev_format c) (ev_strength c) evidence)
        | [] => Err UnknownFormat
        | _ => Err (AmbiguousFormat (ev_format <$> evidence))
        end
    end.

(** ** JSON text

    The suffix of the text stands for the index.  [json_string] reads on from just
    after the opening quote: the content and the text after the closing one. *)
Fixpoint json_string (bs : list Z) (escaped : bool) (content : list Z) : option (list Z * list Z) :=
  match bs with
  | [] => None
  | b :: rest =>
      if escaped then json_string rest false (content ++ [b])
      else if b =? 92 then json_string rest true (content ++ [b])
      else if b =? 34 then Some (content, rest)
      else json_string rest false (content ++ [b])
  end.

(** [u8::is_ascii_whitespace]: space, tab, line feed, form feed, carriage return. *)
Definition is_ascii_whitespace (b : Z) : bool :=
  (b =? 32) || (b =? 9) || (b =? 10) || (b =? 12) || (b =? 13).
Fixpoint skip_ascii_space (bs : list Z) : list Z :=
  match bs with
  | b :: rest => if is_ascii_whitespace b then skip_ascii_space rest else bs
  | [] => []
  end.

(** A key followed by [:] and an array. *)
Definition opens_array (rest : list Z) : bool :=
  match skip_ascii_space rest with
  | 58 :: after =>
      match skip_ascii_space after with
      | 91 :: _ => true
      | _ => false
      end
  | _ => false
  end.

(** The scanners; [None] when the fuel runs out. *)
Fixpoint object_scan (fuel : nat) (bs : list Z) (depth : Z) (key : list Z) : option bool :=
  match fuel with
  | O => None
  | S fuel' =>
      match bs with
      | [] => Some false
      | b :: rest =>
          if b =? 34 then
            match json_string rest false [] with
            | None => Some false
            | Some (value, next) =>
                if (depth =? 1) && bool_decide (value = key) && opens_array next then Some true
                else object_scan fuel' next depth key
            end
          else if (b =? 123) || (b =? 91) then object_scan fuel' rest (depth + 1) key
          else if (b =? 125) || (b =? 93) then object_scan fuel' rest (sat_sub_u depth 1) key
          else object_scan fuel' rest depth key
      end
  end.
Definition top_level_object_has_array_key (bs key : list Z) : option bool :=
  object_scan (S (length bs)) (tail bs) 1 key.

Fixpoint array_scan (fuel : nat) (bs : list Z) (depth : Z) : option bool :=
  match fuel with
  | O => None
  | S fuel' =>
      match bs with
      | [] => Some false
      | b :: rest =>
          if b =? 34 then
            match json_string rest false [] with
            | None => Some false
            | Some (value, next) =>
                if (depth =? 2) && (bool_decide (value = bytes "type") || bool_decide (value = bytes "tag"))
                then Some true
                else array_scan fuel' next depth
            end
          else if (b =? 123) || (b =? 91) then array_scan fuel' rest (depth + 1)
          else if (b =? 125) || (b =? 93) then array_scan fuel' rest (sat_sub_u depth 1)
          else array_scan fuel' rest depth
      end
  end.
Definition top_level_array_has_outbound_marker (bs : list Z) : option bool :=
  array_scan (S (length bs)) (tail bs) 1.

Definition supported_json_shape (bs : list Z) : option bool :=
  match bs with
  | 123 :: _ =>
      has_outbounds ← top_level_object_has_array_key bs (bytes "outbounds");
      if (has_outbounds : bool) then Some true
      else top_level_object_has_array_key bs (bytes "endpoints")
  | _ => top_level_array_has_outbound_marker bs
  end.

(** ** YAML, URI, profile and Base64 evidence *)
Definition starts_with_byte (b : Z) (bs : list Z) : bool :=
  match bs with c :: _ => c =? b | [] => false end.
Definition indented (raw : list Z) : bool := negb (len raw =? len (trim_left raw)).
Definition has_prefix (prefix bs : list Z) : bool :=
  match strip_prefix prefix bs with Some _ => true | None => false end.

(** The flow state of [balanced_yaml_flow]; [None] is its early [return false]. *)
Record Flow : Type := mkFlow {
  square : Z; curly : Z; single : bool; double : bool; esc : bool;
}.
Definition flow_step (f : Flow) (b : Z) : option Flow :=
  if double f && esc f then Some (mkFlow (square f) (curly f) (single f) (double f) false)
  else if double f && (b =? 92) then Some (mkFlow (square f) (curly f) (single f) (double f) true)
  else if (b =? 39) && negb (double f)
  then Some (mkFlow (square f) (curly f) (negb (single f)) (double f) (esc f))
  else if (b =? 34) && negb (single f)
  then Some (mkFlow (square f) (curly f) (single f) (negb (double f)) (esc f))
  else if single f || double f then Some f
  else if b =? 91 then Some (mkFlow (square f + 1) (curly f) (single f) (double f) (esc f))
  else if b =? 93 then
    if square f =? 0 then None
    else Some (mkFlow (square f - 1) (curly f) (single f) (double f) (esc f))
  else if b =? 123 then Some (mkFlow (square f) (curly f + 1) (single f) (double f) (esc f))
  else if b =? 125 then
    if curly f =? 0 then None
    else Some (mkFlow (square f) (curly f - 1) (single f) (double f) (esc f))
  else Some f.
Fixpoint flow_loop (bs : list Z) (f : Flow) : bool :=
  match bs with
  | [] => (square f =? 0) && (curly f =? 0) && negb (single f) && negb (double f) && negb (esc f)
  | b :: rest => match flow_step f b with None => false | Some f' => flow_loop rest f' end
  end.
Definition balanced_yaml_flow (bs : list Z) : bool := flow_loop bs (mkFlow 0 0 false false false).

Definition is_block_item (candidate : list Z) : bool :=
  negb (len (trim_text candidate) =? 0) && indented candidate
  && starts_with_byte 45 (trim_left candidate).

(** Whether some line introduces the proxies. *)
Fixpoint yaml_lines (lines : list (list Z)) : bool :=
  match lines with
  | [] => false
  | raw :: rest =>
      let trimmed := trim_text raw in
      if (len trimmed =? 0) || starts_with_byte 35 trimmed || bool_decide (trimmed = bytes "---")
      then yaml_lines rest
      else if indented raw || negb (has_prefix (bytes "proxies:") trimmed) then yaml_lines rest
      else
        let remainder := trim_text (drop 8 trimmed) in
        if starts_with_byte 91 remainder || ((len remainder =? 0) && existsb is_block_item rest)
        then true
        else yaml_lines rest
  end.
(** [yaml_evidence]: [strong] and [valid]. *)
Definition yaml_evidence (p : NormalizedPayload) : bool * bool :=
  match norm_text p with
  | 123 :: _ | 91 :: _ => (false, true)
  | _ => if yaml_lines (lines_of p) then (true, balanced_yaml_flow (norm_text p)) else (false, true)
  end.

Definition is_uri_line (raw : list Z) : bool :=
  let line := trim_left raw in
  negb (starts_with_byte 35 line)
  && existsb (fun scheme => match strip_prefix (bytes scheme) line with
                            | Some (_ :: _) => true
                            | _ => false
                            end) URI_SCHEMES.
Definition has_uri_evidence (p : NormalizedPayload) : bool := existsb is_uri_line (lines_of p).

Fixpoint profile_lines (lines : list (list Z)) : bool :=
  match lines with
  | [] => false
  | raw :: rest =>
      let line := trim_text raw in
      if (len line =? 0) || starts_with_byte 35 line || starts_with_byte 59 line then profile_lines rest
      else
        bool_decide (line = bytes "[Proxy]") || bool_decide (line = bytes "[General]")
        || bool_decide (line = bytes "[Proxy Group]")
  end.

(** The characters of [base64_evidence], with the position of the first [=]. *)
Fixpoint evidence_loop (bs : list Z) (index : Z) (std url : bool) (pad : option Z) :
    option (bool * bool * option Z) :=
  match bs with
  | [] => Some (std, url, pad)
  | b :: rest =>
      let padded := match pad with Some _ => true | None => false end in
      if is_ascii_alphanumeric b then
        if padded then None else evidence_loop rest (index + 1) std url pad
      else if (b =? 43) || (b =? 47) then
        if padded then None else evidence_loop rest (index + 1) true url pad
      else if (b =? 45) || (b =? 95) then
        if padded then None else evidence_loop rest (index + 1) std true pad
      else if b =? 61 then
        evidence_loop rest (index + 1) std url (if padded then pad else Some index)
      else None
  end.
Definition is_break (b : Z) : bool := (b =? 13) || (b =? 10).
Definition without_breaks (bs : list Z) : list Z := filter (fun b => is_break b = false) bs.

Definition base64_evidence (bs : list Z) : option Base64Details :=
  let compact := without_breaks bs in
  let n := len compact in
  if (n <? 4) || (n mod 4 =? 1) then None
  else
    match evidence_loop compact 0 false false None with
    | None => None
    | Some (std, url, pad) =>
        if std && url then None
        else
          let refused :=
            match pad with
            | Some index => (2 <? n - index) || negb (n mod 4 =? 0)
            | None => false
            end in
          if refused then None
          else
            Some (mkDetails (if url then AlphaUrlSafe else AlphaStandard)
                    (match pad with
                     | Some _ => PadPresent
                     | None => if n mod 4 =? 0 then PadNotRequired else PadMissing
                     end) n)
    end.

(** ** Detection *)

(** [detect_normalized] from the YAML evidence on. *)
Definition after_json (p : NormalizedPayload) (expected : FormatHint) (ev : list FormatEvidence) :
    Result DetectionError DetectionResult :=
  let '(yaml_strong, yaml_valid) := yaml_evidence p in
  if yaml_strong && negb yaml_valid then Err InvalidYaml
  else
    let ev1 := if (yaml_strong : bool) then ev ++ [strong FClashYaml] else ev in
    let ev2 := if has_uri_evidence p then ev1 ++ [strong FUriList] else ev1 in
    let ev3 :=
      match base64_evidence (norm_text p) with
      | Some details => ev2 ++ [mkEvidence FBase64List Weak (Some details)]
      | None => ev2
      end in
    choose_evidence ev3 expected.

Section detect.
Context (json_valid : list Z -> bool).

(** [None] is a panic or a scanner out of fuel; see [detect_bytes_total]. *)
Definition detect_normalized (p : NormalizedPayload) (expected : FormatHint) :
    option (Result DetectionError DetectionResult) :=
  if len (norm_text p) =? 0 then Some (Err EmptyInput)
  else
    let profile := profile_lines (lines_of p) in
    let ev0 := if profile then [strong FIniProfile] else [] in
    first ← head (norm_text p);
    if ((first =? 123) || (first =? 91)) && negb profile then
      if negb (json_valid (norm_text p)) then Some (Err InvalidJsonText)
      else
        supported ← supported_json_shape (norm_text p);
        Some (after_json p expected (if (supported : bool) then ev0 ++ [strong FSingboxJson] else ev0))
    else Some (after_json p expected ev0).

Definition detect_bytes (bs : list Z) (expected : FormatHint) (limits : ParserLimits) :
    option (Result DetectionError DetectionResult) :=
  match normalize_bytes bs limits with
  | Err e => Some (Err (Normalize e))
  | Ok p => detect_normalized p expected
  end.
End detect.

(** ** The scanners end *)
Lemma json_string_shorter bs escaped content value next :
  json_string bs escaped content = Some (value, next) -> (length next < length bs)%nat.
Proof.
  revert escaped content. induction bs as [|b bs IH]; intros escaped content; simpl; [done|].
  destruct escaped; [intros H%IH; lia|].
  destruct (b =? 92); [intros H%IH; lia|]. destruct (b =? 34); [intros [= _ ->]; lia|].
  intros H%IH; lia.
Qed.

Lemma object_scan_total fuel bs depth key :
  (length bs < fuel)%nat -> is_Some (object_scan fuel bs depth key).
Proof.
  revert bs depth. induction fuel as [|fuel IH]; intros bs depth Hf; [lia|]. simpl.
  destruct bs as [|b bs]; [by eexists|]. simpl in Hf.
  destruct (b =? 34).
  { destruct (json_string bs false []) as [[value next]|] eqn:Hs; [|by eexists].
    apply json_string_shorter in Hs. destruct (_ && _ && _); [by eexists|]. apply IH. lia. }
  repeat case_match; apply IH; lia.
Qed.

Lemma array_scan_total fuel bs depth :
  (length bs < fuel)%nat -> is_Some (array_scan fuel bs depth).
Proof.
  revert bs depth. induction fuel as [|fuel IH]; intros bs depth Hf; [lia|]. simpl.
  destruct bs as [|b bs]; [by eexists|]. simpl in Hf.
  destruct (b =? 34).
  { destruct (json_string bs false []) as [[value next]|] eqn:Hs; [|by eexists].
    apply json_string_shorter in Hs. destruct (_ && _); [by eexists|]. apply IH. lia. }
  repeat case_match; apply IH; lia.
Qed.

Lemma supported_json_shape_total bs : is_Some (supported_json_shape bs).
Proof.
  assert (forall key, is_Some (top_level_object_has_array_key bs key)) as Ho.
  { intros key. apply object_scan_total. destruct bs; simpl; lia. }
  assert (is_Some (top_level_array_has_outbound_marker bs)) as Ha.
  { apply array_scan_total. destruct bs; simpl; lia. }
  unfold supported_json_shape.
  assert (is_Some (has_outbounds ← top_level_object_has_array_key bs (bytes "outbounds");
      if (has_outbounds : bool) then Some true
      else top_level_object_has_array_key bs (bytes "endpoints"))) as Hb.
  { destruct (Ho (bytes "outbounds")) as [[] ->]; simpl; [by eexists|apply Ho]. }
  repeat case_match; done.
Qed.

Lemma detect_bytes_total json_valid bs expected limits :
  is_Some (detect_bytes json_valid bs expected limits).
Proof.
  unfold detect_bytes. destruct (normalize_bytes bs limits) as [p|e]; [|by eexists].
  unfold detect_normalized. split_if Hz; [by eexists|].
  destruct (norm_text p) as [|first rest] eqn:Ht; [done|].
  cbn [head mbind option_bind].
  destruct (supported_json_shape_total (first :: rest)) as [b Hb].
  destruct (_ && _); [|by eexists]. destruct (negb (json_valid _)); [by eexists|].
  rewrite Hb. by eexists.
Qed.
