(* ===== verification/Base64.v ===== *)
(** * Base64: the Base64 container of a subscription

    Models crates/nethop-subscription/src/base64_container.rs: removing the line
    breaks and choosing the alphabet, sizing the output, decoding, and detecting
    what is inside.

    The decoding engine is the base64 crate: the class [Base64Engine] with the
    documented behaviour its client relies on ([Base64EngineLaws]).  The reference
    encoding of RFC 4648 ([encode]) states those laws and the round trip. *)

From S2P Require Import Prelude Text Source Detect.

Local Open Scope Z_scope.

(** ** The container *)
Inductive Base64Variant : Type := Standard | UrlSafe.
#[export] Instance Base64Variant_eq_dec : EqDecision Base64Variant.
Proof. solve_decision. Defined.

Inductive Base64ContainerError : Type :=
| Nested
| Invalid
| InputTooLarge (limit : Z)
| OutputTooLarge (limit : Z)
| InvalidUtf8
| Detection (e : DetectionError).

Record DecodedSubscription : Type := mkDecoded {
  decoded_bytes : list Z;
  decoded_variant : Base64Variant;
  decoded_depth : Z;
  decoded_detected : option DetectionResult;
}.

(** [decode_slice] of the engine for a variant, with or without padding, into a
    buffer of the given size: the bytes it wrote, or an error. *)
Class Base64Engine : Type := {
  decode_slice : Base64Variant -> bool -> list Z -> Z -> option (list Z);
}.

Definition is_std (b : Z) : bool := (b =? 43) || (b =? 47).
Definition is_url (b : Z) : bool := (b =? 45) || (b =? 95).
Definition is_symbol (b : Z) : bool :=
  is_std b || is_url b || is_ascii_alphanumeric b || (b =? 61).

(** The loop of [compact_and_classify]; the text is copied only when it has line
    breaks, which gives the same bytes. *)
Fixpoint classify_loop (input : list Z) (compact : list Z) (std url : bool) :
    Result Base64ContainerError (list Z * bool) :=
  match input with
  | [] => Ok (compact, url)
  | b :: rest =>
      if is_break b then classify_loop rest compact std url
      else
        let std' := std || is_std b in
        let url' := url || is_url b in
        if negb (is_symbol b) then Err Invalid
        else if std' && url' then Err Invalid
        else classify_loop rest (compact ++ [b]) std' url'
  end.

Definition compact_and_classify (input : list Z) :
    Result Base64ContainerError (list Z * Base64Variant) :=
  match classify_loop input [] false false with
  | Err e => Err e
  | Ok (compact, url) =>
      if len compact =? 0 then Err Invalid else Ok (compact, if url then UrlSafe else Standard)
  end.

(** The number of trailing [=]. *)
Fixpoint leading_pads (bs : list Z) : Z :=
  match bs with
  | b :: rest => if b =? 61 then 1 + leading_pads rest else 0
  | [] => 0
  end.
Definition padding_of (compact : list Z) : Z := leading_pads (reverse compact).

(** The size of the output; [None] when a checked operation fails. *)
Definition output_estimate (length remainder padding : Z) : option Z :=
  let groups := length / 4 * 3 in
  let value := groups + (if remainder =? 2 then 1 else if remainder =? 3 then 2 else 0) in
  if umax 64 <? groups then None
  else if umax 64 <? value then None
  else if value <? padding then None
  else Some (value - padding).

Section container.
Context `{!Base64Engine}.

Definition decode_compact (compact : list Z) (variant : Base64Variant) (limit : Z) :
    Result Base64ContainerError (list Z) :=
  if len compact mod 4 =? 1 then Err Invalid
  else
    let padding := padding_of compact in
    if (2 <? padding) || ((0 <? padding) && negb (len compact mod 4 =? 0)) then Err Invalid
    else
      match output_estimate (len compact) (len compact mod 4) padding with
      | None => Err Invalid
      | Some estimate =>
          if limit <? estimate then Err (OutputTooLarge limit)
          else
            match decode_slice variant (negb (padding =? 0)) compact estimate with
            | None => Err Invalid
            | Some output => Ok output
            end
      end.

Definition decode_base64_at_depth (input : list Z) (limits : ParserLimits) (depth : Z) :
    Result Base64ContainerError DecodedSubscription :=
  if 0 <? depth then Err Nested
  else if max_body_bytes limits <? len input then Err (InputTooLarge (max_body_bytes limits))
  else
    '(compact, variant) ← compact_and_classify input;
    bs ← decode_compact compact variant (max_body_bytes limits);
    Ok (mkDecoded bs variant (sat_add_u 8 depth 1) None).

Definition decode_base64 (input : list Z) (limits : ParserLimits) :
    Result Base64ContainerError DecodedSubscription :=
  decode_base64_at_depth input limits 0.

Definition decode_base64_with_limit (input : list Z) (limit : Z) :
    Result Base64ContainerError (list Z) :=
  '(compact, variant) ← compact_and_classify input;
  decode_compact compact variant limit.

(** [None]: see [detect_bytes]. *)
Definition decode_base64_and_detect (json_valid : list Z -> bool) (input : list Z)
    (limits : ParserLimits) : option (Result Base64ContainerError DecodedSubscription) :=
  match decode_base64 input limits with
  | Err e => Some (Err e)
  | Ok decoded =>
      detected ← detect_bytes json_valid (decoded_bytes decoded) FAuto limits;
      Some
        match detected with
        | Err e => Err (Detection e)
        | Ok d =>
            if bool_decide (det_format d = FBase64List) then Err Nested
            else Ok (mkDecoded (decoded_bytes decoded) (decoded_variant decoded)
                       (decoded_depth decoded) (Some d))
        end
  end.

(** [DecodedSubscription::detected_format]. *)
Definition detected_format (d : DecodedSubscription) : FormatHint :=
  match decoded_detected d with Some r => det_format r | None => FAuto end.
End container.

(** ** RFC 4648 *)
Definition symbol (v : Base64Variant) (n : Z) : Z :=
  if n <? 26 then 65 + n
  else if n <? 52 then 71 + n
  else if n <? 62 then n - 4
  else
    match v with
    | Standard => if n =? 62 then 43 else 47
    | UrlSafe => if n =? 62 then 45 else 95
    end.
Fixpoint encode (v : Base64Variant) (pad : bool) (bs : list Z) : list Z :=
  match bs with
  | [] => []
  | [a] => [symbol v (a / 4); symbol v (a mod 4 * 16)] ++ (if pad then [61; 61] else [])
  | [a; b] =>
      [symbol v (a / 4); symbol v (a mod 4 * 16 + b / 16); symbol v (b mod 16 * 4)]
      ++ (if pad then [61] else [])
  | a :: b :: c :: rest =>
      symbol v (a / 4) :: symbol v (a mod 4 * 16 + b / 16)
        :: symbol v (b mod 16 * 4 + c / 64) :: symbol v (c mod 64) :: encode v pad rest
  end.
Definition is_byte (b : Z) : Prop := is_uint 8 b.

(** What the crate documents: the engines decode what the encoding of their
    alphabet and padding mode produces when the buffer can hold it (the padded
    engine wants the padding, the other one wants none), and never write past the
    buffer. *)
Class Base64EngineLaws `{Base64Engine} : Prop := {
  decode_encode : forall v pad bs size,
    Forall is_byte bs -> len bs <= size -> decode_slice v pad (encode v pad bs) size = Some bs;
  decode_fits : forall v pad text size bs, decode_slice v pad text size = Some bs -> len bs <= size;
}.

(** ** Classification *)
Lemma classify_loop_eq input compact std url :
  std && url = false ->
  classify_loop input compact std url
  = let text := without_breaks input in
    if forallb is_symbol text && negb ((std || existsb is_std text) && (url || existsb is_url text))
    then Ok (compact ++ text, url || existsb is_url text)
    else Err Invalid.
Proof.
  revert compact std url. induction input as [|b input IH]; intros compact std url Hsu.
  { simpl. rewrite !orb_false_r, Hsu, app_nil_r. done. }
  cbn [classify_loop]. unfold without_breaks. rewrite filter_cons. fold (without_breaks input).
  destruct (is_break b) eqn:Hb.
  { rewrite decide_False by done. by apply IH. }
  rewrite decide_True by done. cbn [forallb existsb].
  destruct (is_symbol b); [|done]. cbn [negb andb].
  destruct ((std || is_std b) && (url || is_url b)) eqn:Hboth.
  - apply andb_true_iff in Hboth as [Hs Hu]. rewrite !orb_assoc, Hs, Hu. simpl. by rewrite andb_false_r.
  - rewrite IH by done. rewrite !orb_assoc. simpl. by rewrite <- (assoc_L (++)).
Qed.

Lemma compact_and_classify_eq input :
  compact_and_classify input
  = let text := without_breaks input in
    if forallb is_symbol text && negb (existsb is_std text && existsb is_url text)
       && negb (len text =? 0)
    then Ok (text, if existsb is_url text then UrlSafe else Standard)
    else Err Invalid.
Proof.
  unfold compact_and_classify. rewrite classify_loop_eq by done. cbv zeta. simpl.
  destruct (forallb _ _ && negb _); simpl; [|done]. by destruct (len _ =? 0).
Qed.

(** ** The encoding *)
Section list_by_three.
Context {A : Type} (P : list A -> Prop).
Hypotheses (P0 : P []) (P1 : forall a, P [a]) (P2 : forall a b, P [a; b])
  (P3 : forall a b c rest, P rest -> P (a :: b :: c :: rest)).
Fixpoint list_by_three (l : list A) : P l :=
  match l with
  | [] => P0
  | [a] => P1 a
  | [a; b] => P2 a b
  | a :: b :: c :: rest => P3 a b c rest (list_by_three rest)
  end.
End list_by_three.

Definition is_data (b : Z) : bool := is_std b || is_url b || is_ascii_alphanumeric b.

(** One symbol: valid, not the pad, and specific only as its alphabet says. *)
Lemma symbol_facts v n :
  0 <= n < 64 ->
  is_data (symbol v n) = true /\ symbol v n <> 61
  /\ match v with
     | Standard => is_url (symbol v n) = false
     | UrlSafe => is_std (symbol v n) = false
                  /\ (is_url (symbol v n) = false -> symbol v n = symbol Standard n)
     end.
Proof.
  intros Hn. unfold is_data, is_std, is_url, is_ascii_alphanumeric, is_ascii_digit, is_ascii_lowercase,
    is_ascii_uppercase, in_range, symbol.
  destruct (Z.ltb_spec n 26); [destruct v; repeat split; lia|].
  destruct (Z.ltb_spec n 52); [destruct v; repeat split; lia|].
  destruct (Z.ltb_spec n 62); [destruct v; repeat split; lia|].
  destruct v, (Z.eqb_spec n 62); repeat split; try done; lia.
Qed.

(** The sextets of a text. *)
Fixpoint sextets (bs : list Z) : list Z :=
  match bs with
  | [] => []
  | [a] => [a / 4; a mod 4 * 16]
  | [a; b] => [a / 4; a mod 4 * 16 + b / 16; b mod 16 * 4]
  | a :: b :: c :: rest =>
      a / 4 :: a mod 4 * 16 + b / 16 :: b mod 16 * 4 + c / 64 :: c mod 64 :: sextets rest
  end.
Definition pads (n : Z) : nat := Z.to_nat ((3 - n mod 3) mod 3).

Lemma encode_sextets v pad bs :
  encode v pad bs = (symbol v <$> sextets bs) ++ (if pad then replicate (pads (len bs)) 61 else []).
Proof.
  induction bs as [|a|a b|a b c rest IH] using list_by_three; try (by destruct pad).
  cbn [encode sextets fmap list_fmap app]. rewrite IH.
  replace (pads (len (a :: b :: c :: rest))) with (pads (len rest)); [done|].
  unfold pads, len. simpl length. do 2 f_equal.
  replace (Z.of_nat (S (S (S (length rest))))) with (Z.of_nat (length rest) + 1 * 3) by lia.
  by rewrite Z_mod_plus_full.
Qed.

Lemma sextets_range bs : Forall is_byte bs -> Forall (fun n => 0 <= n < 64) (sextets bs).
Proof.
  assert (forall a k, 0 <= a < 256 -> 0 < k -> a / k * k <= a /\ 0 <= a / k /\ 0 <= a mod k < k) as Hdiv.
  { intros a k Ha Hk. pose proof (Z.div_mod a k ltac:(lia)). pose proof (Z.mod_pos_bound a k Hk).
    pose proof (Z.div_pos a k ltac:(lia) Hk). lia. }
  induction bs as [|a|a b|a b c rest IH] using list_by_three; intros Hb;
    repeat (apply Forall_cons in Hb as [? Hb]); unfold is_byte, is_uint in *; simpl.
  - constructor.
  - pose proof (Hdiv a 4). repeat constructor; lia.
  - pose proof (Hdiv a 4). pose proof (Hdiv b 16). repeat constructor; lia.
  - pose proof (Hdiv a 4). pose proof (Hdiv b 16). pose proof (Hdiv c 64).
    repeat apply List.Forall_cons; [lia..|auto].
Qed.

Lemma sextets_length bs :
  len (sextets bs) = len bs / 3 * 4 + (if len bs mod 3 =? 0 then 0 else len bs mod 3 + 1).
Proof.
  induction bs as [|a|a b|a b c rest IH] using list_by_three; try done.
  unfold len in *. cbn [sextets length].
  replace (Z.of_nat (S (S (S (length rest))))) with (Z.of_nat (length rest) + 1 * 3) by lia.
  rewrite Z_div_plus_full, Z_mod_plus_full by lia. lia.
Qed.

Lemma padding_of_replicate data k :
  Forall (fun b => b <> 61) data -> padding_of (data ++ replicate k 61) = Z.of_nat k.
Proof.
  intros Hd. unfold padding_of. rewrite reverse_app, reverse_replicate.
  apply Forall_reverse in Hd. revert Hd. generalize (reverse data). clear data. intros data Hd.
  induction k as [|k IH].
  - simpl. destruct Hd as [|b rest Hb _]; [done|]. simpl. by rewrite (proj2 (Z.eqb_neq b 61)).
  - cbn [replicate app leading_pads]. rewrite IH. change (61 =? 61) with true. cbn iota. lia.
Qed.

(** The text of an encoding: its symbols, its classes and its shape. *)
Section encoded_text.
Context (v : Base64Variant) (pad : bool) (bs : list Z).
Hypothesis all_bytes : Forall is_byte bs.
Let text := encode v pad bs.

Lemma data_facts :
  Forall (fun b => is_data b = true /\ b <> 61
                   /\ match v with Standard => is_url b = false | UrlSafe => is_std b = false end)
    (symbol v <$> sextets bs).
Proof.
  apply Forall_fmap. eapply Forall_impl; [by apply sextets_range|]. intros n Hn. simpl.
  destruct (symbol_facts v n Hn) as (? & ? & H). destruct v; naive_solver.
Qed.

Lemma text_symbols :
  forallb is_symbol text = true
  /\ match v with Standard => existsb is_url text = false | UrlSafe => existsb is_std text = false end.
Proof.
  unfold text. rewrite encode_sextets, forallb_app, existsb_app.
  pose proof data_facts as Hd.
  assert (forall k, forallb is_symbol (replicate k 61) = true /\ existsb is_url (replicate k 61) = false
                    /\ existsb is_std (replicate k 61) = false) as Hp.
  { induction k as [|k IH]; [done|]. simpl. destruct IH as (-> & -> & ->). done. }
  assert (forallb is_symbol (symbol v <$> sextets bs) = true) as Hsym.
  { apply forallb_forall. intros x Hx%list_elem_of_In. rewrite Forall_forall in Hd.
    destruct (Hd x Hx) as (H & _). unfold is_data in H. unfold is_symbol. by rewrite H. }
  destruct (Hp (pads (len bs))) as (Hp1 & Hp2 & Hp3).
  split; [destruct pad; by rewrite ?Hsym, ?Hp1|].
  destruct v; rewrite ?existsb_app; (apply orb_false_iff; split; [|by destruct pad]);
    apply not_true_iff_false; intros (x & Hx%list_elem_of_In & Hxu)%existsb_exists;
    rewrite Forall_forall in Hd; destruct (Hd x Hx) as (_ & _ & H); congruence.
Qed.

(** Without a specific symbol the two alphabets agree. *)
Lemma text_standard : existsb is_url text = false -> text = encode Standard pad bs.
Proof.
  unfold text. rewrite !encode_sextets. rewrite existsb_app. intros [Hu _]%orb_false_iff. f_equal.
  pose proof (sextets_range bs all_bytes) as Hr. induction Hr as [|n l Hn Hr IH]; [done|].
  csimpl in Hu. apply orb_false_iff in Hu as [Hu1 Hu2]. csimpl. f_equal; [|by apply IH].
  destruct v; [done|]. by apply (symbol_facts UrlSafe n Hn).
Qed.

(** The estimate is the length of the payload. *)
Lemma text_shape :
  len text <= umax 64 ->
  (len text mod 4 =? 1) = false
  /\ ((2 <? padding_of text) || ((0 <? padding_of text) && negb (len text mod 4 =? 0))) = false
  /\ output_estimate (len text) (len text mod 4) (padding_of text) = Some (len bs)
  /\ len bs <= len text
  /\ text = encode v (negb (padding_of text =? 0)) bs.
Proof.
  intros Hmax. set (k := if pad then pads (len bs) else 0%nat).
  assert (text = (symbol v <$> sextets bs) ++ replicate k 61) as Ht.
  { unfold text, k. rewrite encode_sextets. by destruct pad. }
  assert (padding_of text = Z.of_nat k) as Hpad.
  { rewrite Ht. apply padding_of_replicate. eapply Forall_impl; [apply data_facts|]. naive_solver. }
  assert (len text = len (sextets bs) + Z.of_nat k) as Hlen.
  { rewrite Ht. unfold len. rewrite length_app, length_fmap, length_replicate. lia. }
  rewrite sextets_length in Hlen. pose proof (len_nonneg bs) as Hn.
  pose proof (Z.mod_pos_bound (len bs) 3 ltac:(lia)) as Hm.
  pose proof (Z.div_mod (len bs) 3 ltac:(lia)) as Hdm. pose proof (Z.div_pos (len bs) 3 Hn ltac:(lia)) as Hq.
  set (q := len bs / 3) in *. set (r := len bs mod 3) in *.
  assert (Z.of_nat k = if pad then (3 - r) mod 3 else 0) as Hk.
  { unfold k, pads. destruct pad; [|done]. fold r. rewrite Z2Nat.id; [done|].
    pose proof (Z.mod_pos_bound (3 - r) 3 ltac:(lia)). lia. }
  rewrite Hpad.
  assert (len text mod 4 = (len text - q * 4) mod 4 /\ len text / 4 = q + (len text - q * 4) / 4) as [Hm4 Hd4].
  { replace (len text) with ((len text - q * 4) + q * 4) at 1 3 by lia.
    rewrite Z_mod_plus_full, Z_div_plus_full by lia. lia. }
  assert (text = encode v (negb (Z.of_nat k =? 0)) bs) as Htext.
  { rewrite encode_sextets, Ht. f_equal. unfold k. destruct pad; [|done].
    destruct (pads (len bs)); done. }
  split_and!; [..|destruct (Z.eqb_spec r 0); lia|exact Htext].
  all: unfold output_estimate; rewrite ?Hm4, ?Hd4; clearbody q r k; clear Ht Hpad Htext Hm4 Hd4.
  all: assert (r = 0 \/ r = 1 \/ r = 2) as [Hr|[Hr|Hr]] by lia; rewrite Hr in *; clear Hr; destruct pad;
    try change ((3 - 0) mod 3) with 0 in Hk; try change ((3 - 1) mod 3) with 2 in Hk;
    try change ((3 - 2) mod 3) with 1 in Hk; cbn [Z.eqb] in Hlen; rewrite Hk in *.
  all: first [replace (len text - q * 4) with 0 by lia | replace (len text - q * 4) with 4 by lia
             | replace (len text - q * 4) with 2 by lia | replace (len text - q * 4) with 3 by lia];
    try reflexivity.
  all: match goal with |- context [(?a + ?c / 4) * 3] =>
         let x := eval vm_compute in (c / 4) in change (c / 4) with x;
         let y := eval vm_compute in (c mod 4) in change (c mod 4) with y end; cbn [Z.eqb Pos.eqb].
  all: repeat match goal with |- context [?a <? ?b] => destruct (Z.ltb_spec a b) end; try lia; f_equal; lia.
Qed.
End encoded_text.

(** ** Theorems *)
Lemma limits_body_bound limits :
  limits_validate limits = Ok tt -> max_body_bytes limits <= MAX_BODY_BYTES.
Proof.
  unfold limits_validate. cbn [check_limits]. split_if H0; [done|]. split_if H1; [done|].
  apply Z.ltb_ge in H1. done.
Qed.

Lemma without_breaks_len bs : len (without_breaks bs) <= len bs.
Proof.
  unfold without_breaks, len. apply inj_le, sublist_length, sublist_filter.
Qed.

Section engine.
Context `{!Base64Engine, !Base64EngineLaws}.

Lemma leading_pads_nonneg bs : 0 <= leading_pads bs.
Proof. induction bs as [|b bs IH]; simpl; [lia|]. destruct (b =? 61); lia. Qed.

Lemma decode_compact_bounds compact variant limit out :
  decode_compact compact variant limit = Ok out -> len out <= limit /\ len out <= len compact.
Proof.
  unfold decode_compact. split_if H1; [done|]. split_if H2; [done|].
  destruct (output_estimate _ _ _) as [estimate|] eqn:He; [|done]. split_if H3; [done|].
  destruct (decode_slice _ _ _ _) as [o|] eqn:Hs; [|done]. intros [= <-].
  apply decode_fits in Hs. apply Z.ltb_ge in H3. split; [lia|]. etransitivity; [exact Hs|].
  unfold output_estimate in He. do 3 (split_if_in He Hx; [done|clear Hx]). injection He as <-.
  pose proof (leading_pads_nonneg (reverse compact)) as Hpad. fold (padding_of compact) in Hpad.
  pose proof (len_nonneg compact). pose proof (Z.div_mod (len compact) 4 ltac:(lia)).
  pose proof (Z.mod_pos_bound (len compact) 4 ltac:(lia)).
  pose proof (Z.div_pos (len compact) 4 ltac:(lia) ltac:(lia)).
  destruct (Z.eqb_spec (len compact mod 4) 2); [cbn iota; lia|].
  destruct (Z.eqb_spec (len compact mod 4) 3); cbn iota; lia.
Qed.

(** A Base64 container gives back what was put into it: any payload within the
    limits, in either alphabet, with or without padding, and with line breaks
    anywhere in the text, is decoded to exactly its bytes, at depth one. *)
Theorem base64_round_trip v pad bs input limits :
  Forall is_byte bs -> bs <> [] -> without_breaks input = encode v pad bs ->
  limits_validate limits = Ok tt -> len input <= max_body_bytes limits ->
  exists variant, decode_base64 input limits = Ok (mkDecoded bs variant 1 None)
    /\ encode variant pad bs = encode v pad bs.
Proof.
  intros Hb Hne Hin Hlim Hlen. apply limits_body_bound in Hlim. unfold MAX_BODY_BYTES in Hlim.
  pose proof (without_breaks_len input) as Hc. rewrite Hin in Hc.
  destruct (text_symbols v pad bs Hb) as [Hsym Hspec].
  assert (encode v pad bs <> []) as Hne'.
  { destruct bs as [|a [|b [|c rest]]]; done. }
  set (variant := if existsb is_url (encode v pad bs) then UrlSafe else Standard).
  assert (encode variant pad bs = encode v pad bs) as Hv.
  { unfold variant. destruct (existsb is_url (encode v pad bs)) eqn:Hu.
    - destruct v; [congruence|done].
    - symmetry. by apply text_standard. }
  exists variant. split; [|exact Hv]. unfold decode_base64, decode_base64_at_depth. simpl.
  rewrite (proj2 (Z.ltb_ge _ _) Hlen). rewrite compact_and_classify_eq, Hin. cbv zeta.
  rewrite Hsym. replace (existsb is_std (encode v pad bs) && existsb is_url (encode v pad bs)) with false
    by (destruct v; rewrite Hspec; by rewrite ?andb_false_r).
  replace (len (encode v pad bs) =? 0) with false.
  2:{ symmetry. apply Z.eqb_neq. unfold len. destruct (encode v pad bs); simpl; [done|lia]. }
  simpl. fold variant. unfold decode_compact.
  destruct (text_shape v pad bs Hb) as (H1 & H2 & H3 & H4 & H5); [unfold umax; lia|].
  rewrite H1, H2, H3. rewrite (proj2 (Z.ltb_ge _ _)) by lia.
  destruct (text_shape variant pad bs Hb) as (_ & _ & _ & _ & H5'); [rewrite Hv; unfold umax; lia|].
  rewrite Hv in H5'. rewrite H5' at 2. by rewrite decode_encode.
Qed.

(** Decoding is bounded: an accepted container is at depth one, its input and
    its output are within the body limit, and every container offered as the
    inside of another one is refused. *)
Theorem base64_output_bounded input limits d decoded :
  is_uint 8 d -> decode_base64_at_depth input limits d = Ok decoded ->
  d = 0 /\ len input <= max_body_bytes limits
  /\ len (decoded_bytes decoded) <= max_body_bytes limits
  /\ len (decoded_bytes decoded) <= len input
  /\ decode_base64_at_depth (decoded_bytes decoded) limits (decoded_depth decoded) = Err Nested.
Proof.
  intros [Hd _]. unfold decode_base64_at_depth. split_if H1; [done|]. split_if H2; [done|].
  apply Z.ltb_ge in H1, H2. rewrite compact_and_classify_eq. cbv zeta. split_if H3; [|done]. simpl.
  destruct (decode_compact _ _ _) as [out|e] eqn:Hout; [|done]. intros [= <-]. simpl.
  apply decode_compact_bounds in Hout as [Ho1 Ho2]. pose proof (without_breaks_len input).
  assert (d = 0) as -> by lia. split_and!; [done|done|done|lia|done].
Qed.
End engine.

(** An engine with the documented behaviour: the decoder of RFC 4648. *)
Definition value_of (v : Base64Variant) (b : Z) : option Z :=
  if is_ascii_uppercase b then Some (b - 65)
  else if is_ascii_lowercase b then Some (b - 71)
  else if is_ascii_digit b then Some (b + 4)
  else
    match v with
    | Standard => if b =? 43 then Some 62 else if b =? 47 then Some 63 else None
    | UrlSafe => if b =? 45 then Some 62 else if b =? 95 then Some 63 else None
    end.
Fixpoint decode_values (ns : list Z) : option (list Z) :=
  match ns with
  | [] => Some []
  | [_] => None
  | [a; b] => if b mod 16 =? 0 then Some [a * 4 + b / 16] else None
  | [a; b; c] =>
      if c mod 4 =? 0 then Some [a * 4 + b / 16; b mod 16 * 16 + c / 4] else None
  | a :: b :: c :: d :: rest =>
      (fun out => a * 4 + b / 16 :: b mod 16 * 16 + c / 4 :: c mod 4 * 64 + d :: out)
        <$> decode_values rest
  end.
Definition strip_pads (text : list Z) : list Z :=
  take (length text - Z.to_nat (padding_of text)) text.
Definition rfc_decode (v : Base64Variant) (pad : bool) (text : list Z) : option (list Z) :=
  let data := if pad then strip_pads text else text in
  if pad && negb (len text mod 4 =? 0) then None
  else mapM (value_of v) data ≫= decode_values.
Definition rfc_engine : Base64Engine :=
  {| decode_slice v pad text size :=
       out ← rfc_decode v pad text; if len out <=? size then Some out else None |}.

Lemma value_of_symbol v n : 0 <= n < 64 -> value_of v (symbol v n) = Some n.
Proof.
  intros Hn. unfold value_of, symbol, is_ascii_uppercase, is_ascii_lowercase, is_ascii_digit, in_range.
  destruct (Z.ltb_spec n 26); [|destruct (Z.ltb_spec n 52); [|destruct (Z.ltb_spec n 62)]].
  - rewrite (proj2 (Z.leb_le 65 _)), (proj2 (Z.leb_le _ 90)) by lia. simpl. f_equal. lia.
  - rewrite (proj2 (Z.leb_gt _ 90)), andb_false_r, (proj2 (Z.leb_le 97 _)), (proj2 (Z.leb_le _ 122)) by lia.
    simpl. f_equal. lia.
  - rewrite (proj2 (Z.leb_gt 65 _)), (proj2 (Z.leb_gt 97 _)), (proj2 (Z.leb_le 48 _)),
      (proj2 (Z.leb_le _ 57)) by lia. simpl. f_equal. lia.
  - assert (n = 62 \/ n = 63) as [->| ->] by lia; by destruct v.
Qed.

Lemma decode_sextets bs : Forall is_byte bs -> decode_values (sextets bs) = Some bs.
Proof.
  assert (forall a k, 0 <= a < 256 -> 0 < k -> a / k * k + a mod k = a /\ 0 <= a / k < 256 / k + 1
            /\ 0 <= a mod k < k) as Hdm.
  { intros a k Ha Hk. pose proof (Z.div_mod a k ltac:(lia)). pose proof (Z.mod_pos_bound a k Hk).
    pose proof (Z.div_pos a k ltac:(lia) Hk). pose proof (Z.div_le_mono a 256 k Hk ltac:(lia)). lia. }
  assert (forall x y k, 0 < k -> 0 <= y < k -> (x * k + y) / k = x /\ (x * k + y) mod k = y) as Hjoin.
  { intros x y k Hk Hy. rewrite Z.add_comm, Z_div_plus_full, Z_mod_plus_full by lia.
    rewrite Z.div_small, Z.mod_small by lia. lia. }
  induction bs as [|a|a b|a b c rest IH] using list_by_three; intros Hb;
    repeat (apply Forall_cons in Hb as [? Hb]); unfold is_byte, is_uint in *; cbn [sextets decode_values].
  - done.
  - destruct (Hdm a 4) as (Ha & _ & _); [lia..|]. rewrite Z.mod_mul, Z.div_mul by lia. simpl. by rewrite Ha.
  - destruct (Hdm a 4) as (Ha & _ & _), (Hdm b 16) as (Hb' & Hb1 & _); [lia..|].
    rewrite Z.mod_mul, Z.div_mul by lia. cbn [Z.eqb].
    destruct (Hjoin (a mod 4) (b / 16) 16) as [-> ->]; [lia| |by rewrite Ha, Hb'].
    split; [lia|apply Z.div_lt_upper_bound; lia].
  - destruct (Hdm a 4) as (Ha & _ & _), (Hdm b 16) as (Hb' & Hb1 & _), (Hdm c 64) as (Hc & Hc1 & _); [lia..|].
    rewrite IH by done. simpl.
    destruct (Hjoin (a mod 4) (b / 16) 16) as [-> ->]; [lia|split; [lia|apply Z.div_lt_upper_bound; lia]|].
    destruct (Hjoin (b mod 16) (c / 64) 4) as [-> ->]; [lia|split; [lia|apply Z.div_lt_upper_bound; lia]|].
    by rewrite Ha, Hb', Hc.
Qed.

Lemma mapM_values v ns :
  Forall (fun n => 0 <= n < 64) ns -> mapM (value_of v) (symbol v <$> ns) = Some ns.
Proof.
  intros H. apply mapM_Some, Forall2_fmap_l, Forall_Forall2_diag.
  eapply Forall_impl; [exact H|]. intros n Hn. by apply value_of_symbol.
Qed.

Lemma rfc_decode_encode v pad bs : Forall is_byte bs -> rfc_decode v pad (encode v pad bs) = Some bs.
Proof.
  intros Hb. unfold rfc_decode.
  assert ((if pad then strip_pads (encode v pad bs) else encode v pad bs) = symbol v <$> sextets bs) as ->.
  { destruct pad; rewrite encode_sextets; [|apply app_nil_r]. unfold strip_pads.
    rewrite padding_of_replicate by (eapply Forall_impl; [exact (data_facts v true bs Hb)|]; naive_solver).
    rewrite Nat2Z.id, length_app, length_replicate, take_app_length'; [done|]. lia. }
  assert (pad && negb (len (encode v pad bs) mod 4 =? 0) = false) as ->.
  { destruct pad; [|done]. simpl. apply negb_false_iff, Z.eqb_eq. rewrite encode_sextets. unfold len.
    rewrite length_app, length_fmap, length_replicate, Nat2Z.inj_add. fold (len (sextets bs)).
    rewrite sextets_length. unfold pads. pose proof (Z.mod_pos_bound (len bs) 3 ltac:(lia)).
    rewrite Z2Nat.id by (apply Z.mod_pos_bound; lia).
    rewrite <- Z.add_assoc, Z.add_comm, Z_mod_plus_full.
    fold (len bs). assert (len bs mod 3 = 0 \/ len bs mod 3 = 1 \/ len bs mod 3 = 2) as [-> |[-> | ->]] by lia; done. }
  rewrite mapM_values by (by apply sextets_range). simpl. by apply decode_sextets.
Qed.

#[export] Instance rfc_engine_laws : @Base64EngineLaws rfc_engine.
Proof.
  split; simpl.
  - intros v pad bs size Hb Hs. rewrite rfc_decode_encode by done. simpl.
    by rewrite (proj2 (Z.leb_le _ _) Hs).
  - intros v pad text size bs. destruct (rfc_decode v pad text) as [out|]; simpl; [|done].
    split_if H; [|done]. intros [= <-]. by apply Z.leb_le.
Qed.

(** A wrapped URL-safe text without padding. *)
Definition sample_payload : list Z := [251; 255; 190; 1].
Definition sample_input : list Z := take 3 (encode UrlSafe false sample_payload) ++ [13; 10]
  ++ drop 3 (encode UrlSafe false sample_payload).
Definition sample_limits : ParserLimits := default (mkLimits 0 0 0 0 0 0 0 0 0 0 0 0) ParserLimits_default.

Lemma base64_round_trip_witness :
  without_breaks sample_input = bytes "-_--AQ"
  /\ exists variant, @decode_base64 rfc_engine sample_input sample_limits
       = Ok (mkDecoded sample_payload variant 1 None).
Proof.
  split; [vm_compute; reflexivity|].
  destruct (@base64_round_trip rfc_engine _ UrlSafe false sample_payload sample_input sample_limits)
    as (variant & H & _);
    [|done|vm_compute; reflexivity|vm_compute; reflexivity|vm_compute; congruence|exists variant; exact H].
  unfold sample_payload. repeat (apply List.Forall_cons; [split; vm_compute; congruence|]).
  apply List.Forall_nil.
Defined.

Lemma base64_output_bounded_witness :
  len sample_payload <= len sample_input.
Proof.
  refine (proj1 (proj2 (proj2 (proj2 (@base64_output_bounded rfc_engine _ sample_input sample_limits 0
            (mkDecoded sample_payload UrlSafe 1 None) _ _))))); [by split|vm_compute; reflexivity].
Defined.

(** ** The detector and the container agree *)
Lemma evidence_padded text index std url i r :
  evidence_loop text index std url (Some i) = Some r ->
  text = replicate (length text) 61 /\ r = (std, url, Some i).
Proof.
  revert index. induction text as [|b text IH]; intros index; simpl; [by intros [= <-]|].
  destruct (is_ascii_alphanumeric b); [done|]. destruct ((b =? 43) || (b =? 47)); [done|].
  destruct ((b =? 45) || (b =? 95)); [done|]. destruct (Z.eqb_spec b 61) as [->|]; [|done].
  intros H. destruct (IH _ H) as [Ht ->]. split; [by f_equal|done].
Qed.

Lemma evidence_unpadded text index std url r :
  evidence_loop text index std url None = Some r ->
  exists data k, text = data ++ replicate k 61 /\ forallb is_data data = true
    /\ r = (std || existsb is_std data, url || existsb is_url data,
            if (k =? 0)%nat then None else Some (index + len data)).
Proof.
  revert index std url. induction text as [|b text IH]; intros index std url; cbn [evidence_loop].
  { intros [= <-]. exists [], 0%nat. simpl. by rewrite !orb_false_r. }
  assert (forall std' url', is_data b = true -> std || is_std b = std' -> url || is_url b = url' ->
    evidence_loop text (index + 1) std' url' None = Some r ->
    exists data k, b :: text = data ++ replicate k 61 /\ forallb is_data data = true
    /\ r = (std || existsb is_std data, url || existsb is_url data,
            if (k =? 0)%nat then None else Some (index + len data))) as Hnext.
  { intros std' url' Hb <- <- H. destruct (IH _ _ _ H) as (data & k & -> & Hd & ->).
    exists (b :: data), k. cbn [forallb existsb app]. rewrite Hb, Hd, !orb_assoc. split_and!; [done..|].
    destruct (k =? 0)%nat; [done|]. do 2 f_equal. unfold len. simpl. lia. }
  assert (is_data b = is_std b || is_url b || is_ascii_alphanumeric b) as Hdata by done.
  destruct (is_ascii_alphanumeric b) eqn:Halpha.
  { intros H. eapply Hnext; [rewrite Hdata; by rewrite !orb_true_r|..|exact H].
    all: unfold is_std, is_url, is_ascii_alphanumeric, is_ascii_digit, is_ascii_lowercase,
           is_ascii_uppercase, in_range in *; destruct std, url; lia. }
  fold (is_std b) (is_url b). destruct (is_std b) eqn:Hs.
  { assert (is_url b = false) as Hu by (unfold is_std, is_url in *; lia).
    intros H. eapply Hnext; [by rewrite Hdata|..|exact H]; rewrite ?Hs, ?Hu, ?orb_true_r, ?orb_false_r; done. }
  destruct (is_url b) eqn:Hu.
  { intros H. eapply Hnext; [by rewrite Hdata|..|exact H]; rewrite ?Hs, ?Hu, ?orb_true_r, ?orb_false_r; done. }
  destruct (Z.eqb_spec b 61) as [->|]; [|done]. intros H. apply evidence_padded in H as [Ht ->].
  exists [], (S (length text)). cbn [app forallb existsb replicate Nat.eqb]. rewrite <- Ht, !orb_false_r.
  split_and!; [done..|]. do 2 f_equal. unfold len. simpl. lia.
Qed.

Lemma estimate_some n k :
  4 <= n <= umax 64 -> k <= 2 -> exists estimate, output_estimate n (n mod 4) k = Some estimate.
Proof.
  intros [Hn Hmax] Hk. unfold output_estimate. pose proof (Z.div_mod n 4 ltac:(lia)) as Hdm.
  pose proof (Z.mod_pos_bound n 4 ltac:(lia)) as Hm. pose proof (Z.div_le_lower_bound n 4 1 ltac:(lia) ltac:(lia)).
  set (extra := if n mod 4 =? 2 then 1 else if n mod 4 =? 3 then 2 else 0).
  assert (0 <= extra <= n mod 4) as He.
  { unfold extra. destruct (Z.eqb_spec (n mod 4) 2); [lia|]. destruct (Z.eqb_spec (n mod 4) 3); lia. }
  rewrite !(proj2 (Z.ltb_ge _ _)) by lia. by eexists.
Qed.

Section agreement.
Context `{!Base64Engine}.

(** The detector and the container agree: what is reported as Base64 is never
    refused for its characters, its alphabet, its length or its padding; it is
    decoded in the reported alphabet, and refused only when the result exceeds the
    limit or the engine rejects its bits. *)
Theorem base64_evidence_sound bs d limit :
  base64_evidence bs = Some d -> compact_len d <= umax 64 ->
  let variant := match alphabet d with AlphaStandard => Standard | AlphaUrlSafe => UrlSafe end in
  compact_and_classify bs = Ok (without_breaks bs, variant)
  /\ len (without_breaks bs) = compact_len d
  /\ exists estimate padded, decode_base64_with_limit bs limit
     = if limit <? estimate then Err (OutputTooLarge limit)
       else match decode_slice variant padded (without_breaks bs) estimate with
            | Some out => Ok out
            | None => Err Invalid
            end.
Proof.
  unfold base64_evidence. cbv zeta. set (text := without_breaks bs). split_if H1; [done|].
  apply orb_false_iff in H1 as [Hmin%Z.ltb_ge Hmod].
  destruct (evidence_loop text 0 false false None) as [[[std url] pad]|] eqn:He; [|done].
  apply evidence_unpadded in He as (data & k & Ht & Hd & [= -> -> ->]). cbn [orb].
  split_if H2; [done|]. split_if H3; [done|]. intros [= <-] Hmax. simpl in *.
  assert (Forall (fun b => b <> 61) data) as Hno.
  { apply Forall_forall. intros x Hx%list_elem_of_In ->. rewrite forallb_forall in Hd.
    by specialize (Hd 61 Hx). }
  assert (padding_of text = Z.of_nat k) as Hpad by (rewrite Ht; by apply padding_of_replicate).
  assert (len text = len data + Z.of_nat k) as Hlen
    by (rewrite Ht; unfold len; rewrite length_app, length_replicate; lia).
  assert ((if existsb is_url data then UrlSafe else Standard)
          = match (if existsb is_url data then AlphaUrlSafe else AlphaStandard) with
            | AlphaStandard => Standard | AlphaUrlSafe => UrlSafe end) as Hvar
    by (by destruct (existsb is_url data)).
  assert (compact_and_classify bs = Ok (text, if existsb is_url data then UrlSafe else Standard)) as Hc.
  { rewrite compact_and_classify_eq. cbv zeta. fold text.
    assert (forallb is_symbol text = true /\ existsb is_std text = existsb is_std data
            /\ existsb is_url text = existsb is_url data) as (-> & -> & ->).
    { rewrite Ht, forallb_app, !existsb_app.
      assert (forallb is_symbol (replicate k 61) = true /\ existsb is_url (replicate k 61) = false
              /\ existsb is_std (replicate k 61) = false) as (-> & -> & ->).
      { clear. induction k as [|k IH]; [done|]. simpl. destruct IH as (-> & -> & ->). done. }
      rewrite !orb_false_r, andb_true_r. split_and!; [|done..]. apply forallb_forall. intros x Hx.
      rewrite forallb_forall in Hd. specialize (Hd x Hx). unfold is_data in Hd. unfold is_symbol.
      by rewrite Hd. }
    rewrite H2. replace (len text =? 0) with false by (symmetry; apply Z.eqb_neq; lia). done. }
  split_and!; [by rewrite Hc, Hvar|done|].
  unfold decode_base64_with_limit. rewrite Hc. simpl. unfold decode_compact. rewrite Hmod, Hpad.
  assert (((2 <? Z.of_nat k) || ((0 <? Z.of_nat k) && negb (len text mod 4 =? 0))) = false) as Hshape.
  { destruct (Nat.eqb_spec k 0) as [->|Hk]; [done|]. apply orb_false_iff in H3 as [H3 H4].
    rewrite H4, andb_false_r, orb_false_r. apply Z.ltb_ge in H3. apply Z.ltb_ge. lia. }
  rewrite Hshape. apply orb_false_iff in Hshape as [Hk%Z.ltb_ge _].
  destruct (estimate_some (len text) (Z.of_nat k)) as [estimate He]; [lia..|].
  rewrite He, Hvar. exists estimate, (negb (Z.of_nat k =? 0)). done.
Qed.
End agreement.

Lemma base64_evidence_sound_witness :
  exists d, base64_evidence (bytes "-_--AQ") = Some d
    /\ compact_and_classify (bytes "-_--AQ") = Ok (bytes "-_--AQ", UrlSafe).
Proof.
  destruct (base64_evidence (bytes "-_--AQ")) as [d|] eqn:E; [|vm_compute in E; discriminate].
  exists d. split; [reflexivity|].
  assert (compact_len d <= umax 64) as Hc by (vm_compute in E; injection E as <-; vm_compute; congruence).
  destruct (@base64_evidence_sound rfc_engine (bytes "-_--AQ") d 100 E Hc) as [H _].
  vm_compute in E. injection E as <-. exact H.
Defined.
