(* ===== verification/ProxyNode.v ===== *)
(** * ProxyNode: proxy nodes, their validation and the capability matrix

    Models crates/nethop-subscription/src/protocol.rs and the part of capability.rs
    that decides whether the pinned core supports a node ([CapabilityQuery],
    [supports]), with the entries of manifests/sing-box-1.13.15-mapping.json.  A
    [BoundedText] or [SecretString] is its string. *)

From S2P Require Import Prelude Text Ordering BTreeMap Source Detect.

Local Open Scope Z_scope.

#[export] Instance ProxyProtocol_eq_dec : EqDecision ProxyProtocol.
Proof. solve_decision. Defined.

Definition protocol_name (p : ProxyProtocol) : string :=
  match p with
  | Vless => "vless"
  | Vmess => "vmess"
  | Shadowsocks => "shadowsocks"
  | Trojan => "trojan"
  | Hysteria2 => "hysteria2"
  | Tuic => "tuic"
  | AnyTls => "anytls"
  | Http => "http"
  | Socks => "socks"
  end.
(** [FromStr for ProxyProtocol]. *)
Definition protocol_from_str (value : string) : option ProxyProtocol :=
  let v := lowercase value in
  if String.eqb v "vless" then Some Vless
  else if String.eqb v "vmess" then Some Vmess
  else if String.eqb v "ss" || String.eqb v "shadowsocks" then Some Shadowsocks
  else if String.eqb v "trojan" then Some Trojan
  else if String.eqb v "hysteria2" || String.eqb v "hy2" then Some Hysteria2
  else if String.eqb v "tuic" then Some Tuic
  else if String.eqb v "anytls" then Some AnyTls
  else if String.eqb v "http" then Some Http
  else if String.eqb v "socks" || String.eqb v "socks5" then Some Socks
  else None.

(** ** Texts and endpoints *)
Inductive TextError : Type := TextEmpty | TextTooLong | TextControl.
Definition BoundedText_new (value : string) (max : Z) : Result TextError string :=
  if str_len value =? 0 then Err TextEmpty
  else if max <? str_len value then Err TextTooLong
  else if has_control (bytes value) then Err TextControl
  else Ok value.
Definition DisplayName_new (value : string) : Result TextError string := BoundedText_new value 256.
Definition NodeId_new (value : string) : Result TextError string := BoundedText_new value 128.

Record Endpoint : Type := mkEndpoint { ep_server : string; ep_port : Z }.
Inductive EndpointError : Type := EmptyServer | ServerTooLong | InvalidServer | InvalidPort.

(** [s.chars().any(char::is_whitespace)] on UTF-8 bytes. *)
Fixpoint has_white (bs : list Z) : bool :=
  match bs with
  | [] => false
  | a :: rest =>
      is_space a
      || match rest with
         | b :: rest' => white2 a b || match rest' with c :: _ => white3 a b c | [] => false end
         | [] => false
         end
      || has_white rest
  end.
Definition Endpoint_new (server : string) (port : Z) : Result EndpointError Endpoint :=
  if str_len server =? 0 then Err EmptyServer
  else if 64 * 1024 <? str_len server then Err ServerTooLong
  else if has_white (bytes server) || has_control (bytes server) then Err InvalidServer
  else if port =? 0 then Err InvalidPort
  else Ok (mkEndpoint server port).

(** ** Node data *)
Record PluginSpec : Type := mkPlugin {
  plugin_name : string;
  plugin_opts : BTreeMap string string;
}.
Record Hysteria2Obfs : Type := mkObfs { obfs_kind : string; obfs_password : string }.
Record UdpOverTcpOptions : Type := mkUot { uot_enabled : bool; uot_version : Z }.
Record Hysteria2Options : Type := mkHysteria2 {
  server_ports : list string;
  hop_interval : option string;
  up_mbps : option Z;
  down_mbps : option Z;
}.
Record TuicOptions : Type := mkTuic {
  congestion_control : option string;
  udp_relay_mode : option string;
  udp_over_stream : bool;
  zero_rtt_handshake : bool;
  heartbeat : option string;
}.
Record AnyTlsOptions : Type := mkAnyTls {
  idle_session_check_interval : option string;
  idle_session_timeout : option string;
  min_idle_session : option Z;
}.
Record HttpOptions : Type := mkHttp {
  http_path : option string;
  http_headers : BTreeMap string string;
}.
Record SocksOptions : Type := mkSocks {
  socks_version : string;
  socks_udp_over_tcp : option UdpOverTcpOptions;
}.
Inductive Credentials : Type :=
| CVless (uuid : string)
| CVmess (uuid : string) (alter_id : Z) (security : string)
| CShadowsocks (method password : string) (plugin : option PluginSpec)
| CTrojan (password : string)
| CHysteria2 (password : string) (obfs : option Hysteria2Obfs)
| CTuic (uuid password : string)
| CAnyTls (password : string)
| CHttp (username password : option string)
| CSocks (username password : option string).
Definition credentials_protocol (c : Credentials) : ProxyProtocol :=
  match c with
  | CVless _ => Vless
  | CVmess _ _ _ => Vmess
  | CShadowsocks _ _ _ => Shadowsocks
  | CTrojan _ => Trojan
  | CHysteria2 _ _ => Hysteria2
  | CTuic _ _ => Tuic
  | CAnyTls _ => AnyTls
  | CHttp _ _ => Http
  | CSocks _ _ => Socks
  end.

Record RealityOptions : Type := mkReality {
  public_key : string;
  short_id : option string;
  reality_fingerprint : option string;
}.
Record TlsOptions : Type := mkTls {
  tls_enabled : bool;
  tls_server_name : option string;
  tls_insecure : bool;
  tls_alpn : list string;
  client_fingerprint : option string;
  tls_reality : option RealityOptions;
  certificate_pin : option string;
}.

Inductive TransportKind : Type := KTcp | KWebSocket | KHttp | KHttpUpgrade | KGrpc | KQuic.
#[export] Instance TransportKind_eq_dec : EqDecision TransportKind.
Proof. solve_decision. Defined.
Inductive TransportOptions : Type :=
| TTcp
| TWebSocket (path : string) (headers : BTreeMap string string)
| THttp (path : string) (hosts : list string)
| THttpUpgrade (path : string) (headers : BTreeMap string string)
| TGrpc (service_name : string)
| TQuic.
Definition transport_kind (t : TransportOptions) : TransportKind :=
  match t with
  | TTcp => KTcp
  | TWebSocket _ _ => KWebSocket
  | THttp _ _ => KHttp
  | THttpUpgrade _ _ => KHttpUpgrade
  | TGrpc _ => KGrpc
  | TQuic => KQuic
  end.

Inductive ProtocolOptions : Type :=
| ONone
| OVless (flow : option string)
| OVmess
| OShadowsocks (udp_over_tcp : option UdpOverTcpOptions)
| OTrojan
| OHysteria2 (options : Hysteria2Options)
| OTuic (options : TuicOptions)
| OAnyTls (options : AnyTlsOptions)
| OHttp (options : HttpOptions)
| OSocks (options : SocksOptions).

Record Capabilities : Type := mkCapabilities {
  cap_tcp : bool; cap_udp : bool; cap_ipv6 : bool; cap_quic : bool; cap_tls : bool;
}.
Record SourceRef : Type := mkSourceRef {
  ref_source_id : SourceId;
  ref_item_index : Z;
  ref_format : FormatHint;
  ref_line : option Z;
}.
Record UnvalidatedNode : Type := mkNode {
  un_display_name : string;
  un_protocol : ProxyProtocol;
  un_endpoint : Endpoint;
  un_credentials : Credentials;
  un_tls : TlsOptions;
  un_transport : TransportOptions;
  un_options : ProtocolOptions;
  un_capabilities : Capabilities;
  un_source_refs : list SourceRef;
}.
Record ProxyNode : Type := mkProxyNode { pn_node_id : string; pn_inner : UnvalidatedNode }.

(** ** The capability matrix *)
Record CapabilityQuery : Type := mkQuery {
  q_protocol : ProxyProtocol;
  q_transport : TransportKind;
  q_tls : bool;
  q_reality : bool;
  q_utls : bool;
  q_udp : bool;
  q_flow : option string;
  q_plugin : option string;
}.
#[export] Instance CapabilityQuery_eq_dec : EqDecision CapabilityQuery.
Proof. solve_decision. Defined.

Definition query_from_node (n : UnvalidatedNode) : CapabilityQuery :=
  let '(reality, utls) :=
    match tls_reality (un_tls n) with
    | None => (false, false)
    | Some r => (true, bool_decide (is_Some (reality_fingerprint r)))
    end in
  let flow := match un_options n with OVless flow => flow | _ => None end in
  let plugin :=
    match un_credentials n with
    | CShadowsocks _ _ plugin => plugin_name <$> plugin
    | _ => None
    end in
  mkQuery (un_protocol n) (transport_kind (un_transport n)) (tls_enabled (un_tls n)) reality utls
    (cap_udp (un_capabilities n)) flow plugin.

(** An entry: its query, whether it is supported, and whether it has evidence. *)
Record CapabilityEntry : Type := mkEntry {
  entry_query : CapabilityQuery;
  entry_supported : bool;
  entry_evidence : bool;
}.
Definition supports (entries : list CapabilityEntry) (q : CapabilityQuery) : bool :=
  existsb (fun e => entry_supported e && bool_decide (entry_query e = q) && entry_evidence e) entries.

(** The shapes of the embedded manifest, every one supported with evidence. *)
Definition manifest_shapes : list CapabilityQuery :=
  [mkQuery Vless KTcp false false false false None None;
   mkQuery Vless KTcp true false false false None None;
   mkQuery Vless KWebSocket true false false false None None;
   mkQuery Vless KHttp true false false false None None;
   mkQuery Vless KHttpUpgrade true false false false None None;
   mkQuery Vless KGrpc true false false false None None;
   mkQuery Vless KTcp true false false false (Some "xtls-rprx-vision") None;
   mkQuery Vless KTcp true true true false None None;
   mkQuery Vless KTcp true true true false (Some "xtls-rprx-vision") None;
   mkQuery Vmess KTcp false false false false None None;
   mkQuery Vmess KTcp true false false false None None;
   mkQuery Vmess KWebSocket false false false false None None;
   mkQuery Vmess KWebSocket true false false false None None;
   mkQuery Vmess KHttp true false false false None None;
   mkQuery Vmess KHttpUpgrade true false false false None None;
   mkQuery Vmess KGrpc true false false false None None;
   mkQuery Shadowsocks KTcp false false false false None None;
   mkQuery Shadowsocks KTcp false false false true None None;
   mkQuery Shadowsocks KTcp false false false false None (Some "obfs-local");
   mkQuery Shadowsocks KTcp false false false true None (Some "obfs-local");
   mkQuery Shadowsocks KTcp false false false false None (Some "v2ray-plugin");
   mkQuery Trojan KTcp true false false false None None;
   mkQuery Trojan KWebSocket true false false false None None;
   mkQuery Trojan KGrpc true false false false None None;
   mkQuery Hysteria2 KQuic true false false true None None;
   mkQuery Tuic KQuic true false false true None None;
   mkQuery AnyTls KTcp true false false false None None;
   mkQuery Http KTcp false false false false None None;
   mkQuery Http KTcp true false false false None None;
   mkQuery Socks KTcp false false false false None None;
   mkQuery Socks KTcp false false false true None None].
Definition pinned_matrix : list CapabilityEntry :=
  (fun q => mkEntry q true true) <$> manifest_shapes.

(** ** Validation *)
Inductive NodeValidationError : Type :=
| CredentialProtocolMismatch
| TooManySourceRefs
| InvalidTlsCombination
| UnsupportedCapability
| EmptyCredential
| UnsupportedTransport
| UnsupportedSemantics.

Definition is_protocol (p : ProxyProtocol) (n : UnvalidatedNode) : bool :=
  bool_decide (un_protocol n = p).
Definition is_one_of (v : string) (l : list string) : bool := existsb (String.eqb v) l.

(** The guard on passwords: the protocols whose password must not be empty. *)
Definition empty_password (c : Credentials) : bool :=
  match c with
  | CShadowsocks _ password _ | CTrojan password | CHysteria2 password _
  | CAnyTls password | CTuic _ password => str_len password =? 0
  | _ => false
  end.

Definition SHADOWSOCKS_METHODS : list string :=
  ["aes-128-gcm"; "aes-256-gcm"; "chacha20-ietf-poly1305"; "2022-blake3-aes-128-gcm";
   "2022-blake3-aes-256-gcm"; "2022-blake3-chacha20-poly1305"].
Definition VMESS_SECURITY : list string :=
  ["auto"; "none"; "aes-128-gcm"; "chacha20-poly1305"; "zero"].

Definition some_of (v : option string) (l : list string) : bool :=
  match v with Some s => is_one_of s l | None => false end.
Definition plugin_refused (p : PluginSpec) : bool :=
  if String.eqb (plugin_name p) "obfs-local" then
    existsb (fun k => negb (is_one_of k ["obfs"; "obfs-host"])) (bt_keys (plugin_opts p))
    || negb (some_of (bt_get "obfs" (plugin_opts p)) ["http"; "tls"])
  else if String.eqb (plugin_name p) "v2ray-plugin" then
    existsb (fun k => negb (is_one_of k ["mode"; "host"; "path"; "tls"; "mux"])) (bt_keys (plugin_opts p))
    || negb (some_of (bt_get "mode" (plugin_opts p)) ["websocket"; "quic"])
  else true.
Definition semantics_refused (c : Credentials) : bool :=
  match c with
  | CShadowsocks method _ plugin =>
      negb (is_one_of method SHADOWSOCKS_METHODS)
      || match plugin with Some p => plugin_refused p | None => false end
  | CVmess _ _ security => negb (is_one_of security VMESS_SECURITY)
  | _ => false
  end.

Definition ProxyNode_validate (n : UnvalidatedNode) (matrix : list CapabilityEntry) :
    Result NodeValidationError ProxyNode :=
  let kind := transport_kind (un_transport n) in
  let tls := un_tls n in
  if negb (bool_decide (un_protocol n = credentials_protocol (un_credentials n)))
  then Err CredentialProtocolMismatch
  else if 64 <? len (un_source_refs n) then Err TooManySourceRefs
  else if empty_password (un_credentials n) then Err EmptyCredential
  else if bool_decide (kind = KQuic) && negb (tls_enabled tls) then Err InvalidTlsCombination
  else if (is_protocol Hysteria2 n || is_protocol Tuic n) && negb (bool_decide (kind = KQuic))
  then Err UnsupportedTransport
  else if (is_protocol Trojan n || is_protocol AnyTls n) && negb (tls_enabled tls)
  then Err InvalidTlsCombination
  else if bool_decide (is_Some (tls_reality tls)) && (negb (is_protocol Vless n) || negb (tls_enabled tls))
  then Err InvalidTlsCombination
  else if semantics_refused (un_credentials n) then Err UnsupportedSemantics
  else if negb (supports matrix (query_from_node n)) then Err UnsupportedCapability
  else
    match NodeId_new (protocol_name (un_protocol n) +:+ "-"
                      +:+ of_bytes (print_u64 (ep_port (un_endpoint n)))) with
    | Err _ => Err UnsupportedCapability
    | Ok id => Ok (mkProxyNode id n)
    end.

(** ** What validation guarantees *)

(** The transports of the pinned matrix. *)
Definition tcp_only (p : ProxyProtocol) : bool :=
  match p with Shadowsocks | AnyTls | Http | Socks => true | _ => false end.

Lemma supported_shape (q : CapabilityQuery) : supports pinned_matrix q = true -> q ∈ manifest_shapes.
Proof.
  unfold supports, pinned_matrix. rewrite existsb_exists. intros (e & He & Hq).
  apply list_elem_of_In, list_elem_of_fmap in He as (q' & -> & Hq'). simpl in Hq.
  rewrite andb_true_r in Hq. by apply bool_decide_eq_true in Hq as ->.
Qed.

Lemma manifest_tcp_only :
  forallb (fun q => negb (tcp_only (q_protocol q)) || bool_decide (q_transport q = KTcp)) manifest_shapes
  = true.
Proof. vm_compute. reflexivity. Qed.

Lemma validated_facts n matrix p :
  ProxyNode_validate n matrix = Ok p ->
  pn_inner p = n /\ un_protocol n = credentials_protocol (un_credentials n)
  /\ supports matrix (query_from_node n) = true.
Proof.
  unfold ProxyNode_validate. split_if H1; [done|]. do 7 (split_if Hx; [done|clear Hx]).
  split_if H2; [done|]. destruct (NodeId_new _); [|done]. intros [= <-].
  apply negb_false_iff, bool_decide_eq_true in H1. apply negb_false_iff in H2. done.
Qed.

Lemma query_fields n :
  q_protocol (query_from_node n) = un_protocol n
  /\ q_transport (query_from_node n) = transport_kind (un_transport n).
Proof. unfold query_from_node. by destruct (tls_reality (un_tls n)). Qed.

(** A node the pinned matrix accepts has plain TCP below the protocols that carry
    their own framing. *)
Lemma validated_tcp_only n p :
  ProxyNode_validate n pinned_matrix = Ok p -> tcp_only (un_protocol n) = true -> un_transport n = TTcp.
Proof.
  intros Hv Ht. apply validated_facts in Hv as (_ & _ & Hs). apply supported_shape in Hs.
  pose proof manifest_tcp_only as Hall. rewrite forallb_forall in Hall.
  specialize (Hall _ (proj1 (list_elem_of_In _ _) Hs)). simpl in Hall.
  destruct (query_fields n) as [Hp Hk]. rewrite Hp, Hk, Ht in Hall. simpl in Hall.
  apply bool_decide_eq_true in Hall. by destruct (un_transport n).
Qed.

(** Hysteria2 and TUIC only run over QUIC. *)
Lemma validated_quic n matrix p :
  ProxyNode_validate n matrix = Ok p -> un_protocol n = Hysteria2 \/ un_protocol n = Tuic ->
  un_transport n = TQuic.
Proof.
  unfold ProxyNode_validate. do 4 (split_if Hx; [done|clear Hx]). split_if H; [done|]. intros _ Hp.
  assert (is_protocol Hysteria2 n || is_protocol Tuic n = true) as Hq.
  { unfold is_protocol. destruct Hp as [-> | ->]; done. }
  rewrite Hq in H. simpl in H. apply negb_false_iff, bool_decide_eq_true in H. by destruct (un_transport n).
Qed.
