(* ===== verification/Fingerprint.v ===== *)
(** * Fingerprint: the identity of a node and the outbound it becomes

    Models the canonical bytes behind a node's fingerprint and the outbound the core
    is given, from crates/nethop-subscription/src/pipeline.rs ([canonical_node_bytes],
    [fingerprint_node], [compose_outbound] and their helpers).  Nodes with the same
    fingerprint are merged, so the identity must tell apart whatever would be
    composed differently.  SHA-256 is a parameter. *)

From S2P Require Import Prelude Text Ordering BTreeMap Json Source ProxyNode.

Local Open Scope Z_scope.

Definition FINGERPRINT_DOMAIN : list Z := bytes "nethop-node-v1" ++ [0].

(** ** Canonical bytes *)
Definition field (f : string * string) : list Z := push_field (bytes f.1) ++ push_field (bytes f.2).
Definition decimal (n : Z) : string := of_bytes (print_u64 n).
Definition flag (b : bool) : string := if b then "1" else "0".
(** [bool::to_string]. *)
Definition truth (b : bool) : string := if b then "true" else "false".
Definition or_empty (o : option string) : string := default "" o.

Definition join_semicolon (parts : list string) : string :=
  match parts with
  | [] => ""
  | p :: rest => p +:+ fold_right (fun q acc => ";" +:+ q +:+ acc) "" rest
  end.
Definition plugin_options (p : PluginSpec) : string :=
  join_semicolon ((fun kv => kv.1 +:+ "=" +:+ kv.2) <$> plugin_opts p).

Definition encode_credentials (c : Credentials) : list (string * string) :=
  match c with
  | CVless uuid => [("uuid", uuid)]
  | CVmess uuid alter_id security =>
      [("uuid", uuid); ("alter_id", decimal alter_id); ("security", security)]
  | CShadowsocks method password plugin =>
      [("method", method); ("password", password);
       ("plugin", or_empty (plugin_name <$> plugin))]
      ++ match plugin with Some p => [("plugin_opts", plugin_options p)] | None => [] end
  | CTrojan password | CAnyTls password => [("password", password)]
  | CHysteria2 password obfs =>
      ("password", password)
      :: match obfs with
         | Some o => [("obfs", obfs_kind o); ("obfs_password", obfs_password o)]
         | None => []
         end
  | CTuic uuid password => [("uuid", uuid); ("password", password)]
  | CHttp username password | CSocks username password =>
      [("username", or_empty username); ("password", or_empty password)]
  end.

Definition encode_tls (t : TlsOptions) : list (string * string) :=
  [("tls", flag (tls_enabled t)); ("insecure", flag (tls_insecure t));
   ("sni", or_empty (tls_server_name t))]
  ++ ((fun v => ("alpn", v)) <$> tls_alpn t)
  ++ [("utls", or_empty (client_fingerprint t))]
  ++ match tls_reality t with
     | Some r =>
         [("reality_public", public_key r); ("reality_short", or_empty (short_id r));
          ("reality_fp", or_empty (reality_fingerprint r))]
     | None => []
     end.

(** [format!("{:?}", transport.kind())]. *)
Definition kind_debug (k : TransportKind) : string :=
  match k with
  | KTcp => "Tcp"
  | KWebSocket => "WebSocket"
  | KHttp => "Http"
  | KHttpUpgrade => "HttpUpgrade"
  | KGrpc => "Grpc"
  | KQuic => "Quic"
  end.
Definition encode_transport (t : TransportOptions) : list (string * string) :=
  ("transport", kind_debug (transport_kind t))
  :: match t with
     | TTcp | TQuic => []
     | TWebSocket path headers | THttpUpgrade path headers => ("path", path) :: headers
     | THttp path hosts => ("path", path) :: ((fun h => ("host", h)) <$> hosts)
     | TGrpc service => [("service", service)]
     end.

Definition or_zero (o : option Z) : string := decimal (default 0 o).
Definition encode_uot (o : UdpOverTcpOptions) : list (string * string) :=
  [("udp_over_tcp_enabled", truth (uot_enabled o)); ("udp_over_tcp_version", decimal (uot_version o))].
Definition encode_protocol_options (o : ProtocolOptions) : list (string * string) :=
  match o with
  | OVless flow => [("flow", or_empty flow)]
  | OTuic t =>
      [("congestion_control", or_empty (congestion_control t));
       ("udp_relay_mode", or_empty (udp_relay_mode t));
       ("udp_over_stream", truth (udp_over_stream t));
       ("zero_rtt_handshake", truth (zero_rtt_handshake t));
       ("heartbeat", or_empty (heartbeat t))]
  | OHysteria2 h =>
      ((fun v => ("server_port", v)) <$> server_ports h)
      ++ [("hop_interval", or_empty (hop_interval h)); ("up_mbps", or_zero (up_mbps h));
          ("down_mbps", or_zero (down_mbps h))]
  | OAnyTls a =>
      [("idle_session_check_interval", or_empty (idle_session_check_interval a));
       ("idle_session_timeout", or_empty (idle_session_timeout a));
       ("min_idle_session", or_zero (min_idle_session a))]
  | OShadowsocks (Some uot) => encode_uot uot
  | OHttp h => ("http_path", or_empty (http_path h)) :: http_headers h
  | OSocks s =>
      ("socks_version", socks_version s)
      :: match socks_udp_over_tcp s with Some uot => encode_uot uot | None => [] end
  | _ => []
  end.

Definition canonical_fields (n : UnvalidatedNode) : list (string * string) :=
  [("schema", "1"); ("protocol", protocol_name (un_protocol n));
   ("server", ep_server (un_endpoint n)); ("port", decimal (ep_port (un_endpoint n)))]
  ++ encode_credentials (un_credentials n)
  ++ encode_tls (un_tls n)
  ++ encode_transport (un_transport n)
  ++ encode_protocol_options (un_options n)
  ++ [("udp", flag (cap_udp (un_capabilities n)))].
Definition canonical_node_bytes (n : UnvalidatedNode) : list Z := mjoin (field <$> canonical_fields n).

(** [fingerprint_node], and [display_id]: the first eight bytes in hexadecimal. *)
Definition fingerprint_node (sha256 : list Z -> list Z) (n : UnvalidatedNode) : list Z :=
  sha256 (FINGERPRINT_DOMAIN ++ canonical_node_bytes n).
Definition display_id (fingerprint : list Z) : string := "nh1s-" +:+ hex_digits (take 8 fingerprint).

(** ** The outbound *)
Abbreviation Object := (BTreeMap string Json) (only parsing).
Definition insert_some (key : string) (v : option string) (o : Object) : Object :=
  match v with Some s => bt_insert key (JString s) o | None => o end.
Definition insert_number (key : string) (v : option Z) (o : Object) : Object :=
  match v with Some n => bt_insert key (JNumber (decimal n)) o | None => o end.
Definition insert_flag (key : string) (b : bool) (o : Object) : Object :=
  if b then bt_insert key (JBool true) o else o.
Definition text_list (l : list string) : Json := JArray (JString <$> l).
Definition text_map (m : BTreeMap string string) : Json := JObject (bt_collect (prod_map id JString <$> m)).

Definition udp_over_tcp_json (o : UdpOverTcpOptions) : Json :=
  if (uot_version o =? 0) || (uot_version o =? 2) then JBool (uot_enabled o)
  else JObject (bt_collect [("enabled", JBool (uot_enabled o)); ("version", JNumber (decimal (uot_version o)))]).

Definition tls_json (t : TlsOptions) : Json :=
  let o := bt_insert "enabled" (JBool (tls_enabled t)) [] in
  let o := insert_some "server_name" (tls_server_name t) o in
  let o := insert_flag "insecure" (tls_insecure t) o in
  let o := if len (tls_alpn t) =? 0 then o else bt_insert "alpn" (text_list (tls_alpn t)) o in
  let o :=
    match client_fingerprint t with
    | Some f =>
        bt_insert "utls" (JObject (bt_collect [("enabled", JBool true); ("fingerprint", JString f)])) o
    | None => o
    end in
  let o :=
    match tls_reality t with
    | Some r =>
        bt_insert "reality"
          (JObject (bt_collect [("enabled", JBool true); ("public_key", JString (public_key r));
             ("short_id", match short_id r with Some s => JString s | None => JNull end)])) o
    | None => o
    end in
  JObject o.

Definition transport_json (t : TransportOptions) : Json :=
  match t with
  | TTcp => JObject [("type", JString "tcp")]
  | TQuic => JObject [("type", JString "quic")]
  | TWebSocket path headers =>
      JObject (bt_collect [("type", JString "ws"); ("path", JString path); ("headers", text_map headers)])
  | THttp path hosts =>
      JObject (bt_collect [("type", JString "http"); ("path", JString path); ("host", text_list hosts)])
  | THttpUpgrade path headers =>
      JObject (bt_collect [("type", JString "httpupgrade"); ("path", JString path);
        ("headers", text_map headers)])
  | TGrpc service => JObject (bt_collect [("type", JString "grpc"); ("service_name", JString service)])
  end.

Definition compose_credentials (c : Credentials) (o : Object) : Object :=
  match c with
  | CVless uuid => bt_insert "uuid" (JString uuid) o
  | CVmess uuid alter_id security =>
      bt_insert "security" (JString security)
        (bt_insert "alter_id" (JNumber (decimal alter_id)) (bt_insert "uuid" (JString uuid) o))
  | CShadowsocks method password plugin =>
      let o := bt_insert "password" (JString password) (bt_insert "method" (JString method) o) in
      match plugin with
      | Some p =>
          bt_insert "plugin_opts" (JString (plugin_options p))
            (bt_insert "plugin" (JString (plugin_name p)) o)
      | None => o
      end
  | CTrojan password | CAnyTls password => bt_insert "password" (JString password) o
  | CHysteria2 password obfs =>
      let o := bt_insert "password" (JString password) o in
      match obfs with
      | Some b =>
          bt_insert "obfs"
            (JObject (bt_collect [("type", JString (obfs_kind b)); ("password", JString (obfs_password b))])) o
      | None => o
      end
  | CTuic uuid password => bt_insert "password" (JString password) (bt_insert "uuid" (JString uuid) o)
  | CHttp username password | CSocks username password =>
      insert_some "password" password (insert_some "username" username o)
  end.

Definition compose_options (options : ProtocolOptions) (udp : bool) (o : Object) : Object :=
  match options with
  | OVless flow => insert_some "flow" flow o
  | OShadowsocks (Some uot) => bt_insert "udp_over_tcp" (udp_over_tcp_json uot) o
  | OTuic t =>
      insert_some "heartbeat" (heartbeat t)
        (insert_flag "zero_rtt_handshake" (zero_rtt_handshake t)
           (insert_flag "udp_over_stream" (udp_over_stream t)
              (insert_some "udp_relay_mode" (udp_relay_mode t)
                 (insert_some "congestion_control" (congestion_control t) o))))
  | OHysteria2 h =>
      let o := if len (server_ports h) =? 0 then o
               else bt_insert "server_ports" (text_list (server_ports h)) o in
      insert_number "down_mbps" (down_mbps h)
        (insert_number "up_mbps" (up_mbps h) (insert_some "hop_interval" (hop_interval h) o))
  | OAnyTls a =>
      insert_number "min_idle_session" (min_idle_session a)
        (insert_some "idle_session_timeout" (idle_session_timeout a)
           (insert_some "idle_session_check_interval" (idle_session_check_interval a) o))
  | OHttp h =>
      let o := insert_some "path" (http_path h) o in
      if len (http_headers h) =? 0 then o else bt_insert "headers" (text_map (http_headers h)) o
  | OSocks s =>
      let o := bt_insert "version" (JString (socks_version s)) o in
      let o := bt_insert "network" (text_list (if udp then ["tcp"; "udp"] else ["tcp"])) o in
      match socks_udp_over_tcp s with
      | Some uot => bt_insert "udp_over_tcp" (udp_over_tcp_json uot) o
      | None => o
      end
  | _ => o
  end.

Definition port_hopping (options : ProtocolOptions) : bool :=
  match options with OHysteria2 h => negb (len (server_ports h) =? 0) | _ => false end.

Definition compose_outbound (node_id : string) (n : UnvalidatedNode) : Json :=
  let o := bt_insert "type" (JString (protocol_name (un_protocol n))) [] in
  let o := bt_insert "tag" (JString node_id) o in
  let o := bt_insert "server" (JString (ep_server (un_endpoint n))) o in
  let o := if port_hopping (un_options n) then o
           else bt_insert "server_port" (JNumber (decimal (ep_port (un_endpoint n)))) o in
  let o := compose_credentials (un_credentials n) o in
  let o := if tls_enabled (un_tls n) then bt_insert "tls" (tls_json (un_tls n)) o else o in
  let o := match un_transport n with TTcp => o | t => bt_insert "transport" (transport_json t) o end in
  JObject (compose_options (un_options n) (cap_udp (un_capabilities n)) o).

(** ** Reading fields back *)
Definition short_field (f : string * string) : Prop := short (bytes f.1) /\ short (bytes f.2).

Lemma field_decodable f g l k :
  short_field f -> short_field g -> field f ++ l = field g ++ k -> f = g /\ l = k.
Proof.
  intros [Hf1 Hf2] [Hg1 Hg2]. unfold field. rewrite <- !(assoc_L (++)). intros H.
  apply push_field_decodable in H as [H1 H]; [|done..].
  apply push_field_decodable in H as [H2 ->]; [|done..].
  apply bytes_inj in H1, H2. destruct f, g. naive_solver.
Qed.

Lemma fields_inj fs gs :
  Forall short_field fs -> Forall short_field gs ->
  mjoin (field <$> fs) = mjoin (field <$> gs) -> fs = gs.
Proof.
  intros Hf. revert gs. induction Hf as [|f fs Hf _ IH]; intros gs Hg H.
  - destruct Hg as [|g gs]; [done|]. by destruct g.
  - destruct Hg as [|g gs Hg Hgs]; [by destruct f|]. csimpl in H.
    apply field_decodable in H as [-> H]; [|done..]. by rewrite (IH gs).
Qed.

(** A run of fields of one name ends where another name begins. *)
Lemma run_inj (name : string) (xs ys : list string) (a b : string * string) l k :
  a.1 <> name -> b.1 <> name ->
  ((fun v => (name, v)) <$> xs) ++ a :: l = ((fun v => (name, v)) <$> ys) ++ b :: k ->
  xs = ys /\ a = b /\ l = k.
Proof.
  intros Ha Hb. revert ys. induction xs as [|x xs IH]; intros [|y ys]; csimpl; intros H; simplify_eq; try done.
  destruct (IH ys) as (-> & -> & ->); done.
Qed.

(** An optional value that is present is not its empty encoding. *)
Definition explicit (o : option string) : Prop := o <> Some "".
Definition explicit_number (o : option Z) : Prop := o <> Some 0 /\ forall n, o = Some n -> is_uint 64 n.

Lemma or_empty_inj a b : explicit a -> explicit b -> or_empty a = or_empty b -> a = b.
Proof. unfold explicit, or_empty. destruct a as [s|], b as [t|]; simpl; intros; subst; done. Qed.

Lemma decimal_inj a b : is_uint 64 a -> is_uint 64 b -> decimal a = decimal b -> a = b.
Proof.
  intros Ha Hb H. unfold decimal in H.
  assert (forall n, is_uint 64 n -> bytes (of_bytes (print_u64 n)) = print_u64 n) as Hbytes.
  { intros n Hn. apply bytes_of_bytes. destruct (print_u64_digits n Hn) as [Hd _].
    eapply Forall_impl; [exact Hd|]. intros x Hx%is_ascii_digit_range. lia. }
  apply (f_equal bytes) in H. rewrite !Hbytes in H by done.
  pose proof (parse_print_u64 a Ha) as Pa. pose proof (parse_print_u64 b Hb) as Pb. congruence.
Qed.

Lemma or_zero_inj a b : explicit_number a -> explicit_number b -> or_zero a = or_zero b -> a = b.
Proof.
  intros [Ha Hra] [Hb Hrb] H. unfold or_zero in H. apply decimal_inj in H.
  - destruct a, b; simpl in H; congruence.
  - destruct a; simpl; [by apply Hra|by split].
  - destruct b; simpl; [by apply Hrb|by split].
Qed.

Lemma flag_inj a b : flag a = flag b -> a = b.
Proof. by destruct a, b. Qed.
Lemma truth_inj a b : truth a = truth b -> a = b.
Proof. by destruct a, b. Qed.
Lemma protocol_name_inj a b : protocol_name a = protocol_name b -> a = b.
Proof. by destruct a, b. Qed.

(** ** The parts of a node *)
Definition credentials_ok (c : Credentials) : Prop :=
  match c with
  | CVmess _ alter_id _ => is_uint 64 alter_id
  | CHttp username password | CSocks username password => explicit username /\ explicit password
  | _ => True
  end.
Definition tls_ok (t : TlsOptions) : Prop :=
  explicit (tls_server_name t) /\ explicit (client_fingerprint t)
  /\ match tls_reality t with
     | Some r => explicit (short_id r) /\ explicit (reality_fingerprint r)
     | None => True
     end.
Definition uot_ok (u : option UdpOverTcpOptions) : Prop :=
  match u with Some o => is_uint 64 (uot_version o) | None => True end.
Definition options_ok (o : ProtocolOptions) : Prop :=
  match o with
  | OVless flow => explicit flow
  | OShadowsocks u => uot_ok u
  | OHysteria2 h =>
      explicit (hop_interval h) /\ explicit_number (up_mbps h) /\ explicit_number (down_mbps h)
  | OTuic t => explicit (congestion_control t) /\ explicit (udp_relay_mode t) /\ explicit (heartbeat t)
  | OAnyTls a =>
      explicit (idle_session_check_interval a) /\ explicit (idle_session_timeout a)
      /\ explicit_number (min_idle_session a)
  | OHttp h => explicit (http_path h)
  | OSocks s => uot_ok (socks_udp_over_tcp s)
  | _ => True
  end.
(** The options [validate_node_spec] of semantic.rs gives each protocol. *)
Definition options_match (p : ProxyProtocol) (o : ProtocolOptions) : bool :=
  match p, o with
  | Vless, OVless _ | Shadowsocks, OShadowsocks _ | Hysteria2, OHysteria2 _ | Tuic, OTuic _
  | AnyTls, OAnyTls _ | Http, OHttp _ | Socks, OSocks _ | Vmess, ONone | Trojan, ONone => true
  | _, _ => false
  end.

(** ** Zeros

    The identity writes an absent number as zero, so a node is told apart only up to the zeros among
    its optional numbers. *)
Definition drop_zero (o : option Z) : option Z :=
  match o with Some n => if n =? 0 then None else Some n | None => None end.
Definition drop_zeros (o : ProtocolOptions) : ProtocolOptions :=
  match o with
  | OHysteria2 h =>
      OHysteria2 (mkHysteria2 (server_ports h) (hop_interval h) (drop_zero (up_mbps h)) (drop_zero (down_mbps h)))
  | OAnyTls a =>
      OAnyTls (mkAnyTls (idle_session_check_interval a) (idle_session_timeout a) (drop_zero (min_idle_session a)))
  | _ => o
  end.
Definition without_zeros (n : UnvalidatedNode) : UnvalidatedNode :=
  mkNode (un_display_name n) (un_protocol n) (un_endpoint n) (un_credentials n) (un_tls n) (un_transport n)
    (drop_zeros (un_options n)) (un_capabilities n) (un_source_refs n).
Lemma or_zero_drop o : or_zero (drop_zero o) = or_zero o.
Proof. destruct o as [n|]; [|done]. simpl. by destruct (Z.eqb_spec n 0) as [->|]. Qed.
Lemma drop_zero_explicit o : (forall n, o = Some n -> is_uint 64 n) -> explicit_number (drop_zero o).
Proof.
  intros H. destruct o as [n|]; [|done]. simpl. destruct (Z.eqb_spec n 0) as [|Hn]; [done|].
  split; [by intros [= ->]|]. intros m [= <-]. by apply H.
Qed.
Lemma canonical_fields_without_zeros n : canonical_fields (without_zeros n) = canonical_fields n.
Proof.
  unfold canonical_fields, without_zeros. cbn [un_options un_protocol un_endpoint un_credentials un_tls un_transport
    un_capabilities]. do 4 f_equal. destruct (un_options n) as [| | | | |h| |a| |]; try done; simpl; by rewrite !or_zero_drop.
Qed.
(** Validation does not look at these numbers. *)
Lemma validate_without_zeros n matrix p :
  ProxyNode_validate n matrix = Ok p -> exists p', ProxyNode_validate (without_zeros n) matrix = Ok p'.
Proof.
  assert (query_from_node (without_zeros n) = query_from_node n) as Hq
    by (unfold query_from_node, without_zeros; cbn; by destruct (un_options n)).
  unfold ProxyNode_validate. rewrite Hq. unfold is_protocol, without_zeros.
  cbn [un_protocol un_credentials un_source_refs un_transport un_tls un_display_name un_endpoint un_options un_capabilities].
  repeat (case_match; [done|]). case_match; [|done]. by eauto.
Qed.

Lemma credentials_inj c c' a b l k :
  credentials_protocol c = credentials_protocol c' -> credentials_ok c -> credentials_ok c' ->
  a.1 = "tls" -> b.1 = "tls" ->
  encode_credentials c ++ a :: l = encode_credentials c' ++ b :: k ->
  (forall o, compose_credentials c o = compose_credentials c' o) /\ a :: l = b :: k.
Proof.
  intros Hp Hok Hok' Ha Hb. destruct a as [a1 a2], b as [b1 b2]. simpl in Ha, Hb. subst a1 b1.
  destruct c as [u|u ai sec|m pw pl|pw|pw ob|u pw|pw|u pw|u pw],
           c' as [u'|u' ai' sec'|m' pw' pl'|pw'|pw' ob'|u' pw'|pw'|u' pw'|u' pw']; try discriminate Hp;
    clear Hp; simpl in Hok, Hok'; cbn [encode_credentials app].
  - intros [= -> -> ->]. done.
  - intros [= -> Hai -> -> ->]. apply decimal_inj in Hai as ->; done.
  - destruct pl as [p|], pl' as [p'|]; cbn [app fmap option_fmap option_map]; unfold or_empty; simpl.
    + intros [= -> -> Hn Ho -> ->]. split; [|done]. intros o. simpl. by rewrite Hn, Ho.
    + intros [=].
    + intros [=].
    + intros [= -> -> -> ->]. done.
  - intros [= -> -> ->]. done.
  - destruct ob as [o|], ob' as [o'|]; cbn [app].
    + intros [= -> Hk Hpw -> ->]. split; [|done]. intros ob. simpl. by rewrite Hk, Hpw.
    + intros [=].
    + intros [=].
    + intros [= -> -> ->]. done.
  - intros [= -> -> -> ->]. done.
  - intros [= -> -> ->]. done.
  - intros [= Hu Hpw -> ->]. apply or_empty_inj in Hu as ->; [|naive_solver..].
    apply or_empty_inj in Hpw as ->; naive_solver.
  - intros [= Hu Hpw -> ->]. apply or_empty_inj in Hu as ->; [|naive_solver..].
    apply or_empty_inj in Hpw as ->; naive_solver.
Qed.

Lemma tls_inj t t' a b l k :
  tls_ok t -> tls_ok t' -> a.1 = "transport" -> b.1 = "transport" ->
  encode_tls t ++ a :: l = encode_tls t' ++ b :: k ->
  tls_enabled t = tls_enabled t' /\ tls_json t = tls_json t' /\ a :: l = b :: k.
Proof.
  intros (Hs & Hc & Hr) (Hs' & Hc' & Hr') Ha Hb. destruct a as [a1 a2], b as [b1 b2]. simpl in Ha, Hb. subst a1 b1.
  destruct t as [en sn ins al cf re pin], t' as [en' sn' ins' al' cf' re' pin'].
  unfold encode_tls. cbn [tls_enabled tls_server_name tls_insecure tls_alpn client_fingerprint tls_reality
    certificate_pin app] in *. rewrite <- !(assoc_L (++)).
  intros H. injection H as Hen Hins Hsn H. apply flag_inj in Hen as ->, Hins as ->.
  apply or_empty_inj in Hsn as ->; [|done..]. cbn [app] in H.
  apply run_inj in H as (-> & [= Hcf] & H); [|done..]. apply or_empty_inj in Hcf as ->; [|done..].
  destruct re as [r|], re' as [r'|]; cbn [app] in H.
  - injection H as Hpk Hsi Hfp -> ->. destruct Hr as [? ?], Hr' as [? ?].
    apply or_empty_inj in Hsi; [|done..]. unfold tls_json. simpl. by rewrite Hpk, Hsi.
  - discriminate H.
  - discriminate H.
  - injection H as -> ->. done.
Qed.

Lemma uot_inj (u u' : UdpOverTcpOptions) l k :
  is_uint 64 (uot_version u) -> is_uint 64 (uot_version u') ->
  encode_uot u ++ l = encode_uot u' ++ k -> u = u' /\ l = k.
Proof.
  intros Hu Hu' [= He Hv ->]. apply truth_inj in He. apply decimal_inj in Hv; [|done..].
  destruct u, u'. simpl in *. by subst.
Qed.

Lemma transport_inj t t' l k :
  length l = length k -> encode_transport t ++ l = encode_transport t' ++ k -> t = t' /\ l = k.
Proof.
  intros Hlen. unfold encode_transport.
  destruct t as [|p h|p hs|p h|s|], t' as [|p' h'|p' hs'|p' h'|s'|]; cbn [transport_kind kind_debug app];
    intros H; try discriminate H; injection H; clear H.
  - intros ->. done.
  - intros H ->. apply app_inj_2 in H as [-> ->]; done.
  - intros H ->. apply app_inj_2 in H as [H ->]; [|done]. apply list_fmap_eq_inj in H as ->; [done|].
    by intros x y [= ->].
  - intros H ->. apply app_inj_2 in H as [-> ->]; done.
  - intros H ->. done.
  - intros ->. done.
Qed.

Lemma options_inj p o o' a b :
  options_match p o = true -> options_match p o' = true -> options_ok o -> options_ok o' ->
  encode_protocol_options o ++ [("udp", a)] = encode_protocol_options o' ++ [("udp", b)] ->
  o = o' /\ a = b.
Proof.
  intros Hm Hm' Hok Hok'. destruct p; destruct o as [|f| |u| |h|t|an|ht|so]; try discriminate Hm; clear Hm;
    destruct o' as [|f'| |u'| |h'|t'|an'|ht'|so']; try discriminate Hm'; clear Hm';
    simpl in Hok, Hok'; cbn [encode_protocol_options app].
  - intros [= Hf ->]. apply or_empty_inj in Hf as ->; done.
  - intros [= ->]. done.
  - destruct u as [u|], u' as [u'|]; cbn [app]; intros H; try discriminate H; simpl in *.
    + apply uot_inj in H as [-> [= ->]]; done.
    + injection H as ->. done.
  - intros [= ->]. done.
  - destruct h as [sp hi up dn], h' as [sp' hi' up' dn']. simpl in *. rewrite <- !(assoc_L (++)). cbn [app].
    intros H. destruct Hok as (? & ? & ?), Hok' as (? & ? & ?).
    apply run_inj in H as (-> & [= Hh] & [= Hu Hd ->]); [|done..].
    apply or_empty_inj in Hh as ->; [|done..]. apply or_zero_inj in Hu as ->; [|done..].
    apply or_zero_inj in Hd as ->; done.
  - destruct t, t'. simpl in *. destruct Hok as (? & ? & ?), Hok' as (? & ? & ?).
    intros [= Q1 Q2 Q3 Q4 Q5 ->]. apply truth_inj in Q3 as ->, Q4 as ->.
    apply or_empty_inj in Q1 as ->; [|done..]. apply or_empty_inj in Q2 as ->; [|done..].
    apply or_empty_inj in Q5 as ->; done.
  - destruct an, an'. simpl in *. destruct Hok as (? & ? & ?), Hok' as (? & ? & ?).
    intros [= Q1 Q2 Q3 ->]. apply or_empty_inj in Q1 as ->; [|done..].
    apply or_empty_inj in Q2 as ->; [|done..]. apply or_zero_inj in Q3 as ->; done.
  - destruct ht, ht'. simpl in *. intros [= Q1 Q2]. apply or_empty_inj in Q1 as ->; [|done..].
    apply app_inj_tail in Q2 as [-> [= ->]]. done.
  - destruct so as [v u], so' as [v' u']. simpl in *.
    destruct u as [u|], u' as [u'|]; cbn [app]; intros H; injection H; clear H; try discriminate.
    + intros -> H1 H2 ->. apply truth_inj in H2. apply decimal_inj in H1; [|done..].
      destruct u, u'. simpl in *. by subst.
    + intros -> ->. done.
Qed.

(** The nodes the parser accepts: validated against the pinned matrix, with the
    options of their protocol, no optional value that is empty, and texts below
    4 GiB. *)
Record node_ok (n : UnvalidatedNode) : Prop := {
  ok_validated : exists p, ProxyNode_validate n pinned_matrix = Ok p;
  ok_match : options_match (un_protocol n) (un_options n) = true;
  ok_options : options_ok (un_options n);
  ok_credentials : credentials_ok (un_credentials n);
  ok_tls : tls_ok (un_tls n);
  ok_port : is_uint 64 (ep_port (un_endpoint n));
  ok_short : Forall short_field (canonical_fields n);
}.

Definition same_length_options (p : ProxyProtocol) : bool :=
  match p with Vless | Vmess | Trojan => true | _ => false end.

(** The transport and the options, as far as the pinned matrix lets them vary. *)
Lemma tail_inj n n' :
  node_ok n -> node_ok n' -> un_protocol n = un_protocol n' ->
  encode_transport (un_transport n) ++ encode_protocol_options (un_options n)
    ++ [("udp", flag (cap_udp (un_capabilities n)))]
  = encode_transport (un_transport n') ++ encode_protocol_options (un_options n')
    ++ [("udp", flag (cap_udp (un_capabilities n')))] ->
  un_transport n = un_transport n' /\ un_options n = un_options n'
  /\ cap_udp (un_capabilities n) = cap_udp (un_capabilities n').
Proof.
  intros Hn Hn' Hp H. pose proof (ok_match _ Hn) as Hm. pose proof (ok_match _ Hn') as Hm'.
  rewrite <- Hp in Hm'.
  assert (un_transport n = un_transport n'
    /\ encode_protocol_options (un_options n) ++ [("udp", flag (cap_udp (un_capabilities n)))]
       = encode_protocol_options (un_options n') ++ [("udp", flag (cap_udp (un_capabilities n')))]) as [Ht Ho].
  { destruct (same_length_options (un_protocol n)) eqn:Hs.
    { apply transport_inj; [|exact H].
      destruct (un_protocol n); try discriminate Hs; destruct (un_options n); try discriminate Hm;
        destruct (un_options n'); try discriminate Hm'; done. }
    assert (un_transport n = un_transport n') as Ht.
    { destruct (ok_validated _ Hn) as [p Hv], (ok_validated _ Hn') as [p' Hv'].
      pose proof (validated_tcp_only _ _ Hv) as H1. pose proof (validated_tcp_only _ _ Hv') as H1'.
      pose proof (validated_quic _ _ _ Hv) as H2. pose proof (validated_quic _ _ _ Hv') as H2'.
      rewrite <- Hp in H1', H2'. destruct (un_protocol n); try discriminate Hs;
        try (by rewrite H1, H1'); by rewrite H2, H2' by auto. }
    split; [done|]. rewrite Ht in H. by apply app_inv_head in H. }
  apply (options_inj (un_protocol n)) in Ho as [Ho Hu]; [|done|done|apply Hn|apply Hn'].
  apply flag_inj in Hu. done.
Qed.

(** ** The identity of a node

    Two nodes with the same canonical bytes are composed into the same outbound,
    whatever their tag. *)
Lemma canonical_bytes_compose n n' id :
  node_ok n -> node_ok n' -> canonical_node_bytes n = canonical_node_bytes n' ->
  compose_outbound id n = compose_outbound id n'.
Proof.
  intros Hn Hn' H. apply fields_inj in H; [|apply Hn|apply Hn']. unfold canonical_fields in H.
  cbn [app] in H. injection H as Hp Hs Hport H.
  apply protocol_name_inj in Hp. apply decimal_inj in Hport; [|apply Hn|apply Hn'].
  destruct (ok_validated _ Hn) as [p Hv], (ok_validated _ Hn') as [p' Hv'].
  apply validated_facts in Hv as (_ & Hc & _), Hv' as (_ & Hc' & _).
  apply credentials_inj in H as [Hcred H]; [|congruence|apply Hn|apply Hn'|done|done].
  apply (tls_inj (un_tls n) (un_tls n')
           ("transport", kind_debug (transport_kind (un_transport n)))
           ("transport", kind_debug (transport_kind (un_transport n'))))
    in H as (Hen & Htls & H); [|apply Hn|apply Hn'|done|done].
  destruct (tail_inj n n' Hn Hn' Hp H) as (Ht & Ho & Hu).
  unfold compose_outbound. by rewrite Hp, Hs, Hport, Hcred, Hen, Htls, Ht, Ho, Hu.
Qed.
