(* ===== verification/Diagnostics.v ===== *)
(** * Diagnostics: the codes and records of subscription diagnostics

    Models crates/nethop-subscription/src/diagnostics.rs and adapter.rs, with the
    [code()] functions of normalize.rs, detect.rs and base64_container.rs. *)

From S2P Require Import Prelude Text Ordering BTreeMap Source Detect Base64 ProxyNode.

Local Open Scope Z_scope.

Inductive Severity : Type := SevInfo | SevWarning | SevError.

Inductive DiagnosticCode : Type :=
| DcEmptyInput | DcInputTooLarge | DcInvalidUtf8 | DcNulByte | DcInvalidPercentEncoding
| DcInvalidUri | DcQueryLimitExceeded | DcNodeLimitExceeded | DcDuplicateQueryParameter
| DcFragmentTooLong | DcBase64NestingExceeded | DcVmessInnerJsonTooLarge | DcUnknownFormat
| DcAmbiguousFormat | DcAmbiguousDialect | DcFormatHintMismatch | DcInvalidBase64 | DcInvalidJson
| DcInvalidYaml | DcInvalidIni | DcDuplicateKey | DcDuplicateCredentialKey
| DcYamlAliasLimitExceeded | DcYamlNodeLimitExceeded | DcYamlMergeKeyUnsupported
| DcMissingRequiredField | DcInvalidEndpoint | DcUnsupportedProtocol | DcUnsupportedTransport
| DcUnsupportedSemantics | DcInvalidTlsCombination | DcInsecureTls | DcInvalidCredential
| DcUnknownField | DcNonNodeSectionIgnored | DcDuplicateNode | DcNodeFilteredOut
| DcSourceFilteredEmpty | DcSourceAllFailed | DcActiveLimitExceeded | DcSsrfBlocked
| DcSsrfPeerMismatch | DcResponseTooLarge | DcUnsupportedContentEncoding
| DcProxyFetchSecurityUnsupported | DcNestedResourceBlocked | DcClashInlineProxiesMissing
| DcClashProxyProvidersNotImported | DcLastKnownGoodUsed
| DcUnknown (value : string).
#[export] Instance DiagnosticCode_eq_dec : EqDecision DiagnosticCode.
Proof. solve_decision. Defined.

(** The variants in the order they are declared, which is their order. *)
Definition known_codes : list DiagnosticCode :=
  [DcEmptyInput; DcInputTooLarge; DcInvalidUtf8; DcNulByte; DcInvalidPercentEncoding;
   DcInvalidUri; DcQueryLimitExceeded; DcNodeLimitExceeded; DcDuplicateQueryParameter;
   DcFragmentTooLong; DcBase64NestingExceeded; DcVmessInnerJsonTooLarge; DcUnknownFormat;
   DcAmbiguousFormat; DcAmbiguousDialect; DcFormatHintMismatch; DcInvalidBase64; DcInvalidJson;
   DcInvalidYaml; DcInvalidIni; DcDuplicateKey; DcDuplicateCredentialKey;
   DcYamlAliasLimitExceeded; DcYamlNodeLimitExceeded; DcYamlMergeKeyUnsupported;
   DcMissingRequiredField; DcInvalidEndpoint; DcUnsupportedProtocol; DcUnsupportedTransport;
   DcUnsupportedSemantics; DcInvalidTlsCombination; DcInsecureTls; DcInvalidCredential;
   DcUnknownField; DcNonNodeSectionIgnored; DcDuplicateNode; DcNodeFilteredOut;
   DcSourceFilteredEmpty; DcSourceAllFailed; DcActiveLimitExceeded; DcSsrfBlocked;
   DcSsrfPeerMismatch; DcResponseTooLarge; DcUnsupportedContentEncoding;
   DcProxyFetchSecurityUnsupported; DcNestedResourceBlocked; DcClashInlineProxiesMissing;
   DcClashProxyProvidersNotImported; DcLastKnownGoodUsed].

Definition code_str (c : DiagnosticCode) : string :=
  match c with
  | DcEmptyInput => "empty_input"
  | DcInputTooLarge => "input_too_large"
  | DcInvalidUtf8 => "invalid_utf8"
  | DcNulByte => "nul_byte"
  | DcInvalidPercentEncoding => "invalid_percent_encoding"
  | DcInvalidUri => "invalid_uri"
  | DcQueryLimitExceeded => "query_limit_exceeded"
  | DcNodeLimitExceeded => "node_limit_exceeded"
  | DcDuplicateQueryParameter => "duplicate_query_parameter"
  | DcFragmentTooLong => "fragment_too_long"
  | DcBase64NestingExceeded => "base64_nesting_exceeded"
  | DcVmessInnerJsonTooLarge => "vmess_inner_json_too_large"
  | DcUnknownFormat => "unknown_format"
  | DcAmbiguousFormat => "ambiguous_format"
  | DcAmbiguousDialect => "ambiguous_dialect"
  | DcFormatHintMismatch => "format_hint_mismatch"
  | DcInvalidBase64 => "invalid_base64"
  | DcInvalidJson => "invalid_json"
  | DcInvalidYaml => "invalid_yaml"
  | DcInvalidIni => "invalid_ini"
  | DcDuplicateKey => "duplicate_key"
  | DcDuplicateCredentialKey => "duplicate_credential_key"
  | DcYamlAliasLimitExceeded => "yaml_alias_limit_exceeded"
  | DcYamlNodeLimitExceeded => "yaml_node_limit_exceeded"
  | DcYamlMergeKeyUnsupported => "yaml_merge_key_unsupported"
  | DcMissingRequiredField => "missing_required_field"
  | DcInvalidEndpoint => "invalid_endpoint"
  | DcUnsupportedProtocol => "unsupported_protocol"
  | DcUnsupportedTransport => "unsupported_transport"
  | DcUnsupportedSemantics => "unsupported_semantics"
  | DcInvalidTlsCombination => "invalid_tls_combination"
  | DcInsecureTls => "insecure_tls"
  | DcInvalidCredential => "invalid_credential"
  | DcUnknownField => "unknown_field"
  | DcNonNodeSectionIgnored => "non_node_section_ignored"
  | DcDuplicateNode => "duplicate_node"
  | DcNodeFilteredOut => "node_filtered_out"
  | DcSourceFilteredEmpty => "source_filtered_empty"
  | DcSourceAllFailed => "source_all_failed"
  | DcActiveLimitExceeded => "active_limit_exceeded"
  | DcSsrfBlocked => "ssrf_blocked"
  | DcSsrfPeerMismatch => "ssrf_peer_mismatch"
  | DcResponseTooLarge => "response_too_large"
  | DcUnsupportedContentEncoding => "unsupported_content_encoding"
  | DcProxyFetchSecurityUnsupported => "proxy_fetch_security_unsupported"
  | DcNestedResourceBlocked => "nested_resource_blocked"
  | DcClashInlineProxiesMissing => "clash_inline_proxies_missing"
  | DcClashProxyProvidersNotImported => "clash_proxy_providers_not_imported"
  | DcLastKnownGoodUsed => "last_known_good_used"
  | DcUnknown value => value
  end.
(** [DiagnosticCode::parse]: the arms are the names above. *)
Definition code_parse (value : string) : DiagnosticCode :=
  match List.find (fun c => String.eqb (code_str c) value) known_codes with
  | Some c => c
  | None => DcUnknown value
  end.
Definition is_known (c : DiagnosticCode) : bool :=
  match c with DcUnknown _ => false | _ => true end.

(** ** Error codes *)
Definition normalization_code (e : NormalizationError) : DiagnosticCode :=
  match e with
  | NormTooLarge _ _ => DcInputTooLarge
  | NormInvalidUtf8 => DcInvalidUtf8
  | NulByte => DcNulByte
  end.
Definition detection_code (e : DetectionError) : DiagnosticCode :=
  match e with
  | Normalize error => normalization_code error
  | EmptyInput => DcEmptyInput
  | UnknownFormat => DcUnknownFormat
  | AmbiguousFormat _ => DcAmbiguousFormat
  | FormatHintMismatch _ _ => DcFormatHintMismatch
  | InvalidJsonText => DcInvalidJson
  | InvalidYaml => DcInvalidYaml
  end.
Definition base64_code (e : Base64ContainerError) : DiagnosticCode :=
  match e with
  | Nested => DcBase64NestingExceeded
  | Invalid => DcInvalidBase64
  | InputTooLarge _ | OutputTooLarge _ => DcInputTooLarge
  | InvalidUtf8 => DcInvalidUtf8
  | Detection error => detection_code error
  end.

(** The derived order. *)
Fixpoint index_of (c : DiagnosticCode) (l : list DiagnosticCode) : Z :=
  match l with
  | [] => 0
  | x :: rest => if bool_decide (x = c) then 0 else 1 + index_of c rest
  end.
Definition code_index (c : DiagnosticCode) : Z := index_of c known_codes.
Definition code_cmp (a b : DiagnosticCode) : comparison :=
  match a, b with
  | DcUnknown s, DcUnknown t => String.compare s t
  | _, _ => Z.compare (code_index a) (code_index b)
  end.

Lemma code_index_known c : is_known c = true -> known_codes !! Z.to_nat (code_index c) = Some c /\ 0 <= code_index c < 49.
Proof. destruct c; try discriminate; intros _; vm_compute; done. Qed.
Lemma code_index_unknown s : code_index (DcUnknown s) = 49.
Proof. reflexivity. Qed.

Lemma code_cmp_index a b :
  is_known a = true \/ is_known b = true -> code_cmp a b = Z.compare (code_index a) (code_index b).
Proof. intros [H|H]; destruct a, b; try reflexivity; discriminate H. Qed.

Lemma code_index_inj a b : is_known a = true -> code_index a = code_index b -> a = b.
Proof.
  intros Ha H. destruct (code_index_known a Ha) as [Hla Hra].
  destruct (is_known b) eqn:Hb.
  - destruct (code_index_known b Hb) as [Hlb _]. rewrite H in Hla. congruence.
  - destruct b; try discriminate Hb. rewrite code_index_unknown in H. lia.
Qed.

#[export] Program Instance DiagnosticCode_Ord : Ord DiagnosticCode := {| cmp := code_cmp |}.
Next Obligation.
  intros a b. destruct (is_known a) eqn:Ha; [|destruct (is_known b) eqn:Hb].
  - rewrite code_cmp_index by auto. rewrite Z.compare_eq_iff. split; [by apply code_index_inj|by intros ->].
  - rewrite code_cmp_index by auto. rewrite Z.compare_eq_iff. split; [|by intros ->].
    intros H. symmetry. by apply code_index_inj.
  - destruct a; try discriminate Ha. destruct b; try discriminate Hb.
    match goal with |- code_cmp (DcUnknown ?s) (DcUnknown ?t) = Eq <-> _ =>
      change (code_cmp (DcUnknown s) (DcUnknown t)) with (cmp s t) end.
    rewrite cmp_eq. naive_solver.
Qed.
Next Obligation.
  intros a b. destruct (is_known a) eqn:Ha; [|destruct (is_known b) eqn:Hb].
  - rewrite !code_cmp_index by auto. apply Z.compare_antisym.
  - rewrite !code_cmp_index by auto. apply Z.compare_antisym.
  - destruct a; try discriminate Ha. destruct b; try discriminate Hb. apply String.compare_antisym.
Qed.
Next Obligation.
  assert (forall a, is_known a = false -> exists s, a = DcUnknown s) as Hu
    by (intros []; try discriminate; eauto).
  assert (forall a, code_index a <= 49) as Hmax.
  { intros a. destruct (is_known a) eqn:Ha; [pose proof (code_index_known a Ha); lia|].
    by destruct (Hu a Ha) as [s ->]. }
  intros a b c. destruct (is_known b) eqn:Hb.
  - rewrite !(code_cmp_index _ b), !(code_cmp_index b) by auto. rewrite !Z.compare_lt_iff. intros H1 H2.
    destruct (is_known a) eqn:Ha.
    + rewrite code_cmp_index by auto. rewrite Z.compare_lt_iff. lia.
    + destruct (Hu a Ha) as [s ->]. rewrite code_index_unknown in H1. specialize (Hmax b). lia.
  - destruct (Hu b Hb) as [t ->]. destruct (is_known a) eqn:Ha.
    + destruct (is_known c) eqn:Hc.
      * rewrite (code_cmp_index _ c) by auto. rewrite code_index_unknown, Z.compare_lt_iff. intros _ H2.
        specialize (Hmax c). destruct (code_index_known c Hc). lia.
      * intros _ _. destruct (Hu c Hc) as [u ->]. rewrite code_cmp_index by auto.
        rewrite code_index_unknown, Z.compare_lt_iff. destruct (code_index_known a Ha). lia.
    + destruct (Hu a Ha) as [s ->]. destruct (is_known c) eqn:Hc.
      * rewrite (code_cmp_index _ c) by auto. rewrite code_index_unknown, Z.compare_lt_iff. intros _ H2.
        destruct (code_index_known c Hc). lia.
      * destruct (Hu c Hc) as [u ->]. exact (cmp_lt_trans (K:=string) s t u).
Qed.

(** Known codes are read back from their names. *)
Lemma code_round_trip c : is_known c = true -> code_parse (code_str c) = c.
Proof. destruct c; try discriminate; intros _; vm_compute; reflexivity. Qed.

(** ** Locations and diagnostics *)
Inductive LocationError : Type := ZeroBased | FieldPathTooLong | FieldPathControl.
Record SourceLocation : Type := mkLocation {
  loc_item_index : Z;
  loc_line : option Z;
  loc_column : option Z;
  loc_field_path : option string;
}.
Definition is_zero (o : option Z) : bool := match o with Some n => n =? 0 | None => false end.
Definition SourceLocation_new (item_index : Z) (line column : option Z) (field_path : option string) :
    Result LocationError SourceLocation :=
  if is_zero line || is_zero column then Err ZeroBased
  else if match field_path with Some p => 256 <? str_len p | None => false end then Err FieldPathTooLong
  else if match field_path with Some p => has_control (bytes p) | None => false end
  then Err FieldPathControl
  else Ok (mkLocation item_index line column field_path).

Record NodeDiagnostic : Type := mkDiagnostic {
  dg_severity : Severity;
  dg_code : DiagnosticCode;
  dg_source_id : option SourceId;
  dg_location : option SourceLocation;
  dg_protocol : option ProxyProtocol;
  dg_node_id : option string;
  dg_parameters : BTreeMap string string;
}.
Definition NodeDiagnostic_new (code : DiagnosticCode) (severity : Severity) : NodeDiagnostic :=
  mkDiagnostic severity code None None None None [].
Definition ALLOWED_PARAMETERS : list string :=
  ["field"; "format"; "transport"; "source_kind"; "expected_format"; "limit"; "count"].
Definition with_parameter (d : NodeDiagnostic) (key value : string) : NodeDiagnostic :=
  if existsb (String.eqb key) ALLOWED_PARAMETERS && (str_len value <=? 256)
     && negb (has_control (bytes value))
  then mkDiagnostic (dg_severity d) (dg_code d) (dg_source_id d) (dg_location d) (dg_protocol d)
         (dg_node_id d) (bt_insert key value (dg_parameters d))
  else d.

(** ** Adapter output *)
Record AdapterNodeResult : Type := mkResult {
  ar_item_index : Z;
  ar_node : option ProxyNode;
  ar_diagnostic : option NodeDiagnostic;
  ar_warnings : list NodeDiagnostic;
}.
Definition result_accepted (index : Z) (n : ProxyNode) (warnings : list NodeDiagnostic) : AdapterNodeResult :=
  mkResult index (Some n) None warnings.
Definition result_rejected (index : Z) (d : NodeDiagnostic) : AdapterNodeResult :=
  mkResult index None (Some d) [].
Record AdapterOutput : Type := mkOutput {
  out_nodes : list AdapterNodeResult;
  out_diagnostics : list NodeDiagnostic;
}.
Definition accepted_count (o : AdapterOutput) : Z :=
  len (filter (fun r => is_Some (ar_node r)) (out_nodes o)).
Definition rejected_count (o : AdapterOutput) : Z :=
  len (filter (fun r => is_Some (ar_diagnostic r)) (out_nodes o)).
