(* ===== verification/Uri.v ===== *)
(** * Uri: URI lists

    Models crates/nethop-subscription/src/uri.rs: percent decoding, the host and port
    grammar (with the port ranges of Hysteria2), queries, one line and a whole list.
    Text is its UTF-8 bytes.  [None] is a panic: the slice after the scheme, or the
    default limits. *)

From S2P Require Import Prelude Text Ordering BTreeMap Source Detect Base64 ProxyNode Diagnostics.

Local Open Scope Z_scope.

(** ** Schemes and errors *)
Inductive UriScheme : Type :=
| UVless | UVmess | UShadowsocks | UTrojan | UHysteria2 | UHysteria2Short | UTuic | UAnyTls.
#[export] Instance UriScheme_eq_dec : EqDecision UriScheme.
Proof. solve_decision. Defined.
Definition all_schemes : list UriScheme :=
  [UVless; UVmess; UShadowsocks; UTrojan; UHysteria2; UHysteria2Short; UTuic; UAnyTls].
Definition scheme_str (s : UriScheme) : string :=
  match s with
  | UVless => "vless"
  | UVmess => "vmess"
  | UShadowsocks => "ss"
  | UTrojan => "trojan"
  | UHysteria2 => "hysteria2"
  | UHysteria2Short => "hy2"
  | UTuic => "tuic"
  | UAnyTls => "anytls"
  end.
Definition scheme_protocol (s : UriScheme) : ProxyProtocol :=
  match s with
  | UVless => Vless
  | UVmess => Vmess
  | UShadowsocks => Shadowsocks
  | UTrojan => Trojan
  | UHysteria2 | UHysteria2Short => Hysteria2
  | UTuic => Tuic
  | UAnyTls => AnyTls
  end.
Definition scheme_parse (value : list Z) : option UriScheme :=
  List.find (fun s => bool_decide (bytes (scheme_str s) = value)) all_schemes.

Inductive UriContainerError : Type :=
| UnsupportedScheme | MissingScheme | InvalidUri | LineTooLong | InvalidPercentEncoding
| UriInvalidUtf8 | ControlCharacter | QueryLimitExceeded | FragmentTooLong
| VmessInnerJsonTooLarge | InvalidVmessBase64.
Definition uri_code (e : UriContainerError) : DiagnosticCode :=
  match e with
  | UnsupportedScheme => DcUnsupportedProtocol
  | MissingScheme => DcUnknownFormat
  | InvalidUri | ControlCharacter => DcInvalidUri
  | LineTooLong => DcInputTooLarge
  | InvalidPercentEncoding => DcInvalidPercentEncoding
  | UriInvalidUtf8 => DcInvalidUtf8
  | QueryLimitExceeded => DcQueryLimitExceeded
  | FragmentTooLong => DcFragmentTooLong
  | VmessInnerJsonTooLarge => DcVmessInnerJsonTooLarge
  | InvalidVmessBase64 => DcInvalidBase64
  end.

(** ** Percent decoding *)
Definition hex_value (b : Z) : option Z :=
  if is_ascii_digit b then Some (b - 48)
  else if in_range 97 102 b then Some (b - 97 + 10)
  else if in_range 65 70 b then Some (b - 65 + 10)
  else None.
(** The loop; the rest of the text stands for the index. *)
Fixpoint percent_decode_loop (bs decoded : list Z) : Result UriContainerError (list Z) :=
  match bs with
  | [] => Ok decoded
  | b :: rest =>
      if negb (b =? 37) then percent_decode_loop rest (decoded ++ [b])
      else
        match rest with
        | h :: l :: rest' =>
            high ← ok_or (hex_value h) InvalidPercentEncoding;
            low ← ok_or (hex_value l) InvalidPercentEncoding;
            percent_decode_loop rest' (decoded ++ [Z.lor (Z.shiftl high 4) low])
        | _ => Err InvalidPercentEncoding
        end
  end.
Definition percent_decode_field (value : list Z) : Result UriContainerError (list Z) :=
  decoded ← percent_decode_loop value [];
  if negb (valid_utf8 decoded) then Err UriInvalidUtf8
  else if has_control decoded then Err ControlCharacter
  else Ok decoded.

(** ** Ports and hosts *)
Definition parse_port (value : list Z) : Result UriContainerError Z :=
  port ← ok_or (parse_uint 16 value) InvalidUri;
  if port =? 0 then Err InvalidUri else Ok port.

Definition contains (b : Z) (bs : list Z) : bool := existsb (Z.eqb b) bs.
Definition get_or_insert (o : option Z) (v : Z) : option Z := match o with Some x => Some x | None => Some v end.

(** The loop over the entries of a Hysteria2 port list. *)
Fixpoint port_entries (entries : list (list Z)) (count : Z) (first_port : option Z) :
    Result UriContainerError (option Z) :=
  match entries with
  | [] => Ok first_port
  | entry :: rest =>
      let count := sat_add_u 64 count 1 in
      if (64 <? count) || (len entry =? 0) then Err InvalidUri
      else
        match split_once 45 entry with
        | Some (start, finish) =>
            if (len start =? 0) || (len finish =? 0) || contains 45 finish then Err InvalidUri
            else
              start ← parse_port start;
              finish ← parse_port finish;
              if finish <? start then Err InvalidUri
              else port_entries rest count (get_or_insert first_port start)
        | None =>
            port ← parse_port entry;
            port_entries rest count (get_or_insert first_port port)
        end
  end.
Definition is_hysteria2 (s : UriScheme) : bool :=
  match s with UHysteria2 | UHysteria2Short => true | _ => false end.
Definition parse_port_suffix (value : list Z) (scheme : UriScheme) :
    Result UriContainerError (option Z * option (list Z)) :=
  if negb (is_hysteria2 scheme) || (negb (contains 44 value) && negb (contains 45 value)) then
    port ← parse_port value;
    Ok (Some port, None)
  else if (len value =? 0) || (256 <? len value) then Err InvalidUri
  else
    first_port ← port_entries (split_on 44 value) 0 None;
    Ok (first_port, Some value).

Definition parse_host_port (host_port : list Z) (scheme : UriScheme) :
    Result UriContainerError (list Z * option Z * option (list Z)) :=
  '(server, port) ←
    match strip_prefix [91] host_port with
    | Some bracketed =>
        '(server, suffix) ← ok_or (split_once 93 bracketed) InvalidUri;
        port ← (if len suffix =? 0 then Ok (None, None)
                else
                  value ← ok_or (strip_prefix [58] suffix) InvalidUri;
                  parse_port_suffix value scheme);
        Ok (server, port)
    | None =>
        match rsplit_once 58 host_port with
        | Some (server, port) =>
            if contains 58 server then Err InvalidUri
            else
              port ← parse_port_suffix port scheme;
              Ok (server, port)
        | None => Ok (host_port, (None, None))
        end
    end;
  if (len server =? 0) || has_white server || has_control server then Err InvalidUri
  else Ok (server, port.1, port.2).

(** ** Queries *)
Fixpoint query_entries (entries : list (list Z)) (limits : ParserLimits) (parameters : list (list Z * list Z)) :
    Result UriContainerError (list (list Z * list Z)) :=
  match entries with
  | [] => Ok parameters
  | entry :: rest =>
      if len parameters =? max_query_params limits then Err QueryLimitExceeded
      else
        let '(key, value) := default (entry, []) (split_once 61 entry) in
        if len key =? 0 then Err InvalidUri
        else
          _ ← percent_decode_field key;
          _ ← percent_decode_field value;
          query_entries rest limits (parameters ++ [(key, value)])
  end.
Definition parse_query (query : option (list Z)) (limits : ParserLimits) :
    Result UriContainerError (list (list Z * list Z)) :=
  match query with
  | None => Ok []
  | Some query => if len query =? 0 then Ok [] else query_entries (split_on 38 query) limits []
  end.

(** ** One line *)
Record UriNodeCandidate : Type := mkCandidate {
  cd_scheme : UriScheme;
  raw_without_fragment : list Z;
  cd_userinfo : option (list Z);
  cd_server : list Z;
  cd_port : option Z;
  cd_port_spec : option (list Z);
  cd_query : list (list Z * list Z);
  cd_fragment : option (list Z);
  cd_line : Z;
  cd_item_index : Z;
}.

Section uri.
Context `{!Base64Engine}.

Definition map_vmess_base64_error (e : Base64ContainerError) : UriContainerError :=
  match e with OutputTooLarge _ => VmessInnerJsonTooLarge | _ => InvalidVmessBase64 end.
Definition decode_vmess_inner_json (encoded : list Z) (limits : ParserLimits) :
    Result UriContainerError (list Z) :=
  map_err map_vmess_base64_error (decode_base64_with_limit encoded (max_vmess_json_bytes limits)).
Definition vmess_inner_json (c : UriNodeCandidate) : option (Result UriContainerError (list Z)) :=
  if negb (bool_decide (cd_scheme c = UVmess)) || bool_decide (is_Some (cd_userinfo c))
  then Some (Err InvalidUri)
  else
    limits ← ParserLimits_default;
    Some (decode_vmess_inner_json (cd_server c) limits).

Definition decode_some (o : option (list Z)) : Result UriContainerError unit :=
  match o with
  | Some v => _ ← percent_decode_field v; Ok tt
  | None => Ok tt
  end.

(** The part of the line after the scheme, without the fragment. *)
Definition parse_remainder (scheme : UriScheme) (raw remainder : list Z) (fragment : option (list Z))
    (line_number item_index : Z) (limits : ParserLimits) : Result UriContainerError UriNodeCandidate :=
  let '(authority, query_text) :=
    match split_once 63 remainder with Some (a, q) => (a, Some q) | None => (remainder, None) end in
  if (len authority =? 0) || has_control authority then Err InvalidUri
  else
    let '(userinfo, host_port) :=
      match rsplit_once 64 authority with Some (u, h) => (Some u, h) | None => (None, authority) end in
    _ ← decode_some userinfo;
    '(server, port, port_spec) ← parse_host_port host_port scheme;
    query ← parse_query query_text limits;
    Ok (mkCandidate scheme raw userinfo server port port_spec query fragment line_number item_index).

Definition parse_uri_line (line : list Z) (line_number item_index : Z) (limits : ParserLimits) :
    option (Result UriContainerError UriNodeCandidate) :=
  if max_line_bytes limits <? len line then Some (Err LineTooLong)
  else
    match split_once_str (bytes "://") line with
    | None => Some (Err MissingScheme)
    | Some (scheme_text, remainder) =>
        match scheme_parse scheme_text with
        | None => Some (Err UnsupportedScheme)
        | Some scheme =>
            if len remainder =? 0 then Some (Err InvalidUri)
            else
              let '(raw, fragment) :=
                match split_once 35 line with Some (base, f) => (base, Some f) | None => (line, None) end in
              if match fragment with Some f => max_fragment_bytes limits <? len f | None => false end
              then Some (Err FragmentTooLong)
              else
                match decode_some fragment with
                | Err e => Some (Err e)
                | Ok _ =>
                    let start := len scheme_text + 3 in
                    if len raw <? start then None
                    else
                      match parse_remainder scheme raw (drop (Z.to_nat start) raw) fragment line_number
                              item_index limits with
                      | Err e => Some (Err e)
                      | Ok candidate =>
                          if bool_decide (scheme = UVmess) && bool_decide (cd_userinfo candidate = None) then
                            inner ← vmess_inner_json candidate;
                            Some (match inner with
                                  | Err VmessInnerJsonTooLarge => Err VmessInnerJsonTooLarge
                                  | _ => Ok candidate
                                  end)
                          else Some (Ok candidate)
                      end
                end
        end
    end.

(** ** The list *)
Record UriNodeResult : Type := mkUriResult {
  ur_item_index : Z;
  ur_line : Z;
  ur_format : FormatHint;
  ur_result : Result NodeDiagnostic UriNodeCandidate;
}.
Definition location (item_index line : Z) : option SourceLocation :=
  match SourceLocation_new item_index (Some line) (Some 1) None with Ok l => Some l | Err _ => None end.
Definition rejected_result (item_index line : Z) (code : DiagnosticCode) (source_id : option SourceId) :
    UriNodeResult :=
  let d := NodeDiagnostic_new code SevError in
  mkUriResult item_index line FUriList
    (Err (mkDiagnostic (dg_severity d) (dg_code d) source_id (location item_index line) (dg_protocol d)
            (dg_node_id d) (dg_parameters d))).

Fixpoint uri_lines (lines : list (Z * list Z)) (source_id : option SourceId) (limits : ParserLimits)
    (item_index : Z) (results : list UriNodeResult) : option (list UriNodeResult) :=
  match lines with
  | [] => Some results
  | (number, raw) :: rest =>
      let text := trim_text raw in
      if (len text =? 0) || starts_with_byte 35 text then uri_lines rest source_id limits item_index results
      else if max_nodes limits <=? item_index then
        Some [rejected_result item_index number DcNodeLimitExceeded source_id]
      else
        result ← (if max_line_bytes limits <? len text then Some (Err LineTooLong)
                  else parse_uri_line text number item_index limits);
        let r :=
          match result with
          | Ok candidate => mkUriResult item_index number FUriList (Ok candidate)
          | Err e => rejected_result item_index number (uri_code e) source_id
          end in
        uri_lines rest source_id limits (sat_add_u 32 item_index 1) (results ++ [r])
  end.
Definition parse_uri_list (bs : list Z) (source_id : option SourceId) (limits : ParserLimits) :
    option (list UriNodeResult) :=
  match normalize_bytes bs limits with
  | Err e => Some [rejected_result 0 1 (normalization_code e) source_id]
  | Ok payload => uri_lines (numbered_lines payload) source_id limits 0 []
  end.
End uri.

(** [UriNodeCandidate::duplicate_query_keys]: the keys that occur more than once, in
    order. *)
Definition decoded_or_raw (key : list Z) : list Z :=
  match percent_decode_field key with Ok k => k | Err _ => key end.
Fixpoint duplicate_keys (keys seen duplicates : list string) : list string :=
  match keys with
  | [] => sort_dedup duplicates
  | k :: rest =>
      if bool_decide (k ∈ seen) then duplicate_keys rest seen (k :: duplicates)
      else duplicate_keys rest (k :: seen) duplicates
  end.
Definition duplicate_query_keys (c : UriNodeCandidate) : list string :=
  duplicate_keys ((fun p => of_bytes (decoded_or_raw p.1)) <$> cd_query c) [] [].

(** ** Percent decoding is exact *)

(** [percent_encodes v t]: [v] is a percent encoding of the bytes [t]. *)
Inductive percent_encodes : list Z -> list Z -> Prop :=
| pe_nil : percent_encodes [] []
| pe_plain b v t : b <> 37 -> percent_encodes v t -> percent_encodes (b :: v) (b :: t)
| pe_escape h l high low v t :
    hex_value h = Some high -> hex_value l = Some low -> percent_encodes v t ->
    percent_encodes (37 :: h :: l :: v) (high * 16 + low :: t).

Lemma hex_value_range b v : hex_value b = Some v -> 0 <= v < 16.
Proof.
  unfold hex_value, is_ascii_digit, in_range. intros H.
  repeat match type of H with context [if ?c then _ else _] => destruct c eqn:? end; simplify_eq; lia.
Qed.
Lemma join_nibbles high low : 0 <= high < 16 -> 0 <= low < 16 -> Z.lor (Z.shiftl high 4) low = high * 16 + low.
Proof.
  intros Hh Hl.
  assert (forallb (fun n => let h := Z.of_nat n / 16 in let l := Z.of_nat n mod 16 in
    Z.lor (Z.shiftl h 4) l =? h * 16 + l) (seq 0 256) = true) as Hall by (vm_compute; reflexivity).
  rewrite forallb_forall in Hall. specialize (Hall (Z.to_nat (high * 16 + low))).
  rewrite in_seq, Z2Nat.id in Hall by lia. cbv zeta in Hall.
  rewrite Z.div_add_l, Z.div_small, Z.add_0_r, (Z.add_comm _ low), Z_mod_plus_full, Z.mod_small in Hall by lia.
  apply Z.eqb_eq, Hall. lia.
Qed.

Lemma percent_loop_spec v acc t :
  percent_decode_loop v acc = Ok t <-> exists t', percent_encodes v t' /\ t = acc ++ t'.
Proof.
  revert acc. induction v as [v IH] using (well_founded_induction (well_founded_ltof _ (@length Z))).
  unfold ltof in IH. intros acc. destruct v as [|b v].
  { simpl. split.
    - intros [= ->]. exists []. split; [constructor|by rewrite app_nil_r].
    - intros (t' & Hp & ->). inversion Hp. by rewrite app_nil_r. }
  cbn [percent_decode_loop]. destruct (Z.eqb_spec b 37) as [->|Hb]; cbn [negb].
  - split.
    + destruct v as [|h [|l v]]; try done. cbn. destruct (hex_value h) as [high|] eqn:Eh; [|done]. cbn.
      destruct (hex_value l) as [low|] eqn:El; [|done]. cbn. rewrite IH by (simpl; lia).
      intros (t' & Hp & ->). exists (high * 16 + low :: t'). split; [by constructor|].
      rewrite join_nibbles by (by eapply hex_value_range). by rewrite <- (assoc_L (++)).
    + intros (t' & Hp & ->). inversion Hp as [|? ? ? Hne|h l high low v' t'' Eh El Hp']; [done|]. subst. cbn.
      rewrite Eh, El. cbn. rewrite IH by (simpl; lia). exists t''. split; [done|].
      rewrite join_nibbles by (by eapply hex_value_range). by rewrite <- (assoc_L (++)).
  - rewrite IH by (simpl; lia). split; intros (t' & Hp & ->).
    + exists (b :: t'). split; [by constructor|]. by rewrite <- (assoc_L (++)).
    + inversion Hp as [|? ? t'' _ Hp'|]; [|done]. subst. exists t''. by rewrite <- (assoc_L (++)).
Qed.

Lemma percent_decode_iff v t :
  percent_decode_field v = Ok t <->
  percent_encodes v t /\ valid_utf8 t = true /\ has_control t = false.
Proof.
  unfold percent_decode_field, mbind, Result_bind. destruct (percent_decode_loop v []) as [d|e] eqn:E.
  - apply percent_loop_spec in E as (t' & Hp & ->). rewrite app_nil_l.
    assert (forall u, percent_encodes v u -> u = t') as Huniq.
    { intros u Hu. pose proof (proj2 (percent_loop_spec v [] u) ltac:(by exists u)) as H1.
      pose proof (proj2 (percent_loop_spec v [] t') ltac:(by exists t')) as H2. congruence. }
    destruct (valid_utf8 t') eqn:Hv; simpl; [|split; [done|]; intros (Hu & Hv' & _); apply Huniq in Hu; congruence].
    destruct (has_control t') eqn:Hc; [split; [done|]; intros (Hu & _ & Hc'); apply Huniq in Hu; congruence|].
    split; [by intros [= <-]|]. intros (Hu & _). by rewrite (Huniq _ Hu).
  - split; [done|]. intros (Hp & _). pose proof (proj2 (percent_loop_spec v [] t) ltac:(by exists t)). congruence.
Qed.

(** An encoder that escapes the bytes it does not keep, [%] among them. *)
Definition hex_upper (d : Z) : Z := if d <? 10 then 48 + d else 55 + d.
Definition percent_encode (keep : Z -> bool) (t : list Z) : list Z :=
  mjoin ((fun b => if keep b then [b] else [37; hex_upper (b / 16); hex_upper (b mod 16)]) <$> t).
Lemma hex_value_upper d : 0 <= d < 16 -> hex_value (hex_upper d) = Some d.
Proof.
  intros Hd. unfold hex_value, hex_upper, is_ascii_digit, in_range. destruct (Z.ltb_spec d 10).
  - rewrite (proj2 (Z.leb_le 48 _)), (proj2 (Z.leb_le _ 57)) by lia. simpl. f_equal. lia.
  - rewrite (proj2 (Z.leb_gt _ 57)) by lia. rewrite andb_false_r. rewrite (proj2 (Z.leb_gt 97 _)) by lia.
    simpl. rewrite (proj2 (Z.leb_le 65 _)), (proj2 (Z.leb_le _ 70)) by lia. simpl. f_equal. lia.
Qed.
Lemma percent_encode_encodes keep t :
  keep 37 = false -> Forall (fun b => 0 <= b < 256) t -> percent_encodes (percent_encode keep t) t.
Proof.
  intros Hk. induction 1 as [|b t Hb _ IH]; [constructor|]. unfold percent_encode. rewrite fmap_cons. cbn.
  fold (percent_encode keep t). destruct (keep b) eqn:Ekb.
  - apply (pe_plain b); [intros ->; congruence|done].
  - pose proof (Z.div_mod b 16 ltac:(lia)) as Hdm. pose proof (Z.mod_pos_bound b 16 ltac:(lia)).
    assert (0 <= b / 16 < 16) by (split; [apply Z.div_pos; lia|apply Z.div_lt_upper_bound; lia]).
    replace b with (b / 16 * 16 + b mod 16) at 3 by lia.
    apply pe_escape; [by apply hex_value_upper|by apply hex_value_upper|done].
Qed.

(** Percent decoding is exact: it returns a text precisely when the field is an
    encoding of it, and the text is valid UTF-8 without control characters; and every
    such text is read back from its encoding, whichever bytes the encoder leaves
    unescaped. *)
Theorem percent_decode_exact v t :
  (percent_decode_field v = Ok t <->
   percent_encodes v t /\ valid_utf8 t = true /\ has_control t = false)
  /\ (forall keep, keep 37 = false -> Forall (fun b => 0 <= b < 256) t ->
      valid_utf8 t = true -> has_control t = false ->
      percent_decode_field (percent_encode keep t) = Ok t).
Proof.
  split; [apply percent_decode_iff|]. intros. apply percent_decode_iff.
  split; [by apply percent_encode_encodes|done].
Qed.

(** ** One line *)
Definition before (o : option (list Z)) (sep : Z) : list Z := match o with Some v => v ++ [sep] | None => [] end.
Definition after (sep : Z) (o : option (list Z)) : list Z := match o with Some v => sep :: v | None => [] end.
Definition authority_of (userinfo : option (list Z)) (host_port : list Z) : list Z :=
  before userinfo 64 ++ host_port.
(** The text of a line from its parts. *)
Definition line_of (scheme : UriScheme) (userinfo : option (list Z)) (host_port : list Z)
    (query fragment : option (list Z)) : list Z :=
  bytes (scheme_str scheme) ++ bytes "://" ++ authority_of userinfo host_port ++ after 63 query
  ++ after 35 fragment.

Lemma split_once_skip sep p s :
  sep ∉ p ->
  split_once sep (p ++ s) = match split_once sep s with Some (l, r) => Some (p ++ l, r) | None => None end.
Proof.
  induction p as [|x p IH]; intros Hn; simpl; [by destruct (split_once sep s) as [[]|]|].
  apply not_elem_of_cons in Hn as [Hx Hn]. rewrite (proj2 (Z.eqb_neq x sep)) by done. rewrite IH by done.
  by destruct (split_once sep s) as [[]|].
Qed.
Lemma split_once_after sep l o :
  sep ∉ l -> match split_once sep (l ++ after sep o) with Some (a, r) => (a, Some r) | None => (l ++ after sep o, None) end = (l, o).
Proof.
  intros Hl. rewrite split_once_skip by done. destruct o as [v|]; simpl.
  - rewrite Z.eqb_refl, app_nil_r. done.
  - by rewrite app_nil_r.
Qed.
(** Cutting a text at the first separator inverts [after]. *)
Lemma cut_inv sep bs l o :
  match split_once sep bs with Some (a, r) => (a, Some r) | None => (bs, None) end = (l, o) ->
  bs = l ++ after sep o /\ sep ∉ l.
Proof.
  destruct (split_once sep bs) as [[a r]|] eqn:E; intros [= <- <-]; simpl.
  - by apply split_once_Some in E as [-> ?].
  - rewrite app_nil_r. split; [done|]. by apply split_once_None.
Qed.
Lemma rcut_inv sep bs u h :
  match rsplit_once sep bs with Some (a, r) => (Some a, r) | None => (None, bs) end = (u, h) <->
  bs = before u sep ++ h /\ sep ∉ h.
Proof.
  destruct (rsplit_once sep bs) as [[a r]|] eqn:E.
  - pose proof E as E'. apply rsplit_once_Some in E as [-> Hr]. split.
    + intros [= <- <-]. split; [|done]. unfold before. by rewrite <- (assoc_L (++)).
    + intros [Eb Hh]. destruct u as [u|]; simpl in Eb.
      * rewrite <- (assoc_L (++)) in Eb. simpl in Eb. rewrite Eb in E'.
        rewrite (proj2 (rsplit_once_Some sep _ u h) (conj eq_refl Hh)) in E'. by simplify_eq.
      * destruct Hh. rewrite <- Eb, elem_of_app. right. by left.
  - apply rsplit_once_None in E. split; [intros [= <- <-]; done|].
    intros [-> Hh]. destruct u as [u|]; simpl in *; [|done].
    destruct E. rewrite !elem_of_app. left. right. by left.
Qed.

Lemma scheme_parse_Some v s : scheme_parse v = Some s <-> v = bytes (scheme_str s).
Proof.
  unfold scheme_parse. split.
  - intros [_ H]%List.find_some. by apply bool_decide_eq_true in H.
  - intros ->. destruct s; vm_compute; reflexivity.
Qed.
Lemma scheme_plain s : 35 ∉ bytes (scheme_str s) ++ bytes "://" /\ 58 ∉ bytes (scheme_str s).
Proof. split; destruct s; apply (bool_decide_unpack _); vm_compute; exact I. Qed.

Lemma parse_remainder_exact scheme raw rem fragment n i limits c :
  parse_remainder scheme raw rem fragment n i limits = Ok c <->
  exists userinfo host_port query_text server port spec query,
    rem = authority_of userinfo host_port ++ after 63 query_text
    /\ 63 ∉ authority_of userinfo host_port /\ 64 ∉ host_port
    /\ authority_of userinfo host_port <> [] /\ has_control (authority_of userinfo host_port) = false
    /\ decode_some userinfo = Ok tt
    /\ parse_host_port host_port scheme = Ok (server, port, spec)
    /\ parse_query query_text limits = Ok query
    /\ c = mkCandidate scheme raw userinfo server port spec query fragment n i.
Proof.
  unfold parse_remainder.
  destruct (match split_once 63 rem with Some (a, q) => (a, Some q) | None => (rem, None) end)
    as [authority query_text] eqn:Ecut.
  destruct (match rsplit_once 64 authority with Some (u, h) => (Some u, h) | None => (None, authority) end)
    as [userinfo host_port] eqn:Ercut.
  pose proof (cut_inv _ _ _ _ Ecut) as [Erem Hq]. pose proof (proj1 (rcut_inv _ _ _ _) Ercut) as [Eauth Hat].
  assert (len authority =? 0 = true <-> authority = []) as Hlen.
  { unfold len. rewrite Z.eqb_eq. destruct authority; simpl; [done|]. split; [lia|done]. }
  split.
  - destruct (len authority =? 0) eqn:El; [done|]. destruct (has_control authority) eqn:Ec; [done|]. cbn [orb].
    destruct (decode_some userinfo) as [[]|] eqn:Eu; [|done]. cbn [mbind Result_bind].
    destruct (parse_host_port host_port scheme) as [[[server port] spec]|] eqn:Eh; [|done]. cbn.
    destruct (parse_query query_text limits) as [query|] eqn:Eq; [|done]. cbn. intros [= <-].
    exists userinfo, host_port, query_text, server, port, spec, query.
    change (authority_of userinfo host_port) with (before userinfo 64 ++ host_port). rewrite <- Eauth.
    split_and!; try done. intros ->. by destruct Hlen as [_ Hlen]; specialize (Hlen eq_refl).
  - intros (u & h & q & server & port & spec & query & Er & H63 & H64 & Hne & Hc & Hu & Hh & Hqy & ->).
    rewrite Er, (split_once_after 63 _ q H63) in Ecut. injection Ecut as <- <-.
    assert ((userinfo, host_port) = (u, h)) as [= -> ->].
    { rewrite <- Ercut. apply rcut_inv. done. }
    destruct (len (authority_of u h) =? 0) eqn:El; [by destruct Hne; apply Hlen|]. rewrite Hc. cbn [orb].
    rewrite Hu. cbn [mbind Result_bind]. rewrite Hh. cbn. by rewrite Hqy.
Qed.

Section line_grammar.
Context `{!Base64Engine}.

Definition inner_json_fits (scheme : UriScheme) (userinfo : option (list Z)) (server : list Z) : Prop :=
  scheme = UVmess -> userinfo = None -> forall limits, ParserLimits_default = Some limits ->
  decode_vmess_inner_json server limits <> Err VmessInnerJsonTooLarge.

(** The line as [parse_uri_line] cuts it, past the scheme. *)
Lemma parse_line_unfold scheme rem n i limits :
  let line := bytes (scheme_str scheme) ++ bytes "://" ++ rem in
  parse_uri_line line n i limits =
    if max_line_bytes limits <? len line then Some (Err LineTooLong)
    else if len rem =? 0 then Some (Err InvalidUri)
    else
      let '(base, fragment) :=
        match split_once 35 rem with Some (b, f) => (b, Some f) | None => (rem, None) end in
      if match fragment with Some f => max_fragment_bytes limits <? len f | None => false end
      then Some (Err FragmentTooLong)
      else
        match decode_some fragment with
        | Err e => Some (Err e)
        | Ok _ =>
            match parse_remainder scheme (bytes (scheme_str scheme) ++ bytes "://" ++ base) base fragment n i limits with
            | Err e => Some (Err e)
            | Ok candidate =>
                if bool_decide (scheme = UVmess) && bool_decide (cd_userinfo candidate = None) then
                  inner ← vmess_inner_json candidate;
                  Some (match inner with
                        | Err VmessInnerJsonTooLarge => Err VmessInnerJsonTooLarge
                        | _ => Ok candidate
                        end)
                else Some (Ok candidate)
            end
        end.
Proof.
  intros line. unfold parse_uri_line. destruct (max_line_bytes limits <? len line); [done|].
  destruct (scheme_plain scheme) as [H35 H58].
  assert (split_once_str (bytes "://") line = Some (bytes (scheme_str scheme), rem)) as ->
    by (by apply split_once_str_complete).
  rewrite (proj2 (scheme_parse_Some _ scheme) eq_refl). destruct (len rem =? 0); [done|].
  assert (line = (bytes (scheme_str scheme) ++ bytes "://") ++ rem) as Eline by (unfold line; by rewrite (assoc_L (++))).
  rewrite Eline, (split_once_skip 35) by done.
  assert (forall base, len ((bytes (scheme_str scheme) ++ bytes "://") ++ base) <? len (bytes (scheme_str scheme)) + 3 = false
    /\ drop (Z.to_nat (len (bytes (scheme_str scheme)) + 3)) ((bytes (scheme_str scheme) ++ bytes "://") ++ base) = base) as Hcut.
  { intros base. assert (Z.to_nat (len (bytes (scheme_str scheme)) + 3) = length (bytes (scheme_str scheme) ++ bytes "://")) as ->
      by (unfold len; rewrite length_app; simpl; lia).
    rewrite drop_app_length. split; [|done]. apply Z.ltb_ge. unfold len. rewrite !length_app. simpl. lia. }
  destruct (split_once 35 rem) as [[base f]|].
  - destruct (_ <? len f); [done|]. destruct (decode_some (Some f)); [|done]. cbv zeta.
    destruct (Hcut base) as [-> ->]. by rewrite (assoc_L (++)).
  - cbn [decode_some]. cbv zeta. destruct (Hcut rem) as [-> ->]. by rewrite (assoc_L (++)).
Qed.

Lemma parse_line_scheme line n i limits c :
  parse_uri_line line n i limits = Some (Ok c) ->
  exists scheme rem, line = bytes (scheme_str scheme) ++ bytes "://" ++ rem.
Proof.
  unfold parse_uri_line. destruct (_ <? _); [done|].
  destruct (split_once_str _ line) as [[s rem]|] eqn:E; [|done]. destruct (scheme_parse s) as [scheme|] eqn:Es; [|done].
  intros _. apply split_once_str_sound in E as ->. apply scheme_parse_Some in Es as ->. by exists scheme, rem.
Qed.

Lemma vmess_inner_json_total c : is_Some (vmess_inner_json c).
Proof.
  unfold vmess_inner_json. destruct (_ || _); [by eexists|].
  destruct ParserLimits_default_ok as [l ->]. by eexists.
Qed.
Lemma parse_uri_line_total line n i limits : is_Some (parse_uri_line line n i limits).
Proof.
  destruct (split_once_str (bytes "://") line) as [[s rem]|] eqn:E.
  2: { unfold parse_uri_line. rewrite E. destruct (_ <? _); by eexists. }
  destruct (scheme_parse s) as [scheme|] eqn:Es.
  2: { unfold parse_uri_line. rewrite E, Es. destruct (_ <? _); by eexists. }
  apply split_once_str_sound in E as ->. apply scheme_parse_Some in Es as ->. rewrite parse_line_unfold.
  destruct (_ <? _); [by eexists|]. destruct (len rem =? 0); [by eexists|].
  destruct (match split_once 35 rem with Some (b, f) => (b, Some f) | None => (rem, None) end) as [base fragment].
  destruct (match fragment with Some f => _ | None => false end); [by eexists|].
  destruct (decode_some fragment); [|by eexists]. destruct (parse_remainder _ _ _ _ _ _ _) as [c|]; [|by eexists].
  destruct (_ && _); [|by eexists]. destruct (vmess_inner_json_total c) as [r ->]. by eexists.
Qed.

(** The parts of a line and when they make one. *)
Record UriParts : Type := mkParts {
  pt_scheme : UriScheme;
  pt_userinfo : option (list Z);
  pt_host_port : list Z;
  pt_query : option (list Z);
  pt_fragment : option (list Z);
}.
Definition parts_authority (p : UriParts) : list Z := authority_of (pt_userinfo p) (pt_host_port p).
Definition parts_line (p : UriParts) : list Z :=
  line_of (pt_scheme p) (pt_userinfo p) (pt_host_port p) (pt_query p) (pt_fragment p).
Record parts_ok (limits : ParserLimits) (p : UriParts) : Prop := {
  ok_line : len (parts_line p) <= max_line_bytes limits;
  ok_hash : 35 ∉ parts_authority p ++ after 63 (pt_query p);
  ok_question : 63 ∉ parts_authority p;
  ok_at : 64 ∉ pt_host_port p;
  ok_authority : parts_authority p <> [];
  ok_control : has_control (parts_authority p) = false;
  ok_userinfo : decode_some (pt_userinfo p) = Ok tt;
  ok_fragment : decode_some (pt_fragment p) = Ok tt;
  ok_fragment_len : forall f, pt_fragment p = Some f -> len f <= max_fragment_bytes limits;
}.

(** Reading a line never panics, and it accepts exactly the lines of the grammar:
    a known scheme, an optional user part (up to the last [@]), a host and port, an
    optional query (from the first [?]) and an optional fragment (from the first [#]),
    within the limits and each decodable; the candidate holds these parts unchanged. *)
Theorem uri_line_exact line n i limits :
  (exists r, parse_uri_line line n i limits = Some r)
  /\ forall c, parse_uri_line line n i limits = Some (Ok c) <->
     exists p server port spec query,
       line = parts_line p /\ parts_ok limits p
       /\ parse_host_port (pt_host_port p) (pt_scheme p) = Ok (server, port, spec)
       /\ parse_query (pt_query p) limits = Ok query
       /\ inner_json_fits (pt_scheme p) (pt_userinfo p) server
       /\ c = mkCandidate (pt_scheme p)
                (line_of (pt_scheme p) (pt_userinfo p) (pt_host_port p) (pt_query p) None)
                (pt_userinfo p) server port spec query (pt_fragment p) n i.
Proof.
  split; [apply parse_uri_line_total|]. intros c. split.
  - intros E. destruct (parse_line_scheme _ _ _ _ _ E) as (scheme & rem & ->). rewrite parse_line_unfold in E.
    destruct (Z.ltb_spec (max_line_bytes limits) (len (bytes (scheme_str scheme) ++ bytes "://" ++ rem))) as [|Hlen]; [done|].
    destruct (len rem =? 0); [done|].
    destruct (match split_once 35 rem with Some (b, f) => (b, Some f) | None => (rem, None) end) as [base fragment] eqn:Ecut.
    apply cut_inv in Ecut as [-> H35].
    destruct (match fragment with Some f => _ | None => false end) eqn:Hfl; [done|].
    destruct (decode_some fragment) as [[]|] eqn:Hfd; [|done].
    destruct (parse_remainder _ _ _ _ _ _ _) as [c'|] eqn:Er; [|done].
    apply parse_remainder_exact in Er as (u & h & q & server & port & spec & query & -> & H63 & H64 & Hne & Hc & Hu & Hh & Hq & ->).
    assert (inner_json_fits scheme u server /\ c = mkCandidate scheme
      (bytes (scheme_str scheme) ++ bytes "://" ++ authority_of u h ++ after 63 q) u server port spec query fragment n i) as [Hfit ->].
    { revert E. cbn [cd_userinfo]. destruct (bool_decide (scheme = UVmess)) eqn:Es; cbn [andb]; cbv iota.
      - destruct u as [u|]; [intros [= <-]; split; [|done]; by intros _|].
        unfold vmess_inner_json. cbn [cd_scheme cd_userinfo cd_server]. rewrite Es. cbn [negb orb].
        destruct ParserLimits_default as [dl|] eqn:Ed; [|done]. cbn [mbind option_bind]. intros E.
        split; [|by destruct (decode_vmess_inner_json server dl) as [bs|err]; [|destruct err]; try discriminate E; injection E as <-].
        intros _ _ l Hl Ex. assert (l = dl) as -> by congruence. by rewrite Ex in E.
      - intros [= <-]. split; [|done]. intros ->. by rewrite bool_decide_true in Es. }
    exists (mkParts scheme u h q fragment), server, port, spec, query.
    assert (bytes (scheme_str scheme) ++ bytes "://" ++ (authority_of u h ++ after 63 q) ++ after 35 fragment
      = parts_line (mkParts scheme u h q fragment)) as Eline
      by (unfold parts_line, line_of; cbn; by rewrite !(assoc_L (++))).
    rewrite Eline in Hlen |- *. split; [done|]. split; [|split; [done|]; split; [done|]; split; [done|]].
    + constructor; try done. cbn. intros f ->. apply Z.ltb_ge in Hfl. lia.
    + cbn. unfold line_of. cbn. by rewrite app_nil_r.
  - intros ([scheme u h q f] & server & port & spec & query & -> & [Hlen H35 H63 H64 Hne Hc Hu Hf Hfl] & Hh & Hq & Hfit & ->).
    unfold parts_authority in *. cbn in *.
    assert (parts_line (mkParts scheme u h q f)
      = bytes (scheme_str scheme) ++ bytes "://" ++ (authority_of u h ++ after 63 q) ++ after 35 f) as Eline
      by (unfold parts_line, line_of; cbn; by rewrite !(assoc_L (++))).
    rewrite Eline in Hlen |- *. rewrite parse_line_unfold. rewrite (proj2 (Z.ltb_ge _ _) Hlen).
    assert (len ((authority_of u h ++ after 63 q) ++ after 35 f) =? 0 = false) as ->.
    { apply Z.eqb_neq. unfold len. rewrite !length_app. destruct (authority_of u h); [done|]. simpl. lia. }
    rewrite (split_once_after 35 _ f H35).
    assert (match f with Some f => max_fragment_bytes limits <? len f | None => false end = false) as ->
      by (destruct f; [apply Z.ltb_ge; by apply Hfl|done]).
    rewrite Hf. unfold line_of. cbn [after]. rewrite app_nil_r.
    match goal with |- context [parse_remainder ?a ?b ?c ?d ?e ?g ?l] =>
      assert (parse_remainder a b c d e g l = Ok (mkCandidate a b u server port spec query d e g)) as -> end.
    { apply parse_remainder_exact. by exists u, h, q, server, port, spec, query. }
    cbn [cd_userinfo]. destruct (bool_decide (scheme = UVmess)) eqn:Es; cbn [andb]; cbv iota; [|done].
    destruct u as [u|]; [done|]. unfold vmess_inner_json. cbn [cd_scheme cd_userinfo cd_server]. rewrite Es.
    cbn [negb orb].
    destruct ParserLimits_default_ok as [dl Hdl]. rewrite Hdl. cbn [mbind option_bind].
    apply bool_decide_eq_true in Es. specialize (Hfit Es eq_refl dl Hdl).
    by destruct (decode_vmess_inner_json server dl) as [|[]].
Qed.
End line_grammar.

(** ** The list *)
Section list_grammar.
Context `{!Base64Engine}.
Implicit Types (limits : ParserLimits) (source_id : option SourceId).

(** The lines that hold a node: trimmed, not empty and not a comment. *)
Definition significant (lines : list (Z * list Z)) : list (Z * list Z) :=
  filter (fun l => ((len l.2 =? 0) || starts_with_byte 35 l.2) = false) (prod_map id trim_text <$> lines).

Definition line_result source_id limits (k : nat) (l : Z * list Z) : UriNodeResult :=
  let i := Z.of_nat k in
  match parse_uri_line l.2 l.1 i limits with
  | Some (Ok c) => mkUriResult i l.1 FUriList (Ok c)
  | Some (Err e) => rejected_result i l.1 (uri_code e) source_id
  | None => rejected_result i l.1 DcInvalidUri source_id
  end.

Lemma uri_lines_spec lines source_id limits k results :
  max_nodes limits <= umax 32 ->
  if bool_decide (Z.of_nat (k + length (significant lines)) <= max_nodes limits)
  then uri_lines lines source_id limits (Z.of_nat k) results
       = Some (results ++ imap (fun j => line_result source_id limits (k + j)) (significant lines))
  else Z.of_nat k <= max_nodes limits ->
       exists number, uri_lines lines source_id limits (Z.of_nat k) results
         = Some [rejected_result (max_nodes limits) number DcNodeLimitExceeded source_id].
Proof.
  intros Hmax. revert k results. induction lines as [|[number raw] lines IH]; intros k results.
  { change (significant []) with (@nil (Z * list Z)). simpl. case_bool_decide; [by rewrite app_nil_r|]. lia. }
  cbn [uri_lines]. cbv zeta. unfold significant. rewrite fmap_cons, filter_cons. cbn [prod_map fst snd id].
  fold (significant lines). destruct ((len (trim_text raw) =? 0) || starts_with_byte 35 (trim_text raw)).
  { rewrite decide_False by done. apply IH. }
  rewrite decide_True by done. cbn [length].
  destruct (Z.leb_spec (max_nodes limits) (Z.of_nat k)) as [Hfull|Hroom].
  { rewrite bool_decide_false by lia. intros Hk. assert (Z.of_nat k = max_nodes limits) as -> by lia. by eexists. }
  assert ((if max_line_bytes limits <? len (trim_text raw) then Some (Err LineTooLong)
           else parse_uri_line (trim_text raw) number (Z.of_nat k) limits)
          = parse_uri_line (trim_text raw) number (Z.of_nat k) limits) as ->.
  { unfold parse_uri_line. by destruct (_ <? _). }
  destruct (parse_uri_line_total (trim_text raw) number (Z.of_nat k) limits) as [r Hr].
  rewrite Hr. cbn [mbind option_bind].
  assert (sat_add_u 32 (Z.of_nat k) 1 = Z.of_nat (S k)) as -> by (unfold sat_add_u; lia).
  assert (match r with Ok c => mkUriResult (Z.of_nat k) number FUriList (Ok c)
    | Err e => rejected_result (Z.of_nat k) number (uri_code e) source_id end
    = line_result source_id limits k (number, trim_text raw)) as ->
    by (unfold line_result; cbn [fst snd]; by rewrite Hr).
  specialize (IH (S k) (results ++ [line_result source_id limits k (number, trim_text raw)])).
  replace (S k + length (significant lines))%nat with (k + S (length (significant lines)))%nat in IH by lia.
  case_bool_decide.
  - rewrite IH, <- (assoc_L (++)). cbn [imap app]. rewrite Nat.add_0_r. do 3 f_equal.
    apply imap_ext. intros j x _. cbn. f_equal. lia.
  - intros _. apply IH. lia.
Qed.

Lemma uri_lines_total lines source_id limits i results : is_Some (uri_lines lines source_id limits i results).
Proof.
  revert i results. induction lines as [|[number raw] lines IH]; intros i results; [by eexists|].
  cbn [uri_lines]. cbv zeta. destruct (_ || _); [done|]. destruct (_ <=? _); [by eexists|].
  assert (is_Some (if max_line_bytes limits <? len (trim_text raw) then Some (Err LineTooLong)
    else parse_uri_line (trim_text raw) number i limits)) as [r ->].
  { destruct (_ <? _); [by eexists|]. apply parse_uri_line_total. }
  cbn [mbind option_bind]. apply IH.
Qed.
Lemma parse_uri_list_total bs source_id limits : is_Some (parse_uri_list bs source_id limits).
Proof. unfold parse_uri_list. destruct (normalize_bytes bs limits); [apply uri_lines_total|by eexists]. Qed.

(** Reading a list never panics.  A text that is not normalised, or with more node
    lines than the limit, gives a single rejection; otherwise every line that is
    neither empty nor a comment gives one result, in order, numbered from zero and
    with its line number, which is accepted exactly when the line is. *)
Theorem uri_list_exact bs source_id limits :
  0 <= max_nodes limits <= umax 32 ->
  exists results, parse_uri_list bs source_id limits = Some results
    /\ match normalize_bytes bs limits with
       | Err e => results = [rejected_result 0 1 (normalization_code e) source_id]
       | Ok payload =>
           let lines := significant (numbered_lines payload) in
           (max_nodes limits < len lines /\ exists number,
              results = [rejected_result (max_nodes limits) number DcNodeLimitExceeded source_id])
           \/ (len results = len lines /\ len results <= max_nodes limits
               /\ forall k r, results !! k = Some r ->
                  ur_item_index r = Z.of_nat k
                  /\ exists text, lines !! k = Some (ur_line r, text)
                     /\ forall c, ur_result r = Ok c
                        <-> parse_uri_line text (ur_line r) (Z.of_nat k) limits = Some (Ok c))
       end.
Proof.
  intros [Hmin Hmax]. unfold parse_uri_list. destruct (normalize_bytes bs limits) as [payload|e]; [|eauto].
  cbv zeta. pose proof (uri_lines_spec (numbered_lines payload) source_id limits 0 [] Hmax) as Hspec.
  case_bool_decide as Hb; cbn [Nat.add] in Hb.
  - cbn [Nat.add app] in Hspec. change (Z.of_nat 0) with 0 in Hspec. rewrite Hspec. eexists. split; [done|]. right. unfold len. rewrite length_imap.
    split; [done|]. split; [lia|]. intros k r Hk. rewrite list_lookup_imap in Hk.
    destruct (significant _ !! k) as [[number text]|] eqn:El; [|done]. simpl in Hk. injection Hk as <-.
    unfold line_result. cbn [fst snd].
    destruct (parse_uri_line text number (Z.of_nat k) limits) as [[c|e]|] eqn:E; cbn [ur_item_index ur_line ur_result rejected_result].
    all: split; [done|]; exists text; split; [done|]; rewrite E; intros c'; split; intros Hx; by simplify_eq.
  - change (Z.of_nat 0) with 0 in Hspec. destruct Hspec as [number Hspec]; [done|]. rewrite Hspec. eexists. split; [done|]. left. unfold len. split; [lia|eauto].
Qed.
End list_grammar.

(** ** Ports *)
Lemma parse_port_range v p : parse_port v = Ok p -> 1 <= p <= 65535.
Proof.
  unfold parse_port, parse_uint, mbind, Result_bind, ok_or.
  destruct (parse_u64 v) as [n|] eqn:E; [|done]. destruct (Z.leb_spec n (umax 16)); [|done].
  destruct (Z.eqb_spec n 0); [done|]. intros [= <-].
  assert (0 <= n); [|unfold umax in *; lia].
  assert (forall bs acc m, 0 <= acc -> parse_digits bs acc = Some m -> 0 <= m) as Hd.
  { induction bs as [|b bs IH]; intros acc m Ha; simpl; [congruence|].
    destruct (is_ascii_digit b) eqn:Eb; [|done]. apply is_ascii_digit_range in Eb.
    destruct (_ <=? _); [|done]. apply IH. lia. }
  unfold parse_u64 in E. repeat case_match; try done; by eapply (Hd _ 0).
Qed.

(** ** Examples *)
#[local] Existing Instance rfc_engine.
Definition demo_uri_limits : ParserLimits := default (mkLimits 0 0 0 0 0 0 0 0 0 0 0 0) ParserLimits_default.
Definition demo_uri_text : list Z :=
  bytes "trojan://secret@host:443?sni=a#one" ++ [10] ++ bytes "# note" ++ [10]
  ++ bytes "hy2://p@h:20000-30000,443#two" ++ [10] ++ bytes "foo://x".
Lemma uri_list_exact_witness :
  0 <= max_nodes demo_uri_limits <= umax 32
  /\ exists results, parse_uri_list demo_uri_text None demo_uri_limits = Some results
     /\ ((fun r => (ur_item_index r, ur_line r, is_ok (ur_result r))) <$> results)
        = [(0, 1, true); (1, 3, true); (2, 4, false)].
Proof.
  assert (0 <= max_nodes demo_uri_limits <= umax 32) as Hl by (split; vm_compute; congruence).
  split; [exact Hl|]. destruct (uri_list_exact demo_uri_text None demo_uri_limits Hl) as (rs & E & _).
  exists rs. split; [exact E|]. vm_compute in E. injection E as <-. reflexivity.
Defined.
