(* ===== verification/Semantic.v ===== *)
(** * Semantic: from container-neutral fields to a validated node

    Models crates/nethop-subscription/src/semantic.rs and [uri_output] of pipeline.rs,
    with [UuidValue::parse] and [FromStr for TransportKind] of protocol.rs.  Parsing
    and printing a UUID (the uuid crate) and reading JSON text (serde_json) are
    parameters.  A [SecretString] or [BoundedText] is its string. *)

From S2P Require Import Prelude Text Ordering BTreeMap Json Source Detect Base64 ProxyNode Fingerprint Diagnostics Uri.

Local Open Scope Z_scope.

(** ** Node specifications *)
Record NodeSpec : Type := mkSpec {
  sp_display_name : option string;
  sp_protocol : string;
  sp_server : string;
  sp_port : Z;
  sp_uuid : option string;
  sp_password : option string;
  sp_username : option string;
  sp_method : option string;
  sp_vmess_security : option string;
  sp_alter_id : option Z;
  sp_plugin : option string;
  sp_plugin_options : BTreeMap string string;
  sp_tls : bool;
  sp_insecure : bool;
  sp_server_name : option string;
  sp_alpn : list string;
  sp_client_fingerprint : option string;
  sp_reality_public_key : option string;
  sp_reality_short_id : option string;
  sp_flow : option string;
  sp_transport : option string;
  sp_path : option string;
  sp_hosts : list string;
  sp_service_name : option string;
  sp_headers : BTreeMap string string;
  sp_udp : bool;
  sp_udp_over_tcp : option UdpOverTcpOptions;
  sp_obfs : option string;
  sp_obfs_password : option string;
  sp_congestion_control : option string;
  sp_server_ports : list string;
  sp_hop_interval : option string;
  sp_up_mbps : option Z;
  sp_down_mbps : option Z;
  sp_udp_relay_mode : option string;
  sp_udp_over_stream : bool;
  sp_zero_rtt_handshake : bool;
  sp_heartbeat : option string;
  sp_idle_session_check_interval : option string;
  sp_idle_session_timeout : option string;
  sp_min_idle_session : option Z;
  sp_http_path : option string;
  sp_http_headers : BTreeMap string string;
  sp_socks_version : option string;
  sp_source_ref : option SourceRef;
  sp_location : option SourceLocation;
  sp_unknown_critical_field : option string;
  sp_unknown_harmless_fields : Z;
}.
Definition NodeSpec_minimal (protocol server : string) (port : Z) : NodeSpec :=
  mkSpec None protocol server port None None None None None None None [] false false None [] None None
    None None None None [] None [] false None None None None [] None None None None false false None
    None None None None [] None None None None 0.

(** Assignment to a field. *)
Definition set_display_name (v : option string) (s : NodeSpec) : NodeSpec :=
  let 'mkSpec _ x1 x2 x3 x4 x5 x6 x7 x8 x9 x10 x11 x12 x13 x14 x15 x16 x17 x18 x19 x20 x21 x22 x23 x24 x25
    x26 x27 x28 x29 x30 x31 x32 x33 x34 x35 x36 x37 x38 x39 x40 x41 x42 x43 x44 x45 x46 x47 := s in
  mkSpec v x1 x2 x3 x4 x5 x6 x7 x8 x9 x10 x11 x12 x13 x14 x15 x16 x17 x18 x19 x20 x21 x22 x23 x24 x25 x26
    x27 x28 x29 x30 x31 x32 x33 x34 x35 x36 x37 x38 x39 x40 x41 x42 x43 x44 x45 x46 x47.
Definition set_uuid (v : option string) (s : NodeSpec) : NodeSpec :=
  let 'mkSpec x0 x1 x2 x3 _ x5 x6 x7 x8 x9 x10 x11 x12 x13 x14 x15 x16 x17 x18 x19 x20 x21 x22 x23 x24 x25
    x26 x27 x28 x29 x30 x31 x32 x33 x34 x35 x36 x37 x38 x39 x40 x41 x42 x43 x44 x45 x46 x47 := s in
  mkSpec x0 x1 x2 x3 v x5 x6 x7 x8 x9 x10 x11 x12 x13 x14 x15 x16 x17 x18 x19 x20 x21 x22 x23 x24 x25 x26
    x27 x28 x29 x30 x31 x32 x33 x34 x35 x36 x37 x38 x39 x40 x41 x42 x43 x44 x45 x46 x47.
Definition set_password (v : option string) (s : NodeSpec) : NodeSpec :=
  let 'mkSpec x0 x1 x2 x3 x4 _ x6 x7 x8 x9 x10 x11 x12 x13 x14 x15 x16 x17 x18 x19 x20 x21 x22 x23 x24 x25
    x26 x27 x28 x29 x30 x31 x32 x33 x34 x35 x36 x37 x38 x39 x40 x41 x42 x43 x44 x45 x46 x47 := s in
  mkSpec x0 x1 x2 x3 x4 v x6 x7 x8 x9 x10 x11 x12 x13 x14 x15 x16 x17 x18 x19 x20 x21 x22 x23 x24 x25 x26
    x27 x28 x29 x30 x31 x32 x33 x34 x35 x36 x37 x38 x39 x40 x41 x42 x43 x44 x45 x46 x47.
Definition set_method (v : option string) (s : NodeSpec) : NodeSpec :=
  let 'mkSpec x0 x1 x2 x3 x4 x5 x6 _ x8 x9 x10 x11 x12 x13 x14 x15 x16 x17 x18 x19 x20 x21 x22 x23 x24 x25
    x26 x27 x28 x29 x30 x31 x32 x33 x34 x35 x36 x37 x38 x39 x40 x41 x42 x43 x44 x45 x46 x47 := s in
  mkSpec x0 x1 x2 x3 x4 x5 x6 v x8 x9 x10 x11 x12 x13 x14 x15 x16 x17 x18 x19 x20 x21 x22 x23 x24 x25 x26
    x27 x28 x29 x30 x31 x32 x33 x34 x35 x36 x37 x38 x39 x40 x41 x42 x43 x44 x45 x46 x47.
Definition set_vmess_security (v : option string) (s : NodeSpec) : NodeSpec :=
  let 'mkSpec x0 x1 x2 x3 x4 x5 x6 x7 _ x9 x10 x11 x12 x13 x14 x15 x16 x17 x18 x19 x20 x21 x22 x23 x24 x25
    x26 x27 x28 x29 x30 x31 x32 x33 x34 x35 x36 x37 x38 x39 x40 x41 x42 x43 x44 x45 x46 x47 := s in
  mkSpec x0 x1 x2 x3 x4 x5 x6 x7 v x9 x10 x11 x12 x13 x14 x15 x16 x17 x18 x19 x20 x21 x22 x23 x24 x25 x26
    x27 x28 x29 x30 x31 x32 x33 x34 x35 x36 x37 x38 x39 x40 x41 x42 x43 x44 x45 x46 x47.
Definition set_alter_id (v : option Z) (s : NodeSpec) : NodeSpec :=
  let 'mkSpec x0 x1 x2 x3 x4 x5 x6 x7 x8 _ x10 x11 x12 x13 x14 x15 x16 x17 x18 x19 x20 x21 x22 x23 x24 x25
    x26 x27 x28 x29 x30 x31 x32 x33 x34 x35 x36 x37 x38 x39 x40 x41 x42 x43 x44 x45 x46 x47 := s in
  mkSpec x0 x1 x2 x3 x4 x5 x6 x7 x8 v x10 x11 x12 x13 x14 x15 x16 x17 x18 x19 x20 x21 x22 x23 x24 x25 x26
    x27 x28 x29 x30 x31 x32 x33 x34 x35 x36 x37 x38 x39 x40 x41 x42 x43 x44 x45 x46 x47.
Definition set_plugin (v : option string) (s : NodeSpec) : NodeSpec :=
  let 'mkSpec x0 x1 x2 x3 x4 x5 x6 x7 x8 x9 _ x11 x12 x13 x14 x15 x16 x17 x18 x19 x20 x21 x22 x23 x24 x25
    x26 x27 x28 x29 x30 x31 x32 x33 x34 x35 x36 x37 x38 x39 x40 x41 x42 x43 x44 x45 x46 x47 := s in
  mkSpec x0 x1 x2 x3 x4 x5 x6 x7 x8 x9 v x11 x12 x13 x14 x15 x16 x17 x18 x19 x20 x21 x22 x23 x24 x25 x26 x27
    x28 x29 x30 x31 x32 x33 x34 x35 x36 x37 x38 x39 x40 x41 x42 x43 x44 x45 x46 x47.
Definition set_plugin_options (v : BTreeMap string string) (s : NodeSpec) : NodeSpec :=
  let 'mkSpec x0 x1 x2 x3 x4 x5 x6 x7 x8 x9 x10 _ x12 x13 x14 x15 x16 x17 x18 x19 x20 x21 x22 x23 x24 x25
    x26 x27 x28 x29 x30 x31 x32 x33 x34 x35 x36 x37 x38 x39 x40 x41 x42 x43 x44 x45 x46 x47 := s in
  mkSpec x0 x1 x2 x3 x4 x5 x6 x7 x8 x9 x10 v x12 x13 x14 x15 x16 x17 x18 x19 x20 x21 x22 x23 x24 x25 x26 x27
    x28 x29 x30 x31 x32 x33 x34 x35 x36 x37 x38 x39 x40 x41 x42 x43 x44 x45 x46 x47.
Definition set_tls (v : bool) (s : NodeSpec) : NodeSpec :=
  let 'mkSpec x0 x1 x2 x3 x4 x5 x6 x7 x8 x9 x10 x11 _ x13 x14 x15 x16 x17 x18 x19 x20 x21 x22 x23 x24 x25
    x26 x27 x28 x29 x30 x31 x32 x33 x34 x35 x36 x37 x38 x39 x40 x41 x42 x43 x44 x45 x46 x47 := s in
  mkSpec x0 x1 x2 x3 x4 x5 x6 x7 x8 x9 x10 x11 v x13 x14 x15 x16 x17 x18 x19 x20 x21 x22 x23 x24 x25 x26 x27
    x28 x29 x30 x31 x32 x33 x34 x35 x36 x37 x38 x39 x40 x41 x42 x43 x44 x45 x46 x47.
Definition set_insecure (v : bool) (s : NodeSpec) : NodeSpec :=
  let 'mkSpec x0 x1 x2 x3 x4 x5 x6 x7 x8 x9 x10 x11 x12 _ x14 x15 x16 x17 x18 x19 x20 x21 x22 x23 x24 x25
    x26 x27 x28 x29 x30 x31 x32 x33 x34 x35 x36 x37 x38 x39 x40 x41 x42 x43 x44 x45 x46 x47 := s in
  mkSpec x0 x1 x2 x3 x4 x5 x6 x7 x8 x9 x10 x11 x12 v x14 x15 x16 x17 x18 x19 x20 x21 x22 x23 x24 x25 x26 x27
    x28 x29 x30 x31 x32 x33 x34 x35 x36 x37 x38 x39 x40 x41 x42 x43 x44 x45 x46 x47.
Definition set_server_name (v : option string) (s : NodeSpec) : NodeSpec :=
  let 'mkSpec x0 x1 x2 x3 x4 x5 x6 x7 x8 x9 x10 x11 x12 x13 _ x15 x16 x17 x18 x19 x20 x21 x22 x23 x24 x25
    x26 x27 x28 x29 x30 x31 x32 x33 x34 x35 x36 x37 x38 x39 x40 x41 x42 x43 x44 x45 x46 x47 := s in
  mkSpec x0 x1 x2 x3 x4 x5 x6 x7 x8 x9 x10 x11 x12 x13 v x15 x16 x17 x18 x19 x20 x21 x22 x23 x24 x25 x26 x27
    x28 x29 x30 x31 x32 x33 x34 x35 x36 x37 x38 x39 x40 x41 x42 x43 x44 x45 x46 x47.
Definition set_alpn (v : list string) (s : NodeSpec) : NodeSpec :=
  let 'mkSpec x0 x1 x2 x3 x4 x5 x6 x7 x8 x9 x10 x11 x12 x13 x14 _ x16 x17 x18 x19 x20 x21 x22 x23 x24 x25
    x26 x27 x28 x29 x30 x31 x32 x33 x34 x35 x36 x37 x38 x39 x40 x41 x42 x43 x44 x45 x46 x47 := s in
  mkSpec x0 x1 x2 x3 x4 x5 x6 x7 x8 x9 x10 x11 x12 x13 x14 v x16 x17 x18 x19 x20 x21 x22 x23 x24 x25 x26 x27
    x28 x29 x30 x31 x32 x33 x34 x35 x36 x37 x38 x39 x40 x41 x42 x43 x44 x45 x46 x47.
Definition set_client_fingerprint (v : option string) (s : NodeSpec) : NodeSpec :=
  let 'mkSpec x0 x1 x2 x3 x4 x5 x6 x7 x8 x9 x10 x11 x12 x13 x14 x15 _ x17 x18 x19 x20 x21 x22 x23 x24 x25
    x26 x27 x28 x29 x30 x31 x32 x33 x34 x35 x36 x37 x38 x39 x40 x41 x42 x43 x44 x45 x46 x47 := s in
  mkSpec x0 x1 x2 x3 x4 x5 x6 x7 x8 x9 x10 x11 x12 x13 x14 x15 v x17 x18 x19 x20 x21 x22 x23 x24 x25 x26 x27
    x28 x29 x30 x31 x32 x33 x34 x35 x36 x37 x38 x39 x40 x41 x42 x43 x44 x45 x46 x47.
Definition set_reality_public_key (v : option string) (s : NodeSpec) : NodeSpec :=
  let 'mkSpec x0 x1 x2 x3 x4 x5 x6 x7 x8 x9 x10 x11 x12 x13 x14 x15 x16 _ x18 x19 x20 x21 x22 x23 x24 x25
    x26 x27 x28 x29 x30 x31 x32 x33 x34 x35 x36 x37 x38 x39 x40 x41 x42 x43 x44 x45 x46 x47 := s in
  mkSpec x0 x1 x2 x3 x4 x5 x6 x7 x8 x9 x10 x11 x12 x13 x14 x15 x16 v x18 x19 x20 x21 x22 x23 x24 x25 x26 x27
    x28 x29 x30 x31 x32 x33 x34 x35 x36 x37 x38 x39 x40 x41 x42 x43 x44 x45 x46 x47.
Definition set_reality_short_id (v : option string) (s : NodeSpec) : NodeSpec :=
  let 'mkSpec x0 x1 x2 x3 x4 x5 x6 x7 x8 x9 x10 x11 x12 x13 x14 x15 x16 x17 _ x19 x20 x21 x22 x23 x24 x25
    x26 x27 x28 x29 x30 x31 x32 x33 x34 x35 x36 x37 x38 x39 x40 x41 x42 x43 x44 x45 x46 x47 := s in
  mkSpec x0 x1 x2 x3 x4 x5 x6 x7 x8 x9 x10 x11 x12 x13 x14 x15 x16 x17 v x19 x20 x21 x22 x23 x24 x25 x26 x27
    x28 x29 x30 x31 x32 x33 x34 x35 x36 x37 x38 x39 x40 x41 x42 x43 x44 x45 x46 x47.
Definition set_flow (v : option string) (s : NodeSpec) : NodeSpec :=
  let 'mkSpec x0 x1 x2 x3 x4 x5 x6 x7 x8 x9 x10 x11 x12 x13 x14 x15 x16 x17 x18 _ x20 x21 x22 x23 x24 x25
    x26 x27 x28 x29 x30 x31 x32 x33 x34 x35 x36 x37 x38 x39 x40 x41 x42 x43 x44 x45 x46 x47 := s in
  mkSpec x0 x1 x2 x3 x4 x5 x6 x7 x8 x9 x10 x11 x12 x13 x14 x15 x16 x17 x18 v x20 x21 x22 x23 x24 x25 x26 x27
    x28 x29 x30 x31 x32 x33 x34 x35 x36 x37 x38 x39 x40 x41 x42 x43 x44 x45 x46 x47.
Definition set_transport (v : option string) (s : NodeSpec) : NodeSpec :=
  let 'mkSpec x0 x1 x2 x3 x4 x5 x6 x7 x8 x9 x10 x11 x12 x13 x14 x15 x16 x17 x18 x19 _ x21 x22 x23 x24 x25
    x26 x27 x28 x29 x30 x31 x32 x33 x34 x35 x36 x37 x38 x39 x40 x41 x42 x43 x44 x45 x46 x47 := s in
  mkSpec x0 x1 x2 x3 x4 x5 x6 x7 x8 x9 x10 x11 x12 x13 x14 x15 x16 x17 x18 x19 v x21 x22 x23 x24 x25 x26 x27
    x28 x29 x30 x31 x32 x33 x34 x35 x36 x37 x38 x39 x40 x41 x42 x43 x44 x45 x46 x47.
Definition set_path (v : option string) (s : NodeSpec) : NodeSpec :=
  let 'mkSpec x0 x1 x2 x3 x4 x5 x6 x7 x8 x9 x10 x11 x12 x13 x14 x15 x16 x17 x18 x19 x20 _ x22 x23 x24 x25
    x26 x27 x28 x29 x30 x31 x32 x33 x34 x35 x36 x37 x38 x39 x40 x41 x42 x43 x44 x45 x46 x47 := s in
  mkSpec x0 x1 x2 x3 x4 x5 x6 x7 x8 x9 x10 x11 x12 x13 x14 x15 x16 x17 x18 x19 x20 v x22 x23 x24 x25 x26 x27
    x28 x29 x30 x31 x32 x33 x34 x35 x36 x37 x38 x39 x40 x41 x42 x43 x44 x45 x46 x47.
Definition set_hosts (v : list string) (s : NodeSpec) : NodeSpec :=
  let 'mkSpec x0 x1 x2 x3 x4 x5 x6 x7 x8 x9 x10 x11 x12 x13 x14 x15 x16 x17 x18 x19 x20 x21 _ x23 x24 x25
    x26 x27 x28 x29 x30 x31 x32 x33 x34 x35 x36 x37 x38 x39 x40 x41 x42 x43 x44 x45 x46 x47 := s in
  mkSpec x0 x1 x2 x3 x4 x5 x6 x7 x8 x9 x10 x11 x12 x13 x14 x15 x16 x17 x18 x19 x20 x21 v x23 x24 x25 x26 x27
    x28 x29 x30 x31 x32 x33 x34 x35 x36 x37 x38 x39 x40 x41 x42 x43 x44 x45 x46 x47.
Definition set_service_name (v : option string) (s : NodeSpec) : NodeSpec :=
  let 'mkSpec x0 x1 x2 x3 x4 x5 x6 x7 x8 x9 x10 x11 x12 x13 x14 x15 x16 x17 x18 x19 x20 x21 x22 _ x24 x25
    x26 x27 x28 x29 x30 x31 x32 x33 x34 x35 x36 x37 x38 x39 x40 x41 x42 x43 x44 x45 x46 x47 := s in
  mkSpec x0 x1 x2 x3 x4 x5 x6 x7 x8 x9 x10 x11 x12 x13 x14 x15 x16 x17 x18 x19 x20 x21 x22 v x24 x25 x26 x27
    x28 x29 x30 x31 x32 x33 x34 x35 x36 x37 x38 x39 x40 x41 x42 x43 x44 x45 x46 x47.
Definition set_udp (v : bool) (s : NodeSpec) : NodeSpec :=
  let 'mkSpec x0 x1 x2 x3 x4 x5 x6 x7 x8 x9 x10 x11 x12 x13 x14 x15 x16 x17 x18 x19 x20 x21 x22 x23 x24 _
    x26 x27 x28 x29 x30 x31 x32 x33 x34 x35 x36 x37 x38 x39 x40 x41 x42 x43 x44 x45 x46 x47 := s in
  mkSpec x0 x1 x2 x3 x4 x5 x6 x7 x8 x9 x10 x11 x12 x13 x14 x15 x16 x17 x18 x19 x20 x21 x22 x23 x24 v x26 x27
    x28 x29 x30 x31 x32 x33 x34 x35 x36 x37 x38 x39 x40 x41 x42 x43 x44 x45 x46 x47.
Definition set_obfs (v : option string) (s : NodeSpec) : NodeSpec :=
  let 'mkSpec x0 x1 x2 x3 x4 x5 x6 x7 x8 x9 x10 x11 x12 x13 x14 x15 x16 x17 x18 x19 x20 x21 x22 x23 x24 x25
    x26 _ x28 x29 x30 x31 x32 x33 x34 x35 x36 x37 x38 x39 x40 x41 x42 x43 x44 x45 x46 x47 := s in
  mkSpec x0 x1 x2 x3 x4 x5 x6 x7 x8 x9 x10 x11 x12 x13 x14 x15 x16 x17 x18 x19 x20 x21 x22 x23 x24 x25 x26 v
    x28 x29 x30 x31 x32 x33 x34 x35 x36 x37 x38 x39 x40 x41 x42 x43 x44 x45 x46 x47.
Definition set_obfs_password (v : option string) (s : NodeSpec) : NodeSpec :=
  let 'mkSpec x0 x1 x2 x3 x4 x5 x6 x7 x8 x9 x10 x11 x12 x13 x14 x15 x16 x17 x18 x19 x20 x21 x22 x23 x24 x25
    x26 x27 _ x29 x30 x31 x32 x33 x34 x35 x36 x37 x38 x39 x40 x41 x42 x43 x44 x45 x46 x47 := s in
  mkSpec x0 x1 x2 x3 x4 x5 x6 x7 x8 x9 x10 x11 x12 x13 x14 x15 x16 x17 x18 x19 x20 x21 x22 x23 x24 x25 x26
    x27 v x29 x30 x31 x32 x33 x34 x35 x36 x37 x38 x39 x40 x41 x42 x43 x44 x45 x46 x47.
Definition set_congestion_control (v : option string) (s : NodeSpec) : NodeSpec :=
  let 'mkSpec x0 x1 x2 x3 x4 x5 x6 x7 x8 x9 x10 x11 x12 x13 x14 x15 x16 x17 x18 x19 x20 x21 x22 x23 x24 x25
    x26 x27 x28 _ x30 x31 x32 x33 x34 x35 x36 x37 x38 x39 x40 x41 x42 x43 x44 x45 x46 x47 := s in
  mkSpec x0 x1 x2 x3 x4 x5 x6 x7 x8 x9 x10 x11 x12 x13 x14 x15 x16 x17 x18 x19 x20 x21 x22 x23 x24 x25 x26
    x27 x28 v x30 x31 x32 x33 x34 x35 x36 x37 x38 x39 x40 x41 x42 x43 x44 x45 x46 x47.
Definition set_server_ports (v : list string) (s : NodeSpec) : NodeSpec :=
  let 'mkSpec x0 x1 x2 x3 x4 x5 x6 x7 x8 x9 x10 x11 x12 x13 x14 x15 x16 x17 x18 x19 x20 x21 x22 x23 x24 x25
    x26 x27 x28 x29 _ x31 x32 x33 x34 x35 x36 x37 x38 x39 x40 x41 x42 x43 x44 x45 x46 x47 := s in
  mkSpec x0 x1 x2 x3 x4 x5 x6 x7 x8 x9 x10 x11 x12 x13 x14 x15 x16 x17 x18 x19 x20 x21 x22 x23 x24 x25 x26
    x27 x28 x29 v x31 x32 x33 x34 x35 x36 x37 x38 x39 x40 x41 x42 x43 x44 x45 x46 x47.
Definition set_hop_interval (v : option string) (s : NodeSpec) : NodeSpec :=
  let 'mkSpec x0 x1 x2 x3 x4 x5 x6 x7 x8 x9 x10 x11 x12 x13 x14 x15 x16 x17 x18 x19 x20 x21 x22 x23 x24 x25
    x26 x27 x28 x29 x30 _ x32 x33 x34 x35 x36 x37 x38 x39 x40 x41 x42 x43 x44 x45 x46 x47 := s in
  mkSpec x0 x1 x2 x3 x4 x5 x6 x7 x8 x9 x10 x11 x12 x13 x14 x15 x16 x17 x18 x19 x20 x21 x22 x23 x24 x25 x26
    x27 x28 x29 x30 v x32 x33 x34 x35 x36 x37 x38 x39 x40 x41 x42 x43 x44 x45 x46 x47.
Definition set_up_mbps (v : option Z) (s : NodeSpec) : NodeSpec :=
  let 'mkSpec x0 x1 x2 x3 x4 x5 x6 x7 x8 x9 x10 x11 x12 x13 x14 x15 x16 x17 x18 x19 x20 x21 x22 x23 x24 x25
    x26 x27 x28 x29 x30 x31 _ x33 x34 x35 x36 x37 x38 x39 x40 x41 x42 x43 x44 x45 x46 x47 := s in
  mkSpec x0 x1 x2 x3 x4 x5 x6 x7 x8 x9 x10 x11 x12 x13 x14 x15 x16 x17 x18 x19 x20 x21 x22 x23 x24 x25 x26
    x27 x28 x29 x30 x31 v x33 x34 x35 x36 x37 x38 x39 x40 x41 x42 x43 x44 x45 x46 x47.
Definition set_down_mbps (v : option Z) (s : NodeSpec) : NodeSpec :=
  let 'mkSpec x0 x1 x2 x3 x4 x5 x6 x7 x8 x9 x10 x11 x12 x13 x14 x15 x16 x17 x18 x19 x20 x21 x22 x23 x24 x25
    x26 x27 x28 x29 x30 x31 x32 _ x34 x35 x36 x37 x38 x39 x40 x41 x42 x43 x44 x45 x46 x47 := s in
  mkSpec x0 x1 x2 x3 x4 x5 x6 x7 x8 x9 x10 x11 x12 x13 x14 x15 x16 x17 x18 x19 x20 x21 x22 x23 x24 x25 x26
    x27 x28 x29 x30 x31 x32 v x34 x35 x36 x37 x38 x39 x40 x41 x42 x43 x44 x45 x46 x47.
Definition set_udp_relay_mode (v : option string) (s : NodeSpec) : NodeSpec :=
  let 'mkSpec x0 x1 x2 x3 x4 x5 x6 x7 x8 x9 x10 x11 x12 x13 x14 x15 x16 x17 x18 x19 x20 x21 x22 x23 x24 x25
    x26 x27 x28 x29 x30 x31 x32 x33 _ x35 x36 x37 x38 x39 x40 x41 x42 x43 x44 x45 x46 x47 := s in
  mkSpec x0 x1 x2 x3 x4 x5 x6 x7 x8 x9 x10 x11 x12 x13 x14 x15 x16 x17 x18 x19 x20 x21 x22 x23 x24 x25 x26
    x27 x28 x29 x30 x31 x32 x33 v x35 x36 x37 x38 x39 x40 x41 x42 x43 x44 x45 x46 x47.
Definition set_udp_over_stream (v : bool) (s : NodeSpec) : NodeSpec :=
  let 'mkSpec x0 x1 x2 x3 x4 x5 x6 x7 x8 x9 x10 x11 x12 x13 x14 x15 x16 x17 x18 x19 x20 x21 x22 x23 x24 x25
    x26 x27 x28 x29 x30 x31 x32 x33 x34 _ x36 x37 x38 x39 x40 x41 x42 x43 x44 x45 x46 x47 := s in
  mkSpec x0 x1 x2 x3 x4 x5 x6 x7 x8 x9 x10 x11 x12 x13 x14 x15 x16 x17 x18 x19 x20 x21 x22 x23 x24 x25 x26
    x27 x28 x29 x30 x31 x32 x33 x34 v x36 x37 x38 x39 x40 x41 x42 x43 x44 x45 x46 x47.
Definition set_zero_rtt_handshake (v : bool) (s : NodeSpec) : NodeSpec :=
  let 'mkSpec x0 x1 x2 x3 x4 x5 x6 x7 x8 x9 x10 x11 x12 x13 x14 x15 x16 x17 x18 x19 x20 x21 x22 x23 x24 x25
    x26 x27 x28 x29 x30 x31 x32 x33 x34 x35 _ x37 x38 x39 x40 x41 x42 x43 x44 x45 x46 x47 := s in
  mkSpec x0 x1 x2 x3 x4 x5 x6 x7 x8 x9 x10 x11 x12 x13 x14 x15 x16 x17 x18 x19 x20 x21 x22 x23 x24 x25 x26
    x27 x28 x29 x30 x31 x32 x33 x34 x35 v x37 x38 x39 x40 x41 x42 x43 x44 x45 x46 x47.
Definition set_heartbeat (v : option string) (s : NodeSpec) : NodeSpec :=
  let 'mkSpec x0 x1 x2 x3 x4 x5 x6 x7 x8 x9 x10 x11 x12 x13 x14 x15 x16 x17 x18 x19 x20 x21 x22 x23 x24 x25
    x26 x27 x28 x29 x30 x31 x32 x33 x34 x35 x36 _ x38 x39 x40 x41 x42 x43 x44 x45 x46 x47 := s in
  mkSpec x0 x1 x2 x3 x4 x5 x6 x7 x8 x9 x10 x11 x12 x13 x14 x15 x16 x17 x18 x19 x20 x21 x22 x23 x24 x25 x26
    x27 x28 x29 x30 x31 x32 x33 x34 x35 x36 v x38 x39 x40 x41 x42 x43 x44 x45 x46 x47.
Definition set_idle_session_check_interval (v : option string) (s : NodeSpec) : NodeSpec :=
  let 'mkSpec x0 x1 x2 x3 x4 x5 x6 x7 x8 x9 x10 x11 x12 x13 x14 x15 x16 x17 x18 x19 x20 x21 x22 x23 x24 x25
    x26 x27 x28 x29 x30 x31 x32 x33 x34 x35 x36 x37 _ x39 x40 x41 x42 x43 x44 x45 x46 x47 := s in
  mkSpec x0 x1 x2 x3 x4 x5 x6 x7 x8 x9 x10 x11 x12 x13 x14 x15 x16 x17 x18 x19 x20 x21 x22 x23 x24 x25 x26
    x27 x28 x29 x30 x31 x32 x33 x34 x35 x36 x37 v x39 x40 x41 x42 x43 x44 x45 x46 x47.
Definition set_idle_session_timeout (v : option string) (s : NodeSpec) : NodeSpec :=
  let 'mkSpec x0 x1 x2 x3 x4 x5 x6 x7 x8 x9 x10 x11 x12 x13 x14 x15 x16 x17 x18 x19 x20 x21 x22 x23 x24 x25
    x26 x27 x28 x29 x30 x31 x32 x33 x34 x35 x36 x37 x38 _ x40 x41 x42 x43 x44 x45 x46 x47 := s in
  mkSpec x0 x1 x2 x3 x4 x5 x6 x7 x8 x9 x10 x11 x12 x13 x14 x15 x16 x17 x18 x19 x20 x21 x22 x23 x24 x25 x26
    x27 x28 x29 x30 x31 x32 x33 x34 x35 x36 x37 x38 v x40 x41 x42 x43 x44 x45 x46 x47.
Definition set_min_idle_session (v : option Z) (s : NodeSpec) : NodeSpec :=
  let 'mkSpec x0 x1 x2 x3 x4 x5 x6 x7 x8 x9 x10 x11 x12 x13 x14 x15 x16 x17 x18 x19 x20 x21 x22 x23 x24 x25
    x26 x27 x28 x29 x30 x31 x32 x33 x34 x35 x36 x37 x38 x39 _ x41 x42 x43 x44 x45 x46 x47 := s in
  mkSpec x0 x1 x2 x3 x4 x5 x6 x7 x8 x9 x10 x11 x12 x13 x14 x15 x16 x17 x18 x19 x20 x21 x22 x23 x24 x25 x26
    x27 x28 x29 x30 x31 x32 x33 x34 x35 x36 x37 x38 x39 v x41 x42 x43 x44 x45 x46 x47.
Definition set_source_ref (v : option SourceRef) (s : NodeSpec) : NodeSpec :=
  let 'mkSpec x0 x1 x2 x3 x4 x5 x6 x7 x8 x9 x10 x11 x12 x13 x14 x15 x16 x17 x18 x19 x20 x21 x22 x23 x24 x25
    x26 x27 x28 x29 x30 x31 x32 x33 x34 x35 x36 x37 x38 x39 x40 x41 x42 x43 _ x45 x46 x47 := s in
  mkSpec x0 x1 x2 x3 x4 x5 x6 x7 x8 x9 x10 x11 x12 x13 x14 x15 x16 x17 x18 x19 x20 x21 x22 x23 x24 x25 x26
    x27 x28 x29 x30 x31 x32 x33 x34 x35 x36 x37 x38 x39 x40 x41 x42 x43 v x45 x46 x47.
Definition set_unknown_critical_field (v : option string) (s : NodeSpec) : NodeSpec :=
  let 'mkSpec x0 x1 x2 x3 x4 x5 x6 x7 x8 x9 x10 x11 x12 x13 x14 x15 x16 x17 x18 x19 x20 x21 x22 x23 x24 x25
    x26 x27 x28 x29 x30 x31 x32 x33 x34 x35 x36 x37 x38 x39 x40 x41 x42 x43 x44 x45 _ x47 := s in
  mkSpec x0 x1 x2 x3 x4 x5 x6 x7 x8 x9 x10 x11 x12 x13 x14 x15 x16 x17 x18 x19 x20 x21 x22 x23 x24 x25 x26
    x27 x28 x29 x30 x31 x32 x33 x34 x35 x36 x37 x38 x39 x40 x41 x42 x43 x44 x45 v x47.
Definition set_unknown_harmless_fields (v : Z) (s : NodeSpec) : NodeSpec :=
  let 'mkSpec x0 x1 x2 x3 x4 x5 x6 x7 x8 x9 x10 x11 x12 x13 x14 x15 x16 x17 x18 x19 x20 x21 x22 x23 x24 x25
    x26 x27 x28 x29 x30 x31 x32 x33 x34 x35 x36 x37 x38 x39 x40 x41 x42 x43 x44 x45 x46 _ := s in
  mkSpec x0 x1 x2 x3 x4 x5 x6 x7 x8 x9 x10 x11 x12 x13 x14 x15 x16 x17 x18 x19 x20 x21 x22 x23 x24 x25 x26
    x27 x28 x29 x30 x31 x32 x33 x34 x35 x36 x37 x38 x39 x40 x41 x42 x43 x44 x45 x46 v.

Inductive SemanticError : Type :=
| SemUnsupportedProtocol | SemInvalidEndpoint | SemInvalidCredential
| SemUnsupportedTransport | SemUnsupportedSemantics | SemInvalidTlsCombination.
Definition semantic_code (e : SemanticError) : DiagnosticCode :=
  match e with
  | SemUnsupportedProtocol => DcUnsupportedProtocol
  | SemInvalidEndpoint => DcInvalidEndpoint
  | SemInvalidCredential => DcInvalidCredential
  | SemUnsupportedTransport => DcUnsupportedTransport
  | SemUnsupportedSemantics => DcUnsupportedSemantics
  | SemInvalidTlsCombination => DcInvalidTlsCombination
  end.
Record SemanticOutcome : Type := mkSemantic { sem_node : ProxyNode; sem_warnings : list NodeDiagnostic }.

Definition diagnostic (code : DiagnosticCode) (severity : Severity) (location : option SourceLocation)
    (protocol : option ProxyProtocol) : NodeDiagnostic :=
  let d := NodeDiagnostic_new code severity in
  mkDiagnostic (dg_severity d) (dg_code d) (dg_source_id d) location protocol (dg_node_id d) (dg_parameters d).
Definition semantic_diagnostic (e : SemanticError) (location : option SourceLocation) : NodeDiagnostic :=
  diagnostic (semantic_code e) SevError location None.

(** [text(value, max).map_err(|_| e)], on a value, an option and a list. *)
Definition text (e : SemanticError) (max : Z) (value : string) : Result SemanticError string :=
  map_err (fun _ => e) (BoundedText_new value max).
Definition text_opt (e : SemanticError) (max : Z) (value : option string) :
    Result SemanticError (option string) :=
  match value with
  | Some v => t ← text e max v; Ok (Some t)
  | None => Ok None
  end.
Fixpoint text_list (e : SemanticError) (max : Z) (values : list string) : Result SemanticError (list string) :=
  match values with
  | [] => Ok []
  | v :: rest => t ← text e max v; ts ← text_list e max rest; Ok (t :: ts)
  end.
Fixpoint text_values (e : SemanticError) (max : Z) (m : BTreeMap string string) :
    Result SemanticError (BTreeMap string string) :=
  match m with
  | [] => Ok []
  | (k, v) :: rest => t ← text e max v; ts ← text_values e max rest; Ok ((k, t) :: ts)
  end.
Fixpoint map_headers (m : BTreeMap string string) : Result SemanticError (BTreeMap string string) :=
  match m with
  | [] => Ok []
  | (k, v) :: rest =>
      key ← text SemUnsupportedSemantics 256 k;
      value ← text SemUnsupportedSemantics (8 * 1024) v;
      ts ← map_headers rest;
      Ok ((key, value) :: ts)
  end.
(** [map_http_headers] checks the value and keeps it as a secret. *)
Definition map_http_headers (m : BTreeMap string string) : Result SemanticError (BTreeMap string string) :=
  map_headers m.

(** ** UUIDs *)
Inductive UuidError : Type := UuidShape | UuidInvalid.
Definition is_ascii_hexdigit (b : Z) : bool := is_ascii_digit b || in_range 97 102 b || in_range 65 70 b.
Definition hyphen_at (i : nat) : bool := existsb (Nat.eqb i) [8; 13; 18; 23]%nat.
Definition hyphenated_shape (bs : list Z) : bool :=
  forallb (fun p => if hyphen_at p.1 then p.2 =? 45 else is_ascii_hexdigit p.2)
    (imap pair bs).

Section semantic.
Context (uuid_parse_str : string -> option (list Z)) (uuid_hyphenated : list Z -> string).
Context (json_from_slice : list Z -> option Json).
Context `{!Base64Engine}.

Definition UuidValue_parse (value : string) : Result UuidError string :=
  let simple := (str_len value =? 32) && forallb is_ascii_hexdigit (bytes value) in
  let hyphenated := (str_len value =? 36) && hyphenated_shape (bytes value) in
  if negb simple && negb hyphenated then Err UuidShape
  else
    match uuid_parse_str value with
    | None => Err UuidInvalid
    | Some uuid => if forallb (Z.eqb 0) uuid then Err UuidInvalid else Ok (uuid_hyphenated uuid)
    end.

(** ** Credentials *)
Definition non_empty (o : option string) : option string :=
  match o with Some v => if str_len v =? 0 then None else Some v | None => None end.
Definition spec_password (spec : NodeSpec) : Result SemanticError string :=
  ok_or (non_empty (sp_password spec)) SemInvalidCredential.
Definition spec_uuid (spec : NodeSpec) : Result SemanticError string :=
  value ← ok_or (sp_uuid spec) SemInvalidCredential;
  map_err (fun _ => SemInvalidCredential) (UuidValue_parse value).

Definition optional_user_password (spec : NodeSpec) :
    Result SemanticError (option string * option string) :=
  match sp_username spec, sp_password spec with
  | None, None => Ok (None, None)
  | Some username, Some password =>
      if negb (str_len username =? 0) && negb (str_len password =? 0)
      then Ok (Some username, Some password) else Err SemInvalidCredential
  | _, _ => Err SemInvalidCredential
  end.

Definition make_plugin (spec : NodeSpec) : Result SemanticError (option PluginSpec) :=
  let options := sp_plugin_options spec in
  match sp_plugin spec with
  | None => if len options =? 0 then Ok None else Err SemUnsupportedSemantics
  | Some plugin =>
      if String.eqb plugin "obfs-local" then
        if existsb (fun k => negb (is_one_of k ["obfs"; "obfs-host"])) (bt_keys options)
           || negb (some_of (bt_get "obfs" options) ["http"; "tls"])
        then Err SemUnsupportedSemantics
        else
          options ← text_values SemUnsupportedSemantics 256 options;
          name ← text SemUnsupportedSemantics 64 "obfs-local";
          Ok (Some (mkPlugin name options))
      else if String.eqb plugin "v2ray-plugin" then
        if existsb (fun k => negb (is_one_of k ["mode"; "host"; "path"; "tls"; "mux"])) (bt_keys options)
           || negb (some_of (bt_get "mode" options) ["websocket"; "quic"])
        then Err SemUnsupportedSemantics
        else if match bt_get "tls" options with
                | Some tls => negb (String.eqb tls "true") && negb (String.eqb tls "false")
                | None => false
                end
        then Err SemUnsupportedSemantics
        else if match bt_get "mux" options with
                | Some mux => negb (is_some (parse_uint 16 (bytes mux)))
                | None => false
                end
        then Err SemUnsupportedSemantics
        else
          options ← text_values SemUnsupportedSemantics 256 options;
          name ← text SemUnsupportedSemantics 64 "v2ray-plugin";
          Ok (Some (mkPlugin name options))
      else Err SemUnsupportedSemantics
  end.

Definition make_credentials (spec : NodeSpec) (protocol : ProxyProtocol) :
    Result SemanticError Credentials :=
  let http_or_socks := match protocol with Http | Socks => true | _ => false end in
  if negb http_or_socks && is_some (sp_username spec) then Err SemUnsupportedSemantics
  else if http_or_socks
          && (is_some (sp_uuid spec) || is_some (sp_method spec) || is_some (sp_vmess_security spec)
              || is_some (sp_alter_id spec) || is_some (sp_plugin spec)
              || negb (len (sp_plugin_options spec) =? 0) || is_some (sp_obfs spec)
              || is_some (sp_obfs_password spec))
  then Err SemUnsupportedSemantics
  else
    match protocol with
    | Vless => uuid ← spec_uuid spec; Ok (CVless uuid)
    | Vmess =>
        let security := default "auto" (sp_vmess_security spec) in
        if negb (is_one_of security VMESS_SECURITY) then Err SemUnsupportedSemantics
        else
          uuid ← spec_uuid spec;
          security ← text SemInvalidCredential 64 security;
          Ok (CVmess uuid (default 0 (sp_alter_id spec)) security)
    | Shadowsocks =>
        method ← ok_or (sp_method spec) SemInvalidCredential;
        if negb (is_one_of method SHADOWSOCKS_METHODS) then Err SemUnsupportedSemantics
        else
          plugin ← make_plugin spec;
          method ← text SemInvalidCredential 64 method;
          password ← spec_password spec;
          Ok (CShadowsocks method password plugin)
    | Trojan => password ← spec_password spec; Ok (CTrojan password)
    | Hysteria2 =>
        obfs ←
          match sp_obfs spec, sp_obfs_password spec with
          | None, None => Ok None
          | Some obfs, Some password =>
              if String.eqb obfs "salamander" && negb (str_len password =? 0) then
                kind ← text SemUnsupportedSemantics 64 "salamander";
                Ok (Some (mkObfs kind password))
              else Err SemUnsupportedSemantics
          | _, _ => Err SemUnsupportedSemantics
          end;
        password ← spec_password spec;
        Ok (CHysteria2 password obfs)
    | Tuic =>
        uuid ← spec_uuid spec;
        password ← spec_password spec;
        Ok (CTuic uuid password)
    | AnyTls => password ← spec_password spec; Ok (CAnyTls password)
    | Http => '(username, password) ← optional_user_password spec; Ok (CHttp username password)
    | Socks => '(username, password) ← optional_user_password spec; Ok (CSocks username password)
    end.

(** ** TLS and transport *)
Definition make_tls (spec : NodeSpec) (protocol : ProxyProtocol) : Result SemanticError TlsOptions :=
  let e := SemInvalidTlsCombination in
  reality ←
    match sp_reality_public_key spec with
    | Some public_key =>
        if bool_decide (protocol = Vless) && sp_tls spec && negb (str_len public_key =? 0) then
          fingerprint ← text_opt e 64 (sp_client_fingerprint spec);
          Ok (Some (mkReality public_key (non_empty (sp_reality_short_id spec)) fingerprint))
        else Err e
    | None => Ok None
    end;
  if negb (sp_tls spec)
     && (is_some (sp_server_name spec) || negb (len (sp_alpn spec) =? 0) || is_some (sp_client_fingerprint spec))
  then Err e
  else
    server_name ← text_opt e 256 (sp_server_name spec);
    alpn ← text_list e 64 (sp_alpn spec);
    client_fingerprint ← text_opt e 64 (sp_client_fingerprint spec);
    Ok (mkTls (sp_tls spec) server_name (sp_insecure spec) alpn client_fingerprint reality None).

Definition transport_from_str (value : string) : option TransportKind :=
  let v := lowercase value in
  if String.eqb v "tcp" then Some KTcp
  else if String.eqb v "ws" || String.eqb v "websocket" then Some KWebSocket
  else if String.eqb v "http" then Some KHttp
  else if String.eqb v "httpupgrade" || String.eqb v "http-upgrade" then Some KHttpUpgrade
  else if String.eqb v "grpc" then Some KGrpc
  else if String.eqb v "quic" then Some KQuic
  else None.

Definition make_transport (protocol : ProxyProtocol) (requested path : option string) (hosts : list string)
    (service_name : option string) (headers : BTreeMap string string) : Result SemanticError TransportOptions :=
  let e := SemUnsupportedSemantics in
  let plain := negb (is_some path) && (len hosts =? 0) && negb (is_some service_name) && (len headers =? 0) in
  if match protocol with Http | Socks => true | _ => false end
     && match requested with Some v => negb (String.eqb v "tcp") | None => false end
  then Err SemUnsupportedTransport
  else
    let default_kind := match protocol with Hysteria2 | Tuic => "quic" | _ => "tcp" end in
    kind ← ok_or (transport_from_str (default default_kind requested)) SemUnsupportedTransport;
    match kind with
    | KTcp => if negb plain then Err e else Ok TTcp
    | KWebSocket | KHttpUpgrade =>
        path ← text e (8 * 1024) (default "/" path);
        headers ← map_headers headers;
        headers ←
          match head hosts with
          | Some host =>
              if negb (existsb (fun k => String.eqb (lowercase k) "host") (bt_keys headers)) then
                host ← text e 256 host;
                Ok (bt_insert "Host" host headers)
              else Ok headers
          | None => Ok headers
          end;
        if 1 <? len hosts then Err e
        else Ok (if bool_decide (kind = KWebSocket) then TWebSocket path headers else THttpUpgrade path headers)
    | KHttp =>
        path ← text e (8 * 1024) (default "/" path);
        hosts ← text_list e 256 hosts;
        Ok (THttp path hosts)
    | KGrpc =>
        if negb (len hosts =? 0) then Err e
        else
          service_name ← text e 256 (default "grpc" service_name);
          Ok (TGrpc service_name)
    | KQuic => if negb plain then Err e else Ok TQuic
    end.

Definition port_number (bs : list Z) : option Z := parse_uint 16 bs.
Definition valid_port_entry (value : string) : bool :=
  let value := trim_text (bytes value) in
  if len value =? 0 then false
  else
    match split_once 45 value with
    | Some (start, finish) =>
        if (len start =? 0) || (len finish =? 0) || contains 45 finish then false
        else
          match port_number start, port_number finish with
          | Some start, Some finish => negb (start =? 0) && (start <=? finish)
          | _, _ => false
          end
    | None => match port_number value with Some port => negb (port =? 0) | None => false end
    end.
Definition valid_server_ports (values : list string) : bool :=
  if (len values =? 0) || (64 <? len values) then len values =? 0
  else forallb valid_port_entry values.

(** ** Validation *)
Definition make_options (spec : NodeSpec) (protocol : ProxyProtocol) : Result SemanticError ProtocolOptions :=
  let e := SemUnsupportedSemantics in
  match protocol with
  | Vless => flow ← text_opt e 256 (sp_flow spec); Ok (OVless flow)
  | Shadowsocks => Ok (OShadowsocks (sp_udp_over_tcp spec))
  | Hysteria2 =>
      ports ← text_list e 64 (sp_server_ports spec);
      hop ← text_opt e 64 (sp_hop_interval spec);
      Ok (OHysteria2 (mkHysteria2 ports hop (sp_up_mbps spec) (sp_down_mbps spec)))
  | Tuic =>
      congestion ← text_opt e 64 (sp_congestion_control spec);
      relay ← text_opt e 64 (sp_udp_relay_mode spec);
      heartbeat ← text_opt e 64 (sp_heartbeat spec);
      Ok (OTuic (mkTuic congestion relay (sp_udp_over_stream spec) (sp_zero_rtt_handshake spec) heartbeat))
  | AnyTls =>
      check ← text_opt e 64 (sp_idle_session_check_interval spec);
      timeout ← text_opt e 64 (sp_idle_session_timeout spec);
      Ok (OAnyTls (mkAnyTls check timeout (sp_min_idle_session spec)))
  | Http =>
      path ← text_opt e (8 * 1024) (sp_http_path spec);
      headers ← map_http_headers (sp_http_headers spec);
      Ok (OHttp (mkHttp path headers))
  | Socks =>
      let version := default "5" (sp_socks_version spec) in
      if negb (is_one_of version ["4"; "4a"; "5"]) then Err e
      else
        version ← text e 8 version;
        Ok (OSocks (mkSocks version (sp_udp_over_tcp spec)))
  | _ => Ok ONone
  end.

Definition map_validation_error (e : NodeValidationError) : SemanticError :=
  match e with
  | InvalidTlsCombination => SemInvalidTlsCombination
  | EmptyCredential => SemInvalidCredential
  | UnsupportedTransport => SemUnsupportedTransport
  | UnsupportedSemantics | UnsupportedCapability => SemUnsupportedSemantics
  | CredentialProtocolMismatch | TooManySourceRefs => SemInvalidCredential
  end.

(** The fields that belong to one protocol, on another. *)
Definition foreign_fields (spec : NodeSpec) (protocol : ProxyProtocol) : bool :=
  (negb (bool_decide (protocol = Hysteria2))
   && (negb (len (sp_server_ports spec) =? 0) || is_some (sp_hop_interval spec) || is_some (sp_up_mbps spec)
       || is_some (sp_down_mbps spec)))
  || (negb (bool_decide (protocol = Tuic))
      && (is_some (sp_congestion_control spec) || is_some (sp_udp_relay_mode spec) || sp_udp_over_stream spec
          || sp_zero_rtt_handshake spec || is_some (sp_heartbeat spec)))
  || (negb (bool_decide (protocol = AnyTls))
      && (is_some (sp_idle_session_check_interval spec) || is_some (sp_idle_session_timeout spec)
          || is_some (sp_min_idle_session spec)))
  || (negb (bool_decide (protocol = Http))
      && (is_some (sp_http_path spec) || negb (len (sp_http_headers spec) =? 0)))
  || (negb (bool_decide (protocol = Socks)) && is_some (sp_socks_version spec)).

Definition is_quic_protocol (p : ProxyProtocol) : bool :=
  match p with Hysteria2 | Tuic => true | _ => false end.

Definition default_display_name (protocol : ProxyProtocol) (e : Endpoint) : string :=
  protocol_name protocol +:+ "-" +:+ ep_server e +:+ ":" +:+ of_bytes (print_u64 (ep_port e)).

Definition spec_warnings (spec : NodeSpec) (protocol : ProxyProtocol) : list NodeDiagnostic :=
  (if sp_insecure spec then [diagnostic DcInsecureTls SevWarning (sp_location spec) (Some protocol)] else [])
  ++ (if 0 <? sp_unknown_harmless_fields spec
      then [with_parameter (diagnostic DcUnknownField SevWarning (sp_location spec) (Some protocol)) "count"
              (of_bytes (print_u64 (sp_unknown_harmless_fields spec)))]
      else []).

Definition validate_node_spec (spec : NodeSpec) (matrix : list CapabilityEntry) :
    Result SemanticError SemanticOutcome :=
  if is_some (sp_unknown_critical_field spec) then Err SemUnsupportedSemantics
  else
    protocol ← ok_or (protocol_from_str (sp_protocol spec)) SemUnsupportedProtocol;
    if foreign_fields spec protocol then Err SemUnsupportedSemantics
    else if bool_decide (protocol = Socks) && sp_tls spec then Err SemInvalidTlsCombination
    else if bool_decide (protocol = Hysteria2) && negb (valid_server_ports (sp_server_ports spec))
    then Err SemUnsupportedSemantics
    else
      tls ← make_tls spec protocol;
      credentials ← make_credentials spec protocol;
      endpoint ← map_err (fun _ => SemInvalidEndpoint) (Endpoint_new (sp_server spec) (sp_port spec));
      transport ← make_transport protocol (sp_transport spec) (sp_path spec) (sp_hosts spec)
                    (sp_service_name spec) (sp_headers spec);
      options ← make_options spec protocol;
      if is_some (sp_udp_over_tcp spec) && negb (match protocol with Shadowsocks | Socks => true | _ => false end)
      then Err SemUnsupportedSemantics
      else if match sp_congestion_control spec with
              | Some congestion => negb (bool_decide (protocol = Tuic))
                                   || negb (is_one_of congestion ["bbr"; "cubic"; "new_reno"])
              | None => false
              end
      then Err SemUnsupportedSemantics
      else
        let display_name := default (default_display_name protocol endpoint) (sp_display_name spec) in
        let udp := sp_udp spec || is_quic_protocol protocol in
        display_name ← map_err (fun _ => SemUnsupportedSemantics) (DisplayName_new display_name);
        let node := mkNode display_name protocol endpoint credentials tls transport options
                      (mkCapabilities (negb (is_quic_protocol protocol)) udp false (is_quic_protocol protocol)
                         (sp_tls spec))
                      (match sp_source_ref spec with Some r => [r] | None => [] end) in
        proxy ← map_err map_validation_error (ProxyNode_validate node matrix);
        Ok (mkSemantic proxy (spec_warnings spec protocol)).

(** ** From a URI *)
Definition split_trim (value : string) : list string :=
  of_bytes <$> filter (fun v => v <> []) (trim_text <$> split_on 44 (bytes value)).
Definition truthy (value : string) : bool := is_one_of value ["1"; "true"].
Definition parse_u32 (value : string) : option Z := parse_uint 32 (bytes value).

Fixpoint plugin_parts (parts : list (list Z)) (options : BTreeMap string string) :
    Result SemanticError (BTreeMap string string) :=
  match parts with
  | [] => Ok options
  | part :: rest =>
      match split_once 61 part with
      | Some (key, value) =>
          if (len key =? 0) || (len value =? 0) then Err SemUnsupportedSemantics
          else if bt_contains_key (of_bytes key) options then Err SemUnsupportedSemantics
          else plugin_parts rest (bt_insert (of_bytes key) (of_bytes value) options)
      | None => Err SemUnsupportedSemantics
      end
  end.
Definition parse_uri_plugin_value (value : string) : Result SemanticError (string * BTreeMap string string) :=
  match split_on 59 (bytes value) with
  | name :: parts =>
      if len name =? 0 then Err SemUnsupportedSemantics
      else
        options ← plugin_parts parts [];
        Ok (of_bytes name, options)
  | [] => Err SemUnsupportedSemantics
  end.

(** The [match key.as_str()] of the query loop. *)
Definition apply_parameter (protocol : ProxyProtocol) (key value : string) (spec : NodeSpec) :
    Result SemanticError NodeSpec :=
  let key_is k := String.eqb key k in
  if key_is "type" || key_is "network" then Ok (set_transport (Some value) spec)
  else if key_is "security" && bool_decide (protocol = Vmess) then Ok (set_vmess_security (Some value) spec)
  else if key_is "security" && (String.eqb value "tls" || String.eqb value "reality") then Ok (set_tls true spec)
  else if key_is "security" && negb (String.eqb value "none") then Ok (set_unknown_critical_field (Some key) spec)
  else if key_is "tls" then Ok (set_tls (is_one_of value ["1"; "true"; "tls"; "reality"]) spec)
  else if key_is "sni" || key_is "servername" then Ok (set_server_name (Some value) spec)
  else if key_is "alpn" then Ok (set_alpn (of_bytes <$> split_on 44 (bytes value)) spec)
  else if key_is "fp" || key_is "fingerprint" then Ok (set_client_fingerprint (Some value) spec)
  else if key_is "pbk" || key_is "public-key" then Ok (set_reality_public_key (Some value) spec)
  else if key_is "sid" || key_is "short-id" then Ok (set_reality_short_id (Some value) spec)
  else if key_is "flow" then Ok (set_flow (Some value) spec)
  else if key_is "path" then Ok (set_path (Some value) spec)
  else if key_is "host" then Ok (set_hosts (sp_hosts spec ++ split_trim value) spec)
  else if key_is "serviceName" || key_is "service_name" then Ok (set_service_name (Some value) spec)
  else if key_is "udp" then Ok (set_udp (truthy value) spec)
  else if key_is "obfs" then Ok (set_obfs (Some value) spec)
  else if key_is "obfs-password" || key_is "obfs_password" then Ok (set_obfs_password (Some value) spec)
  else if key_is "congestion_control" then Ok (set_congestion_control (Some value) spec)
  else if key_is "udp_relay_mode" then Ok (set_udp_relay_mode (Some value) spec)
  else if key_is "udp_over_stream" then Ok (set_udp_over_stream (truthy value) spec)
  else if key_is "zero_rtt_handshake" then Ok (set_zero_rtt_handshake (truthy value) spec)
  else if key_is "heartbeat" then Ok (set_heartbeat (Some value) spec)
  else if key_is "hop_interval" then Ok (set_hop_interval (Some value) spec)
  else if key_is "server_ports" then Ok (set_server_ports (split_trim value) spec)
  else if key_is "up_mbps" then Ok (set_up_mbps (parse_u32 value) spec)
  else if key_is "down_mbps" then Ok (set_down_mbps (parse_u32 value) spec)
  else if key_is "idle_session_check_interval" then Ok (set_idle_session_check_interval (Some value) spec)
  else if key_is "idle_session_timeout" then Ok (set_idle_session_timeout (Some value) spec)
  else if key_is "min_idle_session" then Ok (set_min_idle_session (parse_u32 value) spec)
  else if key_is "plugin" then
    '(plugin, options) ← parse_uri_plugin_value value;
    Ok (set_plugin_options options (set_plugin (Some plugin) spec))
  else if key_is "allowInsecure" || key_is "insecure" then Ok (set_insecure (truthy value) spec)
  else Ok (set_unknown_harmless_fields (sat_add_u 64 (sp_unknown_harmless_fields spec) 1) spec).

Fixpoint apply_query (protocol : ProxyProtocol) (query : list (list Z * list Z)) (spec : NodeSpec) :
    Result SemanticError NodeSpec :=
  match query with
  | [] => Ok spec
  | (k, v) :: rest =>
      key ← map_err (fun _ => SemUnsupportedSemantics) (percent_decode_field k);
      value ← map_err (fun _ => SemUnsupportedSemantics) (percent_decode_field v);
      spec ← apply_parameter protocol (of_bytes key) (of_bytes value) spec;
      apply_query protocol rest spec
  end.

(** [Option::map(percent_decode_field).transpose().map_err(|_| e)] *)
Definition decode_opt (e : SemanticError) (o : option (list Z)) : Result SemanticError (option string) :=
  match o with
  | Some v => t ← map_err (fun _ => e) (percent_decode_field v); Ok (Some (of_bytes t))
  | None => Ok None
  end.
(** [value.split_once(':')] of the user part. *)
Definition user_pair (userinfo : option string) : Result SemanticError (string * string) :=
  value ← ok_or userinfo SemInvalidCredential;
  '(a, b) ← ok_or (split_once 58 (bytes value)) SemInvalidCredential;
  Ok (of_bytes a, of_bytes b).

Definition as_str (v : option Json) : option string :=
  match v with Some (JString s) => Some s | _ => None end.
(** [Value::as_u64]: a literal of digits that fits. *)
Definition literal_u64 (literal : string) : option Z :=
  if forallb is_ascii_digit (bytes literal) then parse_u64 (bytes literal) else None.
Definition as_u64 (v : option Json) : option Z :=
  match v with Some (JNumber n) => literal_u64 n | _ => None end.
Definition to_u16 (n : Z) : option Z := if n <=? umax 16 then Some n else None.

(** [None]: see [vmess_inner_json]. *)
Definition node_spec_from_vmess_json (c : UriNodeCandidate) : option (Result SemanticError NodeSpec) :=
  inner ← vmess_inner_json c;
  Some
    (bs ← map_err (fun _ => SemInvalidCredential) inner;
     value ← ok_or (json_from_slice bs) SemInvalidCredential;
     object ← (match value with JObject fields => Ok fields | _ => Err SemInvalidCredential end);
     let required key := ok_or (as_str (json_get key object)) SemInvalidCredential in
     port ← (match json_get "port" object with
             | Some (JNumber n) => ok_or (literal_u64 n ≫= to_u16) SemInvalidEndpoint
             | Some (JString s) => ok_or (parse_uint 16 (bytes s)) SemInvalidEndpoint
             | _ => Err SemInvalidEndpoint
             end);
     add ← required "add";
     let spec := set_display_name (as_str (json_get "ps" object)) (NodeSpec_minimal "vmess" add port) in
     id ← required "id";
     let spec := set_uuid (Some id) spec in
     let spec := set_alter_id (as_u64 (json_get "aid" object) ≫= to_u16) spec in
     let spec := set_vmess_security (as_str (json_get "scy" object)) spec in
     let spec := set_transport (as_str (json_get "net" object)) spec in
     let spec := set_path (as_str (json_get "path" object)) spec in
     let spec := set_hosts (from_option split_trim [] (as_str (json_get "host" object))) spec in
     let spec := set_tls (bool_decide (as_str (json_get "tls" object) = Some "tls")) spec in
     Ok (set_server_name (as_str (json_get "sni" object)) spec)).

Definition get_or_insert_transport (spec : NodeSpec) : NodeSpec :=
  match sp_transport spec with Some _ => spec | None => set_transport (Some "quic") spec end.

Definition node_spec_from_uri (c : UriNodeCandidate) : option (Result SemanticError NodeSpec) :=
  if bool_decide (cd_scheme c = UVmess) && bool_decide (cd_userinfo c = None) then node_spec_from_vmess_json c
  else
    let protocol := scheme_protocol (cd_scheme c) in
    Some
      (port ← ok_or (cd_port c) SemInvalidEndpoint;
       let spec := NodeSpec_minimal (protocol_name protocol) (of_bytes (cd_server c)) port in
       spec ←
         (match cd_port_spec c with
          | Some port_spec =>
              if negb (bool_decide (protocol = Hysteria2)) then Err SemUnsupportedSemantics
              else Ok (set_server_ports (split_trim (of_bytes port_spec)) spec)
          | None => Ok spec
          end);
       name ← decode_opt SemUnsupportedSemantics (cd_fragment c);
       let spec := set_display_name name spec in
       userinfo ← decode_opt SemInvalidCredential (cd_userinfo c);
       let spec := set_uuid userinfo spec in
       spec ←
         (match cd_scheme c with
          | UVless | UVmess => Ok spec
          | UShadowsocks =>
              '(method, password) ← user_pair userinfo;
              Ok (set_uuid None (set_password (Some password) (set_method (Some method) spec)))
          | UTrojan | UHysteria2 | UHysteria2Short | UAnyTls => Ok (set_uuid None (set_password userinfo spec))
          | UTuic =>
              '(uuid, password) ← user_pair userinfo;
              Ok (set_password (Some password) (set_uuid (Some uuid) spec))
          end);
       spec ← apply_query protocol (cd_query c) spec;
       let spec :=
         match protocol with Trojan | Hysteria2 | Tuic | AnyTls => set_tls true spec | _ => spec end in
       Ok (match protocol with
           | Hysteria2 | Tuic => set_udp true (get_or_insert_transport spec)
           | _ => spec
           end)).

(** ** The URI adapter of pipeline.rs *)
Definition uri_item (matrix : list CapabilityEntry) (source_id : option SourceId) (item : UriNodeResult) :
    option AdapterNodeResult :=
  let index := ur_item_index item in
  let rejected e := result_rejected index (semantic_diagnostic e (location index (ur_line item))) in
  match ur_result item with
  | Ok candidate =>
      spec ← node_spec_from_uri candidate;
      Some
        (match spec with
         | Err e => rejected e
         | Ok spec =>
             let r := (fun id => mkSourceRef id index FUriList (Some (ur_line item))) <$> source_id in
             match validate_node_spec (set_source_ref r spec) matrix with
             | Ok outcome => result_accepted index (sem_node outcome) (sem_warnings outcome)
             | Err e => rejected e
             end
         end)
  | Err d => Some (result_rejected index d)
  end.
Definition uri_output (bs : list Z) (source_id : option SourceId) (limits : ParserLimits)
    (matrix : list CapabilityEntry) : option AdapterOutput :=
  items ← parse_uri_list bs source_id limits;
  nodes ← mapM (uri_item matrix source_id) items;
  Some (mkOutput nodes []).
End semantic.

(** ** What validation keeps *)
Tactic Notation "bind_inv" hyp(H) ident(x) ident(E) := apply result_bind_Ok in H as (x & E & H).
(** A guard that did not return early. *)
Tactic Notation "guard_in" hyp(H) := let G := fresh "Hguard" in split_if_in H G; [done|].
Tactic Notation "guard" := let G := fresh "Hguard" in split_if G; [done|].
Lemma ok_or_Ok {E A} (o : option A) (e : E) a : ok_or o e = Ok a -> o = Some a.
Proof. destruct o; simpl; congruence. Qed.
Definition bounded (max : Z) (t : string) : Prop := 0 < str_len t <= max /\ has_control (bytes t) = false.
Lemma bounded_text_Ok value max t : BoundedText_new value max = Ok t -> t = value /\ bounded max t.
Proof.
  unfold BoundedText_new, bounded. destruct (Z.eqb_spec (str_len value) 0); [done|].
  destruct (Z.ltb_spec max (str_len value)); [done|]. destruct (has_control _) eqn:Hc; [done|].
  intros [= <-]. unfold str_len in *. split; [done|]. split; [lia|done].
Qed.
Lemma text_Ok e max v t : text e max v = Ok t -> t = v /\ bounded max t.
Proof. intros ?%map_err_Ok. by apply bounded_text_Ok. Qed.
Lemma text_opt_Ok e max v t :
  text_opt e max v = Ok t -> t = v /\ forall s, t = Some s -> bounded max s.
Proof.
  destruct v as [v|]; simpl; [|intros [= <-]; done]. intros H. bind_inv H x E. injection H as <-.
  apply text_Ok in E as [-> Hb]. split; [done|]. by intros s [= <-].
Qed.
Lemma text_list_Ok e max v t : text_list e max v = Ok t -> t = v /\ Forall (bounded max) t.
Proof.
  revert t. induction v as [|v vs IH]; intros t H; simpl in H; [injection H as <-; by split|].
  bind_inv H x E. bind_inv H xs E'. injection H as <-. apply text_Ok in E as [-> ?]. apply IH in E' as [-> ?].
  split; [done|by constructor].
Qed.
Lemma map_headers_Ok m t : map_headers m = Ok t -> t = m.
Proof.
  revert t. induction m as [|[k v] m IH]; intros t H; simpl in H; [by injection H as <-|].
  bind_inv H key Ek. bind_inv H value Ev. bind_inv H rest Er. injection H as <-.
  apply text_Ok in Ek as [-> _]. apply text_Ok in Ev as [-> _]. by rewrite (IH _ Er).
Qed.
Lemma text_opt_explicit e max v t : text_opt e max v = Ok t -> t = v /\ explicit t.
Proof.
  intros [-> Hb]%text_opt_Ok. split; [done|]. intros ->. specialize (Hb _ eq_refl) as [Hb _].
  unfold str_len in Hb. simpl in Hb. lia.
Qed.
Lemma non_empty_explicit o : explicit (non_empty o).
Proof. destruct o as [[|c s]|]; unfold explicit; simpl; done. Qed.

Lemma make_tls_Ok spec p t :
  make_tls spec p = Ok t ->
  tls_ok t /\ tls_enabled t = sp_tls spec /\ tls_insecure t = sp_insecure spec
  /\ tls_server_name t = sp_server_name spec /\ tls_alpn t = sp_alpn spec
  /\ client_fingerprint t = sp_client_fingerprint spec
  /\ public_key <$> tls_reality t = sp_reality_public_key spec.
Proof.
  unfold make_tls. intros H. bind_inv H r Er. split_if_in H Hc; [done|].
  bind_inv H sn Esn. bind_inv H al Eal. bind_inv H cf Ecf. injection H as <-. unfold tls_ok. simpl.
  apply text_opt_explicit in Esn as [-> Hsn]. apply text_opt_explicit in Ecf as [-> Hcf].
  apply text_list_Ok in Eal as [-> _].
  destruct (sp_reality_public_key spec) as [pk|]; [|injection Er as <-; by split_and!].
  split_if_in Er Hp; [|done]. bind_inv Er fp Efp. injection Er as <-. apply text_opt_explicit in Efp as [-> Hfp].
  simpl. split_and!; try done. apply non_empty_explicit.
Qed.

Lemma make_options_Ok spec p o :
  make_options spec p = Ok o ->
  options_match p o = true
  /\ ((forall n, sp_up_mbps spec = Some n \/ sp_down_mbps spec = Some n \/ sp_min_idle_session spec = Some n ->
         is_uint 64 n) -> uot_ok (sp_udp_over_tcp spec) -> options_ok (drop_zeros o)).
Proof.
  unfold make_options. intros H. destruct p; try (injection H as <-; by split).
  - bind_inv H f E. injection H as <-. apply text_opt_explicit in E as [-> ?]. by split.
  - bind_inv H ps Ep. bind_inv H hop Eh. injection H as <-. apply text_opt_explicit in Eh as [-> ?].
    split; [done|]. intros Hn _. simpl. split; [done|]. split; apply drop_zero_explicit; auto.
  - bind_inv H a Ea. bind_inv H b Eb. bind_inv H c Ec. injection H as <-.
    apply text_opt_explicit in Ea as [-> ?], Eb as [-> ?], Ec as [-> ?]. by split.
  - bind_inv H a Ea. bind_inv H b Eb. injection H as <-. apply text_opt_explicit in Ea as [-> ?], Eb as [-> ?].
    split; [done|]. intros Hn _. simpl. split; [done|]. split; [done|]. apply drop_zero_explicit; auto.
  - bind_inv H a Ea. bind_inv H b Eb. injection H as <-. apply text_opt_explicit in Ea as [-> ?]. by split.
  - split_if_in H Hv; [done|]. bind_inv H v Ev. injection H as <-. by split.
Qed.

Section keeps_fields.
Context (uuid_parse_str : string -> option (list Z)) (uuid_hyphenated : list Z -> string).
Local Abbreviation validate := (validate_node_spec uuid_parse_str uuid_hyphenated).

Lemma make_credentials_Ok spec p c :
  make_credentials uuid_parse_str uuid_hyphenated spec p = Ok c ->
  credentials_protocol c = p
  /\ ((forall n, sp_alter_id spec = Some n -> is_uint 64 n) -> credentials_ok c).
Proof.
  unfold make_credentials. intros H. do 2 guard_in H.
  assert (forall u w, optional_user_password spec = Ok (u, w) -> explicit u /\ explicit w) as Hup.
  { intros u w. unfold optional_user_password, explicit. destruct (sp_username spec) as [[|a s]|], (sp_password spec) as [[|b t]|];
      simpl; intros [=]; subst; done. }
  destruct p.
  - bind_inv H u Eu. injection H as <-. done.
  - guard_in H. bind_inv H u Eu. bind_inv H s Es. injection H as <-. split; [done|].
    intros Ha. simpl. destruct (sp_alter_id spec) as [n|]; simpl; [by apply Ha|]. by split.
  - bind_inv H m Em. guard_in H. bind_inv H pl Epl. bind_inv H m' Em'. bind_inv H pw Epw.
    injection H as <-. done.
  - bind_inv H u Eu. injection H as <-. done.
  - bind_inv H ob Eob. bind_inv H u Eu. injection H as <-. done.
  - bind_inv H u Eu. bind_inv H w Ew. injection H as <-. done.
  - bind_inv H u Eu. injection H as <-. done.
  - bind_inv H uw Eu. destruct uw as [u w]. injection H as <-. split; [done|]. intros _. by apply Hup.
  - bind_inv H uw Eu. destruct uw as [u w]. injection H as <-. split; [done|]. intros _. by apply Hup.
Qed.

(** The parts of an accepted specification. *)
Lemma validate_spec_parts spec matrix o :
  validate spec matrix = Ok o ->
  exists p tls creds transport options,
    protocol_from_str (sp_protocol spec) = Some p
    /\ foreign_fields spec p = false
    /\ make_tls spec p = Ok tls
    /\ make_credentials uuid_parse_str uuid_hyphenated spec p = Ok creds
    /\ make_transport p (sp_transport spec) (sp_path spec) (sp_hosts spec) (sp_service_name spec) (sp_headers spec) = Ok transport
    /\ make_options spec p = Ok options
    /\ pn_inner (sem_node o) = mkNode
         (default (default_display_name p (mkEndpoint (sp_server spec) (sp_port spec))) (sp_display_name spec))
         p (mkEndpoint (sp_server spec) (sp_port spec)) creds tls transport options
         (mkCapabilities (negb (is_quic_protocol p)) (sp_udp spec || is_quic_protocol p) false (is_quic_protocol p) (sp_tls spec))
         (match sp_source_ref spec with Some r => [r] | None => [] end)
    /\ ProxyNode_validate (pn_inner (sem_node o)) matrix = Ok (sem_node o)
    /\ sem_warnings o = spec_warnings spec p.
Proof.
  unfold validate_node_spec. intros H. guard_in H. bind_inv H p Ep. apply ok_or_Ok in Ep.
  split_if_in H Hforeign; [done|]. do 2 guard_in H.
  bind_inv H tls Etls. bind_inv H creds Ecreds. bind_inv H ep Eep. apply map_err_Ok in Eep.
  bind_inv H tr Etr. bind_inv H opts Eopts. do 2 guard_in H.
  bind_inv H name Ename. apply map_err_Ok, bounded_text_Ok in Ename as [-> _].
  bind_inv H proxy Eproxy. apply map_err_Ok in Eproxy. injection H as <-.
  assert (ep = mkEndpoint (sp_server spec) (sp_port spec)) as ->.
  { revert Eep. unfold Endpoint_new. do 4 guard. by intros [= <-]. }
  assert (pn_inner proxy = mkNode (default (default_display_name p (mkEndpoint (sp_server spec) (sp_port spec)))
    (sp_display_name spec)) p (mkEndpoint (sp_server spec) (sp_port spec)) creds tls tr opts
    (mkCapabilities (negb (is_quic_protocol p)) (sp_udp spec || is_quic_protocol p) false (is_quic_protocol p) (sp_tls spec))
    (match sp_source_ref spec with Some r => [r] | None => [] end)) as Einner.
  { revert Eproxy. unfold ProxyNode_validate. do 9 guard. destruct (NodeId_new _); [|done].
    by intros [= <-]. }
  exists p, tls, creds, tr, opts. simpl. rewrite Einner. by split_and!.
Qed.
End keeps_fields.

Section claims.
Context (uuid_parse_str : string -> option (list Z)) (uuid_hyphenated : list Z -> string).
Local Abbreviation validate := (validate_node_spec uuid_parse_str uuid_hyphenated).

(** What validation accepts it keeps: the node has the protocol, the endpoint and
    the TLS settings of the specification, credentials and options of that protocol,
    and a shape the core supports; no option of another protocol was set, and the
    warnings are exactly those of the specification. *)
Theorem accepted_spec_faithful spec matrix o :
  validate spec matrix = Ok o ->
  exists p, protocol_from_str (sp_protocol spec) = Some p
    /\ foreign_fields spec p = false
    /\ sem_warnings o = spec_warnings spec p
    /\ let n := pn_inner (sem_node o) in
       un_protocol n = p
       /\ un_endpoint n = mkEndpoint (sp_server spec) (sp_port spec)
       /\ credentials_protocol (un_credentials n) = p
       /\ options_match p (un_options n) = true
       /\ (tls_enabled (un_tls n), tls_insecure (un_tls n), tls_server_name (un_tls n), tls_alpn (un_tls n),
           client_fingerprint (un_tls n), public_key <$> tls_reality (un_tls n))
          = (sp_tls spec, sp_insecure spec, sp_server_name spec, sp_alpn spec,
             sp_client_fingerprint spec, sp_reality_public_key spec)
       /\ supports matrix (query_from_node n) = true
       /\ (forall name, sp_display_name spec = Some name -> un_display_name n = name).
Proof.
  intros (p & tls & creds & tr & opts & Ep & Hf & Etls & Ec & Etr & Eo & En & Hv & Hw)%validate_spec_parts.
  exists p. split; [done|]. split; [done|]. split; [done|]. cbv zeta.
  apply make_tls_Ok in Etls as (_ & H1 & H2 & H3 & H4 & H5 & H6). apply make_credentials_Ok in Ec as [Hc _].
  apply make_options_Ok in Eo as [Hm _]. pose proof (validated_facts _ _ _ Hv) as (_ & _ & Hs).
  rewrite En in Hs |- *. cbn [un_protocol un_endpoint un_credentials un_options un_tls un_display_name].
  rewrite H1, H2, H3, H4, H5, H6. split_and!; try done. by intros name ->.
Qed.

(** The numbers of a specification are of their machine type. *)
Definition spec_numbers (spec : NodeSpec) : Prop :=
  (forall n, sp_up_mbps spec = Some n \/ sp_down_mbps spec = Some n \/ sp_min_idle_session spec = Some n ->
     is_uint 64 n)
  /\ uot_ok (sp_udp_over_tcp spec) /\ (forall n, sp_alter_id spec = Some n -> is_uint 64 n)
  /\ is_uint 64 (sp_port spec).

Lemma accepted_node_ok spec o :
  validate spec pinned_matrix = Ok o -> spec_numbers spec ->
  Forall short_field (canonical_fields (pn_inner (sem_node o))) -> node_ok (without_zeros (pn_inner (sem_node o))).
Proof.
  intros (p & tls & creds & tr & opts & Ep & Hf & Etls & Ec & Etr & Eo & En & Hv & Hw)%validate_spec_parts
    (Hn & Hu & Ha & Hp) Hshort.
  apply make_tls_Ok in Etls as [Htls _]. apply make_credentials_Ok in Ec as [_ Hc].
  apply make_options_Ok in Eo as [Hm Ho].
  constructor; [by eapply validate_without_zeros|..|by rewrite canonical_fields_without_zeros];
    rewrite En; unfold without_zeros; cbn [un_protocol un_options un_credentials un_tls un_endpoint]; auto.
  destruct p, opts; done.
Qed.

(** C32: the identity of a node is faithful up to a zero.  Two specifications that are
    accepted under the pinned capability matrix and whose nodes have the same canonical
    bytes are composed into the same outbound, whatever the tag, once a zero written for
    [up_mbps], [down_mbps] or [min_idle_session] is left out: the canonical bytes do not
    tell such a zero from an absent value (lemma zero_not_in_identity), and they tell
    apart everything else.  So merging nodes of equal identity never drops a server, a
    credential, a TLS or transport setting or an option the core would have been given,
    except for such a zero; and when neither node has one, the outbounds are equal as
    they are.  The numbers are of their machine types, and no field of the identity is
    as long as 4 GiB. *)
Theorem accepted_identity_faithful spec spec' o o' id :
  validate spec pinned_matrix = Ok o -> validate spec' pinned_matrix = Ok o' ->
  spec_numbers spec -> spec_numbers spec' ->
  let n := pn_inner (sem_node o) in
  let n' := pn_inner (sem_node o') in
  Forall short_field (canonical_fields n) -> Forall short_field (canonical_fields n') ->
  canonical_node_bytes n = canonical_node_bytes n' ->
  compose_outbound id (without_zeros n) = compose_outbound id (without_zeros n')
  /\ (without_zeros n = n -> without_zeros n' = n' -> compose_outbound id n = compose_outbound id n').
Proof.
  intros Hv Hv' Hn Hn' n n' Hs Hs' Hb.
  assert (compose_outbound id (without_zeros n) = compose_outbound id (without_zeros n')) as Hc.
  { apply canonical_bytes_compose; [by eapply accepted_node_ok..|].
    unfold canonical_node_bytes in *. by rewrite !canonical_fields_without_zeros. }
  split; [exact Hc|]. intros E E'. by rewrite E, E' in Hc.
Qed.

(** ** The URI adapter *)
Context (json_from_slice : list Z -> option Json) `{!Base64Engine}.
Local Abbreviation item_of := (uri_item uuid_parse_str uuid_hyphenated json_from_slice).

Lemma node_spec_from_uri_total c : is_Some (node_spec_from_uri json_from_slice c).
Proof.
  unfold node_spec_from_uri. destruct (_ && _); [|by eexists]. unfold node_spec_from_vmess_json.
  destruct (vmess_inner_json_total c) as [r ->]. by eexists.
Qed.
(** A result of the adapter: as the item says it. *)
Definition item_ok (matrix : list CapabilityEntry) (source_id : option SourceId) (item : UriNodeResult)
    (r : AdapterNodeResult) : Prop :=
  (exists c spec o, ur_result item = Ok c /\ node_spec_from_uri json_from_slice c = Some (Ok spec)
     /\ validate (set_source_ref ((fun id => mkSourceRef id (ur_item_index item) FUriList (Some (ur_line item)))
                                    <$> source_id) spec) matrix = Ok o
     /\ r = result_accepted (ur_item_index item) (sem_node o) (sem_warnings o))
  \/ (exists d, r = result_rejected (ur_item_index item) d
      /\ (forall d', ur_result item = Err d' -> d = d')).
Lemma uri_item_ok matrix source_id item : exists r, item_of matrix source_id item = Some r /\ item_ok matrix source_id item r.
Proof.
  unfold uri_item, item_ok. destruct (ur_result item) as [c|d].
  - destruct (node_spec_from_uri_total c) as [[spec|e] Hs]; rewrite Hs; cbn [mbind option_bind].
    + destruct (validate _ matrix) as [o|e] eqn:Ev.
      * eexists. split; [done|]. left. by exists c, spec, o.
      * eexists. split; [done|]. right. by eexists.
    + eexists. split; [done|]. right. by eexists.
  - eexists. split; [done|]. right. eexists. split; [done|]. by intros d' [= ->].
Qed.
Lemma uri_items_ok matrix source_id items :
  exists rs, mapM (item_of matrix source_id) items = Some rs /\ Forall2 (item_ok matrix source_id) items rs.
Proof.
  induction items as [|item items (rs & Hrs & IH)]; [exists []; by split|].
  destruct (uri_item_ok matrix source_id item) as (r & Hr & Ho). exists (r :: rs). split; [|by constructor].
  simpl. rewrite Hr. cbn [mbind option_bind]. by rewrite Hrs.
Qed.

Lemma uri_output_items bs source_id limits matrix :
  exists items out, parse_uri_list bs source_id limits = Some items
    /\ uri_output uuid_parse_str uuid_hyphenated json_from_slice bs source_id limits matrix = Some out
    /\ out_diagnostics out = [] /\ Forall2 (item_ok matrix source_id) items (out_nodes out).
Proof.
  destruct (parse_uri_list_total bs source_id limits) as [items Hi].
  destruct (uri_items_ok matrix source_id items) as (rs & Hrs & Hok).
  exists items, (mkOutput rs []). unfold uri_output. rewrite Hi. cbn [mbind option_bind]. by rewrite Hrs.
Qed.

(** The URI adapter never panics and gives one result for each item of the list,
    in order and with its index: the node, when the item was read, its specification
    built and accepted, and a rejection otherwise, the reader's own where it refused
    the item; an accepted node refers to the source and the line it came from. *)
Theorem uri_output_exact bs source_id limits matrix :
  exists items out,
    parse_uri_list bs (Some source_id) limits = Some items
    /\ uri_output uuid_parse_str uuid_hyphenated json_from_slice bs (Some source_id) limits matrix = Some out
    /\ out_diagnostics out = []
    /\ Forall2 (item_ok matrix (Some source_id)) items (out_nodes out)
    /\ forall k item r n, items !! k = Some item -> out_nodes out !! k = Some r -> ar_node r = Some n ->
       un_source_refs (pn_inner n) = [mkSourceRef source_id (ur_item_index item) FUriList (Some (ur_line item))].
Proof.
  destruct (uri_output_items bs (Some source_id) limits matrix) as (items & out & Hi & Ho & Hd & Hok).
  exists items, out. split_and!; try done. intros k item r n Hk Hr Hn.
  destruct (Forall2_lookup_lr _ _ _ _ _ _ Hok Hk Hr) as [(c & spec & o & _ & _ & Hv & ->)|(d & -> & _)]; [|done].
  injection Hn as <-.
  apply validate_spec_parts in Hv as (p & tls & creds & tr & opts & _ & _ & _ & _ & _ & _ & -> & _).
  cbn [un_source_refs]. by destruct spec.
Qed.
End claims.

(** ** Examples *)
Definition demo_spec (name : string) : NodeSpec :=
  set_display_name (Some name) (set_tls true (set_password (Some "secret")
    (set_server_name (Some "example.com") (NodeSpec_minimal "trojan" "example.com" 443)))).
Definition demo_outcome (name : string) : SemanticOutcome :=
  match validate_node_spec (fun _ => None) (fun _ => "") (demo_spec name) pinned_matrix with
  | Ok o => o
  | Err _ => mkSemantic (mkProxyNode "" (mkNode "" Vless (mkEndpoint "" 0) (CVless "")
      (mkTls false None false [] None None None) TTcp ONone (mkCapabilities false false false false false) [])) []
  end.
Lemma demo_spec_numbers name : spec_numbers (demo_spec name).
Proof. split; [unfold is_uint; naive_solver|]. split; [done|]. split; [done|]. split; vm_compute; congruence. Qed.

Lemma accepted_spec_faithful_witness :
  validate_node_spec (fun _ => None) (fun _ => "") (demo_spec "one") pinned_matrix = Ok (demo_outcome "one")
  /\ un_endpoint (pn_inner (sem_node (demo_outcome "one"))) = mkEndpoint "example.com" 443.
Proof.
  assert (validate_node_spec (fun _ => None) (fun _ => "") (demo_spec "one") pinned_matrix
    = Ok (demo_outcome "one")) as Hv by (vm_compute; reflexivity).
  split; [exact Hv|].
  destruct (accepted_spec_faithful (fun _ => None) (fun _ => "") (demo_spec "one") pinned_matrix _ Hv)
    as (p & _ & _ & _ & _ & He & _). exact He.
Defined.

(** The same server under two names. *)
Lemma accepted_identity_faithful_witness :
  compose_outbound "nh1s-0" (pn_inner (sem_node (demo_outcome "one")))
  = compose_outbound "nh1s-0" (pn_inner (sem_node (demo_outcome "two"))).
Proof.
  refine (proj2 (accepted_identity_faithful (fun _ => None) (fun _ => "") (demo_spec "one") (demo_spec "two")
    (demo_outcome "one") (demo_outcome "two") "nh1s-0" _ _ _ _ _ _ _) _ _).
  - vm_compute; reflexivity.
  - vm_compute; reflexivity.
  - apply demo_spec_numbers.
  - apply demo_spec_numbers.
  - vm_compute canonical_fields.
    repeat (apply List.Forall_cons; [split; vm_compute; reflexivity|]). apply List.Forall_nil.
  - vm_compute canonical_fields.
    repeat (apply List.Forall_cons; [split; vm_compute; reflexivity|]). apply List.Forall_nil.
  - vm_compute; reflexivity.
  - vm_compute; reflexivity.
  - vm_compute; reflexivity.
Defined.

(** An explicit zero is accepted, is not part of the identity and is composed. *)
Definition hysteria_spec (up : option Z) : NodeSpec :=
  set_up_mbps up (set_tls true (set_password (Some "secret") (NodeSpec_minimal "hysteria2" "example.com" 443))).
Lemma zero_not_in_identity :
  exists o o', validate_node_spec (fun _ => None) (fun _ => "") (hysteria_spec (Some 0)) pinned_matrix = Ok o
    /\ validate_node_spec (fun _ => None) (fun _ => "") (hysteria_spec None) pinned_matrix = Ok o'
    /\ canonical_node_bytes (pn_inner (sem_node o)) = canonical_node_bytes (pn_inner (sem_node o'))
    /\ json_eqb (compose_outbound "t" (pn_inner (sem_node o))) (compose_outbound "t" (pn_inner (sem_node o'))) = false.
Proof. do 2 eexists. split; [vm_compute; reflexivity|]. split; [vm_compute; reflexivity|]. split; vm_compute; reflexivity. Qed.
