(* ===== verification/Dedupe.v ===== *)
(** * Dedupe: merging the nodes of several sources

    Models [dedupe_sources] of crates/nethop-subscription/src/pipeline.rs with
    [merge_refs] and the types around them: nodes with one fingerprint become one
    entry that collects the references and the names of all of them, and each source
    gets its counts.  [None] is the panic of [nodes\[index\]]. *)

From S2P Require Import Prelude Text Ordering BTreeMap Source Detect ProxyNode Fingerprint.

Local Open Scope Z_scope.

#[export] Instance SourceRef_eq_dec : EqDecision SourceRef.
Proof. solve_decision. Defined.

Record DedupedNode : Type := mkDeduped {
  dd_fingerprint : list Z;
  dd_node_id : string;
  dd_node : ProxyNode;
  dd_source_refs : list SourceRef;
  dd_aliases : list string;
  display_territory_code : option string;
  first_source_order : Z;
  first_item_index : Z;
}.
Record SourceOutcome : Type := mkOutcome {
  oc_accepted : Z;
  oc_duplicate : Z;
  oc_rejected : Z;
  oc_warnings : Z;
}.
Definition outcome_success (o : SourceOutcome) : bool := 0 <? oc_accepted o + oc_duplicate o.
Record SourceBatch : Type := mkBatch {
  batch_source_id : SourceId;
  batch_nodes : list ProxyNode;
  batch_rejected : Z;
  batch_warnings : Z;
}.

Fixpoint merge_refs (target refs : list SourceRef) (cap : Z) : list SourceRef :=
  match refs with
  | [] => target
  | reference :: rest =>
      if cap <=? len target then target
      else if bool_decide (reference ∈ target) then merge_refs target rest cap
      else merge_refs (target ++ [reference]) rest cap
  end.
Definition push_alias (aliases : list string) (display : string) (cap : Z) : list string :=
  if negb (bool_decide (display ∈ aliases)) && (len aliases <? cap) then aliases ++ [display] else aliases.

(** The maps of the loop: [by_fp] and [nodes]. *)
Record DedupeTable : Type := mkTable { by_fp : gmap (list Z) nat; table_nodes : list DedupedNode }.

Definition sort_key (d : DedupedNode) : Z * Z * string :=
  (first_source_order d, first_item_index d, dd_node_id d).

Section dedupe.
Context (sha256 : list Z -> list Z) (infer_display_territory : list string -> option string).

Definition pn_fingerprint (n : ProxyNode) : list Z := fingerprint_node sha256 (pn_inner n).
Definition pn_name (n : ProxyNode) : string := un_display_name (pn_inner n).
Definition pn_refs (n : ProxyNode) : list SourceRef := un_source_refs (pn_inner n).

(** The arms of the loop body: a node seen before, and a new one. *)
Definition absorb (cap : Z) (d : DedupedNode) (n : ProxyNode) : DedupedNode :=
  mkDeduped (dd_fingerprint d) (dd_node_id d) (dd_node d)
    (merge_refs (dd_source_refs d) (pn_refs n) cap)
    (push_alias (dd_aliases d) (pn_name n) cap)
    (display_territory_code d) (first_source_order d) (first_item_index d).
Definition new_entry (cap order : Z) (n : ProxyNode) : DedupedNode :=
  let refs := merge_refs [] (pn_refs n) cap in
  mkDeduped (pn_fingerprint n) (display_id (pn_fingerprint n)) n refs [pn_name n] None order
    (from_option ref_item_index 0 (head refs)).

(** The new table and whether the node was new. *)
Definition dedupe_node (cap order : Z) (t : DedupeTable) (n : ProxyNode) : option (DedupeTable * bool) :=
  let fp := pn_fingerprint n in
  match by_fp t !! fp with
  | Some index =>
      existing ← table_nodes t !! index;
      Some (mkTable (by_fp t) (<[index := absorb cap existing n]> (table_nodes t)), false)
  | None =>
      Some (mkTable (<[fp := length (table_nodes t)]> (by_fp t))
              (table_nodes t ++ [new_entry cap order n]), true)
  end.
Fixpoint dedupe_nodes (cap order : Z) (t : DedupeTable) (nodes : list ProxyNode) (o : SourceOutcome) :
    option (DedupeTable * SourceOutcome) :=
  match nodes with
  | [] => Some (t, o)
  | n :: rest =>
      '(t', is_new) ← dedupe_node cap order t n;
      dedupe_nodes cap order t' rest
        (if (is_new : bool)
         then mkOutcome (oc_accepted o + 1) (oc_duplicate o) (oc_rejected o) (oc_warnings o)
         else mkOutcome (oc_accepted o) (oc_duplicate o + 1) (oc_rejected o) (oc_warnings o))
  end.
Fixpoint dedupe_batches (cap order : Z) (batches : list SourceBatch) (t : DedupeTable)
    (outcomes : BTreeMap SourceId SourceOutcome) :
    option (DedupeTable * BTreeMap SourceId SourceOutcome) :=
  match batches with
  | [] => Some (t, outcomes)
  | b :: rest =>
      '(t', o) ← dedupe_nodes cap order t (batch_nodes b) (mkOutcome 0 0 (batch_rejected b) (batch_warnings b));
      dedupe_batches cap (order + 1) rest t' (bt_insert (batch_source_id b) o outcomes)
  end.
Definition with_territory (d : DedupedNode) : DedupedNode :=
  mkDeduped (dd_fingerprint d) (dd_node_id d) (dd_node d) (dd_source_refs d) (dd_aliases d)
    (infer_display_territory (dd_aliases d)) (first_source_order d) (first_item_index d).
Definition dedupe_sources (batches : list SourceBatch) (limits : ParserLimits) :
    option (list DedupedNode * BTreeMap SourceId SourceOutcome) :=
  '(t, outcomes) ← dedupe_batches (max_source_refs limits) 0 batches (mkTable ∅ []) [];
  Some (stable_sort_by_key sort_key (with_territory <$> table_nodes t), outcomes).
End dedupe.

(** ** What deduplication should give

    [nub l] is the list of the distinct elements of [l] in the order in which they
    first appear. *)
Definition nub {A} `{EqDecision A} (l : list A) : list A :=
  foldl (fun acc x => if bool_decide (x ∈ acc) then acc else acc ++ [x]) [] l.

Section nub.
Context {A : Type} `{!EqDecision A}.
Implicit Types (l : list A) (x : A).

Lemma nub_snoc l x : nub (l ++ [x]) = if bool_decide (x ∈ nub l) then nub l else nub l ++ [x].
Proof. unfold nub. by rewrite foldl_app. Qed.
Lemma nub_elem_of l x : x ∈ nub l <-> x ∈ l.
Proof.
  induction l as [|y l IH] using rev_ind; [done|]. rewrite nub_snoc, elem_of_app, list_elem_of_singleton.
  case_bool_decide; rewrite ?elem_of_app, ?list_elem_of_singleton; naive_solver.
Qed.
Lemma nub_NoDup l : NoDup (nub l).
Proof.
  induction l as [|y l IH] using rev_ind; [constructor|]. rewrite nub_snoc. case_bool_decide; [done|].
  apply NoDup_app. split; [done|]. split; [|apply NoDup_singleton].
  intros z Hz ->%list_elem_of_singleton. done.
Qed.

(** Pushing onto a capped list keeps the first distinct elements. *)
Lemma nub_push cap l x :
  (if (cap <=? len (take (Z.to_nat cap) (nub l))) then take (Z.to_nat cap) (nub l)
   else if bool_decide (x ∈ take (Z.to_nat cap) (nub l)) then take (Z.to_nat cap) (nub l)
   else take (Z.to_nat cap) (nub l) ++ [x]) = take (Z.to_nat cap) (nub (l ++ [x])).
Proof.
  rewrite nub_snoc. unfold len. rewrite length_take. destruct (Z.leb_spec cap (Z.of_nat (Z.to_nat cap `min` length (nub l)))).
  - case_bool_decide; [done|]. by rewrite take_app_le by lia.
  - rewrite (take_ge (nub l)) by lia. case_bool_decide; rewrite take_ge; rewrite ?length_app; simpl; try lia; done.
Qed.
End nub.

Lemma merge_refs_nub cap l refs :
  merge_refs (take (Z.to_nat cap) (nub l)) refs cap = take (Z.to_nat cap) (nub (l ++ refs)).
Proof.
  revert l. induction refs as [|r refs IH]; intros l; [by rewrite app_nil_r|].
  change (r :: refs) with ([r] ++ refs). rewrite (assoc_L (++)). rewrite <- IH. rewrite <- nub_push.
  simpl. destruct (cap <=? len _) eqn:Hfull; [|by case_bool_decide].
  destruct refs as [|r' refs]; simpl; [done|by rewrite Hfull].
Qed.
Lemma push_alias_nub cap l x :
  push_alias (take (Z.to_nat cap) (nub l)) x cap = take (Z.to_nat cap) (nub (l ++ [x])).
Proof.
  rewrite <- nub_push. unfold push_alias. rewrite Z.leb_antisym.
  destruct (_ <? _), (bool_decide _); reflexivity.
Qed.

Section reference.
Context (sha256 : list Z -> list Z) (infer_display_territory : list string -> option string).
Local Abbreviation fp_of := (pn_fingerprint sha256).

(** The nodes of the batches in order, each with the position of its batch. *)
Fixpoint positioned (order : Z) (batches : list SourceBatch) : list (Z * ProxyNode) :=
  match batches with
  | [] => []
  | b :: rest => (pair order <$> batch_nodes b) ++ positioned (order + 1) rest
  end.
Definition fingerprints (all : list (Z * ProxyNode)) : list (list Z) := (fun p => fp_of p.2) <$> all.
Definition group_of (fp : list Z) (all : list (Z * ProxyNode)) : list (Z * ProxyNode) :=
  filter (fun p => fp_of p.2 = fp) all.

(** The entry for a fingerprint: the first node that has it, with the first [cap]
    distinct references and names of all that have it. *)
Definition reference_entry (cap : Z) (territory : list string -> option string)
    (all : list (Z * ProxyNode)) (fp : list Z) : option DedupedNode :=
  let group := group_of fp all in
  let refs := take (Z.to_nat cap) (nub (mjoin ((fun p => pn_refs p.2) <$> group))) in
  let aliases := take (Z.to_nat cap) (nub ((fun p => pn_name p.2) <$> group)) in
  first ← head group;
  Some (mkDeduped fp (display_id fp) first.2 refs aliases (territory aliases) first.1
          (from_option ref_item_index 0 (head (pn_refs first.2)))).

Definition table_ok (cap : Z) (seen : list (Z * ProxyNode)) (t : DedupeTable) : Prop :=
  Forall2 (fun fp d => reference_entry cap (fun _ => None) seen fp = Some d)
    (nub (fingerprints seen)) (table_nodes t)
  /\ forall fp i, by_fp t !! fp = Some i <-> nub (fingerprints seen) !! i = Some fp.

Lemma group_of_snoc fp all x :
  group_of fp (all ++ [x]) = group_of fp all ++ (if bool_decide (fp_of x.2 = fp) then [x] else []).
Proof.
  unfold group_of. rewrite filter_app. f_equal. rewrite filter_cons. case_decide; case_bool_decide; done.
Qed.
Lemma group_of_nil fp all : fp ∉ fingerprints all -> group_of fp all = [].
Proof.
  intros Hn. apply filter_none. intros p Hp Heq. apply Hn. rewrite <- Heq.
  by apply (list_elem_of_fmap_2 (fun p => fp_of p.2)).
Qed.

Lemma reference_entry_other cap all fp order n :
  fp_of n <> fp ->
  reference_entry cap (fun _ => None) (all ++ [(order, n)]) fp = reference_entry cap (fun _ => None) all fp.
Proof.
  intros Hne. unfold reference_entry. rewrite group_of_snoc, bool_decide_false by done. by rewrite app_nil_r.
Qed.
Lemma reference_entry_absorb cap all order n d :
  reference_entry cap (fun _ => None) all (fp_of n) = Some d ->
  reference_entry cap (fun _ => None) (all ++ [(order, n)]) (fp_of n) = Some (absorb cap d n).
Proof.
  unfold reference_entry. rewrite group_of_snoc, bool_decide_true by done.
  destruct (group_of _ all) as [|first g] eqn:Eg; [done|]. simpl. intros [= <-].
  unfold absorb. simpl. do 2 f_equal.
  - change (pn_refs first.2 ++ mjoin ((fun p => pn_refs p.2) <$> g)) with
      (mjoin ((fun p => pn_refs p.2) <$> (first :: g))).
    rewrite merge_refs_nub, fmap_app, join_app. simpl. by rewrite app_nil_r, <- (assoc_L (++)).
  - change (pn_name first.2 :: ((fun p => pn_name p.2) <$> g)) with
      ((fun p => pn_name p.2) <$> (first :: g)).
    rewrite push_alias_nub. by rewrite fmap_app.
Qed.
Lemma reference_entry_new cap all order n :
  1 <= cap -> fp_of n ∉ fingerprints all ->
  reference_entry cap (fun _ => None) (all ++ [(order, n)]) (fp_of n) = Some (new_entry sha256 cap order n).
Proof.
  intros Hcap Hn. unfold reference_entry. rewrite group_of_snoc, bool_decide_true, group_of_nil by done.
  simpl. unfold new_entry. rewrite app_nil_r. pose proof (merge_refs_nub cap [] (pn_refs n)) as Hm.
  change (nub []) with (@nil SourceRef) in Hm. rewrite take_nil, app_nil_l in Hm. rewrite Hm. f_equal. f_equal.
  - rewrite take_ge; [done|]. simpl. lia.
  - destruct (pn_refs n) as [|r refs]; [change (nub []) with (@nil SourceRef); by rewrite take_nil|]. simpl.
    assert (forall rs, head (nub (r :: rs)) = Some r) as Hhead.
    { intros rs. induction rs as [|x rs IH] using rev_ind; [done|].
      change (r :: rs ++ [x]) with ((r :: rs) ++ [x]). rewrite nub_snoc. case_bool_decide; [done|].
      destruct (nub (r :: rs)); [done|]. done. }
    specialize (Hhead refs). destruct (nub (r :: refs)); [done|]. simpl in Hhead.
    destruct (Z.to_nat cap) eqn:E; [lia|]. by simplify_eq/=.
Qed.

(** One step of the loop keeps the table right. *)
Lemma dedupe_node_ok cap order seen t n :
  1 <= cap -> table_ok cap seen t ->
  exists t' is_new, dedupe_node sha256 cap order t n = Some (t', is_new)
    /\ table_ok cap (seen ++ [(order, n)]) t'
    /\ first_source_order <$> table_nodes t'
       = (first_source_order <$> table_nodes t) ++ (if (is_new : bool) then [order] else []).
Proof.
  intros Hcap [Hentries Hindex]. unfold dedupe_node.
  assert (fingerprints (seen ++ [(order, n)]) = fingerprints seen ++ [fp_of n]) as Hfps
    by (unfold fingerprints; by rewrite fmap_app).
  destruct (by_fp t !! fp_of n) as [i|] eqn:Ei.
  - apply Hindex in Ei. destruct (Forall2_lookup_l _ _ _ _ _ Hentries Ei) as (d & Hd & Hdr).
    rewrite Hd. simpl. do 2 eexists. split; [done|].
    assert (fp_of n ∈ nub (fingerprints seen)) as Hin by (by apply list_elem_of_lookup_2 in Ei).
    unfold table_ok. rewrite Hfps, nub_snoc, bool_decide_true by done. simpl. split; [split; [|done]|].
    + apply Forall2_same_length_lookup. rewrite length_insert. split; [by eapply Forall2_length|].
      intros j fp d' Hfp Hd'. destruct (decide (j = i)) as [->|Hj].
      * rewrite list_lookup_insert_eq in Hd' by (by eapply lookup_lt_Some). simplify_eq.
        by apply reference_entry_absorb.
      * rewrite list_lookup_insert_ne in Hd' by done. rewrite reference_entry_other.
        -- exact (Forall2_lookup_lr _ _ _ _ _ _ Hentries Hfp Hd').
        -- intros <-. apply Hj. exact (NoDup_lookup _ _ _ _ (nub_NoDup _) Hfp Ei).
    + rewrite app_nil_r, list_fmap_insert. apply list_insert_id. by rewrite list_lookup_fmap, Hd.
  - assert (fp_of n ∉ fingerprints seen) as Hn.
    { rewrite <- nub_elem_of. intros [j Hj]%list_elem_of_lookup_1. apply Hindex in Hj. congruence. }
    do 2 eexists. split; [done|]. unfold table_ok.
    rewrite Hfps, nub_snoc, bool_decide_false by (by rewrite nub_elem_of). simpl.
    split; [split|by rewrite fmap_app].
    + apply Forall2_app; [|repeat constructor; by apply reference_entry_new].
      apply Forall2_same_length_lookup. split; [by eapply Forall2_length|]. intros j fp d Hfp Hd.
      rewrite reference_entry_other; [exact (Forall2_lookup_lr _ _ _ _ _ _ Hentries Hfp Hd)|]. intros <-. apply Hn. rewrite <- nub_elem_of.
      by eapply list_elem_of_lookup_2.
    + intros fp i. rewrite <- (Forall2_length _ _ _ Hentries). rewrite lookup_insert_Some, lookup_app_Some, list_lookup_singleton_Some.
      rewrite Hindex. split.
      * intros [[<- <-]|[Hne Hi]]; [right|by left]. split; [lia|]. split; [lia|done].
      * intros [Hi|(Hge & Hi & <-)]; [right; split; [|done]|left; split; [done|lia]].
        intros <-. apply Hn. rewrite <- nub_elem_of. by eapply list_elem_of_lookup_2.
Qed.

Definition orders (t : DedupeTable) : list Z := first_source_order <$> table_nodes t.
Definition count (k : Z) (l : list Z) : Z := len (filter (fun x => x = k) l).

Lemma count_app k l1 l2 : count k (l1 ++ l2) = count k l1 + count k l2.
Proof. unfold count, len. rewrite filter_app, length_app. lia. Qed.
Lemma count_zero k l : (forall x, x ∈ l -> x <> k) -> count k l = 0.
Proof. intros H. unfold count. by rewrite filter_none. Qed.
Lemma count_replicate k n : count k (replicate n k) = Z.of_nat n.
Proof.
  unfold count, len. rewrite filter_all; [by rewrite length_replicate|].
  intros x Hx. by apply elem_of_replicate in Hx as [-> _].
Qed.

Lemma dedupe_nodes_ok cap order nodes seen t o :
  1 <= cap -> table_ok cap seen t ->
  exists t' a, dedupe_nodes sha256 cap order t nodes o
      = Some (t', mkOutcome (oc_accepted o + Z.of_nat a) (oc_duplicate o + (len nodes - Z.of_nat a))
                    (oc_rejected o) (oc_warnings o))
    /\ table_ok cap (seen ++ (pair order <$> nodes)) t'
    /\ orders t' = orders t ++ replicate a order.
Proof.
  intros Hcap. revert seen t o. induction nodes as [|n nodes IH]; intros seen t o Ht.
  - exists t, 0%nat. simpl. rewrite !app_nil_r. split; [|done]. destruct o. unfold len. simpl. do 2 f_equal. f_equal; lia.
  - destruct (dedupe_node_ok cap order seen t n Hcap Ht) as (t1 & is_new & E & Ht1 & Ho1).
    fold (orders t1) (orders t) in Ho1. simpl. rewrite E. simpl.
    match goal with |- context [dedupe_nodes _ _ _ _ _ ?o1] => destruct (IH _ t1 o1 Ht1) as (t2 & a & E2 & Ht2 & Ho2) end.
    exists t2, (if is_new then S a else a). rewrite E2. split; [|split].
    + unfold len. destruct is_new; simpl; do 2 f_equal; f_equal; lia.
    + rewrite <- (assoc_L (++)) in Ht2. exact Ht2.
    + rewrite Ho2, Ho1. destruct is_new; by rewrite ?app_nil_r, <- ?(assoc_L (++)).
Qed.

Lemma dedupe_batches_ok cap batches order seen t outcomes :
  1 <= cap -> table_ok cap seen t -> Forall (fun x => x < order) (orders t) -> bt_wf outcomes ->
  exists t' outcomes' later, dedupe_batches sha256 cap order batches t outcomes = Some (t', outcomes')
    /\ table_ok cap (seen ++ positioned order batches) t'
    /\ orders t' = orders t ++ later /\ Forall (fun x => order <= x) later
    /\ (forall id, id ∉ (batch_source_id <$> batches) -> bt_get id outcomes' = bt_get id outcomes)
    /\ (NoDup (batch_source_id <$> batches) -> forall i b, batches !! i = Some b ->
        let a := count (order + Z.of_nat i) later in
        bt_get (batch_source_id b) outcomes'
        = Some (mkOutcome a (len (batch_nodes b) - a) (batch_rejected b) (batch_warnings b))).
Proof.
  intros Hcap. revert order seen t outcomes. induction batches as [|b batches IH]; intros order seen t outcomes Ht Hlt Hwf.
  { exists t, outcomes, []. simpl. rewrite !app_nil_r. split_and!; [done..|constructor|done|done]. }
  simpl. destruct (dedupe_nodes_ok cap order (batch_nodes b) seen t
    (mkOutcome 0 0 (batch_rejected b) (batch_warnings b)) Hcap Ht) as (t1 & a & E1 & Ht1 & Ho1).
  rewrite E1. simpl in *. destruct (IH (order + 1) _ t1 (bt_insert (batch_source_id b)
    (mkOutcome (Z.of_nat a) (len (batch_nodes b) - Z.of_nat a) (batch_rejected b) (batch_warnings b)) outcomes) Ht1)
    as (t2 & outs & later & E2 & Ht2 & Ho2 & Hlater & Hkeep & Hget).
  { rewrite Ho1. apply Forall_app. split; [eapply Forall_impl; [exact Hlt|simpl; lia]|].
    apply Forall_replicate. lia. }
  { by apply bt_insert_wf. }
  exists t2, outs, (replicate a order ++ later). split; [exact E2|]. rewrite <- (assoc_L (++)) in Ht2.
  split; [exact Ht2|]. split; [by rewrite Ho2, Ho1, <- (assoc_L (++))|]. split; [|split].
  - apply Forall_app. split; [apply Forall_replicate; lia|]. eapply Forall_impl; [exact Hlater|simpl; lia].
  - intros id Hid. apply not_elem_of_cons in Hid as [Hne Hid]. rewrite Hkeep by done. rewrite bt_get_insert_ne; [done..|congruence].
  - intros Hnd [|i] b' Hb'; apply NoDup_cons in Hnd as [Hb Hnd]; simpl in Hb'; cbv zeta.
    + injection Hb' as <-. rewrite Hkeep, bt_get_insert_eq by done.
      assert (count (order + Z.of_nat 0) (replicate a order ++ later) = Z.of_nat a) as ->; [|done].
      change (Z.of_nat 0) with 0. rewrite Z.add_0_r, count_app, count_replicate, (count_zero _ later); [lia|].
      intros x Hx. rewrite Forall_forall in Hlater. specialize (Hlater x Hx). simpl in Hlater. lia.
    + rewrite (Hget Hnd i b' Hb'). rewrite count_app, (count_zero _ (replicate _ _)).
      2: { intros x Hx. apply elem_of_replicate in Hx as [-> _]. lia. }
      assert (order + 1 + Z.of_nat i = order + Z.of_nat (S i)) as -> by lia. by rewrite Z.add_0_l.
Qed.

(** The counts of the outcomes, summed over the sources. *)
Lemma dedupe_nodes_counts cap order nodes t o t' o' :
  dedupe_nodes sha256 cap order t nodes o = Some (t', o') ->
  oc_accepted o' - oc_accepted o = len (table_nodes t') - len (table_nodes t)
  /\ oc_accepted o' + oc_duplicate o' = oc_accepted o + oc_duplicate o + len nodes
  /\ oc_rejected o' = oc_rejected o.
Proof.
  revert t o. induction nodes as [|n nodes IH]; intros t o E; simpl in E.
  { simplify_eq. unfold len. simpl. lia. }
  unfold dedupe_node in E. destruct (by_fp t !! fp_of n) as [i|]; simpl in E.
  - destruct (table_nodes t !! i) as [d|]; simpl in E; [|done]. apply IH in E as (H1 & H2 & H3).
    simpl in *. unfold len in *. rewrite length_insert in H1. simpl. lia.
  - apply IH in E as (H1 & H2 & H3). simpl in *. unfold len in *. rewrite length_app in H1. simpl in *. lia.
Qed.
Definition total (f : SourceOutcome -> Z) (outcomes : BTreeMap SourceId SourceOutcome) : Z :=
  sumZ (f <$> bt_values outcomes).
Lemma dedupe_batches_sums cap batches order t outcomes t' outcomes' :
  NoDup (batch_source_id <$> batches) -> bt_wf outcomes ->
  (forall b, b ∈ batches -> bt_get (batch_source_id b) outcomes = None) ->
  dedupe_batches sha256 cap order batches t outcomes = Some (t', outcomes') ->
  total oc_accepted outcomes' - total oc_accepted outcomes = len (table_nodes t') - len (table_nodes t)
  /\ total oc_accepted outcomes' + total oc_duplicate outcomes'
     = total oc_accepted outcomes + total oc_duplicate outcomes
       + sumZ ((fun b => len (batch_nodes b)) <$> batches)
  /\ total oc_rejected outcomes' = total oc_rejected outcomes + sumZ (batch_rejected <$> batches).
Proof.
  revert order t outcomes. induction batches as [|b batches IH]; intros order t outcomes Hnd Hwf Hfresh E; simpl in E.
  { simplify_eq. simpl. lia. }
  destruct (dedupe_nodes _ _ _ _ _ _) as [[t1 o]|] eqn:E1; simpl in E; [|done].
  apply dedupe_nodes_counts in E1 as (H1 & H2 & H3). simpl in H1, H2, H3.
  rewrite fmap_cons in Hnd. apply NoDup_cons in Hnd as [Hb Hnd].
  assert (bt_get (batch_source_id b) outcomes = None) as Hnone by (apply Hfresh; by left).
  assert (forall f, total f (bt_insert (batch_source_id b) o outcomes) = total f outcomes + f o) as Htot.
  { intros f. unfold total. rewrite bt_insert_sum by done. rewrite Hnone. simpl. lia. }
  apply IH in E as (F1 & F2 & F3); [|done|by apply bt_insert_wf|].
  - rewrite !Htot in *. rewrite !fmap_cons. unfold sumZ in *. simpl. lia.
  - intros b' Hb'. rewrite bt_get_insert_ne; [apply Hfresh; by right|done|].
    intros Heq. apply Hb. rewrite <- Heq. by apply list_elem_of_fmap_2.
Qed.

Lemma reference_entry_territory cap all fp :
  reference_entry cap infer_display_territory all fp
  = with_territory infer_display_territory <$> reference_entry cap (fun _ => None) all fp.
Proof. unfold reference_entry. by destruct (head _). Qed.

Lemma empty_table_ok cap : table_ok cap [] (mkTable ∅ []).
Proof. split; [constructor|]. intros fp i. split; intros Hx; [by simpl in Hx; rewrite lookup_empty in Hx|done]. Qed.
Lemma dedupe_total batches limits :
  1 <= max_source_refs limits ->
  exists nodes outcomes, dedupe_sources sha256 infer_display_territory batches limits = Some (nodes, outcomes).
Proof.
  intros Hcap. unfold dedupe_sources.
  destruct (dedupe_batches_ok _ batches 0 [] (mkTable ∅ []) [] Hcap (empty_table_ok _)) as (t & outs & _ & E & _);
    [constructor|apply bt_wf_nil|]. rewrite E. simpl. eauto.
Qed.

(** C39: Merging the sources never fails, and what it returns is exactly one entry
    for each distinct fingerprint: the first node that has it, with the position of
    its source, and the first references and names, at most the configured number of
    each, of all the nodes that share it; the entries are ordered by source, item and
    identifier. *)
Theorem dedupe_exact batches limits :
  1 <= max_source_refs limits ->
  let all := positioned 0 batches in
  exists nodes outcomes,
    dedupe_sources sha256 infer_display_territory batches limits = Some (nodes, outcomes)
    /\ Some <$> nodes ≡ₚ reference_entry (max_source_refs limits) infer_display_territory all
                         <$> nub (fingerprints all)
    /\ StronglySorted ord_le (sort_key <$> nodes).
Proof.
  intros Hcap all. unfold dedupe_sources.
  destruct (dedupe_batches_ok (max_source_refs limits) batches 0 [] (mkTable ∅ []) [] Hcap (empty_table_ok _))
    as (t & outs & _ & E & [Hentries _] & _); [constructor|apply bt_wf_nil|].
  rewrite E. simpl. do 2 eexists. split; [done|]. split; [|apply stable_sort_sorted].
  rewrite stable_sort_Permutation. rewrite app_nil_l in Hentries. fold all in Hentries.
  enough (Some <$> (with_territory infer_display_territory <$> table_nodes t) = reference_entry
    (max_source_refs limits) infer_display_territory all <$> nub (fingerprints all)) as -> by done.
  induction Hentries as [|fp d fps ds Hd _ IH]; [done|]. rewrite !fmap_cons, IH. f_equal.
  by rewrite reference_entry_territory, Hd.
Qed.

(** When the sources have distinct identifiers, the outcome of each accounts for
    all of its nodes: the accepted ones are the entries whose first node came from it,
    the others are duplicates, and the rejections and warnings are those of the
    batch. *)
Theorem dedupe_accounts batches limits nodes outcomes i b :
  1 <= max_source_refs limits ->
  NoDup (batch_source_id <$> batches) ->
  dedupe_sources sha256 infer_display_territory batches limits = Some (nodes, outcomes) ->
  batches !! i = Some b ->
  let accepted := len (filter (fun d => first_source_order d = Z.of_nat i) nodes) in
  bt_get (batch_source_id b) outcomes
  = Some (mkOutcome accepted (len (batch_nodes b) - accepted) (batch_rejected b) (batch_warnings b)).
Proof.
  intros Hcap Hnd Hrun Hb. unfold dedupe_sources in Hrun.
  destruct (dedupe_batches_ok (max_source_refs limits) batches 0 [] (mkTable ∅ []) [] Hcap (empty_table_ok _))
    as (t & outs & later & E & _ & Horders & _ & _ & Hget); [constructor|apply bt_wf_nil|].
  rewrite E in Hrun. simpl in Hrun. injection Hrun as <- <-. rewrite (Hget Hnd i b Hb).
  unfold orders in Horders. simpl in Horders. rewrite <- Horders.
  enough (count (0 + Z.of_nat i) (first_source_order <$> table_nodes t) = len (filter (fun d =>
    first_source_order d = Z.of_nat i) (stable_sort_by_key sort_key
    (with_territory infer_display_territory <$> table_nodes t)))) as -> by done.
  unfold count, len. rewrite stable_sort_Permutation, Z.add_0_l. f_equal.
  clear. induction (table_nodes t) as [|d ds IH]; [done|]. rewrite !fmap_cons.
  destruct (decide (first_source_order d = Z.of_nat i)).
  - rewrite !filter_cons_True by done. simpl. by rewrite IH.
  - by rewrite !filter_cons_False by done.
Qed.

Lemma dedupe_sources_sums batches limits nodes outcomes :
  NoDup (batch_source_id <$> batches) ->
  dedupe_sources sha256 infer_display_territory batches limits = Some (nodes, outcomes) ->
  total oc_accepted outcomes = len nodes
  /\ len nodes + total oc_duplicate outcomes = sumZ ((fun b => len (batch_nodes b)) <$> batches)
  /\ total oc_rejected outcomes = sumZ (batch_rejected <$> batches).
Proof.
  intros Hnd E. unfold dedupe_sources in E. destruct (dedupe_batches _ _ _ _ _ _) as [[t outs]|] eqn:Eb; [|done].
  simpl in E. simplify_eq.
  apply dedupe_batches_sums in Eb as (H1 & H2 & H3); [|done|apply bt_wf_nil|done].
  unfold total in *. unfold len in *. rewrite (Permutation_length (stable_sort_Permutation _ _)), length_fmap.
  simpl in *. lia.
Qed.
End reference.

(** Two sources: the second repeats a node of the first under another name. *)
Definition demo_node (name server : string) (refs : list SourceRef) : ProxyNode :=
  mkProxyNode "trojan-443"
    (mkNode name Trojan (mkEndpoint server 443) (CTrojan "secret")
       (mkTls true None false [] None None None) TTcp OTrojan (mkCapabilities true false false false true) refs).
Definition demo_ref (source : string) (item : Z) : SourceRef := mkSourceRef source item FUriList None.
Definition demo_batches : list SourceBatch :=
  [mkBatch "a" [demo_node "x" "h1" [demo_ref "a" 0]; demo_node "y" "h2" [demo_ref "a" 1]] 1 0;
   mkBatch "b" [demo_node "z" "h1" [demo_ref "b" 0]; demo_node "w" "h3" [demo_ref "b" 1]] 0 2].
Definition demo_limits : ParserLimits := default (mkLimits 0 0 0 0 0 0 0 0 0 0 0 0) ParserLimits_default.

Lemma dedupe_exact_witness :
  exists nodes outcomes,
    dedupe_sources id (fun _ => None) demo_batches demo_limits = Some (nodes, outcomes)
    /\ dd_aliases <$> nodes = [["x"; "z"]; ["y"]; ["w"]]
    /\ exists nodes' outcomes', dedupe_sources id (fun _ => None) demo_batches demo_limits = Some (nodes', outcomes')
      /\ StronglySorted ord_le (sort_key <$> nodes').
Proof.
  do 2 eexists. split; [vm_compute; reflexivity|]. split; [reflexivity|].
  destruct (dedupe_exact id (fun _ => None) demo_batches demo_limits) as (ns & os & E & _ & Hs);
    [vm_compute; congruence|]. eauto.
Defined.

Definition demo_result : list DedupedNode * BTreeMap SourceId SourceOutcome :=
  default ([], []) (dedupe_sources id (fun _ => None) demo_batches demo_limits).
Lemma dedupe_accounts_witness :
  dedupe_sources id (fun _ => None) demo_batches demo_limits = Some demo_result
  /\ bt_get "b" demo_result.2 = Some (mkOutcome 1 1 0 2).
Proof.
  split; [vm_compute; reflexivity|].
  pose proof (dedupe_accounts id (fun _ => None) demo_batches demo_limits demo_result.1 demo_result.2 1
    (mkBatch "b" [demo_node "z" "h1" [demo_ref "b" 0]; demo_node "w" "h3" [demo_ref "b" 1]] 0 2)
    ltac:(vm_compute; congruence) ltac:(apply (bool_decide_unpack _); vm_compute; exact I)
    ltac:(vm_compute; reflexivity) eq_refl) as H.
  vm_compute in H |- *. exact H.
Defined.
