(* ===== verification/Pipeline.v ===== *)
(** * Pipeline: from the bytes of the sources to the nodes and the report

    Models the rest of crates/nethop-subscription/src/pipeline.rs: the node filter,
    the dispatch of a source to the adapter of its format, the conversion of several
    sources and its report.  The URI adapter is [Semantic.uri_output]; the other
    adapters (Clash YAML, sing-box JSON, Surfboard profile) are the operations of a
    class, and the theorems hold for all of them.  The clock ([elapsed_micros]) is left out and [outbounds_json] is the value
    that is serialized. *)

From S2P Require Import Prelude Text Ordering BTreeMap Json Source Detect Base64 ProxyNode Fingerprint Diagnostics Uri Semantic Dedupe.

Local Open Scope Z_scope.

(** ** The node filter *)
Definition MAX_FILTER_RULES : Z := 32.
Definition MAX_FILTER_PATTERN_BYTES : Z := 128.
Inductive NodeFilterError : Type := InvalidRule | DuplicateRule.

#[export] Program Instance ProxyProtocol_Ord : Ord ProxyProtocol :=
  {| cmp := fun a b => Z.compare (protocol_code a) (protocol_code b) |}.
Next Obligation. intros a b. simpl. rewrite Z.compare_eq_iff. split; [by destruct a, b|by intros ->]. Qed.
Next Obligation. intros. apply Z.compare_antisym. Qed.
Next Obligation. intros a b c. simpl. rewrite !Z.compare_lt_iff. lia. Qed.

(** [windows(2).any(|pair| pair\[0\] == pair\[1\])] *)
Fixpoint repeats {A} `{EqDecision A} (l : list A) : bool :=
  match l with
  | x :: rest => match rest with y :: _ => bool_decide (x = y) || repeats rest | [] => false end
  | [] => false
  end.
Definition pattern_invalid (pattern : string) : bool :=
  (str_len pattern =? 0) || (MAX_FILTER_PATTERN_BYTES <? str_len pattern) || has_control (bytes pattern).
Definition NodeFilter_new (include_names exclude_names : list string) (protocols : list ProxyProtocol) :
    Result NodeFilterError NodeFilter :=
  if (MAX_FILTER_RULES <? len include_names + len exclude_names)
     || existsb pattern_invalid (include_names ++ exclude_names)
     || (9 <? len protocols)
  then Err InvalidRule
  else
    let include_names := sort include_names in
    let exclude_names := sort exclude_names in
    let protocols := sort protocols in
    if repeats include_names || repeats exclude_names || repeats protocols then Err DuplicateRule
    else Ok (mkFilter include_names exclude_names [] protocols).

Definition node_id_invalid (id : string) : bool :=
  negb (str_len id =? 21) || negb (starts_with "nh1s-" id)
  || negb (forallb (fun b => is_ascii_digit b || in_range 97 102 b) (drop 5 (bytes id))).
Definition NodeFilter_new_with_node_ids (include_names exclude_names excluded_node_ids : list string)
    (protocols : list ProxyProtocol) : Result NodeFilterError NodeFilter :=
  filter ← NodeFilter_new include_names exclude_names protocols;
  if (MAX_FILTER_RULES <? len excluded_node_ids) || existsb node_id_invalid excluded_node_ids
  then Err InvalidRule
  else
    let excluded_node_ids := sort excluded_node_ids in
    if repeats excluded_node_ids then Err DuplicateRule
    else Ok (mkFilter (Source.include_names filter) (Source.exclude_names filter) excluded_node_ids
               (Source.protocols filter)).

Definition eq_ignore_ascii_case (a b : Z) : bool := to_ascii_lowercase a =? to_ascii_lowercase b.
Definition contains_ascii_case_insensitive (haystack needle : list Z) : bool :=
  negb (len needle =? 0) && (len needle <=? len haystack)
  && existsb (fun window => forallb (fun p => eq_ignore_ascii_case p.1 p.2) (zip window needle))
       (windows (length needle) haystack).

Section filter.
Context (sha256 : list Z -> list Z).
Definition filter_accepts (f : NodeFilter) (n : ProxyNode) : bool :=
  let name := bytes (pn_name n) in
  let node_id := display_id (pn_fingerprint sha256 n) in
  ((len (protocols f) =? 0) || bool_decide (is_Some (binary_search (protocols f) (un_protocol (pn_inner n)))))
  && ((len (include_names f) =? 0)
      || existsb (fun p => contains_ascii_case_insensitive name (bytes p)) (include_names f))
  && negb (existsb (fun p => contains_ascii_case_insensitive name (bytes p)) (exclude_names f))
  && negb (bool_decide (is_Some (binary_search (excluded_node_ids f) node_id))).
End filter.

(** ** Reports *)
Inductive CompactStatus : Type := Accepted | Rejected | Duplicate | Warning.
#[export] Instance CompactStatus_eq_dec : EqDecision CompactStatus.
Proof. solve_decision. Defined.
Record CompactItemReport : Type := mkItem {
  item_index : Z;
  item_status : CompactStatus;
  item_protocol : option ProxyProtocol;
  item_node_id : option string;
  item_codes : list DiagnosticCode;
}.
Record ConversionSummary : Type := mkSummary {
  sum_format : FormatHint;
  sum_accepted : Z;
  sum_rejected : Z;
  sum_duplicate : Z;
  sum_warnings : Z;
  source_success : bool;
  truncated : bool;
}.
Definition summary_default : ConversionSummary := mkSummary FAuto 0 0 0 0 false false.
Record ConversionReport : Type := mkReport {
  summary : ConversionSummary;
  report_items : list CompactItemReport;
  report_diagnostics : list NodeDiagnostic;
  diagnostic_counts : BTreeMap DiagnosticCode Z;
}.

Definition set_truncated (s : ConversionSummary) : ConversionSummary :=
  mkSummary (sum_format s) (sum_accepted s) (sum_rejected s) (sum_duplicate s) (sum_warnings s)
    (source_success s) true.
Definition add_warning (r : ConversionReport) : ConversionReport :=
  let s := summary r in
  mkReport (mkSummary (sum_format s) (sum_accepted s) (sum_rejected s) (sum_duplicate s)
              (sum_warnings s + 1) (source_success s) (truncated s))
    (report_items r) (report_diagnostics r) (diagnostic_counts r).
Definition push_item (r : ConversionReport) (i : CompactItemReport) : ConversionReport :=
  mkReport (summary r) (report_items r ++ [i]) (report_diagnostics r) (diagnostic_counts r).
Definition push_diagnostic (limits : ParserLimits) (r : ConversionReport) (d : NodeDiagnostic) :
    ConversionReport :=
  let counts := bt_insert (dg_code d) (default 0 (bt_get (dg_code d) (diagnostic_counts r)) + 1)
                  (diagnostic_counts r) in
  if len (report_diagnostics r) <? max_detailed_diagnostics limits
  then mkReport (summary r) (report_items r) (report_diagnostics r ++ [d]) counts
  else mkReport (set_truncated (summary r)) (report_items r) (report_diagnostics r) counts.

(** [ConversionReport::bounded_json]: [to_string] is the JSON serializer; [None] is a
    loop that has not ended within its fuel. *)
Fixpoint bounded_json (to_string : ConversionReport -> string) (fuel : nat) (copy : ConversionReport)
    (limits : ParserLimits) : option string :=
  match fuel with
  | O => None
  | S fuel =>
      let json := to_string copy in
      if (str_len json <=? max_report_bytes limits) || (len (report_diagnostics copy) =? 0) then Some json
      else
        bounded_json to_string fuel
          (mkReport (set_truncated (summary copy)) (report_items copy)
             (take (length (report_diagnostics copy) / 2) (report_diagnostics copy))
             (diagnostic_counts copy)) limits
  end.

(** ** The adapters

    The operations are those of one capability matrix. *)
Class SourceAdapters : Type := {
  parse_clash_yaml : list Z -> SourceId -> ParserLimits -> Result DiagnosticCode AdapterOutput;
  parse_singbox_json : list Z -> SourceId -> ParserLimits -> Result DiagnosticCode AdapterOutput;
  parse_surfboard_ini : list Z -> SourceId -> ParserLimits -> Result DiagnosticCode AdapterOutput;
}.
(** Every result an adapter builds is an accepted node or a rejection. *)
Definition result_wf (r : AdapterNodeResult) : Prop :=
  (exists i n w, r = result_accepted i n w) \/ (exists i d, r = result_rejected i d).
Class SourceAdaptersLaws `{SourceAdapters} : Prop := {
  clash_wf : forall bs id l o, parse_clash_yaml bs id l = Ok o -> Forall result_wf (out_nodes o);
  singbox_wf : forall bs id l o, parse_singbox_json bs id l = Ok o -> Forall result_wf (out_nodes o);
  surfboard_wf : forall bs id l o, parse_surfboard_ini bs id l = Ok o -> Forall result_wf (out_nodes o);
}.

Record SourceInput : Type := mkInput {
  in_source_id : SourceId;
  in_format_hint : FormatHint;
  in_bytes : list Z;
}.
Record FilteredSourceInput : Type := mkFiltered { fi_source : SourceInput; fi_filter : NodeFilter }.
Record StableConversion : Type := mkConversion {
  conv_nodes : list DedupedNode;
  conv_outbounds : Json;
  conv_report : ConversionReport;
  conv_outcomes : BTreeMap SourceId SourceOutcome;
}.

Definition source_error (code : DiagnosticCode) : AdapterOutput :=
  mkOutput [] [NodeDiagnostic_new code SevError].
Definition or_source_error (r : Result DiagnosticCode AdapterOutput) : AdapterOutput :=
  match r with Ok o => o | Err code => source_error code end.

Section pipeline.
Context `{!Base64Engine} `{!SourceAdapters}.
Context (uuid_parse_str : string -> option (list Z)) (uuid_hyphenated : list Z -> string).
Context (json_from_slice : list Z -> option Json) (matrix : list CapabilityEntry).
Context (json_valid : list Z -> bool).
Context (sha256 : list Z -> list Z) (infer_display_territory : list string -> option string).

(** [None] is a recursion that has not ended within its fuel. *)
Fixpoint parse_source (fuel : nat) (input : SourceInput) (limits : ParserLimits) : option AdapterOutput :=
  match fuel with
  | O => None
  | S fuel =>
      let id := in_source_id input in
      let bs := in_bytes input in
      match in_format_hint input with
      | FAuto =>
          detected ← detect_bytes json_valid bs FAuto limits;
          match detected with
          | Ok d => parse_source fuel (mkInput id (det_format d) bs) limits
          | Err error => Some (source_error (detection_code error))
          end
      | FUriList => uri_output uuid_parse_str uuid_hyphenated json_from_slice bs (Some id) limits matrix
      | FBase64List =>
          decoded ← decode_base64_and_detect json_valid bs limits;
          match decoded with
          | Ok d => parse_source fuel (mkInput id (Base64.detected_format d) (decoded_bytes d)) limits
          | Err error => Some (source_error (base64_code error))
          end
      | FClashYaml => Some (or_source_error (parse_clash_yaml bs id limits))
      | FSingboxJson => Some (or_source_error (parse_singbox_json bs id limits))
      | FIniProfile | FSurfboardIni => Some (or_source_error (parse_surfboard_ini bs id limits))
      end
  end.

(** The body of the loop over the items of one source: the report, the nodes kept and
    the rejections so far. *)
Definition warn (limits : ParserLimits) (r : ConversionReport) (d : NodeDiagnostic) : ConversionReport :=
  push_diagnostic limits (add_warning r) d.
Definition convert_item (limits : ParserLimits) (f : NodeFilter)
    (st : ConversionReport * list ProxyNode * Z) (item : AdapterNodeResult) :
    ConversionReport * list ProxyNode * Z :=
  let '(report, nodes, rejected) := st in
  match ar_node item with
  | Some node =>
      if negb (filter_accepts sha256 f node) then
        (push_item report (mkItem (ar_item_index item) Rejected (Some (un_protocol (pn_inner node))) None
                             [DcNodeFilteredOut]), nodes, rejected + 1)
      else
        let warnings := take (Z.to_nat (max_warnings_per_node limits)) (ar_warnings item) in
        let report := push_item report (mkItem (ar_item_index item) Accepted
                        (Some (un_protocol (pn_inner node)))
                        (Some (display_id (pn_fingerprint sha256 node))) (dg_code <$> warnings)) in
        (foldl (warn limits) report warnings, nodes ++ [node], rejected)
  | None =>
      match ar_diagnostic item with
      | Some d =>
          (push_diagnostic limits
             (push_item report (mkItem (ar_item_index item) Rejected (dg_protocol d) None [dg_code d])) d,
           nodes, rejected)
      | None => st
      end
  end.

Definition convert_source (limits : ParserLimits) (report : ConversionReport) (input : FilteredSourceInput)
    (output : AdapterOutput) : ConversionReport * SourceBatch :=
  let '(report, nodes, rejected) :=
    foldl (convert_item limits (fi_filter input)) (report, [], rejected_count output) (out_nodes output) in
  let report := foldl (warn limits) report (out_diagnostics output) in
  let report :=
    if (0 <? accepted_count output) && (len nodes =? 0)
    then push_diagnostic limits report (NodeDiagnostic_new DcSourceFilteredEmpty SevError)
    else report in
  (report, mkBatch (in_source_id (fi_source input)) nodes rejected (len (out_diagnostics output))).

(** The depth of [parse_source]: automatic, then Base64, then a final format. *)
Definition PARSE_DEPTH : nat := 3.

Fixpoint convert_loop (inputs : list FilteredSourceInput) (limits : ParserLimits)
    (report : ConversionReport) (batches : list SourceBatch) (detected : FormatHint) :
    option (ConversionReport * list SourceBatch * FormatHint) :=
  match inputs with
  | [] => Some (report, batches, detected)
  | input :: rest =>
      output ← parse_source PARSE_DEPTH (fi_source input) limits;
      let '(report, batch) := convert_source limits report input output in
      convert_loop rest limits report (batches ++ [batch]) (in_format_hint (fi_source input))
  end.

Definition empty_report : ConversionReport := mkReport summary_default [] [] [].

Definition convert_sources (inputs : list FilteredSourceInput) (limits : ParserLimits) :
    option StableConversion :=
  '(report, batches, detected) ← convert_loop inputs limits empty_report [] FAuto;
  '(nodes, outcomes) ← dedupe_sources sha256 infer_display_territory batches limits;
  let duplicate_count := sumZ (oc_duplicate <$> bt_values outcomes) in
  let s := mkSummary detected (len nodes) (sumZ (oc_rejected <$> bt_values outcomes)) duplicate_count
             (sum_warnings (summary report)) (0 <? len nodes + duplicate_count) (truncated (summary report)) in
  Some (mkConversion nodes
          (JArray ((fun d => compose_outbound (dd_node_id d) (pn_inner (dd_node d))) <$> nodes))
          (mkReport s (report_items report) (report_diagnostics report) (diagnostic_counts report))
          outcomes).

Definition convert_stable_sources (inputs : list SourceInput) (limits : ParserLimits) : option StableConversion :=
  convert_sources ((fun source => mkFiltered source (mkFilter [] [] [] [])) <$> inputs) limits.

(** [report_from_adapter]: the report of a single source. *)
Definition adapter_item (limits : ParserLimits) (report : ConversionReport) (result : AdapterNodeResult) :
    ConversionReport :=
  let report :=
    match ar_node result, ar_diagnostic result with
    | Some node, _ =>
        push_item report (mkItem (ar_item_index result) Accepted (Some (un_protocol (pn_inner node)))
                            (Some (display_id (pn_fingerprint sha256 node))) (dg_code <$> ar_warnings result))
    | None, Some d =>
        push_item (push_diagnostic limits report d)
          (mkItem (ar_item_index result) Rejected (dg_protocol d) None [dg_code d])
    | None, None => report
    end in
  foldl (push_diagnostic limits) report (take (Z.to_nat (max_warnings_per_node limits)) (ar_warnings result)).
Definition report_from_adapter (format : FormatHint) (output : AdapterOutput) (deduped : list DedupedNode)
    (duplicate_count : Z) (limits : ParserLimits) : ConversionReport :=
  let accepted := len deduped in
  let warnings := len (out_diagnostics output) + sumZ ((fun r => len (ar_warnings r)) <$> out_nodes output) in
  let report := mkReport (mkSummary format accepted (rejected_count output) duplicate_count warnings
                            (0 <? accepted + duplicate_count) false) [] [] [] in
  foldl (push_diagnostic limits) (foldl (adapter_item limits) report (out_nodes output))
    (out_diagnostics output).
End pipeline.

(** ** The filter keeps what it should *)
Lemma repeats_sorted {K} `{!Ord K, !EqDecision K} (l : list K) :
  StronglySorted ord_le l -> repeats l = false -> StronglySorted ord_lt l.
Proof.
  induction l as [|x l IH]; intros Hs Hr; [constructor|]. apply StronglySorted_inv in Hs as [Hs Hx].
  destruct l as [|y l]; [repeat constructor|]. simpl in Hr. apply orb_false_iff in Hr as [Hxy Hr].
  apply bool_decide_eq_false in Hxy. specialize (IH Hs Hr). constructor; [done|].
  apply Forall_cons in Hx as [Hle _]. apply ord_le_cases in Hle as [Hlt|?]; [|done].
  apply StronglySorted_inv in IH as [_ Hy]. constructor; [done|].
  eapply Forall_impl; [exact Hy|]. intros z Hz. by transitivity y.
Qed.

(** [occurs haystack needle]: the needle is found in the haystack but for the case of
    ASCII letters. *)
Definition occurs (haystack needle : list Z) : Prop :=
  exists pre mid post, haystack = pre ++ mid ++ post
    /\ to_ascii_lowercase <$> mid = to_ascii_lowercase <$> needle.

Lemma zip_eq_ignore_case (mid needle : list Z) :
  length mid = length needle ->
  forallb (fun p => eq_ignore_ascii_case p.1 p.2) (zip mid needle) = true
  <-> to_ascii_lowercase <$> mid = to_ascii_lowercase <$> needle.
Proof.
  revert needle. induction mid as [|a mid IH]; intros [|b needle] Hl; try discriminate Hl; [done|].
  simpl in Hl. rewrite !fmap_cons. cbn [zip zip_with forallb fst snd]. rewrite andb_true_iff, IH by lia. unfold eq_ignore_ascii_case. rewrite Z.eqb_eq.
  split; [intros [Hab Ht]; by rewrite Hab, Ht|]. intros Heq. by simplify_eq.
Qed.
Lemma contains_spec haystack needle :
  needle <> [] -> contains_ascii_case_insensitive haystack needle = true <-> occurs haystack needle.
Proof.
  intros Hne. assert (0 < length needle)%nat as Hpos by (destruct needle; simpl; [done|lia]).
  unfold contains_ascii_case_insensitive, len. rewrite !andb_true_iff, negb_true_iff, Z.eqb_neq, Z.leb_le.
  rewrite existsb_exists. split.
  - intros [_ (w & Hw & Hf)]. apply list_elem_of_In, windows_elem_of in Hw as (pre & post & -> & Hl); [|done].
    exists pre, w, post. split; [done|]. by apply zip_eq_ignore_case.
  - intros (pre & mid & post & -> & Heq). pose proof (f_equal length Heq) as Hl. rewrite !length_fmap in Hl.
    split; [rewrite !length_app; lia|]. exists mid. split; [|by apply zip_eq_ignore_case].
    apply list_elem_of_In, windows_elem_of; [done|]. by exists pre, post.
Qed.

Lemma filter_new_facts inc exc ids protos f :
  NodeFilter_new_with_node_ids inc exc ids protos = Ok f ->
  f = mkFilter (sort inc) (sort exc) (sort ids) (sort protos)
  /\ StronglySorted ord_lt (sort ids) /\ StronglySorted ord_lt (sort protos)
  /\ forall p, p ∈ inc ++ exc -> bytes p <> [].
Proof.
  unfold NodeFilter_new_with_node_ids, NodeFilter_new, mbind, Result_bind.
  destruct (_ || existsb pattern_invalid _ || _) eqn:Hv; [done|].
  cbv zeta. destruct (repeats (sort inc) || repeats (sort exc) || repeats (sort protos)) eqn:Hr; [done|].
  cbv beta iota zeta. cbn [Source.include_names Source.exclude_names Source.protocols].
  split_if Hi; [done|]. split_if Hri; [done|]. intros [= <-].
  apply orb_false_iff in Hr as [_ Hr]. apply orb_false_iff in Hv as [[_ Hv]%orb_false_iff _].
  split; [done|]. split; [|split]; [by apply repeats_sorted; [apply sort_StronglySorted|]..|].
  intros p Hp Hnil. enough (existsb pattern_invalid (inc ++ exc) = true) by congruence.
  apply existsb_exists. exists p. split; [by apply list_elem_of_In|]. unfold pattern_invalid.
  by rewrite <- bytes_length, Hnil.
Qed.

Lemma sort_nil_len {K} `{!Ord K} (l : list K) : len (sort l) =? 0 = true <-> l = [].
Proof.
  unfold len. rewrite Z.eqb_eq. pose proof (sort_Permutation l) as Hp.
  rewrite (Permutation_length Hp). split; [|by intros ->]. intros Hl. by destruct l.
Qed.
Lemma sort_exists (g : string -> bool) l :
  existsb g (sort l) = true <-> exists p, p ∈ l /\ g p = true.
Proof.
  rewrite existsb_exists. pose proof (sort_Permutation l) as Hp.
  split; intros (p & Hin & Hg); exists p; (split; [|done]).
  - rewrite <- Hp. by apply list_elem_of_In.
  - apply list_elem_of_In. by rewrite Hp.
Qed.
Lemma sort_search {K} `{!Ord K} (l : list K) x :
  StronglySorted ord_lt (sort l) -> is_Some (binary_search (sort l) x) <-> x ∈ l.
Proof. intros Hs. by rewrite binary_search_strict, (sort_Permutation l). Qed.

(** A filter that was accepted keeps exactly the nodes it describes: those of a
    listed protocol, whose name contains one of the included patterns and none of the
    excluded ones (the case of ASCII letters apart), and whose identifier is not
    excluded; an empty list of protocols or of included patterns allows all. *)
Theorem node_filter_exact sha256 inc exc ids protos f n :
  NodeFilter_new_with_node_ids inc exc ids protos = Ok f ->
  filter_accepts sha256 f n = true <->
    (protos = [] \/ un_protocol (pn_inner n) ∈ protos)
    /\ (inc = [] \/ exists p, p ∈ inc /\ occurs (bytes (pn_name n)) (bytes p))
    /\ (forall p, p ∈ exc -> ~ occurs (bytes (pn_name n)) (bytes p))
    /\ display_id (pn_fingerprint sha256 n) ∉ ids.
Proof.
  intros (-> & Hids & Hprotos & Hne)%filter_new_facts. unfold filter_accepts. simpl.
  rewrite !andb_true_iff, !orb_true_iff, !negb_true_iff, !sort_nil_len, bool_decide_eq_true,
    bool_decide_eq_false, !sort_search by done.
  rewrite <- not_true_iff_false, !sort_exists.
  assert (forall p, p ∈ inc ++ exc -> contains_ascii_case_insensitive (bytes (pn_name n)) (bytes p) = true
    <-> occurs (bytes (pn_name n)) (bytes p)) as Hc by (intros p Hp; by apply contains_spec, Hne).
  setoid_rewrite elem_of_app in Hc. split.
  - intros [[[Hp Hi] Hx] Hid]. split; [done|]. split; [|split; [|done]].
    + destruct Hi as [?|(p & Hp' & Hg)]; [by left|right]. exists p. rewrite <- Hc by auto. done.
    + intros p Hp' Ho. apply Hx. exists p. rewrite Hc by auto. done.
  - intros (Hp & Hi & Hx & Hid). split_and!; try done.
    + destruct Hi as [?|(p & Hp' & Hg)]; [by left|right]. exists p. rewrite Hc by auto. done.
    + intros (p & Hp' & Hg). apply (Hx p Hp'). rewrite <- Hc by auto. done.
Qed.

(** ** Parsing a source ends, and unwraps one layer of Base64 at most *)
Definition is_final (f : FormatHint) : bool :=
  match f with FAuto | FBase64List => false | _ => true end.
Definition detectable (f : FormatHint) : bool := is_final f || bool_decide (f = FBase64List).

Lemma choose_evidence_format ev d :
  choose_evidence ev FAuto = Ok d -> exists c, c ∈ ev /\ det_format d = ev_format c.
Proof.
  unfold choose_evidence. rewrite bool_decide_true by done. cbv zeta. cbn [negb].
  destruct (ev_format <$> filter _ ev) as [|f [|? ?]] eqn:Ef; [|intros [= <-]|done].
  - destruct ev as [|c [|? ?]]; [done| |done]. intros [= <-]. exists c. split; [by left|done].
  - assert (f ∈ ev_format <$> filter (fun c => ev_strength c = Strong) ev) as Hf by (rewrite Ef; by left).
    apply list_elem_of_fmap in Hf as (c & -> & Hc). apply list_elem_of_filter in Hc as [_ Hc]. by exists c.
Qed.
Lemma detect_format json_valid bs limits d :
  detect_bytes json_valid bs FAuto limits = Some (Ok d) -> detectable (det_format d) = true.
Proof.
  unfold detect_bytes. destruct (normalize_bytes bs limits) as [p|e]; [|done].
  unfold detect_normalized. destruct (len (norm_text p) =? 0); [done|].
  destruct (head (norm_text p)) as [first|]; [|done]. simpl.
  assert (forall ev, (forall c, c ∈ ev -> detectable (ev_format c) = true) ->
    after_json p FAuto ev = Ok d -> detectable (det_format d) = true) as Hafter.
  { intros ev Hev. unfold after_json. destruct (yaml_evidence p) as [ys yv].
    destruct (ys && negb yv); [done|]. intros (c & Hc & ->)%choose_evidence_format.
    destruct (base64_evidence _) as [det|], (has_uri_evidence p), ys;
      repeat (apply elem_of_app in Hc as [Hc|Hc]; [|apply list_elem_of_singleton in Hc as ->; done]); by apply Hev. }
  destruct (_ && _).
  - destruct (negb _); [done|]. destruct (supported_json_shape _) as [sup|]; simpl; [|done].
    intros [= H]. eapply Hafter, H. intros c Hc. destruct sup, (profile_lines _); simpl in Hc;
      repeat (apply elem_of_cons in Hc as [->|Hc]; [done|]); by apply elem_of_nil in Hc.
  - intros [= H]. eapply Hafter, H. intros c Hc. destruct (profile_lines _);
      repeat (apply elem_of_cons in Hc as [->|Hc]; [done|]); by apply elem_of_nil in Hc.
Qed.

Section parsing.
Context `{!Base64Engine} `{!SourceAdapters} (json_valid : list Z -> bool).
Context (uuid_parse_str : string -> option (list Z)) (uuid_hyphenated : list Z -> string).
Context (json_from_slice : list Z -> option Json) (matrix : list CapabilityEntry).
Local Abbreviation parse_source := (parse_source uuid_parse_str uuid_hyphenated json_from_slice matrix json_valid).
Implicit Types (input : SourceInput) (limits : ParserLimits).

(** The output of the adapter of some final format on the given text. *)
Definition adapter_output (bs : list Z) (id : SourceId) limits (out : AdapterOutput) : Prop :=
  uri_output uuid_parse_str uuid_hyphenated json_from_slice bs (Some id) limits matrix = Some out
  \/ out = or_source_error (parse_clash_yaml bs id limits)
  \/ out = or_source_error (parse_singbox_json bs id limits)
  \/ out = or_source_error (parse_surfboard_ini bs id limits).

Lemma parse_final fuel id f bs limits :
  is_final f = true ->
  exists out, parse_source (S fuel) (mkInput id f bs) limits = Some out /\ adapter_output bs id limits out.
Proof.
  unfold adapter_output. intros Hf. destruct f; try done; try (eexists; (split; [reflexivity|tauto])).
  destruct (uri_output_items uuid_parse_str uuid_hyphenated json_from_slice bs (Some id) limits matrix)
    as (items & out & _ & Ho & _). exists out. split; [exact Ho|by left].
Qed.

(** What parsing a Base64 list gives. *)
Definition base64_outcome (bs : list Z) (id : SourceId) limits (out : AdapterOutput) : Prop :=
  (exists code, out = source_error code)
  \/ exists d, decode_base64 bs limits = Ok d /\ adapter_output (decoded_bytes d) id limits out.

Lemma parse_base64 fuel id bs limits :
  exists out, parse_source (S (S fuel)) (mkInput id FBase64List bs) limits = Some out
    /\ base64_outcome bs id limits out
    /\ (forall d r, decode_base64 bs limits = Ok d ->
        detect_bytes json_valid (decoded_bytes d) FAuto limits = Some (Ok r) ->
        det_format r = FBase64List -> out = source_error DcBase64NestingExceeded).
Proof.
  cbn [Pipeline.parse_source in_format_hint in_bytes in_source_id]. unfold decode_base64_and_detect, base64_outcome.
  destruct (decode_base64 bs limits) as [d|e]; [|simpl; eexists; split; [done|]; split; [by eauto|done]].
  destruct (detect_bytes_total json_valid (decoded_bytes d) FAuto limits) as [[r|e] Hr]; rewrite Hr; simpl;
    [|eexists; split; [done|]; split; [by eauto|intros; simplify_eq]].
  case_bool_decide as Hb; simpl.
  - eexists. split; [done|]. split; [by eauto|]. intros; simplify_eq. done.
  - pose proof (detect_format _ _ _ _ Hr) as Hdet. unfold detectable in Hdet.
    rewrite (bool_decide_false _ Hb), orb_false_r in Hdet.
    destruct (parse_final fuel id (det_format r) (decoded_bytes d) limits Hdet) as (out & Hp & Ho).
    exists out. split; [exact Hp|]. split; [right; eauto|]. intros d' r' [= <-] Hr' Hf. congruence.
Qed.

Lemma parse_auto fuel id bs limits :
  parse_source (S fuel) (mkInput id FAuto bs) limits
  = (detected ← detect_bytes json_valid bs FAuto limits;
     match detected with
     | Ok d => parse_source fuel (mkInput id (det_format d) bs) limits
     | Err error => Some (source_error (detection_code error))
     end).
Proof. reflexivity. Qed.

(** Parsing a source always ends: the automatic format leads to a detected one
    and Base64 to a final one, so three steps are enough.  The result is an error, or
    what the adapter of one format makes of the text or of the text unwrapped from a
    single layer of Base64; Base64 inside Base64 is refused with its own error. *)
Theorem parse_source_total input limits :
  exists out, parse_source PARSE_DEPTH input limits = Some out
    /\ (adapter_output (in_bytes input) (in_source_id input) limits out
        \/ base64_outcome (in_bytes input) (in_source_id input) limits out)
    /\ (in_format_hint input = FBase64List -> forall d r,
        decode_base64 (in_bytes input) limits = Ok d ->
        detect_bytes json_valid (decoded_bytes d) FAuto limits = Some (Ok r) ->
        det_format r = FBase64List -> out = source_error DcBase64NestingExceeded).
Proof.
  destruct input as [id f bs]. cbn [in_bytes in_source_id in_format_hint]. unfold PARSE_DEPTH.
  destruct (is_final f) eqn:Hf.
  { destruct (parse_final 2 id f bs limits Hf) as (out & Hp & Ho). exists out. split; [done|]. split; [by left|].
    by intros ->. }
  destruct f; try discriminate Hf.
  - rewrite parse_auto.
    destruct (detect_bytes_total json_valid bs FAuto limits) as [[r|e] Hr]; rewrite Hr; cbn [mbind option_bind];
      [|eexists; split; [done|]; split; [right; left; by eauto|done]].
    pose proof (detect_format _ _ _ _ Hr) as Hdet. unfold detectable in Hdet.
    apply orb_true_iff in Hdet as [Hdet|Hdet%bool_decide_eq_true].
    + destruct (parse_final 1 id (det_format r) bs limits Hdet) as (out & Hp & Ho).
      exists out. split; [exact Hp|]. split; [by left|done].
    + rewrite Hdet. destruct (parse_base64 0 id bs limits) as (out & Hp & Ho & _).
      exists out. split; [exact Hp|]. split; [by right|done].
  - destruct (parse_base64 1 id bs limits) as (out & Hp & Ho & Hn). exists out.
    split; [done|]. split; [by right|]. intros _. exact Hn.
Qed.
End parsing.

(** ** The report accounts for every item *)
Definition total_diagnostics (r : ConversionReport) : Z := sumZ (bt_values (diagnostic_counts r)).
(** The details hold the first diagnostics up to the limit, and the report says when
    there were more. *)
Record report_ok (limits : ParserLimits) (r : ConversionReport) : Prop := {
  counts_wf : bt_wf (diagnostic_counts r);
  details_bounded : len (report_diagnostics r) = Z.min (max_detailed_diagnostics limits) (total_diagnostics r);
  truncated_exact : truncated (summary r) = (max_detailed_diagnostics limits <? total_diagnostics r);
}.
Definition accepted_items (r : ConversionReport) : Z :=
  len (filter (fun i => item_status i = Accepted) (report_items r)).

Section accounting.
Context (limits : ParserLimits).
Implicit Types (r : ConversionReport) (d : NodeDiagnostic).

Lemma push_diagnostic_items r d : report_items (push_diagnostic limits r d) = report_items r.
Proof. unfold push_diagnostic. by split_if Hlt. Qed.
Lemma push_diagnostic_ok r d : report_ok limits r -> report_ok limits (push_diagnostic limits r d).
Proof.
  intros [Hwf Hd Ht].
  assert (total_diagnostics (push_diagnostic limits r d) = total_diagnostics r + 1) as Htot.
  { unfold total_diagnostics. transitivity (sumZ (id <$> bt_values (diagnostic_counts (push_diagnostic limits r d)))).
    { f_equal. symmetry. apply list_fmap_id. }
    assert (diagnostic_counts (push_diagnostic limits r d) = bt_insert (dg_code d)
      (default 0 (bt_get (dg_code d) (diagnostic_counts r)) + 1) (diagnostic_counts r)) as ->
      by (unfold push_diagnostic; split_if Hlt; reflexivity).
    rewrite bt_insert_sum by done. rewrite list_fmap_id. destruct (bt_get _ _); simpl; unfold id; lia. }
  assert (bt_wf (diagnostic_counts (push_diagnostic limits r d))) as Hwf'.
  { unfold push_diagnostic. split_if Hlt; by apply bt_insert_wf. }
  constructor; [exact Hwf'| |]; rewrite Htot; unfold push_diagnostic;
    destruct (Z.ltb_spec (len (report_diagnostics r)) (max_detailed_diagnostics limits)); simpl.
  - unfold len in *. rewrite length_app. simpl. lia.
  - lia.
  - rewrite Ht. destruct (Z.ltb_spec (max_detailed_diagnostics limits) (total_diagnostics r)),
      (Z.ltb_spec (max_detailed_diagnostics limits) (total_diagnostics r + 1)); lia || done.
  - symmetry. apply Z.ltb_lt. lia.
Qed.
Lemma warn_ok r d :
  report_ok limits r -> report_ok limits (warn limits r d) /\ report_items (warn limits r d) = report_items r.
Proof.
  intros [Hwf Hd Ht]. unfold warn. rewrite push_diagnostic_items. split; [|done].
  by apply push_diagnostic_ok.
Qed.
Lemma warns_ok r ds :
  report_ok limits r ->
  report_ok limits (foldl (warn limits) r ds) /\ report_items (foldl (warn limits) r ds) = report_items r.
Proof.
  revert r. induction ds as [|d ds IH]; intros r Hr; simpl; [done|].
  destruct (warn_ok r d Hr) as [Hr' <-]. by apply IH.
Qed.

Context (sha256 : list Z -> list Z) (f : NodeFilter).
(** One item: one entry of the report, for a node kept or a rejection. *)
Lemma convert_item_ok r nodes rejected item r' nodes' rejected' :
  result_wf item -> report_ok limits r ->
  convert_item sha256 limits f (r, nodes, rejected) item = (r', nodes', rejected') ->
  report_ok limits r' /\ len (report_items r') = len (report_items r) + 1
  /\ accepted_items r' - len nodes' = accepted_items r - len nodes
  /\ len nodes' + rejected' = len nodes + rejected + (if bool_decide (is_Some (ar_node item)) then 1 else 0).
Proof.
  intros Hwf Hr E. unfold convert_item in E.
  assert (forall i, report_ok limits (push_item r i)) as Hpush by (intros i; by destruct Hr).
  assert (forall i, report_items (push_item r i) = report_items r ++ [i]) as Hitems by done.
  destruct Hwf as [(i & n & w & ->)|(i & d & ->)]; simpl in E.
  - destruct (filter_accepts sha256 f n); simpl in E.
    + injection E as <- <- <-.
      match goal with |- context [foldl _ (push_item r ?it) ?ws] =>
        destruct (warns_ok (push_item r it) ws (Hpush it)) as [Hok Hit] end.
      split; [done|]. unfold accepted_items. rewrite Hit, Hitems, filter_app.
      unfold len. rewrite !length_app. simpl. lia.
    + injection E as <- <- <-. split; [apply Hpush|]. unfold accepted_items. rewrite Hitems, filter_app.
      unfold len. rewrite !length_app. simpl. lia.
  - injection E as <- <- <-. split; [by apply push_diagnostic_ok|]. unfold accepted_items.
    rewrite push_diagnostic_items, Hitems, filter_app. unfold len. rewrite !length_app. simpl. lia.
Qed.

Lemma convert_items_ok items r nodes rejected r' nodes' rejected' :
  Forall result_wf items -> report_ok limits r ->
  foldl (convert_item sha256 limits f) (r, nodes, rejected) items = (r', nodes', rejected') ->
  report_ok limits r' /\ len (report_items r') = len (report_items r) + len items
  /\ accepted_items r' - len nodes' = accepted_items r - len nodes
  /\ len nodes' + rejected' = len nodes + rejected + len (filter (fun i => is_Some (ar_node i)) items).
Proof.
  intros Hwf. revert r nodes rejected. induction Hwf as [|item items Hi Hwf IH]; intros r nodes rejected Hr E.
  { injection E as <- <- <-. split; [done|]. unfold len. simpl. lia. }
  cbn [foldl] in E. destruct (convert_item _ _ _ _ _) as [[r1 nodes1] rejected1] eqn:E1.
  apply convert_item_ok in E1 as (Hr1 & H1 & H2 & H3); [|done|done].
  apply IH in E as (Hr' & F1 & F2 & F3); [|done]. split; [done|]. rewrite filter_cons.
  unfold len in *. case_bool_decide; case_decide; simpl; done || lia.
Qed.
End accounting.

Lemma wf_counts output :
  Forall result_wf (out_nodes output) ->
  accepted_count output + rejected_count output = len (out_nodes output).
Proof.
  unfold accepted_count, rejected_count, len. induction 1 as [|x l Hx _ IH]; [done|].
  rewrite !filter_cons. destruct Hx as [(i & n & w & ->)|(i & d & ->)]; simpl;
    repeat case_decide as Hc; simpl; try (by destruct Hc); try lia;
    exfalso; (by destruct Hc) || (match goal with H : ~ is_Some _ |- _ => apply H; by eexists end).
Qed.

Section conversion.
Context `{!Base64Engine} `{!SourceAdapters, !SourceAdaptersLaws} (json_valid : list Z -> bool).
Context (uuid_parse_str : string -> option (list Z)) (uuid_hyphenated : list Z -> string).
Context (json_from_slice : list Z -> option Json) (matrix : list CapabilityEntry).
Context (sha256 : list Z -> list Z) (infer_display_territory : list string -> option string).

Lemma adapter_output_wf bs id limits out :
  adapter_output uuid_parse_str uuid_hyphenated json_from_slice matrix bs id limits out -> Forall result_wf (out_nodes out).
Proof.
  intros [Hu|[->|[->| ->]]].
  - destruct (uri_output_items uuid_parse_str uuid_hyphenated json_from_slice bs (Some id) limits matrix)
      as (items & out' & _ & Ho & _ & Hok). assert (out' = out) as -> by congruence.
    induction Hok as [|item r items rs [(c & spec & o & _ & _ & _ & ->)|(d & -> & _)] _ IH]; constructor; try done;
      [left; eauto|right; eauto].
  - destruct (parse_clash_yaml bs id limits) eqn:E; [by eapply clash_wf|constructor].
  - destruct (parse_singbox_json bs id limits) eqn:E; [by eapply singbox_wf|constructor].
  - destruct (parse_surfboard_ini bs id limits) eqn:E; [by eapply surfboard_wf|constructor].
Qed.
Lemma base64_outcome_wf bs id limits out :
  base64_outcome uuid_parse_str uuid_hyphenated json_from_slice matrix bs id limits out -> Forall result_wf (out_nodes out).
Proof. intros [[code ->]|(d & _ & Ho)]; [constructor|by eapply adapter_output_wf]. Qed.

(** One source: each of its items is in the report, and its batch holds the nodes
    kept and the number of the others. *)
Lemma convert_source_ok limits r input output r' batch :
  Forall result_wf (out_nodes output) -> report_ok limits r ->
  convert_source sha256 limits r input output = (r', batch) ->
  report_ok limits r'
  /\ len (report_items r') = len (report_items r) + len (batch_nodes batch) + batch_rejected batch
  /\ accepted_items r' = accepted_items r + len (batch_nodes batch)
  /\ batch_source_id batch = in_source_id (fi_source input).
Proof.
  intros Hwf Hr E. unfold convert_source in E.
  destruct (foldl (convert_item sha256 limits (fi_filter input)) _ _) as [[r1 nodes] rejected] eqn:E1.
  apply convert_items_ok in E1 as (Hr1 & G1 & G2 & G3); [|done..].
  destruct (warns_ok limits r1 (out_diagnostics output) Hr1) as [Hr2 Hi].
  pose proof (wf_counts output Hwf) as Hc. unfold accepted_count in Hc.
  assert (report_ok limits r' /\ report_items r' = report_items r1 /\ batch = mkBatch
    (in_source_id (fi_source input)) nodes rejected (len (out_diagnostics output))) as (Hok & Hit & ->).
  { revert E. split_if Hlt; intros [= <- <-]; (split; [|split; [|done]]); rewrite ?push_diagnostic_items;
      try done. by apply push_diagnostic_ok. }
  split; [done|]. unfold accepted_items in *. rewrite Hit. cbn [batch_nodes batch_rejected batch_source_id].
  change (len []) with 0 in *. split; [lia|]. split; [lia|done].
Qed.

Lemma convert_loop_ok inputs limits r batches detected :
  report_ok limits r ->
  exists r' added detected',
    convert_loop uuid_parse_str uuid_hyphenated json_from_slice matrix json_valid sha256 inputs limits r batches detected = Some (r', batches ++ added, detected')
    /\ report_ok limits r'
    /\ len (report_items r') = len (report_items r) + sumZ ((fun b => len (batch_nodes b)) <$> added)
                               + sumZ (batch_rejected <$> added)
    /\ accepted_items r' = accepted_items r + sumZ ((fun b => len (batch_nodes b)) <$> added)
    /\ batch_source_id <$> added = (fun i => in_source_id (fi_source i)) <$> inputs.
Proof.
  revert r batches detected. induction inputs as [|input inputs IH]; intros r batches detected Hr.
  { exists r, [], detected. simpl. rewrite app_nil_r. split_and!; try done; unfold sumZ; simpl; lia. }
  destruct (parse_source_total json_valid uuid_parse_str uuid_hyphenated json_from_slice matrix (fi_source input) limits) as (out & Hp & Ho & _).
  assert (Forall result_wf (out_nodes out)) as Hwf
    by (destruct Ho; [by eapply adapter_output_wf|by eapply base64_outcome_wf]).
  cbn [convert_loop]. rewrite Hp. cbn [mbind option_bind].
  destruct (convert_source _ _ _ _ _) as [r1 batch] eqn:E.
  apply convert_source_ok in E as (Hr1 & G1 & G2 & G3); [|done..].
  destruct (IH r1 (batches ++ [batch]) (in_format_hint (fi_source input)) Hr1)
    as (r' & added & detected' & E & Hr' & F1 & F2 & F3).
  exists r', (batch :: added), detected'. rewrite E, <- (assoc_L (++)). split; [done|]. split; [done|].
  rewrite !fmap_cons, F3, G3. unfold sumZ in *. simpl. split; [lia|]. split; [lia|done].
Qed.

(** Converting sources with distinct identifiers always gives a result, and its
    report accounts for every item: the items are the accepted, the duplicate and the
    rejected ones, those marked accepted are the first two, the detailed diagnostics
    are as many as were counted up to the limit, and the report is marked truncated
    exactly when more were counted. *)
Theorem conversion_accounts inputs limits :
  0 <= max_detailed_diagnostics limits -> 1 <= max_source_refs limits ->
  NoDup ((fun i => in_source_id (fi_source i)) <$> inputs) ->
  exists c, convert_sources uuid_parse_str uuid_hyphenated json_from_slice matrix json_valid sha256 infer_display_territory inputs limits = Some c
    /\ let r := conv_report c in
       let s := summary r in
       sum_accepted s = len (conv_nodes c)
       /\ len (report_items r) = sum_accepted s + sum_duplicate s + sum_rejected s
       /\ accepted_items r = sum_accepted s + sum_duplicate s
       /\ len (report_diagnostics r) = Z.min (max_detailed_diagnostics limits) (total_diagnostics r)
       /\ truncated s = (max_detailed_diagnostics limits <? total_diagnostics r).
Proof.
  intros Hmax Hcap Hnd. unfold convert_sources.
  destruct (convert_loop_ok inputs limits empty_report [] FAuto) as (r & batches & detected & E & [_ Hd Ht] & G1 & G2 & G3).
  { constructor; [apply bt_wf_nil| |]; unfold total_diagnostics, len, sumZ; simpl; [lia|].
    symmetry. apply Z.ltb_ge. lia. }
  rewrite E. cbn [mbind option_bind]. rewrite app_nil_l.
  destruct (dedupe_total sha256 infer_display_territory batches limits Hcap) as (nodes & outcomes & Eo).
  rewrite Eo. cbn [mbind option_bind]. eexists. split; [done|]. cbv zeta. simpl.
  destruct (dedupe_sources_sums sha256 infer_display_territory batches limits nodes outcomes) as (S1 & S2 & S3);
    [by rewrite G3|done|].
  fold (total oc_duplicate outcomes) (total oc_rejected outcomes).
  split; [done|]. unfold total_diagnostics, accepted_items in *. simpl in *.
  rewrite S3, S2. split; [unfold len in *; simpl in *; lia|]. split; [unfold len in *; simpl in *; lia|]. done.
Qed.
End conversion.

(** The report that is written fits the limit or has no details left: halving them
    ends. *)
Lemma bounded_json_total to_string fuel r limits :
  (length (report_diagnostics r) < fuel)%nat ->
  exists r', bounded_json to_string fuel r limits = Some (to_string r')
    /\ (str_len (to_string r') <= max_report_bytes limits \/ report_diagnostics r' = [])
    /\ (r' = r \/ truncated (summary r') = true).
Proof.
  revert r. induction fuel as [|fuel IH]; intros r Hf; [lia|]. cbn [bounded_json]. cbv zeta. split_if Hfit.
  - exists r. split; [done|]. split; [|by left].
    apply orb_true_iff in Hfit as [Hfit|Hfit]; [left; by apply Z.leb_le|right].
    apply Z.eqb_eq in Hfit. unfold len in Hfit. destruct (report_diagnostics r); [done|simpl in Hfit; lia].
  - apply orb_false_iff in Hfit as [_ Hne]. apply Z.eqb_neq in Hne. unfold len in Hne.
    match goal with |- context [bounded_json _ _ ?c _] => destruct (IH c) as (r' & E & Hr & Ht) end.
    { cbn [report_diagnostics]. rewrite length_take.
      pose proof (Nat.div_lt (length (report_diagnostics r)) 2). lia. }
    exists r'. split; [exact E|]. split; [done|]. right. by destruct Ht as [->|?].
Qed.

(** ** Examples *)
Definition demo_name_filter : Result NodeFilterError NodeFilter :=
  NodeFilter_new_with_node_ids ["hk"] ["Expired"] [] [Trojan; Vless].
Lemma node_filter_exact_witness :
  exists f, demo_name_filter = Ok f
    /\ filter_accepts id f (demo_node "node-HK-1" "h1" []) = true
    /\ ~ occurs (bytes "node-HK-1") (bytes "Expired").
Proof.
  eexists. split; [vm_compute; reflexivity|].
  assert (filter_accepts id (mkFilter ["hk"] ["Expired"] [] [Vless; Trojan]) (demo_node "node-HK-1" "h1" []) = true)
    as Ha by (vm_compute; reflexivity).
  split; [exact Ha|].
  destruct (proj1 (node_filter_exact id ["hk"] ["Expired"] [] [Trojan; Vless] _ (demo_node "node-HK-1" "h1" [])
    ltac:(vm_compute; reflexivity)) Ha) as (_ & _ & Hx & _). apply Hx. by left.
Defined.

(** Adapters that refuse every text, and a list with two nodes of one server and a
    line that is not a node. *)
#[local] Instance demo_adapters : SourceAdapters := {|
  parse_clash_yaml _ _ _ := Err DcInvalidYaml;
  parse_singbox_json _ _ _ := Err DcInvalidJson;
  parse_surfboard_ini _ _ _ := Err DcInvalidIni |}.
#[local] Instance demo_adapters_laws : SourceAdaptersLaws.
Proof. by constructor. Qed.
Definition demo_inputs : list FilteredSourceInput :=
  [mkFiltered (mkInput "a" FAuto (bytes "trojan://secret@host:443#one" ++ [10] ++ bytes "trojan://@host:443"))
     (mkFilter [] [] [] []);
   mkFiltered (mkInput "b" FUriList (bytes "trojan://secret@host:443#two")) (mkFilter [] [] [] [])].
#[local] Existing Instance rfc_engine.
Definition demo_convert : option StableConversion :=
  convert_sources (fun _ => None) (fun _ => "") (fun _ => None) pinned_matrix (fun _ => true) id (fun _ => None)
    demo_inputs demo_limits.
Lemma conversion_accounts_witness :
  exists c, demo_convert = Some c
    /\ let s := summary (conv_report c) in
       (sum_accepted s, sum_duplicate s, sum_rejected s) = (1, 1, 1) /\ accepted_items (conv_report c) = 2.
Proof.
  destruct (conversion_accounts (fun _ => true) (fun _ => None) (fun _ => "") (fun _ => None) pinned_matrix id
    (fun _ => None) demo_inputs demo_limits) as (c & E & _ & _ & Ha & _);
    [vm_compute; congruence|vm_compute; congruence|apply (bool_decide_unpack _); vm_compute; exact I|].
  exists c. split; [exact E|]. cbv zeta in Ha |- *. rewrite Ha. vm_compute in E. injection E as <-.
  vm_compute. done.
Defined.
