(* ===== verification/AtomicFile.v ===== *)
(** * AtomicFile: the runtime directory and the atomic replacement of a file

    Models [atomic_write] of crates/nethopd/src/worker_config.rs on the files the
    subscription transaction works with: the children of the runtime root, the sealed
    generation directories, the canonical configuration below [config/], and the
    temporary files of an atomic replacement, which are named after the process and a
    counter.

    Every system call may fail; the outcomes of the calls to come are part of the
    state.  [spec] is a Hoare triple with a second postcondition for the files an
    error leaves behind.  As an error ends an operation at once, those are also the
    files a crash can leave.  In its first mode no call fails, and the operation must
    succeed. *)

From S2P Require Import Prelude Text.

Local Open Scope Z_scope.

Definition MAX_CONFIG_BYTES : Z := 256 * 1024.
Definition MAX_TEMP_ATTEMPTS : nat := 16.

(** ** Files *)
Inductive Path : Type :=
| RootFile (name : string)
| GenerationDir (generation : Z)
| CanonicalConfig
| Temporary (in_root : bool) (pid sequence : Z).

#[export] Instance Path_eq_dec : EqDecision Path.
Proof. solve_decision. Defined.
#[export] Instance Path_countable : Countable Path.
Proof.
  refine (inj_countable'
    (fun p => match p with
              | RootFile n => inl (inl n) | GenerationDir g => inl (inr g)
              | CanonicalConfig => inr (inl tt) | Temporary r p s => inr (inr (r, p, s)) end)
    (fun x => match x with
              | inl (inl n) => RootFile n | inl (inr g) => GenerationDir g
              | inr (inl _) => CanonicalConfig | inr (inr (r, p, s)) => Temporary r p s end) _).
  by intros [].
Defined.

Definition is_temporary (p : Path) : bool := match p with Temporary _ _ _ => true | _ => false end.

(** What a path names: a file with its permission bits, a directory with the names in
    it, a link with what reading through it gives, a device or a socket. *)
Inductive Node : Type :=
| NFile (contents : list Z) (mode : Z)
| NDir (entries : list string)
| NSymlink (target : option (list Z))
| NOther.

(** [fs::read] *)
Definition readable (n : option Node) : option (list Z) :=
  match n with Some (NFile b _) => Some b | Some (NSymlink t) => t | _ => None end.
(** [mode() & 0o077 == 0] *)
Definition private_mode (mode : Z) : bool := Z.land mode 63 =? 0.
Definition PRIVATE_MODE : Z := 384.
Definition CREATE_MODE : Z := 438.

Record Files : Type := mkFiles {
  nodes : gmap Path Node;
  root_private : bool;
  config_private : bool;
  process_id : Z;
  temp_sequence : Z;
}.
Record Disk : Type := mkDisk {
  files : Files;
  faults : list Outcome;
}.

Definition with_nodes (m : gmap Path Node) (f : Files) : Files :=
  mkFiles m (root_private f) (config_private f) (process_id f) (temp_sequence f).
Definition put (p : Path) (n : Node) (f : Files) : Files := with_nodes (<[p := n]> (nodes f)) f.
Definition remove (p : Path) (f : Files) : Files := with_nodes (delete p (nodes f)) f.
Definition bump_sequence (f : Files) : Files :=
  mkFiles (nodes f) (root_private f) (config_private f) (process_id f)
    (cast_u 64 (temp_sequence f + 1)).

(** ** System calls *)
Section calls.
Context {E : Type}.

Definition next_outcome (d : Disk) : Outcome * list Outcome :=
  match faults d with [] => (Succeeds, []) | o :: rest => (o, rest) end.
Definition io (e : E) (effect : Files -> Files) (broken : nat -> Files -> Files) : Mut Disk E unit :=
  fun d =>
    let '(o, rest) := next_outcome d in
    match o with
    | Succeeds => (Ok tt, mkDisk (effect (files d)) rest)
    | Fails n => (Err e, mkDisk (broken n (files d)) rest)
    end.
Definition untouched (n : nat) (f : Files) : Files := f.
Definition look {A} (g : Files -> A) : Mut Disk E A := fun d => (Ok (g (files d)), d).
Definition change (g : Files -> Files) : Mut Disk E unit :=
  fun d => (Ok tt, mkDisk (g (files d)) (faults d)).
(** [let _ = m]: the outcome is ignored. *)
Definition ignore {F A} (m : Mut Disk F A) : Mut Disk E unit := fun d => (Ok tt, (m d).2).
(** [m.ok()] and [m.map_err(|_| e)] *)
Definition to_option {F A} (m : Mut Disk F A) : Mut Disk E (option A) := fun d =>
  match m d with (Ok a, d') => (Ok (Some a), d') | (Err _, d') => (Ok None, d') end.
Definition or_error {F A} (e : E) (m : Mut Disk F A) : Mut Disk E A := fun d =>
  match m d with (Ok a, d') => (Ok a, d') | (Err _, d') => (Err e, d') end.
End calls.

(** ** [atomic_write] *)
Inductive ConfigError : Type :=
| CfgMissing | InvalidPath | CfgTooLarge | UnstableSnapshot | CfgInvalidUtf8 | InvalidToml
| UnknownField | InvalidValue | UnsupportedSchema | InvalidSourceCount | SingleSourceNotUnique
| NoActiveSource | InvalidSourceName | DuplicateSourceName | DuplicateSourceUrl | InvalidSourceUrl
| SourceUrlNonHttps | InvalidCapture | InvalidUpdateSchedule | InvalidSourceOptions | InvalidProxy
| InvalidApplications | ApplicationCatalogUnavailable | InvalidNetwork | UnsupportedNetwork
| InvalidRouting | UnsupportedRouting | InvalidLogging | InvalidAdvanced | Conflict | WriteFailed.

Definition in_root (p : Path) : bool := match p with RootFile _ => true | _ => false end.
Definition parent_private (p : Path) (f : Files) : bool :=
  if in_root p then root_private f else config_private f.

Definition validate_private_parent (p : Path) : Mut Disk ConfigError unit :=
  io InvalidPath id untouched ;;
  ok ← look (parent_private p);
  if ok : bool then mret tt else mut_fail InvalidPath.

(** The attempts at a name that is not taken. *)
Fixpoint create_temporary (attempts : nat) (p : Path) : Mut Disk ConfigError (option Path) :=
  match attempts with
  | O => mret None
  | S attempts =>
      candidate ← look (fun f => Temporary (in_root p) (process_id f) (temp_sequence f));
      change bump_sequence ;;
      taken ← look (fun f => bool_decide (is_Some (nodes f !! candidate)));
      if taken : bool then
        io WriteFailed id untouched ;; create_temporary attempts p
      else
        io WriteFailed (put candidate (NFile [] CREATE_MODE)) untouched ;; mret (Some candidate)
  end.

Definition is_dir (n : option Node) : bool := match n with Some (NDir _) => true | _ => false end.
(** [fs::rename] onto a path that is not a directory. *)
Definition rename (from to : Path) : Mut Disk ConfigError unit :=
  blocked ← look (fun f => is_dir (nodes f !! to));
  if blocked : bool then mut_fail WriteFailed
  else io WriteFailed
         (fun f => match nodes f !! from with
                   | Some n => put to n (remove from f)
                   | None => f end) untouched.

Definition write_temporary (temporary p : Path) (bs : list Z) : Mut Disk ConfigError unit :=
  io WriteFailed (put temporary (NFile [] PRIVATE_MODE)) untouched ;;
  io WriteFailed (put temporary (NFile bs PRIVATE_MODE))
     (fun n => put temporary (NFile (take n bs) PRIVATE_MODE)) ;;
  io WriteFailed id untouched ;;
  rename temporary p ;;
  io WriteFailed id untouched.

(** A replacement that failed removes its temporary file, if it can. *)
Definition remove_on_error (temporary : Path) (m : Mut Disk ConfigError unit) :
    Mut Disk ConfigError unit := fun d =>
  match m d with
  | (Ok _, d') => (Ok tt, d')
  | (Err e, d') => (Err e, (io WriteFailed (remove temporary) untouched d').2)
  end.

Definition atomic_write (p : Path) (bs : list Z) : Mut Disk ConfigError unit :=
  validate_private_parent p ;;
  temporary ← create_temporary MAX_TEMP_ATTEMPTS p;
  match temporary with
  | None => mut_fail WriteFailed
  | Some temporary => remove_on_error temporary (write_temporary temporary p bs)
  end.

(** ** Specifications

    [spec clean P m Q X]: from files in [P], [m] returns with files in [Q], or fails
    and leaves files in [X].  In the [clean] mode no call fails, and [m] must
    return. *)
Definition spec {E A} (clean : bool) (P : Files -> Prop) (m : Mut Disk E A)
    (Q : A -> Files -> Prop) (X : Files -> Prop) : Prop :=
  forall d, P (files d) -> (clean = true -> faults d = []) ->
    match m d with
    | (Ok a, d') => Q a (files d') /\ (clean = true -> faults d' = [])
    | (Err _, d') => clean = false /\ X (files d')
    end.

Section rules.
Context {E : Type} (clean : bool).

Lemma spec_ret {A} (a : A) P (Q : A -> Files -> Prop) X :
  (forall f, P f -> Q a f) -> spec clean P (mret a : Mut Disk E A) Q X.
Proof. intros Hq d Hp Hc. simpl. auto. Qed.
Lemma spec_fail {A} (e : E) P (Q : A -> Files -> Prop) X :
  (forall f, P f -> clean = false /\ X f) -> spec clean P (mut_fail e : Mut Disk E A) Q X.
Proof. intros Hx d Hp Hc. simpl. auto. Qed.
Lemma spec_bind {A B} (m : Mut Disk E A) (k : A -> Mut Disk E B) P R Q X :
  spec clean P m R X -> (forall a, spec clean (R a) (k a) Q X) -> spec clean P (m ≫= k) Q X.
Proof.
  intros Hm Hk d Hp Hc. specialize (Hm d Hp Hc). unfold mbind, Mut_bind.
  destruct (m d) as [[a|e] d']; [|done]. destruct Hm as [HR Hf]. by apply Hk.
Qed.
Lemma spec_conseq {A} (m : Mut Disk E A) (P P' X X' : Files -> Prop) (Q Q' : A -> Files -> Prop) :
  spec clean P' m Q' X' -> (forall f, P f -> P' f) -> (forall a f, Q' a f -> Q a f) ->
  (forall f, X' f -> X f) -> spec clean P m Q X.
Proof.
  intros Hm HP HQ HX d Hp Hc. specialize (Hm d (HP _ Hp) Hc).
  destruct (m d) as [[a|e] d']; naive_solver.
Qed.
Lemma spec_io (e : E) effect broken P Q X :
  (forall f, P f -> Q tt (effect f)) -> (forall n f, P f -> X (broken n f)) ->
  spec clean P (io e effect broken) Q X.
Proof.
  intros HQ HX d Hp Hc. unfold io, next_outcome. destruct (faults d) as [|[|n] rest]; simpl.
  - auto.
  - split; [by apply HQ|]. intros Hf. by specialize (Hc Hf).
  - split; [|by apply HX]. destruct clean; [by specialize (Hc eq_refl)|done].
Qed.
Lemma spec_look {A} (g : Files -> A) P (Q : A -> Files -> Prop) X :
  (forall f, P f -> Q (g f) f) -> spec clean P (look g : Mut Disk E A) Q X.
Proof. intros HQ d Hp Hc. simpl. auto. Qed.
Lemma spec_change (g : Files -> Files) P (Q : unit -> Files -> Prop) X :
  (forall f, P f -> Q tt (g f)) -> spec clean P (change g : Mut Disk E unit) Q X.
Proof. intros HQ d Hp Hc. simpl. auto. Qed.
Lemma spec_lift {A} (r : Result E A) P (Q : A -> Files -> Prop) X :
  (forall f, P f -> match r with Ok a => Q a f | Err _ => clean = false /\ X f end) ->
  spec clean P (mut_lift r) Q X.
Proof. intros Hr d Hp Hc. specialize (Hr _ Hp). simpl. destruct r; auto. Qed.
Lemma spec_or_error {F A} (e : E) (m : Mut Disk F A) P Q X :
  spec clean P m Q X -> spec clean P (or_error e m) Q X.
Proof.
  intros Hm d Hp Hc. specialize (Hm d Hp Hc). unfold or_error. by destruct (m d) as [[a|e'] d'].
Qed.
Lemma spec_to_option {F A} (m : Mut Disk F A) P (Q : option A -> Files -> Prop) X :
  spec clean P m (fun a => Q (Some a)) (Q None) -> spec clean P (to_option m : Mut Disk E _) Q X.
Proof.
  intros Hm d Hp Hc. specialize (Hm d Hp Hc). unfold to_option.
  destruct (m d) as [[a|e'] d']; [done|]. destruct Hm as [-> Hx]. by split.
Qed.
(** A precondition that is a fact. *)
Lemma spec_pure {A} (m : Mut Disk E A) (P : Files -> Prop) (F : Prop) Q X :
  (F -> spec clean P m Q X) -> spec clean (fun f => F /\ P f) m Q X.
Proof. intros Hm d [HF Hp] Hc. by apply Hm. Qed.
Lemma spec_exists {A T} (m : Mut Disk E A) (P : T -> Files -> Prop) Q X :
  (forall t, spec clean (P t) m Q X) -> spec clean (fun f => exists t, P t f) m Q X.
Proof. intros Hm d [t Hp] Hc. by apply (Hm t). Qed.
End rules.

(** ** The contract of [atomic_write]

    Files are compared up to the temporary ones. *)
Record same_files (f f' : Files) : Prop := {
  same_nodes : forall p, is_temporary p = false -> nodes f' !! p = nodes f !! p;
  same_root : root_private f' = root_private f;
  same_config : config_private f' = config_private f;
}.
#[export] Instance same_files_equivalence : Equivalence same_files.
Proof.
  split.
  - by intros f.
  - intros f g [Hn Hr Hc]. split; [|done..]. intros p Hp. by rewrite Hn.
  - intros f g h [Hn Hr Hc] [Hn' Hr' Hc']. split; [|congruence..]. intros p Hp. by rewrite Hn', Hn.
Qed.
#[export] Instance put_same p n : Proper (same_files ==> same_files) (put p n).
Proof.
  intros f g [Hn Hr Hc]. split; [|done..]. intros q Hq. simpl.
  destruct (decide (p = q)) as [->|]; [by rewrite !lookup_insert_eq|].
  rewrite !lookup_insert_ne by done. auto.
Qed.
#[export] Instance remove_same p : Proper (same_files ==> same_files) (remove p).
Proof.
  intros f g [Hn Hr Hc]. split; [|done..]. intros q Hq. simpl.
  destruct (decide (p = q)) as [->|]; [by rewrite !lookup_delete_eq|].
  rewrite !lookup_delete_ne by done. auto.
Qed.
Lemma same_put_temporary f t n : is_temporary t = true -> same_files f (put t n f).
Proof.
  intros Ht. split; [|done..]. intros p Hp. simpl. rewrite lookup_insert_ne; [done|congruence].
Qed.
Lemma same_remove_temporary f t : is_temporary t = true -> same_files f (remove t f).
Proof.
  intros Ht. split; [|done..]. intros p Hp. simpl. rewrite lookup_delete_ne; [done|congruence].
Qed.
Lemma same_bump f : same_files f (bump_sequence f).
Proof. done. Qed.

(** The process has [n] names for temporary files left that are free. *)
Record tidy (n : Z) (f : Files) : Prop := {
  tidy_range : 0 <= temp_sequence f /\ temp_sequence f + n < 2 ^ 64;
  tidy_free : forall r s, temp_sequence f <= s -> nodes f !! Temporary r (process_id f) s = None;
}.
(** The process touches no temporary file of another one. *)
Record own_temps (f0 f : Files) : Prop := {
  own_pid : process_id f = process_id f0;
  own_others : forall r pid s, pid <> process_id f0 ->
    nodes f !! Temporary r pid s = nodes f0 !! Temporary r pid s;
}.
#[export] Instance own_temps_preorder : PreOrder own_temps.
Proof.
  split; [by intros f|]. intros f g h [Hp Ho] [Hp' Ho']. split; [congruence|].
  intros r pid s Hn. rewrite Ho' by congruence. by apply Ho.
Qed.
Lemma own_put_temporary r s n f : own_temps f (put (Temporary r (process_id f) s) n f).
Proof. split; [done|]. intros r' pid s' Hn. simpl. rewrite lookup_insert_ne; congruence. Qed.
Lemma own_remove_temporary r s f : own_temps f (remove (Temporary r (process_id f) s) f).
Proof. split; [done|]. intros r' pid s' Hn. simpl. rewrite lookup_delete_ne; congruence. Qed.
Lemma own_put p n f : is_temporary p = false -> own_temps f (put p n f).
Proof. intros Hp. split; [done|]. intros r pid s _. simpl. rewrite lookup_insert_ne; [done|]. by intros ->. Qed.
Lemma own_remove p f : is_temporary p = false -> own_temps f (remove p f).
Proof. intros Hp. split; [done|]. intros r pid s _. simpl. rewrite lookup_delete_ne; [done|]. by intros ->. Qed.

Lemma tidy_put n p x f :
  match p with Temporary _ _ s => s < temp_sequence f | _ => True end -> tidy n f -> tidy n (put p x f).
Proof.
  intros Hp [Hr Hf]. split; [done|]. intros r s Hs. simpl in *. rewrite lookup_insert_ne; [auto|].
  intros ->. lia.
Qed.
Lemma tidy_remove n p f : tidy n f -> tidy n (remove p f).
Proof. intros [Hr Hf]. split; [done|]. intros r s Hs. simpl in *. apply lookup_delete_None. auto. Qed.
Lemma tidy_mono n n' f : n' <= n -> tidy n f -> tidy n' f.
Proof. intros Hn [Hr Hf]. split; [lia|done]. Qed.
Lemma tidy_create r x n f : 1 <= n -> tidy n f ->
  let t := Temporary r (process_id f) (temp_sequence f) in
  temp_sequence f < temp_sequence (bump_sequence f)
  /\ tidy (n - 1) (put t x (bump_sequence f)).
Proof.
  intros Hn [Hr Hf]. simpl.
  assert (cast_u 64 (temp_sequence f + 1) = temp_sequence f + 1) as E.
  { apply cast_u_small. unfold is_uint. lia. }
  rewrite E. split; [lia|]. split; simpl; rewrite E; [lia|]. intros r' s Hs.
  rewrite lookup_insert_ne by (intros [= _ ?]; lia). apply Hf. lia.
Qed.

Section atomic_write.
Context (clean : bool) (p : Path) (bs : list Z) (f0 : Files) (n : Z).
Hypotheses (Hp : is_temporary p = false) (Hn : 1 <= n).
Hypothesis Hclean : clean = true ->
  tidy n f0 /\ parent_private p f0 = true /\ is_dir (nodes f0 !! p) = false.

Definition before (f : Files) : Prop := same_files f0 f /\ own_temps f0 f.
Definition written (f : Files) : Prop :=
  same_files (put p (NFile bs PRIVATE_MODE) f0) f /\ own_temps f0 f.

Lemma before_put t s x f :
  t = Temporary (in_root p) (process_id f0) s -> before f -> before (put t x f).
Proof.
  intros -> [Hs Ho]. split; [etransitivity; [exact Hs|by apply same_put_temporary]|].
  etransitivity; [exact Ho|]. rewrite <- (own_pid _ _ Ho). apply own_put_temporary.
Qed.

Lemma create_temporary_spec k :
  spec clean (fun f => before f /\ (clean = true -> tidy n f /\ (k <> 0)%nat))
    (create_temporary k p)
    (fun t f => before f /\ match t with
       | Some t => exists s, t = Temporary (in_root p) (process_id f0) s /\ is_Some (nodes f !! t)
                     /\ (clean = true -> s < temp_sequence f /\ tidy (n - 1) f)
       | None => clean = false end)
    before.
Proof.
  induction k as [|k IH]; cbn [create_temporary].
  { apply spec_ret. intros f [Hb Hc]. split; [done|]. destruct clean; [|done]. by destruct (Hc eq_refl). }
  eapply spec_bind with (R := fun t f =>
    (before f /\ (clean = true -> tidy n f)) /\ t = Temporary (in_root p) (process_id f) (temp_sequence f)).
  { apply spec_look. intros f [Hb Hc]. split; [|done]. split; [done|]. naive_solver. }
  intros t.
  eapply spec_bind with (R := fun _ f => before f /\ exists s,
    t = Temporary (in_root p) (process_id f0) s
    /\ (clean = true -> nodes f !! t = None /\ s < temp_sequence f
        /\ forall x, tidy (n - 1) (put t x f))).
  { apply spec_change. intros f [[[Hs Ho] Hc] ->]. split; [split; [by destruct Hs|by destruct Ho]|].
    exists (temp_sequence f). rewrite (own_pid _ _ Ho). split; [done|]. intros Et.
    specialize (Hc Et). rewrite <- (own_pid _ _ Ho). split; [|split].
    - simpl. apply (tidy_free _ _ Hc). lia.
    - by apply (tidy_create (in_root p) NOther n f).
    - intros x. by apply (tidy_create (in_root p) x n f). }
  intros []. eapply spec_bind with (R := fun taken f => before f /\ (taken = true -> clean = false)
    /\ exists s, t = Temporary (in_root p) (process_id f0) s
       /\ (clean = true -> s < temp_sequence f /\ forall x, tidy (n - 1) (put t x f))).
  { apply spec_look. intros f [Hb (s & -> & Hc)]. split; [done|].
    split; [|exists s; split; [done|]; intros E; by destruct (Hc E) as (_ & ? & ?)].
    intros [x Ex]%bool_decide_eq_true_1. destruct clean; [|done]. destruct (Hc eq_refl) as [E _].
    by rewrite E in Ex. }
  intros [].
  - eapply spec_bind with (R := fun _ f => before f /\ (clean = true -> tidy n f /\ (k <> 0)%nat));
      [|intros []; exact IH]. apply spec_io.
    + intros f (Hb & Hc & _). split; [done|]. by rewrite Hc by done.
    + by intros m f [Hb _].
  - eapply spec_bind with (R := fun _ f => before f /\ exists s,
      t = Temporary (in_root p) (process_id f0) s /\ is_Some (nodes f !! t)
      /\ (clean = true -> s < temp_sequence f /\ tidy (n - 1) f));
      [|intros []; by apply spec_ret]. apply spec_io.
    + intros f (Hb & _ & s & Et & Hc). split; [by eapply before_put|]. exists s. split; [done|].
      split; [simpl; by rewrite lookup_insert_eq|]. intros E. destruct (Hc E) as [Hs Ht]. by split.
    + by intros m f [Hb _].
Qed.

Lemma write_temporary_spec t s :
  t = Temporary (in_root p) (process_id f0) s ->
  spec clean (fun f => before f /\ (clean = true -> s < temp_sequence f /\ tidy (n - 1) f))
    (write_temporary t p bs)
    (fun _ f => written f /\ is_dir (nodes f0 !! p) = false /\ (clean = true -> tidy (n - 1) f))
    (fun f => before f \/ written f).
Proof.
  intros Et. unfold write_temporary.
  assert (forall x f, before f /\ (clean = true -> s < temp_sequence f /\ tidy (n - 1) f) ->
            before (put t x f) /\ (clean = true -> s < temp_sequence (put t x f) /\ tidy (n - 1) (put t x f)))
    as Hput.
  { intros x f [Hb Hc]. split; [by eapply before_put|]. intros E. destruct (Hc E). split; [done|].
    apply tidy_put; [by rewrite Et|done]. }
  set (live f := before f /\ (clean = true -> s < temp_sequence f /\ tidy (n - 1) f)) in *.
  set (filled f := live f /\ nodes f !! t = Some (NFile bs PRIVATE_MODE)).
  eapply spec_bind with (R := fun _ => live); [apply spec_io|intros []].
  { intros f Hf. by apply Hput. }
  { intros m f [Hb _]. by left. }
  eapply spec_bind with (R := fun _ => filled); [apply spec_io|intros []].
  { intros f Hf. split; [by apply Hput|]. simpl. by rewrite lookup_insert_eq. }
  { intros m f Hf. left. by apply Hput. }
  eapply spec_bind with (R := fun _ => filled); [apply spec_io|intros []].
  { done. }
  { intros m f [[Hb _] _]. by left. }
  eapply spec_bind with (R := fun _ f =>
    written f /\ is_dir (nodes f0 !! p) = false /\ (clean = true -> tidy (n - 1) f)).
  - unfold rename.
    eapply spec_bind with (R := fun blocked f => blocked = is_dir (nodes f !! p) /\ filled f);
      [by apply spec_look|intros blocked].
    destruct blocked.
    + apply spec_fail. intros f (Hd & [[Hb Hc] _]). split; [|by left]. destruct clean; [|done].
      destruct (Hclean eq_refl) as (_ & _ & Hd'). destruct Hb as [[Hs _ _] _].
      rewrite (Hs p Hp) in Hd. congruence.
    + apply spec_io; [|intros m f (_ & [[Hb _] _]); by left].
      intros f (Hd & [[Hb Hc] Hx]). rewrite Hx. destruct Hb as [Hs Ho].
      assert (own_temps f0 (remove t f)) as Ho'.
      { etransitivity; [exact Ho|]. rewrite Et, <- (own_pid _ _ Ho). apply own_remove_temporary. }
      split; [split|split].
      * rewrite Hs. apply put_same, same_remove_temporary. by rewrite Et.
      * etransitivity; [exact Ho'|by apply own_put].
      * by rewrite Hd, (same_nodes _ _ Hs p Hp).
      * intros E. destruct (Hc E) as [_ Ht]. apply tidy_put; [by destruct p|by apply tidy_remove].
  - intros []. apply spec_io; [done|]. intros m f [Hw _]. by right.
Qed.

Lemma atomic_write_spec :
  spec clean (eq f0) (atomic_write p bs)
    (fun _ f => written f /\ parent_private p f0 = true /\ is_dir (nodes f0 !! p) = false
                /\ (clean = true -> tidy (n - 1) f))
    (fun f => before f \/ written f).
Proof.
  unfold atomic_write, validate_private_parent.
  eapply spec_bind with (R := fun _ f => parent_private p f0 = true /\ f0 = f);
    [|intros []; apply spec_pure; intros Hparent].
  { eapply spec_bind with (R := fun _ => eq f0); [apply spec_io|intros []].
    { by intros f <-. }
    { intros m f <-. left. by split. }
    eapply spec_bind with (R := fun ok f => ok = parent_private p f0 /\ f0 = f);
      [apply spec_look; by intros f <-|intros ok].
    destruct ok; [apply spec_ret; naive_solver|].
    apply spec_fail. intros f [Hf <-]. split; [|by left]. destruct clean; [|done].
    destruct (Hclean eq_refl) as (_ & E & _). congruence. }
  eapply spec_bind.
  { eapply spec_conseq; [apply create_temporary_spec|..].
    - intros f <-. split; [by split|]. intros E. by destruct (Hclean E).
    - intros t f Hf. pattern t, f in Hf. exact Hf.
    - intros f Hf. by left. }
  intros [t|]; [|apply spec_fail; naive_solver].
  intros d (Hb & s & Et & _ & Hc) Hf. unfold remove_on_error.
  pose proof (write_temporary_spec t s Et d (conj Hb Hc) Hf) as Hw.
  destruct (write_temporary t p bs d) as [[[]|e] d']; [naive_solver|]. destruct Hw as [Hcl Hw]. split; [done|].
  assert (forall f, before f \/ written f -> before (remove t f) \/ written (remove t f)) as Hrm.
  { subst t. intros f [[Hs Ho]|[Hs Ho]]; [left|right]; (split;
      [etransitivity; [exact Hs|by apply same_remove_temporary]
      |etransitivity; [exact Ho|rewrite <- (own_pid _ _ Ho); apply own_remove_temporary]]). }
  unfold io, next_outcome, untouched. destruct (faults d') as [|[|k] rest]; simpl; auto.
Qed.
End atomic_write.

(** The same for any precondition. *)
Lemma atomic_write_rule clean p bs n (P X : Files -> Prop) (Q : unit -> Files -> Prop) :
  is_temporary p = false -> 1 <= n ->
  (forall f, P f -> clean = true ->
     tidy n f /\ parent_private p f = true /\ is_dir (nodes f !! p) = false) ->
  (forall f f', P f -> written p bs f f' -> parent_private p f = true -> is_dir (nodes f !! p) = false ->
     (clean = true -> tidy (n - 1) f') -> Q tt f') ->
  (forall f f', P f -> before f f' \/ written p bs f f' -> X f') ->
  spec clean P (atomic_write p bs) Q X.
Proof.
  intros Hp Hn Hclean HQ HX d Hd Hf.
  pose proof (atomic_write_spec clean p bs (files d) n Hp Hn (Hclean _ Hd) d eq_refl Hf) as Hs.
  destruct (atomic_write p bs d) as [[[]|e] d']; naive_solver.
Qed.
