(* ===== verification/StateFile.v ===== *)
(** * StateFile: the small private files of the daemon

    The stores of the daemon (configuration, source registry, selection, overrides, manual
    source) keep one private file each and replace it with [worker_config::atomic_write].
    This file states what a replacement may leave behind ([WriteOutcome], which
    [atomic_write_outcome] derives from the contract proved in [AtomicFile]) and the checks
    the stores make before they read. *)

From S2P Require Import Prelude AtomicFile Source.

Local Open Scope Z_scope.

(** The three ways a replacement can end: done, failed with the old file in place, and failed
    after the new file took its place (the directory could not be synchronised). *)
Inductive WriteOutcome : Type := Written | FailedBefore | FailedAfter.
Definition stored (bs : list Z) : DiskNode := Source.Node true false true (Some bs) (len bs).
Definition write_node (o : WriteOutcome) (bs : list Z) (d : DiskNode) : bool * DiskNode :=
  match o with
  | Written => (true, stored bs)
  | FailedBefore => (false, d)
  | FailedAfter => (false, stored bs)
  end.
(** [node_view] is how [fs::symlink_metadata] and [fs::read] see a node. *)
Definition node_view (n : option AtomicFile.Node) : DiskNode :=
  match n with
  | None => Source.NotFound
  | Some (NFile bs mode) => Source.Node true false (private_mode mode) (Some bs) (len bs)
  | Some (NDir _) => Source.Node false false false None 0
  | Some (NSymlink t) => Source.Node false true false t 0
  | Some NOther => Source.Node false false false None 0
  end.
(** [atomic_write], on any disk and with any faults, ends in one of the three ways. *)
Lemma atomic_write_outcome p bs d r d' :
  is_temporary p = false -> atomic_write p bs d = (r, d') ->
  exists o, write_node o bs (node_view (nodes (files d) !! p)) = (is_ok r, node_view (nodes (files d') !! p)).
Proof.
  intros Hp Hr.
  pose proof (atomic_write_spec false p bs (files d) 1 Hp ltac:(lia) ltac:(done) d eq_refl ltac:(done)) as Hs.
  rewrite Hr in Hs.
  assert (forall f, written p bs (files d) f -> node_view (nodes f !! p) = stored bs) as Hw.
  { intros f [Hf _]. rewrite (same_nodes _ _ Hf p Hp). simpl. by rewrite lookup_insert_eq. }
  destruct r as [[]|e].
  - destruct Hs as [(Hf & _) _]. exists Written. cbn. by rewrite (Hw _ Hf).
  - destruct Hs as [_ [[Hf _]|Hf]].
    + exists FailedBefore. cbn. by rewrite (same_nodes _ _ Hf p Hp).
    + exists FailedAfter. cbn. by rewrite (Hw _ Hf).
Qed.


(** ** Reading
    [fs::symlink_metadata], the checks of a store and [fs::read]. *)
Inductive Inspection : Type :=
| Absent
| NoMetadata
| Unsuitable
| Unreadable
| Contents (bs : list Z).
Definition inspect (empty_allowed : bool) (limit : Z) (d : DiskNode) : Inspection :=
  match d with
  | Source.NotFound => Absent
  | MetadataError => NoMetadata
  | Source.Node is_file is_symlink is_private contents size =>
      if negb is_file || is_symlink || (negb empty_allowed && (size =? 0)) || (limit <? size)
         || negb is_private
      then Unsuitable
      else match contents with Some bs => Contents bs | None => Unreadable end
  end.
Lemma inspect_stored empty_allowed limit bs :
  0 < len bs <= limit -> inspect empty_allowed limit (stored bs) = Contents bs.
Proof.
  intros H. unfold stored, inspect. rewrite (proj2 (Z.eqb_neq _ _)), (proj2 (Z.ltb_ge _ _)) by lia.
  by destruct empty_allowed.
Qed.
(** A replacement that did not fail late leaves the new file or the old one. *)
Lemma write_node_cases o bs d ok d' :
  write_node o bs d = (ok, d') ->
  (ok = true /\ d' = stored bs) \/ (ok = false /\ (o <> FailedAfter -> d' = d)).
Proof. destruct o; intros [= <- <-]; naive_solver. Qed.
