(* ===== verification/Transaction.v ===== *)
(** * Transaction: the commit journal of a subscription change

    Models crates/nethopd/src/subscription_transaction.rs: the journal with its
    phases, the store that writes and reads it, and [recover], which the worker runs
    before it reads its configuration.  The files are those of AtomicFile; SHA-256 and
    the journal's JSON codec are parameters. *)

From S2P Require Import Prelude Text AtomicFile.

Local Open Scope Z_scope.

Definition JOURNAL_SCHEMA : Z := 1.
Definition JOURNAL_FILE : string := "subscription.commit.json".
Definition MAX_JOURNAL_BYTES : Z := 4096.

Inductive CommitPhase : Type :=
| Prepared | Checked | Sealed | Journaled | ConfigPublished | GenerationPublished | Committed.
#[export] Instance CommitPhase_eq_dec : EqDecision CommitPhase.
Proof. solve_decision. Defined.

Definition rank (p : CommitPhase) : Z :=
  match p with
  | Prepared => 0
  | Checked => 1
  | Sealed => 2
  | Journaled => 3
  | ConfigPublished => 4
  | GenerationPublished => 5
  | Committed => 6
  end.

Inductive TransactionError : Type :=
| InvalidRoot | InvalidJournal | PhaseRegression | ReadFailed | WriteFailed | RecoveryBlocked.
Inductive RecoveryAction : Type := DiscardStaged | CompleteConfigPublish | ClearJournal.
#[export] Instance RecoveryAction_eq_dec : EqDecision RecoveryAction.
Proof. solve_decision. Defined.
#[export] Instance TransactionError_eq_dec : EqDecision TransactionError.
Proof. solve_decision. Defined.

Record CommitJournal : Type := mkJournal {
  schema : Z;
  old_config_digest : string;
  new_config_digest : string;
  old_generation : option Z;
  new_generation : Z;
  phase : CommitPhase;
  staged_generation : string;
  staged_config : string;
}.

Definition set_phase (p : CommitPhase) (j : CommitJournal) : CommitJournal :=
  mkJournal (schema j) (old_config_digest j) (new_config_digest j) (old_generation j)
    (new_generation j) p (staged_generation j) (staged_config j).

(** The closure of [validate]. *)
Definition digest (value : string) : bool :=
  (str_len value =? 64) && forallb is_lower_hex (bytes value).

Definition staged_byte (b : Z) : bool := is_ascii_alphanumeric b || (b =? 45) || (b =? 95).
Definition valid_staged_name (value prefix : string) : bool :=
  match strip_prefix (bytes prefix) (bytes value) with
  | None => false
  | Some rest => (str_len value <=? 128) && forallb staged_byte rest
  end.

Definition validate (j : CommitJournal) : Result TransactionError unit :=
  if negb (schema j =? JOURNAL_SCHEMA) || negb (digest (old_config_digest j))
     || negb (digest (new_config_digest j)) || (new_generation j =? 0)
     || bool_decide (old_generation j = Some 0)
     || negb (valid_staged_name (staged_generation j) ".candidate-")
     || negb (valid_staged_name (staged_config j) ".candidate-config-")
  then Err InvalidJournal
  else Ok tt.

Definition CommitJournal_new (old new : string) (old_gen : option Z) (new_gen : Z)
    (staged_gen staged_cfg : string) : Result TransactionError CommitJournal :=
  let journal := mkJournal JOURNAL_SCHEMA old new old_gen new_gen Prepared staged_gen staged_cfg in
  validate journal ≫= fun _ => Ok journal.

Definition advance (p : CommitPhase) (j : CommitJournal) : Result TransactionError CommitJournal :=
  if rank p <? rank (phase j) then Err PhaseRegression else Ok (set_phase p j).

Abbreviation Tx := (Mut Disk TransactionError).
Definition journal_path : Path := RootFile JOURNAL_FILE.

(** [remove_owned_staged]: a [remove_dir_all] that fails leaves any of the entries. *)
Definition partly_removed (n : nat) (entries : list string) : list string :=
  imap (fun i e => (i, e)) entries ≫= fun '(i, e) => if Nat.testbit n i then [] else [e].
Definition remove_owned_staged (p : Path) : Tx unit :=
  io WriteFailed id untouched ;;
  node ← look (fun f => nodes f !! p);
  match node with
  | None => mret tt
  | Some (NSymlink _) | Some NOther => mut_fail InvalidJournal
  | Some (NDir entries) =>
      io WriteFailed (remove p) (fun n => put p (NDir (partly_removed n entries)))
  | Some (NFile _ _) => io WriteFailed (remove p) untouched
  end.

(** [fs::read] *)
Definition fs_read (e : TransactionError) (p : Path) : Tx (list Z) :=
  io e id untouched ;;
  contents ← look (fun f => readable (nodes f !! p));
  match contents with Some bs => mret bs | None => mut_fail e end.

Definition clear : Tx unit :=
  node ← look (fun f => nodes f !! journal_path);
  match node with
  | Some (NDir _) => mut_fail WriteFailed
  | _ => io WriteFailed (remove journal_path) untouched
  end.

(** [CommitJournalStore::new]: what the path of the root names. *)
Definition CommitJournalStore_new (is_absolute : bool) (root : option Node) :
    Result TransactionError unit :=
  match root with
  | Some (NDir _) => if negb is_absolute then Err InvalidRoot else Ok tt
  | _ => Err InvalidRoot
  end.

Section store.
Context (sha256_hex : list Z -> string) (encode : CommitJournal -> list Z)
  (decode : list Z -> option CommitJournal).

Definition load : Tx (option CommitJournal) :=
  io ReadFailed id untouched ;;
  node ← look (fun f => nodes f !! journal_path);
  match node with
  | None => mret None
  | Some (NFile contents mode) =>
      if (MAX_JOURNAL_BYTES <? len contents) || negb (private_mode mode)
      then mut_fail InvalidJournal
      else
        bs ← fs_read ReadFailed journal_path;
        match decode bs with
        | None => mut_fail InvalidJournal
        | Some journal => mut_lift (validate journal) ;; mret (Some journal)
        end
  | Some _ => mut_fail InvalidJournal
  end.

Definition write (journal : CommitJournal) : Tx unit :=
  mut_lift (validate journal) ;;
  if MAX_JOURNAL_BYTES <? len (encode journal) then mut_fail InvalidJournal
  else or_error WriteFailed (atomic_write journal_path (encode journal)).

Definition stage_config (journal : CommitJournal) (bs : list Z) : Tx unit :=
  mut_lift (validate journal) ;;
  if (len bs =? 0) || (MAX_CONFIG_BYTES <? len bs)
     || negb (String.eqb (sha256_hex bs) (new_config_digest journal))
  then mut_fail InvalidJournal
  else or_error WriteFailed (atomic_write (RootFile (staged_config journal)) bs).

(** [&mut CommitJournal]: the journal in memory is returned, and unchanged by an
    error. *)
Definition advance_and_write (journal : CommitJournal) (p : CommitPhase) : Tx CommitJournal :=
  candidate ← mut_lift (advance p journal);
  write candidate ;;
  mret candidate.

Definition complete (journal : CommitJournal) : Tx CommitJournal :=
  journal ← advance_and_write journal Committed;
  remove_owned_staged (RootFile (staged_config journal)) ;;
  clear ;;
  mret journal.

Definition abort (journal : CommitJournal) : Tx unit :=
  remove_owned_staged (RootFile (staged_config journal)) ;; clear.

Definition recovery_action (journal : CommitJournal) (current : option Z) (staged : option string) :
    Result TransactionError RecoveryAction :=
  validate journal ≫= fun _ =>
  if bool_decide (phase journal = Committed) then Ok ClearJournal
  else if bool_decide (current = Some (new_generation journal))
          || (rank GenerationPublished <=? rank (phase journal))
  then if bool_decide (staged = Some (new_config_digest journal))
       then Ok CompleteConfigPublish else Err RecoveryBlocked
  else Ok DiscardStaged.

(** The action of [recover]. *)
Definition choose_action (journal : CommitJournal) (current : option Z)
    (staged canonical : option string) : Result TransactionError RecoveryAction :=
  if bool_decide (current = Some (new_generation journal)) then
    if bool_decide (canonical = Some (new_config_digest journal)) then Ok ClearJournal
    else if bool_decide (staged = Some (new_config_digest journal)) then Ok CompleteConfigPublish
    else Err RecoveryBlocked
  else Ok DiscardStaged.

Definition perform (journal : CommitJournal) (action : RecoveryAction) : Tx unit :=
  let staged := RootFile (staged_config journal) in
  match action with
  | DiscardStaged =>
      remove_owned_staged (RootFile (staged_generation journal)) ;;
      remove_owned_staged (GenerationDir (new_generation journal)) ;;
      remove_owned_staged staged ;;
      clear
  | CompleteConfigPublish =>
      bs ← fs_read RecoveryBlocked staged;
      if negb (String.eqb (sha256_hex bs) (new_config_digest journal))
      then mut_fail RecoveryBlocked
      else
        or_error WriteFailed (atomic_write CanonicalConfig bs) ;;
        journal ← mut_lift (advance Committed journal);
        write journal ;;
        remove_owned_staged staged ;;
        clear
  | ClearJournal =>
      remove_owned_staged staged ;;
      clear
  end.

Definition digest_of (p : Path) : Tx (option string) :=
  contents ← to_option (fs_read RecoveryBlocked p);
  mret (sha256_hex <$> contents).

Definition recover (current : option Z) : Tx RecoveryAction :=
  loaded ← load;
  match loaded with
  | None => mret ClearJournal
  | Some journal =>
      staged ← digest_of (RootFile (staged_config journal));
      canonical ← digest_of CanonicalConfig;
      action ← mut_lift (choose_action journal current staged canonical);
      perform journal action ;;
      mret action
  end.
End store.

(** ** The names of a valid journal *)
Lemma advance_committed j : advance Committed j = Ok (set_phase Committed j).
Proof. unfold advance. by destruct (phase j). Qed.

Lemma validate_names j :
  validate j = Ok tt ->
  RootFile (staged_config j) <> journal_path /\ RootFile (staged_generation j) <> journal_path.
Proof.
  unfold validate. intros Hv. split_if_in Hv Hc; [done|].
  repeat (apply orb_false_iff in Hc as [Hc ?]). rewrite negb_false_iff in *.
  unfold journal_path. split; intros [= E]; rewrite E in *; done.
Qed.
Lemma validate_set_phase p j : validate (set_phase p j) = validate j.
Proof. done. Qed.

(** ** Removals *)
Definition removable (n : option Node) : bool :=
  match n with None | Some (NFile _ _) | Some (NDir _) => true | _ => false end.

Lemma remove_absent p f : nodes f !! p = None -> remove p f = f.
Proof. intros Hp. destruct f. unfold remove, with_nodes. simpl in *. by rewrite delete_id. Qed.

Lemma remove_owned_staged_spec clean p f0 :
  (clean = true -> removable (nodes f0 !! p) = true) ->
  spec clean (eq f0) (remove_owned_staged p)
    (fun _ f => f = remove p f0 /\ removable (nodes f0 !! p) = true)
    (fun f => f = f0 \/ exists es es', nodes f0 !! p = Some (NDir es) /\ f = put p (NDir es') f0).
Proof.
  intros Hc. unfold remove_owned_staged.
  eapply spec_bind with (R := fun _ => eq f0); [apply spec_io; [by intros f <-|intros m f <-; by left]|intros []].
  eapply spec_bind with (R := fun n f => nodes f0 !! p = n /\ f0 = f);
    [apply spec_look; by intros f <-|intros n].
  apply spec_pure. intros Hn. rewrite Hn in Hc |- *. destruct n as [[b m|es|t|]|].
  - apply spec_io; [by intros f <-|]. intros m' f <-. by left.
  - apply spec_io; [by intros f <-|]. intros m' f <-. right. by exists es, (partly_removed m' es).
  - apply spec_fail. intros f <-. split; [|by left]. destruct clean; [by specialize (Hc eq_refl)|done].
  - apply spec_fail. intros f <-. split; [|by left]. destruct clean; [by specialize (Hc eq_refl)|done].
  - apply spec_ret. intros f <-. by rewrite remove_absent.
Qed.

Lemma clear_spec clean f0 :
  (clean = true -> is_dir (nodes f0 !! journal_path) = false) ->
  spec clean (eq f0) clear (fun _ f => f = remove journal_path f0) (eq f0).
Proof.
  intros Hc. unfold clear.
  eapply spec_bind with (R := fun n f => nodes f0 !! journal_path = n /\ f0 = f);
    [apply spec_look; by intros f <-|intros n].
  apply spec_pure. intros Hn. rewrite Hn in Hc.
  destruct n as [[b m|es|t|]|]; try (apply spec_io; [by intros f <-|by intros m' f <-]).
  apply spec_fail. intros f <-. split; [|done]. destruct clean; [by specialize (Hc eq_refl)|done].
Qed.

Lemma fs_read_spec clean e p f0 :
  (clean = true -> is_Some (readable (nodes f0 !! p))) ->
  spec clean (eq f0) (fs_read e p) (fun b f => readable (nodes f0 !! p) = Some b /\ f0 = f) (eq f0).
Proof.
  intros Hc. unfold fs_read.
  eapply spec_bind with (R := fun _ => eq f0); [apply spec_io; [by intros f <-|by intros m f <-]|intros []].
  eapply spec_bind with (R := fun n f => readable (nodes f0 !! p) = n /\ f0 = f);
    [apply spec_look; by intros f <-|intros n].
  apply spec_pure. intros Hn. rewrite Hn in Hc |- *. destruct n as [bs|]; [by apply spec_ret|].
  apply spec_fail. intros f <-. split; [|done].
  destruct clean; [by destruct (Hc eq_refl)|done].
Qed.

(** ** Reading *)
Section reading.
Context (sha256_hex : list Z -> string) (decode : list Z -> option CommitJournal).

(** The digest of the file at a path. *)
Definition file_digest (p : Path) (f : Files) : option string := sha256_hex <$> readable (nodes f !! p).
(** The journal as [load] finds it. *)
Definition loadable (f : Files) (j' : CommitJournal) : Prop :=
  exists b mode, nodes f !! journal_path = Some (NFile b mode) /\ private_mode mode = true
    /\ len b <= MAX_JOURNAL_BYTES /\ decode b = Some j' /\ validate j' = Ok tt.

Lemma load_spec clean f1 :
  (clean = true -> nodes f1 !! journal_path = None \/ exists j', loadable f1 j') ->
  spec clean (eq f1) (load decode)
    (fun r f => match r with None => nodes f1 !! journal_path = None | Some j' => loadable f1 j' end /\ f1 = f)
    (eq f1).
Proof.
  intros Hc. unfold load.
  eapply spec_bind with (R := fun _ => eq f1); [apply spec_io; [by intros f <-|by intros m f <-]|intros []].
  eapply spec_bind with (R := fun n f => nodes f1 !! journal_path = n /\ f1 = f);
    [apply spec_look; by intros f <-|intros n].
  apply spec_pure. intros Hn.
  assert (forall e, (forall j', ~ loadable f1 j') -> nodes f1 !! journal_path <> None ->
    spec clean (eq f1) (mut_fail e : Tx (option CommitJournal)) (fun r f => match r with
      None => nodes f1 !! journal_path = None | Some j' => loadable f1 j' end /\ f1 = f) (eq f1)) as Hfail.
  { intros e Hl Hj. apply spec_fail. intros f <-. split; [|done]. destruct clean; [|done].
    destruct (Hc eq_refl) as [|[j' ?]]; [done|]. by destruct (Hl j'). }
  destruct n as [[b m|es|t|]|];
    try (apply (Hfail InvalidJournal); [intros j' (b' & m' & Hb & _)|]; rewrite Hn in *; done).
  2: { apply spec_ret. by intros f <-. }
  destruct (_ || _) eqn:Hg.
  { apply (Hfail InvalidJournal); [|by rewrite Hn]. intros j' (b' & m' & Hb & Hm & Hl & _). rewrite Hn in Hb.
    injection Hb as <- <-. rewrite Hm in Hg. cbn in Hg. rewrite orb_false_r in Hg. apply Z.ltb_lt in Hg. lia. }
  apply orb_false_iff in Hg as [Hlen%Z.ltb_ge Hm%negb_false_iff].
  eapply spec_bind; [apply fs_read_spec; intros _; rewrite Hn; by eexists|]. intros b'.
  apply spec_pure. rewrite Hn. intros [= <-]. destruct (decode b) as [j'|] eqn:Hd.
  - destruct (validate j') as [[]|e] eqn:Hv.
    + eapply spec_bind with (R := fun _ => eq f1); [by apply spec_lift|intros []].
      apply spec_ret. intros f <-. split; [|done]. by exists b, m.
    + intros d Hd1 Hf. simpl. split; [|done]. destruct clean; [|done].
      destruct (Hc eq_refl) as [|[j2 (b2 & m2 & Hb & _ & _ & Hd2 & Hv2)]]; congruence.
  - apply (Hfail InvalidJournal); [|by rewrite Hn]. intros j' (b2 & m2 & Hb & _ & _ & Hd2 & _). congruence.
Qed.

Lemma digest_of_spec clean p f1 X :
  spec clean (eq f1) (digest_of sha256_hex p)
    (fun dg f => (dg = file_digest p f1 \/ (clean = false /\ dg = None)) /\ f1 = f) X.
Proof.
  intros d -> Hf. unfold digest_of, to_option, fs_read, io, id, next_outcome, look, mbind, Mut_bind, file_digest.
  destruct (faults d) as [|[|n] rest]; simpl.
  - destruct (readable _); (split; [split; [by left|done]|done]).
  - destruct clean; [by specialize (Hf eq_refl)|].
    destruct (readable _); (split; [split; [by left|done]|done]).
  - destruct clean; [by specialize (Hf eq_refl)|]. split; [split; [by right|done]|done].
Qed.

End reading.

(** ** Recovery *)
Section recovery.
Context (sha256_hex : list Z -> string) (encode : CommitJournal -> list Z)
  (decode : list Z -> option CommitJournal).
Hypothesis decode_encode : forall j, decode (encode j) = Some j.
Context (current : option Z) (j : CommitJournal) (f0 : Files).

Local Abbreviation staged := (RootFile (staged_config j)).
Local Abbreviation candidate := (RootFile (staged_generation j)).
Local Abbreviation generation := (GenerationDir (new_generation j)).
Local Abbreviation published_generation := (current = Some (new_generation j)).

(** The configuration is the new one. *)
Definition published (f : Files) : Prop := file_digest sha256_hex CanonicalConfig f = Some (new_config_digest j).

(** The paths a recovery may change. *)
Definition touched : list Path :=
  journal_path :: staged ::
  (if bool_decide published_generation then [CanonicalConfig] else [candidate; generation]).
Definition rest_kept (f : Files) : Prop :=
  forall p, is_temporary p = false -> p ∉ touched -> nodes f !! p = nodes f0 !! p.

(** A finished recovery of the files [f0], whose journal is [j]: the journal and the
    staged configuration are gone.  If the new generation is the current one, the
    configuration is the new one; if not, it is as it was, and the new generation is
    gone, staged or sealed.  Nothing else has changed. *)
Record settled (f : Files) : Prop := {
  settled_journal : nodes f !! journal_path = None;
  settled_staged : nodes f !! staged = None;
  settled_published : published_generation -> published f;
  settled_discarded : ~ published_generation ->
    nodes f !! candidate = None /\ nodes f !! generation = None;
  settled_rest : rest_kept f;
}.

(** What publishing the staged configuration needs. *)
Record publishable (f : Files) : Prop := {
  pub_staged : file_digest sha256_hex staged f = Some (new_config_digest j);
  pub_root : root_private f = true;
  pub_config : config_private f = true;
  pub_canonical : is_dir (nodes f !! CanonicalConfig) = false;
  pub_journal : len (encode (set_phase Committed j)) <= MAX_JOURNAL_BYTES;
}.

(** A recovery of [f0] that has not finished, and can. *)
Record live (f : Files) : Prop := {
  live_journal : exists j', loadable decode f j' /\ set_phase Committed j' = set_phase Committed j;
  live_staged : removable (nodes f !! staged) = true;
  live_published : published_generation -> published f \/ publishable f;
  live_discarded : ~ published_generation ->
    removable (nodes f !! candidate) = true /\ removable (nodes f !! generation) = true;
  live_rest : rest_kept f;
}.

Hypothesis j_valid : validate j = Ok tt.

Lemma file_digest_same f f' p :
  is_temporary p = false -> same_files f f' -> file_digest sha256_hex p f' = file_digest sha256_hex p f.
Proof. intros Hp Hs. unfold file_digest. by rewrite (same_nodes _ _ Hs p Hp). Qed.

(** Everything is said of files that are not temporary. *)
#[local] Instance live_same : Proper (same_files ==> impl) live.
Proof.
  intros f f' Hs [(j' & (b & m & Hj & Hm) & Hp) Hst Hpub Hd Hr]. pose proof Hs as [Hn Hroot Hcfg].
  split.
  - exists j'. split; [|done]. exists b, m. by rewrite Hn.
  - by rewrite Hn.
  - intros Hg. destruct (Hpub Hg) as [H|[H1 H2 H3 H4 H5]]; [left|right].
    + unfold published. by rewrite (file_digest_same f f') by done.
    + split; [by rewrite (file_digest_same f f')|congruence|congruence|by rewrite Hn|done].
  - intros Hg. rewrite !Hn by done. by apply Hd.
  - intros p Hp' Ht. rewrite Hn by done. by apply Hr.
Qed.
#[local] Instance published_same : Proper (same_files ==> impl) published.
Proof. intros f f' Hs. unfold published, impl. by rewrite (file_digest_same f f'). Qed.

Lemma touched_lists :
  journal_path ∈ touched /\ staged ∈ touched
  /\ (~ published_generation -> candidate ∈ touched /\ generation ∈ touched)
  /\ (published_generation -> CanonicalConfig ∈ touched).
Proof. unfold touched. case_bool_decide; set_solver. Qed.

(** The removals: the paths that are gone so far. *)
Definition gone (ps : list Path) (f : Files) : Prop := Forall (fun p => nodes f !! p = None) ps.
Lemma gone_remove p ps f : gone ps f -> gone (p :: ps) (remove p f).
Proof.
  intros Hg. constructor; [simpl; by rewrite lookup_delete_eq|]. eapply Forall_impl; [exact Hg|].
  intros q Hq. simpl. by apply lookup_delete_None; right.
Qed.

(** Changing a path that may go, when the new configuration is in place if it should. *)
Definition may_go (p : Path) : Prop :=
  p = staged \/ (~ published_generation /\ (p = candidate \/ p = generation)).
Definition in_place (f : Files) : Prop := published_generation -> published f.

Lemma may_go_facts p :
  may_go p -> p ∈ touched /\ p <> journal_path /\ p <> CanonicalConfig /\ is_temporary p = false.
Proof.
  pose proof touched_lists as (H1 & H2 & H3 & H4). destruct (validate_names j j_valid) as [Hs Hc].
  by intros [->|[Hn [->| ->]]]; split_and!; try done; apply H3.
Qed.

Lemma live_change p f (m : gmap Path Node) :
  may_go p -> live f -> in_place f ->
  (forall q, q <> p -> m !! q = nodes f !! q) -> removable (m !! p) = true ->
  live (with_nodes m f) /\ in_place (with_nodes m f).
Proof.
  intros Hp [(j' & (b & mo & Hj & Hm) & Hpl) Hst Hpub Hd Hr] Hin Hm' Hrm.
  destruct (may_go_facts p Hp) as (Ht & H1 & H2 & H3).
  assert (forall q, removable (nodes f !! q) = true -> removable (m !! q) = true) as Hrem.
  { intros q Hq. destruct (decide (q = p)) as [->|]; [done|]. by rewrite Hm'. }
  assert (in_place (with_nodes m f)) as Hin'.
  { intros Hg. unfold published, file_digest. simpl. rewrite Hm' by done. by apply Hin. }
  split; [|done]. split; simpl.
  - exists j'. split; [|done]. exists b, mo. simpl. by rewrite Hm'.
  - by apply Hrem.
  - intros Hg. left. by apply Hin'.
  - intros Hg. destruct (Hd Hg). by split; apply Hrem.
  - intros q Hq Hqt. simpl. rewrite Hm'; [by apply Hr|]. by intros ->.
Qed.

Lemma remove_live clean p ps :
  may_go p ->
  spec clean (fun f => live f /\ in_place f /\ gone ps f) (remove_owned_staged p)
    (fun _ f => live f /\ in_place f /\ gone (p :: ps) f) live.
Proof.
  intros Hp d (Hl & Hin & Hg) Hf.
  assert (removable (nodes (files d) !! p) = true) as Hr.
  { destruct Hp as [->|[Hn [->| ->]]]; [apply (live_staged _ Hl)|by apply (live_discarded _ Hl)..]. }
  pose proof (remove_owned_staged_spec clean p (files d) (fun _ => Hr) d eq_refl Hf) as Hs.
  destruct (remove_owned_staged p d) as [[[]|e] d'].
  - destruct Hs as [[-> _] Hf']. split; [|done].
    destruct (live_change p (files d) (delete p (nodes (files d)))) as [H1 H2]; try done.
    + intros q Hq. by rewrite lookup_delete_ne.
    + by rewrite lookup_delete_eq.
    + split_and!; [done|done|by apply gone_remove].
  - destruct Hs as [Hc [->|(es & es' & He & ->)]]; [done|]. split; [done|].
    apply (live_change p (files d)); try done.
    + intros q Hq. by rewrite lookup_insert_ne.
    + by rewrite lookup_insert_eq.
Qed.

Lemma clear_live clean ps :
  staged ∈ ps -> (~ published_generation -> candidate ∈ ps /\ generation ∈ ps) ->
  spec clean (fun f => live f /\ in_place f /\ gone ps f) clear (fun _ => settled) live.
Proof.
  intros Hst Hdis d (Hl & Hin & Hg) Hf. pose proof (live_journal _ Hl) as (j' & (b & m & Hj & _) & _).
  assert (is_dir (nodes (files d) !! journal_path) = false) as Hd by by rewrite Hj.
  pose proof (clear_spec clean (files d) (fun _ => Hd) d eq_refl Hf) as Hs.
  destruct (clear d) as [[[]|e] d']; [|destruct Hs as [Hc <-]; done].
  destruct Hs as [-> Hf']. split; [|done].
  assert (forall p, p ∈ ps -> nodes (remove journal_path (files d)) !! p = None) as Hgone.
  { intros p Hp. simpl. apply lookup_delete_None. right. by eapply Forall_forall in Hg. }
  split.
  - simpl. by rewrite lookup_delete_eq.
  - by apply Hgone.
  - intros Hp. specialize (Hin Hp). unfold published, file_digest in *. simpl.
    by rewrite lookup_delete_ne.
  - intros Hp. destruct (Hdis Hp). split; by apply Hgone.
  - intros p Hp Hn. simpl. rewrite lookup_delete_ne; [by apply (live_rest _ Hl)|].
    intros <-. apply Hn. apply touched_lists.
Qed.

(** Replacing the configuration and the journal. *)
Lemma live_put_canonical f b :
  live f -> published_generation -> sha256_hex b = new_config_digest j ->
  live (put CanonicalConfig (NFile b PRIVATE_MODE) f)
  /\ in_place (put CanonicalConfig (NFile b PRIVATE_MODE) f).
Proof.
  intros [(j' & (b' & m & Hj & Hm) & Hpl) Hst Hpub Hd Hr] Hg Hb.
  assert (published (put CanonicalConfig (NFile b PRIVATE_MODE) f)) as Hp.
  { unfold published, file_digest. simpl. rewrite lookup_insert_eq. simpl. by rewrite Hb. }
  split; [|by intros _]. split; simpl.
  - exists j'. split; [|done]. exists b', m. simpl. by rewrite lookup_insert_ne.
  - by rewrite lookup_insert_ne.
  - by left.
  - done.
  - intros p Ht Hn. simpl. rewrite lookup_insert_ne; [by apply Hr|]. intros <-. by apply Hn, touched_lists.
Qed.

Lemma live_put_journal f :
  live f -> in_place f -> len (encode (set_phase Committed j)) <= MAX_JOURNAL_BYTES ->
  live (put journal_path (NFile (encode (set_phase Committed j)) PRIVATE_MODE) f)
  /\ in_place (put journal_path (NFile (encode (set_phase Committed j)) PRIVATE_MODE) f).
Proof.
  intros [_ Hst Hpub Hd Hr] Hin Hlen. destruct (validate_names j j_valid) as [Hs Hc].
  assert (in_place (put journal_path (NFile (encode (set_phase Committed j)) PRIVATE_MODE) f)) as Hin'.
  { intros Hg. specialize (Hin Hg). unfold published, file_digest in *. simpl. by rewrite lookup_insert_ne. }
  split; [|done]. split; simpl.
  - exists (set_phase Committed j). split; [|done]. eexists _, _. simpl. rewrite lookup_insert_eq.
    by rewrite decode_encode.
  - by rewrite lookup_insert_ne.
  - intros Hg. left. by apply Hin'.
  - intros Hg. rewrite !lookup_insert_ne by done. by apply Hd.
  - intros p Ht Hn. simpl. rewrite lookup_insert_ne; [by apply Hr|]. intros <-. by apply Hn, touched_lists.
Qed.

Definition writable (f : Files) : Prop :=
  tidy 1 f /\ root_private f = true /\ len (encode (set_phase Committed j)) <= MAX_JOURNAL_BYTES.

Lemma publish_live clean b :
  published_generation -> sha256_hex b = new_config_digest j ->
  spec clean (fun f => live f /\ (clean = true -> publishable f /\ tidy 2 f))
    (atomic_write CanonicalConfig b)
    (fun _ f => live f /\ in_place f /\ (clean = true -> writable f)) live.
Proof.
  intros Hg Hb.
  assert (forall f f', live f -> written CanonicalConfig b f f' -> live f' /\ in_place f') as Hw.
  { intros f f' Hl [Hs _]. destruct (live_put_canonical f b Hl Hg Hb) as [H1 H2].
    split; [by rewrite <- Hs|]. intros Hg'. specialize (H2 Hg'). by rewrite <- Hs. }
  apply (atomic_write_rule clean _ _ 2); [done|lia|..].
  - intros f [Hl Hc] E. destruct (Hc E) as [[_ _ H1 H2 _] H3]. by split_and!.
  - intros f f' [Hl Hc] Hwr _ _ Ht. destruct (Hw f f' Hl Hwr). split_and!; [done|done|]. intros E.
    destruct (Hc E) as [[_ H1 _ _ H2] _]. destruct Hwr as [[_ Hroot _] _]. split_and!; [by apply Ht| |done].
    by rewrite Hroot.
  - intros f f' [Hl _] [[Hs _]|Hwr]; [by rewrite <- Hs|]. by eapply Hw.
Qed.

Lemma write_live clean :
  spec clean (fun f => live f /\ in_place f /\ (clean = true -> writable f))
    (write encode (set_phase Committed j))
    (fun _ f => live f /\ in_place f) live.
Proof.
  unfold write. eapply spec_bind with (R := fun _ f => live f /\ in_place f /\ (clean = true -> writable f)).
  { apply spec_lift. intros f Hf. by rewrite validate_set_phase, j_valid. }
  intros []. destruct (MAX_JOURNAL_BYTES <? _) eqn:Hlen.
  { apply spec_fail. intros f (Hl & _ & Hc). split; [|done]. destruct clean; [|done].
    destruct (Hc eq_refl) as (_ & _ & H). apply Z.ltb_lt in Hlen. lia. }
  apply Z.ltb_ge in Hlen. apply spec_or_error.
  assert (forall f f', live f -> in_place f -> written journal_path (encode (set_phase Committed j)) f f' ->
            live f' /\ in_place f') as Hw.
  { intros f f' Hl Hin [Hs _]. destruct (live_put_journal f Hl Hin Hlen) as [H1 H2].
    split; [by rewrite <- Hs|]. intros Hg'. specialize (H2 Hg'). by rewrite <- Hs. }
  apply (atomic_write_rule clean _ _ 1); [done|lia|..].
  - intros f (Hl & _ & Hc) E. destruct (Hc E) as (H1 & H2 & _). split_and!; [done|done|].
    by destruct (live_journal _ Hl) as (j' & (b & m & -> & _) & _).
  - intros f f' (Hl & Hin & _) Hwr _ _ _. by eapply Hw.
  - intros f f' (Hl & Hin & _) [[Hs _]|Hwr]; [by rewrite <- Hs|]. by eapply Hw.
Qed.

(** The journal on disk may be in a later phase; nothing depends on it. *)
Lemma perform_plan j' action :
  set_phase Committed j' = set_phase Committed j ->
  perform sha256_hex encode j' action = perform sha256_hex encode j action
  /\ (forall s c, choose_action j' current s c = choose_action j current s c)
  /\ staged_config j' = staged_config j.
Proof.
  intros E. pose proof E as E'. destruct j', j. injection E' as -> -> -> -> -> -> ->.
  split_and!; [|done|done]. destruct action; unfold perform; simpl; [done| |done].
  by rewrite !advance_committed.
Qed.

(** What [recover] may do next. *)
Definition enabled (clean : bool) (action : RecoveryAction) (f : Files) : Prop :=
  match action with
  | DiscardStaged => ~ published_generation
  | ClearJournal => published_generation /\ published f
  | CompleteConfigPublish => published_generation
      /\ file_digest sha256_hex staged f = Some (new_config_digest j)
      /\ (clean = true -> publishable f)
  end.

Lemma discard_live clean :
  ~ published_generation ->
  spec clean live (perform sha256_hex encode j DiscardStaged) (fun _ => settled) live.
Proof.
  intros Hn. eapply spec_conseq with (P' := fun f => live f /\ in_place f /\ gone [] f)
    (Q' := fun _ => settled) (X' := live); [| |done|done].
  - unfold perform.
    eapply spec_bind; [apply remove_live; right; by auto|intros []].
    eapply spec_bind; [apply remove_live; right; by auto|intros []].
    eapply spec_bind; [apply remove_live; by left|intros []].
    apply clear_live; set_solver.
  - intros f Hl. split_and!; [done|by intros ?|constructor].
Qed.

Lemma clear_journal_live clean :
  published_generation ->
  spec clean (fun f => live f /\ published f) (perform sha256_hex encode j ClearJournal)
    (fun _ => settled) live.
Proof.
  intros Hg. eapply spec_conseq with (P' := fun f => live f /\ in_place f /\ gone [] f)
    (Q' := fun _ => settled) (X' := live); [| |done|done].
  - unfold perform. eapply spec_bind; [apply remove_live; by left|intros []].
    apply clear_live; [set_solver|]. by intros ?.
  - intros f [Hl Hp]. split_and!; [done|by intros _|constructor].
Qed.

Lemma complete_live clean f1 :
  published_generation -> file_digest sha256_hex staged f1 = Some (new_config_digest j) ->
  (clean = true -> publishable f1 /\ tidy 2 f1) -> live f1 ->
  spec clean (eq f1) (perform sha256_hex encode j CompleteConfigPublish) (fun _ => settled) live.
Proof.
  intros Hg Hst Hc Hl. unfold perform.
  assert (exists b, readable (nodes f1 !! staged) = Some b /\ sha256_hex b = new_config_digest j)
    as (b & Hb & Hd).
  { unfold file_digest in Hst. destruct (readable (nodes f1 !! staged)) as [b|]; [|done].
    exists b. split; [done|]. by injection Hst. }
  eapply spec_bind; [eapply spec_conseq; [apply fs_read_spec; intros _; by eexists|..]|].
  { done. } { intros a f Hf. pattern a, f in Hf. exact Hf. } { by intros f <-. }
  intros b'. apply spec_pure. intros Hb'. rewrite Hb in Hb'. injection Hb' as <-.
  rewrite Hd, String.eqb_refl. cbn [negb].
  eapply spec_bind; [apply spec_or_error; eapply spec_conseq; [by apply publish_live|..]|intros []].
  { intros f <-. by split. } { intros a f Hf. pattern a, f in Hf. exact Hf. } { done. }
  rewrite advance_committed.
  eapply spec_bind with (R := fun j1 f => j1 = set_phase Committed j
    /\ (live f /\ in_place f /\ (clean = true -> writable f))); [by apply spec_lift|].
  intros j1. apply spec_pure. intros ->.
  eapply spec_bind; [apply write_live|intros []].
  eapply spec_bind; [eapply spec_conseq; [apply (remove_live clean staged []); by left|..]|intros []].
  { intros f [H1 H2]. split_and!; [done|done|constructor]. }
  { intros a f Hf. pattern a, f in Hf. exact Hf. } { done. }
  apply clear_live; [set_solver|]. by intros ?.
Qed.

Lemma perform_spec clean action :
  spec clean (fun f => live f /\ enabled clean action f /\ (clean = true -> tidy 2 f))
    (perform sha256_hex encode j action) (fun _ => settled) live.
Proof.
  intros d (Hl & He & Ht) Hf. destruct action; cbn [enabled] in He.
  - by apply discard_live.
  - destruct He as (Hg & Hst & Hp). apply (complete_live clean (files d)); auto.
  - destruct He as [Hg Hp]. by apply clear_journal_live.
Qed.

Lemma recover_spec clean :
  spec clean (fun f => (live f \/ settled f) /\ (clean = true -> tidy 2 f))
    (recover sha256_hex encode decode current) (fun _ => settled) (fun f => live f \/ settled f).
Proof.
  intros d [Hinv Ht] Hf. revert d Hinv Ht Hf.
  enough (forall f1, live f1 \/ settled f1 -> (clean = true -> tidy 2 f1) ->
    spec clean (eq f1) (recover sha256_hex encode decode current) (fun _ => settled)
      (fun f => live f \/ settled f)) as Hspec by (intros d H1 H2 H3; by apply (Hspec (files d))).
  intros f1 Hinv Ht. unfold recover.
  eapply spec_bind; [eapply spec_conseq; [apply load_spec|..]|].
  { intros _. destruct Hinv as [[(j' & Hl & _)]|Hs]; [right; by exists j'|left; apply (settled_journal _ Hs)]. }
  { done. } { intros a f Hf. pattern a, f in Hf. exact Hf. } { by intros f <-. }
  intros [j'|]; apply spec_pure; intros Hj'.
  2: { apply spec_ret. intros f <-. destruct Hinv as [[(j' & (b & m & Hj & _) & _)]|Hs]; [congruence|done]. }
  destruct Hinv as [Hl|Hs]; [|destruct Hj' as (b & m & Hj & _); by rewrite (settled_journal _ Hs) in Hj].
  assert (set_phase Committed j' = set_phase Committed j) as Hplan.
  { destruct (live_journal _ Hl) as (j2 & (b2 & m2 & Hb2 & _ & _ & Hd2 & _) & <-).
    destruct Hj' as (b & m & Hb & _ & _ & Hd & _). congruence. }
  destruct (perform_plan j' DiscardStaged Hplan) as (_ & Hch & ->).
  eapply spec_bind; [apply digest_of_spec|]. intros s. apply spec_pure. intros Hs.
  eapply spec_bind; [apply digest_of_spec|]. intros c. apply spec_pure. intros Hc. rewrite Hch.
  eapply spec_bind with (R := fun action f => enabled clean action f1 /\ f1 = f).
  - apply spec_lift. intros f <-. unfold choose_action. case_bool_decide as Hg; [|done].
    case_bool_decide as Hcan; [|case_bool_decide as Hst].
    + split; [|done]. split; [done|]. by destruct Hc as [->|[_ ->]].
    + split; [|done]. split; [done|]. split; [by destruct Hs as [->|[_ ->]]|]. intros E.
      destruct Hc as [->|[E' _]]; [|congruence].
      by destruct (live_published _ Hl Hg) as [|].
    + split; [|by left]. destruct clean; [|done]. destruct Hc as [->|[? _]], Hs as [->|[? _]]; [|done..].
      by destruct (live_published _ Hl Hg) as [|[]].
  - intros action. apply spec_pure. intros Hen. destruct (perform_plan j' action Hplan) as [-> _].
    eapply spec_bind with (R := fun _ => settled); [|intros []; by apply spec_ret].
    eapply spec_conseq; [apply (perform_spec clean action)|..]; [|done|by left].
    intros f <-. by split_and!.
Qed.

(** Two finished recoveries agree. *)
Lemma settled_agree f f' p :
  settled f -> settled f' -> is_temporary p = false ->
  (p <> CanonicalConfig -> nodes f !! p = nodes f' !! p)
  /\ file_digest sha256_hex CanonicalConfig f = file_digest sha256_hex CanonicalConfig f'.
Proof.
  intros [Hj Hs Hp Hd Hr] [Hj' Hs' Hp' Hd' Hr'] Ht.
  destruct (decide published_generation) as [Hg|Hg].
  - split; [|by rewrite Hp, Hp'].
    intros Hc. destruct (decide (p ∈ touched)) as [Hin|Hin]; [|by rewrite Hr, Hr'].
    unfold touched in Hin. rewrite bool_decide_eq_true_2 in Hin by done.
    repeat (apply elem_of_cons in Hin as [->|Hin]; [congruence|]). by apply not_elem_of_nil in Hin.
  - assert (CanonicalConfig ∉ touched) as Hn.
    { unfold touched. rewrite bool_decide_eq_false_2 by done. rewrite !not_elem_of_cons.
      split_and!; try done. apply not_elem_of_nil. }
    split; [|unfold file_digest; by rewrite Hr, Hr']. intros _.
    destruct (Hd Hg) as [H1 H2], (Hd' Hg) as [H1' H2'].
    destruct (decide (p ∈ touched)) as [Hin|Hin]; [|by rewrite Hr, Hr'].
    unfold touched in Hin. rewrite bool_decide_eq_false_2 in Hin by done.
    repeat (apply elem_of_cons in Hin as [->|Hin]; [congruence|]). by apply not_elem_of_nil in Hin.
Qed.
End recovery.

(** ** What a recovery that succeeded shows of the files it started from *)
Section inversion.
Context (sha256_hex : list Z -> string) (encode : CommitJournal -> list Z)
  (decode : list Z -> option CommitJournal).
Context (current : option Z) (j : CommitJournal) (f1 : Files).
Hypothesis j_loadable : loadable decode f1 j.
Local Abbreviation live_start := (live sha256_hex encode decode current j f1 f1).

(** The files after [ps] were removed; those were removable. *)
Definition cleared (ps : list Path) (f : Files) : Prop :=
  (forall q, is_temporary q = false -> q ∉ ps -> nodes f !! q = nodes f1 !! q)
  /\ forall q, q ∈ ps -> removable (nodes f1 !! q) = true.

Lemma remove_cleared p ps :
  is_temporary p = false ->
  spec false (cleared ps) (remove_owned_staged p) (fun _ => cleared (p :: ps)) (fun _ => True).
Proof.
  intros Hp d [Hr Hps] Hf.
  pose proof (remove_owned_staged_spec false p (files d) ltac:(done) d eq_refl Hf) as Hs.
  destruct (remove_owned_staged p d) as [[[]|e] d']; [|by destruct Hs].
  destruct Hs as [[-> Hrm] _]. split; [|done]. split.
  - intros q Hq [Hn1 Hn2]%not_elem_of_cons. simpl. rewrite lookup_delete_ne by done. by apply Hr.
  - intros q [->|Hq]%elem_of_cons; [|by apply Hps].
    destruct (decide (p ∈ ps)); [by apply Hps|]. by rewrite <- Hr.
Qed.

Lemma live_from (Hst : removable (nodes f1 !! RootFile (staged_config j)) = true) :
  (current = Some (new_generation j) ->
     published sha256_hex j f1 \/ publishable sha256_hex encode j f1) ->
  (current <> Some (new_generation j) ->
     removable (nodes f1 !! RootFile (staged_generation j)) = true
     /\ removable (nodes f1 !! GenerationDir (new_generation j)) = true) ->
  live_start.
Proof. intros Hp Hd. split; [by exists j|done|done|done|by intros p]. Qed.

Lemma clear_any P (Q : unit -> Files -> Prop) :
  (forall f, P f -> Q tt (remove journal_path f)) -> spec false P clear Q (fun _ => True).
Proof.
  intros HQ d Hd Hf. pose proof (clear_spec false (files d) ltac:(done) d eq_refl Hf) as Hs.
  destruct (clear d) as [[[]|e] d']; [|by destruct Hs]. destruct Hs as [-> _]. split; [by apply HQ|done].
Qed.

Lemma discard_inverts :
  current <> Some (new_generation j) ->
  spec false (eq f1) (perform sha256_hex encode j DiscardStaged) (fun _ _ => live_start) (fun _ => True).
Proof.
  intros Hg. unfold perform.
  eapply spec_bind with (R := fun _ => cleared [RootFile (staged_generation j)]);
    [eapply spec_conseq; [by apply (remove_cleared _ [])|..]; [|done..]|intros []].
  { intros f <-. split; [done|]. by intros q Hq%elem_of_nil. }
  eapply spec_bind; [by apply remove_cleared|intros []].
  eapply spec_bind; [by apply remove_cleared|intros []].
  apply clear_any. intros f [_ Hc]. apply live_from; [|done|intros _; split]; apply Hc;
    rewrite !elem_of_cons; auto.
Qed.

Lemma clear_inverts :
  current = Some (new_generation j) -> published sha256_hex j f1 ->
  spec false (eq f1) (perform sha256_hex encode j ClearJournal) (fun _ _ => live_start) (fun _ => True).
Proof.
  intros Hg Hp. unfold perform.
  eapply spec_bind with (R := fun _ => cleared [RootFile (staged_config j)]);
    [eapply spec_conseq; [by apply (remove_cleared _ [])|..]; [|done..]|intros []].
  { intros f <-. split; [done|]. by intros q Hq%elem_of_nil. }
  apply clear_any. intros f [_ Hc]. apply live_from; [|by left|done]. apply Hc. apply elem_of_cons. by left.
Qed.

Lemma publish_inverts :
  current = Some (new_generation j) ->
  file_digest sha256_hex (RootFile (staged_config j)) f1 = Some (new_config_digest j) ->
  spec false (eq f1) (perform sha256_hex encode j CompleteConfigPublish)
    (fun _ _ => live_start) (fun _ => True).
Proof.
  intros Hg Hst. unfold perform. destruct j_loadable as (b0 & m0 & _ & _ & _ & _ & Hv).
  destruct (validate_names j Hv) as [Hne _].
  set (kept f := nodes f !! RootFile (staged_config j) = nodes f1 !! RootFile (staged_config j)
    /\ root_private f = root_private f1).
  eapply spec_bind; [eapply spec_conseq; [by apply fs_read_spec|..]|].
  { done. } { intros a f Hf. pattern a, f in Hf. exact Hf. } { done. }
  intros bs. apply spec_pure. intros Hb. split_if Hd; [by apply spec_fail|].
  eapply spec_bind with (R := fun _ f =>
    (config_private f1 = true /\ is_dir (nodes f1 !! CanonicalConfig) = false) /\ kept f);
    [apply spec_or_error, (atomic_write_rule false _ _ 1); [done|lia|done| |done]|intros []].
  { intros f f' <- [[Hs Hroot _] _] Hpar Hdir _. split; [done|]. split; [|done].
    rewrite Hs by done. simpl. by rewrite lookup_insert_ne. }
  apply spec_pure. intros [Hcfg Hdir]. rewrite advance_committed.
  eapply spec_bind with (R := fun j1 f => j1 = set_phase Committed j /\ kept f); [by apply spec_lift|].
  intros j1. apply spec_pure. intros ->.
  eapply spec_bind with (R := fun _ f => (len (encode (set_phase Committed j)) <= MAX_JOURNAL_BYTES
    /\ root_private f1 = true) /\ kept f); [|intros []; apply spec_pure; intros [Hlen Hroot]].
  { unfold write. eapply spec_bind with (R := fun _ => kept);
      [apply spec_lift; intros f Hf; by rewrite validate_set_phase, Hv|intros []].
    split_if Hl; [by apply spec_fail|]. apply Z.ltb_ge in Hl.
    apply spec_or_error, (atomic_write_rule false _ _ 1); [done|lia|done| |done].
    intros f f' [Hk Hr] [[Hs Hr' _] _] Hpar _ _. split; [split; [done|by rewrite <- Hr]|].
    split; [|by rewrite Hr']. rewrite Hs by done. simpl. by rewrite lookup_insert_ne. }
  eapply spec_bind with (R := fun _ _ => removable (nodes f1 !! RootFile (staged_config j)) = true).
  - intros d [Hk _] Hf.
    pose proof (remove_owned_staged_spec false (RootFile (staged_config j)) (files d) ltac:(done) d eq_refl Hf)
      as Hs.
    destruct (remove_owned_staged _ d) as [[[]|e] d']; [|by destruct Hs].
    destruct Hs as [[_ Hrm] _]. by rewrite Hk in Hrm.
  - intros []. apply clear_any. intros f Hrm. apply live_from; [done| |done]. intros _. by right.
Qed.
End inversion.

(** ** A run leaves the temporary files of other processes alone *)
Definition own_disk (d d' : Disk) : Prop := own_temps (files d) (files d').
#[local] Instance own_disk_preorder : PreOrder own_disk.
Proof. split; [by intros d|]. intros d1 d2 d3. unfold own_disk. apply transitivity. Qed.

Lemma own_io {E} (e : E) effect broken :
  (forall f, own_temps f (effect f)) -> (forall n f, own_temps f (broken n f)) ->
  keeps own_disk (io e effect broken).
Proof.
  intros He Hb d. unfold io, own_disk. destruct (next_outcome d) as [[|n] rest]; simpl; auto.
Qed.
Lemma own_look {E A} (g : Files -> A) : keeps own_disk (look g : Mut Disk E A).
Proof. by intros d. Qed.
Lemma own_or_error {E F A} (e : E) (m : Mut Disk F A) : keeps own_disk m -> keeps own_disk (or_error e m).
Proof. intros Hm d. specialize (Hm d). unfold or_error. by destruct (m d) as [[a|x] d']. Qed.
Lemma own_to_option {E F A} (m : Mut Disk F A) :
  keeps own_disk m -> keeps own_disk (to_option m : Mut Disk E (option A)).
Proof. intros Hm d. specialize (Hm d). unfold to_option. by destruct (m d) as [[a|x] d']. Qed.
Lemma own_atomic_write p b : is_temporary p = false -> keeps own_disk (atomic_write p b).
Proof.
  intros Hp d. pose proof (atomic_write_spec false p b (files d) 1 Hp ltac:(lia) ltac:(done) d eq_refl
    ltac:(done)) as Hs. unfold own_disk.
  destruct (atomic_write p b d) as [[[]|e] d']; simpl; [by destruct Hs as [[[_ ?] _] _]|].
  by destruct Hs as [_ [[_ ?]|[_ ?]]].
Qed.
(** One step of such a proof; the operations that are proved already come first. *)
Ltac own_step :=
  first
    [ by apply own_atomic_write
    | progress intros
    | apply keeps_bind; [apply _| |intros]
    | apply own_look | apply own_or_error | apply own_to_option
    | apply own_io; intros; first [reflexivity|by apply own_put|by apply own_remove]
    | apply keeps_ret, _ | apply keeps_fail, _ | apply keeps_lift, _
    | case_match ].

Lemma own_remove_owned p : is_temporary p = false -> keeps own_disk (remove_owned_staged p).
Proof. intros Hp. unfold remove_owned_staged. repeat own_step. Qed.
Lemma own_clear : keeps own_disk clear.
Proof. unfold clear. repeat own_step. Qed.
Lemma own_fs_read e p : keeps own_disk (fs_read e p).
Proof. unfold fs_read. repeat own_step. Qed.
Lemma own_write encode j : keeps own_disk (write encode j).
Proof. unfold write. repeat own_step. Qed.
Lemma own_recover sha256_hex encode decode current :
  keeps own_disk (recover sha256_hex encode decode current).
Proof.
  unfold recover, load, digest_of, perform.
  repeat first [apply own_fs_read|apply own_clear|apply own_write|by apply own_remove_owned|own_step].
Qed.

(** ** What recovery promises *)
Section claims.
Context (sha256_hex : list Z -> string) (encode : CommitJournal -> list Z)
  (decode : list Z -> option CommitJournal).
Hypothesis decode_encode : forall j, decode (encode j) = Some j.
Local Abbreviation run := (recover sha256_hex encode decode).
Local Abbreviation is_settled := (settled sha256_hex).
Local Abbreviation is_live := (live sha256_hex encode decode).

Lemma recover_Ok current d action d' :
  run current d = (Ok action, d') ->
  (nodes (files d) !! journal_path = None /\ action = ClearJournal /\ files d' = files d)
  \/ exists j, loadable decode (files d) j /\ is_live current j (files d) (files d)
       /\ is_settled current j (files d) (files d')
       /\ (action = DiscardStaged <-> current <> Some (new_generation j)).
Proof.
  unfold recover. intros (loaded & d1 & E1 & E)%bind_Ok.
  pose proof (load_spec decode false (files d) ltac:(done) d eq_refl ltac:(done)) as H1.
  rewrite E1 in H1. destruct H1 as [[H1 Hf1] _]. destruct loaded as [j|].
  2: { left. injection E as <- <-. by rewrite <- Hf1. }
  right. exists j. split; [done|]. apply bind_Ok in E as (s & d2 & E2 & E).
  pose proof (digest_of_spec sha256_hex false (RootFile (staged_config j)) (files d1) (fun _ => True) d1 eq_refl
    ltac:(done)) as H2. rewrite E2 in H2. destruct H2 as [[H2 Hf2] _].
  apply bind_Ok in E as (c & d3 & E3 & E).
  pose proof (digest_of_spec sha256_hex false CanonicalConfig (files d2) (fun _ => True) d2 eq_refl
    ltac:(done)) as H3. rewrite E3 in H3. destruct H3 as [[H3 Hf3] _].
  apply bind_Ok in E as (a & d4 & E4 & E). injection E4 as E4 <-.
  apply bind_Ok in E as ([] & d5 & E5 & E). injection E as <- <-.
  rewrite <- Hf2, <- Hf1 in *. assert (validate j = Ok tt) as Hv by by destruct H1 as (?&?&?&?&?&?&?).
  assert (is_live current j (files d) (files d) /\ enabled sha256_hex encode current j false a (files d)
          /\ (a = DiscardStaged <-> current <> Some (new_generation j))) as (Hl & Hen & Ha).
  { unfold choose_action in E4. case_bool_decide as Hg; [case_bool_decide as Hcan; [|case_bool_decide as Hst; [|done]]|];
      injection E4 as <-.
    - assert (published sha256_hex j (files d)) as Hp by by destruct H3 as [->|[_ ->]].
      pose proof (clear_inverts sha256_hex encode decode current j (files d) H1 Hg Hp d3 Hf3 ltac:(done)) as Hi.
      rewrite E5 in Hi. destruct Hi as [Hi _]. split_and!; [done|done|naive_solver].
    - assert (file_digest sha256_hex (RootFile (staged_config j)) (files d) = Some (new_config_digest j))
        as Hp by by destruct H2 as [->|[_ ->]].
      pose proof (publish_inverts sha256_hex encode decode current j (files d) H1 Hg Hp d3 Hf3 ltac:(done)) as Hi.
      rewrite E5 in Hi. destruct Hi as [Hi _]. split_and!; [done| |naive_solver]. by split_and!.
    - pose proof (discard_inverts sha256_hex encode decode current j (files d) H1 Hg d3 Hf3 ltac:(done)) as Hi.
      rewrite E5 in Hi. by destruct Hi as [Hi _]. }
  split; [done|]. split; [|done].
  pose proof (perform_spec sha256_hex encode decode decode_encode current j (files d) Hv false a d3) as Hs.
  rewrite <- Hf3, E5 in Hs. destruct Hs as [Hs _]; [|done|done]. split_and!; [done|done|by intros].
Qed.

(** Recovery settles the interrupted change.  Whatever is on disk and whichever
    calls fail, a recovery that reports success found no journal and changed nothing,
    or left neither the journal nor the staged configuration; if the journal's new
    generation is the current one then the configuration has the new digest, and if
    not then that generation is gone, staged or sealed, the configuration is
    untouched and the action is to discard.  No other file has changed. *)
Theorem recover_settles current d action d' :
  run current d = (Ok action, d') ->
  (nodes (files d) !! journal_path = None /\ action = ClearJournal /\ files d' = files d)
  \/ exists j, loadable decode (files d) j
       /\ is_settled current j (files d) (files d')
       /\ (action = DiscardStaged <-> current <> Some (new_generation j)).
Proof. intros [?|(j & ? & _ & ? & ?)]%recover_Ok; [by left|right; by exists j]. Qed.

(** A worker that starts: a new process, whose counter is zero. *)
Definition boot (pid : Z) (f : Files) : Files :=
  mkFiles (nodes f) (root_private f) (config_private f) pid 0.
(** A start whose recovery meets the given faults; an error ends the worker. *)
Definition attempt (current : option Z) (f : Files) (a : Z * list Outcome) : Files :=
  files (run current (mkDisk (boot a.1 f) a.2)).2.

Definition no_temporaries (pid : Z) (f : Files) : Prop :=
  forall r s, nodes f !! Temporary r pid s = None.
Lemma attempt_no_temporaries current f a pid :
  pid <> a.1 -> no_temporaries pid f -> no_temporaries pid (attempt current f a).
Proof.
  intros Hp Hn r s. pose proof (own_recover sha256_hex encode decode current (mkDisk (boot a.1 f) a.2)) as [_ Ho].
  unfold attempt. by rewrite Ho.
Qed.
Lemma boot_same pid f : same_files f (boot pid f).
Proof. done. Qed.
Lemma boot_tidy pid f : no_temporaries pid f -> tidy 2 (boot pid f).
Proof. intros Hn. split; simpl; [lia|]. intros r s _. apply Hn. Qed.

Lemma settled_same current j f0 f f' :
  same_files f f' -> is_settled current j f0 f -> is_settled current j f0 f'.
Proof.
  intros [Hn _ _] [H1 H2 H3 H4 H5]. split.
  - by rewrite Hn.
  - by rewrite Hn.
  - intros Hg. specialize (H3 Hg). unfold published, file_digest in *. by rewrite Hn.
  - intros Hg. rewrite !Hn by done. by apply H4.
  - intros p Hp Ht. rewrite Hn by done. by apply H5.
Qed.

Lemma attempts_inv current j f0 attempts f :
  validate j = Ok tt -> is_live current j f0 f \/ is_settled current j f0 f ->
  is_live current j f0 (foldl (attempt current) f attempts)
  \/ is_settled current j f0 (foldl (attempt current) f attempts).
Proof.
  intros Hv. revert f. induction attempts as [|a l IH]; intros f Hi; [done|]. cbn [foldl]. apply IH.
  pose proof (recover_spec sha256_hex encode decode decode_encode current j f0 Hv false
    (mkDisk (boot a.1 f) a.2)) as Hs. unfold attempt.
  assert (is_live current j f0 (boot a.1 f) \/ is_settled current j f0 (boot a.1 f)) as Hb.
  { destruct Hi as [Hl|Hs']; [left|right].
    - eapply live_same; [exact (boot_same a.1 f)|exact Hl].
    - eapply settled_same; [exact (boot_same a.1 f)|done]. }
  destruct (run current (mkDisk (boot a.1 f) a.2)) as [[x|e] d'];
    (destruct Hs as [H1 H2]; [by split|done|]); [right; exact H1|exact H2].
Qed.

Lemma recover_without_journal current d :
  nodes (files d) !! journal_path = None -> files (run current d).2 = files d.
Proof.
  intros Hj. unfold recover, load, io, look, mbind, Mut_bind, next_outcome.
  destruct (faults d) as [|[|n] rest]; simpl; by rewrite ?Hj.
Qed.
Lemma recover_nothing current f :
  nodes f !! journal_path = None -> run current (mkDisk f []) = (Ok ClearJournal, mkDisk f []).
Proof.
  intros Hj. unfold recover, load, io, look, mbind, Mut_bind, next_outcome. simpl. by rewrite Hj.
Qed.
Lemma attempts_without_journal current attempts f :
  nodes f !! journal_path = None -> nodes (foldl (attempt current) f attempts) = nodes f.
Proof.
  revert f. induction attempts as [|a l IH]; intros f Hj; [done|]. cbn [foldl].
  assert (nodes (attempt current f a) = nodes f) as E by (unfold attempt; by rewrite recover_without_journal).
  rewrite IH; by rewrite E.
Qed.

(** C28: recovery can be interrupted and repeated.  If a recovery of these files can
    succeed at all, then after any number of worker starts whose recovery is cut short
    by any failures, the next start that meets none succeeds, provided its process id
    has left no temporary files (a write gives up after sixteen taken names), and leaves
    what the recovery without interruption leaves: the same files, temporary ones aside,
    and a configuration with the same digest. *)
Theorem recover_resumable current d action d' attempts pid :
  run current d = (Ok action, d') ->
  pid ∉ attempts.*1 -> no_temporaries pid (files d) ->
  exists action' f',
    run current (mkDisk (boot pid (foldl (attempt current) (files d) attempts)) [])
    = (Ok action', mkDisk f' [])
    /\ (forall p, is_temporary p = false -> p <> CanonicalConfig ->
          nodes f' !! p = nodes (files d') !! p)
    /\ file_digest sha256_hex CanonicalConfig f'
       = file_digest sha256_hex CanonicalConfig (files d').
Proof.
  intros Hrun Hpid Hno.
  assert (no_temporaries pid (foldl (attempt current) (files d) attempts)) as Hno'.
  { clear Hrun. revert Hpid Hno. generalize (files d). induction attempts as [|a l IH]; intros f Hp Hn; [done|].
    cbn [foldl fmap list_fmap] in *. apply not_elem_of_cons in Hp as [Hp1 Hp2].
    apply IH; [done|]. by apply attempt_no_temporaries. }
  apply recover_Ok in Hrun as [(Hj & _ & Hf)|(j & Hj & Hl & Hs & _)].
  - set (f1 := boot pid _). pose proof (attempts_without_journal current attempts _ Hj) as E.
    assert (nodes f1 !! journal_path = None) as Hj1 by (unfold f1; simpl; by rewrite E).
    exists ClearJournal, f1. split.
    + by apply recover_nothing.
    + rewrite Hf. unfold file_digest, f1. simpl. by rewrite E.
  - assert (validate j = Ok tt) as Hv by by destruct Hj as (?&?&?&?&?&?&?).
    set (f1 := foldl _ _ _) in *.
    assert (is_live current j (files d) (boot pid f1) \/ is_settled current j (files d) (boot pid f1)) as Hi.
    { destruct (attempts_inv current j (files d) attempts (files d) Hv ltac:(by left)) as [Hl'|Hs']; [left|right].
      - eapply live_same; [exact (boot_same pid f1)|exact Hl'].
      - eapply settled_same; [exact (boot_same pid f1)|done]. }
    pose proof (recover_spec sha256_hex encode decode decode_encode current j (files d) Hv true
      (mkDisk (boot pid f1) [])) as Hr.
    destruct (run current _) as [[a|e] [f' fs]] eqn:E; (destruct Hr as [H1 H2]; [|done|]);
      [by split; [|intros _; apply boot_tidy]| |by split; [|intros _; apply boot_tidy]|done].
    exists a, f'. cbn [files faults] in H1, H2. rewrite H2 by done. split; [done|].
    split; [intros p Hp Hc|].
    + by eapply (proj1 (settled_agree _ _ _ _ _ _ p H1 Hs Hp)).
    + apply (proj2 (settled_agree _ _ _ _ _ _ CanonicalConfig H1 Hs eq_refl)).
Qed.

(** What was written is what a later start reads. *)
Lemma write_load j d d' :
  write encode j d = (Ok tt, d') ->
  load decode (mkDisk (files d') []) = (Ok (Some j), mkDisk (files d') []).
Proof.
  intros E.
  assert (spec false (fun _ => True) (write encode j)
            (fun _ f => nodes f !! journal_path = Some (NFile (encode j) PRIVATE_MODE)
               /\ len (encode j) <= MAX_JOURNAL_BYTES /\ validate j = Ok tt) (fun _ => True)) as Hs.
  { unfold write. destruct (validate j) as [[]|e] eqn:Hv; [|by intros d0 _ _].
    eapply spec_bind with (R := fun _ _ => True); [by apply spec_lift|intros []].
    split_if Hl; [by apply spec_fail|]. apply Z.ltb_ge in Hl.
    apply spec_or_error, (atomic_write_rule false _ _ 1); [done|lia|done| |done].
    intros f f' _ [[Hn _ _] _] _ _ _. rewrite Hn by done. simpl. by rewrite lookup_insert_eq. }
  specialize (Hs d I ltac:(done)). rewrite E in Hs. destruct Hs as [(Hj & Hl & Hv) _].
  unfold load, fs_read, io, look, mbind, Mut_bind, next_outcome. simpl. rewrite Hj.
  assert ((MAX_JOURNAL_BYTES <? len (encode j)) = false) as -> by by apply Z.ltb_ge.
  simpl. rewrite Hj. simpl. rewrite decode_encode. unfold mut_lift. by rewrite Hv.
Qed.

(** A phase that was recorded is the one asked for, and phases never go back. *)
Lemma advance_and_write_Ok j p j' d d' :
  advance_and_write encode j p d = (Ok j', d') ->
  rank (phase j) <= rank p /\ j' = set_phase p j
  /\ load decode (mkDisk (files d') []) = (Ok (Some j'), mkDisk (files d') []).
Proof.
  unfold advance_and_write. intros (c & d1 & E1 & (u & d2 & E2 & E3)%bind_Ok)%bind_Ok.
  injection E1 as E1 <-. injection E3 as -> ->. unfold advance in E1. split_if_in E1 Hr; [done|].
  injection E1 as <-. apply Z.ltb_ge in Hr. destruct u. split_and!; [done|done|by eapply write_load].
Qed.

(** A change that was interrupted between its two publications: the configuration is
    already the new one, its generation is not current.  Recovery discards the
    generation and keeps the configuration, although the journal holds the digest of
    the old one. *)
Lemma discard_keeps_new_config current d action d' j :
  run current d = (Ok action, d') -> loadable decode (files d) j ->
  current <> Some (new_generation j) -> phase j = ConfigPublished -> published sha256_hex j (files d) ->
  action = DiscardStaged /\ published sha256_hex j (files d')
  /\ nodes (files d') !! GenerationDir (new_generation j) = None.
Proof.
  intros [(Hn & _)|(j' & Hj' & _ & Hs & Ha)]%recover_Ok Hj Hg _ Hp.
  { destruct Hj as (b & m & Hj & _). congruence. }
  assert (j' = j) as ->.
  { destruct Hj as (b & m & Hb & _ & _ & Hd & _), Hj' as (b' & m' & Hb' & _ & _ & Hd' & _). congruence. }
  split_and!; [by apply Ha| |by apply (settled_discarded _ _ _ _ _ Hs)].
  unfold published, file_digest in *. rewrite (settled_rest _ _ _ _ _ Hs); [done|done|].
  unfold touched. rewrite bool_decide_eq_false_2 by done. rewrite !not_elem_of_cons.
  split_and!; try done. apply not_elem_of_nil.
Qed.
End claims.

(** ** A concrete codec and a concrete interrupted change *)
Definition phase_of (r : Z) : option CommitPhase :=
  List.find (fun p => rank p =? r)
    [Prepared; Checked; Sealed; Journaled; ConfigPublished; GenerationPublished; Committed].
Definition plain_encode (j : CommitJournal) : list Z :=
  schema j :: new_generation j :: rank (phase j)
  :: match old_generation j with None => [0; 0] | Some g => [1; g] end
  ++ put_text (old_config_digest j) ++ put_text (new_config_digest j)
  ++ put_text (staged_generation j) ++ put_text (staged_config j) ++ [].
Definition plain_decode (l : list Z) : option CommitJournal :=
  match l with
  | s :: g :: r :: tag :: old :: rest =>
      p ← phase_of r;
      '(a, rest) ← get_text rest;
      '(b, rest) ← get_text rest;
      '(c, rest) ← get_text rest;
      '(e, _) ← get_text rest;
      Some (mkJournal s a b (if tag =? 0 then None else Some old) g p c e)
  | _ => None
  end.
Lemma plain_decode_encode j : plain_decode (plain_encode j) = Some j.
Proof.
  destruct j as [s a b o g p c e]. unfold plain_encode, plain_decode.
  cbn [schema new_generation phase old_generation old_config_digest new_config_digest staged_generation staged_config].
  assert (phase_of (rank p) = Some p) as Hp by by destruct p.
  destruct o as [x|]; cbn [app]; rewrite Hp; cbn [mbind option_bind];
    by do 4 (rewrite get_put_text; cbn [mbind option_bind]).
Qed.

Definition hex64 (c : string) : string := String.concat c (replicate 65 EmptyString).
Definition toy_sha (bs : list Z) : string :=
  if bool_decide (bs = bytes "new") then hex64 "b" else hex64 "a".
Definition sample_journal : CommitJournal :=
  mkJournal 1 (hex64 "a") (hex64 "b") (Some 7) 8 ConfigPublished
    ".candidate-8-transaction" ".candidate-config-8".
(** The new generation is current and the configuration still the old one. *)
Definition sample_files : Files :=
  mkFiles (list_to_map
    [(journal_path, NFile (plain_encode sample_journal) PRIVATE_MODE);
     (RootFile ".candidate-config-8", NFile (bytes "new") PRIVATE_MODE);
     (GenerationDir 8, NDir ["config.json"; "manifest.json"]);
     (CanonicalConfig, NFile (bytes "old") PRIVATE_MODE)]) true true 100 0.

Local Abbreviation sample_run := (recover toy_sha plain_encode plain_decode).

Lemma recover_settles_witness :
  exists d', sample_run (Some 8) (mkDisk sample_files []) = (Ok CompleteConfigPublish, d')
    /\ readable (nodes (files d') !! CanonicalConfig) = Some (bytes "new")
    /\ ((nodes sample_files !! journal_path = None /\ CompleteConfigPublish = ClearJournal
         /\ files d' = sample_files)
        \/ exists j, loadable plain_decode sample_files j
             /\ settled toy_sha (Some 8) j sample_files (files d')
             /\ (CompleteConfigPublish = DiscardStaged <-> Some 8 <> Some (new_generation j))).
Proof.
  eexists. split; [vm_compute; reflexivity|]. split; [vm_compute; reflexivity|].
  eapply (recover_settles toy_sha plain_encode plain_decode plain_decode_encode (Some 8)
    (mkDisk sample_files [])). vm_compute. reflexivity.
Defined.

(** Two starts are cut short, one while it replaces the configuration. *)
Definition sample_attempts : list (Z * list Outcome) :=
  [(101, [Succeeds; Fails 0]); (102, replicate 9 Succeeds ++ [Fails 0])].
Lemma recover_resumable_witness :
  exists action' f',
    sample_run (Some 8)
      (mkDisk (boot 103 (foldl (attempt toy_sha plain_encode plain_decode (Some 8)) sample_files
                           sample_attempts)) [])
    = (Ok action', mkDisk f' [])
    /\ (forall p, is_temporary p = false -> p <> CanonicalConfig ->
          nodes f' !! p
          = nodes (files (sample_run (Some 8) (mkDisk sample_files [])).2) !! p)
    /\ file_digest toy_sha CanonicalConfig f'
       = file_digest toy_sha CanonicalConfig (files (sample_run (Some 8) (mkDisk sample_files [])).2).
Proof.
  apply (recover_resumable toy_sha plain_encode plain_decode plain_decode_encode (Some 8)
    (mkDisk sample_files []) CompleteConfigPublish (sample_run (Some 8) (mkDisk sample_files [])).2
    sample_attempts 103).
  - vm_compute. reflexivity.
  - apply (bool_decide_unpack _). vm_compute. exact I.
  - intros r s. reflexivity.
Defined.
