(* ===== verification/Config.v ===== *)
(** * Config: the user's configuration

    [nethopd/src/config_model.rs]: the records of the configuration file after TOML
    decoding, the checks that turn them into the [EffectiveConfig] the worker runs on,
    what the rest of the system derives from it (the capture policy, the composer's
    options, the impact of a change) and the canonical form written back to disk.
    A [*Wire] record whose fields are those of its checked form is that record.  The URL
    parser is a parameter. *)

From S2P Require Import Prelude Text Ip Ordering BTreeMap Source Pipeline Capture Capability Composer WifiScene Apps AtomicFile.

Local Open Scope Z_scope.

Definition CONFIG_SCHEMA_VERSION : Z := 3.
Definition MAX_AUTO_CANDIDATES : Z := 64.
Definition MAX_SOURCE_NAME_BYTES : Z := 128.
Definition MAX_SOURCE_NAME_CHARS : Z := 64.
Definition MAX_MIRRORS : Z := 3.
Definition MAX_APPLICATION_TARGETS : Z := 2000.
Definition MAX_CIDRS : Z := 512.
Definition MAX_DOMAINS : Z := 512.
Definition MAX_DOMAIN_BYTES : Z := 253.
Definition MAX_INTERFACES : Z := 64.
Definition CFG_MAX_INTERFACE_PATTERN_BYTES : Z := 64.
Definition DEFAULT_INBOUND_PORT : Z := 7893.
Definition DEFAULT_BYPASS_MARK : Z := 131072.
Definition APPLICATION_RESOLUTION_SENTINEL : Z := 1.

(** ** Data *)
Inductive SourceRequestProfile : Type :=
| PGeneric | PMihomo | PClashStandard | PSurfboard | PSingBox | PSingBoxAndroid.
Definition effective_profile (p : SourceRequestProfile) : RequestProfile :=
  match p with
  | PGeneric => NetHopGeneric | PMihomo => Mihomo | PClashStandard => ClashStandard
  | PSurfboard => Surfboard | PSingBox => SingBox | PSingBoxAndroid => SingBoxAndroid
  end.

Record SubscriptionSourceWire : Type := mkSourceWire {
  sw_name : string;
  sw_enabled : bool;
  sw_url : string;
  sw_profile : SourceRequestProfile;
  sw_format : SourceFormatHint;
  sw_mirrors : list string;
  sw_filter : NodeFilter;
}.
Record SubscriptionSettings : Type := mkSubscriptions {
  sub_mode : SubscriptionMode;
  sub_auto_update : bool;
  sub_interval_hours : Z;
}.
Inductive OutboundMode : Type := OmRule | OmGlobal | OmDirect.
Record UrltestSettings : Type := mkUrltest {
  ut_interval : Z;
  ut_tolerance : Z;
  ut_candidates : Z;
}.
Record ProxySettings : Type := mkProxy { px_mode : OutboundMode; px_urltest : UrltestSettings }.

Inductive ApplicationTarget : Type :=
| TargetPackage (user : Z) (package : string)
| TargetUid (uid : Z).
Inductive ApplicationMode : Type := AppsAll | AppsBlacklist | AppsWhitelist.
Record ApplicationSettings : Type := mkApplications {
  app_mode : ApplicationMode;
  app_targets : list ApplicationTarget;
}.

Inductive CaptureIntent : Type := IntentAuto | IntentTproxy | IntentTun.
Inductive Ipv6Mode : Type := Ipv6Auto | Ipv6Proxy | Ipv6Block.
Inductive DnsMode : Type := DnsAuto | DnsProxy | DnsSystem.
Record InterfaceSettings : Type := mkIfaces {
  if_mobile : bool;
  if_wifi : bool;
  if_hotspot : bool;
  if_usb : bool;
  if_include : list string;
  if_exclude : list string;
}.
Record WifiSceneRuleWire : Type := mkSceneWire {
  wr_id : string;
  wr_ssid : option string;
  wr_bssid : option string;
  wr_action : WifiSceneAction;
}.
Record WifiScenesWire : Type := mkScenesWire {
  ws_enabled : bool;
  ws_probe_interval : Z;
  ws_rules : list WifiSceneRuleWire;
}.
Record WifiSceneSettings : Type := mkScenes {
  wifi_enabled : bool;
  wifi_probe_interval : Z;
  wifi_matcher : WifiSceneMatcher;
}.
Record NetworkWire : Type := mkNetworkWire {
  nw_capture_mode : CaptureIntent;
  nw_proxy_tcp : bool;
  nw_proxy_udp : bool;
  nw_ipv6_mode : Ipv6Mode;
  nw_dns_mode : DnsMode;
  nw_tun_stack : WorkerActivation.TunStack;
  nw_interfaces : InterfaceSettings;
  nw_wifi_scenes : WifiScenesWire;
}.
Record NetworkSettings : Type := mkNetwork {
  net_capture_mode : CaptureIntent;
  net_proxy_tcp : bool;
  net_proxy_udp : bool;
  net_ipv6_mode : Ipv6Mode;
  net_dns_mode : DnsMode;
  net_tun_stack : WorkerActivation.TunStack;
  net_interfaces : InterfaceSettings;
  net_wifi_scenes : WifiSceneSettings;
}.
Record RoutingWire : Type := mkRoutingWire {
  rw_bypass_private : bool;
  rw_bypass_cn : bool;
  rw_block_quic : bool;
  rw_force_cidrs : list string;
  rw_bypass_cidrs : list string;
  rw_force_domains : list string;
  rw_bypass_domains : list string;
  rw_block_domains : list string;
}.
Record CanonicalCidr : Type := mkCidr {
  cidr_text : string;
  cidr_network : Z;
  cidr_prefix : Z;
  cidr_ipv6 : bool;
}.
Record RoutingSettings : Type := mkRouting {
  rt_bypass_private : bool;
  rt_bypass_cn : bool;
  rt_block_quic : bool;
  rt_force_cidrs : list CanonicalCidr;
  rt_bypass_cidrs : list CanonicalCidr;
  rt_force_domains : list string;
  rt_bypass_domains : list string;
  rt_block_domains : list string;
}.
Inductive LogLevel : Type := LvlError | LvlWarn | LvlInfo | LvlDebug | LvlTrace.
Record LoggingSettings : Type := mkLogging { lg_level : LogLevel; lg_retention_days : Z }.
Record ResourceCandidateWire : Type := mkResourceWire {
  rc_mark : Z;
  rc_mask : Z;
  rc_route_table : Z;
  rc_rule_priority : Z;
}.
Record AdvancedSettings : Type := mkAdvanced {
  adv_inbound_port : Z;
  adv_bypass_mark : Z;
  adv_ipv6_guard : bool;
  adv_dry_run : bool;
  adv_health_timeout : Z;
  adv_reconcile_interval : Z;
}.
Record AdvancedWire : Type := mkAdvancedWire {
  aw_settings : AdvancedSettings;
  aw_candidates : list ResourceCandidateWire;
}.
Record UserConfigWire : Type := mkWire {
  wire_schema : Z;
  wire_service_enabled : bool;
  wire_subscriptions : SubscriptionSettings;
  wire_sources : list SubscriptionSourceWire;
  wire_proxy : ProxySettings;
  wire_applications : ApplicationSettings;
  wire_network : NetworkWire;
  wire_routing : RoutingWire;
  wire_logging : LoggingSettings;
  wire_advanced : AdvancedWire;
}.
Record EffectiveConfig : Type := mkEffective {
  ec_service_enabled : bool;
  ec_subscriptions : SubscriptionSettings;
  ec_sources : list UserSource;
  ec_proxy : ProxySettings;
  ec_applications : ApplicationSettings;
  ec_network : NetworkSettings;
  ec_routing : RoutingSettings;
  ec_logging : LoggingSettings;
  ec_advanced : AdvancedSettings;
  ec_capture : CapturePolicy;
  ec_allocations : list ResourceCandidate;
}.

(** *** Defaults of missing fields *)
Definition UrltestWire_default : UrltestSettings := mkUrltest 10 50 64.
Definition ProxyWire_default : ProxySettings := mkProxy OmRule UrltestWire_default.
Definition ApplicationsWire_default : ApplicationSettings := mkApplications AppsAll [].
Definition InterfacesWire_default : InterfaceSettings := mkIfaces true true false false [] [].
Definition WifiScenesWire_default : WifiScenesWire := mkScenesWire false 30 [].
Definition NetworkWire_default : NetworkWire :=
  mkNetworkWire IntentAuto true true Ipv6Auto DnsAuto WorkerActivation.Gvisor InterfacesWire_default
    WifiScenesWire_default.
Definition RoutingWire_default : RoutingWire := mkRoutingWire true true false [] [] [] [] [].
Definition LoggingWire_default : LoggingSettings := mkLogging LvlInfo 7.
Definition default_resource_candidates : list ResourceCandidateWire :=
  [mkResourceWire 1313407232 4294967295 100 12000; mkResourceWire 1313407488 4294967295 101 12010;
   mkResourceWire 1313407744 4294967295 102 12020].
Definition AdvancedWire_default : AdvancedWire :=
  mkAdvancedWire (mkAdvanced DEFAULT_INBOUND_PORT DEFAULT_BYPASS_MARK true false 3 60)
    default_resource_candidates.

(** *** Decidable equality *)
#[export] Instance OutboundMode_eq_dec : EqDecision OutboundMode. Proof. solve_decision. Defined.
#[export] Instance UrltestSettings_eq_dec : EqDecision UrltestSettings. Proof. solve_decision. Defined.
#[export] Instance ProxySettings_eq_dec : EqDecision ProxySettings. Proof. solve_decision. Defined.
#[export] Instance ApplicationTarget_eq_dec : EqDecision ApplicationTarget. Proof. solve_decision. Defined.
#[export] Instance ApplicationMode_eq_dec : EqDecision ApplicationMode. Proof. solve_decision. Defined.
#[export] Instance ApplicationSettings_eq_dec : EqDecision ApplicationSettings. Proof. solve_decision. Defined.
#[export] Instance CaptureIntent_eq_dec : EqDecision CaptureIntent. Proof. solve_decision. Defined.
#[export] Instance Ipv6Mode_eq_dec : EqDecision Ipv6Mode. Proof. solve_decision. Defined.
#[export] Instance DnsMode_eq_dec : EqDecision DnsMode. Proof. solve_decision. Defined.
#[export] Instance InterfaceSettings_eq_dec : EqDecision InterfaceSettings. Proof. solve_decision. Defined.
#[export] Instance WifiSceneAction_eq_dec : EqDecision WifiSceneAction. Proof. solve_decision. Defined.
#[export] Instance WifiSceneRule_eq_dec : EqDecision WifiSceneRule. Proof. solve_decision. Defined.
#[export] Instance WifiSceneMatcher_eq_dec : EqDecision WifiSceneMatcher. Proof. solve_decision. Defined.
#[export] Instance WifiSceneSettings_eq_dec : EqDecision WifiSceneSettings. Proof. solve_decision. Defined.
#[export] Instance TunStack_eq_dec : EqDecision WorkerActivation.TunStack. Proof. solve_decision. Defined.
#[export] Instance NetworkSettings_eq_dec : EqDecision NetworkSettings. Proof. solve_decision. Defined.
#[export] Instance CanonicalCidr_eq_dec : EqDecision CanonicalCidr. Proof. solve_decision. Defined.
#[export] Instance RoutingSettings_eq_dec : EqDecision RoutingSettings. Proof. solve_decision. Defined.
#[export] Instance LogLevel_eq_dec : EqDecision LogLevel. Proof. solve_decision. Defined.
#[export] Instance LoggingSettings_eq_dec : EqDecision LoggingSettings. Proof. solve_decision. Defined.
#[export] Instance ResourceCandidateWire_eq_dec : EqDecision ResourceCandidateWire. Proof. solve_decision. Defined.
#[export] Instance AdvancedSettings_eq_dec : EqDecision AdvancedSettings. Proof. solve_decision. Defined.
#[export] Instance SubscriptionMode_eq_dec : EqDecision SubscriptionMode. Proof. solve_decision. Defined.
#[export] Instance SubscriptionSettings_eq_dec : EqDecision SubscriptionSettings. Proof. solve_decision. Defined.
#[export] Instance ProxyProtocol_eq_dec' : EqDecision ProxyProtocol. Proof. solve_decision. Defined.
#[export] Instance RequestProfile_eq_dec : EqDecision RequestProfile. Proof. solve_decision. Defined.
#[export] Instance SourceFormatHint_eq_dec : EqDecision SourceFormatHint. Proof. solve_decision. Defined.
#[export] Instance NodeFilter_eq_dec : EqDecision NodeFilter. Proof. solve_decision. Defined.
#[export] Instance UserSource_eq_dec : EqDecision UserSource. Proof. solve_decision. Defined.
#[export] Instance ResourceCandidate_eq_dec : EqDecision ResourceCandidate. Proof. solve_decision. Defined.

(** [#\[derive(Ord)\]] on targets: packages before UIDs. *)
Definition target_key (t : ApplicationTarget) : Z * (Z * string) :=
  match t with TargetPackage u p => (0, (u, p)) | TargetUid i => (1, (i, "")) end.
#[export] Program Instance ApplicationTarget_Ord : Ord ApplicationTarget :=
  {| cmp := fun a b => cmp (target_key a) (target_key b) |}.
Next Obligation.
  intros a b. rewrite cmp_eq. split; [|by intros ->].
  destruct a, b; simpl; intros E; by simplify_eq.
Qed.
Next Obligation. intros. apply cmp_antisym. Qed.
Next Obligation. intros a b c. apply cmp_lt_trans. Qed.

(** ** Checks *)
(** [values.iter().all(|value| seen.insert(value))] *)
Definition all_unique {A} `{EqDecision A} (l : list A) : bool := bool_decide (NoDup l).
(** [value.chars().count()] on UTF-8 bytes. *)
Definition chars_count (bs : list Z) : Z := len (List.filter (fun b => negb (is_continuation b)) bs).

Definition SourceName_new (value : string) : Result ConfigError string :=
  let bs := bytes value in
  if String.eqb value "" || (MAX_SOURCE_NAME_BYTES <? str_len value)
     || (MAX_SOURCE_NAME_CHARS <? chars_count bs) || negb (bool_decide (trim_text bs = bs))
     || has_control bs
  then Err InvalidSourceName else Ok value.

Definition valid_package (value : string) : bool :=
  (str_len value <=? 255) && bool_decide (46 ∈ bytes value)
  && forallb (fun part => negb (len part =? 0)
                          && forallb (fun b => is_ascii_alphanumeric b || (b =? 95)) part)
       (split_on 46 (bytes value)).

Definition validate_subscription_settings (wire : SubscriptionSettings) (sources : list UserSource) :
    Result ConfigError SubscriptionSettings :=
  if negb (in_range 1 168 (sub_interval_hours wire)) then Err InvalidUpdateSchedule
  else
    let count f := len (List.filter f sources) in
    let configured := count (fun s => negb (is_empty_str (us_url s))) in
    let enabled := count us_enabled in
    let active := count (fun s => us_enabled s && negb (is_empty_str (us_url s))) in
    match sub_mode wire with
    | Single =>
        if (configured =? 0) && (enabled <=? 1) then Ok wire
        else if 1 <? enabled then Err SingleSourceNotUnique
        else if negb (active =? 1) then Err NoActiveSource
        else Ok wire
    | Merge => if active =? 0 then Err NoActiveSource else Ok wire
    end.

(** What [url::Url::parse] gives of a URL. *)
Record ParsedUrl : Type := mkUrl {
  url_scheme : string;
  url_username : string;
  url_password : option string;
  url_host : option string;
}.

Section sources.
Context (url_parse : string -> option ParsedUrl).

Definition validate_optional_url (url : string) : Result ConfigError unit :=
  if is_empty_str url then Ok tt
  else
    match url_parse url with
    | None => Err InvalidSourceUrl
    | Some parsed =>
        if negb (String.eqb (url_scheme parsed) "https") then Err SourceUrlNonHttps
        else
          match url_password parsed, url_host parsed with
          | None, Some _ => if is_empty_str (url_username parsed) then Ok tt else Err InvalidSourceUrl
          | _, _ => Err InvalidSourceUrl
          end
    end.

Fixpoint validate_mirrors (url : string) (mirrors seen : list string) : Result ConfigError unit :=
  match mirrors with
  | [] => Ok tt
  | mirror :: rest =>
      _ ← validate_optional_url mirror;
      if is_empty_str mirror || String.eqb mirror url || bool_decide (mirror ∈ seen)
      then Err InvalidSourceOptions
      else validate_mirrors url rest (mirror :: seen)
  end.

Fixpoint source_loop (wire : list SubscriptionSourceWire) (names urls : list string) :
    Result ConfigError (list UserSource) :=
  match wire with
  | [] => Ok []
  | s :: rest =>
      name ← SourceName_new (sw_name s);
      if bool_decide (name ∈ names) then Err DuplicateSourceName
      else
        _ ← validate_optional_url (sw_url s);
        let has_url := negb (is_empty_str (sw_url s)) in
        if has_url && bool_decide (sw_url s ∈ urls) then Err DuplicateSourceUrl
        else if (MAX_MIRRORS <? len (sw_mirrors s)) || (negb has_url && negb (len (sw_mirrors s) =? 0))
        then Err InvalidSourceOptions
        else
          _ ← validate_mirrors (sw_url s) (sw_mirrors s) [];
          let f := sw_filter s in
          filter ← map_err (fun _ => InvalidSourceOptions)
                     (NodeFilter_new_with_node_ids (include_names f) (exclude_names f)
                        (excluded_node_ids f) (protocols f));
          more ← source_loop rest (name :: names) (if has_url then sw_url s :: urls else urls);
          Ok (mkUserSource name (sw_enabled s) (sw_url s) (effective_profile (sw_profile s))
                (sw_format s) (sw_mirrors s) filter :: more)
  end.
Definition validate_sources (wire : list SubscriptionSourceWire) : Result ConfigError (list UserSource) :=
  if (len wire =? 0) || (MAX_SOURCES <? len wire) then Err InvalidSourceCount
  else source_loop wire [] [].
End sources.

Definition validate_proxy (wire : ProxySettings) : Result ConfigError ProxySettings :=
  let u := px_urltest wire in
  if negb (in_range 5 1440 (ut_interval u)) || (1000 <? ut_tolerance u)
     || negb (in_range 1 MAX_AUTO_CANDIDATES (ut_candidates u))
  then Err InvalidProxy else Ok wire.

Definition target_invalid (t : ApplicationTarget) : bool :=
  match t with
  | TargetPackage user package => (21474 <? user) || negb (valid_package package)
  | TargetUid uid => uid =? 0
  end.
Definition validate_applications (wire : ApplicationSettings) : Result ConfigError ApplicationSettings :=
  let targets := app_targets wire in
  if (MAX_APPLICATION_TARGETS <? len targets) || negb (all_unique targets)
     || negb (Bool.eqb (bool_decide (app_mode wire = AppsAll)) (len targets =? 0))
     || existsb target_invalid targets
  then Err InvalidApplications
  else Ok (mkApplications (app_mode wire) (sort targets)).

Definition cfg_pattern_invalid (pattern : string) : bool :=
  (str_len pattern =? 0) || (CFG_MAX_INTERFACE_PATTERN_BYTES <? str_len pattern)
  || negb (forallb pattern_byte (bytes pattern)).
Definition validate_patterns (patterns : list string) : Result ConfigError unit :=
  if (MAX_INTERFACES <? len patterns) || negb (all_unique patterns) then Err InvalidNetwork
  else if existsb cfg_pattern_invalid patterns then Err InvalidNetwork
  else Ok tt.

Fixpoint scene_loop (rules : list WifiSceneRuleWire) : Result ConfigError (list WifiSceneRule) :=
  match rules with
  | [] => Ok []
  | r :: rest =>
      rule ← map_err (fun _ => InvalidNetwork)
               (WifiSceneRule_new (wr_id r) (wr_ssid r) (wr_bssid r) (wr_action r));
      more ← scene_loop rest;
      Ok (rule :: more)
  end.

Definition validate_network (wire : NetworkWire) : Result ConfigError NetworkSettings :=
  let ifs := nw_interfaces wire in
  let scenes := nw_wifi_scenes wire in
  if negb (nw_proxy_tcp wire) && negb (nw_proxy_udp wire) then Err InvalidNetwork
  else if negb (bool_decide (nw_ipv6_mode wire = Ipv6Auto)) || negb (bool_decide (nw_dns_mode wire = DnsAuto))
  then Err UnsupportedNetwork
  else if bool_decide (nw_capture_mode wire = IntentTun)
          && (negb (nw_proxy_tcp wire) || negb (nw_proxy_udp wire) || negb (if_mobile ifs)
              || negb (if_wifi ifs) || if_hotspot ifs || if_usb ifs
              || negb (len (if_include ifs) =? 0) || negb (len (if_exclude ifs) =? 0))
  then Err UnsupportedNetwork
  else
    _ ← validate_patterns (if_include ifs);
    _ ← validate_patterns (if_exclude ifs);
    if negb (if_mobile ifs) && negb (if_wifi ifs) && (len (if_include ifs) =? 0) then Err InvalidNetwork
    else if existsb (fun value => bool_decide (value ∈ if_exclude ifs)) (if_include ifs)
    then Err InvalidNetwork
    else if negb (in_range 15 3600 (ws_probe_interval scenes))
            || (ws_enabled scenes && (len (ws_rules scenes) =? 0))
    then Err InvalidNetwork
    else
      rules ← scene_loop (ws_rules scenes);
      matcher ← map_err (fun _ => InvalidNetwork) (WifiSceneMatcher_new rules);
      Ok (mkNetwork (nw_capture_mode wire) (nw_proxy_tcp wire) (nw_proxy_udp wire) (nw_ipv6_mode wire)
            (nw_dns_mode wire) (nw_tun_stack wire) ifs
            (mkScenes (ws_enabled scenes) (ws_probe_interval scenes) matcher)).

(** *** Routing lists *)
Definition domain_label_ok (label : list Z) : bool :=
  negb (len label =? 0) && (len label <=? 63)
  && match head label with Some b => domain_edge b | None => false end
  && match last label with Some b => domain_edge b | None => false end.
Definition domain_bytes_ok (bs : list Z) : bool :=
  forallb (fun b => is_ascii_lowercase b || is_ascii_digit b || (b =? 46) || (b =? 45)) bs
  && forallb domain_label_ok (split_on 46 bs).
Fixpoint domain_loop (values seen : list string) : Result ConfigError (list string) :=
  match values with
  | [] => Ok []
  | value :: rest =>
      if String.eqb value "" || (MAX_DOMAIN_BYTES <? str_len value)
         || negb (bool_decide (bytes value = trim_text (bytes value)))
         || bool_decide (is_Some (ip_from_str (bytes value)))
      then Err InvalidRouting
      else
        let value := lowercase value in
        if negb (domain_bytes_ok (bytes value)) || bool_decide (value ∈ seen) then Err InvalidRouting
        else more ← domain_loop rest (value :: seen); Ok (value :: more)
  end.
Definition parse_domains (values : list string) : Result ConfigError (list string) :=
  parsed ← domain_loop values []; Ok (sort parsed).

Definition domain_is_suffix_of (value suffix : string) : bool :=
  String.eqb value suffix
  || match strip_suffix (bytes suffix) (bytes value) with
     | Some prefix => has_suffix [46] prefix
     | None => false
     end.
Definition domain_sets_overlap (left right : list string) : bool :=
  existsb (fun l => existsb (fun r => domain_is_suffix_of l r || domain_is_suffix_of r l) right) left.

Definition prefix_mask (bits prefix : Z) : Z :=
  if prefix =? 0 then 0
  else if bits =? 128 then cast_u 128 (Z.shiftl (umax 128) (128 - prefix))
  else cast_u 32 (Z.shiftl (umax 32) (32 - prefix)).

Definition parse_cidr (value : string) : Result ConfigError CanonicalCidr :=
  match split_once 47 (bytes value) with
  | None => Err InvalidRouting
  | Some (address, prefix) =>
      if (len address =? 0) || (len prefix =? 0) || bool_decide (47 ∈ prefix) then Err InvalidRouting
      else
        match ip_from_str address with
        | None => Err InvalidRouting
        | Some address =>
            match parse_u8 prefix with
            | None => Err InvalidRouting
            | Some prefix =>
                match address with
                | V4 bits =>
                    if prefix <=? 32 then
                      let network := Z.land bits (cast_u 32 (prefix_mask 32 prefix)) in
                      Ok (mkCidr (of_bytes (ip_text (V4 network) ++ [47] ++ print_u64 prefix)) network prefix
                            false)
                    else Err InvalidRouting
                | V6 bits =>
                    if prefix <=? 128 then
                      let network := Z.land bits (prefix_mask 128 prefix) in
                      Ok (mkCidr (of_bytes (ip_text (V6 network) ++ [47] ++ print_u64 prefix)) network prefix
                            true)
                    else Err InvalidRouting
                end
            end
        end
  end.
Fixpoint cidr_loop (values : list string) (seen : list CanonicalCidr) :
    Result ConfigError (list CanonicalCidr) :=
  match values with
  | [] => Ok []
  | value :: rest =>
      cidr ← parse_cidr value;
      if bool_decide (cidr ∈ seen) then Err InvalidRouting
      else more ← cidr_loop rest (cidr :: seen); Ok (cidr :: more)
  end.
Definition parse_cidrs (values : list string) : Result ConfigError (list CanonicalCidr) :=
  parsed ← cidr_loop values []; Ok (stable_sort_by_key cidr_text parsed).

Definition overlaps (a b : CanonicalCidr) : bool :=
  if negb (Bool.eqb (cidr_ipv6 a) (cidr_ipv6 b)) then false
  else
    let bits := if cidr_ipv6 a then 128 else 32 in
    let mask := prefix_mask bits (Z.min (cidr_prefix a) (cidr_prefix b)) in
    Z.land (cidr_network a) mask =? Z.land (cidr_network b) mask.

Definition validate_routing (wire : RoutingWire) : Result ConfigError RoutingSettings :=
  if rw_block_quic wire then Err UnsupportedRouting
  else if (MAX_CIDRS <? len (rw_force_cidrs wire)) || (MAX_CIDRS <? len (rw_bypass_cidrs wire))
  then Err InvalidRouting
  else
    force ← parse_cidrs (rw_force_cidrs wire);
    bypass ← parse_cidrs (rw_bypass_cidrs wire);
    if existsb (fun f => existsb (overlaps f) bypass) force then Err InvalidRouting
    else if (MAX_DOMAINS <? len (rw_force_domains wire)) || (MAX_DOMAINS <? len (rw_bypass_domains wire))
            || (MAX_DOMAINS <? len (rw_block_domains wire))
    then Err InvalidRouting
    else
      force_domains ← parse_domains (rw_force_domains wire);
      bypass_domains ← parse_domains (rw_bypass_domains wire);
      block_domains ← parse_domains (rw_block_domains wire);
      if domain_sets_overlap force_domains bypass_domains || domain_sets_overlap force_domains block_domains
         || domain_sets_overlap bypass_domains block_domains
      then Err InvalidRouting
      else Ok (mkRouting (rw_bypass_private wire) (rw_bypass_cn wire) (rw_block_quic wire) force bypass
                 force_domains bypass_domains block_domains).

Definition validate_logging (wire : LoggingSettings) : Result ConfigError LoggingSettings :=
  if negb (in_range 1 30 (lg_retention_days wire)) then Err InvalidLogging else Ok wire.

Fixpoint allocation_loop (bypass_mark : Z) (candidates : list ResourceCandidateWire) :
    Result ConfigError (list ResourceCandidate) :=
  match candidates with
  | [] => Ok []
  | c :: rest =>
      match ResourceCandidate_new (rc_mark c) (rc_mask c) (rc_route_table c) (rc_rule_priority c) with
      | None => Err InvalidAdvanced
      | Some a =>
          if negb (Z.land (mark a) bypass_mark =? 0) then Err InvalidAdvanced
          else more ← allocation_loop bypass_mark rest; Ok (a :: more)
      end
  end.
Definition validate_advanced (wire : AdvancedWire) :
    Result ConfigError (AdvancedSettings * list ResourceCandidate) :=
  let s := aw_settings wire in
  if (adv_inbound_port s =? 0) || (adv_bypass_mark s =? 0) || negb (in_range 1 30 (adv_health_timeout s))
     || negb (in_range 60 3600 (adv_reconcile_interval s)) || (len (aw_candidates wire) =? 0)
     || (16 <? len (aw_candidates wire)) || negb (all_unique (aw_candidates wire))
  then Err InvalidAdvanced
  else allocations ← allocation_loop (adv_bypass_mark s) (aw_candidates wire); Ok (s, allocations).

(** ** The effective configuration *)
Definition direct_uids (s : ApplicationSettings) : list Z :=
  omap (fun t => match t with TargetUid uid => Some uid | TargetPackage _ _ => None end) (app_targets s).
Definition target_packages (s : ApplicationSettings) : list (Z * string) :=
  omap (fun t => match t with TargetPackage u p => Some (u, p) | TargetUid _ => None end) (app_targets s).
Definition base_include_uids (s : ApplicationSettings) : list Z :=
  match app_mode s with AppsWhitelist => direct_uids s | AppsAll | AppsBlacklist => [] end.
Definition initial_include_uids (s : ApplicationSettings) : list Z :=
  let include := base_include_uids s in
  if bool_decide (app_mode s = AppsWhitelist) && negb (len (app_targets s) =? 0) && (len include =? 0)
  then [APPLICATION_RESOLUTION_SENTINEL] else include.
Definition base_exclude_uids (s : ApplicationSettings) : list Z :=
  0 :: match app_mode s with AppsBlacklist => direct_uids s | AppsAll | AppsWhitelist => [] end.

Definition build_capture (capture_mode : CaptureMode) (network : NetworkSettings)
    (advanced : AdvancedSettings) (include exclude : list Z) : Result ConfigError CapturePolicy :=
  let ifs := net_interfaces network in
  capture ← map_err (fun _ => InvalidApplications)
    (CapturePolicy_new_with_protocols capture_mode (net_proxy_tcp network) (net_proxy_udp network)
       (adv_ipv6_guard advanced) (Some (adv_inbound_port advanced)) (Some (adv_bypass_mark advanced))
       include exclude);
  interfaces ← map_err (fun _ => InvalidNetwork)
    (InterfacePolicy_new (if_mobile ifs) (if_wifi ifs) (if_include ifs) (if_exclude ifs));
  map_err (fun _ => InvalidNetwork)
    (capture ← with_interface_policy capture interfaces;
     with_forwarding_policy capture (mkForwardingPolicy (if_hotspot ifs) (if_usb ifs))).

Definition capture_mode_of (network : NetworkSettings) : CaptureMode :=
  match net_capture_mode network with IntentAuto | IntentTproxy => Tproxy | IntentTun => Tun end.

Definition from_wire (url_parse : string -> option ParsedUrl) (wire : UserConfigWire) :
    Result ConfigError EffectiveConfig :=
  if negb (wire_schema wire =? CONFIG_SCHEMA_VERSION) then Err UnsupportedSchema
  else
    sources ← validate_sources url_parse (wire_sources wire);
    subscriptions ← validate_subscription_settings (wire_subscriptions wire) sources;
    proxy ← validate_proxy (wire_proxy wire);
    applications ← validate_applications (wire_applications wire);
    network ← validate_network (wire_network wire);
    routing ← validate_routing (wire_routing wire);
    logging ← validate_logging (wire_logging wire);
    '(advanced, allocations) ← validate_advanced (wire_advanced wire);
    capture ← build_capture (capture_mode_of network) network advanced
                (initial_include_uids applications) (base_exclude_uids applications);
    Ok (mkEffective (wire_service_enabled wire) subscriptions sources proxy applications network routing
          logging advanced capture allocations).

Definition capture_with_application_uids (self : EffectiveConfig) (include_uids exclude_uids : list Z) :
    Result ConfigError CapturePolicy :=
  let base := List.filter (fun uid => negb (uid =? APPLICATION_RESOLUTION_SENTINEL))
                (base_include_uids (ec_applications self)) in
  let include := sort_dedup (base ++ include_uids) in
  let exclude := sort_dedup (base_exclude_uids (ec_applications self) ++ exclude_uids) in
  if existsb (fun uid => bool_decide (uid ∈ exclude)) include then Err InvalidApplications
  else build_capture (capture_mode_of (ec_network self)) (ec_network self) (ec_advanced self) include exclude.

Definition admitted_capture (self : EffectiveConfig) (catalog : option AppCatalog) :
    Result ConfigError CapturePolicy :=
  let packages := target_packages (ec_applications self) in
  if len packages =? 0 then Ok (ec_capture self)
  else
    let compiled m :=
      c ← ok_or catalog ApplicationCatalogUnavailable;
      s ← map_err (fun _ => InvalidApplications) (compile_selection c m packages);
      capture_with_application_uids self (sel_include s) (sel_exclude s) in
    match app_mode (ec_applications self) with
    | AppsAll => Err InvalidApplications
    | AppsBlacklist => compiled Blacklist
    | AppsWhitelist => compiled Whitelist
    end.

Definition managed_options (self : EffectiveConfig) : Result ConfigError ManagedOptions :=
  let rt := ec_routing self in
  let ut := px_urltest (ec_proxy self) in
  map_err (fun _ => InvalidProxy)
    (o ← ManagedOptions_new
           (match px_mode (ec_proxy self) with
            | OmRule => ModeRule | OmGlobal => ModeGlobal | OmDirect => ModeDirect end)
           (ut_interval ut) (ut_tolerance ut) (ut_candidates ut)
           (match lg_level (ec_logging self) with
            | LvlError => LogError | LvlWarn => LogWarn | LvlInfo => LogInfo | LvlDebug => LogDebug
            | LvlTrace => LogTrace end)
           (rt_bypass_private rt) (rt_bypass_cn rt)
           (cidr_text <$> rt_force_cidrs rt) (cidr_text <$> rt_bypass_cidrs rt);
     with_domain_rules o (rt_force_domains rt) (rt_bypass_domains rt) (rt_block_domains rt)).
Definition managed_tun_stack (self : EffectiveConfig) : WorkerActivation.TunStack :=
  net_tun_stack (ec_network self).

(** *** The impact of a change *)
Inductive ApplyImpact : Type := RuntimeOnly | NetworkPlanImpact | GenerationActivation | StopDataPlane.
Inductive ChangeKind : Type :=
| ChService | ChSubscriptionSchedule | ChSources | ChProxy | ChApplications | ChNetwork | ChRouting
| ChLogging | ChAdvanced.
Record ChangePlan : Type := mkChangePlan { changes : list ChangeKind; impact : ApplyImpact }.
Definition impact_rank (i : ApplyImpact) : Z :=
  match i with RuntimeOnly => 0 | NetworkPlanImpact => 1 | GenerationActivation => 2 | StopDataPlane => 3 end.
Definition impact_max (a b : ApplyImpact) : ApplyImpact :=
  if impact_rank b <? impact_rank a then a else b.

(** One comparison of [change_plan]: it pushes its kind and raises the impact. *)
Definition note (changed : bool) (kind : ChangeKind) (i : ApplyImpact) (p : ChangePlan) : ChangePlan :=
  if changed then mkChangePlan (changes p ++ [kind]) (impact_max (impact p) i) else p.
Definition differs {A} `{EqDecision A} (a b : A) : bool := negb (bool_decide (a = b)).

Definition change_plan (self candidate : EffectiveConfig) : ChangePlan :=
  let tun c := bool_decide (net_capture_mode (ec_network c) = IntentTun) in
  let core_topology_changed :=
    differs (net_capture_mode (ec_network self)) (net_capture_mode (ec_network candidate))
    || differs (net_tun_stack (ec_network self)) (net_tun_stack (ec_network candidate)) in
  let p :=
    if differs (ec_service_enabled self) (ec_service_enabled candidate)
    then mkChangePlan [ChService]
           (if ec_service_enabled candidate then GenerationActivation else StopDataPlane)
    else mkChangePlan [] RuntimeOnly in
  let p := note (differs (ec_subscriptions self) (ec_subscriptions candidate)) ChSubscriptionSchedule
             RuntimeOnly p in
  let p := note (differs (ec_sources self) (ec_sources candidate)) ChSources GenerationActivation p in
  let p := note (differs (ec_proxy self) (ec_proxy candidate)) ChProxy GenerationActivation p in
  let p := note (differs (ec_applications self) (ec_applications candidate)) ChApplications
             (if tun self || tun candidate then GenerationActivation else NetworkPlanImpact) p in
  let p := note (differs (ec_network self) (ec_network candidate)) ChNetwork
             (if core_topology_changed then GenerationActivation else NetworkPlanImpact) p in
  let p := note (differs (ec_routing self) (ec_routing candidate)) ChRouting GenerationActivation p in
  let p := note (differs (ec_logging self) (ec_logging candidate)) ChLogging RuntimeOnly p in
  note (differs (ec_advanced self) (ec_advanced candidate)
        || differs (ec_allocations self) (ec_allocations candidate)) ChAdvanced NetworkPlanImpact p.

(** *** The canonical form *)
Definition canonical_source (s : SubscriptionSourceWire) : SubscriptionSourceWire :=
  let f := sw_filter s in
  mkSourceWire (sw_name s) (sw_enabled s) (sw_url s) (sw_profile s) (sw_format s) (sw_mirrors s)
    (mkFilter (sort (include_names f)) (sort (exclude_names f)) (sort (excluded_node_ids f))
       (sort (protocols f))).
Definition canonical_network (n : NetworkWire) : NetworkWire :=
  let ifs := nw_interfaces n in let ws := nw_wifi_scenes n in
  mkNetworkWire (nw_capture_mode n) (nw_proxy_tcp n) (nw_proxy_udp n) (nw_ipv6_mode n) (nw_dns_mode n)
    (nw_tun_stack n)
    (mkIfaces (if_mobile ifs) (if_wifi ifs) (if_hotspot ifs) (if_usb ifs) (sort (if_include ifs))
       (sort (if_exclude ifs)))
    (mkScenesWire (ws_enabled ws) (ws_probe_interval ws) (stable_sort_by_key wr_id (ws_rules ws))).
Definition canonical_routing (r : RoutingWire) : Result ConfigError RoutingWire :=
  force ← parse_cidrs (rw_force_cidrs r);
  bypass ← parse_cidrs (rw_bypass_cidrs r);
  force_domains ← parse_domains (rw_force_domains r);
  bypass_domains ← parse_domains (rw_bypass_domains r);
  block_domains ← parse_domains (rw_block_domains r);
  Ok (mkRoutingWire (rw_bypass_private r) (rw_bypass_cn r) (rw_block_quic r) (cidr_text <$> force)
        (cidr_text <$> bypass) force_domains bypass_domains block_domains).
Definition canonicalized (url_parse : string -> option ParsedUrl) (wire : UserConfigWire) :
    Result ConfigError UserConfigWire :=
  _ ← from_wire url_parse wire;
  routing ← canonical_routing (wire_routing wire);
  let a := wire_applications wire in
  Ok (mkWire (wire_schema wire) (wire_service_enabled wire) (wire_subscriptions wire)
        (canonical_source <$> wire_sources wire) (wire_proxy wire)
        (mkApplications (app_mode a) (sort (app_targets a))) (canonical_network (wire_network wire))
        routing (wire_logging wire) (wire_advanced wire)).
