(* ===== verification/ConfigRouting.v ===== *)
(** * ConfigRouting: what the routing checks establish

    The lists of a checked configuration name disjoint sets of hosts and of addresses,
    and fit the composer's bounds. *)

From S2P Require Import Prelude Text Ip Ordering Capture Composer AtomicFile Config.

Local Open Scope Z_scope.

(** ** Domains *)
Lemma has_suffix_dot p : has_suffix [46] p = true <-> exists q, p = q ++ [46].
Proof.
  unfold has_suffix, strip_suffix. change (reverse [46]) with [46].
  destruct (strip_prefix [46] (reverse p)) as [r|] eqn:E.
  - apply strip_prefix_Some in E. split; [intros _|done]. exists (reverse r).
    rewrite <- (reverse_involutive p), E, reverse_app. done.
  - split; [done|]. intros [q ->]. rewrite reverse_app in E. simpl in E. done.
Qed.
Lemma strip_suffix_Some s t p : strip_suffix s t = Some p <-> t = p ++ s.
Proof.
  unfold strip_suffix. destruct (strip_prefix (reverse s) (reverse t)) as [r|] eqn:E; simpl.
  - apply strip_prefix_Some in E. assert (t = reverse r ++ s) as Ht.
    { rewrite <- (reverse_involutive t), E, reverse_app, reverse_involutive. done. }
    split; [intros [= <-]; done|]. intros Hp. f_equal. rewrite Ht in Hp. by apply app_inj_2 in Hp as [? _].
  - split; [done|]. intros ->. exfalso. rewrite reverse_app in E.
    by rewrite (proj2 (strip_prefix_Some (reverse s) (reverse s ++ reverse p) (reverse p))) in E.
Qed.
(** The name is the domain or one of its subdomains. *)
Definition under (host domain : list Z) : Prop :=
  host = domain \/ exists q, host = q ++ [46] ++ domain.
Lemma domain_is_suffix_of_iff value suffix :
  domain_is_suffix_of value suffix = true <-> under (bytes value) (bytes suffix).
Proof.
  unfold domain_is_suffix_of, under. rewrite orb_true_iff, String.eqb_eq.
  destruct (strip_suffix (bytes suffix) (bytes value)) as [p|] eqn:E.
  - apply strip_suffix_Some in E. rewrite has_suffix_dot, E. split.
    + intros [->|[q ->]]; [by left|right; exists q; by rewrite <- (assoc_L (++))].
    + intros [Hp|[q Hq]].
      * left. apply bytes_inj. by rewrite E, Hp.
      * right. exists q. rewrite (assoc_L (++)) in Hq. by apply app_inj_2 in Hq as [? _].
  - split; [intros [->|?]; [by left|done]|]. intros [Hv|[q Hq]].
    + left. by apply bytes_inj.
    + exfalso. rewrite (assoc_L (++)) in Hq. apply strip_suffix_Some in Hq. congruence.
Qed.
(** Two domains above one host: one is above the other. *)
Lemma under_comparable host a b : under host a -> under host b -> under a b \/ under b a.
Proof.
  assert (forall p q (x y : list Z), p ++ x = q ++ y -> (length x <= length y)%nat ->
            exists r, y = r ++ x /\ p = q ++ r) as Hsplit.
  { intros p q x y. revert q y. induction p as [|b' p IH]; intros q y Heq Hlen.
    - destruct q as [|c q]; [by exists []|].
      exfalso. simpl in Heq. apply (f_equal length) in Heq. simpl in Heq. rewrite length_app in Heq. lia.
    - destruct q as [|c q]; [by exists (b' :: p)|]. simpl in Heq. injection Heq as -> Heq.
      destruct (IH q y Heq Hlen) as (r & -> & ->). by exists r. }
  assert (forall p q (x y : list Z), p ++ x = q ++ y -> (length x <= length y)%nat ->
            (p = [] \/ exists p', p = p' ++ [46]) -> under y x) as Hwlog.
  { intros p q x y Heq Hlen Hp. destruct (Hsplit p q x y Heq Hlen) as (r & -> & ->).
    destruct r as [|c r _] using rev_ind; [by left|]. right. exists r.
    destruct Hp as [Hp|[p' Hp]]; [by destruct q, r|].
    rewrite (assoc_L (++)) in Hp. apply app_inj_tail in Hp as [_ ->]. by rewrite <- (assoc_L (++)). }
  assert (forall d, under host d -> exists p, host = p ++ d /\ (p = [] \/ exists p', p = p' ++ [46])) as Hform.
  { intros d [->|[q ->]]; [exists []; split; [done|by left]|].
    exists (q ++ [46]). split; [by rewrite <- (assoc_L (++))|right; by exists q]. }
  intros (p & Hp & Ep)%Hform (q & Hq & Eq)%Hform. rewrite Hp in Hq.
  destruct (decide (length a <= length b)%nat).
  - right. by apply (Hwlog p q).
  - left. apply (Hwlog q p); [by symmetry|lia|done].
Qed.
Lemma overlap_complete left right host a b :
  domain_sets_overlap left right = false -> a ∈ left -> b ∈ right ->
  under host (bytes a) -> under host (bytes b) -> False.
Proof.
  intros Ho Ha Hb Hua Hub. pose proof (existsb_false_elem _ _ Ho a Ha) as Hr. simpl in Hr.
  pose proof (existsb_false_elem _ _ Hr b Hb) as Hf. simpl in Hf. apply orb_false_iff in Hf as [H1 H2].
  destruct (under_comparable host _ _ Hua Hub) as [H|H]; apply domain_is_suffix_of_iff in H; congruence.
Qed.

(** ** Addresses *)
Lemma shifted_ones_testbit bits k i :
  0 <= k <= bits -> 0 <= i ->
  Z.testbit (cast_u bits (Z.shiftl (umax bits) k)) i = (k <=? i) && (i <? bits).
Proof.
  intros Hk Hi. unfold cast_u, umax.
  destruct (Z.ltb_spec i bits) as [Hlt|Hge].
  - rewrite Z.mod_pow2_bits_low, Z.shiftl_spec by lia. rewrite andb_true_r.
    replace (2 ^ bits - 1) with (Z.ones bits) by (rewrite Z.ones_equiv; lia).
    destruct (Z.leb_spec k i); [apply Z.ones_spec_low; lia|apply Z.testbit_neg_r; lia].
  - rewrite Z.mod_pow2_bits_high by lia. by rewrite andb_false_r.
Qed.
Definition width (ipv6 : bool) : Z := if ipv6 then 128 else 32.
Lemma prefix_mask_testbit v6 p i :
  0 <= p <= width v6 -> 0 <= i ->
  Z.testbit (prefix_mask (width v6) p) i = (width v6 - p <=? i) && (i <? width v6).
Proof.
  intros Hp Hi. unfold prefix_mask. destruct (p =? 0) eqn:E.
  - apply Z.eqb_eq in E as ->. rewrite Z.testbit_0_l. symmetry. apply andb_false_iff.
    rewrite Z.leb_gt, Z.ltb_ge. lia.
  - destruct v6; simpl in *; by rewrite shifted_ones_testbit by lia.
Qed.
Lemma prefix_mask_nested v6 p q :
  0 <= p <= q -> q <= width v6 ->
  Z.land (prefix_mask (width v6) q) (prefix_mask (width v6) p) = prefix_mask (width v6) p.
Proof.
  intros Hp Hq. apply Z.bits_inj'. intros i Hi. rewrite Z.land_spec, !prefix_mask_testbit by lia.
  destruct (Z.leb_spec (width v6 - p) i), (Z.leb_spec (width v6 - q) i), (i <? width v6); try done; lia.
Qed.

Definition cidr_wf (c : CanonicalCidr) : Prop :=
  0 <= cidr_prefix c <= width (cidr_ipv6 c)
  /\ is_uint (width (cidr_ipv6 c)) (cidr_network c)
  /\ Z.land (cidr_network c) (prefix_mask (width (cidr_ipv6 c)) (cidr_prefix c)) = cidr_network c
  /\ bytes (cidr_text c)
     = ip_text (if cidr_ipv6 c then V6 (cidr_network c) else V4 (cidr_network c))
       ++ [47] ++ print_u64 (cidr_prefix c).
(** The addresses of a block. *)
Definition in_cidr (v6 : bool) (address : Z) (c : CanonicalCidr) : Prop :=
  cidr_ipv6 c = v6
  /\ Z.land address (prefix_mask (width v6) (cidr_prefix c)) = cidr_network c.

Lemma overlaps_complete v6 address a b :
  cidr_wf a -> cidr_wf b -> in_cidr v6 address a -> in_cidr v6 address b -> overlaps a b = true.
Proof.
  intros (Ha & _) (Hb & _) [Ea Na] [Eb Nb]. unfold overlaps. rewrite Ea, Eb, Bool.eqb_reflx. simpl.
  rewrite Ea in Ha. rewrite Eb in Hb. fold (width v6). apply Z.eqb_eq. rewrite <- Na, <- Nb, <- !Z.land_assoc.
  by rewrite !prefix_mask_nested by lia.
Qed.

(** *** Parsed blocks *)
Lemma land_uint w a b : 0 <= w -> is_uint w a -> 0 <= b -> is_uint w (Z.land a b).
Proof.
  intros Hw [H1 H2] Hb. split; [by apply Z.land_nonneg; left|].
  destruct (decide (a = 0)) as [->|]; [rewrite Z.land_0_l; by apply Z.pow_pos_nonneg|].
  destruct (decide (Z.land a b = 0)) as [->|Hne]; [by apply Z.pow_pos_nonneg|].
  assert (0 <= Z.land a b) by (by apply Z.land_nonneg; left).
  apply Z.log2_lt_pow2; [lia|]. eapply Z.le_lt_trans; [by apply Z.log2_land; lia|].
  eapply Z.le_lt_trans; [apply Z.le_min_l|]. apply Z.log2_lt_pow2; lia.
Qed.
Lemma prefix_mask_nonneg bits p : 0 <= prefix_mask bits p.
Proof.
  unfold prefix_mask. destruct (p =? 0); [lia|].
  destruct (bits =? 128); apply Z.mod_pos_bound; by apply Z.pow_pos_nonneg.
Qed.
Lemma parse_u8_range bs n : parse_u8 bs = Some n -> 0 <= n <= 255.
Proof.
  unfold parse_u8. destruct (parse_u64 bs) as [m|] eqn:E; [|done].
  destruct (m <=? umax 8) eqn:Eb; [|done]. intros [= <-]. apply parse_u64_range in E. unfold umax in Eb. lia.
Qed.
Definition cidr_address (v6 : bool) (network : Z) : IpAddr := if v6 then V6 network else V4 network.
Lemma print_u64_plain n : is_uint 64 n -> Forall plain (print_u64 n).
Proof.
  intros Hn. eapply Forall_impl; [apply (print_u64_digits n Hn)|]. intros b Hb. cbv beta in Hb.
  apply is_ascii_digit_range in Hb. unfold plain. lia.
Qed.
Lemma cidr_bytes a prefix :
  is_uint 64 prefix ->
  bytes (of_bytes (ip_text a ++ [47] ++ print_u64 prefix)) = ip_text a ++ [47] ++ print_u64 prefix.
Proof.
  intros Hp. apply bytes_of_bytes. rewrite !Forall_app. split; [|split].
  - eapply Forall_impl; [apply ip_text_bytes|]. by intros b [? _].
  - constructor; [lia|constructor].
  - eapply Forall_impl; [by apply print_u64_plain|]. by intros b [? _].
Qed.
Lemma masked_wf v6 bits prefix :
  is_uint (width v6) bits -> 0 <= prefix <= width v6 ->
  let network := Z.land bits (prefix_mask (width v6) prefix) in
  cidr_wf (mkCidr (of_bytes (ip_text (cidr_address v6 network) ++ [47] ++ print_u64 prefix)) network prefix v6).
Proof.
  intros Hb Hp network. unfold cidr_wf. cbn [cidr_prefix cidr_ipv6 cidr_network cidr_text].
  split; [done|]. split; [|split].
  - apply land_uint; [by destruct v6|done|apply prefix_mask_nonneg].
  - unfold network. by rewrite <- Z.land_assoc, Z.land_diag.
  - apply cidr_bytes. unfold is_uint. destruct v6; simpl in *; lia.
Qed.
Lemma prefix_mask_32 prefix : cast_u 32 (prefix_mask 32 prefix) = prefix_mask 32 prefix.
Proof.
  apply cast_u_small. unfold prefix_mask. destruct (prefix =? 0); [unfold is_uint; lia|].
  apply cast_u_range. lia.
Qed.
(** Parsing a block masks its address and prints it. *)
Lemma parse_cidr_Ok value c : parse_cidr value = Ok c -> cidr_wf c.
Proof.
  unfold parse_cidr. destruct (split_once 47 (bytes value)) as [[address prefix]|]; [|done].
  split_if E; [done|]. destruct (ip_from_str address) as [a|] eqn:Ea; [|done].
  destruct (parse_u8 prefix) as [p|] eqn:Ep; [|done]. apply ip_from_str_wf in Ea. apply parse_u8_range in Ep.
  destruct a as [bits|bits]; simpl in Ea.
  - destruct (p <=? 32) eqn:E32; [|done]. intros [= <-]. rewrite prefix_mask_32.
    apply (masked_wf false); simpl; [done|lia].
  - destruct (p <=? 128) eqn:E128; [|done]. intros [= <-]. apply (masked_wf true); simpl; [done|lia].
Qed.
(** A canonical text parses to its block. *)
Lemma parse_cidr_text c : cidr_wf c -> parse_cidr (cidr_text c) = Ok c.
Proof.
  intros (Hp & Hn & Hm & Ht). unfold parse_cidr. rewrite Ht.
  set (a := if cidr_ipv6 c then V6 (cidr_network c) else V4 (cidr_network c)) in *.
  assert (is_uint 64 (cidr_prefix c)) as Hu by (unfold is_uint; destruct (cidr_ipv6 c); simpl in *; lia).
  destruct (ip_text_bytes a) as [Hplain _]. pose proof (print_u64_plain _ Hu) as Hplain'.
  assert (forall l, Forall plain l -> 47 ∉ l) as Hno.
  { intros l Hl Hin. rewrite Forall_forall in Hl. by destruct (Hl 47 Hin). }
  assert (split_once 47 (ip_text a ++ [47] ++ print_u64 (cidr_prefix c))
          = Some (ip_text a, print_u64 (cidr_prefix c))) as ->
    by (apply split_once_Some; split; [done|by apply Hno]).
  destruct (print_u64_digits _ Hu) as [_ Hne]. assert (ip_wf a) as Hwf by (unfold a; by destruct (cidr_ipv6 c)).
  pose proof (ip_round_trip a Hwf) as Hrt.
  rewrite (bool_decide_eq_false_2 (47 ∈ _)) by (by apply Hno). rewrite orb_false_r.
  destruct (len (ip_text a) =? 0) eqn:El.
  { apply Z.eqb_eq in El. destruct (ip_text a); [by vm_compute in Hrt|unfold len in El; simpl in El; lia]. }
  destruct (len (print_u64 (cidr_prefix c)) =? 0) eqn:El'.
  { apply Z.eqb_eq in El'. destruct (print_u64 _); [done|unfold len in El'; simpl in El'; lia]. }
  cbn [orb]. rewrite Hrt. unfold parse_u8. rewrite parse_print_u64 by done.
  rewrite (proj2 (Z.leb_le (cidr_prefix c) (umax 8))) by (unfold umax; destruct (cidr_ipv6 c); simpl in *; lia).
  pose proof (of_bytes_bytes (cidr_text c)) as Hb. rewrite Ht in Hb.
  unfold a in *. destruct c as [text network prefix v6]; cbn [cidr_text cidr_network cidr_prefix cidr_ipv6] in *.
  destruct v6; cbn [width] in *.
  - rewrite (proj2 (Z.leb_le prefix 128)) by lia. by rewrite Hm, Hb.
  - rewrite (proj2 (Z.leb_le prefix 32)) by lia. by rewrite prefix_mask_32, Hm, Hb.
Qed.

(** *** Lists of blocks *)
(** Both loops: parse each value, refuse a second occurrence of a result. *)
Section distinct.
Context {A B : Type} `{!EqDecision B} (f : A -> Result ConfigError B) (e : ConfigError).
Fixpoint distinct_loop (values : list A) (seen : list B) : Result ConfigError (list B) :=
  match values with
  | [] => Ok []
  | v :: rest =>
      b ← f v;
      if bool_decide (b ∈ seen) then Err e
      else more ← distinct_loop rest (b :: seen); Ok (b :: more)
  end.
Lemma parses_unique values bs bs' :
  Forall2 (fun v b => f v = Ok b) values bs -> Forall2 (fun v b => f v = Ok b) values bs' -> bs = bs'.
Proof.
  intros Hf. revert bs'. induction Hf as [|? ? ? ? Hv Hf IH]; intros bs' Hf'; inversion Hf'; simplify_eq; [done|].
  f_equal; [congruence|by apply IH].
Qed.
Lemma distinct_loop_iff values seen bs :
  distinct_loop values seen = Ok bs <->
  Forall2 (fun v b => f v = Ok b) values bs /\ NoDup bs /\ (forall b, b ∈ bs -> b ∉ seen).
Proof.
  revert seen bs. induction values as [|v values IH]; intros seen bs; simpl.
  - split; [intros [= <-]; split; [constructor|split; [constructor|intros ? []%elem_of_nil]]|].
    intros (Hf & _). by inversion Hf.
  - destruct (f v) as [b|] eqn:Ec; simpl.
    2:{ split; [done|]. intros (Hf & _). inversion Hf; simplify_eq. congruence. }
    case_bool_decide as Hs.
    + split; [done|]. intros (Hf & _ & Hn). inversion Hf as [|? b' ? bs' Hc Hcs]; simplify_eq.
      destruct (Hn b'); [by left|]. congruence.
    + destruct (distinct_loop values (b :: seen)) as [more|] eqn:El; simpl.
      * apply IH in El as (Hf & Hnd & Hn). split.
        -- intros [= <-]. split; [by constructor|]. split.
           ++ constructor; [|done]. intros Hin. apply (Hn b Hin). by left.
           ++ intros b' [->|Hin]%elem_of_cons; [done|]. intros Hse. apply (Hn b' Hin). by right.
        -- intros (Hf' & _). f_equal. eapply parses_unique; [|exact Hf']. by constructor.
      * split; [done|]. intros (Hf & Hnd & Hn). inversion Hf as [|? b' ? bs' Hc Hcs]; simplify_eq.
        apply NoDup_cons in Hnd as [Hni Hnd]. exfalso.
        enough (distinct_loop values (b :: seen) = Ok bs') by congruence. apply IH. split; [done|].
        split; [done|]. intros x Hx [->|Hse]%elem_of_cons; [congruence|]. by apply (Hn x); [right|].
Qed.
End distinct.
Lemma cidr_loop_eq values seen : cidr_loop values seen = distinct_loop parse_cidr InvalidRouting values seen.
Proof.
  revert seen. induction values as [|v values IH]; intros seen; [done|]. simpl.
  destruct (parse_cidr v); [|done]. simpl. case_bool_decide; [done|]. by rewrite IH.
Qed.
Lemma parse_cidrs_Ok values cs :
  parse_cidrs values = Ok cs ->
  Forall cidr_wf cs /\ NoDup cs /\ length cs = length values /\ parse_cidrs (cidr_text <$> cs) = Ok cs.
Proof.
  unfold parse_cidrs. destruct (cidr_loop values []) as [l|] eqn:E; [|done]. intros [= <-].
  rewrite cidr_loop_eq in E. apply distinct_loop_iff in E as (Hf & Hnd & _).
  assert (Forall cidr_wf l) as Hwf.
  { clear Hnd. induction Hf as [|? ? ? ? Hv Hf IH]; constructor; [by eapply parse_cidr_Ok|done]. }
  pose proof (stable_sort_Permutation cidr_text l) as Hp.
  rewrite <- Hp in Hwf, Hnd. split; [done|]. split; [done|].
  split; [rewrite Hp; by rewrite (Forall2_length _ _ _ Hf)|].
  rewrite cidr_loop_eq, (proj2 (distinct_loop_iff _ _ _ [] (stable_sort_by_key cidr_text l))); simpl.
  - by rewrite stable_sort_id by apply stable_sort_sorted.
  - split; [|split; [done|intros ? _; apply not_elem_of_nil]].
    clear -Hwf. induction Hwf as [|c cs Hc Hwf IH]; [constructor|]. constructor; [by apply parse_cidr_text|done].
Qed.

(** *** Lists of domains *)
Record domain_wf (d : string) : Prop := {
  dw_nonempty : d <> "";
  dw_len : str_len d <= MAX_DOMAIN_BYTES;
  dw_bytes : domain_bytes_ok (bytes d) = true;
  dw_not_ip : ip_from_str (bytes d) = None;
}.
Definition domain_check (value : string) : option string :=
  if String.eqb value "" || (MAX_DOMAIN_BYTES <? str_len value)
     || negb (bool_decide (bytes value = trim_text (bytes value)))
     || bool_decide (is_Some (ip_from_str (bytes value)))
  then None
  else if negb (domain_bytes_ok (bytes (lowercase value))) then None else Some (lowercase value).
Lemma lowercase_len s : str_len (lowercase s) = str_len s.
Proof. rewrite <- !bytes_length, bytes_lowercase. unfold len. by rewrite length_fmap. Qed.
Lemma domain_check_wf v d : domain_check v = Some d -> domain_wf d.
Proof.
  unfold domain_check. split_if E; [done|]. destruct (domain_bytes_ok _) eqn:Eb; [|done]. intros [= <-].
  rewrite !orb_false_iff in E. destruct E as [[[E1 E2] _] E4]. constructor.
  - intros Hn. apply (f_equal str_len) in Hn. rewrite lowercase_len in Hn. destruct v; [done|].
    unfold str_len in Hn. simpl in Hn. lia.
  - rewrite lowercase_len. lia.
  - done.
  - rewrite bytes_lowercase, ip_from_str_lower. apply bool_decide_eq_false in E4.
    destruct (ip_from_str (bytes v)); [by destruct E4|done].
Qed.
Lemma domain_check_id d : domain_wf d -> domain_check d = Some d.
Proof.
  intros [Hne Hl Hb Hip]. unfold domain_check.
  assert (Forall (fun b => is_ascii_lowercase b || is_ascii_digit b || (b =? 46) || (b =? 45) = true) (bytes d))
    as Hall.
  { unfold domain_bytes_ok in Hb. apply andb_true_iff in Hb as [Hb _].
    apply Forall_forall. intros b Hin%list_elem_of_In. by apply (proj1 (forallb_forall _ _) Hb). }
  assert (forall b, is_ascii_lowercase b || is_ascii_digit b || (b =? 46) || (b =? 45) = true ->
            visible b /\ to_ascii_lowercase b = b) as Hbyte.
  { intros b Hb'. unfold visible, to_ascii_lowercase, is_ascii_uppercase, is_ascii_lowercase, is_ascii_digit,
      in_range in *. destruct ((65 <=? b) && (b <=? 90)) eqn:E; lia. }
  assert (lowercase d = d) as ->.
  { apply bytes_inj. rewrite bytes_lowercase. rewrite <- (list_fmap_id (bytes d)) at 2.
    apply list_fmap_ext. intros i b Hi. rewrite Forall_forall in Hall.
    apply Hbyte, Hall. by eapply list_elem_of_lookup_2. }
  assert (trim_text (bytes d) = bytes d) as ->
    by (apply trim_text_visible; eapply Forall_impl; [exact Hall|]; intros b Hb'; by apply Hbyte).
  rewrite Hip, Hb, (bool_decide_eq_true_2 (bytes d = bytes d)) by done.
  rewrite (bool_decide_eq_false_2 (is_Some None)) by (by intros [? ?]).
  rewrite (proj2 (Z.ltb_ge _ _)) by lia. destruct (String.eqb_spec d ""); done.
Qed.
Lemma domain_loop_step v values seen :
  domain_loop (v :: values) seen
  = match domain_check v with
    | Some d =>
        if bool_decide (d ∈ seen) then Err InvalidRouting
        else more ← domain_loop values (d :: seen); Ok (d :: more)
    | None => Err InvalidRouting
    end.
Proof.
  cbn [domain_loop]. unfold domain_check. split_if E; [done|].
  by destruct (domain_bytes_ok (bytes (lowercase v))).
Qed.
Lemma domain_loop_eq values seen :
  domain_loop values seen
  = distinct_loop (fun v => ok_or (domain_check v) InvalidRouting) InvalidRouting values seen.
Proof.
  revert seen. induction values as [|v values IH]; intros seen; [done|].
  rewrite domain_loop_step. cbn [distinct_loop]. destruct (domain_check v) as [d|]; [|done].
  cbn [ok_or mbind Result_bind]. by rewrite IH.
Qed.
Lemma parse_domains_Ok values ds :
  parse_domains values = Ok ds ->
  Forall domain_wf ds /\ NoDup ds /\ length ds = length values /\ parse_domains ds = Ok ds.
Proof.
  unfold parse_domains. destruct (domain_loop values []) as [l|] eqn:E; [|done]. intros [= <-].
  rewrite domain_loop_eq in E. apply distinct_loop_iff in E as (Hf & Hnd & _).
  assert (Forall domain_wf l) as Hwf.
  { clear Hnd. induction Hf as [|v d ? ? Hv Hf IH]; constructor; [|done].
    destruct (domain_check v) eqn:Ec; simpl in Hv; [|done]. injection Hv as ->. by eapply domain_check_wf. }
  pose proof (sort_Permutation l) as Hp. rewrite <- Hp in Hwf, Hnd. split; [done|]. split; [done|].
  split; [rewrite Hp; by rewrite (Forall2_length _ _ _ Hf)|].
  rewrite domain_loop_eq, (proj2 (distinct_loop_iff _ _ _ [] (sort l))); simpl; [by rewrite sort_idem|].
  split; [|split; [done|intros ? _; apply not_elem_of_nil]].
  clear -Hwf. induction Hwf as [|c cs Hc Hwf IH]; [constructor|]. constructor; [|done].
  by rewrite domain_check_id.
Qed.

(** ** Checked configurations *)
Record routing_wf (rt : RoutingSettings) : Prop := {
  rwf_cidrs : Forall cidr_wf (rt_force_cidrs rt ++ rt_bypass_cidrs rt);
  rwf_domains : Forall domain_wf (rt_force_domains rt ++ rt_bypass_domains rt ++ rt_block_domains rt);
  rwf_lengths : len (rt_force_cidrs rt) <= MAX_CIDRS /\ len (rt_bypass_cidrs rt) <= MAX_CIDRS
    /\ len (rt_force_domains rt) <= MAX_DOMAINS /\ len (rt_bypass_domains rt) <= MAX_DOMAINS
    /\ len (rt_block_domains rt) <= MAX_DOMAINS;
  rwf_no_overlap : existsb (fun f => existsb (overlaps f) (rt_bypass_cidrs rt)) (rt_force_cidrs rt) = false;
  rwf_disjoint : domain_sets_overlap (rt_force_domains rt) (rt_bypass_domains rt) = false
    /\ domain_sets_overlap (rt_force_domains rt) (rt_block_domains rt) = false
    /\ domain_sets_overlap (rt_bypass_domains rt) (rt_block_domains rt) = false;
}.
Lemma validate_routing_wf w rt : validate_routing w = Ok rt -> routing_wf rt.
Proof.
  unfold validate_routing. split_if E0; [done|]. split_if E1; [done|].
  destruct (parse_cidrs (rw_force_cidrs w)) as [fc|] eqn:Efc; [|done].
  destruct (parse_cidrs (rw_bypass_cidrs w)) as [bc|] eqn:Ebc; [|done]. cbn [mbind Result_bind].
  split_if E2; [done|]. split_if E3; [done|].
  destruct (parse_domains (rw_force_domains w)) as [fd|] eqn:Efd; [|done].
  destruct (parse_domains (rw_bypass_domains w)) as [bd|] eqn:Ebd; [|done].
  destruct (parse_domains (rw_block_domains w)) as [kd|] eqn:Ekd; [|done]. cbn [mbind Result_bind].
  split_if E4; [done|]. intros [= <-]. rewrite !orb_false_iff in E1. rewrite !orb_false_iff in E3. rewrite !orb_false_iff in E4.
  apply parse_cidrs_Ok in Efc as (Wfc & _ & Lfc & _), Ebc as (Wbc & _ & Lbc & _).
  apply parse_domains_Ok in Efd as (Wfd & _ & Lfd & _), Ebd as (Wbd & _ & Lbd & _), Ekd as (Wkd & _ & Lkd & _).
  constructor; cbn [rt_force_cidrs rt_bypass_cidrs rt_force_domains rt_bypass_domains rt_block_domains];
    [by apply Forall_app|by rewrite !Forall_app| |done|tauto].
  unfold len in *. lia.
Qed.

Section checked.
Context (url_parse : string -> option ParsedUrl) (wire : UserConfigWire) (cfg : EffectiveConfig).
Hypothesis Hcfg : from_wire url_parse wire = Ok cfg.
Lemma from_wire_inv :
  validate_sources url_parse (wire_sources wire) = Ok (ec_sources cfg)
  /\ validate_proxy (wire_proxy wire) = Ok (ec_proxy cfg)
  /\ validate_applications (wire_applications wire) = Ok (ec_applications cfg)
  /\ validate_network (wire_network wire) = Ok (ec_network cfg)
  /\ validate_routing (wire_routing wire) = Ok (ec_routing cfg)
  /\ validate_logging (wire_logging wire) = Ok (ec_logging cfg)
  /\ validate_advanced (wire_advanced wire) = Ok (ec_advanced cfg, ec_allocations cfg)
  /\ build_capture (capture_mode_of (ec_network cfg)) (ec_network cfg) (ec_advanced cfg)
       (initial_include_uids (ec_applications cfg)) (base_exclude_uids (ec_applications cfg))
     = Ok (ec_capture cfg).
Proof.
  revert Hcfg. unfold from_wire. split_if E; [done|].
  repeat match goal with
         | |- (?m ≫= _) = Ok _ -> _ => destruct m as [|] eqn:?; [cbn [mbind Result_bind]|done]
         | |- (let '(_, _) := ?p in _) = Ok _ -> _ => destruct p
         | |- Ok _ = Ok _ -> _ => intros [= <-]; done
         end.
Qed.
End checked.

(** ** Theorems *)
Definition named (host : list Z) (domains : list string) : Prop :=
  exists d, d ∈ domains /\ under host (bytes d).
Definition held (v6 : bool) (address : Z) (blocks : list CanonicalCidr) : Prop :=
  exists c, c ∈ blocks /\ in_cidr v6 address c.

(** C33: the routing lists of an accepted configuration do not compete: no host name falls
    under a domain of two of the three domain lists, and no address lies in a block of
    both address lists, so the order of the composed rules decides nothing between them. *)
Theorem routing_lists_disjoint url_parse wire cfg :
  from_wire url_parse wire = Ok cfg ->
  let rt := ec_routing cfg in
  (forall host, ~ (named host (rt_force_domains rt) /\ named host (rt_bypass_domains rt))
     /\ ~ (named host (rt_force_domains rt) /\ named host (rt_block_domains rt))
     /\ ~ (named host (rt_bypass_domains rt) /\ named host (rt_block_domains rt)))
  /\ (forall v6 address, ~ (held v6 address (rt_force_cidrs rt) /\ held v6 address (rt_bypass_cidrs rt))).
Proof.
  intros Hcfg rt. apply from_wire_inv in Hcfg as (_ & _ & _ & _ & Hr & _).
  apply validate_routing_wf in Hr as [Hc _ _ Ho (Hd1 & Hd2 & Hd3)]. fold rt in Hc, Ho, Hd1, Hd2, Hd3.
  split.
  - intros host. split; [|split]; intros [(a & Ha & Hua) (b & Hb & Hub)];
      (eapply (overlap_complete _ _ host a b); [|exact Ha|exact Hb|done|done]; done).
  - intros v6 address [(a & Ha & Hia) (b & Hb & Hib)]. rewrite Forall_forall in Hc.
    pose proof (existsb_false_elem _ _ Ho a Ha) as H. simpl in H.
    pose proof (existsb_false_elem _ _ H b Hb) as H'. cbv beta in H'.
    rewrite (overlaps_complete v6 address a b) in H'; [done|..]; try done; apply Hc, elem_of_app; auto.
Qed.

(** The composer's bounds hold of a checked configuration. *)
Lemma cidr_text_fits c :
  cidr_wf c -> String.eqb (cidr_text c) "" = false /\ str_len (cidr_text c) <= MAX_CIDR_BYTES
  /\ 47 ∈ bytes (cidr_text c).
Proof.
  intros (_ & _ & _ & Ht).
  set (a := if cidr_ipv6 c then V6 (cidr_network c) else V4 (cidr_network c)) in *.
  assert (47 ∈ bytes (cidr_text c)) as Hin by (rewrite Ht, !elem_of_app; right; left; by left).
  split; [|split; [|done]].
  - apply String.eqb_neq. intros E. rewrite E in Hin. by apply elem_of_nil in Hin.
  - rewrite <- bytes_length, Ht. destruct (ip_text_bytes a) as [_ Hl].
    pose proof (digits_of_length 20 (cidr_prefix c) []) as Hd. fold (print_u64 (cidr_prefix c)) in Hd.
    unfold len, MAX_CIDR_BYTES. rewrite !length_app. simpl in *. lia.
Qed.
Lemma domain_wf_valid d : domain_wf d -> valid_domain_suffix d = true.
Proof.
  intros [Hne Hl Hb _]. unfold valid_domain_suffix. unfold domain_bytes_ok in Hb.
  apply andb_true_iff in Hb as [Hb1 Hb2]. rewrite Hb1. change (forallb _ (split_on 46 (bytes d))) with
    (forallb domain_label_ok (split_on 46 (bytes d))). rewrite Hb2.
  destruct (String.eqb_spec d ""); [done|]. simpl.
  rewrite (proj2 (Z.leb_le (str_len d) Composer.MAX_DOMAIN_BYTES)) by done. done.
Qed.

Lemma checked_options url_parse wire cfg :
  from_wire url_parse wire = Ok cfg ->
  exists o, managed_options cfg = Ok o
    /\ force_proxy_domains o = rt_force_domains (ec_routing cfg)
    /\ bypass_domains o = rt_bypass_domains (ec_routing cfg)
    /\ block_domains o = rt_block_domains (ec_routing cfg)
    /\ force_proxy_cidrs o = cidr_text <$> rt_force_cidrs (ec_routing cfg)
    /\ bypass_cidrs o = cidr_text <$> rt_bypass_cidrs (ec_routing cfg)
    /\ 1 <= urltest_max_candidates o <= MAX_AUTO_NODES.
Proof.
  intros Hcfg. apply from_wire_inv in Hcfg as (_ & Hp & _ & _ & Hr & _).
  apply validate_routing_wf in Hr as [Hc Hd (L1 & L2 & L3 & L4 & L5) _ _].
  unfold validate_proxy in Hp. split_if_in Hp E; [done|]. injection Hp as Hp. rewrite Hp in E.
  rewrite !orb_false_iff, !negb_false_iff in E. destruct E as [[E1 E2] E3].
  unfold managed_options, ManagedOptions_new. rewrite E1, E2. cbn [negb orb].
  assert (in_range 1 256 (ut_candidates (px_urltest (ec_proxy cfg))) = true) as ->
    by (unfold in_range, MAX_AUTO_CANDIDATES in *; lia).
  unfold len in L1, L2, L3, L4, L5. unfold len. rewrite !length_fmap.
  rewrite (proj2 (Z.ltb_ge MAX_ROUTING_CIDRS _)), (proj2 (Z.ltb_ge MAX_ROUTING_CIDRS _)) by done.
  cbn [negb orb]. rewrite existsb_none.
  - cbn [mbind Result_bind]. unfold with_domain_rules, len.
    rewrite !(proj2 (Z.ltb_ge MAX_ROUTING_DOMAINS _)) by done. cbn [orb]. rewrite existsb_none.
    + eexists. split; [reflexivity|]. cbn [force_proxy_domains bypass_domains block_domains force_proxy_cidrs bypass_cidrs urltest_max_candidates].
      unfold in_range, MAX_AUTO_CANDIDATES, MAX_AUTO_NODES in *. repeat split; lia.
    + intros d Hin. rewrite Forall_forall in Hd. by rewrite domain_wf_valid by auto.
  - intros t Hin. rewrite <- fmap_app in Hin. apply list_elem_of_fmap in Hin as (c & -> & Hin).
    rewrite Forall_forall in Hc. destruct (cidr_text_fits c (Hc c Hin)) as (-> & Hl & Hs).
    rewrite (proj2 (Z.ltb_ge _ _)) by done. by rewrite bool_decide_eq_true_2.
Qed.


(** An accepted configuration can always be composed: the composer's own checks of its
    options never refuse it, and the options it gets are the checked ones. *)
Theorem accepted_options_compose url_parse wire cfg :
  from_wire url_parse wire = Ok cfg ->
  exists o, managed_options cfg = Ok o
    /\ force_proxy_domains o = rt_force_domains (ec_routing cfg)
    /\ bypass_domains o = rt_bypass_domains (ec_routing cfg)
    /\ block_domains o = rt_block_domains (ec_routing cfg)
    /\ force_proxy_cidrs o = cidr_text <$> rt_force_cidrs (ec_routing cfg)
    /\ bypass_cidrs o = cidr_text <$> rt_bypass_cidrs (ec_routing cfg)
    /\ 1 <= urltest_max_candidates o <= MAX_AUTO_NODES.
Proof. apply checked_options. Qed.

(** *** Witnesses *)
Module ConfigSample.
Definition url_parse (url : string) : option ParsedUrl := Some (mkUrl "https" "" None (Some "a.example")).
Definition source : SubscriptionSourceWire :=
  mkSourceWire "main" true "https://a.example/s" PSingBoxAndroid Source.SAuto [] (Source.mkFilter [] ["expired"] [] []).
Definition routing : RoutingWire :=
  mkRoutingWire true true false ["10.1.2.3/8"] ["FD00::1/64"] ["Example.com"] ["b.org"] ["ads.example.net"].
Definition applications : ApplicationSettings :=
  mkApplications AppsWhitelist [TargetUid 10123; TargetPackage 0 "com.example.app"].
Definition wire : UserConfigWire :=
  mkWire 3 true (mkSubscriptions Source.Single true 24) [source] ProxyWire_default applications
    NetworkWire_default routing LoggingWire_default AdvancedWire_default.
Lemma accepted : { cfg | from_wire url_parse wire = Ok cfg }.
Proof. eexists. vm_compute. reflexivity. Defined.
Definition cfg : EffectiveConfig := proj1_sig accepted.
End ConfigSample.

Lemma routing_lists_disjoint_witness :
  rt_force_domains (ec_routing ConfigSample.cfg) = ["example.com"]
  /\ ~ (named (bytes "www.example.com") (rt_force_domains (ec_routing ConfigSample.cfg))
        /\ named (bytes "www.example.com") (rt_bypass_domains (ec_routing ConfigSample.cfg))).
Proof.
  split; [vm_compute; reflexivity|].
  apply (routing_lists_disjoint ConfigSample.url_parse ConfigSample.wire ConfigSample.cfg
           (proj2_sig ConfigSample.accepted)).
Defined.

Lemma accepted_options_compose_witness :
  exists o, managed_options ConfigSample.cfg = Ok o /\ force_proxy_cidrs o = ["10.0.0.0/8"].
Proof.
  destruct (accepted_options_compose ConfigSample.url_parse ConfigSample.wire ConfigSample.cfg
              (proj2_sig ConfigSample.accepted)) as (o & Ho & _ & _ & _ & Hf & _).
  exists o. split; [exact Ho|]. rewrite Hf. vm_compute. reflexivity.
Defined.
