(* ===== verification/ConfigApps.v ===== *)
(** * ConfigApps: from selected applications to captured UIDs

    [WorkerApplication::refresh_application_policy] ([nethopd/src/worker_application.rs])
    turns the application settings of the current configuration into the capture policy of
    the data plane, with the UIDs the package manager lists now. *)

From S2P Require Import Prelude Ordering BTreeMap Capture Capability Probe Apps AtomicFile Composer Config ConfigRouting.

Local Open Scope Z_scope.

Definition app_error_text (e : AppCatalogError) : string :=
  match e with
  | QueryFailed => "package manager query failed"
  | InvalidUserList => "Android started-user list is invalid or empty"
  | InvalidLine => "package catalog contains an invalid line"
  | InvalidPackage => "package name is invalid or too long"
  | UserUidMismatch => "package UID does not belong to the declared Android user"
  | DuplicatePackage => "package occurs more than once with inconsistent UID"
  | DuplicateUser => "Android user snapshot occurs more than once"
  | UnclassifiedPackage => "package is missing from both classification sets"
  | AmbiguousClassification => "package occurs in both system and user classification sets"
  | ClassificationOutsideFullSet => "classification contains a package absent from the full set"
  | TooManyApps => "application catalog exceeds the bounded limit"
  | SharedUidTooLarge => "shared UID contains too many packages"
  | UnknownPackage => "selected package is absent from the current catalog"
  end.

(** What a refresh leaves: the new policy with the composer's options, when it has one, and
    the state it reports. *)
Record AppSync : Type := mkSync {
  sync_policy : option (CapturePolicy * ManagedOptions);
  sync_state : string;
  sync_reason : option string;
}.
Definition with_options_of (cfg : EffectiveConfig) (p : CapturePolicy) : option (CapturePolicy * ManagedOptions) :=
  match managed_options cfg with Ok o => Some (p, o) | Err _ => None end.

(** The arms of the two selecting modes. *)
Definition resolve_policy {B} `{!ProbeBackend B} (cfg : EffectiveConfig) (mode : AppSelectionMode)
    (backend : option B) : AppSync * option B :=
  match backend with
  | None => (mkSync None "pending" (Some "resolver_unavailable"), None)
  | Some b =>
      match resolve_selection mode (target_packages (ec_applications cfg)) b with
      | (Ok s, b') =>
          (if negb (is_pending s) then
             match capture_with_application_uids cfg (res_include s) (res_exclude s) with
             | Ok p => mkSync (with_options_of cfg p) "synced" None
             | Err _ => mkSync None "failed" (Some "capture_policy_invalid")
             end
           else mkSync None "pending"
                  (Some ("unresolved_packages:"
                         +:+ of_bytes (Text.print_u64 (len (unresolved_packages s))))), Some b')
      | (Err e, b') => (mkSync None "pending" (Some (app_error_text e)), Some b')
      end
  end.
Definition refresh_application_policy {B} `{!ProbeBackend B} (cfg : EffectiveConfig) (backend : option B) :
    AppSync * option B :=
  match app_mode (ec_applications cfg) with
  | AppsAll => (mkSync (with_options_of cfg (ec_capture cfg)) "synced" None, backend)
  | AppsBlacklist => resolve_policy cfg Blacklist backend
  | AppsWhitelist => resolve_policy cfg Whitelist backend
  end.

(** ** Lemmas *)
(** A policy that was built captures exactly what its UID lists say. *)
Lemma build_capture_uids m network advanced include exclude p :
  build_capture m network advanced include exclude = Ok p ->
  built p /\ (forall uid, uid ∈ include_uids p <-> uid ∈ include)
  /\ (forall uid, uid ∈ exclude_uids p <-> uid ∈ exclude).
Proof.
  unfold build_capture. destruct (CapturePolicy_new_with_protocols _ _ _ _ _ _ _ _) as [p0|] eqn:E0; [|done].
  cbn [map_err mbind Result_bind]. destruct (InterfacePolicy_new _ _ _ _) as [i|] eqn:Ei; [|done].
  cbn [map_err mbind Result_bind]. destruct (with_interface_policy p0 i) as [p1|] eqn:E1; [|done].
  cbn [mbind Result_bind]. destruct (with_forwarding_policy p1 _) as [p2|] eqn:E2; [|done]. intros [= <-].
  apply new_with_protocols_ok in E0 as Hok. destruct Hok as (_ & _ & Hinc & Hexc).
  assert (built p0) as H0 by (eapply Capture.built_new, E0).
  assert (built p1) as H1 by (by eapply Capture.built_interface).
  split; [by eapply Capture.built_forwarding|].
  assert (include_uids p2 = include_uids p0 /\ exclude_uids p2 = exclude_uids p0) as [-> ->].
  { unfold with_interface_policy in E1. split_if_in E1 Ex; [done|]. injection E1 as <-.
    unfold with_forwarding_policy in E2. split_if_in E2 Ey; [done|]. by injection E2 as <-. }
  rewrite Hinc, Hexc. split; intros uid; apply sort_dedup_elem_of.
Qed.
Lemma build_capture_captures m network advanced include exclude p uid :
  build_capture m network advanced include exclude = Ok p ->
  captures_uid p uid = true <-> (include = [] \/ uid ∈ include) /\ uid ∉ exclude.
Proof.
  intros (Hb & Hi & He)%build_capture_uids. rewrite captures_uid_spec by done. rewrite Hi, He.
  assert (include_uids p = [] <-> include = []) as ->; [|done].
  split; intros E.
  - destruct include as [|x l]; [done|]. specialize (proj2 (Hi x) ltac:(by left)). rewrite E.
    by intros []%elem_of_nil.
  - destruct (include_uids p) as [|x l]; [done|]. specialize (proj1 (Hi x) ltac:(by left)). rewrite E.
    by intros []%elem_of_nil.
Qed.

Lemma target_packages_elem s u p : (u, p) ∈ target_packages s <-> TargetPackage u p ∈ app_targets s.
Proof.
  unfold target_packages. rewrite list_elem_of_omap. split.
  - intros ([u' p'|i] & Hin & E); by simplify_eq.
  - intros Hin. by exists (TargetPackage u p).
Qed.
Lemma direct_uids_elem s i : i ∈ direct_uids s <-> TargetUid i ∈ app_targets s.
Proof.
  unfold direct_uids. rewrite list_elem_of_omap. split.
  - intros ([u' p'|i'] & Hin & E); by simplify_eq.
  - intros Hin. by exists (TargetUid i).
Qed.
(** What the application checks establish. *)
Lemma validate_applications_wf w s :
  validate_applications w = Ok s ->
  (app_mode s <> AppsAll -> app_targets s <> []) /\ 0 ∉ direct_uids s.
Proof.
  unfold validate_applications. split_if E; [done|]. intros [= <-]. cbn [app_mode app_targets].
  rewrite !orb_false_iff in E. destruct E as [[[_ _] E3] E4]. apply negb_false_iff in E3. split.
  - intros Hm Hn. rewrite bool_decide_eq_false_2 in E3 by done.
    assert (app_targets w = []) as Hw by (apply Permutation_nil_r; by rewrite <- Hn, sort_Permutation).
    by rewrite Hw in E3.
  - rewrite direct_uids_elem. cbn [app_targets]. rewrite sort_Permutation. intros Hin.
    by apply (existsb_false_elem _ _ E4) in Hin.
Qed.

(** The UIDs a selection stands for: those named directly and those of the packages. *)
Definition chosen (cfg : EffectiveConfig) (packages : BTreeMap (Z * string) Z) (uid : Z) : Prop :=
  uid ∈ direct_uids (ec_applications cfg)
  \/ exists key, key ∈ target_packages (ec_applications cfg) /\ bt_get key packages = Some uid.
Definition wanted (cfg : EffectiveConfig) (packages : BTreeMap (Z * string) Z) (uid : Z) : Prop :=
  uid <> 0 /\ match app_mode (ec_applications cfg) with
              | AppsAll => True
              | AppsBlacklist => ~ chosen cfg packages uid
              | AppsWhitelist => chosen cfg packages uid
              end.

Lemma selected_capture_exact cfg packages mode uids include exclude p uid :
  app_mode (ec_applications cfg) = match mode with Blacklist => AppsBlacklist | Whitelist => AppsWhitelist end ->
  app_targets (ec_applications cfg) <> [] ->
  (mode = Whitelist -> APPLICATION_RESOLUTION_SENTINEL ∉ direct_uids (ec_applications cfg)) ->
  selects mode uids include exclude ->
  (forall key, key ∈ target_packages (ec_applications cfg) -> is_Some (bt_get key packages)) ->
  (forall uid, uid ∈ uids <->
     exists key, key ∈ target_packages (ec_applications cfg) /\ bt_get key packages = Some uid) ->
  capture_with_application_uids cfg include exclude = Ok p ->
  captures_uid p uid = true <-> wanted cfg packages uid.
Proof.
  intros Hm Hne Hsent Hsel Hall Hu. unfold capture_with_application_uids. set (base := List.filter _ _).
  split_if E; [done|]. intros Hb. apply build_capture_captures with (uid := uid) in Hb. rewrite Hb.
  unfold base_exclude_uids, wanted. rewrite Hm.
  assert (forall l : list Z, sort_dedup l = [] <-> l = []) as Hnil.
  { intros l. split; [|by intros ->]. intros Hl. destruct l as [|x l]; [done|].
    pose proof (proj2 (sort_dedup_elem_of (x :: l) x) ltac:(by left)) as Hx. rewrite Hl in Hx.
    by apply elem_of_nil in Hx. }
  rewrite Hnil, !sort_dedup_elem_of. unfold chosen.
  destruct mode; unfold selects, by_mode in Hsel; injection Hsel as -> ->.
  - assert (base = []) as -> by (unfold base, base_include_uids; by rewrite Hm).
    cbn [app]. rewrite elem_of_cons, elem_of_app, Hu. tauto.
  - assert (base = direct_uids (ec_applications cfg)) as ->.
    { unfold base, base_include_uids. rewrite Hm. specialize (Hsent eq_refl). clear -Hsent.
      induction (direct_uids (ec_applications cfg)) as [|x l IH]; [done|]. simpl.
      apply not_elem_of_cons in Hsent as [Hx Hl]. rewrite (proj2 (Z.eqb_neq x _)) by congruence. simpl.
      by rewrite IH. }
    assert (direct_uids (ec_applications cfg) ++ uids <> []) as Hnn.
    { intros [Hd ->]%app_eq_nil. destruct (app_targets (ec_applications cfg)) as [|[u pk|i] l] eqn:Et; [done|..].
      - destruct (Hall (u, pk)) as [x Hx]; [apply target_packages_elem; rewrite Et; by left|].
        assert (x ∈ ([] : list Z)) as []%elem_of_nil. apply Hu. exists (u, pk). split; [|done].
        apply target_packages_elem. rewrite Et. by left.
      - assert (i ∈ ([] : list Z)) as []%elem_of_nil. rewrite <- Hd. apply direct_uids_elem. rewrite Et. by left. }
    rewrite app_nil_r, list_elem_of_singleton, elem_of_app, Hu. tauto.
Qed.

Lemma resolved_policy_exact {B : Type} `{!ProbeBackend B} cfg mode o (b : B) sync b' :
  app_mode (ec_applications cfg) = match mode with Blacklist => AppsBlacklist | Whitelist => AppsWhitelist end ->
  app_targets (ec_applications cfg) <> [] ->
  (mode = Whitelist -> APPLICATION_RESOLUTION_SENTINEL ∉ direct_uids (ec_applications cfg)) ->
  managed_options cfg = Ok o ->
  resolve_policy cfg mode (Some b) = (sync, b') -> sync_state sync = "synced" ->
  exists p o packages, sync_policy sync = Some (p, o)
    /\ (forall uid, captures_uid p uid = true <-> wanted cfg packages uid)
    /\ (exists b1, list_users (sort_dedup (fst <$> target_packages (ec_applications cfg))) [] b = (Ok packages, b1))
    /\ forall user package uid, bt_get (user, package) packages = Some uid -> uid / PER_USER_RANGE = user.
Proof.
  intros Hm Hne Hsent Ho. unfold resolve_policy, with_options_of. rewrite Ho.
  destruct (resolve_selection mode _ b) as [[s|e] b1] eqn:Er; [|by intros [= <- _]].
  apply bind_Ok in Er as (packages & b2 & Hl & Hret). injection Hret as <- <-.
  destruct (is_pending _) eqn:Ep; [by intros [= <- _]|]. cbn [negb].
  destruct (resolve_listed_uids packages mode _ Ep) as [Hall (uids & Hsel & Hu)].
  destruct (capture_with_application_uids cfg _ _) as [p|] eqn:Ec; [|by intros [= <- _]].
  intros [= <- _] _. exists p, o, packages. split; [done|]. split.
  - intros uid. by eapply selected_capture_exact.
  - split; [by eexists|]. intros user package uid Hg.
    change user with (user, package).1. eapply list_users_users; [|exact Hl|exact Hg]. done.
Qed.

(** ** Theorems *)

(** C27: after a refresh that reports [synced], the data plane's policy captures exactly the
    traffic the user asked for and never that of UID 0: every UID in mode [all], every UID
    but the selected ones in mode [blacklist], only the selected ones in mode [whitelist],
    where the UIDs of the selected packages are the ones the package manager listed during
    the refresh and belong to the package's Android user.  (A whitelist does not name the
    UID the code reserves.) *)
Theorem application_policy_exact {B : Type} `{!ProbeBackend B} url_parse wire cfg (b : B) sync b' :
  from_wire url_parse wire = Ok cfg ->
  (app_mode (ec_applications cfg) = AppsWhitelist ->
   APPLICATION_RESOLUTION_SENTINEL ∉ direct_uids (ec_applications cfg)) ->
  refresh_application_policy cfg (Some b) = (sync, b') -> sync_state sync = "synced" ->
  exists p o packages, sync_policy sync = Some (p, o)
    /\ (forall uid, captures_uid p uid = true <-> wanted cfg packages uid)
    /\ (app_mode (ec_applications cfg) <> AppsAll ->
        (exists b1, list_users (sort_dedup (fst <$> target_packages (ec_applications cfg))) [] b = (Ok packages, b1))
        /\ forall user package uid, bt_get (user, package) packages = Some uid -> uid / PER_USER_RANGE = user).
Proof.
  intros Hcfg Hsent Href Hstate. destruct (checked_options _ _ _ Hcfg) as (o & Ho & _).
  apply from_wire_inv in Hcfg as (_ & _ & Happ & _ & _ & _ & _ & Hcap).
  apply validate_applications_wf in Happ as [Htargets H0].
  unfold refresh_application_policy in Href.
  destruct (app_mode (ec_applications cfg)) eqn:Em.
  - unfold with_options_of in Href. rewrite Ho in Href. injection Href as <- _.
    exists (ec_capture cfg), o, []. split; [done|]. split; [|done]. intros uid.
    rewrite (build_capture_captures _ _ _ _ _ _ uid Hcap). unfold wanted, initial_include_uids, base_include_uids,
      base_exclude_uids. rewrite Em. cbn. rewrite list_elem_of_singleton. tauto.
  - destruct (resolved_policy_exact cfg Blacklist o b sync b') as (p & o' & packages & H1 & H2 & H3); try done.
    { by apply Htargets. }
    by exists p, o', packages.
  - destruct (resolved_policy_exact cfg Whitelist o b sync b') as (p & o' & packages & H1 & H2 & H3); try done.
    { by apply Htargets. }
    { intros _. by apply Hsent. }
    by exists p, o', packages.
Qed.

(** *** Witness *)
Module AppsSample.
(** A package manager that lists one package. *)
Definition listing : list Z := bytes "package:com.example.app uid:10200".
Inductive Device : Type := device.
#[export] Instance backend : ProbeBackend Device := fun command _ =>
  match command with
  | PackageList AllPackages 0 => (Ok (mkProbeOutput true listing []), device)
  | _ => (Ok (mkProbeOutput false [] []), device)
  end.
End AppsSample.
Import AppsSample.

Lemma application_policy_exact_witness :
  exists p o, sync_policy (refresh_application_policy ConfigSample.cfg (Some device)).1 = Some (p, o)
    /\ captures_uid p 10200 = true /\ captures_uid p 10123 = true /\ captures_uid p 10999 = false.
Proof.
  destruct (application_policy_exact ConfigSample.url_parse ConfigSample.wire ConfigSample.cfg device
              (refresh_application_policy ConfigSample.cfg (Some device)).1
              (refresh_application_policy ConfigSample.cfg (Some device)).2) as (p & o & packages & Hp & Hw & _).
  - exact (proj2_sig ConfigSample.accepted).
  - intros _. apply (bool_decide_unpack _). vm_compute. exact I.
  - vm_compute. reflexivity.
  - vm_compute. reflexivity.
  - exists p, o. split; [exact Hp|]. clear Hw. vm_compute in Hp. injection Hp as <- <-. vm_compute. auto.
Defined.

(** The one UID a whitelist must not name: the refresh drops it as a placeholder, and a
    whitelist left empty captures every UID but 0. *)
Module ReservedSample.
Definition wire : UserConfigWire :=
  mkWire 3 true (mkSubscriptions Source.Single true 24) [ConfigSample.source] ProxyWire_default
    (mkApplications AppsWhitelist [TargetUid APPLICATION_RESOLUTION_SENTINEL])
    NetworkWire_default RoutingWire_default LoggingWire_default AdvancedWire_default.
Lemma reserved_accepted : { cfg | from_wire ConfigSample.url_parse wire = Ok cfg }.
Proof. eexists. vm_compute. reflexivity. Defined.
Definition cfg : EffectiveConfig := proj1_sig reserved_accepted.
End ReservedSample.

Lemma reserved_uid_captures_all :
  exists p o, sync_policy (refresh_application_policy ReservedSample.cfg (Some device)).1 = Some (p, o)
    /\ sync_state (refresh_application_policy ReservedSample.cfg (Some device)).1 = "synced"
    /\ forall uid, captures_uid p uid = true <-> uid <> 0.
Proof.
  assert (exists p o, sync_policy (refresh_application_policy ReservedSample.cfg (Some device)).1 = Some (p, o)
            /\ include_uids p = [] /\ exclude_uids p = [0]) as (p & o & Hp & Hi & He).
  { eexists _, _. split; [vm_compute; reflexivity|]. done. }
  exists p, o. split; [exact Hp|]. split; [vm_compute; reflexivity|]. intros uid.
  unfold captures_uid. rewrite Hi, He. change (len [] =? 0) with true. cbn [orb andb].
  rewrite negb_true_iff, bool_decide_eq_false, binary_search_strict by (repeat constructor).
  by rewrite list_elem_of_singleton.
Qed.
