(* ===== verification/ConfigChange.v ===== *)
(** * ConfigChange: changing a configuration

    What [EffectiveConfig::change_plan] promises its callers, and the canonical form
    [UserConfigWire::canonicalized] writes back. *)

From S2P Require Import Prelude Text Ordering BTreeMap Json Source Pipeline Capture Capability Composer WifiScene AtomicFile Config ConfigRouting ConfigApps.

Local Open Scope Z_scope.

(** ** The plan of a change *)
Lemma note_rank changed kind i p :
  impact_rank (impact p) <= impact_rank (impact (note changed kind i p))
  /\ (changed = true -> impact_rank i <= impact_rank (impact (note changed kind i p))).
Proof.
  unfold note. destruct changed; cbn [impact]; [|split; [lia|done]]. unfold impact_max.
  destruct (impact_rank i <? impact_rank (impact p)) eqn:E; split; intros; lia.
Qed.
Lemma differs_false {A} `{EqDecision A} (a b : A) : differs a b = false -> a = b.
Proof. unfold differs. by rewrite negb_false_iff, bool_decide_eq_true. Qed.
(** A change below a rank was not of a kind that has it. *)
Lemma note_below changed kind i p k :
  impact_rank (impact (note changed kind i p)) < k ->
  impact_rank (impact p) < k /\ (k <= impact_rank i -> changed = false).
Proof.
  destruct (note_rank changed kind i p) as [H1 H2]. intros Hk. split; [lia|].
  intros Hi. destruct changed; [|done]. specialize (H2 eq_refl). lia.
Qed.

Record same_core (a b : EffectiveConfig) : Prop := {
  sc_service : ec_service_enabled a = ec_service_enabled b;
  sc_sources : ec_sources a = ec_sources b;
  sc_proxy : ec_proxy a = ec_proxy b;
  sc_routing : ec_routing a = ec_routing b;
  sc_mode : net_capture_mode (ec_network a) = net_capture_mode (ec_network b);
  sc_stack : net_tun_stack (ec_network a) = net_tun_stack (ec_network b);
  sc_tun : net_capture_mode (ec_network a) = IntentTun -> ec_applications a = ec_applications b;
}.
Lemma below_activation a b : impact_rank (impact (change_plan a b)) < 2 -> same_core a b.
Proof.
  unfold change_plan. cbv zeta. intros H.
  apply note_below in H as [H _]. apply note_below in H as [H _].
  apply note_below in H as [H Hr]. specialize (Hr ltac:(simpl; lia)).
  apply note_below in H as [H Hn]. apply note_below in H as [H Ha].
  apply note_below in H as [H Hp]. specialize (Hp ltac:(simpl; lia)).
  apply note_below in H as [H Hs]. specialize (Hs ltac:(simpl; lia)).
  apply note_below in H as [H _].
  assert (net_capture_mode (ec_network a) = net_capture_mode (ec_network b)
          /\ net_tun_stack (ec_network a) = net_tun_stack (ec_network b)) as [Hm Ht].
  { destruct (differs (net_capture_mode _) _ || _) eqn:E.
    - specialize (Hn ltac:(simpl; lia)). apply differs_false in Hn. by rewrite Hn.
    - apply orb_false_iff in E as [E1%differs_false E2%differs_false]. done. }
  apply differs_false in Hr, Hp, Hs. constructor; try done.
  - destruct (differs (ec_service_enabled a) _) eqn:E; [|by apply differs_false].
    cbn [impact] in H. destruct (ec_service_enabled b); simpl in H; lia.
  - intros Htun. rewrite <- Hm, Htun, bool_decide_eq_true_2 in Ha by done. cbn [orb] in Ha.
    specialize (Ha ltac:(simpl; lia)). by apply differs_false in Ha.
Qed.
Lemma runtime_only a b :
  impact_rank (impact (change_plan a b)) < 1 ->
  same_core a b /\ ec_applications a = ec_applications b /\ ec_network a = ec_network b
  /\ ec_advanced a = ec_advanced b /\ ec_allocations a = ec_allocations b.
Proof.
  intros H. split; [apply below_activation; lia|]. revert H. unfold change_plan. cbv zeta. intros H.
  apply note_below in H as [H Hv]. specialize (Hv ltac:(simpl; lia)). apply note_below in H as [H _].
  apply note_below in H as [H _]. apply note_below in H as [H Hn]. apply note_below in H as [H Ha].
  specialize (Hn ltac:(split_if E; simpl; lia)). specialize (Ha ltac:(split_if E; simpl; lia)).
  apply orb_false_iff in Hv as [Hv1%differs_false Hv2%differs_false]. by apply differs_false in Hn, Ha.
Qed.

(** *** What the composer reads of a configuration *)
Lemma build_capture_fields m network advanced include exclude p :
  build_capture m network advanced include exclude = Ok p ->
  mode p = m /\ inbound_port p = Some (adv_inbound_port advanced)
  /\ include_uids p = sort_dedup include /\ exclude_uids p = sort_dedup exclude.
Proof.
  unfold build_capture. destruct (CapturePolicy_new_with_protocols _ _ _ _ _ _ _ _) as [p0|] eqn:E0; [|done].
  cbn [map_err mbind Result_bind]. destruct (InterfacePolicy_new _ _ _ _) as [i|]; [|done].
  cbn [map_err mbind Result_bind]. unfold with_interface_policy. split_if E1; [done|].
  cbn [mbind Result_bind]. unfold with_forwarding_policy. split_if E2; [done|]. cbn [map_err]. intros [= <-].
  apply new_with_protocols_ok in E0 as Hok. destruct Hok as (_ & Hm & Hi & He). cbn.
  split; [done|]. split; [|done]. unfold CapturePolicy_new_with_protocols in E0.
  repeat (split_if_in E0 Ex; [done|]; clear Ex). by injection E0 as <-.
Qed.
Definition profile_of (cfg : EffectiveConfig) (o : ManagedOptions) (os : list TerminalOutbound)
    (pool : list string) (api : ClashApi) : ManagedProfile :=
  mkProfile (ec_capture cfg) os pool api (managed_tun_stack cfg) o.
Lemma document_ext p q os t :
  options p = options q -> clash_api p = clash_api q -> compose_inbounds p = compose_inbounds q ->
  document p os t = document q os t.
Proof. intros Ho Ha Hi. unfold document. by rewrite Ho, Ha, Hi. Qed.
Lemma managed_options_ext a b :
  ec_proxy a = ec_proxy b -> ec_routing a = ec_routing b -> lg_level (ec_logging a) = lg_level (ec_logging b) ->
  managed_options a = managed_options b.
Proof. intros Hp Hr Hl. unfold managed_options. by rewrite Hp, Hr, Hl. Qed.

(** ** Theorems *)

(** C36: the impact of a configuration change never understates what it reaches.  A change
    classified below [GenerationActivation], which keeps the inbound port and the log level,
    leaves the document the composer writes as it was, for any nodes, pool and API endpoint;
    one classified [RuntimeOnly] leaves the capture policy and the allocations too, so
    neither the core nor the network rules need to be replaced. *)
Theorem change_plan_sound url_parse w1 w2 a b :
  from_wire url_parse w1 = Ok a -> from_wire url_parse w2 = Ok b ->
  let plan := change_plan a b in
  (impact_rank (impact plan) < impact_rank GenerationActivation ->
   adv_inbound_port (ec_advanced a) = adv_inbound_port (ec_advanced b) ->
   lg_level (ec_logging a) = lg_level (ec_logging b) ->
   ec_sources a = ec_sources b
   /\ exists o, managed_options a = Ok o /\ managed_options b = Ok o
      /\ forall os pool api, compose_value (profile_of a o os pool api) = compose_value (profile_of b o os pool api))
  /\ (impact plan = RuntimeOnly ->
      ec_capture a = ec_capture b /\ ec_allocations a = ec_allocations b
      /\ ec_service_enabled a = ec_service_enabled b /\ managed_tun_stack a = managed_tun_stack b).
Proof.
  intros Ha Hb plan. split.
  - intros Hi%below_activation Hport Hlevel. split; [apply Hi|].
    destruct (checked_options _ _ _ Ha) as (o & Ho & _). exists o. split; [done|].
    split; [by rewrite <- (managed_options_ext a b) by (apply Hi || done)|].
    intros os pool api. unfold compose_value. cbn [outbounds auto_pool profile_of].
    destruct (normalize_outbounds os) as [os'|]; [|done]. cbn [mbind Result_bind].
    destruct (existsb _ pool); [done|]. destruct (head pool) as [t|]; [|done]. cbn [ok_or mbind Result_bind].
    do 2 f_equal. apply document_ext; [done|done|].
    apply from_wire_inv in Ha as (_ & _ & _ & _ & _ & _ & _ & Ha). apply build_capture_fields in Ha as (Ma & Pa & Ia & Ea).
    apply from_wire_inv in Hb as (_ & _ & _ & _ & _ & _ & _ & Hb). apply build_capture_fields in Hb as (Mb & Pb & Ib & Eb).
    unfold compose_inbounds, fetch_inbound, tun_inbound. cbn [capture profile_of clash_api profile_stack].
    rewrite Ma, Mb, Pa, Pb, Hport, Ia, Ib, Ea, Eb. unfold capture_mode_of, managed_tun_stack.
    rewrite (sc_mode a b Hi), (sc_stack a b Hi). destruct (net_capture_mode (ec_network b)) eqn:Em; [done..|].
    by rewrite (sc_tun a b Hi) by (by rewrite (sc_mode a b Hi)).
  - intros Hr. destruct (runtime_only a b) as (Hc & Happ & Hn & Hv & Hal); [fold plan; rewrite Hr; simpl; lia|].
    apply from_wire_inv in Ha as (_ & _ & _ & _ & _ & _ & _ & Ha).
    apply from_wire_inv in Hb as (_ & _ & _ & _ & _ & _ & _ & Hb).
    rewrite Happ, Hn, Hv in Ha. unfold managed_tun_stack. rewrite Hn.
    split; [congruence|]. split; [done|]. split; [apply Hc|done].
Qed.

(** *** Witness *)
Module ChangeSample.
Definition with_parts (logging : LoggingSettings) (advanced : AdvancedWire) : UserConfigWire :=
  mkWire 3 true (mkSubscriptions Source.Single true 24) [ConfigSample.source] ProxyWire_default
    ConfigSample.applications NetworkWire_default ConfigSample.routing logging advanced.
Definition kept_longer : UserConfigWire := with_parts (mkLogging LvlInfo 14) AdvancedWire_default.
Definition other_port : UserConfigWire :=
  with_parts LoggingWire_default
    (mkAdvancedWire (mkAdvanced 7999 DEFAULT_BYPASS_MARK true false 3 60) default_resource_candidates).
Lemma kept_accepted : { cfg | from_wire ConfigSample.url_parse kept_longer = Ok cfg }.
Proof. eexists. vm_compute. reflexivity. Defined.
Lemma port_accepted : { cfg | from_wire ConfigSample.url_parse other_port = Ok cfg }.
Proof. eexists. vm_compute. reflexivity. Defined.
End ChangeSample.

Lemma change_plan_sound_witness :
  let b := proj1_sig ChangeSample.kept_accepted in
  changes (change_plan ConfigSample.cfg b) = [ChLogging]
  /\ ec_capture ConfigSample.cfg = ec_capture b.
Proof.
  intros b. split; [vm_compute; reflexivity|].
  apply (change_plan_sound ConfigSample.url_parse ConfigSample.wire ChangeSample.kept_longer
           ConfigSample.cfg b (proj2_sig ConfigSample.accepted) (proj2_sig ChangeSample.kept_accepted)).
  vm_compute. reflexivity.
Defined.

(** The inbound port is outside the promise: moving it is classified [NetworkPlan], while the
    composed configuration listens on it. *)
Lemma inbound_port_change_understated :
  let b := proj1_sig ChangeSample.port_accepted in
  impact (change_plan ConfigSample.cfg b) = NetworkPlanImpact
  /\ compose_inbounds (profile_of ConfigSample.cfg ManagedOptions_default [] [] ComposerSample.api)
     <> compose_inbounds (profile_of b ManagedOptions_default [] [] ComposerSample.api).
Proof. intros b. split; [vm_compute; reflexivity|]. vm_compute. congruence. Qed.

(** ** The canonical form *)
Lemma existsb_Permutation {A} (f : A -> bool) l l' : l ≡ₚ l' -> existsb f l = existsb f l'.
Proof.
  induction 1 as [|x l l' _ IH|x y l|l1 l2 l3 _ IH1 _ IH2]; simpl;
    [done|by rewrite IH| |congruence]. by destruct (f x), (f y).
Qed.
Lemma existsb_ext {A} (f g : A -> bool) l : (forall x, f x = g x) -> existsb f l = existsb g l.
Proof. intros H. induction l as [|x l IH]; simpl; [done|]. by rewrite H, IH. Qed.
Lemma len_sort {K} `{Ord K} (l : list K) : len (sort l) = len l.
Proof. unfold len. by rewrite (Permutation_length (sort_Permutation l)). Qed.
Lemma all_unique_sort {K} `{Ord K} (D : EqDecision K) (l : list K) :
  @all_unique K D (sort l) = @all_unique K D l.
Proof. unfold all_unique. apply bool_decide_ext. by rewrite sort_Permutation. Qed.
Lemma existsb_sort {K} `{Ord K} (f : K -> bool) (l : list K) : existsb f (sort l) = existsb f l.
Proof. apply existsb_Permutation, sort_Permutation. Qed.

Lemma filter_sorted inc exc ids ps :
  NodeFilter_new_with_node_ids (sort inc) (sort exc) (sort ids) (sort ps)
  = NodeFilter_new_with_node_ids inc exc ids ps.
Proof.
  unfold NodeFilter_new_with_node_ids, NodeFilter_new. rewrite !len_sort, !existsb_app, !existsb_sort, !sort_idem.
  done.
Qed.
Lemma canonical_source_loop url_parse ws names urls :
  source_loop url_parse (canonical_source <$> ws) names urls = source_loop url_parse ws names urls.
Proof.
  revert names urls. induction ws as [|s ws IH]; intros names urls; [done|]. rewrite fmap_cons.
  cbn [source_loop canonical_source sw_name sw_enabled sw_url sw_profile sw_format sw_mirrors sw_filter
       include_names exclude_names excluded_node_ids protocols]. rewrite filter_sorted.
  destruct (SourceName_new (sw_name s)); [|done]. cbn [mbind Result_bind]. destruct (bool_decide _); [done|].
  destruct (validate_optional_url url_parse (sw_url s)); [|done]. cbn [mbind Result_bind].
  destruct (_ && _); [done|]. destruct (_ || _); [done|].
  destruct (validate_mirrors url_parse _ _ _); [|done]. cbn [mbind Result_bind].
  destruct (NodeFilter_new_with_node_ids _ _ _ _); [|done]. cbn [map_err mbind Result_bind]. by rewrite IH.
Qed.
Lemma canonical_applications a s :
  validate_applications a = Ok s -> validate_applications (mkApplications (app_mode a) (sort (app_targets a))) = Ok s.
Proof.
  unfold validate_applications. cbn [app_mode app_targets].
  by rewrite len_sort, all_unique_sort, existsb_sort, sort_idem.
Qed.
Lemma canonical_patterns l : validate_patterns (sort l) = validate_patterns l.
Proof. unfold validate_patterns. by rewrite len_sort, all_unique_sort, existsb_sort. Qed.

Lemma scene_loop_Forall2 ws rs :
  scene_loop ws = Ok rs <->
  Forall2 (fun w r => WifiSceneRule_new (wr_id w) (wr_ssid w) (wr_bssid w) (wr_action w) = Ok r) ws rs.
Proof.
  revert rs. induction ws as [|w ws IH]; intros rs; simpl.
  - split; [intros [= <-]; constructor|]. intros H. by inversion H.
  - destruct (WifiSceneRule_new _ _ _ _) as [r|] eqn:E; cbn [map_err mbind Result_bind].
    + destruct (scene_loop ws) as [more|] eqn:El; cbn [mbind Result_bind].
      * split; [intros [= <-]; constructor; [done|by apply IH]|]. intros H. inversion H as [|? ? ? ? H1 H2]; simplify_eq.
        apply IH in H2. congruence.
      * split; [done|]. intros H. inversion H as [|? ? ? ? H1 H2]; simplify_eq. apply IH in H2. congruence.
    + split; [done|]. intros H. inversion H; simplify_eq. congruence.
Qed.
Lemma Forall2_Permutation_r {A B} (P : A -> B -> Prop) l l' k :
  l ≡ₚ l' -> Forall2 P l k -> exists k', Forall2 P l' k' /\ k ≡ₚ k'.
Proof.
  intros Hp. revert k. induction Hp as [|x l l' _ IH|x y l|l1 l2 l3 _ IH1 _ IH2]; intros k Hf.
  - exists k. split; [done|reflexivity].
  - inversion Hf as [|? b ? k0 Hb Hk]; simplify_eq. destruct (IH k0 Hk) as (k' & Hk' & Hp').
    exists (b :: k'). split; [by constructor|by constructor].
  - inversion Hf as [|? b ? k0 Hb Hk]; simplify_eq. inversion Hk as [|? c ? k1 Hc Hk1]; simplify_eq.
    exists (c :: b :: k1). split; [by repeat constructor|constructor].
  - destruct (IH1 k Hf) as (k1 & Hk1 & Hp1). destruct (IH2 k1 Hk1) as (k2 & Hk2 & Hp2).
    exists k2. split; [done|by etransitivity].
Qed.
Lemma check_scenes_Permutation rs rs' :
  rs ≡ₚ rs' -> check_scenes [] rs = Ok tt -> check_scenes [] rs' = Ok tt.
Proof.
  intros Hp H. apply check_scenes_ok in H as [_ H]. apply check_scenes_ok.
  split; [intros ? ? []%elem_of_nil|]. revert H.
  induction Hp as [|x l l' Hp IH|x y l|l1 l2 l3 _ IH1 _ IH2]; intros Hf; [done| | |by auto].
  - inversion Hf as [|? ? Hx Hl]; subst. constructor; [by rewrite <- Hp|by apply IH].
  - inversion Hf as [|? ? Hy Hl]; subst. inversion Hl as [|? ? Hx Hl']; subst. apply Forall_cons in Hy as [Hyx Hy].
    constructor; [constructor; [|done]|by constructor]. intros Hc. apply Hyx. by symmetry.
Qed.
Lemma canonical_network_ok n s :
  validate_network n = Ok s ->
  exists s', validate_network (canonical_network n) = Ok s'
    /\ net_capture_mode s' = net_capture_mode s /\ net_proxy_tcp s' = net_proxy_tcp s
    /\ net_proxy_udp s' = net_proxy_udp s /\ net_tun_stack s' = net_tun_stack s
    /\ net_interfaces s' = nw_interfaces (canonical_network n) /\ net_interfaces s = nw_interfaces n.
Proof.
  unfold validate_network, canonical_network.
  cbn [nw_capture_mode nw_proxy_tcp nw_proxy_udp nw_ipv6_mode nw_dns_mode nw_tun_stack nw_interfaces
       nw_wifi_scenes if_mobile if_wifi if_hotspot if_usb if_include if_exclude ws_enabled ws_probe_interval ws_rules].
  rewrite !canonical_patterns, !len_sort, existsb_sort.
  split_if E1; [done|]. split_if E2; [done|]. split_if E3; [done|].
  destruct (validate_patterns (if_include _)); [|done]. cbn [mbind Result_bind].
  destruct (validate_patterns (if_exclude _)); [|done]. cbn [mbind Result_bind].
  split_if E4; [done|].
  assert (forall v, bool_decide (v ∈ sort (if_exclude (nw_interfaces n)))
                    = bool_decide (v ∈ if_exclude (nw_interfaces n))) as Hd
    by (intros v; apply bool_decide_ext; by rewrite sort_Permutation).
  rewrite (existsb_ext _ (fun v => bool_decide (v ∈ if_exclude (nw_interfaces n))) _ Hd).
  split_if E5; [done|].
  pose proof (stable_sort_Permutation wr_id (ws_rules (nw_wifi_scenes n))) as Hp.
  assert (len (stable_sort_by_key wr_id (ws_rules (nw_wifi_scenes n))) = len (ws_rules (nw_wifi_scenes n))) as ->
    by (unfold len; by rewrite (Permutation_length Hp)).
  split_if E6; [done|]. destruct (scene_loop (ws_rules _)) as [rs|] eqn:Es; [|done]. cbn [mbind Result_bind].
  apply scene_loop_Forall2 in Es. destruct (Forall2_Permutation_r _ _ _ _ (Permutation_sym Hp) Es) as (rs' & Hrs & Hpr).
  apply scene_loop_Forall2 in Hrs. rewrite Hrs. cbn [mbind Result_bind]. unfold WifiSceneMatcher_new.
  replace (len rs') with (len rs) by (unfold len; by rewrite (Permutation_length Hpr)).
  destruct (MAX_SCENES <? len rs); [done|]. destruct (check_scenes [] rs) as [[]|] eqn:Ec; [|done].
  rewrite (check_scenes_Permutation rs rs') by done. cbn [map_err mbind Result_bind]. intros [= <-].
  eexists. split; [reflexivity|]. done.
Qed.

Lemma build_capture_canonical m n n' advanced include exclude p :
  m <> Direct ->
  net_proxy_tcp n' = net_proxy_tcp n -> net_proxy_udp n' = net_proxy_udp n ->
  net_interfaces n' = mkIfaces (if_mobile (net_interfaces n)) (if_wifi (net_interfaces n))
    (if_hotspot (net_interfaces n)) (if_usb (net_interfaces n)) (sort (if_include (net_interfaces n)))
    (sort (if_exclude (net_interfaces n))) ->
  build_capture m n advanced include exclude = Ok p ->
  exists p', build_capture m n' advanced include exclude = Ok p'.
Proof.
  intros Hm Ht Hu Hi. unfold build_capture. rewrite Ht, Hu, Hi. cbn [if_mobile if_wifi if_hotspot if_usb if_include if_exclude].
  destruct (CapturePolicy_new_with_protocols _ _ _ _ _ _ _ _) as [p0|] eqn:E0; [|done]. cbn [map_err mbind Result_bind].
  assert (mode p0 = m) as Hp0 by (by apply new_with_protocols_ok in E0 as (_ & ? & _)).
  unfold InterfacePolicy_new. rewrite !len_sort.
  assert (forall l, valid_patterns (sort l) = valid_patterns l) as Hv.
  { intros l. unfold valid_patterns. apply eq_iff_eq_true. rewrite !forallb_forall.
    setoid_rewrite <- list_elem_of_In. by setoid_rewrite sort_Permutation. }
  rewrite !Hv, existsb_sort.
  rewrite (existsb_ext (fun v => bool_decide (v ∈ sort _)) (fun v => bool_decide (v ∈ if_exclude (net_interfaces n))))
    by (intros v; apply bool_decide_ext; by rewrite sort_Permutation).
  split_if E1; [done|]. cbn [map_err mbind Result_bind]. unfold with_interface_policy.
  rewrite Hp0, (bool_decide_eq_false_2 (m = Direct)) by done. cbn [andb mbind Result_bind].
  unfold with_forwarding_policy. cbn [mode]. rewrite (bool_decide_eq_false_2 (m = Direct)) by done.
  cbn [andb map_err]. intros _. by eexists.
Qed.
Lemma canonical_routing_ok r rt r' :
  validate_routing r = Ok rt -> canonical_routing r = Ok r' ->
  validate_routing r' = Ok rt /\ canonical_routing r' = Ok r'.
Proof.
  unfold canonical_routing, validate_routing. split_if E0; [done|]. split_if E1; [done|].
  destruct (parse_cidrs (rw_force_cidrs r)) as [fc|] eqn:Efc; [|done].
  destruct (parse_cidrs (rw_bypass_cidrs r)) as [bc|] eqn:Ebc; [|done]. cbn [mbind Result_bind].
  split_if E2; [done|]. split_if E3; [done|].
  destruct (parse_domains (rw_force_domains r)) as [fd|] eqn:Efd; [|done].
  destruct (parse_domains (rw_bypass_domains r)) as [bd|] eqn:Ebd; [|done].
  destruct (parse_domains (rw_block_domains r)) as [kd|] eqn:Ekd; [|done]. cbn [mbind Result_bind].
  split_if E4; [done|]. intros [= <-] [= <-].
  cbn [rw_bypass_private rw_bypass_cn rw_block_quic rw_force_cidrs rw_bypass_cidrs rw_force_domains
       rw_bypass_domains rw_block_domains].
  apply parse_cidrs_Ok in Efc as (_ & _ & Lfc & ->), Ebc as (_ & _ & Lbc & ->).
  apply parse_domains_Ok in Efd as (_ & _ & Lfd & ->), Ebd as (_ & _ & Lbd & ->), Ekd as (_ & _ & Lkd & ->).
  unfold len in *. rewrite !length_fmap, Lfc, Lbc, Lfd, Lbd, Lkd, E1, E3. cbn [mbind Result_bind].
  by rewrite E2, E4.
Qed.
Lemma canonical_source_idem s : canonical_source (canonical_source s) = canonical_source s.
Proof.
  unfold canonical_source. cbn [sw_name sw_enabled sw_url sw_profile sw_format sw_mirrors sw_filter include_names
    exclude_names excluded_node_ids protocols]. by rewrite !sort_idem.
Qed.
Lemma canonical_network_idem n : canonical_network (canonical_network n) = canonical_network n.
Proof.
  unfold canonical_network. cbn [nw_capture_mode nw_proxy_tcp nw_proxy_udp nw_ipv6_mode nw_dns_mode nw_tun_stack
    nw_interfaces nw_wifi_scenes if_mobile if_wifi if_hotspot if_usb if_include if_exclude ws_enabled
    ws_probe_interval ws_rules]. rewrite !sort_idem, stable_sort_id by apply stable_sort_sorted. done.
Qed.

(** The canonical form of an accepted configuration is accepted again, is its own
    canonical form, and means the same: the same sources, options of the composer,
    applications and allocations.  So the file the daemon writes back can always be read,
    and writing it once more changes nothing. *)
Theorem canonical_form_stable url_parse w w' :
  canonicalized url_parse w = Ok w' ->
  canonicalized url_parse w' = Ok w'
  /\ exists cfg cfg', from_wire url_parse w = Ok cfg /\ from_wire url_parse w' = Ok cfg'
     /\ ec_sources cfg' = ec_sources cfg /\ ec_subscriptions cfg' = ec_subscriptions cfg
     /\ ec_applications cfg' = ec_applications cfg /\ managed_options cfg' = managed_options cfg
     /\ managed_tun_stack cfg' = managed_tun_stack cfg /\ ec_allocations cfg' = ec_allocations cfg
     /\ ec_service_enabled cfg' = ec_service_enabled cfg.
Proof.
  unfold canonicalized. destruct (from_wire url_parse w) as [cfg|] eqn:Hc; [|done]. cbn [mbind Result_bind].
  destruct (canonical_routing (wire_routing w)) as [r|] eqn:Hr; [|done]. cbn [mbind Result_bind]. intros [= <-].
  cbn [wire_schema wire_service_enabled wire_subscriptions wire_sources wire_proxy wire_applications wire_network
       wire_routing wire_logging wire_advanced app_mode app_targets].
  pose proof (from_wire_inv _ _ _ Hc) as (Vs & Vp & Va & Vn & Vr & Vl & Vd & Vc).
  destruct (canonical_routing_ok _ _ _ Vr Hr) as [Hr1 Hr2].
  destruct (canonical_network_ok _ _ Vn) as (n' & Hn' & Hm & Ht & Hu & Hst & Hi' & Hi).
  destruct (build_capture_canonical (capture_mode_of (ec_network cfg)) (ec_network cfg) n' (ec_advanced cfg)
    (initial_include_uids (ec_applications cfg)) (base_exclude_uids (ec_applications cfg)) (ec_capture cfg)) as [p' Hp'].
  { unfold capture_mode_of. by destruct (net_capture_mode (ec_network cfg)). }
  { done. } { done. } { by rewrite Hi', Hi. } { done. }
  assert (capture_mode_of n' = capture_mode_of (ec_network cfg)) as Hcm by (unfold capture_mode_of; by rewrite Hm).
  set (w' := mkWire _ _ _ _ _ _ _ _ _ _).
  assert (from_wire url_parse w' = Ok (mkEffective (ec_service_enabled cfg) (ec_subscriptions cfg) (ec_sources cfg)
            (ec_proxy cfg) (ec_applications cfg) n' (ec_routing cfg) (ec_logging cfg) (ec_advanced cfg) p'
            (ec_allocations cfg))) as Hw'.
  { revert Hc. unfold from_wire, w'. cbn [wire_schema wire_service_enabled wire_subscriptions wire_sources wire_proxy
      wire_applications wire_network wire_routing wire_logging wire_advanced]. split_if E; [done|].
    unfold validate_sources, len. rewrite length_fmap, canonical_source_loop. fold (len (wire_sources w)).
    fold (validate_sources url_parse (wire_sources w)). rewrite Vs. cbn [mbind Result_bind].
    destruct (validate_subscription_settings (wire_subscriptions w) (ec_sources cfg)) as [subs|]; [|done].
    cbn [mbind Result_bind]. rewrite Vp, (canonical_applications _ _ Va), Hn', Va, Vn, Vr, Hr1, Vl, Vd.
    cbn [mbind Result_bind]. rewrite Hcm, Hp', Vc. cbn [mbind Result_bind]. intros Hcfg. injection Hcfg as <-. done. }
  rewrite Hw'. cbn [mbind Result_bind]. rewrite Hr2. cbn [mbind Result_bind]. split.
  - unfold w'. rewrite sort_idem, canonical_network_idem, <- list_fmap_compose.
    by rewrite (list_fmap_ext (canonical_source ∘ canonical_source) canonical_source)
      by (intros; apply canonical_source_idem).
  - eexists _, _. split; [done|]. split; [reflexivity|]. done.
Qed.

Module CanonicalSample.
Lemma written : { w | canonicalized ConfigSample.url_parse ConfigSample.wire = Ok w }.
Proof. eexists. vm_compute. reflexivity. Defined.
End CanonicalSample.
Lemma canonical_form_stable_witness :
  rw_bypass_cidrs (wire_routing (proj1_sig CanonicalSample.written)) = ["fd00::/64"]
  /\ canonicalized ConfigSample.url_parse (proj1_sig CanonicalSample.written)
     = Ok (proj1_sig CanonicalSample.written).
Proof.
  split; [vm_compute; reflexivity|].
  apply (canonical_form_stable ConfigSample.url_parse ConfigSample.wire (proj1_sig CanonicalSample.written)
           (proj2_sig CanonicalSample.written)).
Defined.
