(* ===== verification/Protocol.v ===== *)
(** * Protocol: the messages of the control socket

    [nethop-protocol/src/lib.rs]: the methods of the control protocol with their parameters,
    the checks a request, a response and a stream frame pass before they are sent and after
    they are received, and the stable error codes.  [ControlRequest_validate] is the code's
    sequence of tests; [RequestSpec] says the same as a table of what every method needs.
    The frame codec is in [ProtocolFrame], the benchmark reports are in [ProtocolBench]. *)

From S2P Require Import Prelude Text Ordering BTreeMap Json EventLog Config.

Local Open Scope Z_scope.

Definition PROTOCOL_VERSION : Z := 6.
Definition MAX_FRAME_BYTES : Z := 1024 * 1024.
Definition MAX_WEBUI_ARRAY_ITEMS : Z := 10000.
Definition MAX_WEBUI_STRING_BYTES : Z := 64 * 1024.
Definition MAX_REQUEST_ID_BYTES : Z := 64.
Definition MAX_ERROR_DETAIL_BYTES : Z := 48.
Definition MAX_MESSAGE_BYTES : Z := 512.

Inductive ProtocolError : Type :=
| FrameTooLarge | InvalidFrameLength | InvalidUtf8 | InvalidEnvelope | UnsupportedVersion
| InvalidRequestId | InvalidErrorCode | InvalidMessage | PIo.

(** [condition.then_some(()).ok_or(InvalidEnvelope)] and its negation. *)
Definition refuse (b : bool) : Result ProtocolError unit := if b then Err InvalidEnvelope else Ok tt.

(** ** Methods and parameters *)
Inductive ControlMethod : Type :=
| ProtocolHello | StatusGet | ServiceStart | ServiceStop | ServiceRestart
| CaptureEnable | CaptureDisable | CaptureStatus | CoreStart | CoreStop | CoreStatus
| ResourceStatus | CapabilityProbe | SubscriptionUpdate | SubscriptionInspect
| SubscriptionDiagnose | SubscriptionHistory | SubscriptionImportPreview
| SubscriptionImportApply | SubscriptionModeGet | SubscriptionModeSet | SubscriptionSelect
| SubscriptionSetEnabled | ConfigReload | ConfigGet | ConfigExport | CoreVersionCheck
| RuleSetStatus | RuleSetUpdate | ConfigValidate | ConfigCheck | ConfigApply | ConfigSchema
| CapabilityGet | ConfigMutate | EventsSubscribe | NodeList | NodeTestOne | NodeTestAll
| NodeTestOperationGet | NodeSelectionGet | NodeSelectAuto | NodeSelectManual | NodeExport
| NodeOverrideGet | NodeOverrideApply | NodeOverrideRemove | ConnectionsGet | ConnectionClose
| ConnectionsCloseAll | LogsGet | LogsClear | DiagnosticsBundle | TopologyGet | TrafficGet
| MetricsGet | WebUiPayloadCreate | WebUiPayloadAppend | WebUiPayloadCommit | WebUiPayloadRemove.
#[export] Instance ControlMethod_eq_dec : EqDecision ControlMethod.
Proof. solve_decision. Defined.

Inductive SubscriptionRequestProfile : Type :=
| RpGeneric | RpMihomo | RpClashStandard | RpSurfboard | RpSingBox | RpSingBoxAndroid.
Inductive SubscriptionFormatHint : Type :=
| FhAuto | FhUriList | FhBase64List | FhClashYaml | FhSingboxJson | FhSurfboardIni.
Record SubscriptionSourceFilter : Type := mkSourceFilter {
  include_names : list string;
  exclude_names : list string;
  filter_protocols : list string;
}.
Record SubscriptionSourceSettings : Type := mkSourceSettings {
  ss_request_profile : SubscriptionRequestProfile;
  ss_format_hint : SubscriptionFormatHint;
  ss_mirrors : list string;
  ss_filter : SubscriptionSourceFilter;
}.
Record SubscriptionSourcePatch : Type := mkSourcePatch {
  sp_request_profile : option SubscriptionRequestProfile;
  sp_format_hint : option SubscriptionFormatHint;
  sp_mirrors : option (list string);
  sp_filter : option SubscriptionSourceFilter;
}.
Inductive ApplicationPolicyMode : Type := PolicyAll | PolicyBlacklist | PolicyWhitelist.
Inductive RoutingCidrList : Type := ForceProxy | Bypass.
Inductive SubscriptionMode : Type := ModeSingle | ModeMerge.

Inductive ConfigMutation : Type :=
| SetServiceEnabled (enabled : bool)
| AddSource (name url : string) (settings : option SubscriptionSourceSettings)
| UpdateSource (source_id : string) (name url : option string) (enabled : option bool)
    (settings : option SubscriptionSourcePatch)
| RemoveSource (source_id : string)
| MoveSource (source_id : string) (before_source_id : option string)
| AddApplicationTarget (target : ApplicationTarget)
| RemoveApplicationTarget (target : ApplicationTarget)
| ReplaceApplicationTargets (targets : list ApplicationTarget)
| SetApplicationPolicy (mode : ApplicationPolicyMode) (targets : list ApplicationTarget)
| AddRoutingCidr (which : RoutingCidrList) (cidr : string)
| RemoveRoutingCidr (which : RoutingCidrList) (cidr : string)
| RemoveNode (node_id : string)
| SetScalarField (field_id : string) (value : Json).

Inductive WebUiPayloadNamespace : Type := NsConfig | NsSubscription | NsBackup | NsNode.
Inductive WebUiPayloadOperation : Type :=
| OpConfigValidate | OpConfigApply | OpConfigMutate | OpSubscriptionImportPreview
| OpSubscriptionImportApply | OpBackupRestore | OpNodeOverrideApply.
Record WebUiPayloadParams : Type := mkPayload {
  pl_namespace : WebUiPayloadNamespace;
  pl_handle : option string;
  pl_chunk : option string;
  pl_operation : option WebUiPayloadOperation;
}.
Record NodeOverrideDocument : Type := mkNodeOverride {
  no_display_name : string;
  no_outbound : Json;
}.

Record ControlParams : Type := mkParams {
  wait : bool;
  if_needed : bool;
  expected_config_digest : option string;
  candidate_digest : option string;
  document : option Json;
  manager_version : option string;
  manager_protocol_min : option Z;
  manager_protocol_max : option Z;
  mutation : option ConfigMutation;
  event_kinds : option (list EventKind);
  target : option string;
  query : option string;
  limit : option Z;
  log_channel : option LogChannel;
  source_id : option string;
  subscription_mode : option SubscriptionMode;
  enabled : option bool;
  node_override : option NodeOverrideDocument;
  payload : option WebUiPayloadParams;
  expected_generation : option Z;
  operation_id : option string;
}.
Definition ControlParams_new (wait if_needed : bool) : ControlParams :=
  mkParams wait if_needed None None None None None None None None None None None None None None
    None None None None None.
Definition ControlParams_default : ControlParams := ControlParams_new false false.

Definition payload_namespace (p : ControlParams) : option WebUiPayloadNamespace :=
  pl_namespace <$> payload p.
Definition payload_handle (p : ControlParams) : option string := payload p ≫= pl_handle.
Definition payload_chunk (p : ControlParams) : option string := payload p ≫= pl_chunk.
Definition payload_operation (p : ControlParams) : option WebUiPayloadOperation :=
  payload p ≫= pl_operation.

(** The constructors of [ControlParams]. *)
Definition config_document_params (digest : string) (doc : Json) : ControlParams :=
  mkParams false false (Some digest) None (Some doc) None None None None None None None None None
    None None None None None None None.
Definition import_document_params (digest : string) (candidate : option string) (doc : Json) :
    ControlParams :=
  mkParams false false (Some digest) candidate (Some doc) None None None None None None None None
    None None None None None None None None.
Definition hello_params (version : string) (min max : Z) : ControlParams :=
  mkParams false false None None None (Some version) (Some min) (Some max) None None None None None
    None None None None None None None None.
Definition mutation_params (digest : string) (m : ConfigMutation) : ControlParams :=
  mkParams false false (Some digest) None None None None None (Some m) None None None None None
    None None None None None None None.
Definition event_subscription_params (kinds : list EventKind) : ControlParams :=
  mkParams false false None None None None None None None (Some kinds) None None None None
    None None None None None None None.
Definition target_params (t : string) : ControlParams :=
  mkParams false false None None None None None None None None (Some t) None None None
    None None None None None None None.
Definition node_override_params (t : string) (doc : NodeOverrideDocument) : ControlParams :=
  mkParams false false None None None None None None None None (Some t) None None None
    None None None (Some doc) None None None.
Definition list_params (q : option string) (n : option Z) : ControlParams :=
  mkParams false false None None None None None None None None None q n None
    None None None None None None None.
Definition logs_params (channel : option LogChannel) (n : option Z) : ControlParams :=
  mkParams false false None None None None None None None None None None n channel
    None None None None None None None.
Definition subscription_update_params (wait if_needed : bool) (source : option string) : ControlParams :=
  mkParams wait if_needed None None None None None None None None None None None None
    source None None None None None None.
Definition subscription_query_params (source : string) : ControlParams :=
  mkParams false false None None None None None None None None None None None None
    (Some source) None None None None None None.
Definition subscription_mode_set_params (digest : string) (mode : SubscriptionMode)
    (source : option string) : ControlParams :=
  mkParams false false (Some digest) None None None None None None None None None None None
    source (Some mode) None None None None None.
Definition subscription_select_params (digest source : string) : ControlParams :=
  mkParams false false (Some digest) None None None None None None None None None None None
    (Some source) None None None None None None.
Definition subscription_set_enabled_params (digest source : string) (on : bool) : ControlParams :=
  mkParams false false (Some digest) None None None None None None None None None None None
    (Some source) None (Some on) None None None None.
Definition payload_params (ns : WebUiPayloadNamespace) (handle chunk : option string)
    (op : option WebUiPayloadOperation) : ControlParams :=
  mkParams false false None None None None None None None None None None None None
    None None None None (Some (mkPayload ns handle chunk op)) None None.
Definition payload_create (ns : WebUiPayloadNamespace) : ControlParams := payload_params ns None None None.
Definition payload_append (ns : WebUiPayloadNamespace) (handle chunk : string) : ControlParams :=
  payload_params ns (Some handle) (Some chunk) None.
Definition payload_commit (ns : WebUiPayloadNamespace) (handle : string) (op : WebUiPayloadOperation) :
    ControlParams := payload_params ns (Some handle) None (Some op).
Definition payload_remove (ns : WebUiPayloadNamespace) (handle : string) : ControlParams :=
  payload_params ns (Some handle) None None.
Definition lifecycle_params (wait : bool) (generation : option Z) (op : option string) : ControlParams :=
  mkParams wait false None None None None None None None None None None None None
    None None None None None generation op.

(** ** Values *)
Definition id_byte (b : Z) : bool := is_ascii_alphanumeric b || (b =? 45) || (b =? 95) || (b =? 46).
Definition RequestId_new (value : string) : Result ProtocolError string :=
  if (str_len value =? 0) || (MAX_REQUEST_ID_BYTES <? str_len value)
     || negb (forallb id_byte (bytes value))
  then Err InvalidRequestId else Ok value.

Definition valid_operation_id (value : string) : bool :=
  negb (str_len value =? 0) && (str_len value <=? 64) && forallb id_byte (bytes value).
(** A name of [prefix] and lower-case hexadecimal digits, [n] bytes in all. *)
Definition hex_name (n : Z) (prefix value : string) : bool :=
  (str_len value =? n) && has_prefix (bytes prefix) (bytes value)
  && forallb is_lower_hex (drop (String.length prefix) (bytes value)).
Definition valid_stable_node_id : string -> bool := hex_name 21 "nh1s-".
Definition valid_benchmark_operation_id : string -> bool := hex_name 35 "bench_".
Definition valid_payload_handle : string -> bool := hex_name 34 "p_".
Definition valid_source_id : string -> bool := hex_name 36 "src_".
Definition valid_digest (digest : string) : bool :=
  (str_len digest =? 64) && forallb is_lower_hex (bytes digest).
Definition valid_payload_chunk (value : string) : bool :=
  negb (str_len value =? 0) && (str_len value <=? 16 * 1024)
  && forallb (fun b => is_ascii_alphanumeric b || (b =? 43) || (b =? 47) || (b =? 61) || (b =? 45)
                       || (b =? 95)) (bytes value).
Definition bounded (value : string) (max : Z) : bool :=
  negb (str_len value =? 0) && (str_len value <=? max) && negb (has_control (bytes value)).
Definition application_target (t : ApplicationTarget) : bool :=
  match t with
  | TargetPackage user package => (user <=? 21474) && bounded package 255
  | TargetUid uid => 0 <? uid
  end.

(** [values.iter().enumerate().all(|(i, v)| !values\[..i\].contains(v))], with [before] the
    values already passed. *)
Fixpoint unrepeated (before values : list string) : bool :=
  match values with
  | [] => true
  | v :: rest => negb (existsb (String.eqb v) before) && unrepeated (before ++ [v]) rest
  end.
Definition bounded_unique (values : list string) (limit max_bytes : Z) : bool :=
  (len values <=? limit) && forallb (fun v => bounded v max_bytes) values && unrepeated [] values.
Definition known_protocol (v : string) : bool :=
  existsb (String.eqb v)
    ["vless"; "vmess"; "shadowsocks"; "trojan"; "hysteria2"; "tuic"; "anytls"; "http"; "socks"].
Definition valid_source_fields (mirrors include exclude protocols : list string) : bool :=
  (len mirrors <=? 4) && forallb (fun v => bounded v (16 * 1024)) mirrors
  && bounded_unique include 64 128 && bounded_unique exclude 64 128
  && (len protocols <=? 16) && forallb known_protocol protocols && unrepeated [] protocols.
Definition valid_source_settings (s : SubscriptionSourceSettings) : bool :=
  valid_source_fields (ss_mirrors s) (include_names (ss_filter s)) (exclude_names (ss_filter s))
    (filter_protocols (ss_filter s)).
Definition valid_source_patch (p : SubscriptionSourcePatch) : bool :=
  (is_some (sp_request_profile p) || is_some (sp_format_hint p) || is_some (sp_mirrors p)
   || is_some (sp_filter p))
  && valid_source_fields (default [] (sp_mirrors p)) (default [] (include_names <$> sp_filter p))
       (default [] (exclude_names <$> sp_filter p)) (default [] (filter_protocols <$> sp_filter p)).
Definition is_scalar (v : Json) : bool :=
  match v with JBool _ | JNumber _ | JString _ => true | _ => false end.
Definition mutation_valid (m : ConfigMutation) : bool :=
  match m with
  | SetServiceEnabled _ => true
  | AddSource name url settings =>
      bounded name 128 && (str_len url <=? 16 * 1024) && is_none_or valid_source_settings settings
  | UpdateSource id name url enabled settings =>
      valid_source_id id && (is_some name || is_some url || is_some enabled || is_some settings)
      && is_none_or (fun v => bounded v 128) name
      && is_none_or (fun v => str_len v <=? 16 * 1024) url
      && is_none_or valid_source_patch settings
  | RemoveSource id => valid_source_id id
  | MoveSource id before =>
      valid_source_id id && is_none_or (fun v => valid_source_id v && negb (String.eqb v id)) before
  | AddApplicationTarget t | RemoveApplicationTarget t => application_target t
  | ReplaceApplicationTargets ts => (len ts <=? 2000) && forallb application_target ts
  | SetApplicationPolicy mode ts =>
      (len ts <=? 2000) && forallb application_target ts
      && Bool.eqb (match mode with PolicyAll => true | _ => false end) (len ts =? 0)
  | AddRoutingCidr _ cidr | RemoveRoutingCidr _ cidr => bounded cidr 64
  | RemoveNode node => valid_stable_node_id node
  | SetScalarField field value => bounded field 128 && is_scalar value
  end.
Definition validate_mutation (m : ConfigMutation) : Result ProtocolError unit := refuse (negb (mutation_valid m)).

(** ** Requests *)
Record ControlRequest : Type := mkRequest {
  req_version : Z;
  req_id : string;
  method : ControlMethod;
  params : ControlParams;
}.
Definition ControlRequest_new (id : string) (m : ControlMethod) : ControlRequest :=
  mkRequest PROTOCOL_VERSION id m ControlParams_default.

Definition one_of (ms : list ControlMethod) (m : ControlMethod) : bool :=
  existsb (fun n => bool_decide (n = m)) ms.
Definition wait_allowed : ControlMethod -> bool :=
  one_of [ServiceStart; ServiceStop; ServiceRestart; CaptureEnable; CaptureDisable; CaptureStatus;
          CoreStart; CoreStop; CoreStatus; ResourceStatus; SubscriptionUpdate; RuleSetUpdate;
          ConfigReload].
Definition lifecycle_method : ControlMethod -> bool :=
  one_of [CaptureEnable; CaptureDisable; CaptureStatus; CoreStart; CoreStop; CoreStatus; ResourceStatus].
Definition mutating_lifecycle_method : ControlMethod -> bool :=
  one_of [CaptureEnable; CaptureDisable; CoreStart; CoreStop].
Definition document_method : ControlMethod -> bool :=
  one_of [ConfigValidate; ConfigApply; SubscriptionImportPreview; SubscriptionImportApply].
Definition subscription_transaction : ControlMethod -> bool :=
  one_of [SubscriptionModeSet; SubscriptionSelect; SubscriptionSetEnabled].
Definition target_method : ControlMethod -> bool :=
  one_of [NodeTestOne; NodeTestOperationGet; NodeSelectManual; NodeExport; NodeOverrideGet;
          NodeOverrideApply; NodeOverrideRemove; ConnectionClose].
Definition query_method : ControlMethod -> bool := one_of [NodeList; ConnectionsGet].
Definition payload_method : ControlMethod -> bool :=
  one_of [WebUiPayloadCreate; WebUiPayloadAppend; WebUiPayloadCommit; WebUiPayloadRemove].

(** [o.is_some() != b] *)
Definition misplaced {A} (o : option A) (b : bool) : bool := negb (Bool.eqb (is_some o) b).

Definition source_presence_valid (m : ControlMethod) (p : ControlParams) : bool :=
  match m with
  | SubscriptionUpdate => true
  | SubscriptionInspect | SubscriptionDiagnose | SubscriptionHistory
  | SubscriptionSelect | SubscriptionSetEnabled => is_some (source_id p)
  | SubscriptionModeSet =>
      match subscription_mode p with
      | Some ModeSingle => is_some (source_id p)
      | Some ModeMerge => negb (is_some (source_id p))
      | None => false
      end
  | _ => negb (is_some (source_id p))
  end.
(** [*kind as u8] *)
Definition kind_discriminant (k : EventKind) : Z :=
  match k with
  | EventLog.Config => 0 | Runtime => 1 | Subscription => 2 | Generation => 3 | Network => 4
  | Traffic => 5 | EventLog.SubscriptionMode => 6 | SubscriptionActiveSet => 7 | NodeSelection => 8
  | NodeActive => 9 | NodeTest => 10
  end.
Definition kinds_invalid (kinds : list EventKind) : bool :=
  (11 <? len kinds) || negb (len (sort_dedup (kind_discriminant <$> kinds)) =? len kinds).
Definition target_text_invalid (t : string) : bool :=
  (str_len t =? 0) || (128 <? str_len t) || has_control (bytes t).
Definition hello_invalid (p : ControlParams) : bool :=
  let version := default "" (manager_version p) in
  let min := default 0 (manager_protocol_min p) in
  let max := default 0 (manager_protocol_max p) in
  (str_len version =? 0) || (64 <? str_len version) || has_control (bytes version) || (min =? 0)
  || (max <? min).
Definition valid_payload_shape (m : ControlMethod) (p : ControlParams) : bool :=
  let handle := is_some_and valid_payload_handle (payload_handle p) in
  match m with
  | WebUiPayloadCreate =>
      negb (is_some (payload_handle p)) && negb (is_some (payload_chunk p))
      && negb (is_some (payload_operation p))
  | WebUiPayloadAppend =>
      handle && is_some_and valid_payload_chunk (payload_chunk p)
      && negb (is_some (payload_operation p))
  | WebUiPayloadCommit =>
      handle && negb (is_some (payload_chunk p)) && is_some (payload_operation p)
  | WebUiPayloadRemove =>
      handle && negb (is_some (payload_chunk p)) && negb (is_some (payload_operation p))
  | _ => negb (is_some (payload p))
  end.
Definition commit_pairs (ns : option WebUiPayloadNamespace) (op : option WebUiPayloadOperation) : bool :=
  match ns, op with
  | Some NsConfig, Some (OpConfigValidate | OpConfigApply | OpConfigMutate)
  | Some NsSubscription, Some (OpSubscriptionImportPreview | OpSubscriptionImportApply)
  | Some NsBackup, Some OpBackupRestore
  | Some NsNode, Some OpNodeOverrideApply => true
  | _, _ => false
  end.

Section request.
(** [serde_json::to_vec] of a value; [None]: an error. *)
Context (json_to_vec : Json -> option (list Z)).

Definition valid_node_override (o : NodeOverrideDocument) : bool :=
  negb (str_len (no_display_name o) =? 0) && (str_len (no_display_name o) <=? 128)
  && negb (has_control (bytes (no_display_name o))) && is_object (no_outbound o)
  && is_some_and (fun bs => len bs <=? 64 * 1024) (json_to_vec (no_outbound o)).

(** [ControlRequest::validate], one test after another. *)
Definition ControlRequest_validate (r : ControlRequest) : Result ProtocolError unit :=
  let m := method r in
  let p := params r in
  let isM n := bool_decide (m = n) in
  if negb (req_version r =? PROTOCOL_VERSION) then Err UnsupportedVersion else
  _ ← refuse ((wait p && negb (wait_allowed m)) || (if_needed p && negb (isM SubscriptionUpdate)));
  _ ← refuse ((is_some (expected_generation p) && negb (lifecycle_method m))
              || (is_some (operation_id p) && negb (mutating_lifecycle_method m))
              || bool_decide (expected_generation p = Some 0)
              || is_some_and (fun id => negb (valid_operation_id id)) (operation_id p));
  _ ← refuse (is_some_and (fun s => negb (valid_source_id s)) (source_id p));
  _ ← refuse (misplaced (document p) (document_method m)
              || misplaced (mutation p) (isM ConfigMutate)
              || misplaced (expected_config_digest p)
                   (document_method m || isM ConfigMutate || subscription_transaction m)
              || misplaced (candidate_digest p) (isM SubscriptionImportApply));
  _ ← refuse (is_some_and (fun d => negb (valid_digest d)) (expected_config_digest p));
  _ ← refuse (is_some_and (fun d => negb (is_object d)) (document p));
  _ ← refuse (is_some_and (fun d => negb (valid_digest d)) (candidate_digest p));
  _ ← match mutation p with Some mu => validate_mutation mu | None => Ok tt end;
  _ ← refuse (misplaced (subscription_mode p) (isM SubscriptionModeSet)
              || misplaced (enabled p) (isM SubscriptionSetEnabled)
              || negb (source_presence_valid m p)
              || is_some_and (fun s => negb (valid_source_id s)) (source_id p));
  _ ← refuse (misplaced (event_kinds p) (isM EventsSubscribe)
              || is_some_and kinds_invalid (event_kinds p));
  _ ← refuse (misplaced (target p) (target_method m) || is_some_and target_text_invalid (target p));
  _ ← refuse (isM NodeSelectManual && is_none_or (fun t => negb (valid_stable_node_id t)) (target p));
  _ ← refuse (one_of [NodeOverrideGet; NodeOverrideApply; NodeOverrideRemove] m
              && is_none_or (fun t => negb (valid_stable_node_id t)) (target p));
  _ ← refuse (misplaced (node_override p) (isM NodeOverrideApply)
              || is_some_and (fun o => negb (valid_node_override o)) (node_override p));
  _ ← refuse (isM NodeTestOperationGet
              && is_none_or (fun t => negb (valid_benchmark_operation_id t)) (target p));
  _ ← refuse ((negb (query_method m) && is_some (query p))
              || (negb (query_method m || isM LogsGet) && is_some (limit p))
              || is_some_and (fun q => (128 <? str_len q) || has_control (bytes q)) (query p)
              || is_some_and (fun n => negb (in_range 1 128 n)) (limit p));
  _ ← refuse (negb (isM LogsGet) && is_some (log_channel p));
  _ ← refuse (misplaced (manager_version p) (isM ProtocolHello)
              || misplaced (manager_protocol_min p) (isM ProtocolHello)
              || misplaced (manager_protocol_max p) (isM ProtocolHello));
  _ ← refuse (isM ProtocolHello && hello_invalid p);
  _ ← refuse (misplaced (payload p) (payload_method m));
  _ ← refuse (negb (valid_payload_shape m p));
  refuse (isM WebUiPayloadCommit && negb (commit_pairs (payload_namespace p) (payload_operation p))).

Definition with_params (r : ControlRequest) (p : ControlParams) : Result ProtocolError ControlRequest :=
  let r := mkRequest (req_version r) (req_id r) (method r) p in
  _ ← ControlRequest_validate r; Ok r.
End request.

(** ** Responses, stream frames and error codes *)
Fixpoint message_control (bs : list Z) : bool :=
  match bs with
  | [] => false
  | b :: rest =>
      (is_ascii_control b && negb (b =? 10) && negb (b =? 9))
      || ((b =? 194) && match rest with c :: _ => in_range 128 159 c | [] => false end)
      || message_control rest
  end.
Definition validate_message (message : string) : Result ProtocolError unit :=
  if (str_len message =? 0) || (MAX_MESSAGE_BYTES <? str_len message) || message_control (bytes message)
  then Err InvalidMessage else Ok tt.

Inductive ErrorDomain : Type :=
| DConfig | DSource | DSubscription | DCapability | DNetwork | DCore | DNode | DStats | DAuth.
Definition domain_str (d : ErrorDomain) : string :=
  match d with
  | DConfig => "CONFIG" | DSource => "SOURCE" | DSubscription => "SUB" | DCapability => "CAP"
  | DNetwork => "NET" | DCore => "CORE" | DNode => "NODE" | DStats => "STATS" | DAuth => "AUTH"
  end.
Definition detail_byte (b : Z) : bool := is_ascii_uppercase b || is_ascii_digit b || (b =? 45).
Definition ErrorCode_new (d : ErrorDomain) (detail : list Z) : Result ProtocolError string :=
  if (len detail =? 0) || (MAX_ERROR_DETAIL_BYTES <? len detail) || negb (forallb detail_byte detail)
     || has_prefix [45] detail || has_suffix [45] detail || contains_str [45; 45] detail
  then Err InvalidErrorCode
  else Ok (of_bytes (bytes "NH-" ++ bytes (domain_str d) ++ [45] ++ detail)).
Definition all_domains : list ErrorDomain :=
  [DConfig; DSource; DSubscription; DCapability; DNetwork; DCore; DNode; DStats; DAuth].
Definition ErrorCode_parse (value : string) : Result ProtocolError string :=
  rest ← ok_or (strip_prefix (bytes "NH-") (bytes value)) InvalidErrorCode;
  '(domain, detail) ← ok_or (split_once 45 rest) InvalidErrorCode;
  d ← ok_or (find (fun d => bool_decide (bytes (domain_str d) = domain)) all_domains) InvalidErrorCode;
  parsed ← ErrorCode_new d detail;
  if String.eqb parsed value then Ok parsed else Err InvalidErrorCode.

Record ControlError : Type := mkControlError {
  error_code : string;
  error_message : string;
  error_details : option Json;
}.
Definition ControlError_new (code message : string) : Result ProtocolError ControlError :=
  _ ← validate_message message; Ok (mkControlError code message None).
Definition ControlError_with_details (code message : string) (details : Json) :
    Result ProtocolError ControlError :=
  _ ← validate_message message; Ok (mkControlError code message (Some details)).

Fixpoint webui_value_ok (v : Json) (depth : Z) : bool :=
  (depth <=? 32)
  && match v with
     | JString s => str_len s <=? MAX_WEBUI_STRING_BYTES
     | JArray l => (len l <=? MAX_WEBUI_ARRAY_ITEMS) && forallb (fun x => webui_value_ok x (depth + 1)) l
     | JObject fields =>
         (len fields <=? 2048) && forallb (fun kv => webui_value_ok kv.2 (depth + 1)) fields
     | _ => true
     end.
Definition validate_webui_value (v : Json) (depth : Z) : Result ProtocolError unit :=
  refuse (negb (webui_value_ok v depth)).

Record ControlResponse : Type := mkResponse {
  res_version : Z;
  res_id : string;
  res_ok : bool;
  res_generation : option Z;
  res_result : option Json;
  res_error : option ControlError;
}.
Definition response_success (id : string) (generation : option Z) (result : Json) : ControlResponse :=
  mkResponse PROTOCOL_VERSION id true generation (Some result) None.
Definition response_failure (id : string) (generation : option Z) (e : ControlError) : ControlResponse :=
  mkResponse PROTOCOL_VERSION id false generation None (Some e).
Definition ControlResponse_validate (r : ControlResponse) : Result ProtocolError unit :=
  if negb (res_version r =? PROTOCOL_VERSION) then Err UnsupportedVersion
  else if bool_decide (res_generation r = Some 0) then Err InvalidEnvelope
  else
    match res_ok r, res_result r, res_error r with
    | true, Some result, None => validate_webui_value result 0
    | false, None, Some e => validate_message (error_message e)
    | _, _, _ => Err InvalidEnvelope
    end.

Inductive StreamKind : Type := StreamItem | StreamEnd | StreamError.
Record StreamFrame : Type := mkStream {
  st_version : Z;
  st_id : string;
  st_sequence : Z;
  st_kind : StreamKind;
  st_payload : option Json;
  st_error : option ControlError;
}.
Definition stream_item (id : string) (sequence : Z) (v : Json) : StreamFrame :=
  mkStream PROTOCOL_VERSION id sequence StreamItem (Some v) None.
Definition stream_end (id : string) (sequence : Z) : StreamFrame :=
  mkStream PROTOCOL_VERSION id sequence StreamEnd None None.
Definition stream_error (id : string) (sequence : Z) (e : ControlError) : StreamFrame :=
  mkStream PROTOCOL_VERSION id sequence StreamError None (Some e).
Definition StreamFrame_validate (f : StreamFrame) : Result ProtocolError unit :=
  if negb (st_version f =? PROTOCOL_VERSION) || (st_sequence f =? 0) then Err InvalidEnvelope
  else
    match st_kind f, st_payload f, st_error f with
    | StreamItem, Some v, None => validate_webui_value v 0
    | StreamEnd, None, None => Ok tt
    | StreamError, None, Some e => validate_message (error_message e)
    | _, _, _ => Err InvalidEnvelope
    end.

Inductive WebUiErrorKind : Type :=
| WkIncompatible | WkTimeout | WkConflict | WkInvalidPayload | WkLimitExceeded | WkUnavailable.
Definition webui_code (k : WebUiErrorKind) : string :=
  match k with
  | WkIncompatible => "NH-CORE-INCOMPATIBLE"
  | WkTimeout => "NH-CORE-TIMEOUT"
  | WkConflict => "NH-CONFIG-CONFLICT"
  | WkInvalidPayload => "NH-CONFIG-INVALID-PAYLOAD"
  | WkLimitExceeded => "NH-CORE-LIMIT"
  | WkUnavailable => "NH-CORE-UNAVAILABLE"
  end.

Inductive WireFrame : Type :=
| FrameRequest (r : ControlRequest)
| FrameResponse (r : ControlResponse)
| FrameStream (f : StreamFrame).
Definition WireFrame_validate (json_to_vec : Json -> option (list Z)) (f : WireFrame) :
    Result ProtocolError unit :=
  match f with
  | FrameRequest r => ControlRequest_validate json_to_vec r
  | FrameResponse r => ControlResponse_validate r
  | FrameStream s => StreamFrame_validate s
  end.

(** ** What every method needs *)
Module RequestSpec.
Inductive Param : Type :=
| Wait | IfNeeded | ExpectedDigest | CandidateDigest | Document | ManagerVersion | ProtocolMin
| ProtocolMax | Mutation | EventKinds | Target | Query | Limit | Channel | SourceId | Mode | Enabled
| NodeOverride | Payload | ExpectedGeneration | OperationId.
Definition all_params : list Param :=
  [Wait; IfNeeded; ExpectedDigest; CandidateDigest; Document; ManagerVersion; ProtocolMin;
   ProtocolMax; Mutation; EventKinds; Target; Query; Limit; Channel; SourceId; Mode; Enabled;
   NodeOverride; Payload; ExpectedGeneration; OperationId].
Inductive Need : Type := Required | Optional | Forbidden.

(** The table: what is not listed is forbidden.  Whether setting the mode names a source depends on
    the mode. *)
Definition needs (m : ControlMethod) (mode : option SubscriptionMode) (p : Param) : Need :=
  match m, p with
  | ProtocolHello, (ManagerVersion | ProtocolMin | ProtocolMax) => Required
  | (ServiceStart | ServiceStop | ServiceRestart | RuleSetUpdate | ConfigReload), Wait => Optional
  | (CaptureEnable | CaptureDisable | CoreStart | CoreStop), (Wait | ExpectedGeneration | OperationId) => Optional
  | (CaptureStatus | CoreStatus | ResourceStatus), (Wait | ExpectedGeneration) => Optional
  | SubscriptionUpdate, (Wait | IfNeeded | SourceId) => Optional
  | (SubscriptionInspect | SubscriptionDiagnose | SubscriptionHistory), SourceId => Required
  | (ConfigValidate | ConfigApply | SubscriptionImportPreview), (ExpectedDigest | Document) => Required
  | SubscriptionImportApply, (ExpectedDigest | Document | CandidateDigest) => Required
  | ConfigMutate, (ExpectedDigest | Mutation) => Required
  | SubscriptionModeSet, (ExpectedDigest | Mode) => Required
  | SubscriptionModeSet, SourceId =>
      match mode with Some ModeSingle => Required | Some ModeMerge => Forbidden | None => Optional end
  | SubscriptionSelect, (ExpectedDigest | SourceId) => Required
  | SubscriptionSetEnabled, (ExpectedDigest | SourceId | Enabled) => Required
  | EventsSubscribe, EventKinds => Required
  | (NodeTestOne | NodeTestOperationGet | NodeSelectManual | NodeExport | NodeOverrideGet
     | NodeOverrideRemove | ConnectionClose), Target => Required
  | NodeOverrideApply, (Target | NodeOverride) => Required
  | (NodeList | ConnectionsGet), (Query | Limit) => Optional
  | LogsGet, (Limit | Channel) => Optional
  | (WebUiPayloadCreate | WebUiPayloadAppend | WebUiPayloadCommit | WebUiPayloadRemove), Payload => Required
  | _, _ => Forbidden
  end.
Definition present (p : ControlParams) (x : Param) : bool :=
  match x with
  | Wait => wait p | IfNeeded => if_needed p
  | ExpectedDigest => is_some (expected_config_digest p)
  | CandidateDigest => is_some (candidate_digest p)
  | Document => is_some (document p)
  | ManagerVersion => is_some (manager_version p)
  | ProtocolMin => is_some (manager_protocol_min p)
  | ProtocolMax => is_some (manager_protocol_max p)
  | Mutation => is_some (mutation p)
  | EventKinds => is_some (event_kinds p)
  | Target => is_some (target p)
  | Query => is_some (query p)
  | Limit => is_some (limit p)
  | Channel => is_some (log_channel p)
  | SourceId => is_some (source_id p)
  | Mode => is_some (subscription_mode p)
  | Enabled => is_some (enabled p)
  | NodeOverride => is_some (node_override p)
  | Payload => is_some (payload p)
  | ExpectedGeneration => is_some (expected_generation p)
  | OperationId => is_some (operation_id p)
  end.
Definition meets (n : Need) (there : bool) : Prop :=
  match n with Required => there = true | Optional => True | Forbidden => there = false end.

(** What the values that are present must be. *)
Definition every {A} (P : A -> Prop) (o : option A) : Prop := forall a, o = Some a -> P a.
Definition target_ok (m : ControlMethod) (t : string) : Prop :=
  match m with
  | NodeSelectManual | NodeOverrideGet | NodeOverrideApply | NodeOverrideRemove =>
      valid_stable_node_id t = true
  | NodeTestOperationGet => valid_benchmark_operation_id t = true
  | _ => bounded t 128 = true
  end.
Definition payload_ok (m : ControlMethod) (l : WebUiPayloadParams) : Prop :=
  match m, pl_handle l, pl_chunk l, pl_operation l with
  | WebUiPayloadCreate, None, None, None => True
  | WebUiPayloadAppend, Some h, Some c, None =>
      valid_payload_handle h = true /\ valid_payload_chunk c = true
  | WebUiPayloadCommit, Some h, None, Some op =>
      valid_payload_handle h = true /\ commit_pairs (Some (pl_namespace l)) (Some op) = true
  | WebUiPayloadRemove, Some h, None, None => valid_payload_handle h = true
  | _, _, _, _ => False
  end.
Record values_ok (json_to_vec : Json -> option (list Z)) (m : ControlMethod) (p : ControlParams) : Prop := {
  v_digest : every (fun d => valid_digest d = true) (expected_config_digest p);
  v_candidate : every (fun d => valid_digest d = true) (candidate_digest p);
  v_document : every (fun d => is_object d = true) (document p);
  v_version : every (fun v => bounded v 64 = true) (manager_version p);
  v_range : forall lo hi, manager_protocol_min p = Some lo -> manager_protocol_max p = Some hi ->
              lo <> 0 /\ lo <= hi;
  v_mutation : every (fun mu => mutation_valid mu = true) (mutation p);
  v_kinds : every NoDup (event_kinds p);
  v_target : every (target_ok m) (target p);
  v_query : every (fun q => str_len q <= 128 /\ has_control (bytes q) = false) (query p);
  v_limit : every (fun n => 1 <= n <= 128) (limit p);
  v_source : every (fun s => valid_source_id s = true) (source_id p);
  v_override : every (fun o => valid_node_override json_to_vec o = true) (node_override p);
  v_payload : every (payload_ok m) (payload p);
  v_generation : every (fun g => g <> 0) (expected_generation p);
  v_operation : every (fun id => valid_operation_id id = true) (operation_id p);
}.
Definition valid (json_to_vec : Json -> option (list Z)) (r : ControlRequest) : Prop :=
  req_version r = PROTOCOL_VERSION
  /\ (forall x, meets (needs (method r) (subscription_mode (params r)) x) (present (params r) x))
  /\ values_ok json_to_vec (method r) (params r).
End RequestSpec.

(** ** The tests and the table agree *)
Section request_table.
Import RequestSpec.
Context (json_to_vec : Json -> option (list Z)).

Lemma refuse_then {A} b (k : Result ProtocolError A) a :
  (_ ← refuse b; k) = Ok a <-> b = false /\ k = Ok a.
Proof. destruct b; cbn; naive_solver. Qed.
Lemma refuse_Ok b : refuse b = Ok tt <-> b = false.
Proof. destruct b; cbn; naive_solver. Qed.
Lemma misplaced_false {A} (o : option A) b : misplaced o b = false <-> is_some o = b.
Proof. unfold misplaced. by rewrite negb_false_iff, eqb_true_iff. Qed.
Lemma refused_value {A} (f : A -> bool) (P : A -> Prop) o :
  (forall a, f a = false <-> P a) -> is_some_and f o = false <-> every P o.
Proof. intros Hf. unfold every. destruct o as [a|]; cbn; [|naive_solver]. rewrite Hf. naive_solver. Qed.
Lemma refused_negb {A} (f : A -> bool) o :
  is_some_and (fun a => negb (f a)) o = false <-> every (fun a => f a = true) o.
Proof. apply refused_value. intros a. apply negb_false_iff. Qed.
Lemma every_None {A} (P : A -> Prop) : every P None.
Proof. by intros a. Qed.
Lemma every_Some {A} (P : A -> Prop) a : every P (Some a) <-> P a.
Proof. unfold every. naive_solver. Qed.

Lemma mutation_then {A} o (k : Result ProtocolError A) a :
  (_ ← match o with Some mu => validate_mutation mu | None => Ok tt end; k) = Ok a
  <-> every (fun mu => mutation_valid mu = true) o /\ k = Ok a.
Proof.
  destruct o as [mu|]; [unfold validate_mutation; by rewrite refuse_then, negb_false_iff, every_Some|].
  cbn. pose proof (every_None (fun mu => mutation_valid mu = true)). tauto.
Qed.

(** The test the code makes of the presence [b] of a parameter. *)
Definition admits (m : ControlMethod) (mode : option SubscriptionMode) (x : Param) (b : bool) : bool :=
  let only n := Bool.eqb b (bool_decide (m = n)) in
  match x with
  | Wait => negb (b && negb (wait_allowed m))
  | IfNeeded => negb (b && negb (bool_decide (m = SubscriptionUpdate)))
  | ExpectedDigest =>
      Bool.eqb b (document_method m || bool_decide (m = ConfigMutate) || subscription_transaction m)
  | CandidateDigest => only SubscriptionImportApply
  | Document => Bool.eqb b (document_method m)
  | ManagerVersion | ProtocolMin | ProtocolMax => only ProtocolHello
  | Mutation => only ConfigMutate
  | EventKinds => only EventsSubscribe
  | Target => Bool.eqb b (target_method m)
  | Query => negb (negb (query_method m) && b)
  | Limit => negb (negb (query_method m || bool_decide (m = LogsGet)) && b)
  | Channel => negb (negb (bool_decide (m = LogsGet)) && b)
  | SourceId =>
      match m with
      | SubscriptionUpdate => true
      | SubscriptionModeSet => match mode with Some ModeSingle => b | Some ModeMerge => negb b | None => true end
      | SubscriptionInspect | SubscriptionDiagnose | SubscriptionHistory | SubscriptionSelect
      | SubscriptionSetEnabled => b
      | _ => negb b
      end
  | Mode => only SubscriptionModeSet
  | Enabled => only SubscriptionSetEnabled
  | NodeOverride => only NodeOverrideApply
  | Payload => Bool.eqb b (payload_method m)
  | ExpectedGeneration => negb (b && negb (lifecycle_method m))
  | OperationId => negb (b && negb (mutating_lifecycle_method m))
  end.
Definition meetsb (n : Need) (there : bool) : bool :=
  match n with Required => there | Optional => true | Forbidden => negb there end.
Lemma table_column m mode x b : meetsb (needs m mode x) b = admits m mode x b.
Proof. destruct x, m, b; try reflexivity; by destruct mode as [[]|]. Qed.
Lemma table_meets m mode x b : meets (needs m mode x) b <-> admits m mode x b = true.
Proof. rewrite <- table_column. destruct (needs m mode x), b; cbn; intuition congruence. Qed.

Lemma sort_dedup_NoDup {K} `{Ord K} (l : list K) : length (sort_dedup l) = length l <-> NoDup l.
Proof.
  pose proof (StronglySorted_lt_NoDup _ (sort_dedup_StronglySorted l)) as Hn. split.
  - intros Hl. apply NoDup_ListNoDup. eapply List.NoDup_incl_NoDup with (l := sort_dedup l).
    + by apply NoDup_ListNoDup.
    + by rewrite Hl.
    + intros x Hx%list_elem_of_In. apply list_elem_of_In. by apply (sort_dedup_elem_of l).
  - intros Hd. apply Permutation_length, NoDup_Permutation; [done..|]. apply sort_dedup_elem_of.
Qed.
#[local] Instance kind_discriminant_inj : Inj (=) (=) kind_discriminant.
Proof. intros [] []; cbn; congruence. Qed.
Lemma kinds_short (kinds : list EventKind) : NoDup kinds -> (length kinds <= 11)%nat.
Proof.
  intros Hd. transitivity (length (kind_discriminant <$> kinds)); [by rewrite length_fmap|].
  change 11%nat with (length [0; 1; 2; 3; 4; 5; 6; 7; 8; 9; 10]).
  apply List.NoDup_incl_length.
  - apply NoDup_ListNoDup. by apply NoDup_fmap_2; [apply _|].
  - intros z (k & -> & _)%list_elem_of_In%list_elem_of_fmap. destruct k; cbn; tauto.
Qed.
Lemma kinds_invalid_false kinds : kinds_invalid kinds = false <-> NoDup kinds.
Proof.
  unfold kinds_invalid. rewrite orb_false_iff, negb_false_iff, Z.eqb_eq, Z.ltb_ge. unfold len.
  rewrite Nat2Z.inj_iff. pose proof (sort_dedup_NoDup (kind_discriminant <$> kinds)) as Hs.
  rewrite length_fmap, (NoDup_fmap kind_discriminant) in Hs. rewrite Hs. split; [tauto|]. intros Hd. split; [|done].
  pose proof (kinds_short _ Hd). lia.
Qed.
Lemma target_text_ok t : target_text_invalid t = false <-> bounded t 128 = true.
Proof.
  unfold target_text_invalid, bounded.
  rewrite !orb_false_iff, !andb_true_iff, !negb_true_iff, Z.ltb_ge, Z.leb_le. tauto.
Qed.

Lemma plain_no_control bs : Forall (fun b => 32 <= b < 127) bs -> has_control bs = false.
Proof.
  induction 1 as [|b bs Hb _ IH]; [done|]. cbn [has_control]. unfold is_ascii_control.
  rewrite IH, (proj2 (Z.ltb_ge _ _)), (proj2 (Z.eqb_neq _ _)), (proj2 (Z.eqb_neq b 194)) by lia. done.
Qed.
Lemma lower_hex_plain b : is_lower_hex b = true -> 32 <= b < 127.
Proof. unfold is_lower_hex, is_ascii_digit, in_range. rewrite orb_true_iff, !andb_true_iff, !Z.leb_le. lia. Qed.
Lemma hex_name_bounded n prefix v :
  0 < n <= 128 -> Forall (fun b => 32 <= b < 127) (bytes prefix) -> hex_name n prefix v = true ->
  bounded v 128 = true.
Proof.
  unfold hex_name, bounded. intros Hn Hp [[Hl%Z.eqb_eq Hs]%andb_true_iff Hh]%andb_true_iff.
  rewrite !andb_true_iff, !negb_true_iff, Z.eqb_neq, Z.leb_le. split_and!; [lia..|].
  apply plain_no_control. unfold has_prefix in Hs.
  destruct (strip_prefix (bytes prefix) (bytes v)) as [r|] eqn:Er; [|done].
  apply strip_prefix_Some in Er. rewrite Er. apply Forall_app. split; [done|].
  rewrite Er in Hh. pose proof (bytes_length prefix) as Hb. unfold len, str_len in Hb.
  rewrite drop_app_length' in Hh by lia. apply Forall_forall. intros b Hb'%list_elem_of_In.
  apply lower_hex_plain. rewrite forallb_forall in Hh. by apply Hh.
Qed.
Lemma node_id_bounded v : valid_stable_node_id v = true -> bounded v 128 = true.
Proof. apply hex_name_bounded; [lia|]. repeat constructor; done. Qed.
Lemma bench_id_bounded v : valid_benchmark_operation_id v = true -> bounded v 128 = true.
Proof. apply hex_name_bounded; [lia|]. repeat constructor; done. Qed.

Ltac decide_methods :=
  unfold one_of; cbn [existsb];
  repeat match goal with
    |- context [bool_decide (?a = ?b)] =>
      let c := eval vm_compute in (bool_decide (a = b)) in change (bool_decide (a = b)) with c
    end; cbn [andb orb negb].

(** The parameters that more than one test looks at. *)
Lemma target_checked m (p : ControlParams) :
  is_some (target p) = target_method m ->
  is_some_and target_text_invalid (target p) = false
  /\ bool_decide (m = NodeSelectManual)
     && is_none_or (fun t => negb (valid_stable_node_id t)) (target p) = false
  /\ one_of [NodeOverrideGet; NodeOverrideApply; NodeOverrideRemove] m
     && is_none_or (fun t => negb (valid_stable_node_id t)) (target p) = false
  /\ bool_decide (m = NodeTestOperationGet)
     && is_none_or (fun t => negb (valid_benchmark_operation_id t)) (target p) = false
  <-> every (target_ok m) (target p).
Proof.
  destruct (target p) as [t|]; cbn [is_some is_some_and is_none_or]; intros Hm.
  - rewrite every_Some, target_text_ok. pose proof (node_id_bounded t). pose proof (bench_id_bounded t).
    destruct m; try discriminate Hm; cbn [target_ok]; decide_methods; rewrite ?negb_false_iff; tauto.
  - split; [intros _; apply every_None|intros _]. destruct m; try discriminate Hm; repeat split.
Qed.

Lemma source_checked m (p : ControlParams) :
  is_some (subscription_mode p) = bool_decide (m = SubscriptionModeSet) ->
  source_presence_valid m p = true <-> admits m (subscription_mode p) SourceId (is_some (source_id p)) = true.
Proof.
  intros Hmode. destruct (subscription_mode p) as [mode|] eqn:E.
  - assert (m = SubscriptionModeSet) as -> by (by destruct (bool_decide_eq_true (m = SubscriptionModeSet)); eauto).
    cbn. rewrite E. by destruct mode.
  - destruct m; done.
Qed.

Lemma hello_checked m (p : ControlParams) :
  is_some (manager_version p) = bool_decide (m = ProtocolHello) ->
  is_some (manager_protocol_min p) = bool_decide (m = ProtocolHello) ->
  is_some (manager_protocol_max p) = bool_decide (m = ProtocolHello) ->
  bool_decide (m = ProtocolHello) && hello_invalid p = false
  <-> every (fun v => bounded v 64 = true) (manager_version p)
      /\ forall lo hi, manager_protocol_min p = Some lo -> manager_protocol_max p = Some hi ->
           lo <> 0 /\ lo <= hi.
Proof.
  intros Hv Hlo Hhi. unfold hello_invalid.
  destruct (manager_version p) as [v|], (manager_protocol_min p) as [lo|],
    (manager_protocol_max p) as [hi|]; cbn [is_some] in *; try congruence; rewrite <- Hv; cbn [default].
  - rewrite every_Some. cbn [andb]. unfold bounded, id.
    rewrite !orb_false_iff, !andb_true_iff, !negb_true_iff, !Z.eqb_neq, !Z.ltb_ge, Z.leb_le.
    split; [intros [[[[? ?] ?] ?] ?]; split_and!; try done; by intros ?? [= <-] [= <-]|].
    intros [[[? ?] ?] Hr]. destruct (Hr lo hi); tauto.
  - split; [|done]. intros _. split; [apply every_None|done].
Qed.

Lemma payload_checked m (p : ControlParams) :
  is_some (payload p) = payload_method m ->
  valid_payload_shape m p = true
  /\ bool_decide (m = WebUiPayloadCommit)
     && negb (commit_pairs (payload_namespace p) (payload_operation p)) = false
  <-> every (payload_ok m) (payload p).
Proof.
  unfold valid_payload_shape, payload_namespace, payload_handle, payload_chunk, payload_operation.
  destruct (payload p) as [[ns h c op]|]; intros Hm.
  - rewrite every_Some. unfold payload_ok.
    destruct m; try discriminate Hm; decide_methods; destruct h, c, op; cbn -[commit_pairs];
      rewrite ?andb_true_iff, ?negb_false_iff; intuition congruence.
  - split; [intros _; apply every_None|intros _]. destruct m; try discriminate Hm; repeat split.
Qed.

Lemma all_needs m mode (p : ControlParams) :
  (forall x, meets (needs m mode x) (present p x)) <-> Forall (fun x => admits m mode x (present p x) = true) all_params.
Proof.
  setoid_rewrite table_meets. rewrite Forall_forall. split; [auto|]. intros Hall x. apply Hall.
  apply list_elem_of_In. destruct x; cbn; tauto.
Qed.
Lemma needs_tests m mode (p : ControlParams) :
  Forall (fun x => admits m mode x (present p x) = true) all_params
  <-> (wait p && negb (wait_allowed m) = false
      /\ if_needed p && negb (bool_decide (m = SubscriptionUpdate)) = false
      /\ is_some (expected_config_digest p)
         = document_method m || bool_decide (m = ConfigMutate) || subscription_transaction m
      /\ is_some (candidate_digest p) = bool_decide (m = SubscriptionImportApply)
      /\ is_some (document p) = document_method m
      /\ is_some (manager_version p) = bool_decide (m = ProtocolHello)
      /\ is_some (manager_protocol_min p) = bool_decide (m = ProtocolHello)
      /\ is_some (manager_protocol_max p) = bool_decide (m = ProtocolHello)
      /\ is_some (mutation p) = bool_decide (m = ConfigMutate)
      /\ is_some (event_kinds p) = bool_decide (m = EventsSubscribe)
      /\ is_some (target p) = target_method m)
  /\ (negb (query_method m) && is_some (query p) = false
      /\ negb (query_method m || bool_decide (m = LogsGet)) && is_some (limit p) = false
      /\ negb (bool_decide (m = LogsGet)) && is_some (log_channel p) = false
      /\ admits m mode SourceId (is_some (source_id p)) = true
      /\ is_some (subscription_mode p) = bool_decide (m = SubscriptionModeSet)
      /\ is_some (enabled p) = bool_decide (m = SubscriptionSetEnabled)
      /\ is_some (node_override p) = bool_decide (m = NodeOverrideApply)
      /\ is_some (payload p) = payload_method m
      /\ is_some (expected_generation p) && negb (lifecycle_method m) = false
      /\ is_some (operation_id p) && negb (mutating_lifecycle_method m) = false).
Proof.
  unfold all_params. rewrite !Forall_cons, Forall_nil. cbn [present].
  unfold admits at 1 2 3 4 5 6 7 8 9 10 11 12 13 14 16 17 18 19 20 21.
  rewrite !negb_true_iff, !eqb_true_iff. tauto.
Qed.
Lemma values_tests m (p : ControlParams) :
  is_some (target p) = target_method m ->
  is_some (manager_version p) = bool_decide (m = ProtocolHello) ->
  is_some (manager_protocol_min p) = bool_decide (m = ProtocolHello) ->
  is_some (manager_protocol_max p) = bool_decide (m = ProtocolHello) ->
  is_some (payload p) = payload_method m ->
  values_ok json_to_vec m p <->
  (is_some_and (fun d => negb (valid_digest d)) (expected_config_digest p) = false
   /\ is_some_and (fun d => negb (valid_digest d)) (candidate_digest p) = false
   /\ is_some_and (fun d => negb (is_object d)) (document p) = false
   /\ bool_decide (m = ProtocolHello) && hello_invalid p = false
   /\ every (fun mu => mutation_valid mu = true) (mutation p)
   /\ is_some_and kinds_invalid (event_kinds p) = false
   /\ (is_some_and target_text_invalid (target p) = false
       /\ bool_decide (m = NodeSelectManual)
          && is_none_or (fun t => negb (valid_stable_node_id t)) (target p) = false
       /\ one_of [NodeOverrideGet; NodeOverrideApply; NodeOverrideRemove] m
          && is_none_or (fun t => negb (valid_stable_node_id t)) (target p) = false
       /\ bool_decide (m = NodeTestOperationGet)
          && is_none_or (fun t => negb (valid_benchmark_operation_id t)) (target p) = false)
   /\ is_some_and (fun q => (128 <? str_len q) || has_control (bytes q)) (query p) = false
   /\ is_some_and (fun n => negb (in_range 1 128 n)) (limit p) = false
   /\ is_some_and (fun s => negb (valid_source_id s)) (source_id p) = false
   /\ is_some_and (fun o => negb (valid_node_override json_to_vec o)) (node_override p) = false
   /\ (valid_payload_shape m p = true
       /\ bool_decide (m = WebUiPayloadCommit)
          && negb (commit_pairs (payload_namespace p) (payload_operation p)) = false)
   /\ bool_decide (expected_generation p = Some 0) = false
   /\ is_some_and (fun id => negb (valid_operation_id id)) (operation_id p) = false).
Proof.
  intros Ht Hv Hlo Hhi Hp.
  rewrite target_checked, hello_checked, payload_checked, !refused_negb by done.
  rewrite (refused_value kinds_invalid NoDup) by apply kinds_invalid_false.
  rewrite (refused_value _ (fun q => str_len q <= 128 /\ has_control (bytes q) = false))
    by (intros q; by rewrite orb_false_iff, Z.ltb_ge).
  assert (every (fun n => in_range 1 128 n = true) (limit p) <-> every (fun n => 1 <= n <= 128) (limit p)) as ->
    by (unfold every, in_range; by setoid_rewrite andb_true_iff; setoid_rewrite Z.leb_le).
  rewrite bool_decide_eq_false.
  assert (expected_generation p <> Some 0 <-> every (fun g => g <> 0) (expected_generation p)) as ->
    by (unfold every; naive_solver).
  split; [intros []; tauto|]. intros; constructor; tauto.
Qed.
End request_table.

Lemma request_checked json_to_vec r :
  ControlRequest_validate json_to_vec r = Ok tt <-> RequestSpec.valid json_to_vec r.
Proof.
  unfold RequestSpec.valid. rewrite all_needs, needs_tests. unfold ControlRequest_validate.
  destruct (Z.eqb_spec (req_version r) PROTOCOL_VERSION) as [Hv|Hv]; cbn [negb]; [|split; [done|tauto]].
  rewrite !refuse_then, mutation_then, !refuse_then, refuse_Ok.
  rewrite !orb_false_iff, !misplaced_false, !negb_false_iff.
  pose proof (source_checked (method r) (params r)) as Hs.
  pose proof (values_tests json_to_vec (method r) (params r)) as Ht. tauto.
Qed.

(** C19: a request is accepted exactly when it is of this protocol version and agrees
    with the table: every parameter its method requires is there (for a change of the
    subscription mode the source is required with the single mode and forbidden with the
    merging one), none is there that the method does not know, and every value that is
    there is well formed for the method. *)
Theorem request_valid_exact json_to_vec r :
  ControlRequest_validate json_to_vec r = Ok tt <-> RequestSpec.valid json_to_vec r.
Proof. apply request_checked. Qed.

(** ** Error codes *)
Lemma domain_no_dash d : 45 ∉ bytes (domain_str d).
Proof. destruct d; apply (bool_decide_unpack _); vm_compute; exact I. Qed.
Lemma find_domain d : find (fun d' => bool_decide (bytes (domain_str d') = bytes (domain_str d))) all_domains = Some d.
Proof. by destruct d. Qed.
Lemma detail_bytes detail : forallb detail_byte detail = true -> Forall (fun b => 0 <= b < 256) detail.
Proof.
  rewrite forallb_forall, Forall_forall. intros Hd b Hb%list_elem_of_In%Hd. revert Hb.
  unfold detail_byte, is_ascii_uppercase, is_ascii_digit, in_range.
  rewrite !orb_true_iff, !andb_true_iff, !Z.leb_le, Z.eqb_eq. lia.
Qed.

(** A code that was built is read back as itself, and a text that is read as a code is that
    code. *)
Lemma error_code_round_trip d detail code :
  ErrorCode_new d detail = Ok code -> ErrorCode_parse code = Ok code.
Proof.
  intros Hn. pose proof Hn as Hcode. unfold ErrorCode_new in Hn.
  destruct (forallb detail_byte detail) eqn:Hd;
    [|by rewrite orb_true_r in Hn].
  split_if_in Hn E; [done|].
  assert (code = of_bytes (bytes "NH-" ++ bytes (domain_str d) ++ [45] ++ detail)) as -> by congruence.
  unfold ErrorCode_parse. rewrite bytes_of_bytes.
  2: { repeat apply Forall_app_2; try apply bytes_range; [by repeat constructor|by apply detail_bytes]. }
  assert (strip_prefix (bytes "NH-") (bytes "NH-" ++ bytes (domain_str d) ++ [45] ++ detail)
          = Some (bytes (domain_str d) ++ [45] ++ detail)) as -> by (by apply strip_prefix_Some).
  cbn [ok_or mbind Result_bind].
  assert (split_once 45 (bytes (domain_str d) ++ [45] ++ detail) = Some (bytes (domain_str d), detail)) as ->
    by (apply split_once_Some; split; [done|apply domain_no_dash]).
  cbn [ok_or mbind Result_bind]. rewrite find_domain. cbn [ok_or mbind Result_bind]. rewrite Hcode.
  cbn [mbind Result_bind]. by rewrite String.eqb_refl.
Qed.
Lemma error_code_parsed value code : ErrorCode_parse value = Ok code -> code = value.
Proof.
  unfold ErrorCode_parse. intros H.
  destruct (strip_prefix _ _) as [rest|]; [|done]. cbn [ok_or mbind Result_bind] in H. destruct (split_once _ _) as [[dom det]|]; [|done].
  cbn [ok_or mbind Result_bind] in H. destruct (find _ _) as [d|]; [|done]. cbn [ok_or mbind Result_bind] in H. destruct (ErrorCode_new d det) as [c|]; [|done].
  cbn [ok_or mbind Result_bind] in H. destruct (String.eqb_spec c value); [|done]. by injection H as <-.
Qed.
(** The codes of the web interface are codes: [error_code] does not panic. *)
Lemma webui_codes_parse k : ErrorCode_parse (webui_code k) = Ok (webui_code k).
Proof. by destruct k. Qed.
