(* ===== verification/ProtocolFrame.v ===== *)
(** * ProtocolFrame: frames on the wire and the control server

    The frame codec of [nethop-protocol/src/lib.rs] ([FrameCodec]: a length of four bytes
    and a JSON document), the server side of a connection ([nethopd/src/uds.rs]:
    [RootPeerAuthorizer], [serve_stream]) and the client side ([nethopctl/src/lib.rs]:
    [exchange], [execute]).  serde and serde_json are the class [WireSerde] with the law
    [WireLaws]; the socket is the bytes it has received and sent. *)

From S2P Require Import Prelude Text Json Source EventLog Protocol.

Local Open Scope Z_scope.

(** ** serde *)
Class WireSerde : Type := {
  json_to_vec : Json -> option (list Z);
  frame_to_vec : WireFrame -> option (list Z);
  json_from_slice : list Z -> option Json;
  frame_from_value : Json -> option WireFrame;
}.

(** [envelope.get("version").and_then(Value::as_u64)] *)
Definition envelope_version (v : Json) : option Z :=
  match v with
  | JObject fields =>
      match json_get "version" fields with Some (JNumber literal) => parse_u64 (bytes literal) | _ => None end
  | _ => None
  end.
Definition frame_version (f : WireFrame) : Z :=
  match f with
  | FrameRequest r => req_version r | FrameResponse r => res_version r | FrameStream s => st_version s
  end.

(** The documents of a frame survive the trip when their numbers are integers; a [null] in
    the place of an optional document is read back as its absence. *)
Definition integer_literal (s : string) : bool :=
  let bs := bytes s in
  let digits := match bs with 45 :: rest => rest | _ => bs end in
  negb (len digits =? 0) && forallb is_ascii_digit digits.
Fixpoint integral (v : Json) : bool :=
  match v with
  | JNumber literal => integer_literal literal
  | JArray l => forallb integral l
  | JObject fields => forallb (fun kv => integral kv.2) fields
  | _ => true
  end.
Definition kept (o : option Json) : bool :=
  match o with None => true | Some JNull => false | Some v => integral v end.
Definition exact_frame (f : WireFrame) : bool :=
  match f with
  | FrameRequest r =>
      kept (document (params r)) && kept (no_outbound <$> node_override (params r))
      && match mutation (params r) with Some (SetScalarField _ v) => integral v | _ => true end
  | FrameResponse r => kept (res_result r) && kept (res_error r ≫= error_details)
  | FrameStream s => kept (st_payload s) && kept (st_error s ≫= error_details)
  end.

Class WireLaws `{WireSerde} : Prop := wire_law : forall f bs,
  frame_to_vec f = Some bs ->
  valid_utf8 bs = true
  /\ exists v, json_from_slice bs = Some v /\ envelope_version v = Some (frame_version f)
     /\ (exact_frame f = true -> frame_from_value v = Some f).

(** ** [FrameCodec] *)
Definition from_be_bytes32 (a b c d : Z) : Z := a * 2 ^ 24 + b * 2 ^ 16 + c * 2 ^ 8 + d.

Section codec.
Context `{!WireSerde}.

Definition encode (f : WireFrame) : Result ProtocolError (list Z) :=
  _ ← WireFrame_validate json_to_vec f;
  payload ← ok_or (frame_to_vec f) InvalidEnvelope;
  if (len payload =? 0) || (MAX_FRAME_BYTES <? len payload) then Err FrameTooLarge
  else Ok (to_be_bytes32 (len payload) ++ payload).

Definition decode_payload (payload : list Z) : Result ProtocolError WireFrame :=
  if negb (valid_utf8 payload) then Err InvalidUtf8
  else
    envelope ← ok_or (json_from_slice payload) InvalidEnvelope;
    version ← ok_or (envelope_version envelope) InvalidEnvelope;
    if negb (version =? PROTOCOL_VERSION) then Err UnsupportedVersion
    else
      f ← ok_or (frame_from_value envelope) InvalidEnvelope;
      _ ← WireFrame_validate json_to_vec f;
      Ok f.

Definition decode (encoded : list Z) : Result ProtocolError WireFrame :=
  match encoded with
  | a :: b :: c :: d :: payload =>
      let length := from_be_bytes32 a b c d in
      if (length =? 0) || (MAX_FRAME_BYTES <? length) then Err FrameTooLarge
      else if negb (len encoded =? 4 + length) then Err InvalidFrameLength
      else decode_payload payload
  | _ => Err InvalidFrameLength
  end.

(** [Read::read_exact] on the bytes still to come. *)
Definition read_exact (n : Z) : Mut (list Z) ProtocolError (list Z) := fun input =>
  if len input <? n then (Err PIo, []) else (Ok (take (Z.to_nat n) input), drop (Z.to_nat n) input).
Definition read_from : Mut (list Z) ProtocolError WireFrame :=
  prefix ← read_exact 4;
  match prefix with
  | [a; b; c; d] =>
      let length := from_be_bytes32 a b c d in
      if (length =? 0) || (MAX_FRAME_BYTES <? length) then mut_fail FrameTooLarge
      else payload ← read_exact length; mut_lift (decode_payload payload)
  | _ => mut_fail PIo
  end.
End codec.

(** ** The server *)
Record PeerCredentials : Type := mkPeer { peer_pid : option Z; peer_uid : Z; peer_gid : Z }.
Inductive ControlServerError : Type :=
| SrvInvalidLimits | InvalidSocketPath | SocketPathOccupied | BindFailed | AcceptFailed
| PeerCredentialFailed | AuthorizationDenied | InvalidRequest | ResponseFailed.
Definition authorize (peer : PeerCredentials) : Result ControlServerError unit :=
  if peer_uid peer =? 0 then Ok tt else Err AuthorizationDenied.

Definition DEFAULT_IO_TIMEOUT : Z := from_secs 10.
Definition MAX_IO_TIMEOUT : Z := from_secs 30.
Definition ControlServerLimits_new (io_timeout : Z) : Result ControlServerError Z :=
  if (io_timeout =? 0) || (MAX_IO_TIMEOUT <? io_timeout) then Err SrvInvalidLimits else Ok io_timeout.

(** A connection: whether the timeouts could be set, what the kernel says of the peer, the
    bytes received and sent, after how many more bytes writing fails ([None]: it does not),
    and whether a thread can be started. *)
Record Connection : Type := mkConnection {
  cn_configured : bool;
  cn_peer : option PeerCredentials;
  cn_incoming : list Z;
  cn_outgoing : list Z;
  cn_write_fault : option nat;
  cn_thread : bool;
}.
Definition write_all (bs : list Z) : Mut Connection ProtocolError unit := fun c =>
  let sent out fault :=
    mkConnection (cn_configured c) (cn_peer c) (cn_incoming c) (cn_outgoing c ++ out) fault (cn_thread c) in
  match cn_write_fault c with
  | Some k =>
      if (k <? length bs)%nat then (Err PIo, sent (take k bs) (Some O))
      else (Ok tt, sent bs (Some (k - length bs)%nat))
  | None => (Ok tt, sent bs None)
  end.
Definition receive (m : Mut (list Z) ProtocolError WireFrame) : Mut Connection ProtocolError WireFrame :=
  fun c =>
    let (r, rest) := m (cn_incoming c) in
    (r, mkConnection (cn_configured c) (cn_peer c) rest (cn_outgoing c) (cn_write_fault c) (cn_thread c)).

(** [ControlRequestHandler] on a state [W]; [S] is an event subscription. *)
Class ControlRequestHandler (W S : Type) : Type := {
  handle : ControlRequest -> W -> ControlResponse * W;
  subscribe_events : ControlRequest -> W -> option S * W;
}.

Section server.
Context `{!WireSerde} {W S : Type} `{!ControlRequestHandler W S}.

Definition write_to (f : WireFrame) : Mut Connection ProtocolError unit := fun c =>
  match encode f with Ok bs => write_all bs c | Err e => (Err e, c) end.

(** What the event thread does with the frames its subscription gives it. *)
Fixpoint pump (frames : list StreamFrame) (c : Connection) : Connection :=
  match frames with
  | [] => c
  | f :: rest =>
      match write_to (FrameStream f) c with
      | (Ok _, c') => pump rest c'
      | (Err _, c') => c'
      end
  end.

(** The result, the handler, the connection and the subscription that moved to a thread. *)
Definition serve_stream (c : Connection) (h : W) :
    Result ControlServerError PeerCredentials * W * Connection * option S :=
  if negb (cn_configured c) then (Err AcceptFailed, h, c, None)
  else
    match cn_peer c with
    | None => (Err PeerCredentialFailed, h, c, None)
    | Some peer =>
        match authorize peer with
        | Err e => (Err e, h, c, None)
        | Ok _ =>
            match receive read_from c with
            | (Ok (FrameRequest request), c) =>
                let '(subscription, h) :=
                  if bool_decide (method request = EventsSubscribe) then subscribe_events request h
                  else (None, h) in
                match subscription with
                | Some s =>
                    if cn_thread c then (Ok peer, h, c, Some s) else (Err ResponseFailed, h, c, None)
                | None =>
                    let (response, h) := handle (S := S) request h in
                    match write_to (FrameResponse response) c with
                    | (Ok _, c) => (Ok peer, h, c, None)
                    | (Err _, c) => (Err ResponseFailed, h, c, None)
                    end
                end
            | (_, c) => (Err InvalidRequest, h, c, None)
            end
        end
    end.
End server.

(** ** The client *)
Inductive CliError : Type :=
| Usage | ConnectionFailed | RequestFailed | InvalidResponse | ResponseRequestMismatch
| InputRequired | InvalidInput | UnsupportedPlatform.

Section client.
Context `{!WireSerde} {T : Type}.
(** The daemon's end of the socket: what it answers to the bytes it is sent. *)
Context (answer : list Z -> T -> list Z * T).

(** [UnixControlTransport::exchange] over a connection that was opened. *)
Definition exchange (request : ControlRequest) (t : T) : Result CliError ControlResponse * T :=
  match encode (FrameRequest request) with
  | Err _ => (Err RequestFailed, t)
  | Ok bs =>
      let (reply, t) := answer bs t in
      match (read_from reply).1 with
      | Ok (FrameResponse response) => (Ok response, t)
      | _ => (Err InvalidResponse, t)
      end
  end.
(** [execute] and [execute_invocation] once the request is built. *)
Definition execute_request (request : ControlRequest) (t : T) : Result CliError ControlResponse * T :=
  match exchange request t with
  | (Ok response, t) =>
      if String.eqb (res_id response) (req_id request) then (Ok response, t)
      else (Err ResponseRequestMismatch, t)
  | (Err e, t) => (Err e, t)
  end.
End client.

(** ** Lemmas *)
Lemma from_to_be_bytes n :
  is_uint 32 n ->
  exists a b c d, to_be_bytes32 n = [a; b; c; d] /\ from_be_bytes32 a b c d = n.
Proof.
  intros Hn. eexists _, _, _, _. split; [reflexivity|]. unfold from_be_bytes32, is_uint in *.
  change (2 ^ 24) with (256 * 256 * 256). change (2 ^ 16) with (256 * 256). change (2 ^ 8) with 256.
  rewrite <- !Z.div_div by lia. change (2 ^ 32) with 4294967296 in Hn.
  pose proof (Z.div_mod n 256 ltac:(lia)). pose proof (Z.div_mod (n / 256) 256 ltac:(lia)).
  pose proof (Z.div_mod (n / 256 / 256) 256 ltac:(lia)).
  assert (n / 256 / 256 / 256 < 256) by (repeat (apply Z.div_lt_upper_bound; [lia|]); lia).
  assert (0 <= n / 256 / 256 / 256) by (repeat (apply Z.div_pos; [|lia]); lia).
  rewrite (Z.mod_small (n / 256 / 256 / 256) 256) by lia. lia.
Qed.

Section codec_lemmas.
Context `{!WireSerde}.

Lemma validated_version f : WireFrame_validate json_to_vec f = Ok tt -> frame_version f = PROTOCOL_VERSION.
Proof.
  destruct f as [r|r|s]; cbn [WireFrame_validate frame_version];
    [unfold ControlRequest_validate|unfold ControlResponse_validate|unfold StreamFrame_validate].
  - destruct (Z.eqb_spec (req_version r) PROTOCOL_VERSION); [done|]. done.
  - destruct (Z.eqb_spec (res_version r) PROTOCOL_VERSION); done.
  - destruct (Z.eqb_spec (st_version s) PROTOCOL_VERSION); done.
Qed.
Lemma encode_Ok f bs :
  encode f = Ok bs <->
  exists payload, bs = to_be_bytes32 (len payload) ++ payload /\ frame_to_vec f = Some payload
    /\ 0 < len payload <= MAX_FRAME_BYTES /\ WireFrame_validate json_to_vec f = Ok tt.
Proof.
  unfold encode. destruct (WireFrame_validate json_to_vec f) as [[]|e] eqn:Ev; cbn [mbind Result_bind];
    [|split; [done|naive_solver]].
  destruct (frame_to_vec f) as [payload|]; cbn [ok_or mbind Result_bind]; [|split; [done|naive_solver]].
  pose proof (len_nonneg payload).
  destruct (Z.eqb_spec (len payload) 0), (Z.ltb_spec MAX_FRAME_BYTES (len payload)); cbn [orb]; cbn match.
  1-3: split; [done|]; intros (p' & _ & [= <-] & ? & _); lia.
  split; [intros [= <-]; eexists; split_and!; try done; lia|]. intros (p' & -> & [= <-] & _). done.
Qed.

Lemma decoded_valid payload f : decode_payload payload = Ok f -> WireFrame_validate json_to_vec f = Ok tt.
Proof.
  unfold decode_payload. split_if E; [done|]. destruct (json_from_slice payload) as [v|]; [|done].
  cbn [ok_or mbind Result_bind]. destruct (envelope_version v) as [n|]; [|done]. cbn [ok_or mbind Result_bind].
  split_if E'; [done|]. destruct (frame_from_value v) as [g|]; [|done]. cbn [ok_or mbind Result_bind].
  destruct (WireFrame_validate json_to_vec g) as [[]|] eqn:Ev; [|done]. by intros [= <-].
Qed.
Lemma read_valid input f rest : read_from input = (Ok f, rest) -> WireFrame_validate json_to_vec f = Ok tt.
Proof.
  unfold read_from. intros (prefix & s & _ & Hr)%bind_Ok. repeat (case_match; try done).
  apply bind_Ok in Hr as (payload & s' & _ & Hr). unfold mut_lift in Hr.
  injection Hr as Hr _. by eapply decoded_valid.
Qed.

Context `{!WireLaws}.

Lemma decode_payload_encoded f payload :
  frame_to_vec f = Some payload -> WireFrame_validate json_to_vec f = Ok tt -> exact_frame f = true ->
  decode_payload payload = Ok f.
Proof.
  intros Ht Hv He. destruct (wire_law f payload Ht) as (Hu & v & Hs & Hver & Hf).
  unfold decode_payload. rewrite Hu, Hs. cbn [negb ok_or mbind Result_bind]. rewrite Hver.
  cbn [ok_or mbind Result_bind]. rewrite (validated_version f Hv), Z.eqb_refl. cbn [negb].
  rewrite (Hf He). cbn [ok_or mbind Result_bind]. by rewrite Hv.
Qed.
Lemma read_exact_app (bs rest : list Z) : read_exact (len bs) (bs ++ rest) = (Ok bs, rest).
Proof.
  unfold read_exact, len. rewrite length_app, (proj2 (Z.ltb_ge _ _)) by lia.
  by rewrite Nat2Z.id, take_app_length, drop_app_length.
Qed.
Lemma read_prefix a b c d (rest : list Z) : read_exact 4 (a :: b :: c :: d :: rest) = (Ok [a; b; c; d], rest).
Proof. apply (read_exact_app [a; b; c; d]). Qed.
Lemma read_encoded f bs rest :
  encode f = Ok bs -> exact_frame f = true -> read_from (bs ++ rest) = (Ok f, rest).
Proof.
  intros (payload & -> & Ht & Hl & Hv)%encode_Ok He.
  destruct (from_to_be_bytes (len payload)) as (a & b & c & d & Hb & Hn).
  { unfold is_uint, MAX_FRAME_BYTES in *. lia. }
  unfold read_from, mbind, Mut_bind. rewrite Hb. cbn [app]. rewrite read_prefix. cbn zeta. rewrite Hn.
  rewrite (proj2 (Z.eqb_neq _ _)), (proj2 (Z.ltb_ge _ _)) by lia. cbn [orb].
  rewrite read_exact_app. unfold mut_lift.
  by rewrite (decode_payload_encoded f payload).
Qed.
Lemma decode_encoded f bs : encode f = Ok bs -> exact_frame f = true -> decode bs = Ok f.
Proof.
  intros (payload & -> & Ht & Hl & Hv)%encode_Ok He.
  destruct (from_to_be_bytes (len payload)) as (a & b & c & d & Hb & Hn).
  { unfold is_uint, MAX_FRAME_BYTES in *. lia. }
  rewrite Hb. cbn [app decode]. rewrite Hn.
  rewrite (proj2 (Z.eqb_neq _ _)), (proj2 (Z.ltb_ge _ _)) by lia. cbn [orb].
  assert (len (a :: b :: c :: d :: payload) =? 4 + len payload = true) as ->
    by (apply Z.eqb_eq; unfold len; cbn [length]; lia).
  by apply decode_payload_encoded.
Qed.
(** Reading [n] frames, one after the other. *)
Fixpoint read_frames (n : nat) : Mut (list Z) ProtocolError (list WireFrame) :=
  match n with
  | O => mret []
  | S n => f ← read_from; fs ← read_frames n; mret (f :: fs)
  end.
Lemma read_frames_encoded fs bss rest :
  Forall2 (fun f bs => encode f = Ok bs /\ exact_frame f = true) fs bss ->
  read_frames (length fs) (concat bss ++ rest) = (Ok fs, rest).
Proof.
  induction 1 as [|f bs fs bss [Hf He] _ IH]; [done|]. cbn [length read_frames concat].
  unfold mbind, Mut_bind. rewrite <- app_assoc, (read_encoded f) by done. by rewrite IH.
Qed.
End codec_lemmas.

(** What is written is what is read: frames that were encoded and sent one after another
    are read back in order and unchanged, whatever follows them on the connection, and each of
    them decodes on its own. *)
Theorem frames_round_trip `{!WireSerde} `{!WireLaws} fs bss rest :
  Forall2 (fun f bs => encode f = Ok bs /\ exact_frame f = true) fs bss ->
  read_frames (length fs) (concat bss ++ rest) = (Ok fs, rest)
  /\ Forall2 (fun f bs => decode bs = Ok f) fs bss.
Proof.
  intros Hall. split; [by apply read_frames_encoded|].
  eapply Forall2_impl; [exact Hall|]. intros f bs [Hf He]. by apply decode_encoded.
Qed.

(** ** The server *)
Section server_lemmas.
Context `{!WireSerde} {W S : Type} `{!ControlRequestHandler W S}.

(** A connection on which [bs] arrived from a peer with these credentials. *)
Definition opened (peer : PeerCredentials) (bs : list Z) : Connection :=
  mkConnection true (Some peer) bs [] None true.
(** The daemon as the client sees it: the bytes written in answer to the bytes received. *)
Definition daemon (peer : PeerCredentials) (bs : list Z) (h : W) : list Z * W :=
  let '(_, h', c, _) := serve_stream (S := S) (opened peer bs) h in (cn_outgoing c, h').

Lemma receive_opened (peer : PeerCredentials) bs r rest :
  read_from bs = (r, rest) -> receive read_from (opened peer bs) = (r, opened peer rest).
Proof. intros Hr. unfold receive. cbn [cn_incoming opened]. by rewrite Hr. Qed.
(** The call without the socket.  A request that cannot be encoded is not sent; a peer that is not
    root gets no answer; a subscription takes the connection over; the rest goes to the handler, and
    an answer that cannot be encoded, or that names another request, is refused by the client after
    the handler has run. *)
Definition direct_call (peer : PeerCredentials) (request : ControlRequest) (h : W) :
    Result CliError ControlResponse * W :=
  if is_err (encode (FrameRequest request)) then (Err RequestFailed, h)
  else if negb (peer_uid peer =? 0) then (Err InvalidResponse, h)
  else
    let '(subscription, h) :=
      if bool_decide (method request = EventsSubscribe) then subscribe_events request h else (None, h) in
    match subscription with
    | Some _ => (Err InvalidResponse, h)
    | None =>
        let (response, h) := handle (S := S) request h in
        if is_err (encode (FrameResponse response)) then (Err InvalidResponse, h)
        else if String.eqb (res_id response) (req_id request) then (Ok response, h)
        else (Err ResponseRequestMismatch, h)
    end.

Lemma serve_root `{!WireLaws} (peer : PeerCredentials) request bs h :
  peer_uid peer = 0 -> encode (FrameRequest request) = Ok bs -> exact_frame (FrameRequest request) = true ->
  daemon peer bs h
  = let '(subscription, h) :=
      if bool_decide (method request = EventsSubscribe) then subscribe_events request h else (None, h) in
    match subscription with
    | Some _ => ([], h)
    | None =>
        let (response, h) := handle (S := S) request h in
        (match encode (FrameResponse response) with Ok rs => rs | Err _ => [] end, h)
    end.
Proof.
  intros Hp Hb He. unfold daemon, serve_stream. cbn [cn_configured opened cn_peer negb].
  unfold authorize. rewrite Hp. cbn [Z.eqb].
  pose proof (read_encoded (FrameRequest request) bs [] Hb He) as Hr. rewrite app_nil_r in Hr.
  rewrite (receive_opened peer bs _ _ Hr).
  destruct (if bool_decide _ then _ else _) as [[sub|] h1]; [done|].
  destruct (handle request h1) as [response h2]. unfold write_to, write_all.
  destruct (encode (FrameResponse response)); done.
Qed.
Lemma serve_other (peer : PeerCredentials) bs h : peer_uid peer <> 0 -> daemon peer bs h = ([], h).
Proof.
  intros Hp. unfold daemon, serve_stream. cbn [cn_configured opened cn_peer negb]. unfold authorize.
  by rewrite (proj2 (Z.eqb_neq _ _) Hp).
Qed.
End server_lemmas.


(** C23: nobody but root is served, and nothing but a valid request is dispatched: when serving a
    connection changes the state behind the handler, writes a byte or hands out a subscription,
    then the peer is root and what arrived is a request that passes every check of the
    protocol. *)
Theorem control_server_guarded `{!WireSerde} {W S} `{!ControlRequestHandler W S} c (h : W) :
  let '(r, h', c', subscription) := serve_stream (S := S) c h in
  (h' <> h \/ cn_outgoing c' <> cn_outgoing c \/ subscription <> None) ->
  exists peer request rest,
    cn_peer c = Some peer /\ peer_uid peer = 0
    /\ read_from (cn_incoming c) = (Ok (FrameRequest request), rest)
    /\ RequestSpec.valid json_to_vec request.
Proof.
  destruct (serve_stream c h) as [[[r h'] c'] sub] eqn:Es. intros Heffect.
  assert (forall c1, (h <> h \/ cn_outgoing c1 <> cn_outgoing c1 \/ (None : option S) <> None) -> False) as Hno
    by naive_solver.
  unfold serve_stream in Es. destruct (cn_configured c); cbn [negb] in Es;
    [|injection Es as <- <- <- <-; by destruct (Hno c)].
  destruct (cn_peer c) as [peer|]; [|injection Es as <- <- <- <-; by destruct (Hno c)].
  unfold authorize in Es. destruct (Z.eqb_spec (peer_uid peer) 0) as [Hp|];
    [|injection Es as <- <- <- <-; by destruct (Hno c)].
  unfold receive in Es. destruct (read_from (cn_incoming c)) as [[f|e] rest] eqn:Er;
    [|injection Es as <- <- <- <-; exfalso; naive_solver].
  destruct f as [request|resp|s]; [|injection Es as <- <- <- <-; exfalso; naive_solver..].
  exists peer, request, rest. split_and!; try done. apply request_checked.
  exact (read_valid _ _ _ Er).
Qed.

(** ** A sample codec and daemon *)
Module FrameSample.
(** Status requests and their answers, as a letter and the identifier. *)
Definition plain_id (tag : Z) (id : string) : option (list Z) :=
  if valid_utf8 (tag :: bytes id) then Some (tag :: bytes id) else None.
#[export] Instance serde : WireSerde := {|
  json_to_vec := fun _ => Some [];
  frame_to_vec := fun f =>
    match f with
    | FrameRequest (mkRequest 6 id StatusGet
        (mkParams false false None None None None None None None None None None None None None None
           None None None None None)) => plain_id 81 id
    | FrameResponse (mkResponse 6 id true None (Some (JBool true)) None) => plain_id 82 id
    | _ => None
    end;
  json_from_slice := fun bs =>
    match bs with
    | [] => None
    | tag :: id => Some (JObject [("id", JString (of_bytes id)); ("request", JBool (tag =? 81));
                                  ("version", JNumber "6")])
    end;
  frame_from_value := fun v =>
    match v with
    | JObject [(_, JString id); (_, JBool true); _] => Some (FrameRequest (ControlRequest_new id StatusGet))
    | JObject [(_, JString id); (_, JBool false); _] =>
        Some (FrameResponse (response_success id None (JBool true)))
    | _ => None
    end;
|}.
#[export] Instance laws : WireLaws.
Proof.
  intros f bs. cbn [frame_to_vec serde]. unfold plain_id.
  repeat (case_match; try done); intros [= <-]; (split; [done|]);
    eexists; (split; [reflexivity|]); (split; [reflexivity|]); intros _; cbn; by rewrite of_bytes_bytes.
Qed.
#[export] Instance counter : ControlRequestHandler nat unit := {|
  handle := fun q n => (response_success (req_id q) None (JBool true), S n);
  subscribe_events := fun _ n => (None, n);
|}.
Definition status : ControlRequest := ControlRequest_new "r1" StatusGet.
Definition answered : ControlResponse := response_success "r1" None (JBool true).
Definition root_peer : PeerCredentials := mkPeer (Some 4) 0 0.
End FrameSample.
Import FrameSample.

Lemma frames_round_trip_witness :
  let fs := [FrameRequest status; FrameResponse answered] in
  let bss := [to_be_bytes32 3 ++ bytes "Qr1"; to_be_bytes32 3 ++ bytes "Rr1"] in
  Forall2 (fun f bs => encode f = Ok bs /\ exact_frame f = true) fs bss
  /\ read_frames 2 (concat bss ++ [1; 2]) = (Ok fs, [1; 2]).
Proof.
  intros fs bss.
  assert (Forall2 (fun f bs => encode f = Ok bs /\ exact_frame f = true) fs bss) as Hall
    by (repeat constructor; vm_compute; reflexivity).
  split; [exact Hall|]. exact (proj1 (frames_round_trip fs bss [1; 2] Hall)).
Defined.
Lemma control_server_guarded_witness :
  exists peer request rest,
    peer_uid peer = 0
    /\ read_from (to_be_bytes32 3 ++ bytes "Qr1") = (Ok (FrameRequest request), rest)
    /\ RequestSpec.valid json_to_vec request.
Proof.
  pose proof (control_server_guarded (S := unit) (opened root_peer (to_be_bytes32 3 ++ bytes "Qr1")) 7%nat) as H.
  destruct H as (peer & request & rest & _ & Hp & Hr & Hv); [left; vm_compute; discriminate|].
  by exists peer, request, rest.
Defined.
