(* ===== verification/ProtocolBench.v ===== *)
(** * ProtocolBench: the reports of a node benchmark

    The part of [nethop-protocol/src/lib.rs] that describes a benchmark: the outcome of a
    probe, the summary and the timings of a run, the report with its checks, and the messages
    that announce an operation, its progress, its selection and its end. *)

From S2P Require Import Prelude Text Ordering Json EventLog Protocol.

Local Open Scope Z_scope.

Definition MAX_NODE_BENCHMARK_CANDIDATES : Z := 64.
Definition NODE_BENCHMARK_FAST_SELECTION_EARLIEST_MS : Z := 2000.
Definition NODE_BENCHMARK_FAST_SELECTION_LATEST_MS : Z := 2800.
Definition NODE_BENCHMARK_FAST_SELECTION_DEADLINE_MS : Z := 3000.
Definition NODE_BENCHMARK_PROBE_CUTOFF_MS : Z := 4500.
Definition NODE_BENCHMARK_DEADLINE_MS : Z := 4900.
Definition MAX_NODE_BENCHMARK_TIMING_US : Z := 60000000.

Inductive BenchmarkTrigger : Type := BtManual | BtPeriodic.
Inductive NodeProbeState : Type := ProbeSuccess | ProbeTimeout | ProbeUnavailable | ProbeProtocolError.
#[export] Instance NodeProbeState_eq_dec : EqDecision NodeProbeState.
Proof. solve_decision. Defined.
Inductive BenchmarkDiagnostic : Type := Unauthorized.
Inductive BenchmarkStatus : Type := BsSuccess | BsPartial | BsFailed | BsInternalError | BsSuperseded.

Record NodeProbeOutcome : Type := mkOutcome {
  po_node_id : string;
  po_state : NodeProbeState;
  po_latency_ms : option Z;
  po_request_elapsed_us : Z;
  po_completed_at_us : Z;
}.
Definition outcome_valid (o : NodeProbeOutcome) : bool :=
  negb (negb (valid_stable_node_id (po_node_id o))
        || negb (Bool.eqb (bool_decide (po_state o = ProbeSuccess)) (is_some (po_latency_ms o)))
        || is_some_and (fun delay => (delay =? 0) || (umax 16 <? delay)) (po_latency_ms o)
        || (MAX_NODE_BENCHMARK_TIMING_US <? po_request_elapsed_us o)
        || (MAX_NODE_BENCHMARK_TIMING_US <? po_completed_at_us o)
        || (po_completed_at_us o <? po_request_elapsed_us o)).
Definition NodeProbeOutcome_validate (o : NodeProbeOutcome) : Result ProtocolError unit :=
  refuse (negb (outcome_valid o)).
Definition outcome_success (node : string) (latency : Z) : Result ProtocolError NodeProbeOutcome :=
  let o := mkOutcome node ProbeSuccess (Some latency) 0 0 in
  _ ← NodeProbeOutcome_validate o; Ok o.
Definition outcome_failed (node : string) (state : NodeProbeState) : Result ProtocolError NodeProbeOutcome :=
  let o := mkOutcome node state None 0 0 in
  _ ← NodeProbeOutcome_validate o; Ok o.
Definition with_timing (o : NodeProbeOutcome) (request_elapsed completed_at : Z) :
    Result ProtocolError NodeProbeOutcome :=
  let o := mkOutcome (po_node_id o) (po_state o) (po_latency_ms o) request_elapsed completed_at in
  _ ← NodeProbeOutcome_validate o; Ok o.

(** [u64::checked_add] *)
Definition checked_add (a b : Z) : option Z := if a + b <=? umax 64 then Some (a + b) else None.
Definition checked_timing_sum (values : list Z) : option Z :=
  foldl (fun sum v => s ← sum; checked_add s v) (Some 0) values.

(** ** Timings *)
Record BenchmarkEngineTiming : Type := mkEngineTiming {
  et_thread_spawn : Z;
  et_runtime_init : Z;
  et_candidate_dispatch : Z;
  et_probe : Z;
  et_result_assembly : Z;
  et_total : Z;
}.
Definition timing_aggregate (bootstrap_ms elapsed_ms : Z) : BenchmarkEngineTiming :=
  mkEngineTiming 0 (bootstrap_ms * 1000) 0 (sat_sub_u elapsed_ms bootstrap_ms * 1000) 0 (elapsed_ms * 1000).
Definition too_long (v : Z) : bool := MAX_NODE_BENCHMARK_TIMING_US <? v.
Definition engine_timing_validate (t : BenchmarkEngineTiming) (bootstrap_ms elapsed_ms : Z) :
    Result ProtocolError unit :=
  let stages := [et_thread_spawn t; et_runtime_init t; et_candidate_dispatch t; et_probe t;
                 et_result_assembly t] in
  accounted ← ok_or (checked_timing_sum stages) InvalidEnvelope;
  bootstrap_us ← ok_or (checked_add (et_thread_spawn t) (et_runtime_init t)) InvalidEnvelope;
  refuse (existsb too_long (stages ++ [et_total t]) || (et_total t <? accounted)
          || negb (et_total t / 1000 =? elapsed_ms) || negb (bootstrap_us / 1000 =? bootstrap_ms)).

Record BenchmarkControlTiming : Type := mkControlTiming {
  ct_intent_load : Z;
  ct_current_snapshot : Z;
  ct_decision : Z;
  ct_target_resolve : Z;
  ct_selector_apply : Z;
  ct_final_snapshot : Z;
  ct_total : Z;
}.
Definition control_timing_zero : BenchmarkControlTiming := mkControlTiming 0 0 0 0 0 0 0.
Definition control_timing_validate (t : BenchmarkControlTiming) : Result ProtocolError unit :=
  let stages := [ct_intent_load t; ct_current_snapshot t; ct_decision t; ct_target_resolve t;
                 ct_selector_apply t; ct_final_snapshot t] in
  accounted ← ok_or (checked_timing_sum stages) InvalidEnvelope;
  refuse (existsb too_long (stages ++ [ct_total t]) || (ct_total t <? accounted)).

(** ** The summary of the probes *)
Record BenchmarkProbeSummary : Type := mkSummary {
  first_result_us : option Z;
  last_result_us : option Z;
  last_success_us : option Z;
  within_500ms : Z;
  within_1s : Z;
  within_2s : Z;
  within_3s : Z;
  completed_before_cutoff : Z;
  cutoff_pending : Z;
  cutoff_tail_us : Z;
}.
(** [Iterator::min] and [Iterator::max] *)
Definition iter_min (l : list Z) : option Z := match l with [] => None | x :: rest => Some (foldl Z.min x rest) end.
Definition iter_max (l : list Z) : option Z := match l with [] => None | x :: rest => Some (foldl Z.max x rest) end.
Definition count_if {A} (f : A -> bool) (l : list A) : Z := len (List.filter f l).
Definition in_state (s : NodeProbeState) (o : NodeProbeOutcome) : bool := bool_decide (po_state o = s).
Definition done_by (limit : Z) (o : NodeProbeOutcome) : bool := po_completed_at_us o <=? limit.
Definition summary_completed (nodes : list NodeProbeOutcome) : BenchmarkProbeSummary :=
  let ends := po_completed_at_us <$> nodes in
  mkSummary (iter_min ends) (iter_max ends)
    (iter_max (po_completed_at_us <$> List.filter (in_state ProbeSuccess) nodes))
    (count_if (done_by 500000) nodes) (count_if (done_by 1000000) nodes)
    (count_if (done_by 2000000) nodes) (count_if (done_by 3000000) nodes) (len nodes) 0 0.
Definition summary_empty : BenchmarkProbeSummary := summary_completed [].
(** [a.zip(b).is_some_and(|(a, b)| a > b)] *)
Definition zip_exceeds (a b : option Z) : bool :=
  match a, b with Some a, Some b => b <? a | _, _ => false end.
Definition decreases (counts : list Z) : bool :=
  existsb (fun w => match w with [a; b] => b <? a | _ => false end) (windows 2 counts).
Definition summary_validate (s : BenchmarkProbeSummary) (tested succeeded : Z) (t : BenchmarkEngineTiming) :
    Result ProtocolError unit :=
  let has_completed := 0 <? completed_before_cutoff s in
  refuse (decreases [within_500ms s; within_1s s; within_2s s; within_3s s; completed_before_cutoff s]
          || negb (bool_decide (checked_add (completed_before_cutoff s) (cutoff_pending s) = Some tested))
          || misplaced (first_result_us s) has_completed
          || misplaced (last_result_us s) has_completed
          || misplaced (last_success_us s) (0 <? succeeded)
          || zip_exceeds (first_result_us s) (last_result_us s)
          || zip_exceeds (last_success_us s) (last_result_us s)
          || existsb (fun v => et_total t <? v)
               (option_list (first_result_us s) ++ option_list (last_result_us s)
                ++ option_list (last_success_us s))
          || (et_probe t <? cutoff_tail_us s)
          || ((cutoff_pending s =? 0) && negb (cutoff_tail_us s =? 0))
          || is_some_and (fun e => et_total t <? e)
               (last ← last_result_us s; checked_add last (cutoff_tail_us s))).

(** ** The report *)
Record BenchmarkReport : Type := mkReport {
  rp_status : BenchmarkStatus;
  rp_trigger : BenchmarkTrigger;
  rp_generation : Z;
  rp_bootstrap_ms : Z;
  rp_elapsed_ms : Z;
  rp_timing : BenchmarkEngineTiming;
  rp_probe : BenchmarkProbeSummary;
  rp_tested : Z;
  rp_succeeded : Z;
  rp_timed_out : Z;
  rp_failed : Z;
  rp_diagnostic : option BenchmarkDiagnostic;
  rp_nodes : list NodeProbeOutcome;
}.
Definition BenchmarkReport_validate (r : BenchmarkReport) : Result ProtocolError unit :=
  let nodes := rp_nodes r in
  _ ← refuse ((rp_generation r =? 0) || (NODE_BENCHMARK_DEADLINE_MS <? rp_elapsed_ms r)
              || (rp_elapsed_ms r <? rp_bootstrap_ms r)
              || (MAX_NODE_BENCHMARK_CANDIDATES <? len nodes) || negb (rp_tested r =? len nodes)
              || negb (rp_succeeded r + rp_timed_out r + rp_failed r =? rp_tested r)
              || existsb (fun o => negb (outcome_valid o)) nodes);
  _ ← engine_timing_validate (rp_timing r) (rp_bootstrap_ms r) (rp_elapsed_ms r);
  _ ← summary_validate (rp_probe r) (rp_tested r) (rp_succeeded r) (rp_timing r);
  _ ← refuse (existsb (fun o => et_total (rp_timing r) <? po_completed_at_us o) nodes);
  let succeeded := count_if (in_state ProbeSuccess) nodes in
  let timed_out := count_if (in_state ProbeTimeout) nodes in
  refuse (negb (all_distinct (po_node_id <$> nodes)) || negb (succeeded =? rp_succeeded r)
          || negb (timed_out =? rp_timed_out r)
          || negb (sat_sub_u (len nodes) (succeeded + timed_out) =? rp_failed r)).

Definition from_probe_summary (trigger : BenchmarkTrigger) (generation bootstrap_ms elapsed_ms : Z)
    (timing : BenchmarkEngineTiming) (probe : BenchmarkProbeSummary) (nodes : list NodeProbeOutcome) :
    Result ProtocolError BenchmarkReport :=
  let succeeded := count_if (in_state ProbeSuccess) nodes in
  let timed_out := count_if (in_state ProbeTimeout) nodes in
  let failed := sat_sub_u (len nodes) (succeeded + timed_out) in
  let status := if succeeded =? len nodes then BsSuccess
                else if 0 <? succeeded then BsPartial else BsFailed in
  let report := mkReport status trigger generation bootstrap_ms elapsed_ms timing probe (len nodes)
                  succeeded timed_out failed None nodes in
  _ ← BenchmarkReport_validate report; Ok report.
Definition from_timed_outcomes (trigger : BenchmarkTrigger) (generation bootstrap_ms elapsed_ms : Z)
    (timing : BenchmarkEngineTiming) (nodes : list NodeProbeOutcome) : Result ProtocolError BenchmarkReport :=
  from_probe_summary trigger generation bootstrap_ms elapsed_ms timing (summary_completed nodes) nodes.
Definition from_outcomes (trigger : BenchmarkTrigger) (generation bootstrap_ms elapsed_ms : Z)
    (nodes : list NodeProbeOutcome) : Result ProtocolError BenchmarkReport :=
  from_timed_outcomes trigger generation bootstrap_ms elapsed_ms
    (timing_aggregate bootstrap_ms elapsed_ms) nodes.
Definition internal_error (trigger : BenchmarkTrigger) (generation elapsed_ms : Z) : BenchmarkReport :=
  let elapsed := Z.min elapsed_ms NODE_BENCHMARK_DEADLINE_MS in
  mkReport BsInternalError trigger generation 0 elapsed (timing_aggregate 0 elapsed) summary_empty
    0 0 0 0 None [].

(** ** The messages of an operation *)
Inductive FastSelectionDeferredReason : Type :=
| InsufficientCoverage | CurrentPending | NoSuccess | ControlErrorReason.
Inductive NodeBenchmarkFastSelection : Type :=
| FsPending
| FsSwitched (completed candidate_count elapsed_us : Z) (selection : Json)
| FsKept (completed candidate_count elapsed_us : Z)
| FsDeferred (completed candidate_count elapsed_us : Z) (reason : FastSelectionDeferredReason)
| FsNotApplicable (completed candidate_count elapsed_us : Z)
| FsSuperseded (completed candidate_count elapsed_us : Z)
| FsNotNeeded (completed candidate_count elapsed_us : Z).
Definition fs_metrics (f : NodeBenchmarkFastSelection) : option (Z * Z * Z) :=
  match f with
  | FsPending => None
  | FsSwitched c n e _ | FsKept c n e | FsDeferred c n e _ | FsNotApplicable c n e
  | FsSuperseded c n e | FsNotNeeded c n e => Some (c, n, e)
  end.
Definition fs_is_pending (f : NodeBenchmarkFastSelection) : bool :=
  match f with FsPending => true | _ => false end.
Definition fast_selection_validate (f : NodeBenchmarkFastSelection) : Result ProtocolError unit :=
  match fs_metrics f with
  | None => Ok tt
  | Some (completed, candidates, elapsed) =>
      let limit := match f with
                   | FsSwitched _ _ _ _ => NODE_BENCHMARK_FAST_SELECTION_DEADLINE_MS
                   | _ => NODE_BENCHMARK_DEADLINE_MS
                   end in
      _ ← refuse ((candidates =? 0) || (MAX_NODE_BENCHMARK_CANDIDATES <? candidates)
                  || (candidates <? completed) || (limit * 1000 <? elapsed));
      match f with FsSwitched _ _ _ selection => validate_webui_value selection 0 | _ => Ok tt end
  end.

Record NodeBenchmarkProgress : Type := mkProgress {
  pg_operation_id : string;
  pg_generation : Z;
  pg_completed : Z;
  pg_candidate_count : Z;
  pg_outcome : NodeProbeOutcome;
}.
Definition progress_validate (p : NodeBenchmarkProgress) : Result ProtocolError unit :=
  _ ← refuse (negb (valid_benchmark_operation_id (pg_operation_id p)) || (pg_generation p =? 0)
              || (pg_completed p =? 0) || (pg_candidate_count p =? 0)
              || (pg_candidate_count p <? pg_completed p)
              || (MAX_NODE_BENCHMARK_CANDIDATES <? pg_candidate_count p));
  NodeProbeOutcome_validate (pg_outcome p).
Record NodeBenchmarkSelection : Type := mkBenchSelection {
  bs_operation_id : string;
  bs_generation : Z;
  bs_fast_selection : NodeBenchmarkFastSelection;
}.
Definition selection_validate (s : NodeBenchmarkSelection) : Result ProtocolError unit :=
  _ ← refuse (negb (valid_benchmark_operation_id (bs_operation_id s)) || (bs_generation s =? 0)
              || fs_is_pending (bs_fast_selection s));
  fast_selection_validate (bs_fast_selection s).

Record BenchmarkTerminalTiming : Type := mkTerminalTiming {
  tt_admission : Z;
  tt_worker_reap : Z;
  tt_fast_control : BenchmarkControlTiming;
  tt_terminal_control : BenchmarkControlTiming;
  tt_operation_total : Z;
}.
Definition terminal_timing_validate (t : BenchmarkTerminalTiming) (r : BenchmarkReport) :
    Result ProtocolError unit :=
  _ ← control_timing_validate (tt_fast_control t);
  _ ← control_timing_validate (tt_terminal_control t);
  accounted ← ok_or (checked_timing_sum [tt_admission t; et_total (rp_timing r); tt_worker_reap t;
                                         ct_total (tt_terminal_control t)]) InvalidEnvelope;
  refuse (too_long (tt_admission t) || too_long (tt_worker_reap t) || too_long (tt_operation_total t)
          || (tt_operation_total t <? ct_total (tt_fast_control t)) || (tt_operation_total t <? accounted)).
Record NodeBenchmarkTerminalReport : Type := mkTerminalReport {
  tr_operation_id : string;
  tr_report : BenchmarkReport;
  tr_selection : option Json;
  tr_fast_selection : NodeBenchmarkFastSelection;
  tr_timing : BenchmarkTerminalTiming;
}.
Definition terminal_report_validate (t : NodeBenchmarkTerminalReport) : Result ProtocolError unit :=
  _ ← refuse (negb (valid_benchmark_operation_id (tr_operation_id t)));
  _ ← BenchmarkReport_validate (tr_report t);
  _ ← refuse (fs_is_pending (tr_fast_selection t));
  _ ← fast_selection_validate (tr_fast_selection t);
  _ ← terminal_timing_validate (tr_timing t) (tr_report t);
  match tr_selection t with Some v => validate_webui_value v 0 | None => Ok tt end.
Record NodeBenchmarkOperationAck : Type := mkAck {
  ak_operation_id : string;
  ak_joined_existing : bool;
  ak_trigger : BenchmarkTrigger;
  ak_candidate_count : Z;
  ak_earliest_ms : Z;
  ak_latest_ms : Z;
  ak_fast_deadline_ms : Z;
  ak_probe_cutoff_ms : Z;
  ak_deadline_ms : Z;
  ak_fast_selection : NodeBenchmarkFastSelection;
}.
Definition ack_validate (a : NodeBenchmarkOperationAck) : Result ProtocolError unit :=
  _ ← refuse (negb (valid_benchmark_operation_id (ak_operation_id a)) || (ak_candidate_count a =? 0)
              || (MAX_NODE_BENCHMARK_CANDIDATES <? ak_candidate_count a)
              || negb (ak_earliest_ms a =? NODE_BENCHMARK_FAST_SELECTION_EARLIEST_MS)
              || negb (ak_latest_ms a =? NODE_BENCHMARK_FAST_SELECTION_LATEST_MS)
              || negb (ak_fast_deadline_ms a =? NODE_BENCHMARK_FAST_SELECTION_DEADLINE_MS)
              || negb (ak_probe_cutoff_ms a =? NODE_BENCHMARK_PROBE_CUTOFF_MS)
              || negb (ak_deadline_ms a =? NODE_BENCHMARK_DEADLINE_MS));
  fast_selection_validate (ak_fast_selection a).

(** ** Lemmas *)
Lemma unit_then {E A} (m : Result E unit) (k : Result E A) a :
  (_ ← m; k) = Ok a <-> m = Ok tt /\ k = Ok a.
Proof. destruct m as [[]|e]; cbn; naive_solver. Qed.
Lemma existsb_false_Forall {A} (f : A -> bool) (P : A -> Prop) l :
  (forall x, f x = false <-> P x) -> existsb f l = false <-> Forall P l.
Proof.
  intros Hf. rewrite Forall_forall. split.
  - intros He x Hx. apply Hf. by eapply existsb_false_elem.
  - intros Hall. apply existsb_none. intros x Hx. by apply Hf, Hall.
Qed.
Lemma iter_max_spec l m : iter_max l = Some m -> m ∈ l /\ Forall (fun x => x <= m) l.
Proof.
  destruct l as [|x l]; [done|]. intros [= <-]. revert x.
  induction l as [|y l IH]; intros x; cbn [foldl].
  - split; [apply list_elem_of_here|by repeat constructor].
  - destruct (IH (Z.max x y)) as [Hin Hall]. inversion Hall as [|? ? Hm Hall']; subst.
    assert (x <= foldl Z.max (Z.max x y) l /\ y <= foldl Z.max (Z.max x y) l) as [? ?] by lia.
    split; [|by repeat constructor].
    apply elem_of_cons in Hin as [He|Hin]; [|by do 2 apply list_elem_of_further].
    destruct (Z.max_spec x y) as [[_ Hx]|[_ Hx]]; rewrite Hx in *; rewrite He;
      [apply list_elem_of_further|]; apply list_elem_of_here.
Qed.
Lemma iter_min_spec l m : iter_min l = Some m -> m ∈ l /\ Forall (fun x => m <= x) l.
Proof.
  destruct l as [|x l]; [done|]. intros [= <-]. revert x.
  induction l as [|y l IH]; intros x; cbn [foldl].
  - split; [apply list_elem_of_here|by repeat constructor].
  - destruct (IH (Z.min x y)) as [Hin Hall]. inversion Hall as [|? ? Hm Hall']; subst.
    split; [|constructor; [lia|constructor; [lia|done]]].
    apply elem_of_cons in Hin as [He|Hin]; [|by do 2 apply list_elem_of_further].
    destruct (Z.min_spec x y) as [[_ Hx]|[_ Hx]]; rewrite Hx in *; rewrite He;
      [|apply list_elem_of_further]; apply list_elem_of_here.
Qed.
Lemma count_if_le {A} (f g : A -> bool) l :
  (forall x, f x = true -> g x = true) -> count_if f l <= count_if g l.
Proof.
  intros Hfg. unfold count_if, len. induction l as [|x l IH]; [done|]. cbn [List.filter].
  destruct (f x) eqn:Ef; [rewrite (Hfg x Ef); cbn [length]; lia|]. destruct (g x); cbn [length]; lia.
Qed.
Lemma count_if_len {A} (f : A -> bool) l : 0 <= count_if f l <= len l.
Proof. unfold count_if, len. split; [lia|]. induction l as [|x l IH]; cbn; [lia|]. destruct (f x); cbn [length]; lia. Qed.
Lemma count_if_all {A} (f : A -> bool) l : count_if f l = len l <-> Forall (fun x => f x = true) l.
Proof.
  induction l as [|x l IH]; [by split|]. rewrite Forall_cons, <- IH. pose proof (count_if_len f l) as Hl.
  unfold count_if, len in *. cbn [List.filter]. destruct (f x); cbn [length]; split; intros; split_and?; try done; lia.
Qed.
Lemma count_if_zero {A} (f : A -> bool) l : count_if f l = 0 <-> Forall (fun x => f x = false) l.
Proof.
  induction l as [|x l IH]; [by split|]. rewrite Forall_cons, <- IH. pose proof (count_if_len f l) as Hl.
  unfold count_if, len in *. cbn [List.filter]. destruct (f x); cbn [length]; split; intros; split_and?; try done; lia.
Qed.
Definition other_state (o : NodeProbeOutcome) : bool :=
  negb (in_state ProbeSuccess o || in_state ProbeTimeout o).
Lemma count_states nodes :
  count_if (in_state ProbeSuccess) nodes + count_if (in_state ProbeTimeout) nodes
  + count_if other_state nodes = len nodes.
Proof.
  unfold count_if, len. induction nodes as [|o nodes IH]; [done|]. cbn [List.filter].
  assert (other_state o = negb (in_state ProbeSuccess o || in_state ProbeTimeout o)) as Ho by done.
  rewrite Ho. destruct (in_state ProbeSuccess o) eqn:E1, (in_state ProbeTimeout o) eqn:E2;
    cbn [orb negb length]; try lia.
  apply bool_decide_eq_true in E1, E2. congruence.
Qed.
Lemma too_long_false v : too_long v = false <-> v <= MAX_NODE_BENCHMARK_TIMING_US.
Proof. apply Z.ltb_ge. Qed.

Lemma aggregate_valid boot elapsed :
  0 <= boot <= elapsed -> elapsed <= NODE_BENCHMARK_DEADLINE_MS ->
  engine_timing_validate (timing_aggregate boot elapsed) boot elapsed = Ok tt.
Proof.
  intros Hb He. unfold NODE_BENCHMARK_DEADLINE_MS, engine_timing_validate, timing_aggregate in *.
  cbn [et_thread_spawn et_runtime_init et_candidate_dispatch et_probe et_result_assembly et_total].
  unfold checked_timing_sum, checked_add, sat_sub_u, umax. rewrite Z.max_r by lia. cbn [foldl mbind option_bind].
  repeat (rewrite (proj2 (Z.leb_le _ _)) by lia; cbn [mbind option_bind ok_or Result_bind]).
  apply refuse_Ok. rewrite !orb_false_iff, !negb_false_iff, !Z.eqb_eq, Z.ltb_ge. split_and!.
  - apply existsb_none. unfold too_long, MAX_NODE_BENCHMARK_TIMING_US. intros v Hv. apply Z.ltb_ge.
    repeat (apply elem_of_cons in Hv as [->|Hv]; [lia|]). by apply elem_of_nil in Hv.
  - lia.
  - by rewrite Z.div_mul.
  - rewrite Z.add_0_l. by rewrite Z.div_mul.
Qed.

Lemma iter_some (l : list Z) :
  is_some (iter_max l) = (0 <? len l) /\ is_some (iter_min l) = (0 <? len l).
Proof. destruct l; split; [done..| |]; symmetry; apply Z.ltb_lt; unfold len; cbn [length]; lia. Qed.
Lemma summary_counts nodes :
  decreases [count_if (done_by 500000) nodes; count_if (done_by 1000000) nodes;
             count_if (done_by 2000000) nodes; count_if (done_by 3000000) nodes; len nodes] = false.
Proof.
  assert (forall a b, a <= b -> count_if (done_by a) nodes <= count_if (done_by b) nodes) as Hle.
  { intros a b Hab. apply count_if_le. intros o. unfold done_by. rewrite !Z.leb_le. lia. }
  pose proof (Hle 500000 1000000 ltac:(lia)). pose proof (Hle 1000000 2000000 ltac:(lia)).
  pose proof (Hle 2000000 3000000 ltac:(lia)). pose proof (count_if_len (done_by 3000000) nodes).
  unfold decreases. cbn [windows existsb firstn take length Nat.ltb Nat.leb].
  rewrite !(proj2 (Z.ltb_ge _ _)) by lia. done.
Qed.
Lemma latest_success nodes m :
  iter_max (po_completed_at_us <$> List.filter (in_state ProbeSuccess) nodes) = Some m ->
  m ∈ po_completed_at_us <$> nodes.
Proof.
  intros [Hin _]%iter_max_spec. apply list_elem_of_fmap in Hin as (o & -> & Hin).
  apply list_elem_of_fmap_2. apply list_elem_of_In, List.filter_In in Hin as [Hin _].
  by apply list_elem_of_In.
Qed.

Lemma summary_valid nodes t :
  len nodes <= MAX_NODE_BENCHMARK_CANDIDATES -> 0 <= et_probe t ->
  summary_validate (summary_completed nodes) (len nodes) (count_if (in_state ProbeSuccess) nodes) t = Ok tt
  <-> Forall (fun o => po_completed_at_us o <= et_total t) nodes.
Proof.
  intros Hlen Hprobe. unfold summary_validate, summary_completed.
  cbn [first_result_us last_result_us last_success_us within_500ms within_1s within_2s within_3s
       completed_before_cutoff cutoff_pending cutoff_tail_us].
  rewrite summary_counts, refuse_Ok, !orb_false_iff, !misplaced_false, negb_false_iff, bool_decide_eq_true.
  set (ends := po_completed_at_us <$> nodes). set (oks := po_completed_at_us <$> List.filter _ nodes).
  assert (len ends = len nodes) as Hends by (unfold ends, len; by rewrite length_fmap).
  assert (len oks = count_if (in_state ProbeSuccess) nodes) as Hoks by (unfold oks, count_if, len; by rewrite length_fmap).
  pose proof (len_nonneg nodes). unfold MAX_NODE_BENCHMARK_CANDIDATES, checked_add, umax in *.
  rewrite !Z.add_0_r, (proj2 (Z.leb_le (len nodes) _)), <- Hoks, <- Hends by lia.
  destruct (iter_some ends) as [-> ->]. destruct (iter_some oks) as [-> _].
  rewrite (proj2 (Z.ltb_ge (et_probe t) 0)) by lia.
  split.
  - intros [[[[_ He] _] _] _]. apply Forall_forall. intros o Ho.
    destruct (iter_max ends) as [m|] eqn:Em.
    + destruct (iter_max_spec ends m Em) as [_ Hall]. rewrite Forall_forall in Hall.
      pose proof (Hall (po_completed_at_us o) (list_elem_of_fmap_2 _ _ _ Ho)).
      assert (m <= et_total t); [|lia]. apply Z.ltb_ge. eapply existsb_false_elem; [exact He|].
      rewrite !elem_of_app. right. left. apply list_elem_of_here.
    + unfold ends in Em. destruct nodes; [by apply elem_of_nil in Ho|done].
  - intros Hall.
    assert (forall m, m ∈ ends -> m <= et_total t) as Hle.
    { intros m (o & -> & Ho)%list_elem_of_fmap. rewrite Forall_forall in Hall. by apply Hall. }
    split_and!; try done.
    + destruct (iter_min ends) as [a|] eqn:Ea, (iter_max ends) as [b|] eqn:Eb; try done. apply Z.ltb_ge.
      destruct (iter_min_spec _ _ Ea) as [_ Hmin]. destruct (iter_max_spec _ _ Eb) as [Hin _].
      rewrite Forall_forall in Hmin. by apply Hmin.
    + destruct (iter_max oks) as [a|] eqn:Ea, (iter_max ends) as [b|] eqn:Eb; try done. apply Z.ltb_ge.
      destruct (iter_max_spec _ _ Eb) as [_ Hmax]. rewrite Forall_forall in Hmax.
      by apply Hmax, latest_success.
    + apply existsb_none. intros v Hv. apply Z.ltb_ge, Hle. rewrite !elem_of_app in Hv.
      destruct Hv as [Hv|[Hv|Hv]].
      * destruct (iter_min ends) eqn:E; [|by apply elem_of_nil in Hv].
        apply elem_of_cons in Hv as [->|Hv%elem_of_nil]; [by apply iter_min_spec|done].
      * destruct (iter_max ends) eqn:E; [|by apply elem_of_nil in Hv].
        apply elem_of_cons in Hv as [->|Hv%elem_of_nil]; [by apply iter_max_spec|done].
      * destruct (iter_max oks) eqn:E; [|by apply elem_of_nil in Hv].
        apply elem_of_cons in Hv as [->|Hv%elem_of_nil]; [by apply latest_success|done].
    + destruct (iter_max ends) as [m|] eqn:E; [|done]. cbn [mbind option_bind]. rewrite Z.add_0_r.
      destruct (m <=? 2 ^ 64 - 1); [|done]. cbn [is_some_and]. apply Z.ltb_ge, Hle. by apply iter_max_spec.
Qed.

(** ** The report of a run *)
Section report.
Context (trigger : BenchmarkTrigger) (generation boot elapsed : Z) (nodes : list NodeProbeOutcome).

Definition reportable : Prop :=
  generation <> 0 /\ boot <= elapsed <= NODE_BENCHMARK_DEADLINE_MS
  /\ len nodes <= MAX_NODE_BENCHMARK_CANDIDATES
  /\ Forall (fun o => outcome_valid o = true /\ po_completed_at_us o <= elapsed * 1000) nodes
  /\ NoDup (po_node_id <$> nodes).
(** The report the run deserves: the counts are those of the outcomes. *)
Definition report_of : BenchmarkReport :=
  let ok := count_if (in_state ProbeSuccess) nodes in
  mkReport (if ok =? len nodes then BsSuccess else if 0 <? ok then BsPartial else BsFailed)
    trigger generation boot elapsed (timing_aggregate boot elapsed) (summary_completed nodes)
    (len nodes) ok (count_if (in_state ProbeTimeout) nodes) (count_if other_state nodes) None nodes.

Lemma failed_count :
  sat_sub_u (len nodes) (count_if (in_state ProbeSuccess) nodes + count_if (in_state ProbeTimeout) nodes)
  = count_if other_state nodes.
Proof. pose proof (count_states nodes). pose proof (count_if_len other_state nodes). unfold sat_sub_u. lia. Qed.
Lemma built_report :
  from_outcomes trigger generation boot elapsed nodes
  = (_ ← BenchmarkReport_validate report_of; Ok report_of).
Proof.
  unfold from_outcomes, from_timed_outcomes, from_probe_summary, report_of.
  by rewrite failed_count.
Qed.
Lemma report_valid : 0 <= boot -> BenchmarkReport_validate report_of = Ok tt <-> reportable.
Proof.
  intros Hb. unfold BenchmarkReport_validate, reportable.
  cbn [report_of rp_generation rp_elapsed_ms rp_bootstrap_ms rp_nodes rp_tested rp_succeeded rp_timed_out
       rp_failed rp_timing rp_probe timing_aggregate et_total].
  rewrite failed_count. rewrite refuse_then, !unit_then, !refuse_Ok, count_states, !Z.eqb_refl. cbn [negb].
  rewrite !orb_false_r, !orb_false_iff, Z.eqb_neq, !Z.ltb_ge, negb_false_iff, all_distinct_NoDup.
  rewrite (existsb_false_Forall _ (fun o => outcome_valid o = true)) by (intros; apply negb_false_iff).
  rewrite (existsb_false_Forall _ (fun o => po_completed_at_us o <= elapsed * 1000)) by (intros; apply Z.ltb_ge).
  rewrite Forall_and. split; [tauto|]. intros (Hg & [Hbe He] & Hl & [Hv Hc] & Hn).
  assert (0 <= et_probe (timing_aggregate boot elapsed)) by (cbn; unfold sat_sub_u; lia).
  rewrite aggregate_valid, summary_valid by done. cbn [timing_aggregate et_total]. tauto.
Qed.
End report.

(** A benchmark report is exactly as trustworthy as its outcomes: building it succeeds
    precisely when the run is of a generation, ended before the deadline, and its outcomes are
    well formed, of different nodes and no later than the run itself; the checks of the
    timings and of the summary never refuse what the code computed; and the counts are those of
    the outcomes, which they partition. *)
Theorem benchmark_report_exact trigger generation boot elapsed nodes :
  0 <= boot ->
  (reportable generation boot elapsed nodes ->
   from_outcomes trigger generation boot elapsed nodes = Ok (report_of trigger generation boot elapsed nodes))
  /\ (~ reportable generation boot elapsed nodes ->
      is_err (from_outcomes trigger generation boot elapsed nodes) = true)
  /\ (let r := report_of trigger generation boot elapsed nodes in
      rp_succeeded r + rp_timed_out r + rp_failed r = rp_tested r
      /\ (rp_status r = BsSuccess <-> Forall (fun o => po_state o = ProbeSuccess) nodes)
      /\ (rp_status r = BsFailed <-> nodes <> [] /\ Forall (fun o => po_state o <> ProbeSuccess) nodes)).
Proof.
  intros Hb. rewrite built_report. pose proof (report_valid trigger generation boot elapsed nodes Hb) as Hv.
  split_and!.
  - intros Hr. apply Hv in Hr. by rewrite Hr.
  - intros Hr. destruct (BenchmarkReport_validate _) as [[]|]; [|done]. by destruct Hr; apply Hv.
  - cbn zeta. split; [apply count_states|].
    cbn [report_of rp_status]. pose proof (count_if_len (in_state ProbeSuccess) nodes) as Hl.
    pose proof (count_if_all (in_state ProbeSuccess) nodes) as Hall.
    pose proof (count_if_zero (in_state ProbeSuccess) nodes) as Hzero.
    unfold in_state in Hall at 2, Hzero at 2. setoid_rewrite bool_decide_eq_true in Hall.
    setoid_rewrite bool_decide_eq_false in Hzero. rewrite <- Hall, <- Hzero.
    assert (nodes <> [] <-> len nodes <> 0) as -> by (destruct nodes; [done|]; unfold len; cbn; split; [lia|done]).
    destruct (Z.eqb_spec (count_if (in_state ProbeSuccess) nodes) (len nodes)),
      (Z.ltb_spec 0 (count_if (in_state ProbeSuccess) nodes)); split; split; intros; try done; lia.
Qed.
Lemma benchmark_report_exact_witness :
  let node := mkOutcome "nh1s-0123456789abcdef" ProbeSuccess (Some 40) 900 1000 in
  from_outcomes BtManual 3 10 200 [node] = Ok (report_of BtManual 3 10 200 [node])
  /\ rp_status (report_of BtManual 3 10 200 [node]) = BsSuccess.
Proof.
  intros node. split; [|vm_compute; reflexivity].
  apply (benchmark_report_exact BtManual 3 10 200 [node]); [lia|].
  unfold reportable, NODE_BENCHMARK_DEADLINE_MS, MAX_NODE_BENCHMARK_CANDIDATES.
  split_and!; [done|lia|lia|vm_compute; discriminate| |].
  - repeat constructor. vm_compute. discriminate.
  - apply NoDup_singleton.
Defined.

(** The report of an internal error is well formed for every generation. *)
Lemma internal_error_valid trigger generation elapsed :
  generation <> 0 -> 0 <= elapsed -> BenchmarkReport_validate (internal_error trigger generation elapsed) = Ok tt.
Proof.
  intros Hg He. unfold BenchmarkReport_validate, internal_error.
  cbn [rp_generation rp_elapsed_ms rp_bootstrap_ms rp_nodes rp_tested rp_succeeded rp_timed_out
       rp_failed rp_timing rp_probe existsb fmap list_fmap].
  set (e := Z.min elapsed NODE_BENCHMARK_DEADLINE_MS).
  assert (0 <= e /\ e <= NODE_BENCHMARK_DEADLINE_MS) as [? ?] by (unfold e, NODE_BENCHMARK_DEADLINE_MS; lia).
  rewrite (proj2 (Z.eqb_neq generation 0)), (proj2 (Z.ltb_ge NODE_BENCHMARK_DEADLINE_MS e)),
    (proj2 (Z.ltb_ge e 0)) by done.
  cbn [len length orb negb]. rewrite aggregate_valid by lia.
  assert (0 <= et_probe (timing_aggregate 0 e)) as Hprobe by (cbn; unfold sat_sub_u; lia).
  pose proof (proj2 (summary_valid [] (timing_aggregate 0 e) ltac:(vm_compute; discriminate) Hprobe)
                ltac:(constructor)) as Hs.
  change (summary_validate summary_empty 0 0 (timing_aggregate 0 e) = Ok tt) in Hs.
  cbn [mbind Result_bind refuse]. rewrite Hs. done.
Qed.
