(* ===== verification/Cli.v ===== *)
(** * Cli: the command-line client

    [nethopctl/src/lib.rs]: from the words of the command line to a request of the control
    protocol.  [parse_command] reads the command, [parse_invocation] its options and
    arguments, [build_request] makes the request.  The JSON given on standard input is a
    value; [serde_json::from_value] is a parameter.  Indexing out of range is [None]. *)

From S2P Require Import Prelude Text Json EventLog Config Protocol ProtocolFrame ProtocolBench.

Local Open Scope Z_scope.

Inductive CliCommand : Type :=
| CliStatus | CliStart | CliStop | CliServiceCheck | CliServiceRestart | CliServiceReload
| CliCaptureEnable | CliCaptureDisable | CliCaptureStatus | CliCoreStart | CliCoreStop | CliCoreStatus
| CliResourceStatus | CliProbe | CliUpdate | CliConfigReload | CliConfigCheck | CliProtocolHello
| CliConfigGet | CliConfigValidate | CliConfigApply | CliConfigSchema | CliConfigMutate
| CliCapabilityGet | CliEvents | CliNodeList | CliNodeTest | CliNodeTestAll | CliNodeSelection
| CliNodeCurrent | CliNodeShow | CliNodeOverrideApply | CliNodeSelectAuto | CliNodeSelectManual
| CliNodeUseAuto | CliNodeUseManual | CliNodeDelay | CliNodeImport | CliNodeEdit | CliNodeRemove
| CliNodeExport | CliNodeOverrideGet | CliNodeOverrideRemove | CliConnectionsGet | CliConnectionShow
| CliConnectionClose | CliConnectionsCloseAll | CliLogsGet | CliLogsTail | CliLogsClear
| CliSubscriptionList | CliSubscriptionShow | CliSubscriptionInspect | CliSubscriptionDiagnose
| CliSubscriptionHistory | CliSubscriptionUpdateAll | CliSubscriptionEdit | CliSubscriptionMode
| CliSubscriptionModeSetSingle | CliSubscriptionModeSetMerge | CliSubscriptionSelect
| CliSubscriptionAdd | CliSubscriptionRemove | CliSubscriptionMove | CliSubscriptionEnable
| CliSubscriptionDisable | CliSubscriptionImportPreview | CliSubscriptionImportApply
| CliApplicationAddPackage | CliApplicationRemovePackage | CliApplicationAddUid
| CliApplicationRemoveUid | CliApplicationList | CliApplicationUsers | CliApplicationPolicySet
| CliApplicationMode | CliNetworkSet | CliNetworkStatus | CliNetworkEvaluate | CliWifiStatus
| CliHotspotStatus | CliCaptureCheck | CliDiagnosticsBundle | CliLogsExport | CliSupportBundle
| CliTopologyGet | CliTrafficGet | CliTrafficLive | CliMetricsGet | CliBackupExport
| CliBackupRestore | CliCoreVersionCheck | CliRuleSetStatus | CliRuleSetList | CliRuleSetShow
| CliRuleSetUpdate | CliWebUiPayloadCreate | CliWebUiPayloadAppend | CliWebUiPayloadCommit
| CliWebUiPayloadRemove | CliHelp | CliVersion.

Definition command_method (c : CliCommand) : ControlMethod :=
  match c with
  | CliStatus | CliServiceCheck | CliHelp | CliVersion => StatusGet
  | CliStart => ServiceStart
  | CliStop => ServiceStop
  | CliServiceRestart => ServiceRestart
  | CliServiceReload | CliConfigReload => ConfigReload
  | CliCaptureEnable => CaptureEnable
  | CliCaptureDisable => CaptureDisable
  | CliCaptureStatus => CaptureStatus
  | CliCoreStart => CoreStart
  | CliCoreStop => CoreStop
  | CliCoreStatus => CoreStatus
  | CliResourceStatus => ResourceStatus
  | CliProbe | CliCaptureCheck => CapabilityProbe
  | CliUpdate | CliSubscriptionUpdateAll => SubscriptionUpdate
  | CliConfigCheck => ConfigCheck
  | CliProtocolHello => ProtocolHello
  | CliConfigGet | CliSubscriptionList | CliApplicationList | CliApplicationUsers => ConfigGet
  | CliConfigValidate => ConfigValidate
  | CliConfigApply | CliBackupRestore => ConfigApply
  | CliConfigSchema => ConfigSchema
  | CliConfigMutate | CliNodeEdit | CliNodeRemove | CliSubscriptionEdit | CliApplicationPolicySet
  | CliSubscriptionAdd | CliSubscriptionRemove | CliSubscriptionMove | CliApplicationAddPackage
  | CliApplicationRemovePackage | CliApplicationAddUid | CliApplicationRemoveUid
  | CliApplicationMode | CliNetworkSet => ConfigMutate
  | CliCapabilityGet => CapabilityGet
  | CliEvents | CliLogsTail | CliTrafficLive => EventsSubscribe
  | CliNodeList | CliNodeShow => NodeList
  | CliNodeTest | CliNodeDelay => NodeTestOne
  | CliNodeTestAll => NodeTestAll
  | CliNodeSelection | CliNodeCurrent => NodeSelectionGet
  | CliNodeSelectAuto | CliNodeUseAuto => NodeSelectAuto
  | CliNodeSelectManual | CliNodeUseManual => NodeSelectManual
  | CliNodeImport | CliSubscriptionImportPreview => SubscriptionImportPreview
  | CliNodeExport => NodeExport
  | CliNodeOverrideGet => NodeOverrideGet
  | CliNodeOverrideApply => NodeOverrideApply
  | CliNodeOverrideRemove => NodeOverrideRemove
  | CliConnectionsGet | CliConnectionShow => ConnectionsGet
  | CliConnectionClose => ConnectionClose
  | CliConnectionsCloseAll => ConnectionsCloseAll
  | CliLogsGet => LogsGet
  | CliLogsClear => LogsClear
  | CliSubscriptionShow | CliSubscriptionInspect => SubscriptionInspect
  | CliSubscriptionDiagnose => SubscriptionDiagnose
  | CliSubscriptionHistory => SubscriptionHistory
  | CliSubscriptionMode => SubscriptionModeGet
  | CliSubscriptionModeSetSingle | CliSubscriptionModeSetMerge => SubscriptionModeSet
  | CliSubscriptionSelect => SubscriptionSelect
  | CliSubscriptionImportApply => SubscriptionImportApply
  | CliNetworkStatus | CliNetworkEvaluate | CliWifiStatus | CliHotspotStatus | CliTopologyGet => TopologyGet
  | CliSubscriptionEnable | CliSubscriptionDisable => SubscriptionSetEnabled
  | CliDiagnosticsBundle | CliLogsExport | CliSupportBundle => DiagnosticsBundle
  | CliTrafficGet => TrafficGet
  | CliMetricsGet => MetricsGet
  | CliBackupExport => ConfigExport
  | CliCoreVersionCheck => CoreVersionCheck
  | CliRuleSetStatus | CliRuleSetList | CliRuleSetShow => RuleSetStatus
  | CliRuleSetUpdate => RuleSetUpdate
  | CliWebUiPayloadCreate => WebUiPayloadCreate
  | CliWebUiPayloadAppend => WebUiPayloadAppend
  | CliWebUiPayloadCommit => WebUiPayloadCommit
  | CliWebUiPayloadRemove => WebUiPayloadRemove
  end.

Definition control_timeout (c : CliCommand) (wait : bool) : Z :=
  if wait then from_secs 30
  else
    match c with
    | CliNodeTestAll => from_secs 6
    | CliCaptureEnable | CliCaptureDisable | CliCoreStart | CliCoreStop | CliNetworkSet
    | CliSubscriptionEnable | CliSubscriptionDisable | CliSubscriptionModeSetSingle
    | CliSubscriptionModeSetMerge | CliSubscriptionSelect | CliWebUiPayloadCommit => from_secs 10
    | _ => from_secs 5
    end.

(** ** The words of a command *)

(** A [match] on the next word: what follows each literal, and the command when there is no
    word ([None]: a usage error). *)
Inductive Words : Type :=
| Leaf (c : CliCommand)
| Next (at_end : option CliCommand) (table : list (string * Words)).
Definition assoc {A} (key : string) (table : list (string * A)) : option A :=
  snd <$> find (fun kv => String.eqb kv.1 key) table.
Definition command_words : Words :=
  let leaves l := Next None (map (fun kv => (kv.1, Leaf kv.2)) l) in
  Next None [
    ("status", Leaf CliStatus); ("start", Leaf CliStart); ("stop", Leaf CliStop);
    ("service", leaves [("check", CliServiceCheck); ("status", CliServiceCheck);
                        ("restart", CliServiceRestart); ("reload", CliServiceReload)]);
    ("capture", leaves [("enable", CliCaptureEnable); ("disable", CliCaptureDisable);
                        ("status", CliCaptureStatus); ("check", CliCaptureCheck)]);
    ("core", leaves [("start", CliCoreStart); ("stop", CliCoreStop); ("status", CliCoreStatus);
                     ("version-check", CliCoreVersionCheck)]);
    ("resource", leaves [("status", CliResourceStatus)]);
    ("probe", Leaf CliProbe); ("update", Leaf CliUpdate);
    ("config", leaves [("reload", CliConfigReload); ("check", CliConfigCheck); ("get", CliConfigGet);
                       ("validate", CliConfigValidate); ("apply", CliConfigApply);
                       ("schema", CliConfigSchema); ("mutate", CliConfigMutate)]);
    ("hello", Leaf CliProtocolHello);
    ("capability", leaves [("get", CliCapabilityGet)]);
    ("events", Leaf CliEvents);
    ("node", Next None [
       ("list", Leaf CliNodeList); ("current", Leaf CliNodeCurrent); ("show", Leaf CliNodeShow);
       ("test", Leaf CliNodeTest); ("test-all", Leaf CliNodeTestAll);
       ("selection", Leaf CliNodeSelection);
       ("select", leaves [("auto", CliNodeSelectAuto); ("manual", CliNodeSelectManual)]);
       ("use", leaves [("auto", CliNodeUseAuto); ("manual", CliNodeUseManual)]);
       ("delay", Leaf CliNodeDelay); ("import", Leaf CliNodeImport); ("edit", Leaf CliNodeEdit);
       ("remove", Leaf CliNodeRemove); ("export", Leaf CliNodeExport);
       ("override", leaves [("get", CliNodeOverrideGet); ("apply", CliNodeOverrideApply);
                            ("remove", CliNodeOverrideRemove)])]);
    ("connections", Next (Some CliConnectionsGet) [("close-all", Leaf CliConnectionsCloseAll)]);
    ("connection", leaves [("close", CliConnectionClose); ("show", CliConnectionShow)]);
    ("diagnose", Leaf CliDiagnosticsBundle); ("topology", Leaf CliTopologyGet);
    ("traffic", Next (Some CliTrafficGet) [("live", Leaf CliTrafficLive)]);
    ("metrics", Leaf CliMetricsGet);
    ("backup", leaves [("export", CliBackupExport); ("restore", CliBackupRestore)]);
    ("ruleset", leaves [("status", CliRuleSetStatus); ("list", CliRuleSetStatus);
                        ("show", CliRuleSetShow); ("update", CliRuleSetUpdate)]);
    ("webui", Next None [
       ("payload", leaves [("create", CliWebUiPayloadCreate); ("append", CliWebUiPayloadAppend);
                           ("commit", CliWebUiPayloadCommit); ("remove", CliWebUiPayloadRemove)]);
       ("icon", leaves [("capability", CliCapabilityGet); ("theme", CliApplicationList)])]);
    ("logs", leaves [("get", CliLogsGet); ("tail", CliLogsTail); ("clear", CliLogsClear);
                     ("export", CliLogsExport)]);
    ("subscription", Next None [
       ("list", Leaf CliSubscriptionList); ("show", Leaf CliSubscriptionShow);
       ("inspect", Leaf CliSubscriptionInspect); ("diagnose", Leaf CliSubscriptionDiagnose);
       ("history", Leaf CliSubscriptionHistory); ("update-all", Leaf CliSubscriptionUpdateAll);
       ("edit", Leaf CliSubscriptionEdit);
       ("mode", Next (Some CliSubscriptionMode)
                  [("set", leaves [("single", CliSubscriptionModeSetSingle);
                                   ("merge", CliSubscriptionModeSetMerge)])]);
       ("select", Leaf CliSubscriptionSelect); ("add", Leaf CliSubscriptionAdd);
       ("remove", Leaf CliSubscriptionRemove); ("move", Leaf CliSubscriptionMove);
       ("enable", Leaf CliSubscriptionEnable); ("disable", Leaf CliSubscriptionDisable);
       ("update", Leaf CliUpdate);
       ("import", leaves [("preview", CliSubscriptionImportPreview);
                          ("apply", CliSubscriptionImportApply)])]);
    ("application", Next None [
       ("list", Leaf CliApplicationList); ("users", Leaf CliApplicationUsers);
       ("policy", leaves [("set", CliApplicationPolicySet)]); ("mode", Leaf CliApplicationMode);
       ("add-package", Leaf CliApplicationAddPackage); ("remove-package", Leaf CliApplicationRemovePackage);
       ("add-uid", Leaf CliApplicationAddUid); ("remove-uid", Leaf CliApplicationRemoveUid)]);
    ("network", leaves [("set", CliNetworkSet); ("status", CliNetworkStatus);
                        ("evaluate", CliNetworkEvaluate)]);
    ("wifi", leaves [("status", CliWifiStatus)]); ("hotspot", leaves [("status", CliHotspotStatus)]);
    ("support", leaves [("bundle", CliSupportBundle)]);
    ("help", Leaf CliHelp); ("--help", Leaf CliHelp); ("-h", Leaf CliHelp);
    ("version", Leaf CliVersion); ("--version", Leaf CliVersion); ("-V", Leaf CliVersion)].

Fixpoint walk_words (arguments : list string) (w : Words) : Result CliError CliCommand :=
  match w with
  | Leaf c => match arguments with [] => Ok c | _ :: _ => Err Usage end
  | Next at_end table =>
      match arguments with
      | [] => ok_or at_end Usage
      | word :: rest =>
          match assoc word table with Some next => walk_words rest next | None => Err Usage end
      end
  end.
Definition parse_command (arguments : list string) : Result CliError CliCommand :=
  walk_words arguments command_words.

Definition is_word (o : option string) (w : string) : bool := bool_decide (o = Some w).
Definition two_words : list string :=
  ["config"; "capability"; "node"; "connection"; "logs"; "subscription"; "application"; "network";
   "backup"; "core"; "capture"; "resource"; "ruleset"; "service"; "wifi"; "hotspot"; "support";
   "traffic"].
Definition command_length (arguments : list string) : Result CliError nat :=
  let second := is_word (arguments !! 1%nat) in
  match arguments with
  | [] => Err Usage
  | first :: _ =>
      let first := String.eqb first in
      if first "subscription" && second "import" then Ok 3%nat
      else if first "subscription" && second "mode" && is_word (arguments !! 2%nat) "set" then Ok 4%nat
      else if first "subscription" && second "mode" then Ok 2%nat
      else if first "node" && second "select" then Ok 3%nat
      else if first "node" && second "use" then Ok 3%nat
      else if first "node" && second "override" then Ok 3%nat
      else if first "application" && second "policy" then Ok 3%nat
      else if first "webui" && second "payload" then Ok 3%nat
      else if existsb first two_words then Ok 2%nat
      else if first "connections" && second "close-all" then Ok 2%nat
      else Ok 1%nat
  end.

(** ** Options and arguments *)
Record Options : Type := mkOptions {
  o_wait : bool;
  o_if_needed : bool;
  o_expected_digest : option string;
  o_candidate_digest : option string;
  o_input_file : option string;
  o_text_input : bool;
  o_import_format : option string;
  o_source_id : option string;
  o_human : bool;
  o_session_id : option string;
  o_max_runtime : option Z;
  o_structured : bool;
  o_manager_version : option string;
  o_protocol_min : option Z;
  o_protocol_max : option Z;
  o_event_kinds : list EventKind;
  o_target : option string;
  o_query : option string;
  o_limit : option Z;
  o_log_channel : option LogChannel;
  o_before : option string;
  o_positional : list string;
  o_user : option Z;
}.
Definition no_options : Options :=
  mkOptions false false None None None false None None false None None false None None None [] None None None None None [] None.
Definition set_wait (v : bool) (o : Options) : Options :=
  mkOptions v (o_if_needed o) (o_expected_digest o) (o_candidate_digest o) (o_input_file o)
    (o_text_input o) (o_import_format o) (o_source_id o) (o_human o) (o_session_id o)
    (o_max_runtime o) (o_structured o) (o_manager_version o) (o_protocol_min o) (o_protocol_max o)
    (o_event_kinds o) (o_target o) (o_query o) (o_limit o) (o_log_channel o) (o_before o)
    (o_positional o) (o_user o).
Definition set_if_needed (v : bool) (o : Options) : Options :=
  mkOptions (o_wait o) v (o_expected_digest o) (o_candidate_digest o) (o_input_file o)
    (o_text_input o) (o_import_format o) (o_source_id o) (o_human o) (o_session_id o)
    (o_max_runtime o) (o_structured o) (o_manager_version o) (o_protocol_min o) (o_protocol_max o)
    (o_event_kinds o) (o_target o) (o_query o) (o_limit o) (o_log_channel o) (o_before o)
    (o_positional o) (o_user o).
Definition set_expected_digest (v : option string) (o : Options) : Options :=
  mkOptions (o_wait o) (o_if_needed o) v (o_candidate_digest o) (o_input_file o) (o_text_input o)
    (o_import_format o) (o_source_id o) (o_human o) (o_session_id o) (o_max_runtime o)
    (o_structured o) (o_manager_version o) (o_protocol_min o) (o_protocol_max o) (o_event_kinds o)
    (o_target o) (o_query o) (o_limit o) (o_log_channel o) (o_before o) (o_positional o) (o_user o).
Definition set_candidate_digest (v : option string) (o : Options) : Options :=
  mkOptions (o_wait o) (o_if_needed o) (o_expected_digest o) v (o_input_file o) (o_text_input o)
    (o_import_format o) (o_source_id o) (o_human o) (o_session_id o) (o_max_runtime o)
    (o_structured o) (o_manager_version o) (o_protocol_min o) (o_protocol_max o) (o_event_kinds o)
    (o_target o) (o_query o) (o_limit o) (o_log_channel o) (o_before o) (o_positional o) (o_user o).
Definition set_input_file (v : option string) (o : Options) : Options :=
  mkOptions (o_wait o) (o_if_needed o) (o_expected_digest o) (o_candidate_digest o) v
    (o_text_input o) (o_import_format o) (o_source_id o) (o_human o) (o_session_id o)
    (o_max_runtime o) (o_structured o) (o_manager_version o) (o_protocol_min o) (o_protocol_max o)
    (o_event_kinds o) (o_target o) (o_query o) (o_limit o) (o_log_channel o) (o_before o)
    (o_positional o) (o_user o).
Definition set_text_input (v : bool) (o : Options) : Options :=
  mkOptions (o_wait o) (o_if_needed o) (o_expected_digest o) (o_candidate_digest o)
    (o_input_file o) v (o_import_format o) (o_source_id o) (o_human o) (o_session_id o)
    (o_max_runtime o) (o_structured o) (o_manager_version o) (o_protocol_min o) (o_protocol_max o)
    (o_event_kinds o) (o_target o) (o_query o) (o_limit o) (o_log_channel o) (o_before o)
    (o_positional o) (o_user o).
Definition set_import_format (v : option string) (o : Options) : Options :=
  mkOptions (o_wait o) (o_if_needed o) (o_expected_digest o) (o_candidate_digest o) (o_input_file o)
    (o_text_input o) v (o_source_id o) (o_human o) (o_session_id o) (o_max_runtime o)
    (o_structured o) (o_manager_version o) (o_protocol_min o) (o_protocol_max o) (o_event_kinds o)
    (o_target o) (o_query o) (o_limit o) (o_log_channel o) (o_before o) (o_positional o) (o_user o).
Definition set_source_id (v : option string) (o : Options) : Options :=
  mkOptions (o_wait o) (o_if_needed o) (o_expected_digest o) (o_candidate_digest o) (o_input_file o)
    (o_text_input o) (o_import_format o) v (o_human o) (o_session_id o) (o_max_runtime o)
    (o_structured o) (o_manager_version o) (o_protocol_min o) (o_protocol_max o) (o_event_kinds o)
    (o_target o) (o_query o) (o_limit o) (o_log_channel o) (o_before o) (o_positional o) (o_user o).
Definition set_human (v : bool) (o : Options) : Options :=
  mkOptions (o_wait o) (o_if_needed o) (o_expected_digest o) (o_candidate_digest o) (o_input_file o)
    (o_text_input o) (o_import_format o) (o_source_id o) v (o_session_id o) (o_max_runtime o)
    (o_structured o) (o_manager_version o) (o_protocol_min o) (o_protocol_max o) (o_event_kinds o)
    (o_target o) (o_query o) (o_limit o) (o_log_channel o) (o_before o) (o_positional o) (o_user o).
Definition set_session_id (v : option string) (o : Options) : Options :=
  mkOptions (o_wait o) (o_if_needed o) (o_expected_digest o) (o_candidate_digest o) (o_input_file o)
    (o_text_input o) (o_import_format o) (o_source_id o) (o_human o) v (o_max_runtime o)
    (o_structured o) (o_manager_version o) (o_protocol_min o) (o_protocol_max o) (o_event_kinds o)
    (o_target o) (o_query o) (o_limit o) (o_log_channel o) (o_before o) (o_positional o) (o_user o).
Definition set_max_runtime (v : option Z) (o : Options) : Options :=
  mkOptions (o_wait o) (o_if_needed o) (o_expected_digest o) (o_candidate_digest o) (o_input_file o)
    (o_text_input o) (o_import_format o) (o_source_id o) (o_human o) (o_session_id o) v
    (o_structured o) (o_manager_version o) (o_protocol_min o) (o_protocol_max o) (o_event_kinds o)
    (o_target o) (o_query o) (o_limit o) (o_log_channel o) (o_before o) (o_positional o) (o_user o).
Definition set_structured (v : bool) (o : Options) : Options :=
  mkOptions (o_wait o) (o_if_needed o) (o_expected_digest o) (o_candidate_digest o) (o_input_file o)
    (o_text_input o) (o_import_format o) (o_source_id o) (o_human o) (o_session_id o)
    (o_max_runtime o) v (o_manager_version o) (o_protocol_min o) (o_protocol_max o)
    (o_event_kinds o) (o_target o) (o_query o) (o_limit o) (o_log_channel o) (o_before o)
    (o_positional o) (o_user o).
Definition set_manager_version (v : option string) (o : Options) : Options :=
  mkOptions (o_wait o) (o_if_needed o) (o_expected_digest o) (o_candidate_digest o) (o_input_file o)
    (o_text_input o) (o_import_format o) (o_source_id o) (o_human o) (o_session_id o)
    (o_max_runtime o) (o_structured o) v (o_protocol_min o) (o_protocol_max o) (o_event_kinds o)
    (o_target o) (o_query o) (o_limit o) (o_log_channel o) (o_before o) (o_positional o) (o_user o).
Definition set_protocol_min (v : option Z) (o : Options) : Options :=
  mkOptions (o_wait o) (o_if_needed o) (o_expected_digest o) (o_candidate_digest o) (o_input_file o)
    (o_text_input o) (o_import_format o) (o_source_id o) (o_human o) (o_session_id o)
    (o_max_runtime o) (o_structured o) (o_manager_version o) v (o_protocol_max o) (o_event_kinds o)
    (o_target o) (o_query o) (o_limit o) (o_log_channel o) (o_before o) (o_positional o) (o_user o).
Definition set_protocol_max (v : option Z) (o : Options) : Options :=
  mkOptions (o_wait o) (o_if_needed o) (o_expected_digest o) (o_candidate_digest o) (o_input_file o)
    (o_text_input o) (o_import_format o) (o_source_id o) (o_human o) (o_session_id o)
    (o_max_runtime o) (o_structured o) (o_manager_version o) (o_protocol_min o) v (o_event_kinds o)
    (o_target o) (o_query o) (o_limit o) (o_log_channel o) (o_before o) (o_positional o) (o_user o).
Definition set_event_kinds (v : list EventKind) (o : Options) : Options :=
  mkOptions (o_wait o) (o_if_needed o) (o_expected_digest o) (o_candidate_digest o) (o_input_file o)
    (o_text_input o) (o_import_format o) (o_source_id o) (o_human o) (o_session_id o)
    (o_max_runtime o) (o_structured o) (o_manager_version o) (o_protocol_min o) (o_protocol_max o) v
    (o_target o) (o_query o) (o_limit o) (o_log_channel o) (o_before o) (o_positional o) (o_user o).
Definition set_target (v : option string) (o : Options) : Options :=
  mkOptions (o_wait o) (o_if_needed o) (o_expected_digest o) (o_candidate_digest o) (o_input_file o)
    (o_text_input o) (o_import_format o) (o_source_id o) (o_human o) (o_session_id o)
    (o_max_runtime o) (o_structured o) (o_manager_version o) (o_protocol_min o) (o_protocol_max o)
    (o_event_kinds o) v (o_query o) (o_limit o) (o_log_channel o) (o_before o) (o_positional o)
    (o_user o).
Definition set_query (v : option string) (o : Options) : Options :=
  mkOptions (o_wait o) (o_if_needed o) (o_expected_digest o) (o_candidate_digest o) (o_input_file o)
    (o_text_input o) (o_import_format o) (o_source_id o) (o_human o) (o_session_id o)
    (o_max_runtime o) (o_structured o) (o_manager_version o) (o_protocol_min o) (o_protocol_max o)
    (o_event_kinds o) (o_target o) v (o_limit o) (o_log_channel o) (o_before o) (o_positional o)
    (o_user o).
Definition set_limit (v : option Z) (o : Options) : Options :=
  mkOptions (o_wait o) (o_if_needed o) (o_expected_digest o) (o_candidate_digest o) (o_input_file o)
    (o_text_input o) (o_import_format o) (o_source_id o) (o_human o) (o_session_id o)
    (o_max_runtime o) (o_structured o) (o_manager_version o) (o_protocol_min o) (o_protocol_max o)
    (o_event_kinds o) (o_target o) (o_query o) v (o_log_channel o) (o_before o) (o_positional o)
    (o_user o).
Definition set_log_channel (v : option LogChannel) (o : Options) : Options :=
  mkOptions (o_wait o) (o_if_needed o) (o_expected_digest o) (o_candidate_digest o) (o_input_file o)
    (o_text_input o) (o_import_format o) (o_source_id o) (o_human o) (o_session_id o)
    (o_max_runtime o) (o_structured o) (o_manager_version o) (o_protocol_min o) (o_protocol_max o)
    (o_event_kinds o) (o_target o) (o_query o) (o_limit o) v (o_before o) (o_positional o)
    (o_user o).
Definition set_before (v : option string) (o : Options) : Options :=
  mkOptions (o_wait o) (o_if_needed o) (o_expected_digest o) (o_candidate_digest o) (o_input_file o)
    (o_text_input o) (o_import_format o) (o_source_id o) (o_human o) (o_session_id o)
    (o_max_runtime o) (o_structured o) (o_manager_version o) (o_protocol_min o) (o_protocol_max o)
    (o_event_kinds o) (o_target o) (o_query o) (o_limit o) (o_log_channel o) v (o_positional o)
    (o_user o).
Definition set_positional (v : list string) (o : Options) : Options :=
  mkOptions (o_wait o) (o_if_needed o) (o_expected_digest o) (o_candidate_digest o) (o_input_file o)
    (o_text_input o) (o_import_format o) (o_source_id o) (o_human o) (o_session_id o)
    (o_max_runtime o) (o_structured o) (o_manager_version o) (o_protocol_min o) (o_protocol_max o)
    (o_event_kinds o) (o_target o) (o_query o) (o_limit o) (o_log_channel o) (o_before o) v
    (o_user o).
Definition set_user (v : option Z) (o : Options) : Options :=
  mkOptions (o_wait o) (o_if_needed o) (o_expected_digest o) (o_candidate_digest o) (o_input_file o)
    (o_text_input o) (o_import_format o) (o_source_id o) (o_human o) (o_session_id o)
    (o_max_runtime o) (o_structured o) (o_manager_version o) (o_protocol_min o) (o_protocol_max o)
    (o_event_kinds o) (o_target o) (o_query o) (o_limit o) (o_log_channel o) (o_before o)
    (o_positional o) v.

Definition valid_event_session_id : string -> bool := hex_name 36 "evt_".
Definition import_formats : list string :=
  ["auto"; "uri_list"; "base64_list"; "clash_yaml"; "singbox_json"; "ini_profile"; "surfboard_ini"].
Definition event_kind_of (kind : list Z) : option EventKind :=
  assoc (of_bytes kind)
    [("config", EventLog.Config); ("runtime", Runtime); ("subscription", Subscription);
     ("generation", Generation); ("network", Network); ("traffic", Traffic);
     ("subscription-mode", EventLog.SubscriptionMode); ("subscription-active-set", SubscriptionActiveSet);
     ("node-selection", NodeSelection); ("node-active", NodeActive); ("node-test", NodeTest)].
Definition parse_event_kinds (value : string) : Result CliError (list EventKind) :=
  if str_len value =? 0 then Err Usage
  else ok_or (mapM event_kind_of (split_on 44 (bytes value))) Usage.

Definition takes_source (c : CliCommand) : bool :=
  match c with
  | CliUpdate | CliSubscriptionModeSetSingle | CliSubscriptionInspect | CliSubscriptionShow
  | CliSubscriptionDiagnose | CliSubscriptionHistory => true
  | _ => false
  end.
Definition takes_format (c : CliCommand) : bool :=
  match c with CliSubscriptionImportPreview | CliSubscriptionImportApply | CliNodeImport => true | _ => false end.
Definition takes_user (c : CliCommand) : bool :=
  match c with
  | CliApplicationAddPackage | CliApplicationRemovePackage | CliApplicationAddUid
  | CliApplicationRemoveUid | CliApplicationList => true
  | _ => false
  end.
Definition target_command (c : CliCommand) : bool :=
  match c with
  | CliNodeTest | CliNodeShow | CliNodeDelay | CliNodeUseManual | CliNodeSelectManual | CliNodeRemove
  | CliNodeExport | CliNodeOverrideGet | CliNodeOverrideApply | CliNodeOverrideRemove
  | CliConnectionClose | CliConnectionShow => true
  | _ => false
  end.
Definition query_command (c : CliCommand) : bool :=
  match c with CliNodeList | CliConnectionsGet => true | _ => false end.
Definition takes_positional (c : CliCommand) : bool :=
  match c with
  | CliSubscriptionAdd | CliUpdate | CliSubscriptionRemove | CliSubscriptionMove
  | CliSubscriptionEnable | CliSubscriptionDisable | CliSubscriptionSelect
  | CliApplicationAddPackage | CliApplicationRemovePackage | CliApplicationAddUid
  | CliApplicationRemoveUid | CliApplicationMode | CliApplicationPolicySet | CliNetworkSet
  | CliWebUiPayloadCreate | CliWebUiPayloadAppend | CliWebUiPayloadCommit | CliWebUiPayloadRemove
  | CliApplicationList | CliSubscriptionShow | CliSubscriptionInspect | CliSubscriptionDiagnose
  | CliSubscriptionHistory | CliRuleSetShow => true
  | _ => false
  end.
Definition is_status (c : CliCommand) : bool := match c with CliStatus => true | _ => false end.
Definition is_logs_get (c : CliCommand) : bool := match c with CliLogsGet => true | _ => false end.
Definition log_channel_of (value : string) : option LogChannel :=
  assoc value [("service", EventLog.ChService); ("subscription", ChSubscription); ("core", ChCore)].
Definition ranged (w lo hi : Z) (value : string) : option Z :=
  n ← parse_uint w (bytes value);
  if in_range lo hi n then Some n else None.

(** A word that is no option: the target, the query or one more argument. *)
Definition parse_word (c : CliCommand) (value : string) (o : Options) : Result CliError Options :=
  if starts_with "-" value then Err Usage
  else if target_command c && negb (is_some (o_target o)) then Ok (set_target (Some value) o)
  else if query_command c && negb (is_some (o_query o)) then Ok (set_query (Some value) o)
  else if takes_positional c then Ok (set_positional (o_positional o ++ [value]) o)
  else Err Usage.
(** An option that takes a value, and the options it gives; [None]: no such option, or one
    that is already given or not for this command. *)
Definition parse_valued (c : CliCommand) (opt value : string) (o : Options) :
    option (Result CliError Options) :=
  let isO := String.eqb opt in
  let ok (guard : bool) (r : Result CliError Options) := if guard then Some r else None in
  if isO "--source" then
    ok (negb (is_some (o_source_id o)) && takes_source c)
       (if valid_source_id value then Ok (set_source_id (Some value) o) else Err Usage)
  else if isO "--expected-digest" then
    ok (negb (is_some (o_expected_digest o))) (Ok (set_expected_digest (Some value) o))
  else if isO "--candidate-digest" then
    ok (negb (is_some (o_candidate_digest o))) (Ok (set_candidate_digest (Some value) o))
  else if isO "--file" then
    ok (negb (is_some (o_input_file o)) && negb (o_text_input o)) (Ok (set_input_file (Some value) o))
  else if isO "--format" then
    ok (negb (is_some (o_import_format o)) && takes_format c)
       (if existsb (String.eqb value) import_formats then Ok (set_import_format (Some value) o)
        else Err Usage)
  else if isO "--manager-version" then
    ok (negb (is_some (o_manager_version o))) (Ok (set_manager_version (Some value) o))
  else if isO "--protocol-min" then
    ok (negb (is_some (o_protocol_min o))) (Ok (set_protocol_min (parse_uint 8 (bytes value)) o))
  else if isO "--protocol-max" then
    ok (negb (is_some (o_protocol_max o))) (Ok (set_protocol_max (parse_uint 8 (bytes value)) o))
  else if isO "--kinds" then
    ok (len (o_event_kinds o) =? 0)
       (kinds ← parse_event_kinds value; Ok (set_event_kinds kinds o))
  else if isO "--session-id" then
    ok (negb (is_some (o_session_id o)))
       (if valid_event_session_id value then Ok (set_session_id (Some value) o) else Err Usage)
  else if isO "--max-runtime-seconds" then
    ok (negb (is_some (o_max_runtime o)))
       (n ← ok_or (ranged 64 30 3600 value) Usage; Ok (set_max_runtime (Some n) o))
  else if isO "--limit" then
    ok (negb (is_some (o_limit o)))
       (n ← ok_or (ranged 8 1 128 value) Usage; Ok (set_limit (Some n) o))
  else if isO "--user" then
    ok (negb (is_some (o_user o)) && takes_user c)
       (n ← ok_or (parse_uint 32 (bytes value)) Usage; Ok (set_user (Some n) o))
  else if isO "--channel" then
    ok (negb (is_some (o_log_channel o)) && is_logs_get c)
       (ch ← ok_or (log_channel_of value) Usage; Ok (set_log_channel (Some ch) o))
  else if isO "--before" then
    ok (negb (is_some (o_before o))) (Ok (set_before (Some value) o))
  else None.
Definition valued_options : list string :=
  ["--source"; "--expected-digest"; "--candidate-digest"; "--file"; "--format"; "--manager-version";
   "--protocol-min"; "--protocol-max"; "--kinds"; "--session-id"; "--max-runtime-seconds"; "--limit";
   "--user"; "--channel"; "--before"].
(** The three options whose missing value is not an error on the spot. *)
Definition lenient (opt : string) : bool :=
  existsb (String.eqb opt) ["--manager-version"; "--protocol-min"; "--protocol-max"].
Definition parse_flag (c : CliCommand) (opt : string) (o : Options) : Result CliError Options :=
  let isO := String.eqb opt in
  if isO "--wait" then if o_wait o then Err Usage else Ok (set_wait true o)
  else if isO "--if-needed" then if o_if_needed o then Err Usage else Ok (set_if_needed true o)
  else if isO "--json" || isO "--jsonl" then Ok (set_structured true o)
  else if isO "--human" then if is_status c && negb (o_human o) then Ok (set_human true o) else Err Usage
  else if isO "--text" then
    if negb (is_some (o_input_file o)) && negb (o_text_input o) then Ok (set_text_input true o) else Err Usage
  else parse_word c opt o.
Fixpoint parse_options (c : CliCommand) (words : list string) (o : Options) : Result CliError Options :=
  match words with
  | [] => Ok o
  | opt :: rest =>
      if existsb (String.eqb opt) valued_options then
        match rest with
        | value :: rest =>
            match parse_valued c opt value o with
            | Some (Ok o) => parse_options c rest o
            | Some (Err e) => Err e
            | None => Err Usage
            end
        | [] => if lenient opt && is_some (parse_valued c opt "" o) then Ok o else Err Usage
        end
      else
        match parse_flag c opt o with
        | Ok o => parse_options c rest o
        | Err e => Err e
        end
  end.

(** The tests [parse_invocation] makes once the words are read. *)
Definition cli_wait_allowed (c : CliCommand) : bool :=
  match c with
  | CliStart | CliStop | CliServiceRestart | CliServiceReload | CliCaptureEnable | CliCaptureDisable
  | CliCoreStart | CliCoreStop | CliUpdate | CliRuleSetUpdate | CliConfigReload => true
  | _ => false
  end.
Definition is_update (c : CliCommand) : bool := match c with CliUpdate => true | _ => false end.
Definition needs_digest (c : CliCommand) : bool :=
  match c with
  | CliConfigValidate | CliConfigApply | CliConfigMutate | CliSubscriptionAdd | CliSubscriptionRemove
  | CliSubscriptionMove | CliSubscriptionEnable | CliSubscriptionDisable | CliSubscriptionSelect
  | CliSubscriptionModeSetSingle | CliSubscriptionModeSetMerge | CliApplicationAddPackage
  | CliApplicationRemovePackage | CliApplicationAddUid | CliApplicationRemoveUid | CliApplicationMode
  | CliNetworkSet | CliNodeRemove | CliSubscriptionImportPreview | CliSubscriptionImportApply
  | CliBackupRestore | CliNodeImport | CliNodeEdit | CliSubscriptionEdit | CliApplicationPolicySet => true
  | _ => false
  end.
Definition is_import_apply (c : CliCommand) : bool :=
  match c with CliSubscriptionImportApply => true | _ => false end.
Definition backup_command (c : CliCommand) : bool :=
  match c with CliBackupExport | CliBackupRestore => true | _ => false end.
Definition document_input_command (c : CliCommand) : bool :=
  match c with
  | CliSubscriptionImportPreview | CliSubscriptionImportApply | CliNodeImport | CliNodeEdit
  | CliNodeOverrideApply | CliSubscriptionEdit => true
  | _ => false
  end.
Definition invalid_input (c : CliCommand) (o : Options) : bool :=
  let has_input := is_some (o_input_file o) || o_text_input o in
  (negb (backup_command c) && negb (Bool.eqb (document_input_command c) has_input))
  || (backup_command c && (negb (is_some (o_input_file o)) || o_text_input o))
  || (negb (takes_format c) && is_some (o_import_format o)).
Definition is_hello (c : CliCommand) : bool := match c with CliProtocolHello => true | _ => false end.
Definition is_events (c : CliCommand) : bool := match c with CliEvents => true | _ => false end.
Definition is_logs_tail (c : CliCommand) : bool := match c with CliLogsTail => true | _ => false end.
Definition is_traffic_live (c : CliCommand) : bool := match c with CliTrafficLive => true | _ => false end.
Definition is_move (c : CliCommand) : bool := match c with CliSubscriptionMove => true | _ => false end.
Definition invalid_session (c : CliCommand) (o : Options) : bool :=
  (is_some (o_session_id o) || is_some (o_max_runtime o))
  && (negb (is_events c || is_traffic_live c)
      || (is_events c && (negb (is_some (o_session_id o)) || negb (is_some (o_max_runtime o))))
      || (is_traffic_live c && is_some (o_session_id o))).
Definition source_query_command (c : CliCommand) : bool :=
  match c with
  | CliSubscriptionInspect | CliSubscriptionShow | CliSubscriptionDiagnose | CliSubscriptionHistory => true
  | _ => false
  end.
(** [source_id = Some(positional.remove(0))] *)
Definition take_source (o : Options) : Options :=
  match o_source_id o, o_positional o with
  | None, [source] => set_positional [] (set_source_id (Some source) o)
  | _, _ => o
  end.
Definition expected_positionals (c : CliCommand) : nat :=
  match c with
  | CliSubscriptionAdd | CliNetworkSet | CliWebUiPayloadRemove => 2
  | CliRuleSetShow | CliApplicationPolicySet | CliSubscriptionRemove | CliSubscriptionMove
  | CliSubscriptionEnable | CliSubscriptionDisable | CliSubscriptionSelect | CliApplicationAddPackage
  | CliApplicationRemovePackage | CliApplicationAddUid | CliApplicationRemoveUid | CliApplicationMode
  | CliWebUiPayloadCreate => 1
  | CliWebUiPayloadAppend | CliWebUiPayloadCommit => 3
  | _ => 0
  end%nat.

Record CliInvocation : Type := mkInvocation {
  inv_command : CliCommand;
  inv : Options;
}.
Definition usage (b : bool) : Result CliError unit := if b then Err Usage else Ok tt.
Definition check_options (c : CliCommand) (o : Options) : Result CliError Options :=
  _ ← usage ((o_wait o && negb (cli_wait_allowed c)) || (o_if_needed o && negb (is_update c)));
  _ ← usage (o_human o && o_structured o);
  _ ← usage (misplaced (o_expected_digest o) (needs_digest c));
  _ ← usage (misplaced (o_candidate_digest o) (is_import_apply c));
  _ ← usage (invalid_input c o);
  _ ← usage (misplaced (o_manager_version o) (is_hello c) || misplaced (o_protocol_min o) (is_hello c)
             || misplaced (o_protocol_max o) (is_hello c));
  _ ← usage (negb (len (o_event_kinds o) =? 0) && negb (is_events c || is_logs_tail c));
  _ ← usage (invalid_session c o);
  _ ← usage (misplaced (o_target o) (target_command c));
  let o := if is_update c || source_query_command c then take_source o else o in
  _ ← usage (source_query_command c && negb (is_some (o_source_id o)));
  _ ← usage (is_some_and (fun v => negb (valid_source_id v)) (o_source_id o));
  _ ← usage (negb (Nat.eqb (length (o_positional o)) (expected_positionals c))
             || (negb (is_move c) && is_some (o_before o)) || (is_move c && negb (is_some (o_before o))));
  _ ← usage ((negb (query_command c) && is_some (o_query o))
             || (negb (query_command c || is_logs_get c) && is_some (o_limit o)));
  Ok o.
Definition parse_invocation (arguments : list string) : Result CliError CliInvocation :=
  n ← command_length arguments;
  if (length arguments <? n)%nat then Err Usage
  else
    c ← parse_command (take n arguments);
    o ← parse_options c (drop n arguments) no_options;
    o ← check_options c o;
    Ok (mkInvocation c o).

Definition parse_event_termination (arguments : list string) : Result CliError (option string) :=
  if negb (is_word (arguments !! 0%nat) "webui") || negb (is_word (arguments !! 1%nat) "events") then Ok None
  else
    match arguments with
    | [_; _; terminate; session; json] =>
        if negb (String.eqb terminate "terminate") || negb (String.eqb json "--json")
           || negb (valid_event_session_id session)
        then Err Usage else Ok (Some session)
    | _ => Err Usage
    end.
(** [arguments.windows(2).filter(..)] *)
Fixpoint session_pairs (session : string) (arguments : list string) : nat :=
  match arguments with
  | flag :: (value :: _) as rest =>
      ((if String.eqb flag "--session-id" && String.eqb value session then 1 else 0)
       + session_pairs session rest)%nat
  | _ => 0%nat
  end.
Definition matches_event_session (arguments : list string) (session : string) : bool :=
  valid_event_session_id session && is_word (arguments !! 1%nat) "events"
  && Nat.eqb (session_pairs session arguments) 1.

(** ** The request *)
(** [str::parse::<i64>] *)
Definition parse_i64 (bs : list Z) : option Z :=
  match bs with
  | 45 :: digits =>
      match digits with
      | [] => None
      | _ => n ← parse_digits digits 0; if n <=? 2 ^ 63 then Some (- n) else None
      end
  | _ => n ← parse_u64 bs; if n <? 2 ^ 63 then Some n else None
  end.
Definition print_i64 (n : Z) : list Z := if n <? 0 then 45 :: print_u64 (- n) else print_u64 n.
Definition parse_scalar (value : string) : Json :=
  if String.eqb value "true" then JBool true
  else if String.eqb value "false" then JBool false
  else match parse_i64 (bytes value) with
       | Some n => JNumber (of_bytes (print_i64 n))
       | None => JString value
       end.
Definition parse_payload_namespace (value : string) : Result CliError WebUiPayloadNamespace :=
  ok_or (assoc value [("config", NsConfig); ("subscription", NsSubscription); ("backup", NsBackup);
                      ("node", NsNode)]) Usage.
Definition parse_payload_operation (value : string) : Result CliError WebUiPayloadOperation :=
  ok_or (assoc value
    [("config-validate", OpConfigValidate); ("config-apply", OpConfigApply);
     ("config-mutate", OpConfigMutate); ("subscription-import-preview", OpSubscriptionImportPreview);
     ("subscription-import-apply", OpSubscriptionImportApply); ("backup-restore", OpBackupRestore);
     ("node-override-apply", OpNodeOverrideApply)]) Usage.
Definition policy_mode (value : string) : Result CliError ApplicationPolicyMode :=
  ok_or (assoc value [("all", PolicyAll); ("blacklist", PolicyBlacklist); ("whitelist", PolicyWhitelist)])
    Usage.

Section requests.
Context (json_to_vec : Json -> option (list Z)).
(** [serde_json::from_value] at the two types a command reads from standard input. *)
Context (mutation_from : Json -> option ConfigMutation) (override_from : Json -> option NodeOverrideDocument).

(** The parameters [build_request] makes; [None] is an index out of range. *)
Definition build_params (i : CliInvocation) (input : option Json) : option (Result CliError ControlParams) :=
  let o := inv i in
  let c := inv_command i in
  let digest := ok_or (o_expected_digest o) Usage in
  let input := ok_or input InputRequired in
  let mutate (m : Result CliError ConfigMutation) :=
    d ← digest; m ← m; Ok (mutation_params d m) in
  let at_ n := o_positional o !! n in
  match c with
  | CliConfigValidate | CliConfigApply | CliBackupRestore =>
      Some (d ← digest; doc ← input; Ok (config_document_params d doc))
  | CliConfigMutate | CliNodeEdit | CliSubscriptionEdit =>
      Some (mutate (doc ← input; ok_or (mutation_from doc) InvalidInput))
  | CliApplicationPolicySet =>
      word ← at_ 0%nat;
      Some (mode ← policy_mode word; mutate (Ok (SetApplicationPolicy mode [])))
  | CliSubscriptionAdd =>
      match digest with
      | Err e => Some (Err e)
      | Ok _ => name ← at_ 0%nat; url ← at_ 1%nat; Some (mutate (Ok (AddSource name url None)))
      end
  | CliSubscriptionImportPreview | CliNodeImport =>
      Some (d ← digest; doc ← input; Ok (import_document_params d None doc))
  | CliSubscriptionImportApply =>
      Some (d ← digest; doc ← input; Ok (import_document_params d (o_candidate_digest o) doc))
  | CliSubscriptionRemove =>
      match digest with
      | Err e => Some (Err e)
      | Ok _ => source ← at_ 0%nat; Some (mutate (Ok (RemoveSource source)))
      end
  | CliSubscriptionMove =>
      match digest with
      | Err e => Some (Err e)
      | Ok _ => source ← at_ 0%nat; Some (mutate (Ok (MoveSource source (o_before o))))
      end
  | CliSubscriptionModeSetSingle =>
      Some (d ← digest; Ok (subscription_mode_set_params d ModeSingle (o_source_id o)))
  | CliSubscriptionModeSetMerge =>
      Some (d ← digest; Ok (subscription_mode_set_params d ModeMerge (o_source_id o)))
  | CliSubscriptionSelect =>
      match digest with
      | Err e => Some (Err e)
      | Ok d => source ← at_ 0%nat; Some (Ok (subscription_select_params d source))
      end
  | CliSubscriptionEnable | CliSubscriptionDisable =>
      match digest with
      | Err e => Some (Err e)
      | Ok d =>
          source ← at_ 0%nat;
          Some (Ok (subscription_set_enabled_params d source
                      (match c with CliSubscriptionEnable => true | _ => false end)))
      end
  | CliSubscriptionShow | CliSubscriptionInspect | CliSubscriptionDiagnose | CliSubscriptionHistory =>
      Some (source ← ok_or (o_source_id o) Usage; Ok (subscription_query_params source))
  | CliApplicationAddPackage =>
      match digest with
      | Err e => Some (Err e)
      | Ok _ =>
          package ← at_ 0%nat;
          Some (mutate (Ok (AddApplicationTarget (TargetPackage (default 0 (o_user o)) package))))
      end
  | CliApplicationRemovePackage =>
      match digest with
      | Err e => Some (Err e)
      | Ok _ =>
          package ← at_ 0%nat;
          Some (mutate (Ok (RemoveApplicationTarget (TargetPackage (default 0 (o_user o)) package))))
      end
  | CliApplicationAddUid | CliApplicationRemoveUid =>
      word ← at_ 0%nat;
      Some (uid ← ok_or (parse_uint 32 (bytes word)) InvalidInput;
            mutate (Ok (match c with
                        | CliApplicationAddUid => AddApplicationTarget (TargetUid uid)
                        | _ => RemoveApplicationTarget (TargetUid uid)
                        end)))
  | CliNetworkSet =>
      match digest with
      | Err e => Some (Err e)
      | Ok _ =>
          field ← at_ 0%nat; value ← at_ 1%nat;
          Some (mutate (Ok (SetScalarField field (parse_scalar value))))
      end
  | CliApplicationMode =>
      match digest with
      | Err e => Some (Err e)
      | Ok _ =>
          mode ← at_ 0%nat; Some (mutate (Ok (SetScalarField "applications.mode" (JString mode))))
      end
  | CliProtocolHello =>
      Some (version ← ok_or (o_manager_version o) Usage; lo ← ok_or (o_protocol_min o) Usage;
            hi ← ok_or (o_protocol_max o) Usage; Ok (hello_params version lo hi))
  | CliEvents | CliLogsTail => Some (Ok (event_subscription_params (o_event_kinds o)))
  | CliTrafficLive => Some (Ok (event_subscription_params [Traffic]))
  | CliNodeTest | CliNodeDelay | CliNodeUseManual | CliNodeSelectManual | CliNodeExport
  | CliNodeOverrideGet | CliNodeOverrideRemove | CliConnectionClose =>
      Some (t ← ok_or (o_target o) Usage; Ok (target_params t))
  | CliNodeOverrideApply =>
      Some (doc ← input; doc ← ok_or (override_from doc) InvalidInput;
            t ← ok_or (o_target o) Usage; Ok (node_override_params t doc))
  | CliConnectionShow | CliNodeShow => Some (Ok (list_params (o_target o) (o_limit o)))
  | CliNodeRemove => Some (mutate (t ← ok_or (o_target o) Usage; Ok (RemoveNode t)))
  | CliNodeList | CliConnectionsGet => Some (Ok (list_params (o_query o) (o_limit o)))
  | CliLogsGet => Some (Ok (logs_params (o_log_channel o) (o_limit o)))
  | CliUpdate => Some (Ok (subscription_update_params (o_wait o) (o_if_needed o) (o_source_id o)))
  | CliCaptureEnable | CliCaptureDisable | CliCoreStart | CliCoreStop =>
      Some (Ok (lifecycle_params (o_wait o) None None))
  | CliWebUiPayloadCreate =>
      ns ← at_ 0%nat; Some (ns ← parse_payload_namespace ns; Ok (payload_create ns))
  | CliWebUiPayloadAppend =>
      ns ← at_ 0%nat;
      match parse_payload_namespace ns with
      | Err e => Some (Err e)
      | Ok ns => handle ← at_ 1%nat; chunk ← at_ 2%nat; Some (Ok (payload_append ns handle chunk))
      end
  | CliWebUiPayloadCommit =>
      ns ← at_ 0%nat;
      match parse_payload_namespace ns with
      | Err e => Some (Err e)
      | Ok ns =>
          handle ← at_ 1%nat; op ← at_ 2%nat;
          Some (op ← parse_payload_operation op; Ok (payload_commit ns handle op))
      end
  | CliWebUiPayloadRemove =>
      ns ← at_ 0%nat;
      match parse_payload_namespace ns with
      | Err e => Some (Err e)
      | Ok ns => handle ← at_ 1%nat; Some (Ok (payload_remove ns handle))
      end
  | _ => Some (Ok (ControlParams_new (o_wait o) (o_if_needed o)))
  end.
Definition build_request (i : CliInvocation) (id : string) (input : option Json) :
    option (Result CliError ControlRequest) :=
  p ← build_params i input;
  Some (p ← p;
        match with_params json_to_vec (ControlRequest_new id (command_method (inv_command i))) p with
        | Ok r => Ok r
        | Err _ => Err RequestFailed
        end).

(** ** What an accepted command line sends *)
Lemma usage_then {A} b (k : Result CliError A) a : (_ ← usage b; k) = Ok a <-> b = false /\ k = Ok a.
Proof. destruct b; cbn; naive_solver. Qed.

(** What [check_options] leaves behind, as far as the request looks at it. *)
Record checked (c : CliCommand) (o : Options) : Prop := {
  ck_wait : o_wait o && negb (cli_wait_allowed c) = false;
  ck_if_needed : o_if_needed o && negb (is_update c) = false;
  ck_digest : is_some (o_expected_digest o) = needs_digest c;
  ck_candidate : is_some (o_candidate_digest o) = is_import_apply c;
  ck_version : is_some (o_manager_version o) = is_hello c;
  ck_min : is_some (o_protocol_min o) = is_hello c;
  ck_max : is_some (o_protocol_max o) = is_hello c;
  ck_target : is_some (o_target o) = target_command c;
  ck_source : source_query_command c && negb (is_some (o_source_id o)) = false;
  ck_source_id : is_some_and (fun v => negb (valid_source_id v)) (o_source_id o) = false;
  ck_positional : length (o_positional o) = expected_positionals c;
  ck_takes_source : takes_source c = false -> o_source_id o = None;
}.
(** No option but [--source] gives a source, and it is taken only where it belongs. *)
Lemma parse_word_source c v o o' : parse_word c v o = Ok o' -> o_source_id o' = o_source_id o.
Proof. unfold parse_word. repeat (case_match; [|]); try done; intros [= <-]; by destruct o. Qed.
Lemma parse_flag_source c opt o o' : parse_flag c opt o = Ok o' -> o_source_id o' = o_source_id o.
Proof.
  unfold parse_flag. repeat match goal with |- (if ?b then _ else _) = _ -> _ => destruct b end; try done;
    try (intros [= <-]; by destruct o). apply parse_word_source.
Qed.
Lemma parse_valued_source c opt v o o' :
  takes_source c = false -> parse_valued c opt v o = Some (Ok o') -> o_source_id o' = o_source_id o.
Proof.
  intros Hs. unfold parse_valued. rewrite Hs, andb_false_r.
  repeat match goal with
  | |- (if ?b then _ else _) = _ -> _ => destruct b
  | |- Some _ = Some _ -> _ => let H := fresh in intros H; injection H as H; revert H
  | |- (_ ≫= _) = Ok _ -> _ => intros (? & _ & ?)%result_bind_Ok
  end; try done; try (intros [= <-]; by destruct o); simplify_eq; by destruct o.
Qed.
Lemma parse_options_source c ws o o' :
  takes_source c = false -> parse_options c ws o = Ok o' -> o_source_id o' = o_source_id o.
Proof.
  intros Hs. revert o. induction ws as [ws IH] using (well_founded_induction (Wf_nat.well_founded_ltof _ (@length string))).
  unfold Wf_nat.ltof in IH. intros o. destruct ws as [|opt rest]; cbn [parse_options]; [by intros [= <-]|].
  destruct (existsb _ valued_options).
  - destruct rest as [|value rest]; [case_match; [by intros [= <-]|done]|].
    destruct (parse_valued c opt value o) as [[o1|]|] eqn:E; [|done..]. intros Ho.
    rewrite <- (parse_valued_source _ _ _ _ _ Hs E). apply (IH rest); [simpl; lia|done].
  - destruct (parse_flag c opt o) as [o1|] eqn:E; [|done]. intros Ho.
    rewrite <- (parse_flag_source _ _ _ _ E). apply (IH rest); [simpl; lia|done].
Qed.
Lemma take_source_keeps o :
  let o' := take_source o in
  o_wait o' = o_wait o /\ o_if_needed o' = o_if_needed o /\ o_expected_digest o' = o_expected_digest o
  /\ o_candidate_digest o' = o_candidate_digest o /\ o_manager_version o' = o_manager_version o
  /\ o_protocol_min o' = o_protocol_min o /\ o_protocol_max o' = o_protocol_max o
  /\ o_target o' = o_target o.
Proof. unfold take_source. destruct (o_source_id o), (o_positional o) as [|? []]; cbn; repeat split. Qed.
Lemma check_options_checked c o o' :
  (takes_source c = false -> o_source_id o = None) -> check_options c o = Ok o' -> checked c o'.
Proof.
  intros Hsource. unfold check_options. intros Hc.
  repeat match type of Hc with _ = Ok _ => apply usage_then in Hc; destruct Hc as [? Hc] end.
  injection Hc as <-.
  pose proof (take_source_keeps o) as (E1 & E2 & E3 & E4 & E5 & E6 & E7 & E8).
  rewrite ?orb_false_iff, ?misplaced_false, ?negb_false_iff, ?Nat.eqb_eq in *.
  split; try (destruct (is_update c || source_query_command c); rewrite ?E1, ?E2, ?E3, ?E4, ?E5, ?E6, ?E7, ?E8; tauto).
  intros Ht. destruct c; try discriminate Ht; cbn; by apply Hsource.
Qed.
Lemma parse_invocation_checked ws i : parse_invocation ws = Ok i -> checked (inv_command i) (inv i).
Proof.
  unfold parse_invocation. intros (n & Hn & Hi)%result_bind_Ok. split_if_in Hi E; [done|].
  apply result_bind_Ok in Hi as (c & Hc & Hi). apply result_bind_Ok in Hi as (o & Ho & Hi).
  apply result_bind_Ok in Hi as (o' & Ho' & [= <-]). eapply check_options_checked; [|done].
  intros Ht. by rewrite (parse_options_source _ _ _ _ Ht Ho).
Qed.

Import RequestSpec.
Ltac known :=
  repeat match goal with
  | H : is_some ?x = true |- _ => destruct x; [clear H|discriminate H]
  | H : is_some ?x = false |- _ => destruct x; [discriminate H|clear H]
  | H : ?w && true = false |- _ => rewrite andb_true_r in H; subst w
  | H : ?w && false = false |- _ => clear H
  | H : length ?l = 0%nat |- _ => destruct l; [clear H|discriminate H]
  | H : length ?l = S _ |- _ => destruct l; [discriminate H|injection H as H]
  end.
Ltac agree :=
  eexists; split; [reflexivity|]; intros p Hok;
  repeat (apply result_bind_Ok in Hok as (? & ? & Hok)); (discriminate Hok || injection Hok as <-);
  intros []; cbn; first [left; exact I|left; reflexivity].

(** The one command line that is accepted without a parameter its request needs. *)
Definition single_without_source (c : CliCommand) (p : ControlParams) : Prop :=
  c = CliSubscriptionModeSetSingle /\ source_id p = None.
Lemma build_params_agree c o input :
  checked c o ->
  exists r, build_params (mkInvocation c o) input = Some r
    /\ forall p, r = Ok p -> forall x,
       meets (needs (command_method c) (subscription_mode p) x) (present p x)
       \/ x = SourceId /\ single_without_source c p.
Proof.
  intros [Hw Hn Hd Hcd Hv Hlo Hhi Ht Hs _ Hp Hts]. destruct o. cbn in *.
  destruct c; cbn in Hw, Hn, Hd, Hcd, Hv, Hlo, Hhi, Ht, Hs, Hp, Hts; try (rewrite Hts by reflexivity; clear Hts); known.
  all: try solve [agree].
  all: try (unfold build_params; cbn [inv inv_command o_positional lookup list_lookup mbind option_bind];
    destruct (parse_payload_namespace _) eqn:?; solve [agree]).
  eexists; split; [reflexivity|]. intros p Hok.
  repeat (apply result_bind_Ok in Hok as (? & ? & Hok)). injection Hok as <-. unfold single_without_source.
  destruct o_source_id0 as [source|]; intros []; cbn; auto.
Qed.
Lemma build_request_result i id input r :
  build_params i input = Some r ->
  let m := command_method (inv_command i) in
  build_request i id input =
    Some (p ← r;
          match ControlRequest_validate json_to_vec (mkRequest PROTOCOL_VERSION id m p) with
          | Ok _ => Ok (mkRequest PROTOCOL_VERSION id m p)
          | Err _ => Err RequestFailed
          end).
Proof.
  intros Hr. unfold build_request. rewrite Hr. cbn [mbind option_bind].
  destruct r as [p|e]; [|done]. cbn [mbind Result_bind]. unfold with_params. cbn -[ControlRequest_validate].
  by destruct (ControlRequest_validate _ _).
Qed.

Lemma single_mode c o input p :
  build_params (mkInvocation c o) input = Some (Ok p) -> single_without_source c p ->
  ~ meets (needs (command_method c) (subscription_mode p) SourceId) (present p SourceId).
Proof.
  intros Hr [-> Hs]. cbn [build_params inv inv_command] in Hr. injection Hr as Hr.
  repeat (apply result_bind_Ok in Hr as (? & ? & Hr)). injection Hr as <-. cbn in *. by rewrite Hs.
Qed.

(** C21: a command line that is accepted always makes a request (no argument is read
    that is not there), and the parameters it fills in are those the protocol's table
    asks for: none that is required is missing and none that is forbidden is given, with
    one exception, [subscription mode set single] without a source, which the client
    accepts and the protocol then refuses (lemma mode_single_refused).  So a request is
    sent exactly when it is not that one and every value in it is well formed
    ([values_ok], which also judges the inside of a mutation and of a payload: an
    application policy other than [all], which the client sends without targets, is
    refused there, lemma policy_set_refused); otherwise nothing is sent and the client
    reports a failed request. *)
Theorem cli_agrees_with_protocol ws i id input :
  parse_invocation ws = Ok i ->
  let m := command_method (inv_command i) in
  exists r, build_params i input = Some r
    /\ (forall e, r = Err e -> build_request i id input = Some (Err e))
    /\ forall p, r = Ok p ->
         (forall x, meets (needs m (subscription_mode p) x) (present p x)
                    \/ x = SourceId /\ single_without_source (inv_command i) p)
         /\ (build_request i id input = Some (Ok (mkRequest PROTOCOL_VERSION id m p))
             <-> ~ single_without_source (inv_command i) p /\ values_ok json_to_vec m p)
         /\ (build_request i id input <> Some (Ok (mkRequest PROTOCOL_VERSION id m p)) ->
             build_request i id input = Some (Err RequestFailed)).
Proof.
  intros Hi m. destruct i as [c o]. apply parse_invocation_checked in Hi as Hc.
  destruct (build_params_agree c o input Hc) as (r & Hr & Hm). exists r. split; [done|].
  pose proof (build_request_result _ id _ _ Hr) as Hb. split; [by intros e ->|].
  intros p ->. specialize (Hm p eq_refl). split; [done|]. rewrite Hb. cbn [mbind Result_bind].
  pose proof (request_checked json_to_vec (mkRequest PROTOCOL_VERSION id m p)) as Hv.
  fold m. unfold RequestSpec.valid in Hv. cbn [method params req_version] in Hv. cbn [inv_command] in *.
  pose proof (single_mode c o input p Hr) as Hsingle. fold m in Hm.
  destruct (ControlRequest_validate _ _) as [[]|e].
  - split; [|done]. split; [|done]. intros _. destruct (proj1 Hv eq_refl) as (_ & Hn & Hvs).
    split; [|done]. intros Hx. by apply (Hsingle Hx), Hn.
  - split; [|done]. split; [done|]. intros [Hx Hvs]. discriminate (proj2 Hv).
    split; [done|]. split; [|done]. intros x. destruct (Hm x) as [?|[_ ?]]; [done|by destruct Hx].
Qed.
End requests.

(** ** Executing a request *)
(** The transport and the clock of the client: [ControlTransport::exchange], [Instant::now]
    and [thread::sleep]. *)
Class ControlTransport (T : Type) : Type := {
  transport_exchange : ControlRequest -> T -> Result CliError ControlResponse * T;
  now : T -> Z;
  sleep : Z -> T -> T;
}.
(** Time does not go back, and a sleep lasts as long as it is asked to. *)
Class TransportLaws (T : Type) `{!ControlTransport T} : Prop := {
  exchange_clock : forall r (t : T), now t <= now (transport_exchange r t).2;
  sleep_clock : forall d (t : T), now t + d <= now (sleep d t);
}.

Section execute.
Context {T : Type} `{!ControlTransport T}.
Context (json_to_vec : Json -> option (list Z)).
Context (ack_from : Json -> option NodeBenchmarkOperationAck)
  (terminal_from : Json -> option NodeBenchmarkTerminalReport).

Definition json_str (key : string) (v : Json) : option string :=
  match v with
  | JObject fields => match json_get key fields with Some (JString s) => Some s | _ => None end
  | _ => None
  end.
Definition checked_from {A} (from : Json -> option A) (validate : A -> Result ProtocolError unit)
    (v : Json) : Result CliError A :=
  match from v with
  | Some a => match validate a with Ok _ => Ok a | Err _ => Err InvalidResponse end
  | None => Err InvalidResponse
  end.
(** One exchange with the test of the request ID. *)
Definition matched_exchange (request : ControlRequest) (t : T) : Result CliError ControlResponse * T :=
  let (r, t) := transport_exchange request t in
  (match r with
   | Ok response =>
       if String.eqb (res_id response) (req_id request) then Ok response else Err ResponseRequestMismatch
   | Err e => Err e
   end, t).
Definition query_request (id operation : string) (sequence : Z) : Result CliError ControlRequest :=
  match RequestId_new (id +:+ "-q" +:+ of_bytes (print_u64 sequence)) with
  | Err _ => Err RequestFailed
  | Ok query_id =>
      match with_params json_to_vec (ControlRequest_new query_id NodeTestOperationGet) (target_params operation) with
      | Ok request => Ok request
      | Err _ => Err RequestFailed
      end
  end.
(** What one answer means: the last response, or wait for the next. *)
Definition judge (operation : string) (response : ControlResponse) : Result CliError bool :=
  if negb (res_ok response) then Ok true
  else
    result ← ok_or (res_result response) InvalidResponse;
    if bool_decide (json_str "phase" result = Some "completed") then
      terminal ← checked_from terminal_from terminal_report_validate result;
      if String.eqb (tr_operation_id terminal) operation then Ok true else Err InvalidResponse
    else
      running ← checked_from ack_from ack_validate result;
      if String.eqb (ak_operation_id running) operation then Ok false else Err InvalidResponse.
(** The loop; [None] is one more turn than [fuel]. *)
Fixpoint poll (fuel : nat) (id operation : string) (deadline sequence : Z) (t : T) :
    option (Result CliError ControlResponse * T) :=
  match fuel with
  | O => None
  | S fuel =>
      match query_request id operation sequence with
      | Err e => Some (Err e, t)
      | Ok query =>
          match matched_exchange query t with
          | (Err e, t) => Some (Err e, t)
          | (Ok response, t) =>
              match judge operation response with
              | Err e => Some (Err e, t)
              | Ok true => Some (Ok response, t)
              | Ok false =>
                  if deadline <=? now t then Some (Err RequestFailed, t)
                  else if umax 32 <? sequence + 1 then Some (Err RequestFailed, t)
                  else poll fuel id operation deadline (sequence + 1) (sleep (from_millis 25) t)
              end
          end
      end
  end.
Definition is_test_all (c : CliCommand) : bool := match c with CliNodeTestAll => true | _ => false end.
(** [execute_with_input] once the request is built. *)
Definition execute_built (fuel : nat) (c : CliCommand) (request : ControlRequest) (t : T) :
    option (Result CliError ControlResponse * T) :=
  match matched_exchange request t with
  | (Err e, t) => Some (Err e, t)
  | (Ok response, t) =>
      if is_test_all c && res_ok response then
        match res_result response with
        | None => Some (Err InvalidResponse, t)
        | Some result =>
            match checked_from ack_from ack_validate result with
            | Err e => Some (Err e, t)
            | Ok ack => poll fuel (req_id request) (ak_operation_id ack) (now t + from_secs 6) 0 t
            end
        end
      else Some (Ok response, t)
  end.

(** The last turn is the first whose answer comes after the deadline: every turn before it
    slept for 25 ms. *)
Lemma poll_ends `{!TransportLaws T} fuel id operation deadline sequence t :
  0 <= sequence -> sequence + Z.of_nat fuel <= umax 32 ->
  deadline <= now t + Z.of_nat fuel * from_millis 25 ->
  exists out, poll (S fuel) id operation deadline sequence t = Some out.
Proof.
  revert sequence t. induction fuel as [|fuel IH]; intros sequence t Hs Hu Hd.
  all: cbn [poll]; destruct (query_request id operation sequence) as [q|e]; [|eauto].
  all: unfold matched_exchange; pose proof (exchange_clock q t) as Hx;
    destruct (transport_exchange q t) as [r t1]; cbn [snd] in Hx.
  all: destruct r as [response|e]; [|eauto]; destruct (String.eqb _ _); [|eauto].
  all: destruct (judge operation response) as [[]|e]; [eauto| |eauto].
  - rewrite (proj2 (Z.leb_le _ _)) by lia. eauto.
  - destruct (deadline <=? now t1) eqn:Ed; [eauto|]. apply Z.leb_gt in Ed.
    destruct (umax 32 <? sequence + 1) eqn:Eu; [eauto|].
    pose proof (sleep_clock (from_millis 25) t1). apply IH; lia.
Qed.
Lemma poll_judged fuel id operation deadline sequence t response t' :
  poll fuel id operation deadline sequence t = Some (Ok response, t') -> judge operation response = Ok true.
Proof.
  revert sequence t. induction fuel as [|fuel IH]; intros sequence t; [done|]. cbn [poll].
  destruct (query_request id operation sequence) as [q|e]; [|done].
  destruct (matched_exchange q t) as [[r|e] t1]; [|done].
  destruct (judge operation r) as [[]|e] eqn:Ej; [intros [= <- <-]; done| |done].
  destruct (deadline <=? now t1); [done|]. destruct (umax 32 <? sequence + 1); [done|]. apply IH.
Qed.
Lemma checked_from_Ok {A} (from : Json -> option A) validate v a :
  checked_from from validate v = Ok a -> from v = Some a /\ validate a = Ok tt.
Proof. unfold checked_from. destruct (from v) as [b|]; [|done]. destruct (validate b) as [[]|] eqn:E; naive_solver. Qed.

(** C22: a benchmark request is waited for and not for ever: against a clock that goes forward,
    241 queries (six seconds of 25 ms) always end it, and a successful answer is the
    report of the very operation that was acknowledged, completed and passing every check of
    the protocol. *)
Theorem benchmark_wait_exact `{!TransportLaws T} request (t : T) :
  exists r t', execute_built 241 CliNodeTestAll request t = Some (r, t')
    /\ forall response, r = Ok response -> res_ok response = true ->
         exists acknowledged ack result terminal,
           (matched_exchange request t).1 = Ok acknowledged
           /\ res_result acknowledged ≫= ack_from = Some ack /\ ack_validate ack = Ok tt
           /\ res_result response = Some result /\ json_str "phase" result = Some "completed"
           /\ terminal_from result = Some terminal /\ terminal_report_validate terminal = Ok tt
           /\ tr_operation_id terminal = ak_operation_id ack.
Proof.
  unfold execute_built. destruct (matched_exchange request t) as [[a|e] t1] eqn:Em; [|by eexists _, _].
  cbn [is_test_all andb fst]. destruct (res_ok a) eqn:Ea;
    [|eexists _, _; split; [reflexivity|]; intros response [= <-]; congruence].
  destruct (res_result a) as [result|] eqn:Er; [|by eexists _, _].
  destruct (checked_from ack_from ack_validate result) as [ack|e] eqn:Eack; [|by eexists _, _].
  apply checked_from_Ok in Eack as [Hack Hvalid].
  destruct (poll_ends 240 (req_id request) (ak_operation_id ack) (now t1 + from_secs 6) 0 t1)
    as [[r t'] Hp]; [lia|done|unfold from_secs, from_millis, NANOS_PER_SEC, NANOS_PER_MILLI; lia|].
  exists r, t'. split; [exact Hp|]. intros response -> Hok. apply poll_judged in Hp. unfold judge in Hp.
  rewrite Hok in Hp. cbn [negb] in Hp. apply result_bind_Ok in Hp as (res & Hres & Hp).
  destruct (res_result response) as [?|] eqn:Eres; [|done]. injection Hres as ->.
  destruct (bool_decide _) eqn:Ephase.
  - apply bool_decide_eq_true in Ephase. apply result_bind_Ok in Hp as (terminal & Ht & Hp).
    apply checked_from_Ok in Ht as [Ht Hv]. destruct (String.eqb_spec (tr_operation_id terminal) (ak_operation_id ack)); [|done].
    exists a, ack, res, terminal. by rewrite Er.
  - apply result_bind_Ok in Hp as (running & _ & Hp). by destruct (String.eqb _ _).
Qed.
End execute.

(** [execute_with_input]; [None]: an index out of range, or more turns than [fuel]. *)
Definition execute_with_input {T} `{!ControlTransport T} (json_to_vec : Json -> option (list Z))
    (mutation_from : Json -> option ConfigMutation) (override_from : Json -> option NodeOverrideDocument)
    (ack_from : Json -> option NodeBenchmarkOperationAck)
    (terminal_from : Json -> option NodeBenchmarkTerminalReport)
    (fuel : nat) (i : CliInvocation) (id : string) (input : option Json) (t : T) :
    option (Result CliError ControlResponse * T) :=
  request ← build_request json_to_vec mutation_from override_from i id input;
  match request with
  | Err e => Some (Err e, t)
  | Ok request => execute_built json_to_vec ack_from terminal_from fuel (inv_command i) request t
  end.

(** [UnixControlTransport::new] *)
Definition transport_new (socket_path : string) (timeout : Z) : Result CliError (string * Z) :=
  if negb (starts_with "/" socket_path) || (timeout =? 0) || (from_secs 30 <? timeout)
  then Err ConnectionFailed else Ok (socket_path, timeout).

(** ** The status for people *)
(** [value\[key\]]: [Null] when there is no such field. *)
Definition json_index (key : string) (v : Json) : Json :=
  match v with JObject fields => default JNull (json_get key fields) | _ => JNull end.
Definition valid_display_version (value : string) : bool :=
  negb (str_len value =? 0) && (str_len value <=? 32)
  && forallb (fun b => is_ascii_digit b || (b =? 46)) (bytes value).
Definition known_states : list string :=
  ["init"; "probing"; "starting_core"; "running_tproxy"; "starting_tun"; "running_tun"; "degraded";
   "fail_open_direct"; "backoff"; "circuit_open"; "stopping"].
Definition update_text (core_update : Json) : Result CliError string :=
  let availability := json_str "availability" core_update in
  if is_word availability "up_to_date" then Ok "up to date"
  else if is_word availability "available" then
    latest ← ok_or (json_as_str (json_index "latest" core_update)) InvalidResponse;
    if valid_display_version latest then Ok (latest +:+ " available; update the NetHop module")
    else Err InvalidResponse
  else if negb (is_some availability) && is_word (json_as_str (json_index "state" core_update)) "never_checked"
  then Ok "not checked" else Err InvalidResponse.
Definition dns_text (dns_split : Json) : Result CliError string :=
  let mode := json_as_str (json_index "mode" dns_split) in
  let split := json_as_str (json_index "dns_split" dns_split) in
  if is_word mode "off" && is_word split "healthy" then Ok "healthy"
  else if (is_word mode "opportunistic" || is_word mode "strict") && is_word split "degraded_private_dns"
  then Ok ("degraded (" +:+ default "" mode +:+ " Private DNS); disable Private DNS for split DNS")
  else if is_word mode "unknown" && is_word split "unknown" then Ok "unknown"
  else Err InvalidResponse.
Definition newline : string := of_bytes [10].
Definition render_status_human (r : ControlResponse) : Result CliError string :=
  result ← ok_or (res_result r) InvalidResponse;
  state ← ok_or (json_as_str (json_index "state" result)) InvalidResponse;
  if negb (existsb (String.eqb state) known_states) then Err InvalidResponse
  else
    let generation :=
      match json_as_u64 (json_index "generation" result) with
      | Some n => of_bytes (print_u64 n)
      | None => "none"
      end in
    last_update ← ok_or (json_as_str (json_index "last_update" result)) InvalidResponse;
    if negb (existsb (String.eqb last_update) ["never"; "succeeded"; "failed"]) then Err InvalidResponse
    else
      let core_update := json_index "core_update" result in
      current ← ok_or (json_as_str (json_index "current" core_update)) InvalidResponse;
      if negb (valid_display_version current) then Err InvalidResponse
      else
        update ← update_text core_update;
        dns ← dns_text (json_index "dns_split" result);
        Ok ("NetHop status" +:+ newline +:+ "State: " +:+ state +:+ newline
            +:+ "Generation: " +:+ generation +:+ newline +:+ "Subscription: " +:+ last_update +:+ newline
            +:+ "DNS split: " +:+ dns +:+ newline +:+ "Core: " +:+ current +:+ newline
            +:+ "Core update: " +:+ update).

(** ** Examples *)
Definition test_digest : string := of_bytes (replicate 64 97).
Example subscription_line :
  parse_invocation ["subscription"; "add"; "Home"; "https://a.example/s"; "--expected-digest"; test_digest]
  = Ok (mkInvocation CliSubscriptionAdd
          (set_positional ["Home"; "https://a.example/s"] (set_expected_digest (Some test_digest) no_options))).
Proof. vm_compute. reflexivity. Qed.
(** The traffic counters cannot be asked for: the word is read together with the next one. *)
Lemma traffic_alone : parse_command ["traffic"] = Ok CliTrafficGet /\ parse_invocation ["traffic"] = Err Usage.
Proof. split; vm_compute; reflexivity. Qed.
Lemma webui_icon_unreachable rest c :
  parse_command ["webui"; "icon"; "theme"] = Ok CliApplicationList
  /\ parse_invocation ("webui" :: "icon" :: rest) <> Ok c.
Proof. split; [vm_compute; reflexivity|]. unfold parse_invocation. cbn. by destruct rest. Qed.
(** A policy other than [all] comes with no target and is refused. *)
Lemma policy_set_refused i id input word jv mf nf :
  inv_command i = CliApplicationPolicySet -> o_positional (inv i) !! 0%nat = Some word ->
  word <> "all" -> forall r, build_request jv mf nf i id input <> Some (Ok r).
Proof.
  intros Hc Hw Hall r. unfold build_request, build_params. rewrite Hc, Hw. cbn [mbind option_bind].
  intros [= Hr]. apply result_bind_Ok in Hr as (p & Hp & Hr).
  apply result_bind_Ok in Hp as (mode & Hm & Hp). apply result_bind_Ok in Hp as (d & _ & [= <-]).
  unfold with_params in Hr. destruct (ControlRequest_validate _ _) as [[]|] eqn:Ev; [|done].
  apply request_checked in Ev as (_ & _ & Hv). apply RequestSpec.v_mutation in Hv. specialize (Hv _ eq_refl).
  unfold policy_mode, assoc in Hm. cbn [find fst snd] in Hm.
  destruct (String.eqb_spec "all" word) as [<-|_]; [done|]. destruct mode; [|done..].
  destruct (String.eqb "blacklist" word), (String.eqb "whitelist" word); discriminate Hm.
Qed.

(** The exception: the source is missing, and the protocol says so. *)
Lemma mode_single_refused :
  exists i, parse_invocation ["subscription"; "mode"; "set"; "single"; "--expected-digest"; test_digest] = Ok i
    /\ build_request (fun _ => None) (fun _ => None) (fun _ => None) i "r1" None = Some (Err RequestFailed).
Proof. eexists. split; [vm_compute; reflexivity|]. vm_compute. reflexivity. Qed.

Lemma cli_agrees_with_protocol_witness :
  exists i, parse_invocation ["subscription"; "mode"; "set"; "merge"; "--expected-digest"; test_digest] = Ok i
    /\ exists r, build_params (fun _ => None) (fun _ => None) i None = Some r /\ is_err r = false.
Proof.
  eexists. split; [vm_compute; reflexivity|].
  match goal with |- exists r, build_params _ _ ?i _ = _ /\ _ =>
    destruct (cli_agrees_with_protocol (fun _ => None) (fun _ => None) (fun _ => None)
      ["subscription"; "mode"; "set"; "merge"; "--expected-digest"; test_digest] i "r1" None
      ltac:(vm_compute; reflexivity)) as (r & Hr & _)
  end.
  exists r. split; [exact Hr|]. vm_compute in Hr. by injection Hr as <-.
Defined.

(** A daemon that acknowledges a benchmark, says once that it is running and then reports it. *)
Module BenchmarkDaemon.
Definition operation : string := "bench_" +:+ of_bytes (replicate 29 48).
Definition ack : NodeBenchmarkOperationAck :=
  mkAck operation false BtManual 1 NODE_BENCHMARK_FAST_SELECTION_EARLIEST_MS
    NODE_BENCHMARK_FAST_SELECTION_LATEST_MS NODE_BENCHMARK_FAST_SELECTION_DEADLINE_MS
    NODE_BENCHMARK_PROBE_CUTOFF_MS NODE_BENCHMARK_DEADLINE_MS FsPending.
Definition no_control : BenchmarkControlTiming := mkControlTiming 0 0 0 0 0 0 0.
Definition terminal : NodeBenchmarkTerminalReport :=
  mkTerminalReport operation (internal_error BtManual 1 0) None (FsNotNeeded 0 1 0)
    (mkTerminalTiming 0 0 no_control no_control 0).
Definition running : Json := JObject [("phase", JString "running")].
Definition completed : Json := JObject [("phase", JString "completed")].
Definition ack_from (v : Json) : option NodeBenchmarkOperationAck :=
  if bool_decide (json_str "phase" v = Some "running") then Some ack else None.
Definition terminal_from (v : Json) : option NodeBenchmarkTerminalReport :=
  if bool_decide (json_str "phase" v = Some "completed") then Some terminal else None.
#[export] Instance daemon_transport : ControlTransport (nat * Z) := {
  transport_exchange r t :=
    (Ok (response_success (req_id r) (Some 1) (if Nat.ltb t.1 2 then running else completed)), (S t.1, t.2));
  now := snd;
  sleep d t := (t.1, t.2 + d);
}.
#[export] Instance daemon_laws : TransportLaws (nat * Z).
Proof. split; intros; cbn; lia. Qed.
End BenchmarkDaemon.
Import BenchmarkDaemon.
Lemma benchmark_wait_exact_witness :
  let request := ControlRequest_new "r1" NodeTestAll in
  exists response t', execute_built (fun _ => None) ack_from terminal_from 241 CliNodeTestAll request (O, 0)
                      = Some (Ok response, t')
    /\ res_result response = Some completed.
Proof.
  intros request.
  destruct (benchmark_wait_exact (fun _ => None) ack_from terminal_from request (O, 0)) as (r & t' & He & Hr).
  vm_compute in He. injection He as <- <-. eexists _, _. split; [vm_compute; reflexivity|].
  destruct (Hr _ eq_refl eq_refl) as (_ & _ & result & _ & _ & _ & _ & Hres & _). rewrite Hres. exact (eq_sym Hres).
Defined.
