(* ===== verification/ConfigEdit.v ===== *)
(** * ConfigEdit: the configuration as a document, and the edits of the control protocol

    [nethopd/src/config_reconciler.rs] ([apply_mutation] and its helpers, the documents of the
    subscription commands) over the JSON document of a configuration, which is what
    [#\[derive(Serialize)\]] makes of the structures of [config_model.rs].  An edit returns the
    new document with the identities the sources should keep, an error, or [Panic] for an
    index out of range. *)

From S2P Require Import Prelude Text Ordering BTreeMap Json AtomicFile Source WifiScene WorkerActivation Config Protocol.

Local Open Scope Z_scope.

(** ** The document of a configuration *)
Definition jobject (fields : list (string * Json)) : Json := JObject (bt_collect fields).
Definition jnumber (n : Z) : Json := JNumber (of_bytes (print_u64 n)).
Definition jstrings (l : list string) : Json := JArray (JString <$> l).
Definition jopt (o : option string) : Json := match o with Some s => JString s | None => JNull end.

Definition profile_name (p : SourceRequestProfile) : string :=
  match p with
  | PGeneric => "generic" | PMihomo => "mihomo" | PClashStandard => "clash_standard"
  | PSurfboard => "surfboard" | PSingBox => "sing_box" | PSingBoxAndroid => "sing_box_android"
  end.
Definition format_name (f : SourceFormatHint) : string :=
  match f with
  | SAuto => "auto" | SUriList => "uri_list" | SBase64List => "base64_list"
  | SClashYaml => "clash_yaml" | SSingboxJson => "singbox_json" | SSurfboardIni => "surfboard_ini"
  end.
Definition protocol_name (p : ProxyProtocol) : string :=
  match p with
  | Vless => "vless" | Vmess => "vmess" | Shadowsocks => "shadowsocks" | Trojan => "trojan"
  | Hysteria2 => "hysteria2" | Tuic => "tuic" | AnyTls => "anytls" | Http => "http" | Socks => "socks"
  end.
Definition mode_name (m : Source.SubscriptionMode) : string :=
  match m with Single => "single" | Merge => "merge" end.
Definition filter_value (f : NodeFilter) : Json :=
  jobject [("include_names", jstrings (Source.include_names f));
           ("exclude_names", jstrings (Source.exclude_names f));
           ("excluded_node_ids", jstrings (excluded_node_ids f));
           ("protocols", jstrings (protocol_name <$> protocols f))].
Definition source_value (s : SubscriptionSourceWire) : Json :=
  jobject [("name", JString (sw_name s)); ("enabled", JBool (sw_enabled s)); ("url", JString (sw_url s));
           ("request_profile", JString (profile_name (sw_profile s)));
           ("format_hint", JString (format_name (sw_format s)));
           ("mirrors", jstrings (sw_mirrors s)); ("filter", filter_value (sw_filter s))].
Definition target_value (t : ApplicationTarget) : Json :=
  match t with
  | TargetPackage user package =>
      jobject [("kind", JString "package"); ("android_user_id", jnumber user); ("package", JString package)]
  | TargetUid uid => jobject [("kind", JString "uid"); ("uid", jnumber uid)]
  end.
Definition outbound_mode_name (m : OutboundMode) : string :=
  match m with OmRule => "rule" | OmGlobal => "global" | OmDirect => "direct" end.
Definition app_mode_name (m : ApplicationMode) : string :=
  match m with AppsAll => "all" | AppsBlacklist => "blacklist" | AppsWhitelist => "whitelist" end.
Definition intent_name (i : CaptureIntent) : string :=
  match i with IntentAuto => "auto" | IntentTproxy => "tproxy" | IntentTun => "tun" end.
Definition ipv6_name (m : Ipv6Mode) : string :=
  match m with Ipv6Auto => "auto" | Ipv6Proxy => "proxy" | Ipv6Block => "block" end.
Definition dns_name (m : DnsMode) : string :=
  match m with DnsAuto => "auto" | DnsProxy => "proxy" | DnsSystem => "system" end.
Definition stack_name (s : TunStack) : string := match s with System => "system" | Gvisor => "gvisor" end.
Definition action_name (a : WifiSceneAction) : string :=
  match a with EnableProxy => "enable_proxy" | DisableProxy => "disable_proxy" end.
Definition level_name (l : LogLevel) : string :=
  match l with
  | LvlError => "error" | LvlWarn => "warn" | LvlInfo => "info" | LvlDebug => "debug" | LvlTrace => "trace"
  end.
Definition interfaces_value (i : InterfaceSettings) : Json :=
  jobject [("mobile", JBool (if_mobile i)); ("wifi", JBool (if_wifi i)); ("hotspot", JBool (if_hotspot i));
           ("usb", JBool (if_usb i)); ("include", jstrings (if_include i)); ("exclude", jstrings (if_exclude i))].
Definition scene_value (r : WifiSceneRuleWire) : Json :=
  jobject [("id", JString (wr_id r)); ("ssid", jopt (wr_ssid r)); ("bssid", jopt (wr_bssid r));
           ("action", JString (action_name (wr_action r)))].
Definition scenes_value (s : WifiScenesWire) : Json :=
  jobject [("enabled", JBool (ws_enabled s)); ("probe_interval_seconds", jnumber (ws_probe_interval s));
           ("rules", JArray (scene_value <$> ws_rules s))].
Definition network_value (n : NetworkWire) : Json :=
  jobject [("capture_mode", JString (intent_name (nw_capture_mode n))); ("proxy_tcp", JBool (nw_proxy_tcp n));
           ("proxy_udp", JBool (nw_proxy_udp n)); ("ipv6_mode", JString (ipv6_name (nw_ipv6_mode n)));
           ("dns_mode", JString (dns_name (nw_dns_mode n))); ("tun_stack", JString (stack_name (nw_tun_stack n)));
           ("interfaces", interfaces_value (nw_interfaces n)); ("wifi_scenes", scenes_value (nw_wifi_scenes n))].
Definition routing_value (r : RoutingWire) : Json :=
  jobject [("bypass_private", JBool (rw_bypass_private r)); ("bypass_cn", JBool (rw_bypass_cn r));
           ("block_quic", JBool (rw_block_quic r)); ("force_proxy_cidrs", jstrings (rw_force_cidrs r));
           ("bypass_cidrs", jstrings (rw_bypass_cidrs r)); ("force_proxy_domains", jstrings (rw_force_domains r));
           ("bypass_domains", jstrings (rw_bypass_domains r)); ("block_domains", jstrings (rw_block_domains r))].
Definition candidate_value (c : ResourceCandidateWire) : Json :=
  jobject [("mark", jnumber (rc_mark c)); ("mask", jnumber (rc_mask c));
           ("route_table", jnumber (rc_route_table c)); ("rule_priority", jnumber (rc_rule_priority c))].
Definition advanced_value (a : AdvancedWire) : Json :=
  let s := aw_settings a in
  jobject [("inbound_port", jnumber (adv_inbound_port s)); ("bypass_mark", jnumber (adv_bypass_mark s));
           ("ipv6_guard", JBool (adv_ipv6_guard s)); ("dry_run", JBool (adv_dry_run s));
           ("health_timeout_seconds", jnumber (adv_health_timeout s));
           ("reconcile_interval_seconds", jnumber (adv_reconcile_interval s));
           ("resource_candidates", JArray (candidate_value <$> aw_candidates a))].
(** [serde_json::to_value(&wire)] *)
Definition document_of (w : UserConfigWire) : Json :=
  let sub := wire_subscriptions w in
  let ut := px_urltest (wire_proxy w) in
  jobject [("schema_version", jnumber (wire_schema w));
           ("service", jobject [("enabled", JBool (wire_service_enabled w))]);
           ("subscriptions",
              jobject [("mode", JString (mode_name (sub_mode sub))); ("auto_update", JBool (sub_auto_update sub));
                       ("update_interval_hours", jnumber (sub_interval_hours sub));
                       ("sources", JArray (source_value <$> wire_sources w))]);
           ("proxy",
              jobject [("outbound_mode", JString (outbound_mode_name (px_mode (wire_proxy w))));
                       ("urltest", jobject [("interval_minutes", jnumber (ut_interval ut));
                                            ("tolerance_ms", jnumber (ut_tolerance ut));
                                            ("max_candidates", jnumber (ut_candidates ut))])]);
           ("applications",
              jobject [("mode", JString (app_mode_name (app_mode (wire_applications w))));
                       ("targets", JArray (target_value <$> app_targets (wire_applications w)))]);
           ("network", network_value (wire_network w)); ("routing", routing_value (wire_routing w));
           ("logging", jobject [("level", JString (level_name (lg_level (wire_logging w))));
                                ("retention_days", jnumber (lg_retention_days (wire_logging w)))]);
           ("advanced", advanced_value (wire_advanced w))].

(** ** Pointers into a document *)
Inductive EditError : Type := Refused (e : ConfigError) | Panic.
(** [document.pointer_mut(..).ok_or(InvalidToml)] and the change made through it; the pointers
    of the code are constants without an index or an escape. *)
Fixpoint at_pointer (path : list string) (f : Json -> Result EditError Json) (v : Json) :
    Result EditError Json :=
  match path with
  | [] => f v
  | key :: path =>
      match v with
      | JObject fields =>
          match bt_get key fields with
          | Some x => x ← at_pointer path f x; Ok (JObject (bt_insert key x fields))
          | None => Err (Refused InvalidToml)
          end
      | _ => Err (Refused InvalidToml)
      end
  end.
Fixpoint lookup_pointer (path : list string) (v : Json) : option Json :=
  match path with
  | [] => Some v
  | key :: path =>
      match v with JObject fields => bt_get key fields ≫= lookup_pointer path | _ => None end
  end.
Definition array_mut (path : list string) (f : list Json -> Result EditError (list Json)) :
    Json -> Result EditError Json :=
  at_pointer path (fun v => match v with
                            | JArray l => l ← f l; Ok (JArray l)
                            | _ => Err (Refused InvalidToml)
                            end).
Definition set_value (path : list string) (v : Json) : Json -> Result EditError Json :=
  at_pointer path (fun _ => Ok v).
Definition object_mut (f : list (string * Json) -> Result EditError (list (string * Json))) (v : Json) :
    Result EditError Json :=
  match v with
  | JObject fields => fields ← f fields; Ok (JObject fields)
  | _ => Err (Refused InvalidToml)
  end.
(** [entry(key).or_insert_with(..)] and the change made through it. *)
Definition entry_mut (key : string) (empty : Json) (f : Json -> Result EditError Json)
    (fields : list (string * Json)) : Result EditError (list (string * Json)) :=
  v ← f (default empty (bt_get key fields)); Ok (bt_insert key v fields).
(** [Vec::remove] and [Vec::insert]. *)
Definition vec_remove {A} (i : nat) (l : list A) : Result EditError (A * list A) :=
  match l !! i with Some a => Ok (a, delete i l) | None => Err Panic end.
Definition vec_insert {A} (i : nat) (a : A) (l : list A) : Result EditError (list A) :=
  if (i <=? length l)%nat then Ok (take i l ++ a :: drop i l) else Err Panic.
Fixpoint position {A} (f : A -> bool) (l : list A) : option nat :=
  match l with
  | [] => None
  | a :: rest => if f a then Some O else S <$> position f rest
  end.
Definition source_index (sources : SourceConfig) (id : string) : Result EditError nat :=
  ok_or (position (fun s => String.eqb (src_id s) id) (sc_sources sources)) (Refused InvalidValue).
Definition remove_first (f : Json -> bool) (l : list Json) : Result EditError (list Json) :=
  i ← ok_or (position f l) (Refused InvalidValue); '(_, l) ← vec_remove i l; Ok l.
Definition is_string (s : string) (v : Json) : bool :=
  match v with JString t => String.eqb t s | _ => false end.

(** ** The edits *)
Definition SOURCES : list string := ["subscriptions"; "sources"].
Definition request_profile_name (p : SubscriptionRequestProfile) : string :=
  match p with
  | RpGeneric => "generic" | RpMihomo => "mihomo" | RpClashStandard => "clash_standard"
  | RpSurfboard => "surfboard" | RpSingBox => "sing_box" | RpSingBoxAndroid => "sing_box_android"
  end.
Definition hint_name (f : SubscriptionFormatHint) : string :=
  match f with
  | FhAuto => "auto" | FhUriList => "uri_list" | FhBase64List => "base64_list"
  | FhClashYaml => "clash_yaml" | FhSingboxJson => "singbox_json" | FhSurfboardIni => "surfboard_ini"
  end.
Definition policy_name (m : ApplicationPolicyMode) : string :=
  match m with PolicyAll => "all" | PolicyBlacklist => "blacklist" | PolicyWhitelist => "whitelist" end.
Definition routing_pointer (list : RoutingCidrList) : Datatypes.list string :=
  match list with
  | ForceProxy => ["routing"; "force_proxy_cidrs"]
  | Bypass => ["routing"; "bypass_cidrs"]
  end.
Definition scalar_fields : list (string * list string) :=
  [("service.enabled", ["service"; "enabled"]);
   ("subscriptions.auto_update", ["subscriptions"; "auto_update"]);
   ("subscriptions.update_interval_hours", ["subscriptions"; "update_interval_hours"]);
   ("proxy.outbound_mode", ["proxy"; "outbound_mode"]);
   ("proxy.urltest.interval_minutes", ["proxy"; "urltest"; "interval_minutes"]);
   ("proxy.urltest.tolerance_ms", ["proxy"; "urltest"; "tolerance_ms"]);
   ("proxy.urltest.max_candidates", ["proxy"; "urltest"; "max_candidates"]);
   ("applications.mode", ["applications"; "mode"]);
   ("network.capture_mode", ["network"; "capture_mode"]);
   ("network.proxy_tcp", ["network"; "proxy_tcp"]);
   ("network.proxy_udp", ["network"; "proxy_udp"]);
   ("network.ipv6_mode", ["network"; "ipv6_mode"]);
   ("network.dns_mode", ["network"; "dns_mode"]);
   ("network.tun_stack", ["network"; "tun_stack"]);
   ("network.interfaces.mobile", ["network"; "interfaces"; "mobile"]);
   ("network.interfaces.wifi", ["network"; "interfaces"; "wifi"]);
   ("network.interfaces.hotspot", ["network"; "interfaces"; "hotspot"]);
   ("network.interfaces.usb", ["network"; "interfaces"; "usb"]);
   ("network.wifi_scenes.enabled", ["network"; "wifi_scenes"; "enabled"]);
   ("network.wifi_scenes.probe_interval_seconds", ["network"; "wifi_scenes"; "probe_interval_seconds"]);
   ("routing.bypass_private", ["routing"; "bypass_private"]);
   ("routing.bypass_cn", ["routing"; "bypass_cn"]);
   ("routing.block_quic", ["routing"; "block_quic"]);
   ("logging.level", ["logging"; "level"]);
   ("logging.retention_days", ["logging"; "retention_days"]);
   ("advanced.inbound_port", ["advanced"; "inbound_port"]);
   ("advanced.bypass_mark", ["advanced"; "bypass_mark"]);
   ("advanced.ipv6_guard", ["advanced"; "ipv6_guard"]);
   ("advanced.dry_run", ["advanced"; "dry_run"]);
   ("advanced.health_timeout_seconds", ["advanced"; "health_timeout_seconds"]);
   ("advanced.reconcile_interval_seconds", ["advanced"; "reconcile_interval_seconds"])].
Definition scalar_pointer (field_id : string) : option (list string) :=
  snd <$> find (fun kv => String.eqb kv.1 field_id) scalar_fields.

Definition apply_source_filter (f : SubscriptionSourceFilter) (source : list (string * Json)) :
    Result EditError (list (string * Json)) :=
  entry_mut "filter" (JObject [])
    (object_mut (fun filter =>
       Ok (bt_insert "protocols" (jstrings (filter_protocols f))
             (bt_insert "exclude_names" (jstrings (Protocol.exclude_names f))
                (bt_insert "include_names" (jstrings (Protocol.include_names f)) filter))))) source.
Definition apply_source_settings (s : SubscriptionSourceSettings) (source : list (string * Json)) :
    Result EditError (list (string * Json)) :=
  apply_source_filter (ss_filter s)
    (bt_insert "mirrors" (jstrings (ss_mirrors s))
       (bt_insert "format_hint" (JString (hint_name (ss_format_hint s)))
          (bt_insert "request_profile" (JString (request_profile_name (ss_request_profile s))) source))).
Definition insert_some {A} (key : string) (f : A -> Json) (o : option A) (fields : list (string * Json)) :
    list (string * Json) :=
  match o with Some a => bt_insert key (f a) fields | None => fields end.
Definition apply_source_patch (p : SubscriptionSourcePatch) (source : list (string * Json)) :
    Result EditError (list (string * Json)) :=
  let source := insert_some "request_profile" (JString ∘ request_profile_name) (sp_request_profile p) source in
  let source := insert_some "format_hint" (JString ∘ hint_name) (sp_format_hint p) source in
  let source := insert_some "mirrors" jstrings (sp_mirrors p) source in
  match sp_filter p with Some f => apply_source_filter f source | None => Ok source end.

Definition set_enabled (on : bool) (source : list (string * Json)) : list (string * Json) :=
  bt_insert "enabled" (JBool on) source.
(** The new source of [AddSource], and the others when it is the only active one. *)
Definition disable (v : Json) : Json :=
  match v with JObject fields => JObject (set_enabled false fields) | _ => v end.
Definition new_source (name url : string) (enabled : bool) (settings : option SubscriptionSourceSettings) :
    Result EditError Json :=
  let source := bt_collect [("name", JString name); ("url", JString url); ("enabled", JBool enabled)] in
  source ← match settings with Some s => apply_source_settings s source | None => Ok source end;
  Ok (JObject source).
Definition update_source (name url : option string) (enabled : option bool)
    (settings : option SubscriptionSourcePatch) : Json -> Result EditError Json :=
  object_mut (fun source =>
    let source := insert_some "enabled" JBool enabled
                    (insert_some "url" JString url (insert_some "name" JString name source)) in
    match settings with Some p => apply_source_patch p source | None => Ok source end).
Definition exclude_node (node : string) : Json -> Result EditError Json :=
  object_mut
    (entry_mut "filter" (JObject [])
       (object_mut
          (entry_mut "excluded_node_ids" (JArray [])
             (fun v => match v with
                       | JArray l => Ok (JArray (if existsb (is_string node) l then l else l ++ [JString node]))
                       | _ => Err (Refused InvalidToml)
                       end)))).
(** [list.get_mut(i).and_then(as_object_mut).ok_or(InvalidToml)] *)
Definition alter_at (i : nat) (f : Json -> Result EditError Json) (l : list Json) :
    Result EditError (list Json) :=
  v ← ok_or (l !! i) (Refused InvalidToml); v ← f v; Ok (<[i := v]> l).
(** [remove] at [from] and [insert] before what was at [before]. *)
Definition move_item {A} (from : nat) (before : option nat) (l : list A) : Result EditError (list A) :=
  '(a, l) ← vec_remove from l;
  let at_ := match before with
             | None => length l
             | Some i => if (from <? i)%nat then (i - 1)%nat else i
             end in
  vec_insert at_ a l.

Record Edited : Type := mkEdited {
  ed_document : Json;
  ed_added : option nat;
  ed_ids : list (option SourceId);
}.
Definition apply_mutation (m : ConfigMutation) (sources : SourceConfig) (doc : Json)
    (ids : list (option SourceId)) : Result EditError Edited :=
  let kept (r : Result EditError Json) := d ← r; Ok (mkEdited d None ids) in
  match m with
  | SetServiceEnabled on => kept (set_value ["service"; "enabled"] (JBool on) doc)
  | AddSource name url settings =>
      let enabled := match active_sources sources with [] => true | _ => false end in
      let count := match lookup_pointer SOURCES doc with Some (JArray l) => length l | _ => O end in
      d ← array_mut SOURCES (fun l =>
            let l := if enabled then disable <$> l else l in
            source ← new_source name url enabled settings; Ok (l ++ [source])) doc;
      Ok (mkEdited d (Some count) (ids ++ [None]))
  | UpdateSource id name url enabled settings =>
      i ← source_index sources id;
      kept (array_mut SOURCES (alter_at i (update_source name url enabled settings)) doc)
  | RemoveSource id =>
      i ← source_index sources id;
      d ← array_mut SOURCES (fun l => '(_, l) ← vec_remove i l; Ok l) doc;
      '(_, ids) ← vec_remove i ids;
      Ok (mkEdited d None ids)
  | MoveSource id before =>
      from ← source_index sources id;
      before ← match before with Some id => i ← source_index sources id; Ok (Some i) | None => Ok None end;
      d ← array_mut SOURCES (move_item from before) doc;
      ids ← move_item from before ids;
      Ok (mkEdited d None ids)
  | AddApplicationTarget t =>
      kept (array_mut ["applications"; "targets"] (fun l => Ok (l ++ [target_value t])) doc)
  | RemoveApplicationTarget t =>
      kept (array_mut ["applications"; "targets"] (remove_first (fun v => json_eqb v (target_value t))) doc)
  | ReplaceApplicationTargets ts =>
      kept (set_value ["applications"; "targets"] (JArray (target_value <$> ts)) doc)
  | SetApplicationPolicy mode ts =>
      kept (d ← set_value ["applications"; "mode"] (JString (policy_name mode)) doc;
            set_value ["applications"; "targets"] (JArray (target_value <$> ts)) d)
  | AddRoutingCidr which cidr => kept (array_mut (routing_pointer which) (fun l => Ok (l ++ [JString cidr])) doc)
  | RemoveRoutingCidr which cidr => kept (array_mut (routing_pointer which) (remove_first (is_string cidr)) doc)
  | RemoveNode node => kept (array_mut SOURCES (map_result (exclude_node node)) doc)
  | SetScalarField field value =>
      path ← ok_or (scalar_pointer field) (Refused UnknownField);
      kept (set_value path value doc)
  end.

(** The documents of the subscription commands. *)
Definition enable_only (selected : nat) (l : list Json) : Result EditError (list Json) :=
  map_result (fun kv => object_mut (fun fields => Ok (set_enabled (Nat.eqb kv.1 selected) fields)) kv.2)
    (imap pair l).
Definition url_of (sources : SourceConfig) (i : nat) : Result EditError string :=
  ok_or (src_url <$> sc_sources sources !! i) Panic.
Definition subscription_select_document (sources : SourceConfig) (doc : Json) (id : string) :
    Result EditError Json :=
  match sc_mode sources with
  | Merge => Err (Refused InvalidValue)
  | Single =>
      selected ← source_index sources id;
      url ← url_of sources selected;
      if is_empty_str url then Err (Refused InvalidValue)
      else array_mut SOURCES (enable_only selected) doc
  end.
Definition subscription_set_enabled_document (sources : SourceConfig) (doc : Json) (id : string) (on : bool) :
    Result EditError Json :=
  match sc_mode sources with
  | Single => Err (Refused InvalidValue)
  | Merge =>
      selected ← source_index sources id;
      target ← ok_or (sc_sources sources !! selected) Panic;
      if on && is_empty_str (src_url target) then Err (Refused InvalidValue)
      else if negb on && src_enabled target && (len (active_sources sources) <=? 1)
      then Err (Refused NoActiveSource)
      else
        array_mut SOURCES (fun l =>
          v ← ok_or (l !! selected) Panic;
          v ← object_mut (fun fields => Ok (set_enabled on fields)) v;
          Ok (<[selected := v]> l)) doc
  end.
Definition subscription_mode_document (sources : SourceConfig) (doc : Json) (mode : Source.SubscriptionMode)
    (target : option string) : Result EditError Json :=
  doc ← at_pointer ["subscriptions"]
          (object_mut (fun fields => Ok (bt_insert "mode" (JString (mode_name mode)) fields))) doc;
  match mode with
  | Merge => match target with Some _ => Err (Refused InvalidValue) | None => Ok doc end
  | Single =>
      target ← ok_or target (Refused SingleSourceNotUnique);
      selected ← source_index sources target;
      url ← url_of sources selected;
      if is_empty_str url then Err (Refused InvalidValue)
      else array_mut SOURCES (enable_only selected) doc
  end.

(** ** Lemmas on pointers and lists *)
(** What a successful change through a pointer leaves behind. *)
Fixpoint put_pointer (path : list string) (x v : Json) : Json :=
  match path, v with
  | [], _ => x
  | key :: path, JObject fields =>
      match bt_get key fields with
      | Some y => JObject (bt_insert key (put_pointer path x y) fields)
      | None => v
      end
  | _, _ => v
  end.
Lemma at_pointer_some path f v y :
  lookup_pointer path v = Some y -> at_pointer path f v = (x ← f y; Ok (put_pointer path x v)).
Proof.
  revert v. induction path as [|key path IH]; intros v; cbn.
  { intros [= ->]. by destruct (f y). }
  destruct v; try done. destruct (bt_get key fields) as [z|]; [|done]. cbn [mbind option_bind].
  intros Hy. rewrite (IH _ Hy). by destruct (f y).
Qed.
Lemma lookup_put path x v y : lookup_pointer path v = Some y -> lookup_pointer path (put_pointer path x v) = Some x.
Proof.
  revert v. induction path as [|key path IH]; intros v; cbn; [done|].
  destruct v; try done. destruct (bt_get key fields) as [z|] eqn:Ek; [|done]. cbn [mbind option_bind].
  intros Hy. rewrite bt_get_insert_eq. cbn. by apply IH.
Qed.
(** Two pointers that part somewhere. *)
Fixpoint apart (p q : list string) : bool :=
  match p, q with
  | a :: p, b :: q => negb (String.eqb a b) || apart p q
  | _, _ => false
  end.
Lemma lookup_put_apart p q x v :
  apart p q = true -> lookup_pointer q (put_pointer p x v) = lookup_pointer q v.
Proof.
  revert q v. induction p as [|a p IH]; intros [|b q] v; cbn [apart]; try done. intros Hab.
  destruct v; try done. cbn. destruct (bt_get a fields) as [y|] eqn:Ea; [|done]. cbn.
  destruct (String.eqb_spec a b) as [<-|Hne]; cbn in Hab.
  - rewrite bt_get_insert_eq, Ea. cbn. by apply IH.
  - by rewrite bt_get_insert_other by done.
Qed.
Lemma array_mut_some path f v l :
  lookup_pointer path v = Some (JArray l) ->
  array_mut path f v = (l ← f l; Ok (put_pointer path (JArray l) v)).
Proof. intros Hl. unfold array_mut. rewrite (at_pointer_some _ _ _ _ Hl). by destruct (f l). Qed.

Lemma position_lookup {A} (f : A -> bool) l i :
  position f l = Some i ->
  exists a, l !! i = Some a /\ f a = true /\ forall j b, (j < i)%nat -> l !! j = Some b -> f b = false.
Proof.
  revert i. induction l as [|a l IH]; intros i; cbn; [done|]. destruct (f a) eqn:Ea.
  - intros [= <-]. exists a. split_and!; try done. intros j b Hj. lia.
  - destruct (position f l) as [k|]; cbn; [|done]. intros [= <-].
    destruct (IH k eq_refl) as (b & Hb & Hf & Hbefore). exists b. split_and!; try done.
    intros [|j] c Hj; cbn; [by intros [= <-]|]. apply Hbefore. lia.
Qed.
Lemma position_app_l {A} (f : A -> bool) l k :
  existsb f l = true -> position f (l ++ k) = position f l.
Proof. induction l as [|a l IH]; cbn; [done|]. destruct (f a); [done|]. intros H. by rewrite IH. Qed.
Lemma position_app_r {A} (f : A -> bool) l k :
  existsb f l = false -> position f (l ++ k) = Nat.add (length l) <$> position f k.
Proof.
  induction l as [|a l IH]; cbn; [by destruct (position f k)|]. destruct (f a); [done|]. intros H.
  rewrite IH by done. by destruct (position f k).
Qed.


(** ** What the edits do to the sources *)
(** The source that goes by an identity. *)
Definition source_of (ids : list (option SourceId)) (l : list Json) (id : SourceId) : option Json :=
  i ← position (fun o => bool_decide (o = Some id)) ids; l !! i.
Definition identities (sources : SourceConfig) : list (option SourceId) := Some ∘ src_id <$> sc_sources sources.

Lemma document_sources w : lookup_pointer SOURCES (document_of w) = Some (JArray (source_value <$> wire_sources w)).
Proof. reflexivity. Qed.
Lemma document_scalars w field path :
  scalar_pointer field = Some path -> is_Some (lookup_pointer path (document_of w)).
Proof.
  unfold scalar_pointer. destruct (find _ scalar_fields) as [[k p]|] eqn:Ef; [|done]. intros [= <-].
  apply List.find_some in Ef as [Hin _]. revert Hin. generalize k p. clear k p.
  intros k p Hin. cbn in Hin.
  repeat (destruct Hin as [[= <- <-]|Hin]; [eexists; reflexivity|]). done.
Qed.

Lemma source_of_elem ids l id a :
  NoDup ids -> length l = length ids ->
  source_of ids l id = Some a <-> (Some id, a) ∈ zip ids l.
Proof.
  unfold source_of. revert l. induction ids as [|o ids IH]; intros [|x l] Hn Hl; try done; cbn.
  { split; [done|by intros ?%elem_of_nil]. }
  inversion Hn as [|? ? Hno Hn']; subst. injection Hl as Hl. rewrite elem_of_cons.
  destruct (bool_decide (o = Some id)) eqn:Eo; cbn.
  - apply bool_decide_eq_true in Eo as ->. split; [intros [= ->]; by left|].
    intros [[= ->]|Hin]; [done|]. by apply elem_of_zip_l in Hin.
  - apply bool_decide_eq_false in Eo. specialize (IH l Hn' Hl).
    destruct (position _ ids); cbn in *; rewrite IH; naive_solver.
Qed.
Lemma source_of_perm ids l ids' l' :
  NoDup ids -> length l = length ids -> length l' = length ids' ->
  zip ids' l' ≡ₚ zip ids l -> ids' ≡ₚ ids /\ forall id, source_of ids' l' id = source_of ids l id.
Proof.
  intros Hn Hl Hl' Hp. assert (ids' ≡ₚ ids) as Hids.
  { rewrite <- (fst_zip ids' l'), <- (fst_zip ids l) by lia. by rewrite Hp. }
  split; [done|]. intros id. apply option_eq. intros a.
  rewrite !source_of_elem by (done || by rewrite Hids). by rewrite Hp.
Qed.

Lemma zip_delete {A B} i (l : list A) (k : list B) : zip (delete i l) (delete i k) = delete i (zip l k).
Proof. revert i k. induction l as [|a l IH]; intros [|i] [|b k]; cbn; try done. - by destruct l. - by rewrite <- IH. Qed.
Lemma vec_remove_Ok {A} i (l : list A) a l' :
  vec_remove i l = Ok (a, l') <-> l !! i = Some a /\ l' = delete i l.
Proof. unfold vec_remove. destruct (l !! i); naive_solver. Qed.
Lemma move_item_total {A} from before (l : list A) :
  (from < length l)%nat -> (forall i, before = Some i -> (i < length l)%nat) ->
  exists l', move_item from before l = Ok l' /\ l' ≡ₚ l.
Proof.
  intros Hf Hb. unfold move_item. destruct (lookup_lt_is_Some_2 _ _ Hf) as [a Ha].
  rewrite (proj2 (vec_remove_Ok from l a _) (conj Ha eq_refl)). cbn [mbind Result_bind].
  assert (length (delete from l) = (length l - 1)%nat) as Hl by (rewrite length_delete by (by exists a); lia).
  set (at_ := match before with None => _ | Some _ => _ end).
  assert (at_ <= length (delete from l))%nat as Hat.
  { unfold at_. destruct before as [i|]; [|lia]. specialize (Hb i eq_refl).
    destruct (Nat.ltb_spec from i); lia. }
  unfold vec_insert. rewrite (proj2 (Nat.leb_le _ _)) by done. eexists. split; [reflexivity|].
  etransitivity; [symmetry; apply Permutation_middle|]. rewrite take_drop. symmetry. by apply delete_Permutation.
Qed.
Lemma move_item_zip {A B} from before (l : list A) (k : list B) l' k' :
  length k = length l -> move_item from before l = Ok l' -> move_item from before k = Ok k' ->
  move_item from before (zip l k) = Ok (zip l' k').
Proof.
  intros Hl Hm Hk. unfold move_item in *.
  apply result_bind_Ok in Hm as ([a l1] & [Ha ->]%vec_remove_Ok & Hm).
  apply result_bind_Ok in Hk as ([b k1] & [Hb ->]%vec_remove_Ok & Hk).
  assert (zip l k !! from = Some (a, b)) as Hz by (rewrite lookup_zip_with, Ha; cbn; by rewrite Hb).
  rewrite (proj2 (vec_remove_Ok from (zip l k) (a, b) _) (conj Hz eq_refl)). cbn [mbind Result_bind].
  assert (length (delete from k) = length (delete from l)) as Hd.
  { rewrite !length_delete by (by eexists). lia. }
  assert (length (delete from (zip l k)) = length (delete from l)) as Hdz.
  { rewrite <- zip_delete, length_zip_with. lia. }
  rewrite Hdz. rewrite Hd in Hk. unfold vec_insert in *. rewrite Hdz. rewrite Hd in Hk.
  set (at_ := match before with None => _ | Some _ => _ end) in *.
  destruct (at_ <=? length (delete from l))%nat eqn:Eat; [|done]. apply Nat.leb_le in Eat.
  injection Hm as <-. injection Hk as <-. f_equal. rewrite <- zip_delete.
  rewrite zip_with_app by (rewrite !length_take; lia). cbn [zip_with].
  by rewrite zip_with_take, zip_with_drop.
Qed.

Lemma at_pointer_inv path f v :
  match at_pointer path f v with
  | Ok v' => exists y x, lookup_pointer path v = Some y /\ f y = Ok x /\ v' = put_pointer path x v
  | Err e => e = Refused InvalidToml \/ exists y, lookup_pointer path v = Some y /\ f y = Err e
  end.
Proof.
  destruct (lookup_pointer path v) as [y|] eqn:Ey.
  - rewrite (at_pointer_some _ _ _ _ Ey). destruct (f y) as [x|e] eqn:Ef; cbn; [by exists y, x|right; by exists y].
  - revert v Ey. induction path as [|key path IH]; intros v; cbn; [done|].
    destruct v; try (by left). destruct (bt_get key fields) as [z|]; [|by left]. cbn. intros Hz.
    specialize (IH z Hz). destruct (at_pointer path f z) as [x|e]; cbn; [|exact IH].
    by destruct IH as (? & ? & ? & _).
Qed.

Section follow.
Context (w : UserConfigWire) (sources : SourceConfig).
#[local] Abbreviation doc := (document_of w).
#[local] Abbreviation ids := (identities sources).
#[local] Abbreviation l := (source_value <$> wire_sources w).
Context (Hunique : NoDup (src_id <$> sc_sources sources)).
Context (Haligned : length (wire_sources w) = length (sc_sources sources)).

(** What becomes of the source of an identity. *)
Definition to_ok {E A} (r : Result E A) : option A := match r with Ok a => Some a | Err _ => None end.
Definition followed (m : ConfigMutation) (id : SourceId) (old : option Json) : option Json :=
  match m with
  | RemoveSource gone => if String.eqb gone id then None else old
  | UpdateSource changed name url enabled settings =>
      if String.eqb changed id then old ≫= (to_ok ∘ update_source name url enabled settings) else old
  | AddSource _ _ _ => match active_sources sources with [] => disable <$> old | _ => old end
  | RemoveNode node => old ≫= (to_ok ∘ exclude_node node)
  | _ => old
  end.
Definition edit_ok (m : ConfigMutation) (r : Result EditError Edited) : Prop :=
  match r with
  | Err Panic => False
  | Err (Refused _) => True
  | Ok e =>
      exists l', lookup_pointer SOURCES (ed_document e) = Some (JArray l')
        /\ length l' = length (ed_ids e) /\ NoDup (ed_ids e)
        /\ forall id, source_of (ed_ids e) l' id = followed m id (source_of ids l id)
  end.

Lemma ids_NoDup : NoDup ids.
Proof.
  unfold identities. rewrite list_fmap_compose. by apply NoDup_fmap_2; [apply _|].
Qed.
Lemma ids_length : length l = length ids.
Proof. unfold identities. by rewrite !length_fmap. Qed.
Lemma source_index_Ok id i :
  source_index sources id = Ok i -> ids !! i = Some (Some id) /\ (i < length l)%nat.
Proof.
  unfold source_index. destruct (position _ _) as [j|] eqn:Ej; [|done]. intros [= ->].
  apply position_lookup in Ej as (s & Hs & He & _). apply String.eqb_eq in He. split.
  - unfold identities. rewrite list_lookup_fmap, Hs. cbn. by rewrite He.
  - rewrite length_fmap, Haligned. by apply lookup_lt_Some in Hs.
Qed.
Lemma source_index_no_panic id : source_index sources id <> Err Panic.
Proof. unfold source_index. by destruct (position _ _). Qed.

Lemma edit_elsewhere m path f :
  apart path SOURCES = true -> (forall y, f y <> Err Panic) -> (forall id old, followed m id old = old) ->
  edit_ok m (d ← at_pointer path f doc; Ok (mkEdited d None ids)).
Proof.
  intros Hapart Hf Hm. pose proof (at_pointer_inv path f doc) as Hp.
  destruct (at_pointer path f doc) as [d|[e|]]; cbn [edit_ok mbind Result_bind ed_document ed_ids]; [| done |].
  - destruct Hp as (y & x & _ & _ & ->). exists l. rewrite lookup_put_apart by done.
    split_and!; [done|apply ids_length|apply ids_NoDup|]. intros id. by rewrite Hm.
  - destruct Hp as [?|(y & _ & Hy)]; [done|by apply (Hf y)].
Qed.
(** The same list of identities over a new list of sources. *)
Lemma edit_sources m f :
  (forall l', f l = Ok l' -> length l' = length l
    /\ forall i id, ids !! i = Some (Some id) -> l' !! i = followed m id (l !! i)) ->
  (forall e, f l = Err e -> e <> Panic) ->
  (forall id, followed m id None = None) ->
  edit_ok m (d ← array_mut SOURCES f doc; Ok (mkEdited d None ids)).
Proof.
  intros Hf Hp Hnone. rewrite (array_mut_some SOURCES f doc l) by apply document_sources.
  destruct (f l) as [l'|[e|]] eqn:E; cbn [edit_ok mbind Result_bind ed_document ed_ids]; [|done|by apply (Hp _ eq_refl)].
  destruct (Hf l' eq_refl) as [Hlen Hi]. exists l'.
  split_and!; [by eapply lookup_put; apply document_sources|by rewrite Hlen, ids_length|apply ids_NoDup|].
  intros id. unfold source_of. destruct (position _ ids) as [i|] eqn:Ei; cbn; [|by rewrite Hnone].
  apply position_lookup in Ei as (o & Ho & Heq%bool_decide_eq_true & _). subst o. by apply Hi.
Qed.

Lemma object_mut_no_panic f v : (forall fields, f fields <> Err Panic) -> object_mut f v <> Err Panic.
Proof. intros Hf. destruct v; cbn; try done. specialize (Hf fields). by destruct (f fields) as [|[]]. Qed.
Lemma entry_mut_no_panic key empty f fields : (forall v, f v <> Err Panic) -> entry_mut key empty f fields <> Err Panic.
Proof.
  intros Hf. unfold entry_mut. specialize (Hf (default empty (bt_get key fields))).
  by destruct (f _) as [|[]].
Qed.
Lemma source_filter_no_panic f source : apply_source_filter f source <> Err Panic.
Proof. apply entry_mut_no_panic. intros v. by apply object_mut_no_panic. Qed.
Lemma source_patch_no_panic p source : apply_source_patch p source <> Err Panic.
Proof. unfold apply_source_patch. destruct (sp_filter p); [apply source_filter_no_panic|done]. Qed.
Lemma update_source_no_panic name url enabled settings v : update_source name url enabled settings v <> Err Panic.
Proof. apply object_mut_no_panic. intros fields. destruct settings; [apply source_patch_no_panic|done]. Qed.
Lemma new_source_no_panic name url enabled settings : new_source name url enabled settings <> Err Panic.
Proof.
  unfold new_source. destruct settings as [s|]; [|done]. unfold apply_source_settings.
  match goal with |- context [apply_source_filter ?f ?x] => pose proof (source_filter_no_panic f x) as Hs;
    by destruct (apply_source_filter f x) as [|[]] end.
Qed.
Lemma exclude_node_no_panic node v : exclude_node node v <> Err Panic.
Proof.
  apply object_mut_no_panic. intros fields. apply entry_mut_no_panic. intros u.
  apply object_mut_no_panic. intros g. apply entry_mut_no_panic. by intros [].
Qed.
Lemma map_result_no_panic {A B} (f : A -> Result EditError B) k :
  (forall a, f a <> Err Panic) -> map_result f k <> Err Panic.
Proof.
  intros Hf. induction k as [|a k IH]; cbn; [done|]. specialize (Hf a).
  destruct (f a) as [b|[]]; cbn; try done. by destruct (map_result f k) as [|[]].
Qed.
Lemma remove_first_no_panic f k : remove_first f k <> Err Panic.
Proof.
  unfold remove_first. destruct (position f k) as [i|] eqn:Ei; [|done]. cbn [ok_or mbind Result_bind].
  apply position_lookup in Ei as (a & Ha & _). unfold vec_remove. by rewrite Ha.
Qed.
Lemma array_no_panic (f : list Json -> Result EditError (list Json)) :
  (forall k, f k <> Err Panic) ->
  forall y, match y with JArray k => k ← f k; Ok (JArray k) | _ => Err (Refused InvalidToml) end <> Err Panic.
Proof. intros Hf y. destruct y; try done. specialize (Hf l). by destruct (f l) as [|[]]. Qed.

Lemma update_follows changed name url enabled settings :
  edit_ok (UpdateSource changed name url enabled settings)
    (apply_mutation (UpdateSource changed name url enabled settings) sources doc ids).
Proof.
  cbn [apply_mutation]. pose proof (source_index_no_panic changed) as Hnp.
  destruct (source_index sources changed) as [i|[e|]] eqn:Ei; [|done|done].
  apply source_index_Ok in Ei as [Hid Hi]. cbn [mbind Result_bind].
  apply edit_sources; [|intros e|intros id; unfold followed; by destruct (String.eqb changed id)].
  - intros l' Hl'. unfold alter_at in Hl'. destruct (l !! i) as [v|] eqn:Ev; [|done]. cbn [ok_or mbind Result_bind] in Hl'.
    destruct (update_source name url enabled settings v) as [v'|] eqn:Eu; [|done]. injection Hl' as <-.
    split; [apply length_insert|]. intros j id Hj. cbn. destruct (String.eqb_spec changed id) as [<-|Hne].
    + assert (j = i) as -> by (by eapply NoDup_lookup; [apply ids_NoDup|..]).
      rewrite Ev. cbn. rewrite Eu. rewrite list_lookup_insert_eq; [done|by apply lookup_lt_Some in Ev].
    + rewrite list_lookup_insert_ne; [done|]. intros <-. unfold SourceId in *. congruence.
  - unfold alter_at. destruct (l !! i) as [v|]; cbn; [|by intros [= <-]].
    pose proof (update_source_no_panic name url enabled settings v) as Hu.
    destruct (update_source name url enabled settings v); cbn; congruence.
Qed.
Lemma remove_follows gone :
  edit_ok (RemoveSource gone) (apply_mutation (RemoveSource gone) sources doc ids).
Proof.
  cbn [apply_mutation]. pose proof (source_index_no_panic gone) as Hnp.
  destruct (source_index sources gone) as [i|[e|]] eqn:Ei; [|done|done].
  apply source_index_Ok in Ei as [Hid Hi]. cbn [mbind Result_bind].
  rewrite (array_mut_some SOURCES _ doc l) by apply document_sources.
  destruct (lookup_lt_is_Some_2 _ _ Hi) as [v Hv].
  rewrite (proj2 (vec_remove_Ok i l v _) (conj Hv eq_refl)). cbn [mbind Result_bind].
  rewrite (proj2 (vec_remove_Ok i ids (Some gone) _) (conj Hid eq_refl)). cbn [edit_ok mbind Result_bind ed_document ed_ids].
  pose proof ids_NoDup as Hn. pose proof ids_length as Hlen.
  assert (NoDup (delete i ids)) as Hn'.
  { rewrite (delete_Permutation _ _ _ Hid) in Hn. by inversion Hn. }
  assert (length (delete i l) = length (delete i ids)) as Hl' by (rewrite !length_delete by (by eexists); lia).
  exists (delete i l). split_and!; [by eapply lookup_put; apply document_sources|done|done|].
  assert (zip ids l ≡ₚ (Some gone, v) :: zip (delete i ids) (delete i l)) as Hz.
  { rewrite zip_delete. apply delete_Permutation. apply lookup_zip_with_Some. by eexists _, _. }
  assert (Some gone ∉ delete i ids) as Hgone.
  { rewrite (delete_Permutation _ _ _ Hid) in Hn. by inversion Hn. }
  intros id. cbn. apply option_eq. intros a. rewrite source_of_elem by done.
  destruct (String.eqb_spec gone id) as [<-|Hne].
  - split; [|done]. by intros ?%elem_of_zip_l.
  - rewrite source_of_elem, Hz, elem_of_cons by done. naive_solver.
Qed.
Lemma move_follows moved before :
  edit_ok (MoveSource moved before) (apply_mutation (MoveSource moved before) sources doc ids).
Proof.
  cbn [apply_mutation]. pose proof (source_index_no_panic moved) as Hnp.
  destruct (source_index sources moved) as [i|[e|]] eqn:Ei; [|done|done].
  apply source_index_Ok in Ei as [_ Hi]. cbn [mbind Result_bind].
  set (b := match before with Some id => _ | None => Ok None end).
  assert (match b with Ok o => forall k, o = Some k -> (k < length l)%nat | Err e => e <> Panic end) as Hb.
  { unfold b. destruct before as [id|]; [|done]. pose proof (source_index_no_panic id).
    destruct (source_index sources id) as [k|e] eqn:Ek; cbn; [|congruence].
    apply source_index_Ok in Ek as [_ Hk]. by intros ? [= <-]. }
  destruct b as [o|[e|]]; [|done|done]. cbn [mbind Result_bind].
  rewrite (array_mut_some SOURCES _ doc l) by apply document_sources.
  destruct (move_item_total i o l) as (l' & Hl' & Hp); [done..|]. rewrite Hl'. cbn [mbind Result_bind].
  destruct (move_item_total i o ids) as (ids' & Hids' & Hpi); [rewrite <- ids_length; done..|]. rewrite Hids'.
  cbn [edit_ok mbind Result_bind ed_document ed_ids].
  assert (length l' = length ids') as Hlen by (rewrite Hp, Hpi; apply ids_length).
  pose proof (move_item_zip i o ids l ids' l' ids_length Hids' Hl') as Hz.
  destruct (move_item_total i o (zip ids l)) as (z & Hz' & Hzp).
  { rewrite length_zip_with, <- ids_length. lia. }
  { intros k Hk. rewrite length_zip_with, <- ids_length. specialize (Hb k Hk). lia. }
  rewrite Hz in Hz'. injection Hz' as <-.
  exists l'. split_and!; [by eapply lookup_put; apply document_sources|done|rewrite Hpi; apply ids_NoDup|].
  intros id. cbn. by apply source_of_perm; [apply ids_NoDup|apply ids_length|..].
Qed.
Lemma zip_snoc_source_of (k : list Json) a id :
  length k = length ids -> source_of (ids ++ [None]) (k ++ [a]) id = source_of ids k id.
Proof.
  intros Hk. unfold source_of. destruct (existsb (fun o => bool_decide (o = Some id)) ids) eqn:Ee.
  - rewrite position_app_l by done. destruct (position _ ids) as [i|] eqn:Ei; [|done]. cbn.
    apply position_lookup in Ei as (o & Ho & _). apply lookup_lt_Some in Ho. by rewrite lookup_app_l by lia.
  - rewrite position_app_r by done. destruct (position _ ids) as [i|] eqn:Ei; [|done].
    apply position_lookup in Ei as (o & Ho & He & _). exfalso.
    assert (existsb (fun o => bool_decide (o = Some id)) ids = true) as He'; [|congruence].
    apply List.existsb_exists. exists o. split; [|done]. apply list_elem_of_In. by eapply list_elem_of_lookup_2.
Qed.
Lemma source_of_fmap (g : Json -> Json) k id : source_of ids (g <$> k) id = g <$> source_of ids k id.
Proof. unfold source_of. destruct (position _ ids); cbn; [apply list_lookup_fmap|done]. Qed.
Lemma add_follows name url settings :
  edit_ok (AddSource name url settings) (apply_mutation (AddSource name url settings) sources doc ids).
Proof.
  cbn [apply_mutation]. rewrite (array_mut_some SOURCES _ doc l) by apply document_sources.
  set (enabled := match active_sources sources with [] => true | _ => false end).
  pose proof (new_source_no_panic name url enabled settings) as Hnp.
  destruct (new_source name url enabled settings) as [v|[e|]]; [|done|done].
  cbn [edit_ok mbind Result_bind ed_document ed_ids]. set (l1 := if enabled then disable <$> l else l).
  assert (length l1 = length ids) as Hl1.
  { unfold l1. rewrite <- ids_length. by destruct enabled; rewrite ?(length_fmap disable). }
  exists (l1 ++ [v]). split_and!; [by eapply lookup_put; apply document_sources|rewrite !length_app, Hl1; done| |].
  - apply NoDup_app. split_and!; [apply ids_NoDup| |apply NoDup_singleton].
    intros o Ho ->%list_elem_of_singleton. unfold identities in Ho.
    apply list_elem_of_fmap in Ho as (s & Hs & _). done.
  - intros id. rewrite zip_snoc_source_of by done. unfold followed, l1, enabled.
    destruct (active_sources sources); [apply source_of_fmap|done].
Qed.
Lemma exclude_follows node :
  edit_ok (RemoveNode node) (apply_mutation (RemoveNode node) sources doc ids).
Proof.
  cbn [apply_mutation]. apply edit_sources; [|intros e He ->|done].
  - intros l' Hl'%map_result_fmap. split; [by apply Forall2_length in Hl'|]. intros i id _. cbn.
    destruct (l !! i) as [v|] eqn:Ev.
    + destruct (Forall2_lookup_l _ _ _ _ _ Hl' Ev) as (v' & Hv' & He). cbn. by rewrite He.
    + apply Forall2_length in Hl'. apply lookup_ge_None in Ev. cbn. apply lookup_ge_None. lia.
  - by eapply map_result_no_panic; [apply exclude_node_no_panic|].
Qed.
Lemma policy_follows mode ts :
  edit_ok (SetApplicationPolicy mode ts) (apply_mutation (SetApplicationPolicy mode ts) sources doc ids).
Proof.
  cbn [apply_mutation]. unfold set_value.
  rewrite (at_pointer_some ["applications"; "mode"] _ doc (JString (app_mode_name (app_mode (wire_applications w)))))
    by reflexivity.
  cbn [mbind Result_bind]. set (d := put_pointer ["applications"; "mode"] _ doc).
  pose proof (at_pointer_inv ["applications"; "targets"] (fun _ => Ok (JArray (target_value <$> ts))) d) as Hp.
  destruct (at_pointer _ _ d) as [d'|[e|]]; cbn [edit_ok mbind Result_bind ed_document ed_ids]; [|done|].
  - destruct Hp as (y & x & _ & _ & ->). exists l. unfold d. rewrite !lookup_put_apart by done.
    split_and!; [done|apply ids_length|apply ids_NoDup|done].
  - by destruct Hp as [?|(y & _ & ?)].
Qed.
End follow.

Lemma scalar_apart field path : scalar_pointer field = Some path -> apart path SOURCES = true.
Proof.
  unfold scalar_pointer. destruct (find _ scalar_fields) as [[k p]|] eqn:Ef; [|done]. intros [= <-].
  apply List.find_some in Ef as [Hin _].
  assert (forallb (fun kv => apart kv.2 SOURCES) scalar_fields = true) as Hall by (vm_compute; reflexivity).
  rewrite forallb_forall in Hall. apply (Hall (k, p) Hin).
Qed.

Lemma mutation_in_step w sources m :
  NoDup (src_id <$> sc_sources sources) -> length (wire_sources w) = length (sc_sources sources) ->
  edit_ok w sources m (apply_mutation m sources (document_of w) (identities sources)).
Proof.
  intros Hn Hl.
  destruct m as [on|name url settings|id name url enabled settings|id|id before|t|t|ts|mode ts|which cidr
                 |which cidr|node|field value].
  - by apply (edit_elsewhere w sources Hn Hl).
  - by apply add_follows.
  - by apply update_follows.
  - by apply remove_follows.
  - by apply move_follows.
  - apply (edit_elsewhere w sources Hn Hl); [done|by apply array_no_panic|done].
  - apply (edit_elsewhere w sources Hn Hl); [done|apply array_no_panic, remove_first_no_panic|done].
  - by apply (edit_elsewhere w sources Hn Hl).
  - by apply policy_follows.
  - apply (edit_elsewhere w sources Hn Hl); [by destruct which|by apply array_no_panic|done].
  - apply (edit_elsewhere w sources Hn Hl); [by destruct which|apply array_no_panic, remove_first_no_panic|done].
  - by apply exclude_follows.
  - cbn [apply_mutation]. destruct (scalar_pointer field) as [path|] eqn:Ef; [|done].
    apply (edit_elsewhere w sources Hn Hl); [by eapply scalar_apart|done|done].
Qed.

(** C15: an edit of the control protocol keeps the sources and their identities in step: it never
    reads outside a list, whatever it edits; afterwards there is one identity for every source,
    no identity is used twice, and the source that goes by an identity is the one that went by
    it before, changed exactly as the edit says ([followed]): gone when it was removed, updated
    when it was updated, switched off when the first active source is added, with the node
    excluded when a node is removed, and as it was for every other edit and every other
    source, wherever it was moved to. *)
Theorem mutation_follows_identities w sources m :
  NoDup (src_id <$> sc_sources sources) -> length (wire_sources w) = length (sc_sources sources) ->
  edit_ok w sources m (apply_mutation m sources (document_of w) (identities sources)).
Proof. apply mutation_in_step. Qed.

(** ** The documents of the subscription commands *)
Definition with_sources (ss : list SubscriptionSourceWire) (w : UserConfigWire) : UserConfigWire :=
  mkWire (wire_schema w) (wire_service_enabled w) (wire_subscriptions w) ss (wire_proxy w)
    (wire_applications w) (wire_network w) (wire_routing w) (wire_logging w) (wire_advanced w).
Definition with_mode (m : Source.SubscriptionMode) (w : UserConfigWire) : UserConfigWire :=
  let sub := wire_subscriptions w in
  mkWire (wire_schema w) (wire_service_enabled w)
    (mkSubscriptions m (sub_auto_update sub) (sub_interval_hours sub)) (wire_sources w) (wire_proxy w)
    (wire_applications w) (wire_network w) (wire_routing w) (wire_logging w) (wire_advanced w).
Definition with_enabled (on : bool) (s : SubscriptionSourceWire) : SubscriptionSourceWire :=
  mkSourceWire (sw_name s) on (sw_url s) (sw_profile s) (sw_format s) (sw_mirrors s) (sw_filter s).
(** Only the source at [i] is enabled. *)
Definition only_enabled (i : nat) (ss : list SubscriptionSourceWire) : list SubscriptionSourceWire :=
  imap (fun j s => with_enabled (Nat.eqb j i) s) ss.

Lemma put_sources w ss :
  put_pointer SOURCES (JArray (source_value <$> ss)) (document_of w) = document_of (with_sources ss w).
Proof. reflexivity. Qed.
Lemma set_enabled_value on s :
  object_mut (fun fields => Ok (set_enabled on fields)) (source_value s) = Ok (source_value (with_enabled on s)).
Proof. reflexivity. Qed.
Lemma enable_only_value i ss :
  enable_only i (source_value <$> ss) = Ok (source_value <$> only_enabled i ss).
Proof.
  unfold enable_only, only_enabled.
  assert (forall k, map_result (fun kv => object_mut (fun fields => Ok (set_enabled (Nat.eqb kv.1 i) fields)) kv.2)
            (imap (fun j => pair (k + j)%nat) (source_value <$> ss))
          = Ok (source_value <$> imap (fun j s => with_enabled (Nat.eqb (k + j) i) s) ss)) as Hk; [|apply (Hk O)].
  induction ss as [|s ss IH]; intros k; [done|]. rewrite fmap_cons, !imap_cons, fmap_cons. cbn [map_result fst snd].
  rewrite set_enabled_value. cbn [mbind Result_bind].
  rewrite (imap_ext _ (fun j => pair (S k + j)%nat)) by (intros; unfold compose; f_equal; lia).
  rewrite IH. cbn [mbind Result_bind]. do 3 f_equal.
  apply imap_ext. intros j x _. unfold compose. do 2 f_equal. lia.
Qed.
Lemma enable_sources w i :
  array_mut SOURCES (enable_only i) (document_of w) = Ok (document_of (with_sources (only_enabled i (wire_sources w)) w)).
Proof.
  rewrite (array_mut_some SOURCES _ _ _ (document_sources w)), enable_only_value. cbn [mbind Result_bind].
  by rewrite put_sources.
Qed.

Lemma put_mode w m :
  at_pointer ["subscriptions"]
    (object_mut (fun fields => Ok (bt_insert "mode" (JString (mode_name m)) fields))) (document_of w)
  = Ok (document_of (with_mode m w)).
Proof. reflexivity. Qed.

Lemma source_index_lookup sources id i :
  source_index sources id = Ok i -> exists target, sc_sources sources !! i = Some target.
Proof.
  unfold source_index. destruct (position _ _) as [j|] eqn:Ej; [|done]. intros [= ->].
  apply position_lookup in Ej as (s & Hs & _). by exists s.
Qed.
Lemma array_mut_no_panic w f :
  f (source_value <$> wire_sources w) <> Err Panic -> array_mut SOURCES f (document_of w) <> Err Panic.
Proof.
  intros Hf. rewrite (array_mut_some SOURCES _ _ _ (document_sources w)).
  destruct (f _) as [|[]]; cbn [mbind Result_bind]; congruence.
Qed.
Lemma subscription_documents_no_panic w sources id mode target on :
  length (wire_sources w) = length (sc_sources sources) ->
  subscription_select_document sources (document_of w) id <> Err Panic
  /\ subscription_mode_document sources (document_of w) mode target <> Err Panic
  /\ subscription_set_enabled_document sources (document_of w) id on <> Err Panic.
Proof.
  intros Hl. split_and!.
  - unfold subscription_select_document. destruct (sc_mode sources); [|done].
    pose proof (source_index_no_panic sources id). destruct (source_index sources id) as [i|[]] eqn:Ei; try done.
    destruct (source_index_lookup _ _ _ Ei) as [t Ht]. cbn [mbind Result_bind]. unfold url_of. rewrite Ht.
    cbn [fmap option_fmap option_map ok_or mbind Result_bind]. destruct (is_empty_str _); [done|]. by rewrite enable_sources.
  - unfold subscription_mode_document. rewrite put_mode. cbn [mbind Result_bind].
    destruct mode; [|by destruct target]. destruct target as [t|]; [|done]. cbn [ok_or mbind Result_bind].
    pose proof (source_index_no_panic sources t). destruct (source_index sources t) as [i|[]] eqn:Ei; try done.
    destruct (source_index_lookup _ _ _ Ei) as [s Hs]. cbn [mbind Result_bind]. unfold url_of. rewrite Hs.
    cbn [fmap option_fmap option_map ok_or mbind Result_bind]. destruct (is_empty_str _); [done|]. by rewrite enable_sources.
  - unfold subscription_set_enabled_document. destruct (sc_mode sources); [done|].
    pose proof (source_index_no_panic sources id). destruct (source_index sources id) as [i|[]] eqn:Ei; try done.
    destruct (source_index_lookup _ _ _ Ei) as [t Ht]. cbn [mbind Result_bind]. rewrite Ht.
    cbn [ok_or mbind Result_bind]. destruct (on && _); [done|]. destruct (negb on && _ && _); [done|].
    apply array_mut_no_panic. apply lookup_lt_Some in Ht. rewrite <- Hl in Ht.
    destruct (lookup_lt_is_Some_2 _ _ Ht) as [s Hs]. rewrite list_lookup_fmap, Hs.
    cbn [fmap option_fmap option_map ok_or mbind Result_bind]. by rewrite set_enabled_value.
Qed.

(** The documents the subscription commands write are those of the configuration they mean:
    choosing a source in single mode, or going to single mode with it, enables it and no other
    and needs an address; going to merge mode changes the mode alone; switching a source in
    merge mode changes that source alone, needs an address to switch it on and refuses to
    switch off the last one that is active.  Every other use is refused, and none panics. *)
Theorem subscription_documents_exact w sources id i target :
  length (wire_sources w) = length (sc_sources sources) ->
  source_index sources id = Ok i -> sc_sources sources !! i = Some target ->
  let doc := document_of w in
  let chosen := with_sources (only_enabled i (wire_sources w)) w in
  let lone on := negb on && src_enabled target && (len (active_sources sources) <=? 1) in
  subscription_select_document sources doc id
    = (if bool_decide (sc_mode sources = Single) && negb (is_empty_str (src_url target))
       then Ok (document_of chosen) else Err (Refused InvalidValue))
  /\ subscription_mode_document sources doc Single (Some id)
     = (if is_empty_str (src_url target) then Err (Refused InvalidValue)
        else Ok (document_of (with_mode Single chosen)))
  /\ subscription_mode_document sources doc Merge None = Ok (document_of (with_mode Merge w))
  /\ forall on,
     subscription_set_enabled_document sources doc id on
     = (if bool_decide (sc_mode sources = Single) || (on && is_empty_str (src_url target))
        then Err (Refused InvalidValue)
        else if lone on then Err (Refused NoActiveSource)
        else Ok (document_of (with_sources (alter (with_enabled on) i (wire_sources w)) w))).
Proof.
  intros Hl Hi Ht. cbv zeta. split_and!.
  - unfold subscription_select_document. destruct (sc_mode sources); [|done]. rewrite Hi. cbn [mbind Result_bind].
    unfold url_of. rewrite Ht. cbn [fmap option_fmap option_map ok_or mbind Result_bind].
    destruct (is_empty_str (src_url target)); [done|]. apply enable_sources.
  - unfold subscription_mode_document. rewrite put_mode. cbn [ok_or mbind Result_bind]. rewrite Hi.
    cbn [mbind Result_bind].
    unfold url_of. rewrite Ht. cbn [fmap option_fmap option_map ok_or mbind Result_bind].
    destruct (is_empty_str (src_url target)); [done|]. apply enable_sources.
  - unfold subscription_mode_document. by rewrite put_mode.
  - intros on. unfold subscription_set_enabled_document. destruct (sc_mode sources); [done|].
    rewrite Hi. cbn [mbind Result_bind]. rewrite Ht. cbn [ok_or mbind Result_bind orb].
    change (bool_decide (Merge = Single)) with false. cbn [orb].
    destruct (on && is_empty_str (src_url target)); [done|].
    destruct (negb on && src_enabled target && _); [done|].
    rewrite (array_mut_some SOURCES _ _ _ (document_sources w)). apply lookup_lt_Some in Ht.
    rewrite <- Hl in Ht. destruct (lookup_lt_is_Some_2 _ _ Ht) as [s Hs].
    rewrite list_lookup_fmap, Hs. cbn [fmap option_fmap option_map ok_or mbind Result_bind].
    rewrite set_enabled_value. cbn [mbind Result_bind]. rewrite <- list_fmap_insert, put_sources.
    do 3 f_equal. apply list_eq. intros j. destruct (decide (i = j)) as [<-|Hne].
    + rewrite list_lookup_insert_eq by done. by rewrite list_lookup_alter_eq, Hs.
    + by rewrite list_lookup_alter_ne, list_lookup_insert_ne.
Qed.

(** A scalar field is edited where it is and nowhere else: a known field is found in every
    configuration, gets the value, and leaves every other part of the document as it was; an
    unknown one is refused. *)
Theorem scalar_edit_exact w sources field value ids :
  match scalar_pointer field with
  | None => apply_mutation (SetScalarField field value) sources (document_of w) ids = Err (Refused UnknownField)
  | Some path =>
      exists e, apply_mutation (SetScalarField field value) sources (document_of w) ids = Ok e
        /\ lookup_pointer path (ed_document e) = Some value /\ ed_ids e = ids
        /\ forall q, apart path q = true ->
             lookup_pointer q (ed_document e) = lookup_pointer q (document_of w)
  end.
Proof.
  cbn [apply_mutation]. destruct (scalar_pointer field) as [path|] eqn:Ef; [|done].
  destruct (document_scalars w field path Ef) as [y Hy]. cbn [ok_or mbind Result_bind].
  unfold set_value. rewrite (at_pointer_some _ _ _ _ Hy). cbn [mbind Result_bind].
  eexists. split; [reflexivity|]. cbn [ed_document ed_ids].
  split_and!; [by eapply lookup_put|done|]. intros q Hq. by apply lookup_put_apart.
Qed.

(** ** Examples *)
Module EditSample.
Definition home : SubscriptionSourceWire :=
  mkSourceWire "Home" true "https://a.example/s" PSingBoxAndroid SAuto [] (mkFilter [] [] [] []).
Definition work : SubscriptionSourceWire :=
  mkSourceWire "Work" false "https://b.example/s" PMihomo SClashYaml [] (mkFilter [] [] [] []).
Definition wire : UserConfigWire :=
  mkWire CONFIG_SCHEMA_VERSION true (mkSubscriptions Single true 24) [home; work] ProxyWire_default
    ApplicationsWire_default NetworkWire_default RoutingWire_default LoggingWire_default AdvancedWire_default.
Definition id_of (b : Z) : string := "src_" +:+ of_bytes (replicate 32 b).
Definition defined (b : Z) (s : SubscriptionSourceWire) : SourceDefinition :=
  mkSource (id_of b) (sw_name s) (sw_enabled s) (sw_url s) (sw_mirrors s) (parser_hint (sw_format s))
    (effective_profile (sw_profile s)) (sw_filter s).
Definition sources : SourceConfig := mkSourceConfig "d" "c" Single [defined 97 home; defined 98 work].
Lemma unique : NoDup (src_id <$> sc_sources sources).
Proof. apply (bool_decide_unpack _). vm_compute. exact I. Qed.
End EditSample.

Lemma mutation_follows_identities_witness :
  exists e, apply_mutation (MoveSource (EditSample.id_of 98) (Some (EditSample.id_of 97))) EditSample.sources
              (document_of EditSample.wire) (identities EditSample.sources) = Ok e
    /\ ed_ids e = [Some (EditSample.id_of 98); Some (EditSample.id_of 97)]
    /\ exists l, lookup_pointer SOURCES (ed_document e) = Some (JArray l)
         /\ source_of (ed_ids e) l (EditSample.id_of 97) = Some (source_value EditSample.home).
Proof.
  eexists. split; [vm_compute; reflexivity|]. split; [vm_compute; reflexivity|].
  destruct (mutation_follows_identities EditSample.wire EditSample.sources
    (MoveSource (EditSample.id_of 98) (Some (EditSample.id_of 97))) EditSample.unique eq_refl)
    as (l & Hl & _ & _ & Hs).
  exists l. split; [exact Hl|]. etransitivity; [exact (Hs (EditSample.id_of 97))|]. vm_compute. reflexivity.
Defined.
Lemma subscription_documents_exact_witness :
  subscription_select_document EditSample.sources (document_of EditSample.wire) (EditSample.id_of 98)
  = Ok (document_of (with_sources [with_enabled false EditSample.home; with_enabled true EditSample.work]
                       EditSample.wire)).
Proof.
  destruct (subscription_documents_exact EditSample.wire EditSample.sources (EditSample.id_of 98) 1
    (EditSample.defined 98 EditSample.work) eq_refl ltac:(vm_compute; reflexivity) eq_refl) as [Hs _].
  etransitivity; [exact Hs|]. vm_compute. reflexivity.
Defined.

(** ** The redacted document *)
(** [if let Some(values) = value.pointer_mut(path).and_then(as_array_mut)] *)
Definition map_array (path : list string) (f : Json -> Json) (v : Json) : Json :=
  match lookup_pointer path v with
  | Some (JArray l) => put_pointer path (JArray (f <$> l)) v
  | _ => v
  end.
Definition on_object (f : list (string * Json) -> list (string * Json)) (v : Json) : Json :=
  match v with JObject fields => JObject (f fields) | _ => v end.
Definition configured (key : string) (fields : list (string * Json)) : bool :=
  match bt_get key fields with Some (JString s) => negb (is_empty_str s) | _ => false end.
Definition redact_source (fields : list (string * Json)) : list (string * Json) :=
  let is_set := configured "url" fields in
  let fields := bt_insert "url_configured" (JBool is_set) (bt_insert "url" JNull fields) in
  match bt_get "mirrors" fields with
  | Some mirrors =>
      let count := match mirrors with JArray l => len l | _ => 0 end in
      bt_insert "mirrors" (jobject [("configured_count", jnumber count)]) fields
  | None => fields
  end.
Definition redact_key (fields : list (string * Json)) (key : string) : list (string * Json) :=
  let is_set := configured key fields in
  bt_insert (key +:+ "_configured") (JBool is_set) (bt_insert key JNull fields).
Definition redact_rule (fields : list (string * Json)) : list (string * Json) :=
  foldl redact_key fields ["ssid"; "bssid"].
Definition RULES : list string := ["network"; "wifi_scenes"; "rules"].
Definition redacted_document (w : UserConfigWire) : Json :=
  map_array RULES (on_object redact_rule) (map_array SOURCES (on_object redact_source) (document_of w)).
(** [ConfigRuntime::redacted_document]: with the identities of the sources. *)
Definition identified_document (w : UserConfigWire) (sources : SourceConfig) : Json :=
  let doc := redacted_document w in
  match lookup_pointer SOURCES doc with
  | Some (JArray l) =>
      let named := zip_with (fun v s => on_object (bt_insert "source_id" (JString (src_id s))) v) l
                     (sc_sources sources) in
      put_pointer SOURCES (JArray (named ++ drop (length (sc_sources sources)) l)) doc
  | _ => doc
  end.

(** What may be seen of a configuration: whether an address is set and how many mirrors there
    are, whether a scene names a network. *)
Definition seen (s : string) : string := if is_empty_str s then "" else "*".
Definition public_source (s : SubscriptionSourceWire) : SubscriptionSourceWire :=
  mkSourceWire (sw_name s) (sw_enabled s) (seen (sw_url s)) (sw_profile s) (sw_format s)
    (replicate (length (sw_mirrors s)) "*") (sw_filter s).
Definition public_rule (r : WifiSceneRuleWire) : WifiSceneRuleWire :=
  mkSceneWire (wr_id r) (seen <$> wr_ssid r) (seen <$> wr_bssid r) (wr_action r).
Definition public (w : UserConfigWire) : UserConfigWire :=
  let n := wire_network w in
  let s := nw_wifi_scenes n in
  mkWire (wire_schema w) (wire_service_enabled w) (wire_subscriptions w) (public_source <$> wire_sources w)
    (wire_proxy w) (wire_applications w)
    (mkNetworkWire (nw_capture_mode n) (nw_proxy_tcp n) (nw_proxy_udp n) (nw_ipv6_mode n) (nw_dns_mode n)
       (nw_tun_stack n) (nw_interfaces n)
       (mkScenesWire (ws_enabled s) (ws_probe_interval s) (public_rule <$> ws_rules s)))
    (wire_routing w) (wire_logging w) (wire_advanced w).

Definition redacted_source (s : SubscriptionSourceWire) (is_set : bool) (count : Z) : Json :=
  jobject [("name", JString (sw_name s)); ("enabled", JBool (sw_enabled s)); ("url", JNull);
           ("url_configured", JBool is_set); ("request_profile", JString (profile_name (sw_profile s)));
           ("format_hint", JString (format_name (sw_format s)));
           ("mirrors", jobject [("configured_count", jnumber count)]); ("filter", filter_value (sw_filter s))].
Definition redacted_rule (r : WifiSceneRuleWire) (ssid bssid : bool) : Json :=
  jobject [("id", JString (wr_id r)); ("ssid", JNull); ("ssid_configured", JBool ssid); ("bssid", JNull);
           ("bssid_configured", JBool bssid); ("action", JString (action_name (wr_action r)))].
Lemma redact_source_value s :
  on_object redact_source (source_value s)
  = redacted_source s (negb (is_empty_str (sw_url s))) (len (JString <$> sw_mirrors s)).
Proof. reflexivity. Qed.
Lemma redact_rule_value r :
  on_object redact_rule (scene_value r)
  = redacted_rule r (is_some_and (negb ∘ is_empty_str) (wr_ssid r)) (is_some_and (negb ∘ is_empty_str) (wr_bssid r)).
Proof. destruct r as [id [ssid|] [bssid|] action]; reflexivity. Qed.
Lemma seen_empty s : is_empty_str (seen s) = is_empty_str s.
Proof. unfold seen. destruct (is_empty_str s) eqn:E; [reflexivity|done]. Qed.
Lemma seen_option o : is_some_and (negb ∘ is_empty_str) (seen <$> o) = is_some_and (negb ∘ is_empty_str) o.
Proof. destruct o as [s|]; [|done]. cbn. by rewrite seen_empty. Qed.
Lemma redact_source_public s :
  on_object redact_source (source_value (public_source s)) = on_object redact_source (source_value s).
Proof.
  rewrite !redact_source_value. unfold public_source. cbn [sw_url sw_mirrors]. rewrite seen_empty.
  assert (len (JString <$> replicate (length (sw_mirrors s)) "*") = len (JString <$> sw_mirrors s)) as ->
    by (unfold len; by rewrite !length_fmap, length_replicate). reflexivity.
Qed.
Lemma redact_rule_public r :
  on_object redact_rule (scene_value (public_rule r)) = on_object redact_rule (scene_value r).
Proof. rewrite !redact_rule_value. unfold public_rule. cbn [wr_ssid wr_bssid]. by rewrite !seen_option. Qed.

(** The document with other lists of sources and of scenes. *)
Lemma redacted_parts w :
  redacted_document w
  = put_pointer RULES (JArray (on_object redact_rule <$> (scene_value <$> ws_rules (nw_wifi_scenes (wire_network w)))))
      (put_pointer SOURCES (JArray (on_object redact_source <$> (source_value <$> wire_sources w))) (document_of w)).
Proof. reflexivity. Qed.
Lemma put_parts_public sources rules w :
  put_pointer RULES rules (put_pointer SOURCES sources (document_of (public w)))
  = put_pointer RULES rules (put_pointer SOURCES sources (document_of w)).
Proof. reflexivity. Qed.

(** C25: the document that is shown hides the secrets of a configuration: the addresses of the
    sources, their mirrors and the networks of the Wi-Fi scenes do not enter it beyond whether they
    are set and how many there are.  Configurations that agree on the rest are shown alike, with
    and without the identities of their sources. *)
Theorem redaction_hides_secrets w w' :
  public w = public w' ->
  redacted_document w = redacted_document w'
  /\ forall sources, identified_document w sources = identified_document w' sources.
Proof.
  intros Hp. assert (redacted_document w = redacted_document w') as Hd.
  { assert (forall v, redacted_document v = redacted_document (public v)) as Hv.
    - intros v. rewrite !redacted_parts, put_parts_public. unfold public. cbn [wire_sources wire_network nw_wifi_scenes ws_rules].
      rewrite <- !list_fmap_compose. f_equal; [|f_equal]; f_equal; apply list_fmap_ext; intros i x _; symmetry;
        [apply redact_rule_public|apply redact_source_public].
    - by rewrite (Hv w), (Hv w'), Hp. }
  split; [done|]. intros sources. unfold identified_document. by rewrite Hd.
Qed.
Lemma redaction_hides_secrets_witness :
  let other := with_sources [mkSourceWire "Home" true "https://secret.example/token" PSingBoxAndroid SAuto []
                               (mkFilter [] [] [] []); EditSample.work] EditSample.wire in
  redacted_document EditSample.wire = redacted_document other.
Proof. apply (redaction_hides_secrets EditSample.wire). vm_compute. reflexivity. Defined.
