(* ===== verification/ConfigRuntime.v ===== *)
(** * ConfigRuntime: the configuration file, the source registry and the transactions over both

    [nethopd/src/worker_config.rs] (the store) and [nethopd/src/config_reconciler.rs]
    ([ConfigRuntime]): a change of the configuration is prepared, written, activated in the
    source registry and, when that fails, taken back.  TOML and serde are parameters; the
    file of the configuration and the file of the registry are replaced by [atomic_write],
    whose outcomes are those of [StateFile]. *)

From S2P Require Import Prelude Text Ordering BTreeMap Json Capture AtomicFile Apps Source StateFile Config ConfigRouting Protocol ConfigEdit.

Local Open Scope Z_scope.

(** ** Files *)
Definition read_stable (d : DiskNode) : Result ConfigError (list Z) :=
  match d with
  | Source.NotFound => Err CfgMissing
  | MetadataError => Err AtomicFile.InvalidPath
  | Source.Node is_file is_symlink is_private contents size =>
      if negb is_file || is_symlink || negb is_private then Err AtomicFile.InvalidPath
      else if size =? 0 then Err AtomicFile.InvalidPath
      else if MAX_CONFIG_BYTES <? size then Err CfgTooLarge
      else
        match contents with
        | None => Err AtomicFile.InvalidPath
        | Some bs =>
            if MAX_CONFIG_BYTES <? len bs then Err CfgTooLarge
            else if len bs =? size then Ok bs else Err UnstableSnapshot
        end
  end.

(** What the module's own entry for the configuration is. *)
Inductive ModuleEntryNode : Type :=
| EntryMissing
| EntryLink (to_store : bool)
| EntryFile (d : DiskNode)
| EntryOther.

Section runtime.
Context (sha256_hex : list Z -> string).
Context (toml_from_str : list Z -> Result ConfigError UserConfigWire).
Context (toml_to_string : UserConfigWire -> option (list Z)).
Context (from_value : Json -> Result ConfigError UserConfigWire).
Context (url_parse : string -> option ParsedUrl).
Context (encode : RegistryState -> list Z) (decode : list Z -> option RegistryState).
Context {G : Type} (fill : G -> Result SourceRegistryError (list Z) * G).

Record World : Type := mkWorld {
  wd_parent_private : bool;
  wd_config : DiskNode;
  wd_registry : DiskNode;
  wd_entry : ModuleEntryNode;
  wd_outcomes : list WriteOutcome;
  wd_entropy : G;
}.
Definition with_config (d : DiskNode) (w : World) : World :=
  mkWorld (wd_parent_private w) d (wd_registry w) (wd_entry w) (wd_outcomes w) (wd_entropy w).
Definition with_registry (d : DiskNode) (g : G) (w : World) : World :=
  mkWorld (wd_parent_private w) (wd_config w) d (wd_entry w) (wd_outcomes w) g.
Definition with_entry (e : ModuleEntryNode) (w : World) : World :=
  mkWorld (wd_parent_private w) (wd_config w) (wd_registry w) e (wd_outcomes w) (wd_entropy w).
(** The outcome of the next replacement. *)
Definition next_outcome (w : World) : WriteOutcome * World :=
  (default Written (head (wd_outcomes w)),
   mkWorld (wd_parent_private w) (wd_config w) (wd_registry w) (wd_entry w) (tail (wd_outcomes w)) (wd_entropy w)).

(** ** The store *)
Record Snapshot : Type := mkConfigSnapshot {
  cs_effective : EffectiveConfig;
  cs_wire : UserConfigWire;
  cs_digest : string;
}.
Definition source_snapshot (s : Snapshot) : ConfigSnapshot :=
  mkSnapshot (cs_digest s) (sub_mode (ec_subscriptions (cs_effective s))) (ec_sources (cs_effective s)).
Definition strip_bom (bs : list Z) : list Z :=
  match strip_prefix [239; 187; 191] bs with Some rest => rest | None => bs end.
Definition parse_snapshot (bs : list Z) : Result ConfigError Snapshot :=
  if negb (valid_utf8 bs) then Err CfgInvalidUtf8
  else
    wire ← toml_from_str (strip_bom bs);
    effective ← from_wire url_parse wire;
    Ok (mkConfigSnapshot effective wire (sha256_hex bs)).

(** [str::replace]; the fuel is the length of the text. *)
Fixpoint replace_in (fuel : nat) (from to bs : list Z) : list Z :=
  match fuel with
  | O => bs
  | S fuel =>
      match strip_prefix from bs with
      | Some rest => to ++ replace_in fuel from to rest
      | None => match bs with [] => [] | b :: rest => b :: replace_in fuel from to rest end
      end
  end.
Definition str_replace (from to bs : list Z) : list Z := replace_in (length bs) from to bs.
Definition line (s : string) : list Z := bytes s ++ [10].
Definition canonical_toml (wire : UserConfigWire) : Result ConfigError (list Z) :=
  wire ← canonicalized url_parse wire;
  document ← ok_or (toml_to_string wire) AtomicFile.WriteFailed;
  let document := str_replace (line "[service]")
    (line "[service]" ++ line "# Persistent proxy switch. The daemon remains available when disabled.") document in
  let document := str_replace (line "[[subscriptions.sources]]")
    (line "[[subscriptions.sources]]" ++ line "# User-visible name and HTTPS subscription URL.") document in
  Ok (line "# NetHop user configuration"
      ++ line "# Source IDs are daemon-owned and never belong in this file." ++ document).

Definition private_parent (w : World) : Result ConfigError unit :=
  if wd_parent_private w then Ok tt else Err AtomicFile.InvalidPath.
Definition store_load (w : World) : Result ConfigError Snapshot :=
  _ ← private_parent w; bs ← read_stable (wd_config w); parse_snapshot bs.
Record StoreCheckpoint : Type := mkStoreCheckpoint { sk_bytes : list Z; sk_digest : string }.
Definition store_checkpoint (w : World) : Result ConfigError StoreCheckpoint :=
  _ ← private_parent w; bs ← read_stable (wd_config w); Ok (mkStoreCheckpoint bs (sha256_hex bs)).
Definition observed_digest (w : World) : Result ConfigError string :=
  _ ← private_parent w; bs ← read_stable (wd_config w); Ok (sha256_hex bs).
Record PreparedConfigWrite : Type := mkPreparedWrite { pw_bytes : list Z; pw_snapshot : Snapshot }.
Definition prepare_wire (wire : UserConfigWire) : Result ConfigError PreparedConfigWrite :=
  bs ← canonical_toml wire; snapshot ← parse_snapshot bs; Ok (mkPreparedWrite bs snapshot).
Definition with_service (on : bool) (w : UserConfigWire) : UserConfigWire :=
  mkWire (wire_schema w) on (wire_subscriptions w) (wire_sources w) (wire_proxy w) (wire_applications w)
    (wire_network w) (wire_routing w) (wire_logging w) (wire_advanced w).
Definition prepare_service_enabled (expected : string) (on : bool) (w : World) :
    Result ConfigError PreparedConfigWrite :=
  current ← store_load w;
  if String.eqb (cs_digest current) expected then prepare_wire (with_service on (cs_wire current))
  else Err Conflict.
Definition prepare_document_candidate (document : Json) : Result ConfigError PreparedConfigWrite :=
  wire ← from_value document; prepare_wire wire.
Definition prepare_document (expected : string) (document : Json) (w : World) :
    Result ConfigError PreparedConfigWrite :=
  digest ← observed_digest w;
  if String.eqb digest expected then prepare_document_candidate document else Err Conflict.

(** [atomic_write] of the configuration. *)
Definition write_config (bs : list Z) (w : World) : Result ConfigError unit * World :=
  if wd_parent_private w then
    let (o, w) := next_outcome w in
    let (ok, d) := write_node o bs (wd_config w) in
    (if ok then Ok tt else Err AtomicFile.WriteFailed, with_config d w)
  else (Err AtomicFile.InvalidPath, w).
Definition commit_prepared (expected : string) (p : PreparedConfigWrite) (w : World) :
    Result ConfigError Snapshot * World :=
  match observed_digest w with
  | Err e => (Err e, w)
  | Ok digest =>
      if String.eqb digest expected then
        match write_config (pw_bytes p) w with
        | (Err e, w) => (Err e, w)
        | (Ok _, w) =>
            (committed ← store_load w;
             if String.eqb (cs_digest committed) (cs_digest (pw_snapshot p)) then Ok committed
             else Err AtomicFile.WriteFailed, w)
        end
      else (Err Conflict, w)
  end.
Definition restore_config (expected : string) (c : StoreCheckpoint) (w : World) :
    Result ConfigError unit * World :=
  match observed_digest w with
  | Err e => (Err e, w)
  | Ok digest =>
      if String.eqb digest expected then
        match write_config (sk_bytes c) w with
        | (Err e, w) => (Err e, w)
        | (Ok _, w) =>
            (digest ← observed_digest w;
             if String.eqb digest (sk_digest c) then Ok tt else Err AtomicFile.WriteFailed, w)
        end
      else (Err Conflict, w)
  end.

(** ** The registry, over the same world *)
Definition registry_prepare (snap : Snapshot) (preferred : list (option SourceId)) (w : World) :
    Result SourceRegistryError PreparedSourceConfig * World :=
  let (o, w) := next_outcome w in
  let '(r, (d, g)) := prepare_with_preferred_ids sha256_hex encode decode (write_node o) fill
                        (source_snapshot snap) preferred (wd_registry w, wd_entropy w) in
  (r, with_registry d g w).
Definition registry_activate (p : PreparedSourceConfig) (w : World) :
    Result SourceRegistryError SourceConfig * World :=
  let (o, w) := next_outcome w in
  let (r, d) := activate encode decode (write_node o) p (wd_registry w) in
  (r, with_registry d (wd_entropy w) w).
Definition registry_checkpoint (w : World) : Result SourceRegistryError RegistryState :=
  Source.checkpoint decode (wd_registry w).
Definition registry_restore (expected : string) (saved : RegistryState) (w : World) :
    Result SourceRegistryError unit * World :=
  let (o, w) := next_outcome w in
  let (r, d) := Source.restore_checkpoint encode decode (write_node o) expected saved (wd_registry w) in
  (r, with_registry d (wd_entropy w) w).
Definition registry_restore_exact (saved : RegistryState) (w : World) :
    Result SourceRegistryError unit * World :=
  let (o, w) := next_outcome w in
  let (r, d) := restore_checkpoint_exact encode (write_node o) saved (wd_registry w) in
  (r, with_registry d (wd_entropy w) w).

(** ** The runtime *)
Inductive ConfigRuntimeError : Type :=
| ErrConfig (e : ConfigError) | ErrRegistry (e : SourceRegistryError) | ModuleEntry | Rollback
| RuntimePanic.
Inductive ConfigReloadState : Type := Accepted | Rejected.
Record Runtime : Type := mkRuntime {
  rt_current : Snapshot;
  rt_source_digest : string;
  rt_sources : SourceConfig;
  rt_module_entry : bool;
  rt_capture : option CapturePolicy;
  rt_sequence : Z;
  rt_last_reload : ConfigReloadState;
}.
Inductive ConfigChange : Type :=
| Unchanged
| Changed (digest : string) (enabled service_changed sources_changed : bool) (sources : SourceConfig)
    (plan : ChangePlan).
Definition service_of (s : Snapshot) : bool := ec_service_enabled (cs_effective s).
Definition Runtime_new (current : Snapshot) (sources : SourceConfig) : Runtime :=
  mkRuntime current (source_config_digest_of sources) sources false None 0 Accepted.
Definition with_app_catalog (catalog : AppCatalog) (rt : Runtime) : Result ConfigRuntimeError Runtime :=
  match admitted_capture (cs_effective (rt_current rt)) (Some catalog) with
  | Ok capture =>
      Ok (mkRuntime (rt_current rt) (rt_source_digest rt) (rt_sources rt) (rt_module_entry rt) (Some capture)
            (rt_sequence rt) (rt_last_reload rt))
  | Err e => Err (ErrConfig e)
  end.
Definition with_module_entry (is_absolute : bool) (file_name : option string) (rt : Runtime) :
    Result ConfigRuntimeError Runtime :=
  if negb is_absolute || negb (bool_decide (file_name = Some "nethop.toml")) then Err ModuleEntry
  else Ok (mkRuntime (rt_current rt) (rt_source_digest rt) (rt_sources rt) true (rt_capture rt)
             (rt_sequence rt) (rt_last_reload rt)).
Definition capture_policy (rt : Runtime) : CapturePolicy :=
  default (ec_capture (cs_effective (rt_current rt))) (rt_capture rt).

Definition State : Type := World * Runtime.
(** Run a step on the world, with its errors. *)
Definition on_world {E A} (err : E -> ConfigRuntimeError) (m : World -> Result E A * World) :
    Mut State ConfigRuntimeError A := fun '(w, rt) =>
  let (r, w) := m w in (match r with Ok a => Ok a | Err e => Err (err e) end, (w, rt)).
Definition view {E A} (err : E -> ConfigRuntimeError) (m : World -> Result E A) :
    Mut State ConfigRuntimeError A := on_world err (fun w => (m w, w)).
Definition edit_error (e : EditError) : ConfigRuntimeError :=
  match e with Refused e => ErrConfig e | Panic => RuntimePanic end.
Definition get_runtime : Mut State ConfigRuntimeError Runtime := fun s => (Ok s.2, s).
Definition lift {E A} (err : E -> ConfigRuntimeError) (r : Result E A) : Mut State ConfigRuntimeError A :=
  fun s => (match r with Ok a => Ok a | Err e => Err (err e) end, s).

Definition accept_resolved (candidate : Snapshot) (sources : SourceConfig) :
    Mut State ConfigRuntimeError ConfigChange := fun '(w, rt) =>
  let change :=
    Changed (cs_digest candidate) (service_of candidate)
      (negb (Bool.eqb (service_of candidate) (service_of (rt_current rt))))
      (negb (String.eqb (source_config_digest_of sources) (rt_source_digest rt))) sources
      (change_plan (cs_effective (rt_current rt)) (cs_effective candidate)) in
  (Ok change,
   (w, mkRuntime candidate (source_config_digest_of sources) sources (rt_module_entry rt) None
         (rt_sequence rt) (rt_last_reload rt))).
(** Activate what was prepared, or take the configuration and the registry back. *)
Definition activate_or_restore (prepared : PreparedSourceConfig) (candidate : Snapshot)
    (store : StoreCheckpoint) (registry : RegistryState) :
    Mut State ConfigRuntimeError SourceConfig := fun s =>
  match on_world ErrRegistry (registry_activate prepared) s with
  | (Ok sources, s) => (Ok sources, s)
  | (Err e, s) =>
      match on_world ErrConfig (restore_config (cs_digest candidate) store) s with
      | (Err _, s) => (Err Rollback, s)
      | (Ok _, s) =>
          match on_world ErrRegistry (registry_restore_exact registry) s with
          | (Err _, s) => (Err Rollback, s)
          | (Ok _, s) => (Err e, s)
          end
      end
  end.
(** The common end of [apply_document_with_ids] and [set_service_enabled_inner]. *)
Definition commit_config (expected : string) (p : PreparedConfigWrite) (preferred : list (option SourceId)) :
    Mut State ConfigRuntimeError ConfigChange :=
  prepared ← on_world ErrRegistry (registry_prepare (pw_snapshot p) preferred);
  store ← view ErrConfig store_checkpoint;
  registry ← view ErrRegistry registry_checkpoint;
  candidate ← on_world ErrConfig (commit_prepared expected p);
  sources ← activate_or_restore prepared candidate store registry;
  accept_resolved candidate sources.
Definition apply_document_with_ids (expected : string) (document : Json) (preferred : list (option SourceId)) :
    Mut State ConfigRuntimeError ConfigChange :=
  p ← view ErrConfig (prepare_document expected document);
  commit_config expected p preferred.
Definition set_service_enabled_inner (on : bool) : Mut State ConfigRuntimeError ConfigChange :=
  rt ← get_runtime;
  if Bool.eqb (service_of (rt_current rt)) on then mret Unchanged
  else
    p ← view ErrConfig (prepare_service_enabled (cs_digest (rt_current rt)) on);
    commit_config (cs_digest (rt_current rt)) p [].

(** [begin_candidate] and [finish_candidate] around a change. *)
Definition candidate {A} (m : Mut State ConfigRuntimeError A) : Mut State ConfigRuntimeError A :=
  fun '(w, rt) =>
    let rt := mkRuntime (rt_current rt) (rt_source_digest rt) (rt_sources rt) (rt_module_entry rt)
                (rt_capture rt) (Z.max (sat_add_u 64 (rt_sequence rt) 1) 1) (rt_last_reload rt) in
    let '(r, (w, rt)) := m (w, rt) in
    let last := if is_err r then Rejected else Accepted in
    (r, (w, mkRuntime (rt_current rt) (rt_source_digest rt) (rt_sources rt) (rt_module_entry rt)
              (rt_capture rt) (rt_sequence rt) last)).

Definition apply_document (expected : string) (document : Json) : Mut State ConfigRuntimeError ConfigChange :=
  candidate (apply_document_with_ids expected document []).
Definition set_service_enabled (on : bool) : Mut State ConfigRuntimeError ConfigChange :=
  candidate (set_service_enabled_inner on).

Definition disk_matches_current (w : World) (rt : Runtime) : bool :=
  match store_load w with
  | Ok s => String.eqb (cs_digest s) (cs_digest (rt_current rt))
  | Err _ => false
  end.
(** The digest that is expected is the one on disk, which is the running one. *)
Definition check_current (expected : string) : Mut State ConfigRuntimeError unit :=
  digest ← view ErrConfig observed_digest;
  rt ← get_runtime;
  matches ← (fun s => (Ok (disk_matches_current s.1 rt), s));
  if negb (String.eqb expected digest) || negb matches then mut_fail (ErrConfig Conflict) else mret tt.
Record ConfigMutationOutcome : Type := mkOutcome { mo_change : ConfigChange; mo_source_id : option string }.
Definition mutate_inner (expected : string) (m : ConfigMutation) :
    Mut State ConfigRuntimeError ConfigMutationOutcome :=
  _ ← check_current expected;
  rt ← get_runtime;
  e ← lift edit_error (apply_mutation m (rt_sources rt) (document_of (cs_wire (rt_current rt)))
                         (identities (rt_sources rt)));
  change ← apply_document_with_ids expected (ed_document e) (ed_ids e);
  let source_id :=
    match ed_added e, change with
    | Some i, Changed _ _ _ _ sources _ => src_id <$> sc_sources sources !! i
    | _, _ => None
    end in
  mret (mkOutcome change source_id).
Definition mutate (expected : string) (m : ConfigMutation) :
    Mut State ConfigRuntimeError ConfigMutationOutcome := candidate (mutate_inner expected m).

(** The subscription commands: [f] makes the document. *)
Definition commit_subscription_document (expected : string) (document : Json) :
    Mut State ConfigRuntimeError ConfigMutationOutcome :=
  candidate
    (rt ← get_runtime;
     change ← apply_document_with_ids expected document (identities (rt_sources rt));
     mret (mkOutcome change None)).
Definition subscription_command (expected : string)
    (f : SourceConfig -> Json -> Result EditError Json) : Mut State ConfigRuntimeError ConfigMutationOutcome :=
  rt ← get_runtime;
  document ← lift edit_error (f (rt_sources rt) (document_of (cs_wire (rt_current rt))));
  commit_subscription_document expected document.
Definition subscription_select (expected id : string) :=
  subscription_command expected (fun sources doc => subscription_select_document sources doc id).
Definition subscription_set_enabled (expected id : string) (on : bool) :=
  subscription_command expected (fun sources doc => subscription_set_enabled_document sources doc id on).
Definition subscription_mode_set (expected : string) (mode : Source.SubscriptionMode) (target : option string) :=
  subscription_command expected (fun sources doc => subscription_mode_document sources doc mode target).
(** The previews of the subscription commands: the bytes that would be written. *)
Record PreparedConfigTransaction : Type := mkTransaction { pt_candidate_digest : string; pt_bytes : list Z }.
Definition preview_subscription (expected : string)
    (f : SourceConfig -> Json -> Result EditError Json) : Mut State ConfigRuntimeError PreparedConfigTransaction :=
  rt ← get_runtime;
  document ← lift edit_error (f (rt_sources rt) (document_of (cs_wire (rt_current rt))));
  _ ← check_current expected;
  p ← view ErrConfig (prepare_document expected document);
  mret (mkTransaction (cs_digest (pw_snapshot p)) (pw_bytes p)).
Record ConfigPreview : Type := mkPreview {
  pv_observed_digest : string; pv_candidate_digest : string; pv_plan : ChangePlan }.
Definition preview_prepared (p : PreparedConfigWrite) : Mut State ConfigRuntimeError ConfigPreview :=
  digest ← view ErrConfig observed_digest;
  rt ← get_runtime;
  mret (mkPreview digest (cs_digest (pw_snapshot p))
          (change_plan (cs_effective (rt_current rt)) (cs_effective (pw_snapshot p)))).
Definition validate_document (expected : string) (document : Json) : Mut State ConfigRuntimeError ConfigPreview :=
  p ← view ErrConfig (prepare_document expected document); preview_prepared p.
Definition preview_document (document : Json) : Mut State ConfigRuntimeError ConfigPreview :=
  p ← lift ErrConfig (prepare_document_candidate document); preview_prepared p.
Definition field_ids (k : ChangeKind) : list string :=
  match k with
  | ChService => ["service.enabled"]
  | ChSubscriptionSchedule => ["subscriptions.auto_update"; "subscriptions.update_interval_hours"]
  | ChSources => ["subscriptions.sources"]
  | ChProxy => ["proxy"] | ChApplications => ["applications"] | ChNetwork => ["network"]
  | ChRouting => ["routing"] | ChLogging => ["logging"] | ChAdvanced => ["advanced"]
  end.
Definition changed_field_ids (p : ConfigPreview) : list string := changes (pv_plan p) ≫= field_ids.

(** ** Reloading *)
Definition link_temporary (w : World) : bool * World :=
  let (o, w) := next_outcome w in (match o with Written => true | _ => false end, w).
Definition give_back {A} (observed : string) (store : StoreCheckpoint) : Mut State ConfigRuntimeError A :=
  fun s =>
    match on_world ErrConfig (restore_config observed store) s with
    | (Err _, s) => (Err Rollback, s)
    | (Ok _, s) => (Err ModuleEntry, s)
    end.
(** [reconcile_module_entry]: a file in the place of the link is the new configuration.  The
    outcomes of [symlink] and [rename] are taken from the same list. *)
Definition import_entry (d : DiskNode) : Mut State ConfigRuntimeError (option Snapshot) :=
  _ ← lift ErrConfig (bs ← read_stable d; parse_snapshot bs);
  bs ← lift ErrConfig (read_stable d);
  store ← view ErrConfig store_checkpoint;
  linked ← (fun '(w, rt) => let (ok, w) := link_temporary w in (Ok ok, (w, rt)));
  if negb linked then mut_fail ModuleEntry
  else
    _ ← on_world ErrConfig (write_config bs);
    renamed ← (fun '(w, rt) => let (ok, w) := link_temporary w in (Ok ok, (w, rt)));
    if negb renamed then
      observed ← view ErrConfig observed_digest;
      give_back observed store
    else
      _ ← (fun '(w, rt) => (Ok tt, (with_entry (EntryLink true) w, rt)));
      s ← view ErrConfig store_load;
      mret (Some s).
Definition reconcile_module_entry : Mut State ConfigRuntimeError (option Snapshot) := fun s =>
  if negb (rt_module_entry s.2) then (Ok None, s)
  else
    match wd_entry s.1 with
    | EntryLink true => (Ok None, s)
    | EntryLink false | EntryOther => (Err ModuleEntry, s)
    | EntryFile d => import_entry d s
    | EntryMissing =>
        let (ok, w) := link_temporary s.1 in
        if ok then (Ok None, (with_entry (EntryLink true) w, s.2)) else (Err ModuleEntry, (w, s.2))
    end.
Definition accept (snapshot : Snapshot) : Mut State ConfigRuntimeError ConfigChange :=
  prepared ← on_world ErrRegistry (registry_prepare snapshot []);
  sources ← on_world ErrRegistry (registry_activate prepared);
  accept_resolved snapshot sources.
Definition reload_inner : Mut State ConfigRuntimeError ConfigChange :=
  imported ← reconcile_module_entry;
  snapshot ← match imported with Some s => mret s | None => view ErrConfig store_load end;
  rt ← get_runtime;
  if String.eqb (cs_digest snapshot) (cs_digest (rt_current rt)) then mret Unchanged else accept snapshot.
Definition reload : Mut State ConfigRuntimeError ConfigChange := candidate reload_inner.

(** ** Checkpoints *)
Record RuntimeCheckpoint : Type := mkCheckpoint {
  ck_store : StoreCheckpoint;
  ck_registry : RegistryState;
  ck_current : Snapshot;
  ck_source_digest : string;
  ck_sources : SourceConfig;
}.
Definition runtime_checkpoint : Mut State ConfigRuntimeError RuntimeCheckpoint :=
  store ← view ErrConfig store_checkpoint;
  registry ← view ErrRegistry registry_checkpoint;
  rt ← get_runtime;
  mret (mkCheckpoint store registry (rt_current rt) (rt_source_digest rt) (rt_sources rt)).
Definition restore_runtime (c : RuntimeCheckpoint) (store : StoreCheckpoint) :
    Mut State ConfigRuntimeError ConfigChange := fun s =>
  match on_world ErrRegistry (registry_restore (cs_digest (rt_current s.2)) (ck_registry c)) s with
  | (Err _, s) =>
      let (_, s) := on_world ErrConfig (restore_config (sk_digest (ck_store c)) store) s in (Err Rollback, s)
  | (Ok _, (w, rt)) =>
      let cur := ck_current c in
      (Ok (Changed (cs_digest cur) (service_of cur)
             (negb (Bool.eqb (service_of cur) (service_of (rt_current rt))))
             (negb (String.eqb (ck_source_digest c) (rt_source_digest rt))) (ck_sources c)
             (change_plan (cs_effective (rt_current rt)) (cs_effective cur))),
       (w, mkRuntime cur (ck_source_digest c) (ck_sources c) (rt_module_entry rt) None
             (rt_sequence rt) (rt_last_reload rt)))
  end.
Definition rollback (c : RuntimeCheckpoint) : Mut State ConfigRuntimeError ConfigChange :=
  store ← view ErrConfig store_checkpoint;
  _ ← on_world ErrConfig (restore_config (sk_digest store) (ck_store c));
  restore_runtime c store.

(** ** The registry and the file, one call at a time *)
#[local] Abbreviation Load := (SourceRegistry_load decode).
Definition active_of (d : DiskNode) : option RegistryBinding :=
  match Load d with Ok st => reg_active st | Err _ => None end.
Definition quiet (w : World) : Prop := Forall (fun o => o <> FailedAfter) (wd_outcomes w).
Definition snapshot_ok (snap : ConfigSnapshot) : Prop :=
  str_len (snap_digest snap) = 64 /\ len (snap_sources snap) <= 16.

Lemma next_outcome_quiet w o w' :
  next_outcome w = (o, w') ->
  wd_parent_private w' = wd_parent_private w /\ wd_config w' = wd_config w /\ wd_registry w' = wd_registry w
  /\ wd_entropy w' = wd_entropy w /\ (quiet w -> o <> FailedAfter /\ quiet w').
Proof.
  intros [= <- <-]. cbn. split_and!; try done. unfold quiet. cbn. intros Hq.
  destruct (wd_outcomes w) as [|o os]; [done|]. by inversion Hq.
Qed.

Lemma read_stored bs :
  read_stable (stored bs)
  = if len bs =? 0 then Err AtomicFile.InvalidPath
    else if MAX_CONFIG_BYTES <? len bs then Err CfgTooLarge else Ok bs.
Proof.
  cbn. destruct (len bs =? 0); [done|]. destruct (MAX_CONFIG_BYTES <? len bs) eqn:E; [done|].
  by rewrite Z.eqb_refl.
Qed.
Lemma read_stable_Ok d bs : read_stable d = Ok bs -> read_stable (stored bs) = Ok bs.
Proof.
  destruct d as [| |f s p c size]; cbn; [done..|].
  destruct (negb f || s || negb p); [done|]. destruct (size =? 0) eqn:Ez; [done|].
  destruct (MAX_CONFIG_BYTES <? size) eqn:Em; [done|]. destruct c as [c|]; [|done].
  destruct (MAX_CONFIG_BYTES <? len c) eqn:Em'; [done|].
  destruct (len c =? size) eqn:El; [|done]. intros [= <-]. apply Z.eqb_eq in El. subst size.
  by rewrite Ez, Em', Z.eqb_refl.
Qed.

Context (sha_length : forall bs, str_len (sha256_hex bs) = 64).
Context (serde_roundtrip : forall s, decode (encode s) = Some s).
Context (registry_fits : forall s, registry_ok s -> 0 < len (encode s) <= MAX_REGISTRY_BYTES).

Lemma load_stored s : registry_ok s -> Load (stored (encode s)) = Ok s.
Proof.
  intros Hok. destruct (registry_fits s Hok) as [Hf1 Hf2]. cbn.
  rewrite (proj2 (Z.eqb_neq _ _)) by lia. rewrite (proj2 (Z.ltb_ge _ _)) by lia. cbn.
  rewrite serde_roundtrip. by rewrite (proj2 (RegistryState_validate_spec s) Hok).
Qed.
Lemma active_stored s : registry_ok s -> active_of (stored (encode s)) = reg_active s.
Proof. intros Hok. unfold active_of. by rewrite load_stored. Qed.
Lemma persist_cases o s d r d' :
  SourceRegistry_persist encode (write_node o) s d = (r, d') -> registry_ok s ->
  (r = Ok tt /\ Load d' = Ok s) \/ (r = Err Source.WriteFailed /\ (o <> FailedAfter -> d' = d)).
Proof.
  unfold SourceRegistry_persist. destruct (write_node o (encode s) d) as [ok d1] eqn:Ew.
  intros [= <- <-] Hok. apply write_node_cases in Ew as [[-> ->]|[-> Hd]]; [left|right]; [|done].
  by rewrite load_stored.
Qed.

Lemma prepared_binding_ok snap preferred o d g prepared d' g' :
  snapshot_ok snap ->
  prepare_with_preferred_ids sha256_hex encode decode (write_node o) fill snap preferred (d, g)
  = (Ok prepared, (d', g')) ->
  binding_ok (prep_binding prepared)
  /\ binding_matches sha256_hex (prep_binding prepared) snap = true
  /\ prep_source_config prepared = source_config_from_binding sha256_hex snap (prep_binding prepared).
Proof.
  intros [Hd Hn] (ids & Hlen & Hnd & Hvalid & Hb & Hc)%prepare_valid. split_and!.
  - rewrite Hb. split_and!; cbn [bind_config_digest bind_entries]; [done| | |].
    + unfold len in *. rewrite length_zip_with_l_eq by done. lia.
    + clear Hb Hc Hnd Hn. revert Hlen Hvalid. generalize (snap_sources snap).
      induction ids as [|id ids IH]; intros [|s ss] Hl Hv; try done; cbn [zip_with].
      inversion Hv; subst. constructor; [|apply IH; [cbn in Hl; lia|done]]. split; [done|]. by split; apply sha_length.
    + by rewrite entry_ids_zip.
  - apply binding_matches_spec. eauto.
  - by rewrite Hc, Hb, from_binding_zip.
Qed.

(** What [prepare] leaves in the registry. *)
Lemma prepare_keeps_active snap preferred o d g r d' g' :
  snapshot_ok snap ->
  prepare_with_preferred_ids sha256_hex encode decode (write_node o) fill snap preferred (d, g)
  = (r, (d', g')) ->
  (o <> FailedAfter -> active_of d' = active_of d)
  /\ forall prepared, r = Ok prepared ->
       active_of d' = active_of d
       /\ (prep_activate prepared = false -> active_of d' = Some (prep_binding prepared)).
Proof.
  intros Hsnap Hrun. pose proof (prepared_binding_ok snap preferred o d g) as Hbind. rewrite Hrun in Hbind.
  revert Hrun. unfold prepare_with_preferred_ids. split_if Hg; [intros [= <- <- <-]; naive_solver|].
  fold (loaded_or_empty decode d).
  destruct (loaded_or_empty decode d) as [st|] eqn:El; [|intros [= <- <- <-]; naive_solver].
  destruct (loaded_or_empty_ok _ _ _ El) as (Hs & Ha & Hp).
  assert (active_of d = reg_active st) as Hact.
  { unfold active_of, loaded_or_empty in *. destruct (Load d) as [x|[]]; naive_solver. }
  assert (forall pending, slot_ok pending -> registry_ok (mkRegistry (reg_schema st) (reg_active st) pending)) as Hok
    by (intros pending Hpend; split_and!; done).
  destruct (matching sha256_hex (reg_active st) snap) as [b|] eqn:Ea.
  - destruct (matching_Some _ _ _ _ Ha Ea) as (Hb & _ & _). destruct (reg_pending st) as [pend|] eqn:Ep.
    + destruct (SourceRegistry_persist _ _ _ _) as [rp d1] eqn:E.
      pose proof (persist_cases _ _ _ _ _ E (Hok None I)) as [[-> Hl]|[-> Hd]]; intros [= <- <- <-].
      * assert (active_of d1 = active_of d) as He by (unfold active_of at 1; by rewrite Hl).
        split; [done|]. intros prepared [= <-]. split; [done|]. intros _. by rewrite He, Hact.
      * split; [|done]. intros Ho. by rewrite (Hd Ho).
    + intros [= <- <- <-]. split; [done|]. intros prepared [= <-]. split; [done|]. intros _. by rewrite Hact.
  - destruct (matching sha256_hex (reg_pending st) snap) as [b|] eqn:Ep.
    { intros [= <- <- <-]. split; [done|]. intros prepared [= <-]. by split. }
    destruct (assign_loop _ _ _ _ _ _ _ _) as [[pairs|] g1] eqn:Er; [|intros [= <- <- <-]; naive_solver].
    destruct (SourceRegistry_persist _ _ _ _) as [rp d1] eqn:E. intros Hrun.
    assert (rp = Ok tt -> slot_ok (Some (mkBinding (snap_digest snap) pairs.*1))) as Hslot.
    { intros ->. injection Hrun as <- <- <-. cbn.
      destruct (Hbind _ _ _ Hsnap eq_refl) as [Hbok _]. exact Hbok. }
    destruct rp as [[]|e].
    + pose proof (persist_cases _ _ _ _ _ E (Hok _ (Hslot eq_refl))) as [[_ Hl]|[? _]]; [|done].
      injection Hrun as <- <- <-.
      assert (active_of d1 = active_of d) as He by (unfold active_of at 1; by rewrite Hl).
      split; [done|]. intros prepared [= <-]. by split.
    + injection Hrun as <- <- <-. split; [|done]. intros Ho. revert E. unfold SourceRegistry_persist.
      destruct (write_node o _ d) as [ok d2] eqn:Ew. apply write_node_cases in Ew as [[-> _]|[-> Hd]]; [done|].
      intros [= <- <-]. by rewrite (Hd Ho).
Qed.
(** What [activate] does with it. *)
Lemma activate_keeps prepared o d r d' :
  activate encode decode (write_node o) prepared d = (r, d') ->
  (prep_activate prepared = false -> active_of d = Some (prep_binding prepared)) ->
  binding_ok (prep_binding prepared) ->
  (r = Ok (prep_source_config prepared) /\ active_of d' = Some (prep_binding prepared))
  \/ (is_err r = true /\ (o <> FailedAfter -> d' = d)).
Proof.
  intros Hrun Hact Hb. revert Hrun. unfold activate. destruct (prep_activate prepared).
  2: { intros [= <- <-]. left. auto. }
  cbn [negb]. destruct (Load d) as [st|] eqn:El; [|intros [= <- <-]; by right].
  destruct (load_ok _ _ _ El) as (Hs & _ & _).
  case_bool_decide as Hpend; [|intros [= <- <-]; by right]. cbn [negb].
  destruct (SourceRegistry_persist _ _ _ _) as [rp d1] eqn:E.
  assert (registry_ok (mkRegistry (reg_schema st) (Some (prep_binding prepared)) None)) as Hok by (split_and!; done).
  pose proof (persist_cases _ _ _ _ _ E Hok) as [[-> Hl]|[-> Hd]]; intros [= <- <-]; [left|by right].
  split; [done|]. unfold active_of. by rewrite Hl.
Qed.

(** ** The configuration on disk, the registry and the running one *)
Definition holds (snapshot : Snapshot) (w : World) : Prop :=
  wd_parent_private w = true
  /\ exists bs, read_stable (wd_config w) = Ok bs /\ parse_snapshot bs = Ok snapshot.
Definition bound (snapshot : Snapshot) (sources : SourceConfig) (w : World) : Prop :=
  exists b, active_of (wd_registry w) = Some b
    /\ binding_matches sha256_hex b (source_snapshot snapshot) = true
    /\ sources = source_config_from_binding sha256_hex (source_snapshot snapshot) b.
Definition in_sync (s : State) : Prop :=
  let (w, rt) := s in
  holds (rt_current rt) w /\ bound (rt_current rt) (rt_sources rt) w
  /\ rt_source_digest rt = source_config_digest_of (rt_sources rt).

Lemma parse_snapshot_ok bs snapshot :
  parse_snapshot bs = Ok snapshot ->
  cs_digest snapshot = sha256_hex bs /\ from_wire url_parse (cs_wire snapshot) = Ok (cs_effective snapshot).
Proof.
  unfold parse_snapshot. destruct (negb (valid_utf8 bs)); [done|].
  intros (wire & _ & H)%result_bind_Ok. apply result_bind_Ok in H as (eff & He & [= <-]). done.
Qed.
Lemma holds_load snapshot w : holds snapshot w -> store_load w = Ok snapshot.
Proof. intros [Hp (bs & Hr & Hs)]. unfold store_load, private_parent. rewrite Hp. cbn. rewrite Hr. exact Hs. Qed.
Lemma holds_digest snapshot w : holds snapshot w -> observed_digest w = Ok (cs_digest snapshot).
Proof.
  intros [Hp (bs & Hr & Hs)]. unfold observed_digest, private_parent. rewrite Hp. cbn. rewrite Hr. cbn.
  apply parse_snapshot_ok in Hs as [-> _]. done.
Qed.
Lemma holds_same snapshot w w' :
  holds snapshot w -> wd_parent_private w' = wd_parent_private w ->
  read_stable (wd_config w') = read_stable (wd_config w) -> holds snapshot w'.
Proof. intros [Hp (bs & Hr & Hs)] Hpar Hcfg. split; [by rewrite Hpar|]. exists bs. by rewrite Hcfg. Qed.
Lemma bound_same snapshot sources w w' :
  bound snapshot sources w -> active_of (wd_registry w') = active_of (wd_registry w) -> bound snapshot sources w'.
Proof. intros (b & Ha & Hb) Hact. exists b. by rewrite Hact. Qed.

(** Writing the configuration. *)
Lemma write_config_cases bs w r w' :
  write_config bs w = (r, w') -> wd_parent_private w = true -> quiet w ->
  quiet w' /\ wd_parent_private w' = true /\ wd_registry w' = wd_registry w /\ wd_entropy w' = wd_entropy w
  /\ ((r = Ok tt /\ wd_config w' = stored bs) \/ (r = Err AtomicFile.WriteFailed /\ wd_config w' = wd_config w)).
Proof.
  unfold write_config. intros Hrun Hp Hq. rewrite Hp in Hrun.
  destruct (next_outcome w) as [o w1] eqn:En.
  destruct (next_outcome_quiet w o w1 En) as (Hp1 & Hc1 & Hr1 & He1 & Hq1). destruct (Hq1 Hq) as [Ho Hq2].
  destruct (write_node o bs (wd_config w1)) as [ok d] eqn:Ew. injection Hrun as <- <-.
  cbn. rewrite Hp1, Hr1, He1, Hp. split_and!; try done.
  apply write_node_cases in Ew as [[-> ->]|[-> Hd]]; [by left|right]. by rewrite (Hd Ho), Hc1.
Qed.
(** The end of a commit: the new configuration, the old one, or one that is too large to be
    read again. *)
Lemma commit_prepared_cases p old w r w' :
  commit_prepared (cs_digest old) p w = (r, w') -> holds old w -> quiet w ->
  parse_snapshot (pw_bytes p) = Ok (pw_snapshot p) -> pw_bytes p <> [] ->
  quiet w' /\ wd_parent_private w' = true /\ wd_registry w' = wd_registry w /\ wd_entropy w' = wd_entropy w
  /\ ((r = Ok (pw_snapshot p) /\ holds (pw_snapshot p) w')
      \/ (r = Err CfgTooLarge)
      \/ (is_err r = true /\ wd_config w' = wd_config w)).
Proof.
  intros Hrun Hold Hq Hparse Hne. revert Hrun. unfold commit_prepared.
  rewrite (holds_digest _ _ Hold), String.eqb_refl.
  destruct (write_config (pw_bytes p) w) as [[[]|e] w1] eqn:Ew;
    destruct (write_config_cases _ _ _ _ Ew (proj1 Hold) Hq) as (Hq1 & Hp1 & Hr1 & He1 & Hcase);
    intros [= <- <-]; split_and!; try done.
  - destruct Hcase as [[_ Hc]|[? _]]; [|done]. unfold store_load, private_parent. rewrite Hp1, Hc. cbn [mbind Result_bind].
    rewrite read_stored. destruct (len (pw_bytes p) =? 0) eqn:Ez.
    { apply Z.eqb_eq in Ez. destruct (pw_bytes p); [done|]. unfold len in Ez. cbn in Ez. lia. }
    destruct (MAX_CONFIG_BYTES <? len (pw_bytes p)) eqn:Em; [by right; left|]. left.
    cbn [mbind Result_bind]. rewrite Hparse. cbn [mbind Result_bind]. rewrite String.eqb_refl. split; [done|].
    split; [done|]. exists (pw_bytes p). rewrite Hc, read_stored, Ez, Em. done.
  - right. right. destruct Hcase as [[? _]|[_ Hc]]; [done|]. done.
Qed.
Lemma restore_config_cases expected bs w r w' :
  restore_config expected (mkStoreCheckpoint bs (sha256_hex bs)) w = (r, w') ->
  wd_parent_private w = true -> quiet w -> read_stable (stored bs) = Ok bs ->
  quiet w' /\ wd_parent_private w' = true /\ wd_registry w' = wd_registry w /\ wd_entropy w' = wd_entropy w
  /\ (r = Ok tt -> read_stable (wd_config w') = Ok bs).
Proof.
  intros Hrun Hp Hq Hbs. revert Hrun. unfold restore_config.
  destruct (observed_digest w) as [digest|]; [|by intros [= <- <-]].
  destruct (String.eqb digest expected); [|by intros [= <- <-]]. cbn [sk_bytes sk_digest].
  destruct (write_config bs w) as [[[]|e] w1] eqn:Ew;
    destruct (write_config_cases _ _ _ _ Ew Hp Hq) as (Hq1 & Hp1 & Hr1 & He1 & Hcase);
    intros [= <- <-]; split_and!; try done.
  intros _. destruct Hcase as [[_ ->]|[? _]]; [done|done].
Qed.

(** What validation keeps of the sources. *)
Lemma source_loop_length ws names urls ss :
  source_loop url_parse ws names urls = Ok ss -> length ss = length ws.
Proof.
  revert names urls ss. induction ws as [|x ws IH]; intros names urls ss; cbn [source_loop]; [by intros [= <-]|].
  intros (name & _ & H)%result_bind_Ok. split_if_in H E1; [done|].
  apply result_bind_Ok in H as (u & _ & H). split_if_in H E2; [done|]. split_if_in H E3; [done|].
  apply result_bind_Ok in H as (u' & _ & H). apply result_bind_Ok in H as (f & _ & H).
  apply result_bind_Ok in H as (more & Hm & [= <-]). cbn. f_equal. by eapply IH.
Qed.
Lemma effective_sources wire effective :
  from_wire url_parse wire = Ok effective ->
  length (ec_sources effective) = length (wire_sources wire) /\ len (ec_sources effective) <= 16.
Proof.
  unfold from_wire. destruct (negb _); [done|]. intros (ss & Hs & H)%result_bind_Ok.
  repeat (apply result_bind_Ok in H as ([] & _ & H) || apply result_bind_Ok in H as (? & _ & H)).
  injection H as <-. cbn [ec_sources]. unfold validate_sources in Hs.
  destruct (len (wire_sources wire) =? 0); [done|]. cbn [orb] in Hs. destruct (_ <? _) eqn:En; [done|].
  apply Z.ltb_ge in En. apply source_loop_length in Hs. unfold len, MAX_SOURCES in *. split; [done|lia].
Qed.
Lemma parsed_snapshot_ok bs snapshot :
  parse_snapshot bs = Ok snapshot -> snapshot_ok (source_snapshot snapshot).
Proof.
  intros [Hd He]%parse_snapshot_ok. split; cbn; [rewrite Hd; apply sha_length|].
  by apply effective_sources in He as [_ ?].
Qed.
Definition prepared_write_ok (p : PreparedConfigWrite) : Prop :=
  parse_snapshot (pw_bytes p) = Ok (pw_snapshot p) /\ pw_bytes p <> [].
Lemma prepare_wire_ok wire p : prepare_wire wire = Ok p -> prepared_write_ok p.
Proof.
  unfold prepare_wire. intros (bs & Hbs & H)%result_bind_Ok. apply result_bind_Ok in H as (s & Hs & [= <-]).
  split; [done|]. cbn. unfold canonical_toml in Hbs. apply result_bind_Ok in Hbs as (w & _ & H).
  apply result_bind_Ok in H as (document & _ & H). by injection H as <-.
Qed.

(** A registry call, whatever it returns. *)
Lemma registry_prepare_keeps snapshot preferred w r w' :
  registry_prepare snapshot preferred w = (r, w') -> snapshot_ok (source_snapshot snapshot) -> quiet w ->
  quiet w' /\ wd_parent_private w' = wd_parent_private w /\ wd_config w' = wd_config w
  /\ active_of (wd_registry w') = active_of (wd_registry w)
  /\ forall prepared, r = Ok prepared ->
       binding_ok (prep_binding prepared)
       /\ binding_matches sha256_hex (prep_binding prepared) (source_snapshot snapshot) = true
       /\ prep_source_config prepared
          = source_config_from_binding sha256_hex (source_snapshot snapshot) (prep_binding prepared)
       /\ (prep_activate prepared = false -> active_of (wd_registry w') = Some (prep_binding prepared)).
Proof.
  unfold registry_prepare. intros Hrun Hs Hq. destruct (next_outcome w) as [o w1] eqn:En.
  destruct (next_outcome_quiet w o w1 En) as (Hp1 & Hc1 & Hr1 & He1 & Hq1). destruct (Hq1 Hq) as [Ho Hq2].
  destruct (prepare_with_preferred_ids _ _ _ _ _ _ _ _) as [rp [d g]] eqn:Ep. injection Hrun as <- <-.
  destruct (prepare_keeps_active _ _ _ _ _ _ _ _ Hs Ep) as [Hact Hok]. cbn. rewrite Hp1, Hc1, <- Hr1.
  split_and!; try done; [by apply Hact|]. intros prepared ->.
  destruct (prepared_binding_ok _ _ _ _ _ _ _ _ Hs Ep) as (H1 & H2 & H3). destruct (Hok _ eq_refl) as [_ H4]. done.
Qed.
Lemma registry_activate_keeps prepared w r w' :
  registry_activate prepared w = (r, w') -> quiet w ->
  (prep_activate prepared = false -> active_of (wd_registry w) = Some (prep_binding prepared)) ->
  binding_ok (prep_binding prepared) ->
  quiet w' /\ wd_parent_private w' = wd_parent_private w /\ wd_config w' = wd_config w
  /\ ((r = Ok (prep_source_config prepared) /\ active_of (wd_registry w') = Some (prep_binding prepared))
      \/ (is_err r = true /\ active_of (wd_registry w') = active_of (wd_registry w))).
Proof.
  unfold registry_activate. intros Hrun Hq Hact Hb. destruct (next_outcome w) as [o w1] eqn:En.
  destruct (next_outcome_quiet w o w1 En) as (Hp1 & Hc1 & Hr1 & He1 & Hq1). destruct (Hq1 Hq) as [Ho Hq2].
  destruct (activate _ _ _ _ _) as [ra d] eqn:Ea. injection Hrun as <- <-. cbn. rewrite Hp1, Hc1.
  rewrite <- Hr1 in Hact. split_and!; try done.
  destruct (activate_keeps _ _ _ _ _ Ea Hact Hb) as [[-> Hd]|[He Hd]]; [by left|right].
  split; [done|]. by rewrite (Hd Ho), Hr1.
Qed.
Lemma registry_restore_exact_keeps saved w r w' :
  registry_restore_exact saved w = (r, w') -> quiet w -> registry_ok saved ->
  quiet w' /\ wd_parent_private w' = wd_parent_private w /\ wd_config w' = wd_config w
  /\ (r = Ok tt -> Load (wd_registry w') = Ok saved).
Proof.
  unfold registry_restore_exact. intros Hrun Hq Hok. destruct (next_outcome w) as [o w1] eqn:En.
  destruct (next_outcome_quiet w o w1 En) as (Hp1 & Hc1 & Hr1 & He1 & Hq1). destruct (Hq1 Hq) as [Ho Hq2].
  unfold restore_checkpoint_exact in Hrun.
  destruct (SourceRegistry_persist _ _ _ _) as [rp d] eqn:Ep. injection Hrun as <- <-. cbn. rewrite Hp1, Hc1.
  split_and!; try done. intros ->. by destruct (persist_cases _ _ _ _ _ Ep Hok) as [[_ Hl]|[? _]].
Qed.

(** ** A change is committed or taken back *)
Lemma activate_or_restore_cases prepared fresh old sources saved w rt r s' :
  activate_or_restore prepared fresh (mkStoreCheckpoint old (sha256_hex old)) saved (w, rt) = (r, s') ->
  quiet w -> wd_parent_private w = true -> read_stable (stored old) = Ok old ->
  registry_ok saved -> active_of (wd_registry w) = reg_active saved ->
  (prep_activate prepared = false -> active_of (wd_registry w) = Some (prep_binding prepared)) ->
  binding_ok (prep_binding prepared) -> prep_source_config prepared = sources ->
  s'.2 = rt
  /\ ((r = Ok sources /\ wd_parent_private s'.1 = true /\ wd_config s'.1 = wd_config w
       /\ active_of (wd_registry s'.1) = Some (prep_binding prepared))
      \/ r = Err Rollback
      \/ ((exists e, r = Err (ErrRegistry e)) /\ wd_parent_private s'.1 = true
          /\ read_stable (wd_config s'.1) = Ok old /\ active_of (wd_registry s'.1) = reg_active saved)).
Proof.
  intros Hrun Hq Hp Hold Hsaved Hact Hprep Hb <-. revert Hrun. unfold activate_or_restore, on_world.
  destruct (registry_activate prepared w) as [ra w1] eqn:Ea.
  destruct (registry_activate_keeps _ _ _ _ Ea Hq Hprep Hb) as (Hq1 & Hp1 & Hc1 & Hcase).
  destruct Hcase as [[-> Hact1]|[Herr Hact1]].
  { intros [= <- <-]. cbn. split; [done|]. left. by rewrite Hp1. }
  destruct ra as [|e]; [done|]. cbn beta iota zeta.
  destruct (restore_config (cs_digest fresh) (mkStoreCheckpoint old (sha256_hex old)) w1) as [rc w2] eqn:Ec.
  rewrite Hp in Hp1.
  destruct (restore_config_cases _ _ _ _ _ Ec Hp1 Hq1 Hold) as (Hq2 & Hp2 & Hr2 & _ & Hc2).
  destruct rc as [[]|]; [|intros [= <- <-]; cbn; naive_solver].
  destruct (registry_restore_exact saved w2) as [rr w3] eqn:Er.
  destruct (registry_restore_exact_keeps _ _ _ _ Er Hq2 Hsaved) as (Hq3 & Hp3 & Hc3 & Hl).
  destruct rr as [[]|]; intros [= <- <-]; cbn; split; [done| |done|naive_solver]. right. right.
  split_and!; [eauto|by rewrite Hp3|by rewrite Hc3, Hc2|]. unfold active_of. by rewrite Hl.
Qed.

Lemma run_on_world {E A B} (err : E -> ConfigRuntimeError) (m : World -> Result E A * World)
    (k : A -> Mut State ConfigRuntimeError B) w rt :
  (on_world err m ≫= k) (w, rt)
  = match m w with
    | (Ok a, w') => k a (w', rt)
    | (Err e, w') => (Err (err e), (w', rt))
    end.
Proof. unfold mbind, Mut_bind, on_world. by destruct (m w) as [[] w']. Qed.
Lemma run_view {E A B} (err : E -> ConfigRuntimeError) (m : World -> Result E A)
    (k : A -> Mut State ConfigRuntimeError B) w rt :
  (view err m ≫= k) (w, rt)
  = match m w with Ok a => k a (w, rt) | Err e => (Err (err e), (w, rt)) end.
Proof. unfold view. rewrite run_on_world. by destruct (m w). Qed.
Lemma checkpoint_of w old :
  wd_parent_private w = true -> read_stable (wd_config w) = Ok old ->
  store_checkpoint w = Ok (mkStoreCheckpoint old (sha256_hex old)).
Proof. intros Hp Ho. unfold store_checkpoint, private_parent. rewrite Hp. cbn. by rewrite Ho. Qed.

(** The result of a change that started in step. *)
Definition change_outcome (p : PreparedConfigWrite) (rt : Runtime) (r : Result ConfigRuntimeError ConfigChange)
    (s' : State) : Prop :=
  match r with
  | Ok change =>
      in_sync s' /\ rt_current s'.2 = pw_snapshot p
      /\ rt_source_digest s'.2 = source_config_digest_of (rt_sources s'.2)
      /\ change = Changed (cs_digest (pw_snapshot p)) (service_of (pw_snapshot p))
                    (negb (Bool.eqb (service_of (pw_snapshot p)) (service_of (rt_current rt))))
                    (negb (String.eqb (rt_source_digest s'.2) (rt_source_digest rt))) (rt_sources s'.2)
                    (change_plan (cs_effective (rt_current rt)) (cs_effective (pw_snapshot p)))
  | Err e => s'.2 = rt /\ e <> RuntimePanic /\ (e = Rollback \/ e = ErrConfig CfgTooLarge \/ in_sync s')
  end.
Lemma commit_config_outcome p preferred w rt r s' :
  commit_config (cs_digest (rt_current rt)) p preferred (w, rt) = (r, s') ->
  in_sync (w, rt) -> quiet w -> prepared_write_ok p -> change_outcome p rt r s'.
Proof.
  intros Hrun (Hholds & Hbound & Hdig) Hq [Hparse Hne]. unfold commit_config in Hrun.
  assert (forall w1, wd_parent_private w1 = wd_parent_private w -> read_stable (wd_config w1) = read_stable (wd_config w) ->
            active_of (wd_registry w1) = active_of (wd_registry w) -> in_sync (w1, rt)) as Hkeep.
  { intros w1 H1 H2 H3. split_and!; [by eapply holds_same|by eapply bound_same|done]. }
  rewrite run_on_world in Hrun. destruct (registry_prepare (pw_snapshot p) preferred w) as [rp w1] eqn:Ep.
  destruct (registry_prepare_keeps _ _ _ _ _ Ep (parsed_snapshot_ok _ _ Hparse) Hq)
    as (Hq1 & Hp1 & Hc1 & Ha1 & Hprep).
  destruct rp as [prepared|e].
  2: { injection Hrun as <- <-. cbn. split_and!; [done..|]. right. right. apply Hkeep; congruence. }
  destruct (Hprep prepared eq_refl) as (Hb & Hm & Hsc & Hact). clear Hprep Ep.
  assert (holds (rt_current rt) w1) as Hholds1 by (eapply holds_same; [exact Hholds|done|by rewrite Hc1]).
  destruct Hholds1 as [Hpar (old & Hold & Hsnap)]. rewrite run_view, (checkpoint_of w1 old Hpar Hold) in Hrun.
  rewrite run_view in Hrun. unfold registry_checkpoint, Source.checkpoint in Hrun.
  destruct (Load (wd_registry w1)) as [saved|e] eqn:El.
  2: { injection Hrun as <- <-. cbn. split_and!; [done..|]. right. right. apply Hkeep; congruence. }
  rewrite run_on_world in Hrun.
  destruct (commit_prepared (cs_digest (rt_current rt)) p w1) as [rc w2] eqn:Ec.
  destruct (commit_prepared_cases _ _ _ _ _ Ec (conj Hpar (ex_intro _ old (conj Hold Hsnap))) Hq1 Hparse Hne)
    as (Hq2 & Hp2 & Hr2 & _ & Hcase).
  destruct rc as [fresh|e].
  2: { injection Hrun as <- <-. cbn. split_and!; [done..|]. destruct Hcase as [[? _]|[[= ->]|[_ Hcfg]]]; [done|auto|].
       right. right. apply Hkeep; [congruence|by rewrite Hcfg, Hc1|by rewrite Hr2]. }
  destruct Hcase as [[[= ->] Hfresh]|[?|[? _]]]; [|done..].
  assert (active_of (wd_registry w2) = reg_active saved) as Hsaved by (rewrite Hr2; unfold active_of; by rewrite El).
  apply bind_inv in Hrun as [(sources & s2 & Hact2 & Hrun)|(e & Hact2 & ->)];
    destruct (activate_or_restore_cases _ _ _ _ _ _ _ _ _ Hact2 Hq2 Hp2 (read_stable_Ok _ _ Hold)
      (load_ok _ _ _ El) Hsaved (fun H => eq_trans (f_equal active_of Hr2) (Hact H)) Hb eq_refl) as [Hrt Hcase].
  - destruct Hcase as [([= ->] & Hp3 & Hc3 & Ha3)|[?|[[? ?] _]]]; [|done..].
    destruct s2 as [w3 rt3]. cbn in Hrt, Hp3, Hc3, Ha3. subst rt3. injection Hrun as <- <-. cbn.
    split_and!; [|by exists (prep_binding prepared); rewrite Hsc|done..].
    eapply holds_same; [exact Hfresh|by rewrite Hp3|by rewrite Hc3].
  - destruct s' as [w3 rt3]. cbn in Hrt. subst rt3. cbn. split; [done|].
    destruct Hcase as [[? _]|[[= ->]|([e' [= ->]] & Hp3 & Hc3 & Ha3)]]; [done|naive_solver|].
    split; [done|]. right. right. cbn in Hp3, Hc3, Ha3.
    apply Hkeep; [congruence|by rewrite Hc3, <- Hold, Hc1|rewrite Ha3, <- Hsaved, Hr2; done].
Qed.

(** ** The operations *)
Lemma definition_ids ids (ss : list UserSource) :
  length ids = length ss -> src_id <$> zip_with source_definition ids ss = ids.
Proof.
  revert ss. induction ids as [|i ids IH]; intros [|s ss] Hl; try done. cbn in *. rewrite IH by lia. done.
Qed.
Lemma in_sync_aligned w rt :
  in_sync (w, rt) ->
  NoDup (src_id <$> sc_sources (rt_sources rt))
  /\ length (wire_sources (cs_wire (rt_current rt))) = length (sc_sources (rt_sources rt)).
Proof.
  intros ([_ (bs & _ & [_ He]%parse_snapshot_ok)] & (b & Ha & Hm & ->) & _).
  apply effective_sources in He as [Hl _]. unfold active_of in Ha. destruct (Load _) as [st|] eqn:El; [|done].
  destruct (load_ok _ _ _ El) as (_ & Hb & _). rewrite Ha in Hb. destruct Hb as (_ & _ & _ & Hn).
  apply binding_matches_spec in Hm as (ids & Hlen & ->). rewrite from_binding_zip by done. cbn in *.
  rewrite entry_ids_zip in Hn by done. rewrite definition_ids by done. split; [done|].
  rewrite length_zip_with_l_eq by done. lia.
Qed.

Inductive ConfigOp : Type :=
| OpApply (expected : string) (document : Json)
| OpMutate (expected : string) (m : ConfigMutation)
| OpSelect (expected id : string)
| OpSetEnabled (expected id : string) (on : bool)
| OpModeSet (expected : string) (mode : Source.SubscriptionMode) (target : option string)
| OpSetService (on : bool).
Definition drop_result {A} (m : Mut State ConfigRuntimeError A) : Mut State ConfigRuntimeError unit := fun s =>
  let (r, s) := m s in (match r with Ok _ => Ok tt | Err e => Err e end, s).
Definition run_op (op : ConfigOp) : Mut State ConfigRuntimeError unit :=
  match op with
  | OpApply expected document => drop_result (apply_document expected document)
  | OpMutate expected m => drop_result (mutate expected m)
  | OpSelect expected id => drop_result (subscription_select expected id)
  | OpSetEnabled expected id on => drop_result (subscription_set_enabled expected id on)
  | OpModeSet expected mode target => drop_result (subscription_mode_set expected mode target)
  | OpSetService on => drop_result (set_service_enabled on)
  end.

(** What is asked of an operation that starts in step. *)
Definition same_config (rt rt' : Runtime) : Prop :=
  rt_current rt' = rt_current rt /\ rt_sources rt' = rt_sources rt /\ rt_source_digest rt' = rt_source_digest rt.
Definition keeps_step {A} (rt : Runtime) (out : Result ConfigRuntimeError A * State) : Prop :=
  let (r, s') := out in
  r <> Err RuntimePanic /\ (is_err r = true -> same_config rt s'.2)
  /\ (r = Err Rollback \/ r = Err (ErrConfig CfgTooLarge) \/ in_sync s').
Lemma same_config_refl rt : same_config rt rt.
Proof. done. Qed.
Lemma in_sync_same w rt rt' : in_sync (w, rt) -> same_config rt rt' -> in_sync (w, rt').
Proof. intros Hs (H1 & H2 & H3). unfold in_sync in *. by rewrite H1, H2, H3. Qed.
Lemma keeps_step_fail {A} w rt (e : ConfigRuntimeError) :
  in_sync (w, rt) -> e <> RuntimePanic -> keeps_step rt (Err e : Result _ A, (w, rt)).
Proof. intros Hs He. split_and!; [congruence|done|auto]. Qed.
Lemma keeps_step_bind {A B} rt (m : Mut State ConfigRuntimeError A) (f : A -> B) s :
  keeps_step rt (m s) -> keeps_step rt ((a ← m; mret (f a)) s).
Proof.
  unfold mbind, Mut_bind. destruct (m s) as [[a|e] s']; intros (H1 & H2 & H3); split_and!; try done; naive_solver.
Qed.
Lemma keeps_step_drop {A} rt (m : Mut State ConfigRuntimeError A) s :
  keeps_step rt (m s) -> keeps_step rt (drop_result m s).
Proof. unfold drop_result. destruct (m s) as [[a|e] s']; intros (H1 & H2 & H3); split_and!; naive_solver. Qed.
Lemma keeps_step_candidate {A} rt (m : Mut State ConfigRuntimeError A) w :
  (forall rt1, same_config rt rt1 -> keeps_step rt1 (m (w, rt1))) -> keeps_step rt (candidate m (w, rt)).
Proof.
  intros Hm. unfold candidate. set (rt1 := mkRuntime _ _ _ _ _ _ _). specialize (Hm rt1 ltac:(done)).
  destruct (m (w, rt1)) as [r [w' rt']]. destruct Hm as (H1 & H2 & H3). split_and!; [done|exact H2|].
  destruct H3 as [H3|[H3|H3]]; [auto..|]. right. right. by eapply in_sync_same.
Qed.

Lemma commit_keeps p preferred w rt :
  in_sync (w, rt) -> quiet w -> prepared_write_ok p ->
  keeps_step rt (commit_config (cs_digest (rt_current rt)) p preferred (w, rt)).
Proof.
  intros Hs Hq Hp. destruct (commit_config _ p preferred (w, rt)) as [r s'] eqn:Ec.
  pose proof (commit_config_outcome _ _ _ _ _ _ Ec Hs Hq Hp) as Ho. destruct r as [change|e].
  - destruct Ho as (Ho & _). by split_and!; [done..|auto].
  - destruct Ho as (Hrt & Hne & Ho). split_and!; [congruence|by rewrite Hrt|naive_solver].
Qed.
Lemma apply_document_keeps expected document preferred w rt :
  in_sync (w, rt) -> quiet w -> keeps_step rt (apply_document_with_ids expected document preferred (w, rt)).
Proof.
  intros Hs Hq. unfold apply_document_with_ids. rewrite run_view. unfold prepare_document.
  rewrite (holds_digest _ _ (proj1 Hs)). cbn [mbind Result_bind].
  destruct (String.eqb_spec (cs_digest (rt_current rt)) expected) as [<-|]; [|by apply keeps_step_fail].
  unfold prepare_document_candidate. destruct (from_value document) as [wire|]; [|by apply keeps_step_fail].
  cbn [mbind Result_bind]. destruct (prepare_wire wire) as [p|] eqn:Ep; [|by apply keeps_step_fail].
  apply commit_keeps; [done..|by eapply prepare_wire_ok].
Qed.
Lemma check_current_keeps {A} expected (k : unit -> Mut State ConfigRuntimeError A) w rt :
  in_sync (w, rt) -> keeps_step rt (k tt (w, rt)) ->
  keeps_step rt ((check_current expected ≫= k) (w, rt)).
Proof.
  intros Hs Hk. unfold check_current, mbind, Mut_bind, view, on_world, get_runtime.
  rewrite (holds_digest _ _ (proj1 Hs)). cbn [fst snd].
  destruct (negb _ || _); [by apply keeps_step_fail|exact Hk].
Qed.
Lemma edit_keeps {A} rt w (r : Result EditError A) {B} (k : A -> Mut State ConfigRuntimeError B) :
  in_sync (w, rt) -> r <> Err Panic -> (forall a, keeps_step rt (k a (w, rt))) ->
  keeps_step rt ((lift edit_error r ≫= k) (w, rt)).
Proof.
  intros Hs Hr Hk. unfold mbind, Mut_bind, lift. destruct r as [a|[e|]]; [apply Hk|by apply keeps_step_fail|done].
Qed.
Lemma subscription_keeps expected f w rt :
  in_sync (w, rt) -> quiet w ->
  f (rt_sources rt) (document_of (cs_wire (rt_current rt))) <> Err Panic ->
  keeps_step rt (subscription_command expected f (w, rt)).
Proof.
  intros Hs Hq Hf. unfold subscription_command. apply (edit_keeps rt w); [done..|]. intros document.
  apply keeps_step_candidate. intros rt1 Hrt. apply in_sync_same with (rt' := rt1) in Hs; [|done].
  unfold mbind at 1, Mut_bind at 1, get_runtime. cbn [snd].
  apply (keeps_step_bind rt1 _ (fun change => mkOutcome change None)). by apply apply_document_keeps.
Qed.
Lemma mutate_keeps expected m w rt :
  in_sync (w, rt) -> quiet w -> keeps_step rt (mutate expected m (w, rt)).
Proof.
  intros Hs Hq. apply keeps_step_candidate. intros rt1 Hrt. apply in_sync_same with (rt' := rt1) in Hs; [|done].
  unfold mutate_inner. apply check_current_keeps; [done|]. unfold mbind at 1, Mut_bind at 1, get_runtime. cbn [snd].
  apply edit_keeps; [done| |].
  - destruct (in_sync_aligned _ _ Hs) as [Hn Hl].
    pose proof (mutation_in_step (cs_wire (rt_current rt1)) (rt_sources rt1) m Hn Hl) as He.
    by destruct (apply_mutation _ _ _ _) as [|[]].
  - intros e. apply (keeps_step_bind rt1 _ (fun change => mkOutcome change _)). by apply apply_document_keeps.
Qed.
Lemma set_service_keeps on w rt :
  in_sync (w, rt) -> quiet w -> keeps_step rt (set_service_enabled on (w, rt)).
Proof.
  intros Hs Hq. apply keeps_step_candidate. intros rt1 Hrt. apply in_sync_same with (rt' := rt1) in Hs; [|done].
  unfold set_service_enabled_inner. unfold mbind at 1, Mut_bind at 1, get_runtime. cbn [snd].
  destruct (Bool.eqb _ on); [by split_and!; [done..|auto]|]. rewrite run_view. unfold prepare_service_enabled.
  rewrite (holds_load _ _ (proj1 Hs)). cbn [mbind Result_bind]. rewrite String.eqb_refl.
  destruct (prepare_wire _) as [p|] eqn:Ep; [|by apply keeps_step_fail].
  apply commit_keeps; [done..|by eapply prepare_wire_ok].
Qed.

Lemma run_op_keeps op w rt :
  in_sync (w, rt) -> quiet w -> keeps_step rt (run_op op (w, rt)).
Proof.
  intros Hs Hq. destruct (in_sync_aligned _ _ Hs) as [_ Hl].
  destruct op as [expected document|expected m|expected id|expected id on|expected mode target|on];
    apply keeps_step_drop.
  - apply keeps_step_candidate. intros rt1 Hrt. apply apply_document_keeps; [by eapply in_sync_same|done].
  - by apply mutate_keeps.
  - apply subscription_keeps; [done..|]. by apply (subscription_documents_no_panic _ _ id Merge None true).
  - apply subscription_keeps; [done..|]. by apply (subscription_documents_no_panic _ _ id Merge None on).
  - apply subscription_keeps; [done..|]. by apply (subscription_documents_no_panic _ _ EmptyString mode target true).
  - by apply set_service_keeps.
Qed.

(** C8: the configuration file, the registry of source identities and the running
    configuration stay in step.  From a state in which they are, every operation that
    changes the configuration (a document, an edit, a subscription command, the service
    switch), with its writes failing anywhere before the file is replaced, either leaves
    them in step or says that it could not take the change back or that the file became
    too large to be read; an error leaves the running configuration and its sources as
    they were, and no operation reads outside a list.  The registries that are written
    are taken to be read back as they were written and to fit the limit of the registry
    file ([registry_fits]). *)
Theorem config_stays_in_step op w rt :
  in_sync (w, rt) -> quiet w -> keeps_step rt (run_op op (w, rt)).
Proof. apply run_op_keeps. Qed.

(** ** Checkpoints *)
Lemma bound_digest snapshot sources w st :
  bound snapshot sources w -> Load (wd_registry w) = Ok st ->
  bind_config_digest <$> reg_active st = Some (cs_digest snapshot).
Proof.
  intros (b & Ha & Hm & _) Hl. unfold active_of in Ha. rewrite Hl in Ha. rewrite Ha. cbn. f_equal.
  by apply binding_matches_spec in Hm as (ids & _ & ->).
Qed.

Lemma restore_config_done old new w :
  wd_parent_private w = true -> wd_outcomes w = [] -> read_stable (wd_config w) = Ok new ->
  read_stable (stored old) = Ok old ->
  exists w', restore_config (sha256_hex new) (mkStoreCheckpoint old (sha256_hex old)) w = (Ok tt, w')
    /\ wd_parent_private w' = true /\ wd_outcomes w' = [] /\ wd_config w' = stored old
    /\ wd_registry w' = wd_registry w.
Proof.
  intros Hp Ho Hn Hold. unfold restore_config. unfold observed_digest at 1, private_parent. rewrite Hp.
  cbn [mbind Result_bind]. rewrite Hn. cbn [mbind Result_bind]. rewrite String.eqb_refl.
  unfold write_config, next_outcome. rewrite Hp, Ho. cbn [sk_bytes sk_digest default head tail write_node].
  cbn [wd_parent_private wd_config wd_registry wd_outcomes with_config].
  unfold observed_digest, private_parent. cbn [wd_parent_private wd_config with_config].
  cbn [mbind Result_bind]. rewrite Hold. cbn [mbind Result_bind]. rewrite String.eqb_refl.
  eexists. split; [reflexivity|]. by split_and!.
Qed.
Lemma registry_restore_done saved w st expected :
  wd_outcomes w = [] -> Load (wd_registry w) = Ok st -> registry_ok saved ->
  bind_config_digest <$> reg_active st = Some expected ->
  exists w', registry_restore expected saved w = (Ok tt, w')
    /\ wd_parent_private w' = wd_parent_private w /\ wd_config w' = wd_config w
    /\ Load (wd_registry w') = Ok saved.
Proof.
  intros Ho Hl Hok Hd. unfold registry_restore, next_outcome. rewrite Ho. cbn [default head tail wd_registry wd_entropy].
  unfold Source.restore_checkpoint. rewrite Hl, bool_decide_eq_true_2 by done.
  unfold SourceRegistry_persist. cbn [write_node]. eexists. split; [reflexivity|].
  split_and!; [done|done|]. cbn [wd_registry with_registry]. by apply load_stored.
Qed.

(** C18: a checkpoint brings back what it was taken of.  Whatever has been changed since, as long
    as the state is in step again and the two files can be written, rolling back restores the
    configuration file byte for byte, the registry, the running configuration and its sources,
    and reports the change from what was running. *)
Theorem rollback_restores w rt c w1 rt1 :
  in_sync (w, rt) -> runtime_checkpoint (w, rt) = (Ok c, (w, rt)) ->
  in_sync (w1, rt1) -> wd_outcomes w1 = [] ->
  exists w2 rt2,
    rollback c (w1, rt1)
    = (Ok (Changed (cs_digest (rt_current rt)) (service_of (rt_current rt))
             (negb (Bool.eqb (service_of (rt_current rt)) (service_of (rt_current rt1))))
             (negb (String.eqb (rt_source_digest rt) (rt_source_digest rt1))) (rt_sources rt)
             (change_plan (cs_effective (rt_current rt1)) (cs_effective (rt_current rt)))),
       (w2, rt2))
    /\ in_sync (w2, rt2) /\ same_config rt rt2
    /\ read_stable (wd_config w2) = read_stable (wd_config w) /\ Load (wd_registry w2) = Load (wd_registry w).
Proof.
  intros Hs Hck Hs1 Ho. destruct Hs as ([Hp (old & Hold & Hsnap)] & Hbound & Hdig).
  destruct Hs1 as ([Hp1 (new & Hnew & Hsnap1)] & Hbound1 & Hdig1).
  unfold runtime_checkpoint in Hck. rewrite run_view, (checkpoint_of w old Hp Hold), run_view in Hck.
  unfold registry_checkpoint, Source.checkpoint in Hck.
  destruct (Load (wd_registry w)) as [saved|] eqn:El; [|done]. injection Hck as <-.
  unfold rollback. rewrite run_view, (checkpoint_of w1 new Hp1 Hnew), run_on_world. cbn [sk_digest ck_store].
  destruct (restore_config_done old new w1 Hp1 Ho Hnew (read_stable_Ok _ _ Hold)) as (w2 & -> & Hp2 & Ho2 & Hc2 & Hr2).
  unfold restore_runtime, on_world. cbn [fst snd ck_registry].
  assert (exists st, Load (wd_registry w2) = Ok st) as [st Hst].
  { rewrite Hr2. destruct Hbound1 as (b & Ha & _). unfold active_of in Ha. destruct (Load (wd_registry w1)) as [st|]; [by exists st|done]. }
  assert (bind_config_digest <$> reg_active st = Some (cs_digest (rt_current rt1))) as Hd.
  { rewrite Hr2 in Hst. by apply (bound_digest _ _ _ _ Hbound1). }
  destruct (registry_restore_done saved w2 st _ Ho2 Hst (load_ok _ _ _ El) Hd) as (w3 & -> & Hp3 & Hc3 & Hl3).
  cbn [ck_current ck_sources ck_source_digest]. eexists _, _. split; [reflexivity|].
  assert (read_stable (wd_config w3) = Ok old) as Hcfg by (rewrite Hc3, Hc2; by eapply read_stable_Ok).
  split; [|by split_and!; try congruence]. split; [|split; [|exact Hdig]].
  - split; [congruence|]. exists old. done.
  - eapply bound_same; [exact Hbound|]. unfold active_of. by rewrite Hl3, El.
Qed.
(** C31: nothing bounds what a change writes.  A prepared change whose document is longer than
    the store reads is written, is then refused as too large, and stays: from there on no
    load, no later change and no restore of an earlier checkpoint gets past the check of the
    file's size, and none of them touches the file again. *)
Theorem oversized_change_sticks current p w :
  holds current w -> wd_outcomes w = [] -> MAX_CONFIG_BYTES < len (pw_bytes p) ->
  exists w', commit_prepared (cs_digest current) p w = (Err CfgTooLarge, w')
    /\ wd_config w' = stored (pw_bytes p) /\ store_load w' = Err CfgTooLarge
    /\ (forall expected q, commit_prepared expected q w' = (Err CfgTooLarge, w'))
    /\ (forall expected c, restore_config expected c w' = (Err CfgTooLarge, w'))
    /\ (forall expected document, prepare_document expected document w' = Err CfgTooLarge).
Proof.
  intros Hh Ho Hlen. unfold commit_prepared at 1. rewrite (holds_digest _ _ Hh), String.eqb_refl.
  destruct Hh as [Hp _]. unfold write_config, next_outcome. rewrite Hp, Ho. cbn [default head tail write_node].
  set (w' := with_config _ _).
  assert (read_stable (wd_config w') = Err CfgTooLarge) as Hr.
  { change (wd_config w') with (stored (pw_bytes p)). unfold stored, read_stable.
    unfold MAX_CONFIG_BYTES in *. cbn [negb orb]. rewrite (proj2 (Z.eqb_neq _ _)) by lia.
    by rewrite (proj2 (Z.ltb_lt _ _)) by lia. }
  assert (private_parent w' = Ok tt) as Hpp by done.
  assert (observed_digest w' = Err CfgTooLarge) as Hobs by (unfold observed_digest; by rewrite Hpp, Hr).
  assert (store_load w' = Err CfgTooLarge) as Hload by (unfold store_load; by rewrite Hpp, Hr).
  exists w'. rewrite Hload. split_and!; [done..| | |].
  - intros expected q. unfold commit_prepared. by rewrite Hobs.
  - intros expected c. unfold restore_config. by rewrite Hobs.
  - intros expected document. unfold prepare_document. by rewrite Hobs.
Qed.
End runtime.

(** ** A sample world
    One source; the service switch is what the toy documents carry. *)
Module RuntimeSample.
Definition wire (on : bool) : UserConfigWire :=
  mkWire CONFIG_SCHEMA_VERSION on (mkSubscriptions Source.Single true 24) [ConfigSample.source] ProxyWire_default
    ConfigSample.applications NetworkWire_default ConfigSample.routing LoggingWire_default AdvancedWire_default.
Definition to_toml (w : UserConfigWire) : option (list Z) :=
  Some (bytes (if wire_service_enabled w then "enabled" else "disabled")).
Definition from_toml (bs : list Z) : Result ConfigError UserConfigWire :=
  Ok (wire (negb (existsb (Z.eqb 115) (drop 90 bs)))).
Definition from_json (v : Json) : Result ConfigError UserConfigWire :=
  match v with JBool on => Ok (wire on) | _ => Err CfgMissing end.

Definition written_file (on : bool) : DiskNode :=
  match prepare_wire Demo.toy_sha from_toml to_toml ConfigSample.url_parse (wire on) with
  | Ok p => stored (pw_bytes p)
  | Err _ => Source.NotFound
  end.
(** The configuration on disk and an empty registry, then the first reload. *)
Definition blank : World := mkWorld true (written_file true) Source.NotFound EntryMissing [] 1.
Definition start : option (World * Runtime) :=
  match store_load Demo.toy_sha from_toml ConfigSample.url_parse blank with
  | Err _ => None
  | Ok snapshot =>
      match registry_prepare Demo.toy_sha Demo.toy_encode Demo.toy_decode Demo.counter_fill snapshot [] blank with
      | (Err _, _) => None
      | (Ok p, w) =>
          match registry_activate Demo.toy_encode Demo.toy_decode p w with
          | (Err _, _) => None
          | (Ok sources, w) => Some (w, Runtime_new snapshot sources)
          end
      end
  end.
Definition started : { s | start = Some s }.
Proof. eexists. vm_compute. reflexivity. Defined.
Definition w0 : World := Eval vm_compute in (proj1_sig started).1.
Definition rt0 : Runtime := Eval vm_compute in (proj1_sig started).2.
Lemma sample_in_sync : in_sync Demo.toy_sha from_toml ConfigSample.url_parse Demo.toy_decode (w0, rt0).
Proof.
  split; [|split].
  - split; [reflexivity|]. eexists. split; [vm_compute; reflexivity|vm_compute; reflexivity].
  - eexists. split; [vm_compute; reflexivity|]. split; [vm_compute; reflexivity|vm_compute; reflexivity].
  - vm_compute. reflexivity.
Qed.
Lemma sha_length bs : str_len (Demo.toy_sha bs) = 64.
Proof. reflexivity. Qed.
Definition run_sample := run_op Demo.toy_sha from_toml to_toml from_json ConfigSample.url_parse Demo.toy_encode
  Demo.toy_decode Demo.counter_fill.
(** The switch is turned off; the second write, the registry's, fails once. *)
Definition with_outcomes {G} (o : list WriteOutcome) (w : World (G := G)) : World :=
  mkWorld (wd_parent_private w) (wd_config w) (wd_registry w) (wd_entry w) o (wd_entropy w).
Definition failing : World := with_outcomes [Written; Written; FailedBefore] w0.
Lemma failing_in_sync : in_sync Demo.toy_sha from_toml ConfigSample.url_parse Demo.toy_decode (failing, rt0).
Proof. exact sample_in_sync. Qed.
Lemma sample_keeps op :
  keeps_step Demo.toy_sha from_toml ConfigSample.url_parse Demo.toy_decode rt0 (run_sample op (w0, rt0)).
Proof.
  apply (run_op_keeps Demo.toy_sha from_toml to_toml from_json ConfigSample.url_parse Demo.toy_encode Demo.toy_decode
    Demo.counter_fill sha_length Demo.toy_roundtrip Demo.toy_fits); [exact sample_in_sync|by apply Forall_nil].
Qed.
End RuntimeSample.

Lemma config_stays_in_step_witness :
  let out := RuntimeSample.run_sample (OpSetService false) (RuntimeSample.failing, RuntimeSample.rt0) in
  out.1 = Err (ErrRegistry WriteFailed)
  /\ in_sync Demo.toy_sha RuntimeSample.from_toml ConfigSample.url_parse Demo.toy_decode out.2.
Proof.
  assert (quiet RuntimeSample.failing) as Hq by (repeat constructor; discriminate).
  pose proof (config_stays_in_step Demo.toy_sha RuntimeSample.from_toml RuntimeSample.to_toml RuntimeSample.from_json
    ConfigSample.url_parse Demo.toy_encode Demo.toy_decode Demo.counter_fill RuntimeSample.sha_length
    Demo.toy_roundtrip Demo.toy_fits (OpSetService false) RuntimeSample.failing RuntimeSample.rt0
    RuntimeSample.failing_in_sync Hq) as H.
  assert (forall out : Result ConfigRuntimeError unit * (World (G := Z) * Runtime), keeps_step Demo.toy_sha RuntimeSample.from_toml ConfigSample.url_parse Demo.toy_decode
            RuntimeSample.rt0 out -> out.1 = Err (ErrRegistry WriteFailed) ->
          in_sync Demo.toy_sha RuntimeSample.from_toml ConfigSample.url_parse Demo.toy_decode out.2) as Hout.
  { intros [r s'] (_ & _ & [E|[E|E]]) Hr; cbn in Hr; congruence || exact E. }
  assert ((RuntimeSample.run_sample (OpSetService false) (RuntimeSample.failing, RuntimeSample.rt0)).1
          = Err (ErrRegistry WriteFailed)) as Hr by (vm_compute; reflexivity).
  split; [exact Hr|]. exact (Hout _ H Hr).
Defined.
Lemma rollback_restores_witness :
  exists c w1 rt1 change w2 rt2,
    runtime_checkpoint Demo.toy_sha Demo.toy_decode (RuntimeSample.w0, RuntimeSample.rt0)
    = (Ok c, (RuntimeSample.w0, RuntimeSample.rt0))
    /\ RuntimeSample.run_sample (OpSetService false) (RuntimeSample.w0, RuntimeSample.rt0) = (Ok tt, (w1, rt1))
    /\ service_of (rt_current rt1) = false
    /\ rollback Demo.toy_sha Demo.toy_encode Demo.toy_decode c (w1, rt1) = (Ok change, (w2, rt2))
    /\ read_stable (wd_config w2) = read_stable (RuntimeSample.written_file true).
Proof.
  destruct (runtime_checkpoint Demo.toy_sha Demo.toy_decode (RuntimeSample.w0, RuntimeSample.rt0))
    as [[c|e] s] eqn:Ec; [|vm_compute in Ec; discriminate Ec].
  assert (s = (RuntimeSample.w0, RuntimeSample.rt0)) as -> by (vm_compute in Ec; by injection Ec as _ <-).
  destruct (RuntimeSample.run_sample (OpSetService false) (RuntimeSample.w0, RuntimeSample.rt0))
    as [r [w1 rt1]] eqn:Er.
  pose proof (RuntimeSample.sample_keeps (OpSetService false)) as Hk. rewrite Er in Hk.
  assert (r = Ok tt /\ wd_outcomes w1 = [] /\ service_of (rt_current rt1) = false) as (-> & Ho & Hs)
    by (vm_compute in Er; injection Er as <- <- <-; by vm_compute).
  destruct Hk as (_ & _ & [Hk|[Hk|Hk]]); [discriminate Hk..|].
  destruct (rollback_restores Demo.toy_sha RuntimeSample.from_toml ConfigSample.url_parse Demo.toy_encode
    Demo.toy_decode Demo.toy_roundtrip Demo.toy_fits _ _ c w1 rt1 RuntimeSample.sample_in_sync Ec Hk Ho)
    as (w2 & rt2 & Hr & _ & _ & Hcfg & _).
  eexists c, w1, rt1, _, w2, rt2. split_and!; [reflexivity|reflexivity|exact Hs|exact Hr|].
  rewrite Hcfg. vm_compute. reflexivity.
Defined.
Lemma oversized_change_sticks_witness :
  exists w' : World (G := Z), store_load Demo.toy_sha RuntimeSample.from_toml ConfigSample.url_parse w' = Err CfgTooLarge
    /\ forall expected q, commit_prepared Demo.toy_sha RuntimeSample.from_toml ConfigSample.url_parse expected q w'
                          = (Err CfgTooLarge, w').
Proof.
  destruct (oversized_change_sticks Demo.toy_sha RuntimeSample.from_toml RuntimeSample.to_toml RuntimeSample.from_json
    ConfigSample.url_parse (rt_current RuntimeSample.rt0)
    (mkPreparedWrite (replicate (Z.to_nat 262145) 65) (rt_current RuntimeSample.rt0)) RuntimeSample.w0
    (proj1 RuntimeSample.sample_in_sync) eq_refl ltac:(vm_compute; reflexivity)) as (w' & _ & _ & Hl & Hc & _).
  by exists w'.
Defined.
