(* ===== verification/Selection.v ===== *)
(** * Selection: which node is asked for and which one carries the traffic

    Models crates/nethopd/src/selection.rs: stable node identifiers, the stored intent, the
    groups of the core and the terminal they resolve to, and the list of nodes the control
    plane shows, in which the asked and the active node are marked. *)

From S2P Require Import Prelude Text Ordering BTreeMap NodeRegistry Source StateFile CandidatePool.

Local Open Scope Z_scope.

Definition SELECTION_SNAPSHOT_VERSION : Z := 2.
Definition MAX_SELECTION_STORE_BYTES : Z := 512.
Definition MAX_NODE_SOURCES : Z := 16.
Inductive SelectionModelError : Type :=
| InvalidNodeId | UnsupportedSnapshot | InvalidNode | InvalidStore | StoreWrite.
Inductive SelectionDiagnosticCode : Type :=
| SubscriptionModeMismatch | SingleSourceNotUnique | NoActiveSource | LastActiveSource | TargetNotReady
| ModeTargetRequired | NodeSelectionStale | ActiveNodeUnresolved | NodeTestPartial.

Definition StableNodeId_new (value : string) : Result SelectionModelError StableNodeId :=
  if negb (str_len value =? 21) || negb (starts_with "nh1s-" value)
     || negb (forallb (fun b => is_ascii_digit b || in_range 97 102 b) (drop 5 (bytes value)))
  then Err InvalidNodeId
  else Ok value.

Inductive NodeSelectionIntent : Type := Auto | Manual (node_id : StableNodeId).
#[export] Instance NodeSelectionIntent_eq_dec : EqDecision NodeSelectionIntent.
Proof. solve_decision. Defined.
Record PersistedSelection : Type := mkPersisted {
  ps_version : Z;
  ps_intent : NodeSelectionIntent;
  ps_changed_at : Z;
}.

(** ** The store *)
Section store.
Context (encode : PersistedSelection -> list Z) (decode : list Z -> option PersistedSelection).

Definition selection_load (d : DiskNode) : Result SelectionModelError (NodeSelectionIntent * Z) :=
  match inspect false MAX_SELECTION_STORE_BYTES d with
  | Absent => Ok (Auto, 0)
  | NoMetadata | Unsuitable | Unreadable => Err InvalidStore
  | Contents bs =>
      persisted ← ok_or (decode bs) InvalidStore;
      if negb (ps_version persisted =? SELECTION_SNAPSHOT_VERSION) then Err UnsupportedSnapshot
      else Ok (ps_intent persisted, ps_changed_at persisted)
  end.
Definition selection_save (o : WriteOutcome) (intent : NodeSelectionIntent) (changed_at : Z) (d : DiskNode) :
    Result SelectionModelError unit * DiskNode :=
  let (ok, d) := write_node o (encode (mkPersisted SELECTION_SNAPSHOT_VERSION intent changed_at)) d in
  (if ok then Ok tt else Err StoreWrite, d).
Definition reset_auto (o : WriteOutcome) (changed_at : Z) (d : DiskNode) :
    Result SelectionModelError unit * DiskNode := selection_save o Auto changed_at d.
End store.

(** ** What the core reports *)
Definition valid_internal_tag (value : string) : bool :=
  negb (String.eqb value "") && (str_len value <=? 128) && negb (has_control (bytes value)).
Record GroupState : Type := mkGroup { gs_tag : string; gs_now : option string; gs_all : list string }.
Definition GroupState_new (tag : string) (now : option string) (all : list string) :
    Result SelectionModelError GroupState :=
  if negb (valid_internal_tag tag) || is_some_and (negb ∘ valid_internal_tag) now || (2000 <? len all)
     || existsb (negb ∘ valid_internal_tag) all
  then Err InvalidNode
  else Ok (mkGroup tag now all).

Inductive ActiveTerminal : Type :=
| TerminalNode (id : StableNodeId) | TerminalDirect | TerminalBlock
| TerminalUnresolved (reason : SelectionDiagnosticCode).
Definition resolve_active_terminal (root : string) (groups : BTreeMap string GroupState)
    (registry : GenerationNodeRegistry) : ActiveTerminal :=
  match bt_get root groups ≫= gs_now with
  | None => TerminalUnresolved ActiveNodeUnresolved
  | Some current =>
      if String.eqb current "direct" then TerminalDirect
      else if String.eqb current "block" then TerminalBlock
      else
        match by_internal_tag registry current with
        | None => TerminalUnresolved ActiveNodeUnresolved
        | Some record =>
            match StableNodeId_new (stable_node_id record) with
            | Ok id => TerminalNode id
            | Err _ => TerminalUnresolved ActiveNodeUnresolved
            end
        end
  end.

Inductive ActiveTerminalSnapshot : Type :=
| SnapNode (node_id : StableNodeId) | SnapDirect | SnapBlock | SnapUnresolved (reason : SelectionDiagnosticCode).
Definition snapshot_of (value : ActiveTerminal) : ActiveTerminalSnapshot :=
  match value with
  | TerminalNode id => SnapNode id
  | TerminalDirect => SnapDirect
  | TerminalBlock => SnapBlock
  | TerminalUnresolved reason => SnapUnresolved reason
  end.
Definition active_node_id (s : ActiveTerminalSnapshot) : option StableNodeId :=
  match s with SnapNode id => Some id | SnapDirect | SnapBlock | SnapUnresolved _ => None end.

Record NodeSelectionSnapshot : Type := mkSelection {
  sel_version : Z;
  sel_intent : NodeSelectionIntent;
  sel_terminal : ActiveTerminalSnapshot;
  sel_changed_at : Z;
}.
Definition NodeSelectionSnapshot_new (intent : NodeSelectionIntent) (terminal : ActiveTerminalSnapshot)
    (changed_at : Z) : NodeSelectionSnapshot :=
  mkSelection SELECTION_SNAPSHOT_VERSION intent terminal changed_at.
Definition selection_validate (s : NodeSelectionSnapshot) : Result SelectionModelError unit :=
  if negb (sel_version s =? SELECTION_SNAPSHOT_VERSION) then Err UnsupportedSnapshot else Ok tt.

(** ** The list of nodes *)
Record NodeListItem : Type := mkListItem {
  item_id : StableNodeId;
  item_name : string;
  item_protocol : string;
  item_sources : list SourceId;
  item_latency : option Z;
  item_alive : option bool;
  is_requested : bool;
  is_active : bool;
  item_territory : option string;
}.
Definition NodeListItem_new (id : StableNodeId) (name protocol : string) (sources : list SourceId)
    (latency : option Z) (alive : option bool) (requested active : bool) (territory : option string) :
    Result SelectionModelError NodeListItem :=
  if String.eqb name "" || (MAX_NODE_NAME_BYTES <? str_len name) || has_control (bytes name)
     || String.eqb protocol "" || (MAX_PROTOCOL_BYTES <? str_len protocol)
     || negb (forallb (fun b => is_ascii_lowercase b || is_ascii_digit b) (bytes protocol))
     || (len sources =? 0) || (MAX_NODE_SOURCES <? len sources)
     || negb (all_distinct (A:=string) sources)
  then Err InvalidNode
  else Ok (mkListItem id name protocol sources latency alive requested active territory).
Definition set_observation (latency : option Z) (alive : option bool) (i : NodeListItem) : NodeListItem :=
  mkListItem (item_id i) (item_name i) (item_protocol i) (item_sources i) latency alive (is_requested i)
    (is_active i) (item_territory i).
Record NodeListSnapshot : Type := mkNodeList {
  list_nodes : list NodeListItem;
  list_selection : NodeSelectionSnapshot;
}.
Definition typed_sources (ids : list string) : Result SelectionModelError (list SourceId) :=
  map_result (fun id => map_err (fun _ => InvalidNode) (SourceId_new id)) ids.
Definition join_record (requested active : option StableNodeId) (record : GenerationNodeRecord) :
    Result SelectionModelError NodeListItem :=
  id ← StableNodeId_new (stable_node_id record);
  sources ← typed_sources (source_ids record);
  NodeListItem_new id (display_name record) (protocol record) sources None None
    (bool_decide (requested = Some id)) (bool_decide (active = Some id)) (display_territory_code record).
Definition requested_node (intent : NodeSelectionIntent) : option StableNodeId :=
  match intent with Auto => None | Manual id => Some id end.
Definition join_node_snapshot (registry : GenerationNodeRegistry) (intent : NodeSelectionIntent)
    (active : ActiveTerminal) (changed_at : Z) : Result SelectionModelError NodeListSnapshot :=
  let terminal := snapshot_of active in
  nodes ← map_result (join_record (requested_node intent) (active_node_id terminal)) (node_records registry);
  Ok (mkNodeList nodes (NodeSelectionSnapshot_new intent terminal changed_at)).

(** ** Facts *)
Lemma StableNodeId_new_exact id : StableNodeId_new id = Ok id <-> prefixed_hex "nh1s-" 21 id = true.
Proof.
  unfold StableNodeId_new, prefixed_hex, starts_with.
  destruct (strip_prefix (bytes "nh1s-") (bytes id)) as [rest|] eqn:E; cbn [is_Some];
    [|by rewrite orb_true_r, andb_false_r].
  apply strip_prefix_Some in E. rewrite E.
  change (drop 5 (bytes "nh1s-" ++ rest)) with (drop (length (bytes "nh1s-")) (bytes "nh1s-" ++ rest)).
  rewrite drop_app_length. unfold is_lower_hex.
  destruct (str_len id =? 21), (forallb _ rest); cbn; naive_solver.
Qed.
Lemma StableNodeId_new_Ok v id : StableNodeId_new v = Ok id -> id = v.
Proof. unfold StableNodeId_new. repeat case_match; [done|]. by intros [= ->]. Qed.
Lemma hex_source_byte b : is_lower_hex b = true -> source_id_byte b = true.
Proof.
  unfold is_lower_hex, source_id_byte, is_ascii_alphanumeric, is_ascii_lowercase, is_ascii_digit, in_range.
  rewrite !orb_true_iff, !andb_true_iff, !Z.leb_le. lia.
Qed.
Lemma valid_source_typed id : valid_source_id id = true -> SourceId_new id = Ok id.
Proof.
  unfold valid_source_id, prefixed_hex, SourceId_new. intros [Hl%Z.eqb_eq Hx]%andb_true_iff. rewrite Hl. cbn.
  destruct (strip_prefix _ _) as [rest|] eqn:E; [|done]. apply strip_prefix_Some in E. rewrite E, forallb_app.
  assert (forallb source_id_byte rest = true) as ->; [|done].
  rewrite forallb_forall in *. auto using hex_source_byte.
Qed.
Lemma typed_sources_valid ids : forallb valid_source_id ids = true -> typed_sources ids = Ok ids.
Proof.
  intros Hv. unfold typed_sources. rewrite (map_result_all _ id), list_fmap_id; [done|].
  rewrite forallb_forall in Hv. apply Forall_forall. intros i Hi%list_elem_of_In.
  by rewrite (valid_source_typed _ (Hv i Hi)).
Qed.

(** A record of [GenerationNodeRecord_new], with any territory. *)
Definition record_made (n : GenerationNodeRecord) : Prop :=
  GenerationNodeRecord_new (stable_node_id n) (internal_tag n) (display_name n) (protocol n) (source_ids n)
    (auto_candidate n) = Ok (with_display_territory_code n None).
Definition item_of (requested active : option StableNodeId) (n : GenerationNodeRecord) : NodeListItem :=
  mkListItem (stable_node_id n) (display_name n) (protocol n) (source_ids n) None None
    (bool_decide (requested = Some (stable_node_id n))) (bool_decide (active = Some (stable_node_id n)))
    (display_territory_code n).
Lemma empty_length s : String.eqb s "" = (str_len s =? 0).
Proof. by destruct s. Qed.
Lemma record_made_id n : record_made n -> StableNodeId_new (stable_node_id n) = Ok (stable_node_id n).
Proof.
  unfold record_made, GenerationNodeRecord_new. intros H. apply StableNodeId_new_exact.
  by destruct (prefixed_hex "nh1s-" 21 (stable_node_id n)).
Qed.
Lemma join_record_made requested active n :
  record_made n -> join_record requested active n = Ok (item_of requested active n).
Proof.
  intros Hn. unfold join_record. rewrite (record_made_id n Hn). cbn [mbind Result_bind].
  unfold record_made, GenerationNodeRecord_new in Hn. split_if_in Hn Hv; [done|]. clear Hn.
  rewrite !orb_false_iff, !negb_false_iff, !andb_true_iff, !negb_true_iff in Hv.
  destruct Hv as ((((_ & _) & ((Hn1 & Hn2) & Hn3)) & ((Hp1 & Hp2) & Hp3)) & ((Hs1 & Hs2) & Hs3) & Hs4).
  rewrite (typed_sources_valid _ Hs4). cbn [mbind Result_bind]. unfold NodeListItem_new, SourceId.
  rewrite !empty_length, Hn1, Hn3, Hp1, Hp3, Hs1, Hs3. apply Z.leb_le in Hn2, Hp2, Hs2.
  unfold MAX_SOURCE_IDS, MAX_NODE_SOURCES in *. by rewrite !(proj2 (Z.ltb_ge _ _)) by lia.
Qed.
Lemma join_records_made requested active ns :
  Forall record_made ns -> map_result (join_record requested active) ns = Ok (item_of requested active <$> ns).
Proof. intros H. apply map_result_all. eapply Forall_impl; [exact H|]. apply join_record_made. Qed.

Lemma resolve_node root groups r id :
  registry_wf r -> Forall record_made (node_records r) ->
  resolve_active_terminal root groups r = TerminalNode id <->
  exists n, n ∈ node_records r /\ bt_get root groups ≫= gs_now = Some (internal_tag n)
    /\ internal_tag n <> "direct" /\ internal_tag n <> "block" /\ stable_node_id n = id.
Proof.
  intros Hwf Hmade. rewrite Forall_forall in Hmade. unfold resolve_active_terminal, by_internal_tag.
  destruct (bt_get root groups ≫= gs_now) as [current|]; [|naive_solver].
  destruct (String.eqb_spec current "direct") as [->|Hd]; [naive_solver|].
  destruct (String.eqb_spec current "block") as [->|Hb]; [naive_solver|].
  destruct (find _ _) as [n|] eqn:E.
  - apply (find_by_tag_spec _ _ _ (wf_tags _ Hwf)) in E as [Hn <-].
    rewrite (record_made_id n (Hmade n Hn)). split.
    + intros [= <-]. by exists n.
    + intros (m & Hm & [= Ht] & _ & _ & <-). do 2 f_equal.
      pose proof (proj2 (find_by_tag_spec _ (internal_tag n) m (wf_tags _ Hwf)) (conj Hm (eq_sym Ht))) as H1.
      pose proof (proj2 (find_by_tag_spec _ (internal_tag n) n (wf_tags _ Hwf)) (conj Hn eq_refl)) as H2.
      congruence.
  - split; [done|]. intros (m & Hm & [= ->] & _).
    pose proof (proj2 (find_by_tag_spec _ _ m (wf_tags _ Hwf)) (conj Hm eq_refl)). congruence.
Qed.
Lemma at_most_one_active (l : list NodeListItem) active :
  NoDup (item_id <$> l) -> (forall i, i ∈ l -> is_active i = true <-> active = Some (item_id i)) ->
  (length (filter (fun i => is_active i = true) l) <= 1)%nat.
Proof.
  intros Hnd Ha. assert (forall i, i ∈ filter (fun i => is_active i = true) l -> Some (item_id i) = active) as Hall.
  { intros i [Hi Hl]%list_elem_of_filter. symmetry. by apply Ha. }
  assert (NoDup (item_id <$> filter (fun i => is_active i = true) l)) as Hf
    by (eapply sublist_NoDup; [exact Hnd|]; apply fmap_sublist, sublist_filter).
  destruct (filter _ l) as [|a [|b k]] eqn:E; [cbn; lia..|]. exfalso. cbn in Hf. apply NoDup_cons in Hf as [Hn _].
  apply Hn. assert (Some (item_id a) = Some (item_id b)) as [= ->]; [|left].
  rewrite (Hall a), (Hall b); [done|right; left|left].
Qed.

(** The node list shows the selection as it is.  On the registry of a generation the list is
    never refused and has one item per record, in the order of the registry; the item that is
    marked as asked for is the one of the intent, and the item that is marked as active is
    the one whose tag the root group of the core points to.  At most one item is active. *)
Theorem node_list_exact r intent root groups changed_at :
  registry_wf r -> Forall record_made (node_records r) ->
  exists l, join_node_snapshot r intent (resolve_active_terminal root groups r) changed_at = Ok l
    /\ item_id <$> list_nodes l = stable_node_id <$> node_records r
    /\ (forall i, i ∈ list_nodes l -> is_requested i = true <-> intent = Manual (item_id i))
    /\ (forall i, i ∈ list_nodes l -> is_active i = true <->
         exists n, n ∈ node_records r /\ stable_node_id n = item_id i
           /\ bt_get root groups ≫= gs_now = Some (internal_tag n)
           /\ internal_tag n <> "direct" /\ internal_tag n <> "block")
    /\ (length (filter (fun i => is_active i = true) (list_nodes l)) <= 1)%nat.
Proof.
  intros Hwf Hmade. unfold join_node_snapshot. rewrite (join_records_made _ _ _ Hmade). cbn [mbind Result_bind].
  set (active := active_node_id _). set (requested := requested_node intent).
  eexists. split; [reflexivity|]. cbn [list_nodes].
  assert (item_id <$> (item_of requested active <$> node_records r) = stable_node_id <$> node_records r) as Hids
    by (rewrite <- list_fmap_compose; by apply list_fmap_ext).
  assert (forall i, i ∈ item_of requested active <$> node_records r ->
            is_active i = true <-> active = Some (item_id i)) as Hact.
  { intros i (n & -> & _)%list_elem_of_fmap. apply bool_decide_eq_true. }
  assert (forall id, active = Some id <-> resolve_active_terminal root groups r = TerminalNode id) as Hres.
  { intros id. unfold active. destruct (resolve_active_terminal _ _ _); cbn; naive_solver. }
  split; [done|]. split; [|split].
  - intros i (n & -> & _)%list_elem_of_fmap. cbn [is_requested item_of item_id]. rewrite bool_decide_eq_true.
    unfold requested. destruct intent; cbn; naive_solver.
  - intros i Hi. rewrite (Hact i Hi), Hres, (resolve_node root groups r _ Hwf Hmade). naive_solver.
  - apply at_most_one_active with (active := active); [|done].
    rewrite Hids. by apply StronglySorted_lt_NoDup, Hwf.
Qed.

(** What was chosen is what is read back, and a write that fails early leaves the old choice. *)
Lemma selection_round_trip encode decode o intent changed_at d r d' :
  (forall p, decode (encode p) = Some p) ->
  (forall p, 0 < len (encode p) <= MAX_SELECTION_STORE_BYTES) ->
  selection_save encode o intent changed_at d = (r, d') ->
  match r with
  | Ok _ => selection_load decode d' = Ok (intent, changed_at)
  | Err _ => o <> FailedAfter -> selection_load decode d' = selection_load decode d
  end.
Proof.
  intros Hrt Hsize. unfold selection_save. destruct (write_node _ _ _) as [ok d1] eqn:E.
  apply write_node_cases in E. intros [= <- <-]. destruct E as [[-> ->]|[-> Hd]].
  - unfold selection_load. rewrite inspect_stored by apply Hsize. by rewrite Hrt.
  - intros Ho. by rewrite (Hd Ho).
Qed.

(** ** Witness *)
Lemma node_list_exact_witness :
  exists r l, GenerationNodeRegistry_new demo_nodes = Ok r
    /\ join_node_snapshot r (Manual "nh1s-00000000000000bb")
         (resolve_active_terminal "nethop-select" [("nethop-select", mkGroup "nethop-select" (Some "a") ["a"; "b"])] r)
         7 = Ok l
    /\ (is_requested <$> list_nodes l) = [false; true] /\ (is_active <$> list_nodes l) = [true; false]
    /\ (length (filter (fun i => is_active i = true) (list_nodes l)) <= 1)%nat.
Proof.
  destruct (GenerationNodeRegistry_new demo_nodes) as [r|] eqn:E; [|vm_compute in E; discriminate E].
  destruct (with_auto_pool_wf _ _ _ E) as [Hwf _].
  assert (Forall record_made (node_records r)) as Hm.
  { vm_compute in E. injection E as <-. repeat constructor. }
  destruct (node_list_exact r (Manual "nh1s-00000000000000bb") "nethop-select"
    [("nethop-select", mkGroup "nethop-select" (Some "a") ["a"; "b"])] 7 Hwf Hm) as (l & Hl & _ & _ & _ & Hone).
  exists r, l. split; [reflexivity|]. split; [exact Hl|].
  vm_compute in E. injection E as <-. vm_compute in Hl. injection Hl as <-. split_and!; [done|done|exact Hone].
Defined.
