(* ===== verification/Overrides.v ===== *)
(** * Overrides: nodes the user has rewritten, and nodes the user has brought

    Models crates/nethop-subscription/src/core_adapter.rs (a composed outbound becomes a
    terminal of the core), crates/nethopd/src/node_override.rs (the outbounds that replace
    those of a subscription, with their file) and crates/nethopd/src/manual_source.rs (the
    imported source, with its file).  serde and SHA-256 are parameters; the files are those
    of [StateFile]. *)

From S2P Require Import Prelude Text Ordering BTreeMap Json Source ProxyNode Fingerprint Dedupe StateFile CandidatePool Selection Composer.

Local Open Scope Z_scope.

(** ** Terminals from composed outbounds *)
Inductive TerminalOutboundAdapterError : Type :=
| NotObject | MissingTag | MissingProtocol | AdapterDuplicateTag | Rejected (e : ComposerError).
(** [object.remove(key)?.as_str()]: the text, and the object without the key. *)
Definition take_string (object : BTreeMap string Json) (key : string) :
    option string * BTreeMap string Json :=
  (bt_get key object ≫= json_as_str, bt_remove key object).
Definition terminal_from_composed (value : Json) : Result TerminalOutboundAdapterError TerminalOutbound :=
  match value with
  | JObject object =>
      let (tag, object) := take_string object "tag" in
      tag ← ok_or tag MissingTag;
      let (protocol, object) := take_string object "type" in
      protocol ← ok_or protocol MissingProtocol;
      map_err Rejected (TerminalOutbound_new tag protocol object)
  | _ => Err NotObject
  end.
Definition adapt_terminal_outbound_value (value : Json) := terminal_from_composed value.
Definition adapt_terminal_outbound (node : DedupedNode) : Result TerminalOutboundAdapterError TerminalOutbound :=
  adapt_terminal_outbound_value (compose_outbound (dd_node_id node) (pn_inner (dd_node node))).
Fixpoint adapt_loop (tags : list string) (nodes : list DedupedNode) :
    Result TerminalOutboundAdapterError (list TerminalOutbound) :=
  match nodes with
  | [] => Ok []
  | node :: rest =>
      outbound ← adapt_terminal_outbound node;
      if bool_decide (tag outbound ∈ tags) then Err AdapterDuplicateTag
      else rest ← adapt_loop (tag outbound :: tags) rest; Ok (outbound :: rest)
  end.
Definition adapt_terminal_outbounds (nodes : list DedupedNode) := adapt_loop [] nodes.

(** ** One override *)
Definition OVERRIDE_SCHEMA : string := "nethop-node-overrides-v1".
Definition MAX_FILE_BYTES : Z := 1024 * 1024.
Definition MAX_OVERRIDE_BYTES : Z := 64 * 1024.
Definition MAX_OVERRIDES : Z := 512.
Definition MAX_DISPLAY_NAME_BYTES : Z := 128.
Definition TERMINAL_PROTOCOLS : list string :=
  ["anytls"; "http"; "hysteria2"; "shadowsocks"; "socks"; "trojan"; "tuic"; "vless"; "vmess"].
Inductive NodeOverrideError : Type :=
| OvInvalidPath | OvInvalidFile | InvalidDisplayName | InvalidOutbound | LimitExceeded | OvRead | OvWrite.

Record NodeOverride : Type := mkOverride {
  ov_node_id : StableNodeId;
  ov_display_name : string;
  ov_outbound : Json;
}.
Definition validate_display_name (value : string) : Result NodeOverrideError unit :=
  if String.eqb value "" || (MAX_DISPLAY_NAME_BYTES <? str_len value) || has_control (bytes value)
  then Err InvalidDisplayName
  else Ok tt.
Definition validate_endpoint (object : BTreeMap string Json) : Result NodeOverrideError unit :=
  match bt_get "server" object ≫= json_as_str with
  | None => Err InvalidOutbound
  | Some value =>
      if negb (negb (String.eqb value "") && (str_len value <=? 253) && negb (has_control (bytes value)))
      then Err InvalidOutbound
      else
        let single_port := is_some_and (in_range 1 65535) (bt_get "server_port" object ≫= json_as_u64) in
        let port_hopping :=
          match bt_get "server_ports" object with
          | Some (JArray ports) => negb (len ports =? 0) && (len ports <=? 64)
          | _ => false
          end in
        if negb single_port && negb port_hopping then Err InvalidOutbound else Ok tt
  end.
(** [terminal_outbound]: the outbound is an object by construction; [expect] would panic. *)
Definition terminal_outbound (o : NodeOverride) : Result NodeOverrideError TerminalOutbound :=
  match ov_outbound o with
  | JObject object =>
      map_err (fun _ => InvalidOutbound)
        (adapt_terminal_outbound_value (JObject (bt_insert "tag" (JString (ov_node_id o)) object)))
  | _ => Err InvalidOutbound
  end.
Definition ov_protocol (o : NodeOverride) : option string :=
  match ov_outbound o with JObject object => bt_get "type" object ≫= json_as_str | _ => None end.

Section overrides.
Context (json_to_vec : Json -> list Z).

Definition NodeOverride_new (node_id : StableNodeId) (display_name : string) (outbound : Json) :
    Result NodeOverrideError NodeOverride :=
  _ ← validate_display_name display_name;
  match outbound with
  | JObject object =>
      let foreign_tag :=
        match bt_get "tag" object with
        | Some tag => negb (bool_decide (json_as_str tag = Some node_id))
        | None => false
        end in
      if foreign_tag then Err InvalidOutbound
      else
        let object := bt_remove "tag" object in
        protocol ← ok_or (bt_get "type" object ≫= json_as_str) InvalidOutbound;
        if negb (bool_decide (protocol ∈ TERMINAL_PROTOCOLS)) || bt_contains_key "detour" object
        then Err InvalidOutbound
        else
          _ ← validate_endpoint object;
          if MAX_OVERRIDE_BYTES <? len (json_to_vec (JObject object)) then Err InvalidOutbound
          else
            let value := mkOverride node_id display_name (JObject object) in
            _ ← terminal_outbound value;
            Ok value
  | _ => Err InvalidOutbound
  end.

(** ** The set *)
Definition NodeOverrideSet : Type := BTreeMap StableNodeId NodeOverride.
Definition override_get (node_id : StableNodeId) (s : NodeOverrideSet) : option NodeOverride := bt_get node_id s.
Definition override_upsert (value : NodeOverride) (s : NodeOverrideSet) :
    Result NodeOverrideError NodeOverrideSet :=
  if negb (bt_contains_key (ov_node_id value) s) && (MAX_OVERRIDES <=? len s) then Err LimitExceeded
  else Ok (bt_insert (ov_node_id value) value s).
Definition override_remove (node_id : StableNodeId) (s : NodeOverrideSet) : bool * NodeOverrideSet :=
  (is_some (bt_get node_id s), bt_remove node_id s).
Definition overrides_validate (s : NodeOverrideSet) : Result NodeOverrideError unit :=
  if (MAX_OVERRIDES <? len s)
     || existsb (fun kv => negb (String.eqb kv.1 (ov_node_id kv.2)) || is_err (terminal_outbound kv.2)) s
  then Err OvInvalidFile
  else Ok tt.

(** ** The file *)
Record StoredOverride : Type := mkStoredOverride {
  so_node_id : string; so_display_name : string; so_outbound : Json }.
Record StoredDocument : Type := mkStoredDocument { sd_schema : string; sd_entries : list StoredOverride }.
Context (encode : StoredDocument -> list Z) (decode : list Z -> option StoredDocument).

Fixpoint load_entries (entries : list StoredOverride) (s : NodeOverrideSet) :
    Result NodeOverrideError NodeOverrideSet :=
  match entries with
  | [] => Ok s
  | entry :: rest =>
      match StableNodeId_new (so_node_id entry) with
      | Err _ => Err OvInvalidFile
      | Ok node_id =>
          match NodeOverride_new node_id (so_display_name entry) (so_outbound entry) with
          | Err _ => Err OvInvalidFile
          | Ok value =>
              if bt_contains_key (ov_node_id value) s then Err OvInvalidFile
              else
                match override_upsert value s with
                | Err _ => Err OvInvalidFile
                | Ok s => load_entries rest s
                end
          end
      end
  end.
Definition overrides_load (d : DiskNode) : Result NodeOverrideError NodeOverrideSet :=
  match inspect false MAX_FILE_BYTES d with
  | Absent => Ok []
  | NoMetadata | Unreadable => Err OvRead
  | Unsuitable => Err OvInvalidFile
  | Contents bs =>
      document ← ok_or (decode bs) OvInvalidFile;
      if negb (String.eqb (sd_schema document) OVERRIDE_SCHEMA) then Err OvInvalidFile
      else
        result ← load_entries (sd_entries document) [];
        _ ← overrides_validate result;
        Ok result
  end.
Definition stored_override (value : NodeOverride) : StoredOverride :=
  mkStoredOverride (ov_node_id value) (ov_display_name value) (ov_outbound value).
Definition overrides_document (s : NodeOverrideSet) : StoredDocument :=
  mkStoredDocument OVERRIDE_SCHEMA (stored_override <$> bt_values s).
Definition overrides_replace (o : WriteOutcome) (s : NodeOverrideSet) (d : DiskNode) :
    Result NodeOverrideError unit * DiskNode :=
  match overrides_validate s with
  | Err e => (Err e, d)
  | Ok _ =>
      let bs := encode (overrides_document s) in
      if MAX_FILE_BYTES <? len bs then (Err LimitExceeded, d)
      else let (ok, d) := write_node o bs d in (if ok then Ok tt else Err OvWrite, d)
  end.
End overrides.

(** ** The imported source *)
Definition HEADER_PREFIX : string := "nethop-manual-source-v1 ".
Definition MAX_BODY_BYTES : Z := 5 * 1024 * 1024.
Inductive ManualSourceError : Type := MsInvalidPath | MsInvalidFile | MsInvalidBody | MsRead | MsWrite.
Record ManualSource : Type := mkManual { ms_format : FormatHint; ms_bytes : list Z; ms_digest : string }.
Record ManualSourceCheckpoint : Type := mkManualCheckpoint { mc_previous : option (list Z) }.
Definition hint_text (f : FormatHint) : string :=
  match f with
  | FAuto => "auto" | FUriList => "uri_list" | FBase64List => "base64_list" | FClashYaml => "clash_yaml"
  | FSingboxJson => "singbox_json" | FIniProfile => "ini_profile" | FSurfboardIni => "surfboard_ini"
  end.
Definition parse_format (value : list Z) : option FormatHint :=
  List.find (fun f => bool_decide (bytes (hint_text f) = value))
    [FAuto; FUriList; FBase64List; FClashYaml; FSingboxJson; FIniProfile; FSurfboardIni].
Definition validate_body (bs : list Z) : Result ManualSourceError unit :=
  if (len bs =? 0) || (MAX_BODY_BYTES <? len bs) then Err MsInvalidBody else Ok tt.
Definition manual_encode (format : FormatHint) (bs : list Z) : list Z :=
  bytes HEADER_PREFIX ++ bytes (hint_text format) ++ [10] ++ bs.

Section manual.
Context (sha256_hex : list Z -> string).

Definition manual_decode (encoded : list Z) : Result ManualSourceError ManualSource :=
  '(header, bs) ← ok_or (split_once 10 encoded) MsInvalidFile;
  if negb (valid_utf8 header) then Err MsInvalidFile
  else
    format ← ok_or (strip_prefix (bytes HEADER_PREFIX) header ≫= parse_format) MsInvalidFile;
    _ ← validate_body bs;
    Ok (mkManual format bs (sha256_hex bs)).
Definition manual_load (d : DiskNode) : Result ManualSourceError (option ManualSource) :=
  match inspect true (MAX_BODY_BYTES + 128) d with
  | Absent => Ok None
  | NoMetadata | Unreadable => Err MsRead
  | Unsuitable => Err MsInvalidFile
  | Contents bs => source ← manual_decode bs; Ok (Some source)
  end.
(** [fs::read]: it follows links and does not look at the permissions. *)
Definition read_file (d : DiskNode) : Result ManualSourceError (option (list Z)) :=
  match d with
  | Source.NotFound => Ok None
  | MetadataError => Err MsRead
  | Source.Node _ _ _ contents _ => bs ← ok_or contents MsRead; Ok (Some bs)
  end.
Definition manual_replace (o : WriteOutcome) (format : FormatHint) (bs : list Z) (d : DiskNode) :
    Result ManualSourceError ManualSourceCheckpoint * DiskNode :=
  match validate_body bs with
  | Err e => (Err e, d)
  | Ok _ =>
      match read_file d with
      | Err e => (Err e, d)
      | Ok previous =>
          let (ok, d) := write_node o (manual_encode format bs) d in
          (if ok then Ok (mkManualCheckpoint previous) else Err MsWrite, d)
      end
  end.
(** [fs::remove_file] can fail as a write can. *)
Definition manual_restore (o : WriteOutcome) (c : ManualSourceCheckpoint) (d : DiskNode) :
    Result ManualSourceError unit * DiskNode :=
  match mc_previous c with
  | Some previous =>
      match manual_decode previous with
      | Err e => (Err e, d)
      | Ok _ => let (ok, d) := write_node o previous d in (if ok then Ok tt else Err MsWrite, d)
      end
  | None =>
      match d, o with
      | Source.NotFound, _ => (Ok tt, d)
      | _, Written => (Ok tt, Source.NotFound)
      | _, FailedBefore => (Err MsWrite, d)
      | _, FailedAfter => (Err MsWrite, Source.NotFound)
      end
  end.
End manual.

(** ** Facts *)
Lemma adapted_tag v t : adapt_terminal_outbound_value v = Ok t ->
  exists object, v = JObject object /\ bt_get "tag" object = Some (JString (tag t))
    /\ bt_get "type" (bt_remove "tag" object) = Some (JString (protocol t))
    /\ fields t = bt_remove "type" (bt_remove "tag" object).
Proof.
  unfold adapt_terminal_outbound_value, terminal_from_composed, take_string. destruct v as [| | | | |object]; try done.
  destruct (bt_get "tag" object) as [[| | |tag'| |]|] eqn:Et; cbn; try done.
  destruct (bt_get "type" _) as [[| | |protocol'| |]|] eqn:Ep; cbn; try done.
  unfold TerminalOutbound_new. repeat case_match; try done. cbn [map_err].
  destruct (check_fields _) as [[]|]; cbn; [|done]. intros [= <-]. by exists object.
Qed.

Lemma override_new_inv json_to_vec id name v o :
  NodeOverride_new json_to_vec id name v = Ok o ->
  exists object, v = JObject object /\ o = mkOverride id name (JObject (bt_remove "tag" object))
    /\ validate_display_name name = Ok tt
    /\ (forall x, bt_get "tag" object = Some x -> json_as_str x = Some id)
    /\ (exists p, bt_get "type" (bt_remove "tag" object) ≫= json_as_str = Some p /\ p ∈ TERMINAL_PROTOCOLS)
    /\ bt_contains_key "detour" (bt_remove "tag" object) = false
    /\ validate_endpoint (bt_remove "tag" object) = Ok tt
    /\ len (json_to_vec (JObject (bt_remove "tag" object))) <= MAX_OVERRIDE_BYTES
    /\ is_ok (terminal_outbound o) = true.
Proof.
  unfold NodeOverride_new. intros (u & Hname & H)%result_bind_Ok. destruct u.
  destruct v as [| | | | |object]; try done. exists object. split; [done|].
  split_if_in H Ht; [done|]. apply result_bind_Ok in H as (p & Hp & H).
  split_if_in H Hd; [done|]. apply orb_false_iff in Hd as [Hd1%negb_false_iff%bool_decide_eq_true Hd2].
  apply result_bind_Ok in H as (u & He & H). destruct u. split_if_in H Hs; [done|]. apply Z.ltb_ge in Hs.
  apply result_bind_Ok in H as (t & Hterm & H). injection H as <-. rewrite Hterm.
  split_and!; try done.
  - intros x Hx. rewrite Hx in Ht. by apply negb_false_iff, bool_decide_eq_true in Ht.
  - exists p. split; [|done]. by destruct (bt_get "type" _ ≫= json_as_str); [injection Hp as ->|].
Qed.

(** What an accepted override gives the core: a terminal of a proxy protocol under the tag of
    its node, without a way to chain it through another outbound. *)
Lemma override_terminal json_to_vec id name v o :
  NodeOverride_new json_to_vec id name v = Ok o ->
  exists t, terminal_outbound o = Ok t /\ tag t = id /\ ov_node_id o = id /\ ov_display_name o = name
    /\ ov_protocol o = Some (protocol t) /\ protocol t ∈ TERMINAL_PROTOCOLS /\ bt_get "detour" (fields t) = None.
Proof.
  intros (object & -> & -> & _ & _ & (p & Hp & Hin) & Hd & _ & _ & Hok)%override_new_inv.
  destruct (terminal_outbound _) as [t|] eqn:Et; [|done]. exists t. split; [done|].
  unfold terminal_outbound in Et. cbn [ov_outbound ov_node_id] in Et.
  destruct (adapt_terminal_outbound_value _) as [t'|] eqn:Ea; [|done]. injection Et as ->.
  apply adapted_tag in Ea as (obj & [= <-] & Htag & Htype & Hf).
  rewrite bt_get_insert_eq in Htag. injection Htag as Htag.
  rewrite bt_get_remove_other, bt_get_insert_other in Htype by done.
  split_and!; try done.
  - unfold ov_protocol. cbn [ov_outbound]. by rewrite Htype.
  - rewrite Htype in Hp. by injection Hp as <-.
  - rewrite Hf, !bt_get_remove_other, bt_get_insert_other by done.
    unfold bt_contains_key in Hd. by destruct (bt_get "detour" _).
Qed.

(** An override that was accepted for [id], from an object of serde (sorted by key). *)
Definition override_made (json_to_vec : Json -> list Z) (o : NodeOverride) : Prop :=
  StableNodeId_new (ov_node_id o) = Ok (ov_node_id o)
  /\ exists object, bt_wf object
       /\ NodeOverride_new json_to_vec (ov_node_id o) (ov_display_name o) (JObject object) = Ok o.
(** The invariant of a set: a map from identifiers to accepted overrides, of bounded size. *)
Record overrides_ok (json_to_vec : Json -> list Z) (s : NodeOverrideSet) : Prop := {
  ok_sorted : bt_wf s;
  ok_size : len s <= MAX_OVERRIDES;
  ok_keys : Forall (fun kv => kv.1 = ov_node_id kv.2) s;
  ok_made : Forall (override_made json_to_vec) (bt_values s);
}.

Section store_facts.
Context (json_to_vec : Json -> list Z).
#[local] Abbreviation Made := (override_made json_to_vec).
#[local] Abbreviation SetOk := (overrides_ok json_to_vec).

(** Storing an override and reading it back validates to itself. *)
Lemma override_new_stable o :
  Made o -> NodeOverride_new json_to_vec (ov_node_id o) (ov_display_name o) (ov_outbound o) = Ok o.
Proof.
  destruct o as [id name out]. intros [_ (object & Hwf & Hnew)]. cbn [ov_node_id ov_display_name ov_outbound] in *.
  pose proof Hnew as Hinv. apply override_new_inv in Hinv as (obj & [= <-] & [= ->] & _).
  etransitivity; [|exact Hnew]. unfold NodeOverride_new in *.
  rewrite (bt_get_remove_eq "tag" object Hwf), (bt_remove_absent "tag" (bt_remove "tag" object))
    by by apply bt_get_remove_eq.
  destruct (validate_display_name name); [|done]. cbn [mbind Result_bind] in *.
  by destruct (match bt_get "tag" object with Some _ => _ | None => _ end).
Qed.
Lemma overrides_ok_empty : SetOk [].
Proof. split; [constructor|done|constructor|constructor]. Qed.
Lemma overrides_ok_valid s : SetOk s -> overrides_validate s = Ok tt.
Proof.
  intros [_ Hs Hk Hm]. unfold overrides_validate. rewrite (proj2 (Z.ltb_ge _ _)) by done.
  rewrite existsb_none; [done|]. intros [k o] Hin. rewrite Forall_forall in Hk. pose proof (Hk _ Hin) as Hko.
  cbn in *. subst k. rewrite String.eqb_refl. cbn.
  rewrite Forall_forall in Hm. destruct (Hm o) as [_ (object & _ & Hnew)]; [apply list_elem_of_fmap; by exists (ov_node_id o, o)|].
  by apply override_terminal in Hnew as (t & -> & _).
Qed.
Lemma overrides_ok_upsert o s s' : SetOk s -> Made o -> override_upsert o s = Ok s' -> SetOk s'.
Proof.
  intros [Hwf Hs Hk Hm] Ho. unfold override_upsert. split_if Hfull; [done|]. intros [= <-]. split.
  - by apply bt_insert_wf.
  - pose proof (bt_insert_length (ov_node_id o) o s Hwf) as Hl. unfold len in *.
    apply andb_false_iff in Hfull as [Hc%negb_false_iff|Hlt%Z.leb_gt].
    + rewrite Hc in Hl. lia.
    + destruct (bt_contains_key _ _); lia.
  - by apply bt_insert_Forall.
  - unfold bt_values in *. rewrite Forall_fmap in *. by apply bt_insert_Forall.
Qed.
Lemma overrides_ok_remove id s : SetOk s -> SetOk (override_remove id s).2.
Proof.
  intros [Hwf Hs Hk Hm]. cbn. pose proof (bt_remove_sublist id s) as Hsub. split.
  - by apply bt_remove_wf.
  - apply sublist_length in Hsub. unfold len in *. lia.
  - by apply bt_remove_Forall.
  - unfold bt_values in *. rewrite Forall_fmap in *. by apply bt_remove_Forall.
Qed.
End store_facts.

(** ** The override file *)
Section override_file.
Context (json_to_vec : Json -> list Z) (encode : StoredDocument -> list Z) (decode : list Z -> option StoredDocument).
(** [serde_json::Map] is sorted by key. *)
Hypothesis decode_sorted : forall bs doc e object,
  decode bs = Some doc -> e ∈ sd_entries doc -> so_outbound e = JObject object -> bt_wf object.
#[local] Abbreviation SetOk := (overrides_ok json_to_vec).

Lemma key_absent (k : StableNodeId) (v : NodeOverride) (m n : NodeOverrideSet) :
  bt_wf (m ++ (k, v) :: n) -> bt_contains_key k m = false.
Proof.
  intros Hwf. unfold bt_contains_key. destruct (bt_get k m) as [x|] eqn:E; [|done]. exfalso.
  apply bt_get_elem_of in E. apply StronglySorted_lt_NoDup in Hwf. unfold bt_keys in Hwf.
  rewrite fmap_app, fmap_cons in Hwf. apply NoDup_app in Hwf as (_ & Hdis & _).
  apply (Hdis k); [apply list_elem_of_fmap; by exists (k, x)|left].
Qed.
Lemma load_entries_stored pre suf :
  SetOk (pre ++ suf) -> load_entries json_to_vec (stored_override <$> bt_values suf) pre = Ok (pre ++ suf).
Proof.
  revert pre. induction suf as [|[k o] suf IH]; intros pre Hok; [by rewrite app_nil_r|].
  pose proof Hok as [Hwf Hsize Hkeys Hmade]. change (stored_override <$> bt_values ((k, o) :: suf)) with (stored_override o :: (stored_override <$> bt_values suf)).
  cbn [load_entries].
  apply Forall_app in Hkeys as [_ [Hk _]%Forall_cons]. cbn in Hk. subst k.
  unfold bt_values in Hmade. rewrite fmap_app in Hmade. apply Forall_app in Hmade as [_ [Ho _]%Forall_cons].
  cbn [snd] in Ho. pose proof Ho as [Hid _].
  unfold stored_override at 1 2 3. cbn [so_node_id so_display_name so_outbound]. rewrite Hid.
  rewrite (override_new_stable _ o Ho). rewrite (key_absent _ _ _ _ Hwf).
  unfold override_upsert. rewrite (key_absent _ _ _ _ Hwf). cbn [negb andb].
  assert (len pre < MAX_OVERRIDES) as Hlt by (unfold len in *; rewrite length_app in Hsize; cbn in Hsize; lia).
  rewrite (proj2 (Z.leb_gt _ _)) by done.
  assert (bt_wf (pre ++ [(ov_node_id o, o)])) as Hsnoc.
  { apply (bt_wf_app_l _ suf). by rewrite <- app_assoc. }
  rewrite (bt_insert_snoc _ _ _ Hsnoc). specialize (IH (pre ++ [(ov_node_id o, o)])).
  rewrite <- app_assoc in IH. by apply IH.
Qed.
Lemma load_entries_ok entries s s' :
  (forall e object, e ∈ entries -> so_outbound e = JObject object -> bt_wf object) ->
  SetOk s -> load_entries json_to_vec entries s = Ok s' -> SetOk s'.
Proof.
  revert s. induction entries as [|e entries IH]; intros s Hsort Hs; cbn [load_entries]; [by intros [= <-]|].
  destruct (StableNodeId_new _) as [id|] eqn:Eid; [|done].
  destruct (NodeOverride_new _ _ _ _) as [o|] eqn:Eo; [|done].
  destruct (bt_contains_key _ s); [done|]. destruct (override_upsert o s) as [s1|] eqn:Eu; [|done].
  apply IH; [intros e' object He'; apply Hsort; by right|].
  eapply overrides_ok_upsert; [exact Hs| |exact Eu].
  pose proof Eo as Hinv. apply override_new_inv in Hinv as (object & Hobj & -> & _).
  pose proof (StableNodeId_new_Ok _ _ Eid) as ->. cbn [ov_node_id ov_display_name]. split; [done|].
  exists object. rewrite <- Hobj. split; [|done]. apply (Hsort e); [left|done].
Qed.
Lemma overrides_load_ok d s : overrides_load json_to_vec decode d = Ok s -> SetOk s.
Proof.
  unfold overrides_load. destruct (inspect _ _ _) as [| | | |bs]; try done.
  { intros [= <-]. apply overrides_ok_empty. }
  destruct (decode bs) as [doc|] eqn:Ed; [|done]. cbn [mbind Result_bind ok_or].
  destruct (negb _); [done|]. intros (s1 & Hl & H)%result_bind_Ok. apply result_bind_Ok in H as (u & _ & [= <-]).
  eapply load_entries_ok; [|apply overrides_ok_empty|exact Hl]. intros e object. by apply (decode_sorted bs).
Qed.

(** A set that was written is loaded back. *)
Lemma overrides_load_stored s :
  SetOk s -> decode (encode (overrides_document s)) = Some (overrides_document s) ->
  0 < len (encode (overrides_document s)) <= MAX_FILE_BYTES ->
  overrides_load json_to_vec decode (stored (encode (overrides_document s))) = Ok s.
Proof.
  intros Hok Hrt Hlen. unfold overrides_load. rewrite inspect_stored by lia.
  rewrite Hrt. cbn [mbind Result_bind ok_or overrides_document sd_schema sd_entries].
  rewrite String.eqb_refl. cbn [negb]. rewrite (load_entries_stored [] s Hok). cbn [app mbind Result_bind].
  by rewrite (overrides_ok_valid _ s Hok).
Qed.

(** C26: the override file keeps the overrides.  Every set that is loaded satisfies the invariant
    of the daemon (bounded, keyed by node, every outbound one the core accepts), and a set
    with the invariant that was written is loaded back as it is, or was refused as too large
    with the old file in place; a write that fails before the replacement leaves the old file. *)
Theorem overrides_round_trip o s d r d' :
  SetOk s -> decode (encode (overrides_document s)) = Some (overrides_document s) ->
  0 < len (encode (overrides_document s)) -> overrides_replace encode o s d = (r, d') ->
  match r with
  | Ok _ => overrides_load json_to_vec decode d' = Ok s
  | Err e => (e = LimitExceeded /\ MAX_FILE_BYTES < len (encode (overrides_document s)) /\ d' = d)
             \/ (e = OvWrite /\ (o <> FailedAfter -> d' = d))
  end
  /\ (forall s', overrides_load json_to_vec decode d' = Ok s' -> SetOk s').
Proof.
  intros Hok Hrt Hne Hr. split; [|intros s'; apply overrides_load_ok]. unfold overrides_replace in Hr.
  rewrite (overrides_ok_valid _ s Hok) in Hr. split_if_in Hr Hsize.
  { apply Z.ltb_lt in Hsize. injection Hr as <- <-. left. done. }
  apply Z.ltb_ge in Hsize. destruct (write_node _ _ _) as [ok d1] eqn:Ew. apply write_node_cases in Ew.
  injection Hr as <- <-. destruct Ew as [[-> ->]|[-> Hd]]; [|by right]. by apply overrides_load_stored.
Qed.
End override_file.

(** ** The imported source *)
Section manual_facts.
Context (sha256_hex : list Z -> string).

Lemma hint_text_plain f : 10 ∉ bytes (hint_text f) /\ valid_utf8 (bytes HEADER_PREFIX ++ bytes (hint_text f)) = true.
Proof. split; [destruct f; apply (bool_decide_unpack _); vm_compute; exact I|by destruct f]. Qed.
Lemma parse_format_text f : parse_format (bytes (hint_text f)) = Some f.
Proof. by destruct f. Qed.
Lemma manual_decode_encode f bs :
  validate_body bs = Ok tt -> manual_decode sha256_hex (manual_encode f bs) = Ok (mkManual f bs (sha256_hex bs)).
Proof.
  intros Hb. destruct (hint_text_plain f) as [Hn Hu]. unfold manual_decode, manual_encode.
  rewrite app_assoc. assert (split_once 10 ((bytes HEADER_PREFIX ++ bytes (hint_text f)) ++ [10] ++ bs)
    = Some (bytes HEADER_PREFIX ++ bytes (hint_text f), bs)) as ->.
  { apply split_once_Some. split; [done|]. rewrite elem_of_app. intros [H|H]; [|done].
    revert H. apply (bool_decide_unpack (~ 10 ∈ bytes HEADER_PREFIX)). vm_compute. exact I. }
  cbn [ok_or mbind Result_bind]. rewrite Hu. cbn [negb].
  rewrite (proj2 (strip_prefix_Some _ _ _) eq_refl). cbn [mbind option_bind].
  rewrite parse_format_text. cbn [ok_or mbind Result_bind]. by rewrite Hb.
Qed.
Lemma manual_file_bounds f bs :
  validate_body bs = Ok tt -> 0 < len (manual_encode f bs) <= MAX_BODY_BYTES + 128.
Proof.
  unfold validate_body. split_if Hb; [done|]. intros _.
  apply orb_false_iff in Hb as [_ Hb%Z.ltb_ge]. pose proof (len_nonneg bs).
  assert (len (manual_encode f bs) = 24 + str_len (hint_text f) + 1 + len bs) as ->.
  { rewrite <- (bytes_length (hint_text f)). unfold manual_encode, len. rewrite !length_app. cbn. lia. }
  assert (0 <= str_len (hint_text f) <= 103) by (destruct f; vm_compute; split; congruence). lia.
Qed.
(** A file whose size is that of its contents. *)
Definition settled (d : DiskNode) : Prop :=
  match d with Source.Node _ _ _ (Some bs) size => size = len bs | _ => True end.
Lemma manual_decode_nonempty x source : manual_decode sha256_hex x = Ok source -> 0 < len x.
Proof. destruct x; [done|]. intros _. unfold len. cbn. lia. Qed.
(** An import is read back as it was given, and the checkpoint of an import brings the file
    back to what it held. *)
Lemma manual_round_trip o f bs d c d' :
  settled d -> manual_replace o f bs d = (Ok c, d') ->
  manual_load sha256_hex d' = Ok (Some (mkManual f bs (sha256_hex bs)))
  /\ forall previous, manual_load sha256_hex d = Ok previous ->
     exists d'', manual_restore sha256_hex Written c d' = (Ok tt, d'')
       /\ manual_load sha256_hex d'' = Ok previous.
Proof.
  intros Hset. unfold manual_replace. destruct (validate_body bs) as [[]|] eqn:Eb; [|done].
  destruct (read_file d) as [prev|] eqn:Er; [|done]. destruct (write_node _ _ _) as [ok d1] eqn:Ew.
  apply write_node_cases in Ew as [[-> ->]|[-> _]]; [|done]. intros [= <- <-].
  assert (forall x, 0 < len x <= MAX_BODY_BYTES + 128 -> manual_load sha256_hex (stored x)
            = (source ← manual_decode sha256_hex x; Ok (Some source))) as Hload
    by (intros x Hx; unfold manual_load; by rewrite inspect_stored).
  split.
  { rewrite Hload by by apply manual_file_bounds. by rewrite manual_decode_encode. }
  intros previous Hprev. unfold manual_restore. cbn [mc_previous].
  destruct d as [| |is_file is_symlink is_private contents size]; cbn in Er; [|done|].
  { injection Er as <-. eexists. split; [reflexivity|]. exact Hprev. }
  unfold manual_load, inspect in Hprev. split_if_in Hprev Hs; [done|].
  destruct contents as [x|]; [|done]. cbn in Er. injection Er as <-.
  destruct (manual_decode sha256_hex x) as [source|] eqn:Ex; [|done]. cbn [write_node].
  eexists. split; [reflexivity|]. rewrite Hload, Ex; [exact Hprev|].
  cbn in Hset. subst size. rewrite !orb_false_iff in Hs. destruct Hs as [[_ Hs%Z.ltb_ge] _].
  split; [by eapply manual_decode_nonempty|done].
Qed.
End manual_facts.

(** ** Witness *)
Module OverrideSample.
Definition id : string := "nh1s-00000000000000aa".
Definition object : BTreeMap string Json :=
  bt_collect [("type", JString "vless"); ("server", JString "a.example"); ("server_port", JNumber "443")].
Definition outbound : Json := JObject object.
Definition to_vec (_ : Json) : list Z := [123; 125].
Definition sample : NodeOverride := mkOverride id "Mine" outbound.
Definition set : NodeOverrideSet := [(id, sample)].
Definition enc (doc : StoredDocument) : list Z := [len (sd_entries doc)].
Definition dec (bs : list Z) : option StoredDocument :=
  if bool_decide (bs = [1]) then Some (overrides_document set) else None.
Lemma set_ok : overrides_ok to_vec set.
Proof.
  split; [repeat constructor|done|repeat constructor|]. apply Forall_singleton. split; [reflexivity|].
  exists object. split; [apply bt_collect_wf|vm_compute; reflexivity].
Qed.
Lemma dec_sorted bs doc e object :
  dec bs = Some doc -> e ∈ sd_entries doc -> so_outbound e = JObject object -> bt_wf object.
Proof.
  unfold dec. case_bool_decide; [|done]. intros [= <-] He%list_elem_of_singleton. subst e.
  intros [= <-]. apply bt_collect_wf.
Qed.
End OverrideSample.

Lemma overrides_round_trip_witness :
  exists d', overrides_replace OverrideSample.enc Written OverrideSample.set Source.NotFound = (Ok tt, d')
    /\ overrides_load OverrideSample.to_vec OverrideSample.dec d' = Ok OverrideSample.set.
Proof.
  eexists. split; [vm_compute; reflexivity|].
  refine (proj1 (overrides_round_trip OverrideSample.to_vec OverrideSample.enc OverrideSample.dec
    OverrideSample.dec_sorted Written OverrideSample.set Source.NotFound (Ok tt) _ OverrideSample.set_ok eq_refl
    ltac:(vm_compute; reflexivity) ltac:(vm_compute; reflexivity))).
Defined.
