(* ===== verification/Candidates.v ===== *)
(** * Candidates: a conversion becomes a candidate generation

    Models [build_candidate] and [build_candidate_with_overrides] of
    crates/nethopd/src/worker_services.rs, where the parts meet: the nodes of a conversion are
    pooled ([CandidatePool]), adapted or replaced by the user's overrides ([Overrides]),
    composed into the configuration of the core ([Composer]) and recorded in the node registry
    ([NodeRegistry]) of the candidate ([Generation]). *)

From S2P Require Import Prelude Text Ordering BTreeMap Json Capture NodeRegistry Generation WorkerActivation Source ProxyNode Fingerprint Dedupe Pipeline StateFile CandidatePool Selection Composer Overrides.

Local Open Scope Z_scope.

Record CandidateBuildProfile : Type := mkBuildProfile {
  bp_capture : CapturePolicy;
  bp_clash_api : ClashApi;
  bp_tun_stack : TunStack;
  bp_options : ManagedOptions;
}.
Definition profile_replace (capture : CapturePolicy) (stack : TunStack) (options : ManagedOptions)
    (p : CandidateBuildProfile) : CandidateBuildProfile :=
  mkBuildProfile capture (bp_clash_api p) stack options.
Inductive BuildCandidateError : Type :=
| EmptyConversion | BuildAdapter (e : TerminalOutboundAdapterError) | BuildComposer (e : ComposerError)
| BuildPool (e : CandidatePoolError) | NodeIdentity (e : SelectionModelError)
| Attribution (e : SourceRegistryError) | BuildRegistry (e : CoreError) | BuildOverride (e : NodeOverrideError).

(** [bounded_display_name]: the longest prefix of at most 128 bytes that ends between two
    characters. *)
Definition is_char_boundary (i : nat) (bs : list Z) : bool :=
  match bs !! i with Some b => negb (is_continuation b) | None => (i =? length bs)%nat end.
Fixpoint boundary_below (i : nat) (bs : list Z) : nat :=
  if is_char_boundary i bs then i else match i with O => O | S j => boundary_below j bs end.
Definition bounded_display_name (value : string) : string :=
  if str_len value <=? 128 then value else of_bytes (take (boundary_below 128 (bytes value)) (bytes value)).

Definition attribution_of (node : DedupedNode) : Result BuildCandidateError (list SourceId) :=
  map_err Attribution (NodeAttribution_new (ref_source_id <$> dd_source_refs node)).
Definition pool_node (node : DedupedNode) : Result BuildCandidateError CandidatePoolNode :=
  id ← map_err NodeIdentity (StableNodeId_new (dd_node_id node));
  attribution ← attribution_of node;
  Ok (mkPoolNode id attribution).
Definition node_outbound (overrides : NodeOverrideSet) (node : DedupedNode) :
    Result BuildCandidateError TerminalOutbound :=
  id ← map_err NodeIdentity (StableNodeId_new (dd_node_id node));
  match override_get id overrides with
  | None => map_err BuildAdapter (adapt_terminal_outbound node)
  | Some value => map_err BuildOverride (terminal_outbound value)
  end.

Section build.
Context (sha256_hex : list Z -> string) (to_vec : Json -> Result string (list Z)).
Context (encode_nodes : GenerationNodeRegistry -> list Z).
Context (infer_display_territory : list string -> option string).

(** [value.protocol()] of an override is there by construction ([override_terminal]). *)
Definition node_record (overrides : NodeOverrideSet) (auto_ids : list string) (node : DedupedNode) :
    Result BuildCandidateError GenerationNodeRecord :=
  id ← map_err NodeIdentity (StableNodeId_new (dd_node_id node));
  let node_override := override_get id overrides in
  let name := match node_override with
              | None => un_display_name (pn_inner (dd_node node))
              | Some value => ov_display_name value
              end in
  let protocol := match node_override with
                  | None => ProxyNode.protocol_name (un_protocol (pn_inner (dd_node node)))
                  | Some value => default EmptyString (ov_protocol value)
                  end in
  let territory := match node_override with
                   | None => Dedupe.display_territory_code node
                   | Some value => infer_display_territory [ov_display_name value]
                   end in
  attribution ← attribution_of node;
  record ← map_err BuildRegistry
             (GenerationNodeRecord_new (dd_node_id node) (dd_node_id node) (bounded_display_name name) protocol
                attribution (bool_decide (dd_node_id node ∈ auto_ids)));
  Ok (with_display_territory_code record territory).

(** [None]: the pool builder did not return; [build_total] excludes it. *)
Definition build_candidate_with_overrides (generation : Z) (conversion : StableConversion)
    (profile : CandidateBuildProfile) (mode : SubscriptionMode) (active : list SourceId)
    (overrides : NodeOverrideSet) : option (Result BuildCandidateError Candidate) :=
  let nodes := conv_nodes conversion in
  if (len nodes =? 0) || negb (source_success (summary (conv_report conversion)))
  then Some (Err EmptyConversion)
  else
    match map_result pool_node nodes with
    | Err e => Some (Err e)
    | Ok pool_nodes =>
        pools ← build_candidate_pools mode active pool_nodes (urltest_max_candidates (bp_options profile));
        Some
          (pools ← map_err BuildPool pools;
           let auto_tags := pool_auto pools in
           outbounds ← map_result (node_outbound overrides) nodes;
           managed ← map_err BuildComposer
                       (ManagedProfile_new (bp_capture profile) outbounds auto_tags (bp_clash_api profile));
           let managed := with_options (with_tun_stack managed (bp_tun_stack profile)) (bp_options profile) in
           config ← map_err BuildComposer (from_profile to_vec sha256_hex managed);
           records ← map_result (node_record overrides auto_tags) nodes;
           registry ← map_err BuildRegistry (GenerationNodeRegistry_with_auto_pool records auto_tags);
           map_err BuildRegistry (with_node_registry sha256_hex encode_nodes (Candidate_new generation config) registry))
    end.
Definition build_candidate (generation : Z) (conversion : StableConversion) (profile : CandidateBuildProfile)
    (mode : SubscriptionMode) (active : list SourceId) : option (Result BuildCandidateError Candidate) :=
  build_candidate_with_overrides generation conversion profile mode active [].
End build.

(** ** Facts *)
(** No part of a composed outbound writes its tag again. *)
Lemma insert_some_tag key v (o : BTreeMap string Json) :
  "tag" <> key -> bt_get "tag" (Fingerprint.insert_some key v o) = bt_get "tag" o.
Proof. intros Hk. destruct v; [by apply bt_get_insert_other|done]. Qed.
Lemma insert_flag_tag key v (o : BTreeMap string Json) :
  "tag" <> key -> bt_get "tag" (insert_flag key v o) = bt_get "tag" o.
Proof. intros Hk. unfold insert_flag. case_match; [by apply bt_get_insert_other|done]. Qed.
Lemma insert_number_tag key v (o : BTreeMap string Json) :
  "tag" <> key -> bt_get "tag" (insert_number key v o) = bt_get "tag" o.
Proof. intros Hk. destruct v; [by apply bt_get_insert_other|done]. Qed.
Create Rewrite HintDb tag.
#[local] Hint Rewrite insert_some_tag insert_flag_tag insert_number_tag (@bt_get_insert_other string Json) using done : tag.
Lemma credentials_tag c o : bt_get "tag" (compose_credentials c o) = bt_get "tag" o.
Proof. destruct c as [| |? ? []| |? []| | | |]; cbn; by autorewrite with tag. Qed.
Lemma options_tag p udp o : bt_get "tag" (compose_options p udp o) = bt_get "tag" o.
Proof. destruct p; cbn; repeat case_match; by autorewrite with tag. Qed.
Lemma composed_tag id n object : compose_outbound id n = JObject object -> bt_get "tag" object = Some (JString id).
Proof.
  unfold compose_outbound. intros [= <-]. rewrite options_tag.
  assert (forall o, bt_get "tag" o = Some (JString id) ->
    bt_get "tag" (match un_transport n with TTcp => o | t => bt_insert "transport" (transport_json t) o end)
    = Some (JString id)) as Ht by (intros o Ho; by destruct (un_transport n); autorewrite with tag).
  apply Ht. destruct (tls_enabled _), (port_hopping _); autorewrite with tag; rewrite credentials_tag;
    autorewrite with tag; reflexivity.
Qed.
Lemma adapted_node_tag node t : adapt_terminal_outbound node = Ok t -> tag t = dd_node_id node.
Proof.
  intros (object & Ho & Ht & _)%adapted_tag. apply composed_tag in Ho. rewrite Ho in Ht. by injection Ht.
Qed.

Lemma node_outbound_tag json_to_vec overrides node t :
  overrides_ok json_to_vec overrides -> node_outbound overrides node = Ok t -> tag t = dd_node_id node.
Proof.
  intros [_ _ Hk Hm] (id & Hid%map_err_Ok%StableNodeId_new_Ok & H)%result_bind_Ok. subst id. unfold override_get, StableNodeId in H.
  destruct (bt_get (dd_node_id node) overrides) as [o|] eqn:Eo; apply map_err_Ok in H; [|by apply adapted_node_tag].
  apply bt_get_elem_of in Eo. rewrite Forall_forall in Hk. specialize (Hk _ Eo). cbn in Hk.
  rewrite Forall_forall in Hm.
  destruct (Hm o) as [_ (object & _ & Hnew)]; [apply list_elem_of_fmap; by exists (dd_node_id node, o)|].
  apply override_terminal in Hnew as (t' & Ht & Htag & _). congruence.
Qed.
Lemma node_record_facts infer overrides auto node r :
  node_record infer overrides auto node = Ok r ->
  stable_node_id r = dd_node_id node /\ internal_tag r = dd_node_id node /\ record_made r
  /\ auto_candidate r = bool_decide (dd_node_id node ∈ auto).
Proof.
  unfold node_record. intros (id & Hid & H)%result_bind_Ok. apply result_bind_Ok in H as (a & Ha & H).
  apply result_bind_Ok in H as (record & Hr%map_err_Ok & [= <-]). clear Ha Hid. unfold record_made.
  pose proof Hr as Hr'. unfold GenerationNodeRecord_new in Hr'. split_if_in Hr' Hv; [done|].
  injection Hr' as <-. split_and!; [done|done|exact Hr|done].
Qed.

Section agreement.
Context (sha256_hex : list Z -> string) (to_vec : Json -> Result string (list Z)).
Context (encode_nodes : GenerationNodeRegistry -> list Z).
Context (infer_display_territory : list string -> option string).
#[local] Abbreviation Build :=
  (build_candidate_with_overrides sha256_hex to_vec encode_nodes infer_display_territory).

(** Building a candidate always returns. *)
Lemma build_total generation conversion profile mode active overrides :
  exists r, Build generation conversion profile mode active overrides = Some r.
Proof.
  unfold build_candidate_with_overrides. case_match; [by eexists|]. case_match; [|by eexists].
  edestruct build_candidate_pools_cases as [(e & He & _)|(p & Hp & _)]; [rewrite He|rewrite Hp]; by eexists.
Qed.

(** The parts a built candidate was put together from. *)
Record built_from (conversion : StableConversion) (overrides : NodeOverrideSet) (c : Candidate)
    (profile : ManagedProfile) (registry : GenerationNodeRegistry) : Prop := {
  bf_built : profile_built profile;
  bf_config : from_profile to_vec sha256_hex profile = Ok (cand_config c);
  bf_registry : cand_registry c = Some registry;
  bf_wf : registry_wf registry;
  bf_made : Forall record_made (node_records registry);
  bf_ids : stable_node_id <$> node_records registry ≡ₚ dd_node_id <$> conv_nodes conversion;
  bf_tags : Forall (fun r => internal_tag r = stable_node_id r) (node_records registry);
  bf_outbounds : tag <$> outbounds profile = dd_node_id <$> conv_nodes conversion;
  bf_auto : Composer.auto_pool profile = NodeRegistry.auto_pool registry;
  bf_reserved : Forall (fun t => t ∉ RESERVED_TAGS) (tag <$> outbounds profile);
}.
Lemma build_parts json_to_vec generation conversion profile mode active overrides c :
  overrides_ok json_to_vec overrides ->
  Build generation conversion profile mode active overrides = Some (Ok c) ->
  exists managed registry, built_from conversion overrides c managed registry /\ cand_generation c = generation.
Proof.
  intros Hov. unfold build_candidate_with_overrides. split_if He; [done|].
  destruct (map_result pool_node _) as [pool_nodes|] eqn:Epn; [|done].
  destruct (build_candidate_pools _ _ _ _) as [pools|]; [|done]. intros [= H].
  apply result_bind_Ok in H as (p & _ & H). apply result_bind_Ok in H as (os & Hos & H).
  apply result_bind_Ok in H as (managed & Hman%map_err_Ok & H).
  apply result_bind_Ok in H as (config & Hcfg%map_err_Ok & H).
  apply result_bind_Ok in H as (records & Hrec & H).
  apply result_bind_Ok in H as (registry & Hreg%map_err_Ok & H). apply map_err_Ok in H.
  unfold with_node_registry in H. split_if_in H Hn; [done|]. injection H as <-.
  apply with_auto_pool_wf in Hreg as (Hwf & Hperm & Hpool).
  apply map_result_fmap in Hos, Hrec.
  assert (Forall (fun r => record_made r /\ internal_tag r = stable_node_id r) records) as Hfacts.
  { clear -Hrec. induction Hrec as [|n r ns rs Hr _ IH]; constructor; [|done].
    destruct (node_record_facts _ _ _ _ _ Hr) as (H1 & H2 & H3 & _). split; [done|congruence]. }
  assert (tag <$> os = dd_node_id <$> conv_nodes conversion) as Htags.
  { clear -Hos Hov. induction Hos as [|n o ns os' Ho _ IH]; [done|]. cbn.
    by rewrite IH, (node_outbound_tag _ _ _ _ Hov Ho). }
  assert (stable_node_id <$> records = dd_node_id <$> conv_nodes conversion) as Hids.
  { clear -Hrec. induction Hrec as [|n r ns rs Hr _ IH]; [done|]. cbn. rewrite IH.
    by destruct (node_record_facts _ _ _ _ _ Hr) as (-> & _). }
  pose proof Hman as Hnew. unfold ManagedProfile_new in Hnew. split_if_in Hnew Hmany; [done|].
  split_if_in Hnew Hres; [done|]. unfold Composer.with_auto_pool in Hnew. split_if_in Hnew Hap; [done|].
  injection Hnew as Hnew. rewrite Forall_and in Hfacts. destruct Hfacts as [Hmade Htag].
  eexists _, registry. split; [|done]. split.
  - apply built_options, built_stack. eapply built_new. exact Hman.
  - exact Hcfg.
  - done.
  - done.
  - by rewrite Hperm.
  - by rewrite Hperm, Hids.
  - by rewrite Hperm.
  - subst managed. exact Htags.
  - subst managed. by rewrite Hpool.
  - subst managed. cbn [outbounds with_options with_tun_stack]. apply Forall_fmap, Forall_forall. intros o Ho.
    pose proof (existsb_false_elem _ _ Hres o Ho) as Hx. by apply bool_decide_eq_false in Hx.
Qed.

(** C12: the configuration of the core and the node registry of a candidate agree.  Building a
    candidate from a conversion always returns, and when it gives a candidate: the outbounds of
    the core are the nodes of the conversion, each under its own identifier, whether it was
    adapted or overridden; the registry has exactly one record per node, under the same tag;
    both have the same automatic pool; and whichever of its outbounds the core reports as
    selected, the daemon resolves it to that node. *)
Theorem candidate_agrees json_to_vec generation conversion profile mode active overrides :
  overrides_ok json_to_vec overrides ->
  exists r, Build generation conversion profile mode active overrides = Some r
  /\ forall c, r = Ok c ->
     cand_generation c = generation
     /\ exists managed registry,
          from_profile to_vec sha256_hex managed = Ok (cand_config c) /\ profile_built managed
          /\ cand_registry c = Some registry /\ registry_wf registry
          /\ tag <$> outbounds managed = dd_node_id <$> conv_nodes conversion
          /\ internal_tag <$> node_records registry ≡ₚ tag <$> outbounds managed
          /\ Composer.auto_pool managed = NodeRegistry.auto_pool registry
          /\ (forall root groups selected, bt_get root groups ≫= gs_now = Some selected ->
               selected ∈ tag <$> outbounds managed ->
               resolve_active_terminal root groups registry = TerminalNode selected).
Proof.
  intros Hov. destruct (build_total generation conversion profile mode active overrides) as [r Hr].
  exists r. split; [done|]. intros c ->.
  destruct (build_parts json_to_vec _ _ _ _ _ _ _ Hov Hr) as (managed & registry & Hb & Hg).
  split; [done|]. exists managed, registry. destruct Hb as [Hbuilt Hcfg Hreg Hwf Hmade Hids Htags Hos Hauto Hres].
  assert (internal_tag <$> node_records registry ≡ₚ tag <$> outbounds managed) as Hperm.
  { rewrite Hos, <- Hids. apply reflexive_eq, list_fmap_ext. intros i n Hn. rewrite Forall_lookup in Htags. by eapply Htags. }
  split_and!; try done. intros root groups selected Hsel Hin.
  pose proof Hin as Hrec. rewrite <- Hperm in Hrec. apply list_elem_of_fmap in Hrec as (n & -> & Hn).
  apply (resolve_node root groups registry _ Hwf Hmade). exists n.
  pose proof (proj1 (Forall_forall _ _) Htags n Hn) as Htag. pose proof (proj1 (Forall_forall _ _) Hres _ Hin) as Hr'.
  split_and!; [done|done|by intros E; apply Hr'; rewrite E; left|by intros E; apply Hr'; rewrite E; right; left|done].
Qed.
End agreement.

(** The manual source is one more source: beside sixteen active ones it makes the pool refuse
    every conversion. *)
Lemma seventeen_sources_refused pool_nodes mode active max_candidates :
  len active = 17 -> build_candidate_pools mode active pool_nodes max_candidates = Some (Err InvalidActiveSources).
Proof.
  intros Hl. unfold build_candidate_pools, validate_inputs. rewrite Hl. done.
Qed.

(** ** Witness *)
Module CandidateSample.
Definition source : SourceId := "src_00000000000000000000000000000001".
Definition node (id server : string) : DedupedNode :=
  mkDeduped [] id (Dedupe.demo_node "Node" server [mkSourceRef source 0 FUriList None])
    [mkSourceRef source 0 FUriList None] [] None 0 0.
Definition conversion : StableConversion :=
  mkConversion [node "nh1s-00000000000000aa" "a.example"; node "nh1s-00000000000000bb" "b.example"] JNull
    (mkReport (mkSummary FUriList 2 0 0 0 true false) [] [] []) [].
Definition overrides : NodeOverrideSet := OverrideSample.set.
Definition profile : CandidateBuildProfile :=
  mkBuildProfile ComposerSample.cap ComposerSample.api Gvisor ManagedOptions_default.
Definition to_vec (v : Json) : Result string (list Z) := Ok [123; 125].
Definition sha (bs : list Z) : string := "digest".
Definition enc (r : GenerationNodeRegistry) : list Z := [len (node_records r)].
Definition built := build_candidate_with_overrides sha to_vec enc (fun _ => None) 3 conversion profile Merge [source]
  overrides.
End CandidateSample.
Lemma candidate_agrees_witness :
  exists c, CandidateSample.built = Some (Ok c) /\ cand_generation c = 3
  /\ exists managed registry,
       tag <$> outbounds managed = ["nh1s-00000000000000aa"; "nh1s-00000000000000bb"]
       /\ cand_registry c = Some registry
       /\ Composer.auto_pool managed = NodeRegistry.auto_pool registry.
Proof.
  destruct (candidate_agrees CandidateSample.sha CandidateSample.to_vec CandidateSample.enc (fun _ => None)
              OverrideSample.to_vec 3 CandidateSample.conversion CandidateSample.profile Merge [CandidateSample.source]
              CandidateSample.overrides OverrideSample.set_ok) as (r & Hr & Hc).
  assert (match CandidateSample.built with Some (Ok _) => True | _ => False end) as Hb by (vm_compute; exact I).
  unfold CandidateSample.built in Hb. rewrite Hr in Hb. destruct r as [c|]; [|destruct Hb].
  destruct (Hc c eq_refl) as (Hg & managed & registry & _ & _ & Hreg & _ & Htags & _ & Hauto & _).
  exists c. split; [exact Hr|]. split; [exact Hg|]. exists managed, registry. split; [exact Htags|]. split; [exact Hreg|exact Hauto].
Defined.
