(* ===== verification/Ssrf.v ===== *)
(** * Ssrf: where a subscription may be fetched from

    Models the address policy of crates/nethop-subscription/src/fetch.rs
    ([is_denied_ssrf_address] and the checks built on it) and the parts of
    crates/nethop-subscription/src/fetch/ureq_adapter.rs that apply it: the resolver over
    DNS-over-HTTPS and the connector that opens the TCP connection.  The system calls of the
    connector answer from a script, and every address dialled is recorded. *)

From S2P Require Import Prelude Text Ordering BTreeMap Ip.

Local Open Scope Z_scope.

#[export] Instance IpAddr_eq_dec : EqDecision IpAddr.
Proof. solve_decision. Defined.
Record SocketAddr : Type := mkSocket { sock_ip : IpAddr; sock_port : Z }.
#[export] Instance SocketAddr_eq_dec : EqDecision SocketAddr.
Proof. solve_decision. Defined.

(** ** Denied addresses *)
Definition is_denied_ipv4 (value : Z) : bool :=
  match to_base 256 4 value with
  | [a; b; c; _] =>
      (a =? 0) || (a =? 10) || ((a =? 100) && (Z.land b 192 =? 64)) || (a =? 127)
      || ((a =? 169) && (b =? 254)) || ((a =? 172) && in_range 16 31 b)
      || ((a =? 192) && (b =? 0) && (c =? 0)) || ((a =? 192) && (b =? 0) && (c =? 2))
      || ((a =? 192) && (b =? 88) && (c =? 99)) || ((a =? 192) && (b =? 168))
      || ((a =? 198) && ((b =? 18) || (b =? 19))) || ((a =? 198) && (b =? 51) && (c =? 100))
      || ((a =? 203) && (b =? 0) && (c =? 113)) || (224 <=? a)
  | _ => false
  end.
(** [Ipv6Addr::to_ipv4_mapped] *)
Definition to_ipv4_mapped (value : Z) : option Z :=
  if value / 2 ^ 32 =? 65535 then Some (value mod 2 ^ 32) else None.
Definition ipv6_is_multicast (value : Z) : bool := value / 2 ^ 120 =? 255.
Definition is_denied_ssrf_address (address : IpAddr) : bool :=
  match address with
  | V4 value => is_denied_ipv4 value
  | V6 value =>
      match to_ipv4_mapped value with
      | Some mapped => is_denied_ipv4 mapped
      | None =>
          match to_base 65536 8 value with
          | [s0; s1; s2; s3; _; _; _; _] =>
              (value =? 1) || (value =? 0) || ipv6_is_multicast value
              || (Z.land s0 65024 =? 64512) || (Z.land s0 65472 =? 65152)
              || ((s0 =? 256) && ((s1 =? 0) && (s2 =? 0) && (s3 =? 0)))
              || ((s0 =? 8193) && (s1 =? 2)) || ((s0 =? 8193) && (s1 =? 3512))
              || ((s0 =? 8193) && (Z.land s1 65520 =? 16)) || ((s0 =? 8193) && (Z.land s1 65520 =? 32))
              || (s0 =? 8194) || ((s0 =? 100) && (s1 =? 65435))
          | _ => false
          end
      end
  end.
Definition is_loopback (address : IpAddr) : bool :=
  match address with V4 value => value / 2 ^ 24 =? 127 | V6 value => value =? 1 end.

Inductive FetchPolicyError : Type :=
| InvalidLocalProxy | NonHttps | UserInfo | MissingHost | DeniedAddress | PeerMismatch | RedirectLimit
| InvalidRedirect | HeadersTooLarge | BodyTooLarge | UnsupportedContentEncoding
| InvalidResponseMetadata | ResponseTimeout | CacheMiss | TooManyMirrors.
#[export] Instance FetchPolicyError_eq_dec : EqDecision FetchPolicyError.
Proof. solve_decision. Defined.

Definition validate_resolved_addresses (addresses : list IpAddr) : Result FetchPolicyError unit :=
  if (len addresses =? 0) || existsb is_denied_ssrf_address addresses then Err DeniedAddress else Ok tt.
Definition validate_peer_address (address : IpAddr) : Result FetchPolicyError unit :=
  if is_denied_ssrf_address address then Err DeniedAddress else Ok tt.
Definition validate_peer_in_approved_set (peer : IpAddr) (approved : list IpAddr) :
    Result FetchPolicyError unit :=
  _ ← validate_peer_address peer;
  if negb (bool_decide (peer ∈ approved)) then Err PeerMismatch else Ok tt.

(** ** The resolver *)
Inductive IoKind : Type := ConnectionRefused | TimedOut | WouldBlock | OtherKind.
Inductive SecurityAdapterError : Type := SecurityDenied | SecurityPeerMismatch.
(** [ureq::Error]: what the code tells apart. *)
Inductive UreqError : Type :=
| UTimeout | UOther (security : option SecurityAdapterError) | UStatusCode | UIo (kind : IoKind)
| HostNotFound | URemaining.
Definition MAX_DOH_RESPONSE_BYTES : Z := 64 * 1024.
Definition MAX_RESOLVED_ADDRESSES : Z := 16.

Definition allowed_proxy (scheme : option string) (local_proxy : option SocketAddr) (socket : SocketAddr) : bool :=
  bool_decide (scheme = Some "http") && bool_decide (local_proxy = Some socket) && is_loopback (sock_ip socket).
Fixpoint resolve_loop (denied : SocketAddr -> bool) (port : Z) (addresses : list IpAddr) :
    Result UreqError (list SocketAddr) :=
  match addresses with
  | [] => Ok []
  | address :: rest =>
      let socket := mkSocket address port in
      if denied socket then Err (UOther (Some SecurityDenied))
      else resolved ← resolve_loop denied port rest; Ok (socket :: resolved)
  end.
(** The addresses, and that there is one. *)
Definition resolve_all (denied : SocketAddr -> bool) (port : Z) (addresses : list IpAddr) :
    Result UreqError (list SocketAddr) :=
  resolved ← resolve_loop denied port addresses;
  if len resolved =? 0 then Err HostNotFound else Ok resolved.
Definition resolve_addresses (local_proxy : option SocketAddr) (scheme : option string)
    (addresses : list IpAddr) (port : Z) : Result UreqError (list SocketAddr) :=
  resolve_all (fun s => is_denied_ssrf_address (sock_ip s) && negb (allowed_proxy scheme local_proxy s))
    port addresses.
(** [resolved_addresses], for the fixed address of the DNS service. *)
Definition resolved_addresses (addresses : list IpAddr) (port : Z) : Result UreqError (list SocketAddr) :=
  resolve_all (fun s => is_denied_ssrf_address (sock_ip s)) port addresses.
Definition DOH_ADDRESS : SocketAddr := mkSocket (V4 (of_base 256 [223; 5; 5; 5])) 443.
Definition FixedResolver_resolve (s : SocketAddr) : Result UreqError (list SocketAddr) :=
  resolved_addresses [sock_ip s] (sock_port s).

(** [BTreeSet<IpAddr>]: the order of the addresses puts version 4 first. *)
Definition ip_key (a : IpAddr) : Z * Z := match a with V4 v => (4, v) | V6 v => (6, v) end.
#[export] Program Instance IpAddr_Ord : Ord IpAddr := {| cmp a b := cmp (ip_key a) (ip_key b) |}.
Next Obligation. intros a b. rewrite cmp_eq. destruct a, b; cbn; naive_solver. Qed.
Next Obligation. intros a b. apply cmp_antisym. Qed.
Next Obligation. intros a b c. apply cmp_lt_trans. Qed.
Abbreviation AddressSet := (BTreeMap IpAddr unit).

Record DohRecord : Type := mkDohRecord { doh_type : Z; doh_data : string }.
Record DohResponse : Type := mkDohResponse { doh_status : Z; doh_answers : list DohRecord }.
Fixpoint extend_loop (answers : list DohRecord) (addresses : AddressSet) :
    Result UreqError AddressSet :=
  match answers with
  | [] => Ok addresses
  | record :: rest =>
      if negb ((doh_type record =? 1) || (doh_type record =? 28)) then extend_loop rest addresses
      else
        address ← ok_or (ip_from_str (bytes (doh_data record))) HostNotFound;
        let addresses := bt_insert address tt addresses in
        if MAX_RESOLVED_ADDRESSES <? len addresses then Err HostNotFound else extend_loop rest addresses
  end.

Section resolver.
Context (doh_decode : list Z -> option DohResponse).
(** The DNS service: the status and the body it answers to a name and a record type, the body
    already cut at [MAX_DOH_RESPONSE_BYTES] ([read_bounded] of [Fetch]). *)
Context (doh_get : string -> string -> Result UreqError (Z * Result unit (list Z))).

Definition extend_doh_addresses (body : list Z) (addresses : AddressSet) :
    Result UreqError AddressSet :=
  answer ← ok_or (doh_decode body) HostNotFound;
  if negb (doh_status answer =? 0) then Err HostNotFound else extend_loop (doh_answers answer) addresses.
Definition resolve_record_type (host record_type : string) (addresses : AddressSet) :
    Result UreqError AddressSet :=
  '(status, body) ← doh_get host record_type;
  if negb (status =? 200) then Err HostNotFound
  else body ← map_err (fun _ => HostNotFound) body; extend_doh_addresses body addresses.
Definition resolve (local_proxy : option SocketAddr) (scheme host : option string) (port : option Z) :
    Result UreqError (list SocketAddr) :=
  host ← ok_or host HostNotFound;
  let port := default 443 port in
  match ip_from_str (bytes host) with
  | Some address => resolve_addresses local_proxy scheme [address] port
  | None =>
      addresses ← resolve_record_type host "A" [];
      addresses ← resolve_record_type host "AAAA" addresses;
      resolve_addresses local_proxy scheme (bt_keys addresses) port
  end.
End resolver.

(** ** The connector *)
(** A connected stream: the peer it reports and what [set_nodelay] gives. *)
Record TcpStream : Type := mkStream { stream_peer : Result IoKind SocketAddr; stream_nodelay : Result IoKind unit }.
(** The network: the answers the next connections get, and the addresses dialled so far. *)
Record Net : Type := mkNet { net_script : list (Result IoKind TcpStream); net_dialled : list SocketAddr }.
Definition connect_one (address : SocketAddr) (n : Net) : Result IoKind TcpStream * Net :=
  match net_script n with
  | [] => (Err OtherKind, mkNet [] (net_dialled n ++ [address]))
  | answer :: rest => (answer, mkNet rest (net_dialled n ++ [address]))
  end.

Section connector.
Context {Transport : Type} (local_proxy : option SocketAddr) (no_delay : bool).
Definition address_is_allowed (scheme : option string) (address : SocketAddr) : bool :=
  negb (is_denied_ssrf_address (sock_ip address)) || allowed_proxy scheme local_proxy address.
Definition accept_stream (addrs : list SocketAddr) (address : SocketAddr) (stream : TcpStream) :
    Result UreqError TcpStream :=
  peer ← map_err UIo (stream_peer stream);
  if negb (bool_decide (peer = address)) || negb (bool_decide (peer ∈ addrs))
  then Err (UOther (Some SecurityPeerMismatch))
  else
    _ ← (if no_delay then map_err UIo (stream_nodelay stream) else Ok tt);
    Ok stream.
Fixpoint connect_loop (addrs todo : list SocketAddr) (last_error : option IoKind) (n : Net) :
    Result UreqError TcpStream * Net :=
  match todo with
  | [] => (Err (UIo (default ConnectionRefused last_error)), n)
  | address :: rest =>
      match connect_one address n with
      | (Ok stream, n) => (accept_stream addrs address stream, n)
      | (Err ConnectionRefused, n) => connect_loop addrs rest (Some ConnectionRefused) n
      | (Err TimedOut, n) => (Err UTimeout, n)
      | (Err kind, n) => (Err (UIo kind), n)
      end
  end.
Definition connect (scheme : option string) (addrs : list SocketAddr) (chained : option Transport) (n : Net) :
    Result UreqError (Transport + TcpStream) * Net :=
  match chained with
  | Some transport => (Ok (inl transport), n)
  | None =>
      if (len addrs =? 0) || existsb (fun a => negb (address_is_allowed scheme a)) addrs
      then (Err (UOther (Some SecurityDenied)), n)
      else let (r, n) := connect_loop addrs addrs None n in (stream ← r; Ok (inr stream), n)
  end.
End connector.

(** ** The address plan the policy is checked against *)
(** A block of addresses: its first address and the length of its prefix. *)
Definition in_block (width : Z) (block : Z * Z) (value : Z) : bool :=
  value / 2 ^ (width - block.2) =? block.1 / 2 ^ (width - block.2).
Definition v4 (octets : list Z) : Z := of_base 256 octets.
Definition v6 (segments : list Z) : Z := of_base 65536 segments.
(** The special-purpose blocks: this network, private, shared, loopback, link-local, protocol
    assignments, documentation, 6to4 relays, benchmarking, multicast and reserved. *)
Definition SPECIAL_V4 : list (Z * Z) :=
  [(v4 [0; 0; 0; 0], 8); (v4 [10; 0; 0; 0], 8); (v4 [100; 64; 0; 0], 10); (v4 [127; 0; 0; 0], 8);
   (v4 [169; 254; 0; 0], 16); (v4 [172; 16; 0; 0], 12); (v4 [192; 0; 0; 0], 24); (v4 [192; 0; 2; 0], 24);
   (v4 [192; 88; 99; 0], 24); (v4 [192; 168; 0; 0], 16); (v4 [198; 18; 0; 0], 15); (v4 [198; 51; 100; 0], 24);
   (v4 [203; 0; 113; 0], 24); (v4 [224; 0; 0; 0], 3)].
(** Loopback, unspecified, multicast, unique-local, link-local, discard-only, benchmarking,
    documentation, ORCHID (twice), 6to4 and the translation prefix. *)
Definition SPECIAL_V6 : list (Z * Z) :=
  [(1, 128); (0, 128); (v6 [65280; 0; 0; 0; 0; 0; 0; 0], 8); (v6 [64512; 0; 0; 0; 0; 0; 0; 0], 7);
   (v6 [65152; 0; 0; 0; 0; 0; 0; 0], 10); (v6 [256; 0; 0; 0; 0; 0; 0; 0], 64); (v6 [8193; 2; 0; 0; 0; 0; 0; 0], 32);
   (v6 [8193; 3512; 0; 0; 0; 0; 0; 0], 32); (v6 [8193; 16; 0; 0; 0; 0; 0; 0], 28);
   (v6 [8193; 32; 0; 0; 0; 0; 0; 0], 28); (v6 [8194; 0; 0; 0; 0; 0; 0; 0], 16); (v6 [100; 65435; 0; 0; 0; 0; 0; 0], 32)].
Definition MAPPED_V4 : Z * Z := (v6 [0; 0; 0; 0; 0; 65535; 0; 0], 96).
Definition special (address : IpAddr) : bool :=
  match address with
  | V4 value => existsb (fun b => in_block 32 b value) SPECIAL_V4
  | V6 value =>
      if in_block 128 MAPPED_V4 value then existsb (fun b => in_block 32 b (value mod 2 ^ 32)) SPECIAL_V4
      else existsb (fun b => in_block 128 b value) SPECIAL_V6
  end.

(** ** Facts on prefixes *)
(** A mask of leading ones keeps the leading bits. *)
Lemma land_leading w k b : 0 <= k <= w -> 0 <= b < 2 ^ w -> Z.land b (2 ^ w - 2 ^ k) = b / 2 ^ k * 2 ^ k.
Proof.
  intros Hk Hb. assert (2 ^ w - 2 ^ k = Z.shiftl (Z.ones (w - k)) k) as ->.
  { rewrite Z.shiftl_mul_pow2, Z.ones_equiv by lia. replace (2 ^ w) with (2 ^ (w - k) * 2 ^ k); [lia|].
    rewrite <- Z.pow_add_r by lia. f_equal. lia. }
  apply Z.bits_inj'. intros n Hn. rewrite Z.land_spec, <- Z.shiftl_mul_pow2, <- Z.shiftr_div_pow2 by lia.
  rewrite !Z.shiftl_spec by lia. destruct (Z.le_gt_cases k n) as [Hkn|Hkn].
  - rewrite Z.shiftr_spec, Z.sub_add, Z.testbit_ones_nonneg by lia.
    destruct (Z.lt_ge_cases n w) as [Hw|Hw]; [rewrite (proj2 (Z.ltb_lt _ _)) by lia; apply andb_true_r|].
    destruct (decide (b = 0)) as [->|Hb0]; [by rewrite Z.bits_0|].
    rewrite (Z.bits_above_log2 b n); [done|lia|]. apply Z.log2_lt_pow2; [lia|].
    apply Z.lt_le_trans with (2 ^ w); [lia|]. apply Z.pow_le_mono_r; lia.
  - by rewrite !(Z.testbit_neg_r _ (n - k)), andb_false_r by lia.
Qed.
Lemma land_leading_eqb w k b c :
  0 <= k <= w -> 0 <= b < 2 ^ w -> (Z.land b (2 ^ w - 2 ^ k) =? c * 2 ^ k) = (b / 2 ^ k =? c).
Proof.
  intros Hk Hb. rewrite land_leading by done. assert (0 < 2 ^ k) by (apply Z.pow_pos_nonneg; lia).
  apply eq_bool_prop_intro. rewrite !Is_true_true, !Z.eqb_eq. nia.
Qed.

(** Proves that a comparison of leading bits is one of octets or segments. *)
Ltac eval_constants :=
  repeat match goal with
  | |- context [2 ^ ?k] => let v := eval vm_compute in (2 ^ k) in change (2 ^ k) with v
  | |- context [of_base ?b ?l] => let v := eval vm_compute in (of_base b l) in change (of_base b l) with v
  end.
Ltac block_of_digits :=
  unfold in_block, v4, v6, in_range; cbn [fst snd]; eval_constants;
  apply eq_bool_prop_intro; rewrite !Is_true_true, ?andb_true_iff, ?orb_true_iff, ?Z.leb_le, ?Z.eqb_eq;
  Z.to_euclidean_division_equations; lia.
Lemma digits_v4 value : 0 <= value < 2 ^ 32 ->
  exists a b c d, to_base 256 4 value = [a; b; c; d] /\ 0 <= a < 256 /\ 0 <= b < 256 /\ 0 <= c < 256 /\ 0 <= d < 256
    /\ value = a * 2 ^ 24 + b * 2 ^ 16 + c * 2 ^ 8 + d.
Proof.
  intros Hv. exists (value / 256 / 256 / 256 mod 256), (value / 256 / 256 mod 256), (value / 256 mod 256), (value mod 256).
  split; [done|]. Z.to_euclidean_division_equations. lia.
Qed.
Lemma denied_v4_exact value : 0 <= value < 2 ^ 32 ->
  is_denied_ipv4 value = existsb (fun b => in_block 32 b value) SPECIAL_V4.
Proof.
  intros (a & b & c & d & Hd & Ha & Hb & Hc & Hd' & ->)%digits_v4. unfold is_denied_ipv4. rewrite Hd. clear Hd.
  change 192 with (2 ^ 8 - 2 ^ 6) at 1. change 64 with (1 * 2 ^ 6) at 1. rewrite land_leading_eqb by done.
  cbn [existsb SPECIAL_V4]. rewrite orb_false_r, <- !orb_assoc. repeat f_equal; block_of_digits.
Qed.
Lemma digits_v6 value : 0 <= value < 2 ^ 128 ->
  exists s0 s1 s2 s3 s4 s5 s6 s7, to_base 65536 8 value = [s0; s1; s2; s3; s4; s5; s6; s7]
    /\ 0 <= s0 < 65536 /\ 0 <= s1 < 65536 /\ 0 <= s2 < 65536 /\ 0 <= s3 < 65536
    /\ exists low, 0 <= low < 2 ^ 64 /\ value = s0 * 2 ^ 112 + s1 * 2 ^ 96 + s2 * 2 ^ 80 + s3 * 2 ^ 64 + low.
Proof.
  intros Hv. eexists _, _, _, _, _, _, _, _. split; [reflexivity|]. do 4 (split; [by apply Z.mod_pos_bound|]).
  exists (value mod 2 ^ 64). split; [by apply Z.mod_pos_bound|].
  rewrite !Z.div_div by done. cbn [Z.mul Pos.mul]. Z.to_euclidean_division_equations. lia.
Qed.
(** Denying an address is asking whether it lies in a special-purpose block. *)
Lemma denied_exact address : ip_wf address -> is_denied_ssrf_address address = special address.
Proof.
  destruct address as [value|value]; cbn [ip_wf special is_denied_ssrf_address]; unfold is_uint; intros Hv;
    [by apply denied_v4_exact|]. unfold to_ipv4_mapped.
  assert (in_block 128 MAPPED_V4 value = (value / 2 ^ 32 =? 65535)) as -> by done.
  destruct (value / 2 ^ 32 =? 65535); [by apply denied_v4_exact, Z.mod_pos_bound|].
  apply digits_v6 in Hv as (s0 & s1 & s2 & s3 & s4 & s5 & s6 & s7 & Hd & H0 & H1 & H2 & H3 & low & Hl & ->).
  rewrite Hd. clear Hd.
  change (Z.land s0 65024 =? 64512) with (Z.land s0 (2 ^ 16 - 2 ^ 9) =? 126 * 2 ^ 9).
  change (Z.land s0 65472 =? 65152) with (Z.land s0 (2 ^ 16 - 2 ^ 6) =? 1018 * 2 ^ 6).
  change (Z.land s1 65520 =? 16) with (Z.land s1 (2 ^ 16 - 2 ^ 4) =? 1 * 2 ^ 4).
  change (Z.land s1 65520 =? 32) with (Z.land s1 (2 ^ 16 - 2 ^ 4) =? 2 * 2 ^ 4).
  rewrite !land_leading_eqb by done. unfold ipv6_is_multicast.
  cbn [existsb SPECIAL_V6]. rewrite orb_false_r, <- !orb_assoc. repeat f_equal; block_of_digits.
Qed.

(** C24: the addresses a subscription may not be fetched from are exactly the
    special-purpose blocks of the address plan.  The bit masks and comparisons of the
    code deny an address if and only if it lies in one of the listed blocks, where an
    IPv4-mapped IPv6 address is judged as the IPv4 one it maps; addresses that embed an
    IPv4 one in another way (NAT64, 6to4) are judged only by the IPv6 blocks. *)
Theorem ssrf_policy_exact address :
  ip_wf address -> is_denied_ssrf_address address = special address.
Proof. apply denied_exact. Qed.
Lemma ssrf_policy_exact_witness :
  is_denied_ssrf_address (V6 (v6 [0; 0; 0; 0; 0; 65535; 49320; 1])) = true
  /\ is_denied_ssrf_address (V4 (v4 [8; 8; 8; 8])) = false.
Proof.
  split.
  - rewrite (ssrf_policy_exact (V6 (v6 [0; 0; 0; 0; 0; 65535; 49320; 1]))); [reflexivity|split; [discriminate|reflexivity]].
  - rewrite (ssrf_policy_exact (V4 (v4 [8; 8; 8; 8]))); [reflexivity|split; [discriminate|reflexivity]].
Defined.

(** ** What the connector dials *)
Definition may_dial (local_proxy : option SocketAddr) (scheme : option string) (a : SocketAddr) : Prop :=
  special (sock_ip a) = false
  \/ (scheme = Some "http" /\ local_proxy = Some a /\ is_loopback (sock_ip a) = true).
Lemma allowed_may_dial local_proxy scheme a :
  ip_wf (sock_ip a) -> address_is_allowed local_proxy scheme a = true <-> may_dial local_proxy scheme a.
Proof.
  intros Hwf. unfold address_is_allowed, may_dial, allowed_proxy. rewrite denied_exact by done.
  rewrite orb_true_iff, negb_true_iff, !andb_true_iff, !bool_decide_eq_true. naive_solver.
Qed.
Lemma resolve_loop_Ok denied port addresses sockets :
  resolve_loop denied port addresses = Ok sockets ->
  sockets = (fun a => mkSocket a port) <$> addresses /\ Forall (fun s => denied s = false) sockets.
Proof.
  revert sockets. induction addresses as [|a rest IH]; cbn; intros sockets; [by intros [= <-]|].
  split_if Hd; [done|]. intros (resolved & Hr & [= <-])%result_bind_Ok.
  apply IH in Hr as [-> Hall]. split; [done|]. by constructor.
Qed.
Lemma accept_stream_peer no_delay addrs address stream s :
  accept_stream no_delay addrs address stream = Ok s -> s = stream /\ stream_peer stream = Ok address /\ address ∈ addrs.
Proof.
  unfold accept_stream. intros (peer & Hp & H)%result_bind_Ok.
  split_if_in H Hm; [done|]. apply orb_false_iff in Hm as [Hm1%negb_false_iff%bool_decide_eq_true Hm2%negb_false_iff%bool_decide_eq_true].
  subst peer. destruct (stream_peer stream) as [p|]; cbn in Hp; [|done]. injection Hp as ->.
  destruct no_delay; [destruct (stream_nodelay stream)|]; cbn in H; try done; by injection H as <-.
Qed.
Lemma connect_loop_dials no_delay addrs todo last n r n' :
  connect_loop no_delay addrs todo last n = (r, n') ->
  exists dialled, net_dialled n' = net_dialled n ++ dialled /\ dialled `prefix_of` todo
    /\ forall stream, r = Ok stream -> exists a, a ∈ dialled /\ stream_peer stream = Ok a.
Proof.
  revert last n. induction todo as [|a rest IH]; intros last n; cbn [connect_loop].
  { intros [= <- <-]. exists []. split_and!; [by rewrite app_nil_r|done|done]. }
  assert (forall answer m, connect_one a n = (answer, m) -> net_dialled m = net_dialled n ++ [a]) as Hone.
  { unfold connect_one. intros answer m. destruct (net_script n); by intros [= <- <-]. }
  destruct (connect_one a n) as [answer m] eqn:Ec. specialize (Hone _ _ eq_refl).
  assert (forall r', (r', m) = (r, n') -> (forall stream, r' = Ok stream -> stream_peer stream = Ok a) ->
    exists dialled, net_dialled n' = net_dialled n ++ dialled /\ dialled `prefix_of` a :: rest
      /\ forall stream, r = Ok stream -> exists b, b ∈ dialled /\ stream_peer stream = Ok b) as Hstop.
  { intros r' [= <- <-] Hp. exists [a]. split_and!; [done|by exists rest|].
    intros stream Hs. exists a. split; [left|by apply Hp]. }
  destruct answer as [stream|kind].
  - intros H. apply (Hstop _ H). by intros s (-> & Hp & _)%accept_stream_peer.
  - destruct kind; intros H; try by apply (Hstop _ H).
    apply IH in H as (dialled & Hd & [tail ->] & Hs). exists (a :: dialled). split_and!.
    + by rewrite Hd, Hone, <- app_assoc.
    + by exists tail.
    + intros stream Hok. destruct (Hs _ Hok) as (b & Hb & Hp). exists b. split; [by right|done].
Qed.

Lemma connect_loop_denied no_delay addrs todo last n r n' :
  connect_loop no_delay addrs todo last n = (r, n') -> r <> Err (UOther (Some SecurityDenied)).
Proof.
  revert last n. induction todo as [|a rest IH]; intros last n; cbn [connect_loop]; [by intros [= <- <-]|].
  destruct (connect_one a n) as [[stream|[]] m]; try (by intros [= <- <-]).
  - intros [= <- <-]. unfold accept_stream. destruct (stream_peer stream); cbn; [|done]. case_match; [done|].
    destruct no_delay; [destruct (stream_nodelay stream)|]; by cbn.
  - apply IH.
Qed.

(** ** What the resolver gives *)
Lemma resolve_addresses_Ok local_proxy scheme addresses port sockets :
  Forall ip_wf addresses -> resolve_addresses local_proxy scheme addresses port = Ok sockets ->
  sockets = (fun a => mkSocket a port) <$> addresses /\ sockets <> []
  /\ Forall (may_dial local_proxy scheme) sockets /\ Forall (fun s => ip_wf (sock_ip s)) sockets.
Proof.
  unfold resolve_addresses, resolve_all. intros Hwf (resolved & [-> Hall]%resolve_loop_Ok & H)%result_bind_Ok.
  split_if_in H Hl; [done|]. injection H as <-. split; [done|].
  assert (Forall (fun s => ip_wf (sock_ip s)) ((fun a => mkSocket a port) <$> addresses)) as Hs by by apply Forall_fmap.
  split_and!; [by intros Hn; rewrite Hn in Hl| |done]. rewrite Forall_forall in *. intros s Hin.
  apply allowed_may_dial; [by apply Hs|]. unfold address_is_allowed. specialize (Hall s Hin).
  apply andb_false_iff in Hall as [->|Hn%negb_false_iff]; [done|]. by rewrite Hn, orb_true_r.
Qed.
Definition addresses_ok (addresses : AddressSet) : Prop :=
  Forall ip_wf (bt_keys addresses) /\ len addresses <= MAX_RESOLVED_ADDRESSES.
Lemma extend_loop_ok answers addresses addresses' :
  addresses_ok addresses -> extend_loop answers addresses = Ok addresses' -> addresses_ok addresses'.
Proof.
  revert addresses. induction answers as [|record rest IH]; intros addresses Hok; cbn; [by intros [= <-]|].
  split_if Ht; [by apply IH|]. intros (address & Ha & H)%result_bind_Ok. split_if_in H Hm; [done|].
  apply Z.ltb_ge in Hm. apply (IH _) in H; [done|]. split; [|done]. apply Forall_fmap, bt_insert_Forall.
  - change (ip_wf address). destruct (ip_from_str _) eqn:E; [|done]. injection Ha as <-. by apply ip_from_str_wf in E.
  - destruct Hok as [Hok _]. unfold bt_keys in Hok. rewrite Forall_fmap in Hok. exact Hok.
Qed.
Lemma resolve_record_type_ok doh_decode doh_get host record_type addresses addresses' :
  addresses_ok addresses -> resolve_record_type doh_decode doh_get host record_type addresses = Ok addresses' ->
  addresses_ok addresses'.
Proof.
  unfold resolve_record_type, extend_doh_addresses. intros Hok ([status body] & _ & H)%result_bind_Ok.
  split_if_in H Hs; [done|]. apply result_bind_Ok in H as (bs & _ & H). apply result_bind_Ok in H as (answer & _ & H).
  split_if_in H Hd; [done|]. by apply extend_loop_ok in H.
Qed.
Lemma resolve_Ok doh_decode doh_get local_proxy scheme host port sockets :
  resolve doh_decode doh_get local_proxy scheme host port = Ok sockets ->
  sockets <> [] /\ len sockets <= MAX_RESOLVED_ADDRESSES
  /\ Forall (may_dial local_proxy scheme) sockets /\ Forall (fun s => ip_wf (sock_ip s)) sockets.
Proof.
  unfold resolve. intros (h & _ & H)%result_bind_Ok. destruct (ip_from_str (bytes h)) as [a|] eqn:Ea.
  - apply resolve_addresses_Ok in H as (-> & Hne & Hd & Hwf); [done|].
    apply Forall_singleton. by apply ip_from_str_wf in Ea.
  - apply result_bind_Ok in H as (set1 & H1 & H). apply result_bind_Ok in H as (set2 & H2 & H).
    apply resolve_record_type_ok in H1; [|by split; [constructor|]].
    apply resolve_record_type_ok in H2 as [Hwf Hlen]; [|done].
    apply resolve_addresses_Ok in H as (-> & Hne & Hd & Hs); [|done]. split_and!; try done.
    unfold len, bt_keys in *. by rewrite !length_fmap.
Qed.

(** C10: fetching never reaches a special-purpose address, whatever the network answers.  For
    any replies of the DNS service and any outcomes of the connections: the resolver gives at
    most as many addresses as it has room for, and when it gives some, the connector dials only
    a prefix of them, each outside the special-purpose blocks, with the one exception of the
    configured loopback proxy for a plain-HTTP request; so an HTTPS request dials public
    addresses only; and a stream is handed on only when its peer is an address that was
    dialled. *)
Theorem fetch_dials_public {Transport : Type} doh_decode doh_get local_proxy no_delay scheme host port addrs n r n' :
  resolve doh_decode doh_get local_proxy scheme host port = Ok addrs ->
  connect (Transport := Transport) local_proxy no_delay scheme addrs None n = (r, n') ->
  len addrs <= MAX_RESOLVED_ADDRESSES
  /\ exists dialled,
       net_dialled n' = net_dialled n ++ dialled /\ dialled `prefix_of` addrs
       /\ Forall (may_dial local_proxy scheme) dialled
       /\ (scheme = Some "https" -> Forall (fun a => special (sock_ip a) = false) dialled)
       /\ r <> Err (UOther (Some SecurityDenied))
       /\ forall stream, r = Ok (inr stream) -> exists a, a ∈ dialled /\ stream_peer stream = Ok a.
Proof.
  intros (Hne & Hlen & Hmay & Hwf)%resolve_Ok. unfold connect.
  rewrite (proj2 (Z.eqb_neq _ _)) by (unfold len; destruct addrs; cbn; [done|lia]). cbn [orb].
  rewrite existsb_none.
  2: { intros a Ha. rewrite Forall_forall in Hmay, Hwf. apply negb_false_iff, allowed_may_dial; auto. }
  destruct (connect_loop _ _ _ _ _) as [r' m] eqn:Ec. intros [= <- <-]. split; [done|].
  pose proof (connect_loop_denied _ _ _ _ _ _ _ Ec) as Hsec.
  apply connect_loop_dials in Ec as (dialled & Hd & Hpre & Hs). exists dialled.
  assert (Forall (may_dial local_proxy scheme) dialled) as Hall.
  { destruct Hpre as [tail ->]. by apply Forall_app in Hmay as [? _]. }
  split_and!; try done.
  - intros ->. eapply Forall_impl; [exact Hall|]. by intros a [?|(? & _)].
  - intros Hr. by destruct r' as [|e]; [|injection Hr as ->].
  - intros stream Hr. destruct r' as [s|]; [injection Hr as ->|]; [by apply Hs|done].
Qed.

(** ** Witness *)
Module SsrfSample.
Definition public : SocketAddr := mkSocket (V4 (v4 [8; 8; 8; 8])) 443.
Definition other : SocketAddr := mkSocket (V4 (v4 [9; 9; 9; 9])) 443.
Definition decode (bs : list Z) : option DohResponse :=
  Some (mkDohResponse 0 (if bool_decide (bs = [65]) then [mkDohRecord 1 "9.9.9.9"; mkDohRecord 5 "x"; mkDohRecord 1 "8.8.8.8"] else [])).
Definition get (host record_type : string) : Result UreqError (Z * Result unit (list Z)) :=
  Ok (200, Ok (if String.eqb record_type "A" then [65] else [])).
Definition net : Net := mkNet [Err ConnectionRefused; Ok (mkStream (Ok other) (Ok tt))] [].
End SsrfSample.
Lemma fetch_dials_public_witness :
  exists r n', connect (Transport := unit) None true (Some "https") [SsrfSample.public; SsrfSample.other] None SsrfSample.net = (r, n')
    /\ net_dialled n' = [SsrfSample.public; SsrfSample.other]
    /\ exists dialled, net_dialled n' = dialled /\ Forall (fun a => special (sock_ip a) = false) dialled.
Proof.
  eexists _, _. split; [vm_compute; reflexivity|]. split; [reflexivity|].
  destruct (fetch_dials_public (Transport := unit) SsrfSample.decode SsrfSample.get None true (Some "https") (Some "a.example") None
              [SsrfSample.public; SsrfSample.other] SsrfSample.net _ _ ltac:(vm_compute; reflexivity) ltac:(vm_compute; reflexivity))
    as (_ & dialled & Hd & _ & _ & Hall & _).
  exists dialled. split; [exact Hd|exact (Hall eq_refl)].
Defined.
