(* ===== verification/Fetch.v ===== *)
(** * Fetch: a subscription is downloaded

    Models crates/nethop-subscription/src/fetch.rs (requests, responses, the cache of a
    source), the redirect loop of crates/nethop-subscription/src/fetch/ureq_adapter.rs
    ([fetch_with_agent]) and crates/nethop-subscription/src/source_url.rs.  The HTTP agent, the
    readers of the bodies, the gzip decoder, the URL library and SHA-256 are parameters; every
    request sent is recorded. *)

From S2P Require Import Prelude Text Ip Source Detect Config Ssrf.

Local Open Scope Z_scope.

(** ** [str::parse::<f64>] *)
(** A double: not a number, an infinity, or [m * 2 ^ e] with a sign. *)
Inductive F64 : Type := F64Nan | F64Inf | F64Finite (negative : bool) (m e : Z).
(** The quotient rounded to the nearest integer, ties to even. *)
Definition round_half_even (n d : Z) : Z :=
  let q := n / d in
  let r := n mod d in
  if 2 * r <? d then q else if d <? 2 * r then q + 1 else q + q mod 2.
(** [num / den] scaled by a power of two. *)
Definition scaled (n d e : Z) : Z * Z := if 0 <=? e then (n, d * 2 ^ e) else (n * 2 ^ (- e), d).
Definition f64_of_ratio (negative : bool) (n d : Z) : F64 :=
  if n =? 0 then F64Finite negative 0 0
  else
    let guess := Z.log2 n - Z.log2 d in
    let '(n', d') := scaled n d guess in
    let magnitude := if n' <? d' then guess - 1 else guess in
    let e := Z.max (magnitude - 52) (-1074) in
    let '(n', d') := scaled n d e in
    let m := round_half_even n' d' in
    if (971 <? e) || ((e =? 971) && (m =? 2 ^ 53)) then F64Inf else F64Finite negative m e.
Definition read_decimal (bs : list Z) : list Z * list Z := read_digits 10 bs.
(** The exponent after [e], with everything consumed. *)
Definition read_exponent (bs : list Z) : option Z :=
  match bs with
  | [] => Some 0
  | b :: rest =>
      if to_ascii_lowercase b =? 101 then
        let '(negative, rest) :=
          match rest with 45 :: r => (true, r) | 43 :: r => (false, r) | _ => (false, rest) end in
        let '(ds, tail) := read_decimal rest in
        match tail with
        | [] => if len ds =? 0 then None else Some (if negative then - of_base 10 ds else of_base 10 ds)
        | _ => None
        end
      else None
  end.
Definition parse_decimal (negative : bool) (bs : list Z) : option F64 :=
  let '(whole, rest) := read_decimal bs in
  let '(fraction, rest) :=
    match rest with 46 :: r => read_decimal r | _ => ([], rest) end in
  if len whole + len fraction =? 0 then None
  else
    exponent ← read_exponent rest;
    let digits := of_base 10 (whole ++ fraction) in
    let power := exponent - len fraction in
    Some (if 0 <=? power then f64_of_ratio negative (digits * 10 ^ power) 1
          else f64_of_ratio negative digits (10 ^ (- power))).
Definition parse_f64 (bs : list Z) : option F64 :=
  let '(negative, rest) :=
    match bs with 45 :: r => (true, r) | 43 :: r => (false, r) | _ => (false, bs) end in
  let word := to_ascii_lowercase <$> rest in
  if bool_decide (word = bytes "nan") then Some F64Nan
  else if bool_decide (word = bytes "inf" \/ word = bytes "infinity") then Some F64Inf
  else parse_decimal negative rest.

(** ** The user info of a subscription *)
Definition MAX_SUBSCRIPTION_USERINFO_BYTES : Z := 1024.
Definition MAX_SUBSCRIPTION_COUNTER : Z := 9007199254740991.
Record SubscriptionUserInfo : Type := mkUserInfo {
  upload_bytes : option Z; download_bytes : option Z; total_bytes : option Z; expire_at : option Z }.
Definition userinfo_default : SubscriptionUserInfo := mkUserInfo None None None None.
Definition used_bytes (i : SubscriptionUserInfo) : option Z :=
  match upload_bytes i, download_bytes i with
  | Some upload, Some download =>
      let sum := upload + download in
      if (sum <=? umax 64) && (sum <=? MAX_SUBSCRIPTION_COUNTER) then Some sum else None
  | _, _ => None
  end.
Definition userinfo_is_empty (i : SubscriptionUserInfo) : bool :=
  negb (is_some (upload_bytes i)) && negb (is_some (download_bytes i)) && negb (is_some (total_bytes i))
  && negb (is_some (expire_at i)).
Definition parse_subscription_number (value : list Z) : option Z :=
  match parse_u64 value with
  | Some number => if number <=? MAX_SUBSCRIPTION_COUNTER then Some number else None
  | None =>
      match parse_f64 value with
      | Some (F64Finite negative m e) =>
          let at_most :=
            if 0 <=? e then m * 2 ^ e <=? MAX_SUBSCRIPTION_COUNTER
            else m <=? MAX_SUBSCRIPTION_COUNTER * 2 ^ (- e) in
          if (negb negative || (m =? 0)) && at_most
          then Some (if 0 <=? e then m * 2 ^ e else m / 2 ^ (- e))
          else None
      | _ => None
      end
  end.
Definition userinfo_field (info : SubscriptionUserInfo) (field : list Z) : SubscriptionUserInfo :=
  match split_once 61 field with
  | None => info
  | Some (name, raw_value) =>
      match parse_subscription_number (trim_text raw_value) with
      | None => info
      | Some number =>
          let name := of_bytes (to_ascii_lowercase <$> trim_text name) in
          if String.eqb name "upload"
          then mkUserInfo (Some number) (download_bytes info) (total_bytes info) (expire_at info)
          else if String.eqb name "download"
          then mkUserInfo (upload_bytes info) (Some number) (total_bytes info) (expire_at info)
          else if String.eqb name "total"
          then mkUserInfo (upload_bytes info) (download_bytes info) (Some number) (expire_at info)
          else if String.eqb name "expire"
          then mkUserInfo (upload_bytes info) (download_bytes info) (total_bytes info)
                 (if in_range 1 i64_max number then Some number else None)
          else info
      end
  end.
Definition parse_subscription_userinfo (value : string) : option SubscriptionUserInfo :=
  if (str_len value =? 0) || (MAX_SUBSCRIPTION_USERINFO_BYTES <? str_len value) then None
  else
    let info := foldl userinfo_field userinfo_default (split_on 59 (bytes value)) in
    if userinfo_is_empty info then None else Some info.

(** ** Policies and errors *)
Definition MAX_MIRRORS : Z := 3.
Definition MAX_REDIRECTS : Z := 3.
Definition MAX_RESPONSE_HEADER_BYTES : Z := 64 * 1024.
Record FetchTimeouts : Type := mkTimeouts {
  to_resolve : Z; to_connect : Z; to_first_byte : Z; to_body : Z; to_total : Z }.
Definition FetchTimeouts_default : FetchTimeouts :=
  mkTimeouts (from_secs 10) (from_secs 10) (from_secs 20) (from_secs 30) (from_secs 30).
Record FetchPolicy : Type := mkPolicy {
  max_redirects : Z; max_mirrors : Z; max_response_header_bytes : Z; fetch_timeouts : FetchTimeouts }.
Definition FetchPolicy_default : FetchPolicy :=
  mkPolicy MAX_REDIRECTS MAX_MIRRORS MAX_RESPONSE_HEADER_BYTES FetchTimeouts_default.
Record FetchAgentConfig : Type := mkAgentConfig {
  ac_https_only : bool; ac_max_redirects : Z; ac_max_idle_connections : Z; ac_max_idle_per_host : Z;
  ac_max_response_header_bytes : Z; ac_tls_verification : bool; ac_environment_proxy : bool }.
Definition FetchAgentConfig_from_policy (policy : FetchPolicy) : FetchAgentConfig :=
  mkAgentConfig true 0 0 0 (max_response_header_bytes policy) true false.
Record LocalFetchProxy : Type := mkProxy { proxy_endpoint : SocketAddr; proxy_username : string; proxy_password : string }.
Definition LocalFetchProxy_new (endpoint : SocketAddr) (username password : string) :
    Result FetchPolicyError LocalFetchProxy :=
  if negb (is_loopback (sock_ip endpoint)) || (sock_port endpoint =? 0) || String.eqb username ""
     || (64 <? str_len username) || bool_decide (58 ∈ bytes username) || has_control (bytes username)
     || negb (in_range 32 128 (str_len password)) || has_control (bytes password)
  then Err InvalidLocalProxy
  else Ok (mkProxy endpoint username password).

Inductive ContentEncoding : Type := Identity | Gzip.
Definition ContentEncoding_from_header (value : option string) : Result FetchPolicyError ContentEncoding :=
  match of_bytes ∘ trim_text ∘ bytes <$> value with
  | None => Ok Identity
  | Some text =>
      if String.eqb text "" || String.eqb text "identity" then Ok Identity
      else if String.eqb text "gzip" then Ok Gzip
      else Err UnsupportedContentEncoding
  end.

Inductive FetchError : Type := FPolicy (e : FetchPolicyError) | FNetwork | FTimeout | FHttpStatus | MirrorsExhausted.
Definition fetch_error (e : FetchPolicyError) : FetchError :=
  if bool_decide (e = ResponseTimeout) then FTimeout else FPolicy e.
Inductive FetchDiagnosticCode : Type :=
| DNetwork | DTimeout | DHttpStatus | DSsrfDenied | DPeerMismatch | DRedirectRejected | DHeadersTooLarge
| DBodyTooLarge | DUnsupportedContentEncoding | DInvalidResponse | DCacheMiss | DFormatRejected | DAcceptedZero
| DMirrorsExhausted.
Definition FetchError_code (e : FetchError) : FetchDiagnosticCode :=
  match e with
  | FNetwork => DNetwork | FTimeout => DTimeout | FHttpStatus => DHttpStatus | MirrorsExhausted => DMirrorsExhausted
  | FPolicy policy =>
      match policy with
      | DeniedAddress => DSsrfDenied
      | PeerMismatch => DPeerMismatch
      | RedirectLimit | InvalidRedirect | NonHttps => DRedirectRejected
      | HeadersTooLarge => DHeadersTooLarge
      | BodyTooLarge => DBodyTooLarge
      | UnsupportedContentEncoding => DUnsupportedContentEncoding
      | ResponseTimeout => DTimeout
      | CacheMiss => DCacheMiss
      | UserInfo | MissingHost | InvalidLocalProxy | InvalidResponseMetadata | TooManyMirrors => DInvalidResponse
      end
  end.
Definition diagnostic_text (c : FetchDiagnosticCode) : string :=
  match c with
  | DNetwork => "fetch_network_error" | DTimeout => "fetch_timeout" | DHttpStatus => "fetch_http_status"
  | DSsrfDenied => "ssrf_address_denied" | DPeerMismatch => "ssrf_peer_mismatch"
  | DRedirectRejected => "fetch_redirect_rejected" | DHeadersTooLarge => "fetch_headers_too_large"
  | DBodyTooLarge => "fetch_body_too_large" | DUnsupportedContentEncoding => "unsupported_content_encoding"
  | DInvalidResponse => "fetch_invalid_response" | DCacheMiss => "fetch_cache_miss"
  | DFormatRejected => "fetch_format_rejected" | DAcceptedZero => "fetch_accepted_zero"
  | DMirrorsExhausted => "fetch_mirrors_exhausted"
  end.
Definition map_ureq_error (e : UreqError) : FetchError :=
  match e with
  | UTimeout => FTimeout
  | UOther (Some SecurityDenied) => FPolicy DeniedAddress
  | UOther (Some SecurityPeerMismatch) => FPolicy PeerMismatch
  | UOther None => FNetwork
  | UStatusCode => FHttpStatus
  | UIo TimedOut => FTimeout
  | _ => FNetwork
  end.
Definition validate_response_limits (header_bytes encoded_body_bytes decoded_body_bytes : Z)
    (policy : FetchPolicy) (limits : ParserLimits) : Result FetchPolicyError unit :=
  if max_response_header_bytes policy <? header_bytes then Err HeadersTooLarge
  else if (max_body_bytes limits <? encoded_body_bytes) || (max_body_bytes limits <? decoded_body_bytes)
  then Err BodyTooLarge
  else Ok tt.

(** ** Reading a body *)
Inductive BodyIoError : Type := BodyTimedOut | BodyUreqTimeout | BodyOther.
Definition map_body_io_error (e : BodyIoError) : FetchPolicyError :=
  match e with BodyTimedOut | BodyUreqTimeout => ResponseTimeout | BodyOther => InvalidResponseMetadata end.
(** [std::io::Read::read] with a buffer of the given size. *)
Class Reader (R : Type) : Type := { read : Z -> R -> Result BodyIoError (list Z) * R }.
Fixpoint read_bounded_loop {R} `{!Reader R} (fuel : nat) (limit : Z) (r : R) (output : list Z) :
    option (Result FetchPolicyError (list Z)) :=
  match fuel with
  | O => None
  | S fuel =>
      let remaining := sat_sub_u limit (len output) in
      let read_limit := Z.min (remaining + 1) (16 * 1024) in
      match read read_limit r with
      | (Err e, _) => Some (Err (map_body_io_error e))
      | (Ok chunk, r) =>
          if len chunk =? 0 then Some (Ok output)
          else if remaining <? len chunk then Some (Err BodyTooLarge)
          else read_bounded_loop fuel limit r (output ++ chunk)
      end
  end.
Definition read_bounded {R} `{!Reader R} (r : R) (limit : Z) : option (Result FetchPolicyError (list Z)) :=
  read_bounded_loop (S (S (Z.to_nat limit))) limit r [].

(** ** The cache of a source *)
Record FetchOutcome : Type := mkFetched {
  fo_body : list Z;
  fo_endpoint_primary : bool;
  fo_endpoint_digest : list Z;
  fo_content_type : option string;
  fo_etag : option string;
  fo_last_modified : option string;
  fo_userinfo : option SubscriptionUserInfo;
  fo_not_modified : bool;
}.
Record SourceCache : Type := mkSourceCache {
  ca_etag : option string;
  ca_last_modified : option string;
  ca_validator_endpoint : option (list Z);
  ca_last_known_good : option (list Z);
  ca_userinfo : option SubscriptionUserInfo;
}.
Definition SourceCache_default : SourceCache := mkSourceCache None None None None None.
Definition conditional_headers (c : SourceCache) : list (string * string) :=
  match ca_etag c with Some etag => [("If-None-Match", etag)] | None => [] end
  ++ match ca_last_modified c with Some modified => [("If-Modified-Since", modified)] | None => [] end.
Definition conditional_headers_for (c : SourceCache) (endpoint_digest : list Z) : list (string * string) :=
  if bool_decide (ca_validator_endpoint c = Some endpoint_digest) then conditional_headers c else [].
Definition valid_validator (value : string) : bool :=
  negb (String.eqb value "") && (str_len value <=? 8 * 1024)
  && negb (existsb (fun b => is_ascii_control b || (b =? 127)) (bytes value)).
Definition cache_restore (c : SourceCache) (body : list Z) (etag last_modified : option string)
    (validator_endpoint : list Z) (limits : ParserLimits) : Result FetchPolicyError SourceCache :=
  if (max_body_bytes limits <? len body) || is_some_and (negb ∘ valid_validator) etag
     || is_some_and (negb ∘ valid_validator) last_modified
  then Err InvalidResponseMetadata
  else Ok (mkSourceCache etag last_modified (Some validator_endpoint) (Some body) (ca_userinfo c)).
Definition apply_success (c : SourceCache) (body : list Z) (etag last_modified : option string)
    (limits : ParserLimits) : Result FetchPolicyError SourceCache :=
  if max_body_bytes limits <? len body then Err BodyTooLarge
  else Ok (mkSourceCache etag last_modified None (Some body) (ca_userinfo c)).
Definition cache_commit (c : SourceCache) (o : FetchOutcome) (limits : ParserLimits) :
    Result FetchPolicyError SourceCache :=
  if fo_not_modified o then Ok c
  else if max_body_bytes limits <? len (fo_body o) then Err BodyTooLarge
  else Ok (mkSourceCache (fo_etag o) (fo_last_modified o) (Some (fo_endpoint_digest o)) (Some (fo_body o)) (fo_userinfo o)).
Definition apply_not_modified (c : SourceCache) : Result FetchPolicyError (list Z) :=
  ok_or (ca_last_known_good c) CacheMiss.

(** ** Endpoints *)
(** [url::Url]: its text ([as_str]) and its parts. *)
Record Url : Type := mkFetchUrl { url_text : string; url_parts : ParsedUrl }.
Inductive FetchEndpointKind : Type := Primary | Mirror.
Record FetchEndpoint : Type := mkEndpoint { ep_url : Url; ep_kind : FetchEndpointKind }.
Definition is_primary (k : FetchEndpointKind) : bool := match k with Primary => true | Mirror => false end.
Record FetchRequest : Type := mkFetchRequest {
  fr_source_id : SourceId; fr_endpoints : list FetchEndpoint; fr_profile : RequestProfile }.
Definition user_agent (p : RequestProfile) : string :=
  match p with
  | NetHopGeneric => "NetHop/0.1" | Mihomo => "clash.meta" | ClashStandard => "clash" | Surfboard => "Surfboard"
  | SingBox => "sing-box" | SingBoxAndroid => "SFA"
  end.
Definition accept (p : RequestProfile) : string :=
  match p with
  | NetHopGeneric => "*/*" | Mihomo | ClashStandard => "application/yaml, text/yaml, */*"
  | Surfboard => "text/plain, */*" | SingBox | SingBoxAndroid => "application/json, */*"
  end.

(** ** Requests and responses *)
Record HttpRequest : Type := mkHttpRequest { rq_url : string; rq_headers : list (string * string) }.
Record Response (R : Type) : Type := mkResponse {
  rs_status : Z; rs_headers : list (string * list Z); rs_body : R }.
Arguments mkResponse {R}.
Arguments rs_status {R}.
Arguments rs_headers {R}.
Arguments rs_body {R}.
(** [headers().get(name)]: the first value; names are lower-case. *)
Definition header {R} (name : string) (r : Response R) : option (list Z) :=
  snd <$> List.find (fun h => String.eqb h.1 name) (rs_headers r).
(** [HeaderValue::to_str]: visible ASCII and tabs. *)
Definition header_str (value : list Z) : option string :=
  if forallb (fun b => in_range 32 126 b || (b =? 9)) value then Some (of_bytes value) else None.
Definition bounded_header {R} (r : Response R) (name : string) : Result FetchPolicyError (option string) :=
  match header name r with
  | None => Ok None
  | Some value =>
      text ← ok_or (header_str value) InvalidResponseMetadata;
      if 8 * 1024 <? str_len text then Err InvalidResponseMetadata else Ok (Some text)
  end.
(** [parse::<usize>], of 64 bits. *)
Definition content_length {R} (r : Response R) : Result FetchPolicyError (option Z) :=
  match header "content-length" r with
  | None => Ok None
  | Some value =>
      length ← ok_or (header_str value ≫= parse_u64 ∘ bytes) InvalidResponseMetadata;
      Ok (Some length)
  end.
(** The HTTP agent, with or without a proxy: one request, without following redirects. *)
Class HttpAgent (A R : Type) : Type := {
  call : option LocalFetchProxy -> HttpRequest -> A -> Result UreqError (Response R) * A }.
(** The agent with every request it was given. *)
Record Wire (A : Type) : Type := mkWire { wire_agent : A; wire_log : list HttpRequest }.
Arguments mkWire {A}.
Arguments wire_agent {A}.
Arguments wire_log {A}.
Definition send {A R} `{!HttpAgent A R} (proxy : option LocalFetchProxy) (request : HttpRequest) (w : Wire A) :
    Result UreqError (Response R) * Wire A :=
  let (answer, agent) := call proxy request (wire_agent w) in (answer, mkWire agent (wire_log w ++ [request])).

(** ** Endpoints in order *)
Inductive CandidateAcceptance : Type := CandAccepted | CandFormatRejected | CandAcceptedZero.
#[export] Instance CandidateAcceptance_eq_dec : EqDecision CandidateAcceptance.
Proof. solve_decision. Defined.
Fixpoint executor_loop {W} (execute : FetchEndpoint -> W -> option (Result FetchError FetchOutcome * W))
    (inspect : list Z -> CandidateAcceptance) (endpoints : list FetchEndpoint) (last_error : option FetchError) (w : W) :
    option (Result FetchError FetchOutcome * W) :=
  match endpoints with
  | [] => Some (Err (default MirrorsExhausted last_error), w)
  | endpoint :: rest =>
      '(answer, w) ← execute endpoint w;
      match answer with
      | Err error => executor_loop execute inspect rest (Some error) w
      | Ok outcome =>
          if bool_decide (inspect (fo_body outcome) = CandAccepted) then Some (Ok outcome, w)
          else executor_loop execute inspect rest last_error w
      end
  end.
Definition fetch_with_executor {W} (request : FetchRequest)
    (execute : FetchEndpoint -> W -> option (Result FetchError FetchOutcome * W))
    (inspect : list Z -> CandidateAcceptance) (w : W) : option (Result FetchError FetchOutcome * W) :=
  executor_loop execute inspect (fr_endpoints request) None w.

Section fetch.
Context (url_parse : string -> option Url) (url_join : Url -> string -> option Url).
Context (sha256 : list Z -> list Z).
Context {A R G : Type} `{!HttpAgent A R, !Reader R, !Reader G} (gz_new : list Z -> G).

Definition validate_source_url (value : string) : Result FetchPolicyError Url :=
  url ← ok_or (url_parse value) MissingHost;
  let parts := url_parts url in
  if negb (String.eqb (url_scheme parts) "https") then Err NonHttps
  else if negb (String.eqb (url_username parts) "") || is_some (url_password parts) then Err UserInfo
  else if negb (is_some (url_host parts)) then Err MissingHost
  else Ok url.
Definition validate_fetch_url := validate_source_url.
Fixpoint mirror_endpoints (policy : FetchPolicy) (endpoints : list FetchEndpoint) (mirrors : list string) :
    Result FetchPolicyError (list FetchEndpoint) :=
  match mirrors with
  | [] => Ok endpoints
  | mirror :: rest =>
      if max_mirrors policy <? len endpoints then Err TooManyMirrors
      else
        url ← validate_fetch_url mirror;
        mirror_endpoints policy (endpoints ++ [mkEndpoint url Mirror]) rest
  end.
Definition FetchRequest_new (source_id : SourceId) (primary : string) (mirrors : list string)
    (profile : RequestProfile) (policy : FetchPolicy) : Result FetchPolicyError FetchRequest :=
  url ← validate_fetch_url primary;
  endpoints ← mirror_endpoints policy [mkEndpoint url Primary] mirrors;
  Ok (mkFetchRequest source_id endpoints profile).
Definition origin_digest (e : FetchEndpoint) : list Z := sha256 (bytes (url_text (ep_url e))).
Definition next_redirect (current : Url) (location : string) (redirects_seen : Z) (policy : FetchPolicy) :
    Result FetchPolicyError Url :=
  if max_redirects policy <=? redirects_seen then Err RedirectLimit
  else
    target ← ok_or (url_join current location) InvalidRedirect;
    validate_fetch_url (url_text target).

Definition decode_response_body (reader : R) (encoding : ContentEncoding) (encoded_length : option Z)
    (limits : ParserLimits) : option (Result FetchPolicyError (list Z)) :=
  if is_some_and (Z.ltb (max_body_bytes limits)) encoded_length then Some (Err BodyTooLarge)
  else
    encoded ← read_bounded reader (max_body_bytes limits);
    match encoded with
    | Err e => Some (Err e)
    | Ok encoded =>
        match encoding with
        | Identity => Some (Ok encoded)
        | Gzip => read_bounded (gz_new encoded) (max_body_bytes limits)
        end
    end.

(** What the headers of a final response say. *)
Record Metadata : Type := mkMetadata {
  md_length : option Z; md_encoding : ContentEncoding; md_etag : option string; md_modified : option string;
  md_type : option string; md_userinfo : option SubscriptionUserInfo }.
Definition response_metadata (limits : ParserLimits) (r : Response R) : Result FetchPolicyError Metadata :=
  encoded_length ← content_length r;
  if is_some_and (Z.ltb (max_body_bytes limits)) encoded_length then Err BodyTooLarge
  else
    encoding ← ContentEncoding_from_header (header "content-encoding" r ≫= header_str);
    etag ← bounded_header r "etag";
    last_modified ← bounded_header r "last-modified";
    content_type ← bounded_header r "content-type";
    Ok (mkMetadata encoded_length encoding etag last_modified content_type
          ((header "subscription-userinfo" r ≫= header_str) ≫= parse_subscription_userinfo)).
Definition is_redirect (status : Z) : bool :=
  bool_decide (status ∈ [301; 302; 303; 307; 308]).
Definition request_for (profile : RequestProfile) (cache : SourceCache) (current : Url) : HttpRequest :=
  mkHttpRequest (url_text current)
    ([("User-Agent", user_agent profile); ("Accept", accept profile); ("Accept-Encoding", "gzip")]
     ++ conditional_headers_for cache (sha256 (bytes (url_text current)))).
(** The body of a final response. *)
Definition final_response (kind : FetchEndpointKind) (endpoint_digest : list Z) (limits : ParserLimits)
    (response : Response R) : option (Result FetchError FetchOutcome) :=
  match response_metadata limits response with
  | Err e => Some (Err (fetch_error e))
  | Ok md =>
      body ← decode_response_body (rs_body response) (md_encoding md) (md_length md) limits;
      Some (body ← map_err fetch_error body;
            Ok (mkFetched body (is_primary kind) endpoint_digest (md_type md) (md_etag md) (md_modified md)
                  (md_userinfo md) false))
  end.
(** One turn of the loop: a result, or the URL to go on with. *)
Definition fetch_turn (kind : FetchEndpointKind) (cache : SourceCache) (policy : FetchPolicy)
    (limits : ParserLimits) (current : Url) (redirects_seen : Z) (response : Response R) :
    option (Result FetchError (FetchOutcome + Url)) :=
  let endpoint_digest := sha256 (bytes (url_text current)) in
  let status := rs_status response in
  if status =? 304 then
    Some (body ← map_err fetch_error (apply_not_modified cache);
          Ok (inl (mkFetched body (is_primary kind) endpoint_digest None None None (ca_userinfo cache) true)))
  else if is_redirect status then
    Some (location ← map_err fetch_error (ok_or (header "location" response ≫= header_str) InvalidRedirect);
          url ← map_err fetch_error (next_redirect current location redirects_seen policy);
          Ok (inr url))
  else if negb (in_range 200 299 status) then Some (Err FHttpStatus)
  else
    outcome ← final_response kind endpoint_digest limits response;
    Some (outcome ← outcome; Ok (inl outcome)).
(** [None]: out of fuel. *)
Fixpoint fetch_loop (fuel : nat) (proxy : option LocalFetchProxy) (kind : FetchEndpointKind) (profile : RequestProfile) (cache : SourceCache)
    (policy : FetchPolicy) (limits : ParserLimits) (current : Url) (redirects_seen : Z) (w : Wire A) :
    option (Result FetchError FetchOutcome * Wire A) :=
  match fuel with
  | O => None
  | S fuel =>
      match send proxy (request_for profile cache current) w with
      | (Err e, w) => Some (Err (map_ureq_error e), w)
      | (Ok response, w) =>
          turn ← fetch_turn kind cache policy limits current redirects_seen response;
          match turn with
          | Err e => Some (Err e, w)
          | Ok (inl outcome) => Some (Ok outcome, w)
          | Ok (inr url) => fetch_loop fuel proxy kind profile cache policy limits url (redirects_seen + 1) w
          end
      end
  end.
Definition fetch_with_agent (proxy : option LocalFetchProxy) (endpoint : FetchEndpoint) (profile : RequestProfile)
    (cache : SourceCache) (policy : FetchPolicy) (limits : ParserLimits) (w : Wire A) :
    option (Result FetchError FetchOutcome * Wire A) :=
  fetch_loop (S (Z.to_nat (max_redirects policy))) proxy (ep_kind endpoint) profile cache policy limits
    (ep_url endpoint) 0 w.


(** [FetchClient]: through the local proxy when there is one, then directly. *)
Record FetchClient : Type := mkClient {
  cl_policy : FetchPolicy; cl_limits : ParserLimits; cl_proxy : option LocalFetchProxy }.
Definition client_execute (client : FetchClient) (profile : RequestProfile) (cache : SourceCache)
    (endpoint : FetchEndpoint) (w : Wire A) : option (Result FetchError FetchOutcome * Wire A) :=
  let direct w := fetch_with_agent None endpoint profile cache (cl_policy client) (cl_limits client) w in
  match cl_proxy client with
  | None => direct w
  | Some proxy =>
      '(answer, w) ← fetch_with_agent (Some proxy) endpoint profile cache (cl_policy client) (cl_limits client) w;
      match answer with
      | Ok outcome => Some (Ok outcome, w)
      | Err _ => direct w
      end
  end.
Definition FetchClient_fetch (client : FetchClient) (request : FetchRequest) (cache : SourceCache)
    (inspect : list Z -> CandidateAcceptance) (w : Wire A) : option (Result FetchError FetchOutcome * Wire A) :=
  fetch_with_executor request (client_execute client (fr_profile request) cache) inspect w.
End fetch.

(** ** Facts: reading *)
(** A reader that gives all of its contents without failing. *)
Class FullReader (R : Type) `{!Reader R} : Type := {
  contents : R -> list Z;
  read_full : forall n r, 0 < n -> exists chunk r',
    read n r = (Ok chunk, r') /\ contents r = chunk ++ contents r' /\ len chunk <= n
    /\ (chunk = [] -> contents r = []) }.
(** A byte slice. *)
#[export] Instance Reader_slice : Reader (list Z) :=
  {| read n r := (Ok (take (Z.to_nat n) r), drop (Z.to_nat n) r) |}.
#[export, program] Instance Reader_slice_full : FullReader (list Z) := {| contents r := r |}.
Next Obligation.
  intros n r Hn. exists (take (Z.to_nat n) r), (drop (Z.to_nat n) r).
  split_and!; [done|by rewrite take_drop|unfold len; rewrite length_take; lia|].
  destruct r; [done|]. by replace (Z.to_nat n) with (S (Z.to_nat (n - 1))) by lia.
Qed.

Lemma read_loop_total {R} `{!Reader R} fuel limit (r : R) output :
  len output <= limit -> (S (Z.to_nat limit) - length output < fuel)%nat ->
  exists res, read_bounded_loop fuel limit r output = Some res /\ forall out, res = Ok out -> len out <= limit.
Proof.
  revert r output. induction fuel as [|fuel IH]; intros r output Hlen Hf; [lia|]. cbn [read_bounded_loop].
  unfold sat_sub_u. destruct (read _ r) as [[chunk|e] r'] eqn:Er; [|by eexists].
  split_if Hz; [eexists; split; [done|]; by intros ? [= <-]|].
  split_if Hm; [by eexists|]. apply Z.eqb_neq in Hz. apply Z.ltb_ge in Hm.
  apply IH; unfold len in *; rewrite length_app; lia.
Qed.
Lemma read_bounded_total {R} `{!Reader R} (r : R) limit : 0 <= limit ->
  exists res, read_bounded r limit = Some res /\ forall out, res = Ok out -> len out <= limit.
Proof. intros Hl. apply read_loop_total; [done|cbn; lia]. Qed.
Lemma read_loop_exact {R} `{!Reader R, !FullReader R} fuel limit (r : R) output :
  len output <= limit -> (S (Z.to_nat limit) - length output < fuel)%nat ->
  read_bounded_loop fuel limit r output
  = Some (if len output + len (contents r) <=? limit then Ok (output ++ contents r) else Err BodyTooLarge).
Proof.
  revert r output. induction fuel as [|fuel IH]; intros r output Hlen Hf; [lia|]. cbn [read_bounded_loop].
  unfold sat_sub_u. assert (0 < Z.min (Z.max 0 (limit - len output) + 1) (16 * 1024)) as Hpos by lia.
  destruct (read_full _ r Hpos) as (chunk & r' & -> & Hc & Hl & He). rewrite Hc.
  split_if Hz.
  - apply Z.eqb_eq in Hz. destruct chunk; [|by unfold len in Hz; cbn in Hz; lia].
    rewrite He in Hc by done. cbn in Hc. rewrite <- Hc. cbn. rewrite app_nil_r, Z.add_0_r.
    by rewrite (proj2 (Z.leb_le _ _)).
  - apply Z.eqb_neq in Hz. split_if Hm.
    + apply Z.ltb_lt in Hm. rewrite (proj2 (Z.leb_gt _ _)); [done|]. unfold len in *. rewrite length_app. lia.
    + apply Z.ltb_ge in Hm. rewrite IH; [|unfold len in *; rewrite length_app; lia..].
      rewrite <- app_assoc. replace (len (output ++ chunk) + _) with (len output + len (chunk ++ contents r')); [done|].
      unfold len. rewrite !length_app. lia.
Qed.
Lemma read_bounded_exact {R} `{!Reader R, !FullReader R} (r : R) limit : 0 <= limit ->
  read_bounded r limit = Some (if len (contents r) <=? limit then Ok (contents r) else Err BodyTooLarge).
Proof. intros Hl. unfold read_bounded. rewrite read_loop_exact; [done|done|cbn; lia]. Qed.

(** ** Facts: counters *)
Definition counter_ok (v : option Z) : Prop := forall n, v = Some n -> 0 <= n <= MAX_SUBSCRIPTION_COUNTER.
Record userinfo_ok (i : SubscriptionUserInfo) : Prop := {
  uo_upload : counter_ok (upload_bytes i);
  uo_download : counter_ok (download_bytes i);
  uo_total : counter_ok (total_bytes i);
  uo_expire : forall n, expire_at i = Some n -> 0 < n <= i64_max;
}.
Lemma round_half_even_nonneg n d : 0 <= n -> 0 < d -> 0 <= round_half_even n d.
Proof.
  intros Hn Hd. unfold round_half_even. assert (0 <= n / d) by by apply Z.div_pos.
  assert (0 <= n / d mod 2) by by apply Z.mod_pos_bound. repeat case_match; lia.
Qed.
Lemma f64_nonneg negative n d neg m e :
  0 <= n -> 0 < d -> f64_of_ratio negative n d = F64Finite neg m e -> 0 <= m.
Proof.
  intros Hn Hd. unfold f64_of_ratio. split_if Hz; [by intros [= _ <- _]|].
  destruct (scaled n d (Z.log2 n - Z.log2 d)) as [n1 d1].
  assert (forall k, 0 <= (scaled n d k).1 /\ 0 < (scaled n d k).2) as Hs.
  { intros k. unfold scaled. destruct (0 <=? k) eqn:Ek; cbn [fst snd].
    - apply Z.leb_le in Ek. split; [done|]. by apply Z.mul_pos_pos, Z.pow_pos_nonneg.
    - apply Z.leb_gt in Ek. split; [|done]. by apply Z.mul_nonneg_nonneg, Z.pow_nonneg. }
  specialize (Hs (Z.max ((if n1 <? d1 then Z.log2 n - Z.log2 d - 1 else Z.log2 n - Z.log2 d) - 52) (-1074))).
  destruct (scaled n d _) as [n2 d2]. cbn [fst snd] in Hs. destruct Hs. case_match; [done|]. intros [= _ <- _].
  by apply round_half_even_nonneg.
Qed.
Lemma parse_decimal_nonneg negative bs neg m e : parse_decimal negative bs = Some (F64Finite neg m e) -> 0 <= m.
Proof.
  unfold parse_decimal, read_decimal. destruct (read_digits 10 bs) as [whole rest] eqn:Ew.
  assert (exists fraction rest', (match rest with 46 :: r => read_digits 10 r | _ => ([], rest) end) = (fraction, rest')
    /\ Forall (fun d => 0 <= d < 10) fraction) as (fraction & rest' & -> & Hf).
  { assert (forall r, exists f r', read_digits 10 r = (f, r') /\ Forall (fun d => 0 <= d < 10) f) as Hr.
    { intros r. destruct (read_digits 10 r) as [f r'] eqn:E. exists f, r'. split; [done|]. by eapply read_digits_range. }
    assert (exists f r', ([] : list Z, rest) = (f, r') /\ Forall (fun d => 0 <= d < 10) f) as Hn by by eexists _, _.
    repeat case_match; auto. }
  case_match; [done|]. apply read_digits_range in Ew.
  assert (0 <= of_base 10 (whole ++ fraction)) as Hd by (apply of_base_range; [done|by apply Forall_app]).
  destruct (read_exponent rest') as [x|]; cbn [mbind option_bind]; [|done]. intros [= Hr].
  assert (forall p, 0 <= p -> 0 <= 10 ^ p) by (intros; apply Z.pow_nonneg; lia).
  case_match; eapply f64_nonneg in Hr; try done; [by apply Z.mul_nonneg_nonneg; [|apply Z.pow_nonneg]|].
  apply Z.pow_pos_nonneg; lia.
Qed.
Lemma parse_number_range bs n : parse_subscription_number bs = Some n -> 0 <= n <= MAX_SUBSCRIPTION_COUNTER.
Proof.
  unfold parse_subscription_number. destruct (parse_u64 bs) as [k|] eqn:Eu.
  { apply parse_u64_range in Eu. split_if Hk; [|done]. intros [= <-]. apply Z.leb_le in Hk. lia. }
  destruct (parse_f64 bs) as [[| |neg m e]|] eqn:Ef; try done. split_if Hm; [|done]. intros [= <-].
  apply andb_true_iff in Hm as [_ Hm].
  assert (0 <= m) as Hpos.
  { unfold parse_f64 in Ef. repeat case_match; simplify_eq; by eapply parse_decimal_nonneg. }
  assert (forall p, 0 <= p -> 0 < 2 ^ p) as Hpow by (intros; apply Z.pow_pos_nonneg; lia).
  destruct (0 <=? e) eqn:Ee; apply Z.leb_le in Hm.
  - apply Z.leb_le in Ee. split; [|done]. specialize (Hpow e Ee). nia.
  - apply Z.leb_gt in Ee. specialize (Hpow (- e) ltac:(lia)). split; [by apply Z.div_pos|].
    apply Z.div_le_upper_bound; lia.
Qed.
Lemma userinfo_field_ok i field : userinfo_ok i -> userinfo_ok (userinfo_field i field).
Proof.
  intros [Hu Hd Ht He]. unfold userinfo_field. destruct (split_once 61 field) as [[name raw]|]; [|done].
  destruct (parse_subscription_number _) as [n|] eqn:En; [|done]. apply parse_number_range in En.
  assert (counter_ok (Some n)) by (by intros ? [= <-]).
  repeat case_match; try done; split; cbn; try done. intros k [= <-]. unfold in_range in *. lia.
Qed.
(** What the header of a provider can make of the counters. *)
Lemma userinfo_bounded value i : parse_subscription_userinfo value = Some i ->
  userinfo_ok i /\ counter_ok (used_bytes i) /\ userinfo_is_empty i = false.
Proof.
  unfold parse_subscription_userinfo. split_if Hl; [done|]. split_if He; [done|]. intros [= <-].
  assert (forall fields j, userinfo_ok j -> userinfo_ok (foldl userinfo_field j fields)) as Hfold.
  { intros fields. induction fields as [|f rest IH]; intros j Hj; [done|]. by apply IH, userinfo_field_ok. }
  assert (userinfo_ok userinfo_default) as H0 by (by split).
  pose proof (Hfold (split_on 59 (bytes value)) _ H0) as Hok. split_and!; [done| |done].
  destruct Hok as [Hu Hd _ _]. unfold used_bytes. intros n. destruct (upload_bytes _) as [u|]; [|done].
  destruct (download_bytes _) as [d|]; [|done]. split_if Hs; [|done]. intros [= <-].
  apply andb_true_iff in Hs as [_ Hs%Z.leb_le]. specialize (Hu u eq_refl). specialize (Hd d eq_refl). lia.
Qed.

(** ** Facts: requests *)
Definition fetchable (u : Url) : Prop :=
  url_scheme (url_parts u) = "https" /\ url_username (url_parts u) = "" /\ url_password (url_parts u) = None
  /\ is_some (url_host (url_parts u)) = true.

Section fetch_facts.
Context (url_parse : string -> option Url) (url_join : Url -> string -> option Url).
Context (sha256 : list Z -> list Z).
Context {A R G : Type} `{!HttpAgent A R, !Reader R, !Reader G} (gz_new : list Z -> G).
#[local] Abbreviation WithAgent := (fetch_with_agent url_parse url_join sha256 gz_new).
#[local] Abbreviation ClientFetch := (FetchClient_fetch url_parse url_join sha256 gz_new).

Lemma validated_fetchable value u : validate_source_url url_parse value = Ok u -> fetchable u.
Proof.
  unfold validate_source_url. intros (v & _ & H)%result_bind_Ok.
  split_if_in H Hs; [done|]. apply negb_false_iff, String.eqb_eq in Hs.
  split_if_in H Hu; [done|]. apply orb_false_iff in Hu as [Hu%negb_false_iff%String.eqb_eq Hp].
  split_if_in H Hh; [done|]. apply negb_false_iff in Hh. injection H as <-. split_and!; try done.
  by destruct (url_password _).
Qed.
Lemma mirror_endpoints_ok policy endpoints mirrors endpoints' :
  Forall (fetchable ∘ ep_url) endpoints -> len endpoints <= 1 + max_mirrors policy ->
  mirror_endpoints url_parse policy endpoints mirrors = Ok endpoints' ->
  Forall (fetchable ∘ ep_url) endpoints' /\ len endpoints' <= 1 + max_mirrors policy.
Proof.
  revert endpoints. induction mirrors as [|m rest IH]; intros endpoints Hall Hlen; cbn; [by intros [= <-]|].
  split_if Hm; [done|]. apply Z.ltb_ge in Hm. intros (u & Hu%validated_fetchable & H)%result_bind_Ok.
  apply IH in H; [done|by apply Forall_app; split; [|constructor]|].
  unfold len in *. rewrite length_app. cbn. lia.
Qed.
Lemma request_endpoints source_id primary mirrors profile policy request :
  0 <= max_mirrors policy -> FetchRequest_new url_parse source_id primary mirrors profile policy = Ok request ->
  Forall (fetchable ∘ ep_url) (fr_endpoints request) /\ len (fr_endpoints request) <= 1 + max_mirrors policy.
Proof.
  unfold FetchRequest_new. intros Hm (u & Hu%validated_fetchable & H)%result_bind_Ok.
  apply result_bind_Ok in H as (endpoints & He & [= <-]). cbn.
  apply mirror_endpoints_ok in He; [done|by constructor|]. unfold len. cbn. lia.
Qed.

(** What may be sent for a source: its URLs are plain HTTPS, and the validators of a cached
    body go only to the URL the body came from. *)
Record safe_request (cache : SourceCache) (rq : HttpRequest) : Prop := {
  sr_url : exists u, fetchable u /\ rq_url rq = url_text u;
  sr_validators : forall h, h ∈ rq_headers rq -> h.1 = "If-None-Match" \/ h.1 = "If-Modified-Since" ->
    ca_validator_endpoint cache = Some (sha256 (bytes (rq_url rq)));
}.
Lemma request_for_safe profile cache u : fetchable u -> safe_request cache (request_for sha256 profile cache u).
Proof.
  intros Hu. split; [by exists u|]. unfold request_for. cbn [rq_headers rq_url]. intros h Hin Hname.
  apply elem_of_app in Hin as [Hin|Hin].
  - rewrite !elem_of_cons in Hin. destruct Hin as [->|[->|[->|Hin]]]; try (by destruct Hname). by apply elem_of_nil in Hin.
  - unfold conditional_headers_for in Hin. case_bool_decide; [done|]. by apply elem_of_nil in Hin.
Qed.

(** A body obtained for [cache]: bounded, and the cached one when nothing was modified. *)
Definition body_ok (cache : SourceCache) (limits : ParserLimits) (o : FetchOutcome) : Prop :=
  if fo_not_modified o then ca_last_known_good cache = Some (fo_body o)
  else len (fo_body o) <= max_body_bytes limits.
Lemma decode_total (reader : R) encoding encoded_length limits :
  0 <= max_body_bytes limits ->
  exists res, decode_response_body gz_new reader encoding encoded_length limits = Some res
    /\ forall out, res = Ok out -> len out <= max_body_bytes limits.
Proof.
  intros Hm. unfold decode_response_body. case_match; [by eexists|].
  destruct (read_bounded_total reader _ Hm) as (res & -> & Hres). cbn [mbind option_bind].
  destruct res as [encoded|e]; [|by eexists]. destruct encoding; [by eexists|]. by apply read_bounded_total.
Qed.
Lemma fetch_turn_cases kind cache policy limits current seen (response : Response R) :
  0 <= max_body_bytes limits ->
  exists turn, fetch_turn url_parse url_join sha256 gz_new kind cache policy limits current seen response = Some turn
    /\ match turn with
       | Err _ => True
       | Ok (inl o) => body_ok cache limits o
       | Ok (inr u) => fetchable u /\ seen < max_redirects policy
       end.
Proof.
  intros Hm. unfold fetch_turn. case_match; [|case_match; [|case_match]].
  - unfold apply_not_modified. destruct (ca_last_known_good cache) eqn:Ec; cbn; eexists; split; done.
  - eexists. split; [done|]. destruct (ok_or _ _); cbn; [|done].
    unfold next_redirect. split_if Hr; cbn; [done|]. apply Z.leb_gt in Hr.
    destruct (url_join _ _); cbn; [|done].
    destruct (validate_fetch_url _ _) as [v|] eqn:Ev; cbn; [|done]. by apply validated_fetchable in Ev.
  - by eexists.
  - unfold final_response. destruct (response_metadata _ _); cbn; [|by eexists].
    destruct (decode_total (rs_body response) (md_encoding a) (md_length a) limits Hm) as (res & -> & Hres).
    cbn. destruct res as [out|e]; cbn; eexists; (split; [done|]); [|done]. by apply Hres.
Qed.
Lemma fetch_loop_facts proxy kind profile cache policy limits fuel current seen (w : Wire A) :
  0 <= max_body_bytes limits -> fetchable current -> 0 <= seen <= max_redirects policy ->
  (Z.to_nat (max_redirects policy - seen) < fuel)%nat ->
  exists r w' sent, fetch_loop url_parse url_join sha256 gz_new fuel proxy kind profile cache policy limits current seen w
      = Some (r, w')
    /\ wire_log w' = wire_log w ++ sent /\ Forall (safe_request cache) sent
    /\ 1 <= len sent <= max_redirects policy - seen + 1
    /\ forall o, r = Ok o -> body_ok cache limits o.
Proof.
  intros Hm. revert current seen w. induction fuel as [|fuel IH]; intros current seen w Hu Hs Hf; [lia|].
  cbn [fetch_loop]. set (rq := request_for sha256 profile cache current).
  assert (safe_request cache rq) as Hsafe by by apply request_for_safe.
  destruct (send proxy rq w) as [answer w1] eqn:Esend.
  assert (wire_log w1 = wire_log w ++ [rq]) as Hlog.
  { unfold send in Esend. destruct (call _ _ _). by injection Esend as <- <-. }
  assert (forall r : Result FetchError FetchOutcome, (forall o, r = Ok o -> body_ok cache limits o) ->
    exists r' w' sent, Some (r, w1) = Some (r', w') /\ wire_log w' = wire_log w ++ sent /\ Forall (safe_request cache) sent
      /\ 1 <= len sent <= max_redirects policy - seen + 1 /\ forall o, r' = Ok o -> body_ok cache limits o) as Hstop.
  { intros r Hr. exists r, w1, [rq]. split_and!; try done; [by constructor|unfold len; cbn; lia]. }
  destruct answer as [response|e]; [|by apply Hstop].
  destruct (fetch_turn_cases kind cache policy limits current seen response Hm) as (turn & -> & Hturn). cbn [mbind option_bind].
  destruct turn as [[o|u]|e]; [apply Hstop; by intros ? [= <-]| |by apply Hstop].
  destruct Hturn as [Hu' Hlt].
  destruct (IH u (seen + 1) w1 Hu' ltac:(lia) ltac:(lia)) as (r & w' & sent & -> & Hl & Hall & Hn & Hb).
  exists r, w', (rq :: sent). split_and!; try done.
  - by rewrite Hl, Hlog, <- app_assoc.
  - by constructor.
  - unfold len in *. cbn. lia.
  - unfold len in *. cbn. lia.
Qed.
Lemma fetch_with_agent_facts proxy endpoint profile cache policy limits (w : Wire A) :
  0 <= max_body_bytes limits -> 0 <= max_redirects policy -> fetchable (ep_url endpoint) ->
  exists r w' sent, WithAgent proxy endpoint profile cache policy limits w = Some (r, w')
    /\ wire_log w' = wire_log w ++ sent /\ Forall (safe_request cache) sent
    /\ 1 <= len sent <= max_redirects policy + 1
    /\ forall o, r = Ok o -> body_ok cache limits o.
Proof.
  intros Hm Hr Hu.
  destruct (fetch_loop_facts proxy (ep_kind endpoint) profile cache policy limits (S (Z.to_nat (max_redirects policy)))
              (ep_url endpoint) 0 w Hm Hu ltac:(lia) ltac:(lia)) as (r & w' & sent & Hf & Hl & Hall & Hn & Hb).
  exists r, w', sent. split_and!; try done; lia.
Qed.

(** One endpoint, by both ways out: at most twice the requests of one way. *)
Lemma client_execute_facts client profile cache endpoint (w : Wire A) :
  0 <= max_body_bytes (cl_limits client) -> 0 <= max_redirects (cl_policy client) -> fetchable (ep_url endpoint) ->
  exists r w' sent, client_execute url_parse url_join sha256 gz_new client profile cache endpoint w = Some (r, w')
    /\ wire_log w' = wire_log w ++ sent /\ Forall (safe_request cache) sent
    /\ len sent <= 2 * (max_redirects (cl_policy client) + 1)
    /\ forall o, r = Ok o -> body_ok cache (cl_limits client) o.
Proof.
  intros Hm Hr Hu. unfold client_execute.
  pose proof (fun proxy w => fetch_with_agent_facts proxy endpoint profile cache _ _ w Hm Hr Hu) as Hone.
  destruct (cl_proxy client) as [proxy|].
  - destruct (Hone (Some proxy) w) as (r1 & w1 & sent1 & -> & Hl1 & Hall1 & Hn1 & Hb1). cbn [mbind option_bind].
    destruct r1 as [o|e]; [exists (Ok o), w1, sent1; split_and!; try done; lia|].
    destruct (Hone None w1) as (r2 & w2 & sent2 & -> & Hl2 & Hall2 & Hn2 & Hb2).
    exists r2, w2, (sent1 ++ sent2). split_and!; try done.
    + by rewrite Hl2, Hl1, app_assoc.
    + by apply Forall_app.
    + unfold len in *. rewrite length_app. lia.
  - destruct (Hone None w) as (r & w' & sent & -> & Hl & Hall & Hn & Hb). exists r, w', sent. split_and!; try done; lia.
Qed.
Lemma executor_facts client profile cache inspect endpoints last_error (w : Wire A) :
  0 <= max_body_bytes (cl_limits client) -> 0 <= max_redirects (cl_policy client) ->
  Forall (fetchable ∘ ep_url) endpoints ->
  exists r w' sent,
    executor_loop (client_execute url_parse url_join sha256 gz_new client profile cache) inspect endpoints last_error w
      = Some (r, w')
    /\ wire_log w' = wire_log w ++ sent /\ Forall (safe_request cache) sent
    /\ len sent <= 2 * (max_redirects (cl_policy client) + 1) * len endpoints
    /\ forall o, r = Ok o -> body_ok cache (cl_limits client) o /\ inspect (fo_body o) = CandAccepted.
Proof.
  intros Hm Hr. revert last_error w. induction endpoints as [|e rest IH]; intros last_error w Hall.
  { eexists _, w, []. split_and!; try done; [by rewrite app_nil_r|unfold len; cbn; lia]. }
  apply Forall_cons in Hall as [He Hrest]. cbn [executor_loop].
  destruct (client_execute_facts client profile cache e w Hm Hr He) as (r1 & w1 & sent1 & -> & Hl1 & Hs1 & Hn1 & Hb1).
  cbn [mbind option_bind].
  assert (forall last, exists r w' sent,
    executor_loop (client_execute url_parse url_join sha256 gz_new client profile cache) inspect rest last w1 = Some (r, w')
    /\ wire_log w' = wire_log w ++ sent /\ Forall (safe_request cache) sent
    /\ len sent <= 2 * (max_redirects (cl_policy client) + 1) * len (e :: rest)
    /\ forall o, r = Ok o -> body_ok cache (cl_limits client) o /\ inspect (fo_body o) = CandAccepted) as Hnext.
  { intros last. destruct (IH last w1 Hrest) as (r & w' & sent & -> & Hl & Hs & Hn & Hb).
    exists r, w', (sent1 ++ sent). split_and!; try done.
    - by rewrite Hl, Hl1, app_assoc.
    - by apply Forall_app.
    - unfold len in *. rewrite length_app. cbn [length]. lia. }
  destruct r1 as [o|error]; [|apply Hnext]. case_bool_decide as Hi; [|apply Hnext].
  exists (Ok o), w1, sent1. split_and!; try done.
  - unfold len in *. cbn [length]. nia.
  - intros ? [= <-]. split; [by apply Hb1|done].
Qed.

(** C11: downloading a subscription stays within its policy, whatever the servers answer.  For
    any agent, any readers of the bodies, any URL library and any request built from a source:
    the download ends; every request it sent, through redirects, mirrors and the local proxy,
    was for an HTTPS URL without credentials, and carried the validators of the cached body
    only to the URL that body came from; the number of requests is bounded; and what it
    returns was accepted by the caller and is at most as long as the limits allow, or is the
    cached body itself. *)
Theorem download_within_policy source_id primary mirrors profile policy request client cache inspect (w : Wire A) :
  0 <= max_body_bytes (cl_limits client) -> 0 <= max_redirects (cl_policy client) -> 0 <= max_mirrors policy ->
  FetchRequest_new url_parse source_id primary mirrors profile policy = Ok request ->
  exists r w' sent, ClientFetch client request cache inspect w = Some (r, w')
    /\ wire_log w' = wire_log w ++ sent /\ Forall (safe_request cache) sent
    /\ len sent <= 2 * (max_redirects (cl_policy client) + 1) * (max_mirrors policy + 1)
    /\ forall o, r = Ok o ->
         inspect (fo_body o) = CandAccepted
         /\ (if fo_not_modified o then ca_last_known_good cache = Some (fo_body o)
             else len (fo_body o) <= max_body_bytes (cl_limits client)).
Proof.
  intros Hm Hr Hmir (Hall & Hlen)%request_endpoints; [|done].
  destruct (executor_facts client (fr_profile request) cache inspect _ None w Hm Hr Hall)
    as (r & w' & sent & He & Hl & Hs & Hn & Hb).
  exists r, w', sent. split_and!; try done; [nia|]. intros o Ho. by destruct (Hb o Ho).
Qed.
End fetch_facts.

(** C30: a body is read completely or refused.  Over readers that deliver their contents
    in chunks of any size, the body of a response is exactly the contents of the stream
    (decoded when it is compressed) if the length the response declares, if any, and
    both the encoded and the decoded form are within the limit, and is refused as too
    large otherwise; no input makes the reading run on. *)
Theorem body_read_exactly {R G : Type} `{!Reader R, !Reader G, !FullReader R, !FullReader G} (gz_new : list Z -> G)
    (reader : R) (encoding : ContentEncoding) (encoded_length : option Z) (limits : ParserLimits) :
  0 <= max_body_bytes limits ->
  decode_response_body gz_new reader encoding encoded_length limits
  = Some (let max := max_body_bytes limits in
          let decoded := match encoding with Identity => contents reader | Gzip => contents (gz_new (contents reader)) end in
          if is_some_and (Z.ltb max) encoded_length || (max <? len (contents reader)) || (max <? len decoded)
          then Err BodyTooLarge else Ok decoded).
Proof.
  intros Hm. unfold decode_response_body. destruct (is_some_and _ encoded_length); [done|]. cbn [orb].
  rewrite read_bounded_exact by done. cbn [mbind option_bind]. rewrite Z.leb_antisym.
  destruct (max_body_bytes limits <? len (contents reader)) eqn:E; cbn [negb orb]; [done|].
  destruct encoding; [by rewrite E|]. rewrite read_bounded_exact by done. rewrite Z.leb_antisym.
  by destruct (max_body_bytes limits <? len (contents (gz_new (contents reader)))).
Qed.

(** ** Witnesses *)
Module FetchSample.
(** Redirects once, then answers. *)
#[export] Instance agent : HttpAgent nat (list Z) :=
  {| call proxy rq n :=
       (Ok (match n with
            | O => mkResponse 302 [("location", bytes "https://b.example/x")] []
            | _ => mkResponse 200 [("etag", bytes "v1")] [1; 2; 3]
            end), S n) |}.
Definition parse (text : string) : option Url :=
  Some (mkFetchUrl text (mkUrl "https" "" None (Some "a.example"))).
Definition join (_ : Url) (location : string) : option Url := parse location.
Definition limits : ParserLimits := mkLimits 8 8 8 8 8 8 8 8 8 8 8 8.
Definition client : FetchClient := mkClient FetchPolicy_default limits None.
Definition sha (bs : list Z) : list Z := bs.
Definition gz (bs : list Z) : list Z := bs ++ bs.
Definition request : FetchRequest :=
  mkFetchRequest "src" [mkEndpoint (mkFetchUrl "https://a.example/x" (mkUrl "https" "" None (Some "a.example"))) Primary]
    NetHopGeneric.
Definition inspect (_ : list Z) : CandidateAcceptance := CandAccepted.
Definition result := FetchClient_fetch (A := nat) (R := list Z) (G := list Z) parse join sha gz client request
  SourceCache_default inspect (mkWire 0%nat []).
End FetchSample.
Import (hints) FetchSample.
Lemma download_within_policy_witness :
  exists w', FetchSample.result
      = Some (Ok (mkFetched [1; 2; 3] true (bytes "https://b.example/x") None (Some "v1") None None false), w')
    /\ Forall (safe_request FetchSample.sha SourceCache_default) (wire_log w') /\ len (wire_log w') = 2.
Proof.
  eexists. split; [vm_compute; reflexivity|]. split; [|reflexivity].
  destruct (download_within_policy (A := nat) (R := list Z) (G := list Z) FetchSample.parse FetchSample.join FetchSample.sha
              FetchSample.gz "src" "https://a.example/x" [] NetHopGeneric FetchPolicy_default FetchSample.request
              FetchSample.client SourceCache_default FetchSample.inspect (mkWire 0%nat [])
              ltac:(vm_compute; discriminate) ltac:(vm_compute; discriminate) ltac:(vm_compute; discriminate) eq_refl)
    as (r & w' & sent & Hf & Hl & Hs & _).
  assert (Some (r, w') = FetchSample.result) as Hw by (symmetry; exact Hf).
  vm_compute in Hw. injection Hw as Hr Hw'. rewrite Hw' in Hl. cbn [wire_log app] in Hl.
  rewrite <- Hl in Hs. exact Hs.
Defined.
Lemma body_read_exactly_witness :
  decode_response_body (R := list Z) (G := list Z) FetchSample.gz [1; 2; 3] Gzip (Some 3) FetchSample.limits = Some (Ok [1; 2; 3; 1; 2; 3])
  /\ decode_response_body (R := list Z) (G := list Z) FetchSample.gz [1; 2; 3; 4; 5] Gzip (Some 5) FetchSample.limits = Some (Err BodyTooLarge).
Proof.
  split; rewrite body_read_exactly by (vm_compute; discriminate); reflexivity.
Defined.
