(* ===== verification/SourceFetch.v ===== *)
(** * SourceFetch: the bodies of the sources

    Models the fetching half of crates/nethopd/src/source_update.rs: the trait
    [SourceBodyFetcher] and its implementation [HttpSourceBodyFetcher], which downloads a
    source ([Fetch]), checks that it converts ([Pipeline]), keeps the last good body in memory
    and in a private file, and falls back to it. *)

From S2P Require Import Prelude Text Json Source Detect Base64 ProxyNode Fingerprint Diagnostics Uri Semantic Dedupe Pipeline StateFile NodeRegistry Generation Candidates Ssrf Fetch.

Local Open Scope Z_scope.

Inductive SourceBodyOrigin : Type := Fresh | NotModified | LastKnownGood | Local.
Record SourceBody : Type := mkBody {
  sb_bytes : list Z; sb_origin : SourceBodyOrigin; sb_userinfo : option SubscriptionUserInfo }.
Inductive SourceUpdateError : Type :=
| UpFetch | UpCache | UpConversion | GenerationExhausted | UpBuild (e : BuildCandidateError) | UpPublish (e : CoreError)
| CandidateDigestMismatch | UnknownOrInactive | UpManualSource | UpNodeOverride.
Definition SourceUpdateError_code (e : SourceUpdateError) : string :=
  match e with
  | UpFetch => "fetch_failed" | UpCache => "cache_unavailable" | UpConversion => "conversion_failed"
  | GenerationExhausted => "generation_exhausted" | UpBuild _ => "candidate_build_failed"
  | UpPublish _ => "candidate_publish_failed" | CandidateDigestMismatch => "candidate_digest_mismatch"
  | UnknownOrInactive => "source_unknown_or_inactive" | UpManualSource => "manual_source_unavailable"
  | UpNodeOverride => "node_override_unavailable"
  end.
Definition SourceUpdateError_message (e : SourceUpdateError) : string :=
  match e with
  | UpFetch => "subscription source could not be fetched"
  | UpCache => "subscription last-known-good cache is unavailable"
  | UpConversion => "subscription conversion did not produce a publishable candidate"
  | GenerationExhausted => "generation identifier space is exhausted"
  | UpBuild _ => "candidate build failed"
  | UpPublish _ => "generation publication failed"
  | CandidateDigestMismatch => "local import candidate digest does not match the preview"
  | UnknownOrInactive => "subscription source is unknown or inactive"
  | UpManualSource => "persistent manual source is unavailable"
  | UpNodeOverride => "persistent node override registry is unavailable"
  end.

(** What the update asks of a fetcher: a fresh body, or the one kept. *)
Class SourceBodyFetcher (F : Type) : Type := {
  fetch : SourceDefinition -> Mut F SourceUpdateError SourceBody;
  cached : SourceDefinition -> Mut F SourceUpdateError SourceBody;
}.

(** Looking at a kept body changes none of the kept bodies. *)
Class StableCache (F : Type) `{!SourceBodyFetcher F} : Prop := {
  cached_again : forall source other (f : F), (cached other (cached source f).2).1 = (cached other f).1 }.

Definition source_input (s : SourceDefinition) (bs : list Z) : FilteredSourceInput :=
  mkFiltered (mkInput (src_id s) (src_expected_format s) bs) (src_filter s).

(** ** The fetcher over HTTP *)
Section http.
Context `{!Base64Engine} `{!SourceAdapters}.
Context (uuid_parse_str : string -> option (list Z)) (uuid_hyphenated : list Z -> string).
Context (json_from_slice : list Z -> option Json) (matrix : list CapabilityEntry).
Context (json_valid : list Z -> bool).
Context (sha256 : list Z -> list Z) (sha256_hex : list Z -> string).
Context (infer_display_territory : list string -> option string).
Context (url_parse : string -> option Url) (url_join : Url -> string -> option Url).
Context {A R G : Type} `{!HttpAgent A R, !Reader R, !Reader G} (gz_new : list Z -> G).
Context (client : FetchClient) (limits : ParserLimits) (cache_root : bool).

#[local] Abbreviation Convert :=
  (convert_sources uuid_parse_str uuid_hyphenated json_from_slice matrix json_valid sha256 infer_display_territory).

(** The caches in memory by key, the cache files by name, the network, and what the next
    file writes come to. *)
Record HttpFetcher : Type := mkHttpFetcher {
  hf_caches : gmap string SourceCache;
  hf_files : gmap string DiskNode;
  hf_wire : Wire A;
  hf_writes : list WriteOutcome;
}.
Definition set_cache (key : string) (c : SourceCache) (f : HttpFetcher) : HttpFetcher :=
  mkHttpFetcher (<[key := c]> (hf_caches f)) (hf_files f) (hf_wire f) (hf_writes f).
Definition set_wire (w : Wire A) (f : HttpFetcher) : HttpFetcher :=
  mkHttpFetcher (hf_caches f) (hf_files f) w (hf_writes f).
Definition request_identity_digest (s : SourceDefinition) : string := sha256_hex (bytes (src_url s)).
Definition cache_path (s : SourceDefinition) : option string :=
  if cache_root then Some (src_id s +:+ "-" +:+ request_identity_digest s +:+ ".body") else None.
Definition cache_key (s : SourceDefinition) : string := src_id s +:+ ":" +:+ request_identity_digest s.
Definition file_at (name : string) (f : HttpFetcher) : DiskNode := default Source.NotFound (hf_files f !! name).
Definition restore_cache (path : option string) (cache : SourceCache) (f : HttpFetcher) :
    Result SourceUpdateError SourceCache :=
  match path with
  | None => Ok cache
  | Some name =>
      match inspect false (max_body_bytes limits) (file_at name f) with
      | Absent => Ok cache
      | NoMetadata | Unsuitable | Unreadable => Err UpCache
      | Contents body => map_err (fun _ => UpCache) (apply_success cache body None None limits)
      end
  end.
(** The cache of a source, read from its file the first time. *)
Definition open_cache (s : SourceDefinition) : Mut HttpFetcher SourceUpdateError SourceCache := fun f =>
  match hf_caches f !! cache_key s with
  | Some cache => (Ok cache, f)
  | None =>
      match restore_cache (cache_path s) SourceCache_default f with
      | Ok cache => (Ok cache, set_cache (cache_key s) cache f)
      | Err e => (Err e, f)
      end
  end.
(** Whether a downloaded body converts.  A conversion always ends (see [Pipeline]). *)
Definition acceptance (s : SourceDefinition) (body : list Z) : CandidateAcceptance :=
  match Convert [source_input s body] limits with
  | Some conversion =>
      let report := summary (conv_report conversion) in
      if source_success report then CandAccepted
      else if sum_accepted report =? 0 then CandAcceptedZero
      else CandFormatRejected
  | None => CandFormatRejected
  end.
Definition last_good (cache : SourceCache) (e : SourceUpdateError) : Result SourceUpdateError SourceBody :=
  body ← ok_or (ca_last_known_good cache) e;
  Ok (mkBody body LastKnownGood (ca_userinfo cache)).
(** [atomic_write] of a cache file. *)
Definition write_cache_file (path : option string) (body : list Z) : Mut HttpFetcher SourceUpdateError unit := fun f =>
  match path with
  | None => (Ok tt, f)
  | Some name =>
      let (outcome, rest) := match hf_writes f with [] => (Written, []) | o :: rest => (o, rest) end in
      let (ok, node) := write_node outcome body (file_at name f) in
      (if ok then Ok tt else Err UpCache, mkHttpFetcher (hf_caches f) (<[name := node]> (hf_files f)) (hf_wire f) rest)
  end.
(** The part after the download: the new body is kept in memory and in its file. *)
Definition keep_outcome (s : SourceDefinition) (cache : SourceCache) (o : FetchOutcome) :
    Mut HttpFetcher SourceUpdateError SourceBody :=
  cache ← mut_lift (map_err (fun _ => UpFetch) (cache_commit cache o limits));
  _ ← (fun f => (Ok tt, set_cache (cache_key s) cache f));
  _ ← write_cache_file (cache_path s) (fo_body o);
  mret (mkBody (fo_body o) (if fo_not_modified o then NotModified else Fresh) (fo_userinfo o)).
(** [None]: the download did not end; [good_body_survives] excludes it. *)
Definition http_fetch (s : SourceDefinition) (f : HttpFetcher) :
    option (Result SourceUpdateError SourceBody * HttpFetcher) :=
  match open_cache s f with
  | (Err e, f) => Some (Err e, f)
  | (Ok cache, f) =>
      match FetchRequest_new url_parse (src_id s) (src_url s) (src_mirrors s) (src_request_profile s) FetchPolicy_default with
      | Err _ => Some (Err UpFetch, f)
      | Ok request =>
          '(outcome, w) ← FetchClient_fetch url_parse url_join sha256 gz_new client request cache (acceptance s) (hf_wire f);
          let f := set_wire w f in
          match outcome with
          | Err _ => Some (last_good cache UpFetch, f)
          | Ok outcome => Some (keep_outcome s cache outcome f)
          end
      end
  end.
Definition http_cached (s : SourceDefinition) : Mut HttpFetcher SourceUpdateError SourceBody :=
  cache ← open_cache s;
  mut_lift (last_good cache UpCache).
#[export] Instance HttpSourceBodyFetcher : SourceBodyFetcher HttpFetcher := {|
  fetch s f := default (Err UpFetch, f) (http_fetch s f);
  cached := http_cached |}.

(** ** Facts *)
(** The body kept for a source: in memory, or else in its file. *)
Definition kept (s : SourceDefinition) (f : HttpFetcher) : option (list Z) :=
  match (open_cache s f).1 with Ok cache => ca_last_known_good cache | Err _ => None end.
Lemma open_cache_memory s f cache f' :
  open_cache s f = (Ok cache, f') -> hf_caches f' !! cache_key s = Some cache /\ kept s f = ca_last_known_good cache.
Proof.
  intros Hop. unfold kept. rewrite Hop. split; [|done]. unfold open_cache in Hop.
  destruct (hf_caches f !! cache_key s) eqn:Ec; [by injection Hop as <- <-|].
  destruct (restore_cache _ _ _); [|done]. injection Hop as <- <-. apply lookup_insert_eq.
Qed.
Lemma kept_memory s f cache : hf_caches f !! cache_key s = Some cache -> kept s f = ca_last_known_good cache.
Proof. intros Hop. unfold kept, open_cache. by rewrite Hop. Qed.
Lemma open_cache_same_key s t f cache f' :
  open_cache s f = (Ok cache, f') -> cache_key t <> cache_key s ->
  hf_caches f' !! cache_key t = hf_caches f !! cache_key t /\ hf_files f' = hf_files f.
Proof.
  unfold open_cache. intros Hop Hk. destruct (hf_caches f !! cache_key s) eqn:Ec; [by injection Hop as <- <-|].
  destruct (restore_cache _ _ _); [|done]. injection Hop as <- <-. split; [|done]. cbn. by rewrite lookup_insert_ne.
Qed.
(** The digests are hexadecimal, so that a key tells the source and the URL. *)
Definition colon_free : Prop := forall bs, 58 ∉ bytes (sha256_hex bs).
Lemma bytes_concat a b : bytes (a +:+ b) = bytes a ++ bytes b.
Proof. unfold bytes. induction a as [|c a IH]; [done|]. cbn. by rewrite <- IH. Qed.
Lemma cache_key_path s t : colon_free -> cache_key t = cache_key s -> cache_path t = cache_path s.
Proof.
  intros Hfree Hkey. unfold cache_path. destruct cache_root; [|done].
  assert (forall u, rsplit_once 58 (bytes (cache_key u)) = Some (bytes (src_id u), bytes (request_identity_digest u))) as Hsplit.
  { intros u. apply rsplit_once_Some. unfold cache_key. rewrite !bytes_concat. split; [reflexivity|apply Hfree]. }
  pose proof (Hsplit t) as Ht. rewrite Hkey, Hsplit in Ht. injection Ht as Hid%bytes_inj Hd%bytes_inj. by rewrite Hid, Hd.
Qed.
Lemma HttpSourceBodyFetcher_stable : colon_free -> StableCache HttpFetcher.
Proof.
  intros Hfree. split. intros s t f. cbn. unfold http_cached, mbind, Mut_bind.
  assert ((open_cache t (open_cache s f).2).1 = (open_cache t f).1) as Hopen.
  { unfold open_cache at 2. destruct (hf_caches f !! cache_key s) eqn:Es; [done|].
    destruct (restore_cache (cache_path s) _ f) as [cache|e] eqn:Er; [|done]. cbn [snd].
    unfold open_cache. cbn [hf_caches set_cache].
    destruct (decide (cache_key t = cache_key s)) as [Hk|Hk].
    - by rewrite (cache_key_path s t Hfree Hk), Hk, lookup_insert_eq, Es, Er.
    - rewrite lookup_insert_ne by done. destruct (hf_caches f !! cache_key t); [done|].
      assert (restore_cache (cache_path t) SourceCache_default (set_cache (cache_key s) cache f)
        = restore_cache (cache_path t) SourceCache_default f) as -> by done.
      destruct (restore_cache (cache_path t) SourceCache_default f); reflexivity. }
  assert (((match open_cache s f with (Ok a, s') => mut_lift (last_good a UpCache) s' | (Err e, s') => (Err e, s') end)).2
    = (open_cache s f).2) as -> by by destruct (open_cache s f) as [[]].
  destruct (open_cache t (open_cache s f).2) as [r1 x1], (open_cache t f) as [r2 x2]. cbn in Hopen. subst r1. by destruct r2.
Qed.
(** A body that was kept before, or one that converts and fits. *)
Definition good_body (s : SourceDefinition) (b : list Z) : Prop :=
  acceptance s b = CandAccepted /\ len b <= max_body_bytes limits.
Definition http_result (s : SourceDefinition) (f : HttpFetcher) (r : Result SourceUpdateError SourceBody) (f' : HttpFetcher) : Prop :=
  (kept s f' = kept s f \/ exists b, kept s f' = Some b /\ good_body s b)
  /\ (forall body, r = Ok body -> kept s f' = Some (sb_bytes body)
        /\ match sb_origin body with
           | Fresh => good_body s (sb_bytes body)
           | NotModified => kept s f = Some (sb_bytes body) /\ acceptance s (sb_bytes body) = CandAccepted
           | LastKnownGood => kept s f = Some (sb_bytes body)
           | Local => False
           end)
  /\ (is_some (kept s f) = true -> forall e, r = Err e -> e = UpCache \/ is_err
        (FetchRequest_new url_parse (src_id s) (src_url s) (src_mirrors s) (src_request_profile s) FetchPolicy_default) = true).
Lemma keep_outcome_result s cache o f0 f r f' :
  hf_caches f !! cache_key s = Some cache -> kept s f0 = ca_last_known_good cache ->
  acceptance s (fo_body o) = CandAccepted ->
  (if fo_not_modified o then ca_last_known_good cache = Some (fo_body o)
   else len (fo_body o) <= max_body_bytes limits) ->
  keep_outcome s cache o f = (r, f') -> http_result s f0 r f'.
Proof.
  intros Hmem Hkept Hacc Hbody. unfold keep_outcome.
  assert (exists cache', cache_commit cache o limits = Ok cache' /\ ca_last_known_good cache' = Some (fo_body o)
    /\ (fo_not_modified o = true -> cache' = cache)) as (cache' & Hc & Hlkg & Hsame).
  { unfold cache_commit. destruct (fo_not_modified o); [by eexists|].
    rewrite (proj2 (Z.ltb_ge _ _)) by done. by eexists. }
  rewrite Hc. intros Hrun.
  assert (kept s f' = Some (fo_body o) /\ (forall body, r = Ok body ->
    body = mkBody (fo_body o) (if fo_not_modified o then NotModified else Fresh) (fo_userinfo o))
    /\ (forall e, r = Err e -> e = UpCache)) as (Hk & Hok & Herr).
  { unfold mbind, Mut_bind, mut_lift in Hrun. cbn [map_err] in Hrun.
    assert (forall g, hf_caches g = hf_caches (set_cache (cache_key s) cache' f) -> kept s g = Some (fo_body o)) as Hg.
    { intros g Eg. rewrite (kept_memory s g cache'); [done|]. rewrite Eg. apply lookup_insert_eq. }
    destruct (write_cache_file _ _ _) as [[[]|e] f1] eqn:Ew.
    - injection Hrun as <- <-. split_and!; [|by intros ? [= <-]|done]. apply Hg.
      unfold write_cache_file in Ew. destruct (cache_path s); [|by injection Ew as <-].
      destruct (hf_writes _) as [|o' rest]; destruct (write_node _ _ _) as [ok node]; by injection Ew as _ <-.
    - injection Hrun as <- <-. unfold write_cache_file in Ew. destruct (cache_path s); [|done].
      destruct (hf_writes _) as [|o' rest]; destruct (write_node _ _ _) as [[] node]; try done;
        injection Ew as <- <-; (split_and!; [by apply Hg|done|by intros ? [= <-]]). }
  split_and!.
  - destruct (fo_not_modified o); [left; congruence|]. right. exists (fo_body o). by repeat split.
  - intros body Hb. specialize (Hok _ Hb) as ->. split; [done|]. cbn.
    destruct (fo_not_modified o); [split; [congruence|done]|by split].
  - intros _ e He. left. by apply Herr.
Qed.

(** C16: a good body of a source is never lost to a bad download.  Whatever the servers answer
    and however the cache file can be written: fetching a source ends; the body kept for it
    afterwards is the one kept before or one that converts and fits the limits; the body handed
    on is the one kept, fresh ones having been accepted by the conversion; and a source that
    has a good body and valid URLs stays available, the only possible failure being that of
    writing the cache file. *)
Theorem good_body_survives s f :
  0 <= max_body_bytes limits -> cl_limits client = limits -> 0 <= max_redirects (cl_policy client) ->
  exists r f', http_fetch s f = Some (r, f') /\ http_result s f r f'.
Proof.
  intros Hm Hcl Hr. unfold http_fetch.
  destruct (open_cache s f) as [[cache|e] f1] eqn:Eo.
  2: { eexists _, f1. split; [done|]. unfold open_cache in Eo.
       destruct (hf_caches f !! _) eqn:Ec; [done|]. destruct (restore_cache _ _ _) eqn:Er; [done|].
       injection Eo as <- <-. split_and!; [by left|done|]. unfold kept, open_cache. by rewrite Ec, Er. }
  pose proof (open_cache_memory _ _ _ _ Eo) as [Hmem Hkept].
  assert (kept s f1 = kept s f) as Hk1 by (rewrite (kept_memory _ _ _ Hmem); congruence).
  destruct (FetchRequest_new _ _ _ _ _ _) as [request|e] eqn:Ereq.
  2: { eexists _, f1. split; [done|]. split_and!; [by left|done|]. intros _ e' _. right. by rewrite Ereq. }
  pose proof Ereq as Hall. apply request_endpoints in Hall as [Hall _]; [|vm_compute; discriminate].
  assert (0 <= max_body_bytes (cl_limits client)) as Hm' by by rewrite Hcl.
  destruct (executor_facts url_parse url_join sha256 gz_new client (fr_profile request) cache (acceptance s)
              (fr_endpoints request) None (hf_wire f1) Hm' Hr Hall) as (r & w & sent & Hf & _ & _ & _ & Hb).
  unfold FetchClient_fetch, fetch_with_executor. rewrite Hf. cbn [mbind option_bind].
  destruct r as [o|e].
  - destruct (keep_outcome s cache o (set_wire w f1)) as [r' f'] eqn:Ek. exists r', f'. split; [done|].
    destruct (Hb o eq_refl) as [Hbody Hacc]. rewrite Hcl in Hbody.
    by eapply (keep_outcome_result s cache o f (set_wire w f1)).
  - eexists _, (set_wire w f1). split; [done|].
    assert (kept s (set_wire w f1) = kept s f) as Hk2 by (rewrite (kept_memory s (set_wire w f1) cache Hmem); congruence).
    unfold last_good. rewrite <- Hkept. split_and!; [by left| |].
    + intros body. destruct (kept s f) as [b|] eqn:Eb; [|done]. cbn. intros [= <-]. cbn. split; congruence.
    + intros Hs e'. by destruct (kept s f).
Qed.
End http.

(** ** Witness *)
Module SourceFetchSample.
Import (hints) FetchSample.
#[export] Instance adapters : SourceAdapters := {|
  parse_clash_yaml _ _ _ := Err DcInvalidYaml;
  parse_singbox_json _ _ _ := Err DcInvalidJson;
  parse_surfboard_ini _ _ _ := Err DcInvalidIni |}.
Definition source : SourceDefinition :=
  mkSource "src_00000000000000000000000000000001" "one" true "https://a.example/x" [] FUriList NetHopGeneric
    (mkFilter [] [] [] []).
Definition client : FetchClient := mkClient FetchPolicy_default demo_limits None.
Definition body : list Z := bytes "trojan://secret@host:443#one".
(** Answers with a body that does not convert. *)
#[export] Instance broken : HttpAgent nat (list Z) := {| call _ _ n := (Ok (mkResponse 200 [] [1; 2; 3]), n) |}.
Definition fetcher : HttpFetcher (A := nat) :=
  mkHttpFetcher ({[ cache_key (fun _ => "d") source := mkSourceCache None None None (Some body) None ]}) ∅ (mkWire 0%nat []) [].
End SourceFetchSample.
Import (hints) SourceFetchSample.
#[local] Existing Instance rfc_engine.
Lemma good_body_survives_witness :
  exists r f', http_fetch (A := nat) (R := list Z) (G := list Z) (fun _ => None) (fun _ => "") (fun _ => None) pinned_matrix (fun _ => true)
      (fun bs => bs) (fun _ => "d") (fun _ => None) FetchSample.parse FetchSample.join FetchSample.gz
      SourceFetchSample.client demo_limits true SourceFetchSample.source SourceFetchSample.fetcher = Some (r, f')
    /\ r = Ok (mkBody SourceFetchSample.body LastKnownGood None).
Proof.
  destruct (good_body_survives (A := nat) (R := list Z) (G := list Z) (fun _ => None) (fun _ => "") (fun _ => None) pinned_matrix (fun _ => true)
              (fun bs => bs) (fun _ => "d") (fun _ => None) FetchSample.parse FetchSample.join FetchSample.gz
              SourceFetchSample.client demo_limits true SourceFetchSample.source SourceFetchSample.fetcher
              ltac:(vm_compute; discriminate) eq_refl ltac:(vm_compute; discriminate)) as (r & f' & Hf & _).
  exists r, f'. split; [exact Hf|].
  match type of Hf with ?l = _ => assert (fst <$> l = Some (Ok (mkBody SourceFetchSample.body LastKnownGood None))) as Hv by (vm_compute; reflexivity) end.
  rewrite Hf in Hv. injection Hv as ->. reflexivity.
Defined.
