(* ===== verification/SourceUpdate.v ===== *)
(** * SourceUpdate: from configured sources to the next generation

    Models the updating half of crates/nethopd/src/source_update.rs: [SourceUpdateService]
    (preparing a candidate from the sources, from the caches or from an import, and committing
    it with the files that belong to it) and [ConfiguredSourceUpdater] (the requests waiting
    for the next preparation).  The service works on the generation store ([Generation]), the
    files of the manual source and of the overrides ([Overrides]), a fetcher ([SourceFetch])
    and the conversion ([Pipeline], [Candidates]). *)

From S2P Require Import Prelude Text Ordering BTreeMap Json Capture Source Detect Base64 ProxyNode Fingerprint Diagnostics Uri Semantic Dedupe Pipeline StateFile NodeRegistry Generation WorkerActivation Composer Overrides Candidates Ssrf Fetch SourceFetch.

Local Open Scope Z_scope.

(** ** Reports *)
Record SourceUpdateDetail : Type := mkDetail {
  dt_source_id : SourceId;
  dt_origin : option SourceBodyOrigin;
  dt_accepted : Z;
  dt_duplicate : Z;
  dt_rejected : Z;
  dt_warnings : Z;
  dt_userinfo : option SubscriptionUserInfo;
  dt_diagnostic_code : option string;
}.
Definition detail_pending (id : SourceId) (origin : SourceBodyOrigin) (userinfo : option SubscriptionUserInfo) :=
  mkDetail id (Some origin) 0 0 0 0 userinfo None.
Definition detail_failed (id : SourceId) (code : string) := mkDetail id None 0 0 0 0 None (Some code).
(** The outcome of the conversion for a source. *)
Definition detail_outcome (o : SourceOutcome) (d : SourceUpdateDetail) : SourceUpdateDetail :=
  mkDetail (dt_source_id d) (dt_origin d) (oc_accepted o) (oc_duplicate o) (oc_rejected o) (oc_warnings o)
    (dt_userinfo d) (if Dedupe.outcome_success o then dt_diagnostic_code d else Some "conversion_empty").
Definition apply_outcome (details : BTreeMap SourceId SourceUpdateDetail) (entry : SourceId * SourceOutcome) :
    BTreeMap SourceId SourceUpdateDetail :=
  match bt_get entry.1 details with
  | Some d => bt_insert entry.1 (detail_outcome entry.2 d) details
  | None => details
  end.
Record SourceUpdateReport : Type := mkUpdateReport {
  ur_generation : Z;
  ur_source_count : Z;
  ur_accepted : Z;
  ur_duplicate : Z;
  ur_node_count : Z;
  ur_sources : list SourceUpdateDetail;
}.
Record ImportPreview : Type := mkPreview {
  ip_candidate_digest : string;
  ip_detected_format : FormatHint;
  ip_accepted : Z;
  ip_duplicate : Z;
  ip_rejected : Z;
  ip_node_count : Z;
}.
Record PendingManualSource : Type := mkPendingManual { pm_bytes : list Z; pm_format : FormatHint }.
Record PreparedSourceUpdate : Type := mkPrepared {
  pr_sealed : SealedGeneration;
  pr_source_config_digest : string;
  pr_pending_manual : option PendingManualSource;
  pr_pending_overrides : option NodeOverrideSet;
  pr_report : SourceUpdateReport;
}.
Inductive SourcePrepareMode : Type := Refresh (selected : option SourceId) | CachedOnly.

(** ** Views of the configuration *)
Definition source_ids_with_manual (config : SourceConfig) : list SourceId :=
  (src_id <$> active_sources config) ++ [MANUAL_SOURCE_ID].
(** The manual source leaves out what any configured source leaves out. *)
Definition manual_filter (config : SourceConfig) : Result SourceUpdateError NodeFilter :=
  let excluded := dedup (sort (mjoin ((fun s => excluded_node_ids (src_filter s)) <$> sc_sources config))) in
  map_err (fun _ => UpConversion) (NodeFilter_new_with_node_ids [] [] excluded []).

(** ** The service *)
Section service.
Context `{!Base64Engine} `{!SourceAdapters}.
Context (uuid_parse_str : string -> option (list Z)) (uuid_hyphenated : list Z -> string).
Context (json_from_slice : list Z -> option Json) (matrix : list CapabilityEntry).
Context (json_valid : list Z -> bool).
Context (sha256 : list Z -> list Z) (sha256_hex : list Z -> string).
Context (infer_display_territory : list string -> option string).
Context (to_vec : Json -> Result string (list Z)).
Context (encode_manifest : GenerationManifest -> list Z) (decode_manifest : list Z -> option GenerationManifest).
Context (encode_nodes : GenerationNodeRegistry -> list Z) (decode_nodes : list Z -> option GenerationNodeRegistry).
Context (json_to_vec : Json -> list Z).
Context (encode_overrides : StoredDocument -> list Z) (decode_overrides : list Z -> option StoredDocument).
Context (root : string).
(** [CandidateChecker::check] of the configuration file. *)
Context (check : list Z -> bool).
Context {F : Type} `{!SourceBodyFetcher F} (limits : ParserLimits).

(** [sv_manual] and [sv_override_file] are the files of the stores the service was given;
    [sv_writes] is what the next writes to them come to. *)
Record Service : Type := mkService {
  sv_disk : Disk;
  sv_fetcher : F;
  sv_runtime : CandidateBuildProfile;
  sv_manual : option DiskNode;
  sv_overrides : NodeOverrideSet;
  sv_override_file : option DiskNode;
  sv_writes : list WriteOutcome;
}.
#[local] Abbreviation Svc := (Mut Service SourceUpdateError).

Definition set_disk (d : Disk) (s : Service) : Service :=
  mkService d (sv_fetcher s) (sv_runtime s) (sv_manual s) (sv_overrides s) (sv_override_file s) (sv_writes s).
Definition set_fetcher (f : F) (s : Service) : Service :=
  mkService (sv_disk s) f (sv_runtime s) (sv_manual s) (sv_overrides s) (sv_override_file s) (sv_writes s).
Definition set_runtime (p : CandidateBuildProfile) (s : Service) : Service :=
  mkService (sv_disk s) (sv_fetcher s) p (sv_manual s) (sv_overrides s) (sv_override_file s) (sv_writes s).
Definition set_manual (d : DiskNode) (s : Service) : Service :=
  mkService (sv_disk s) (sv_fetcher s) (sv_runtime s) (Some d) (sv_overrides s) (sv_override_file s) (sv_writes s).
Definition set_overrides (o : NodeOverrideSet) (s : Service) : Service :=
  mkService (sv_disk s) (sv_fetcher s) (sv_runtime s) (sv_manual s) o (sv_override_file s) (sv_writes s).
Definition set_override_file (d : DiskNode) (s : Service) : Service :=
  mkService (sv_disk s) (sv_fetcher s) (sv_runtime s) (sv_manual s) (sv_overrides s) (Some d) (sv_writes s).
Definition take_write (s : Service) : WriteOutcome * Service :=
  match sv_writes s with
  | [] => (Written, s)
  | o :: rest =>
      (o, mkService (sv_disk s) (sv_fetcher s) (sv_runtime s) (sv_manual s) (sv_overrides s) (sv_override_file s) rest)
  end.
(** An operation of the generation store, of the fetcher. *)
Definition on_store {A} (m : Store A) : Svc A := fun s =>
  let (r, d) := m (sv_disk s) in (map_err UpPublish r, set_disk d s).
Definition on_fetcher {A} (m : Mut F SourceUpdateError A) : Svc A := fun s =>
  let (r, f) := m (sv_fetcher s) in (r, set_fetcher f s).
(** [let _ = m;] *)
Definition quietly {A} (m : Svc A) : Svc unit := fun s => (Ok tt, (m s).2).
Definition or_cleanup {A} (m : Svc A) (cleanup : Svc unit) : Svc A := fun s =>
  match m s with
  | (Ok a, s) => (Ok a, s)
  | (Err e, s) => (Err e, (cleanup s).2)
  end.

(** A conversion always ends (see [Pipeline]), as does the building of a candidate
    ([Candidates.build_total]). *)
Definition convert (inputs : list FilteredSourceInput) : Result SourceUpdateError StableConversion :=
  conversion ← ok_or (convert_sources uuid_parse_str uuid_hyphenated json_from_slice matrix json_valid sha256
                        infer_display_territory inputs limits) UpConversion;
  if negb (source_success (summary (conv_report conversion))) || (len (conv_nodes conversion) =? 0)
  then Err UpConversion
  else Ok conversion.
Definition effective_source_digest (config : SourceConfig) (manual_digest : option string) : string :=
  match manual_digest with
  | None => source_config_digest_of config
  | Some digest =>
      sha256_hex (bytes "nethop-effective-sources-v1" ++ [0] ++ bytes (source_config_digest_of config) ++ [0] ++ bytes digest)
  end.
(** [build_candidate_with_overrides(...)?.bind_sources(...)?] *)
Definition build (generation : Z) (conversion : StableConversion) (s : Service) (mode : SubscriptionMode)
    (pool_ids : list SourceId) (digest : string) (ids : list string) : Result SourceUpdateError Candidate :=
  built ← ok_or (build_candidate_with_overrides sha256_hex to_vec encode_nodes infer_display_territory generation conversion
                   (sv_runtime s) mode pool_ids (sv_overrides s)) UpConversion;
  candidate ← map_err UpBuild built;
  map_err UpPublish (bind_sources candidate digest ids).

Definition next_generation : Svc Z :=
  current ← on_store current_generation;
  match current with
  | Some generation =>
      if umax 64 <? generation + 1 then mut_fail GenerationExhausted
      else mut_lift (map_err (fun _ => GenerationExhausted) (GenerationId_new (generation + 1)))
  | None => mut_lift (map_err (fun _ => GenerationExhausted) (GenerationId_new 1))
  end.
(** The candidate is written, checked and sealed; what fails is removed again. *)
Definition seal (candidate : Candidate) : Svc SealedGeneration :=
  prepared ← on_store (prepare_candidate encode_manifest encode_nodes root candidate);
  _ ← or_cleanup
        (if check (cfg_bytes (cand_config candidate)) then mret tt else mut_fail (UpPublish ValidationFailed))
        (quietly (on_store (discard_prepared root prepared)));
  or_cleanup (on_store (seal_candidate root prepared)) (quietly (on_store (discard_prepared root prepared))).

(** *** Preparing from the sources *)
Abbreviation Details := (BTreeMap SourceId SourceUpdateDetail).
Definition wants_fetch (mode : SourcePrepareMode) (id : SourceId) : bool :=
  match mode with Refresh selected => is_none_or (String.eqb id) selected | CachedOnly => false end.
(** An unavailable source is reported when all are refreshed, and an error otherwise. *)
Fixpoint gather (mode : SourcePrepareMode) (sources : list SourceDefinition)
    (inputs : list FilteredSourceInput) (details : Details) : Svc (list FilteredSourceInput * Details) :=
  match sources with
  | [] => mret (inputs, details)
  | source :: rest => fun s =>
      match on_fetcher (if wants_fetch mode (src_id source) then fetch source else cached source) s with
      | (Ok body, s) =>
          gather mode rest (inputs ++ [source_input source (sb_bytes body)])
            (bt_insert (src_id source) (detail_pending (src_id source) (sb_origin body) (sb_userinfo body)) details) s
      | (Err error, s) =>
          match mode with
          | Refresh None =>
              gather mode rest inputs
                (bt_insert (src_id source) (detail_failed (src_id source) (SourceUpdateError_code error)) details) s
          | _ => (Err error, s)
          end
      end
  end.
Definition load_manual : Svc (option ManualSource) := fun s =>
  match sv_manual s with
  | None => (Ok None, s)
  | Some file => (map_err (fun _ => UpManualSource) (manual_load sha256_hex file), s)
  end.
Definition manual_input (config : SourceConfig) (bs : list Z) (format : FormatHint) :
    Result SourceUpdateError FilteredSourceInput :=
  filter ← manual_filter config;
  Ok (mkFiltered (mkInput MANUAL_SOURCE_ID format bs) filter).
Definition add_manual (config : SourceConfig) (manual : option ManualSource)
    (gathered : list FilteredSourceInput * Details) : Result SourceUpdateError (list FilteredSourceInput * Details) :=
  match manual with
  | None => Ok gathered
  | Some m =>
      input ← manual_input config (ms_bytes m) (ms_format m);
      Ok (gathered.1 ++ [input], bt_insert MANUAL_SOURCE_ID (detail_pending MANUAL_SOURCE_ID Local None) gathered.2)
  end.
Definition mode_known (mode : SourcePrepareMode) (active : list SourceDefinition) : bool :=
  match mode with Refresh (Some id) => existsb (fun s => String.eqb (src_id s) id) active | _ => true end.
Definition prepare_inputs (config : SourceConfig) (mode : SourcePrepareMode) : Svc PreparedSourceUpdate :=
  generation ← next_generation;
  let active := active_sources config in
  if negb (mode_known mode active) then mut_fail UnknownOrInactive
  else
    gathered ← gather mode active [] [];
    manual ← load_manual;
    '(inputs, details) ← mut_lift (add_manual config manual gathered);
    conversion ← mut_lift (convert inputs);
    let details := foldl apply_outcome details (conv_outcomes conversion) in
    let pool_ids := if is_some manual then source_ids_with_manual config else src_id <$> active in
    let pool_mode := if is_some manual then Merge else sc_mode config in
    s ← mut_get;
    candidate ← mut_lift (build generation conversion s pool_mode pool_ids
                            (effective_source_digest config (ms_digest <$> manual)) pool_ids);
    sealed ← seal candidate;
    let totals := summary (conv_report conversion) in
    mret (mkPrepared sealed (source_config_digest_of config) None None
            (mkUpdateReport generation (len active + (if is_some manual then 1 else 0)) (sum_accepted totals)
               (sum_duplicate totals) (node_count (cand_config candidate)) (bt_values details))).
Definition prepare (config : SourceConfig) := prepare_inputs config (Refresh None).
Definition prepare_source (config : SourceConfig) (id : SourceId) := prepare_inputs config (Refresh (Some id)).
Definition prepare_cached (config : SourceConfig) := prepare_inputs config CachedOnly.
Definition prepare_node_overrides (config : SourceConfig) (overrides : NodeOverrideSet) : Svc PreparedSourceUpdate := fun s =>
  match sv_override_file s with
  | None => (Err UpNodeOverride, s)
  | Some _ =>
      let previous := sv_overrides s in
      let (r, s) := prepare_cached config (set_overrides overrides s) in
      (p ← r; Ok (mkPrepared (pr_sealed p) (pr_source_config_digest p) (pr_pending_manual p) (Some overrides) (pr_report p)),
       set_overrides previous s)
  end.

(** *** Importing *)
Fixpoint cached_inputs (sources : list SourceDefinition) (inputs : list FilteredSourceInput) :
    Svc (list FilteredSourceInput) :=
  match sources with
  | [] => mret inputs
  | source :: rest => fun s =>
      match on_fetcher (cached source) s with
      | (Ok body, s) => cached_inputs rest (inputs ++ [source_input source (sb_bytes body)]) s
      | (Err _, s) => cached_inputs rest inputs s
      end
  end.
Definition cached_inputs_with_manual (config : SourceConfig) (bs : list Z) (format : FormatHint) :
    Svc (list FilteredSourceInput) := fun s =>
  match sv_manual s with
  | None => (Err UpManualSource, s)
  | Some _ =>
      (inputs ← cached_inputs (active_sources config) [];
       input ← mut_lift (manual_input config bs format);
       mret (inputs ++ [input])) s
  end.
(** The candidate an import would give, with its conversion. *)
Definition import_candidate (config : SourceConfig) (bs : list Z) (format : FormatHint) :
    Svc (StableConversion * Z * Candidate) :=
  inputs ← cached_inputs_with_manual config bs format;
  conversion ← mut_lift (convert inputs);
  generation ← next_generation;
  s ← mut_get;
  candidate ← mut_lift (build generation conversion s Merge (source_ids_with_manual config)
                          (effective_source_digest config (Some (sha256_hex bs))) (source_ids_with_manual config));
  mret (conversion, generation, candidate).
Definition preview_import (config : SourceConfig) (bs : list Z) (format : FormatHint) : Svc ImportPreview :=
  '(conversion, _, candidate) ← import_candidate config bs format;
  let totals := summary (conv_report conversion) in
  mret (mkPreview (digest_sha256 (cand_config candidate)) (sum_format totals) (sum_accepted totals)
          (sum_duplicate totals) (sum_rejected totals) (node_count (cand_config candidate))).
Definition import_detail (entry : SourceId * SourceOutcome) : SourceUpdateDetail :=
  let '(id, o) := entry in
  mkDetail id (Some (if String.eqb id MANUAL_SOURCE_ID then Local else LastKnownGood)) (oc_accepted o) (oc_duplicate o)
    (oc_rejected o) (oc_warnings o) None None.
Definition prepare_import (config : SourceConfig) (bs : list Z) (format : FormatHint) (expected : string) :
    Svc PreparedSourceUpdate :=
  '(conversion, generation, candidate) ← import_candidate config bs format;
  if negb (String.eqb (digest_sha256 (cand_config candidate)) expected) then mut_fail CandidateDigestMismatch
  else
    sealed ← seal candidate;
    let totals := summary (conv_report conversion) in
    mret (mkPrepared sealed (source_config_digest_of config) (Some (mkPendingManual bs format)) None
            (mkUpdateReport generation (len (conv_outcomes conversion)) (sum_accepted totals) (sum_duplicate totals)
               (node_count (cand_config candidate)) (import_detail <$> conv_outcomes conversion))).

(** *** Committing *)
(** Writes through the manual store and the override store. *)
Definition replace_manual (format : FormatHint) (bs : list Z) : Svc ManualSourceCheckpoint := fun s =>
  match sv_manual s with
  | None => (Err UpManualSource, s)
  | Some file =>
      let (o, s) := take_write s in
      let (r, file) := manual_replace o format bs file in
      (map_err (fun _ => UpManualSource) r, set_manual file s)
  end.
Definition restore_manual (c : option ManualSourceCheckpoint) : Svc unit := fun s =>
  match sv_manual s, c with
  | Some file, Some c =>
      let (o, s) := take_write s in
      let (r, file) := manual_restore sha256_hex o c file in
      (Ok tt, set_manual file s)
  | _, _ => (Ok tt, s)
  end.
Definition load_override_file : Svc NodeOverrideSet := fun s =>
  match sv_override_file s with
  | None => (Err UpNodeOverride, s)
  | Some file => (map_err (fun _ => UpNodeOverride) (overrides_load json_to_vec decode_overrides file), s)
  end.
Definition replace_override_file (overrides : NodeOverrideSet) : Svc unit := fun s =>
  match sv_override_file s with
  | None => (Err UpNodeOverride, s)
  | Some file =>
      let (o, s) := take_write s in
      let (r, file) := overrides_replace encode_overrides o overrides file in
      (map_err (fun _ => UpNodeOverride) r, set_override_file file s)
  end.
Definition restore_override_file (c : option NodeOverrideSet) : Svc unit := fun s =>
  match sv_override_file s, c with
  | Some _, Some c => quietly (replace_override_file c) s
  | _, _ => (Ok tt, s)
  end.
Definition discard_quietly (sealed : SealedGeneration) : Svc unit := quietly (on_store (discard_sealed root sealed)).
(** The manual source first; a failure to write it gives the generation up. *)
Definition commit_manual (p : PreparedSourceUpdate) : Svc (option ManualSourceCheckpoint) :=
  match pr_pending_manual p with
  | None => mret None
  | Some manual => fun s =>
      match sv_manual s with
      | None => (Err UpManualSource, s)
      | Some _ =>
          (c ← or_cleanup (replace_manual (pm_format manual) (pm_bytes manual)) (discard_quietly (pr_sealed p));
           mret (Some c)) s
      end
  end.
Definition commit_overrides (p : PreparedSourceUpdate) (manual : option ManualSourceCheckpoint) :
    Svc (option NodeOverrideSet) :=
  match pr_pending_overrides p with
  | None => mret None
  | Some overrides =>
      checkpoint ← load_override_file;
      _ ← or_cleanup (replace_override_file overrides)
            (_ ← restore_manual manual; discard_quietly (pr_sealed p));
      mret (Some checkpoint)
  end.
Definition adopt_overrides (p : PreparedSourceUpdate) : Svc unit := fun s =>
  (Ok tt, match pr_pending_overrides p with Some o => set_overrides o s | None => s end).
Definition commit (p : PreparedSourceUpdate) : Svc SourceUpdateReport :=
  manual ← commit_manual p;
  checkpoint ← commit_overrides p manual;
  _ ← or_cleanup (on_store (commit_generation sha256_hex decode_manifest decode_nodes root (pr_sealed p)))
        (_ ← restore_manual manual;
         _ ← restore_override_file checkpoint;
         discard_quietly (pr_sealed p));
  _ ← adopt_overrides p;
  mret (pr_report p).
Definition discard (p : PreparedSourceUpdate) : Svc unit := on_store (discard_sealed root (pr_sealed p)).
Definition update (config : SourceConfig) : Svc SourceUpdateReport := p ← prepare config; commit p.
Definition update_source (config : SourceConfig) (id : SourceId) : Svc SourceUpdateReport :=
  p ← prepare_source config id; commit p.
(** [is_needed]: whether the current generation was made from other sources. *)
Definition is_needed (config : SourceConfig) (s : Service) : bool * Service :=
  let manual_digest :=
    match sv_manual s with
    | Some file => match manual_load sha256_hex file with Ok (Some m) => Some (ms_digest m) | _ => None end
    | None => None
    end in
  let (r, d) := current_manifest sha256_hex decode_manifest decode_nodes (sv_disk s) in
  let current := match r with Ok (Some m) => mf_source_config_digest m | _ => None end in
  (negb (bool_decide (current = Some (effective_source_digest config manual_digest))), set_disk d s).
Definition replace_runtime_policy (capture : CapturePolicy) (stack : TunStack) (options : ManagedOptions) (s : Service) :
    Service := set_runtime (profile_replace capture stack options (sv_runtime s)) s.

(** ** The updater: one request waits for the next preparation *)
Inductive RuntimeUpdateError : Type := RuPrepare | RuCommit | RuDiscard.
Inductive PendingUpdate : Type :=
| RefreshAll | RefreshSource (id : SourceId) | CachedRebuild | PendingOverrides (overrides : NodeOverrideSet).
Record PendingImport : Type := mkImport { im_bytes : list Z; im_format : FormatHint; im_candidate_digest : string }.
Record Updater : Type := mkUpdater {
  up_service : Service;
  up_config : SourceConfig;
  up_pending_import : option PendingImport;
  up_pending_update : option PendingUpdate;
  up_last_report : option SourceUpdateReport;
}.
Definition Updater_new (service : Service) (config : SourceConfig) : Updater := mkUpdater service config None None None.
#[local] Abbreviation Upd := (Mut Updater RuntimeUpdateError).
Definition with_service (service : Service) (u : Updater) : Updater :=
  mkUpdater service (up_config u) (up_pending_import u) (up_pending_update u) (up_last_report u).
Definition with_pending (import : option PendingImport) (update : option PendingUpdate) (u : Updater) : Updater :=
  mkUpdater (up_service u) (up_config u) import update (up_last_report u).
Definition on_service {A} (e : RuntimeUpdateError) (m : Svc A) : Upd A := fun u =>
  let (r, s) := m (up_service u) in (map_err (fun _ => e) r, with_service s u).
Definition is_available (u : Updater) : bool := negb (len (active_sources (up_config u)) =? 0).
Definition busy (u : Updater) : bool := is_some (up_pending_update u) || is_some (up_pending_import u).
Definition request (update : PendingUpdate) : Upd unit := fun u =>
  if busy u then (Err RuPrepare, u) else (Ok tt, with_pending (up_pending_import u) (Some update) u).
Definition request_source_update (source_id : option string) : Upd unit := fun u =>
  match source_id with
  | None => request RefreshAll u
  | Some text =>
      match SourceId_new text with
      | Err _ => (Err RuPrepare, u)
      | Ok id =>
          if negb (existsb (fun s => String.eqb (src_id s) id) (sc_sources (up_config u))) then (Err RuPrepare, u)
          else request (RefreshSource id) u
      end
  end.
Definition request_cached_rebuild : Upd unit := request CachedRebuild.
Definition request_node_overrides (overrides : NodeOverrideSet) : Upd unit := request (PendingOverrides overrides).
Definition request_import (bs : list Z) (format : FormatHint) (digest : string) : Upd unit := fun u =>
  if busy u then (Err RuPrepare, u)
  else (Ok tt, with_pending (Some (mkImport bs format digest)) (up_pending_update u) u).
Definition replace_config (config : SourceConfig) (u : Updater) : Updater :=
  mkUpdater (up_service u) config (up_pending_import u) (up_pending_update u) (up_last_report u).
Definition take_source_update_report (u : Updater) : option SourceUpdateReport * Updater :=
  (up_last_report u, mkUpdater (up_service u) (up_config u) (up_pending_import u) (up_pending_update u) None).
Definition requested (config : SourceConfig) (update : PendingUpdate) : Svc PreparedSourceUpdate :=
  match update with
  | RefreshAll => prepare config
  | RefreshSource id => prepare_source config id
  | CachedRebuild => prepare_cached config
  | PendingOverrides overrides => prepare_node_overrides config overrides
  end.
Definition updater_prepare : Upd PreparedSourceUpdate := fun u =>
  match up_pending_import u with
  | Some import =>
      on_service RuPrepare (prepare_import (up_config u) (im_bytes import) (im_format import) (im_candidate_digest import))
        (with_pending None (up_pending_update u) u)
  | None =>
      on_service RuPrepare (requested (up_config u) (default RefreshAll (up_pending_update u)))
        (with_pending None None u)
  end.
Definition is_current (p : PreparedSourceUpdate) (u : Updater) : bool :=
  String.eqb (pr_source_config_digest p) (source_config_digest_of (up_config u)).
Definition updater_commit (p : PreparedSourceUpdate) : Upd Z := fun u =>
  match on_service RuCommit (commit p) u with
  | (Ok report, u) =>
      (Ok (ur_generation report),
       mkUpdater (up_service u) (up_config u) (up_pending_import u) (up_pending_update u) (Some report))
  | (Err e, u) => (Err e, u)
  end.
Definition updater_discard (p : PreparedSourceUpdate) : Upd unit := on_service RuDiscard (discard p).
(** [diagnose_source]: a trial preparation, thrown away again.  [report_to_value] and
    [preview_to_value] are [serde_json::to_value]. *)
Context (report_to_value : SourceUpdateReport -> option Json) (preview_to_value : ImportPreview -> option Json).
Inductive Diagnosis : Type :=
| DiagnosisFailed (stage code message : string) | DiagnosisCompleted (report : Json).
Definition diagnose_source (text : string) (u : Updater) : Diagnosis * Updater :=
  match SourceId_new text with
  | Err _ => (DiagnosisFailed "validate" "source_id_invalid" "subscription source id is invalid", u)
  | Ok id =>
      match prepare_source (up_config u) id (up_service u) with
      | (Err e, s) => (DiagnosisFailed "prepare" (SourceUpdateError_code e) (SourceUpdateError_message e), with_service s u)
      | (Ok p, s) =>
          match report_to_value (pr_report p) with
          | None =>
              (DiagnosisFailed "report" "report_serialize_failed" "subscription diagnostic report could not be serialized",
               with_service s u)
          | Some report =>
              match discard p s with
              | (Err e, s) =>
                  (DiagnosisFailed "discard" (SourceUpdateError_message e) "diagnostic candidate cleanup failed",
                   with_service s u)
              | (Ok _, s) => (DiagnosisCompleted report, with_service s u)
              end
          end
      end
  end.
Definition updater_preview (bs : list Z) (format : FormatHint) : Upd Json := fun u =>
  on_service RuPrepare
    (preview ← preview_import (up_config u) bs format;
     mut_lift (ok_or (preview_to_value preview) UpConversion)) u.

(** ** Facts: what an operation may change *)
(** The disk changed by [D], and nothing else but the fetcher. *)
Record same_but (D : Disk -> Disk -> Prop) (s s' : Service) : Prop := {
  sb_disk : D (sv_disk s) (sv_disk s');
  sb_manual : sv_manual s' = sv_manual s;
  sb_override_file : sv_override_file s' = sv_override_file s;
  sb_overrides : sv_overrides s' = sv_overrides s;
  sb_runtime : sv_runtime s' = sv_runtime s;
  sb_writes : sv_writes s' = sv_writes s;
}.
#[local] Instance same_but_preorder D : PreOrder D -> PreOrder (same_but D).
Proof.
  intros [Hr Ht]. split; [by intros s; split|]. intros s1 s2 s3 [] []. split; [by etransitivity|congruence..].
Qed.
Lemma same_but_weaken (D D' : Disk -> Disk -> Prop) s s' :
  (forall d d', D d d' -> D' d d') -> same_but D s s' -> same_but D' s s'.
Proof. intros Hw []. split; [by apply Hw|done..]. Qed.
Lemma on_store_keeps {A} (D : Disk -> Disk -> Prop) (m : Store A) : keeps D m -> keeps (same_but D) (on_store m).
Proof. intros Hm s. unfold on_store. specialize (Hm (sv_disk s)). destruct (m (sv_disk s)) as [r d]. by split. Qed.
Lemma on_store_Ok {A} (m : Store A) s a s' :
  on_store m s = (Ok a, s') -> m (sv_disk s) = (Ok a, sv_disk s').
Proof.
  unfold on_store. destruct (m (sv_disk s)) as [[b|e] d]; [|done]. by intros [= <- <-].
Qed.
Lemma on_fetcher_keeps {A} (m : Mut F SourceUpdateError A) : keeps (same_but same_tree) (on_fetcher m).
Proof. intros s. unfold on_fetcher. destruct (m (sv_fetcher s)) as [r f]. by split. Qed.
Lemma quietly_keeps {A} R (m : Svc A) : keeps R m -> keeps R (quietly m).
Proof. intros Hm s. apply Hm. Qed.
Lemma or_cleanup_keeps {A} R `{!PreOrder R} (m : Svc A) cleanup : keeps R m -> keeps R cleanup -> keeps R (or_cleanup m cleanup).
Proof.
  intros Hm Hc s. unfold or_cleanup. specialize (Hm s). destruct (m s) as [[a|e] s1]; [done|]. etransitivity; [exact Hm|apply Hc].
Qed.
Lemma or_cleanup_Ok {A} (m : Svc A) cleanup s a s' : or_cleanup m cleanup s = (Ok a, s') -> m s = (Ok a, s').
Proof. unfold or_cleanup. destruct (m s) as [[b|e] s1]; naive_solver. Qed.

(** The number of the next generation. *)
Definition next_of (d : Disk) : Z :=
  match current_file d with
  | None => 1
  | Some text => match parse_u64 (trim text) with Some g => g + 1 | None => 0 end
  end.
Lemma next_of_same d d' : current_file d' = current_file d -> next_of d' = next_of d.
Proof. unfold next_of. by intros ->. Qed.
Lemma next_generation_keeps : keeps (same_but same_tree) next_generation.
Proof.
  unfold next_generation. apply (keeps_bind _); [apply on_store_keeps, current_generation_same|].
  intros current. repeat case_match; first [apply (keeps_fail _)|apply (keeps_lift _)].
Qed.
Lemma next_generation_Ok s g s' :
  next_generation s = (Ok g, s') -> g = next_of (sv_disk s) /\ 0 < g <= umax 64 /\ same_but same_tree s s'.
Proof.
  intros Hrun. pose proof (next_generation_keeps s) as Hk. rewrite Hrun in Hk. unfold next_generation in Hrun.
  apply bind_Ok in Hrun as (current & s1 & Hc%on_store_Ok & Hrun). apply current_generation_Ok in Hc.
  unfold next_of. destruct (current_file (sv_disk s)) as [text|].
  - destruct Hc as (h & -> & Hp & Hz). rewrite Hp. apply parse_u64_range in Hp.
    destruct (umax 64 <? h + 1) eqn:Eo; [done|]. apply Z.ltb_ge in Eo. unfold mut_lift, GenerationId_new in Hrun.
    rewrite (proj2 (Z.eqb_neq _ _)) in Hrun by lia. injection Hrun as <- <-. split_and!; try done; lia.
  - subst current. injection Hrun as <- <-. split_and!; done.
Qed.

Lemma gather_keeps mode sources inputs details : keeps (same_but same_tree) (gather mode sources inputs details).
Proof.
  revert inputs details. induction sources as [|source rest IH]; intros inputs details; [apply (keeps_ret _)|].
  intros s. cbn [gather].
  pose proof (on_fetcher_keeps (if wants_fetch mode (src_id source) then fetch source else cached source) s) as Hf.
  destruct (on_fetcher _ s) as [[body|e] s1]; cbn in Hf.
  - etransitivity; [exact Hf|apply IH].
  - destruct mode as [[id|]|]; try done. etransitivity; [exact Hf|apply IH].
Qed.
Lemma cached_inputs_keeps sources inputs : keeps (same_but same_tree) (cached_inputs sources inputs).
Proof.
  revert inputs. induction sources as [|source rest IH]; intros inputs; [apply (keeps_ret _)|].
  intros s. cbn [cached_inputs]. pose proof (on_fetcher_keeps (cached source) s) as Hf.
  destruct (on_fetcher _ s) as [[body|e] s1]; cbn in Hf; (etransitivity; [exact Hf|apply IH]).
Qed.
Lemma load_manual_keeps : keeps (same_but same_tree) load_manual.
Proof. intros s. unfold load_manual. by destruct (sv_manual s). Qed.
Lemma import_candidate_keeps config bs format : keeps (same_but same_tree) (import_candidate config bs format).
Proof.
  unfold import_candidate. apply (keeps_bind _).
  { intros s. unfold cached_inputs_with_manual. destruct (sv_manual s); [|done].
    match goal with |- same_but _ _ (?m s).2 => enough (keeps (same_but same_tree) m) by auto end.
    apply (keeps_bind _); [apply cached_inputs_keeps|intros inputs].
    apply (keeps_bind _); [apply (keeps_lift _)|intros input]. apply (keeps_ret _). }
  intros inputs. apply (keeps_bind _); [apply (keeps_lift _)|intros conversion].
  apply (keeps_bind _); [apply next_generation_keeps|intros generation].
  apply (keeps_bind _); [by intros s|intros s]. apply (keeps_bind _); [apply (keeps_lift _)|intros candidate].
  apply (keeps_ret _).
Qed.
Lemma build_generation generation conversion s mode pool_ids digest ids c :
  build generation conversion s mode pool_ids digest ids = Ok c ->
  cand_generation c = generation /\ mf_source_config_digest (cand_manifest c) = Some digest
  /\ mf_source_ids (cand_manifest c) = ids.
Proof.
  unfold build. intros (built & Hb & Hrun)%result_bind_Ok. apply result_bind_Ok in Hrun as (c0 & Hc0%map_err_Ok & Hc%map_err_Ok).
  unfold bind_sources in Hc. split_if_in Hc Hv; [done|]. injection Hc as <-. split_and!; try done. cbn.
  destruct (build_candidate_with_overrides _ _ _ _ _ _ _ _ _ _) as [r|] eqn:Eb; [|done]. injection Hb as <-. subst r.
  unfold build_candidate_with_overrides in Eb. split_if_in Eb He; [done|]. destruct (map_result _ _); [|done].
  destruct (CandidatePool.build_candidate_pools _ _ _ _); [|done]. injection Eb as Eb.
  do 6 (apply result_bind_Ok in Eb as (? & _ & Eb)). apply map_err_Ok in Eb. unfold with_node_registry in Eb.
  split_if_in Eb Hn; [done|]. by injection Eb as <-.
Qed.

(** ** Facts: preparing *)
#[local] Abbreviation DirOf := (dir_of encode_manifest encode_nodes).
Lemma seal_keeps c : keeps (same_but (touches (cand_generation c))) (seal c).
Proof.
  unfold seal. apply (keeps_bind_val _).
  { apply on_store_keeps. eapply keeps_weaken; [apply candidates_touches|apply prepare_keeps]. }
  intros s p s' (-> & _)%on_store_Ok%prepare_Ok.
  match goal with |- same_but _ _ (?m s').2 => enough (keeps (same_but (touches (cand_generation c))) m) by auto end.
  assert (keeps (same_but (touches (cand_generation c)))
    (quietly (on_store (discard_prepared root (mkPreparedCandidate root (cand_generation c)))))) as Hd.
  { apply quietly_keeps, on_store_keeps. eapply keeps_weaken; [apply candidates_touches|apply discard_prepared_keeps]. }
  apply (keeps_bind _); [apply (or_cleanup_keeps _); [case_match; first [apply (keeps_ret _)|apply (keeps_fail _)]|done]|].
  intros []. apply (or_cleanup_keeps _); [|done]. apply on_store_keeps, seal_touches.
Qed.
Lemma seal_taken c s r s' dir :
  sealed_dirs (sv_disk s) !! cand_generation c = Some dir -> seal c s = (r, s') ->
  is_err r = true /\ sealed_dirs (sv_disk s') !! cand_generation c = Some dir.
Proof.
  intros Hd. unfold seal, mbind, Mut_bind, on_store at 1, prepare_candidate. rewrite Hd. by intros [= <- <-].
Qed.
Lemma seal_Ok_facts c s sealed s' :
  seal c s = (Ok sealed, s') ->
  let g := cand_generation c in
  check (cfg_bytes (cand_config c)) = true /\ sealed = mkSealed root g
  /\ sealed_dirs (sv_disk s) !! g = None
  /\ sealed_dirs (sv_disk s') = <[g := DirOf c]> (sealed_dirs (sv_disk s)).
Proof.
  unfold seal. intros (p & s1 & (-> & [K1 _] & Hnone & Hdir)%on_store_Ok%prepare_Ok & Hrun)%bind_Ok.
  apply bind_Ok in Hrun as ([] & s2 & Hchk%or_cleanup_Ok & Hseal%or_cleanup_Ok).
  destruct (check _); [|done]. injection Hchk as <-.
  apply on_store_Ok, seal_Ok in Hseal as (-> & dir & D1 & D2 & _). cbn [prepared_generation] in *.
  rewrite Hdir in D1. injection D1 as <-. split_and!; [done|done|done|]. by rewrite D2, K1.
Qed.

(** What preparing an update does: only the directories of the next generation are touched,
    a taken number is refused and left as it is, and on success that generation is sealed with
    exactly the files of a candidate that was checked. *)
Definition prepared_result (config : SourceConfig) (s : Service) (r : Result SourceUpdateError PreparedSourceUpdate)
    (s' : Service) : Prop :=
  let g := next_of (sv_disk s) in
  same_but (touches g) s s'
  /\ (forall dir, sealed_dirs (sv_disk s) !! g = Some dir -> is_err r = true /\ sealed_dirs (sv_disk s') !! g = Some dir)
  /\ (forall p, r = Ok p ->
        0 < g <= umax 64 /\ pr_sealed p = mkSealed root g /\ ur_generation (pr_report p) = g
        /\ pr_source_config_digest p = source_config_digest_of config
        /\ (pr_pending_manual p = None \/ pr_pending_overrides p = None)
        /\ exists c, cand_generation c = g /\ check (cfg_bytes (cand_config c)) = true
             /\ ur_node_count (pr_report p) = node_count (cand_config c)
             /\ sealed_dirs (sv_disk s) !! g = None
             /\ sealed_dirs (sv_disk s') = <[g := DirOf c]> (sealed_dirs (sv_disk s))).

(** From a state in which only reads have happened since [s0], sealing a candidate for the
    next generation prepares it. *)
Lemma prepares_seal config s0 s c finish r s' :
  same_but same_tree s0 s -> cand_generation c = next_of (sv_disk s0) -> 0 < cand_generation c <= umax 64 ->
  (forall sealed p s1 s2, finish sealed s1 = (Ok p, s2) -> s2 = s1 /\ pr_sealed p = sealed
     /\ ur_generation (pr_report p) = cand_generation c /\ pr_source_config_digest p = source_config_digest_of config
     /\ (pr_pending_manual p = None \/ pr_pending_overrides p = None)
     /\ ur_node_count (pr_report p) = node_count (cand_config c)) ->
  (forall sealed s1, exists p, finish sealed s1 = (Ok p, s1)) ->
  (sealed ← seal c; finish sealed) s = (r, s') ->
  prepared_result config s0 r s'.
Proof.
  intros Hsame Hg Hrange Hfin Hfin' Hrun. unfold prepared_result. rewrite <- Hg. pose proof Hsame as [(T1 & _ & T3) _ _ _ _ _].
  pose proof (seal_keeps c s) as Hk.
  assert (same_but (touches (cand_generation c)) s0 s) as Hstart.
  { eapply same_but_weaken; [|exact Hsame]. intros. by apply candidates_touches, same_tree_candidates. }
  apply bind_inv in Hrun as [(sealed & s1 & Hseal & Hf)|(e & Hseal & ->)]; rewrite Hseal in Hk; cbn in Hk.
  - destruct (Hfin' sealed s1) as [p' Hp']. rewrite Hp' in Hf. injection Hf as <- <-.
    apply Hfin in Hp' as (_ & P1 & P2 & P3 & P4 & P5).
    pose proof Hseal as Hok. apply seal_Ok_facts in Hok as (Hchk & -> & Hnone & Hdirs). rewrite T1 in *.
    split_and!; [by etransitivity|intros dir Hd; congruence|].
    intros p [= <-]. split_and!; try done; try lia. exists c. split_and!; done.
  - split_and!; [by etransitivity| |done]. intros dir Hd. rewrite <- T1 in Hd. by apply (seal_taken c s _ _ _ Hd) in Hseal.
Qed.
(** A failure before sealing. *)
Lemma prepares_early config s0 s e : same_but same_tree s0 s -> prepared_result config s0 (Err e) s.
Proof.
  intros Hsame. unfold prepared_result. cbv zeta. split_and!; [|intros dir Hd; split; [done|]|by intros p].
  2: by destruct Hsame as [(-> & _) _ _ _ _ _].
  eapply same_but_weaken; [|exact Hsame]. intros. by apply candidates_touches, same_tree_candidates.
Qed.
Lemma prepare_inputs_result config mode s r s' :
  prepare_inputs config mode s = (r, s') -> prepared_result config s r s'.
Proof.
  unfold prepare_inputs. intros Hrun.
  apply bind_inv in Hrun as [(g & s1 & Hg & Hrun)|(e & Hg & ->)].
  2: { apply prepares_early. pose proof (next_generation_keeps s) as Hk. by rewrite Hg in Hk. }
  apply next_generation_Ok in Hg as (Hg & Hrange & K1).
  destruct (mode_known _ _); cbn [negb] in Hrun; [|injection Hrun as <- <-; by apply prepares_early].
  apply bind_inv in Hrun as [(gathered & s2 & Hga & Hrun)|(e & Hga & ->)];
    (pose proof (gather_keeps mode (active_sources config) [] [] s1) as K2; rewrite Hga in K2; cbn in K2).
  2: { apply prepares_early. by etransitivity. }
  assert (same_but same_tree s s2) as K3 by by etransitivity.
  apply bind_inv in Hrun as [(manual & s3 & Hm & Hrun)|(e & Hm & ->)];
    (pose proof (load_manual_keeps s2) as K4; rewrite Hm in K4; cbn in K4).
  2: { apply prepares_early. by etransitivity. }
  assert (same_but same_tree s s3) as K5 by by etransitivity.
  apply bind_inv in Hrun as [([inputs details] & s4 & Ha & Hrun)|(e & Ha & ->)];
    [injection Ha as Ha <-|injection Ha as Ha <-; by apply prepares_early].
  apply bind_inv in Hrun as [(conversion & s5 & Hc & Hrun)|(e & Hc & ->)];
    [injection Hc as Hc <-|injection Hc as Hc <-; by apply prepares_early].
  apply bind_inv in Hrun as [(s6 & s7 & [= <- <-] & Hrun)|(e & He & ->)]; [|done].
  apply bind_inv in Hrun as [(candidate & s8 & Hb & Hrun)|(e & Hb & ->)];
    [injection Hb as Hb <-|injection Hb as Hb <-; by apply prepares_early].
  apply build_generation in Hb as (Hcg & _).
  eapply (prepares_seal config s s3 candidate); [exact K5|congruence|congruence| |intros; by eexists|exact Hrun].
  intros sealed p x y [= <- <-]. split_and!; try done. by left.
Qed.
Lemma import_candidate_Ok config bs format s conversion g c s' :
  import_candidate config bs format s = (Ok (conversion, g, c), s') ->
  same_but same_tree s s' /\ g = next_of (sv_disk s) /\ 0 < g <= umax 64 /\ cand_generation c = g.
Proof.
  intros Hrun. pose proof (import_candidate_keeps config bs format s) as Hk. rewrite Hrun in Hk. split; [exact Hk|].
  unfold import_candidate in Hrun. apply bind_Ok in Hrun as (inputs & s1 & Hi & Hrun).
  apply bind_Ok in Hrun as (conv & s2 & [= Hc <-] & Hrun). apply bind_Ok in Hrun as (g' & s3 & Hg & Hrun).
  apply bind_Ok in Hrun as (s4 & s5 & [= <- <-] & Hrun). apply bind_Ok in Hrun as (c' & s6 & [= Hb <-] & [= <- <- <- <-]).
  apply build_generation in Hb as [Hb _]. apply next_generation_Ok in Hg as (Hg & Hr & Ksame).
  assert (current_file (sv_disk s1) = current_file (sv_disk s)) as Hcur.
  { destruct Hk as [(_ & _ & T) _ _ _ _ _], Ksame as [(_ & _ & U) _ _ _ _ _]. cbn in T. congruence. }
  rewrite (next_of_same _ _ Hcur) in Hg. split_and!; try done; lia.
Qed.
Lemma prepare_import_result config bs format expected s r s' :
  prepare_import config bs format expected s = (r, s') -> prepared_result config s r s'.
Proof.
  unfold prepare_import. intros Hrun.
  apply bind_inv in Hrun as [([[conversion g] c] & s1 & Hi & Hrun)|(e & Hi & ->)].
  2: { apply prepares_early. pose proof (import_candidate_keeps config bs format s) as Hk. by rewrite Hi in Hk. }
  apply import_candidate_Ok in Hi as (Ksame & Hg & Hr & Hc).
  destruct (String.eqb _ _); cbn [negb] in Hrun; [|injection Hrun as <- <-; by apply prepares_early].
  eapply (prepares_seal config s s1 c); [exact Ksame|congruence|by rewrite Hc| |intros; by eexists|exact Hrun].
  intros sealed p x y [= <- <-]. split_and!; try done. by right.
Qed.
Lemma prepare_inputs_plain config mode s p s' :
  prepare_inputs config mode s = (Ok p, s') -> pr_pending_manual p = None.
Proof.
  unfold prepare_inputs. intros (g & s1 & _ & Hrun)%bind_Ok. destruct (mode_known _ _); cbn [negb] in Hrun; [|done].
  apply bind_Ok in Hrun as (gathered & s2 & _ & Hrun). apply bind_Ok in Hrun as (manual & s3 & _ & Hrun).
  apply bind_Ok in Hrun as ([inputs details] & s4 & _ & Hrun). apply bind_Ok in Hrun as (conversion & s5 & _ & Hrun).
  apply bind_Ok in Hrun as (s6 & s7 & _ & Hrun). apply bind_Ok in Hrun as (candidate & s8 & _ & Hrun).
  by apply bind_Ok in Hrun as (sealed & s9 & _ & [= <- _]).
Qed.
Lemma prepare_overrides_result config overrides s r s' :
  prepare_node_overrides config overrides s = (r, s') -> prepared_result config s r s'.
Proof.
  unfold prepare_node_overrides. destruct (sv_override_file s) eqn:Ef; [|intros [= <- <-]; by apply prepares_early].
  destruct (prepare_cached config (set_overrides overrides s)) as [r1 s1] eqn:Ep. pose proof Ep as Hplain.
  apply prepare_inputs_result in Ep as ([T1 T2 T3 _ T5 T6] & Htaken & Hok). intros [= <- <-]. split_and!.
  - by split.
  - intros dir Hd. destruct (Htaken dir Hd) as [He Hs]. split; [|done]. by destruct r1.
  - intros p. destruct r1 as [p1|]; [|done]. intros [= <-].
    destruct (Hok p1 eq_refl) as (P1 & P2 & P3 & P4 & P5 & P6).
    split; [done|]. split; [done|]. split; [done|]. split; [done|].
    split; [left; by apply prepare_inputs_plain in Hplain|exact P6].
Qed.
Lemma requested_result config u s r s' : requested config u s = (r, s') -> prepared_result config s r s'.
Proof.
  destruct u; cbn [requested]; [apply prepare_inputs_result..|apply prepare_overrides_result].
Qed.

(** C6: preparing an update never disturbs what runs.  Whatever is requested (refreshing all
    sources or one, rebuilding from the caches, new overrides, an import), whatever the fetcher
    answers and whatever file operation fails: the current generation, every other sealed
    generation, the manual source, the override file and the overrides in use are untouched;
    and a preparation that succeeds has sealed the generation after the current one, which was
    free, with exactly the files of a candidate the core has checked, and reports that number. *)
Theorem prepare_seals_next config s :
  (forall u r s', requested config u s = (r, s') -> prepared_result config s r s')
  /\ (forall bs format expected r s', prepare_import config bs format expected s = (r, s') -> prepared_result config s r s').
Proof. split; intros *; [apply requested_result|apply prepare_import_result]. Qed.

(** The next number is taken by a generation that is not current. *)
Definition blocked (s : Service) : Prop := is_Some (sealed_dirs (sv_disk s) !! next_of (sv_disk s)).
Lemma prepared_result_blocked config s r s' : blocked s -> prepared_result config s r s' -> is_err r = true /\ blocked s'.
Proof.
  intros [dir Hd] ([[_ Hc] _ _ _ _ _] & Htaken & _). destruct (Htaken dir Hd) as [He Hs]. split; [done|].
  exists dir. by rewrite (next_of_same _ _ Hc).
Qed.
(** Any number of preparations in a row. *)
Definition attempt (config : SourceConfig) (a : PendingUpdate + PendingImport) : Svc PreparedSourceUpdate :=
  match a with
  | inl u => requested config u
  | inr i => prepare_import config (im_bytes i) (im_format i) (im_candidate_digest i)
  end.
Fixpoint attempts (config : SourceConfig) (l : list (PendingUpdate + PendingImport)) (s : Service) :
    list (Result SourceUpdateError PreparedSourceUpdate) :=
  match l with
  | [] => []
  | a :: rest => let (r, s) := attempt config a s in r :: attempts config rest s
  end.

(** A generation left behind blocks every later update.  When the directory of the
    generation after the current one is there (the daemon was stopped between sealing and
    committing, or a cleanup failed), every further preparation fails, for any requests in any
    order: the number it takes is the one that is taken, and no operation of the service
    removes it (the recovery at the start does only when a commit journal names it, which a
    refresh does not write). *)
Theorem leftover_blocks_updates config l s :
  blocked s -> Forall (fun r => is_err r = true) (attempts config l s).
Proof.
  revert s. induction l as [|a rest IH]; intros s Hb; cbn [attempts]; [constructor|].
  destruct (attempt config a s) as [r s'] eqn:Ea.
  assert (prepared_result config s r s') as Hres.
  { destruct a; [by apply requested_result in Ea|by apply prepare_import_result in Ea]. }
  destruct (prepared_result_blocked _ _ _ _ Hb Hres) as [He Hb']. constructor; [done|by apply IH].
Qed.

(** ** Facts: committing *)
Definition manual_view (s : Service) : option (Result ManualSourceError (option ManualSource)) :=
  manual_load sha256_hex <$> sv_manual s.
Definition override_view (s : Service) : option (Result NodeOverrideError NodeOverrideSet) :=
  overrides_load json_to_vec decode_overrides <$> sv_override_file s.
#[local] Abbreviation GenValid := (gen_valid sha256_hex decode_manifest decode_nodes).
(** Nothing is left of an update to [g], unless the pointer to it had already moved. *)
Record undone (g : Z) (s s' : Service) : Prop := {
  un_sealed : delete g (sealed_dirs (sv_disk s')) = delete g (sealed_dirs (sv_disk s));
  un_current : current_file (sv_disk s') = current_file (sv_disk s)
    \/ (current_file (sv_disk s') = Some (current_text g) /\ GenValid g (sealed_dirs (sv_disk s')));
  un_overrides : sv_overrides s' = sv_overrides s;
  un_manual : manual_view s' = manual_view s;
  un_override_file : override_view s' = override_view s;
}.
(** Everything of an update to [g] is there. *)
Record done_with (p : PreparedSourceUpdate) (s s' : Service) : Prop := {
  dw_current : current_file (sv_disk s') = Some (current_text (sealed_generation_id (pr_sealed p)));
  dw_sealed : sealed_dirs (sv_disk s') = sealed_dirs (sv_disk s);
  dw_overrides : sv_overrides s' = default (sv_overrides s) (pr_pending_overrides p);
  dw_manual : manual_view s' = match pr_pending_manual p with
    | Some m => Some (Ok (Some (mkManual (pm_format m) (pm_bytes m) (sha256_hex (pm_bytes m)))))
    | None => manual_view s
    end;
  dw_override_file : override_view s' = match pr_pending_overrides p with
    | Some o => Some (Ok o)
    | None => override_view s
    end;
}.
(** serde reads what it writes of a set. *)
Definition writable (o : NodeOverrideSet) : Prop :=
  decode_overrides (encode_overrides (overrides_document o)) = Some (overrides_document o)
  /\ 0 < len (encode_overrides (overrides_document o)).
(** The files are in order: what is there is read, and what is written is read back. *)
Record files_ok (s : Service) : Prop := {
  fo_writes : sv_writes s = [];
  fo_manual : forall file, sv_manual s = Some file -> settled file /\ is_ok (manual_load sha256_hex file) = true;
  fo_fits : forall file c, sv_override_file s = Some file -> overrides_load json_to_vec decode_overrides file = Ok c ->
    writable c /\ len (encode_overrides (overrides_document c)) <= MAX_FILE_BYTES;
}.
(** Objects are sorted by key. *)
Definition sorted_objects : Prop := forall bs doc e object,
  decode_overrides bs = Some doc -> e ∈ sd_entries doc -> so_outbound e = JObject object -> bt_wf object.

Lemma discard_quietly_keeps sealed : keeps (same_but (touches (sealed_generation_id sealed))) (discard_quietly sealed).
Proof. apply quietly_keeps, on_store_keeps, discard_sealed_touches. Qed.
Lemma same_but_undone g s s' : same_but (touches g) s s' -> undone g s s'.
Proof.
  intros [[T1 T2] Hm Hf Ho _ _]. unfold manual_view, override_view. split; [done|by left|done|..].
  - unfold manual_view. by rewrite Hm.
  - unfold override_view. by rewrite Hf.
Qed.
Lemma undone_discard p s s1 :
  is_uint 64 (sealed_generation_id (pr_sealed p)) -> sealed_generation_id (pr_sealed p) <> 0 ->
  sealed_root (pr_sealed p) = root ->
  undone (sealed_generation_id (pr_sealed p)) s s1 ->
  undone (sealed_generation_id (pr_sealed p)) s (discard_quietly (pr_sealed p) s1).2.
Proof.
  intros Hg Hz Hroot [U1 U2 U3 U4 U5]. destruct (discard_quietly_keeps (pr_sealed p) s1) as [[T1 T2] Hm Hf Ho _ _].
  split; [congruence| |congruence| |].
  - destruct U2 as [U2|[U2 Hv]]; [left; congruence|right]. split; [congruence|].
    unfold discard_quietly, quietly, on_store in *. cbn [snd] in *.
    pose proof (discard_current root (sealed_generation_id (pr_sealed p)) (sv_disk s1) Hg Hz U2) as (S1 & _).
    destruct (pr_sealed p) as [r g]. cbn in Hroot, S1 |- *. subst r.
    destruct (discard_sealed _ _ _) as [res d]. cbn in *. by rewrite S1.
  - unfold manual_view in *. by rewrite Hm.
  - unfold override_view in *. by rewrite Hf.
Qed.
Lemma take_write_clean s : sv_writes s = [] -> take_write s = (Written, s).
Proof. unfold take_write. by intros ->. Qed.

Lemma replace_manual_cases format bs s r s' :
  files_ok s -> replace_manual format bs s = (r, s') ->
  match r with
  | Err _ => s' = s
  | Ok c => exists file file', sv_manual s = Some file /\ s' = set_manual file' s
      /\ manual_load sha256_hex file' = Ok (Some (mkManual format bs (sha256_hex bs)))
      /\ exists file'', manual_restore sha256_hex Written c file' = (Ok tt, file'')
           /\ manual_load sha256_hex file'' = manual_load sha256_hex file
  end.
Proof.
  intros [Hw Hm _]. unfold replace_manual. destruct (sv_manual s) as [file|] eqn:Ef; [|by intros [= <- <-]].
  rewrite (take_write_clean s Hw). destruct (Hm file eq_refl) as [Hset Hload].
  destruct (manual_replace _ _ _ _) as [[c|e] file'] eqn:Er; intros [= <- <-].
  - exists file, file'. split_and!; try done; [by eapply manual_round_trip in Er as [-> _]|].
    destruct (manual_load sha256_hex file) as [previous|] eqn:El; [|done].
    apply (manual_round_trip sha256_hex) in Er as [_ Hback]; [|done]. destruct (Hback _ El) as (file'' & H1' & H2').
    exists file''. by rewrite H2'.
  - assert (file' = file) as ->.
    { unfold manual_replace in Er. destruct (validate_body bs); [|by injection Er]. destruct (read_file file); [|by injection Er].
      by cbn in Er. }
    destruct s. cbn in Ef |- *. by subst.
Qed.
Lemma replace_override_cases o s r s' :
  sv_writes s = [] -> sorted_objects -> overrides_ok json_to_vec o -> writable o -> replace_override_file o s = (r, s') ->
  match r with
  | Err _ => s' = s /\ (is_some (sv_override_file s) = true -> MAX_FILE_BYTES < len (encode_overrides (overrides_document o)))
  | Ok _ => exists file', s' = set_override_file file' s /\ overrides_load json_to_vec decode_overrides file' = Ok o
  end.
Proof.
  intros Hw Hsort Ho [Hround Hne]. unfold replace_override_file. destruct (sv_override_file s) as [file|] eqn:Ef; [|by intros [= <- <-]].
  rewrite (take_write_clean s Hw). unfold overrides_replace. rewrite (overrides_ok_valid _ o Ho).
  split_if Hsize; [apply Z.ltb_lt in Hsize|apply Z.ltb_ge in Hsize]; cbn [write_node map_err]; intros [= <- <-].
  - split; [|done]. destruct s. cbn in Ef |- *. by subst.
  - eexists. split; [done|]. by apply overrides_load_stored.
Qed.

Section commit_facts.
Context (p : PreparedSourceUpdate).
Hypothesis Hroot : sealed_root (pr_sealed p) = root.
Hypothesis Hgen : is_uint 64 (sealed_generation_id (pr_sealed p)).
Hypothesis Hzero : sealed_generation_id (pr_sealed p) <> 0.
Hypothesis Hsingle : pr_pending_manual p = None \/ pr_pending_overrides p = None.
Hypothesis Hoverrides : forall o, pr_pending_overrides p = Some o -> overrides_ok json_to_vec o /\ writable o.
Hypothesis Hsorted : sorted_objects.
#[local] Abbreviation g := (sealed_generation_id (pr_sealed p)).

Lemma commit_manual_cases s r s1 :
  files_ok s -> commit_manual p s = (r, s1) ->
  match r with
  | Err _ => undone g s s1
  | Ok None => s1 = s /\ pr_pending_manual p = None
  | Ok (Some c) => exists m file file', pr_pending_manual p = Some m /\ sv_manual s = Some file /\ s1 = set_manual file' s
      /\ manual_load sha256_hex file' = Ok (Some (mkManual (pm_format m) (pm_bytes m) (sha256_hex (pm_bytes m))))
      /\ exists file'', manual_restore sha256_hex Written c file' = (Ok tt, file'')
           /\ manual_load sha256_hex file'' = manual_load sha256_hex file
  end.
Proof.
  intros Hf. unfold commit_manual. destruct (pr_pending_manual p) as [m|]; [|by intros [= <- <-]].
  destruct (sv_manual s) eqn:Em; [|intros [= <- <-]; by apply same_but_undone].
  intros Hrun. apply bind_inv in Hrun as [(c & s2 & Hrep%or_cleanup_Ok & [= <- <-])|(e & Hrep & ->)].
  - apply replace_manual_cases in Hrep as (file & file' & Hs & -> & Hl & Hback); [|done].
    exists m, file, file'. split_and!; try done. congruence.
  - unfold or_cleanup in Hrep. destruct (replace_manual _ _ s) as [[c|e'] s2] eqn:Erep; [done|].
    apply replace_manual_cases in Erep as ->; [|done]. injection Hrep as _ <-.
    apply undone_discard; try done. by apply same_but_undone.
Qed.
(** What [commit_generation] does to the store. *)
Definition pointer_step (d d' : Disk) : Prop :=
  sealed_dirs d' = sealed_dirs d
  /\ (current_file d' = current_file d \/ (current_file d' = Some (current_text g) /\ GenValid g (sealed_dirs d'))).
Lemma commit_store_cases s r s' :
  on_store (commit_generation sha256_hex decode_manifest decode_nodes root (pr_sealed p)) s = (r, s') ->
  same_but pointer_step s s' /\ (is_ok r = true -> current_file (sv_disk s') = Some (current_text g)).
Proof.
  unfold on_store. destruct (commit_generation _ _ _ _ _ _) as [res d] eqn:Ec. intros [= <- <-].
  apply commit_cases in Ec as (C1 & C2 & C3 & C4). split.
  - split; try done. cbn. split; [done|]. destruct C4 as [C4|[C4 Hv]]; [by left|right]. by rewrite C1.
  - intros Hok. cbn. apply C3. by destruct res as [[]|].
Qed.
Lemma pointer_undone s s' : same_but pointer_step s s' -> undone g s s'.
Proof.
  intros [[T1 T2] Hm Hf Ho _ _]. split; try done; [by rewrite T1|..].
  - unfold manual_view. by rewrite Hm.
  - unfold override_view. by rewrite Hf.
Qed.
Lemma restore_manual_undone s file file' c :
  files_ok s -> sv_manual s = Some file ->
  (exists file'', manual_restore sha256_hex Written c file' = (Ok tt, file'')
     /\ manual_load sha256_hex file'' = manual_load sha256_hex file) ->
  forall s2, same_but pointer_step (set_manual file' s) s2 -> undone g s (restore_manual (Some c) s2).2.
Proof.
  intros [Hw _ _] Hs (file'' & Hr & Hl) s2 [[T1 T2] Hm Hf Ho _ Hws]. cbn in *. unfold restore_manual. rewrite Hm.
  rewrite (take_write_clean s2) by congruence. rewrite Hr. split; cbn; [congruence|done|done|..].
  - unfold manual_view. cbn. by rewrite Hs, Hl.
  - unfold override_view. cbn. by rewrite Hf.
Qed.
Lemma restore_override_undone s file c :
  files_ok s -> sv_override_file s = Some file -> overrides_load json_to_vec decode_overrides file = Ok c ->
  forall file' s2, same_but pointer_step (set_override_file file' s) s2 -> undone g s (restore_override_file (Some c) s2).2.
Proof.
  intros [Hw _ Hfits] Hs Hload file' s2 [[T1 T2] Hm Hf Ho _ Hws]. cbn in *. unfold restore_override_file, quietly. rewrite Hf.
  destruct (replace_override_file c s2) as [r s3] eqn:Er. cbn [snd].
  destruct (Hfits _ _ Hs Hload) as [Hwr Hlen].
  apply replace_override_cases in Er; [|congruence|done|eapply overrides_load_ok; [exact Hsorted|exact Hload]|done].
  destruct r as [[]|e].
  - destruct Er as (file'' & -> & Hl). split; cbn; [congruence|done|done|..].
    + unfold manual_view. cbn. by rewrite Hm.
    + unfold override_view. cbn. rewrite Hs. cbn. by rewrite Hl, Hload.
  - destruct Er as [-> Hbig]. rewrite Hf in Hbig. specialize (Hbig eq_refl). lia.
Qed.
(** The end of a commit, after the files. *)
Definition publish_step (manual : option ManualSourceCheckpoint) (checkpoint : option NodeOverrideSet) : Svc SourceUpdateReport :=
  _ ← or_cleanup (on_store (commit_generation sha256_hex decode_manifest decode_nodes root (pr_sealed p)))
        (_ ← restore_manual manual;
         _ ← restore_override_file checkpoint;
         discard_quietly (pr_sealed p));
  _ ← adopt_overrides p;
  mret (pr_report p).
Lemma publish_step_Ok manual checkpoint s report s' :
  publish_step manual checkpoint s = (Ok report, s') ->
  report = pr_report p /\ exists s2, same_but pointer_step s s2 /\ current_file (sv_disk s2) = Some (current_text g)
    /\ s' = match pr_pending_overrides p with Some o => set_overrides o s2 | None => s2 end.
Proof.
  unfold publish_step. intros ([] & s2 & Hc%or_cleanup_Ok & Hrun)%bind_Ok.
  apply bind_Ok in Hrun as ([] & s3 & [= <-] & [= <- <-]). apply commit_store_cases in Hc as [Hs Hcur].
  split; [done|]. exists s2. split_and!; [done|by apply Hcur|done].
Qed.
Lemma publish_step_Err manual checkpoint s e s' :
  publish_step manual checkpoint s = (Err e, s') ->
  exists s2, same_but pointer_step s s2
    /\ s' = (discard_quietly (pr_sealed p) (restore_override_file checkpoint (restore_manual manual s2).2).2).2.
Proof.
  unfold publish_step. intros Hrun. apply bind_inv in Hrun as [([] & s2 & _ & Hrun)|(e' & Hc & Heq)]; [done|].
  unfold or_cleanup in Hc. destruct (on_store _ s) as [[[]|e2] s2] eqn:Es; [done|].
  apply commit_store_cases in Es as [Hs _]. exists s2. split; [done|]. injection Hc as _ <-.
  assert (forall m (x : Service), exists y, restore_manual m x = (Ok tt, y)) as Hrm.
  { intros m x. unfold restore_manual. destruct (sv_manual x), m; try by eexists.
    destruct (take_write x). destruct (manual_restore _ _ _ _). by eexists. }
  assert (forall c (x : Service), exists y, restore_override_file c x = (Ok tt, y)) as Hro.
  { intros c x. unfold restore_override_file. destruct (sv_override_file x), c; by eexists. }
  unfold mbind, Mut_bind. destruct (Hrm manual s2) as [y1 ->]. cbn [snd]. by destruct (Hro checkpoint y1) as [y2 ->].
Qed.
End commit_facts.
Section commit_theorem.
Context (p : PreparedSourceUpdate).
Hypothesis Hroot : sealed_root (pr_sealed p) = root.
Hypothesis Hgen : is_uint 64 (sealed_generation_id (pr_sealed p)).
Hypothesis Hzero : sealed_generation_id (pr_sealed p) <> 0.
Hypothesis Hsingle : pr_pending_manual p = None \/ pr_pending_overrides p = None.
Hypothesis Hoverrides : forall o, pr_pending_overrides p = Some o -> overrides_ok json_to_vec o /\ writable o.
Hypothesis Hsorted : sorted_objects.
#[local] Abbreviation g := (sealed_generation_id (pr_sealed p)).
Definition committed (s : Service) (r : Result SourceUpdateError SourceUpdateReport) (s' : Service) : Prop :=
  match r with Ok report => report = pr_report p /\ done_with p s s' | Err _ => undone g s s' end.

Lemma commit_import s m : files_ok s -> pr_pending_manual p = Some m -> pr_pending_overrides p = None ->
  forall r s', commit p s = (r, s') -> committed s r s'.
Proof.
  intros Hf Hm Ho r s' Hrun. unfold commit in Hrun.
  apply bind_inv in Hrun as [(manual & s1 & Hcm & Hrun)|(e & Hcm & ->)]; apply commit_manual_cases in Hcm; try done.
  destruct manual as [c|]; [|by destruct Hcm; congruence].
  destruct Hcm as (m' & file & file' & Hm' & Hfile & -> & Hload & Hback).
  apply bind_inv in Hrun as [(checkpoint & s2 & Hco & Hrun)|(e & Hco & ->)]; unfold commit_overrides in Hco; rewrite Ho in Hco; [|done].
  injection Hco as <- <-. fold (publish_step p (Some c) None) in Hrun.
  destruct r as [report|e].
  - apply publish_step_Ok in Hrun as (-> & s2 & [[T1 T2] Km Kf Ko _ _] & Hcur & ->). rewrite Ho. split; [done|].
    split; cbn; try done; try congruence.
    + by rewrite Ho.
    + unfold manual_view. rewrite Km, Hm. cbn. rewrite Hm in Hm'. injection Hm' as <-. by rewrite Hload.
    + rewrite Ho. unfold override_view. by rewrite Kf.
  - apply publish_step_Err in Hrun as (s2 & Hs2 & ->). cbn. apply undone_discard; try done.
    assert (forall x, (restore_override_file None x).2 = x) as ->
      by (intros x; unfold restore_override_file; by destruct (sv_override_file x)).
    by eapply restore_manual_undone.
Qed.
Lemma commit_new_overrides s o : files_ok s -> pr_pending_manual p = None -> pr_pending_overrides p = Some o ->
  forall r s', commit p s = (r, s') -> committed s r s'.
Proof.
  intros Hf Hm Ho r s' Hrun. unfold commit in Hrun.
  apply bind_inv in Hrun as [(manual & s1 & Hcm & Hrun)|(e & Hcm & ->)]; unfold commit_manual in Hcm; rewrite Hm in Hcm; [|done].
  injection Hcm as <- <-.
  assert (forall x, (restore_manual None x) = (Ok tt, x)) as Hnone
    by (intros x; unfold restore_manual; by destruct (sv_manual x)).
  apply bind_inv in Hrun as [(checkpoint & s2 & Hco & Hrun)|(e & Hco & ->)]; unfold commit_overrides in Hco; rewrite Ho in Hco.
  - apply bind_Ok in Hco as (c & s3 & Hl & Hco). apply bind_Ok in Hco as ([] & s4 & Hrep%or_cleanup_Ok & [= <- <-]).
    unfold load_override_file in Hl. destruct (sv_override_file s) as [file|] eqn:Ef; [|done].
    injection Hl as Hl%map_err_Ok <-.
    apply replace_override_cases in Hrep as (file' & -> & Hload); [|by destruct Hf|done|by apply Hoverrides|by apply Hoverrides].
    fold (publish_step p None (Some c)) in Hrun. destruct r as [report|e].
    + apply publish_step_Ok in Hrun as (-> & s2 & [[T1 T2] Km Kf Ko _ _] & Hcur & ->). rewrite Ho. split; [done|].
      split; cbn; try done; try congruence.
      * by rewrite Ho.
      * rewrite Hm. unfold manual_view. cbn. by rewrite Km.
      * rewrite Ho. unfold override_view. cbn. rewrite Kf. cbn. by rewrite Hload.
    + apply publish_step_Err in Hrun as (s2 & Hs2 & ->). cbn. apply undone_discard; try done.
      rewrite Hnone. cbn [snd]. by eapply restore_override_undone.
  - apply bind_inv in Hco as [(c & s3 & Hl & Hco)|(e' & Hl & _)].
    2: { apply same_but_undone. unfold load_override_file in Hl. destruct (sv_override_file s); by injection Hl as _ <-. }
    assert (s3 = s) as -> by (unfold load_override_file in Hl; destruct (sv_override_file s); by injection Hl).
    apply bind_inv in Hco as [([] & s4 & _ & Hco)|(e' & Hrep & _)]; [done|]. unfold or_cleanup in Hrep.
    destruct (replace_override_file o s) as [[[]|e2] s4] eqn:Er; [done|].
    apply replace_override_cases in Er as [-> _]; [|by destruct Hf|done|by apply Hoverrides|by apply Hoverrides].
    injection Hrep as _ <-. unfold mbind, Mut_bind. rewrite Hnone. apply undone_discard; try done. by apply same_but_undone.
Qed.
Lemma commit_plain s : pr_pending_manual p = None -> pr_pending_overrides p = None ->
  forall r s', commit p s = (r, s') -> committed s r s'.
Proof.
  intros Hm Ho r s' Hrun. unfold commit, commit_manual, commit_overrides in Hrun. rewrite Hm, Ho in Hrun.
  apply bind_inv in Hrun as [(manual & s1 & [= <- <-] & Hrun)|(e & Hx & _)]; [|done].
  apply bind_inv in Hrun as [(checkpoint & s2 & [= <- <-] & Hrun)|(e & Hx & _)]; [|done].
  fold (publish_step p None None) in Hrun. destruct r as [report|e].
  - apply publish_step_Ok in Hrun as (-> & s2 & [[T1 T2] Km Kf Ko _ _] & Hcur & ->). rewrite Ho. split; [done|].
    split; cbn; try done; [by rewrite Ho|rewrite Hm; unfold manual_view; by rewrite Km|
      rewrite Ho; unfold override_view; by rewrite Kf].
  - apply publish_step_Err in Hrun as (s2 & Hs2 & ->). cbn. apply undone_discard; try done.
    assert (forall x, (restore_override_file None x).2 = x) as ->
      by (intros x; unfold restore_override_file; by destruct (sv_override_file x)).
    assert (forall x, (restore_manual None x).2 = x) as ->
      by (intros x; unfold restore_manual; by destruct (sv_manual x)).
    by apply pointer_undone.
Qed.

(** C5: committing an update is all or nothing across its files.  For a prepared update, files
    that can be read and written, and any failure of the generation store: if the commit
    reports success, the new generation is current and the imported source or the new
    overrides are both in their file and in use; if it reports an error, the imported source,
    the override file and the overrides in use read as before, no other generation was
    touched, and the current generation is the old one unless the failure came after the
    pointer had moved, in which case the generation it names is complete. *)
Theorem commit_is_atomic s r s' :
  files_ok s -> commit p s = (r, s') ->
  match r with Ok report => report = pr_report p /\ done_with p s s' | Err _ => undone g s s' end.
Proof.
  intros Hf Hrun. destruct Hsingle as [Hm|Ho].
  - assert (exists x, pr_pending_overrides p = x) as [[o|] Ho] by (eexists; reflexivity); [by apply (commit_new_overrides s o)|by apply (commit_plain s)].
  - assert (exists x, pr_pending_manual p = x) as [[m|] Hm] by (eexists; reflexivity); [by apply (commit_import s m)|by apply (commit_plain s)].
Qed.
End commit_theorem.

(** ** Facts: importing *)
Definition agree (f f' : F) : Prop := forall source, (cached source f').1 = (cached source f).1.
Lemma on_fetcher_run {A} (m : Mut F SourceUpdateError A) s :
  on_fetcher m s = ((m (sv_fetcher s)).1, set_fetcher (m (sv_fetcher s)).2 s).
Proof. unfold on_fetcher. by destruct (m (sv_fetcher s)). Qed.
Definition kept_input (f : F) (source : SourceDefinition) : option FilteredSourceInput :=
  match (cached source f).1 with Ok body => Some (source_input source (sb_bytes body)) | Err _ => None end.
Lemma cached_inputs_run `{!StableCache F} sources inputs s :
  exists f', cached_inputs sources inputs s = (Ok (inputs ++ omap (kept_input (sv_fetcher s)) sources), set_fetcher f' s)
    /\ agree (sv_fetcher s) f'.
Proof.
  revert inputs s. induction sources as [|source rest IH]; intros inputs s.
  { exists (sv_fetcher s). rewrite app_nil_r. by destruct s. }
  cbn [cached_inputs omap list_omap]. rewrite on_fetcher_run. unfold kept_input at 1.
  assert (omap (kept_input (cached source (sv_fetcher s)).2) rest = omap (kept_input (sv_fetcher s)) rest) as Hrest.
  { apply list_omap_ext, Forall2_same_length_lookup_2; [done|]. intros i x y Hx Hy. assert (x = y) as -> by congruence.
    unfold kept_input. by rewrite cached_again. }
  destruct (cached source (sv_fetcher s)).1 as [body|e].
  - destruct (IH (inputs ++ [source_input source (sb_bytes body)]) (set_fetcher (cached source (sv_fetcher s)).2 s)) as (f' & -> & Ha).
    exists f'. cbn [sv_fetcher set_fetcher] in *. rewrite Hrest, <- app_assoc. split; [done|].
    intros other. by rewrite Ha, cached_again.
  - destruct (IH inputs (set_fetcher (cached source (sv_fetcher s)).2 s)) as (f' & -> & Ha).
    exists f'. cbn [sv_fetcher set_fetcher] in *. rewrite Hrest. split; [done|].
    intros other. by rewrite Ha, cached_again.
Qed.
Lemma current_generation_clean d : faults d = [] -> (current_generation d).2 = d.
Proof.
  intros Hf. unfold current_generation. destruct (current_file d); [|done].
  unfold mbind, Mut_bind, io, next_outcome. rewrite Hf. destruct d. by repeat case_match.
Qed.
Lemma next_generation_clean s : faults (sv_disk s) = [] -> (next_generation s).2 = s.
Proof.
  intros Hf. unfold next_generation, mbind, Mut_bind, on_store.
  pose proof (current_generation_clean (sv_disk s) Hf) as Hd. destruct (current_generation (sv_disk s)) as [r d]. cbn in Hd. subst d.
  destruct s. destruct r as [[g|]|e]; cbn; [by case_match|done|done].
Qed.
Lemma on_store_error {A} (m : Store A) s e s' : on_store m s = (Err e, s') -> exists x, e = UpPublish x.
Proof. unfold on_store. destruct (m (sv_disk s)) as [[a|x] d]; [done|]. intros [= <- _]. by exists x. Qed.
Lemma seal_error c s e s' : seal c s = (Err e, s') -> exists x, e = UpPublish x.
Proof.
  unfold seal. intros Hrun. apply bind_inv in Hrun as [(p & s1 & _ & Hrun)|(e' & Hp & [= <-])]; [|by apply on_store_error in Hp].
  apply bind_inv in Hrun as [([] & s2 & _ & Hrun)|(e' & Hc & [= <-])].
  - unfold or_cleanup in Hrun. destruct (on_store _ s2) as [[a|x] s3] eqn:Es; [done|]. injection Hrun as <- _.
    by apply on_store_error in Es.
  - unfold or_cleanup in Hc. destruct (check _); [done|]. injection Hc as <- _. by eexists.
Qed.
(** An import candidate depends only on the kept bodies, the disk and the settings. *)
Definition import_of (config : SourceConfig) (bs : list Z) (format : FormatHint) (s : Service) :
    Result SourceUpdateError (StableConversion * Z * Candidate) :=
  _ ← ok_or (sv_manual s) UpManualSource;
  input ← manual_input config bs format;
  conversion ← convert (omap (kept_input (sv_fetcher s)) (active_sources config) ++ [input]);
  generation ← (next_generation s).1;
  candidate ← build generation conversion s Merge (source_ids_with_manual config)
                (effective_source_digest config (Some (sha256_hex bs))) (source_ids_with_manual config);
  Ok (conversion, generation, candidate).
Lemma import_candidate_run `{!StableCache F} config bs format s :
  faults (sv_disk s) = [] ->
  exists f', import_candidate config bs format s = (import_of config bs format s, set_fetcher f' s) /\ agree (sv_fetcher s) f'.
Proof.
  intros Hf. unfold import_candidate, import_of, cached_inputs_with_manual, mbind, Mut_bind.
  destruct (sv_manual s) eqn:Em; [|exists (sv_fetcher s); by destruct s].
  destruct (cached_inputs_run (active_sources config) [] s) as (f' & -> & Ha). exists f'. split; [|done].
  cbn [ok_or Result_bind mut_lift app]. unfold mut_lift. destruct (manual_input config bs format); cbn; [|done].
  destruct (convert _); cbn; [|done].
  assert (next_generation (set_fetcher f' s) = ((next_generation s).1, set_fetcher f' s)) as ->.
  { pose proof (next_generation_clean (set_fetcher f' s) Hf) as Hc. rewrite (surjective_pairing (next_generation (set_fetcher f' s))), Hc.
    f_equal. unfold next_generation, mbind, Mut_bind, on_store. cbn [sv_disk set_fetcher].
    destruct (current_generation (sv_disk s)) as [[[h|]|e] dk]; cbn; try done. by case_match. }
  destruct (next_generation s).1; cbn; [|done]. by destruct (build _ _ _ _ _ _ _).
Qed.
Lemma import_of_again config bs format s f' :
  agree (sv_fetcher s) f' -> import_of config bs format (set_fetcher f' s) = import_of config bs format s.
Proof.
  intros Ha. unfold import_of. cbn [sv_manual sv_fetcher set_fetcher].
  assert (omap (kept_input f') (active_sources config) = omap (kept_input (sv_fetcher s)) (active_sources config)) as ->.
  { apply list_omap_ext, Forall2_same_length_lookup_2; [done|]. intros i x y Hx Hy. assert (x = y) as -> by congruence.
    unfold kept_input. by rewrite Ha. }
  assert ((next_generation (set_fetcher f' s)).1 = (next_generation s).1) as ->; [|done].
  unfold next_generation, mbind, Mut_bind, on_store. cbn [sv_disk set_fetcher].
  destruct (current_generation (sv_disk s)) as [[[h|]|e] dk]; cbn; try done. by case_match.
Qed.

(** C20: an import is what its preview showed.  When nothing fails on the disk and looking at
    the kept bodies does not change them, importing after a preview builds the candidate that
    was previewed: the digest check refuses the import exactly when the digest given is not
    that of the preview, and an import that goes through reports the counts of the preview. *)
Theorem preview_binds_import `{!StableCache F} config bs format s preview s1 expected r s2 :
  faults (sv_disk s) = [] ->
  preview_import config bs format s = (Ok preview, s1) ->
  prepare_import config bs format expected s1 = (r, s2) ->
  (r = Err CandidateDigestMismatch <-> expected <> ip_candidate_digest preview)
  /\ (forall p, r = Ok p ->
        ur_accepted (pr_report p) = ip_accepted preview /\ ur_duplicate (pr_report p) = ip_duplicate preview
        /\ ur_node_count (pr_report p) = ip_node_count preview).
Proof.
  intros Hf. unfold preview_import, prepare_import.
  destruct (import_candidate_run config bs format s Hf) as (f' & Hrun & Ha).
  intros ([[conversion g] c] & x & Hi & [= <- <-])%bind_Ok. rewrite Hrun in Hi. injection Hi as Hof <-.
  intros Hp. unfold mbind at 1, Mut_bind at 1 in Hp.
  destruct (import_candidate_run config bs format (set_fetcher f' s) Hf) as (f2 & Hrun2 & _).
  rewrite Hrun2, import_of_again, Hof in Hp by done. cbn [ip_candidate_digest ip_accepted ip_duplicate ip_node_count].
  destruct (String.eqb_spec (digest_sha256 (cand_config c)) expected) as [He|He]; cbn [negb] in Hp.
  - split.
    + split; [|congruence]. intros ->. exfalso. apply bind_inv in Hp as [(sealed & y & _ & Hy)|(e & Hseal & [= <-])]; [done|].
      by apply seal_error in Hseal as [e ?].
    + intros p ->. apply bind_Ok in Hp as (sealed & y & _ & [= <- _]). done.
  - injection Hp as <- <-. split; [split; [congruence|done]|done].
Qed.

(** ** Facts: the updater *)
(** At most one request waits; every operation keeps it so, and one that is refused changes
    nothing. *)
Definition one_pending (u : Updater) : Prop := up_pending_import u = None \/ up_pending_update u = None.
Lemma request_cases update u r u' :
  request update u = (r, u') ->
  (r = Err RuPrepare /\ busy u = true /\ u' = u)
  \/ (r = Ok tt /\ busy u = false /\ u' = with_pending None (Some update) u).
Proof.
  unfold request. destruct (busy u) eqn:Eb; intros [= <- <-]; [by left|right]. split_and!; try done.
  unfold busy in Eb. by destruct (up_pending_import u); [rewrite orb_true_r in Eb|].
Qed.
Lemma requests_one_pending u :
  one_pending u ->
  (forall id, one_pending (request_source_update id u).2) /\ one_pending (request_cached_rebuild u).2
  /\ (forall o, one_pending (request_node_overrides o u).2)
  /\ (forall bs f d, one_pending (request_import bs f d u).2)
  /\ (forall config, one_pending (replace_config config u))
  /\ one_pending (updater_prepare u).2 /\ busy (updater_prepare u).2 = false.
Proof.
  intros Hone.
  assert (forall update, one_pending (request update u).2) as Hreq.
  { intros update. destruct (request update u) as [r u'] eqn:Er.
    apply request_cases in Er as [(_ & _ & ->)|(_ & _ & ->)]; [done|by left]. }
  assert (up_pending_import (updater_prepare u).2 = None /\ up_pending_update (updater_prepare u).2 = None) as [Hi Hu].
  { unfold updater_prepare, on_service. destruct (up_pending_import u) eqn:Ei.
    - destruct Hone as [?|Hu]; [congruence|]. rewrite Hu.
      destruct (prepare_import _ _ _ _ _). by split.
    - destruct (requested _ _ _). by split. }
  split_and!; try done.
  - intros [id|]; unfold request_source_update; [|apply Hreq]. destruct (SourceId_new id); [|done]. case_match; [done|apply Hreq].
  - apply Hreq.
  - intros o. apply Hreq.
  - intros bs f d. unfold request_import. destruct (busy u) eqn:Eb; [done|]. right. cbn. unfold busy in Eb.
    by destruct (up_pending_update u).
  - by left.
  - unfold busy. by rewrite Hi, Hu.
Qed.
End service.

(** ** The limits the manual source runs into *)
(** More than 32 excluded nodes over all sources leave the manual source without a filter, and
    with it every import and every update while there is one. *)
Lemma manual_filter_refused config :
  MAX_FILTER_RULES < len (dedup (sort (mjoin ((fun s => excluded_node_ids (src_filter s)) <$> sc_sources config)))) ->
  manual_filter config = Err UpConversion.
Proof.
  intros Hmany. unfold manual_filter, NodeFilter_new_with_node_ids, NodeFilter_new. cbn -[len MAX_FILTER_RULES].
  by rewrite (proj2 (Z.ltb_lt _ _) Hmany).
Qed.
(** With sixteen active sources the manual one is a seventeenth. *)
Lemma manual_source_unbindable c digest config :
  len (active_sources config) = 16 -> is_err (bind_sources c digest (source_ids_with_manual config)) = true.
Proof.
  intros Hl. unfold bind_sources, source_ids_with_manual.
  assert (len ((src_id <$> active_sources config) ++ [MANUAL_SOURCE_ID]) = 17) as ->.
  { unfold len in *. rewrite length_app, length_fmap. cbn. lia. }
  cbn. by rewrite orb_true_r.
Qed.

(** ** Witnesses *)
Module UpdateSample.
Import (hints) SourceFetchSample.
#[export] Existing Instance rfc_engine.
Definition hex : string := "aaaaaaaaaaaaaaaaaaaaaaaaaaaaaaaaaaaaaaaaaaaaaaaaaaaaaaaaaaaaaaaa".
Definition sha (_ : list Z) : string := hex.
(** A fetcher that always has the same node. *)
#[export] Instance fetcher : SourceBodyFetcher unit := {|
  fetch _ f := (Ok (mkBody SourceFetchSample.body Fresh None), f);
  cached _ f := (Ok (mkBody SourceFetchSample.body LastKnownGood None), f) |}.
#[export] Instance stable : StableCache unit.
Proof. by split. Qed.
Definition config : SourceConfig := mkSourceConfig hex hex Merge [SourceFetchSample.source].
Definition sha_raw (bs : list Z) : list Z := (sumZ bs mod 256) :: replicate 31 (sumZ bs / 256 mod 256).
Definition to_vec (_ : Json) : Result string (list Z) := Ok [123; 125].
Definition enc_manifest (m : GenerationManifest) : list Z := [mf_generation m].
Definition dec_manifest (bs : list Z) : option GenerationManifest :=
  match bs with
  | [g] => Some (mkManifest MANIFEST_SCHEMA g hex 1 (Some hex) None [])
  | _ => None
  end.
Definition enc_nodes (r : GenerationNodeRegistry) : list Z := [len (node_records r)].
Definition dec_nodes (_ : list Z) : option GenerationNodeRegistry :=
  Some (mkNodes NODE_REGISTRY_SCHEMA [] [mkNode "" "" "" "" [] false None]).
Definition service (d : Disk) : Service (F := unit) :=
  mkService d tt CandidateSample.profile (Some Source.NotFound) [] None [].
Definition empty : Disk := mkDisk ∅ ∅ None [].
Definition Prepare := requested (F := unit) (fun _ => None) (fun _ => "") (fun _ => None) pinned_matrix (fun _ => true) sha_raw sha
  (fun _ => None) to_vec enc_manifest enc_nodes "/data" (fun _ => true) demo_limits.
Definition prepared := Prepare config RefreshAll (service empty).
Definition imported : list Z := bytes "trojan://secret@other:443#two".
Definition previewed := preview_import (F := unit) (fun _ => None) (fun _ => "") (fun _ => None) pinned_matrix (fun _ => true)
  sha_raw sha (fun _ => None) to_vec enc_nodes demo_limits config imported FUriList (service empty).
Definition import := prepare_import (F := unit) (fun _ => None) (fun _ => "") (fun _ => None) pinned_matrix (fun _ => true)
  sha_raw sha (fun _ => None) to_vec enc_manifest enc_nodes "/data" (fun _ => true) demo_limits config imported FUriList.
Definition Commit := commit (F := unit) sha dec_manifest dec_nodes OverrideSample.to_vec OverrideSample.enc OverrideSample.dec "/data".
(** The prepared update is a plain one, and its commit goes through. *)
Definition plain : bool :=
  match prepared with
  | (Ok p, s) =>
      negb (is_some (pr_pending_manual p)) && negb (is_some (pr_pending_overrides p))
      && String.eqb (sealed_root (pr_sealed p)) "/data" && (sealed_generation_id (pr_sealed p) =? 1) && is_ok (Commit p s).1
  | _ => false
  end.
Definition leftover : Disk := mkDisk {[ 1 := empty_dir ]} ∅ None [].
End UpdateSample.
Import (hints) SourceFetchSample.
Import (hints) UpdateSample.
Lemma prepare_seals_next_witness :
  exists p s', UpdateSample.prepared = (Ok p, s') /\ ur_generation (pr_report p) = 1
    /\ pr_sealed p = mkSealed "/data" 1 /\ current_file (sv_disk s') = None.
Proof.
  destruct UpdateSample.prepared as [r s'] eqn:E.
  destruct (prepare_seals_next (F := unit) (fun _ => None) (fun _ => "") (fun _ => None) pinned_matrix (fun _ => true)
    UpdateSample.sha_raw UpdateSample.sha (fun _ => None) UpdateSample.to_vec UpdateSample.enc_manifest UpdateSample.enc_nodes
    "/data" (fun _ => true) demo_limits UpdateSample.config (UpdateSample.service UpdateSample.empty)) as [Hreq _].
  destruct (Hreq RefreshAll r s' E) as ([[_ Hc] _ _ _ _ _] & _ & Hok).
  assert (is_ok UpdateSample.prepared.1 = true) as Hr by (vm_compute; reflexivity). rewrite E in Hr.
  destruct r as [p|]; [|discriminate Hr]. exists p, s'. split; [reflexivity|].
  destruct (Hok p eq_refl) as (_ & Hs & Hg & _). split; [exact Hg|]. split; [exact Hs|exact Hc].
Defined.
Lemma leftover_blocks_updates_witness :
  let results := attempts (F := unit) (fun _ => None) (fun _ => "") (fun _ => None) pinned_matrix (fun _ => true)
    UpdateSample.sha_raw UpdateSample.sha (fun _ => None) UpdateSample.to_vec UpdateSample.enc_manifest UpdateSample.enc_nodes
    "/data" (fun _ => true) demo_limits UpdateSample.config [inl RefreshAll; inl CachedRebuild; inl RefreshAll]
    (UpdateSample.service UpdateSample.leftover) in
  length results = 3%nat /\ Forall (fun r => is_err r = true) results.
Proof.
  split; [vm_compute; reflexivity|]. apply leftover_blocks_updates. exists empty_dir. vm_compute. reflexivity.
Defined.
Lemma preview_binds_import_witness :
  exists preview s1, UpdateSample.previewed = (Ok preview, s1) /\ ip_node_count preview = 2
    /\ (UpdateSample.import "other" s1).1 = Err CandidateDigestMismatch.
Proof.
  destruct UpdateSample.previewed as [r0 s1] eqn:E.
  assert (exists preview, r0 = Ok preview /\ ip_node_count preview = 2 /\ ip_candidate_digest preview = UpdateSample.hex)
    as (preview & -> & Hn & Hd).
  { revert E. vm_compute. intros [= <- <-]. eexists. repeat split. }
  exists preview, s1. split; [reflexivity|]. split; [exact Hn|].
  destruct (UpdateSample.import "other" s1) as [r s2] eqn:Ei.
  apply (preview_binds_import (F := unit) (fun _ => None) (fun _ => "") (fun _ => None) pinned_matrix (fun _ => true)
    UpdateSample.sha_raw UpdateSample.sha (fun _ => None) UpdateSample.to_vec UpdateSample.enc_manifest UpdateSample.enc_nodes
    "/data" (fun _ => true) demo_limits UpdateSample.config UpdateSample.imported FUriList
    (UpdateSample.service UpdateSample.empty) preview s1 "other" r s2 eq_refl E Ei).
  rewrite Hd. discriminate.
Defined.
Lemma commit_is_atomic_witness :
  exists p s1 r s', UpdateSample.prepared = (Ok p, s1) /\ UpdateSample.Commit p s1 = (r, s')
    /\ r = Ok (pr_report p) /\ current_file (sv_disk s') = Some (current_text 1).
Proof.
  assert (UpdateSample.plain = true) as Hplain by (vm_compute; reflexivity). unfold UpdateSample.plain in Hplain.
  destruct UpdateSample.prepared as [[p|e] s1] eqn:E; [|discriminate Hplain].
  rewrite !andb_true_iff, !negb_true_iff in Hplain. destruct Hplain as [[[[Hm Ho] Hroot] Hg] Hok].
  apply String.eqb_eq in Hroot. apply Z.eqb_eq in Hg.
  assert (sv_writes s1 = [] /\ sv_manual s1 = Some Source.NotFound /\ sv_override_file s1 = None)
    as (Hw & Hman & Hfile).
  { pose proof E as Hp. unfold UpdateSample.prepared, UpdateSample.Prepare in Hp. apply requested_result in Hp as ([_ Hman Hfile _ _ Hw] & _). rewrite Hman, Hfile, Hw. repeat split. }
  destruct (UpdateSample.Commit p s1) as [r s'] eqn:Ec. exists p, s1, r, s'. split; [reflexivity|]. split; [exact Ec|].
  assert (match r with Ok report => report = pr_report p /\ done_with UpdateSample.sha OverrideSample.to_vec OverrideSample.dec p s1 s'
          | Err _ => undone UpdateSample.sha UpdateSample.dec_manifest UpdateSample.dec_nodes OverrideSample.to_vec OverrideSample.dec
                       (sealed_generation_id (pr_sealed p)) s1 s' end) as Hres.
  { assert (is_uint 64 (sealed_generation_id (pr_sealed p))) as Hu by (rewrite Hg; split; [discriminate|reflexivity]).
    assert (sealed_generation_id (pr_sealed p) <> 0) as Hz by (rewrite Hg; discriminate).
    assert (pr_pending_manual p = None \/ pr_pending_overrides p = None) as Hone
      by (left; destruct (pr_pending_manual p); [discriminate Hm|reflexivity]).
    assert (files_ok UpdateSample.sha OverrideSample.to_vec OverrideSample.enc OverrideSample.dec s1) as Hfiles.
    { split; [exact Hw|rewrite Hman; intros file [= <-]; split; [exact I|reflexivity]|]. rewrite Hfile. discriminate. }
    refine (commit_is_atomic (fun _ => None) UpdateSample.sha UpdateSample.dec_manifest UpdateSample.dec_nodes OverrideSample.to_vec
      OverrideSample.enc OverrideSample.dec "/data" p Hroot Hu Hz Hone _ OverrideSample.dec_sorted s1 r s' Hfiles Ec).
    intros o Hp. rewrite Hp in Ho. discriminate Ho. }
  destruct r as [report|e]; [|discriminate Hok]. destruct Hres as [-> [Hcur _ _ _ _]]. split; [reflexivity|].
  rewrite Hg in Hcur. exact Hcur.
Defined.
