(* ===== verification/RuleSet.v ===== *)
(** * RuleSet: the pair of rule sets and its transaction

    Models crates/nethopd/src/ruleset.rs: the two rule-set files the core reads, the candidate
    directory a new pair is staged and checked in, the journal under which it takes the place of
    the current one, and what opening the store does with a transaction that was interrupted.

    Every system call consumes an outcome: it works, it fails, or the process ends before it.
    An operation that is cut short is [Halted] with the files it leaves, so the theorems can
    speak of what the next start finds.  System calls take effect in the order in which they
    are made.  SHA-256, the JSON codec of the journal, the check by the core and the order in
    which a directory is listed are parameters. *)

From S2P Require Import Prelude Text Ordering BTreeMap Json.

Local Open Scope Z_scope.

Definition DEFAULT_MAX_RULE_SET_BYTES : Z := 5 * 1024 * 1024.
Definition MAX_RULE_SET_BYTES : Z := 64 * 1024 * 1024.
Definition DOMAIN_FILE : string := "cn-domain.srs".
Definition IP_FILE : string := "cn-ip.srs".
Definition JOURNAL_FILE : string := ".ruleset-transaction.json".
Definition JOURNAL_SCHEMA : string := "nethop-ruleset-transaction-v1".

Inductive RuleSetError : Type :=
| InvalidPolicy | InvalidRoot | InvalidCurrent | InvalidCandidate | CandidateTooLarge | StageFailed
| CheckFailed | PublishFailed | ForeignTransaction | CommitFailed | RollbackFailed.
#[export] Instance RuleSetError_eq_dec : EqDecision RuleSetError.
Proof. solve_decision. Defined.

Record RuleSetLimits : Type := mkRuleSetLimits { max_bytes_per_file : Z }.
Definition RuleSetLimits_new (max_bytes : Z) : Result RuleSetError RuleSetLimits :=
  if negb (in_range 8 MAX_RULE_SET_BYTES max_bytes) then Err InvalidPolicy else Ok (mkRuleSetLimits max_bytes).
Definition RuleSetLimits_default : RuleSetLimits := mkRuleSetLimits DEFAULT_MAX_RULE_SET_BYTES.

Record RuleSetStore : Type := mkStore { rs_root : string; rs_limits : RuleSetLimits }.
Inductive RuleSetReplaceOutcome : Type := ReplaceUnchanged | ReplaceUpdated.
Record PreparedRuleSet : Type := mkPreparedSet { ps_root : string; ps_candidate : option string; ps_sequence : Z }.
Inductive RuleSetPreparation : Type := PrepUnchanged | PrepPrepared (p : PreparedRuleSet).
Record PublishedRuleSet : Type := mkPublished {
  pb_root : string; pb_previous_domain : string; pb_previous_ip : string; pb_journal : string }.
Record RuleSetJournal : Type := mkRuleSetJournal {
  jr_schema : string; jr_candidate : string; jr_previous_domain : string; jr_previous_ip : string }.

(** ** The directory and its system calls *)
(** The children of the rule-set directory; a candidate directory with the files in it. *)
Inductive Entry : Type :=
| EFile (contents : list Z)
| EDirectory (children : gmap string (list Z))
| ELink (target : option (list Z))
| EOther.
Abbreviation Root := (gmap string Entry).

(** [CallFails k] and [CallHalts k]: a write that got through [k] bytes, a removal that got
    through the children [k] stands for. *)
Inductive CallOutcome : Type := CallWorks | CallFails (k : nat) | CallHalts (k : nat).
Record RsDisk : Type := mkRsDisk { rd_root : Root; rd_calls : list CallOutcome; rd_process : Z; rd_sequence : Z }.
Inductive Run (A : Type) : Type := Finished (a : A) (d : RsDisk) | Halted (r : Root).
Arguments Finished {A} a d.
Arguments Halted {A} r.
Definition RS (A : Type) : Type := RsDisk -> Run A.
#[export] Instance RS_ret : MRet RS := fun A a d => Finished a d.
#[export] Instance RS_bind : MBind RS := fun A B k m d =>
  match m d with Finished a d' => k a d' | Halted r => Halted r end.
(** [m?] *)
Definition attempt {A B} (m : RS (Result RuleSetError A)) (k : A -> RS (Result RuleSetError B)) :
    RS (Result RuleSetError B) :=
  r ← m; match r with Ok a => k a | Err e => mret (Err e) end.
Local Notation "x '←?' m ; k" := (attempt m (fun x => k)) (at level 20, m at level 100, k at level 200).

Definition proceed (d : RsDisk) (r : Root) (rest : list CallOutcome) : RsDisk :=
  mkRsDisk r rest (rd_process d) (rd_sequence d).
(** A call that looks and one that changes. *)
Definition query {A} (g : Root -> A) (bad : A) : RS A := fun d =>
  match rd_calls d with
  | [] => Finished (g (rd_root d)) d
  | CallWorks :: rest => Finished (g (rd_root d)) (proceed d (rd_root d) rest)
  | CallFails _ :: rest => Finished bad (proceed d (rd_root d) rest)
  | CallHalts _ :: _ => Halted (rd_root d)
  end.
Definition applied (effect : Root -> option Root) (d : RsDisk) (rest : list CallOutcome) : Run bool :=
  match effect (rd_root d) with
  | Some r => Finished true (proceed d r rest)
  | None => Finished false (proceed d (rd_root d) rest)
  end.
Definition call (effect : Root -> option Root) (broken : nat -> Root -> Root) : RS bool := fun d =>
  match rd_calls d with
  | [] => applied effect d []
  | CallWorks :: rest => applied effect d rest
  | CallFails k :: rest => Finished false (proceed d (broken k (rd_root d)) rest)
  | CallHalts k :: _ => Halted (broken k (rd_root d))
  end.
Definition untouched (k : nat) (r : Root) : Root := r.

Definition is_directory (e : option Entry) : bool := match e with Some (EDirectory _) => true | _ => false end.
(** [symlink_metadata(path)]: [None] is an error, [Some None] is [NotFound]. *)
Definition stat (name : string) : RS (option (option Entry)) := query (fun r => Some (r !! name)) None.
Definition is_regular_non_symlink (name : string) : RS bool :=
  query (fun r => match r !! name with Some (EFile _) => true | _ => false end) false.
(** [Path::exists] *)
Definition path_exists (name : string) : RS bool :=
  query (fun r => match r !! name with None | Some (ELink None) => false | Some _ => true end) false.
Definition fs_read (name : string) : RS (option (list Z)) :=
  query (fun r => match r !! name with Some (EFile bs) => Some bs | Some (ELink t) => t | _ => None end) None.
Definition fs_rename (from to : string) : RS bool :=
  call (fun r => match r !! from with
                 | Some e => if is_directory (r !! to) then None else Some (<[to := e]> (delete from r))
                 | None => None
                 end) untouched.
(** Out of the candidate directory. *)
Definition rename_out (candidate file to : string) : RS bool :=
  call (fun r => match r !! candidate with
                 | Some (EDirectory m) =>
                     match m !! file with
                     | Some bs => if is_directory (r !! to) then None
                                  else Some (<[to := EFile bs]> (<[candidate := EDirectory (delete file m)]> r))
                     | None => None
                     end
                 | _ => None
                 end) untouched.
Definition remove_file (name : string) : RS bool :=
  call (fun r => match r !! name with
                 | None | Some (EDirectory _) => None
                 | Some _ => Some (delete name r)
                 end) untouched.
Definition thinned (k : nat) (m : gmap string (list Z)) : gmap string (list Z) :=
  list_to_map (imap (fun i p => (i, p)) (map_to_list m) ≫= fun '(i, p) => if Nat.testbit k i then [] else [p]).
Definition remove_dir_all (name : string) : RS bool :=
  call (fun r => match r !! name with Some (EDirectory _) => Some (delete name r) | _ => None end)
       (fun k r => match r !! name with Some (EDirectory m) => <[name := EDirectory (thinned k m)]> r | _ => r end).
Definition create_private_directory (name : string) : RS bool :=
  call (fun r => match r !! name with None => Some (<[name := EDirectory ∅]> r) | Some _ => None end) untouched.
Definition sync_directory : RS bool := call Some untouched.

(** [write_private_file], in the directory or in the candidate below it: [create_new], then
    [write_all], then [sync_all]. *)
Inductive Place : Type := InRoot (name : string) | InCandidate (candidate name : string).
Definition create_at (p : Place) (r : Root) : option Root :=
  match p with
  | InRoot name => match r !! name with None => Some (<[name := EFile []]> r) | Some _ => None end
  | InCandidate candidate name =>
      match r !! candidate with
      | Some (EDirectory m) =>
          match m !! name with None => Some (<[candidate := EDirectory (<[name := []]> m)]> r) | Some _ => None end
      | _ => None
      end
  end.
Definition fill_at (p : Place) (bs : list Z) (r : Root) : Root :=
  match p with
  | InRoot name => <[name := EFile bs]> r
  | InCandidate candidate name =>
      match r !! candidate with Some (EDirectory m) => <[candidate := EDirectory (<[name := bs]> m)]> r | _ => r end
  end.
Definition write_private_file (p : Place) (bs : list Z) : RS bool :=
  created ← call (create_at p) untouched;
  if negb created then mret false
  else
    written ← call (fun r => Some (fill_at p bs r)) (fun k => fill_at p (take k bs));
    if negb written then mret false else call Some untouched.
Definition remove_journal (journal : string) : RS bool :=
  removed ← remove_file journal;
  if negb removed then mret false else sync_directory.
(** [CANDIDATE_SEQUENCE.fetch_add] and [std::process::id]. *)
Definition fetch_sequence : RS Z := fun d =>
  Finished (rd_sequence d) (mkRsDisk (rd_root d) (rd_calls d) (rd_process d) (cast_u 64 (rd_sequence d + 1))).
Definition process_id : RS Z := fun d => Finished (rd_process d) d.

Definition transaction_name (prefix : string) (process sequence : Z) (suffix : string) : string :=
  prefix +:+ of_bytes (print_u64 process) +:+ "-" +:+ of_bytes (print_u64 sequence) +:+ suffix.
Definition valid_transaction_name (value prefix : string) : bool :=
  starts_with prefix value && (str_len value <=? 128)
  && forallb (fun b => is_ascii_alphanumeric b || (b =? 46) || (b =? 45)) (bytes value).
(** [file_name] of a child of the root. *)
Definition file_name (name : string) : Result RuleSetError string :=
  if String.eqb name "" then Err PublishFailed else Ok name.

(** ** The store *)
Section store.
Context (sha256_hex : list Z -> string) (to_vec : Json -> Result string (list Z))
  (encode : RuleSetJournal -> list Z) (decode : list Z -> option RuleSetJournal)
  (check : string -> Root -> bool) (read_dir : Root -> list string).

Definition validate_candidate (s : RuleSetStore) (bs : list Z) : Result RuleSetError unit :=
  if max_bytes_per_file (rs_limits s) <? len bs then Err CandidateTooLarge
  else if (len bs <? 4) || negb (has_prefix (bytes "SRS") bs) then Err InvalidCandidate
  else Ok tt.
Definition validate_current : RS (Result RuleSetError unit) :=
  domain ← is_regular_non_symlink DOMAIN_FILE;
  if negb domain then mret (Err InvalidCurrent)
  else
    ip ← is_regular_non_symlink IP_FILE;
    mret (if ip : bool then Ok tt else Err InvalidCurrent).
Definition read_current (name : string) : RS (Result RuleSetError (list Z)) :=
  bs ← fs_read name; mret (ok_or bs InvalidCurrent).
Definition current_digests : RS (Result RuleSetError (string * string)) :=
  _ ←? validate_current;
  domain ←? read_current DOMAIN_FILE;
  ip ←? read_current IP_FILE;
  mret (Ok (sha256_hex domain, sha256_hex ip)).

(** The configuration the core checks the candidate with. *)
Definition jobj (fields : list (string * Json)) : Json := JObject (bt_collect fields).
Definition candidate_rule_set (tag path : string) : Json :=
  jobj [("type", JString "local"); ("tag", JString tag); ("format", JString "binary"); ("path", JString path)].
Definition check_config (domain ip : string) : Json :=
  jobj [("outbounds", JArray [jobj [("type", JString "direct"); ("tag", JString "direct")]]);
        ("route", jobj [
          ("rule_set", JArray [candidate_rule_set "candidate-cn-domain" domain; candidate_rule_set "candidate-cn-ip" ip]);
          ("rules", JArray [jobj [("rule_set", JArray [JString "candidate-cn-domain"; JString "candidate-cn-ip"]);
                                  ("outbound", JString "direct")]]);
          ("final", JString "direct")])].
Definition or_stage (ok : RS bool) : RS (Result RuleSetError unit) :=
  b ← ok; mret (if b : bool then Ok tt else Err StageFailed).
Definition stage_and_check (s : RuleSetStore) (candidate : string) (domain ip : list Z) :
    RS (Result RuleSetError unit) :=
  let path file := rs_root s +:+ "/" +:+ candidate +:+ "/" +:+ file in
  _ ←? or_stage (write_private_file (InCandidate candidate DOMAIN_FILE) domain);
  _ ←? or_stage (write_private_file (InCandidate candidate IP_FILE) ip);
  match to_vec (check_config (path DOMAIN_FILE) (path IP_FILE)) with
  | Err _ => mret (Err StageFailed)
  | Ok config =>
      _ ←? or_stage (write_private_file (InCandidate candidate "config.json") config);
      _ ←? or_stage sync_directory;
      accepted ← query (check (path "config.json")) false;
      mret (if accepted : bool then Ok tt else Err CheckFailed)
  end.
Definition prepare (s : RuleSetStore) (domain ip : list Z) : RS (Result RuleSetError RuleSetPreparation) :=
  match (validate_candidate s domain ≫= fun _ => validate_candidate s ip) with
  | Err e => mret (Err e)
  | Ok _ =>
      _ ←? validate_current;
      current_domain ←? read_current DOMAIN_FILE;
      current_ip ←? read_current IP_FILE;
      if bool_decide (current_domain = domain) && bool_decide (current_ip = ip) then mret (Ok PrepUnchanged)
      else
        sequence ← fetch_sequence;
        process ← process_id;
        let candidate := transaction_name ".candidate-ruleset-" process sequence "" in
        _ ←? or_stage (create_private_directory candidate);
        result ← stage_and_check s candidate domain ip;
        match result with
        | Err e => _ ← remove_dir_all candidate; mret (Err e)
        | Ok _ => mret (Ok (PrepPrepared (mkPreparedSet (rs_root s) (Some candidate) sequence)))
        end
  end.

(** The previous pair goes back to its place. *)
Definition restore_pair (previous_domain previous_ip : string) : RS RuleSetError :=
  _ ← remove_file DOMAIN_FILE;
  _ ← remove_file IP_FILE;
  domain_restored ← fs_rename previous_domain DOMAIN_FILE;
  ip_restored ← fs_rename previous_ip IP_FILE;
  mret (if domain_restored && ip_restored : bool then PublishFailed else RollbackFailed).
Definition undo_publication (previous_domain previous_ip : string) : RS (Result RuleSetError PublishedRuleSet) :=
  e ← restore_pair previous_domain previous_ip;
  journal_removed ← remove_journal JOURNAL_FILE;
  mret (Err (if bool_decide (e = PublishFailed) && journal_removed then PublishFailed else RollbackFailed)).
(** The two renames that put the candidate in place. *)
Definition install (s : RuleSetStore) (candidate previous_domain previous_ip : string) :
    RS (Result RuleSetError PublishedRuleSet) :=
  moved ← rename_out candidate DOMAIN_FILE DOMAIN_FILE;
  if negb moved then undo_publication previous_domain previous_ip
  else
    moved ← rename_out candidate IP_FILE IP_FILE;
    synced ← (if negb moved then mret false else sync_directory);
    if negb synced then undo_publication previous_domain previous_ip
    else mret (Ok (mkPublished (rs_root s) previous_domain previous_ip JOURNAL_FILE)).
Definition set_aside (s : RuleSetStore) (candidate previous_domain previous_ip : string) :
    RS (Result RuleSetError PublishedRuleSet) :=
  moved ← fs_rename DOMAIN_FILE previous_domain;
  if negb moved then _ ← remove_journal JOURNAL_FILE; mret (Err PublishFailed)
  else
    moved ← fs_rename IP_FILE previous_ip;
    if negb moved then
      restored ← fs_rename previous_domain DOMAIN_FILE;
      journal_removed ← remove_journal JOURNAL_FILE;
      mret (Err (if restored && journal_removed : bool then PublishFailed else RollbackFailed))
    else install s candidate previous_domain previous_ip.
(** The publication under its journal. *)
Definition publish_journalled (s : RuleSetStore) (candidate previous_domain previous_ip : string) :
    RS (Result RuleSetError PublishedRuleSet) :=
  match (candidate_name ← file_name candidate;
         domain_name ← file_name previous_domain;
         ip_name ← file_name previous_ip;
         Ok (mkRuleSetJournal JOURNAL_SCHEMA candidate_name domain_name ip_name)) with
  | Err e => mret (Err e)
  | Ok journal =>
      written ← write_private_file (InRoot JOURNAL_FILE) (encode journal);
      if negb written then mret (Err PublishFailed)
      else
        synced ← sync_directory;
        if negb synced then _ ← remove_file JOURNAL_FILE; mret (Err PublishFailed)
        else set_aside s candidate previous_domain previous_ip
  end.
Definition publish_candidate (s : RuleSetStore) (candidate : string) (sequence : Z) :
    RS (Result RuleSetError PublishedRuleSet) :=
  process ← process_id;
  let previous_domain := transaction_name ".previous-domain-" process sequence ".srs" in
  let previous_ip := transaction_name ".previous-ip-" process sequence ".srs" in
  domain_taken ← path_exists previous_domain;
  ip_taken ← (if domain_taken : bool then mret true else path_exists previous_ip);
  if ip_taken : bool then mret (Err PublishFailed)
  else publish_journalled s candidate previous_domain previous_ip.
(** The candidate directory goes in either case: with [publish] itself, or when the prepared
    transaction is dropped. *)
Definition publish (s : RuleSetStore) (p : PreparedRuleSet) : RS (Result RuleSetError PublishedRuleSet) :=
  if negb (String.eqb (ps_root p) (rs_root s)) then mret (Err ForeignTransaction)
  else
    match ps_candidate p with
    | None => mret (Err PublishFailed)
    | Some candidate =>
        result ← publish_candidate s candidate (ps_sequence p);
        _ ← remove_dir_all candidate;
        mret result
    end.

Definition commit (s : RuleSetStore) (p : PublishedRuleSet) : RS (Result RuleSetError unit) :=
  if negb (String.eqb (pb_root p) (rs_root s)) then mret (Err ForeignTransaction)
  else
    removed ← remove_journal (pb_journal p);
    if negb removed then mret (Err CommitFailed)
    else
      _ ← remove_file (pb_previous_domain p);
      _ ← remove_file (pb_previous_ip p);
      _ ← sync_directory;
      mret (Ok tt).
Definition rollback (s : RuleSetStore) (p : PublishedRuleSet) : RS (Result RuleSetError unit) :=
  if negb (String.eqb (pb_root p) (rs_root s)) then mret (Err ForeignTransaction)
  else
    outcome ← restore_pair (pb_previous_domain p) (pb_previous_ip p);
    if negb (bool_decide (outcome = PublishFailed)) then mret (Err RollbackFailed)
    else
      removed ← remove_journal (pb_journal p);
      mret (if removed : bool then Ok tt else Err RollbackFailed).
Definition replace (s : RuleSetStore) (domain ip : list Z) : RS (Result RuleSetError RuleSetReplaceOutcome) :=
  preparation ←? prepare s domain ip;
  match preparation with
  | PrepUnchanged => mret (Ok ReplaceUnchanged)
  | PrepPrepared prepared =>
      published ←? publish s prepared;
      _ ←? commit s published;
      mret (Ok ReplaceUpdated)
  end.

(** *** Opening *)
Definition restore_if_present (current previous : string) : RS bool :=
  present ← is_regular_non_symlink previous;
  if present : bool then
    occupied ← query (fun r => is_some (r !! current)) false;
    cleared ← (if occupied : bool then remove_file current else mret true);
    if negb cleared then mret false else fs_rename previous current
  else is_regular_non_symlink current.
Definition discard_candidate (candidate : string) : RS (Result RuleSetError unit) :=
  found ← stat candidate;
  match found with
  | Some (Some (EDirectory _)) =>
      removed ← remove_dir_all candidate;
      mret (if removed : bool then Ok tt else Err RollbackFailed)
  | Some (Some _) => mret (Err RollbackFailed)
  | _ => mret (Ok tt)
  end.
Definition recover_journal (j : RuleSetJournal) : RS (Result RuleSetError unit) :=
  if negb (String.eqb (jr_schema j) JOURNAL_SCHEMA)
     || negb (valid_transaction_name (jr_candidate j) ".candidate-ruleset-")
     || negb (valid_transaction_name (jr_previous_domain j) ".previous-domain-")
     || negb (valid_transaction_name (jr_previous_ip j) ".previous-ip-")
  then mret (Err RollbackFailed)
  else
    domain ← restore_if_present DOMAIN_FILE (jr_previous_domain j);
    if negb domain then mret (Err RollbackFailed)
    else
      ip ← restore_if_present IP_FILE (jr_previous_ip j);
      if negb ip then mret (Err RollbackFailed)
      else
        _ ←? discard_candidate (jr_candidate j);
        removed ← remove_journal JOURNAL_FILE;
        mret (if removed : bool then Ok tt else Err RollbackFailed).
Definition recover_interrupted_transaction : RS (Result RuleSetError unit) :=
  found ← stat JOURNAL_FILE;
  match found with
  | None => mret (Err RollbackFailed)
  | Some None => mret (Ok tt)
  | Some (Some (EFile contents)) =>
      if 4096 <? len contents then mret (Err RollbackFailed)
      else
        bs ← fs_read JOURNAL_FILE;
        match bs ≫= decode with
        | None => mret (Err RollbackFailed)
        | Some j => recover_journal j
        end
  | Some (Some _) => mret (Err RollbackFailed)
  end.

Definition stale_previous (name : string) : bool := starts_with ".previous-domain-" name || starts_with ".previous-ip-" name.
Definition stale_candidate (name : string) : bool := starts_with ".candidate-ruleset-" name.
Definition or_root (ok : RS bool) : RS (Result RuleSetError unit) :=
  b ← ok; mret (if b : bool then Ok tt else Err InvalidRoot).
Fixpoint cleanup_loop (names : list string) (changed : bool) : RS (Result RuleSetError bool) :=
  match names with
  | [] => mret (Ok changed)
  | name :: rest =>
      if negb (valid_utf8 (bytes name)) then mret (Err InvalidRoot)
      else
        metadata ← stat name;
        match metadata ≫= id with
        | None => mret (Err InvalidRoot)
        | Some entry =>
            if stale_previous name then
              match entry with
              | EFile _ => _ ←? or_root (remove_file name); cleanup_loop rest true
              | _ => mret (Err InvalidRoot)
              end
            else if stale_candidate name then
              match entry with
              | EDirectory _ => _ ←? or_root (remove_dir_all name); cleanup_loop rest true
              | _ => mret (Err InvalidRoot)
              end
            else cleanup_loop rest changed
        end
  end.
Definition cleanup_stale_transactions : RS (Result RuleSetError unit) :=
  names ← query (fun r => Some (read_dir r)) None;
  match names with
  | None => mret (Err InvalidRoot)
  | Some names =>
      changed ←? cleanup_loop names false;
      if changed : bool then or_root sync_directory else mret (Ok tt)
  end.
(** [RuleSetStore::open]: [canonical] is what the path of the root resolves to. *)
Definition open (root : string) (absolute directory : bool) (canonical : option string) (limits : RuleSetLimits) :
    RS (Result RuleSetError RuleSetStore) :=
  if negb absolute || negb directory || negb (bool_decide (canonical = Some root)) then mret (Err InvalidRoot)
  else
    _ ←? recover_interrupted_transaction;
    _ ←? cleanup_stale_transactions;
    mret (Ok (mkStore root limits)).
End store.

(** ** Reasoning about runs that can be cut short

    [wp clean m Q C n r]: started on the files [r] with at most [n] failing calls to come, [m]
    ends in [Q], or is cut short in [C].  A clean run meets no failure at all. *)
Fixpoint failures (calls : list CallOutcome) : nat :=
  match calls with [] => 0 | CallFails _ :: rest => S (failures rest) | _ :: rest => failures rest end%nat.
Definition budget (clean : bool) (calls : list CallOutcome) (n : nat) : Prop :=
  (failures calls <= n)%nat /\ (clean = true -> calls = []).
Definition process_of (pid : Z) (d : RsDisk) : Prop := rd_process d = pid /\ is_uint 64 (rd_sequence d).
Definition wp {A} (clean : bool) (pid : Z) (m : RS A) (Q : A -> nat -> Root -> Prop) (C : Root -> Prop) (n : nat) (r : Root) : Prop :=
  forall d, rd_root d = r -> budget clean (rd_calls d) n -> process_of pid d ->
  match m d with
  | Finished a d' => exists n', budget clean (rd_calls d') n' /\ process_of pid d' /\ Q a n' (rd_root d')
  | Halted r' => clean = false /\ C r'
  end.

Section wp.
Context {clean : bool} {pid : Z}.

Lemma wp_ret {A} (a : A) (Q : A -> nat -> Root -> Prop) C n r : Q a n r -> wp clean pid (mret a) Q C n r.
Proof. intros HQ d <- Hb Hp. by exists n. Qed.
Lemma wp_mono {A} (m : RS A) (Q Q' : A -> nat -> Root -> Prop) (C C' : Root -> Prop) n r :
  wp clean pid m Q C n r -> (forall a n' r', Q a n' r' -> Q' a n' r') -> (forall r', C r' -> C' r') -> wp clean pid m Q' C' n r.
Proof.
  intros Hm HQ HC d Hr Hb Hp. specialize (Hm d Hr Hb Hp). destruct (m d); [|naive_solver].
  destruct Hm as (n' & ? & ? & ?). exists n'. auto.
Qed.
Lemma wp_bind {A B} (m : RS A) (k : A -> RS B) (Q : B -> nat -> Root -> Prop) C n r :
  wp clean pid m (fun a n' r' => wp clean pid (k a) Q C n' r') C n r -> wp clean pid (m ≫= k) Q C n r.
Proof.
  intros Hm d Hr Hb Hp. specialize (Hm d Hr Hb Hp). unfold mbind, RS_bind.
  destruct (m d) as [a d'|r']; [|done]. destruct Hm as (n' & Hb' & Hp' & Hk). by apply (Hk d').
Qed.
Lemma budget_fails k rest n : budget clean (CallFails k :: rest) n ->
  clean = false /\ exists n', n = S n' /\ budget clean rest n'.
Proof.
  intros [Hn Hc]. assert (clean = false) as -> by (destruct clean; [by specialize (Hc eq_refl)|done]).
  split; [done|]. cbn in Hn. destruct n as [|n']; [lia|]. exists n'. split; [done|]. split; [lia|done].
Qed.
Lemma budget_works rest n : budget clean (CallWorks :: rest) n -> budget clean rest n.
Proof. intros [Hn Hc]. split; [done|]. intros Hcl. by specialize (Hc Hcl). Qed.
Lemma budget_halts k rest n : budget clean (CallHalts k :: rest) n -> clean = false.
Proof. intros [Hn Hc]. destruct clean; [by specialize (Hc eq_refl)|done]. Qed.

Lemma wp_query {A} (g : Root -> A) bad (Q : A -> nat -> Root -> Prop) (C : Root -> Prop) n r :
  Q (g r) n r -> (clean = false -> forall n', n = S n' -> Q bad n' r) -> (clean = false -> C r) ->
  wp clean pid (query g bad) Q C n r.
Proof.
  intros HQ HF HC d <- Hb Hp. unfold query. destruct (rd_calls d) as [|[|k|k] rest] eqn:E.
  - exists n. rewrite E. by split_and!.
  - exists n. apply budget_works in Hb. by split_and!.
  - apply budget_fails in Hb as (Hf & n' & -> & Hb). exists n'. split_and!; [done|done|by apply HF].
  - apply budget_halts in Hb. split; [done|by apply HC].
Qed.
Lemma wp_call effect broken (Q : bool -> nat -> Root -> Prop) (C : Root -> Prop) n r :
  match effect r with Some r' => Q true n r' | None => Q false n r end ->
  (clean = false -> forall k n', n = S n' -> Q false n' (broken k r)) -> (clean = false -> forall k, C (broken k r)) ->
  wp clean pid (call effect broken) Q C n r.
Proof.
  intros HQ HF HC d <- Hb Hp. unfold call, applied. destruct (rd_calls d) as [|[|k|k] rest] eqn:E.
  - destruct (effect _); exists n; by split_and!.
  - apply budget_works in Hb. destruct (effect _); exists n; by split_and!.
  - apply budget_fails in Hb as (Hf & n' & -> & Hb). exists n'. split_and!; [done|done|by apply HF].
  - apply budget_halts in Hb. split; [done|by apply HC].
Qed.
Lemma wp_attempt {A B} (m : RS (Result RuleSetError A)) (k : A -> RS (Result RuleSetError B)) Q C n r :
  wp clean pid m (fun x n' r' => match x with Ok a => wp clean pid (k a) Q C n' r' | Err e => Q (Err e) n' r' end) C n r ->
  wp clean pid (attempt m k) Q C n r.
Proof.
  intros Hm. apply wp_bind. eapply wp_mono; [exact Hm| |done]. intros [a|e] n' r' H'; [done|by apply wp_ret].
Qed.
Lemma wp_process Q C n r : Q pid n r -> wp clean pid process_id Q C n r.
Proof. intros HQ d <- Hb [<- Hs]. exists n. by split_and!. Qed.
Lemma wp_sequence (Q : Z -> nat -> Root -> Prop) C n r :
  (forall s, is_uint 64 s -> Q s n r) -> wp clean pid fetch_sequence Q C n r.
Proof.
  intros HQ d <- Hb [<- Hs]. exists n. split_and!; [done| |by apply HQ]. split; [done|].
  by apply cast_u_range.
Qed.
End wp.

(** ** The files of one transaction

    The six names a transaction works with, and what they name. *)
Inductive Slot : Type := SJournal | SDomain | SIp | SPrevDomain | SPrevIp | SCandidate.
#[export] Instance Slot_eq_dec : EqDecision Slot.
Proof. solve_decision. Defined.
Record View : Type := mkView {
  v_journal : option Entry; v_domain : option Entry; v_ip : option Entry;
  v_prev_domain : option Entry; v_prev_ip : option Entry; v_candidate : option Entry }.
Definition vget (s : Slot) (v : View) : option Entry :=
  match s with
  | SJournal => v_journal v | SDomain => v_domain v | SIp => v_ip v
  | SPrevDomain => v_prev_domain v | SPrevIp => v_prev_ip v | SCandidate => v_candidate v
  end.
Definition vset (s : Slot) (e : option Entry) (v : View) : View :=
  let '(mkView j d i pd pi c) := v in
  match s with
  | SJournal => mkView e d i pd pi c | SDomain => mkView j e i pd pi c | SIp => mkView j d e pd pi c
  | SPrevDomain => mkView j d i e pi c | SPrevIp => mkView j d i pd e c | SCandidate => mkView j d i pd pi e
  end.
Lemma vget_vset s t e v : vget s (vset t e v) = if decide (s = t) then e else vget s v.
Proof. destruct v. destruct s, t; reflexivity. Qed.

Section transaction.
Context (process sequence : Z) (r0 : Root).
Definition slot_name (s : Slot) : string :=
  match s with
  | SJournal => JOURNAL_FILE | SDomain => DOMAIN_FILE | SIp => IP_FILE
  | SPrevDomain => transaction_name ".previous-domain-" process sequence ".srs"
  | SPrevIp => transaction_name ".previous-ip-" process sequence ".srs"
  | SCandidate => transaction_name ".candidate-ruleset-" process sequence ""
  end.
#[local] Instance slot_name_inj : Inj (=) (=) slot_name.
Proof. intros s t. destruct s, t; try done; unfold slot_name, transaction_name; cbn; intros [=]. Qed.

Lemma slot_or_other x : (exists s, x = slot_name s) \/ forall s, x <> slot_name s.
Proof.
  destruct (decide (Exists (fun s => x = slot_name s) [SJournal; SDomain; SIp; SPrevDomain; SPrevIp; SCandidate]))
    as [(s & _ & ->)%Exists_exists|Hn]; [left; by exists s|]. right. intros s ->. apply Hn, Exists_exists. exists s.
  split; [|done]. destruct s; set_solver.
Qed.

(** The six names are as in [v], and everything else is as in [r0]. *)
Definition st (v : View) (r : Root) : Prop :=
  (forall s, r !! slot_name s = vget s v) /\ forall x, (forall s, x <> slot_name s) -> r !! x = r0 !! x.

Lemma st_insert s e v r : st v r -> st (vset s (Some e) v) (<[slot_name s := e]> r).
Proof.
  intros [Hv Hr]. split.
  - intros t. rewrite vget_vset. case_decide as Hst; [subst; by rewrite lookup_insert_eq|].
    rewrite lookup_insert_ne; [done|]. by intros ?%(inj slot_name).
  - intros x Hx. rewrite lookup_insert_ne by done. by apply Hr.
Qed.
Lemma st_delete s v r : st v r -> st (vset s None v) (delete (slot_name s) r).
Proof.
  intros [Hv Hr]. split.
  - intros t. rewrite vget_vset. case_decide as Hst; [subst; by rewrite lookup_delete_eq|].
    rewrite lookup_delete_ne; [done|]. by intros ?%(inj slot_name).
  - intros x Hx. rewrite lookup_delete_ne by done. by apply Hr.
Qed.

(** The rules of the calls, on views. *)
Section calls.
Context {clean : bool} {pid : Z} (Q : bool -> nat -> Root -> Prop) (C : Root -> Prop) (n : nat) (v : View) (r : Root).
Context (Hst : st v r) (Hfail : clean = false -> forall n', n = S n' -> Q false n' r) (Hcrash : clean = false -> C r).

Lemma wp_rename s t e :
  vget s v = Some e -> s <> t -> is_directory (vget t v) = false ->
  (forall r', st (vset t (Some e) (vset s None v)) r' -> Q true n r') ->
  wp clean pid (fs_rename (slot_name s) (slot_name t)) Q C n r.
Proof.
  intros Hs Hne Ht HQ. destruct Hst as [Hv Hr]. apply wp_call; [|by intros Hcl k; apply Hfail|by intros Hcl k; apply Hcrash].
  rewrite !Hv, Hs, Ht. by apply HQ, st_insert, st_delete.
Qed.
Lemma wp_rename_out t file m bs :
  v_candidate v = Some (EDirectory m) -> m !! file = Some bs -> t <> SCandidate -> is_directory (vget t v) = false ->
  (forall r', st (vset t (Some (EFile bs)) (vset SCandidate (Some (EDirectory (delete file m))) v)) r' -> Q true n r') ->
  wp clean pid (rename_out (slot_name SCandidate) file (slot_name t)) Q C n r.
Proof.
  intros Hc Hm Hne Ht HQ. destruct Hst as [Hv Hr]. apply wp_call; [|by intros Hcl k; apply Hfail|by intros Hcl k; apply Hcrash].
  rewrite !Hv, Ht. cbn [vget]. rewrite Hc, Hm. by apply HQ, st_insert, st_insert.
Qed.
Lemma wp_remove_file s :
  is_directory (vget s v) = false ->
  match vget s v with
  | Some _ => forall r', st (vset s None v) r' -> Q true n r'
  | None => Q false n r
  end ->
  wp clean pid (remove_file (slot_name s)) Q C n r.
Proof.
  intros Hd HQ. destruct Hst as [Hv Hr]. apply wp_call; [|by intros Hcl k; apply Hfail|by intros Hcl k; apply Hcrash].
  rewrite Hv. destruct (vget s v) as [[]|] eqn:E; try done; by apply HQ, st_delete.
Qed.
Lemma wp_sync : Q true n r -> wp clean pid sync_directory Q C n r.
Proof. intros HQ. apply wp_call; [done|by intros Hcl k; apply Hfail|by intros Hcl k; apply Hcrash]. Qed.
End calls.

(** Removing the candidate: it is gone, or still a directory. *)
Definition candidate_ok (e : option Entry) : Prop := e = None \/ is_directory e = true.
Lemma wp_remove_candidate clean pid (Q : bool -> nat -> Root -> Prop) (C : Root -> Prop) n v r :
  st v r -> candidate_ok (v_candidate v) ->
  (forall b n' r' e, (n' <= n)%nat -> candidate_ok e -> (clean = true -> v_candidate v <> None -> b = true) -> (b = true -> e = None) ->
     st (vset SCandidate e v) r' -> Q b n' r') ->
  (clean = false -> forall r' e, candidate_ok e -> st (vset SCandidate e v) r' -> C r') ->
  wp clean pid (remove_dir_all (slot_name SCandidate)) Q C n r.
Proof.
  intros Hst Hc HQ HC. pose proof Hst as [Hv _]. specialize (Hv SCandidate). cbn [vget] in Hv.
  assert (forall k, exists e, candidate_ok e /\ st (vset SCandidate e v)
    match r !! slot_name SCandidate with
    | Some (EDirectory m) => <[slot_name SCandidate := EDirectory (thinned k m)]> r | _ => r end) as Hbroken.
  { intros k. rewrite Hv. destruct (v_candidate v) as [[]|] eqn:E; try (by destruct Hc).
    - exists (Some (EDirectory (thinned k children))). split; [by right|]. by apply st_insert.
    - exists None. split; [by left|]. destruct v. cbn in E. subst. done. }
  apply wp_call.
  - rewrite Hv. destruct (v_candidate v) as [[]|] eqn:E; try (by destruct Hc).
    + apply (HQ true n _ None); [done|by left|done|done|]. by apply st_delete.
    + eapply (HQ false n r None); [done|by left|congruence|done|]. destruct v. cbn in E. subst. done.
  - intros Hcl k n' ->. destruct (Hbroken k) as (e & He & Hs). eapply HQ; [|exact He| | |exact Hs]; [lia|congruence|done].
  - intros Hcl k. destruct (Hbroken k) as (e & He & Hs). by eapply (HC Hcl).
Qed.

(** ** What an interrupted transaction leaves *)
Context (encode : RuleSetJournal -> list Z) (od oi nd ni : list Z).
Definition own_journal : RuleSetJournal :=
  mkRuleSetJournal JOURNAL_SCHEMA (slot_name SCandidate) (slot_name SPrevDomain) (slot_name SPrevIp).
Definition no_link (e : option Entry) : Prop := match e with None | Some (EFile _) => True | _ => False end.
(** The old contents are in the previous file, or still in place. *)
Definition recoverable (previous current : option Entry) (old : list Z) : Prop :=
  (previous = Some (EFile old) /\ no_link current) \/ (previous = None /\ current = Some (EFile old)).
Definition recoverable_pair (v : View) : Prop :=
  recoverable (v_prev_domain v) (v_domain v) od /\ recoverable (v_prev_ip v) (v_ip v) oi /\ candidate_ok (v_candidate v).
Definition resumable (v : View) : Prop :=
  v_journal v = Some (EFile (encode own_journal)) /\ recoverable_pair v.
Definition settled_with (domain ip : list Z) (v : View) : Prop :=
  v_journal v = None /\ v_domain v = Some (EFile domain) /\ v_ip v = Some (EFile ip)
  /\ no_link (v_prev_domain v) /\ no_link (v_prev_ip v) /\ candidate_ok (v_candidate v).
(** The writing of the journal was cut short; nothing else has happened. *)
Definition torn (v : View) : Prop :=
  (exists k, v_journal v = Some (EFile (take k (encode own_journal))))
  /\ v_domain v = Some (EFile od) /\ v_ip v = Some (EFile oi) /\ v_prev_domain v = None /\ v_prev_ip v = None
  /\ candidate_ok (v_candidate v).
(** The old pair is in place. *)
Definition old_in_place (v : View) : Prop := settled_with od oi v \/ torn v.
Definition old_or_torn (v : View) : Prop := resumable v \/ old_in_place v.
Definition left_over (r : Root) : Prop := exists v, st v r /\ (old_or_torn v \/ settled_with nd ni v).

Lemma old_left_over v r : st v r -> old_or_torn v -> left_over r.
Proof. intros. exists v. auto. Qed.
Local Abbreviation F b := (Some (EFile b)) (only parsing).
Local Ltac placed := unfold old_or_torn, resumable, settled_with, recoverable, no_link, candidate_ok; cbn; naive_solver.
Local Ltac crashed := intros; eapply old_left_over; [eassumption|placed].
Local Ltac returned := intros; eexists; split; [eassumption|]; placed.

Section publication.
Context {pid : Z} (s : RuleSetStore).

(** Taking the journal away settles the transaction. *)
Lemma wp_remove_journal clean (Q : bool -> nat -> Root -> Prop) (C : Root -> Prop) n v r :
  st v r -> no_link (v_journal v) -> v_journal v <> None ->
  (forall r', st (vset SJournal None v) r' -> Q true n r' /\ (clean = false -> C r') /\ (clean = false -> forall n', n = S n' -> Q false n' r')) ->
  (clean = false -> forall n', n = S n' -> Q false n' r) -> (clean = false -> C r) ->
  wp clean pid (remove_journal JOURNAL_FILE) Q C n r.
Proof.
  intros Hst Hl Hj HQ HF HC. apply wp_bind. apply (wp_remove_file _ _ _ v _ Hst) with (s := SJournal).
  - intros Hcl n' ->. apply wp_ret. by apply HF.
  - done.
  - cbn. by destruct (v_journal v) as [[]|].
  - cbn. destruct (v_journal v); [|done]. intros r' Hr'. destruct (HQ r' Hr') as (H1 & H2 & H3). cbn [negb].
    by apply (wp_sync _ _ _ _ H3 H2).
Qed.

(** Clearing a place that may be empty. *)
Lemma wp_clear clean (Q : bool -> nat -> Root -> Prop) (C : Root -> Prop) n v r t :
  st v r -> no_link (vget t v) ->
  (forall b n' e r', (n' <= n)%nat -> no_link e -> (e = None \/ e = vget t v) -> (clean = true -> e = None) -> (b = true -> e = None) -> st (vset t e v) r' -> Q b n' r') ->
  (clean = false -> C r) -> wp clean pid (remove_file (slot_name t)) Q C n r.
Proof.
  intros Hst Hl HQ HC. assert (st (vset t (vget t v) v) r) as Hsame by (destruct v, t; exact Hst).
  apply (wp_remove_file _ _ _ v _ Hst).
  - intros Hcl n' ->. eapply (HQ false); [lia|exact Hl|by right|congruence|done|done].
  - done.
  - by destruct (vget t v) as [[]|].
  - destruct (vget t v) as [e|] eqn:E; [intros r' Hr'; eapply (HQ true n None); [done|done|by left|done|done|done]|eapply (HQ false n None); [done|done|by left|done|done|done]].
Qed.

(** Taking the publication back, from any point at which the old pair is in the previous files. *)
Lemma wp_restore clean n v r (Q : RuleSetError -> nat -> Root -> Prop) (C : Root -> Prop) :
  st v r -> no_link (v_domain v) -> no_link (v_ip v) ->
  v_prev_domain v = F od -> v_prev_ip v = F oi -> candidate_ok (v_candidate v) ->
  (forall v' r', st v' r' -> v_journal v' = v_journal v -> recoverable_pair v' -> C r') ->
  (forall n' r', (n' <= n)%nat -> st (mkView (v_journal v) (F od) (F oi) None None (v_candidate v)) r' -> Q PublishFailed n' r') ->
  (forall n' v' r', (n' < n)%nat -> st v' r' -> v_journal v' = v_journal v -> recoverable_pair v' -> Q RollbackFailed n' r') ->
  wp clean pid (restore_pair (slot_name SPrevDomain) (slot_name SPrevIp)) Q C n r.
Proof.
  destruct v as [j d i p q c]. cbn. intros Hst Hd Hi -> -> Hc HC HQ HR.
  assert (forall d i p q r', st (mkView j d i p q c) r' ->
            recoverable p d od -> recoverable q i oi -> C r') as Hres.
  { intros. eapply HC; [eassumption|done|]. by split_and!. }
  apply wp_bind, (wp_clear _ _ _ _ _ _ SDomain Hst Hd); [|intros; by eapply Hres; [eassumption|left|left]].
  intros b1 n1 d1 r1 Hn1 Hd1 _ _ _ Hr1. cbn in Hr1.
  apply wp_bind, (wp_clear _ _ _ _ _ _ SIp Hr1 Hi); [|intros; by eapply Hres; [eassumption|left|left]].
  intros b2 n2 i2 r2 Hn2 Hi2 _ _ _ Hr2. cbn in Hr2.
  assert (forall e, no_link e -> is_directory e = false) as Hdir by (by intros [[]|]).
  assert (forall n' r', (n' < n)%nat -> st (mkView j d1 i2 (F od) (F oi) c) r' \/
            st (mkView j d1 (F oi) (F od) None c) r' \/
            st (mkView j (F od) i2 None (F oi) c) r' -> Q RollbackFailed n' r') as Hrf.
  { intros n' r' Hn [Hr|[Hr|Hr]]; (eapply HR; [done|exact Hr|done|]); split_and!; try done; first [by left|by right]. }
  apply wp_bind, (wp_rename _ _ _ _ _ Hr2) with (s := SPrevDomain) (t := SDomain) (e := EFile od); [|..|done|done|by apply Hdir|].
  - intros Hcl n' ->. apply wp_bind, (wp_rename _ _ _ _ _ Hr2) with (s := SPrevIp) (t := SIp) (e := EFile oi);
      [| |done|done|by apply Hdir|].
    + intros _ n'' ->. apply wp_ret. cbn. apply Hrf; [lia|by left].
    + intros _. eapply Hres; [exact Hr2|by left|by left].
    + intros r' Hr'. cbn in Hr'. apply wp_ret. cbn. apply Hrf; [lia|by right; left].
  - intros _. eapply Hres; [exact Hr2|by left|by left].
  - intros r3 Hr3. cbn in Hr3. apply wp_bind, (wp_rename _ _ _ _ _ Hr3) with (s := SPrevIp) (t := SIp) (e := EFile oi);
      [| |done|done|by apply Hdir|].
    + intros _ n'' ->. apply wp_ret. cbn. apply Hrf; [lia|by right; right].
    + intros _. eapply Hres; [exact Hr3|by right|by left].
    + intros r' Hr'. cbn in Hr'. apply wp_ret. cbn. apply HQ; [lia|done].
Qed.
Lemma wp_undo clean r v (Q : Result RuleSetError PublishedRuleSet -> nat -> Root -> Prop) :
  st v r -> v_journal v = F (encode own_journal) -> no_link (v_domain v) -> no_link (v_ip v) ->
  v_prev_domain v = F od -> v_prev_ip v = F oi -> candidate_ok (v_candidate v) ->
  (forall v' r', st v' r' -> settled_with od oi v' -> Q (Err PublishFailed) 0%nat r') ->
  wp clean pid (undo_publication (slot_name SPrevDomain) (slot_name SPrevIp)) Q left_over 0%nat r.
Proof.
  intros Hst Hj Hd Hi Hp Hq Hc HQ. apply wp_bind.
  apply (wp_restore _ _ _ _ _ _ Hst Hd Hi Hp Hq Hc); [| |lia].
  { intros v' r' Hr' Hj' Hres. eapply old_left_over; [exact Hr'|]. left. split; [congruence|done]. }
  intros n' r' Hn Hr'. assert (n' = 0)%nat as -> by lia. rewrite Hj in Hr'.
  assert (forall r'', st (mkView None (F od) (F oi) None None (v_candidate v)) r'' -> left_over r'') as Hset.
  { intros r'' Hr''. eapply old_left_over; [exact Hr''|]. right. left. by split_and!. }
  apply wp_bind, (wp_remove_journal _ _ _ _ _ _ Hr'); [done|done| |done|].
  - intros r'' Hr''. cbn in Hr''. split_and!; [|intros _; by apply Hset|done].
    apply wp_ret. cbn. eapply HQ; [exact Hr''|]. by split_and!.
  - intros _. eapply old_left_over; [exact Hr'|]. left. unfold resumable, recoverable_pair. split_and!; try done; by right.
Qed.

Definition published_view (c : option Entry) : View := mkView (F (encode own_journal)) (F nd) (F ni) (F od) (F oi) c.
Definition own_publication : PublishedRuleSet :=
  mkPublished (rs_root s) (slot_name SPrevDomain) (slot_name SPrevIp) JOURNAL_FILE.
(** The result of a publication. *)
Definition published_result (n : nat) (x : Result RuleSetError PublishedRuleSet) (n' : nat) (r : Root) : Prop :=
  (n' <= n)%nat /\
  match x with
  | Ok p => p = own_publication /\ exists c, candidate_ok c /\ st (published_view c) r
  | Err _ => (n' < n)%nat /\ exists v, st v r /\ old_in_place v
  end.
Lemma published_old n e n' v r : (n' < n)%nat -> st v r -> old_in_place v -> published_result n (Err e) n' r.
Proof. intros. split; [lia|]. split; [done|]. by exists v. Qed.

Section placing.
Context (n : nat) (Hn : (n <= 1)%nat) (children : gmap string (list Z)).
Context (Hdom : children !! DOMAIN_FILE = Some nd) (Hip : children !! IP_FILE = Some ni).
Local Abbreviation cand := (Some (EDirectory children)).

Lemma wp_install clean r :
  st (mkView (F (encode own_journal)) None None (F od) (F oi) cand) r ->
  wp clean pid (install s (slot_name SCandidate) (slot_name SPrevDomain) (slot_name SPrevIp)) (published_result n) left_over n r.
Proof.
  intros Hst.
  assert (forall d i c r', no_link d -> no_link i -> candidate_ok c ->
            st (mkView (F (encode own_journal)) d i (F od) (F oi) c) r' -> left_over r') as Hcrash.
  { intros d i c r' Hd Hi Hc Hr. eapply old_left_over; [exact Hr|]. left. unfold resumable, recoverable_pair. split_and!; try done; by left. }
  assert (forall n' d i c r', n = S n' -> no_link d -> no_link i -> candidate_ok c ->
            st (mkView (F (encode own_journal)) d i (F od) (F oi) c) r' ->
            wp clean pid (undo_publication (slot_name SPrevDomain) (slot_name SPrevIp)) (published_result n) left_over n' r') as Hundo.
  { intros n' d i c r' -> Hd Hi Hc Hr. assert (n' = 0)%nat as -> by lia.
    eapply (wp_undo _ _ _ _ Hr); try done. intros v' r'' Hr'' Hs. eapply published_old; [lia|exact Hr''|by left]. }
  unfold install. apply wp_bind.
  apply (wp_rename_out _ _ _ _ _ Hst) with (t := SDomain) (m := children) (bs := nd); try done.
  { intros _ n1 ->. eapply Hundo; [done| | | |exact Hst]; [done|done|by right]. }
  { intros _. eapply Hcrash; [| | |exact Hst]; [done|done|by right]. }
  intros r1 Hr1. cbn in Hr1. cbn [negb]. set (c1 := Some (EDirectory (delete DOMAIN_FILE children))) in *.
  apply wp_bind.
  apply (wp_rename_out _ _ _ _ _ Hr1) with (t := SIp) (m := delete DOMAIN_FILE children) (bs := ni); try done.
  { intros _ n' ->. cbn [negb]. apply wp_bind, wp_ret. eapply Hundo; [done| | | |exact Hr1]; [done|done|by right]. }
  { intros _. eapply Hcrash; [| | |exact Hr1]; [done|done|by right]. }
  { by rewrite lookup_delete_ne. }
  intros r2 Hr2. cbn in Hr2. cbn [negb]. apply wp_bind, (wp_sync _ _ n r2).
  - intros _ n' ->. cbn [negb]. eapply Hundo; [done| | | |exact Hr2]; [done|done|by right].
  - intros _. eapply Hcrash; [| | |exact Hr2]; [done|done|by right].
  - cbn [negb]. apply wp_ret. split; [done|]. split; [done|]. eexists. split; [|exact Hr2]. by right.
Qed.

Lemma wp_set_aside clean r :
  st (mkView (F (encode own_journal)) (F od) (F oi) None None cand) r ->
  wp clean pid (set_aside s (slot_name SCandidate) (slot_name SPrevDomain) (slot_name SPrevIp)) (published_result n) left_over n r.
Proof.
  intros Hst.
  assert (forall d p r', recoverable p d od -> st (mkView (F (encode own_journal)) d (F oi) p None cand) r' -> left_over r') as Hcrash.
  { intros d p r' Hp Hr. eapply old_left_over; [exact Hr|]. left. unfold resumable, recoverable_pair. split_and!; try done; [by right|by right]. }
  assert (forall r', st (mkView None (F od) (F oi) None None cand) r' -> exists v, st v r' /\ old_in_place v) as Hset.
  { intros r' Hr'. eexists. split; [exact Hr'|]. left. split_and!; try done. by right. }
  assert (forall x r', n = 1%nat -> x = Err PublishFailed -> st (mkView None (F od) (F oi) None None cand) r' -> published_result n x 0 r') as Hret.
  { intros x r' -> -> Hr'. split; [lia|]. split; [lia|by apply Hset]. }
  assert (forall r' (k : bool -> RS (Result RuleSetError PublishedRuleSet)), n = 1%nat -> k true = mret (Err PublishFailed) ->
            st (mkView (F (encode own_journal)) (F od) (F oi) None None cand) r' ->
            wp clean pid (remove_journal JOURNAL_FILE ≫= k) (published_result n) left_over 0 r') as Hremove.
  { intros r' k Hn1 Hk Hr'. apply wp_bind, (wp_remove_journal _ _ _ _ _ _ Hr'); [done|done| |done|].
    - intros r'' Hr''. cbn in Hr''. split_and!; [|intros _; destruct (Hset _ Hr'') as (v & ? & ?); eapply old_left_over; [done|by right]|done].
      rewrite Hk. apply wp_ret. by eapply Hret.
    - intros _. eapply Hcrash; [by right|exact Hr']. }
  unfold set_aside. apply wp_bind, (wp_rename _ _ _ _ _ Hst) with (s := SDomain) (t := SPrevDomain) (e := EFile od); try done.
  { intros _ n' ->. assert (n' = 0)%nat as -> by lia. cbn [negb]. by apply Hremove. }
  { intros _. eapply Hcrash; [|exact Hst]; by right. }
  intros r1 Hr1. cbn in Hr1. cbn [negb].
  apply wp_bind, (wp_rename _ _ _ _ _ Hr1) with (s := SIp) (t := SPrevIp) (e := EFile oi); try done.
  { intros _ n' ->. assert (n' = 0)%nat as -> by lia. cbn [negb].
    apply wp_bind, (wp_rename _ _ _ _ _ Hr1) with (s := SPrevDomain) (t := SDomain) (e := EFile od); try done.
    - intros _. eapply Hcrash; [|exact Hr1]; by left.
    - intros r2 Hr2. cbn in Hr2. by apply Hremove. }
  { intros _. eapply Hcrash; [|exact Hr1]; by left. }
  intros r2 Hr2. cbn in Hr2. cbn [negb]. by apply wp_install.
Qed.
End placing.

Lemma wp_write_journal clean (Q : bool -> nat -> Root -> Prop) (C : Root -> Prop) n v r bs :
  st v r -> v_journal v = None ->
  (forall r', st (vset SJournal (F bs) v) r' -> Q true n r') ->
  (forall n' r', n = S n' -> (st v r' \/ exists k, st (vset SJournal (F (take k bs)) v) r') -> Q false n' r') ->
  (forall r', (st v r' \/ exists k, st (vset SJournal (F (take k bs)) v) r') -> C r') ->
  wp clean pid (write_private_file (InRoot JOURNAL_FILE) bs) Q C n r.
Proof.
  intros Hst Hj HQ HF HC. pose proof Hst as [Hv _]. specialize (Hv SJournal). cbn in Hv. rewrite Hj in Hv.
  destruct v as [j d i p q c]. cbn in Hj. subst j.
  apply wp_bind, wp_call; [|intros _ k n' ->; apply wp_ret, HF; [done|by left]|intros _ k; apply HC; by left].
  unfold create_at. rewrite Hv. cbn [negb]. pose proof (st_insert SJournal (EFile []) _ _ Hst) as Hr1. cbn in Hr1.
  assert (forall b, st (mkView (F b) d i p q c) (<[JOURNAL_FILE := EFile b]> (<[JOURNAL_FILE := EFile []]> r))) as Hr2.
  { intros b. exact (st_insert SJournal (EFile b) _ _ Hr1). }
  apply wp_bind, wp_call; cbn [negb fill_at].
  - apply wp_call; [by apply HQ, Hr2| |].
    + intros _ k n' ->. apply HF; [done|]. right. exists (length bs). rewrite take_ge by done. apply Hr2.
    + intros _ k. apply HC. right. exists (length bs). rewrite take_ge by done. apply Hr2.
  - intros _ k n' ->. apply wp_ret, HF; [done|]. right. exists k. apply Hr2.
  - intros _ k. apply HC. right. exists k. apply Hr2.
Qed.

Lemma old_in_place_candidate v e : old_in_place v -> candidate_ok e -> old_in_place (vset SCandidate e v).
Proof.
  destruct v. unfold old_in_place, settled_with, torn. cbn. intros [H|H] He; [left|right]; naive_solver.
Qed.
Lemma old_in_place_has v : old_in_place v -> candidate_ok (v_candidate v).
Proof. unfold old_in_place, settled_with, torn. naive_solver. Qed.

Definition committed_result (n : nat) (c : option Entry) (x : Result RuleSetError unit) (n' : nat) (r : Root) : Prop :=
  (n' <= n)%nat /\
  match x with
  | Ok _ => exists v, st v r /\ settled_with nd ni v
  | Err _ => (n' < n)%nat /\ (st (published_view c) r \/ st (vset SJournal None (published_view c)) r)
  end.
Lemma committed_left_over n c e n' r : candidate_ok c -> committed_result n c (Err e) n' r -> left_over r.
Proof.
  intros Hc (_ & _ & [Hr|Hr]); [eapply old_left_over; [exact Hr|]|eexists; split; [exact Hr|right; by split_and!]].
  left. unfold resumable, recoverable_pair. split_and!; try done; by left.
Qed.
(** Committing: the new pair stays, or the transaction can still be taken back. *)
Lemma wp_commit clean n c r :
  candidate_ok c -> st (published_view c) r ->
  wp clean pid (commit s own_publication)
    (committed_result n c) left_over n r.
Proof.
  intros Hc Hst. unfold commit. cbn [own_publication pb_root pb_journal pb_previous_domain pb_previous_ip].
  rewrite String.eqb_refl. cbn [negb].
  assert (forall p q r', no_link p -> no_link q -> st (mkView None (F nd) (F ni) p q c) r' -> left_over r') as Hnew.
  { intros p q r' Hp Hq Hr. exists (mkView None (F nd) (F ni) p q c). split; [done|]. right. by split_and!. }
  assert (left_over r) as Hold.
  { eapply old_left_over; [exact Hst|]. left. unfold resumable, recoverable_pair. split_and!; try done; by left. }
  apply wp_bind, (wp_remove_journal _ _ _ _ _ _ Hst); [done|done| |intros _ n' ->; apply wp_ret; cbn; split; [lia|]; split; [lia|by left]|by intros _].
  intros r1 Hr1. cbn in Hr1. split_and!; [|intros _; by eapply Hnew; [| |exact Hr1]|
    intros _ n' ->; apply wp_ret; split; [lia|]; split; [lia|by right]].
  cbn [negb]. apply wp_bind, (wp_clear _ _ _ _ _ _ SPrevDomain Hr1); [done| |intros _; by eapply Hnew; [| |exact Hr1]].
  intros b2 n2 e2 r2 Hn2 He2 _ _ _ Hr2. cbn in Hr2.
  apply wp_bind, (wp_clear _ _ _ _ _ _ SPrevIp Hr2); [done| |intros _; by eapply Hnew; [| |exact Hr2]].
  intros b3 n3 e3 r3 Hn3 He3 _ _ _ Hr3. cbn in Hr3.
  assert (forall n', (n' <= n3)%nat -> wp clean pid (mret (Ok tt)) (committed_result n c) left_over n' r3) as Hfin.
  { intros n' Hn'. apply wp_ret. split; [lia|]. eexists. split; [exact Hr3|]. by split_and!. }
  apply wp_bind, wp_sync; [intros _ n' ->; apply Hfin; lia|intros _; by eapply Hnew; [| |exact Hr3]|by apply Hfin].
Qed.
(** Rolling back: the old pair is back, or can still be recovered.  The journal may be gone
    already, when a commit failed late. *)
Definition rolled_back_result (n : nat) (j : option Entry) (x : Result RuleSetError unit) (n' : nat) (r : Root) : Prop :=
  (n' <= n)%nat /\ exists v, st v r /\
  match x with
  | Ok _ => settled_with od oi v
  | Err _ => ((n' < n)%nat /\ v_journal v = j /\ recoverable_pair v) \/ settled_with od oi v
  end.
Lemma wp_rollback clean n j c r :
  j = None \/ j = F (encode own_journal) -> candidate_ok c -> st (vset SJournal j (published_view c)) r ->
  wp clean pid (rollback s own_publication) (rolled_back_result n j)
    (fun r' => exists v, st v r' /\ (v_journal v = j /\ recoverable_pair v \/ settled_with od oi v)) n r.
Proof.
  intros Hj Hc Hst. unfold rollback. cbn [own_publication pb_root pb_journal pb_previous_domain pb_previous_ip].
  rewrite String.eqb_refl. cbn [negb]. apply wp_bind, (wp_restore _ _ _ _ _ _ Hst); try done.
  { intros v' r' Hr' Hj' Hv. exists v'. split; [done|]. by left. }
  2: { intros n' v' r' Hn' Hr' Hj' Hv. rewrite bool_decide_eq_false_2 by done. apply wp_ret. split; [lia|].
       exists v'. split; [done|]. by left. }
  intros n' r' Hn' Hr'. cbn in Hr'. rewrite bool_decide_eq_true_2 by done. cbn [negb].
  assert (recoverable_pair (mkView j (F od) (F oi) None None c)) as Hold by (unfold recoverable_pair; split_and!; try done; by right).
  assert (settled_with od oi (mkView None (F od) (F oi) None None c)) as Hset by (by split_and!).
  destruct Hj as [-> | ->].
  - apply wp_bind, wp_bind, (wp_remove_file _ _ _ _ _ Hr') with (s := SJournal).
    + intros _ n'' ->. apply wp_ret, wp_ret. split; [lia|]. eexists. split; [exact Hr'|]. by right.
    + intros _. eexists. split; [exact Hr'|]. by right.
    + done.
    + apply wp_ret, wp_ret. split; [lia|]. eexists. split; [exact Hr'|]. by right.
  - apply wp_bind, (wp_remove_journal _ _ _ _ _ _ Hr'); [done|done| |intros _ n'' ->; apply wp_ret; split; [lia|];
      eexists; split; [exact Hr'|]; left; split; [lia|done]|intros _; eexists; split; [exact Hr'|by left]].
    intros r2 Hr2. cbn in Hr2. split_and!.
    + apply wp_ret. split; [lia|]. eexists. by split.
    + intros _. eexists. split; [exact Hr2|]. by right.
    + intros _ n'' ->. apply wp_ret. split; [lia|]. eexists. split; [exact Hr2|]. by right.
Qed.
End publication.

Lemma wp_publish_candidate clean s n children r :
  (n <= 1)%nat -> children !! DOMAIN_FILE = Some nd -> children !! IP_FILE = Some ni ->
  st (mkView None (F od) (F oi) None None (Some (EDirectory children))) r ->
  wp clean process (publish_candidate encode s (slot_name SCandidate) sequence) (published_result s n) left_over n r.
Proof.
  intros Hn Hdom Hip Hst. pose proof Hst as [Hv _]. pose proof (Hv SPrevDomain) as Hpd. pose proof (Hv SPrevIp) as Hpi.
  cbn [vget] in Hpd, Hpi. cbn in Hpd, Hpi.
  set (cand := Some (EDirectory children)) in *.
  assert (forall j r', j = None \/ (exists k, j = F (take k (encode own_journal))) ->
            st (mkView j (F od) (F oi) None None cand) r' -> exists v, st v r' /\ old_in_place v) as Hold.
  { intros j r' Hj Hr'. eexists. split; [exact Hr'|]. destruct Hj as [->|[k ->]]; [left|right].
    - split_and!; try done. by right.
    - split; [by exists k|]. split_and!; try done. by right. }
  assert (left_over r) as Hleft by (destruct (Hold None r ltac:(by left) Hst) as (v & ? & ?); eapply old_left_over; [done|by right]).
  assert (forall j n' r', (n' < n)%nat -> j = None \/ (exists k, j = F (take k (encode own_journal))) ->
            st (mkView j (F od) (F oi) None None cand) r' ->
            wp clean process (mret (Err PublishFailed)) (published_result s n) left_over n' r') as Hret.
  { intros j n' r' Hn' Hj Hr'. apply wp_ret. split; [lia|]. split; [done|by eapply Hold]. }
  unfold publish_candidate. apply wp_bind, wp_process.
  assert (forall name (k : bool -> RS (Result RuleSetError PublishedRuleSet)), r !! name = None ->
            (forall n', (n' <= n)%nat -> wp clean process (k false) (published_result s n) left_over n' r) ->
            forall n', (n' <= n)%nat -> wp clean process (path_exists name ≫= k) (published_result s n) left_over n' r) as Hexists.
  { intros name k Hname Hk n' Hn'. apply wp_bind, wp_query; [rewrite Hname; by apply Hk|intros _ n'' ->; apply Hk; lia|done]. }
  apply Hexists; [exact Hpd| |done]. intros n1 Hn1. apply Hexists; [exact Hpi| |done]. intros n2 Hn2.
  unfold publish_journalled.
  change (file_name (slot_name SCandidate)) with (Ok (slot_name SCandidate) : Result RuleSetError string).
  change (file_name (transaction_name ".previous-domain-" process sequence ".srs")) with (Ok (slot_name SPrevDomain) : Result RuleSetError string).
  change (file_name (transaction_name ".previous-ip-" process sequence ".srs")) with (Ok (slot_name SPrevIp) : Result RuleSetError string).
  cbn [mbind Result_bind]. apply wp_bind, (wp_write_journal _ _ _ _ _ _ _ Hst); [done|..].
  - intros r1 Hr1. cbn in Hr1. cbn [negb].
    assert (F (encode own_journal) = None \/ exists k, F (encode own_journal) = F (take k (encode own_journal))) as Hk.
    { right. exists (length (encode own_journal)). by rewrite take_ge. }
    assert (left_over r1) as Hl1 by (destruct (Hold _ _ Hk Hr1) as (v & ? & ?); eapply old_left_over; [done|by right]).
    apply wp_bind, wp_sync; [|done|].
    + intros _ n' ->. cbn [negb]. apply wp_bind, (wp_clear _ _ _ _ _ _ SJournal Hr1); [done| |done].
      intros b n'' e r' Hn'' _ He _ _ Hr'. cbn in Hr'. eapply (Hret e); [lia| |exact Hr'].
      destruct He as [-> | ->]; [by left|done].
    + cbn [negb]. eapply wp_mono; [eapply (wp_set_aside s n2); [lia|exact Hdom|exact Hip|exact Hr1]| |done].
      intros x n' r' [Hx1 Hx2]. split; [lia|]. destruct x; [done|]. destruct Hx2. split; [lia|done].
  - intros n' r' -> Hr'. apply wp_ret. split; [lia|]. split; [lia|].
    destruct Hr' as [Hr'|[k Hr']]; [by eapply (Hold None); [left|]|]. cbn in Hr'. eapply Hold; [|exact Hr']. right. by exists k.
  - intros r' Hr'. assert (exists v, st v r' /\ old_in_place v) as (v & ? & ?); [|eapply old_left_over; [done|by right]].
    destruct Hr' as [Hr'|[k Hr']]; [by eapply (Hold None); [left|]|]. cbn in Hr'. eapply Hold; [|exact Hr']. right. by exists k.
Qed.

Lemma wp_publish clean s n children r :
  (n <= 1)%nat -> children !! DOMAIN_FILE = Some nd -> children !! IP_FILE = Some ni ->
  st (mkView None (F od) (F oi) None None (Some (EDirectory children))) r ->
  wp clean process (publish encode s (mkPreparedSet (rs_root s) (Some (slot_name SCandidate)) sequence))
    (published_result s n) left_over n r.
Proof.
  intros Hn Hdom Hip Hst. unfold publish. cbn [ps_root ps_candidate ps_sequence]. rewrite String.eqb_refl. cbn [negb].
  apply wp_bind. eapply wp_mono; [by eapply wp_publish_candidate| |done]. intros x n1 r1 [Hn1 Hx].
  destruct x as [p|e].
  - destruct Hx as (-> & c & Hc & Hr1). apply wp_bind, (wp_remove_candidate _ _ _ _ _ _ _ Hr1 Hc).
    + intros b n' r' e Hn' He _ _ Hr'. apply wp_ret. split; [lia|]. split; [done|]. by exists e.
    + intros _ r' e He Hr'. eapply old_left_over; [exact Hr'|]. left. unfold resumable, recoverable_pair. split_and!; try done; by left.
  - destruct Hx as (Hlt & v & Hv & Ho). apply wp_bind, (wp_remove_candidate _ _ _ _ _ _ _ Hv (old_in_place_has _ Ho)).
    + intros b n' r' c Hn' Hc _ _ Hr'. apply wp_ret. split; [lia|]. split; [lia|]. eexists. split; [exact Hr'|].
      by apply old_in_place_candidate.
    + intros _ r' c Hc Hr'. eapply old_left_over; [exact Hr'|]. right. by apply old_in_place_candidate.
Qed.

(** *** Staging *)
Definition staged (m : gmap string (list Z)) : View := mkView None (F od) (F oi) None None (Some (EDirectory m)).
Lemma staged_settled m : settled_with od oi (staged m).
Proof. split_and!; try done. by right. Qed.
Lemma staged_left_over m r : st (staged m) r -> left_over r.
Proof. intros Hr. eapply old_left_over; [exact Hr|]. right. left. apply staged_settled. Qed.
Lemma wp_write_child clean (Q : bool -> nat -> Root -> Prop) n m name bs r :
  st (staged m) r -> m !! name = None ->
  (forall r', st (staged (<[name := bs]> (<[name := []]> m))) r' -> Q true n r') ->
  (forall n' m' r', (n' < n)%nat -> st (staged m') r' -> Q false n' r') ->
  wp clean process (write_private_file (InCandidate (slot_name SCandidate) name) bs) Q left_over n r.
Proof.
  intros Hst Hm HQ HF. pose proof Hst as [Hv _]. specialize (Hv SCandidate). cbn [vget staged v_candidate] in Hv.
  apply wp_bind, wp_call; [|intros _ k n' ->; apply wp_ret; eapply HF; [lia|exact Hst]|intros _ k; exact (staged_left_over _ _ Hst)].
  unfold create_at. rewrite Hv, Hm. cbn [negb].
  pose proof (st_insert SCandidate (EDirectory (<[name := []]> m)) _ _ Hst) as Hr1. cbn in Hr1. set (r1 := <[_ := _]> r) in *.
  assert (forall b, st (staged (<[name := b]> (<[name := []]> m))) (fill_at (InCandidate (slot_name SCandidate) name) b r1)) as Hr2.
  { intros b. unfold fill_at, r1. rewrite lookup_insert_eq. exact (st_insert SCandidate _ _ _ Hr1). }
  apply wp_bind, wp_call; cbn [negb].
  - apply wp_call; [apply HQ, Hr2|intros _ k n' ->; eapply HF; [lia|apply Hr2]|intros _ k; eapply staged_left_over, Hr2].
  - intros _ k n' ->. apply wp_ret. eapply HF; [lia|apply Hr2].
  - intros _ k. eapply staged_left_over, Hr2.
Qed.

Definition staged_result (n : nat) (x : Result RuleSetError unit) (n' : nat) (r : Root) : Prop :=
  (n' <= n)%nat /\ exists m, st (staged m) r
    /\ match x with Ok _ => m !! DOMAIN_FILE = Some nd /\ m !! IP_FILE = Some ni | Err _ => True end.
Lemma wp_or_stage_write clean n m name bs r (k : unit -> RS (Result RuleSetError unit)) n0 :
  (n <= n0)%nat -> st (staged m) r -> m !! name = None ->
  (forall r', st (staged (<[name := bs]> (<[name := []]> m))) r' -> wp clean process (k tt) (staged_result n0) left_over n r') ->
  wp clean process (attempt (or_stage (write_private_file (InCandidate (slot_name SCandidate) name) bs)) k)
    (staged_result n0) left_over n r.
Proof.
  intros Hn Hst Hm Hk. apply wp_attempt, wp_bind, (wp_write_child _ _ _ _ _ _ _ Hst Hm).
  - intros r' Hr'. apply wp_ret. by apply Hk.
  - intros n' m' r' Hn' Hr'. apply wp_ret. split; [lia|]. exists m'. by split.
Qed.
Lemma wp_stage clean to_vec check s n r :
  st (staged ∅) r ->
  wp clean process (stage_and_check to_vec check s (slot_name SCandidate) nd ni) (staged_result n) left_over n r.
Proof.
  intros Hst. unfold stage_and_check. cbv zeta.
  apply (wp_or_stage_write _ _ _ _ _ _ _ _ ltac:(done) Hst); [done|]. intros r1 Hr1.
  apply (wp_or_stage_write _ _ _ _ _ _ _ _ ltac:(done) Hr1); [by rewrite !lookup_insert_ne|]. intros r2 Hr2.
  destruct (to_vec _) as [config|e]; [|apply wp_ret; split; [done|]; eexists; by split].
  apply (wp_or_stage_write _ _ _ _ _ _ _ _ ltac:(done) Hr2); [by rewrite !lookup_insert_ne|]. intros r3 Hr3.
  apply wp_attempt, wp_bind, wp_sync; [|intros _; by eapply staged_left_over|].
  { intros _ n' ->. apply wp_ret. split; [lia|]. eexists. by split. }
  apply wp_ret. apply wp_bind, wp_query; [|intros _ n' ->; apply wp_ret; split; [lia|]; eexists; by split|intros _; by eapply staged_left_over].
  apply wp_ret. split; [done|]. eexists. split; [exact Hr3|]. destruct (check _ _); [|done].
  split; [by rewrite lookup_insert_ne, lookup_insert_ne, lookup_insert_ne, lookup_insert_ne, lookup_insert_eq|].
  by rewrite lookup_insert_ne, lookup_insert_ne, lookup_insert_eq.
Qed.
(** The candidate of this transaction, from a directory without one. *)
Definition base : View := mkView None (F od) (F oi) None None None.
Definition prepared_result (s : RuleSetStore) (n : nat) (x : Result RuleSetError RuleSetPreparation) (n' : nat) (r : Root) : Prop :=
  (n' <= n)%nat /\
  match x with
  | Ok PrepUnchanged => st base r /\ od = nd /\ oi = ni
  | Ok (PrepPrepared p) =>
      p = mkPreparedSet (rs_root s) (Some (slot_name SCandidate)) sequence
      /\ exists m, st (staged m) r /\ m !! DOMAIN_FILE = Some nd /\ m !! IP_FILE = Some ni
  | Err _ => exists v, st v r /\ settled_with od oi v
  end.
Lemma wp_prepare_staged clean to_vec check s n r :
  st base r ->
  wp clean process
    (attempt (or_stage (create_private_directory (slot_name SCandidate)))
       (fun _ => result ← stage_and_check to_vec check s (slot_name SCandidate) nd ni;
                 match result with
                 | Err e => _ ← remove_dir_all (slot_name SCandidate); mret (Err e)
                 | Ok _ => mret (Ok (PrepPrepared (mkPreparedSet (rs_root s) (Some (slot_name SCandidate)) sequence)))
                 end))
    (prepared_result s n) left_over n r.
Proof.
  intros Hst. pose proof Hst as [Hv _]. specialize (Hv SCandidate). cbn [vget base v_candidate] in Hv.
  assert (settled_with od oi base) as Hbase by (split_and!; try done; by left).
  apply wp_attempt, wp_bind, wp_call; [| |intros _ k; eapply old_left_over; [exact Hst|by right; left]].
  2: { intros _ k n' ->. apply wp_ret. split; [lia|]. eexists. by split. }
  rewrite Hv. apply wp_ret. pose proof (st_insert SCandidate (EDirectory ∅) _ _ Hst) as Hr1. cbn in Hr1.
  apply wp_bind. eapply wp_mono; [by apply wp_stage| |done]. intros [[]|e] n1 r1 (Hn1 & m & Hm & Hx).
  - apply wp_ret. split; [done|]. split; [done|]. by exists m.
  - apply wp_bind, (wp_remove_candidate _ _ _ _ _ _ _ Hm); [by right| |].
    + intros b n' r' c Hn' Hc _ _ Hr'. apply wp_ret. split; [lia|]. eexists. split; [exact Hr'|]. by split_and!.
    + intros _ r' c Hc Hr'. eapply old_left_over; [exact Hr'|]. right. left. by split_and!.
Qed.

(** *** Recovery, when nothing fails *)
Lemma wp_restore_if pid (Q : bool -> nat -> Root -> Prop) C n v r s t old :
  st v r -> s <> t -> recoverable (vget t v) (vget s v) old ->
  (forall r', st (vset t None (vset s (F old) v)) r' -> Q true n r') ->
  wp true pid (restore_if_present (slot_name s) (slot_name t)) Q C n r.
Proof.
  intros Hst Hne Hrec HQ. pose proof Hst as [Hv _]. unfold restore_if_present.
  apply wp_bind, wp_query; [|done|done]. rewrite Hv. destruct Hrec as [[Ht Hs]|[Ht Hs]]; rewrite Ht.
  - apply wp_bind, wp_query; [|done|done]. rewrite Hv.
    assert (forall v' r', st v' r' -> vget t v' = F old -> is_directory (vget s v') = false ->
              vset t None (vset s (F old) v') = vset t None (vset s (F old) v) ->
              wp true pid (fs_rename (slot_name t) (slot_name s)) Q C n r') as Hmove.
    { intros v' r' Hr' Ht' Hs' Heq. eapply (wp_rename _ _ _ _ _ Hr'); [done|done|exact Ht'|done|done|].
      intros r'' Hr''. apply HQ. rewrite <- Heq. by destruct v', s, t. }
    destruct (vget s v) as [e|] eqn:Es; cbn [is_some].
    + apply wp_bind, (wp_remove_file _ _ _ _ _ Hst); [done|done|rewrite Es; by destruct e|].
      rewrite Es. intros r' Hr'. cbn [negb]. eapply Hmove; [exact Hr'| | |]; rewrite ?vget_vset.
      * by rewrite decide_False.
      * by rewrite decide_True.
      * by destruct v, s, t.
    + apply wp_bind, wp_ret. cbn [negb]. by eapply Hmove; [exact Hst|rewrite ?Es..|].
  - apply wp_query; [|done|done]. rewrite Hv, Hs. apply HQ.
    replace (vset t None (vset s (F old) v)) with v; [done|]. destruct v, s, t; cbn in *; congruence.
Qed.

Context (Hprocess : is_uint 64 process) (Hsequence : is_uint 64 sequence).

Definition name_byte (b : Z) : bool := is_ascii_alphanumeric b || (b =? 46) || (b =? 45).
Lemma print_u64_name n : is_uint 64 n ->
  bytes (of_bytes (print_u64 n)) = print_u64 n /\ forallb name_byte (print_u64 n) = true /\ len (print_u64 n) <= 20.
Proof.
  intros Hn. destruct (print_u64_digits n Hn) as [Hd _]. split_and!.
  - apply bytes_of_bytes. eapply Forall_impl; [exact Hd|]. intros b Hb%is_ascii_digit_range. lia.
  - apply forallb_forall. intros b Hb%list_elem_of_In. pose proof (proj1 (Forall_forall _ _) Hd b Hb) as Hdb. cbn beta in Hdb.
    unfold name_byte, is_ascii_alphanumeric. by rewrite Hdb.
  - pose proof (digits_of_length 20 n []) as Hl. unfold len, print_u64. cbn in Hl |- *. lia.
Qed.
Lemma transaction_name_bytes prefix suffix :
  bytes (transaction_name prefix process sequence suffix)
  = bytes prefix ++ print_u64 process ++ [45] ++ print_u64 sequence ++ bytes suffix.
Proof.
  unfold transaction_name. rewrite !bytes_app. destruct (print_u64_name _ Hprocess) as (-> & _), (print_u64_name _ Hsequence) as (-> & _).
  done.
Qed.
Lemma transaction_name_valid prefix suffix :
  len (bytes prefix) + len (bytes suffix) <= 60 ->
  forallb name_byte (bytes prefix) = true -> forallb name_byte (bytes suffix) = true ->
  valid_transaction_name (transaction_name prefix process sequence suffix) prefix = true
  /\ forallb name_byte (bytes (transaction_name prefix process sequence suffix)) = true.
Proof.
  intros Hl Hp Hs. destruct (print_u64_name _ Hprocess) as (_ & Hp1 & Hl1), (print_u64_name _ Hsequence) as (_ & Hs1 & Hl2).
  assert (forallb name_byte (bytes (transaction_name prefix process sequence suffix)) = true) as Hall.
  { rewrite transaction_name_bytes, !forallb_app, Hp, Hp1, Hs1, Hs. done. }
  split; [|done]. unfold valid_transaction_name. rewrite andb_true_iff. split; [|exact Hall]. apply andb_true_iff. split.
  - unfold starts_with. rewrite transaction_name_bytes.
    by rewrite (proj2 (strip_prefix_Some _ _ _) eq_refl).
  - apply Z.leb_le. rewrite <- bytes_length, transaction_name_bytes. unfold len in *. rewrite !length_app. cbn [length]. lia.
Qed.
Lemma own_names_valid :
  valid_transaction_name (slot_name SCandidate) ".candidate-ruleset-" = true
  /\ valid_transaction_name (slot_name SPrevDomain) ".previous-domain-" = true
  /\ valid_transaction_name (slot_name SPrevIp) ".previous-ip-" = true.
Proof. split_and!; apply transaction_name_valid; done. Qed.
Lemma name_byte_utf8 bs : forallb name_byte bs = true -> valid_utf8 bs = true.
Proof.
  induction bs as [|b bs IH]; [done|]. cbn [forallb]. intros [Hb Hbs]%andb_true_iff. cbn [valid_utf8].
  rewrite (proj2 (Z.ltb_lt _ _)); [by apply IH|].
  unfold name_byte, is_ascii_alphanumeric, is_ascii_digit, is_ascii_lowercase, is_ascii_uppercase, in_range in Hb. lia.
Qed.
Lemma slot_utf8 s : valid_utf8 (bytes (slot_name s)) = true.
Proof. destruct s; [done..| | |]; apply name_byte_utf8, transaction_name_valid; done. Qed.

Context (decode : list Z -> option RuleSetJournal).
Context (Hdecode : decode (encode own_journal) = Some own_journal) (Hlen : len (encode own_journal) <= 4096).
(** Recovery ends with the old pair in place and nothing of the transaction left. *)
Lemma wp_recover pid v r :
  st v r -> resumable v ->
  wp true pid (recover_interrupted_transaction decode)
    (fun x n' r' => x = Ok tt /\ st base r') (fun _ => False) 0%nat r.
Proof.
  destruct v as [j d i p q c]. intros Hst (Hj & Hd & Hi & Hc). cbn in Hj, Hd, Hi, Hc. subst j.
  pose proof Hst as [Hv _]. specialize (Hv SJournal). cbn in Hv.
  unfold recover_interrupted_transaction. apply wp_bind, wp_query; [|done|done]. rewrite Hv.
  rewrite (proj2 (Z.ltb_ge _ _)) by done. apply wp_bind, wp_query; [|done|done]. rewrite Hv.
  cbn [mbind option_bind]. rewrite Hdecode. unfold recover_journal.
  cbn [own_journal jr_schema jr_candidate jr_previous_domain jr_previous_ip].
  destruct own_names_valid as (Hn1 & Hn2 & Hn3). rewrite Hn1, Hn2, Hn3. cbn [negb orb].
  apply wp_bind, (wp_restore_if _ _ _ _ _ _ SDomain SPrevDomain od Hst); [done|done|]. intros r1 Hr1. cbn in Hr1. cbn [negb].
  apply wp_bind, (wp_restore_if _ _ _ _ _ _ SIp SPrevIp oi Hr1); [done|done|]. intros r2 Hr2. cbn in Hr2. cbn [negb].
  apply wp_attempt. unfold discard_candidate. apply wp_bind, wp_query; [|done|done].
  pose proof Hr2 as [Hv2 _]. specialize (Hv2 SCandidate). cbn [vget v_candidate] in Hv2. rewrite Hv2.
  assert (forall r3, st (mkView (F (encode own_journal)) (F od) (F oi) None None None) r3 ->
            wp true pid (removed ← remove_journal JOURNAL_FILE; mret (if removed : bool then Ok tt else Err RollbackFailed))
              (fun x n' r' => x = Ok tt /\ st base r') (fun _ => False) 0%nat r3) as Hend.
  { intros r3 Hr3. apply wp_bind, (wp_remove_journal _ _ _ _ _ _ Hr3); [done|done| |done|done].
    intros r4 Hr4. split_and!; [|done|done]. by apply wp_ret. }
  destruct c as [[]|]; try (by destruct Hc).
  - apply wp_bind, (wp_remove_candidate _ _ _ _ _ _ _ Hr2); [by right| |done].
    intros b n' r' e Hn' He Hb1 Hb2 Hr'. assert (b = true) as -> by by apply Hb1. rewrite (Hb2 eq_refl) in Hr'.
    apply wp_ret. assert (n' = 0)%nat as -> by lia. by apply Hend.
  - apply wp_ret. by apply Hend.
Qed.
Lemma wp_recover_settled pid v r domain ip :
  st v r -> settled_with domain ip v ->
  wp true pid (recover_interrupted_transaction decode) (fun x n' r' => x = Ok tt /\ r' = r) (fun _ => False) 0%nat r.
Proof.
  intros [Hv _] (Hj & _). specialize (Hv SJournal). cbn in Hv. unfold recover_interrupted_transaction.
  apply wp_bind, wp_query; [|done|done]. rewrite Hv, Hj. by apply wp_ret.
Qed.
End transaction.

(** ** Opening, when nothing fails *)
Definition stale (name : string) : bool := stale_previous name || stale_candidate name.
(** What the listing finds can be cleaned up. *)
Definition cleanable (r : Root) : Prop := forall x e, r !! x = Some e ->
  valid_utf8 (bytes x) = true /\ (stale_previous x = true -> exists b, e = EFile b)
  /\ (stale_previous x = false -> stale_candidate x = true -> is_directory (Some e) = true).
Lemma cleanable_delete x r : cleanable r -> cleanable (delete x r).
Proof. intros Hr y e [_ He]%lookup_delete_Some. by apply Hr. Qed.
Lemma wp_cleanup_loop pid C names : forall n r changed,
  NoDup names -> (forall x, x ∈ names -> is_Some (r !! x)) -> cleanable r ->
  wp true pid (cleanup_loop names changed)
    (fun x _ r' => (exists b, x = Ok b) /\ forall y, r' !! y = if bool_decide (y ∈ names) && stale y then None else r !! y) C n r.
Proof.
  induction names as [|name rest IH]; intros n r changed Hnd Hin Hc; cbn [cleanup_loop].
  { apply wp_ret. split; [by eexists|done]. }
  apply NoDup_cons in Hnd as [Hni Hnd]. destruct (Hin name) as [e He]; [by left|].
  destruct (Hc _ _ He) as (-> & Hprev & Hcand). cbn [negb]. apply wp_bind, wp_query; [|done|done]. rewrite He. cbn.
  assert (forall y, y <> name -> bool_decide (y ∈ name :: rest) = bool_decide (y ∈ rest)) as Hy.
  { intros y Hy. apply bool_decide_ext. rewrite elem_of_cons. naive_solver. }
  assert (stale name = true -> forall b,
    wp true pid (cleanup_loop rest b)
      (fun x _ r' => (exists b, x = Ok b) /\ forall y, r' !! y = if bool_decide (y ∈ name :: rest) && stale y then None else r !! y)
      C n (delete name r)) as Hgone.
  { intros Hs b. eapply wp_mono; [apply IH; [done| |by apply cleanable_delete]| |done].
    - intros x Hx. rewrite lookup_delete_ne by (intros ->; done). apply Hin. by right.
    - intros x n' r' [Hx Hr']. split; [done|]. intros y. rewrite Hr'. destruct (decide (y = name)) as [->|Hne].
      + rewrite lookup_delete_eq, Hs, (bool_decide_eq_true_2 (name ∈ name :: rest)) by (by left). by destruct (_ && _).
      + by rewrite Hy, lookup_delete_ne. }
  unfold stale in Hgone. destruct (stale_previous name) eqn:Ep.
  { destruct (Hprev eq_refl) as [b ->]. apply wp_attempt, wp_bind, wp_call; [|done|done]. rewrite He. apply wp_ret. by apply Hgone. }
  destruct (stale_candidate name) eqn:Ec.
  { specialize (Hcand eq_refl eq_refl). destruct e as [|m| |]; try done.
    apply wp_attempt, wp_bind, wp_call; [|done|done]. rewrite He. apply wp_ret. by apply Hgone. }
  eapply wp_mono; [apply IH; [done|intros x Hx; apply Hin; by right|done]| |done].
  intros x n' r' [Hx Hr']. split; [done|]. intros y. rewrite Hr'. destruct (decide (y = name)) as [->|Hne]; [|by rewrite Hy].
  unfold stale. rewrite Ep, Ec. by rewrite !andb_false_r.
Qed.

Section opening.
Context (decode : list Z -> option RuleSetJournal) (read_dir : Root -> list string).
Context (Hread : forall r, read_dir r ≡ₚ elements (dom r)).

Lemma wp_cleanup pid C n r :
  cleanable r ->
  wp true pid (cleanup_stale_transactions read_dir)
    (fun x _ r' => x = Ok tt /\ forall y, r' !! y = if stale y then None else r !! y) C n r.
Proof.
  intros Hc. unfold cleanup_stale_transactions. apply wp_bind, wp_query; [|done|done].
  assert (forall y, y ∈ read_dir r <-> is_Some (r !! y)) as Hmem.
  { intros y. rewrite Hread, elem_of_elements. by rewrite elem_of_dom. }
  apply wp_attempt. eapply wp_mono; [apply wp_cleanup_loop; [|by intros; apply Hmem|done]| |done].
  { rewrite Hread. apply NoDup_elements. }
  intros x n' r' [[b ->] Hr'].
  assert (forall y, r' !! y = if stale y then None else r !! y) as Hall.
  { intros y. rewrite Hr'. destruct (stale y); [|by rewrite andb_false_r]. rewrite andb_true_r.
    case_bool_decide as Hy; [done|]. apply eq_None_not_Some. by rewrite <- Hmem. }
  destruct b; [|by apply wp_ret]. apply wp_bind, wp_call; [by apply wp_ret|done|done].
Qed.

(** The state of a store that is open: the pair is in place, and nothing of a transaction is. *)
Record opened (domain ip : list Z) (r : Root) : Prop := {
  op_journal : r !! JOURNAL_FILE = None;
  op_domain : r !! DOMAIN_FILE = Some (EFile domain);
  op_ip : r !! IP_FILE = Some (EFile ip);
  op_stale x : stale x = true -> r !! x = None;
  op_utf8 x : is_Some (r !! x) -> valid_utf8 (bytes x) = true;
}.
(** The files of a store that are not the pair's. *)
Definition other (x : string) : Prop := x <> JOURNAL_FILE /\ x <> DOMAIN_FILE /\ x <> IP_FILE /\ stale x = false.
(** The next start opens the store on this pair. *)
Definition reopens (r0 : Root) (domain ip : list Z) (r : Root) : Prop :=
  forall root limits pid sequence, is_uint 64 sequence ->
  exists d', open decode read_dir root true true (Some root) limits (mkRsDisk r [] pid sequence) = Finished (Ok (mkStore root limits)) d'
    /\ opened domain ip (rd_root d') /\ forall x, other x -> rd_root d' !! x = r0 !! x.

Section transaction.
Context (process sequence : Z) (r0 : Root) (od oi : list Z).
Context (Hprocess : is_uint 64 process) (Hsequence : is_uint 64 sequence) (Hr0 : opened od oi r0).
Lemma slot_stale s : match s with SJournal | SDomain | SIp => stale (slot_name process sequence s) = false
                     | _ => stale (slot_name process sequence s) = true end.
Proof. destruct s; reflexivity. Qed.
Lemma st_base : st process sequence r0 (base od oi) r0.
Proof.
  split; [|done]. intros s. pose proof (slot_stale s) as Hs. destruct s; [by apply Hr0..| | |]; by rewrite (op_stale _ _ _ Hr0).
Qed.
Lemma st_cleanable v r :
  st process sequence r0 v r -> no_link (v_prev_domain v) -> no_link (v_prev_ip v) -> candidate_ok (v_candidate v) -> cleanable r.
Proof.
  intros [Hv Hr] Hpd Hpi Hc x e He.
  destruct (slot_or_other process sequence x) as [[s ->]|Hx].
  - rewrite Hv in He. split; [by apply slot_utf8|]. destruct s; split; try done; intros Hs; cbn in He.
    + destruct (v_prev_domain v) as [[]|]; naive_solver.
    + destruct (v_prev_ip v) as [[]|]; naive_solver.
    + intros _. destruct Hc as [Hc|Hc]; [congruence|by rewrite He in Hc].
  - rewrite Hr in He by done. split; [by eapply op_utf8; [exact Hr0|rewrite He]|].
    assert (stale x = false) as Hs by (destruct (stale x) eqn:E; [by rewrite (op_stale _ _ _ Hr0 _ E) in He|done]).
    unfold stale in Hs. apply orb_false_iff in Hs as [Hs1 Hs2]. split; congruence.
Qed.
Lemma swept_opened domain ip v r r' :
  st process sequence r0 v r -> settled_with domain ip v -> (forall y, r' !! y = if stale y then None else r !! y) ->
  opened domain ip r' /\ forall x, other x -> r' !! x = r0 !! x.
Proof.
  intros Hst (Hj & Hd & Hi & Hp & Hq & Hc) Hr'. pose proof (st_cleanable _ _ Hst Hp Hq Hc) as Hcl. destruct Hst as [Hv Hr].
  split; [split|].
  - rewrite Hr'. change (stale JOURNAL_FILE) with false. cbn iota. by rewrite (Hv SJournal : r !! JOURNAL_FILE = _).
  - rewrite Hr'. change (stale DOMAIN_FILE) with false. cbn iota. by rewrite (Hv SDomain : r !! DOMAIN_FILE = _).
  - rewrite Hr'. change (stale IP_FILE) with false. cbn iota. by rewrite (Hv SIp : r !! IP_FILE = _).
  - intros x Hx. by rewrite Hr', Hx.
  - intros x [e He]. rewrite Hr' in He. destruct (stale x); [done|]. by apply Hcl in He as [? _].
  - intros x (H1 & H2 & H3 & H4). rewrite Hr', H4. apply Hr. intros s ->. pose proof (slot_stale s) as Hsl. destruct s; first [done|by rewrite H4 in Hsl].
Qed.

Context (encode : RuleSetJournal -> list Z) (nd ni : list Z).
Context (Hdecode : decode (encode (own_journal process sequence)) = Some (own_journal process sequence)).
Context (Hlen : len (encode (own_journal process sequence)) <= 4096).
(** Whatever recovery does, the rest of opening follows. *)
Lemma recovered_reopens r domain ip :
  (forall pid, wp true pid (recover_interrupted_transaction decode)
     (fun x _ r' => x = Ok tt /\ exists v, st process sequence r0 v r' /\ settled_with domain ip v) (fun _ => False) 0%nat r) ->
  reopens r0 domain ip r.
Proof.
  intros Hrec root limits pid sequence' Hseq.
  assert (wp true pid (open decode read_dir root true true (Some root) limits)
    (fun x _ r' => x = Ok (mkStore root limits) /\ opened domain ip r' /\ forall x, other x -> r' !! x = r0 !! x)
    (fun _ => False) 0%nat r) as Hwp.
  { unfold open. rewrite bool_decide_eq_true_2 by done. cbn [negb orb]. apply wp_attempt.
    eapply wp_mono; [apply Hrec| |done]. intros x n' r' (-> & v & Hv & Hs).
    apply wp_attempt. eapply wp_mono; [apply (wp_cleanup pid (fun _ => False))| |done].
    - pose proof Hs as (_ & _ & _ & Hp & Hq & Hc). by eapply st_cleanable.
    - intros x n2 r2 [-> Hr2]. apply wp_ret. split; [done|]. by eapply swept_opened. }
  specialize (Hwp (mkRsDisk r [] pid sequence') eq_refl ltac:(done) ltac:(done)).
  destruct (open _ _ _ _ _ _ _ _) as [x d'|]; [|by destruct Hwp]. destruct Hwp as (n' & _ & _ & -> & Ho). by exists d'.
Qed.
Lemma settled_reopens v r domain ip :
  st process sequence r0 v r -> settled_with domain ip v -> reopens r0 domain ip r.
Proof.
  intros Hst Hs. apply recovered_reopens. intros pid. eapply wp_mono; [by eapply wp_recover_settled| |done].
  intros x n' r' [-> ->]. split; [done|]. by exists v.
Qed.
Lemma resumable_reopens v r :
  st process sequence r0 v r -> resumable process sequence encode od oi v -> reopens r0 od oi r.
Proof.
  intros Hst Hs. apply recovered_reopens. intros pid.
  eapply wp_mono; [by eapply (wp_recover process sequence r0 encode od oi Hprocess Hsequence decode)| |done].
  intros x n' r' [-> Hr']. split; [done|]. eexists. split; [exact Hr'|]. split_and!; try done. by left.
Qed.
End transaction.
End opening.

(** ** The claims *)
Definition files_after {A} (x : Run A) : Root := match x with Finished _ d => rd_root d | Halted r => r end.

Section claims.
Context (to_vec : Json -> Result string (list Z)) (encode : RuleSetJournal -> list Z)
  (decode : list Z -> option RuleSetJournal) (check : string -> Root -> bool) (read_dir : Root -> list string).
Context (process : Z) (r0 : Root) (od oi nd ni : list Z) (s : RuleSetStore).
Context (Hprocess : is_uint 64 process) (Hr0 : opened od oi r0).
Definition cut (r : Root) : Prop := exists sequence, is_uint 64 sequence /\ left_over process sequence r0 encode od oi nd ni r.
Definition preparation (n : nat) (x : Result RuleSetError RuleSetPreparation) (n' : nat) (r : Root) : Prop :=
  exists sequence, is_uint 64 sequence /\ prepared_result process sequence r0 od oi nd ni s n x n' r.

Lemma cut_base : cut r0.
Proof.
  exists 0. split; [done|]. eapply old_left_over; [by eapply st_base|]. right. left. split_and!; try done. by left.
Qed.
Lemma preparation_error n n' e : (n' <= n)%nat -> preparation n (Err e) n' r0.
Proof.
  intros Hn. exists 0. split; [done|]. split; [done|]. eexists. split; [by eapply st_base|]. split_and!; try done. by left.
Qed.
Lemma wp_prepare clean n :
  wp clean process (prepare to_vec check s nd ni) (preparation n) cut n r0.
Proof.
  pose proof cut_base as Hcut. unfold prepare. destruct (validate_candidate s nd ≫= _) as [[]|e]; [|by apply wp_ret, preparation_error].
  apply wp_attempt. unfold validate_current. apply wp_bind, wp_query; [|intros _ n' ->; apply wp_ret, preparation_error; lia|done].
  rewrite (op_domain _ _ _ Hr0). cbn [negb]. apply wp_bind, wp_query; [|intros _ n' ->; apply wp_ret, preparation_error; lia|done].
  rewrite (op_ip _ _ _ Hr0). apply wp_ret.
  apply wp_attempt, wp_bind, wp_query; [|intros _ n' ->; apply wp_ret, preparation_error; lia|done].
  rewrite (op_domain _ _ _ Hr0). apply wp_ret. cbn [ok_or].
  apply wp_attempt, wp_bind, wp_query; [|intros _ n' ->; apply wp_ret, preparation_error; lia|done].
  rewrite (op_ip _ _ _ Hr0). apply wp_ret. cbn [ok_or].
  destruct (bool_decide (od = nd) && bool_decide (oi = ni)) eqn:E.
  { apply andb_true_iff in E as [E1%bool_decide_eq_true E2%bool_decide_eq_true]. apply wp_ret. exists 0. split; [done|].
    split; [done|]. split; [by eapply st_base|done]. }
  apply wp_bind, wp_sequence. intros sequence Hseq. apply wp_bind, wp_process.
  eapply wp_mono; [by eapply (wp_prepare_staged process sequence r0 encode od oi nd ni), st_base| |].
  - intros x n' r' Hx. by exists sequence.
  - intros r' Hr'. by exists sequence.
Qed.

Definition replaced (x : Result RuleSetError RuleSetReplaceOutcome) (r : Root) : Prop :=
  match x with
  | Ok ReplaceUnchanged => (exists sequence, is_uint 64 sequence /\ st process sequence r0 (base od oi) r) /\ od = nd /\ oi = ni
  | Ok ReplaceUpdated => exists sequence v, is_uint 64 sequence /\ st process sequence r0 v r /\ settled_with nd ni v
  | Err _ => cut r
  end.
Lemma wp_replace clean n : (n <= 1)%nat ->
  wp clean process (replace to_vec encode check s nd ni) (fun x _ r => replaced x r) cut n r0.
Proof.
  intros Hn. apply wp_attempt. eapply wp_mono; [apply wp_prepare| |done].
  intros [[|p]|e] n1 r1 (sequence & Hseq & Hn1 & Hx).
  - apply wp_ret. destruct Hx as [? ?]. split; [by exists sequence|done].
  - destruct Hx as (-> & m & Hst & Hm1 & Hm2). apply wp_attempt.
    eapply wp_mono; [eapply (wp_publish process sequence r0 encode od oi nd ni); [|exact Hm1|exact Hm2|exact Hst]; lia| |].
    2: { intros r' Hr'. by exists sequence. }
    intros [p|e] n2 r2 [Hn2 Hp].
    + destruct Hp as (-> & c & Hc & Hr2). apply wp_attempt.
      eapply wp_mono; [by eapply wp_commit| |intros r' Hr'; by exists sequence].
      intros [[]|e] n3 r3 Hx; [apply wp_ret; destruct Hx as (_ & v & ? & ?); by exists sequence, v|exists sequence; split; [done|by eapply committed_left_over]].
    + destruct Hp as (_ & v & Hv & Ho). exists sequence. split; [done|]. eapply old_left_over; [exact Hv|by right].
  - destruct Hx as (v & Hv & Hs). exists sequence. split; [done|]. eapply old_left_over; [exact Hv|by right; left].
Qed.

Context (Hread : forall r, read_dir r ≡ₚ elements (dom r)) (Hdecode : forall j, decode (encode j) = Some j).
Context (Hlen : forall j, str_len (jr_candidate j) <= 128 -> str_len (jr_previous_domain j) <= 128 -> str_len (jr_previous_ip j) <= 128 ->
           jr_schema j = JOURNAL_SCHEMA -> len (encode j) <= 4096).
(** The journal was only partly written; the old pair is in place. *)
Definition torn_journal (r : Root) : Prop :=
  (exists j k, r !! JOURNAL_FILE = Some (EFile (take k (encode j))))
  /\ r !! DOMAIN_FILE = Some (EFile od) /\ r !! IP_FILE = Some (EFile oi).
Local Abbreviation Reopens := (reopens decode read_dir r0).

Lemma own_journal_length sequence : is_uint 64 sequence -> len (encode (own_journal process sequence)) <= 4096.
Proof.
  intros Hseq. destruct (own_names_valid process sequence Hprocess Hseq) as (H1 & H2 & H3).
  unfold valid_transaction_name in *. apply Hlen; [..|done]; cbn [own_journal jr_candidate jr_previous_domain jr_previous_ip];
    repeat match goal with H : _ && _ = true |- _ => apply andb_true_iff in H as [H ?] end; by apply Z.leb_le.
Qed.
Lemma cut_reopens r : cut r -> Reopens od oi r \/ Reopens nd ni r \/ torn_journal r.
Proof.
  intros (sequence & Hseq & v & Hv & [[Hres|[Hold|Htorn]]|Hnew]).
  - left. eapply (resumable_reopens decode read_dir Hread process sequence); eauto using own_journal_length.
  - left. by eapply (settled_reopens decode read_dir Hread process sequence).
  - right. right. destruct Htorn as ([k Hj] & Hd & Hi & _). destruct Hv as [Hv _].
    split; [exists (own_journal process sequence), k; by rewrite (Hv SJournal : r !! JOURNAL_FILE = _)|].
    by rewrite (Hv SDomain : r !! DOMAIN_FILE = _), (Hv SIp : r !! IP_FILE = _).
  - right. left. by eapply (settled_reopens decode read_dir Hread process sequence).
Qed.
End claims.

(** C7: an update of the rule sets can be interrupted at any point.  Take a store that is open
    on a pair of rule sets, a new pair, and any course of the system calls in which at most
    one fails and the process may end before or within any call.  Then the next start opens
    the store on exactly the old pair or exactly the new one, never a mixture and never
    without one, with nothing of the transaction left and every other file untouched; when
    the update reported success it is the new pair, and when it reported that nothing had
    changed nothing did.  The one exception is an interruption while the journal itself was
    being written: then the old pair is still in place. *)
Theorem rule_sets_survive to_vec encode decode check read_dir od oi nd ni s d :
  (forall r, read_dir r ≡ₚ elements (dom r)) -> (forall j, decode (encode j) = Some j) ->
  (forall j, str_len (jr_candidate j) <= 128 -> str_len (jr_previous_domain j) <= 128 -> str_len (jr_previous_ip j) <= 128 ->
     jr_schema j = JOURNAL_SCHEMA -> len (encode j) <= 4096) ->
  is_uint 64 (rd_process d) -> is_uint 64 (rd_sequence d) -> opened od oi (rd_root d) -> (failures (rd_calls d) <= 1)%nat ->
  let x := replace to_vec encode check s nd ni d in
  let r := files_after x in
  match x with
  | Finished (Ok ReplaceUnchanged) _ => r = rd_root d /\ od = nd /\ oi = ni
  | Finished (Ok ReplaceUpdated) _ => reopens decode read_dir (rd_root d) nd ni r
  | _ => reopens decode read_dir (rd_root d) od oi r \/ reopens decode read_dir (rd_root d) nd ni r \/ torn_journal encode od oi r
  end.
Proof.
  intros Hread Hdec Hlen Hproc Hseq Hopen Hn. cbv zeta.
  pose proof (wp_replace to_vec encode check (rd_process d) (rd_root d) od oi nd ni s Hopen false 1 ltac:(lia) d
    eq_refl ltac:(done) ltac:(done)) as Hwp.
  pose proof (fun r => cut_reopens encode decode read_dir (rd_process d) (rd_root d) od oi nd ni Hproc Hopen Hread Hdec Hlen r) as Hcut.
  destruct (replace _ _ _ _ _ _ _) as [x d'|r]; cbn [files_after]; [|destruct Hwp as [_ Hc]; by apply Hcut].
  destruct Hwp as (n' & _ & _ & Hx). destruct x as [[|]|e]; cbn in Hx; [| |by apply Hcut].
  - destruct Hx as ((sequence & Hs & Hst) & Hpair). split; [|done]. apply map_eq. intros x.
    pose proof (st_base (rd_process d) sequence _ _ _ Hopen) as [Hb1 Hb2]. destruct Hst as [Hs1 Hs2].
    destruct (slot_or_other (rd_process d) sequence x) as [[sl ->]|Ho]; [by rewrite Hs1, Hb1|by apply Hs2].
  - destruct Hx as (sequence & v & Hs & Hst & Hv). by eapply (settled_reopens decode read_dir Hread (rd_process d) sequence).
Qed.

(** ** A journal that does not decode *)
Inductive Trial : Type := TryOpen (root : string) (limits : RuleSetLimits) | TryPublish (s : RuleSetStore) (p : PreparedRuleSet).
Section trials.
Context (encode : RuleSetJournal -> list Z) (decode : list Z -> option RuleSetJournal) (read_dir : Root -> list string).
Definition trial (t : Trial) : RS bool :=
  match t with
  | TryOpen root limits => x ← open decode read_dir root true true (Some root) limits; mret (is_ok x)
  | TryPublish s p => x ← publish encode s p; mret (is_ok x)
  end.
(** Each with its own course of system calls, process and counter. *)
Fixpoint trials (l : list (Trial * (list CallOutcome * Z * Z))) (r : Root) : list bool * Root :=
  match l with
  | [] => ([], r)
  | (t, (calls, pid, sequence)) :: rest =>
      let x := trial t (mkRsDisk r calls pid sequence) in
      let (results, r') := trials rest (files_after x) in
      (match x with Finished ok _ => ok | Halted _ => false end :: results, r')
  end.

Section stuck.
Context (bs domain ip : list Z) (Hdecode : decode bs = None).
Definition stuck (r : Root) : Prop :=
  r !! JOURNAL_FILE = Some (EFile bs) /\ r !! DOMAIN_FILE = Some (EFile domain) /\ r !! IP_FILE = Some (EFile ip).
Lemma stuck_set_directory name m r : is_directory (r !! name) = true -> stuck r -> stuck (<[name := EDirectory m]> r).
Proof.
  intros Hd (H1 & H2 & H3). split_and!; rewrite lookup_insert_ne; try done; intros ->.
  - by rewrite H1 in Hd.
  - by rewrite H2 in Hd.
  - by rewrite H3 in Hd.
Qed.
Lemma stuck_delete_directory name r : is_directory (r !! name) = true -> stuck r -> stuck (delete name r).
Proof.
  intros Hd (H1 & H2 & H3). split_and!; rewrite lookup_delete_ne; try done; intros ->.
  - by rewrite H1 in Hd.
  - by rewrite H2 in Hd.
  - by rewrite H3 in Hd.
Qed.
Lemma wp_open_stuck pid root limits n r :
  stuck r -> wp false pid (open decode read_dir root true true (Some root) limits) (fun x _ r' => is_ok x = false /\ stuck r') stuck n r.
Proof.
  intros Hr. pose proof Hr as (Hj & _). unfold open. rewrite bool_decide_eq_true_2 by done. cbn [negb orb].
  apply wp_attempt, wp_bind, wp_query; [|intros _ n' ->; by apply wp_ret|done]. rewrite Hj.
  destruct (4096 <? len bs); [by apply wp_ret|].
  apply wp_bind, wp_query; [|intros _ n' ->; by apply wp_ret|done]. rewrite Hj. cbn [mbind option_bind]. rewrite Hdecode.
  by apply wp_ret.
Qed.
Lemma wp_publish_stuck pid s p n r :
  stuck r -> wp false pid (publish encode s p) (fun x _ r' => is_ok x = false /\ stuck r') stuck n r.
Proof.
  intros Hr. unfold publish. destruct (negb _); [by apply wp_ret|]. destruct (ps_candidate p) as [candidate|]; [|by apply wp_ret].
  apply wp_bind. eapply wp_mono with (Q := fun x _ r' => is_ok x = false /\ r' = r) (C := stuck); [| |done].
  - unfold publish_candidate. apply wp_bind, wp_process.
    assert (forall n' (k : bool -> RS (Result RuleSetError PublishedRuleSet)) (name : string),
              (forall n' b, wp false pid (k b) (fun x _ r' => is_ok x = false /\ r' = r) stuck n' r) ->
              wp false pid (path_exists name ≫= k) (fun x _ r' => is_ok x = false /\ r' = r) stuck n' r) as Hlook.
    { intros n' k name Hk. apply wp_bind, wp_query; [apply Hk|intros _ n'' _; apply Hk|done]. }
    set (pd := transaction_name ".previous-domain-" _ _ _). set (pi := transaction_name ".previous-ip-" _ _ _).
    assert (forall n' (b : bool), wp false pid (if b then mret (Err PublishFailed) else publish_journalled encode s candidate pd pi)
              (fun x _ r' => is_ok x = false /\ r' = r) stuck n' r) as Hwrite.
    { intros n' []; [by apply wp_ret|]. unfold publish_journalled.
      destruct (file_name candidate ≫= _) as [journal|e]; [|by apply wp_ret].
      apply wp_bind, wp_bind, wp_call; [|intros _ k n'' _; by apply wp_ret, wp_ret|by intros _ k].
      unfold create_at. rewrite (proj1 Hr). by apply wp_ret, wp_ret. }
    apply Hlook. intros n1 [].
    + apply wp_bind, wp_ret. apply (Hwrite n1 true).
    + apply Hlook. intros n2 b. apply (Hwrite n2 b).
  - intros x n1 r1 [Hx ->]. assert (forall k, stuck (match r !! candidate with Some (EDirectory m) => <[candidate := EDirectory (thinned k m)]> r | _ => r end)) as Hb.
    { intros k. destruct (r !! candidate) as [[]|] eqn:E; try done. apply stuck_set_directory; [by rewrite E|done]. }
    apply wp_bind, wp_call; [|intros _ k n2 _; by apply wp_ret|by intros _ k].
    destruct (r !! candidate) as [[]|] eqn:E; try (by apply wp_ret). apply wp_ret. split; [done|].
    apply stuck_delete_directory; [by rewrite E|done].
Qed.
End stuck.

(** C34: a journal that was torn blocks the rule sets for good.  When the journal on the disk does
    not decode (the process ended, or the disk was full, while it was written), then whatever
    happens later, in any order and with any system calls failing: every start fails to open
    the store, every publication fails, and the journal stays, although the pair in place is
    whole. *)
Theorem torn_journal_blocks bs domain ip l r :
  decode bs = None -> Forall (fun t => is_uint 64 t.2.2) l -> stuck bs domain ip r ->
  Forall (fun ok => ok = false) (trials l r).1 /\ stuck bs domain ip (trials l r).2.
Proof.
  intros Hdec Hl. revert r. induction Hl as [|[t [[calls pid] sequence]] rest Hseq Hl IH]; intros r Hr; cbn [trials]; [by split|].
  set (x := trial t (mkRsDisk r calls pid sequence)).
  assert (match x with Finished ok _ => ok | Halted _ => false end = false /\ stuck bs domain ip (files_after x)) as [Hx Hs].
  { assert (wp false pid (trial t) (fun ok _ r' => ok = false /\ stuck bs domain ip r') (stuck bs domain ip) (failures calls) r) as Hwp.
    { destruct t as [root limits|s p]; cbn [trial]; apply wp_bind;
        (eapply wp_mono; [first [by eapply wp_open_stuck|by eapply wp_publish_stuck]| |done]);
        intros y n' r' [Hy Hr']; by apply wp_ret. }
    specialize (Hwp (mkRsDisk r calls pid sequence) eq_refl ltac:(done) ltac:(done)). fold x in Hwp.
    destruct x as [ok d'|r']; cbn [files_after]; [by destruct Hwp as (_ & _ & _ & ?)|by destruct Hwp]. }
  destruct (IH _ Hs) as [IH1 IH2]. destruct (trials rest (files_after x)) as [results r'] eqn:E.
  split; [by constructor|done].
Qed.
End trials.

(** ** A concrete store *)
Module RuleSetSample.
Definition encode (j : RuleSetJournal) : list Z :=
  put_text (jr_schema j) ++ put_text (jr_candidate j) ++ put_text (jr_previous_domain j) ++ put_text (jr_previous_ip j) ++ [].
Definition decode (l : list Z) : option RuleSetJournal :=
  '(a, l) ← get_text l; '(b, l) ← get_text l; '(c, l) ← get_text l; '(e, _) ← get_text l; Some (mkRuleSetJournal a b c e).
Lemma decode_encode j : decode (encode j) = Some j.
Proof. destruct j. unfold decode, encode. cbn -[put_text get_text]. by do 4 (rewrite get_put_text; cbn [mbind option_bind]). Qed.
Lemma encode_length j : str_len (jr_candidate j) <= 128 -> str_len (jr_previous_domain j) <= 128 -> str_len (jr_previous_ip j) <= 128 ->
  jr_schema j = JOURNAL_SCHEMA -> len (encode j) <= 4096.
Proof.
  intros H1 H2 H3 H4. rewrite <- bytes_length in H1, H2, H3. unfold encode, put_text. rewrite H4.
  unfold len in *. cbn [length app]. rewrite !length_app. cbn [length]. rewrite !length_app. cbn [length].
  rewrite !length_app. cbn [length]. rewrite length_app. change (length (bytes JOURNAL_SCHEMA)) with 29%nat. cbn [length]. lia.
Qed.
Definition read_dir (r : Root) : list string := elements (dom r).
Definition old_domain : list Z := bytes "SRS-domain-1".
Definition old_ip : list Z := bytes "SRS-ip-1".
Definition new_domain : list Z := bytes "SRS-domain-2".
Definition new_ip : list Z := bytes "SRS-ip-2".
Definition files : Root := list_to_map
  [(DOMAIN_FILE, EFile old_domain); (IP_FILE, EFile old_ip); ("README", EFile [])].
Definition store : RuleSetStore := mkStore "/data/rulesets" RuleSetLimits_default.
Definition disk (r : Root) (calls : list CallOutcome) : RsDisk := mkRsDisk r calls 77 1.
Definition run := replace (fun _ => Ok [123; 125]) encode (fun _ _ => true) store new_domain new_ip.
Definition start (r : Root) := open decode read_dir "/data/rulesets" true true (Some "/data/rulesets") RuleSetLimits_default (disk r []).
Definition pair (r : Root) : option Entry * option Entry := (r !! DOMAIN_FILE, r !! IP_FILE).
Lemma files_opened : opened old_domain old_ip files.
Proof.
  split; [reflexivity..| |].
  - intros x Hx. apply not_elem_of_list_to_map. cbn. rewrite !not_elem_of_cons.
    split_and!; [intros ->; done..|apply not_elem_of_nil].
  - intros x [e He]. apply elem_of_list_to_map_2 in He. rewrite !elem_of_cons in He.
    destruct He as [[= -> _]|[[= -> _]|[[= -> _]|He]]]; [done..|by apply elem_of_nil in He].
Qed.
End RuleSetSample.

Import RuleSetSample.
Example replace_updates : exists d', run (disk files []) = Finished (Ok ReplaceUpdated) d'
  /\ pair (rd_root d') = (Some (EFile new_domain), Some (EFile new_ip)) /\ dom (rd_root d') = dom files.
Proof. eexists. split; [vm_compute; reflexivity|]. split; [vm_compute; reflexivity|]. vm_compute. reflexivity. Qed.

(** The process ends between the two renames that put the new pair in place. *)
Definition between_renames : list CallOutcome := replicate 25 CallWorks ++ [CallHalts 0].
Lemma rule_sets_survive_witness :
  pair (files_after (run (disk files between_renames))) = (Some (EFile new_domain), None)
  /\ (reopens decode read_dir files old_domain old_ip (files_after (run (disk files between_renames)))
      \/ reopens decode read_dir files new_domain new_ip (files_after (run (disk files between_renames)))
      \/ torn_journal encode old_domain old_ip (files_after (run (disk files between_renames)))).
Proof.
  split; [vm_compute; reflexivity|].
  pose proof (rule_sets_survive (fun _ => Ok [123; 125]) encode decode (fun _ _ => true) read_dir old_domain old_ip
    new_domain new_ip store (disk files between_renames) ltac:(done) decode_encode encode_length
    ltac:(done) ltac:(done) files_opened ltac:(vm_compute; lia)) as Hx.
  cbv zeta in Hx. fold run in Hx.
  assert (exists r, run (disk files between_renames) = Halted r) as [r E] by (vm_compute; by eexists).
  rewrite E in Hx |- *. exact Hx.
Defined.

(** The write of the journal is cut short after five bytes. *)
Definition torn_files : Root := files_after (run (disk files (replicate 19 CallWorks ++ [CallHalts 5]))).
Lemma torn_journal_blocks_witness :
  trials encode decode read_dir [(TryOpen "/data/rulesets" RuleSetLimits_default, ([], 78, 1))] torn_files = ([false], torn_files)
  /\ Forall (fun ok => ok = false)
       (trials encode decode read_dir [(TryOpen "/data/rulesets" RuleSetLimits_default, ([], 78, 1));
          (TryPublish store (mkPreparedSet "/data/rulesets" (Some ".candidate-ruleset-78-1") 1), ([], 78, 2))] torn_files).1.
Proof.
  split; [vm_compute; reflexivity|].
  apply (torn_journal_blocks encode decode read_dir (take 5 (encode (own_journal 77 1))) old_domain old_ip).
  - vm_compute. reflexivity.
  - by repeat constructor.
  - split_and!; vm_compute; reflexivity.
Defined.

(** A restore that fails loses the pair.  The renames of the new domain file and then of the
    old one back fail; the journal is removed all the same, so the next start succeeds,
    deletes the file that was set aside, and leaves no domain rules: every later update is
    refused. *)
Definition failing_restore : list CallOutcome := replicate 24 CallWorks ++ [CallFails 0; CallWorks; CallWorks; CallFails 0].
Lemma failed_restore_loses :
  exists d1 d2, run (disk files failing_restore) = Finished (Err RollbackFailed) d1
    /\ start (rd_root d1) = Finished (Ok store) d2
    /\ pair (rd_root d2) = (None, Some (EFile old_ip))
    /\ dom (rd_root d2) = {[IP_FILE; "README"]}
    /\ exists d3, run d2 = Finished (Err InvalidCurrent) d3.
Proof.
  eexists _, _. split; [vm_compute; reflexivity|]. split; [vm_compute; reflexivity|].
  split; [vm_compute; reflexivity|]. split; [vm_compute; reflexivity|]. eexists. vm_compute. reflexivity.
Qed.
