(* ===== verification/Surfboard.v ===== *)
(** * Surfboard: profiles in the Surfboard format

    Models crates/nethop-subscription/src/surfboard.rs: the lines of the [[Proxy]] section, their
    fields with quoting and escapes, and the specification of a node they give.  Text is its
    bytes; [byte as char] is the character of that number, which takes two bytes above 127. *)

From S2P Require Import Prelude Text Ordering BTreeMap Json Source Detect Base64 ProxyNode Fingerprint Diagnostics Uri Semantic.

Local Open Scope Z_scope.

Record ProxyLine : Type := mkProxyLine { pl_line : Z; pl_name : list Z; pl_fields : list (list Z) }.

(** ** Fields *)

(** [current.push(byte as char)] *)
Definition as_char (b : Z) : list Z := if b <? 128 then [b] else [192 + b / 64; 128 + b mod 64].
Fixpoint split_loop (bs : list Z) (fields : list (list Z)) (current : list Z) (quote : option Z) (escaped : bool) :
    option (list (list Z)) :=
  match bs with
  | [] => if escaped || is_some quote then None else Some (fields ++ [trim_text current])
  | byte :: rest =>
      if escaped then split_loop rest fields (current ++ as_char byte) quote false
      else if (byte =? 92) && is_some quote then split_loop rest fields current quote true
      else if bool_decide (Some byte = quote) then split_loop rest fields (current ++ as_char byte) None false
      else if negb (is_some quote) && ((byte =? 39) || (byte =? 34))
      then split_loop rest fields (current ++ as_char byte) (Some byte) false
      else if negb (is_some quote) && (byte =? 44)
      then split_loop rest (fields ++ [trim_text current]) [] quote false
      else split_loop rest fields (current ++ as_char byte) quote false
  end.
Definition split_fields (value : list Z) : option (list (list Z)) := split_loop value [] [] None false.

(** [value[1..value.len() - 1]] *)
Definition inner (bs : list Z) : list Z := take (length bs - 2) (drop 1 bs).
Definition unquote (value : list Z) : Result DiagnosticCode (list Z) :=
  let enclosed q := has_prefix [q] value && has_suffix [q] value in
  if (2 <=? len value) && (enclosed 34 || enclosed 39) then Ok (inner value)
  else if contains 34 value || contains 39 value then Err DcInvalidIni
  else Ok value.

Definition parse_bool (value : list Z) : option bool :=
  let v := lowercase (of_bytes value) in
  if is_one_of v ["1"; "true"; "yes"; "on"] then Some true
  else if is_one_of v ["0"; "false"; "no"; "off"] then Some false
  else None.

(** ** The specification of a line *)
Definition is_shadowsocks (protocol : string) : bool := is_one_of protocol ["ss"; "shadowsocks"].
(** [key.trim().to_ascii_lowercase().replace('-', "_")] *)
Definition field_key (key : list Z) : string :=
  of_bytes ((fun b => if b =? 45 then 95 else b) <$> bytes (lowercase (of_bytes (trim_text key)))).
Definition harmless (spec : NodeSpec) : NodeSpec :=
  set_unknown_harmless_fields (sat_add_u 64 (sp_unknown_harmless_fields spec) 1) spec.
Definition plugin_option (key value : string) (spec : NodeSpec) : NodeSpec :=
  set_plugin_options (bt_insert key value (sp_plugin_options spec)) (set_plugin (Some "obfs-local") spec).
(** The [match key.as_str()]. *)
Definition apply_field (protocol key : string) (raw : list Z) (spec : NodeSpec) : Result DiagnosticCode NodeSpec :=
  let value := of_bytes raw in
  let key_in := is_one_of key in
  if key_in ["username"; "uuid"] then Ok (set_uuid (Some value) spec)
  else if key_in ["password"; "pass"] then Ok (set_password (Some value) spec)
  else if key_in ["cipher"; "method"; "encrypt_method"] then Ok (set_method (Some value) spec)
  else if key_in ["tls"] then b ← ok_or (parse_bool raw) DcUnsupportedSemantics; Ok (set_tls b spec)
  else if key_in ["sni"; "servername"; "server_name"] then Ok (set_server_name (Some value) spec)
  else if key_in ["network"; "type"; "transport"] then Ok (set_transport (Some value) spec)
  else if key_in ["ws"] && bool_decide (parse_bool raw = Some true) then Ok (set_transport (Some "ws") spec)
  else if key_in ["ws_path"; "path"] then Ok (set_path (Some value) spec)
  else if key_in ["grpc_service_name"; "service_name"] then Ok (set_service_name (Some value) spec)
  else if key_in ["udp"] then b ← ok_or (parse_bool raw) DcUnsupportedSemantics; Ok (set_udp b spec)
  else if key_in ["alpn"] then Ok (set_alpn (of_bytes <$> split_on 44 raw) spec)
  else if key_in ["obfs"] && is_shadowsocks protocol then Ok (plugin_option "obfs" value spec)
  else if key_in ["obfs_host"] && is_shadowsocks protocol then Ok (plugin_option "obfs-host" value spec)
  else if key_in ["obfs"] then Ok (set_obfs (Some value) spec)
  else if key_in ["obfs-password"; "obfs_password"] then Ok (set_obfs_password (Some value) spec)
  else if key_in ["plugin"; "plugin_opts"; "reality_opts"; "obfs_host"] then Ok (set_unknown_critical_field (Some key) spec)
  else Ok (harmless spec).

(** The loop over the fields after the port. *)
Fixpoint apply_fields (protocol : string) (fields : list (list Z)) (spec : NodeSpec) (positional : list string) :
    Result DiagnosticCode (NodeSpec * list string) :=
  match fields with
  | [] => Ok (spec, positional)
  | field :: rest =>
      match split_once 61 field with
      | Some (key, value) =>
          value ← unquote (trim_text value);
          spec ← apply_field protocol (field_key key) value spec;
          apply_fields protocol rest spec positional
      | None =>
          value ← unquote (trim_text field);
          apply_fields protocol rest spec (positional ++ [of_bytes value])
      end
  end.
(** [if spec.x.is_none() { spec.x = positional.get(i).cloned() }] *)
Definition or_positional (present : option string) (positional : list string) (i : nat) : option string :=
  match present with Some v => Some v | None => positional !! i end.
Definition apply_positional (protocol : string) (spec : NodeSpec) (positional : list string) : NodeSpec :=
  if is_shadowsocks protocol then
    let spec := set_method (or_positional (sp_method spec) positional 0) spec in
    set_password (or_positional (sp_password spec) positional 1) spec
  else if String.eqb protocol "tuic" then
    let spec := set_uuid (or_positional (sp_uuid spec) positional 0) spec in
    set_password (or_positional (sp_password spec) positional 1) spec
  else
    let spec := if is_one_of protocol ["vless"; "vmess"]
                then set_uuid (or_positional (sp_uuid spec) positional 0) spec else spec in
    if is_one_of protocol ["trojan"; "hysteria2"; "hy2"; "anytls"]
    then set_password (or_positional (sp_password spec) positional 0) spec else spec.

Definition set_location (v : option SourceLocation) (s : NodeSpec) : NodeSpec :=
  let 'mkSpec x0 x1 x2 x3 x4 x5 x6 x7 x8 x9 x10 x11 x12 x13 x14 x15 x16 x17 x18 x19 x20 x21 x22 x23 x24 x25
    x26 x27 x28 x29 x30 x31 x32 x33 x34 x35 x36 x37 x38 x39 x40 x41 x42 x43 x44 _ x46 x47 := s in
  mkSpec x0 x1 x2 x3 x4 x5 x6 x7 x8 x9 x10 x11 x12 x13 x14 x15 x16 x17 x18 x19 x20 x21 x22 x23 x24 x25 x26
    x27 x28 x29 x30 x31 x32 x33 x34 x35 x36 x37 x38 x39 x40 x41 x42 x43 x44 v x46 x47.

(** The specification before the named fields. *)
Definition base_spec (protocol : string) (server : list Z) (port : Z) (name : list Z) (line : Z)
    (source_id : option SourceId) (item_index : Z) (location : option SourceLocation) : NodeSpec :=
  set_source_ref ((fun id => mkSourceRef id item_index FSurfboardIni (Some line)) <$> source_id)
    (set_location location
       (set_display_name (Some (of_bytes (trim_text name))) (NodeSpec_minimal protocol (of_bytes server) port))).
(** [None] is a panic: an index out of range. *)
Definition surfboard_node_spec (line : ProxyLine) (source_id : option SourceId) (item_index : Z)
    (location : option SourceLocation) : option (Result DiagnosticCode NodeSpec) :=
  f0 ← pl_fields line !! 0%nat;
  let protocol := lowercase (of_bytes (trim_text f0)) in
  if is_one_of protocol ["http"; "https"; "socks"; "socks5"; "socks5-tls"] then Some (Err DcUnsupportedSemantics)
  else
    f1 ← pl_fields line !! 1%nat;
    f2 ← pl_fields line !! 2%nat;
    Some (
      port ← ok_or (parse_uint 16 (trim_text f2)) DcInvalidEndpoint;
      let spec := base_spec protocol (trim_text f1) port (pl_name line) (pl_line line) source_id item_index location in
      '(spec, positional) ← apply_fields protocol (drop 3 (pl_fields line)) spec [];
      Ok (apply_positional protocol spec positional)).

(** ** The profile *)
Definition proxy_location (index line : Z) : option SourceLocation :=
  match SourceLocation_new index (Some line) (Some 1) (Some "[Proxy]") with Ok l => Some l | Err _ => None end.
Definition surfboard_diagnostic (code : DiagnosticCode) (source_id : option SourceId) (index line : Z) : NodeDiagnostic :=
  let d := NodeDiagnostic_new code SevError in
  mkDiagnostic (dg_severity d) (dg_code d) source_id (proxy_location index line) (dg_protocol d) (dg_node_id d)
    (dg_parameters d).
Definition ignored : NodeDiagnostic := NodeDiagnostic_new DcNonNodeSectionIgnored SevWarning.
Definition is_proxy_section (section : list Z) : bool := String.eqb (lowercase (of_bytes section)) "proxy".

(** What the loop carries from line to line. *)
Record Reading : Type := mkReading {
  rg_section : list Z; rg_nodes : list AdapterNodeResult; rg_diagnostics : list NodeDiagnostic; rg_index : Z }.
Definition push_node (r : AdapterNodeResult) (s : Reading) : Reading :=
  mkReading (rg_section s) (rg_nodes s ++ [r]) (rg_diagnostics s) (sat_add_u 32 (rg_index s) 1).
Definition push_ignored (s : Reading) : Reading :=
  mkReading (rg_section s) (rg_nodes s) (rg_diagnostics s ++ [ignored]) (rg_index s).

Section surfboard.
Context (uuid_parse_str : string -> option (list Z)) (uuid_hyphenated : list Z -> string).
Context (matrix : list CapabilityEntry) (source_id : option SourceId) (limits : ParserLimits).

(** A line of the section with its fields. *)
Definition judge_line (index number : Z) (name : list Z) (fields : list (list Z)) : option AdapterNodeResult :=
  let rejected code := result_rejected index (surfboard_diagnostic code source_id index number) in
  if len fields <? 3 then Some (rejected DcMissingRequiredField)
  else
    let location := proxy_location index number in
    spec ← surfboard_node_spec (mkProxyLine number (trim_text name) fields) source_id index location;
    Some (match spec with
          | Err code => rejected code
          | Ok spec =>
              match validate_node_spec uuid_parse_str uuid_hyphenated spec matrix with
              | Ok outcome => result_accepted index (sem_node outcome) (sem_warnings outcome)
              | Err e => result_rejected index (semantic_diagnostic e location)
              end
          end).
Definition read_line (number : Z) (text : list Z) (s : Reading) : option (Result DiagnosticCode Reading) :=
  if max_line_bytes limits <? len text then Some (Err DcInvalidIni)
  else
    let trimmed := trim_text text in
    if (len trimmed =? 0) || has_prefix [35] trimmed || has_prefix [59] trimmed then Some (Ok s)
    else if has_prefix [91] trimmed && has_suffix [93] trimmed
    then Some (Ok (mkReading (trim_text (inner trimmed)) (rg_nodes s) (rg_diagnostics s) (rg_index s)))
    else
      match split_once 61 trimmed with
      | None =>
          Some (Ok (if is_proxy_section (rg_section s)
                    then push_node (result_rejected (rg_index s)
                           (surfboard_diagnostic DcInvalidIni source_id (rg_index s) number)) s
                    else s))
      | Some (name, value) =>
          if negb (is_proxy_section (rg_section s)) then Some (Ok (push_ignored s))
          else
            match split_fields value with
            | None => Some (Err DcInvalidIni)
            | Some fields =>
                if (len fields =? 1) && String.eqb (lowercase (of_bytes (default [] (head fields)))) "direct"
                then Some (Ok (push_ignored s))
                else if max_nodes limits <=? rg_index s then Some (Err DcNodeLimitExceeded)
                else
                  r ← judge_line (rg_index s) number name fields;
                  Some (Ok (push_node r s))
            end
      end.
Fixpoint read_lines (lines : list (Z * list Z)) (s : Reading) : option (Result DiagnosticCode Reading) :=
  match lines with
  | [] => Some (Ok s)
  | (number, text) :: rest =>
      r ← read_line number text s;
      match r with Ok s' => read_lines rest s' | Err code => Some (Err code) end
  end.
Definition parse_surfboard_ini (bs : list Z) : option (Result DiagnosticCode AdapterOutput) :=
  match normalize_bytes bs limits with
  | Err e => Some (Err (normalization_code e))
  | Ok payload =>
      r ← read_lines (numbered_lines payload) (mkReading [] [] [] 0);
      Some (s ← r; Ok (mkOutput (rg_nodes s) (rg_diagnostics s)))
  end.
End surfboard.

(** ** Reading never fails to return *)
Section total.
Context (uuid_parse_str : string -> option (list Z)) (uuid_hyphenated : list Z -> string).
Context (matrix : list CapabilityEntry) (source_id : option SourceId) (limits : ParserLimits).
Local Abbreviation judge := (judge_line uuid_parse_str uuid_hyphenated matrix source_id).
Local Abbreviation read_line := (read_line uuid_parse_str uuid_hyphenated matrix source_id limits).
Local Abbreviation read_lines := (read_lines uuid_parse_str uuid_hyphenated matrix source_id limits).

Definition judged (index : Z) (r : AdapterNodeResult) : Prop :=
  ar_item_index r = index
  /\ ((exists n w, r = result_accepted index n w) \/ exists d, r = result_rejected index d).
Lemma judge_line_total index number name fields : exists r, judge index number name fields = Some r /\ judged index r.
Proof.
  unfold judge_line, judged. destruct (Z.ltb_spec (len fields) 3) as [|Hl]; [by eauto 10|].
  destruct fields as [|f0 [|f1 [|f2 rest]]]; try (unfold len in Hl; simpl in Hl; lia).
  unfold surfboard_node_spec. cbn [pl_fields lookup list_lookup mbind option_bind].
  split_if Hp; [simpl; by eauto 10|]. simpl.
  match goal with |- context [match ?s with Ok _ => _ | Err _ => _ end] => destruct s as [spec|code] end; [|by eauto 10].
  destruct (validate_node_spec _ _ _ _); by eauto 10.
Qed.

(** The results so far have the indices 0, 1, 2 ... *)
Definition in_order (s : Reading) : Prop :=
  Forall2 judged (Z.of_nat <$> seq 0 (length (rg_nodes s))) (rg_nodes s) /\ rg_index s = len (rg_nodes s).
Lemma push_node_in_order r s :
  len (rg_nodes s) < umax 32 -> in_order s -> judged (rg_index s) r -> in_order (push_node r s).
Proof.
  unfold in_order, push_node, len. intros Hlt [Hf Hi] Hr. rewrite Hi in *. cbn [rg_nodes rg_index].
  rewrite length_app, Nat.add_1_r, seq_S, fmap_app. split.
  - apply Forall2_app; [done|]. by constructor.
  - unfold sat_add_u. rewrite Z.min_l by lia. lia.
Qed.
Lemma read_line_total number text s :
  exists r, read_line number text s = Some r
    /\ forall s', r = Ok s' -> (length (rg_nodes s') <= S (length (rg_nodes s)))%nat
        /\ (len (rg_nodes s) < umax 32 -> in_order s -> in_order s').
Proof.
  assert (forall r t, (length (rg_nodes (push_node r t)) <= S (length (rg_nodes t)))%nat) as Hp.
  { intros. unfold push_node. cbn [rg_nodes]. rewrite length_app. simpl. lia. }
  assert (forall n d, judged n (result_rejected n d)) as Hr by (unfold judged; eauto 10).
  unfold read_line. split_if Hlen; [eexists; split; [done|]; by intros ? [=]|]. cbv zeta. split_if Hskip; [eexists; split; [done|]; intros ? [= <-]; split; auto|].
  split_if Hsec; [eexists; split; [done|]; intros ? [= <-]; split; auto|].
  destruct (split_once 61 _) as [[name value]|].
  2:{ eexists. split; [done|]. intros s' [= <-]. destruct (is_proxy_section _); [|by split; auto].
      split; [apply Hp|]. intros. by apply push_node_in_order. }
  split_if Hp1; [eexists; split; [done|]; intros ? [= <-]; by split; [|intros]; auto|].
  destruct (split_fields value) as [fields|]; [|eexists; split; [done|]; by intros ? [=]].
  split_if Hdirect; [eexists; split; [done|]; intros ? [= <-]; split; auto|]. split_if Hmax; [eexists; split; [done|]; by intros ? [=]|].
  destruct (judge_line_total (rg_index s) number name fields) as (r & -> & Hj). simpl. eexists. split; [done|].
  intros s' [= <-]. split; [apply Hp|]. intros. by apply push_node_in_order.
Qed.
Lemma read_lines_total lines s :
  exists r, read_lines lines s = Some r
    /\ forall s', r = Ok s' -> (len (rg_nodes s) + len lines <= umax 32) -> in_order s -> in_order s'.
Proof.
  revert s. induction lines as [|[number text] lines IH]; intros s; simpl.
  - eexists. split; [done|]. by intros s' [= <-].
  - destruct (read_line_total number text s) as (r & -> & Hr). simpl. destruct r as [s1|code]; [|eexists; split; [done|]; by intros ? [=]].
    destruct (IH s1) as (r & -> & Hr'). exists r. split; [done|]. intros s' -> Hl Hin.
    destruct (Hr s1 eq_refl) as [Hn Ho]. unfold len in *. apply Hr'; [done| |].
    + simpl in *. lia.
    + apply Ho; [simpl in *; lia|done].
Qed.
End total.

(** ** Writing a profile *)
Definition escape (v : list Z) : list Z := mjoin ((fun b => if (b =? 34) || (b =? 92) then [92; b] else [b]) <$> v).
Definition named_field (f : list Z * list Z) (value : list Z) : list Z := f.1 ++ [61; 34] ++ value ++ [34].
Record ProfileNode : Type := mkProfileNode {
  pf_name : list Z; pf_protocol : list Z; pf_server : list Z; pf_port : Z; pf_fields : list (list Z * list Z) }.
Definition write_line (n : ProfileNode) : list Z :=
  pf_name n ++ [61] ++ pf_protocol n ++ [44] ++ pf_server n ++ [44] ++ print_u64 (pf_port n)
  ++ mjoin ((fun f => 44 :: named_field f (escape f.2)) <$> pf_fields n).

Definition plain_byte (b : Z) : Prop := visible b /\ b <> 34 /\ b <> 39 /\ b <> 44 /\ b <> 61.
Definition token (bs : list Z) : Prop := bs <> [] /\ Forall plain_byte bs.
Definition ascii (bs : list Z) : Prop := Forall (fun b => 0 <= b < 128) bs.
Record writable (n : ProfileNode) : Prop := {
  wr_name : trim_text (pf_name n) = pf_name n /\ 61 ∉ pf_name n
    /\ exists b rest, pf_name n = b :: rest /\ b <> 35 /\ b <> 59;
  wr_protocol : token (pf_protocol n);
  wr_server : token (pf_server n);
  wr_port : is_uint 16 (pf_port n);
  wr_fields : Forall (fun f => token f.1 /\ ascii f.2) (pf_fields n);
}.

(** What is written down about a node, read without the text in between. *)
Fixpoint apply_all (protocol : string) (fields : list (list Z * list Z)) (spec : NodeSpec) :
    Result DiagnosticCode NodeSpec :=
  match fields with
  | [] => Ok spec
  | (k, v) :: rest => spec ← apply_field protocol (field_key k) v spec; apply_all protocol rest spec
  end.
Definition described (n : ProfileNode) (source_id : option SourceId) (index number : Z) : Result DiagnosticCode NodeSpec :=
  let protocol := lowercase (of_bytes (pf_protocol n)) in
  if is_one_of protocol ["http"; "https"; "socks"; "socks5"; "socks5-tls"] then Err DcUnsupportedSemantics
  else
    spec ← apply_all protocol (pf_fields n)
      (base_spec protocol (pf_server n) (pf_port n) (pf_name n) number source_id index (proxy_location index number));
    Ok (apply_positional protocol spec []).

(** *** Trimming *)
Lemma visible_not_white a b c : visible a ->
  is_space a = false /\ white2 a b = false /\ white2 b a = false /\ white3 a b c = false /\ white3 c b a = false.
Proof.
  unfold visible, is_space, white2, white3, in_range. intros H.
  rewrite !orb_false_iff, !andb_false_iff, ?orb_false_iff. lia.
Qed.
Lemma trim_left_visible a l : visible a -> trim_left (a :: l) = a :: l.
Proof.
  intros H. cbn [trim_left]. destruct (visible_not_white a 0 0 H) as (-> & _).
  destruct l as [|b l]; [done|]. destruct (visible_not_white a b 0 H) as (_ & -> & _).
  destruct l as [|c l]; [done|]. by destruct (visible_not_white a b c H) as (_ & _ & _ & -> & _).
Qed.
Lemma trim_reversed_visible a l : visible a -> trim_reversed (a :: l) = a :: l.
Proof.
  intros H. cbn [trim_reversed]. destruct (visible_not_white a 0 0 H) as (-> & _).
  destruct l as [|b l]; [done|]. destruct (visible_not_white a b 0 H) as (_ & _ & -> & _).
  destruct l as [|c l]; [done|]. by destruct (visible_not_white a b c H) as (_ & _ & _ & _ & ->).
Qed.
Lemma trim_text_last l z : visible z -> trim_left (l ++ [z]) = l ++ [z] -> trim_text (l ++ [z]) = l ++ [z].
Proof.
  intros Hz Hl. unfold trim_text. rewrite Hl, reverse_app. cbn [reverse rev_append app].
  change (reverse [z]) with [z]. cbn [app]. rewrite trim_reversed_visible by done.
  change (z :: reverse l) with ([z] ++ reverse l). by rewrite reverse_app, reverse_involutive.
Qed.
Lemma trim_left_length l : (length (trim_left l) <= length l)%nat.
Proof.
  induction l as [l IH] using (well_founded_induction (Wf_nat.well_founded_ltof _ (@length Z))). unfold Wf_nat.ltof in IH.
  destruct l as [|a l]; [done|]. cbn [trim_left].
  destruct (is_space a); [etrans; [apply IH; simpl; lia|simpl; lia]|].
  destruct l as [|b l]; [done|]. destruct (white2 a b); [etrans; [apply IH; simpl; lia|simpl; lia]|].
  destruct l as [|c l]; [done|]. destruct (white3 a b c); [etrans; [apply IH; simpl; lia|simpl; lia]|done].
Qed.
Lemma trim_reversed_length l : (length (trim_reversed l) <= length l)%nat.
Proof.
  induction l as [l IH] using (well_founded_induction (Wf_nat.well_founded_ltof _ (@length Z))). unfold Wf_nat.ltof in IH.
  destruct l as [|a l]; [done|]. cbn [trim_reversed].
  destruct (is_space a); [etrans; [apply IH; simpl; lia|simpl; lia]|].
  destruct l as [|b l]; [done|]. destruct (white2 b a); [etrans; [apply IH; simpl; lia|simpl; lia]|].
  destruct l as [|c l]; [done|]. destruct (white3 c b a); [etrans; [apply IH; simpl; lia|simpl; lia]|done].
Qed.
(** A trimmed text stays so at its start when an equals sign follows. *)
Lemma trim_left_app l rest : l <> [] -> trim_text l = l -> trim_left (l ++ 61 :: rest) = l ++ 61 :: rest.
Proof.
  intros Hne Ht.
  assert (length (trim_left l) = length l) as Hl.
  { apply (f_equal length) in Ht. unfold trim_text in Ht. rewrite length_reverse in Ht.
    pose proof (trim_reversed_length (reverse (trim_left l))) as H1. rewrite length_reverse in H1.
    pose proof (trim_left_length l). lia. }
  destruct l as [|a l]; [done|]. cbn [app trim_left] in *.
  destruct (is_space a); [pose proof (trim_left_length l); simpl in Hl; lia|].
  destruct l as [|b l]; cbn [app].
  { assert (white2 a 61 = false) as -> by (unfold white2; lia). destruct rest as [|c rest]; [done|].
    assert (white3 a 61 c = false) as -> by (unfold white3, in_range; lia). done. }
  destruct (white2 a b); [pose proof (trim_left_length l); simpl in Hl; lia|].
  destruct l as [|c l]; cbn [app]; [by assert (white3 a b 61 = false) as -> by (unfold white3, in_range; lia)|].
  destruct (white3 a b c); [pose proof (trim_left_length l); simpl in Hl; lia|done].
Qed.

(** *** Splitting *)
Lemma plain_byte_visible b : plain_byte b -> visible b.
Proof. by intros []. Qed.
Lemma token_trim bs : token bs -> trim_text bs = bs.
Proof. intros [_ H]. apply trim_text_visible. eapply Forall_impl; [exact H|apply plain_byte_visible]. Qed.
Lemma as_char_ascii b : b < 128 -> as_char b = [b].
Proof. unfold as_char. destruct (Z.ltb_spec b 128); [done|lia]. Qed.
Lemma split_loop_plain t rest fields current :
  Forall plain_byte t -> split_loop (t ++ rest) fields current None false = split_loop rest fields (current ++ t) None false.
Proof.
  intros Ht. revert current. induction Ht as [|b t (Hv & H34 & H39 & H44 & H61) _ IH]; intros current.
  - by rewrite app_nil_r.
  - cbn [app split_loop is_some negb]. rewrite andb_false_r. unfold visible in Hv.
    rewrite bool_decide_eq_false_2 by done. rewrite (proj2 (Z.eqb_neq b 39)), (proj2 (Z.eqb_neq b 34)), (proj2 (Z.eqb_neq b 44)) by done.
    cbn [orb andb]. rewrite as_char_ascii by lia. rewrite IH. by rewrite <- (assoc_L (++)).
Qed.
Lemma split_loop_quoted v rest fields current :
  ascii v -> split_loop (escape v ++ 34 :: rest) fields current (Some 34) false
             = split_loop rest fields (current ++ v ++ [34]) None false.
Proof.
  intros Hv. revert current. induction Hv as [|b v Hb _ IH]; intros current.
  - done.
  - unfold escape in *. cbn [fmap list_fmap mjoin list_join].
    destruct ((b =? 34) || (b =? 92)) eqn:E.
    + cbn [app split_loop is_some negb andb]. rewrite as_char_ascii by lia. rewrite IH. by rewrite <- !(assoc_L (++)).
    + apply orb_false_iff in E as [E1 E2]. cbn [app split_loop is_some negb andb]. rewrite E2. cbn [andb].
      rewrite bool_decide_eq_false_2 by (intros [= ->]; lia). rewrite as_char_ascii by lia. rewrite IH.
      by rewrite <- !(assoc_L (++)).
Qed.
Lemma named_field_trim f : token f.1 -> trim_text (named_field f f.2) = named_field f f.2.
Proof.
  intros [Hne Hp]. destruct f as [[|a k] v]; [done|]. unfold named_field. cbn [fst snd] in *.
  assert ((a :: k) ++ [61; 34] ++ v ++ [34] = ((a :: k) ++ [61; 34] ++ v) ++ [34]) as ->
    by by rewrite <- !(assoc_L (++)).
  apply trim_text_last; [unfold visible; lia|]. rewrite <- !(assoc_L (++)). cbn [app].
  apply trim_left_visible. apply plain_byte_visible. by inversion Hp.
Qed.
Lemma split_loop_comma rest fields current :
  split_loop (44 :: rest) fields current None false = split_loop rest (fields ++ [trim_text current]) [] None false.
Proof. done. Qed.
Lemma split_loop_open rest fields current :
  split_loop (61 :: 34 :: rest) fields current None false = split_loop rest fields (current ++ [61; 34]) (Some 34) false.
Proof. change [61; 34] with ([61] ++ [34]). by rewrite (assoc_L (++)). Qed.
(** The fields after the first, each behind its comma. *)
Lemma split_loop_named fs fields current :
  Forall (fun f => token f.1 /\ ascii f.2) fs ->
  split_loop (mjoin ((fun f => 44 :: named_field f (escape f.2)) <$> fs)) fields current None false
  = Some (fields ++ [trim_text current] ++ ((fun f => named_field f f.2) <$> fs)).
Proof.
  intros Hf. revert fields current. induction Hf as [|f fs [Ht Ha] _ IH]; intros fields current.
  - done.
  - cbn [fmap list_fmap mjoin list_join app]. rewrite split_loop_comma.
    unfold named_field at 1. rewrite <- !(assoc_L (++)). rewrite split_loop_plain by apply Ht.
    cbn [app]. rewrite split_loop_open. rewrite split_loop_quoted by done. rewrite IH.
    assert ((f.1 ++ [61; 34]) ++ f.2 ++ [34] = named_field f f.2) as ->
      by (unfold named_field; by rewrite <- !(assoc_L (++))).
    rewrite named_field_trim by done. by rewrite <- !(assoc_L (++)).
Qed.
Lemma port_digits_plain n : is_uint 16 n -> token (print_u64 n).
Proof.
  intros Hn. destruct (print_u64_digits n) as [Hd Hne]; [unfold is_uint in *; lia|]. split; [done|].
  eapply Forall_impl; [exact Hd|]. intros b Hb%is_ascii_digit_range. unfold plain_byte, visible. lia.
Qed.
Lemma split_written n :
  writable n ->
  split_fields (pf_protocol n ++ [44] ++ pf_server n ++ [44] ++ print_u64 (pf_port n)
    ++ mjoin ((fun f => 44 :: named_field f (escape f.2)) <$> pf_fields n))
  = Some (pf_protocol n :: pf_server n :: print_u64 (pf_port n) :: ((fun f => named_field f f.2) <$> pf_fields n)).
Proof.
  intros [_ Hp Hs Hport Hf]. pose proof (port_digits_plain _ Hport) as Hd. unfold split_fields.
  rewrite split_loop_plain by apply Hp. cbn [app]. rewrite split_loop_comma.
  rewrite split_loop_plain by apply Hs. cbn [app]. rewrite split_loop_comma.
  rewrite split_loop_plain by apply Hd. rewrite split_loop_named by done. cbn [app]. by rewrite !token_trim.
Qed.

(** *** Reading the fields back *)
Lemma quote_visible : visible 34.
Proof. unfold visible. lia. Qed.
Lemma unquote_quoted v : unquote (trim_text ([34] ++ v ++ [34])) = Ok v.
Proof.
  rewrite (assoc_L (++)), trim_text_last; [|apply quote_visible|apply trim_left_visible, quote_visible].
  assert (2 <=? len (([34] ++ v) ++ [34]) = true) as Hl.
  { apply Z.leb_le. unfold len. rewrite !length_app. cbn [length]. lia. }
  assert (inner (([34] ++ v) ++ [34]) = v) as Hi.
  { unfold inner. rewrite <- (assoc_L (++)). change (drop 1 ([34] ++ v ++ [34])) with (v ++ [34]).
    rewrite !length_app. cbn [length]. replace (1 + (length v + 1) - 2)%nat with (length v) by lia.
    by rewrite take_app_length. }
  unfold unquote. rewrite Hl, Hi. unfold has_suffix, strip_suffix. by rewrite reverse_app.
Qed.
Lemma token_no_equals bs : token bs -> 61 ∉ bs.
Proof. intros [_ H] Hin. rewrite Forall_forall in H. by destruct (H 61 Hin) as (_ & _ & _ & _ & ?). Qed.
Lemma apply_fields_named protocol fs spec positional :
  Forall (fun f => token f.1 /\ ascii f.2) fs ->
  apply_fields protocol ((fun f => named_field f f.2) <$> fs) spec positional
  = (spec ← apply_all protocol fs spec; Ok (spec, positional)).
Proof.
  intros Hf. revert spec. induction Hf as [|[k v] fs [Ht _] _ IH]; intros spec; [done|].
  cbn [fmap list_fmap apply_fields apply_all fst snd].
  assert (split_once 61 (named_field (k, v) v) = Some (k, [34] ++ v ++ [34])) as ->.
  { apply split_once_Some. split; [done|by apply token_no_equals]. }
  rewrite unquote_quoted. cbn [mbind Result_bind]. destruct (apply_field _ _ _ _) as [spec'|e]; [|done].
  cbn [mbind Result_bind]. apply IH.
Qed.

(** The written line ends in a digit or a quote. *)
Lemma written_ends n : writable n -> exists l z, write_line n = l ++ [z] /\ visible z /\ z <> 93.
Proof.
  intros [_ _ _ Hport _]. unfold write_line. destruct (decide (pf_fields n = [])) as [->|Hne].
  - destruct (port_digits_plain _ Hport) as [Hne _].
    destruct (print_u64_digits (pf_port n)) as [Hd _]; [unfold is_uint in *; lia|].
    destruct (exists_last Hne) as (l & z & E). rewrite E in Hd |- *. cbn [fmap list_fmap mjoin list_join]. rewrite app_nil_r.
    exists (pf_name n ++ [61] ++ pf_protocol n ++ [44] ++ pf_server n ++ [44] ++ l), z. rewrite <- !(assoc_L (++)). split; [done|].
    apply Forall_app in Hd as [_ Hz]. inversion Hz as [|? ? Hz' _]. apply is_ascii_digit_range in Hz'. unfold visible. lia.
  - destruct (exists_last Hne) as (fs & f & ->). rewrite fmap_app, join_app. cbn [fmap list_fmap mjoin list_join].
    rewrite app_nil_r. unfold named_field.
    exists (pf_name n ++ [61] ++ pf_protocol n ++ [44] ++ pf_server n ++ [44] ++ print_u64 (pf_port n)
      ++ mjoin ((fun f => 44 :: named_field f (escape f.2)) <$> fs) ++ (44 :: f.1) ++ [61; 34] ++ escape f.2), 34.
    rewrite <- !(assoc_L (++)). split; [done|]. unfold visible. lia.
Qed.

(** ** What a written profile is read as *)
Section written.
Context (uuid_parse_str : string -> option (list Z)) (uuid_hyphenated : list Z -> string).
Context (matrix : list CapabilityEntry) (source_id : option SourceId) (limits : ParserLimits).
Local Abbreviation judge := (judge_line uuid_parse_str uuid_hyphenated matrix source_id).
Local Abbreviation read_line := (read_line uuid_parse_str uuid_hyphenated matrix source_id limits).
Local Abbreviation read_lines := (read_lines uuid_parse_str uuid_hyphenated matrix source_id limits).
Local Abbreviation parse := (parse_surfboard_ini uuid_parse_str uuid_hyphenated matrix source_id limits).

(** The verdict on what a node says. *)
Definition verdict (index number : Z) (n : ProfileNode) : AdapterNodeResult :=
  match described n source_id index number with
  | Err code => result_rejected index (surfboard_diagnostic code source_id index number)
  | Ok spec =>
      match validate_node_spec uuid_parse_str uuid_hyphenated spec matrix with
      | Ok outcome => result_accepted index (sem_node outcome) (sem_warnings outcome)
      | Err e => result_rejected index (semantic_diagnostic e (proxy_location index number))
      end
  end.
Fixpoint verdicts (index number : Z) (nodes : list ProfileNode) : list AdapterNodeResult :=
  match nodes with
  | [] => []
  | n :: rest => verdict index number n :: verdicts (sat_add_u 32 index 1) (sat_add_u 32 number 1) rest
  end.

Lemma judge_written index number n :
  writable n ->
  judge index number (pf_name n)
    (pf_protocol n :: pf_server n :: print_u64 (pf_port n) :: ((fun f => named_field f f.2) <$> pf_fields n))
  = Some (verdict index number n).
Proof.
  intros [[Hname _] Hp Hs Hport Hf]. unfold judge_line, verdict, described, surfboard_node_spec.
  match goal with |- context [len ?l <? 3] => assert (len l <? 3 = false) as -> end.
  { apply Z.ltb_ge. unfold len. cbn [length]. lia. }
  cbn [pl_fields pl_name pl_line lookup list_lookup mbind option_bind]. rewrite (token_trim (pf_protocol n)) by done.
  split_if Hhttp; [done|]. cbn [option_bind]. rewrite (token_trim (pf_server n)), (token_trim (print_u64 _)) by auto using port_digits_plain.
  assert (parse_uint 16 (print_u64 (pf_port n)) = Some (pf_port n)) as ->.
  { unfold parse_uint. rewrite parse_print_u64 by (unfold is_uint in *; lia).
    destruct (Z.leb_spec (pf_port n) (umax 16)); [done|]. unfold is_uint, umax in *. lia. }
  cbn [ok_or mbind Result_bind]. rewrite Hname.
  change (drop 3 _) with ((fun f => named_field f f.2) <$> pf_fields n).
  rewrite apply_fields_named by done. by destruct (apply_all _ _ _).
Qed.
Lemma read_written number n s :
  writable n -> is_proxy_section (rg_section s) = true -> rg_index s < max_nodes limits ->
  len (write_line n) <= max_line_bytes limits ->
  read_line number (write_line n) s = Some (Ok (push_node (verdict (rg_index s) number n) s)).
Proof.
  intros Hw Hsec Hi Hl. unfold read_line. destruct (Z.ltb_spec (max_line_bytes limits) (len (write_line n))); [lia|].
  destruct (written_ends n Hw) as (l & z & E & Hz & H93).
  destruct (wr_name n Hw) as (Ht & Hno & (b & rest & Eb & Hb)).
  assert (trim_text (write_line n) = write_line n) as ->.
  { rewrite E. apply trim_text_last; [done|]. rewrite <- E. unfold write_line. cbn [app].
    apply trim_left_app; [by rewrite Eb|done]. }
  cbv zeta.
  assert (len (write_line n) =? 0 = false) as ->.
  { apply Z.eqb_neq. rewrite E. unfold len. rewrite length_app. cbn [length]. lia. }
  assert (has_prefix [35] (write_line n) = false) as ->.
  { unfold write_line, has_prefix. rewrite Eb. cbn [app strip_prefix]. destruct (Z.eqb_spec 35 b); naive_solver. }
  assert (has_prefix [59] (write_line n) = false) as ->.
  { unfold write_line, has_prefix. rewrite Eb. cbn [app strip_prefix]. destruct (Z.eqb_spec 59 b); naive_solver. }
  assert (has_suffix [93] (write_line n) = false) as ->.
  { unfold has_suffix, strip_suffix. rewrite E, reverse_app. cbn [reverse rev_append app strip_prefix].
    change (reverse [z] ++ reverse l) with (z :: reverse l). change (reverse [93]) with [93]. cbn [strip_prefix].
    destruct (Z.eqb_spec 93 z); [congruence|done]. }
  rewrite andb_false_r. cbn [orb].
  assert (split_once 61 (write_line n) = Some (pf_name n, pf_protocol n ++ [44] ++ pf_server n ++ [44]
    ++ print_u64 (pf_port n) ++ mjoin ((fun f => 44 :: named_field f (escape f.2)) <$> pf_fields n))) as ->.
  { apply split_once_Some. split; [done|done]. }
  rewrite Hsec. cbn [negb]. rewrite split_written by done.
  match goal with |- context [(len ?l =? 1) && _] => assert (len l =? 1 = false) as -> end.
  { apply Z.eqb_neq. unfold len. cbn [length]. lia. }
  cbn [andb]. destruct (Z.leb_spec (max_nodes limits) (rg_index s)); [lia|]. by rewrite judge_written.
Qed.
Lemma read_lines_written number nodes s :
  Forall writable nodes -> Forall (fun n => len (write_line n) <= max_line_bytes limits) nodes ->
  is_proxy_section (rg_section s) = true ->
  0 <= rg_index s -> rg_index s + len nodes <= max_nodes limits <= umax 32 ->
  exists i, read_lines (numbered number (write_line <$> nodes)) s
  = Some (Ok (mkReading (rg_section s) (rg_nodes s ++ verdicts (rg_index s) number nodes) (rg_diagnostics s) i)).
Proof.
  intros Hw. revert number s. induction Hw as [|n nodes Hn _ IH]; intros number s Hl Hsec Hi Hmax; cbn [fmap list_fmap numbered read_lines verdicts].
  - exists (rg_index s). rewrite app_nil_r. by destruct s.
  - inversion_clear Hl as [|? ? Hl1 Hl2]. unfold len in Hmax. rewrite length_cons in Hmax.
    rewrite read_written by (done || lia). cbn [mbind option_bind].
    destruct (IH (sat_add_u 32 number 1) (push_node (verdict (rg_index s) number n) s)) as [i Hrest]; [done|done| | |].
    + unfold push_node, sat_add_u. cbn [rg_index]. unfold umax in *. lia.
    + unfold push_node, sat_add_u, len. cbn [rg_index]. rewrite Z.min_l; unfold umax in *; lia.
    + exists i. rewrite Hrest. unfold push_node. cbn [rg_nodes rg_section rg_diagnostics rg_index].
      by rewrite <- (assoc_L (++)).
Qed.

(** A profile is read as it was written.  Take any nodes with their named fields, written
    one to a line below a [[Proxy]] header with every value in quotes, where quotes and
    backslashes are escaped; the values are ASCII text of any kind (commas, quotes, equals
    signs, brackets), the other parts are plain words.  Then reading the profile returns,
    without diagnostics, exactly one result for every node in order: the verdict of the
    semantic check on what the node says, field by field, with nothing of the notation
    left in it. *)
Theorem surfboard_profile_exact bs payload nodes :
  normalize_bytes bs limits = Ok payload ->
  lines_of payload = bytes "[Proxy]" :: (write_line <$> nodes) ->
  Forall writable nodes -> Forall (fun n => len (write_line n) <= max_line_bytes limits) nodes ->
  7 <= max_line_bytes limits -> len nodes <= max_nodes limits <= umax 32 ->
  parse bs = Some (Ok (mkOutput (verdicts 0 (sat_add_u 32 (first_line_number payload) 1) nodes) [])).
Proof.
  intros Hn Hlines Hw Hl H7 Hmax. unfold parse_surfboard_ini. rewrite Hn. unfold numbered_lines. rewrite Hlines.
  cbn [numbered read_lines].
  assert (read_line (first_line_number payload) (bytes "[Proxy]") (mkReading [] [] [] 0)
    = Some (Ok (mkReading (bytes "Proxy") [] [] 0))) as ->.
  { unfold read_line. change (len (bytes "[Proxy]")) with 7. destruct (Z.ltb_spec (max_line_bytes limits) 7); [lia|]. reflexivity. }
  cbn [mbind option_bind].
  destruct (read_lines_written (sat_add_u 32 (first_line_number payload) 1) nodes (mkReading (bytes "Proxy") [] [] 0))
    as [i ->]; try done; cbn [rg_index]; lia.
Qed.
End written.

(** ** Examples *)
Module SurfboardSample.
Definition limits : ParserLimits := default (mkLimits 1 1 1 1 1 1 1 1 1 1 1 1) ParserLimits_default.
Definition trojan : ProfileNode :=
  mkProfileNode (bytes "Home, 1") (bytes "Trojan") (bytes "example.com") 443
    [(bytes "password", bytes "a,b=c\d" ++ [34]); (bytes "SNI", bytes "example.com"); (bytes "tls", bytes "true")].
Definition shadowsocks : ProfileNode :=
  mkProfileNode (bytes "Two") (bytes "ss") (bytes "192.0.2.1") 8388
    [(bytes "encrypt-method", bytes "aes-128-gcm"); (bytes "password", bytes "secret"); (bytes "obfs", bytes "http")].
Definition profile : list Z := bytes "[Proxy]" ++ [10] ++ write_line trojan ++ [13; 10] ++ write_line shadowsocks ++ [10].
Definition read (bs : list Z) : option (Result DiagnosticCode AdapterOutput) :=
  parse_surfboard_ini (fun _ => None) (fun _ => "") pinned_matrix None limits bs.
Definition credentials (r : option (Result DiagnosticCode AdapterOutput)) : option (list (option Credentials)) :=
  match r with
  | Some (Ok out) => Some ((fun r => (fun n => un_credentials (pn_inner n)) <$> ar_node r) <$> out_nodes out)
  | _ => None
  end.
End SurfboardSample.
Import SurfboardSample.

Lemma writable_sample : Forall writable [trojan; shadowsocks].
Proof.
  repeat constructor; try (vm_compute; congruence); try (vm_compute; lia); try (by apply (bool_decide_unpack _); vm_compute).
  all: eexists _, _; split; [reflexivity|split; vm_compute; congruence].
Qed.
Lemma surfboard_profile_exact_witness :
  read profile = Some (Ok (mkOutput (verdicts (fun _ => None) (fun _ => "") pinned_matrix None 0 2 [trojan; shadowsocks]) []))
  /\ credentials (read profile)
     = Some [Some (CTrojan (of_bytes (bytes "a,b=c\d" ++ [34])));
             Some (CShadowsocks "aes-128-gcm" "secret" (Some (mkPlugin "obfs-local" [("obfs", "http")])))].
Proof.
  split; [|vm_compute; reflexivity].
  apply (surfboard_profile_exact (fun _ => None) (fun _ => "") pinned_matrix None limits profile
           (mkNormalized (bytes "[Proxy]" ++ [10] ++ write_line trojan ++ [13; 10] ++ write_line shadowsocks) 1)).
  - vm_compute; reflexivity.
  - vm_compute; reflexivity.
  - apply writable_sample.
  - repeat constructor; vm_compute; congruence.
  - vm_compute; congruence.
  - split; vm_compute; congruence.
Defined.

(** A password of [p] and [a] with two dots above, in UTF-8: every byte above 127 is taken for a character of its
    own and becomes two, so the node is given another password. *)
Lemma non_ascii_damaged :
  credentials (read (bytes "[Proxy]" ++ [10] ++ bytes "N = trojan, example.com, 443, password=p" ++ [195; 164] ++ bytes ", tls=true"))
  = Some [Some (CTrojan (of_bytes [112; 195; 131; 194; 164]))].
Proof. vm_compute. reflexivity. Qed.
